(* ===== verification/_CoqProject ===== *)
-Q . S2P
Prelude.v
NetTypes.v
TunnelTypes.v
Nft.v
LinuxFirewall.v
RuleSemantics.v
FirewallRules.v
FirewallSpec.v
FirewallRefinement.v
TunnelStates.v
TunnelSafety.v
TunnelHandlers.v
TunnelTheorems.v
LinuxTunnel.v
TunnelThread.v
Connectivity.v
Fragment.v
AndroidRoutes.v
Constraints.v
RelayTypes.v
CustomLists.v
RelayQuery.v
RelayMatcher.v
RelaySelector.v
RelayTheorems.v
RelayLists.v
RelayExample.v
Versions.v
UpdateInfo.v
VersionCheck.v
VersionRouter.v
EncryptedDns.v
AccessMethods.v
AccessMode.v
ApiResolver.v
Json.v
Migrations.v
MigrationSteps.v
MigrationTheorems.v
Retry.v
Availability.v
DeviceService.v
AccountManager.v
AccountTheorems.v
DaemonSettings.v
SettingsPersister.v
TargetState.v
TunnelParams.v
SettingsPatch.v
GeoIp.v
SplitTunnel.v
DaemonTypes.v
DaemonCommands.v
Daemon.v
DaemonTheorems.v
DaemonTunnel.v
DaemonIntent.v
DaemonState.v
DaemonAnswers.v
SettingsExample.v
DaemonExample.v
ProtoTypes.v
ProtoSettings.v
ProtoState.v
ManagementInterface.v
ManagementClient.v
ManagementTheorems.v
ManagementExample.v
Routing.v
RoutingTheorems.v
Obfuscation.v
WireguardConfig.v
EphemeralPeers.v
WireguardMonitor.v
WireguardTheorems.v
WireguardRouting.v
WireguardExample.v
LinuxNetwork.v
ApiClient.v
OpenVpn.v
