(* ===== verification/Prelude.v ===== *)
(** * Verification of the Mullvad VPN app: the daemon and its libraries

    The program.  The Mullvad VPN app is a system daemon written in Rust.  The
    daemon (mullvad-daemon) keeps the settings and the account's device, selects
    relays (mullvad-relay-selector) and drives a tunnel state machine
    (talpid-core/src/tunnel_state_machine).  The state machine starts tunnels
    (talpid-wireguard, talpid-openvpn), and applies to the firewall
    (talpid-core/src/firewall) the policy of the state it is in: whatever happens
    to a tunnel, traffic outside of it must not leave the device.  The daemon talks
    to Mullvad's API (mullvad-api), which it must be able to reach while everything
    else is blocked, also through proxies, and checks for new versions of the app
    (mullvad-version, mullvad-update).

    What is modelled.  The Linux build, with two exceptions: the routes of the
    Android VPN service, and the version router as built with in-app upgrades
    (Windows, macOS).  Definitions have the names of the source.  A pure function
    is a function; a method that changes [self] takes and returns the state; [?] is
    a bind of [result]; an actor is a step function from its state and an input (a
    message, a timer, a finished call) to its new state and what it sends; a panic
    is an outcome of its own where the code can reach one.

    Files and the code they model, in the order of their dependencies.

    - Shared: this file (results, state passing, machine integers, lists).
    - Network types: NetTypes.v (talpid-types/src/net), TunnelTypes.v
      (talpid-types/src/tunnel.rs, the policies of talpid-core/src/firewall/mod.rs,
      the DNS configuration of talpid-core/src/dns/mod.rs).
    - Linux firewall (talpid-core/src/firewall/linux.rs): Nft.v is the interface to
      nftables, LinuxFirewall.v the rule builders, RuleSemantics.v and
      FirewallRules.v what the rules match, FirewallSpec.v the specification of a
      policy taken from docs/security.md (forwarding as the code does it, which is
      narrower), FirewallRefinement.v that the installed tables, at each hook and
      with all their chains, do exactly what the specification says, marks included.
    - Tunnel state machine (talpid-core/src/tunnel_state_machine): TunnelStates.v has
      every handler of the five states over a [World] (shared values, operating
      system, log of calls); TunnelSafety.v and TunnelHandlers.v the invariant and
      that each handler keeps it; TunnelTheorems.v the theorems; LinuxTunnel.v the
      machine on top of the Linux firewall, with runs.  TunnelThread.v is the thread
      that runs a tunnel, Connectivity.v the check whether a WireGuard tunnel works
      (talpid-wireguard/src/connectivity).
    - Transport: Fragment.v (mullvad-masque-proxy/src/fragment.rs), AndroidRoutes.v
      (talpid-tunnel/src/tun_provider/android).
    - Relay selection: Constraints.v, RelayTypes.v, CustomLists.v (mullvad-types);
      RelayQuery.v, RelayMatcher.v, RelaySelector.v (mullvad-relay-selector);
      RelayTheorems.v and RelayLists.v what they select; RelayExample.v runs.
    - Versions: Versions.v (mullvad-version), UpdateInfo.v (mullvad-update),
      VersionCheck.v and VersionRouter.v (mullvad-daemon/src/version).
    - Access to the API: EncryptedDns.v (mullvad-encrypted-dns-proxy),
      AccessMethods.v (mullvad-types/src/access_method.rs), AccessMode.v
      (mullvad-api/src/access_mode.rs), ApiResolver.v the daemon's side, and their
      composition with state machine and firewall.
    - Settings migrations (mullvad-daemon/src/migrations): Json.v (documents),
      Migrations.v (the eleven steps, the account history and the files),
      MigrationSteps.v, MigrationTheorems.v.
    - Account and device: Retry.v (talpid-future/src/retry.rs), Availability.v
      (mullvad-api/src/availability.rs), DeviceService.v (mullvad-daemon/src/device/service.rs:
      requests, retries, error mapping), AccountManager.v (device/mod.rs and
      device/api.rs: the actor that owns the device, and the checks of the device
      while a tunnel fails), AccountTheorems.v.
    - Settings: DaemonSettings.v (mullvad-types/src/settings, mullvad-daemon/src/dns.rs,
      mullvad-types/src/features.rs), SettingsPersister.v
      (mullvad-daemon/src/settings/mod.rs), TargetState.v (target_state.rs,
      account_history.rs), TunnelParams.v (tunnel.rs), SettingsPatch.v
      (settings/patch.rs), GeoIp.v (geoip.rs), SplitTunnel.v
      (talpid-core/src/split_tunnel/linux.rs).
    - The daemon (mullvad-daemon/src/lib.rs, custom_list.rs, access_method.rs):
      DaemonTypes.v has its state, commands, events and what it sends,
      DaemonCommands.v the handlers of commands, Daemon.v those of events, the tasks
      it spawns, start and end; DaemonTheorems.v rules for reasoning about handlers,
      and that the tunnel state machine is told the settings; DaemonTunnel.v and
      DaemonIntent.v the daemon composed with the state machine of TunnelStates.v,
      DaemonState.v that the settings stay well-formed, DaemonAnswers.v that
      requests are answered; SettingsExample.v and DaemonExample.v runs.
    - Management interface: ProtoTypes.v, ProtoSettings.v and ProtoState.v the
      messages and their conversions (mullvad-management-interface/src/types),
      ManagementInterface.v the service (mullvad-daemon/src/management_interface.rs),
      ManagementClient.v its client (mullvad-management-interface/src/client.rs),
      ManagementTheorems.v the two with the daemon between them,
      ManagementExample.v runs.
    - Routing: Routing.v (talpid-routing, for Linux), RoutingTheorems.v with what is
      assumed of the kernel's routing policy.
    - WireGuard tunnels: Obfuscation.v (tunnel-obfuscation), WireguardConfig.v
      (talpid-wireguard/src/config.rs, the MTU), EphemeralPeers.v
      (talpid-tunnel-config-client), WireguardMonitor.v (talpid-wireguard/src/lib.rs,
      ephemeral.rs, obfuscation.rs: the task that brings up a tunnel),
      WireguardTheorems.v, WireguardRouting.v its composition with the route manager
      and the kernel, WireguardExample.v runs.
    - The host: LinuxNetwork.v (talpid-core/src/dns/linux, offline/linux.rs).
    - The API: ApiClient.v (mullvad-api: requests, the request service, access
      tokens, the address cache; the relay list of the server and its updater in
      mullvad-daemon/src/relay_list; api_address_updater.rs).
    - OpenVPN tunnels: OpenVpn.v (talpid-openvpn, talpid-openvpn-plugin).

    What the theorems show, by group (the properties have an id C<n> in their
    comment).  Firewall: the installed rules refine the specification of the policy;
    public traffic and DNS requests are confined to what the policy allows; applying
    a policy is atomic.  State machine: a policy stays in force until someone asks
    to disconnect (the kill switch), it is the one of the current state, transitions
    follow the documented diagram, at most one tunnel exists, commands are
    acknowledged, shutting down terminates; on Linux this means that a connected
    device does not leak.  Connectivity: a dead tunnel is detected within a bound, a
    live one is never reported dead.  Relays: a selection respects the user's
    settings, also on a retry, and succeeds when a relay exists; the list in use is the parsed and overridden one.  Versions: the
    metadata that is accepted is signed, not expired and not older than the cache;
    only such versions are suggested.  API access: selector, daemon and firewall
    agree on the endpoint, the API stays reachable while blocked, rotation reaches
    every method.  Migrations: every older document reaches the current version with
    the user's choices kept; what a failure leaves on disk.
    Accounts: the manager never panics and loses no request, listeners and cache
    follow the device state, failing tunnels lead to bounded device checks.
    Settings: what is written of them survives restarts and failures, damaged files
    lock the device down, patches do what their documentation says.  Daemon: what
    the user has set is what the firewall enforces, a user who wants to be secured is, a daemon
    stopped by the system leaves traffic blocked, settings stay well-formed and
    requests are answered once.  Management interface: what a client asks for
    reaches the daemon as it was meant, what the daemon answers and tells reaches
    the client, and the settings it accepts can be read back.  Routing: the rules
    send unmarked traffic to the tunnel's table and nothing else, and routes and
    rules are removed at the end.  WireGuard: a tunnel is reported as up only with
    the keys that the relays answered with, and then takes the traffic; MTUs stay in
    bounds; the transports of the multiplexer see every packet; obfuscation can be undone.
    Host: the user's /etc/resolv.conf is restored, also after a crash.  API: one
    token is fetched at a time and every request for it is answered; no relay of
    the server's list is lost or misplaced.  OpenVPN: the wait for a tunnel ends
    after everything it started, and does end once it is closed; credentials are
    not passed as arguments, and a file with them stays only if the log says so; a
    tunnel that is up takes the traffic.

    Bounds and fuel.  Loops over data are structural.  Where a recursion is not,
    the fuel is a number that is proved enough: the digits of a number (a 32-bit
    number has at most ten), the name generator of the last migration (one more than
    the names before it, by a pigeonhole argument).  Retry strategies have the
    number of delays of the source; where they have no end (the download of the
    relay list) the fuel is the number of attempts.  Loops that run for ever (the actors, the
    connectivity monitor) are step functions folded over the list of inputs, so the
    theorems hold of every finite run.  Machine integers are [Z] with the
    wrap-around or the range check of the source written out.

    Parameters.  Code outside the repository is a class, with what the code relies on
    as its laws and an instance that satisfies them: [IpNetworkCrate] (ipnetwork),
    [NftRules] and [NftTables] (nftables), [LinuxEnv] and [LinuxHost] (what the host
    answers), [TunnelOs] and [TunnelServices] (what the state machine calls),
    [Oracle] (clock, counters and pings of the connectivity check), [Host] (random
    numbers and hash order in the relay selector), [MetadataCrates] (JSON and
    signatures of version metadata), [Formats] (text formats of migrated values).
    [AccessMethodResolver] and [LawfulResolver] are a trait of the source and its
    contract, discharged by the daemon's resolver.
    [Keys] (derivation of public keys), [SettingsJson], [TargetStateJson],
    [PatchJson] and [IpText] (serde_json on the types involved), [WireText], [Chrono]
    and [VersionText] (text forms in messages), [Rtnetlink], [NetlinkPacket] and
    [LinuxRouting] (netlink, and how Linux routes), [HashOrder] (iteration over hash
    sets), [Kem] (key encapsulation), [SocketIo] and [TunnelEnv] (sockets and the
    tunnel implementation), [ConfigText] and [SocketText] (text of keys and
    addresses), [ResolvConf] and [DnsServices] (resolv-conf and the DNS services of
    the host), [ApiCrates] (http, serde), [AddressText] and [Shadowsocks] (addresses,
    the shadowsocks crate) are of the same kind.

    Not modelled.  Input and output proper (netlink, D-Bus, sockets, TLS, QUIC, the
    file system below whole files) and the foreign-function interfaces of the
    tunnel implementations (wireguard-go, the kernel, boringtun); the code of other
    platforms (Windows, macOS, Android but for its routes, iOS); the command-line
    client, which parses arguments and prints answers; installers, version tooling
    and problem reports; the desktop and mobile user interfaces, which are not
    Rust.

    Left for an extension: the D-Bus clients (talpid-dbus), the transport of API
    requests (mullvad-api/src/https_client_with_sni.rs), the MASQUE client, the leak
    checker and the command-line client. *)

From stdpp Require Export base list strings gmap.
From Stdlib Require Export ZArith Lia.

#[global] Open Scope Z_scope.

(** ** Fallible computations

    Rust's [Result<T, E>].  The error type comes first so that [result E] is a
    monad for stdpp's [x ← m; k] notation, which plays the part of [?]. *)
Inductive result (E A : Type) : Type :=
| Ok (a : A)
| Err (e : E).
Arguments Ok {E A} a.
Arguments Err {E A} e.

#[global] Instance result_ret E : MRet (result E) := λ A a, Ok a.
#[global] Instance result_bind E : MBind (result E) := λ A B f m,
  match m with Ok a => f a | Err e => Err e end.
#[global] Instance result_fmap E : FMap (result E) := λ A B f m,
  match m with Ok a => Ok (f a) | Err e => Err e end.

(** [Result::is_ok], [Result::err] and [Result::map_err]. *)
Definition is_ok {E A} (r : result E A) : bool :=
  match r with Ok _ => true | Err _ => false end.
Definition result_err {E A} (r : result E A) : option E :=
  match r with Ok _ => None | Err e => Some e end.
Definition map_err {E F A} (f : E → F) (r : result E A) : result F A :=
  match r with Ok a => Ok a | Err e => Err (f e) end.

(** A loop [for x in l { body(x)?; }] that threads a state. *)
Fixpoint try_fold {E A B} (f : B → A → result E B) (l : list A) (b : B) : result E B :=
  match l with
  | [] => Ok b
  | x :: l => b' ← f b x; try_fold f l b'
  end.

(** ** State passing

    A computation over a store [S]; [&mut] arguments of the source are
    components of the store. *)
Definition stateM (S A : Type) : Type := S → A * S.
#[global] Instance stateM_ret S : MRet (stateM S) := λ A a s, (a, s).
#[global] Instance stateM_bind S : MBind (stateM S) := λ A B f m s,
  let '(a, s') := m s in f a s'.

(** ** Machine integers *)

(** The value of [z] truncated to [w] bits, as unsigned wrap-around
    arithmetic keeps it. *)
Definition wrap (w z : Z) : Z := z mod 2 ^ w.

Definition u8_range (z : Z) : Prop := 0 ≤ z < 2 ^ 8.
Definition u16_range (z : Z) : Prop := 0 ≤ z < 2 ^ 16.
Definition u32_range (z : Z) : Prop := 0 ≤ z < 2 ^ 32.
Definition u128_range (z : Z) : Prop := 0 ≤ z < 2 ^ 128.

(** Little- and big-endian byte strings of a fixed width; a byte is a [Z]
    between 0 and 255. *)
Fixpoint le_bytes (n : nat) (z : Z) : list Z :=
  match n with
  | O => []
  | S n => z mod 256 :: le_bytes n (z / 256)
  end.
Definition be_bytes (n : nat) (z : Z) : list Z := rev (le_bytes n z).

Fixpoint le_val (bs : list Z) : Z :=
  match bs with
  | [] => 0
  | b :: bs => b + 256 * le_val bs
  end.

(** [u16::to_be] on the little-endian hosts the daemon is built for. *)
Definition u16_to_be (z : Z) : Z := le_val (be_bytes 2 z).

(** ** Tactics *)

(** Case analysis on the scrutinee of a [match] or [if] of the goal or of a
    hypothesis, keeping the equation. *)
Ltac split_match :=
  match goal with
  | |- context [match ?x with _ => _ end] => destruct x eqn:?
  | H : context [match ?x with _ => _ end] |- _ => destruct x eqn:?
  end.

(** Boolean facts to propositions. *)
Ltac bool_to_prop :=
  repeat match goal with
  | H : _ && _ = true |- _ => apply andb_true_iff in H as [? ?]
  | H : _ || _ = false |- _ => apply orb_false_iff in H as [? ?]
  | H : negb _ = true |- _ => apply negb_true_iff in H
  | H : negb _ = false |- _ => apply negb_false_iff in H
  | H : bool_decide _ = true |- _ => apply bool_decide_eq_true in H
  | H : bool_decide _ = false |- _ => apply bool_decide_eq_false in H
  end.

(** ** Lemmas on the state and result monads *)

Lemma result_bind_ok {E A B} (m : result E A) (f : A → result E B) b :
  (m ≫= f) = Ok b ↔ ∃ a, m = Ok a ∧ f a = Ok b.
Proof. destruct m; cbn; split; [eauto|intros (?&[= <-]&?); done|done|intros (?&?&?); done]. Qed.

Lemma try_fold_ok_app {E A B} (f : B → A → result E B) l1 l2 b b' :
  try_fold f (l1 ++ l2) b = Ok b' ↔
  ∃ b1, try_fold f l1 b = Ok b1 ∧ try_fold f l2 b1 = Ok b'.
Proof.
  revert b; induction l1 as [|x l1 IH]; intros b; cbn.
  - split; [eauto|by intros (?&[= <-]&?)].
  - destruct (f b x); cbn; [apply IH|]. split; [done|by intros (?&?&?)].
Qed.

(** ** Lemmas on byte strings *)

Lemma length_le_bytes n z : length (le_bytes n z) = n.
Proof. revert z; induction n; cbn; auto. Qed.

Lemma length_be_bytes n z : length (be_bytes n z) = n.
Proof. unfold be_bytes. by rewrite length_rev, length_le_bytes. Qed.

Lemma le_val_le_bytes n z :
  0 ≤ z < 256 ^ Z.of_nat n → le_val (le_bytes n z) = z.
Proof.
  revert z; induction n as [|n IH]; intros z Hz.
  - change (256 ^ Z.of_nat 0) with 1 in Hz. cbn. lia.
  - cbn [le_bytes le_val]. rewrite Nat2Z.inj_succ, Z.pow_succ_r in Hz by lia.
    rewrite IH; [pose proof (Z.div_mod z 256); lia|].
    split; [apply Z.div_pos; lia|apply Z.div_lt_upper_bound; lia].
Qed.

Lemma le_bytes_le_val bs :
  Forall u8_range bs → le_bytes (length bs) (le_val bs) = bs.
Proof.
  induction 1 as [|b bs Hb _ IH]; cbn; [done|].
  unfold u8_range in Hb. change (2 ^ 8) with 256 in Hb.
  rewrite (Z.mul_comm 256), Z.mod_add, Z.mod_small, Z.div_add, Z.div_small by lia.
  by rewrite Z.add_0_l, IH.
Qed.

Lemma le_bytes_range n z : Forall u8_range (le_bytes n z).
Proof.
  revert z; induction n; intros z; cbn; constructor; auto.
  unfold u8_range. apply Z.mod_pos_bound. lia.
Qed.

Lemma le_bytes_inj n x y :
  0 ≤ x < 256 ^ Z.of_nat n → 0 ≤ y < 256 ^ Z.of_nat n →
  le_bytes n x = le_bytes n y → x = y.
Proof. intros Hx Hy E. by rewrite <- (le_val_le_bytes n x), E, le_val_le_bytes. Qed.

Lemma be_bytes_inj n x y :
  0 ≤ x < 256 ^ Z.of_nat n → 0 ≤ y < 256 ^ Z.of_nat n →
  be_bytes n x = be_bytes n y → x = y.
Proof.
  intros Hx Hy E. apply (le_bytes_inj n); [done..|].
  apply (f_equal (@rev Z)) in E. unfold be_bytes in E. by rewrite !rev_involutive in E.
Qed.

(** A value stored in network order on a little-endian host reads back as its
    big-endian bytes. *)
Lemma le_bytes_to_be z : le_bytes 2 (u16_to_be z) = be_bytes 2 z.
Proof.
  unfold u16_to_be. change 2%nat with (length (be_bytes 2 z)) at 1.
  apply le_bytes_le_val. unfold be_bytes. apply Forall_rev, le_bytes_range.
Qed.

(** Masking byte-wise is masking the value. *)
Lemma le_bytes_land n x y :
  zip_with Z.land (le_bytes n x) (le_bytes n y) = le_bytes n (Z.land x y).
Proof.
  revert x y; induction n as [|n IH]; intros x y; cbn [le_bytes zip_with]; [done|].
  rewrite IH. change 256 with (2 ^ 8). rewrite <- !Z.land_ones, <- !Z.shiftr_div_pow2 by lia.
  rewrite Z.shiftr_land. f_equal. apply Z.bits_inj'. intros i _.
  rewrite !Z.land_spec. destruct (Z.testbit x i), (Z.testbit y i), (Z.testbit (Z.ones 8) i); done.
Qed.

Lemma zip_with_rev {A B C} (f : A → B → C) l k :
  length l = length k → zip_with f (rev l) (rev k) = rev (zip_with f l k).
Proof.
  revert k; induction l as [|a l IH]; intros [|b k]; cbn; try done; intros [= E].
  rewrite zip_with_app by (by rewrite !length_rev). by rewrite IH.
Qed.

Lemma be_bytes_land n x y :
  zip_with Z.land (be_bytes n x) (be_bytes n y) = be_bytes n (Z.land x y).
Proof.
  unfold be_bytes. rewrite zip_with_rev by (by rewrite !length_le_bytes).
  by rewrite le_bytes_land.
Qed.

(** Exclusive-or with zero bytes changes nothing. *)
Lemma zip_with_lxor_0 (l : list Z) : zip_with Z.lxor l (repeat 0 (length l)) = l.
Proof. induction l; cbn; [done|]. by rewrite Z.lxor_0_r, IHl. Qed.

(** ** Shared hints *)
Create HintDb vpn discriminated.
Create Rewrite HintDb vpn.
#[export] Hint Resolve length_le_bytes length_be_bytes le_bytes_range : vpn.
#[export] Hint Rewrite @length_le_bytes @length_be_bytes le_bytes_to_be
  le_bytes_land be_bytes_land : vpn.

(** * Updating one field of a record

    Rust assigns to one field of a structure.  [x <| f := v |>] is the record [x]
    with the field whose projection is [f] replaced by [v], and
    [x <| f ::= g |>] the one with [g] applied to it.  A record type opts in with
    an instance of [Eta] that rebuilds a value from its projections; the update is
    found by abstracting the projection in it. *)

Class Eta (R : Type) : Type := eta : R → R.
Class Setter {R T : Type} (get : R → T) : Type := modify : (T → T) → R → R.
Arguments modify {R T} get {_} g x.

Ltac derive_setter :=
  lazymatch goal with
  | |- @Setter ?R ?T ?get =>
      let inst := constr:(_ : Eta R) in
      let body := eval red in inst in
      let abstracted := eval pattern get in body in
      lazymatch abstracted with
      | ?f _ => exact (λ g, f (λ x, g (get x)))
      end
  end.
#[export] Hint Extern 0 (Setter _) => derive_setter : typeclass_instances.

Notation "x <| f := v |>" := (modify f (λ _, v) x)
  (at level 12, f at next level, left associativity, format "x  <| f  :=  v |>").
Notation "x <| f ::= g |>" := (modify f g x)
  (at level 12, f at next level, left associativity, format "x  <| f  ::=  g |>").
