(* ===== verification/NetTypes.v ===== *)
(** * Network types shared by the daemon (talpid-types/src/net)

    Addresses, endpoints, obfuscators, tunnel parameters and the host's
    connectivity.  Addresses are kept as the unsigned integers their octets
    denote; keys, passwords and file names are strings.  The `ipnetwork` crate
    is not part of the repository: what the code uses of it is the class
    [IpNetworkCrate]. *)

From Stdlib Require Import Sorted.
From S2P Require Import Prelude.

(** ** std::net *)

Inductive IpAddr : Set :=
| AddrV4 (a : Z)
| AddrV6 (a : Z).

(** [Ipv4Addr::new] and [Ipv6Addr::new]: octets and segments, most significant
    first. *)
Definition Ipv4Addr_new (a b c d : Z) : Z :=
  a * 2 ^ 24 + b * 2 ^ 16 + c * 2 ^ 8 + d.
Definition Ipv6Addr_new (a b c d e f g h : Z) : Z :=
  a * 2 ^ 112 + b * 2 ^ 96 + c * 2 ^ 80 + d * 2 ^ 64 +
  e * 2 ^ 48 + f * 2 ^ 32 + g * 2 ^ 16 + h.

Inductive SocketAddr : Set :=
| SockV4 (ip port : Z)
| SockV6 (ip port flowinfo scope_id : Z).

(** [SocketAddr::new], [ip] and [port]. *)
Definition SocketAddr_new (ip : IpAddr) (port : Z) : SocketAddr :=
  match ip with
  | AddrV4 a => SockV4 a port
  | AddrV6 a => SockV6 a port 0 0
  end.
Definition sock_ip (s : SocketAddr) : IpAddr :=
  match s with SockV4 a _ => AddrV4 a | SockV6 a _ _ _ => AddrV6 a end.
Definition sock_port (s : SocketAddr) : Z :=
  match s with SockV4 _ p => p | SockV6 _ p _ _ => p end.

(** The value ranges the Rust types guarantee. *)
Definition ip_wf (ip : IpAddr) : Prop :=
  match ip with AddrV4 a => u32_range a | AddrV6 a => u128_range a end.
Definition sock_wf (s : SocketAddr) : Prop :=
  ip_wf (sock_ip s) ∧ u16_range (sock_port s).

#[global] Instance IpAddr_eq_dec : EqDecision IpAddr.
Proof. solve_decision. Defined.
#[global] Instance SocketAddr_eq_dec : EqDecision SocketAddr.
Proof. solve_decision. Defined.

(** ** The ipnetwork crate *)

Inductive IpNetwork : Set :=
| NetV4 (ip prefix : Z)
| NetV6 (ip prefix : Z).

#[global] Instance IpNetwork_eq_dec : EqDecision IpNetwork.
Proof. solve_decision. Defined.

(** [IpNetwork::ip] returns the address the network was created with. *)
Definition net_ip (n : IpNetwork) : IpAddr :=
  match n with NetV4 a _ => AddrV4 a | NetV6 a _ => AddrV6 a end.

(** What the documentation of the crate promises: the mask has the [prefix] most
    significant bits set, and a network contains the addresses of its family
    that agree with its own address under the mask. *)
Class IpNetworkCrate : Set := {
  ipv4_mask : Z → Z;
  ipv6_mask : Z → Z;
  net_contains : IpNetwork → IpAddr → bool;
  ipv4_mask_spec p : 0 ≤ p ≤ 32 → ipv4_mask p = 2 ^ 32 - 2 ^ (32 - p);
  ipv6_mask_spec p : 0 ≤ p ≤ 128 → ipv6_mask p = 2 ^ 128 - 2 ^ (128 - p);
  net_contains_spec n ip :
    net_contains n ip =
      match n, ip with
      | NetV4 a p, AddrV4 x => Z.land x (ipv4_mask p) =? Z.land a (ipv4_mask p)
      | NetV6 a p, AddrV6 x => Z.land x (ipv6_mask p) =? Z.land a (ipv6_mask p)
      | _, _ => false
      end
}.

(** The masks and the containment test the documentation describes. *)
#[export] Instance ip_network_model : IpNetworkCrate.
Proof.
  refine {| ipv4_mask p := 2 ^ 32 - 2 ^ (32 - p);
            ipv6_mask p := 2 ^ 128 - 2 ^ (128 - p);
            net_contains n ip :=
              match n, ip with
              | NetV4 a p, AddrV4 x =>
                  Z.land x (2 ^ 32 - 2 ^ (32 - p)) =? Z.land a (2 ^ 32 - 2 ^ (32 - p))
              | NetV6 a p, AddrV6 x =>
                  Z.land x (2 ^ 128 - 2 ^ (128 - p)) =? Z.land a (2 ^ 128 - 2 ^ (128 - p))
              | _, _ => false
              end |}; done.
Defined.

(** ** Endpoints (talpid-types/src/net/mod.rs) *)

Inductive TransportProtocol : Set := Udp | Tcp.

Record Endpoint : Set := {
  address : SocketAddr;
  protocol : TransportProtocol
}.

Definition Endpoint_new (address : IpAddr) (port : Z) (protocol : TransportProtocol) : Endpoint :=
  {| address := SocketAddr_new address port; protocol := protocol |}.

Definition Endpoint_from_socket_address (address : SocketAddr)
    (protocol : TransportProtocol) : Endpoint :=
  {| address := address; protocol := protocol |}.

Inductive AllowedClients : Set := Root | All.

Definition allow_all (c : AllowedClients) : bool :=
  match c with All => true | Root => false end.

Record AllowedEndpoint : Set := {
  endpoint : Endpoint;
  clients : AllowedClients
}.

Inductive AllowedTunnelTraffic : Set :=
| TrafficNone
| TrafficAll
| TrafficOne (e : Endpoint)
| TrafficTwo (e1 e2 : Endpoint).

#[global] Instance TransportProtocol_eq_dec : EqDecision TransportProtocol.
Proof. solve_decision. Defined.
#[global] Instance Endpoint_eq_dec : EqDecision Endpoint.
Proof. solve_decision. Defined.
#[global] Instance AllowedClients_eq_dec : EqDecision AllowedClients.
Proof. solve_decision. Defined.
#[global] Instance AllowedEndpoint_eq_dec : EqDecision AllowedEndpoint.
Proof. solve_decision. Defined.
#[global] Instance AllowedTunnelTraffic_eq_dec : EqDecision AllowedTunnelTraffic.
Proof. solve_decision. Defined.

(** The derived [Ord] of [Endpoint]: address first (IPv4 before IPv6, then the
    fields in order), protocol second. *)
Definition lex (c d : comparison) : comparison :=
  match c with Eq => d | _ => c end.
Definition sock_cmp (s t : SocketAddr) : comparison :=
  match s, t with
  | SockV4 a p, SockV4 b q => lex (a ?= b) (p ?= q)
  | SockV4 _ _, SockV6 _ _ _ _ => Lt
  | SockV6 _ _ _ _, SockV4 _ _ => Gt
  | SockV6 a p f i, SockV6 b q g j =>
      lex (a ?= b) (lex (p ?= q) (lex (f ?= g) (i ?= j)))
  end.
Definition protocol_cmp (p q : TransportProtocol) : comparison :=
  match p, q with
  | Udp, Tcp => Lt
  | Tcp, Udp => Gt
  | _, _ => Eq
  end.
Definition endpoint_cmp (x y : Endpoint) : comparison :=
  lex (sock_cmp (address x) (address y)) (protocol_cmp (protocol x) (protocol y)).

(** [Vec::sort] (any stable sort gives the list sorted by the total order) and
    [Vec::dedup] (drops elements equal to the one kept just before them). *)
Fixpoint endpoint_insert (x : Endpoint) (l : list Endpoint) : list Endpoint :=
  match l with
  | [] => [x]
  | y :: l => match endpoint_cmp x y with
              | Gt => y :: endpoint_insert x l
              | _ => x :: y :: l
              end
  end.
Definition endpoint_sort (l : list Endpoint) : list Endpoint :=
  foldr endpoint_insert [] l.
Fixpoint dedup (l : list Endpoint) : list Endpoint :=
  match l with
  | x :: (y :: _) as l' => if decide (x = y) then dedup l' else x :: dedup l'
  | _ => l
  end.

(** ** Obfuscators (talpid-types/src/net/obfuscation.rs) *)

Inductive ObfuscatorConfig : Set :=
| Udp2Tcp (endpoint : SocketAddr)
| Shadowsocks (endpoint : SocketAddr)
| Quic (hostname : string) (endpoint : SocketAddr) (auth_token : string)
| Lwo (endpoint : SocketAddr).

Definition ObfuscatorConfig_endpoint (c : ObfuscatorConfig) : Endpoint :=
  match c with
  | Udp2Tcp e => {| address := e; protocol := Tcp |}
  | Shadowsocks e => {| address := e; protocol := Udp |}
  | Quic _ e _ => {| address := e; protocol := Udp |}
  | Lwo e => {| address := e; protocol := Udp |}
  end.

Inductive Obfuscators : Set :=
| Single (c : ObfuscatorConfig)
| Multiplexer (direct : option SocketAddr) (first : ObfuscatorConfig)
    (remaining : list ObfuscatorConfig).

Definition Obfuscators_multiplexer (direct : option SocketAddr)
    (obfuscators : list ObfuscatorConfig) : option Obfuscators :=
  match obfuscators with
  | [] => None
  | first :: remaining => Some (Multiplexer direct first remaining)
  end.

Definition Obfuscators_endpoints (o : Obfuscators) : list Endpoint :=
  match o with
  | Single config => [ObfuscatorConfig_endpoint config]
  | Multiplexer direct first_config remaining_configs =>
      let endpoints := match direct with
                       | Some d => [{| address := d; protocol := Udp |}]
                       | None => []
                       end in
      let endpoints := endpoints ++ [ObfuscatorConfig_endpoint first_config] in
      let endpoints := endpoints ++ map ObfuscatorConfig_endpoint remaining_configs in
      dedup (endpoint_sort endpoints)
  end.

(** ** Proxies (talpid-types/src/net/proxy.rs) *)

Inductive ProxyType : Set := ProxyShadowsocks | ProxyCustom.
Record ProxyEndpoint : Set := {
  pe_endpoint : Endpoint;
  proxy_type : ProxyType
}.
Record SocksAuth : Set := { username : string; password : string }.
Inductive CustomProxy : Set :=
| CustomShadowsocks (endpoint : SocketAddr) (password cipher : string)
| Socks5Local (remote_endpoint : Endpoint) (local_port : Z)
| Socks5Remote (endpoint : SocketAddr) (auth : option SocksAuth).

(** The text of a socket address has no flow label. *)
Definition clear_flowinfo (s : SocketAddr) : SocketAddr :=
  match s with SockV6 ip port _ scope_id => SockV6 ip port 0 scope_id | s => s end.

Definition get_remote_endpoint (p : CustomProxy) : ProxyEndpoint :=
  match p with
  | Socks5Local remote _ => {| pe_endpoint := remote; proxy_type := ProxyCustom |}
  | Socks5Remote e _ =>
      {| pe_endpoint := Endpoint_from_socket_address e Tcp; proxy_type := ProxyCustom |}
  | CustomShadowsocks e _ _ =>
      {| pe_endpoint := Endpoint_from_socket_address e Tcp; proxy_type := ProxyShadowsocks |}
  end.

(** [SocksAuth::new]: both lengths (in bytes) are between 1 and 255; the password
    is checked first. *)
Inductive ProxyError : Set := InvalidSocksAuthValues (reason : string).
Definition socks_len_ok (s : string) : bool :=
  (1 <=? Z.of_nat (String.length s)) && (Z.of_nat (String.length s) <=? 255).
Definition SocksAuth_new (username password : string) : result ProxyError SocksAuth :=
  if negb (socks_len_ok password) then
    Err (InvalidSocksAuthValues "Password length should between 1 and 255 bytes")
  else if negb (socks_len_ok username) then
    Err (InvalidSocksAuthValues "Username length should between 1 and 255 bytes")
  else Ok {| username := username; password := password |}.

(** ** Tunnel parameters (net/openvpn.rs, net/wireguard.rs, net/mod.rs) *)

Record GenericTunnelOptions : Set := { enable_ipv6 : bool }.

Module openvpn.
Record ConnectionConfig : Set := {
  endpoint : Endpoint;
  username : string;
  password : string
}.
Record TunnelOptions : Set := { mssfix : option Z }.
Record TunnelParameters : Set := {
  config : ConnectionConfig;
  options : TunnelOptions;
  generic_options : GenericTunnelOptions;
  proxy : option CustomProxy;
  fwmark : Z
}.
End openvpn.

Module wireguard.
Record PeerConfig : Set := {
  public_key : list Z;
  allowed_ips : list IpNetwork;
  endpoint : SocketAddr;
  psk : option (list Z);
  constant_packet_size : bool
}.
Record TunnelConfig : Set := {
  private_key : list Z;
  addresses : list IpAddr
}.
Record ConnectionConfig : Set := {
  tunnel : TunnelConfig;
  peer : PeerConfig;
  exit_peer : option PeerConfig;
  ipv4_gateway : Z;
  ipv6_gateway : option Z;
  fwmark : option Z
}.
Record TunnelOptions : Set := {
  mtu : option Z;
  quantum_resistant : bool;
  daita : bool
}.
Record TunnelParameters : Set := {
  connection : ConnectionConfig;
  options : TunnelOptions;
  generic_options : GenericTunnelOptions;
  obfuscation : option Obfuscators
}.

Definition get_endpoint (c : ConnectionConfig) : Endpoint :=
  {| address := endpoint (peer c); protocol := Udp |}.

Definition get_exit_endpoint (c : ConnectionConfig) : option Endpoint :=
  match exit_peer c with
  | Some peer => Some {| address := endpoint peer; protocol := Udp |}
  | None => None
  end.

Definition get_next_hop_endpoints (p : TunnelParameters) : list Endpoint :=
  match obfuscation p with
  | Some proxy => Obfuscators_endpoints proxy
  | None => [get_endpoint (connection p)]
  end.
End wireguard.

Inductive TunnelParameters : Set :=
| OpenVpnParams (params : openvpn.TunnelParameters)
| WireguardParams (params : wireguard.TunnelParameters).

Inductive TunnelType : Set := OpenVpn | Wireguard.
Inductive ObfuscationType : Set := ObfUdp2Tcp | ObfShadowsocks | ObfQuic | ObfLwo.

Record ObfuscationEndpoint : Set := {
  oe_endpoint : Endpoint;
  obfuscation_type : ObfuscationType
}.

Inductive ObfuscationInfo : Set :=
| InfoSingle (e : ObfuscationEndpoint)
| InfoMultiplexer (direct : option Endpoint) (obfuscators : list ObfuscationEndpoint).

Definition ObfuscationInfo_get_endpoints (i : ObfuscationInfo) : list Endpoint :=
  match i with
  | InfoSingle ep => [oe_endpoint ep]
  | InfoMultiplexer direct obfuscators =>
      (match direct with Some d => [d] | None => [] end) ++ map oe_endpoint obfuscators
  end.

Definition ObfuscationEndpoint_from (config : ObfuscatorConfig) : ObfuscationEndpoint :=
  {| oe_endpoint := ObfuscatorConfig_endpoint config;
     obfuscation_type := match config with
                         | Udp2Tcp _ => ObfUdp2Tcp
                         | Shadowsocks _ => ObfShadowsocks
                         | Quic _ _ _ => ObfQuic
                         | Lwo _ => ObfLwo
                         end |}.

Definition ObfuscationInfo_from (config : Obfuscators) : ObfuscationInfo :=
  match config with
  | Multiplexer direct first_obfs remaining_obfs =>
      InfoMultiplexer
        (match direct with
         | Some d => Some {| address := d; protocol := Udp |}
         | None => None
         end)
        (map ObfuscationEndpoint_from (first_obfs :: remaining_obfs))
  | Single obfs => InfoSingle (ObfuscationEndpoint_from obfs)
  end.

Record TunnelEndpoint : Set := {
  te_endpoint : Endpoint;
  tunnel_type : TunnelType;
  quantum_resistant : bool;
  te_proxy : option ProxyEndpoint;
  te_obfuscation : option ObfuscationInfo;
  entry_endpoint : option Endpoint;
  tunnel_interface : option string;
  daita : bool
}.

Definition get_tunnel_endpoint (p : TunnelParameters) : TunnelEndpoint :=
  match p with
  | OpenVpnParams params =>
      {| tunnel_type := OpenVpn;
         quantum_resistant := false;
         te_endpoint := openvpn.endpoint (openvpn.config params);
         te_proxy := get_remote_endpoint <$> openvpn.proxy params;
         te_obfuscation := None;
         entry_endpoint := None;
         tunnel_interface := None;
         daita := false |}
  | WireguardParams params =>
      let connection := wireguard.connection params in
      {| tunnel_type := Wireguard;
         quantum_resistant := wireguard.quantum_resistant (wireguard.options params);
         te_endpoint := default (wireguard.get_endpoint connection)
                                (wireguard.get_exit_endpoint connection);
         te_proxy := None;
         te_obfuscation := ObfuscationInfo_from <$> wireguard.obfuscation params;
         entry_endpoint := match wireguard.get_exit_endpoint connection with
                           | Some _ => Some (wireguard.get_endpoint connection)
                           | None => None
                           end;
         tunnel_interface := None;
         daita := wireguard.daita (wireguard.options params) |}
  end.

Definition get_next_hop_endpoints (p : TunnelParameters) : list Endpoint :=
  match p with
  | OpenVpnParams params =>
      match openvpn.proxy params with
      | Some proxy => [pe_endpoint (get_remote_endpoint proxy)]
      | None => [openvpn.endpoint (openvpn.config params)]
      end
  | WireguardParams params => wireguard.get_next_hop_endpoints params
  end.

Definition get_exit_hop_endpoint (p : TunnelParameters) : option Endpoint :=
  match p with
  | OpenVpnParams _ => None
  | WireguardParams params => wireguard.get_exit_endpoint (wireguard.connection params)
  end.

Definition get_generic_options (p : TunnelParameters) : GenericTunnelOptions :=
  match p with
  | OpenVpnParams params => openvpn.generic_options params
  | WireguardParams params => wireguard.generic_options params
  end.

Definition get_openvpn_local_proxy_settings (p : TunnelParameters) : option (Endpoint * Z) :=
  match p with
  | OpenVpnParams params =>
      match openvpn.proxy params with
      | Some (Socks5Local remote port) => Some (remote, port)
      | _ => None
      end
  | _ => None
  end.

(** ** Connectivity of the host (net/mod.rs) *)

Inductive IpVersion : Set := V4 | V6.
Inductive IpAvailability : Set := Ipv4 | Ipv6 | Ipv4AndIpv6.

Definition availability_has_ipv4 (a : IpAvailability) : bool :=
  match a with Ipv4 | Ipv4AndIpv6 => true | Ipv6 => false end.
Definition availability_has_ipv6 (a : IpAvailability) : bool :=
  match a with Ipv6 | Ipv4AndIpv6 => true | Ipv4 => false end.

Inductive Connectivity : Set :=
| Offline
| PresumeOnline
| Online (a : IpAvailability).

#[global] Instance IpVersion_eq_dec : EqDecision IpVersion.
Proof. solve_decision. Defined.
#[global] Instance IpAvailability_eq_dec : EqDecision IpAvailability.
Proof. solve_decision. Defined.
#[global] Instance Connectivity_eq_dec : EqDecision Connectivity.
Proof. solve_decision. Defined.

Definition is_offline (c : Connectivity) : bool := bool_decide (c = Offline).
Definition is_online (c : Connectivity) : bool := negb (is_offline c).

Definition availability (c : Connectivity) : option IpAvailability :=
  match c with
  | Online a => Some a
  | PresumeOnline => Some Ipv4
  | Offline => None
  end.

Definition has_ipv4 (c : Connectivity) : bool :=
  default false (availability_has_ipv4 <$> availability c).
Definition has_ipv6 (c : Connectivity) : bool :=
  default false (availability_has_ipv6 <$> availability c).
Definition has_family (c : Connectivity) (v : IpVersion) : bool :=
  match v with V4 => has_ipv4 c | V6 => has_ipv6 c end.

Definition Connectivity_new (ipv4 ipv6 : bool) : Connectivity :=
  match ipv4, ipv6 with
  | true, true => Online Ipv4AndIpv6
  | true, false => Online Ipv4
  | false, true => Online Ipv6
  | false, false => Offline
  end.

(** ** Networks of the local area (net/allowed_nets.rs) *)

Definition ALLOWED_LAN_NETS : list IpNetwork := [
  NetV4 (Ipv4Addr_new 10 0 0 0) 8;
  NetV4 (Ipv4Addr_new 172 16 0 0) 12;
  NetV4 (Ipv4Addr_new 192 168 0 0) 16;
  NetV4 (Ipv4Addr_new 169 254 0 0) 16;
  NetV6 (Ipv6Addr_new 0xfe80 0 0 0 0 0 0 0) 10;
  NetV6 (Ipv6Addr_new 0xfc00 0 0 0 0 0 0 0) 7
].

Definition ALLOWED_LAN_MULTICAST_NETS : list IpNetwork := [
  NetV4 (Ipv4Addr_new 255 255 255 255) 32;
  NetV4 (Ipv4Addr_new 224 0 0 0) 24;
  NetV4 (Ipv4Addr_new 239 0 0 0) 8;
  NetV6 (Ipv6Addr_new 0xff01 0 0 0 0 0 0 0) 16;
  NetV6 (Ipv6Addr_new 0xff02 0 0 0 0 0 0 0) 16;
  NetV6 (Ipv6Addr_new 0xff03 0 0 0 0 0 0 0) 16;
  NetV6 (Ipv6Addr_new 0xff04 0 0 0 0 0 0 0) 16;
  NetV6 (Ipv6Addr_new 0xff05 0 0 0 0 0 0 0) 16
].

(** ** The order on endpoints is a total order *)

Lemma lex_eq c d : lex c d = Eq → c = Eq ∧ d = Eq.
Proof. by destruct c. Qed.

Lemma sock_cmp_eq s t : sock_cmp s t = Eq ↔ s = t.
Proof.
  split.
  - destruct s, t; cbn; try done; intros H;
      repeat match goal with
      | H : lex _ _ = Eq |- _ => apply lex_eq in H as [?%Z.compare_eq_iff H]
      end; apply Z.compare_eq_iff in H; congruence.
  - intros ->. destruct t; cbn; by rewrite !Z.compare_refl.
Qed.

Lemma endpoint_cmp_eq x y : endpoint_cmp x y = Eq ↔ x = y.
Proof.
  unfold endpoint_cmp. split.
  - intros [H1%sock_cmp_eq H2]%lex_eq. destruct x as [? []], y as [? []]; cbn in *; congruence.
  - intros ->. rewrite (proj2 (sock_cmp_eq _ _)) by done. by destruct (protocol y).
Qed.

(** Lexicographic composition preserves transitivity. *)
Lemma lex_trans {A} (c : A → A → comparison) (x y z : A) d1 d2 d3 :
  (∀ a b, c a b = Eq ↔ a = b) →
  (c x y = Lt → c y z = Lt → c x z = Lt) →
  (d1 = Lt → d2 = Lt → d3 = Lt) →
  lex (c x y) d1 = Lt → lex (c y z) d2 = Lt → lex (c x z) d3 = Lt.
Proof.
  intros Heq Hc Hd H1 H2.
  destruct (c x y) eqn:E1; cbn in H1; [apply Heq in E1 as ->| |done].
  - destruct (c y z) eqn:E2; cbn in *; auto.
  - destruct (c y z) eqn:E2; cbn in H2; [apply Heq in E2 as <-; by rewrite E1| |done].
    by rewrite Hc.
Qed.

Lemma Z_compare_trans (x y z : Z) : (x ?= y) = Lt → (y ?= z) = Lt → (x ?= z) = Lt.
Proof. rewrite !Z.compare_lt_iff. lia. Qed.

Lemma sock_cmp_trans x y z : sock_cmp x y = Lt → sock_cmp y z = Lt → sock_cmp x z = Lt.
Proof.
  destruct x, y, z; cbn; try done;
    repeat (apply lex_trans; [apply Z.compare_eq_iff|apply Z_compare_trans|]);
    apply Z_compare_trans.
Qed.

Lemma endpoint_cmp_trans x y z :
  endpoint_cmp x y = Lt → endpoint_cmp y z = Lt → endpoint_cmp x z = Lt.
Proof.
  apply lex_trans; [apply sock_cmp_eq|apply sock_cmp_trans|].
  by destruct (protocol x), (protocol y), (protocol z).
Qed.

Lemma endpoint_cmp_antisym x y : endpoint_cmp y x = CompOpp (endpoint_cmp x y).
Proof.
  destruct x as [s p], y as [t q]. unfold endpoint_cmp; cbn.
  assert (sock_cmp t s = CompOpp (sock_cmp s t)) as ->.
  { destruct s, t; cbn; try done;
      repeat match goal with
      | |- context [lex (?a ?= ?b) _] => rewrite (Z.compare_antisym b a); destruct (b ?= a); cbn; try done
      end; apply Z.compare_antisym. }
  destruct (sock_cmp s t), p, q; done.
Qed.

(** ** Sorting and deduplication *)

Definition endpoint_lt (x y : Endpoint) : Prop := endpoint_cmp x y = Lt.
Definition endpoint_le (x y : Endpoint) : Prop := endpoint_cmp x y ≠ Gt.

Lemma endpoint_insert_perm x l : endpoint_insert x l ≡ₚ x :: l.
Proof.
  induction l as [|y l IH]; cbn; [done|]. destruct (endpoint_cmp x y); [done..|].
  rewrite IH. apply Permutation_swap.
Qed.

Lemma endpoint_sort_perm l : endpoint_sort l ≡ₚ l.
Proof. induction l as [|x l IH]; cbn; [done|]. by rewrite endpoint_insert_perm, IH. Qed.

Lemma endpoint_le_trans x y z : endpoint_le x y → endpoint_le y z → endpoint_le x z.
Proof.
  unfold endpoint_le. intros H1 H2.
  destruct (endpoint_cmp x y) eqn:E1; [apply endpoint_cmp_eq in E1 as ->; done| |done].
  destruct (endpoint_cmp y z) eqn:E2; [apply endpoint_cmp_eq in E2 as <-; by rewrite E1| |done].
  by rewrite (endpoint_cmp_trans x y z).
Qed.

Lemma endpoint_insert_sorted x l :
  StronglySorted endpoint_le l → StronglySorted endpoint_le (endpoint_insert x l).
Proof.
  induction 1 as [|y l Hs IH Hy]; cbn; [by repeat constructor|].
  destruct (endpoint_cmp x y) eqn:E.
  1,2: assert (endpoint_le x y) by (unfold endpoint_le; by rewrite E);
       repeat (constructor; auto); eapply Forall_impl; [done|];
       intros ? ?; by eapply endpoint_le_trans.
  constructor; [done|]. rewrite endpoint_insert_perm. constructor; [|done].
  unfold endpoint_le. by rewrite endpoint_cmp_antisym, E.
Qed.

Lemma endpoint_sort_sorted l : StronglySorted endpoint_le (endpoint_sort l).
Proof. induction l; cbn; [constructor|by apply endpoint_insert_sorted]. Qed.

Lemma dedup_elem l x : x ∈ dedup l ↔ x ∈ l.
Proof.
  induction l as [|y [|z l] IH]; [done..|].
  change (dedup (y :: z :: l)) with
    (if decide (y = z) then dedup (z :: l) else y :: dedup (z :: l)).
  case_decide; subst; rewrite ?elem_of_cons, IH, ?elem_of_cons; naive_solver.
Qed.

Lemma dedup_sorted l :
  StronglySorted endpoint_le l → StronglySorted endpoint_lt (dedup l).
Proof.
  induction 1 as [|y [|z l] Hs IH Hy]; [repeat constructor..|].
  change (dedup (y :: z :: l)) with
    (if decide (y = z) then dedup (z :: l) else y :: dedup (z :: l)).
  case_decide as Hyz; [done|]. constructor; [done|].
  apply Forall_forall. intros w. rewrite dedup_elem. intros Hw.
  apply Forall_cons in Hy as [Hyz' Hyl].
  assert (endpoint_cmp y z = Lt) as Hlt.
  { destruct (endpoint_cmp y z) eqn:E; [by apply endpoint_cmp_eq in E|done|done]. }
  apply elem_of_cons in Hw as [->|Hw]; [done|].
  inversion Hs as [|? ? _ Hz]; subst. rewrite Forall_forall in Hz.
  specialize (Hz w Hw). destruct (endpoint_cmp z w) eqn:E; [|by eapply endpoint_cmp_trans|done].
  apply endpoint_cmp_eq in E as <-. done.
Qed.

Lemma sorted_lt_NoDup l : StronglySorted endpoint_lt l → NoDup l.
Proof.
  induction 1 as [|y l _ IH Hy]; constructor; [|done].
  rewrite Forall_forall in Hy. intros Hin%Hy. unfold endpoint_lt in Hin.
  by rewrite (proj2 (endpoint_cmp_eq y y)) in Hin.
Qed.

(** ** Properties *)

(** The endpoints of a multiplexing obfuscator configuration, which are what
    the firewall opens for the tunnel, are exactly the direct endpoint (over
    UDP), the first obfuscator's and the remaining obfuscators' endpoints,
    strictly ordered and without duplicates. *)
Theorem multiplexer_endpoints_spec (direct : option SocketAddr) (first : ObfuscatorConfig)
    (remaining : list ObfuscatorConfig) :
  let es := Obfuscators_endpoints (Multiplexer direct first remaining) in
  StronglySorted endpoint_lt es ∧ NoDup es ∧
  ∀ e, e ∈ es ↔ (∃ d, direct = Some d ∧ e = {| address := d; protocol := Udp |}) ∨
                (∃ c, c ∈ first :: remaining ∧ e = ObfuscatorConfig_endpoint c).
Proof.
  cbn zeta. unfold Obfuscators_endpoints.
  split; [apply dedup_sorted, endpoint_sort_sorted|].
  split; [apply sorted_lt_NoDup, dedup_sorted, endpoint_sort_sorted|].
  intros e. rewrite dedup_elem, endpoint_sort_perm, !elem_of_app.
  change (map ObfuscatorConfig_endpoint remaining)
    with (ObfuscatorConfig_endpoint <$> remaining).
  rewrite list_elem_of_fmap, list_elem_of_singleton. setoid_rewrite elem_of_cons.
  destruct direct; rewrite ?list_elem_of_singleton, ?elem_of_nil; naive_solver.
Qed.

(** The first-hop endpoints used for the firewall agree with the ones shown to
    the user: for a WireGuard tunnel with obfuscation, both functions name the
    same set of endpoints. *)
Theorem next_hop_endpoints_match_obfuscation_info (p : wireguard.TunnelParameters) (e : Endpoint) :
  e ∈ get_next_hop_endpoints (WireguardParams p) ↔
  match te_obfuscation (get_tunnel_endpoint (WireguardParams p)) with
  | Some info => e ∈ ObfuscationInfo_get_endpoints info
  | None => e = wireguard.get_endpoint (wireguard.connection p)
  end.
Proof.
  cbn. unfold wireguard.get_next_hop_endpoints.
  destruct (wireguard.obfuscation p) as [[c|direct first remaining]|]; cbn.
  - done.
  - rewrite dedup_elem, endpoint_sort_perm. by destruct direct; cbn; rewrite map_map.
  - by rewrite list_elem_of_singleton.
Qed.
