(* ===== verification/TunnelTypes.v ===== *)
(** * Tunnel events, DNS configuration and firewall policies

    talpid-types/src/tunnel.rs, talpid-tunnel/src/lib.rs,
    talpid-core/src/dns/mod.rs and talpid-core/src/firewall/mod.rs, with the
    items compiled for Linux. *)

From S2P Require Import Prelude NetTypes.

(** ** Error states and transitions (talpid-types/src/tunnel.rs) *)

Inductive FirewallPolicyError : Set := Generic.

Inductive ParameterGenerationError : Set :=
| NoMatchingRelay
| NoMatchingBridgeRelay
| NoWireguardKey
| CustomTunnelHostResolutionError
| IpVersionUnavailable (family : IpVersion).

Inductive ErrorStateCause : Set :=
| AuthFailed (reason : option string)
| Ipv6Unavailable
| SetFirewallPolicyError (e : FirewallPolicyError)
| SetDnsError
| StartTunnelError
| TunnelParameterError (e : ParameterGenerationError)
| IsOffline.

#[global] Instance FirewallPolicyError_eq_dec : EqDecision FirewallPolicyError.
Proof. solve_decision. Defined.
#[global] Instance ParameterGenerationError_eq_dec : EqDecision ParameterGenerationError.
Proof. solve_decision. Defined.
#[global] Instance ErrorStateCause_eq_dec : EqDecision ErrorStateCause.
Proof. solve_decision. Defined.

Module tunnel.
Record ErrorState : Set := {
  cause : ErrorStateCause;
  block_failure : option FirewallPolicyError
}.
Definition new (cause : ErrorStateCause) (block_failure : option FirewallPolicyError) : ErrorState :=
  {| cause := cause; block_failure := block_failure |}.
Definition is_blocking (e : ErrorState) : bool :=
  match block_failure e with None => true | Some _ => false end.
End tunnel.

Inductive ActionAfterDisconnect : Set := ActionNothing | ActionBlock | ActionReconnect.

Inductive TunnelStateTransition : Set :=
| TrDisconnected (locked_down : bool)
| TrConnecting (e : TunnelEndpoint)
| TrConnected (e : TunnelEndpoint)
| TrDisconnecting (a : ActionAfterDisconnect)
| TrError (e : tunnel.ErrorState).

(** ** Tunnel metadata and events (talpid-tunnel/src/lib.rs) *)

Record TunnelMetadata : Set := {
  interface : string;
  ips : list IpAddr;
  ipv4_gateway : Z;
  ipv6_gateway : option Z
}.

Definition gateways (m : TunnelMetadata) : list IpAddr :=
  [AddrV4 (ipv4_gateway m)] ++
  match ipv6_gateway m with Some gateway => [AddrV6 gateway] | None => [] end.

Inductive TunnelEvent : Set :=
| EvAuthFailed (reason : option string)
| EvInterfaceUp (metadata : TunnelMetadata) (allowed : AllowedTunnelTraffic)
| EvUp (metadata : TunnelMetadata)
| EvDown.

#[global] Instance TunnelMetadata_eq_dec : EqDecision TunnelMetadata.
Proof. solve_decision. Defined.

(** ** DNS configuration (talpid-core/src/dns/mod.rs) *)

Inductive DnsConfig : Set :=
| DnsDefault
| DnsOverride (tunnel_config non_tunnel_config : list IpAddr).

#[global] Instance DnsConfig_eq_dec : EqDecision DnsConfig.
Proof. solve_decision. Defined.

Definition DnsConfig_from_addresses (tunnel_config non_tunnel_config : list IpAddr) : DnsConfig :=
  DnsOverride tunnel_config non_tunnel_config.

Record ResolvedDnsConfig : Set := {
  tunnel_config : list IpAddr;
  non_tunnel_config : list IpAddr
}.

#[global] Instance ResolvedDnsConfig_eq_dec : EqDecision ResolvedDnsConfig.
Proof. solve_decision. Defined.

Definition resolve (c : DnsConfig) (default_tun_config : list IpAddr) : ResolvedDnsConfig :=
  match c with
  | DnsDefault => {| tunnel_config := default_tun_config; non_tunnel_config := [] |}
  | DnsOverride t n => {| tunnel_config := t; non_tunnel_config := n |}
  end.

Definition dns_addresses (c : ResolvedDnsConfig) : list IpAddr :=
  non_tunnel_config c ++ tunnel_config c.

(** [IpAddr::is_loopback]: 127.0.0.0/8 and ::1. *)
Definition ip_is_loopback (ip : IpAddr) : bool :=
  match ip with
  | AddrV4 a => Z.shiftr a 24 =? 127
  | AddrV6 a => a =? 1
  end.

Definition is_loopback (c : ResolvedDnsConfig) : bool :=
  let addrs := tunnel_config c ++ non_tunnel_config c in
  let loopback_addrs := List.filter ip_is_loopback addrs in
  let non_loopback_addrs := List.filter (λ ip, negb (ip_is_loopback ip)) addrs in
  negb (bool_decide (loopback_addrs = [])) && bool_decide (non_loopback_addrs = []).

(** ** Firewall policies (talpid-core/src/firewall/mod.rs) *)

Inductive FirewallPolicy : Set :=
| Connecting (peer_endpoints : list AllowedEndpoint) (tunnel : option TunnelMetadata)
    (allow_lan : bool) (allowed_endpoint : AllowedEndpoint)
    (allowed_tunnel_traffic : AllowedTunnelTraffic)
| Connected (peer_endpoints : list AllowedEndpoint) (tunnel : TunnelMetadata)
    (allow_lan : bool) (dns_config : ResolvedDnsConfig)
| Blocked (allow_lan : bool) (allowed_endpoint : option AllowedEndpoint).

#[global] Instance FirewallPolicy_eq_dec : EqDecision FirewallPolicy.
Proof. solve_decision. Defined.

Definition policy_peer_endpoints (p : FirewallPolicy) : option (list AllowedEndpoint) :=
  match p with
  | Connecting peer_endpoints _ _ _ _ | Connected peer_endpoints _ _ _ => Some peer_endpoints
  | _ => None
  end.

Definition policy_allowed_endpoint (p : FirewallPolicy) : option AllowedEndpoint :=
  match p with
  | Connecting _ _ _ allowed_endpoint _ | Blocked _ (Some allowed_endpoint) => Some allowed_endpoint
  | _ => None
  end.

Definition policy_tunnel (p : FirewallPolicy) : option TunnelMetadata :=
  match p with
  | Connecting _ (Some tunnel) _ _ _ | Connected _ tunnel _ _ => Some tunnel
  | _ => None
  end.

Definition policy_allowed_tunnel_traffic (p : FirewallPolicy) : AllowedTunnelTraffic :=
  match p with
  | Connecting _ _ _ _ allowed_tunnel_traffic => allowed_tunnel_traffic
  | Connected _ _ _ _ => TrafficAll
  | _ => TrafficNone
  end.

Definition policy_allow_lan (p : FirewallPolicy) : bool :=
  match p with
  | Connecting _ _ allow_lan _ _ | Connected _ _ allow_lan _ | Blocked allow_lan _ => allow_lan
  end.

Definition IPV6_LINK_LOCAL : IpNetwork := NetV6 (Ipv6Addr_new 0xfe80 0 0 0 0 0 0 0) 10.
Definition DHCPV6_SERVER_ADDRS : list Z := [
  Ipv6Addr_new 0xff02 0 0 0 0 0 1 2;
  Ipv6Addr_new 0xff05 0 0 0 0 0 1 3
].
Definition ROUTER_SOLICITATION_OUT_DST_ADDR : Z := Ipv6Addr_new 0xff02 0 0 0 0 0 0 2.
Definition SOLICITED_NODE_MULTICAST : IpNetwork :=
  NetV6 (Ipv6Addr_new 0xff02 0 0 0 0 1 0xFF00 0) 104.
Definition LOOPBACK_NETS : list IpNetwork := [
  NetV4 (Ipv4Addr_new 127 0 0 0) 8;
  NetV6 (Ipv6Addr_new 0 0 0 0 0 0 0 1) 128
].
Definition DHCPV4_SERVER_PORT : Z := 67.
Definition DHCPV4_CLIENT_PORT : Z := 68.
Definition DHCPV6_SERVER_PORT : Z := 547.
Definition DHCPV6_CLIENT_PORT : Z := 546.
Definition ROOT_UID : Z := 0.

Definition is_local_address `{IpNetworkCrate} (address : IpAddr) : bool :=
  existsb (λ net, net_contains net address) (ALLOWED_LAN_NETS ++ LOOPBACK_NETS).

Inductive InitialFirewallState : Set :=
| InitNone
| InitBlocked (e : AllowedEndpoint).

Record FirewallArguments : Set := {
  initial_state : InitialFirewallState;
  fa_allow_lan : bool;
  fa_fwmark : Z
}.
