(* ===== verification/Nft.v ===== *)
(** * The nftables interface used by the Linux firewall

    The `nftnl` crate and the kernel's netfilter are not part of the
    repository.  What the firewall hands to them is data, modelled here as it is
    built: tables, chains, rules made of expressions, and the messages of a
    batch.  What it relies on is the documented behaviour of nftables, stated as
    the laws of the classes [NftRules] (how a base chain judges a packet) and
    [NftTables] (how a batch changes the installed tables); both have an
    instance, so the laws are consistent. *)

From S2P Require Import Prelude NetTypes TunnelTypes.

(** ** Packets

    A packet with the metadata nftables can match on.  Headers are byte lists,
    because payload expressions read bytes at offsets. *)
Record Packet : Set := {
  pk_iif : Z;                    (* index of the incoming interface, 0 if none *)
  pk_oif : Z;                    (* index of the outgoing interface, 0 if none *)
  pk_nfproto : Z;                (* NFPROTO_IPV4 or NFPROTO_IPV6 *)
  pk_l4proto : Z;                (* IPPROTO_* *)
  pk_mark : Z;
  pk_skuid : option Z;           (* owner of the sending socket, if there is one *)
  pk_cgroup : Z;
  pk_ct_state : Z;
  pk_ct_mark : Z;
  pk_network_header : list Z;
  pk_transport_header : list Z
}.

Definition set_pk_mark (m : Z) (p : Packet) : Packet :=
  {| pk_iif := pk_iif p; pk_oif := pk_oif p; pk_nfproto := pk_nfproto p;
     pk_l4proto := pk_l4proto p; pk_mark := m; pk_skuid := pk_skuid p;
     pk_cgroup := pk_cgroup p; pk_ct_state := pk_ct_state p; pk_ct_mark := pk_ct_mark p;
     pk_network_header := pk_network_header p; pk_transport_header := pk_transport_header p |}.
Definition set_pk_ct_mark (m : Z) (p : Packet) : Packet :=
  {| pk_iif := pk_iif p; pk_oif := pk_oif p; pk_nfproto := pk_nfproto p;
     pk_l4proto := pk_l4proto p; pk_mark := pk_mark p; pk_skuid := pk_skuid p;
     pk_cgroup := pk_cgroup p; pk_ct_state := pk_ct_state p; pk_ct_mark := m;
     pk_network_header := pk_network_header p; pk_transport_header := pk_transport_header p |}.

(** Constants of the Linux headers. *)
Definition NFPROTO_IPV4 : Z := 2.
Definition NFPROTO_IPV6 : Z := 10.
Definition IPPROTO_TCP : Z := 6.
Definition IPPROTO_UDP : Z := 17.
Definition IPPROTO_ICMPV6 : Z := 58.
Definition NF_IP_PRI_CONNTRACK : Z := -200.
Definition NF_IP_PRI_MANGLE : Z := -150.
Definition NF_IP_PRI_NAT_SRC : Z := 100.
Definition CT_ESTABLISHED : Z := 2.

(** ** Expressions, rules, chains and tables (the nftnl vocabulary) *)

Inductive Load : Set :=
| MetaIif | MetaOif | MetaNfproto | MetaL4proto | MetaMark | MetaSkuid | MetaCgroup
| CtState | CtMark
| PayloadIpv4Saddr | PayloadIpv4Daddr | PayloadIpv6Saddr | PayloadIpv6Daddr
| PayloadUdpSport | PayloadUdpDport | PayloadTcpSport | PayloadTcpDport
| PayloadIcmpv6Type | PayloadIcmpv6Code.

Inductive CmpOp : Set := CmpEq | CmpNeq.
Inductive RejectionType : Set := IcmpPortUnreach | TcpRst.
Inductive Verdict : Set := Accept | Drop | Reject (r : RejectionType).

Inductive Expr : Set :=
| ExLoad (l : Load)
| ExCmp (op : CmpOp) (data : list Z)
| ExBitwise (mask xor : list Z)
| ExImmediate (data : list Z)
| ExMetaMarkSet
| ExCtMarkSet
| ExMasquerade
| ExCounter
| ExVerdict (v : Verdict).

Inductive ProtoFamily : Set := FamInet | FamIpv4 | FamIpv6.
Inductive Hook : Set := HookPreRouting | HookIn | HookForward | HookOut | HookPostRouting.
Inductive ChainType : Set := TypeFilter | TypeRoute | TypeNat.
Inductive ChainPolicy : Set := PolicyAccept | PolicyDrop.

Record Table : Set := { t_name : string; t_family : ProtoFamily }.
Record Chain : Set := {
  c_name : string;
  c_table : Table;
  c_hook : option (Hook * Z);
  c_type : ChainType;
  c_policy : ChainPolicy
}.
Record Rule : Set := { r_chain : Chain; r_exprs : list Expr }.

Inductive Msg : Set :=
| AddTable (t : Table)
| DelTable (t : Table)
| AddChain (c : Chain)
| AddRule (r : Rule).

(** [Batch] is the list of its messages, in the order they were added. *)
Abbreviation Batch := (list Msg).

#[global] Instance Expr_eq_dec : EqDecision Expr.
Proof.
  assert (EqDecision Load) by solve_decision. assert (EqDecision CmpOp) by solve_decision.
  assert (EqDecision RejectionType) by solve_decision.
  assert (EqDecision Verdict) by solve_decision. solve_decision.
Defined.
#[global] Instance Verdict_eq_dec : EqDecision Verdict.
Proof. assert (EqDecision RejectionType) by solve_decision. solve_decision. Defined.
#[global] Instance Table_eq_dec : EqDecision Table.
Proof. assert (EqDecision ProtoFamily) by solve_decision. solve_decision. Defined.
#[global] Instance ProtoFamily_eq_dec : EqDecision ProtoFamily.
Proof. solve_decision. Defined.
#[global] Instance Table_countable : Countable Table.
Proof.
  refine (inj_countable'
    (λ t, (t_name t, match t_family t with FamInet => 0 | FamIpv4 => 1 | FamIpv6 => 2 end%nat))
    (λ x, {| t_name := x.1;
             t_family := match x.2 with 0 => FamInet | 1 => FamIpv4 | _ => FamIpv6 end%nat |}) _).
  by intros [? []].
Defined.
#[global] Instance Chain_eq_dec : EqDecision Chain.
Proof.
  assert (EqDecision Hook) by solve_decision. assert (EqDecision ChainType) by solve_decision.
  assert (EqDecision ChainPolicy) by solve_decision. solve_decision.
Defined.

(** ** Documented behaviour of expressions

    One register is in use, as in the rules the firewall builds. *)

Definition slice (off len : nat) (l : list Z) : option (list Z) :=
  if decide (off + len ≤ length l)%nat then Some (take len (drop off l)) else None.

(** What an expression loads; [None] ends the rule without a match.  Metadata is
    in host order, payload is the bytes of the header. *)
Definition load (l : Load) (p : Packet) : option (list Z) :=
  match l with
  | MetaIif => Some (le_bytes 4 (pk_iif p))
  | MetaOif => Some (le_bytes 4 (pk_oif p))
  | MetaNfproto => Some (le_bytes 1 (pk_nfproto p))
  | MetaL4proto => Some (le_bytes 1 (pk_l4proto p))
  | MetaMark => Some (le_bytes 4 (pk_mark p))
  | MetaSkuid => le_bytes 4 <$> pk_skuid p
  | MetaCgroup => Some (le_bytes 4 (pk_cgroup p))
  | CtState => Some (le_bytes 4 (pk_ct_state p))
  | CtMark => Some (le_bytes 4 (pk_ct_mark p))
  | PayloadIpv4Saddr => slice 12 4 (pk_network_header p)
  | PayloadIpv4Daddr => slice 16 4 (pk_network_header p)
  | PayloadIpv6Saddr => slice 8 16 (pk_network_header p)
  | PayloadIpv6Daddr => slice 24 16 (pk_network_header p)
  | PayloadUdpSport | PayloadTcpSport => slice 0 2 (pk_transport_header p)
  | PayloadUdpDport | PayloadTcpDport => slice 2 2 (pk_transport_header p)
  | PayloadIcmpv6Type => slice 0 1 (pk_transport_header p)
  | PayloadIcmpv6Code => slice 1 1 (pk_transport_header p)
  end.

Definition cmp_holds (op : CmpOp) (reg data : list Z) : bool :=
  match op with
  | CmpEq => bool_decide (take (length data) reg = data)
  | CmpNeq => negb (bool_decide (take (length data) reg = data))
  end.

Inductive Outcome : Set :=
| Break                          (* an expression did not match *)
| Continue (p : Packet)          (* the end of the rule, no verdict *)
| Final (v : Verdict) (p : Packet).

Fixpoint run_exprs (es : list Expr) (reg : list Z) (p : Packet) : Outcome :=
  match es with
  | [] => Continue p
  | ExLoad l :: es => match load l p with
                      | Some reg => run_exprs es reg p
                      | None => Break
                      end
  | ExCmp op data :: es => if cmp_holds op reg data then run_exprs es reg p else Break
  | ExBitwise mask xor :: es => run_exprs es (zip_with Z.lxor (zip_with Z.land reg mask) xor) p
  | ExImmediate data :: es => run_exprs es data p
  | ExMetaMarkSet :: es => run_exprs es reg (set_pk_mark (le_val (take 4 reg)) p)
  | ExCtMarkSet :: es => run_exprs es reg (set_pk_ct_mark (le_val (take 4 reg)) p)
  | ExMasquerade :: _ => Final Accept p
  | ExCounter :: es => run_exprs es reg p
  | ExVerdict v :: _ => Final v p
  end.

Definition run_rule (es : list Expr) (p : Packet) : Outcome := run_exprs es [] p.

Definition policy_verdict (pol : ChainPolicy) : Verdict :=
  match pol with PolicyAccept => Accept | PolicyDrop => Drop end.

(** How a base chain judges a packet: the rules are tried in order, a rule that
    breaks or has no verdict passes on to the next, a verdict ends the chain, and
    the chain's policy applies when no rule decides. *)
Class NftRules : Set := {
  nft_eval : ChainPolicy → list (list Expr) → Packet → Verdict * Packet;
  nft_eval_nil pol p : nft_eval pol [] p = (policy_verdict pol, p);
  nft_eval_break pol es rules p :
    run_rule es p = Break → nft_eval pol (es :: rules) p = nft_eval pol rules p;
  nft_eval_continue pol es rules p p' :
    run_rule es p = Continue p' → nft_eval pol (es :: rules) p = nft_eval pol rules p';
  nft_eval_final pol es rules p v p' :
    run_rule es p = Final v p' → nft_eval pol (es :: rules) p = (v, p')
}.

(** ** Documented behaviour of batches *)

(** The installed tables: the chains of each table in order of creation, each
    with its rules in order. *)
Abbreviation TableContents := (list (Chain * list (list Expr))).
Abbreviation Tables := (gmap Table TableContents).

Fixpoint add_rule (r : Rule) (cs : TableContents) : option TableContents :=
  match cs with
  | [] => None
  | (c, rules) :: cs =>
      if decide (c = r_chain r) then Some ((c, rules ++ [r_exprs r]) :: cs)
      else cons (c, rules) <$> add_rule r cs
  end.

Definition msg_apply (ts : Tables) (m : Msg) : option Tables :=
  match m with
  | AddTable t => Some (match ts !! t with Some _ => ts | None => <[t := []]> ts end)
  | DelTable t => match ts !! t with Some _ => Some (delete t ts) | None => None end
  | AddChain c =>
      match ts !! c_table c with
      | Some cs => if decide (c_name c ∈ map (c_name ∘ fst) cs) then None
                   else Some (<[c_table c := cs ++ [(c, [])]]> ts)
      | None => None
      end
  | AddRule r =>
      match ts !! c_table (r_chain r) with
      | Some cs => match add_rule r cs with
                   | Some cs' => Some (<[c_table (r_chain r) := cs']> ts)
                   | None => None
                   end
      | None => None
      end
  end.

Fixpoint batch_apply (b : Batch) (ts : Tables) : option Tables :=
  match b with
  | [] => Some ts
  | m :: b => match msg_apply ts m with
              | Some ts' => batch_apply b ts'
              | None => None
              end
  end.

(** Sending a batch either takes effect as a whole or not at all; it may be
    rejected for reasons outside the model, and the reply may be lost after the
    batch took effect. *)
Class NftTables (kernel : Type) : Type := {
  installed : kernel → Tables;
  send_batch : Batch → kernel → result unit unit * kernel;
  send_batch_ok b k k' :
    send_batch b k = (Ok tt, k') → batch_apply b (installed k) = Some (installed k');
  send_batch_err b k k' :
    send_batch b k = (Err tt, k') →
    installed k' = installed k ∨ batch_apply b (installed k) = Some (installed k')
}.

(** ** Instances *)

Fixpoint chain_eval (pol : ChainPolicy) (rules : list (list Expr)) (p : Packet) : Verdict * Packet :=
  match rules with
  | [] => (policy_verdict pol, p)
  | es :: rules => match run_rule es p with
                   | Break => chain_eval pol rules p
                   | Continue p' => chain_eval pol rules p'
                   | Final v p' => (v, p')
                   end
  end.

#[export] Instance nft_rules_model : NftRules.
Proof.
  refine {| nft_eval := chain_eval |}; [done| | |]; intros * E; cbn [chain_eval]; by rewrite E.
Defined.

(** A kernel that accepts every well-formed batch. *)
#[export] Instance nft_tables_model : NftTables Tables.
Proof.
  refine {| installed := id;
            send_batch b k := match batch_apply b k with
                              | Some k' => (Ok tt, k')
                              | None => (Err tt, k)
                              end |}; unfold id.
  - intros b k k' H. by destruct (batch_apply b k); simplify_eq.
  - intros b k k' H. destruct (batch_apply b k); simplify_eq; auto.
Defined.

(** ** The interface determines the verdict of a chain *)
Lemma nft_eval_chain_eval `{NftRules} pol rules p : nft_eval pol rules p = chain_eval pol rules p.
Proof.
  revert p; induction rules as [|es rules IH]; intros p; cbn [chain_eval]; [apply nft_eval_nil|].
  destruct (run_rule es p) eqn:E.
  - by rewrite nft_eval_break.
  - by erewrite nft_eval_continue.
  - by eapply nft_eval_final.
Qed.
