(* ===== verification/LinuxFirewall.v ===== *)
(** * The Linux firewall (talpid-core/src/firewall/linux.rs)

    A [FirewallPolicy] is turned into a batch of nftables messages that replaces
    the `mullvad` table.  The functions below build the same rules in the same
    order as the source; a `?` is a bind of [result], and the parts of the host
    the code asks (interface indices, `/proc/mounts`, environment variables) are
    the fields of [LinuxEnv]. *)

From S2P Require Import Prelude NetTypes TunnelTypes Nft.

(** ** Control groups (talpid-types/src/cgroup.rs) *)

Module cgroup.
(** [slice::split] on a separator byte: always at least one piece. *)
Fixpoint split_on (sep : Z) (l : list Z) : list (list Z) :=
  match l with
  | [] => [[]]
  | b :: l => if b =? sep then [] :: split_on sep l
              else match split_on sep l with
                   | piece :: rest => (b :: piece) :: rest
                   | [] => [[b]]
                   end
  end.

(** Byte string literals. *)
Definition bytes_of (s : string) : list Z :=
  map (λ a, Z.of_nat (Ascii.nat_of_ascii a)) (String.list_ascii_of_string s).

Definition parse_mount_line (line : list Z) : option (list Z) :=
  match split_on 32 line with
  | _device_type :: mount_path :: filesystem_type :: mount_options :: _ =>
      if negb (bool_decide (filesystem_type = bytes_of "cgroup")) then None
      else if negb (existsb (λ key, bool_decide (key = bytes_of "net_cls"))
                            (split_on 44 mount_options)) then None
      else Some mount_path
  | _ => None
  end.

Fixpoint find_map {A B} (f : A → option B) (l : list A) : option B :=
  match l with
  | [] => None
  | x :: l => match f x with Some y => Some y | None => find_map f l end
  end.

Definition find_net_cls_mount_inner (mounts : list Z) : option (list Z) :=
  find_map parse_mount_line (split_on 10 mounts).

(** [mounts] is what reading `/proc/mounts` returned. *)
Definition find_net_cls_mount (mounts : result unit (list Z)) : result unit (option (list Z)) :=
  m ← mounts; Ok (find_net_cls_mount_inner m).
End cgroup.

(** ** Constants, errors and the host *)

Definition NET_CLS_CLASSID : Z := 0x4d9f41.
Definition MARK : Z := 0xf41.
Definition MANGLE_CHAIN_PRIORITY : Z := NF_IP_PRI_MANGLE.
Definition PREROUTING_CHAIN_PRIORITY : Z := NF_IP_PRI_CONNTRACK + 1.
Definition TABLE_NAME : string := "mullvad".
Definition IN_CHAIN_NAME : string := "input".
Definition OUT_CHAIN_NAME : string := "output".
Definition FORWARD_CHAIN_NAME : string := "forward".
Definition PREROUTING_CHAIN_NAME : string := "prerouting".
Definition MANGLE_CHAIN_NAME : string := "mangle".
Definition NAT_CHAIN_NAME : string := "nat".

Inductive Error : Set :=
| NetlinkError
| NetfilterTableNotSetError
| LookupIfaceIndexError (iface : string)
| FindNetClsMount.

Inductive Direction : Set := DirIn | DirOut.
Inductive End_ : Set := Src | Dst.

Record LinuxEnv : Set := {
  iface_index : string → result unit Z;
  proc_mounts : result unit (list Z);
  ADD_COUNTERS : bool
}.

(** ** Building rules *)

Definition Rule_new (chain : Chain) : Rule := {| r_chain := chain; r_exprs := [] |}.
Definition add_expr (rule : Rule) (e : Expr) : Rule :=
  {| r_chain := r_chain rule; r_exprs := r_exprs rule ++ [e] |}.
Definition add_exprs (rule : Rule) (es : list Expr) : Rule :=
  {| r_chain := r_chain rule; r_exprs := r_exprs rule ++ es |}.

(** The bytes of an address as `nft_expr!(cmp == addr)` passes them. *)
Definition ip_octets (ip : IpAddr) : list Z :=
  match ip with AddrV4 a => be_bytes 4 a | AddrV6 a => be_bytes 16 a end.

Definition l3proto (addr : IpAddr) : Z :=
  match addr with AddrV4 _ => NFPROTO_IPV4 | AddrV6 _ => NFPROTO_IPV6 end.
Definition l4proto (protocol : TransportProtocol) : Z :=
  match protocol with Udp => IPPROTO_UDP | Tcp => IPPROTO_TCP end.

Definition check_l3proto (rule : Rule) (ip : IpAddr) : Rule :=
  add_exprs rule [ExLoad MetaNfproto; ExCmp CmpEq (le_bytes 1 (l3proto ip))].

Definition check_l4proto (rule : Rule) (protocol : TransportProtocol) : Rule :=
  add_exprs rule [ExLoad MetaL4proto; ExCmp CmpEq (le_bytes 1 (l4proto protocol))].

Definition check_port (rule : Rule) (protocol : TransportProtocol) (e : End_) (port : Z) : Rule :=
  let rule := check_l4proto rule protocol in
  let rule := add_expr rule (ExLoad match protocol, e with
                                    | Udp, Src => PayloadUdpSport
                                    | Udp, Dst => PayloadUdpDport
                                    | Tcp, Src => PayloadTcpSport
                                    | Tcp, Dst => PayloadTcpDport
                                    end) in
  add_expr rule (ExCmp CmpEq (le_bytes 2 (u16_to_be port))).

Definition check_ip (rule : Rule) (e : End_) (ip : IpAddr) : Rule :=
  let rule := check_l3proto rule ip in
  let rule := add_expr rule (ExLoad match ip, e with
                                    | AddrV4 _, Src => PayloadIpv4Saddr
                                    | AddrV4 _, Dst => PayloadIpv4Daddr
                                    | AddrV6 _, Src => PayloadIpv6Saddr
                                    | AddrV6 _, Dst => PayloadIpv6Daddr
                                    end) in
  add_expr rule (ExCmp CmpEq (ip_octets ip)).

Definition check_endpoint (rule : Rule) (e : End_) (endpoint : Endpoint) : Rule :=
  let rule := check_ip rule e (sock_ip (address endpoint)) in
  check_port rule (protocol endpoint) e (sock_port (address endpoint)).

Definition check_icmpv6 (rule : Rule) (type code : Z) : Rule :=
  add_exprs rule
    [ExLoad MetaL4proto; ExCmp CmpEq (le_bytes 1 IPPROTO_ICMPV6);
     ExLoad PayloadIcmpv6Type; ExCmp CmpEq (le_bytes 1 type);
     ExLoad PayloadIcmpv6Code; ExCmp CmpEq (le_bytes 1 code)].

Section Rules.
Context `{IpNetworkCrate} (env : LinuxEnv).

Definition check_net (rule : Rule) (e : End_) (net : IpNetwork) : Rule :=
  let rule := check_l3proto rule (net_ip net) in
  let rule := add_expr rule (ExLoad match net, e with
                                    | NetV4 _ _, Src => PayloadIpv4Saddr
                                    | NetV4 _ _, Dst => PayloadIpv4Daddr
                                    | NetV6 _ _, Src => PayloadIpv6Saddr
                                    | NetV6 _ _, Dst => PayloadIpv6Daddr
                                    end) in
  let rule := match net with
              | NetV4 _ prefix =>
                  add_expr rule (ExBitwise (be_bytes 4 (ipv4_mask prefix)) (repeat 0 4))
              | NetV6 _ prefix =>
                  add_expr rule (ExBitwise (be_bytes 16 (ipv6_mask prefix)) (repeat 0 16))
              end in
  add_expr rule (ExCmp CmpEq (ip_octets (net_ip net))).

Definition lookup_iface (iface : string) : result Error Z :=
  map_err (λ _, LookupIfaceIndexError iface) (iface_index env iface).

Definition iface_load (direction : Direction) : Load :=
  match direction with DirIn => MetaIif | DirOut => MetaOif end.

Definition check_iface (rule : Rule) (direction : Direction) (iface : string) : result Error Rule :=
  index ← lookup_iface iface;
  Ok (add_exprs rule [ExLoad (iface_load direction); ExCmp CmpEq (le_bytes 4 index)]).

Definition check_not_iface (rule : Rule) (direction : Direction) (iface : string) : result Error Rule :=
  index ← lookup_iface iface;
  Ok (add_exprs rule [ExLoad (iface_load direction); ExCmp CmpNeq (le_bytes 4 index)]).

Definition add_counter (rule : Rule) : Rule :=
  if ADD_COUNTERS env then add_expr rule ExCounter else rule.

Definition add_verdict (rule : Rule) (verdict : Verdict) : Rule :=
  add_expr (add_counter rule) (ExVerdict verdict).

Definition allow_interface_rule (chain : Chain) (direction : Direction) (iface : string) : result Error Rule :=
  rule ← check_iface (Rule_new chain) direction iface;
  Ok (add_verdict rule Accept).

Definition allow_tunnel_dns_rule (chain : Chain) (iface : string) (protocol : TransportProtocol)
    (host : IpAddr) : result Error Rule :=
  rule ← check_iface (Rule_new chain) DirOut iface;
  let rule := check_port rule protocol Dst 53 in
  let daddr := match host with
               | AddrV4 _ => PayloadIpv4Daddr
               | AddrV6 _ => PayloadIpv6Daddr
               end in
  let rule := if decide (t_family (c_table chain) = FamInet) then check_l3proto rule host else rule in
  let rule := add_exprs rule [ExLoad daddr; ExCmp CmpEq (ip_octets host)] in
  Ok (add_verdict rule Accept).

(** Checks that the connection is established: [ct state & ESTABLISHED != 0]. *)
Definition check_established (rule : Rule) : Rule :=
  add_exprs rule [ExLoad CtState;
                  ExBitwise (le_bytes 4 CT_ESTABLISHED) (le_bytes 4 0);
                  ExCmp CmpNeq (le_bytes 4 0)].

(** Checks that the packet belongs to a process running as root. *)
Definition check_root (rule : Rule) : Rule :=
  add_exprs rule [ExLoad MetaSkuid; ExCmp CmpEq (le_bytes 4 ROOT_UID)].

Definition check_ct_mark (rule : Rule) : Rule :=
  add_exprs rule [ExLoad CtMark; ExCmp CmpEq (le_bytes 4 MARK)].

Definition set_meta_mark (rule : Rule) (fwmark : Z) : Rule :=
  add_exprs rule [ExImmediate (le_bytes 4 fwmark); ExMetaMarkSet].

Definition set_ct_mark (rule : Rule) : Rule :=
  add_exprs rule [ExImmediate (le_bytes 4 MARK); ExCtMarkSet].
End Rules.

(** ** The batch of a policy *)

Record PolicyBatch : Set := {
  batch : Batch;
  in_chain : Chain;
  out_chain : Chain;
  forward_chain : Chain;
  prerouting_chain : Chain;
  mangle_chain : Chain;
  nat_chain : Chain
}.

(** [self.batch.add(&rule, MsgType::Add)]. *)
Definition pb_add (pb : PolicyBatch) (rule : Rule) : PolicyBatch :=
  {| batch := batch pb ++ [AddRule rule];
     in_chain := in_chain pb; out_chain := out_chain pb; forward_chain := forward_chain pb;
     prerouting_chain := prerouting_chain pb; mangle_chain := mangle_chain pb;
     nat_chain := nat_chain pb |}.

(** Adds a rule to each of several chains in turn. *)
Definition pb_add_for (pb : PolicyBatch) (chains : list Chain) (f : Chain → Rule) : PolicyBatch :=
  foldl (λ pb chain, pb_add pb (f chain)) pb chains.
Definition pb_add_out_fwd (pb : PolicyBatch) (f : Chain → Rule) : PolicyBatch :=
  pb_add_for pb [out_chain pb; forward_chain pb] f.
Definition pb_add_in_fwd (pb : PolicyBatch) (f : Chain → Rule) : PolicyBatch :=
  pb_add_for pb [in_chain pb; forward_chain pb] f.

Definition batch_deprecated_tables : Batch :=
  let v4 := {| t_name := "mullvadmangle4"; t_family := FamIpv4 |} in
  let v6 := {| t_name := "mullvadmangle6"; t_family := FamIpv6 |} in
  [AddTable v4; DelTable v4; AddTable v6; DelTable v6].

Definition PolicyBatch_new (table : Table) : PolicyBatch :=
  let prerouting_chain :=
    {| c_name := PREROUTING_CHAIN_NAME; c_table := table;
       c_hook := Some (HookPreRouting, PREROUTING_CHAIN_PRIORITY);
       c_type := TypeFilter; c_policy := PolicyAccept |} in
  let out_chain :=
    {| c_name := OUT_CHAIN_NAME; c_table := table; c_hook := Some (HookOut, 0);
       c_type := TypeFilter; c_policy := PolicyDrop |} in
  let in_chain :=
    {| c_name := IN_CHAIN_NAME; c_table := table; c_hook := Some (HookIn, 0);
       c_type := TypeFilter; c_policy := PolicyDrop |} in
  let forward_chain :=
    {| c_name := FORWARD_CHAIN_NAME; c_table := table; c_hook := Some (HookForward, 0);
       c_type := TypeFilter; c_policy := PolicyDrop |} in
  let mangle_chain :=
    {| c_name := MANGLE_CHAIN_NAME; c_table := table;
       c_hook := Some (HookOut, MANGLE_CHAIN_PRIORITY);
       c_type := TypeRoute; c_policy := PolicyAccept |} in
  let nat_chain :=
    {| c_name := NAT_CHAIN_NAME; c_table := table;
       c_hook := Some (HookPostRouting, NF_IP_PRI_NAT_SRC);
       c_type := TypeNat; c_policy := PolicyAccept |} in
  {| batch := batch_deprecated_tables ++
       [AddTable table; DelTable table; AddTable table;
        AddChain prerouting_chain; AddChain out_chain; AddChain in_chain;
        AddChain forward_chain; AddChain mangle_chain; AddChain nat_chain];
     in_chain := in_chain; out_chain := out_chain; forward_chain := forward_chain;
     prerouting_chain := prerouting_chain; mangle_chain := mangle_chain;
     nat_chain := nat_chain |}.

Section Batch.
Context `{IpNetworkCrate} (env : LinuxEnv).

Definition add_loopback_rules (pb : PolicyBatch) : result Error PolicyBatch :=
  out ← allow_interface_rule env (out_chain pb) DirOut "lo";
  let pb := pb_add pb out in
  inn ← allow_interface_rule env (in_chain pb) DirIn "lo";
  Ok (pb_add pb inn).

Definition add_dhcp_client_rules (pb : PolicyBatch) : PolicyBatch :=
  let pb := pb_add_out_fwd pb (λ chain,
    let r := check_port (Rule_new chain) Udp Src DHCPV4_CLIENT_PORT in
    let r := check_ip r Dst (AddrV4 (Ipv4Addr_new 255 255 255 255)) in
    let r := check_port r Udp Dst DHCPV4_SERVER_PORT in
    add_verdict env r Accept) in
  let pb := pb_add_in_fwd pb (λ chain,
    let r := check_port (Rule_new chain) Udp Src DHCPV4_SERVER_PORT in
    let r := check_port r Udp Dst DHCPV4_CLIENT_PORT in
    add_verdict env r Accept) in
  let pb := foldl (λ pb chain,
    foldl (λ pb dhcpv6_server,
      let r := check_net (Rule_new chain) Src IPV6_LINK_LOCAL in
      let r := check_port r Udp Src DHCPV6_CLIENT_PORT in
      let r := check_ip r Dst (AddrV6 dhcpv6_server) in
      let r := check_port r Udp Dst DHCPV6_SERVER_PORT in
      pb_add pb (add_verdict env r Accept)) pb DHCPV6_SERVER_ADDRS)
    pb [out_chain pb; forward_chain pb] in
  pb_add_in_fwd pb (λ chain,
    let r := check_net (Rule_new chain) Src IPV6_LINK_LOCAL in
    let r := check_port r Udp Src DHCPV6_SERVER_PORT in
    let r := check_net r Dst IPV6_LINK_LOCAL in
    let r := check_port r Udp Dst DHCPV6_CLIENT_PORT in
    add_verdict env r Accept).

Definition add_ndp_rules (pb : PolicyBatch) : PolicyBatch :=
  (* Outgoing Router solicitation *)
  let pb := pb_add_out_fwd pb (λ chain,
    let r := check_ip (Rule_new chain) Dst (AddrV6 ROUTER_SOLICITATION_OUT_DST_ADDR) in
    add_verdict env (check_icmpv6 r 133 0) Accept) in
  (* Incoming Router advertisement *)
  let pb := pb_add_in_fwd pb (λ chain,
    let r := check_net (Rule_new chain) Src IPV6_LINK_LOCAL in
    add_verdict env (check_icmpv6 r 134 0) Accept) in
  (* Incoming Redirect *)
  let pb := pb_add_in_fwd pb (λ chain,
    let r := check_net (Rule_new chain) Src IPV6_LINK_LOCAL in
    add_verdict env (check_icmpv6 r 137 0) Accept) in
  (* Outgoing Neighbor solicitation *)
  let pb := pb_add_out_fwd pb (λ chain,
    let r := check_net (Rule_new chain) Dst SOLICITED_NODE_MULTICAST in
    add_verdict env (check_icmpv6 r 135 0) Accept) in
  let pb := pb_add_out_fwd pb (λ chain,
    let r := check_net (Rule_new chain) Dst IPV6_LINK_LOCAL in
    add_verdict env (check_icmpv6 r 135 0) Accept) in
  (* Incoming Neighbor solicitation *)
  let pb := pb_add_in_fwd pb (λ chain,
    let r := check_net (Rule_new chain) Src IPV6_LINK_LOCAL in
    add_verdict env (check_icmpv6 r 135 0) Accept) in
  (* Outgoing Neighbor advertisement *)
  let pb := pb_add_out_fwd pb (λ chain,
    let r := check_net (Rule_new chain) Dst IPV6_LINK_LOCAL in
    add_verdict env (check_icmpv6 r 136 0) Accept) in
  (* Incoming Neighbor advertisement *)
  pb_add_in_fwd pb (λ chain,
    add_verdict env (check_icmpv6 (Rule_new chain) 136 0) Accept).

Definition add_split_tunneling_rules (pb : PolicyBatch) (policy : FirewallPolicy) (fwmark : Z) :
    result Error PolicyBatch :=
  pb ← match policy with
       | Connected _ tunnel _ dns_config =>
           try_fold (λ pb server,
             allow_rule ← allow_tunnel_dns_rule env (mangle_chain pb) (interface tunnel) Udp server;
             let pb := pb_add pb allow_rule in
             allow_rule ← allow_tunnel_dns_rule env (mangle_chain pb) (interface tunnel) Tcp server;
             Ok (pb_add pb allow_rule)) (tunnel_config dns_config) pb
       | _ => Ok pb
       end;
  let rule := add_exprs (Rule_new (mangle_chain pb))
                [ExLoad MetaCgroup; ExCmp CmpEq (le_bytes 4 NET_CLS_CLASSID)] in
  let pb := pb_add pb (set_meta_mark (set_ct_mark rule) fwmark) in
  let pb := pb_add_for pb [in_chain pb; out_chain pb; forward_chain pb] (λ chain,
    add_verdict env (check_ct_mark (Rule_new chain)) Accept) in
  pb ← match policy with
       | Connected _ tunnel _ _ =>
           block_tunnel_rule ← check_iface env (Rule_new (nat_chain pb)) DirOut (interface tunnel);
           Ok (pb_add pb (add_verdict env (check_ct_mark block_tunnel_rule) Drop))
       | _ => Ok pb
       end;
  rule ← check_not_iface env (Rule_new (nat_chain pb)) DirOut "lo";
  let rule := add_expr (check_ct_mark rule) ExMasquerade in
  let pb := pb_add pb (add_counter env rule) in
  match policy with
  | Connected _ tunnel _ _ =>
      prerouting_rule ← check_not_iface env (Rule_new (prerouting_chain pb)) DirIn (interface tunnel);
      let prerouting_rule := set_meta_mark (check_ct_mark prerouting_rule) fwmark in
      Ok (pb_add pb (add_counter env prerouting_rule))
  | _ => Ok pb
  end.

Definition add_allow_tunnel_endpoint_rules (pb : PolicyBatch) (ep : AllowedEndpoint) (fwmark : Z) :
    PolicyBatch :=
  let prerouting_rule := check_endpoint (Rule_new (prerouting_chain pb)) Src (endpoint ep) in
  let pb := pb_add pb (add_counter env (set_meta_mark prerouting_rule fwmark)) in
  let in_rule := check_endpoint (Rule_new (in_chain pb)) Src (endpoint ep) in
  let pb := pb_add pb (add_verdict env (check_established in_rule) Accept) in
  let out_rule := check_endpoint (Rule_new (out_chain pb)) Dst (endpoint ep) in
  let out_rule := add_exprs out_rule [ExLoad MetaMark; ExCmp CmpEq (le_bytes 4 fwmark)] in
  let pb := pb_add pb (add_verdict env out_rule Accept) in
  if allow_all (clients ep) then
    let rule := check_endpoint (Rule_new (mangle_chain pb)) Dst (endpoint ep) in
    pb_add pb (set_meta_mark (set_ct_mark rule) fwmark)
  else pb.

Definition add_allow_endpoint_rules (pb : PolicyBatch) (ep : AllowedEndpoint) : PolicyBatch :=
  let in_rule := check_established (check_endpoint (Rule_new (in_chain pb)) Src (endpoint ep)) in
  let in_rule := if negb (allow_all (clients ep)) then check_root in_rule else in_rule in
  let pb := pb_add pb (add_verdict env in_rule Accept) in
  let out_rule := check_endpoint (Rule_new (out_chain pb)) Dst (endpoint ep) in
  let out_rule := if negb (allow_all (clients ep)) then check_root out_rule else out_rule in
  pb_add pb (add_verdict env out_rule Accept).

Definition add_allow_tunnel_dns_rule (pb : PolicyBatch) (iface : string)
    (protocol : TransportProtocol) (host : IpAddr) : result Error PolicyBatch :=
  try_fold (λ pb chain,
    allow_rule ← allow_tunnel_dns_rule env chain iface protocol host;
    Ok (pb_add pb allow_rule)) [out_chain pb; forward_chain pb] pb.

Definition add_allow_local_dns_rule (pb : PolicyBatch) (tunnel_interface : string)
    (protocol : TransportProtocol) (host : IpAddr) : result Error PolicyBatch :=
  let chains := [(out_chain pb, DirOut); (forward_chain pb, DirOut);
                 (in_chain pb, DirIn); (forward_chain pb, DirIn)] in
  try_fold (λ pb '(chain, direction),
    let addr := match host, direction with
                | AddrV4 _, DirOut => PayloadIpv4Daddr
                | AddrV6 _, DirOut => PayloadIpv6Daddr
                | AddrV4 _, DirIn => PayloadIpv4Saddr
                | AddrV6 _, DirIn => PayloadIpv6Saddr
                end in
    let port_dir := match direction with DirIn => Src | DirOut => Dst end in
    allow_rule ← check_not_iface env (Rule_new chain) direction tunnel_interface;
    let allow_rule := check_port allow_rule protocol port_dir 53 in
    let allow_rule := check_l3proto allow_rule host in
    let allow_rule := add_exprs allow_rule [ExLoad addr; ExCmp CmpEq (ip_octets host)] in
    Ok (pb_add pb (add_verdict env allow_rule Accept))) chains pb.

Definition add_drop_dns_rule (pb : PolicyBatch) : PolicyBatch :=
  foldl (λ pb chain,
    let block_udp_rule := check_port (Rule_new chain) Udp Dst 53 in
    let pb := pb_add pb (add_verdict env block_udp_rule (Reject IcmpPortUnreach)) in
    let block_tcp_rule := check_port (Rule_new chain) Tcp Dst 53 in
    pb_add pb (add_verdict env block_tcp_rule (Reject TcpRst)))
    pb [out_chain pb; forward_chain pb].

Definition add_allow_in_tunnel_endpoint_rules (pb : PolicyBatch) (tunnel_interface : string)
    (ep : Endpoint) : result Error PolicyBatch :=
  try_fold (λ pb '(chain, dir, e),
    rule ← check_iface env (Rule_new chain) dir tunnel_interface;
    let rule := check_ip rule e (sock_ip (address ep)) in
    let rule := check_port rule (protocol ep) e (sock_port (address ep)) in
    Ok (pb_add pb (add_verdict env rule Accept)))
    [(out_chain pb, DirOut, Dst); (in_chain pb, DirIn, Src)] pb.

Definition add_allow_tunnel_rules (pb : PolicyBatch) (tunnel_interface : string) :
    result Error PolicyBatch :=
  rule ← allow_interface_rule env (out_chain pb) DirOut tunnel_interface;
  let pb := pb_add pb rule in
  rule ← allow_interface_rule env (forward_chain pb) DirOut tunnel_interface;
  let pb := pb_add pb rule in
  rule ← allow_interface_rule env (in_chain pb) DirIn tunnel_interface;
  let pb := pb_add pb rule in
  interface_rule ← check_iface env (Rule_new (forward_chain pb)) DirIn tunnel_interface;
  Ok (pb_add pb (add_verdict env (check_established interface_rule) Accept)).

Definition add_block_cve_2019_14899 (pb : PolicyBatch) (tunnel : TunnelMetadata) : PolicyBatch :=
  foldl (λ pb tunnel_ip,
    pb_add pb (add_verdict env (check_ip (Rule_new (in_chain pb)) Dst tunnel_ip) Drop))
    pb (ips tunnel).

Definition add_dhcp_server_rules (pb : PolicyBatch) : PolicyBatch :=
  let out_v4 := check_port (Rule_new (out_chain pb)) Udp Src DHCPV4_SERVER_PORT in
  let out_v4 := check_port out_v4 Udp Dst DHCPV4_CLIENT_PORT in
  let pb := pb_add pb (add_verdict env out_v4 Accept) in
  let in_v4 := check_port (Rule_new (in_chain pb)) Udp Src DHCPV4_CLIENT_PORT in
  let in_v4 := check_endpoint in_v4 Dst
    (Endpoint_new (AddrV4 (Ipv4Addr_new 255 255 255 255)) DHCPV4_SERVER_PORT Udp) in
  pb_add pb (add_verdict env in_v4 Accept).

Definition add_allow_lan_rules (pb : PolicyBatch) : PolicyBatch :=
  let pb := foldl (λ pb chain,
    let pb := foldl (λ pb net,
      pb_add pb (add_verdict env (check_net (Rule_new chain) Dst net) Accept))
      pb ALLOWED_LAN_NETS in
    foldl (λ pb net,
      pb_add pb (add_verdict env (check_net (Rule_new chain) Dst net) Accept))
      pb ALLOWED_LAN_MULTICAST_NETS)
    pb [out_chain pb; forward_chain pb] in
  let pb := foldl (λ pb net,
    pb_add pb (add_verdict env (check_net (Rule_new (in_chain pb)) Src net) Accept))
    pb ALLOWED_LAN_NETS in
  add_dhcp_server_rules pb.

Definition add_policy_specific_rules (pb : PolicyBatch) (policy : FirewallPolicy) (fwmark : Z) :
    result Error PolicyBatch :=
  '(pb, allow_lan) ←
    match policy with
    | Connecting peer_endpoints tunnel allow_lan allowed_endpoint allowed_tunnel_traffic =>
        let pb := foldl (λ pb ep, add_allow_tunnel_endpoint_rules pb ep fwmark) pb peer_endpoints in
        let pb := add_allow_endpoint_rules pb allowed_endpoint in
        let pb := add_drop_dns_rule pb in
        pb ← match tunnel with
             | Some tunnel =>
                 pb ← match allowed_tunnel_traffic with
                      | TrafficAll => add_allow_tunnel_rules pb (interface tunnel)
                      | TrafficNone => Ok pb
                      | TrafficOne endpoint =>
                          add_allow_in_tunnel_endpoint_rules pb (interface tunnel) endpoint
                      | TrafficTwo endpoint1 endpoint2 =>
                          pb ← add_allow_in_tunnel_endpoint_rules pb (interface tunnel) endpoint1;
                          add_allow_in_tunnel_endpoint_rules pb (interface tunnel) endpoint2
                      end;
                 Ok (if allow_lan : bool then add_block_cve_2019_14899 pb tunnel else pb)
             | None => Ok pb
             end;
        Ok (pb, allow_lan)
    | Connected peer_endpoints tunnel allow_lan dns_config =>
        let pb := foldl (λ pb ep, add_allow_tunnel_endpoint_rules pb ep fwmark) pb peer_endpoints in
        pb ← try_fold (λ pb server,
               pb ← add_allow_tunnel_dns_rule pb (interface tunnel) Udp server;
               add_allow_tunnel_dns_rule pb (interface tunnel) Tcp server)
               (tunnel_config dns_config) pb;
        pb ← try_fold (λ pb server,
               pb ← add_allow_local_dns_rule pb (interface tunnel) Udp server;
               add_allow_local_dns_rule pb (interface tunnel) Tcp server)
               (non_tunnel_config dns_config) pb;
        let pb := add_drop_dns_rule pb in
        pb ← add_allow_tunnel_rules pb (interface tunnel);
        Ok (if allow_lan : bool then add_block_cve_2019_14899 pb tunnel else pb, allow_lan)
    | Blocked allow_lan allowed_endpoint =>
        let pb := match allowed_endpoint with
                  | Some endpoint => add_allow_endpoint_rules pb endpoint
                  | None => pb
                  end in
        Ok (add_drop_dns_rule pb, allow_lan)
    end;
  let pb := if allow_lan : bool then add_allow_lan_rules pb else pb in
  Ok (pb_add_out_fwd pb (λ chain,
        add_verdict env (Rule_new chain) (Reject IcmpPortUnreach))).

Definition finalize (pb : PolicyBatch) (policy : FirewallPolicy) (fwmark : Z) : result Error Batch :=
  pb ← add_loopback_rules pb;
  mount ← map_err (λ _, FindNetClsMount) (cgroup.find_net_cls_mount (proc_mounts env));
  pb ← match mount with
       | Some _ => add_split_tunneling_rules pb policy fwmark
       | None => Ok pb
       end;
  let pb := add_dhcp_client_rules pb in
  let pb := add_ndp_rules pb in
  pb ← add_policy_specific_rules pb policy fwmark;
  Ok (batch pb).
End Batch.

(** ** Applying and resetting a policy *)

Record Firewall : Set := { fwmark : Z }.
Definition Firewall_new (fwmark : Z) : Firewall := {| fwmark := fwmark |}.
Definition Firewall_from_args (args : FirewallArguments) : Firewall := Firewall_new (fa_fwmark args).

Definition mullvad_table : Table := {| t_name := TABLE_NAME; t_family := FamInet |}.

Inductive Sysctl : Set := SrcValidMark | ArpIgnore.

(** What the firewall asks of the host besides nftables: the values of
    [LinuxEnv] at the time of a call, the list of tables, and two sysctl files.
    None of these calls changes the installed tables. *)
Class LinuxHost (kernel : Type) `{NftTables kernel} : Type := {
  host_env : kernel → LinuxEnv;
  list_tables : kernel → result unit (list string);
  read_sysctl : Sysctl → kernel → result unit string;
  write_sysctl : Sysctl → string → kernel → result unit unit * kernel;
  dont_set_src_valid_mark : bool;
  dont_set_arp_ignore : bool;
  list_tables_ok k names t :
    list_tables k = Ok names → is_Some (installed k !! t) → t_name t ∈ names;
  list_tables_only k names n :
    list_tables k = Ok names → n ∈ names → ∃ t, t_name t = n ∧ is_Some (installed k !! t);
  write_sysctl_installed f s k : installed (write_sysctl f s k).2 = installed k;
  host_iface_range k iface i : iface_index (host_env k) iface = Ok i → u32_range i
}.

Section Apply.
Context `{IpNetworkCrate} {kernel : Type} `{LinuxHost kernel}.

Definition set_src_valid_mark_sysctl (k : kernel) : result unit unit * kernel :=
  write_sysctl SrcValidMark "1" k.

(** [str::trim] removes leading and trailing white space. *)
Fixpoint trim_start (s : list Ascii.ascii) : list Ascii.ascii :=
  match s with
  | c :: s' => if Ascii.is_space c then trim_start s' else s
  | [] => []
  end.
Definition trim (s : string) : string :=
  String.string_of_list_ascii
    (rev (trim_start (rev (trim_start (String.list_ascii_of_string s))))).

Definition lock_down_arp_ignore_sysctl (k : kernel) : result unit unit * kernel :=
  match read_sysctl ArpIgnore k with
  | Err e => (Err e, k)
  | Ok current_arp_ignore =>
      if decide (trim current_arp_ignore = "0" ∨ trim current_arp_ignore = "1") then
        write_sysctl ArpIgnore "2" k
      else (Ok tt, k)
  end.

Definition apply_kernel_config (policy : FirewallPolicy) (k : kernel) : kernel :=
  let k := if dont_set_src_valid_mark then k
           else match policy with
                | Connecting _ _ _ _ _ => (set_src_valid_mark_sysctl k).2
                | _ => k
                end in
  if dont_set_arp_ignore then k
  else match policy with
       | Connecting _ _ _ _ _ | Connected _ _ _ _ => (lock_down_arp_ignore_sysctl k).2
       | Blocked _ _ => k
       end.

Definition verify_tables (expected_tables : list string) (k : kernel) : result Error unit :=
  match list_tables k with
  | Err _ => Err NetlinkError
  | Ok table_set =>
      if forallb (λ expected, bool_decide (expected ∈ table_set)) expected_tables
      then Ok tt else Err NetfilterTableNotSetError
  end.

Definition apply_policy (fw : Firewall) (policy : FirewallPolicy) (k : kernel) :
    result Error unit * kernel :=
  match finalize (host_env k) (PolicyBatch_new mullvad_table) policy (fwmark fw) with
  | Err e => (Err e, k)
  | Ok batch =>
      match send_batch batch k with
      | (Err _, k) => (Err NetlinkError, k)
      | (Ok _, k) =>
          let k := apply_kernel_config policy k in
          (verify_tables [TABLE_NAME] k, k)
      end
  end.

Definition reset_policy_batch : Batch :=
  [AddTable mullvad_table; DelTable mullvad_table] ++ batch_deprecated_tables.

Definition reset_policy (fw : Firewall) (k : kernel) : result Error unit * kernel :=
  match send_batch reset_policy_batch k with
  | (Err _, k) => (Err NetlinkError, k)
  | (Ok _, k) => (Ok tt, k)
  end.
End Apply.

(** ** A host

    The kernel that only keeps tables, with the interfaces `lo` and `wg0`. *)
Definition model_env : LinuxEnv := {|
  iface_index iface :=
    if decide (iface = "lo") then Ok 1 else if decide (iface = "wg0") then Ok 7 else Err tt;
  proc_mounts := Ok [];
  ADD_COUNTERS := false
|}.

#[export] Instance linux_host_model : LinuxHost Tables.
Proof.
  refine {| host_env _ := model_env;
            list_tables k := Ok (map (t_name ∘ fst) (map_to_list k));
            read_sysctl _ _ := Ok "0"; write_sysctl _ _ k := (Ok tt, k);
            dont_set_src_valid_mark := false; dont_set_arp_ignore := false |}.
  - intros k names t [= <-] [cs Ht]. apply list_elem_of_In, in_map_iff. exists (t, cs).
    split; [done|]. by apply list_elem_of_In, elem_of_map_to_list.
  - intros k names n [= <-] ([t cs] & <- & Hin)%list_elem_of_In%in_map_iff.
    apply list_elem_of_In, elem_of_map_to_list in Hin. by exists t.
  - done.
  - intros k iface i. cbn. repeat case_decide; by intros [= <-].
Defined.
