(* ===== verification/RuleSemantics.v ===== *)
(** * What the rules of the Linux firewall match

    Packets are read at the level of addresses, ports and interfaces, and every
    check the firewall appends to a rule is shown to be a predicate on that
    reading.  A rule is thereby a guard and a verdict. *)

From S2P Require Import Prelude NetTypes TunnelTypes Nft LinuxFirewall.

(** ** Reading packets *)

Definition be_val (bs : list Z) : Z := le_val (rev bs).

Definition pk_ip (e : End_) (p : Packet) : option IpAddr :=
  if pk_nfproto p =? NFPROTO_IPV4 then
    AddrV4 ∘ be_val <$> slice match e with Src => 12 | Dst => 16 end 4 (pk_network_header p)
  else if pk_nfproto p =? NFPROTO_IPV6 then
    AddrV6 ∘ be_val <$> slice match e with Src => 8 | Dst => 24 end 16 (pk_network_header p)
  else None.

Definition pk_port (proto : TransportProtocol) (e : End_) (p : Packet) : option Z :=
  if pk_l4proto p =? l4proto proto then
    be_val <$> slice match e with Src => 0 | Dst => 2 end 2 (pk_transport_header p)
  else None.

Definition pk_icmpv6 (p : Packet) : option (Z * Z) :=
  if pk_l4proto p =? IPPROTO_ICMPV6 then
    match pk_transport_header p with
    | type :: code :: _ => Some (type, code)
    | _ => None
    end
  else None.

Definition pk_iface (d : Direction) (p : Packet) : Z :=
  match d with DirIn => pk_iif p | DirOut => pk_oif p end.

(** The ranges of the kernel's types. *)
Record pk_wf (p : Packet) : Prop := {
  wf_iif : u32_range (pk_iif p);
  wf_oif : u32_range (pk_oif p);
  wf_nfproto : u8_range (pk_nfproto p);
  wf_l4proto : u8_range (pk_l4proto p);
  wf_mark : u32_range (pk_mark p);
  wf_skuid : ∀ uid, pk_skuid p = Some uid → u32_range uid;
  wf_cgroup : u32_range (pk_cgroup p);
  wf_ct_state : u32_range (pk_ct_state p);
  wf_ct_mark : u32_range (pk_ct_mark p);
  wf_network : Forall u8_range (pk_network_header p);
  wf_transport : Forall u8_range (pk_transport_header p)
}.

(** ** Guards *)

Definition m_ip (e : End_) (ip : IpAddr) (p : Packet) : bool := bool_decide (pk_ip e p = Some ip).
Definition m_port (proto : TransportProtocol) (e : End_) (port : Z) (p : Packet) : bool :=
  bool_decide (pk_port proto e p = Some port).
Definition m_endpoint (e : End_) (ep : Endpoint) (p : Packet) : bool :=
  m_ip e (sock_ip (address ep)) p && m_port (protocol ep) e (sock_port (address ep)) p.
Definition m_icmpv6 (type code : Z) (p : Packet) : bool :=
  bool_decide (pk_icmpv6 p = Some (type, code)).
Definition m_iface (d : Direction) (index : Z) (p : Packet) : bool := pk_iface d p =? index.
Definition m_established (p : Packet) : bool := Z.testbit (pk_ct_state p) 1.
Definition m_root (p : Packet) : bool := bool_decide (pk_skuid p = Some ROOT_UID).
Definition m_ct_mark (p : Packet) : bool := pk_ct_mark p =? MARK.
Definition m_cgroup (p : Packet) : bool := pk_cgroup p =? NET_CLS_CLASSID.
Definition m_mark (mark : Z) (p : Packet) : bool := pk_mark p =? mark.
Definition m_net `{IpNetworkCrate} (e : End_) (net : IpNetwork) (p : Packet) : bool :=
  match pk_ip e p with Some ip => net_contains net ip | None => false end.

(** The network's address has no bits outside its mask, as for every network
    the firewall uses. *)
Definition net_normal `{IpNetworkCrate} (net : IpNetwork) : Prop :=
  match net with
  | NetV4 a p => u32_range a ∧ Z.land a (ipv4_mask p) = a ∧ 0 ≤ p ≤ 32
  | NetV6 a p => u128_range a ∧ Z.land a (ipv6_mask p) = a ∧ 0 ≤ p ≤ 128
  end.

(** [fresh es]: [es] does not look at the register it starts with. *)
Definition fresh (es : list Expr) : Prop :=
  ∀ reg reg' p, run_exprs es reg p = run_exprs es reg' p.

(** [guarded r g]: running the rule as built so far amounts to testing [g]. *)
Definition guarded (r : Rule) (g : Packet → bool) : Prop :=
  ∀ rest reg p, pk_wf p → fresh rest →
    run_exprs (r_exprs r ++ rest) reg p = if g p then run_exprs rest [] p else Break.

(** [denotes r g v]: the rule gives verdict [v] to the packets [g] accepts and
    passes on the others. *)
Definition denotes (r : Rule) (g : Packet → bool) (v : Verdict) : Prop :=
  ∀ p, pk_wf p → run_rule (r_exprs r) p = if g p then Final v p else Break.

(** ** Byte-level facts *)

Lemma be_val_be_bytes n z : 0 ≤ z < 256 ^ Z.of_nat n → be_val (be_bytes n z) = z.
Proof.
  intros Hz. unfold be_val, be_bytes. rewrite rev_involutive. by apply le_val_le_bytes.
Qed.

Lemma be_bytes_be_val bs : Forall u8_range bs → be_bytes (length bs) (be_val bs) = bs.
Proof.
  intros Hb. unfold be_val, be_bytes. rewrite <- (length_rev bs).
  rewrite le_bytes_le_val by by apply Forall_rev. apply rev_involutive.
Qed.

Lemma be_bytes_eq bs n z :
  Forall u8_range bs → length bs = n → 0 ≤ z < 256 ^ Z.of_nat n →
  bs = be_bytes n z ↔ be_val bs = z.
Proof.
  intros Hb <- Hz. split.
  - intros E. rewrite E. by apply be_val_be_bytes.
  - intros <-. by rewrite be_bytes_be_val.
Qed.

Lemma be_val_range bs : Forall u8_range bs → 0 ≤ be_val bs < 256 ^ Z.of_nat (length bs).
Proof.
  intros Hb. unfold be_val. rewrite <- (length_rev bs).
  apply Forall_rev in Hb. induction Hb as [|b l Hb _ IH]; cbn [le_val length]; [lia|].
  rewrite Nat2Z.inj_succ, Z.pow_succ_r by lia.
  unfold u8_range in Hb. change (2 ^ 8) with 256 in Hb. lia.
Qed.

Lemma slice_Some off len l bs :
  slice off len l = Some bs → length bs = len ∧ (Forall u8_range l → Forall u8_range bs).
Proof.
  unfold slice. case_decide; [|done]. intros [= <-]. split.
  - rewrite length_take, length_drop. lia.
  - intros. by apply Forall_take, Forall_drop.
Qed.

Lemma le_bytes_eqb n x y :
  0 ≤ x < 256 ^ Z.of_nat n → 0 ≤ y < 256 ^ Z.of_nat n →
  bool_decide (take n (le_bytes n x) = le_bytes n y) = (x =? y).
Proof.
  intros Hx Hy. rewrite firstn_all2 by (rewrite length_le_bytes; lia).
  destruct (Z.eqb_spec x y) as [->|Hne]; [by rewrite bool_decide_eq_true_2|].
  apply bool_decide_eq_false_2. intros E. by apply Hne, (le_bytes_inj n).
Qed.

(** ** Single checks *)

Lemma fresh_load l es : fresh (ExLoad l :: es).
Proof. intros reg reg' p. done. Qed.
Lemma fresh_verdict v es : fresh (ExVerdict v :: es).
Proof. intros reg reg' p. done. Qed.
Lemma fresh_immediate d es : fresh (ExImmediate d :: es).
Proof. intros reg reg' p. done. Qed.
Lemma fresh_nil : fresh [].
Proof. intros reg reg' p. done. Qed.
Lemma fresh_counter es : fresh es → fresh (ExCounter :: es).
Proof. intros H reg reg' p. apply H. Qed.
#[export] Hint Resolve fresh_load fresh_verdict fresh_immediate fresh_nil fresh_counter : vpn.

(** A check is a list of expressions that tests a predicate. *)
Definition check_sem (es : list Expr) (g : Packet → bool) : Prop :=
  ∀ rest reg p, pk_wf p → fresh rest →
    run_exprs (es ++ rest) reg p = if g p then run_exprs rest [] p else Break.

Definition starts_with_load (es : list Expr) : Prop :=
  match es with ExLoad _ :: _ => True | _ => False end.

Lemma guarded_add r g es h :
  guarded r g → starts_with_load es → check_sem es h →
  guarded (add_exprs r es) (λ p, g p && h p).
Proof.
  intros Hr Hs He rest reg p Hp Hrest. cbn. rewrite <- app_assoc, Hr; [|done|].
  - destruct (g p); cbn; [by apply He|done].
  - by destruct es as [|[] es].
Qed.

Lemma guarded_new c : guarded (Rule_new c) (λ _, true).
Proof. intros rest reg p _ Hf. apply Hf. Qed.

Lemma guarded_ext r g h : guarded r g → (∀ p, pk_wf p → g p = h p) → guarded r h.
Proof. intros Hr E rest reg p Hp Hf. by rewrite Hr, E. Qed.

Lemma add_expr_exprs r e : add_expr r e = add_exprs r [e].
Proof. done. Qed.
Lemma add_exprs_app r es1 es2 : add_exprs (add_exprs r es1) es2 = add_exprs r (es1 ++ es2).
Proof. unfold add_exprs; cbn. by rewrite app_assoc. Qed.

(** The expression lists of the compound checks. *)
Ltac flatten_rule := rewrite ?add_expr_exprs, ?add_exprs_app; cbn [app].

(** Loading a value of [n] bytes in host order and comparing it. *)
Lemma check_sem_meta l n (f : Packet → Z) v :
  (∀ p, load l p = Some (le_bytes n (f p))) →
  (∀ p, pk_wf p → 0 ≤ f p < 256 ^ Z.of_nat n) → 0 ≤ v < 256 ^ Z.of_nat n →
  check_sem [ExLoad l; ExCmp CmpEq (le_bytes n v)] (λ p, f p =? v).
Proof.
  intros Hl Hf Hv rest reg p Hp Hr. cbn [app run_exprs]. rewrite Hl. cbn [cmp_holds].
  rewrite length_le_bytes, le_bytes_eqb by auto. destruct (f p =? v); [apply Hr|done].
Qed.

Lemma check_sem_meta_ne l n (f : Packet → Z) v :
  (∀ p, load l p = Some (le_bytes n (f p))) →
  (∀ p, pk_wf p → 0 ≤ f p < 256 ^ Z.of_nat n) → 0 ≤ v < 256 ^ Z.of_nat n →
  check_sem [ExLoad l; ExCmp CmpNeq (le_bytes n v)] (λ p, negb (f p =? v)).
Proof.
  intros Hl Hf Hv rest reg p Hp Hr. cbn [app run_exprs]. rewrite Hl. cbn [cmp_holds].
  rewrite length_le_bytes, le_bytes_eqb by auto. destruct (negb (f p =? v)); [apply Hr|done].
Qed.

(** Loading bytes of a header and comparing them with a big-endian value. *)
Lemma check_sem_payload l off n h v :
  (∀ p, load l p = slice off n (h p)) →
  (∀ p, pk_wf p → Forall u8_range (h p)) → 0 ≤ v < 256 ^ Z.of_nat n →
  check_sem [ExLoad l; ExCmp CmpEq (be_bytes n v)]
    (λ p, bool_decide (be_val <$> slice off n (h p) = Some v)).
Proof.
  intros Hl Hf Hv rest reg p Hp Hr. cbn [app run_exprs]. rewrite Hl.
  destruct (slice off n (h p)) as [bs|] eqn:E; cbn; [|done].
  apply slice_Some in E as [Hlen HF]. specialize (HF (Hf p Hp)).
  rewrite length_be_bytes, firstn_all2 by lia.
  rewrite (bool_decide_ext _ (Some (be_val bs) = Some v)).
  - case_bool_decide; [apply Hr|done].
  - rewrite (be_bytes_eq bs n v) by done. naive_solver.
Qed.

(** Two checks in a row. *)
Lemma check_sem_app es1 es2 g1 g2 :
  check_sem es1 g1 → check_sem es2 g2 → starts_with_load es2 →
  check_sem (es1 ++ es2) (λ p, g1 p && g2 p).
Proof.
  intros H1 H2 Hs rest reg p Hp Hr. rewrite <- app_assoc, H1; [|done|].
  - destruct (g1 p); [|done]. by apply H2.
  - by destruct es2 as [|[] es2].
Qed.

Lemma check_sem_ext es g h : check_sem es g → (∀ p, pk_wf p → g p = h p) → check_sem es h.
Proof. intros He E rest reg p Hp Hf. by rewrite He, E. Qed.

(** ** The checks of the firewall *)

Lemma sem_l3proto ip :
  check_sem [ExLoad MetaNfproto; ExCmp CmpEq (le_bytes 1 (l3proto ip))]
    (λ p, pk_nfproto p =? l3proto ip).
Proof.
  apply (check_sem_meta MetaNfproto 1 pk_nfproto); [done|apply wf_nfproto|].
  by destruct ip.
Qed.

Lemma sem_l4proto proto :
  check_sem [ExLoad MetaL4proto; ExCmp CmpEq (le_bytes 1 (l4proto proto))]
    (λ p, pk_l4proto p =? l4proto proto).
Proof.
  apply (check_sem_meta MetaL4proto 1 pk_l4proto); [done|apply wf_l4proto|].
  by destruct proto.
Qed.

Lemma guarded_l3proto r g ip :
  guarded r g → guarded (check_l3proto r ip) (λ p, g p && (pk_nfproto p =? l3proto ip)).
Proof. intros Hr. by apply (guarded_add r g _ _ Hr); [|apply sem_l3proto]. Qed.

Lemma guarded_port r g proto e port :
  guarded r g → u16_range port →
  guarded (check_port r proto e port) (λ p, g p && m_port proto e port p).
Proof.
  intros Hr Hport. unfold check_port, check_l4proto. flatten_rule.
  rewrite le_bytes_to_be. apply guarded_add; [done..|].
  eapply check_sem_ext.
  - apply (check_sem_app [_; _] [_; _]); [apply sem_l4proto| |done].
    apply (check_sem_payload _ match e with Src => 0 | Dst => 2 end 2 pk_transport_header).
    + by destruct proto, e.
    + apply wf_transport.
    + done.
  - intros p _. unfold m_port, pk_port. by destruct (pk_l4proto p =? l4proto proto).
Qed.

(** Loading the address at an end of the packet and comparing it, once the
    protocol is known. *)
Lemma sem_addr e ip :
  ip_wf ip →
  check_sem ([ExLoad MetaNfproto; ExCmp CmpEq (le_bytes 1 (l3proto ip))] ++
             [ExLoad match ip, e with
                     | AddrV4 _, Src => PayloadIpv4Saddr
                     | AddrV4 _, Dst => PayloadIpv4Daddr
                     | AddrV6 _, Src => PayloadIpv6Saddr
                     | AddrV6 _, Dst => PayloadIpv6Daddr
                     end; ExCmp CmpEq (ip_octets ip)])
    (m_ip e ip).
Proof.
  intros Hip. destruct ip as [a|a]; cbn in Hip; eapply check_sem_ext.
  - apply check_sem_app; [apply sem_l3proto| |by destruct e].
    apply (check_sem_payload _ match e with Src => 12 | Dst => 16 end 4 pk_network_header);
      [by destruct e|apply wf_network|exact Hip].
  - intros p _. unfold m_ip, pk_ip. cbn.
    destruct (Z.eqb_spec (pk_nfproto p) NFPROTO_IPV4) as [E|E]; cbn; rewrite ?E.
    + apply bool_decide_ext. destruct (slice _ _ _); naive_solver.
    + destruct (_ =? _); [|done]. by destruct (slice _ _ _).
  - apply check_sem_app; [apply sem_l3proto| |by destruct e].
    apply (check_sem_payload _ match e with Src => 8 | Dst => 24 end 16 pk_network_header);
      [by destruct e|apply wf_network|exact Hip].
  - intros p _. unfold m_ip, pk_ip. cbn.
    destruct (Z.eqb_spec (pk_nfproto p) NFPROTO_IPV4) as [E|E]; cbn; rewrite ?E.
    + symmetry. apply bool_decide_eq_false_2. by destruct (slice _ _ _).
    + destruct (pk_nfproto p =? NFPROTO_IPV6); [|done].
      apply bool_decide_ext. destruct (slice _ _ _); naive_solver.
Qed.

Lemma guarded_ip r g e ip :
  guarded r g → ip_wf ip → guarded (check_ip r e ip) (λ p, g p && m_ip e ip p).
Proof.
  intros Hr Hip. unfold check_ip, check_l3proto. flatten_rule.
  apply guarded_add; [done..|]. by apply sem_addr.
Qed.

Lemma guarded_endpoint r g e ep :
  guarded r g → sock_wf (address ep) →
  guarded (check_endpoint r e ep) (λ p, g p && m_endpoint e ep p).
Proof.
  intros Hr [Hip Hport]. unfold check_endpoint. eapply guarded_ext.
  - apply guarded_port; [by apply guarded_ip|done].
  - intros p _. cbn. unfold m_endpoint. by rewrite andb_assoc.
Qed.

Lemma guarded_icmpv6 r g type code :
  guarded r g → u8_range type → u8_range code →
  guarded (check_icmpv6 r type code) (λ p, g p && m_icmpv6 type code p).
Proof.
  intros Hr Ht Hc. apply guarded_add; [done..|]. eapply check_sem_ext.
  - apply (check_sem_app [_; _] [_; _; _; _]); [|apply (check_sem_app [_; _] [_; _])|done].
    + by apply (check_sem_meta MetaL4proto 1 pk_l4proto); [|apply wf_l4proto|].
    + by apply (check_sem_payload PayloadIcmpv6Type 0 1 pk_transport_header); [|apply wf_transport|].
    + by apply (check_sem_payload PayloadIcmpv6Code 1 1 pk_transport_header); [|apply wf_transport|].
    + done.
  - intros p Hp. unfold m_icmpv6, pk_icmpv6.
    destruct (pk_l4proto p =? IPPROTO_ICMPV6); [|done].
    assert (∀ t, be_val [t] = t) as Hb by (intros t; unfold be_val; cbn [rev app le_val]; lia).
    destruct (pk_transport_header p) as [|t [|c l]]; [done|by rewrite andb_false_r|].
    unfold slice. rewrite !decide_True by (cbn; lia). cbn [take drop fmap option_fmap option_map].
    rewrite andb_true_l, <- bool_decide_and, !Hb. apply bool_decide_ext. naive_solver.
Qed.

Lemma guarded_mark r g mark :
  guarded r g → u32_range mark →
  guarded (add_exprs r [ExLoad MetaMark; ExCmp CmpEq (le_bytes 4 mark)]) (λ p, g p && m_mark mark p).
Proof.
  intros Hr Hm. apply guarded_add; [done..|].
  by apply (check_sem_meta MetaMark 4 pk_mark); [|apply wf_mark|].
Qed.

Lemma guarded_ct_mark r g :
  guarded r g → guarded (check_ct_mark r) (λ p, g p && m_ct_mark p).
Proof.
  intros Hr. apply guarded_add; [done..|].
  by apply (check_sem_meta CtMark 4 pk_ct_mark); [|apply wf_ct_mark|].
Qed.

Lemma guarded_cgroup r g :
  guarded r g →
  guarded (add_exprs r [ExLoad MetaCgroup; ExCmp CmpEq (le_bytes 4 NET_CLS_CLASSID)])
    (λ p, g p && m_cgroup p).
Proof.
  intros Hr. apply guarded_add; [done..|].
  by apply (check_sem_meta MetaCgroup 4 pk_cgroup); [|apply wf_cgroup|].
Qed.

Lemma guarded_root r g : guarded r g → guarded (check_root r) (λ p, g p && m_root p).
Proof.
  intros Hr. apply guarded_add; [done..|]. intros rest reg p Hp Hf.
  cbn [app run_exprs load]. unfold m_root. destruct (pk_skuid p) as [uid|] eqn:E; cbn; [|done].
  rewrite (bool_decide_ext _ (Some uid = Some ROOT_UID)).
  - case_bool_decide; [apply Hf|done].
  - apply (wf_skuid _ Hp) in E. split; [|by intros [= ->]].
    intros ?%(le_bytes_inj 4 uid ROOT_UID); [congruence|done|done].
Qed.

Lemma guarded_established r g :
  guarded r g → guarded (check_established r) (λ p, g p && m_established p).
Proof.
  intros Hr. apply guarded_add; [done..|]. intros rest reg p Hp Hf.
  cbn [app run_exprs load]. rewrite le_bytes_land.
  change (le_bytes 4 0) with (repeat 0 (length (le_bytes 4 (Z.land (pk_ct_state p) CT_ESTABLISHED)))) at 1.
  rewrite zip_with_lxor_0. cbn [cmp_holds]. rewrite length_le_bytes, le_bytes_eqb.
  - assert (negb (Z.land (pk_ct_state p) CT_ESTABLISHED =? 0) = m_established p) as ->.
    { unfold m_established. change CT_ESTABLISHED with (Z.shiftl 1 1).
      destruct (Z.testbit (pk_ct_state p) 1) eqn:E.
      - apply negb_true_iff, Z.eqb_neq. intros Hz. apply (f_equal (λ z, Z.testbit z 1)) in Hz.
        rewrite Z.land_spec, E in Hz. done.
      - apply negb_false_iff, Z.eqb_eq, Z.bits_inj'. intros i Hi.
        rewrite Z.land_spec, Z.shiftl_spec, Z.bits_0 by lia.
        destruct (decide (i = 1)) as [->|]; [by rewrite E|].
        replace (Z.testbit 1 (i - 1)) with false; [apply andb_false_r|].
        destruct (decide (i = 0)) as [->|]; [done|].
        symmetry. apply (Z.bits_above_log2 1); cbn; lia. }
    destruct (m_established p); [apply Hf|done].
  - change CT_ESTABLISHED with (Z.land 2 (Z.ones 32)).
    rewrite Z.land_assoc, Z.land_ones by lia. change (256 ^ Z.of_nat 4) with (2 ^ 32).
    apply Z.mod_pos_bound. lia.
  - done.
Qed.

Lemma guarded_iface env r g d iface r' :
  guarded r g → check_iface env r d iface = Ok r' →
  ∃ index, iface_index env iface = Ok index ∧
    (u32_range index → guarded r' (λ p, g p && m_iface d index p)).
Proof.
  unfold check_iface, lookup_iface. destruct (iface_index env iface) as [index|]; cbn; [|done].
  intros Hr [= <-]. eexists; split; [done|]. intros Hi. apply guarded_add; [done..|].
  by destruct d; [apply (check_sem_meta MetaIif 4 pk_iif); [|apply wf_iif|]
                 |apply (check_sem_meta MetaOif 4 pk_oif); [|apply wf_oif|]].
Qed.

Lemma guarded_not_iface env r g d iface r' :
  guarded r g → check_not_iface env r d iface = Ok r' →
  ∃ index, iface_index env iface = Ok index ∧
    (u32_range index → guarded r' (λ p, g p && negb (m_iface d index p))).
Proof.
  unfold check_not_iface, lookup_iface. destruct (iface_index env iface) as [index|]; cbn; [|done].
  intros Hr [= <-]. eexists; split; [done|]. intros Hi. apply guarded_add; [done..|].
  by destruct d; [apply (check_sem_meta_ne MetaIif 4 pk_iif); [|apply wf_iif|]
                 |apply (check_sem_meta_ne MetaOif 4 pk_oif); [|apply wf_oif|]].
Qed.

(** Masking the address and comparing with the network's own address. *)
Lemma check_sem_masked l off n h mask v :
  (∀ p, load l p = slice off n (h p)) →
  (∀ p, pk_wf p → Forall u8_range (h p)) → 0 ≤ v < 256 ^ Z.of_nat n → 0 ≤ mask →
  check_sem [ExLoad l; ExBitwise (be_bytes n mask) (repeat 0 n); ExCmp CmpEq (be_bytes n v)]
    (λ p, match slice off n (h p) with
          | Some bs => Z.land (be_val bs) mask =? v
          | None => false
          end).
Proof.
  intros Hl Hf Hv Hm rest reg p Hp Hr. cbn [app run_exprs]. rewrite Hl.
  destruct (slice off n (h p)) as [bs|] eqn:E; [|done].
  apply slice_Some in E as [Hlen HF]. specialize (HF (Hf p Hp)).
  rewrite <- (be_bytes_be_val bs HF) at 1. rewrite Hlen, be_bytes_land.
  rewrite <- (length_be_bytes n (Z.land (be_val bs) mask)) at 2. rewrite zip_with_lxor_0.
  cbn [cmp_holds]. rewrite length_be_bytes, firstn_all2 by (rewrite length_be_bytes; lia).
  pose proof (be_val_range bs HF) as Hb. rewrite Hlen in Hb.
  assert (0 ≤ Z.land (be_val bs) mask < 256 ^ Z.of_nat n) as Hland.
  { split; [apply Z.land_nonneg; lia|]. eapply Z.le_lt_trans; [|apply Hb].
    apply Z.ldiff_le; [lia|]. apply Z.bits_inj'. intros i _.
    rewrite Z.ldiff_spec, Z.land_spec, Z.bits_0. by destruct (Z.testbit (be_val bs) i), (Z.testbit mask i). }
  destruct (Z.eqb_spec (Z.land (be_val bs) mask) v) as [->|Hne].
  - rewrite bool_decide_eq_true_2 by done. apply Hr.
  - rewrite bool_decide_eq_false_2; [done|]. intros ?%be_bytes_inj; done.
Qed.

Lemma mask_nonneg `{IpNetworkCrate} :
  (∀ p, 0 ≤ p ≤ 32 → 0 ≤ ipv4_mask p) ∧ (∀ p, 0 ≤ p ≤ 128 → 0 ≤ ipv6_mask p).
Proof.
  split; intros p Hp; rewrite ?ipv4_mask_spec, ?ipv6_mask_spec by lia;
    apply Z.le_0_sub, Z.pow_le_mono_r; lia.
Qed.

Lemma guarded_net `{IpNetworkCrate} r g e net :
  guarded r g → net_normal net → guarded (check_net r e net) (λ p, g p && m_net e net p).
Proof.
  intros Hr Hn. unfold check_net, check_l3proto. destruct net as [a pre|a pre];
    destruct Hn as (Ha & Hmask & Hpre); flatten_rule; apply guarded_add; try done;
    (eapply check_sem_ext; [apply (check_sem_app [_; _] [_; _; _]);
                             [apply (sem_l3proto (net_ip _))| |by destruct e]|]).
  - apply (check_sem_masked _ match e with Src => 12 | Dst => 16 end 4 pk_network_header);
      [by destruct e|apply wf_network|exact Ha|by apply mask_nonneg].
  - intros p _. unfold m_net, pk_ip. cbn. destruct (Z.eqb_spec (pk_nfproto p) NFPROTO_IPV4) as [E|E].
    + destruct (slice _ _ _); cbn; [|done]. by rewrite net_contains_spec, Hmask.
    + cbn. destruct (_ =? _); [|done]. destruct (slice _ _ _); cbn; [|done].
      by rewrite net_contains_spec.
  - apply (check_sem_masked _ match e with Src => 8 | Dst => 24 end 16 pk_network_header);
      [by destruct e|apply wf_network|exact Ha|by apply mask_nonneg].
  - intros p _. unfold m_net, pk_ip. cbn. destruct (Z.eqb_spec (pk_nfproto p) NFPROTO_IPV4) as [E|E].
    + rewrite E. cbn. destruct (slice _ 4 _); cbn; [|done]. by rewrite net_contains_spec.
    + destruct (_ =? _); [|done]. destruct (slice _ _ _); cbn; [|done].
      by rewrite net_contains_spec, Hmask.
Qed.

(** ** Rules with a verdict *)

Lemma denotes_verdict env r g v : guarded r g → denotes (add_verdict env r v) g v.
Proof.
  intros Hr p Hp. unfold run_rule, add_verdict, add_counter. destruct (ADD_COUNTERS env); cbn.
  - rewrite <- app_assoc. rewrite Hr; [done..|]. by apply fresh_counter, fresh_verdict.
  - by rewrite Hr; [|done|apply fresh_verdict].
Qed.

Lemma denotes_ext r g h v : denotes r g v → (∀ p, pk_wf p → g p = h p) → denotes r h v.
Proof. intros Hr E p Hp. by rewrite Hr, E. Qed.

(** ** Lists of rules

    [sem rules p] is the verdict of the first rule that matches. *)
Fixpoint sem (rules : list (list Expr)) (p : Packet) : option Verdict :=
  match rules with
  | [] => None
  | es :: rules => match run_rule es p with
                   | Final v _ => Some v
                   | _ => sem rules p
                   end
  end.

(** No rule of the chain changes the packet. *)
Definition inert (es : list Expr) : Prop :=
  ∀ p, pk_wf p → match run_rule es p with Break => True | Continue p' | Final _ p' => p' = p end.

Definition or_else (f g : Packet → option Verdict) : Packet → option Verdict :=
  λ p, match f p with Some v => Some v | None => g p end.
Infix "▷" := or_else (at level 55, right associativity).

Definition rule_of (g : Packet → bool) (v : Verdict) : Packet → option Verdict :=
  λ p, if g p then Some v else None.
Definition no_rule : Packet → option Verdict := λ _, None.

Lemma sem_app rs1 rs2 p : sem (rs1 ++ rs2) p = (sem rs1 ▷ sem rs2) p.
Proof.
  unfold or_else. induction rs1 as [|es rs1 IH]; cbn; [done|].
  destruct (run_rule es p); auto.
Qed.

Lemma chain_eval_sem pol rules p :
  pk_wf p → Forall inert rules →
  chain_eval pol rules p = (default (policy_verdict pol) (sem rules p), p).
Proof.
  intros Hp. induction 1 as [|es rules Hi _ IH]; cbn [chain_eval sem]; [done|].
  specialize (Hi p Hp). destruct (run_rule es p); subst; done.
Qed.

(** ** Rules that mark packets

    The prerouting, mangle and nat chains hold rules that change the marks of a
    packet besides rules with a verdict.  Such a rule is a guard and an action. *)
Inductive Action : Set :=
| ActVerdict (v : Verdict)
| ActMark (mark : Z)             (* sets the packet's mark *)
| ActMarks (mark : Z).           (* sets the connection's mark too *)
Definition Stage : Type := ((Packet → bool) * Action)%type.

Definition set_marks (mark : Z) (p : Packet) : Packet := set_pk_mark mark (set_pk_ct_mark MARK p).

Definition act (a : Action) (p : Packet) : Outcome :=
  match a with
  | ActVerdict v => Final v p
  | ActMark mark => Continue (set_pk_mark mark p)
  | ActMarks mark => Continue (set_marks mark p)
  end.
Definition run_stage (s : Stage) (p : Packet) : Outcome := if s.1 p then act s.2 p else Break.

(** [performs es s]: the rule is the stage. *)
Definition performs (es : list Expr) (s : Stage) : Prop :=
  ∀ p, pk_wf p → run_rule es p = run_stage s p.

(** The last verdict, if one of the stages gives one, and the packet as it is then. *)
Fixpoint run_stages (ss : list Stage) (p : Packet) : option Verdict * Packet :=
  match ss with
  | [] => (None, p)
  | s :: ss => match run_stage s p with
               | Break => run_stages ss p
               | Continue p' => run_stages ss p'
               | Final v p' => (Some v, p')
               end
  end.

Lemma pk_wf_mark m p : u32_range m → pk_wf p → pk_wf (set_pk_mark m p).
Proof. intros Hm []. by split. Qed.
Lemma pk_wf_marks m p : u32_range m → pk_wf p → pk_wf (set_marks m p).
Proof. intros Hm []. by split. Qed.

Definition stage_wf (s : Stage) : Prop :=
  match s.2 with ActVerdict _ => True | ActMark m | ActMarks m => u32_range m end.

Lemma chain_eval_stages pol rules ss p :
  pk_wf p → Forall stage_wf ss → Forall2 performs rules ss →
  chain_eval pol rules p =
  (default (policy_verdict pol) (run_stages ss p).1, (run_stages ss p).2).
Proof.
  intros Hp Hw Hs. revert p Hp. induction Hs as [|es [g a] rules ss He _ IH]; intros p Hp; [done|].
  apply Forall_cons in Hw as [Ha Hw]. cbn [chain_eval run_stages]. rewrite (He p Hp).
  unfold run_stage. cbn. destruct (g p); [|by apply IH].
  destruct a; cbn; [done|apply IH; [done|by apply pk_wf_mark]|apply IH; [done|by apply pk_wf_marks]].
Qed.

Lemma performs_verdict r g v : denotes r g v → performs (r_exprs r) (g, ActVerdict v).
Proof. intros Hr p Hp. by rewrite Hr. Qed.

Lemma le_val_mark m : u32_range m → le_val (take 4 (le_bytes 4 m)) = m.
Proof.
  intros Hm. rewrite firstn_all2 by by rewrite length_le_bytes. by apply le_val_le_bytes.
Qed.

Lemma performs_mark env r g m :
  guarded r g → u32_range m →
  performs (r_exprs (add_counter env (set_meta_mark r m))) (g, ActMark m).
Proof.
  intros Hr Hm p Hp. unfold run_rule, run_stage, add_counter. cbn [fst snd act].
  destruct (ADD_COUNTERS env); cbn [r_exprs add_expr add_exprs set_meta_mark]; rewrite <- ?app_assoc.
  all: rewrite Hr; [|done|apply fresh_immediate]; destruct (g p); [|done];
    cbn [app run_exprs]; by rewrite le_val_mark.
Qed.

Lemma performs_marks r g m :
  guarded r g → u32_range m →
  performs (r_exprs (set_meta_mark (set_ct_mark r) m)) (g, ActMarks m).
Proof.
  intros Hr Hm p Hp. unfold run_rule, run_stage. cbn [fst snd act].
  cbn [r_exprs add_expr add_exprs set_meta_mark set_ct_mark]. rewrite <- app_assoc.
  rewrite Hr; [|done|apply fresh_immediate]; destruct (g p); [|done].
  cbn [app run_exprs]. by rewrite !le_val_mark.
Qed.

Lemma performs_masquerade env r g :
  guarded r g → performs (r_exprs (add_counter env (add_expr r ExMasquerade))) (g, ActVerdict Accept).
Proof.
  intros Hr p Hp. unfold run_rule, run_stage, add_counter. cbn [fst snd act].
  destruct (ADD_COUNTERS env); cbn [r_exprs add_expr add_exprs]; rewrite <- ?app_assoc.
  all: by rewrite Hr; [destruct (g p)|done|intros ???].
Qed.

Lemma performs_ext es g h a : performs es (g, a) → (∀ p, pk_wf p → g p = h p) → performs es (h, a).
Proof. intros He E p Hp. rewrite He by done. unfold run_stage. cbn. by rewrite E. Qed.
