(* ===== verification/FirewallRules.v ===== *)
(** * The rules each part of the firewall adds

    Every function of the Linux firewall that extends a batch is characterised
    by the filters it appends to the output, input and forward chains and by the
    stages it appends to the mangle, prerouting and nat chains. *)

From S2P Require Import Prelude NetTypes TunnelTypes Nft LinuxFirewall RuleSemantics.

(** ** Filters *)

(** The chains that change marks or translate addresses. *)
Inductive AuxChain : Set := Mangle | Prerouting | Nat.

(** What is appended to the three filtering chains and to the other three. *)
Record Filters : Type := {
  f_out : Packet → option Verdict;
  f_in : Packet → option Verdict;
  f_fwd : Packet → option Verdict;
  f_aux : AuxChain → list Stage
}.

Definition no_stage : AuxChain → list Stage := λ _, [].
Definition f_none : Filters :=
  {| f_out := no_rule; f_in := no_rule; f_fwd := no_rule; f_aux := no_stage |}.
Definition f_then (F G : Filters) : Filters :=
  {| f_out := f_out F ▷ f_out G; f_in := f_in F ▷ f_in G; f_fwd := f_fwd F ▷ f_fwd G;
     f_aux := λ a, f_aux F a ++ f_aux G a |}.
Infix "▷▷" := f_then (at level 56, left associativity).

Definition on_out (g : Packet → bool) (v : Verdict) : Filters :=
  {| f_out := rule_of g v; f_in := no_rule; f_fwd := no_rule; f_aux := no_stage |}.
Definition on_in (g : Packet → bool) (v : Verdict) : Filters :=
  {| f_out := no_rule; f_in := rule_of g v; f_fwd := no_rule; f_aux := no_stage |}.
Definition on_fwd (g : Packet → bool) (v : Verdict) : Filters :=
  {| f_out := no_rule; f_in := no_rule; f_fwd := rule_of g v; f_aux := no_stage |}.
Definition on_aux (a : AuxChain) (g : Packet → bool) (act : Action) : Filters :=
  {| f_out := no_rule; f_in := no_rule; f_fwd := no_rule;
     f_aux := λ b, match a, b with
                   | Mangle, Mangle | Prerouting, Prerouting | Nat, Nat => [(g, act)]
                   | _, _ => []
                   end |}.
Definition f_all {A} (F : A → Filters) (l : list A) : Filters := foldr (λ a G, F a ▷▷ G) f_none l.
Arguments f_all : simpl never.
Lemma f_all_cons {A} (F : A → Filters) a l : f_all F (a :: l) = F a ▷▷ f_all F l.
Proof. done. Qed.

(** Filters that agree on every well-formed packet and have the same stages. *)
Definition f_equiv (F G : Filters) : Prop :=
  (∀ p, pk_wf p → f_out F p = f_out G p ∧ f_in F p = f_in G p ∧ f_fwd F p = f_fwd G p) ∧
  ∀ a, f_aux F a = f_aux G a.
Infix "≡f" := f_equiv (at level 70).

#[export] Instance f_equiv_equivalence : Equivalence f_equiv.
Proof.
  split.
  - intros F. done.
  - intros F G [E A]. split; [|done]. intros p Hp. destruct (E p Hp) as (?&?&?). done.
  - intros F G K [E1 A1] [E2 A2]. split; [|congruence].
    intros p Hp. destruct (E1 p Hp) as (?&?&?), (E2 p Hp) as (?&?&?). split_and!; congruence.
Qed.

#[export] Instance f_then_proper : Proper (f_equiv ==> f_equiv ==> f_equiv) f_then.
Proof.
  intros F F' [E1 A1] G G' [E2 A2]. split; [|intros a; cbn; by rewrite A1, A2].
  intros p Hp. destruct (E1 p Hp) as (Ho&Hi&Hf), (E2 p Hp) as (Ho'&Hi'&Hf').
  unfold f_then, or_else; cbn. rewrite Ho, Hi, Hf, Ho', Hi', Hf'. done.
Qed.

Lemma f_then_assoc F G K : F ▷▷ G ▷▷ K ≡f F ▷▷ (G ▷▷ K).
Proof.
  split; [|intros a; cbn; by rewrite app_assoc].
  intros p _. cbn. unfold or_else. by destruct (f_out F p), (f_in F p), (f_fwd F p).
Qed.
Lemma f_then_none_l F : f_none ▷▷ F ≡f F.
Proof. done. Qed.
Lemma f_then_none_r F : F ▷▷ f_none ≡f F.
Proof.
  split; [|intros a; apply app_nil_r].
  intros p _. cbn. unfold or_else, no_rule. by destruct (f_out F p), (f_in F p), (f_fwd F p).
Qed.

(** ** Extending a batch *)

Definition all_chains (pb : PolicyBatch) : list Chain :=
  [prerouting_chain pb; out_chain pb; in_chain pb; forward_chain pb; mangle_chain pb; nat_chain pb].

Definition filter_rules (c : Chain) (rs : list Rule) : list (list Expr) :=
  map r_exprs (List.filter (λ r, bool_decide (r_chain r = c)) rs).

Definition aux_chain (pb : PolicyBatch) (a : AuxChain) : Chain :=
  match a with
  | Mangle => mangle_chain pb
  | Prerouting => prerouting_chain pb
  | Nat => nat_chain pb
  end.

Definition aux_sem (c : Chain) (rs : list Rule) (ss : list Stage) : Prop :=
  Forall2 performs (filter_rules c rs) ss ∧ Forall stage_wf ss.

Definition chain_sem (c : Chain) (rs : list Rule) (f : Packet → option Verdict) : Prop :=
  Forall inert (filter_rules c rs) ∧ ∀ p, pk_wf p → sem (filter_rules c rs) p = f p.

(** [extends pb pb' F]: [pb'] is [pb] with more rules, whose effect is [F]. *)
Definition extends (pb pb' : PolicyBatch) (F : Filters) : Prop :=
  ∃ rs, batch pb' = batch pb ++ map AddRule rs ∧
        all_chains pb' = all_chains pb ∧
        Forall (λ r, r_chain r ∈ all_chains pb) rs ∧
        chain_sem (out_chain pb) rs (f_out F) ∧
        chain_sem (in_chain pb) rs (f_in F) ∧
        chain_sem (forward_chain pb) rs (f_fwd F) ∧
        ∀ a, aux_sem (aux_chain pb a) rs (f_aux F a).

Lemma filter_rules_app c rs1 rs2 :
  filter_rules c (rs1 ++ rs2) = filter_rules c rs1 ++ filter_rules c rs2.
Proof. unfold filter_rules. by rewrite List.filter_app, map_app. Qed.

Lemma chain_sem_nil c : chain_sem c [] no_rule.
Proof. split; [constructor|done]. Qed.

Lemma chain_sem_app c rs1 rs2 f1 f2 :
  chain_sem c rs1 f1 → chain_sem c rs2 f2 → chain_sem c (rs1 ++ rs2) (f1 ▷ f2).
Proof.
  intros [H1 E1] [H2 E2]. split; rewrite filter_rules_app; [by apply Forall_app|].
  intros p Hp. rewrite sem_app. unfold or_else. by rewrite E1, E2.
Qed.

Lemma aux_sem_app c rs1 rs2 ss1 ss2 :
  aux_sem c rs1 ss1 → aux_sem c rs2 ss2 → aux_sem c (rs1 ++ rs2) (ss1 ++ ss2).
Proof.
  intros [H1 W1] [H2 W2]. unfold aux_sem. rewrite filter_rules_app. split; [by apply Forall2_app|].
  by apply Forall_app.
Qed.

Lemma filter_rules_miss c r : r_chain r ≠ c → filter_rules c [r] = [].
Proof. intros Hne. unfold filter_rules; cbn. by rewrite bool_decide_eq_false_2. Qed.
Lemma filter_rules_hit r : filter_rules (r_chain r) [r] = [r_exprs r].
Proof. unfold filter_rules; cbn. by rewrite bool_decide_eq_true_2. Qed.

Lemma aux_sem_miss c r : r_chain r ≠ c → aux_sem c [r] [].
Proof. intros Hne. unfold aux_sem. by rewrite filter_rules_miss. Qed.

Lemma chain_sem_hit r g v : denotes r g v → chain_sem (r_chain r) [r] (rule_of g v).
Proof.
  intros Hd. unfold chain_sem, filter_rules; cbn. rewrite bool_decide_eq_true_2 by done; cbn.
  split.
  - repeat constructor. intros p Hp. rewrite Hd by done. by destruct (g p).
  - intros p Hp. rewrite Hd by done. unfold rule_of. by destruct (g p).
Qed.

Lemma chain_sem_miss c r : r_chain r ≠ c → chain_sem c [r] no_rule.
Proof.
  intros Hne. unfold chain_sem. rewrite filter_rules_miss by done. split; [constructor|done].
Qed.

Lemma all_chains_inj pb pb' :
  all_chains pb' = all_chains pb →
  prerouting_chain pb' = prerouting_chain pb ∧ out_chain pb' = out_chain pb ∧
  in_chain pb' = in_chain pb ∧ forward_chain pb' = forward_chain pb ∧
  mangle_chain pb' = mangle_chain pb ∧ nat_chain pb' = nat_chain pb.
Proof. unfold all_chains. by intros [= -> -> -> -> -> ->]. Qed.

Lemma extends_refl pb : extends pb pb f_none.
Proof.
  exists []. rewrite app_nil_r.
  split_and!; [done|done|constructor|apply chain_sem_nil..|by intros a; split; constructor].
Qed.

Lemma aux_chain_eq pb pb' a : all_chains pb' = all_chains pb → aux_chain pb' a = aux_chain pb a.
Proof. intros (?&_&_&_&?&?)%all_chains_inj. by destruct a. Qed.

Lemma extends_trans pb1 pb2 pb3 F G :
  extends pb1 pb2 F → extends pb2 pb3 G → extends pb1 pb3 (F ▷▷ G).
Proof.
  intros (rs1 & Hb1 & Hc1 & Hin1 & Ho1 & Hi1 & Hf1 & Ha1) (rs2 & Hb2 & Hc2 & Hin2 & Ho2 & Hi2 & Hf2 & Ha2).
  pose proof (all_chains_inj _ _ Hc1) as (_ & Eo & Ei & Ef & _).
  rewrite Eo in Ho2. rewrite Ei in Hi2. rewrite Ef in Hf2. rewrite Hc1 in Hin2.
  exists (rs1 ++ rs2). rewrite Hb2, Hb1, map_app, app_assoc.
  split_and!; [done|congruence|by apply Forall_app|by apply chain_sem_app..|].
  intros a. specialize (Ha2 a). rewrite (aux_chain_eq pb1) in Ha2 by done. by apply aux_sem_app.
Qed.

Lemma extends_equiv pb pb' F G : F ≡f G → extends pb pb' F → extends pb pb' G.
Proof.
  intros [E A] (rs & Hb & Hc & Hin & [Io Ho] & [Ii Hi] & [If Hf] & Ha).
  exists rs. split_and!; try done; [..|intros a; rewrite <- A; apply Ha].
  all: split; [done|]; intros p Hp; destruct (E p Hp) as (Eo & Ei & Ef).
  - by rewrite Ho.
  - by rewrite Hi.
  - by rewrite Hf.
Qed.

#[export] Instance extends_proper pb pb' : Proper (f_equiv ==> iff) (extends pb pb').
Proof. intros F G E. split; apply extends_equiv; [done|by symmetry]. Qed.

Definition distinct (pb : PolicyBatch) : Prop := NoDup (all_chains pb).

Lemma extends_distinct pb pb' F : extends pb pb' F → distinct pb → distinct pb'.
Proof. intros (rs & _ & Hc & _). unfold distinct. by rewrite Hc. Qed.

Ltac chains_differ :=
  let E := fresh "E" in
  intros E; unfold distinct, all_chains in *;
  repeat match goal with
  | H : NoDup (_ :: _) |- _ => apply NoDup_cons in H as [? ?]
  end; rewrite <- ?E in *; set_solver.

(** A rule of a filtering chain is in none of the others. *)
Ltac aux_differ Hc :=
  let a := fresh "a" in
  intros a; apply aux_sem_miss; rewrite Hc; destruct a; cbn [aux_chain]; chains_differ.

Lemma extends_out pb r g v :
  distinct pb → r_chain r = out_chain pb → denotes r g v →
  extends pb (pb_add pb r) (on_out g v).
Proof.
  intros Hd Hc Hr. exists [r].
  split_and!; [done|done| | |apply chain_sem_miss; rewrite Hc; chains_differ..|aux_differ Hc].
  - constructor; [rewrite Hc; set_solver|constructor].
  - rewrite <- Hc. by apply chain_sem_hit.
Qed.

Lemma extends_in pb r g v :
  distinct pb → r_chain r = in_chain pb → denotes r g v →
  extends pb (pb_add pb r) (on_in g v).
Proof.
  intros Hd Hc Hr. exists [r]. split_and!; [done|done| | | | |aux_differ Hc].
  - constructor; [rewrite Hc; set_solver|constructor].
  - apply chain_sem_miss; rewrite Hc; chains_differ.
  - rewrite <- Hc. by apply chain_sem_hit.
  - apply chain_sem_miss; rewrite Hc; chains_differ.
Qed.

Lemma extends_fwd pb r g v :
  distinct pb → r_chain r = forward_chain pb → denotes r g v →
  extends pb (pb_add pb r) (on_fwd g v).
Proof.
  intros Hd Hc Hr. exists [r]. split_and!; [done|done| | | | |aux_differ Hc].
  - constructor; [rewrite Hc; set_solver|constructor].
  - apply chain_sem_miss; rewrite Hc; chains_differ.
  - apply chain_sem_miss; rewrite Hc; chains_differ.
  - rewrite <- Hc. by apply chain_sem_hit.
Qed.

(** Rules of the prerouting, mangle and nat chains do not filter. *)
Lemma extends_aux pb r a g act :
  distinct pb → r_chain r = aux_chain pb a → performs (r_exprs r) (g, act) → stage_wf (g, act) →
  extends pb (pb_add pb r) (on_aux a g act).
Proof.
  intros Hd Hc Hp Hw. exists [r].
  split_and!; [done|done| |apply chain_sem_miss; rewrite Hc; destruct a; cbn [aux_chain]; chains_differ..|].
  - constructor; [rewrite Hc; destruct a; set_solver|constructor].
  - assert (aux_sem (aux_chain pb a) [r] [(g, act)]) as Ha.
    { unfold aux_sem. rewrite <- Hc, filter_rules_hit. split; by repeat constructor. }
    intros b. destruct a, b; try exact Ha; apply aux_sem_miss; rewrite Hc; cbn [aux_chain]; chains_differ.
Qed.

Definition on_out_fwd (g : Packet → bool) (v : Verdict) : Filters := on_out g v ▷▷ on_fwd g v.
Definition on_in_fwd (g : Packet → bool) (v : Verdict) : Filters := on_in g v ▷▷ on_fwd g v.

Lemma extends_out_fwd pb f g v :
  distinct pb → (∀ c, r_chain (f c) = c) → (∀ c, denotes (f c) g v) →
  extends pb (pb_add_out_fwd pb f) (on_out_fwd g v).
Proof.
  intros Hd Hc Hr. eapply extends_trans; [by apply extends_out|]. by apply extends_fwd.
Qed.

Lemma extends_in_fwd pb f g v :
  distinct pb → (∀ c, r_chain (f c) = c) → (∀ c, denotes (f c) g v) →
  extends pb (pb_add_in_fwd pb f) (on_in_fwd g v).
Proof.
  intros Hd Hc Hr. eapply extends_trans; [by apply extends_in|]. by apply extends_fwd.
Qed.

(** Loops, infallible and fallible. *)
Lemma extends_foldl {A} (h : PolicyBatch → A → PolicyBatch) (F : A → Filters) l pb0 pb :
  all_chains pb = all_chains pb0 →
  (∀ pb a, all_chains pb = all_chains pb0 → a ∈ l → extends pb (h pb a) (F a)) →
  extends pb (foldl h pb l) (f_all F l).
Proof.
  revert pb. induction l as [|a l IH]; intros pb Hpb Hh; cbn; [apply extends_refl|].
  assert (extends pb (h pb a) (F a)) as Ha by (apply Hh; set_solver).
  eapply extends_trans; [done|]. destruct Ha as (_ & _ & Hc & _).
  apply IH; [congruence|]. intros. apply Hh; set_solver.
Qed.

Lemma extends_try_fold {E A} (h : PolicyBatch → A → result E PolicyBatch) (F : A → Filters) l pb0 pb pb' :
  all_chains pb = all_chains pb0 →
  (∀ pb a pb', all_chains pb = all_chains pb0 → a ∈ l → h pb a = Ok pb' → extends pb pb' (F a)) →
  try_fold h l pb = Ok pb' → extends pb pb' (f_all F l).
Proof.
  revert pb. induction l as [|a l IH]; intros pb Hpb Hh; cbn.
  - intros [= <-]. apply extends_refl.
  - intros (pb1 & H1 & H2)%result_bind_ok.
    assert (extends pb pb1 (F a)) as Ha by (apply Hh; set_solver).
    eapply extends_trans; [done|]. destruct Ha as (_ & _ & Hc & _).
    apply IH; [congruence| |done]. intros. apply Hh; set_solver.
Qed.

Lemma distinct_add pb r : distinct pb → distinct (pb_add pb r).
Proof. done. Qed.
Lemma distinct_out_fwd pb f : distinct pb → distinct (pb_add_out_fwd pb f).
Proof. done. Qed.
Lemma distinct_in_fwd pb f : distinct pb → distinct (pb_add_in_fwd pb f).
Proof. done. Qed.
#[export] Hint Resolve distinct_add distinct_out_fwd distinct_in_fwd : vpn.

(** The chains belong to a table of the inet family. *)
Definition inet (pb : PolicyBatch) : Prop :=
  ∀ c, c ∈ all_chains pb → t_family (c_table c) = FamInet.

Lemma distinct_eq pb pb' : all_chains pb' = all_chains pb → distinct pb → distinct pb'.
Proof. unfold distinct. by intros ->. Qed.

(** ** Chains are kept while a rule is built *)

Lemma r_chain_verdict env r v : r_chain (add_verdict env r v) = r_chain r.
Proof. unfold add_verdict, add_counter. by destruct (ADD_COUNTERS env). Qed.
Lemma r_chain_counter env r : r_chain (add_counter env r) = r_chain r.
Proof. unfold add_counter. by destruct (ADD_COUNTERS env). Qed.
Lemma r_chain_net `{IpNetworkCrate} r e n : r_chain (check_net r e n) = r_chain r.
Proof. by destruct n. Qed.
Lemma r_chain_iface env r d i r' : check_iface env r d i = Ok r' → r_chain r' = r_chain r.
Proof. unfold check_iface. by intros (?&_&[= <-])%result_bind_ok. Qed.
Lemma r_chain_not_iface env r d i r' : check_not_iface env r d i = Ok r' → r_chain r' = r_chain r.
Proof. unfold check_not_iface. by intros (?&_&[= <-])%result_bind_ok. Qed.
Lemma r_chain_port r pr e n : r_chain (check_port r pr e n) = r_chain r.
Proof. done. Qed.
Lemma r_chain_ip r e ip : r_chain (check_ip r e ip) = r_chain r.
Proof. done. Qed.
Lemma r_chain_endpoint r e ep : r_chain (check_endpoint r e ep) = r_chain r.
Proof. done. Qed.
Lemma r_chain_exprs r es : r_chain (add_exprs r es) = r_chain r.
Proof. done. Qed.
Lemma r_chain_icmpv6 r t c : r_chain (check_icmpv6 r t c) = r_chain r.
Proof. done. Qed.
#[export] Hint Rewrite r_chain_verdict r_chain_counter @r_chain_net r_chain_port r_chain_ip
  r_chain_endpoint r_chain_exprs r_chain_icmpv6 : vpn.

(** The index of an interface; an index that does not exist matches nothing. *)
Definition ifindex (env : LinuxEnv) (iface : string) : Z :=
  match iface_index env iface with Ok i => i | Err _ => -1 end.

Definition env_wf (env : LinuxEnv) : Prop :=
  ∀ iface i, iface_index env iface = Ok i → u32_range i.

Lemma guarded_iface' env r g d iface r' :
  env_wf env → guarded r g → check_iface env r d iface = Ok r' →
  guarded r' (λ p, g p && m_iface d (ifindex env iface) p).
Proof.
  intros He Hr Hc. destruct (guarded_iface _ _ _ _ _ _ Hr Hc) as (i & Hi & Hg).
  unfold ifindex. rewrite Hi. by apply Hg, (He iface).
Qed.

Lemma guarded_not_iface' env r g d iface r' :
  env_wf env → guarded r g → check_not_iface env r d iface = Ok r' →
  guarded r' (λ p, g p && negb (m_iface d (ifindex env iface) p)).
Proof.
  intros He Hr Hc. destruct (guarded_not_iface _ _ _ _ _ _ Hr Hc) as (i & Hi & Hg).
  unfold ifindex. rewrite Hi. by apply Hg, (He iface).
Qed.

(** ** The networks of the firewall are normal *)

Ltac net_normal_tac :=
  repeat split; try done;
  rewrite ?ipv4_mask_spec, ?ipv6_mask_spec by lia; vm_compute; reflexivity.

Section Networks.
Context `{IpNetworkCrate}.

Lemma lan_nets_normal : Forall net_normal ALLOWED_LAN_NETS.
Proof. repeat constructor; net_normal_tac. Qed.
Lemma multicast_nets_normal : Forall net_normal ALLOWED_LAN_MULTICAST_NETS.
Proof. repeat constructor; net_normal_tac. Qed.
Lemma link_local_normal : net_normal IPV6_LINK_LOCAL.
Proof. net_normal_tac. Qed.
Lemma solicited_node_normal : net_normal SOLICITED_NODE_MULTICAST.
Proof. net_normal_tac. Qed.
End Networks.
#[export] Hint Resolve link_local_normal solicited_node_normal : vpn.

(** ** Guards of the state-independent rules *)

Section Guards.
Context `{IpNetworkCrate}.

Definition dhcpv4_request (p : Packet) : bool :=
  m_port Udp Src DHCPV4_CLIENT_PORT p && m_ip Dst (AddrV4 (Ipv4Addr_new 255 255 255 255)) p &&
  m_port Udp Dst DHCPV4_SERVER_PORT p.
Definition dhcpv4_response (p : Packet) : bool :=
  m_port Udp Src DHCPV4_SERVER_PORT p && m_port Udp Dst DHCPV4_CLIENT_PORT p.
Definition dhcpv6_request (server : Z) (p : Packet) : bool :=
  m_net Src IPV6_LINK_LOCAL p && m_port Udp Src DHCPV6_CLIENT_PORT p &&
  m_ip Dst (AddrV6 server) p && m_port Udp Dst DHCPV6_SERVER_PORT p.
Definition dhcpv6_response (p : Packet) : bool :=
  m_net Src IPV6_LINK_LOCAL p && m_port Udp Src DHCPV6_SERVER_PORT p &&
  m_net Dst IPV6_LINK_LOCAL p && m_port Udp Dst DHCPV6_CLIENT_PORT p.

Definition router_solicitation (p : Packet) : bool :=
  m_ip Dst (AddrV6 ROUTER_SOLICITATION_OUT_DST_ADDR) p && m_icmpv6 133 0 p.
Definition from_link_local (type : Z) (p : Packet) : bool :=
  m_net Src IPV6_LINK_LOCAL p && m_icmpv6 type 0 p.
Definition to_link_local (type : Z) (p : Packet) : bool :=
  m_net Dst IPV6_LINK_LOCAL p && m_icmpv6 type 0 p.
Definition to_solicited_node (p : Packet) : bool :=
  m_net Dst SOLICITED_NODE_MULTICAST p && m_icmpv6 135 0 p.

Definition F_loopback (env : LinuxEnv) : Filters :=
  on_out (m_iface DirOut (ifindex env "lo")) Accept ▷▷
  on_in (m_iface DirIn (ifindex env "lo")) Accept.
Definition F_dhcp_client : Filters :=
  on_out_fwd dhcpv4_request Accept ▷▷ on_in_fwd dhcpv4_response Accept ▷▷
  f_all (λ s, on_out_fwd (dhcpv6_request s) Accept) DHCPV6_SERVER_ADDRS ▷▷
  on_in_fwd dhcpv6_response Accept.
Definition F_ndp : Filters :=
  on_out_fwd router_solicitation Accept ▷▷
  on_in_fwd (from_link_local 134) Accept ▷▷
  on_in_fwd (from_link_local 137) Accept ▷▷
  on_out_fwd to_solicited_node Accept ▷▷
  on_out_fwd (to_link_local 135) Accept ▷▷
  on_in_fwd (from_link_local 135) Accept ▷▷
  on_out_fwd (to_link_local 136) Accept ▷▷
  on_in_fwd (m_icmpv6 136 0) Accept.
Definition tunnel_dns (env : LinuxEnv) (iface : string) (proto : TransportProtocol) (host : IpAddr)
    (p : Packet) : bool :=
  m_iface DirOut (ifindex env iface) p && m_port proto Dst 53 p && m_ip Dst host p.
(** DNS in the tunnel is not split; packets of excluded processes get both
    marks, are accepted, kept out of the tunnel and given the address of the
    interface they leave through, and their answers get the daemon's mark. *)
Definition F_split_dns (env : LinuxEnv) (policy : FirewallPolicy) : Filters :=
  match policy with
  | Connected _ t _ dns =>
      f_all (λ s, on_aux Mangle (tunnel_dns env (interface t) Udp s) (ActVerdict Accept) ▷▷
                  on_aux Mangle (tunnel_dns env (interface t) Tcp s) (ActVerdict Accept)) (tunnel_config dns)
  | _ => f_none
  end.
Definition F_split_block (env : LinuxEnv) (policy : FirewallPolicy) : Filters :=
  match policy with
  | Connected _ t _ _ =>
      on_aux Nat (λ p, m_iface DirOut (ifindex env (interface t)) p && m_ct_mark p) (ActVerdict Drop)
  | _ => f_none
  end.
Definition F_split_answers (env : LinuxEnv) (mark : Z) (policy : FirewallPolicy) : Filters :=
  match policy with
  | Connected _ t _ _ =>
      on_aux Prerouting (λ p, negb (m_iface DirIn (ifindex env (interface t)) p) && m_ct_mark p) (ActMark mark)
  | _ => f_none
  end.
Definition F_split (env : LinuxEnv) (mark : Z) (policy : FirewallPolicy) : Filters :=
  F_split_dns env policy ▷▷ on_aux Mangle m_cgroup (ActMarks mark) ▷▷
  (on_in m_ct_mark Accept ▷▷ on_out m_ct_mark Accept ▷▷ on_fwd m_ct_mark Accept) ▷▷
  F_split_block env policy ▷▷
  on_aux Nat (λ p, negb (m_iface DirOut (ifindex env "lo") p) && m_ct_mark p) (ActVerdict Accept) ▷▷
  F_split_answers env mark policy.
Definition F_drop_dns : Filters :=
  on_out_fwd (m_port Udp Dst 53) (Reject IcmpPortUnreach) ▷▷
  on_out_fwd (m_port Tcp Dst 53) (Reject TcpRst).
Definition F_reject_all : Filters := on_out_fwd (λ _, true) (Reject IcmpPortUnreach).
Definition F_peer (mark : Z) (ep : AllowedEndpoint) : Filters :=
  on_aux Prerouting (m_endpoint Src (endpoint ep)) (ActMark mark) ▷▷
  on_in (λ p, m_endpoint Src (endpoint ep) p && m_established p) Accept ▷▷
  on_out (λ p, m_endpoint Dst (endpoint ep) p && m_mark mark p) Accept ▷▷
  (if allow_all (clients ep) then on_aux Mangle (m_endpoint Dst (endpoint ep)) (ActMarks mark) else f_none).
Definition client_ok (ep : AllowedEndpoint) (p : Packet) : bool :=
  allow_all (clients ep) || m_root p.
Definition F_allowed_endpoint (ep : AllowedEndpoint) : Filters :=
  on_in (λ p, m_endpoint Src (endpoint ep) p && m_established p && client_ok ep p) Accept ▷▷
  on_out (λ p, m_endpoint Dst (endpoint ep) p && client_ok ep p) Accept.
Definition local_dns (env : LinuxEnv) (iface : string) (d : Direction) (proto : TransportProtocol)
    (host : IpAddr) (p : Packet) : bool :=
  let e := match d with DirIn => Src | DirOut => Dst end in
  negb (m_iface d (ifindex env iface) p) && m_port proto e 53 p && m_ip e host p.
Definition F_tunnel_dns (env : LinuxEnv) (iface : string) (proto : TransportProtocol) (host : IpAddr) : Filters :=
  on_out_fwd (tunnel_dns env iface proto host) Accept.
Definition F_local_dns (env : LinuxEnv) (iface : string) (proto : TransportProtocol) (host : IpAddr) : Filters :=
  on_out (local_dns env iface DirOut proto host) Accept ▷▷
  on_fwd (local_dns env iface DirOut proto host) Accept ▷▷
  on_in (local_dns env iface DirIn proto host) Accept ▷▷
  on_fwd (local_dns env iface DirIn proto host) Accept.
Definition F_in_tunnel_endpoint (env : LinuxEnv) (iface : string) (ep : Endpoint) : Filters :=
  on_out (λ p, m_iface DirOut (ifindex env iface) p && m_endpoint Dst ep p) Accept ▷▷
  on_in (λ p, m_iface DirIn (ifindex env iface) p && m_endpoint Src ep p) Accept.
Definition F_tunnel (env : LinuxEnv) (iface : string) : Filters :=
  on_out (m_iface DirOut (ifindex env iface)) Accept ▷▷
  on_fwd (m_iface DirOut (ifindex env iface)) Accept ▷▷
  on_in (m_iface DirIn (ifindex env iface)) Accept ▷▷
  on_fwd (λ p, m_iface DirIn (ifindex env iface) p && m_established p) Accept.
Definition F_block_cve (tunnel : TunnelMetadata) : Filters :=
  f_all (λ ip, on_in (m_ip Dst ip) Drop) (ips tunnel).
Definition dhcpv4_server_response (p : Packet) : bool :=
  m_port Udp Src DHCPV4_SERVER_PORT p && m_port Udp Dst DHCPV4_CLIENT_PORT p.
Definition dhcpv4_server_request (p : Packet) : bool :=
  m_port Udp Src DHCPV4_CLIENT_PORT p &&
  m_endpoint Dst (Endpoint_new (AddrV4 (Ipv4Addr_new 255 255 255 255)) DHCPV4_SERVER_PORT Udp) p.
Definition F_lan : Filters :=
  f_all (λ net, on_out_fwd (m_net Dst net) Accept) (ALLOWED_LAN_NETS ++ ALLOWED_LAN_MULTICAST_NETS) ▷▷
  f_all (λ net, on_in (m_net Src net) Accept) ALLOWED_LAN_NETS ▷▷
  on_out dhcpv4_server_response Accept ▷▷ on_in dhcpv4_server_request Accept.

(** The rules of a policy, in the order they are added. *)
Definition F_if (b : bool) (F : Filters) : Filters := if b then F else f_none.
Definition F_tunnel_traffic (env : LinuxEnv) (iface : string) (allowed : AllowedTunnelTraffic) : Filters :=
  match allowed with
  | TrafficAll => F_tunnel env iface
  | TrafficNone => f_none
  | TrafficOne endpoint => F_in_tunnel_endpoint env iface endpoint
  | TrafficTwo endpoint1 endpoint2 =>
      F_in_tunnel_endpoint env iface endpoint1 ▷▷ F_in_tunnel_endpoint env iface endpoint2
  end.
Definition F_policy_head (env : LinuxEnv) (mark : Z) (policy : FirewallPolicy) : Filters :=
  match policy with
  | Connecting peers tunnel allow_lan allowed_endpoint allowed =>
      f_all (F_peer mark) peers ▷▷ F_allowed_endpoint allowed_endpoint ▷▷ F_drop_dns ▷▷
      match tunnel with
      | Some t => F_tunnel_traffic env (interface t) allowed ▷▷ F_if allow_lan (F_block_cve t)
      | None => f_none
      end
  | Connected peers tunnel allow_lan dns =>
      f_all (F_peer mark) peers ▷▷
      f_all (λ s, F_tunnel_dns env (interface tunnel) Udp s ▷▷ F_tunnel_dns env (interface tunnel) Tcp s)
        (tunnel_config dns) ▷▷
      f_all (λ s, F_local_dns env (interface tunnel) Udp s ▷▷ F_local_dns env (interface tunnel) Tcp s)
        (non_tunnel_config dns) ▷▷
      F_drop_dns ▷▷ F_tunnel env (interface tunnel) ▷▷ F_if allow_lan (F_block_cve tunnel)
  | Blocked _ allowed_endpoint =>
      match allowed_endpoint with Some ep => F_allowed_endpoint ep | None => f_none end ▷▷ F_drop_dns
  end.
Definition F_policy (env : LinuxEnv) (mark : Z) (split : bool) (policy : FirewallPolicy) : Filters :=
  F_loopback env ▷▷ F_if split (F_split env mark policy) ▷▷ F_dhcp_client ▷▷ F_ndp ▷▷
  (F_policy_head env mark policy ▷▷ F_if (policy_allow_lan policy) F_lan ▷▷ F_reject_all).
End Guards.

(** Addresses and ports of a policy are in the ranges of their types. *)
Definition traffic_wf (t : AllowedTunnelTraffic) : Prop :=
  match t with
  | TrafficOne e => sock_wf (address e)
  | TrafficTwo e1 e2 => sock_wf (address e1) ∧ sock_wf (address e2)
  | _ => True
  end.
Definition allowed_wf (e : AllowedEndpoint) : Prop := sock_wf (address (endpoint e)).
Definition policy_wf (policy : FirewallPolicy) : Prop :=
  match policy with
  | Connecting peers tunnel _ allowed_endpoint allowed =>
      Forall allowed_wf peers ∧ allowed_wf allowed_endpoint ∧ traffic_wf allowed ∧
      match tunnel with Some t => Forall ip_wf (ips t) | None => True end
  | Connected peers tunnel _ dns =>
      Forall allowed_wf peers ∧ Forall ip_wf (ips tunnel) ∧
      Forall ip_wf (tunnel_config dns) ∧ Forall ip_wf (non_tunnel_config dns)
  | Blocked _ allowed_endpoint =>
      match allowed_endpoint with Some ep => allowed_wf ep | None => True end
  end.

Lemma f_all_app {A} (F : A → Filters) l1 l2 :
  f_all F (l1 ++ l2) ≡f f_all F l1 ▷▷ f_all F l2.
Proof.
  induction l1 as [|a l1 IH]; cbn [app]; [by rewrite f_then_none_l|].
  by rewrite !f_all_cons, f_then_assoc, <- IH.
Qed.

Lemma f_all_none {A} (l : list A) : f_all (λ _, f_none) l ≡f f_none.
Proof. induction l as [|a l IH]; [done|]. by rewrite f_all_cons, f_then_none_l. Qed.

(** Filters without stages. *)
Lemma f_all_no_stage {A} (F : A → Filters) l a :
  (∀ x, f_aux (F x) a = []) → f_aux (f_all F l) a = [].
Proof.
  intros HF. induction l as [|x l IH]; [done|]. rewrite f_all_cons. cbn. by rewrite HF, IH.
Qed.

(** The chains of a filter list are independent. *)
Lemma f_all_on_out {A} (g : A → Packet → bool) v l p :
  let F := f_all (λ a, on_out (g a) v) l in
  f_out F p = (if existsb (λ a, g a p) l then Some v else None) ∧ f_in F p = None ∧ f_fwd F p = None.
Proof.
  induction l as [|a l IH]; [done|]. cbv zeta in *. rewrite f_all_cons. cbn.
  unfold or_else, no_rule. destruct IH as (-> & -> & ->). unfold rule_of. by destruct (g a p).
Qed.
Lemma f_all_on_fwd {A} (g : A → Packet → bool) v l p :
  let F := f_all (λ a, on_fwd (g a) v) l in
  f_out F p = None ∧ f_in F p = None ∧ f_fwd F p = (if existsb (λ a, g a p) l then Some v else None).
Proof.
  induction l as [|a l IH]; [done|]. cbv zeta in *. rewrite f_all_cons. cbn.
  unfold or_else, no_rule. destruct IH as (-> & -> & ->). unfold rule_of. by destruct (g a p).
Qed.
Lemma f_all_on_in {A} (g : A → Packet → bool) v l p :
  let F := f_all (λ a, on_in (g a) v) l in
  f_out F p = None ∧ f_in F p = (if existsb (λ a, g a p) l then Some v else None) ∧ f_fwd F p = None.
Proof.
  induction l as [|a l IH]; [done|]. cbv zeta in *. rewrite f_all_cons. cbn.
  unfold or_else, no_rule. destruct IH as (-> & -> & ->). unfold rule_of. by destruct (g a p).
Qed.
Lemma f_all_on_out_fwd {A} (g : A → Packet → bool) v l p :
  let F := f_all (λ a, on_out_fwd (g a) v) l in
  let V := if existsb (λ a, g a p) l then Some v else None in
  f_out F p = V ∧ f_in F p = None ∧ f_fwd F p = V.
Proof.
  induction l as [|a l IH]; [done|]. cbv zeta in *. rewrite f_all_cons. cbn.
  unfold or_else, no_rule. destruct IH as (-> & -> & ->). unfold rule_of. by destruct (g a p).
Qed.

Lemma F_lan_split `{IpNetworkCrate} :
  F_lan ≡f
  f_all (λ net, on_out (m_net Dst net) Accept) ALLOWED_LAN_NETS ▷▷
  f_all (λ net, on_out (m_net Dst net) Accept) ALLOWED_LAN_MULTICAST_NETS ▷▷
  f_all (λ net, on_fwd (m_net Dst net) Accept) ALLOWED_LAN_NETS ▷▷
  f_all (λ net, on_fwd (m_net Dst net) Accept) ALLOWED_LAN_MULTICAST_NETS ▷▷
  f_all (λ net, on_in (m_net Src net) Accept) ALLOWED_LAN_NETS ▷▷
  (on_out dhcpv4_server_response Accept ▷▷ on_in dhcpv4_server_request Accept).
Proof.
  unfold F_lan. rewrite f_then_assoc. apply f_then_proper; [|done].
  apply f_then_proper; [|done]. rewrite f_all_app.
  split; [|intros a; cbn; by rewrite !f_all_no_stage]. intros p _. cbn [f_then f_out f_in f_fwd].
  unfold or_else.
  repeat match goal with
  | |- context [f_all (λ net, on_out_fwd (@?g net) ?v) ?l] =>
      destruct (f_all_on_out_fwd g v l p) as (-> & -> & ->)
  | |- context [f_all (λ net, on_out (@?g net) ?v) ?l] =>
      destruct (f_all_on_out g v l p) as (-> & -> & ->)
  | |- context [f_all (λ net, on_fwd (@?g net) ?v) ?l] =>
      destruct (f_all_on_fwd g v l p) as (-> & -> & ->)
  end.
  destruct (existsb _ ALLOWED_LAN_NETS); cbn; split_and!; try done. all: case_match; done.
Qed.

(** ** Every function adds the filters it names *)

Ltac guard_step :=
  lazymatch goal with
  | |- guarded (Rule_new _) _ => apply guarded_new
  | |- guarded (check_port _ _ _ _) _ => apply guarded_port; [|try done]
  | |- guarded (check_ip _ _ _) _ => apply guarded_ip; [|try done]
  | |- guarded (check_l3proto _ _) _ => apply guarded_l3proto
  | |- guarded (check_endpoint _ _ _) _ => apply guarded_endpoint; [|try done]
  | |- guarded (check_icmpv6 _ _ _) _ => apply guarded_icmpv6; [|done|done]
  | |- guarded (check_net _ _ _) _ => apply guarded_net; [|auto with vpn]
  | |- guarded (check_ct_mark _) _ => apply guarded_ct_mark
  | |- guarded (check_established _) _ => apply guarded_established
  | |- guarded (check_root _) _ => apply guarded_root
  | |- guarded (add_exprs _ [ExLoad MetaMark; _]) _ => apply guarded_mark; [|try done]
  end.

(** Proves [denotes (add_verdict env rule v) g v] for a rule built by checks. *)
Ltac rule_denotes :=
  eapply denotes_ext; [apply denotes_verdict; repeat guard_step|try (intros ? _; reflexivity)].

Ltac rule_chain := intros; cbv beta zeta; autorewrite with vpn; try reflexivity.

Section Functions.
Context `{IpNetworkCrate} (env : LinuxEnv) (Henv : env_wf env).

Lemma denotes_allow_interface c d iface r :
  allow_interface_rule env c d iface = Ok r →
  r_chain r = c ∧ denotes r (m_iface d (ifindex env iface)) Accept.
Proof.
  unfold allow_interface_rule. intros (r' & Hr' & [= <-])%result_bind_ok.
  split; [rewrite r_chain_verdict; by apply r_chain_iface in Hr'|].
  eapply denotes_ext; [apply denotes_verdict; by eapply guarded_iface', Hr'; [|apply guarded_new]|].
  by intros p _.
Qed.

Lemma add_loopback_rules_ext pb pb' :
  distinct pb → add_loopback_rules env pb = Ok pb' → extends pb pb' (F_loopback env).
Proof.
  intros Hd (r1 & H1 & (r2 & H2 & [= <-])%result_bind_ok)%result_bind_ok.
  apply denotes_allow_interface in H1 as [? ?]. apply denotes_allow_interface in H2 as [? ?].
  eapply extends_trans; [by apply extends_out|]. by apply extends_in.
Qed.

Ltac ext_out := apply extends_out; [auto 20 with vpn|rule_chain|rule_denotes].
Ltac ext_in := apply extends_in; [auto 20 with vpn|rule_chain|rule_denotes].
Ltac ext_fwd := apply extends_fwd; [auto 20 with vpn|rule_chain|rule_denotes].
Ltac ext_out_fwd := apply extends_out_fwd; [auto 20 with vpn|rule_chain|intros ?; rule_denotes].
Ltac ext_in_fwd := apply extends_in_fwd; [auto 20 with vpn|rule_chain|intros ?; rule_denotes].
(** Filters that differ only in the order of independent chains. *)
Ltac filters_agree :=
  split; [|done]; intros p _; unfold f_all; cbn; unfold or_else, rule_of, no_rule, dhcpv6_request; cbn;
  repeat match goal with |- context [if ?b then _ else _] => destruct b end; done.

Lemma add_dhcp_client_rules_ext pb :
  distinct pb → extends pb (add_dhcp_client_rules env pb) F_dhcp_client.
Proof.
  intros Hd. unfold add_dhcp_client_rules, F_dhcp_client.
  eapply extends_trans; [|ext_in_fwd].
  eapply extends_trans; cycle 1.
  - cbn [foldl DHCPV6_SERVER_ADDRS f_all foldr].
    eapply extends_equiv; cycle 1.
    + eapply extends_trans; [|ext_fwd]. eapply extends_trans; [|ext_fwd].
      eapply extends_trans; [|ext_out]. ext_out.
    + filters_agree.
  - eapply extends_trans; [|ext_in_fwd]. ext_out_fwd.
Qed.

Lemma add_ndp_rules_ext pb : distinct pb → extends pb (add_ndp_rules env pb) F_ndp.
Proof.
  intros Hd. unfold add_ndp_rules, F_ndp. cbv zeta.
  do 7 (eapply extends_trans; [|first [ext_in_fwd|ext_out_fwd]]). ext_out_fwd.
Qed.

Lemma add_drop_dns_rule_ext pb : distinct pb → extends pb (add_drop_dns_rule env pb) F_drop_dns.
Proof.
  intros Hd. unfold add_drop_dns_rule. cbn [foldl].
  eapply extends_equiv; cycle 1.
  - eapply extends_trans; [|ext_fwd]. eapply extends_trans; [|ext_fwd].
    eapply extends_trans; [|ext_out]. ext_out.
  - filters_agree.
Qed.

(** *** Interfaces and DNS *)

Lemma check_ip_split r e ip :
  add_exprs (check_l3proto r ip)
    [ExLoad match ip, e with
            | AddrV4 _, Src => PayloadIpv4Saddr
            | AddrV4 _, Dst => PayloadIpv4Daddr
            | AddrV6 _, Src => PayloadIpv6Saddr
            | AddrV6 _, Dst => PayloadIpv6Daddr
            end; ExCmp CmpEq (ip_octets ip)] = check_ip r e ip.
Proof. unfold check_ip. by rewrite add_expr_exprs, add_expr_exprs, add_exprs_app. Qed.

Lemma tunnel_dns_chain c iface proto host r :
  allow_tunnel_dns_rule env c iface proto host = Ok r → r_chain r = c.
Proof.
  unfold allow_tunnel_dns_rule. intros (r0 & Hr0 & [= <-])%result_bind_ok.
  apply r_chain_iface in Hr0. rewrite r_chain_verdict. by case_decide.
Qed.

Lemma denotes_tunnel_dns c iface proto host r :
  t_family (c_table c) = FamInet → ip_wf host →
  allow_tunnel_dns_rule env c iface proto host = Ok r →
  denotes r (tunnel_dns env iface proto host) Accept.
Proof.
  intros Hc Hip. unfold allow_tunnel_dns_rule. intros (r0 & Hr0 & [= <-])%result_bind_ok.
  rewrite decide_True by done.
  pose proof (check_ip_split (check_port r0 proto Dst 53) Dst host) as E.
  destruct host; rewrite E.
  all: eapply denotes_ext;
    [apply denotes_verdict, guarded_ip; [|done]; apply guarded_port; [|done];
     by eapply guarded_iface', Hr0; [|apply guarded_new]|by intros p _].
Qed.

Lemma add_allow_tunnel_dns_rule_ext pb pb' iface proto host :
  distinct pb → inet pb → ip_wf host →
  add_allow_tunnel_dns_rule env pb iface proto host = Ok pb' →
  extends pb pb' (F_tunnel_dns env iface proto host).
Proof.
  intros Hd Hn Hip. unfold add_allow_tunnel_dns_rule. cbn [try_fold].
  intros (pb1 & (r1 & H1 & [= <-])%result_bind_ok
          & (pb2 & (r2 & H2 & [= <-])%result_bind_ok & [= <-])%result_bind_ok)%result_bind_ok.
  eapply extends_trans; [apply extends_out|apply extends_fwd]; try done.
  - by eapply tunnel_dns_chain.
  - eapply denotes_tunnel_dns, H1; [|done]. apply Hn. unfold all_chains. set_solver.
  - by apply tunnel_dns_chain in H2.
  - eapply denotes_tunnel_dns, H2; [|done]. apply Hn. unfold all_chains. set_solver.
Qed.

(** The rule of one chain of [add_allow_local_dns_rule]. *)
Lemma denotes_local_dns c d iface proto host r :
  ip_wf host → check_not_iface env (Rule_new c) d iface = Ok r →
  denotes (add_verdict env (add_exprs
    (check_l3proto (check_port r proto match d with DirIn => Src | DirOut => Dst end 53) host)
    [ExLoad match host, d with
            | AddrV4 _, DirOut => PayloadIpv4Daddr
            | AddrV6 _, DirOut => PayloadIpv6Daddr
            | AddrV4 _, DirIn => PayloadIpv4Saddr
            | AddrV6 _, DirIn => PayloadIpv6Saddr
            end; ExCmp CmpEq (ip_octets host)]) Accept) (local_dns env iface d proto host) Accept.
Proof.
  intros Hip Hr.
  pose proof (check_ip_split (check_port r proto match d with DirIn => Src | DirOut => Dst end 53)
    match d with DirIn => Src | DirOut => Dst end host) as E.
  eapply denotes_ext; [apply denotes_verdict|].
  - replace (add_exprs _ _) with
      (check_ip (check_port r proto match d with DirIn => Src | DirOut => Dst end 53)
         match d with DirIn => Src | DirOut => Dst end host) by (rewrite <- E; by destruct host, d).
    apply guarded_ip; [|done]. apply guarded_port; [|done].
    eapply guarded_not_iface'; [done|apply guarded_new|done].
  - intros p _. unfold local_dns. done.
Qed.

Lemma add_allow_local_dns_rule_ext pb pb' iface proto host :
  distinct pb → ip_wf host → add_allow_local_dns_rule env pb iface proto host = Ok pb' →
  extends pb pb' (F_local_dns env iface proto host).
Proof.
  intros Hd Hip. unfold add_allow_local_dns_rule. cbn [try_fold].
  intros (pb1 & (r1 & H1 & [= <-])%result_bind_ok
       & (pb2 & (r2 & H2 & [= <-])%result_bind_ok
       & (pb3 & (r3 & H3 & [= <-])%result_bind_ok
       & (pb4 & (r4 & H4 & [= <-])%result_bind_ok & [= <-])%result_bind_ok)%result_bind_ok
         )%result_bind_ok)%result_bind_ok.
  pose proof (denotes_local_dns _ _ _ proto _ _ Hip H1) as D1.
  pose proof (denotes_local_dns _ _ _ proto _ _ Hip H2) as D2.
  pose proof (denotes_local_dns _ _ _ proto _ _ Hip H3) as D3.
  pose proof (denotes_local_dns _ _ _ proto _ _ Hip H4) as D4.
  apply r_chain_not_iface in H1, H2, H3, H4.
  eapply extends_trans; [|apply extends_fwd; [done|rewrite r_chain_verdict; exact H4|done]].
  eapply extends_trans; [|apply extends_in; [done|rewrite r_chain_verdict; exact H3|done]].
  eapply extends_trans; [|apply extends_fwd; [done|rewrite r_chain_verdict; exact H2|done]].
  apply extends_out; [done|rewrite r_chain_verdict; exact H1|done].
Qed.

(** *** Tunnel traffic *)

Lemma add_allow_tunnel_rules_ext pb pb' iface :
  distinct pb → add_allow_tunnel_rules env pb iface = Ok pb' →
  extends pb pb' (F_tunnel env iface).
Proof.
  intros Hd. unfold add_allow_tunnel_rules.
  intros (r1 & [C1 D1]%denotes_allow_interface
       & (r2 & [C2 D2]%denotes_allow_interface
       & (r3 & [C3 D3]%denotes_allow_interface & (r4 & H4 & [= <-])%result_bind_ok)%result_bind_ok
         )%result_bind_ok)%result_bind_ok.
  eapply extends_trans; [|apply extends_fwd; [done|rewrite r_chain_verdict; by apply r_chain_iface in H4|]].
  - eapply extends_trans; [|by apply extends_in]. eapply extends_trans; [|by apply extends_fwd].
    by apply extends_out.
  - eapply denotes_ext.
    + apply denotes_verdict, guarded_established. by eapply guarded_iface', H4; [|apply guarded_new].
    + by intros p _.
Qed.

Lemma denotes_in_tunnel_endpoint c d e iface ep r :
  sock_wf (address ep) → check_iface env (Rule_new c) d iface = Ok r →
  denotes (add_verdict env (check_port (check_ip r e (sock_ip (address ep))) (protocol ep) e
                              (sock_port (address ep))) Accept)
    (λ p, m_iface d (ifindex env iface) p && m_endpoint e ep p) Accept.
Proof.
  intros Hep Hr. eapply denotes_ext.
  - apply denotes_verdict. eapply (guarded_endpoint _ _ e ep); [|done].
    by eapply guarded_iface', Hr; [|apply guarded_new].
  - by intros p _.
Qed.

Lemma add_allow_in_tunnel_endpoint_rules_ext pb pb' iface ep :
  distinct pb → sock_wf (address ep) →
  add_allow_in_tunnel_endpoint_rules env pb iface ep = Ok pb' →
  extends pb pb' (F_in_tunnel_endpoint env iface ep).
Proof.
  intros Hd Hep. unfold add_allow_in_tunnel_endpoint_rules. cbn [try_fold].
  intros (pb1 & (r1 & H1 & [= <-])%result_bind_ok
          & (pb2 & (r2 & H2 & [= <-])%result_bind_ok & [= <-])%result_bind_ok)%result_bind_ok.
  pose proof (denotes_in_tunnel_endpoint _ _ Dst _ _ _ Hep H1) as D1.
  pose proof (denotes_in_tunnel_endpoint _ _ Src _ _ _ Hep H2) as D2.
  apply r_chain_iface in H1, H2.
  eapply extends_trans; [|apply extends_in; [done|rewrite r_chain_verdict; exact H2|done]].
  apply extends_out; [done|rewrite r_chain_verdict; exact H1|done].
Qed.

Lemma add_block_cve_2019_14899_ext pb tunnel :
  distinct pb → Forall ip_wf (ips tunnel) →
  extends pb (add_block_cve_2019_14899 env pb tunnel) (F_block_cve tunnel).
Proof.
  intros Hd Hips. apply (extends_foldl _ _ _ pb); [done|].
  intros pb' ip Hc Hin. apply distinct_eq in Hc; [|done].
  rewrite Forall_forall in Hips. specialize (Hips ip Hin). ext_in.
Qed.

(** *** Endpoints *)

Lemma add_allow_tunnel_endpoint_rules_ext pb ep mark :
  distinct pb → u32_range mark → sock_wf (address (endpoint ep)) →
  extends pb (add_allow_tunnel_endpoint_rules env pb ep mark) (F_peer mark ep).
Proof.
  intros Hd Hm Hep. unfold add_allow_tunnel_endpoint_rules, F_peer. cbv zeta.
  lazymatch goal with
  | |- extends pb (if _ then pb_add ?pb1 _ else _) _ => apply (extends_trans _ pb1)
  end.
  - eapply extends_trans; [|ext_out]. eapply extends_trans; [|ext_in].
    apply (extends_aux _ _ Prerouting); [done|by rewrite r_chain_counter| |done].
    eapply performs_ext; [apply performs_mark; [repeat guard_step|done]|by intros p _].
  - destruct (allow_all (clients ep)); [|apply extends_refl].
    apply (extends_aux _ _ Mangle); [done|reflexivity| |done].
    eapply performs_ext; [apply performs_marks; [repeat guard_step|done]|by intros p _].
Qed.

Lemma add_allow_endpoint_rules_ext pb ep :
  distinct pb → sock_wf (address (endpoint ep)) →
  extends pb (add_allow_endpoint_rules env pb ep) (F_allowed_endpoint ep).
Proof.
  intros Hd Hep. unfold add_allow_endpoint_rules, F_allowed_endpoint, client_ok.
  destruct (allow_all (clients ep)); cbn [negb].
  - eapply extends_equiv; cycle 1; [eapply extends_trans; [|ext_out]; ext_in|].
    split; [|done]. intros p _; cbn. unfold or_else, rule_of, no_rule. by rewrite !andb_true_r.
  - eapply extends_trans; [|ext_out]. ext_in.
Qed.

(** *** The local network *)

Lemma add_dhcp_server_rules_ext pb :
  distinct pb →
  extends pb (add_dhcp_server_rules env pb)
    (on_out dhcpv4_server_response Accept ▷▷ on_in dhcpv4_server_request Accept).
Proof. intros Hd. unfold add_dhcp_server_rules. eapply extends_trans; [|ext_in]. ext_out. Qed.

Lemma extends_nets_out pb c nets :
  distinct pb → c = out_chain pb → Forall net_normal nets →
  extends pb (foldl (λ pb net, pb_add pb (add_verdict env (check_net (Rule_new c) Dst net) Accept)) pb nets)
    (f_all (λ net, on_out (m_net Dst net) Accept) nets).
Proof.
  intros Hd -> Hn. apply (extends_foldl _ _ _ pb); [done|].
  intros pb' net Hc Hin. pose proof (distinct_eq _ _ Hc Hd).
  apply all_chains_inj in Hc as (_ & <- & _). rewrite Forall_forall in Hn.
  specialize (Hn net Hin). apply extends_out; [done|rule_chain|].
  eapply denotes_ext; [by apply denotes_verdict, guarded_net; [apply guarded_new|]|by intros p _].
Qed.

Lemma extends_nets_fwd pb c nets :
  distinct pb → c = forward_chain pb → Forall net_normal nets →
  extends pb (foldl (λ pb net, pb_add pb (add_verdict env (check_net (Rule_new c) Dst net) Accept)) pb nets)
    (f_all (λ net, on_fwd (m_net Dst net) Accept) nets).
Proof.
  intros Hd -> Hn. apply (extends_foldl _ _ _ pb); [done|].
  intros pb' net Hc Hin. pose proof (distinct_eq _ _ Hc Hd).
  apply all_chains_inj in Hc as (_ & _ & _ & <- & _). rewrite Forall_forall in Hn.
  specialize (Hn net Hin). apply extends_fwd; [done|rule_chain|].
  eapply denotes_ext; [by apply denotes_verdict, guarded_net; [apply guarded_new|]|by intros p _].
Qed.

Lemma extends_nets_in pb nets :
  distinct pb → Forall net_normal nets →
  extends pb (foldl (λ pb net, pb_add pb (add_verdict env (check_net (Rule_new (in_chain pb)) Src net) Accept)) pb nets)
    (f_all (λ net, on_in (m_net Src net) Accept) nets).
Proof.
  intros Hd Hn. apply (extends_foldl _ _ _ pb); [done|].
  intros pb' net Hc Hin. pose proof (distinct_eq _ _ Hc Hd).
  rewrite Forall_forall in Hn. specialize (Hn net Hin). apply extends_in; [done|rule_chain|].
  eapply denotes_ext; [by apply denotes_verdict, guarded_net; [apply guarded_new|]|by intros p _].
Qed.

Lemma extends_chains pb pb' F : extends pb pb' F → all_chains pb' = all_chains pb.
Proof. by intros (_ & _ & ? & _). Qed.

(** Composes [extends] facts about successive batches. *)
Ltac ext_chain H :=
  eapply extends_trans; [exact H|]; apply extends_chains in H.

Lemma add_allow_lan_rules_ext pb : distinct pb → extends pb (add_allow_lan_rules env pb) F_lan.
Proof.
  intros Hd. unfold add_allow_lan_rules. cbn [foldl].
  eapply extends_equiv; [symmetry; apply F_lan_split|].
  pose proof (extends_nets_out pb (out_chain pb) ALLOWED_LAN_NETS Hd eq_refl lan_nets_normal) as H1.
  set (pb1 := foldl _ pb _) in *. pose proof (extends_chains _ _ _ H1) as C1.
  pose proof (extends_distinct _ _ _ H1 Hd) as D1. pose proof (all_chains_inj _ _ C1) as (_&E1&_&E1'&_).
  pose proof (extends_nets_out pb1 (out_chain pb) ALLOWED_LAN_MULTICAST_NETS D1 (eq_sym E1)
                multicast_nets_normal) as H2.
  set (pb2 := foldl _ pb1 _) in *. pose proof (extends_chains _ _ _ H2) as C2.
  pose proof (extends_distinct _ _ _ H2 D1) as D2. pose proof (all_chains_inj _ _ C2) as (_&_&_&E2&_).
  rewrite E1' in E2.
  pose proof (extends_nets_fwd pb2 (forward_chain pb) ALLOWED_LAN_NETS D2 (eq_sym E2) lan_nets_normal) as H3.
  set (pb3 := foldl _ pb2 _) in *. pose proof (extends_chains _ _ _ H3) as C3.
  pose proof (extends_distinct _ _ _ H3 D2) as D3. pose proof (all_chains_inj _ _ C3) as (_&_&_&E3&_).
  rewrite E2 in E3.
  pose proof (extends_nets_fwd pb3 (forward_chain pb) ALLOWED_LAN_MULTICAST_NETS D3 (eq_sym E3)
                multicast_nets_normal) as H4.
  set (pb4 := foldl _ pb3 _) in *. pose proof (extends_distinct _ _ _ H4 D3) as D4.
  pose proof (extends_nets_in pb4 _ D4 lan_nets_normal) as H5.
  pose proof (add_dhcp_server_rules_ext _ (extends_distinct _ _ _ H5 D4)) as H6.
  repeat (eapply extends_trans; [|eassumption]). eassumption.
Qed.

Lemma add_reject_all_ext pb :
  distinct pb →
  extends pb (pb_add_out_fwd pb (λ chain, add_verdict env (Rule_new chain) (Reject IcmpPortUnreach)))
    F_reject_all.
Proof. intros Hd. ext_out_fwd. Qed.

(** *** Split tunnelling *)

Lemma split_mangle_dns_ext pb pb' tunnel servers :
  distinct pb → inet pb → Forall ip_wf servers →
  try_fold (λ pb server,
    allow_rule ← allow_tunnel_dns_rule env (mangle_chain pb) (interface tunnel) Udp server;
    let pb := pb_add pb allow_rule in
    allow_rule ← allow_tunnel_dns_rule env (mangle_chain pb) (interface tunnel) Tcp server;
    Ok (pb_add pb allow_rule)) servers pb = Ok pb' →
  extends pb pb'
    (f_all (λ s, on_aux Mangle (tunnel_dns env (interface tunnel) Udp s) (ActVerdict Accept) ▷▷
                 on_aux Mangle (tunnel_dns env (interface tunnel) Tcp s) (ActVerdict Accept)) servers).
Proof.
  intros Hd Hn Hs. rewrite Forall_forall in Hs.
  apply extends_try_fold with (pb0 := pb); [reflexivity|]. intros pb1 s pb2 Hc Hin.
  assert (Hf : t_family (c_table (mangle_chain pb1)) = FamInet).
  { apply Hn. rewrite <- Hc. unfold all_chains. set_solver. }
  apply distinct_eq in Hc; [|done]. intros (r1 & H1 & (r2 & H2 & [= <-])%result_bind_ok)%result_bind_ok.
  cbn [pb_add mangle_chain] in H2.
  apply (extends_trans _ (pb_add pb1 r1));
    [apply (extends_aux _ r1 Mangle)|apply (extends_aux _ r2 Mangle)]; try done.
  - by apply tunnel_dns_chain in H1.
  - eapply performs_verdict, denotes_tunnel_dns, H1; auto.
  - by apply tunnel_dns_chain in H2.
  - eapply performs_verdict, denotes_tunnel_dns, H2; auto.
Qed.

(** The interface checks of a rule in the nat and prerouting chains. *)
Lemma split_nat_drop pb iface r :
  check_iface env (Rule_new (nat_chain pb)) DirOut iface = Ok r → distinct pb →
  extends pb (pb_add pb (add_verdict env (check_ct_mark r) Drop))
    (on_aux Nat (λ p, m_iface DirOut (ifindex env iface) p && m_ct_mark p) (ActVerdict Drop)).
Proof.
  intros Hr Hd. apply (extends_aux _ _ Nat); [done| | |done].
  - rewrite r_chain_verdict. by apply r_chain_iface in Hr.
  - apply performs_verdict. eapply denotes_ext; [apply denotes_verdict, guarded_ct_mark|].
    + by eapply guarded_iface', Hr; [|apply guarded_new].
    + by intros p _.
Qed.

Lemma split_nat_masquerade pb r :
  check_not_iface env (Rule_new (nat_chain pb)) DirOut "lo" = Ok r → distinct pb →
  extends pb (pb_add pb (add_counter env (add_expr (check_ct_mark r) ExMasquerade)))
    (on_aux Nat (λ p, negb (m_iface DirOut (ifindex env "lo") p) && m_ct_mark p) (ActVerdict Accept)).
Proof.
  intros Hr Hd. apply (extends_aux _ _ Nat); [done| | |done].
  - rewrite r_chain_counter. by apply r_chain_not_iface in Hr.
  - eapply performs_ext; [apply performs_masquerade, guarded_ct_mark|].
    + by eapply guarded_not_iface', Hr; [|apply guarded_new].
    + by intros p _.
Qed.

Lemma split_prerouting pb iface r mark :
  check_not_iface env (Rule_new (prerouting_chain pb)) DirIn iface = Ok r → distinct pb → u32_range mark →
  extends pb (pb_add pb (add_counter env (set_meta_mark (check_ct_mark r) mark)))
    (on_aux Prerouting (λ p, negb (m_iface DirIn (ifindex env iface) p) && m_ct_mark p) (ActMark mark)).
Proof.
  intros Hr Hd Hm. apply (extends_aux _ _ Prerouting); [done| | |done].
  - rewrite r_chain_counter. by apply r_chain_not_iface in Hr.
  - eapply performs_ext; [apply performs_mark; [apply guarded_ct_mark|done]|].
    + by eapply guarded_not_iface', Hr; [|apply guarded_new].
    + by intros p _.
Qed.

Lemma split_marks_ext pb mark :
  distinct pb → u32_range mark →
  extends pb (pb_add pb (set_meta_mark (set_ct_mark (add_exprs (Rule_new (mangle_chain pb))
    [ExLoad MetaCgroup; ExCmp CmpEq (le_bytes 4 NET_CLS_CLASSID)])) mark))
    (on_aux Mangle m_cgroup (ActMarks mark)).
Proof.
  intros Hd Hm. apply (extends_aux _ _ Mangle); [done|reflexivity| |done].
  eapply performs_ext; [apply performs_marks; [apply guarded_cgroup, guarded_new|done]|by intros p _].
Qed.

Lemma split_accepts_ext pb :
  distinct pb →
  extends pb (pb_add_for pb [in_chain pb; out_chain pb; forward_chain pb] (λ chain,
    add_verdict env (check_ct_mark (Rule_new chain)) Accept))
    (on_in m_ct_mark Accept ▷▷ on_out m_ct_mark Accept ▷▷ on_fwd m_ct_mark Accept).
Proof.
  intros Hd. cbn [pb_add_for foldl].
  eapply extends_trans; [|ext_fwd]. eapply extends_trans; [|ext_out]. ext_in.
Qed.

(** The DNS servers in the tunnel that split tunnelling leaves alone. *)
Definition dns_wf (policy : FirewallPolicy) : Prop :=
  match policy with Connected _ _ _ dns => Forall ip_wf (tunnel_config dns) | _ => True end.

Lemma add_split_tunneling_rules_ext pb pb' policy mark :
  distinct pb → inet pb → u32_range mark → dns_wf policy →
  add_split_tunneling_rules env pb policy mark = Ok pb' → extends pb pb' (F_split env mark policy).
Proof.
  intros Hd Hn Hm Hw. unfold add_split_tunneling_rules, F_split.
  intros (pb1 & H1 & (pb2 & H2 & (rule & H3 & H4)%result_bind_ok)%result_bind_ok)%result_bind_ok.
  assert (extends pb pb1 (F_split_dns env policy)) as X1.
  { destruct policy; [injection H1 as <-; apply extends_refl|by eapply split_mangle_dns_ext
                     |injection H1 as <-; apply extends_refl]. }
  pose proof (extends_distinct _ _ _ X1 Hd) as D1.
  pose proof (split_marks_ext pb1 mark D1 Hm) as X2. cbv zeta in H2.
  set (pb3 := pb_add pb1 _) in *. assert (distinct pb3) as D3 by done.
  pose proof (split_accepts_ext pb3 D3) as X3. clearbody pb3.
  set (pb4 := pb_add_for pb3 _ _) in *. assert (distinct pb4) as D4 by done. clearbody pb4.
  assert (extends pb4 pb2 (F_split_block env policy)) as X4.
  { destruct policy; [injection H2 as <-; apply extends_refl| |injection H2 as <-; apply extends_refl].
    apply result_bind_ok in H2 as (r & Hr & [= <-]). by apply split_nat_drop. }
  pose proof (extends_distinct _ _ _ X4 D4) as D2.
  pose proof (split_nat_masquerade _ _ H3 D2) as X5. cbv zeta in H4.
  set (pb5 := pb_add pb2 _) in *. assert (distinct pb5) as D5 by done. clearbody pb5.
  assert (extends pb5 pb' (F_split_answers env mark policy)) as X6.
  { destruct policy; [injection H4 as <-; apply extends_refl| |injection H4 as <-; apply extends_refl].
    apply result_bind_ok in H4 as (r & Hr & [= <-]). by apply split_prerouting. }
  repeat (eapply extends_trans; [|eassumption]). exact X1.
Qed.

(** *** A whole policy *)

Lemma distinct_then pb pb' F : extends pb pb' F → distinct pb → inet pb → distinct pb' ∧ inet pb'.
Proof.
  intros X Hd Hn. apply extends_chains in X. split; [by eapply distinct_eq|].
  unfold inet. by rewrite X.
Qed.

Lemma peers_ext pb mark peers :
  distinct pb → u32_range mark → Forall allowed_wf peers →
  extends pb (foldl (λ pb ep, add_allow_tunnel_endpoint_rules env pb ep mark) pb peers)
    (f_all (F_peer mark) peers).
Proof.
  intros Hd Hm Hw. apply (extends_foldl _ _ _ pb); [done|]. intros pb' ep Hc Hin.
  rewrite Forall_forall in Hw. apply add_allow_tunnel_endpoint_rules_ext; [|done|by apply Hw].
  by eapply distinct_eq.
Qed.

Lemma tunnel_dns_servers_ext pb pb' iface servers :
  distinct pb → inet pb → Forall ip_wf servers →
  try_fold (λ pb server,
    pb ← add_allow_tunnel_dns_rule env pb iface Udp server;
    add_allow_tunnel_dns_rule env pb iface Tcp server) servers pb = Ok pb' →
  extends pb pb' (f_all (λ s, F_tunnel_dns env iface Udp s ▷▷ F_tunnel_dns env iface Tcp s) servers).
Proof.
  intros Hd Hn Hw. apply (extends_try_fold _ _ _ pb); [done|]. intros pb1 s pb2 Hc Hin.
  rewrite Forall_forall in Hw. specialize (Hw s Hin).
  assert (inet pb1) by (unfold inet; by rewrite Hc). apply distinct_eq in Hc; [|done].
  intros (pb3 & H1%add_allow_tunnel_dns_rule_ext & H2)%result_bind_ok; [|done..].
  destruct (distinct_then _ _ _ H1) as [? ?]; [done..|].
  eapply extends_trans; [done|]. by apply add_allow_tunnel_dns_rule_ext.
Qed.

Lemma local_dns_servers_ext pb pb' iface servers :
  distinct pb → Forall ip_wf servers →
  try_fold (λ pb server,
    pb ← add_allow_local_dns_rule env pb iface Udp server;
    add_allow_local_dns_rule env pb iface Tcp server) servers pb = Ok pb' →
  extends pb pb' (f_all (λ s, F_local_dns env iface Udp s ▷▷ F_local_dns env iface Tcp s) servers).
Proof.
  intros Hd Hw. apply (extends_try_fold _ _ _ pb); [done|]. intros pb1 s pb2 Hc Hin.
  rewrite Forall_forall in Hw. specialize (Hw s Hin). apply distinct_eq in Hc; [|done].
  intros (pb3 & H1%add_allow_local_dns_rule_ext & H2)%result_bind_ok; [|done..].
  eapply extends_trans; [done|]. apply add_allow_local_dns_rule_ext; [|done..].
  by eapply extends_distinct.
Qed.

Lemma block_cve_if_ext pb (b : bool) tunnel :
  distinct pb → Forall ip_wf (ips tunnel) →
  extends pb (if b then add_block_cve_2019_14899 env pb tunnel else pb) (F_if b (F_block_cve tunnel)).
Proof. intros. destruct b; [by apply add_block_cve_2019_14899_ext|apply extends_refl]. Qed.

Lemma tunnel_traffic_ext pb pb' iface allowed :
  distinct pb → traffic_wf allowed →
  match allowed with
  | TrafficAll => add_allow_tunnel_rules env pb iface
  | TrafficNone => Ok pb
  | TrafficOne endpoint => add_allow_in_tunnel_endpoint_rules env pb iface endpoint
  | TrafficTwo endpoint1 endpoint2 =>
      pb ← add_allow_in_tunnel_endpoint_rules env pb iface endpoint1;
      add_allow_in_tunnel_endpoint_rules env pb iface endpoint2
  end = Ok pb' →
  extends pb pb' (F_tunnel_traffic env iface allowed).
Proof.
  intros Hd Hw. destruct allowed as [| |e|e1 e2]; cbn in *.
  - intros [= <-]. apply extends_refl.
  - by apply add_allow_tunnel_rules_ext.
  - by apply add_allow_in_tunnel_endpoint_rules_ext.
  - destruct Hw as [W1 W2].
    intros (pb1 & H1%add_allow_in_tunnel_endpoint_rules_ext & H2)%result_bind_ok; [|done..].
    eapply extends_trans; [done|]. apply add_allow_in_tunnel_endpoint_rules_ext; [|done..].
    by eapply extends_distinct.
Qed.

(** The last steps of [add_policy_specific_rules], common to all policies. *)
Lemma policy_tail_ext pb pb1 F (allow_lan : bool) :
  distinct pb → extends pb pb1 F →
  let pb2 := if allow_lan then add_allow_lan_rules env pb1 else pb1 in
  extends pb (pb_add_out_fwd pb2 (λ chain,
    add_verdict env (Rule_new chain) (Reject IcmpPortUnreach)))
    (F ▷▷ F_if allow_lan F_lan ▷▷ F_reject_all).
Proof.
  intros Hd X1 pb2. pose proof (extends_distinct _ _ _ X1 Hd) as D1.
  assert (extends pb1 pb2 (F_if allow_lan F_lan)) as X2.
  { unfold pb2. destruct allow_lan; [by apply add_allow_lan_rules_ext|apply extends_refl]. }
  eapply extends_trans; [by eapply extends_trans|]. apply add_reject_all_ext.
  by eapply extends_distinct.
Qed.

Lemma connecting_ext pb pb' mark peers tunnel (allow_lan : bool) ep allowed :
  distinct pb → u32_range mark → policy_wf (Connecting peers tunnel allow_lan ep allowed) →
  let pb1 := foldl (λ pb ep, add_allow_tunnel_endpoint_rules env pb ep mark) pb peers in
  let pb1 := add_drop_dns_rule env (add_allow_endpoint_rules env pb1 ep) in
  match tunnel with
  | Some tunnel =>
      pb ← match allowed with
           | TrafficAll => add_allow_tunnel_rules env pb1 (interface tunnel)
           | TrafficNone => Ok pb1
           | TrafficOne endpoint => add_allow_in_tunnel_endpoint_rules env pb1 (interface tunnel) endpoint
           | TrafficTwo endpoint1 endpoint2 =>
               pb ← add_allow_in_tunnel_endpoint_rules env pb1 (interface tunnel) endpoint1;
               add_allow_in_tunnel_endpoint_rules env pb (interface tunnel) endpoint2
           end;
      Ok (if allow_lan then add_block_cve_2019_14899 env pb tunnel else pb)
  | None => Ok pb1
  end = Ok pb' →
  extends pb pb' (F_policy_head env mark (Connecting peers tunnel allow_lan ep allowed)).
Proof.
  intros Hd Hm (Wp & We & Wt & Wi). cbv zeta.
  pose proof (peers_ext pb mark peers Hd Hm Wp) as X1. set (pb1 := foldl _ _ _) in *.
  pose proof (extends_distinct _ _ _ X1 Hd) as D1.
  pose proof (add_allow_endpoint_rules_ext pb1 ep D1 We) as X2.
  pose proof (extends_distinct _ _ _ X2 D1) as D2. pose proof (add_drop_dns_rule_ext _ D2) as X3.
  pose proof (extends_distinct _ _ _ X3 D2) as D3.
  intros Hok. eapply extends_trans; [eapply extends_trans; [by eapply extends_trans|done]|].
  destruct tunnel as [t|]; [|injection Hok as <-; apply extends_refl].
  apply result_bind_ok in Hok as (pb4 & X4%tunnel_traffic_ext & [= <-]); [|done..].
  eapply extends_trans; [done|]. apply block_cve_if_ext; [|done]. by eapply extends_distinct.
Qed.

Lemma connected_ext pb pb' mark peers tunnel (allow_lan : bool) dns :
  distinct pb → inet pb → u32_range mark → policy_wf (Connected peers tunnel allow_lan dns) →
  (pb ← try_fold (λ pb server,
          pb ← add_allow_tunnel_dns_rule env pb (interface tunnel) Udp server;
          add_allow_tunnel_dns_rule env pb (interface tunnel) Tcp server) (tunnel_config dns)
          (foldl (λ pb ep, add_allow_tunnel_endpoint_rules env pb ep mark) pb peers);
   pb ← try_fold (λ pb server,
          pb ← add_allow_local_dns_rule env pb (interface tunnel) Udp server;
          add_allow_local_dns_rule env pb (interface tunnel) Tcp server) (non_tunnel_config dns) pb;
   pb ← add_allow_tunnel_rules env (add_drop_dns_rule env pb) (interface tunnel);
   Ok (if allow_lan then add_block_cve_2019_14899 env pb tunnel else pb)) = Ok pb' →
  extends pb pb' (F_policy_head env mark (Connected peers tunnel allow_lan dns)).
Proof.
  intros Hd Hn Hm (Wp & Wi & Wt & Wl).
  pose proof (peers_ext pb mark peers Hd Hm Wp) as X1. set (pb1 := foldl _ _ _) in *.
  destruct (distinct_then _ _ _ X1 Hd Hn) as [D1 N1].
  intros (pb2 & X2%tunnel_dns_servers_ext & Hok)%result_bind_ok; [|done..].
  pose proof (extends_distinct _ _ _ X2 D1) as D2.
  apply result_bind_ok in Hok as (pb3 & X3%local_dns_servers_ext & Hok); [|done..].
  pose proof (extends_distinct _ _ _ X3 D2) as D3. pose proof (add_drop_dns_rule_ext _ D3) as X4.
  pose proof (extends_distinct _ _ _ X4 D3) as D4.
  apply result_bind_ok in Hok as (pb5 & X5%add_allow_tunnel_rules_ext & [= <-]); [|done].
  pose proof (extends_distinct _ _ _ X5 D4) as D5.
  pose proof (block_cve_if_ext pb5 allow_lan tunnel D5 Wi) as X6.
  repeat (eapply extends_trans; [|eassumption]). exact X1.
Qed.

Lemma add_policy_specific_rules_ext pb pb' policy mark :
  distinct pb → inet pb → u32_range mark → policy_wf policy →
  add_policy_specific_rules env pb policy mark = Ok pb' →
  extends pb pb'
    (F_policy_head env mark policy ▷▷ F_if (policy_allow_lan policy) F_lan ▷▷ F_reject_all).
Proof.
  intros Hd Hn Hm Hw. unfold add_policy_specific_rules.
  intros ([pb1 lan] & Hok & [= <-])%result_bind_ok.
  assert (extends pb pb1 (F_policy_head env mark policy) ∧ lan = policy_allow_lan policy) as [X ->].
  { destruct policy as [peers tunnel l ep allowed|peers tunnel l dns|l ep].
    - apply result_bind_ok in Hok as (pb2 & Hok & [= <- <-]). split; [|done]. by apply connecting_ext.
    - apply result_bind_ok in Hok as (pb2 & H2 & (pb3 & H3 & (pb4 & H4 & [= <- <-])%result_bind_ok
        )%result_bind_ok). split; [|done]. apply connected_ext; [done..|].
      rewrite H2. cbn [mbind result_bind]. rewrite H3. cbn [mbind result_bind]. by rewrite H4.
    - injection Hok as <- <-. split; [|done]. destruct ep as [ep|].
      + pose proof (add_allow_endpoint_rules_ext pb ep Hd Hw) as X1.
        eapply extends_trans; [done|]. apply add_drop_dns_rule_ext. by eapply extends_distinct.
      + eapply extends_trans; [apply extends_refl|]. by apply add_drop_dns_rule_ext. }
  by apply policy_tail_ext.
Qed.

(** Whether split tunnelling is available: a net_cls mount was found. *)
Definition split_available : bool :=
  match cgroup.find_net_cls_mount (proc_mounts env) with Ok (Some _) => true | _ => false end.

Lemma finalize_ext pb policy mark b :
  distinct pb → inet pb → u32_range mark → policy_wf policy →
  finalize env pb policy mark = Ok b →
  ∃ pb', b = batch pb' ∧ extends pb pb' (F_policy env mark split_available policy).
Proof.
  intros Hd Hn Hm Hw. unfold finalize, F_policy, split_available.
  intros (pb1 & X1%add_loopback_rules_ext & (mount & Hmount
    & (pb2 & H2 & (pb3 & H3 & [= <-])%result_bind_ok)%result_bind_ok)%result_bind_ok)%result_bind_ok; [|done].
  destruct (distinct_then _ _ _ X1 Hd Hn) as [D1 N1].
  destruct (cgroup.find_net_cls_mount _) as [m|] eqn:Em; [|done]. injection Hmount as <-.
  assert (extends pb1 pb2 (F_if (match m with Some _ => true | None => false end)
                      (F_split env mark policy))) as X2.
  { destruct m; [eapply add_split_tunneling_rules_ext; [done..| |done]; destruct policy; [done|apply Hw|done]|injection H2 as <-; apply extends_refl]. }
  destruct (distinct_then _ _ _ X2 D1 N1) as [D2 N2].
  pose proof (add_dhcp_client_rules_ext _ D2) as X3. destruct (distinct_then _ _ _ X3 D2 N2) as [D3 N3].
  pose proof (add_ndp_rules_ext _ D3) as X4. destruct (distinct_then _ _ _ X4 D3 N3) as [D4 N4].
  apply add_policy_specific_rules_ext in H3; [|done..].
  exists pb3. split; [done|]. destruct m; repeat (eapply extends_trans; [|eassumption]); exact X1.
Qed.
End Functions.
