(* ===== verification/FirewallSpec.v ===== *)
(** * What a firewall policy promises

    The abstract specification of docs/security.md ("App states"): for each
    policy, which packets may leave, enter and be forwarded, which packets are
    marked on their way, and which may leave through the nat chain.  The tables
    the Linux firewall installs are shown to do exactly this.

    Forwarding is specified as the code does it.  The document says that what
    may leave or enter may also be forwarded; the forward chain has no rules for
    the relay, the API endpoint, the endpoints in the tunnel or a DHCP server. *)

From S2P Require Import Prelude NetTypes TunnelTypes Nft LinuxFirewall RuleSemantics FirewallRules.

(** ** The specification *)

Section Specification.
Context `{IpNetworkCrate} (env : LinuxEnv) (mark : Z) (split : bool).

Definition dns_request (p : Packet) : bool := m_port Udp Dst 53 p || m_port Tcp Dst 53 p.

(** Traffic that is allowed independent of state. *)
Definition dhcp_out (p : Packet) : bool :=
  dhcpv4_request p || existsb (λ s, dhcpv6_request s p) DHCPV6_SERVER_ADDRS.
Definition dhcp_in (p : Packet) : bool := dhcpv4_response p || dhcpv6_response p.
Definition ndp_out (p : Packet) : bool :=
  router_solicitation p || to_solicited_node p || to_link_local 135 p || to_link_local 136 p.
Definition ndp_in (p : Packet) : bool :=
  from_link_local 134 p || from_link_local 137 p || from_link_local 135 p || m_icmpv6 136 0 p.
Definition always_out (p : Packet) : bool :=
  m_iface DirOut (ifindex env "lo") p || (split && m_ct_mark p) || dhcp_out p || ndp_out p.
Definition always_in (p : Packet) : bool :=
  m_iface DirIn (ifindex env "lo") p || (split && m_ct_mark p) || dhcp_in p || ndp_in p.
Definition always_fwd (p : Packet) : bool :=
  (split && m_ct_mark p) || dhcp_out p || dhcp_in p || ndp_out p || ndp_in p.

(** "Allow LAN". *)
Definition lan_dst (p : Packet) : bool :=
  existsb (λ net, m_net Dst net p) (ALLOWED_LAN_NETS ++ ALLOWED_LAN_MULTICAST_NETS).
Definition lan_out (p : Packet) : bool := lan_dst p || dhcpv4_server_response p.
Definition lan_in (p : Packet) : bool :=
  existsb (λ net, m_net Src net p) ALLOWED_LAN_NETS || dhcpv4_server_request p.

(** The first hop, for the process that establishes the tunnel. *)
Definition peers_out (peers : list AllowedEndpoint) (p : Packet) : bool :=
  existsb (λ ep, m_endpoint Dst (endpoint ep) p && m_mark mark p) peers.
Definition peers_in (peers : list AllowedEndpoint) (p : Packet) : bool :=
  existsb (λ ep, m_endpoint Src (endpoint ep) p && m_established p) peers.

(** The API endpoint, for root or for all. *)
Definition api_out (ep : AllowedEndpoint) (p : Packet) : bool :=
  m_endpoint Dst (endpoint ep) p && client_ok ep p.
Definition api_in (ep : AllowedEndpoint) (p : Packet) : bool :=
  m_endpoint Src (endpoint ep) p && m_established p && client_ok ep p.

(** Traffic in the tunnel. *)
Definition in_tunnel (t : TunnelMetadata) (d : Direction) (p : Packet) : bool :=
  m_iface d (ifindex env (interface t)) p.
Definition traffic_out (t : TunnelMetadata) (allowed : AllowedTunnelTraffic) (p : Packet) : bool :=
  in_tunnel t DirOut p &&
  match allowed with
  | TrafficAll => true
  | TrafficNone => false
  | TrafficOne e => m_endpoint Dst e p
  | TrafficTwo e1 e2 => m_endpoint Dst e1 p || m_endpoint Dst e2 p
  end.
Definition traffic_in (t : TunnelMetadata) (allowed : AllowedTunnelTraffic) (p : Packet) : bool :=
  in_tunnel t DirIn p &&
  match allowed with
  | TrafficAll => true
  | TrafficNone => false
  | TrafficOne e => m_endpoint Src e p
  | TrafficTwo e1 e2 => m_endpoint Src e1 p || m_endpoint Src e2 p
  end.
Definition traffic_fwd (t : TunnelMetadata) (allowed : AllowedTunnelTraffic) (p : Packet) : bool :=
  match allowed with
  | TrafficAll => in_tunnel t DirOut p || (in_tunnel t DirIn p && m_established p)
  | _ => false
  end.
(** Attacks from the local network on the addresses of the tunnel (CVE-2019-14899). *)
Definition to_tunnel_ip (t : TunnelMetadata) (p : Packet) : bool :=
  existsb (λ ip, m_ip Dst ip p) (ips t).

(** DNS in the connected state: to the configured servers, in the tunnel or
    outside it. *)
Definition both_protos (f : TransportProtocol → bool) : bool := f Udp || f Tcp.
Definition dns_out (t : TunnelMetadata) (dns : ResolvedDnsConfig) (p : Packet) : bool :=
  existsb (λ s, both_protos (λ pr, tunnel_dns env (interface t) pr s p)) (tunnel_config dns) ||
  existsb (λ s, both_protos (λ pr, local_dns env (interface t) DirOut pr s p)) (non_tunnel_config dns).
Definition dns_in (t : TunnelMetadata) (dns : ResolvedDnsConfig) (p : Packet) : bool :=
  existsb (λ s, both_protos (λ pr, local_dns env (interface t) DirIn pr s p)) (non_tunnel_config dns).

Definition opt_traffic (f : TunnelMetadata → AllowedTunnelTraffic → Packet → bool)
    (t : option TunnelMetadata) (allowed : AllowedTunnelTraffic) (p : Packet) : bool :=
  match t with Some t => f t allowed p | None => false end.

Definition out_allowed (policy : FirewallPolicy) (p : Packet) : bool :=
  always_out p ||
  match policy with
  | Connecting peers tunnel lan ep allowed =>
      peers_out peers p || api_out ep p ||
      (negb (dns_request p) && (opt_traffic traffic_out tunnel allowed p || (lan && lan_out p)))
  | Connected peers tunnel lan dns =>
      peers_out peers p || dns_out tunnel dns p ||
      (negb (dns_request p) && (in_tunnel tunnel DirOut p || (lan && lan_out p)))
  | Blocked lan ep =>
      match ep with Some ep => api_out ep p | None => false end ||
      (negb (dns_request p) && lan && lan_out p)
  end.

Definition in_allowed (policy : FirewallPolicy) (p : Packet) : bool :=
  always_in p ||
  match policy with
  | Connecting peers tunnel lan ep allowed =>
      peers_in peers p || api_in ep p || opt_traffic traffic_in tunnel allowed p ||
      (lan && negb (match tunnel with Some t => to_tunnel_ip t p | None => false end) && lan_in p)
  | Connected peers tunnel lan dns =>
      peers_in peers p || dns_in tunnel dns p || in_tunnel tunnel DirIn p ||
      (lan && negb (to_tunnel_ip tunnel p) && lan_in p)
  | Blocked lan ep =>
      match ep with Some ep => api_in ep p | None => false end || (lan && lan_in p)
  end.

Definition forward_allowed (policy : FirewallPolicy) (p : Packet) : bool :=
  always_fwd p ||
  match policy with
  | Connecting _ tunnel lan _ allowed =>
      negb (dns_request p) && (opt_traffic traffic_fwd tunnel allowed p || (lan && lan_dst p))
  | Connected _ tunnel lan dns =>
      dns_out tunnel dns p || dns_in tunnel dns p ||
      (negb (dns_request p) && (traffic_fwd tunnel TrafficAll p || (lan && lan_dst p)))
  | Blocked lan _ => negb (dns_request p) && lan && lan_dst p
  end.

(** What a local packet carries once the mangle chain has seen it.  Packets of
    processes excluded by split tunnelling and packets to a peer that every
    process may reach get the daemon's mark and the connection mark; DNS to the
    tunnel's servers does not. *)
Definition open_peer (peers : list AllowedEndpoint) (p : Packet) : bool :=
  existsb (λ ep, allow_all (clients ep) && m_endpoint Dst (endpoint ep) p) peers.
Definition unsplit_dns (policy : FirewallPolicy) (p : Packet) : bool :=
  match policy with
  | Connected _ t _ dns =>
      existsb (λ s, both_protos (λ pr, tunnel_dns env (interface t) pr s p)) (tunnel_config dns)
  | _ => false
  end.
Definition policy_peers (policy : FirewallPolicy) : list AllowedEndpoint :=
  match policy with
  | Connecting peers _ _ _ _ | Connected peers _ _ _ => peers
  | Blocked _ _ => []
  end.
Definition marked (policy : FirewallPolicy) (p : Packet) : Packet :=
  if split && unsplit_dns policy p then p
  else if (split && m_cgroup p) || open_peer (policy_peers policy) p then set_marks mark p
  else p.

(** What an arriving packet carries after the prerouting chain: packets from a
    peer, and answers to excluded processes that do not come out of the tunnel,
    get the daemon's mark. *)
Definition arrived (policy : FirewallPolicy) (p : Packet) : Packet :=
  if existsb (λ ep, m_endpoint Src (endpoint ep) p) (policy_peers policy) ||
     match policy with
     | Connected _ t _ _ => split && negb (in_tunnel t DirIn p) && m_ct_mark p
     | _ => false
     end
  then set_pk_mark mark p else p.

(** The nat chain keeps the connections of excluded processes out of the tunnel. *)
Definition nat_allowed (policy : FirewallPolicy) (p : Packet) : bool :=
  match policy with
  | Connected _ t _ _ => negb (split && in_tunnel t DirOut p && m_ct_mark p)
  | _ => true
  end.
End Specification.

(** Marks are all that changes. *)
Lemma marked_cases `{IpNetworkCrate} env mark split policy p :
  marked env mark split policy p = p ∨ marked env mark split policy p = set_marks mark p.
Proof. unfold marked. repeat case_match; auto. Qed.
Lemma marked_endpoint `{IpNetworkCrate} env mark split policy p e ep :
  m_endpoint e ep (marked env mark split policy p) = m_endpoint e ep p.
Proof. by destruct (marked_cases env mark split policy p) as [->| ->]. Qed.
Lemma marked_root `{IpNetworkCrate} env mark split policy p :
  m_root (marked env mark split policy p) = m_root p.
Proof. by destruct (marked_cases env mark split policy p) as [->| ->]. Qed.

(** ** Filters as sets of accepted packets *)

Definition accepts (o : option Verdict) : bool :=
  match o with Some Accept => true | _ => false end.
Definition passes (o : option Verdict) : bool :=
  match o with None => true | _ => false end.

Lemma accepts_or_else f g p : accepts ((f ▷ g) p) = accepts (f p) || (passes (f p) && accepts (g p)).
Proof. unfold or_else. by destruct (f p) as [[]|]. Qed.
Lemma passes_or_else f g p : passes ((f ▷ g) p) = passes (f p) && passes (g p).
Proof. unfold or_else. by destruct (f p). Qed.
Lemma accepts_no_rule p : accepts (no_rule p) = false.
Proof. done. Qed.
Lemma passes_no_rule p : passes (no_rule p) = true.
Proof. done. Qed.
Lemma accepts_accept g p : accepts (rule_of g Accept p) = g p.
Proof. unfold rule_of. by destruct (g p). Qed.
Lemma accepts_drop g p : accepts (rule_of g Drop p) = false.
Proof. unfold rule_of. by destruct (g p). Qed.
Lemma accepts_reject g r p : accepts (rule_of g (Reject r) p) = false.
Proof. unfold rule_of. by destruct (g p). Qed.
Lemma passes_rule g v p : passes (rule_of g v p) = negb (g p).
Proof. unfold rule_of. by destruct (g p). Qed.

Create Rewrite HintDb filters.
#[export] Hint Rewrite accepts_or_else passes_or_else accepts_no_rule passes_no_rule accepts_accept
  accepts_drop accepts_reject passes_rule : filters.

(** A projection to one of the three chains. *)
Definition projection (π : Filters → Packet → option Verdict) : Prop :=
  π f_none = no_rule ∧ ∀ F G, π (F ▷▷ G) = π F ▷ π G.
Lemma projection_out : projection f_out.
Proof. done. Qed.
Lemma projection_in : projection f_in.
Proof. done. Qed.
Lemma projection_fwd : projection f_fwd.
Proof. done. Qed.
#[export] Hint Resolve projection_out projection_in projection_fwd : vpn.

(** Lists of filters that all have one verdict: the union. *)
Lemma f_all_rule {A} π (F : A → Filters) (g : A → Packet → bool) v l p :
  projection π → (∀ a, π (F a) p = rule_of (g a) v p) →
  π (f_all F l) p = rule_of (λ p, existsb (λ a, g a p) l) v p.
Proof.
  intros [P0 P1] HF. unfold rule_of. induction l as [|a l IH]; cbn [existsb].
  - change (f_all F []) with f_none. by rewrite P0.
  - rewrite f_all_cons, P1. unfold or_else. rewrite HF, IH. unfold rule_of. by destruct (g a p).
Qed.
Lemma f_all_pass {A} π (F : A → Filters) l p :
  projection π → (∀ a, π (F a) p = None) → π (f_all F l) p = None.
Proof.
  intros [P0 P1] HF. induction l as [|a l IH].
  - change (f_all F []) with f_none. by rewrite P0.
  - rewrite f_all_cons, P1. unfold or_else. by rewrite HF, IH.
Qed.

(** ** The filters of a policy accept the packets of its specification *)

(** Case analysis on the guards of a filter. *)
Ltac by_guards :=
  cbn; unfold or_else, rule_of, no_rule; cbn;
  repeat match goal with
  | |- context [if ?b then _ else _] => destruct b eqn:?; cbn
  end; try done.

(** Disjunctions distribute over [existsb]. *)
Lemma existsb_orb {A} (f g : A → bool) l : existsb (λ a, f a || g a) l = existsb f l || existsb g l.
Proof. induction l as [|a l IH]; cbn; [done|]. rewrite IH. by destruct (f a), (g a), (existsb f l). Qed.

Section Blocks.
Context `{IpNetworkCrate} (env : LinuxEnv) (mark : Z) (p : Packet).

Lemma dhcp_client_out : f_out F_dhcp_client p = rule_of dhcp_out Accept p.
Proof.
  unfold F_dhcp_client, dhcp_out, f_all. cbn. unfold or_else, rule_of, no_rule.
  destruct (dhcpv4_request p); [done|]. cbn. by repeat destruct (dhcpv6_request _ p).
Qed.
Lemma dhcp_client_in : f_in F_dhcp_client p = rule_of dhcp_in Accept p.
Proof.
  unfold F_dhcp_client, dhcp_in, f_all. cbn. unfold or_else, rule_of, no_rule.
  by destruct (dhcpv4_response p), (dhcpv6_response p).
Qed.
Lemma dhcp_client_fwd : f_fwd F_dhcp_client p = rule_of (λ p, dhcp_out p || dhcp_in p) Accept p.
Proof.
  unfold F_dhcp_client, dhcp_out, dhcp_in, f_all. cbn. unfold or_else, rule_of, no_rule.
  destruct (dhcpv4_request p), (dhcpv4_response p), (dhcpv6_response p); try done; cbn.
  all: by repeat destruct (dhcpv6_request _ p).
Qed.
Lemma ndp_rules_out : f_out F_ndp p = rule_of ndp_out Accept p.
Proof.
  unfold F_ndp, ndp_out. cbn. unfold or_else, rule_of, no_rule.
  by destruct (router_solicitation p), (to_solicited_node p), (to_link_local 135 p), (to_link_local 136 p).
Qed.
Lemma ndp_rules_in : f_in F_ndp p = rule_of ndp_in Accept p.
Proof.
  unfold F_ndp, ndp_in. cbn. unfold or_else, rule_of, no_rule.
  by destruct (from_link_local 134 p), (from_link_local 137 p), (from_link_local 135 p), (m_icmpv6 136 0 p).
Qed.
Lemma ndp_rules_fwd : f_fwd F_ndp p = rule_of (λ p, ndp_out p || ndp_in p) Accept p.
Proof.
  unfold F_ndp, ndp_out, ndp_in. cbn. unfold or_else, rule_of, no_rule.
  destruct (router_solicitation p), (to_solicited_node p); try done; cbn.
  all: by destruct (to_link_local 135 p), (to_link_local 136 p), (from_link_local 134 p),
    (from_link_local 137 p), (from_link_local 135 p), (m_icmpv6 136 0 p).
Qed.

Lemma split_rules_out policy : f_out (F_split env mark policy) p = rule_of m_ct_mark Accept p.
Proof.
  unfold F_split. cbn. unfold or_else, no_rule.
  assert (f_out (F_split_dns env policy) p = None) as ->.
  { destruct policy; [done| |done]. by apply f_all_pass; [auto with vpn|]. }
  unfold rule_of. destruct (m_ct_mark p); [done|]. by destruct policy.
Qed.
Lemma split_rules_in policy : f_in (F_split env mark policy) p = rule_of m_ct_mark Accept p.
Proof.
  unfold F_split. cbn. unfold or_else, no_rule.
  assert (f_in (F_split_dns env policy) p = None) as ->.
  { destruct policy; [done| |done]. by apply f_all_pass; [auto with vpn|]. }
  unfold rule_of. destruct (m_ct_mark p); [done|]. by destruct policy.
Qed.
Lemma split_rules_fwd policy : f_fwd (F_split env mark policy) p = rule_of m_ct_mark Accept p.
Proof.
  unfold F_split. cbn. unfold or_else, no_rule.
  assert (f_fwd (F_split_dns env policy) p = None) as ->.
  { destruct policy; [done| |done]. by apply f_all_pass; [auto with vpn|]. }
  unfold rule_of. destruct (m_ct_mark p); [done|]. by destruct policy.
Qed.

Lemma peers_rules_out peers : f_out (f_all (F_peer mark) peers) p = rule_of (peers_out mark peers) Accept p.
Proof.
  apply (f_all_rule f_out (F_peer mark) (λ ep p, m_endpoint Dst (endpoint ep) p && m_mark mark p));
    [auto with vpn|]. intros [ep c]. by_guards.
Qed.
Lemma peers_rules_in peers : f_in (f_all (F_peer mark) peers) p = rule_of (peers_in peers) Accept p.
Proof.
  apply (f_all_rule f_in (F_peer mark) (λ ep p, m_endpoint Src (endpoint ep) p && m_established p));
    [auto with vpn|]. intros [ep c]. by_guards.
Qed.
Lemma peers_rules_fwd peers : f_fwd (f_all (F_peer mark) peers) p = None.
Proof. apply f_all_pass; [auto with vpn|]. intros [ep c]. by_guards. Qed.

Lemma lan_rules_out : f_out F_lan p = rule_of lan_out Accept p.
Proof.
  unfold F_lan, lan_out, lan_dst. cbn [f_then on_out on_in f_out f_in f_fwd]. unfold or_else.
  destruct (f_all_on_out_fwd (m_net Dst) Accept (ALLOWED_LAN_NETS ++ ALLOWED_LAN_MULTICAST_NETS) p)
    as (-> & _ & _).
  destruct (f_all_on_in (m_net Src) Accept ALLOWED_LAN_NETS p) as (-> & _ & _).
  unfold rule_of, no_rule. by destruct (existsb _ _), (dhcpv4_server_response p).
Qed.
Lemma lan_rules_in : f_in F_lan p = rule_of lan_in Accept p.
Proof.
  unfold F_lan, lan_in. cbn [f_then on_out on_in f_out f_in f_fwd]. unfold or_else.
  destruct (f_all_on_out_fwd (m_net Dst) Accept (ALLOWED_LAN_NETS ++ ALLOWED_LAN_MULTICAST_NETS) p)
    as (_ & -> & _).
  destruct (f_all_on_in (m_net Src) Accept ALLOWED_LAN_NETS p) as (_ & -> & _).
  unfold rule_of, no_rule. by destruct (existsb _ _), (dhcpv4_server_request p).
Qed.
Lemma lan_rules_fwd : f_fwd F_lan p = rule_of lan_dst Accept p.
Proof.
  unfold F_lan, lan_dst. cbn [f_then on_out on_in f_out f_in f_fwd]. unfold or_else.
  destruct (f_all_on_out_fwd (m_net Dst) Accept (ALLOWED_LAN_NETS ++ ALLOWED_LAN_MULTICAST_NETS) p)
    as (_ & _ & ->).
  destruct (f_all_on_in (m_net Src) Accept ALLOWED_LAN_NETS p) as (_ & _ & ->).
  unfold rule_of, no_rule. by destruct (existsb _ _).
Qed.

Lemma dns_tunnel_rules_out iface servers :
  f_out (f_all (λ s, F_tunnel_dns env iface Udp s ▷▷ F_tunnel_dns env iface Tcp s) servers) p =
  rule_of (λ p, existsb (λ s, both_protos (λ pr, tunnel_dns env iface pr s p)) servers) Accept p.
Proof.
  apply (f_all_rule f_out _ (λ s p, both_protos (λ pr, tunnel_dns env iface pr s p))); [auto with vpn|].
  intros s. unfold both_protos. by_guards; congruence.
Qed.
Lemma dns_tunnel_rules_fwd iface servers :
  f_fwd (f_all (λ s, F_tunnel_dns env iface Udp s ▷▷ F_tunnel_dns env iface Tcp s) servers) p =
  rule_of (λ p, existsb (λ s, both_protos (λ pr, tunnel_dns env iface pr s p)) servers) Accept p.
Proof.
  apply (f_all_rule f_fwd _ (λ s p, both_protos (λ pr, tunnel_dns env iface pr s p))); [auto with vpn|].
  intros s. unfold both_protos. by_guards; congruence.
Qed.
Lemma dns_tunnel_rules_in iface servers :
  f_in (f_all (λ s, F_tunnel_dns env iface Udp s ▷▷ F_tunnel_dns env iface Tcp s) servers) p = None.
Proof. by apply f_all_pass; [auto with vpn|]. Qed.

Lemma dns_local_rules_out iface servers :
  f_out (f_all (λ s, F_local_dns env iface Udp s ▷▷ F_local_dns env iface Tcp s) servers) p =
  rule_of (λ p, existsb (λ s, both_protos (λ pr, local_dns env iface DirOut pr s p)) servers) Accept p.
Proof.
  apply (f_all_rule f_out _ (λ s p, both_protos (λ pr, local_dns env iface DirOut pr s p)));
    [auto with vpn|]. intros s. unfold both_protos. cbn. unfold or_else, rule_of, no_rule.
  by destruct (local_dns _ _ _ Udp _ _), (local_dns _ _ _ Tcp _ _).
Qed.
Lemma dns_local_rules_in iface servers :
  f_in (f_all (λ s, F_local_dns env iface Udp s ▷▷ F_local_dns env iface Tcp s) servers) p =
  rule_of (λ p, existsb (λ s, both_protos (λ pr, local_dns env iface DirIn pr s p)) servers) Accept p.
Proof.
  apply (f_all_rule f_in _ (λ s p, both_protos (λ pr, local_dns env iface DirIn pr s p)));
    [auto with vpn|]. intros s. unfold both_protos. cbn. unfold or_else, rule_of, no_rule.
  by destruct (local_dns _ _ _ Udp _ _), (local_dns _ _ _ Tcp _ _).
Qed.
Lemma dns_local_rules_fwd iface servers :
  f_fwd (f_all (λ s, F_local_dns env iface Udp s ▷▷ F_local_dns env iface Tcp s) servers) p =
  rule_of (λ p, existsb (λ s, both_protos (λ pr, local_dns env iface DirOut pr s p)) servers ||
                existsb (λ s, both_protos (λ pr, local_dns env iface DirIn pr s p)) servers) Accept p.
Proof.
  rewrite (f_all_rule f_fwd _ (λ s p, both_protos (λ pr, local_dns env iface DirOut pr s p) ||
                                      both_protos (λ pr, local_dns env iface DirIn pr s p)) Accept);
    [unfold rule_of; by rewrite existsb_orb|auto with vpn|].
  intros s. unfold both_protos. cbn. unfold or_else, rule_of, no_rule.
  by destruct (local_dns _ _ DirOut Udp _ _), (local_dns _ _ DirOut Tcp _ _),
    (local_dns _ _ DirIn Udp _ _), (local_dns _ _ DirIn Tcp _ _).
Qed.

Lemma block_cve_in t : f_in (F_block_cve t) p = rule_of (to_tunnel_ip t) Drop p.
Proof.
  apply (f_all_rule f_in _ (λ ip p, m_ip Dst ip p)); [auto with vpn|]. intros ip. by_guards.
Qed.
Lemma block_cve_out t : f_out (F_block_cve t) p = None.
Proof. by apply f_all_pass; [auto with vpn|]. Qed.
Lemma block_cve_fwd t : f_fwd (F_block_cve t) p = None.
Proof. by apply f_all_pass; [auto with vpn|]. Qed.

Lemma traffic_rules_out t allowed :
  f_out (F_tunnel_traffic env (interface t) allowed) p = rule_of (traffic_out env t allowed) Accept p.
Proof.
  unfold traffic_out, in_tunnel, rule_of. destruct allowed as [| |e|e1 e2]; cbn; unfold or_else, rule_of, no_rule.
  all: destruct (m_iface DirOut _ p); try done; cbn.
  all: by repeat destruct (m_endpoint _ _ p).
Qed.
Lemma traffic_rules_in t allowed :
  f_in (F_tunnel_traffic env (interface t) allowed) p = rule_of (traffic_in env t allowed) Accept p.
Proof.
  unfold traffic_in, in_tunnel, rule_of. destruct allowed as [| |e|e1 e2]; cbn; unfold or_else, rule_of, no_rule.
  all: destruct (m_iface DirIn _ p); try done; cbn.
  all: by repeat destruct (m_endpoint _ _ p).
Qed.
Lemma traffic_rules_fwd t allowed :
  f_fwd (F_tunnel_traffic env (interface t) allowed) p = rule_of (traffic_fwd env t allowed) Accept p.
Proof.
  unfold traffic_fwd, in_tunnel, rule_of. destruct allowed as [| |e|e1 e2]; cbn; unfold or_else, rule_of, no_rule; try done.
  by destruct (m_iface DirOut _ p), (m_iface DirIn _ p), (m_established p).
Qed.
End Blocks.

#[export] Hint Rewrite @dhcp_client_out @dhcp_client_in @dhcp_client_fwd @ndp_rules_out @ndp_rules_in
  @ndp_rules_fwd @split_rules_out @split_rules_in @split_rules_fwd @peers_rules_out @peers_rules_in @peers_rules_fwd @lan_rules_out @lan_rules_in
  @lan_rules_fwd @dns_tunnel_rules_out @dns_tunnel_rules_fwd @dns_tunnel_rules_in
  @dns_local_rules_out @dns_local_rules_in @dns_local_rules_fwd @block_cve_in @block_cve_out
  @block_cve_fwd @traffic_rules_out @traffic_rules_in @traffic_rules_fwd : filters.

(** Splits a composed filter into its blocks and rewrites each. *)
Ltac blocks :=
  cbn [F_if f_then f_out f_in f_fwd]; autorewrite with filters;
  cbn [accepts passes]; rewrite ?andb_true_r, ?andb_false_r, ?orb_false_r, ?andb_true_l.

Section Refinement.
Context `{IpNetworkCrate} (env : LinuxEnv) (mark : Z) (split : bool) (p : Packet).

Lemma prefix_out policy G :
  accepts (f_out (F_loopback env ▷▷ F_if split (F_split env mark policy) ▷▷ F_dhcp_client ▷▷ F_ndp ▷▷ G) p) =
  always_out env split p || accepts (f_out G p).
Proof.
  unfold always_out. destruct split; blocks; cbn; autorewrite with filters; cbn.
  - destruct (m_iface DirOut _ p), (m_ct_mark p), (dhcp_out p), (ndp_out p); done.
  - destruct (m_iface DirOut _ p), (dhcp_out p), (ndp_out p); done.
Qed.
Lemma prefix_in policy G :
  accepts (f_in (F_loopback env ▷▷ F_if split (F_split env mark policy) ▷▷ F_dhcp_client ▷▷ F_ndp ▷▷ G) p) =
  always_in env split p || accepts (f_in G p).
Proof.
  unfold always_in. destruct split; blocks; cbn; autorewrite with filters; cbn.
  - destruct (m_iface DirIn _ p), (m_ct_mark p), (dhcp_in p), (ndp_in p); done.
  - destruct (m_iface DirIn _ p), (dhcp_in p), (ndp_in p); done.
Qed.
Lemma prefix_fwd policy G :
  accepts (f_fwd (F_loopback env ▷▷ F_if split (F_split env mark policy) ▷▷ F_dhcp_client ▷▷ F_ndp ▷▷ G) p) =
  always_fwd split p || accepts (f_fwd G p).
Proof.
  unfold always_fwd. destruct split; blocks; cbn; autorewrite with filters; cbn.
  - destruct (m_ct_mark p), (dhcp_out p), (dhcp_in p), (ndp_out p), (ndp_in p); done.
  - destruct (dhcp_out p), (dhcp_in p), (ndp_out p), (ndp_in p); done.
Qed.

Lemma suffix_out G (lan : bool) :
  accepts (f_out (G ▷▷ F_if lan F_lan ▷▷ F_reject_all) p) =
  accepts (f_out G p) || (passes (f_out G p) && lan && lan_out p).
Proof.
  destruct lan; blocks; cbn; autorewrite with filters; cbn.
  all: by destruct (accepts (f_out G p)), (passes (f_out G p)), (lan_out p).
Qed.
Lemma suffix_in G (lan : bool) :
  accepts (f_in (G ▷▷ F_if lan F_lan ▷▷ F_reject_all) p) =
  accepts (f_in G p) || (passes (f_in G p) && lan && lan_in p).
Proof.
  destruct lan; blocks; cbn; autorewrite with filters; cbn.
  all: by destruct (accepts (f_in G p)), (passes (f_in G p)), (lan_in p).
Qed.
Lemma suffix_fwd G (lan : bool) :
  accepts (f_fwd (G ▷▷ F_if lan F_lan ▷▷ F_reject_all) p) =
  accepts (f_fwd G p) || (passes (f_fwd G p) && lan && lan_dst p).
Proof.
  destruct lan; blocks; cbn; autorewrite with filters; cbn.
  all: by destruct (accepts (f_fwd G p)), (passes (f_fwd G p)), (lan_dst p).
Qed.

Lemma drop_dns_out :
  accepts (f_out F_drop_dns p) = false ∧ passes (f_out F_drop_dns p) = negb (dns_request p).
Proof.
  unfold dns_request. cbn. autorewrite with filters. by destruct (m_port Udp Dst 53 p), (m_port Tcp Dst 53 p).
Qed.
Lemma drop_dns_fwd :
  accepts (f_fwd F_drop_dns p) = false ∧ passes (f_fwd F_drop_dns p) = negb (dns_request p).
Proof.
  unfold dns_request. cbn. autorewrite with filters. by destruct (m_port Udp Dst 53 p), (m_port Tcp Dst 53 p).
Qed.
Lemma drop_dns_in : accepts (f_in F_drop_dns p) = false ∧ passes (f_in F_drop_dns p) = true.
Proof. done. Qed.
End Refinement.


(** Boolean identities by case analysis on the leftmost undecided guard. *)
Ltac leftmost b k :=
  lazymatch b with
  | ?x && _ => leftmost x k
  | ?x || _ => leftmost x k
  | negb ?x => leftmost x k
  | true => fail
  | false => fail
  | _ => k b
  end.
Ltac decide_guards :=
  cbn [andb orb negb]; rewrite ?andb_true_r, ?andb_false_r, ?orb_false_r; cbn [andb orb negb];
  try reflexivity;
  lazymatch goal with
  | |- true = ?r => leftmost r ltac:(fun b => destruct b); decide_guards
  | |- false = ?r => leftmost r ltac:(fun b => destruct b); decide_guards
  | |- ?l = _ => leftmost l ltac:(fun b => destruct b); decide_guards
  end.

(** The remaining goal is an identity between boolean combinations of guards. *)
Ltac policy_cases policy Da Dp :=
  destruct policy as [peers [t|] lan ep allowed|peers t lan dns|lan [ep|]];
  cbn [F_policy_head policy_allow_lan opt_traffic]; try destruct lan; blocks; rewrite ?Da, ?Dp;
  cbn [F_allowed_endpoint F_tunnel f_out f_in f_fwd f_then on_in on_out on_fwd f_none];
  autorewrite with filters; rewrite ?Da, ?Dp;
  unfold api_out, api_in, dns_out, dns_in, traffic_fwd, in_tunnel; decide_guards.

Section Policies.
Context `{IpNetworkCrate} (env : LinuxEnv) (mark : Z) (split : bool) (p : Packet).

Lemma policy_out_spec policy :
  accepts (f_out (F_policy env mark split policy) p) = out_allowed env mark split policy p.
Proof.
  unfold F_policy, out_allowed. rewrite prefix_out, suffix_out. f_equal.
  destruct (drop_dns_out p) as [Da Dp]. policy_cases policy Da Dp.
Qed.

Lemma policy_in_spec policy :
  accepts (f_in (F_policy env mark split policy) p) = in_allowed env split policy p.
Proof.
  unfold F_policy, in_allowed. rewrite prefix_in, suffix_in. f_equal.
  destruct (drop_dns_in p) as [Da Dp]. policy_cases policy Da Dp.
Qed.

Lemma policy_fwd_spec policy :
  accepts (f_fwd (F_policy env mark split policy) p) = forward_allowed env split policy p.
Proof.
  unfold F_policy, forward_allowed. rewrite prefix_fwd, suffix_fwd. f_equal.
  destruct (drop_dns_fwd p) as [Da Dp]. policy_cases policy Da Dp.
Qed.
End Policies.

(** ** The stages of a policy mark and translate as its specification says *)

Lemma run_stages_app ss1 ss2 p :
  run_stages (ss1 ++ ss2) p =
  match run_stages ss1 p with
  | (Some v, p') => (Some v, p')
  | (None, p') => run_stages ss2 p'
  end.
Proof.
  revert p. induction ss1 as [|s ss1 IH]; intros p; cbn; [done|]. by destruct (run_stage s p).
Qed.

Section Stages.
Context `{IpNetworkCrate} (env : LinuxEnv) (mark : Z) (split : bool).

(** The stages come from split tunnelling and from the peers only. *)
Lemma policy_aux policy a :
  f_aux (F_policy env mark split policy) a =
  (if split then f_aux (F_split env mark policy) a else []) ++
  f_aux (f_all (F_peer mark) (policy_peers policy)) a.
Proof.
  assert (∀ t allowed, f_aux (F_tunnel_traffic env (interface t) allowed) a = []) as Ht
    by by intros t [].
  assert (∀ t, f_aux (F_block_cve t) a = []) as Hc by (intros t; by apply f_all_no_stage).
  assert (f_aux F_lan a = []) as Hl by (unfold F_lan; cbn; by rewrite !f_all_no_stage).
  unfold F_policy. cbn [f_then f_aux]. f_equal; [by destruct split; cbn; rewrite ?app_nil_r|].
  assert (f_aux (F_if (policy_allow_lan policy) F_lan) a = []) as -> by by destruct (policy_allow_lan policy).
  rewrite !app_nil_r. destruct policy as [peers [t|] lan ep allowed|peers t lan dns|lan [ep|]];
    cbn [F_policy_head policy_peers f_then f_aux F_drop_dns F_allowed_endpoint on_out_fwd on_out on_in on_fwd
         no_stage f_none app F_tunnel F_if].
  - rewrite Ht. destruct lan; cbn; by rewrite ?Hc, !app_nil_r.
  - by rewrite !app_nil_r.
  - rewrite (f_all_no_stage _ (tunnel_config dns)), (f_all_no_stage _ (non_tunnel_config dns)) by done.
    destruct lan; cbn; by rewrite ?Hc, !app_nil_r.
  - done.
  - done.
Qed.

(** Marking twice is marking once, and what the peers' rules match does not change. *)
Lemma set_marks_twice m p : set_marks m (set_marks m p) = set_marks m p.
Proof. done. Qed.
Lemma open_peer_marks peers m p : open_peer peers (set_marks m p) = open_peer peers p.
Proof. done. Qed.

Lemma peers_mangle peers p :
  run_stages (f_aux (f_all (F_peer mark) peers) Mangle) p =
  (None, if open_peer peers p then set_marks mark p else p).
Proof.
  revert p. induction peers as [|ep peers IH]; intros p; [done|].
  rewrite f_all_cons. cbn [f_then f_aux]. rewrite run_stages_app.
  change (open_peer (ep :: peers) p) with
    (allow_all (clients ep) && m_endpoint Dst (endpoint ep) p || open_peer peers p).
  unfold F_peer at 1. cbn. destruct (allow_all (clients ep)) eqn:E; cbn; [|apply IH].
  unfold run_stage. cbn. destruct (m_endpoint Dst (endpoint ep) p); cbn; [|apply IH].
  rewrite IH, open_peer_marks. by destruct (open_peer peers p).
Qed.

Lemma peers_prerouting peers p :
  run_stages (f_aux (f_all (F_peer mark) peers) Prerouting) p =
  (None, if existsb (λ ep, m_endpoint Src (endpoint ep) p) peers then set_pk_mark mark p else p).
Proof.
  revert p. induction peers as [|ep peers IH]; intros p; [done|].
  rewrite f_all_cons. cbn [f_then f_aux]. rewrite run_stages_app. cbn [existsb].
  assert (f_aux (F_peer mark ep) Prerouting = [(m_endpoint Src (endpoint ep), ActMark mark)]) as ->
    by (cbn; by destruct (allow_all (clients ep))).
  cbn. unfold run_stage. cbn. destruct (m_endpoint Src (endpoint ep) p); cbn; [|apply IH].
  rewrite IH. by case_match.
Qed.

Lemma peers_nat peers : f_aux (f_all (F_peer mark) peers) Nat = [].
Proof. apply f_all_no_stage. intros ep. cbn. by destruct (allow_all (clients ep)). Qed.

Lemma split_dns_mangle policy p :
  run_stages (f_aux (F_split_dns env policy) Mangle) p =
  (if unsplit_dns env policy p then Some Accept else None, p).
Proof.
  destruct policy as [|peers t lan dns|]; [done| |done]. cbn [F_split_dns unsplit_dns].
  induction (tunnel_config dns) as [|s l IH]; [done|].
  rewrite f_all_cons. cbn [f_then f_aux existsb]. unfold both_protos at 1.
  cbn. unfold run_stage at 1. cbn. destruct (tunnel_dns env (interface t) Udp s p); [done|].
  unfold run_stage at 1. cbn. by destruct (tunnel_dns env (interface t) Tcp s p).
Qed.

Lemma policy_mangle policy p :
  run_stages (f_aux (F_policy env mark split policy) Mangle) p =
  (if split && unsplit_dns env policy p then Some Accept else None, marked env mark split policy p).
Proof.
  rewrite policy_aux, run_stages_app. unfold marked. destruct split; cbn [andb orb].
  2: { cbn. apply peers_mangle. }
  unfold F_split. cbn [f_then f_aux]. rewrite !run_stages_app, split_dns_mangle.
  destruct (unsplit_dns env policy p); [done|].
  assert (f_aux (F_split_block env policy) Mangle = []) as -> by by destruct policy.
  assert (f_aux (F_split_answers env mark policy) Mangle = []) as -> by by destruct policy.
  cbn. unfold run_stage. cbn. destruct (m_cgroup p); cbn; rewrite peers_mangle; [|done].
  rewrite open_peer_marks. by destruct (open_peer _ p).
Qed.

Lemma policy_prerouting policy p :
  run_stages (f_aux (F_policy env mark split policy) Prerouting) p =
  (None, arrived env mark split policy p).
Proof.
  rewrite policy_aux, run_stages_app. unfold arrived.
  assert (run_stages (if split then f_aux (F_split env mark policy) Prerouting else []) p =
          (None, if match policy with
                    | Connected _ t _ _ => split && negb (in_tunnel env t DirIn p) && m_ct_mark p
                    | _ => false
                    end then set_pk_mark mark p else p)) as ->.
  { destruct split; [|by destruct policy]. unfold F_split. cbn [f_then f_aux].
    assert (f_aux (F_split_dns env policy) Prerouting = []) as ->.
    { destruct policy; [done| |done]. by apply f_all_no_stage. }
    destruct policy; cbn; [done| |done]. unfold run_stage, in_tunnel. cbn.
    by destruct (negb _ && _). }
  rewrite peers_prerouting.
  assert (∀ b, existsb (λ ep, m_endpoint Src (endpoint ep) (if b : bool then set_pk_mark mark p else p))
            (policy_peers policy) = existsb (λ ep, m_endpoint Src (endpoint ep) p) (policy_peers policy)) as Hb
    by by intros [].
  rewrite Hb. destruct (existsb _ (policy_peers policy)); cbn [orb]; [|done]. by case_match.
Qed.

Lemma policy_nat policy p :
  accepts (Some (default Accept (run_stages (f_aux (F_policy env mark split policy) Nat) p).1)) =
    nat_allowed env split policy p ∧
  (run_stages (f_aux (F_policy env mark split policy) Nat) p).2 = p.
Proof.
  rewrite policy_aux, peers_nat, app_nil_r. unfold nat_allowed, in_tunnel.
  destruct split; [|by destruct policy]. unfold F_split. cbn [f_then f_aux].
  assert (f_aux (F_split_dns env policy) Nat = []) as ->.
  { destruct policy; [done| |done]. by apply f_all_no_stage. }
  destruct policy; cbn; unfold run_stage; cbn.
  all: destruct (m_ct_mark p); rewrite ?andb_true_r, ?andb_false_r; try done.
  all: by repeat destruct (m_iface _ _ p).
Qed.
End Stages.
