(* ===== verification/FirewallRefinement.v ===== *)
(** * The installed tables implement the policy

    What a batch does to the tables, the refinement of the specification of a
    policy by the table the firewall installs, and the consequences for traffic
    that must not leave the device. *)

From S2P Require Import Prelude NetTypes TunnelTypes Nft LinuxFirewall RuleSemantics.
From S2P Require Import FirewallRules FirewallSpec.

(** ** Batches on tables *)

Lemma batch_apply_app b1 b2 ts :
  batch_apply (b1 ++ b2) ts = batch_apply b1 ts ≫= batch_apply b2.
Proof.
  revert ts. induction b1 as [|m b1 IH]; intros ts; cbn; [done|].
  destruct (msg_apply ts m); cbn; [apply IH|done].
Qed.

(** Adding and deleting a table removes it, whether or not it existed. *)
Lemma batch_apply_add_del t b ts :
  batch_apply (AddTable t :: DelTable t :: b) ts = batch_apply b (delete t ts).
Proof.
  cbn. destruct (ts !! t) eqn:E.
  - by rewrite E.
  - by rewrite lookup_insert_eq, delete_insert_eq.
Qed.

Lemma batch_apply_fresh t b ts :
  ts !! t = None → batch_apply (AddTable t :: b) ts = batch_apply b (<[t := []]> ts).
Proof. cbn. by intros ->. Qed.

Lemma batch_apply_deprecated b ts :
  batch_apply (batch_deprecated_tables ++ b) ts =
  batch_apply b (delete {| t_name := "mullvadmangle6"; t_family := FamIpv6 |}
                (delete {| t_name := "mullvadmangle4"; t_family := FamIpv4 |} ts)).
Proof.
  unfold batch_deprecated_tables. cbn [app]. by rewrite !batch_apply_add_del.
Qed.

(** Adding chains with new names to a table. *)
Lemma batch_apply_chains t cs0 cs ts b :
  NoDup (map (c_name ∘ fst) cs0 ++ map c_name cs) → Forall (λ c, c_table c = t) cs →
  ts !! t = Some cs0 →
  batch_apply (map AddChain cs ++ b) ts =
  batch_apply b (<[t := cs0 ++ map (λ c, (c, [])) cs]> ts).
Proof.
  revert cs0 ts. induction cs as [|c cs IH]; intros cs0 ts Hnd Ht Hts.
  - cbn. by rewrite app_nil_r, insert_id.
  - apply Forall_cons in Ht as [Hc Ht]. cbn [map app batch_apply msg_apply]. rewrite Hc, Hts.
    rewrite decide_False.
    2: { apply NoDup_app in Hnd as (_ & Hd & _). intros Hin. apply (Hd (c_name c)); [done|]. cbn. set_solver. }
    erewrite IH; [|..|by rewrite lookup_insert_eq].
    + by rewrite insert_insert_eq, <- app_assoc.
    + by rewrite map_app, <- app_assoc.
    + done.
Qed.

Definition with_rules (rs : list Rule) (e : Chain * list (list Expr)) : Chain * list (list Expr) :=
  (e.1, e.2 ++ filter_rules e.1 rs).

Lemma with_rules_cons_miss r rs c rules :
  c ≠ r_chain r → with_rules (r :: rs) (c, rules) = with_rules rs (c, rules).
Proof.
  intros Hne. unfold with_rules, filter_rules. cbn. by rewrite bool_decide_eq_false_2 by congruence.
Qed.

Lemma add_rule_spec r rs cs :
  NoDup (map fst cs) → r_chain r ∈ map fst cs →
  ∃ cs', add_rule r cs = Some cs' ∧ map fst cs' = map fst cs ∧
         map (with_rules rs) cs' = map (with_rules (r :: rs)) cs.
Proof.
  induction cs as [|[c rules] cs IH]; intros Hnd Hin; cbn in *; [set_solver|].
  apply NoDup_cons in Hnd as [Hni Hnd]. case_decide as Heq.
  - eexists. split_and!; [done|done|]. cbn. subst c. f_equal.
    + unfold with_rules, filter_rules. cbn. rewrite bool_decide_eq_true_2 by done. cbn.
      by rewrite <- app_assoc.
    + apply map_ext_in. intros [c' rules'] Hin'. symmetry. apply with_rules_cons_miss.
      intros ->. apply Hni, list_elem_of_In, in_map_iff. by exists (r_chain r, rules').
  - destruct IH as (cs' & -> & Hf & Hw); [done|set_solver|].
    eexists. split_and!; [done|cbn; by rewrite Hf|]. cbn. by rewrite Hw, with_rules_cons_miss.
Qed.

(** Adding rules appends to each chain the rules meant for it. *)
Lemma batch_apply_rules t cs rs ts :
  NoDup (map fst cs) → Forall (λ r, r_chain r ∈ map fst cs) rs → Forall (λ c, c_table c = t) (map fst cs) →
  ts !! t = Some cs →
  batch_apply (map AddRule rs) ts = Some (<[t := map (with_rules rs) cs]> ts).
Proof.
  revert cs ts. induction rs as [|r rs IH]; intros cs ts Hnd Hin Ht Hts.
  - cbn. rewrite insert_id; [done|]. rewrite Hts. f_equal. symmetry. rewrite <- (map_id cs) at 2.
    apply map_ext. intros [c rules]. unfold with_rules, filter_rules. cbn. by rewrite app_nil_r.
  - apply Forall_cons in Hin as [Hr Hin]. cbn [map batch_apply msg_apply].
    rewrite (Forall_forall) in Ht. rewrite (Ht _ Hr), Hts.
    destruct (add_rule_spec r rs cs Hnd Hr) as (cs' & -> & Hf & Hw).
    rewrite (IH cs'); [..|by rewrite lookup_insert_eq]; rewrite ?Hf; [|done..|by apply Forall_forall].
    by rewrite Hw, insert_insert_eq.
Qed.

Lemma PolicyBatch_new_distinct : distinct (PolicyBatch_new mullvad_table).
Proof. unfold distinct. apply (bool_decide_unpack _). vm_compute. done. Qed.
Lemma PolicyBatch_new_inet : inet (PolicyBatch_new mullvad_table).
Proof. intros c Hc. unfold all_chains in Hc. set_unfold in Hc. by destruct_or! Hc; subst c. Qed.
#[export] Hint Resolve PolicyBatch_new_distinct PolicyBatch_new_inet : vpn.

(** The contents of the mullvad table after a policy's batch. *)
Definition policy_contents (rs : list Rule) : TableContents :=
  map (with_rules rs) (map (λ c, (c, [])) (all_chains (PolicyBatch_new mullvad_table))).

Definition without_deprecated (ts : Tables) : Tables :=
  delete {| t_name := "mullvadmangle6"; t_family := FamIpv6 |}
    (delete {| t_name := "mullvadmangle4"; t_family := FamIpv4 |} ts).

(** Whatever was installed before, a batch that extends a fresh one takes effect
    and leaves exactly its own rules in the table. *)
Lemma policy_batch_installs pb rs ts :
  batch pb = batch (PolicyBatch_new mullvad_table) ++ map AddRule rs →
  Forall (λ r, r_chain r ∈ all_chains (PolicyBatch_new mullvad_table)) rs →
  batch_apply (batch pb) ts =
  Some (<[mullvad_table := policy_contents rs]> (without_deprecated ts)).
Proof.
  intros Hb Hrs. rewrite Hb.
  change (batch (PolicyBatch_new mullvad_table)) with
    (batch_deprecated_tables ++ AddTable mullvad_table :: DelTable mullvad_table ::
     AddTable mullvad_table :: map AddChain (all_chains (PolicyBatch_new mullvad_table))).
  rewrite <- app_assoc, batch_apply_deprecated. fold (without_deprecated ts).
  cbn [app]. rewrite batch_apply_add_del, batch_apply_fresh by by rewrite lookup_delete_eq.
  rewrite insert_delete_eq.
  erewrite batch_apply_chains; [|..|by rewrite lookup_insert_eq].
  - rewrite insert_insert_eq. cbn [app].
    erewrite batch_apply_rules; [|..|by rewrite lookup_insert_eq].
    + by rewrite insert_insert_eq.
    + exact PolicyBatch_new_distinct.
    + exact Hrs.
    + by repeat constructor.
  - apply (bool_decide_unpack _). vm_compute. done.
  - by repeat constructor.
Qed.

(** ** What a table does to a packet

    A packet passes the hooks of netfilter one after the other: a local packet
    output and postrouting, a packet for the device prerouting and input, a
    forwarded one prerouting, forward and postrouting.  At a hook every base
    chain registered there sees it in order of priority (netfilter's documented
    order), whatever the chain's type; a chain that does not accept it ends its
    way.  A chain of type nat sees the first packet of a connection only. *)

Definition hook_eqb (h h' : Hook) : bool :=
  match h, h' with
  | HookPreRouting, HookPreRouting | HookIn, HookIn | HookForward, HookForward
  | HookOut, HookOut | HookPostRouting, HookPostRouting => true
  | _, _ => false
  end.
Definition hook_is (h : Hook) (c : Chain) : bool :=
  match c_hook c with Some (h', _) => hook_eqb h h' | None => false end.
Definition priority (c : Chain) : Z := match c_hook c with Some (_, n) => n | None => 0 end.

Fixpoint insert_chain (e : Chain * list (list Expr)) (cs : TableContents) : TableContents :=
  match cs with
  | [] => [e]
  | e' :: cs' => if priority e.1 <=? priority e'.1 then e :: cs else e' :: insert_chain e cs'
  end.
Definition hook_chains (h : Hook) (cs : TableContents) : TableContents :=
  foldr insert_chain [] (List.filter (λ e, hook_is h e.1) cs).

Fixpoint pass_chains `{NftRules} (cs : TableContents) (p : Packet) : option Packet :=
  match cs with
  | [] => Some p
  | (c, rules) :: cs =>
      match nft_eval (c_policy c) rules p with
      | (Accept, p') => pass_chains cs p'
      | _ => None
      end
  end.

(** The packet as it leaves the hook, if it does. *)
Definition hook_passes `{NftRules} (cs : TableContents) (h : Hook) (p : Packet) : option Packet :=
  pass_chains (hook_chains h cs) p.
Definition hook_accepts `{NftRules} (cs : TableContents) (h : Hook) (p : Packet) : bool :=
  match hook_passes cs h p with Some _ => true | None => false end.

(** The table lets through exactly what the policy allows, with the marks the
    policy gives it, at each of the five hooks. *)
Definition passes_if (b : bool) (p : Packet) : option Packet := if b then Some p else None.
Definition enforces `{IpNetworkCrate} `{NftRules} (env : LinuxEnv) (mark : Z) (split : bool)
    (policy : FirewallPolicy) (cs : TableContents) : Prop :=
  ∀ p, pk_wf p →
    (let q := marked env mark split policy p in
     hook_passes cs HookOut p = passes_if (out_allowed env mark split policy q) q) ∧
    hook_passes cs HookIn p = passes_if (in_allowed env split policy p) p ∧
    hook_passes cs HookForward p = passes_if (forward_allowed env split policy p) p ∧
    hook_passes cs HookPreRouting p = Some (arrived env mark split policy p) ∧
    hook_passes cs HookPostRouting p = passes_if (nat_allowed env split policy p) p.

Lemma drop_chain_passes `{NftRules} c rs f p :
  pk_wf p → chain_sem c rs f → c_policy c = PolicyDrop →
  pass_chains [(c, filter_rules c rs)] p = passes_if (accepts (f p)) p.
Proof.
  intros Hp [Hi Hf] Hc. cbn [pass_chains]. rewrite Hc, nft_eval_chain_eval, chain_eval_sem, Hf by done.
  cbn. by destruct (f p) as [[]|].
Qed.

Lemma aux_chain_passes `{NftRules} c rs ss cs p :
  pk_wf p → aux_sem c rs ss → c_policy c = PolicyAccept →
  pass_chains ((c, filter_rules c rs) :: cs) p =
  if accepts (Some (default Accept (run_stages ss p).1)) then pass_chains cs (run_stages ss p).2 else None.
Proof.
  intros Hp [Hs Hw] Hc. cbn [pass_chains]. rewrite Hc, nft_eval_chain_eval.
  rewrite (chain_eval_stages _ _ ss) by done. cbn. by destruct (run_stages ss p) as [[[]|] ?].
Qed.

Lemma marked_wf `{IpNetworkCrate} env mark split policy p :
  u32_range mark → pk_wf p → pk_wf (marked env mark split policy p).
Proof. intros Hm Hp. unfold marked. repeat case_match; [done|by apply pk_wf_marks|done]. Qed.

Lemma extends_enforces `{IpNetworkCrate} `{NftRules} env mark split policy pb' :
  u32_range mark →
  extends (PolicyBatch_new mullvad_table) pb' (F_policy env mark split policy) →
  ∃ cs, (∀ ts, batch_apply (batch pb') ts =
               Some (<[mullvad_table := cs]> (without_deprecated ts))) ∧
        enforces env mark split policy cs.
Proof.
  intros Hm (rs & Hb & _ & Hin & Ho & Hi & Hf & Ha). exists (policy_contents rs). split.
  - intros ts. by apply policy_batch_installs.
  - intros p Hp. cbv zeta. rewrite <- policy_out_spec, <- (policy_in_spec env mark), <- (policy_fwd_spec env mark).
    split_and!.
    + etransitivity; [exact (aux_chain_passes _ _ _ [_] _ Hp (Ha Mangle) eq_refl)|].
      rewrite policy_mangle. cbn [fst snd].
      replace (accepts _) with true by by destruct (split && _).
      apply (drop_chain_passes _ _ _ _ (marked_wf _ _ _ _ _ Hm Hp) Ho eq_refl).
    + exact (drop_chain_passes _ _ _ _ Hp Hi eq_refl).
    + exact (drop_chain_passes _ _ _ _ Hp Hf eq_refl).
    + etransitivity; [exact (aux_chain_passes _ _ _ [] _ Hp (Ha Prerouting) eq_refl)|].
      by rewrite policy_prerouting.
    + etransitivity; [exact (aux_chain_passes _ _ _ [] _ Hp (Ha Nat) eq_refl)|].
      destruct (policy_nat env mark split policy p) as [-> ->]. done.
Qed.

(** ** When a batch can be built *)

(** The tunnel interface whose index a policy needs. *)
Definition needed_interface (policy : FirewallPolicy) : option string :=
  match policy with
  | Connecting _ (Some t) _ _ allowed =>
      match allowed with TrafficNone => None | _ => Some (interface t) end
  | Connected _ t _ _ => Some (interface t)
  | _ => None
  end.

Lemma is_ok_bind {E A B} (m : result E A) (f : A → result E B) (b : bool) :
  (∀ a, m = Ok a → is_ok (f a) = b) → is_ok (m ≫= f) = is_ok m && b.
Proof. destruct m; cbn; [intros Hf; by rewrite (Hf a)|done]. Qed.

Lemma is_ok_bind_true {E A B} (m : result E A) (f : A → result E B) :
  is_ok m = true → (∀ a, is_ok (f a) = true) → is_ok (m ≫= f) = true.
Proof. destruct m; cbn; auto. Qed.

Lemma is_ok_try_fold {E A B} (f : B → A → result E B) l b :
  (∀ b a, is_ok (f b a) = true) → is_ok (try_fold f l b) = true.
Proof.
  intros Hf. revert b. induction l as [|a l IH]; intros b; cbn [try_fold]; [done|].
  rewrite (is_ok_bind _ _ true), Hf; [done|]. intros b' _. apply IH.
Qed.

Section Totality.
Context `{IpNetworkCrate} (env : LinuxEnv).

Lemma lookup_iface_ok iface : is_ok (lookup_iface env iface) = is_ok (iface_index env iface).
Proof. unfold lookup_iface. by destruct (iface_index env iface). Qed.

Lemma check_iface_ok r d iface : is_ok (check_iface env r d iface) = is_ok (iface_index env iface).
Proof.
  unfold check_iface. rewrite (is_ok_bind _ _ true) by done. by rewrite lookup_iface_ok, andb_true_r.
Qed.
Lemma check_not_iface_ok r d iface : is_ok (check_not_iface env r d iface) = is_ok (iface_index env iface).
Proof.
  unfold check_not_iface. rewrite (is_ok_bind _ _ true) by done. by rewrite lookup_iface_ok, andb_true_r.
Qed.
Lemma allow_interface_rule_ok c d iface :
  is_ok (allow_interface_rule env c d iface) = is_ok (iface_index env iface).
Proof.
  unfold allow_interface_rule. rewrite (is_ok_bind _ _ true) by done.
  by rewrite check_iface_ok, andb_true_r.
Qed.
Lemma allow_tunnel_dns_rule_ok c iface pr host :
  is_ok (allow_tunnel_dns_rule env c iface pr host) = is_ok (iface_index env iface).
Proof.
  unfold allow_tunnel_dns_rule. rewrite (is_ok_bind _ _ true) by done.
  by rewrite check_iface_ok, andb_true_r.
Qed.

(** Steps through binds whose computations succeed when the interface exists. *)
Ltac ok_steps :=
  repeat (apply is_ok_bind_true;
          [rewrite ?allow_interface_rule_ok, ?allow_tunnel_dns_rule_ok, ?check_iface_ok,
             ?check_not_iface_ok; try assumption|intros; cbv zeta beta]); try done.

Lemma add_loopback_rules_ok pb : is_ok (add_loopback_rules env pb) = is_ok (iface_index env "lo").
Proof.
  unfold add_loopback_rules. rewrite (is_ok_bind _ _ (is_ok (iface_index env "lo"))).
  - rewrite allow_interface_rule_ok. apply andb_diag.
  - intros r _. cbv zeta. rewrite (is_ok_bind _ _ true) by done.
    by rewrite allow_interface_rule_ok, andb_true_r.
Qed.

Lemma mount_ok :
  is_ok (map_err (λ _, FindNetClsMount) (cgroup.find_net_cls_mount (proc_mounts env))) =
  is_ok (proc_mounts env).
Proof. by destruct (proc_mounts env). Qed.

Definition interface_ok (policy : FirewallPolicy) : bool :=
  match needed_interface policy with
  | Some iface => is_ok (iface_index env iface)
  | None => true
  end.

Lemma add_split_tunneling_rules_ok pb policy mark :
  is_ok (iface_index env "lo") = true → interface_ok policy = true →
  is_ok (add_split_tunneling_rules env pb policy mark) = true.
Proof.
  intros Hlo Ht. unfold add_split_tunneling_rules.
  destruct policy as [| peers t lan dns |]; ok_steps; cbn in Ht.
  apply is_ok_try_fold. intros pb' s. ok_steps.
Qed.

Lemma add_allow_tunnel_dns_rule_ok pb iface pr host :
  is_ok (iface_index env iface) = true → is_ok (add_allow_tunnel_dns_rule env pb iface pr host) = true.
Proof. intros Hi. apply is_ok_try_fold. intros pb' c. ok_steps. Qed.
Lemma add_allow_local_dns_rule_ok pb iface pr host :
  is_ok (iface_index env iface) = true → is_ok (add_allow_local_dns_rule env pb iface pr host) = true.
Proof. intros Hi. apply is_ok_try_fold. intros pb' [c d]. ok_steps. Qed.
Lemma add_allow_tunnel_rules_ok pb iface :
  is_ok (add_allow_tunnel_rules env pb iface) = is_ok (iface_index env iface).
Proof.
  unfold add_allow_tunnel_rules. destruct (is_ok (iface_index env iface)) eqn:E; [ok_steps|].
  rewrite (is_ok_bind _ _ false); [by rewrite andb_false_r|]. intros r Hr.
  pose proof (allow_interface_rule_ok (out_chain pb) DirOut iface) as X. by rewrite Hr, E in X.
Qed.
Lemma add_allow_in_tunnel_endpoint_rules_ok pb iface ep :
  is_ok (add_allow_in_tunnel_endpoint_rules env pb iface ep) = is_ok (iface_index env iface).
Proof.
  unfold add_allow_in_tunnel_endpoint_rules. destruct (is_ok (iface_index env iface)) eqn:E.
  - apply is_ok_try_fold. intros pb' [[c d] e]. ok_steps.
  - cbn [try_fold]. rewrite (is_ok_bind _ _ false); [by rewrite andb_false_r|].
    intros pb' (r & Hr & _)%result_bind_ok.
    pose proof (check_iface_ok (Rule_new (out_chain pb)) DirOut iface) as X. by rewrite Hr, E in X.
Qed.

Lemma add_policy_specific_rules_ok pb policy mark :
  is_ok (add_policy_specific_rules env pb policy mark) = interface_ok policy.
Proof.
  unfold add_policy_specific_rules. rewrite (is_ok_bind _ _ true); [rewrite andb_true_r|by intros []].
  destruct policy as [peers [t|] lan ep allowed|peers t lan dns|lan ep]; cbn [interface_ok needed_interface]; try done.
  - rewrite (is_ok_bind _ _ true) by done. rewrite andb_true_r.
    rewrite (is_ok_bind _ _ true) by done. rewrite andb_true_r.
    destruct allowed; [done|by rewrite add_allow_tunnel_rules_ok
                      |by rewrite add_allow_in_tunnel_endpoint_rules_ok|].
    rewrite (is_ok_bind _ _ (is_ok (iface_index env (interface t)))).
    + rewrite add_allow_in_tunnel_endpoint_rules_ok. apply andb_diag.
    + intros. apply add_allow_in_tunnel_endpoint_rules_ok.
  - unfold interface_ok, needed_interface. destruct (is_ok (iface_index env (interface t))) eqn:E.
    + apply is_ok_bind_true; [apply is_ok_try_fold; intros; apply is_ok_bind_true;
        intros; by apply add_allow_tunnel_dns_rule_ok|]. intros pb1.
      apply is_ok_bind_true; [apply is_ok_try_fold; intros; apply is_ok_bind_true;
        intros; by apply add_allow_local_dns_rule_ok|]. intros pb2.
      apply is_ok_bind_true; [by rewrite add_allow_tunnel_rules_ok|done].
    + rewrite (is_ok_bind _ _ false); [apply andb_false_r|]. intros pb1 _.
      rewrite (is_ok_bind _ _ false); [apply andb_false_r|]. intros pb2 _. cbv zeta.
      rewrite (is_ok_bind _ _ true) by done. by rewrite add_allow_tunnel_rules_ok, E.
Qed.
End Totality.

(** Building a batch never reports a missing table. *)
Definition build_error (e : Error) : Prop := e ≠ NetfilterTableNotSetError.

Lemma bind_err {E A B} (m : result E A) (f : A → result E B) (P : E → Prop) :
  (∀ e, m = Err e → P e) → (∀ a e, f a = Err e → P e) → ∀ e, (m ≫= f) = Err e → P e.
Proof. intros Hm Hf e. destruct m; cbn; [apply Hf|]. intros [= <-]. by apply Hm. Qed.

Lemma try_fold_err {E A B} (f : B → A → result E B) (P : E → Prop) l b :
  (∀ b a e, f b a = Err e → P e) → ∀ e, try_fold f l b = Err e → P e.
Proof.
  intros Hf. revert b. induction l as [|a l IH]; intros b e; cbn [try_fold]; [done|].
  apply bind_err; [apply Hf|]. intros b'. apply IH.
Qed.

Section BuildErrors.
Context `{IpNetworkCrate} (env : LinuxEnv).

Lemma lookup_iface_err iface e : lookup_iface env iface = Err e → build_error e.
Proof. unfold lookup_iface. destruct (iface_index env iface); cbn; [done|by intros [= <-]]. Qed.

(** Errors of a composed computation are those of its interface look-ups. *)
Ltac errs :=
  lazymatch goal with
  | |- ∀ e, (_ ≫= _) = Err e → _ => apply bind_err; [errs|intros ?; cbv zeta beta; errs]
  | |- ∀ e, try_fold _ _ _ = Err e → _ => apply try_fold_err; intros ? ?; cbv beta zeta; errs
  | |- ∀ e, lookup_iface _ _ = Err e → _ => intros ?; apply lookup_iface_err
  | |- ∀ e, (let '(_, _) := ?x in _) = Err e → _ => destruct x; errs
  | |- ∀ e, match ?x with _ => _ end = Err e → _ => destruct x; errs
  | |- ∀ e, Ok _ = Err e → _ => done
  | _ => unfold check_iface, check_not_iface, allow_interface_rule, allow_tunnel_dns_rule; errs_leaf
  end
with errs_leaf :=
  lazymatch goal with
  | |- ∀ e, (_ ≫= _) = Err e → _ => errs
  | _ => idtac
  end.

Lemma finalize_err pb policy mark e : finalize env pb policy mark = Err e → build_error e.
Proof.
  revert e. unfold finalize. apply bind_err; [unfold add_loopback_rules; errs|]. intros pb1.
  apply bind_err; [by unfold cgroup.find_net_cls_mount; destruct (proc_mounts env) as [|err]; cbn; [|intros e [= <-]]|].
  intros mount. apply bind_err.
  { destruct mount; [unfold add_split_tunneling_rules; errs|done]. }
  intros pb2. cbv zeta. apply bind_err; [|done]. unfold add_policy_specific_rules.
  unfold add_allow_tunnel_rules, add_allow_in_tunnel_endpoint_rules, add_allow_tunnel_dns_rule,
    add_allow_local_dns_rule. errs.
Qed.
End BuildErrors.

(** ** The theorems of the firewall *)

Section Theorems.
Context `{IpNetworkCrate} `{NftRules}.

(** A policy's batch can be built exactly when the mount table is readable
    and the loopback interface and the tunnel interface the policy lets traffic
    into exist; no other input makes [finalize] fail. *)
Theorem finalize_total (env : LinuxEnv) (pb : PolicyBatch) (policy : FirewallPolicy) (mark : Z) :
  is_ok (finalize env pb policy mark) =
  is_ok (iface_index env "lo") && is_ok (proc_mounts env) && interface_ok env policy.
Proof.
  unfold finalize.
  destruct (is_ok (iface_index env "lo")) eqn:Hlo; cbn [andb].
  2: { rewrite (is_ok_bind _ _ false); [apply andb_false_r|]. intros pb1 E.
       pose proof (add_loopback_rules_ok env pb) as X. by rewrite E, Hlo in X. }
  rewrite (is_ok_bind _ _ (is_ok (proc_mounts env) && interface_ok env policy)).
  { by rewrite add_loopback_rules_ok, Hlo. }
  intros pb1 _. rewrite (is_ok_bind _ _ (interface_ok env policy)); [by rewrite mount_ok|].
  intros mount _. rewrite (is_ok_bind _ _ (interface_ok env policy)).
  - destruct mount; [|done]. destruct (interface_ok env policy) eqn:Hi; [|apply andb_false_r].
    by rewrite add_split_tunneling_rules_ok.
  - intros pb2 _. cbv zeta. rewrite (is_ok_bind _ _ true) by done.
    by rewrite add_policy_specific_rules_ok, andb_true_r.
Qed.

Lemma finalize_enforces (env : LinuxEnv) (policy : FirewallPolicy) (mark : Z) (b : Batch) :
  env_wf env → u32_range mark → policy_wf policy →
  finalize env (PolicyBatch_new mullvad_table) policy mark = Ok b →
  ∃ cs, (∀ ts, batch_apply b ts = Some (<[mullvad_table := cs]> (without_deprecated ts))) ∧
        enforces env mark (split_available env) policy cs.
Proof.
  intros He Hm Hw Hf.
  destruct (finalize_ext env He _ _ _ _ PolicyBatch_new_distinct PolicyBatch_new_inet Hm Hw Hf)
    as (pb' & -> & Hx).
  by apply extends_enforces.
Qed.

(** C1: The table a policy installs does exactly what the policy's specification
    says at each of the five hooks, all its base chains (filter, route and nat)
    taken together: output lets through exactly the packets that, once marked,
    the policy allows to leave, and marks exactly the packets of excluded
    processes and those to a peer every process may reach; input and forward let
    through exactly what may enter and be forwarded, unchanged; prerouting drops
    nothing and marks exactly the answers of the peers and of excluded
    processes; the nat chain drops exactly the connections of excluded processes
    that would go into the tunnel.  This holds whatever was installed before;
    the batch always applies, and apart from the two deprecated tables no other
    table changes.  Forwarding is specified as the code does it, which is
    narrower than docs/security.md (a finding), and packets have fields in the
    ranges of the kernel's types. *)
Theorem finalize_refines_policy (env : LinuxEnv) (policy : FirewallPolicy) (mark : Z) (b : Batch) :
  env_wf env → u32_range mark → policy_wf policy →
  finalize env (PolicyBatch_new mullvad_table) policy mark = Ok b →
  ∃ cs, (∀ ts, batch_apply b ts = Some (<[mullvad_table := cs]> (without_deprecated ts))) ∧
        enforces env mark (split_available env) policy cs.
Proof. apply finalize_enforces. Qed.
End Theorems.

(** ** Confinement of public traffic *)

Section Confinement.
Context `{IpNetworkCrate}.

Lemma m_net_of_ip e net ip p : m_ip e ip p = true → net_contains net ip = true → m_net e net p = true.
Proof. unfold m_ip, m_net. rewrite bool_decide_eq_true. by intros ->. Qed.

(** A network within another one. *)
Lemma net_contains_sub a q b r x :
  0 ≤ r ≤ q → q ≤ 128 →
  Z.land (ipv6_mask q) (ipv6_mask r) = ipv6_mask r →
  Z.land a (ipv6_mask r) = Z.land b (ipv6_mask r) →
  net_contains (NetV6 a q) x = true → net_contains (NetV6 b r) x = true.
Proof.
  intros Hr Hq Hm Hab. rewrite !net_contains_spec. destruct x as [|x]; [done|].
  rewrite !Z.eqb_eq. intros E. rewrite <- Hab, <- Hm, !Z.land_assoc. congruence.
Qed.

Lemma in_lan_dst net p :
  net ∈ ALLOWED_LAN_NETS ++ ALLOWED_LAN_MULTICAST_NETS → m_net Dst net p = true → lan_dst p = true.
Proof. intros Hin Hm. apply existsb_exists. exists net. split; [by apply list_elem_of_In|done]. Qed.

Lemma dst_in_lan net ip p :
  net ∈ ALLOWED_LAN_NETS ++ ALLOWED_LAN_MULTICAST_NETS → net_contains net ip = true →
  m_ip Dst ip p = true → lan_dst p = true.
Proof. intros Hin Hc Hm. eapply in_lan_dst; [done|]. by eapply m_net_of_ip. Qed.

Ltac in_concrete_net :=
  rewrite net_contains_spec, ?ipv4_mask_spec, ?ipv6_mask_spec by lia; vm_compute; reflexivity.
Ltac lan_member := unfold ALLOWED_LAN_NETS, ALLOWED_LAN_MULTICAST_NETS; set_solver.

Lemma dhcp_out_local p : dhcp_out p = true → lan_dst p = true.
Proof.
  unfold dhcp_out, dhcpv4_request. cbn [existsb DHCPV6_SERVER_ADDRS]. unfold dhcpv6_request.
  rewrite !orb_true_iff, !andb_true_iff.
  intros [[[_ Hip] _]|[[[_ Hip] _]|[[[_ Hip] _]|?]]]; [..|done].
  - eapply (dst_in_lan (NetV4 (Ipv4Addr_new 255 255 255 255) 32)); [lan_member| |done]. in_concrete_net.
  - eapply (dst_in_lan (NetV6 (Ipv6Addr_new 0xff02 0 0 0 0 0 0 0) 16)); [lan_member| |done]. in_concrete_net.
  - eapply (dst_in_lan (NetV6 (Ipv6Addr_new 0xff05 0 0 0 0 0 0 0) 16)); [lan_member| |done]. in_concrete_net.
Qed.

Lemma ndp_out_local p : ndp_out p = true → lan_dst p = true.
Proof.
  unfold ndp_out, router_solicitation, to_solicited_node, to_link_local.
  rewrite !orb_true_iff, !andb_true_iff. intros [[[[Hip _]|[Hn _]]|[Hn _]]|[Hn _]].
  - eapply (dst_in_lan (NetV6 (Ipv6Addr_new 0xff02 0 0 0 0 0 0 0) 16)); [lan_member| |done]. in_concrete_net.
  - eapply (in_lan_dst (NetV6 (Ipv6Addr_new 0xff02 0 0 0 0 0 0 0) 16)); [lan_member|].
    unfold m_net in *. destruct (pk_ip Dst p) as [x|]; [|done].
    eapply net_contains_sub; [..|exact Hn]; [lia|lia|..];
      rewrite ?ipv6_mask_spec by lia; vm_compute; reflexivity.
  - eapply in_lan_dst; [|exact Hn]. lan_member.
  - eapply in_lan_dst; [|exact Hn]. lan_member.
Qed.

(** A DHCP or NDP packet is not a DNS request. *)
Lemma m_port_other pr e n pr' n' p :
  m_port pr e n p = true → m_port pr' e n' p = true → pr = pr' ∧ n = n'.
Proof.
  unfold m_port, pk_port. rewrite !bool_decide_eq_true.
  destruct (Z.eqb_spec (pk_l4proto p) (l4proto pr)) as [E|]; [|done].
  destruct (Z.eqb_spec (pk_l4proto p) (l4proto pr')) as [E'|]; [|done].
  intros -> [= ->]. split; [|done]. rewrite E in E'. by destruct pr, pr'.
Qed.

Lemma dns_request_port pr n p :
  m_port pr Dst n p = true → n ≠ 53 → dns_request p = false.
Proof.
  intros Hp Hn. unfold dns_request. apply orb_false_iff.
  split; apply not_true_iff_false; intros Hd; destruct (m_port_other _ _ _ _ _ _ Hp Hd); congruence.
Qed.

Lemma dhcp_out_not_dns p : dhcp_out p = true → dns_request p = false.
Proof.
  unfold dhcp_out, dhcpv4_request. cbn [existsb DHCPV6_SERVER_ADDRS]. unfold dhcpv6_request.
  rewrite !orb_true_iff, !andb_true_iff.
  intros [[_ Hp]|[[_ Hp]|[[_ Hp]|?]]]; [eapply dns_request_port; [exact Hp|done]..|done].
Qed.

Lemma icmpv6_not_dns type code p : m_icmpv6 type code p = true → dns_request p = false.
Proof.
  unfold m_icmpv6, pk_icmpv6, dns_request, m_port, pk_port. rewrite bool_decide_eq_true.
  destruct (Z.eqb_spec (pk_l4proto p) IPPROTO_ICMPV6) as [->|]; done.
Qed.

Lemma ndp_out_not_dns p : ndp_out p = true → dns_request p = false.
Proof.
  unfold ndp_out, router_solicitation, to_solicited_node, to_link_local.
  rewrite !orb_true_iff, !andb_true_iff.
  intros [[[[_ Hi]|[_ Hi]]|[_ Hi]]|[_ Hi]]; by eapply icmpv6_not_dns.
Qed.
End Confinement.

Section Leaks.
Context `{IpNetworkCrate} `{NftRules}.

(** The packets that may leave for a public address in the state of a policy:
    to the first hop with the mark of the daemon, to the API as a permitted
    client, to a configured DNS server, and through the tunnel. *)
Definition public_exit (env : LinuxEnv) (mark : Z) (policy : FirewallPolicy) (p : Packet) : bool :=
  match policy with
  | Connecting peers tunnel _ ep allowed =>
      peers_out mark peers p || api_out ep p ||
      (negb (dns_request p) && opt_traffic (traffic_out env) tunnel allowed p)
  | Connected peers tunnel _ dns =>
      peers_out mark peers p || dns_out env tunnel dns p ||
      (negb (dns_request p) && in_tunnel env tunnel DirOut p)
  | Blocked _ ep => match ep with Some ep => api_out ep p | None => false end
  end.

Lemma enforces_out (env : LinuxEnv) (mark : Z) (split : bool) (policy : FirewallPolicy)
    (cs : TableContents) (p0 p : Packet) :
  enforces env mark split policy cs → pk_wf p0 → hook_passes cs HookOut p0 = Some p →
  out_allowed env mark split policy p = true.
Proof.
  intros He Hp Hacc. destruct (He p0 Hp) as [E _]. cbv zeta in E. rewrite E in Hacc.
  unfold passes_if in Hacc. by destruct (out_allowed _ _ _ _ _) eqn:?; simplify_eq.
Qed.

Lemma public_confined (env : LinuxEnv) (mark : Z) (split : bool) (policy : FirewallPolicy)
    (cs : TableContents) (p0 p : Packet) :
  enforces env mark split policy cs → pk_wf p0 → hook_passes cs HookOut p0 = Some p →
  lan_dst p = false → m_iface DirOut (ifindex env "lo") p = false → split && m_ct_mark p = false →
  dhcpv4_server_response p = false →
  public_exit env mark policy p = true.
Proof.
  intros He Hp Hacc Hlan Hlo Hsplit Hdhcp. apply (enforces_out _ _ _ _ _ _ _ He Hp) in Hacc.
  assert (dhcp_out p = false) as Hd by (apply not_true_iff_false; intros ?%dhcp_out_local; congruence).
  assert (ndp_out p = false) as Hn by (apply not_true_iff_false; intros ?%ndp_out_local; congruence).
  unfold out_allowed, always_out, lan_out in Hacc. rewrite Hlo, Hsplit, Hd, Hn, Hlan, Hdhcp in Hacc.
  destruct policy; cbn [orb public_exit] in *; by rewrite ?andb_false_r, ?orb_false_r in Hacc.
Qed.

(** While a policy is in force, whatever the "allow LAN" setting, a packet for
    a public address that passes the output hook and is neither on the loopback interface nor excluded by
    split tunnelling nor a DHCP server reply leaves only to the first hop with
    the daemon's mark, to the API as a permitted client, to a configured DNS
    server or through the tunnel. *)
Theorem public_traffic_confined (env : LinuxEnv) (mark : Z) (split : bool) (policy : FirewallPolicy)
    (cs : TableContents) (p0 p : Packet) :
  enforces env mark split policy cs → pk_wf p0 → hook_passes cs HookOut p0 = Some p →
  lan_dst p = false → m_iface DirOut (ifindex env "lo") p = false → split && m_ct_mark p = false →
  dhcpv4_server_response p = false →
  public_exit env mark policy p = true.
Proof. apply public_confined. Qed.

(** While a policy is in force, a DNS request that leaves outside the loopback
    interface and split tunnelling goes to the first hop with the daemon's mark,
    to the API endpoint as a permitted client, or, once connected, to one of the
    configured DNS servers; "allow LAN" does not permit DNS on the local
    network, nor does the tunnel permit it to other servers. *)
Theorem dns_requests_confined (env : LinuxEnv) (mark : Z) (split : bool) (policy : FirewallPolicy)
    (cs : TableContents) (p0 p : Packet) :
  enforces env mark split policy cs → pk_wf p0 → hook_passes cs HookOut p0 = Some p →
  dns_request p = true → m_iface DirOut (ifindex env "lo") p = false → split && m_ct_mark p = false →
  match policy with
  | Connecting peers _ _ ep _ => peers_out mark peers p || api_out ep p
  | Connected peers tunnel _ dns => peers_out mark peers p || dns_out env tunnel dns p
  | Blocked _ ep => match ep with Some ep => api_out ep p | None => false end
  end = true.
Proof.
  intros He Hp Hacc Hdns Hlo Hsplit. apply (enforces_out _ _ _ _ _ _ _ He Hp) in Hacc.
  assert (dhcp_out p = false) as Hd by (apply not_true_iff_false; intros ?%dhcp_out_not_dns; congruence).
  assert (ndp_out p = false) as Hn by (apply not_true_iff_false; intros ?%ndp_out_not_dns; congruence).
  unfold out_allowed, always_out in Hacc. rewrite Hlo, Hsplit, Hd, Hn, Hdns in Hacc.
  destruct policy; cbn [orb negb andb] in Hacc; by rewrite orb_false_r in Hacc.
Qed.
End Leaks.

(** ** Applying and resetting on a host *)

Lemma without_deprecated_mullvad ts : without_deprecated ts !! mullvad_table = ts !! mullvad_table.
Proof. unfold without_deprecated. by rewrite !lookup_delete_ne. Qed.

Section Host.
Context `{IpNetworkCrate} `{NftRules} {kernel : Type} `{LinuxHost kernel}.

Lemma apply_kernel_config_installed policy k : installed (apply_kernel_config policy k) = installed k.
Proof.
  assert (∀ k, installed (lock_down_arp_ignore_sysctl k).2 = installed k) as Harp.
  { intros k0. unfold lock_down_arp_ignore_sysctl. destruct (read_sysctl ArpIgnore k0); [|done].
    case_decide; [apply write_sysctl_installed|done]. }
  unfold apply_kernel_config, set_src_valid_mark_sysctl.
  destruct dont_set_src_valid_mark, dont_set_arp_ignore, policy;
    rewrite ?Harp, ?write_sysctl_installed; done.
Qed.

Lemma verify_tables_err k e :
  is_Some (installed k !! mullvad_table) → verify_tables [TABLE_NAME] k = Err e → e = NetlinkError.
Proof.
  intros Ht. unfold verify_tables. destruct (list_tables k) as [names|] eqn:El; [|congruence].
  cbn. rewrite bool_decide_eq_true_2; [done|]. exact (list_tables_ok _ _ _ El Ht).
Qed.

(** The tables hold the policy, as built from the host's state at [k0]. *)
Definition holds_policy (fw : Firewall) (policy : FirewallPolicy) (k0 : kernel) (ts ts' : Tables) : Prop :=
  ∃ cs, ts' = <[mullvad_table := cs]> (without_deprecated ts) ∧
        enforces (host_env k0) (fwmark fw) (split_available (host_env k0)) policy cs.

(** How applying a policy ends.  The ranges of the policy matter only for what
    the new table means. *)
Lemma apply_policy_outcome (fw : Firewall) (policy : FirewallPolicy) (k k' : kernel)
    (r : result Error unit) :
  u32_range (fwmark fw) → apply_policy fw policy k = (r, k') →
  let held := policy_wf policy → holds_policy fw policy k (installed k) (installed k') in
  match r with
  | Ok _ => held
  | Err _ => installed k' = installed k ∨ held
  end.
Proof.
  intros Hm. unfold apply_policy. destruct (finalize _ _ _ _) as [b|e] eqn:Hf.
  2: { intros [= <- <-]. by left. }
  assert (∀ ts', batch_apply b (installed k) = Some ts' →
            policy_wf policy → holds_policy fw policy k (installed k) ts') as Hb.
  { intros ts' Hts Hw. eapply finalize_enforces in Hf as (cs & Ha & He);
      [|intros ? ?; apply host_iface_range|done..]. rewrite Ha in Hts. exists cs. naive_solver. }
  destruct (send_batch b k) as [[[]|[]] k1] eqn:Hs.
  - apply send_batch_ok in Hs. intros [= <- <-]. rewrite apply_kernel_config_installed.
    destruct (verify_tables _ _) as [|e]; [|right]; by apply Hb.
  - intros [= <- <-]. apply send_batch_err in Hs as [?|Hx]; [by left|]. right. by apply Hb.
Qed.

(** The table is there once its batch has been acknowledged, so under the laws
    the check of the tables finds it. *)
Lemma apply_policy_error (fw : Firewall) (policy : FirewallPolicy) (k k' : kernel) (e : Error) :
  u32_range (fwmark fw) → policy_wf policy → apply_policy fw policy k = (Err e, k') →
  e ≠ NetfilterTableNotSetError.
Proof.
  intros Hm Hw. unfold apply_policy. destruct (finalize _ _ _ _) as [b|e'] eqn:Hf.
  2: { intros [= <- <-] ->. by eapply finalize_err. }
  eapply finalize_enforces in Hf as (cs & Ha & _); [|intros ? ?; apply host_iface_range|done..].
  destruct (send_batch b k) as [[[]|[]] k1] eqn:Hs; [|by intros [= <- <-]].
  apply send_batch_ok in Hs. rewrite Ha in Hs. injection Hs as Hs. intros [= Hv <-].
  apply verify_tables_err in Hv; [by subst|]. rewrite apply_kernel_config_installed, <- Hs.
  by rewrite lookup_insert_eq.
Qed.

(** C9: [Firewall::apply_policy] is atomic: when it succeeds the installed table
    does at each hook, with all its base chains, exactly what the specification
    of the policy says (as for [finalize]), and when it fails the tables are
    either untouched or already hold the policy, so no intermediate rule set is
    ever active.  This rests on the documented laws of nftables that a batch takes
    effect as a whole or not at all and that a batch that is acknowledged took
    effect; a host that acknowledges a batch and ignores it, for which the source
    has its check of the tables, is outside them. *)
Theorem apply_policy_atomic (fw : Firewall) (policy : FirewallPolicy) (k k' : kernel)
    (r : result Error unit) :
  u32_range (fwmark fw) → policy_wf policy → apply_policy fw policy k = (r, k') →
  match r with
  | Ok _ => holds_policy fw policy k (installed k) (installed k')
  | Err _ => installed k' = installed k ∨ holds_policy fw policy k (installed k) (installed k')
  end.
Proof.
  intros Hm Hw Ha. pose proof (apply_policy_outcome _ _ _ _ _ Hm Ha) as Ho. cbn in Ho.
  destruct r; [auto|]. destruct Ho; auto.
Qed.

Lemma reset_policy_outcome (fw : Firewall) (k k' : kernel) (r : result Error unit) :
  reset_policy fw k = (r, k') →
  let gone := installed k' = without_deprecated (delete mullvad_table (installed k)) in
  match r with
  | Ok _ => gone
  | Err e => e = NetlinkError ∧ (installed k' = installed k ∨ gone)
  end.
Proof.
  assert (batch_apply reset_policy_batch (installed k) =
          Some (without_deprecated (delete mullvad_table (installed k)))) as Hb.
  { unfold reset_policy_batch. cbn [app]. rewrite batch_apply_add_del.
    rewrite <- (app_nil_r batch_deprecated_tables). by rewrite batch_apply_deprecated. }
  unfold reset_policy. destruct (send_batch _ _) as [[[]|[]] k1] eqn:Hs; intros [= <- <-]; cbn.
  - apply send_batch_ok in Hs. congruence.
  - split; [done|]. apply send_batch_err in Hs as [?|?]; [by left|right; congruence].
Qed.

(** [Firewall::reset_policy] removes the firewall's table and nothing else but
    the deprecated tables; when it fails nothing changed or all of it did. *)
Theorem reset_policy_atomic (fw : Firewall) (k k' : kernel) (r : result Error unit) :
  reset_policy fw k = (r, k') →
  let gone := installed k' = without_deprecated (delete mullvad_table (installed k)) in
  match r with
  | Ok _ => gone
  | Err e => e = NetlinkError ∧ (installed k' = installed k ∨ gone)
  end.
Proof. apply reset_policy_outcome. Qed.
End Host.

(** ** A connected device

    The tunnel `wg0` to the relay 185.213.154.68:51820/UDP is up, with
    10.64.0.1 as DNS server. *)
Module Example.
Definition mark : Z := 0x6d6f6c65.
Definition relay : Endpoint := Endpoint_new (AddrV4 (Ipv4Addr_new 185 213 154 68)) 51820 Udp.
Definition tunnel : TunnelMetadata := {|
  interface := "wg0"; ips := [AddrV4 (Ipv4Addr_new 10 68 1 2)];
  ipv4_gateway := Ipv4Addr_new 10 64 0 1; ipv6_gateway := None |}.
Definition dns : ResolvedDnsConfig := {|
  tunnel_config := [AddrV4 (Ipv4Addr_new 10 64 0 1)]; non_tunnel_config := [] |}.
Definition connected : FirewallPolicy :=
  Connected [{| endpoint := relay; clients := Root |}] tunnel true dns.

Definition batch_of (r : result Error Batch) : Batch := match r with Ok b => b | Err _ => [] end.
Definition connected_batch : Batch :=
  batch_of (finalize model_env (PolicyBatch_new mullvad_table) connected mark).
Definition contents : TableContents :=
  match batch_apply connected_batch ∅ with
  | Some ts => default [] (ts !! mullvad_table)
  | None => []
  end.

(** A packet with IPv4 addresses and UDP ports. *)
Definition udp (oif mark src dst sport dport : Z) : Packet := {|
  pk_iif := 0; pk_oif := oif; pk_nfproto := NFPROTO_IPV4; pk_l4proto := IPPROTO_UDP;
  pk_mark := mark; pk_skuid := Some 1000; pk_cgroup := 0; pk_ct_state := 0; pk_ct_mark := 0;
  pk_network_header := repeat 0 12 ++ be_bytes 4 src ++ be_bytes 4 dst;
  pk_transport_header := be_bytes 2 sport ++ be_bytes 2 dport ++ [0; 0; 0; 0] |}.
Definition web : Packet :=
  udp 7 0 (Ipv4Addr_new 10 68 1 2) (Ipv4Addr_new 93 184 216 34) 40000 443.
Definition dns_query : Packet :=
  udp 7 0 (Ipv4Addr_new 10 68 1 2) (Ipv4Addr_new 10 64 0 1) 40000 53.

Ltac range := split; [apply Z.leb_le|apply Z.ltb_lt]; vm_compute; reflexivity.

Lemma model_env_wf : env_wf model_env.
Proof. intros iface i. cbn. repeat case_decide; intros [= <-]; range. Qed.
Lemma mark_range : u32_range mark.
Proof. range. Qed.
Lemma connected_wf : policy_wf connected.
Proof.
  unfold policy_wf, connected. cbn.
  split_and!; repeat (apply Forall_cons_2 || apply Forall_nil_2); first [range|split; range].
Qed.

Lemma udp_wf oif m src dst sport dport :
  u32_range oif → u32_range m → pk_wf (udp oif m src dst sport dport).
Proof.
  assert (∀ n z, Forall u8_range (be_bytes n z)) as Hb
    by (intros; unfold be_bytes; apply Forall_rev, le_bytes_range).
  intros Ho Hm.
  split; [range|exact Ho|range|range|exact Hm|intros uid [= <-]; range|range|range|range|..].
  - apply Forall_app_2; [|apply Forall_app_2; apply Hb].
    apply Forall_forall. intros x ->%list_elem_of_In%repeat_spec. range.
  - apply Forall_app_2; [apply Hb|]. apply Forall_app_2; [apply Hb|].
    apply Forall_forall. intros x Hx%list_elem_of_In. cbn in Hx. destruct_or! Hx; subst; range.
Qed.

Lemma connected_enforced : enforces model_env mark false connected contents.
Proof.
  destruct (finalize_ext model_env model_env_wf (PolicyBatch_new mullvad_table) connected mark
              connected_batch) as (pb' & Hb & Hx).
  - apply PolicyBatch_new_distinct.
  - apply PolicyBatch_new_inet.
  - apply mark_range.
  - apply connected_wf.
  - vm_compute. reflexivity.
  - apply extends_enforces in Hx as (cs & Ha & He); [|apply mark_range]. unfold contents. rewrite Hb, Ha.
    by rewrite lookup_insert_eq.
Qed.

Lemma finalize_refines_policy_witness :
  ∃ cs, (∀ ts, batch_apply connected_batch ts = Some (<[mullvad_table := cs]> (without_deprecated ts))) ∧
        enforces model_env mark (split_available model_env) connected cs.
Proof.
  apply (finalize_refines_policy model_env connected mark connected_batch).
  - apply model_env_wf.
  - apply mark_range.
  - apply connected_wf.
  - vm_compute. reflexivity.
Defined.

Lemma finalize_total_witness :
  is_ok (finalize model_env (PolicyBatch_new mullvad_table) connected mark) =
  is_ok (iface_index model_env "lo") && is_ok (proc_mounts model_env) && interface_ok model_env connected.
Proof. apply (finalize_total model_env (PolicyBatch_new mullvad_table) connected mark). Defined.

Lemma public_traffic_confined_witness : public_exit model_env mark connected web = true.
Proof.
  apply (public_traffic_confined model_env mark false connected contents web web).
  - apply connected_enforced.
  - apply udp_wf; range.
  - vm_compute. reflexivity.
  - vm_compute. reflexivity.
  - vm_compute. reflexivity.
  - reflexivity.
  - vm_compute. reflexivity.
Defined.

Lemma dns_requests_confined_witness :
  peers_out mark [{| endpoint := relay; clients := Root |}] dns_query ||
  dns_out model_env tunnel dns dns_query = true.
Proof.
  apply (dns_requests_confined model_env mark false connected contents dns_query dns_query).
  - apply connected_enforced.
  - apply udp_wf; range.
  - vm_compute. reflexivity.
  - vm_compute. reflexivity.
  - vm_compute. reflexivity.
  - reflexivity.
Defined.

Definition fw : Firewall := Firewall_new mark.
Definition applied : Tables := (apply_policy fw connected (∅ : Tables)).2.

Lemma apply_policy_atomic_witness :
  holds_policy fw connected (∅ : Tables) (installed (∅ : Tables)) (installed applied).
Proof.
  refine (apply_policy_atomic fw connected (∅ : Tables) applied (Ok tt) mark_range connected_wf _).
  unfold applied. rewrite (surjective_pairing (apply_policy fw connected (∅ : Tables))) at 1.
  by f_equal.
Defined.

Definition some_tables : Tables := {[ mullvad_table := [] ]}.

Lemma reset_policy_atomic_witness :
  installed (reset_policy fw some_tables).2 =
  without_deprecated (delete mullvad_table (installed some_tables)).
Proof.
  refine (reset_policy_atomic fw some_tables (reset_policy fw some_tables).2 (Ok tt) _).
  vm_compute. reflexivity.
Defined.
End Example.
