(* ===== verification/TunnelStates.v ===== *)
(** * The tunnel state machine (talpid-core/src/tunnel_state_machine/)

    Five states handle commands, tunnel events and the end of the tunnel, and
    call the firewall, the DNS monitor, the route manager, NetworkManager and the
    generator of tunnel parameters.  Every handler is a computation over a
    [World]: the shared values, the state of the operating system, the number
    of tunnels started, and a log of the calls made to other components. *)

From S2P Require Import Prelude NetTypes TunnelTypes.

(** ** Other components *)

(** What the states call.  [enforced o s] says that the firewall of [o] is in
    state [s]: no policy, or the given one.  The laws are what
    [Firewall::apply_policy] and [Firewall::reset_policy] promise, and that the
    other components leave the firewall alone. *)
Class TunnelOs (os : Type) : Type := {
  fw_apply : FirewallPolicy → os → result unit unit * os;
  fw_reset : os → result unit unit * os;
  dns_set : string → ResolvedDnsConfig → os → result unit unit * os;
  dns_reset : os → result unit unit * os;
  dns_reset_before_interface_removal : os → result unit unit * os;
  route_clear_routes : os → result unit unit * os;
  route_clear_routing_rules : os → result unit unit * os;
  route_stop : os → unit * os;
  nm_new : os → result unit unit * os;
  nm_disable_connectivity_check : os → option bool * os;
  nm_enable_connectivity_check : os → unit * os;
  generate : Z → IpAvailability → os → result ParameterGenerationError TunnelParameters * os;
  spawn_tunnel_thread : nat → TunnelParameters → Z → os → unit * os;

  enforced : os → option FirewallPolicy → Prop;
  fw_apply_ok p o o' : fw_apply p o = (Ok tt, o') → enforced o' (Some p);
  fw_apply_err p o o' : fw_apply p o = (Err tt, o') →
    (∀ s, enforced o s → enforced o' s) ∨ enforced o' (Some p);
  fw_reset_ok o o' : fw_reset o = (Ok tt, o') → enforced o' None;
  fw_reset_err o o' : fw_reset o = (Err tt, o') →
    (∀ s, enforced o s → enforced o' s) ∨ enforced o' None;
  dns_set_fw i c o s : enforced o s → enforced (dns_set i c o).2 s;
  dns_reset_fw o s : enforced o s → enforced (dns_reset o).2 s;
  dns_reset_before_fw o s : enforced o s → enforced (dns_reset_before_interface_removal o).2 s;
  route_clear_routes_fw o s : enforced o s → enforced (route_clear_routes o).2 s;
  route_clear_routing_rules_fw o s : enforced o s → enforced (route_clear_routing_rules o).2 s;
  route_stop_fw o s : enforced o s → enforced (route_stop o).2 s;
  nm_new_fw o s : enforced o s → enforced (nm_new o).2 s;
  nm_disable_fw o s : enforced o s → enforced (nm_disable_connectivity_check o).2 s;
  nm_enable_fw o s : enforced o s → enforced (nm_enable_connectivity_check o).2 s;
  generate_fw n a o s : enforced o s → enforced (generate n a o).2 s;
  spawn_tunnel_fw i p n o s : enforced o s → enforced (spawn_tunnel_thread i p n o).2 s
}.

(** ** Data (tunnel_state_machine/mod.rs) *)

Inductive LockdownMode : Set := Disabled | Enabled (persist : bool).
Definition LockdownMode_yes : LockdownMode := Enabled true.
Definition LockdownMode_no : LockdownMode := Disabled.
Definition LockdownMode_bool (m : LockdownMode) : bool :=
  match m with Enabled _ => true | Disabled => false end.
Definition LockdownMode_from (block : bool) : LockdownMode :=
  if block then LockdownMode_yes else LockdownMode_no.
(** [PartialEq] compares the boolean values only. *)
Definition LockdownMode_eq (a b : LockdownMode) : bool :=
  Bool.eqb (LockdownMode_bool a) (LockdownMode_bool b).

(** A [oneshot::Sender<()>], by its identity. *)
Abbreviation Sender := nat.

Inductive TunnelCommand : Set :=
| AllowLan (allow_lan : bool) (complete_tx : Sender)
| AllowEndpoint (endpoint : AllowedEndpoint) (tx : Sender)
| Dns (servers : DnsConfig) (complete_tx : Sender)
| SetLockdownMode (lockdown_mode : LockdownMode) (complete_tx : Sender)
| SetConnectivity (connectivity : Connectivity)
| Connect
| Disconnect
| Block (reason : ErrorStateCause).

(** [None] is a closed channel; the error of a close event is a cancelled one. *)
Inductive EventResult : Set :=
| EvCommand (command : option TunnelCommand)
| EvEvent (event : option (TunnelEvent * Sender))
| EvClose (result : result unit (option ErrorStateCause)).

Record SharedTunnelStateValues : Set := {
  allow_lan : bool;
  lockdown_mode : LockdownMode;
  connectivity : Connectivity;
  dns_config : DnsConfig;
  allowed_endpoint : AllowedEndpoint;
  connectivity_check_was_enabled : option bool
}.

Definition with_allow_lan (v : bool) (sv : SharedTunnelStateValues) : SharedTunnelStateValues :=
  {| allow_lan := v; lockdown_mode := lockdown_mode sv; connectivity := connectivity sv;
     dns_config := dns_config sv; allowed_endpoint := allowed_endpoint sv;
     connectivity_check_was_enabled := connectivity_check_was_enabled sv |}.
Definition with_lockdown_mode (v : LockdownMode) (sv : SharedTunnelStateValues) : SharedTunnelStateValues :=
  {| allow_lan := allow_lan sv; lockdown_mode := v; connectivity := connectivity sv;
     dns_config := dns_config sv; allowed_endpoint := allowed_endpoint sv;
     connectivity_check_was_enabled := connectivity_check_was_enabled sv |}.
Definition with_connectivity (v : Connectivity) (sv : SharedTunnelStateValues) : SharedTunnelStateValues :=
  {| allow_lan := allow_lan sv; lockdown_mode := lockdown_mode sv; connectivity := v;
     dns_config := dns_config sv; allowed_endpoint := allowed_endpoint sv;
     connectivity_check_was_enabled := connectivity_check_was_enabled sv |}.
Definition with_dns_config (v : DnsConfig) (sv : SharedTunnelStateValues) : SharedTunnelStateValues :=
  {| allow_lan := allow_lan sv; lockdown_mode := lockdown_mode sv; connectivity := connectivity sv;
     dns_config := v; allowed_endpoint := allowed_endpoint sv;
     connectivity_check_was_enabled := connectivity_check_was_enabled sv |}.
Definition with_allowed_endpoint (v : AllowedEndpoint) (sv : SharedTunnelStateValues) : SharedTunnelStateValues :=
  {| allow_lan := allow_lan sv; lockdown_mode := lockdown_mode sv; connectivity := connectivity sv;
     dns_config := dns_config sv; allowed_endpoint := v;
     connectivity_check_was_enabled := connectivity_check_was_enabled sv |}.
Definition with_check (v : option bool) (sv : SharedTunnelStateValues) : SharedTunnelStateValues :=
  {| allow_lan := allow_lan sv; lockdown_mode := lockdown_mode sv; connectivity := connectivity sv;
     dns_config := dns_config sv; allowed_endpoint := allowed_endpoint sv;
     connectivity_check_was_enabled := v |}.

(** The receiving end of the channel that reports that a tunnel is closed; a
    [Fuse] remembers that it has completed. *)
Record TunnelCloseEvent : Set := { ce_tunnel : nat; is_terminated : bool }.

Inductive AfterDisconnect : Set :=
| AfterNothing
| AfterBlock (cause : ErrorStateCause)
| AfterReconnect (retry_attempt : Z).

Definition action (a : AfterDisconnect) : ActionAfterDisconnect :=
  match a with
  | AfterNothing => ActionNothing
  | AfterBlock _ => ActionBlock
  | AfterReconnect _ => ActionReconnect
  end.

(** Channels are named by the tunnel they belong to. *)
Record ConnectingState : Set := {
  cg_tunnel_events : nat;
  cg_tunnel_parameters : TunnelParameters;
  cg_tunnel_metadata : option TunnelMetadata;
  cg_allowed_tunnel_traffic : AllowedTunnelTraffic;
  cg_tunnel_close_event : TunnelCloseEvent;
  cg_tunnel_close_tx : nat;
  cg_retry_attempt : Z
}.

Record ConnectedState : Set := {
  cd_metadata : TunnelMetadata;
  cd_tunnel_events : nat;
  cd_tunnel_parameters : TunnelParameters;
  cd_tunnel_close_event : TunnelCloseEvent;
  cd_tunnel_close_tx : nat
}.

Record DisconnectingState : Set := {
  dg_tunnel_close_event : TunnelCloseEvent;
  dg_after_disconnect : AfterDisconnect
}.

Inductive TunnelState : Set :=
| StDisconnected
| StConnecting (s : ConnectingState)
| StConnected (s : ConnectedState)
| StDisconnecting (s : DisconnectingState)
| StError (block_reason : ErrorStateCause).

Inductive EventConsequence : Set :=
| NewState (st : TunnelState) (transition : TunnelStateTransition)
| SameState (st : TunnelState)
| Finished.

(** ** The world of a handler *)

(** Calls to other components, newest first in the log. *)
Inductive Effect : Set :=
| EfApply (policy : FirewallPolicy) (ok : bool)
| EfReset (ok : bool)
| EfAck (tx : Sender)
| EfStart (tunnel : nat) (params : TunnelParameters) (retry_attempt : Z)
| EfSendClose (tunnel : nat)
| EfClosed (tunnel : nat)
| EfEnableCheck.

Record World (os : Type) : Type := {
  w_sv : SharedTunnelStateValues;
  w_os : os;
  w_tunnels : nat;
  w_log : list Effect
}.
Arguments w_sv {os} _.
Arguments w_os {os} _.
Arguments w_tunnels {os} _.
Arguments w_log {os} _.

Section Machine.
Context {os : Type} `{TunnelOs os}.

Abbreviation M := (stateM (World os)).

Definition get_sv : M SharedTunnelStateValues := λ w, (w_sv w, w).
Definition modify_sv (f : SharedTunnelStateValues → SharedTunnelStateValues) : M unit := λ w,
  (tt, {| w_sv := f (w_sv w); w_os := w_os w; w_tunnels := w_tunnels w; w_log := w_log w |}).
Definition call {A} (f : os → A * os) : M A := λ w,
  let '(a, o) := f (w_os w) in
  (a, {| w_sv := w_sv w; w_os := o; w_tunnels := w_tunnels w; w_log := w_log w |}).
Definition emit (e : Effect) : M unit := λ w,
  (tt, {| w_sv := w_sv w; w_os := w_os w; w_tunnels := w_tunnels w; w_log := e :: w_log w |}).
Definition fresh_tunnel : M nat := λ w,
  (w_tunnels w, {| w_sv := w_sv w; w_os := w_os w; w_tunnels := S (w_tunnels w); w_log := w_log w |}).

(** [oneshot::Sender::send]. *)
Definition send (tx : Sender) : M unit := emit (EfAck tx).

Definition firewall_apply_policy (policy : FirewallPolicy) : M (result unit unit) :=
  r ← call (fw_apply policy);
  _ ← emit (EfApply policy (is_ok r));
  mret r.
Definition firewall_reset_policy : M (result unit unit) :=
  r ← call fw_reset;
  _ ← emit (EfReset (is_ok r));
  mret r.

(** *** Shared values *)

Definition set_allow_lan (v : bool) : M bool :=
  sv ← get_sv;
  if negb (Bool.eqb (allow_lan sv) v) then _ ← modify_sv (with_allow_lan v); mret true
  else mret false.

Definition set_dns_config (v : DnsConfig) : M bool :=
  sv ← get_sv;
  if decide (dns_config sv = v) then mret false
  else _ ← modify_sv (with_dns_config v); mret true.

Definition disable_connectivity_check : M unit :=
  sv ← get_sv;
  match connectivity_check_was_enabled sv with
  | None =>
      nm ← call nm_new;
      match nm with
      | Ok _ => was ← call nm_disable_connectivity_check; modify_sv (with_check was)
      | Err _ => mret tt
      end
  | Some _ => mret tt
  end.

Definition reset_connectivity_check : M unit :=
  sv ← get_sv;
  _ ← modify_sv (with_check None);
  if decide (connectivity_check_was_enabled sv = Some true) then
    nm ← call nm_new;
    match nm with
    | Ok _ => _ ← call nm_enable_connectivity_check; emit EfEnableCheck
    | Err _ => mret tt
    end
  else mret tt.

(** Resets that are only logged when they fail. *)
Definition dns_monitor_reset : M unit := _ ← call dns_reset; mret tt.
Definition reset_dns_before_removal : M unit := _ ← call dns_reset_before_interface_removal; mret tt.
Definition reset_routes : M unit :=
  _ ← call route_clear_routes; _ ← call route_clear_routing_rules; mret tt.

(** *** Entering a state *)

Definition blocked_policy (sv : SharedTunnelStateValues) : FirewallPolicy :=
  Blocked (allow_lan sv) (Some (allowed_endpoint sv)).

Definition ErrorState_set_firewall_policy : M (result FirewallPolicyError unit) :=
  sv ← get_sv;
  let policy := blocked_policy sv in
  _ ← disable_connectivity_check;
  r ← firewall_apply_policy policy;
  mret (map_err (λ _, Generic) r).

Definition ErrorState_enter (block_reason : ErrorStateCause) : M (TunnelState * TunnelStateTransition) :=
  r ← ErrorState_set_firewall_policy;
  let block_failure := result_err r in
  mret (StError block_reason, TrError (tunnel.new block_reason block_failure)).

Definition DisconnectedState_set_firewall_policy (should_reset_firewall : bool) : M unit :=
  sv ← get_sv;
  if LockdownMode_bool (lockdown_mode sv) then
    _ ← firewall_apply_policy (blocked_policy sv); mret tt
  else if should_reset_firewall then
    _ ← firewall_reset_policy; mret tt
  else mret tt.

Definition DisconnectedState_construct_state_transition : M (TunnelState * TunnelStateTransition) :=
  sv ← get_sv;
  mret (StDisconnected, TrDisconnected (LockdownMode_bool (lockdown_mode sv))).

Definition DisconnectedState_enter (should_reset_firewall : bool) : M (TunnelState * TunnelStateTransition) :=
  _ ← DisconnectedState_set_firewall_policy should_reset_firewall;
  _ ← reset_connectivity_check;
  DisconnectedState_construct_state_transition.

Definition DisconnectingState_enter (tunnel_close_tx : nat) (tunnel_close_event : TunnelCloseEvent)
    (after_disconnect : AfterDisconnect) : M (TunnelState * TunnelStateTransition) :=
  _ ← emit (EfSendClose tunnel_close_tx);
  let action_after_disconnect := action after_disconnect in
  mret (StDisconnecting {| dg_tunnel_close_event := tunnel_close_event;
                           dg_after_disconnect := after_disconnect |},
        TrDisconnecting action_after_disconnect).

(** The peers of a tunnel, with the clients that may reach them. *)
Definition peer_clients (params : TunnelParameters) : AllowedClients :=
  match get_openvpn_local_proxy_settings params with Some _ => All | None => Root end.
Definition peer_endpoints_of (params : TunnelParameters) : list AllowedEndpoint :=
  map (λ endpoint, {| endpoint := endpoint; clients := peer_clients params |})
    (get_next_hop_endpoints params).

Definition connecting_policy (sv : SharedTunnelStateValues) (params : TunnelParameters)
    (tunnel_metadata : option TunnelMetadata) (allowed : AllowedTunnelTraffic) : FirewallPolicy :=
  Connecting (peer_endpoints_of params) tunnel_metadata (allow_lan sv) (allowed_endpoint sv) allowed.

Definition ConnectingState_set_firewall_policy (params : TunnelParameters)
    (tunnel_metadata : option TunnelMetadata) (allowed : AllowedTunnelTraffic) :
    M (result FirewallPolicyError unit) :=
  _ ← disable_connectivity_check;
  sv ← get_sv;
  r ← firewall_apply_policy (connecting_policy sv params tunnel_metadata allowed);
  mret (map_err (λ _, Generic) r).

Definition INITIAL_ALLOWED_TUNNEL_TRAFFIC : AllowedTunnelTraffic := TrafficNone.

Definition start_tunnel (params : TunnelParameters) (retry_attempt : Z) : M ConnectingState :=
  id ← fresh_tunnel;
  _ ← call (spawn_tunnel_thread id params retry_attempt);
  _ ← emit (EfStart id params retry_attempt);
  mret {| cg_tunnel_events := id; cg_tunnel_parameters := params; cg_tunnel_metadata := None;
          cg_allowed_tunnel_traffic := INITIAL_ALLOWED_TUNNEL_TRAFFIC;
          cg_tunnel_close_event := {| ce_tunnel := id; is_terminated := false |};
          cg_tunnel_close_tx := id; cg_retry_attempt := retry_attempt |}.

Definition ConnectingState_enter (retry_attempt : Z) : M (TunnelState * TunnelStateTransition) :=
  sv ← get_sv;
  match availability (connectivity sv) with
  | None => ErrorState_enter IsOffline
  | Some ip_availability =>
      r ← call (generate retry_attempt ip_availability);
      match r with
      | Err err => ErrorState_enter (TunnelParameterError err)
      | Ok tunnel_parameters =>
          r ← ConnectingState_set_firewall_policy tunnel_parameters None TrafficNone;
          match r with
          | Err error => ErrorState_enter (SetFirewallPolicyError error)
          | Ok _ =>
              connecting_state ← start_tunnel tunnel_parameters retry_attempt;
              let params := cg_tunnel_parameters connecting_state in
              mret (StConnecting connecting_state, TrConnecting (get_tunnel_endpoint params))
          end
      end
  end.

Definition resolve_dns (metadata : TunnelMetadata) (sv : SharedTunnelStateValues) : ResolvedDnsConfig :=
  resolve (dns_config sv) (gateways metadata).

Definition get_firewall_policy (s : ConnectedState) (sv : SharedTunnelStateValues) : FirewallPolicy :=
  Connected (peer_endpoints_of (cd_tunnel_parameters s)) (cd_metadata s) (allow_lan sv)
    (resolve_dns (cd_metadata s) sv).

Definition ConnectedState_set_firewall_policy (s : ConnectedState) : M (result FirewallPolicyError unit) :=
  sv ← get_sv;
  r ← firewall_apply_policy (get_firewall_policy s sv);
  mret (map_err (λ _, Generic) r).

Definition ConnectedState_set_dns (s : ConnectedState) : M (result unit unit) :=
  sv ← get_sv;
  call (dns_set (interface (cd_metadata s)) (resolve_dns (cd_metadata s) sv)).

Definition connected_endpoint (s : ConnectedState) : TunnelEndpoint :=
  let e := get_tunnel_endpoint (cd_tunnel_parameters s) in
  {| te_endpoint := te_endpoint e; tunnel_type := tunnel_type e;
     quantum_resistant := quantum_resistant e; te_proxy := te_proxy e;
     te_obfuscation := te_obfuscation e; entry_endpoint := entry_endpoint e;
     tunnel_interface := Some (interface (cd_metadata s)); daita := daita e |}.

Definition ConnectedState_enter (metadata : TunnelMetadata) (tunnel_events : nat)
    (tunnel_parameters : TunnelParameters) (tunnel_close_event : TunnelCloseEvent)
    (tunnel_close_tx : nat) : M (TunnelState * TunnelStateTransition) :=
  let connected_state :=
    {| cd_metadata := metadata; cd_tunnel_events := tunnel_events;
       cd_tunnel_parameters := tunnel_parameters; cd_tunnel_close_event := tunnel_close_event;
       cd_tunnel_close_tx := tunnel_close_tx |} in
  let tunnel_endpoint := connected_endpoint connected_state in
  r ← ConnectedState_set_firewall_policy connected_state;
  match r with
  | Err error =>
      DisconnectingState_enter (cd_tunnel_close_tx connected_state)
        (cd_tunnel_close_event connected_state) (AfterBlock (SetFirewallPolicyError error))
  | Ok _ =>
      r ← ConnectedState_set_dns connected_state;
      match r with
      | Err _ =>
          DisconnectingState_enter (cd_tunnel_close_tx connected_state)
            (cd_tunnel_close_event connected_state) (AfterBlock SetDnsError)
      | Ok _ => mret (StConnected connected_state, TrConnected tunnel_endpoint)
      end
  end.

Definition to_new_state (x : TunnelState * TunnelStateTransition) : EventConsequence := NewState x.1 x.2.

(** *** The disconnected state *)

Definition DisconnectedState_handle_event (command : option TunnelCommand) : M EventConsequence :=
  match command with
  | Some (AllowLan v complete_tx) =>
      changed ← set_allow_lan v;
      _ ← (if changed : bool then DisconnectedState_set_firewall_policy false else mret tt);
      _ ← send complete_tx;
      mret (SameState StDisconnected)
  | Some (AllowEndpoint v tx) =>
      sv ← get_sv;
      _ ← (if decide (allowed_endpoint sv = v) then mret tt
           else _ ← modify_sv (with_allowed_endpoint v); DisconnectedState_set_firewall_policy false);
      _ ← send tx;
      mret (SameState StDisconnected)
  | Some (Dns servers complete_tx) =>
      _ ← set_dns_config servers;
      _ ← send complete_tx;
      mret (SameState StDisconnected)
  | Some (SetLockdownMode v complete_tx) =>
      sv ← get_sv;
      if negb (LockdownMode_eq (lockdown_mode sv) v) then
        _ ← modify_sv (with_lockdown_mode v);
        _ ← DisconnectedState_set_firewall_policy true;
        _ ← send complete_tx;
        x ← DisconnectedState_construct_state_transition;
        mret (to_new_state x)
      else
        _ ← send complete_tx;
        mret (SameState StDisconnected)
  | Some (SetConnectivity v) =>
      _ ← modify_sv (with_connectivity v);
      mret (SameState StDisconnected)
  | Some Connect => x ← ConnectingState_enter 0; mret (to_new_state x)
  | Some (Block _) => mret (SameState StDisconnected)
  | None => _ ← dns_monitor_reset; mret Finished
  | Some Disconnect => mret (SameState StDisconnected)
  end.

(** *** The connecting state *)

Definition ConnectingState_disconnect (s : ConnectingState) (after : AfterDisconnect) : M EventConsequence :=
  _ ← reset_routes;
  x ← DisconnectingState_enter (cg_tunnel_close_tx s) (cg_tunnel_close_event s) after;
  mret (to_new_state x).

Definition ConnectingState_reset_firewall (s : ConnectingState) : M EventConsequence :=
  r ← ConnectingState_set_firewall_policy (cg_tunnel_parameters s) (cg_tunnel_metadata s)
        (cg_allowed_tunnel_traffic s);
  match r with
  | Ok _ => mret (SameState (StConnecting s))
  | Err error => ConnectingState_disconnect s (AfterBlock (SetFirewallPolicyError error))
  end.

Definition ConnectingState_handle_commands (s : ConnectingState) (command : option TunnelCommand) :
    M EventConsequence :=
  match command with
  | Some (AllowLan v complete_tx) =>
      changed ← set_allow_lan v;
      consequence ← (if changed : bool then ConnectingState_reset_firewall s
                     else mret (SameState (StConnecting s)));
      _ ← send complete_tx;
      mret consequence
  | Some (AllowEndpoint v tx) =>
      sv ← get_sv;
      if decide (allowed_endpoint sv = v) then
        _ ← send tx;
        mret (SameState (StConnecting s))
      else
        _ ← modify_sv (with_allowed_endpoint v);
        r ← ConnectingState_set_firewall_policy (cg_tunnel_parameters s) (cg_tunnel_metadata s)
              (cg_allowed_tunnel_traffic s);
        match r with
        | Err error =>
            _ ← send tx;
            ConnectingState_disconnect s (AfterBlock (SetFirewallPolicyError error))
        | Ok _ => _ ← send tx; mret (SameState (StConnecting s))
        end
  | Some (Dns servers complete_tx) =>
      _ ← set_dns_config servers;
      _ ← send complete_tx;
      mret (SameState (StConnecting s))
  | Some (SetLockdownMode v complete_tx) =>
      _ ← modify_sv (with_lockdown_mode v);
      _ ← send complete_tx;
      mret (SameState (StConnecting s))
  | Some (SetConnectivity v) =>
      _ ← modify_sv (with_connectivity v);
      if is_offline v then ConnectingState_disconnect s (AfterBlock IsOffline)
      else mret (SameState (StConnecting s))
  | Some Connect => ConnectingState_disconnect s (AfterReconnect 0)
  | Some Disconnect | None => ConnectingState_disconnect s AfterNothing
  | Some (Block reason) => ConnectingState_disconnect s (AfterBlock reason)
  end.

Definition with_tunnel (m : option TunnelMetadata) (a : AllowedTunnelTraffic) (s : ConnectingState) :
    ConnectingState :=
  {| cg_tunnel_events := cg_tunnel_events s; cg_tunnel_parameters := cg_tunnel_parameters s;
     cg_tunnel_metadata := m; cg_allowed_tunnel_traffic := a;
     cg_tunnel_close_event := cg_tunnel_close_event s; cg_tunnel_close_tx := cg_tunnel_close_tx s;
     cg_retry_attempt := cg_retry_attempt s |}.

(** [u32] addition, as release builds compute it. *)
Definition next_attempt (retry_attempt : Z) : Z := wrap 32 (retry_attempt + 1).

Definition ConnectingState_handle_tunnel_events (s : ConnectingState)
    (event : option (TunnelEvent * Sender)) : M EventConsequence :=
  match event with
  | Some (EvAuthFailed reason, _) => ConnectingState_disconnect s (AfterBlock (AuthFailed reason))
  | Some (EvInterfaceUp metadata allowed, _done_tx) =>
      let s := with_tunnel (Some metadata) allowed s in
      r ← ConnectingState_set_firewall_policy (cg_tunnel_parameters s) (cg_tunnel_metadata s)
            (cg_allowed_tunnel_traffic s);
      match r with
      | Ok _ => mret (SameState (StConnecting s))
      | Err error => ConnectingState_disconnect s (AfterBlock (SetFirewallPolicyError error))
      end
  | Some (EvUp metadata, _) =>
      x ← ConnectedState_enter metadata (cg_tunnel_events s) (cg_tunnel_parameters s)
            (cg_tunnel_close_event s) (cg_tunnel_close_tx s);
      mret (to_new_state x)
  | Some (EvDown, _) =>
      mret (SameState (StConnecting (with_tunnel None INITIAL_ALLOWED_TUNNEL_TRAFFIC s)))
  | None => ConnectingState_disconnect s (AfterReconnect (next_attempt (cg_retry_attempt s)))
  end.

Definition ConnectingState_handle_tunnel_close_event (s : ConnectingState)
    (block_reason : option ErrorStateCause) : M EventConsequence :=
  match block_reason with
  | Some block_reason =>
      _ ← reset_routes;
      x ← ErrorState_enter block_reason;
      mret (to_new_state x)
  | None =>
      _ ← reset_routes;
      x ← ConnectingState_enter (next_attempt (cg_retry_attempt s));
      mret (to_new_state x)
  end.

(** *** The connected state *)

Definition ConnectedState_disconnect (s : ConnectedState) (after : AfterDisconnect) : M EventConsequence :=
  _ ← reset_dns_before_removal;
  _ ← reset_routes;
  x ← DisconnectingState_enter (cd_tunnel_close_tx s) (cd_tunnel_close_event s) after;
  mret (to_new_state x).

Definition ConnectedState_handle_commands (s : ConnectedState) (command : option TunnelCommand) :
    M EventConsequence :=
  match command with
  | Some (AllowLan v complete_tx) =>
      changed ← set_allow_lan v;
      consequence ←
        (if changed : bool then
           r ← ConnectedState_set_firewall_policy s;
           match r with
           | Ok _ => mret (SameState (StConnected s))
           | Err error => ConnectedState_disconnect s (AfterBlock (SetFirewallPolicyError error))
           end
         else mret (SameState (StConnected s)));
      _ ← send complete_tx;
      mret consequence
  | Some (AllowEndpoint v tx) =>
      _ ← modify_sv (with_allowed_endpoint v);
      _ ← send tx;
      mret (SameState (StConnected s))
  | Some (Dns servers complete_tx) =>
      changed ← set_dns_config servers;
      if changed : bool then
        r ← ConnectedState_set_firewall_policy s;
        match r with
        | Err error => ConnectedState_disconnect s (AfterBlock (SetFirewallPolicyError error))
        | Ok _ =>
            r ← ConnectedState_set_dns s;
            consequence ← match r with
                          | Ok _ => mret (SameState (StConnected s))
                          | Err _ => ConnectedState_disconnect s (AfterBlock SetDnsError)
                          end;
            _ ← send complete_tx;
            mret consequence
        end
      else
        _ ← send complete_tx;
        mret (SameState (StConnected s))
  | Some (SetLockdownMode v complete_tx) =>
      _ ← modify_sv (with_lockdown_mode v);
      _ ← send complete_tx;
      mret (SameState (StConnected s))
  | Some (SetConnectivity v) =>
      _ ← modify_sv (with_connectivity v);
      if is_offline v then ConnectedState_disconnect s (AfterBlock IsOffline)
      else mret (SameState (StConnected s))
  | Some Connect => ConnectedState_disconnect s (AfterReconnect 0)
  | Some Disconnect | None => ConnectedState_disconnect s AfterNothing
  | Some (Block reason) => ConnectedState_disconnect s (AfterBlock reason)
  end.

Definition ConnectedState_handle_tunnel_events (s : ConnectedState)
    (event : option (TunnelEvent * Sender)) : M EventConsequence :=
  match event with
  | Some (EvDown, _) | None => ConnectedState_disconnect s (AfterReconnect 0)
  | Some _ => mret (SameState (StConnected s))
  end.

Definition ConnectedState_handle_tunnel_close_event (s : ConnectedState)
    (block_reason : option ErrorStateCause) : M EventConsequence :=
  match block_reason with
  | Some block_reason =>
      _ ← reset_dns_before_removal;
      _ ← reset_routes;
      x ← ErrorState_enter block_reason;
      mret (to_new_state x)
  | None =>
      _ ← reset_dns_before_removal;
      _ ← reset_routes;
      x ← ConnectingState_enter 0;
      mret (to_new_state x)
  end.

(** *** The disconnecting state *)

Definition with_after (a : AfterDisconnect) (s : DisconnectingState) : DisconnectingState :=
  {| dg_tunnel_close_event := dg_tunnel_close_event s; dg_after_disconnect := a |}.

(** The new value of [after_disconnect], for the commands that change it. *)
Definition next_after_disconnect (after : AfterDisconnect) (command : option TunnelCommand) :
    AfterDisconnect :=
  match command with
  | Some (SetConnectivity v) =>
      match after with
      | AfterReconnect _ => if is_offline v then AfterBlock IsOffline else after
      | AfterBlock IsOffline => if negb (is_offline v) then AfterReconnect 0 else after
      | _ => after
      end
  | Some Connect =>
      match after with
      | AfterReconnect retry_attempt => AfterReconnect retry_attempt
      | _ => AfterReconnect 0
      end
  | Some Disconnect => AfterNothing
  | Some (Block reason) =>
      match after with
      | AfterNothing => AfterNothing
      | _ => AfterBlock reason
      end
  | None =>
      match after with
      | AfterReconnect _ => AfterNothing
      | _ => after
      end
  | _ => after
  end.

Definition DisconnectingState_handle_commands (s : DisconnectingState) (command : option TunnelCommand) :
    M EventConsequence :=
  _ ← match command with
      | Some (AllowLan v complete_tx) => _ ← set_allow_lan v; send complete_tx
      | Some (AllowEndpoint v tx) => _ ← modify_sv (with_allowed_endpoint v); send tx
      | Some (Dns servers complete_tx) => _ ← set_dns_config servers; send complete_tx
      | Some (SetLockdownMode v complete_tx) => _ ← modify_sv (with_lockdown_mode v); send complete_tx
      | Some (SetConnectivity v) => modify_sv (with_connectivity v)
      | _ => mret tt
      end;
  mret (SameState (StDisconnecting (with_after (next_after_disconnect (dg_after_disconnect s) command) s))).

Definition DisconnectingState_after_disconnect (s : DisconnectingState)
    (block_reason : option ErrorStateCause) : M (TunnelState * TunnelStateTransition) :=
  match block_reason with
  | Some reason => ErrorState_enter reason
  | None =>
      match dg_after_disconnect s with
      | AfterNothing => DisconnectedState_enter true
      | AfterBlock cause => ErrorState_enter cause
      | AfterReconnect retry_attempt => ConnectingState_enter retry_attempt
      end
  end.

(** *** The error state *)

Definition ErrorState_handle_event (block_reason : ErrorStateCause) (command : option TunnelCommand) :
    M EventConsequence :=
  match command with
  | Some (AllowLan v complete_tx) =>
      changed ← set_allow_lan v;
      _ ← (if changed : bool then _ ← ErrorState_set_firewall_policy; mret tt else mret tt);
      _ ← send complete_tx;
      mret (SameState (StError block_reason))
  | Some (AllowEndpoint v tx) =>
      sv ← get_sv;
      _ ← (if decide (allowed_endpoint sv = v) then mret tt
           else _ ← modify_sv (with_allowed_endpoint v); _ ← ErrorState_set_firewall_policy; mret tt);
      _ ← send tx;
      mret (SameState (StError block_reason))
  | Some (Dns servers complete_tx) =>
      changed ← set_dns_config servers;
      _ ← (if changed : bool then _ ← ErrorState_set_firewall_policy; mret tt else mret tt);
      _ ← send complete_tx;
      mret (SameState (StError block_reason))
  | Some (SetLockdownMode v complete_tx) =>
      _ ← modify_sv (with_lockdown_mode v);
      _ ← send complete_tx;
      mret (SameState (StError block_reason))
  | Some (SetConnectivity v) =>
      _ ← modify_sv (with_connectivity v);
      if negb (is_offline v) &&
         match block_reason with
         | IsOffline => true
         | TunnelParameterError (IpVersionUnavailable family) => has_family v family
         | _ => false
         end
      then
        _ ← dns_monitor_reset;
        x ← ConnectingState_enter 0;
        mret (to_new_state x)
      else mret (SameState (StError block_reason))
  | Some Connect =>
      _ ← dns_monitor_reset;
      x ← ConnectingState_enter 0;
      mret (to_new_state x)
  | Some Disconnect | None =>
      _ ← reset_connectivity_check;
      _ ← dns_monitor_reset;
      x ← DisconnectedState_enter true;
      mret (to_new_state x)
  | Some (Block reason) => x ← ErrorState_enter reason; mret (to_new_state x)
  end.

(** *** Waiting for events *)

Definition completed (e : TunnelCloseEvent) : TunnelCloseEvent :=
  {| ce_tunnel := ce_tunnel e; is_terminated := true |}.
(** [result.unwrap_or(None)]. *)
Definition block_reason_of (r : result unit (option ErrorStateCause)) : option ErrorStateCause :=
  match r with Ok b => b | Err _ => None end.

Definition cg_completed (s : ConnectingState) : ConnectingState :=
  {| cg_tunnel_events := cg_tunnel_events s; cg_tunnel_parameters := cg_tunnel_parameters s;
     cg_tunnel_metadata := cg_tunnel_metadata s;
     cg_allowed_tunnel_traffic := cg_allowed_tunnel_traffic s;
     cg_tunnel_close_event := completed (cg_tunnel_close_event s);
     cg_tunnel_close_tx := cg_tunnel_close_tx s; cg_retry_attempt := cg_retry_attempt s |}.
Definition cd_completed (s : ConnectedState) : ConnectedState :=
  {| cd_metadata := cd_metadata s; cd_tunnel_events := cd_tunnel_events s;
     cd_tunnel_parameters := cd_tunnel_parameters s;
     cd_tunnel_close_event := completed (cd_tunnel_close_event s);
     cd_tunnel_close_tx := cd_tunnel_close_tx s |}.

(** What a state does with the result of its [select!]; [None] when the state
    does not wait for that kind of event.  A completed close event is not polled
    again, except that the disconnecting state then takes the next command or
    treats the tunnel as closed. *)
Definition ConnectingState_handle_event (s : ConnectingState) (r : EventResult) :
    option (M EventConsequence) :=
  match r with
  | EvCommand command => Some (ConnectingState_handle_commands s command)
  | EvEvent event => Some (ConnectingState_handle_tunnel_events s event)
  | EvClose result =>
      if is_terminated (cg_tunnel_close_event s) then None
      else Some (_ ← emit (EfClosed (ce_tunnel (cg_tunnel_close_event s)));
                 ConnectingState_handle_tunnel_close_event (cg_completed s) (block_reason_of result))
  end.

Definition ConnectedState_handle_event (s : ConnectedState) (r : EventResult) :
    option (M EventConsequence) :=
  match r with
  | EvCommand command => Some (ConnectedState_handle_commands s command)
  | EvEvent event => Some (ConnectedState_handle_tunnel_events s event)
  | EvClose result =>
      if is_terminated (cd_tunnel_close_event s) then None
      else Some (_ ← emit (EfClosed (ce_tunnel (cd_tunnel_close_event s)));
                 ConnectedState_handle_tunnel_close_event (cd_completed s) (block_reason_of result))
  end.

Definition DisconnectingState_handle_event (s : DisconnectingState) (r : EventResult) :
    option (M EventConsequence) :=
  match r with
  | EvCommand command => Some (DisconnectingState_handle_commands s command)
  | EvClose result =>
      if is_terminated (dg_tunnel_close_event s) then
        Some (x ← DisconnectingState_after_disconnect s None; mret (to_new_state x))
      else
        Some (_ ← emit (EfClosed (ce_tunnel (dg_tunnel_close_event s)));
              x ← DisconnectingState_after_disconnect s (block_reason_of result);
              mret (to_new_state x))
  | EvEvent _ => None
  end.

Definition handle_event (st : TunnelState) (r : EventResult) : option (M EventConsequence) :=
  match st with
  | StDisconnected =>
      match r with EvCommand command => Some (DisconnectedState_handle_event command) | _ => None end
  | StConnecting s => ConnectingState_handle_event s r
  | StConnected s => ConnectedState_handle_event s r
  | StDisconnecting s => DisconnectingState_handle_event s r
  | StError block_reason =>
      match r with EvCommand command => Some (ErrorState_handle_event block_reason command) | _ => None end
  end.

(** ** The state machine *)

Record InitialTunnelState : Set := {
  is_allow_lan : bool;
  is_lockdown_mode : LockdownMode;
  is_dns_config : DnsConfig;
  is_allowed_endpoint : AllowedEndpoint;
  reset_firewall : bool
}.

(** [current_state] is [None] once the loop has ended. *)
Record TunnelStateMachine : Type := {
  current_state : option TunnelState;
  world : World os
}.

(** The Linux firewall is created without touching the system, and
    [connectivity] is the answer of the offline monitor. *)
Definition TunnelStateMachine_new (settings : InitialTunnelState) (connectivity : Connectivity) (o : os) :
    TunnelStateMachine :=
  let shared_values :=
    {| allow_lan := is_allow_lan settings; lockdown_mode := is_lockdown_mode settings;
       connectivity := connectivity; dns_config := is_dns_config settings;
       allowed_endpoint := is_allowed_endpoint settings; connectivity_check_was_enabled := None |} in
  let '(x, w) := DisconnectedState_enter (reset_firewall settings)
                   {| w_sv := shared_values; w_os := o; w_tunnels := 0; w_log := [] |} in
  {| current_state := Some x.1; world := w |}.

Definition stop (w : World os) : TunnelStateMachine :=
  {| current_state := None; world := (call route_stop w).2 |}.

(** One iteration of the loop of [run]; [listener_ok] tells whether the listener
    still receives transitions. *)
Definition step (m : TunnelStateMachine) (r : EventResult) (listener_ok : bool) :
    option (option TunnelStateTransition * TunnelStateMachine) :=
  st ← current_state m;
  handler ← handle_event st r;
  let '(consequence, w) := handler (world m) in
  Some match consequence with
       | NewState st transition =>
           if listener_ok then (Some transition, {| current_state := Some st; world := w |})
           else (None, stop w)
       | SameState st => (None, {| current_state := Some st; world := w |})
       | Finished => (None, stop w)
       end.

Fixpoint run (inputs : list (EventResult * bool)) (m : TunnelStateMachine) :
    option (list TunnelStateTransition * TunnelStateMachine) :=
  match inputs with
  | [] => Some ([], m)
  | (r, listener_ok) :: inputs =>
      '(t, m) ← step m r listener_ok;
      '(ts, m) ← run inputs m;
      Some (match t with Some t => t :: ts | None => ts end, m)
  end.

(** The machines that can be reached from the start. *)
Inductive reachable : TunnelStateMachine → Prop :=
| reachable_new settings connectivity o : reachable (TunnelStateMachine_new settings connectivity o)
| reachable_step m r listener_ok t m' :
    reachable m → step m r listener_ok = Some (t, m') → reachable m'.
End Machine.
