(* ===== verification/TunnelSafety.v ===== *)
(** * Safety of the tunnel state machine

    Invariants of every reachable machine: the firewall holds the policy of the
    current state (the kill switch), at most one tunnel exists, and the
    transitions reported to the listener follow the documented state diagram. *)

From S2P Require Import Prelude NetTypes TunnelTypes TunnelStates.

(** ** Stepping through handlers *)

Lemma stateM_bind_inv {S A B} (m : stateM S A) (f : A → stateM S B) s b s' :
  (m ≫= f) s = (b, s') → ∃ a s1, m s = (a, s1) ∧ f a s1 = (b, s').
Proof. unfold mbind, stateM_bind. destruct (m s) as [a s1]. eauto. Qed.

(** Inverts a computation that ran to a pair: binds, returns and case
    distinctions. *)
Ltac run_step :=
  match goal with
  | H : (_ ≫= _) _ = (_, _) |- _ =>
      let a := fresh "a" in let w := fresh "w" in let H1 := fresh "E" in
      apply stateM_bind_inv in H as (a & w & H1 & H)
  | H : mret _ _ = (_, _) |- _ => injection H as ? ?; subst
  | H : get_sv _ = (_, _) |- _ => injection H as ? ?; subst
  | H : (λ _, _) _ = (_, _) |- _ => cbv beta in H
  end.
Ltac run_all := repeat run_step.

Section Safety.
Context {os : Type} `{TunnelOs os}.
Implicit Types (w : World os) (sv : SharedTunnelStateValues).

(** ** What calls do to the world *)

Definition secure w : Prop := ∃ p, enforced (w_os w) (Some p).

(** The settings a firewall policy depends on. *)
Definition same_settings w w' : Prop :=
  allow_lan (w_sv w') = allow_lan (w_sv w) ∧ allowed_endpoint (w_sv w') = allowed_endpoint (w_sv w) ∧
  dns_config (w_sv w') = dns_config (w_sv w) ∧ lockdown_mode (w_sv w') = lockdown_mode (w_sv w) ∧
  connectivity (w_sv w') = connectivity (w_sv w).

Definition is_fw (e : Effect) : option bool :=
  match e with EfApply _ ok | EfReset ok => Some ok | _ => None end.
Fixpoint last_fw (log : list Effect) : option bool :=
  match log with
  | [] => None
  | e :: log => match is_fw e with Some ok => Some ok | None => last_fw log end
  end.

(** Effects that neither start nor end a tunnel. *)
Definition tame (e : Effect) : Prop :=
  match e with EfStart _ _ _ | EfClosed _ => False | _ => True end.
Definition boring (e : Effect) : Prop := tame e ∧ is_fw e = None.

(** [quiet]: the firewall and the settings are as before. *)
Record quiet w w' : Prop := {
  q_fw s : enforced (w_os w) s → enforced (w_os w') s;
  q_settings : same_settings w w';
  q_tunnels : w_tunnels w' = w_tunnels w;
  q_log : ∃ d, w_log w' = d ++ w_log w ∧ Forall boring d
}.

(** [guarded_step]: the firewall may have been given another policy. *)
Record guarded_step w w' : Prop := {
  g_secure : secure w → secure w';
  g_settings : same_settings w w';
  g_tunnels : w_tunnels w' = w_tunnels w;
  g_log : ∃ d, w_log w' = d ++ w_log w ∧ Forall tame d
}.

Lemma same_settings_refl w : same_settings w w.
Proof. done. Qed.
Lemma same_settings_trans w1 w2 w3 :
  same_settings w1 w2 → same_settings w2 w3 → same_settings w1 w3.
Proof. unfold same_settings. intros (?&?&?&?&?) (?&?&?&?&?). split_and!; congruence. Qed.

Lemma quiet_refl w : quiet w w.
Proof. split; [done|done|done|]. by exists []. Qed.
Lemma quiet_trans w1 w2 w3 : quiet w1 w2 → quiet w2 w3 → quiet w1 w3.
Proof.
  intros [f1 s1 t1 (d1 & E1 & B1)] [f2 s2 t2 (d2 & E2 & B2)]. split.
  - auto.
  - by eapply same_settings_trans.
  - congruence.
  - exists (d2 ++ d1). rewrite E2, E1, app_assoc. split; [done|by apply Forall_app].
Qed.
Lemma guarded_refl w : guarded_step w w.
Proof. split; [done|done|done|]. by exists []. Qed.
Lemma guarded_trans w1 w2 w3 : guarded_step w1 w2 → guarded_step w2 w3 → guarded_step w1 w3.
Proof.
  intros [f1 s1 t1 (d1 & E1 & B1)] [f2 s2 t2 (d2 & E2 & B2)]. split.
  - auto.
  - by eapply same_settings_trans.
  - congruence.
  - exists (d2 ++ d1). rewrite E2, E1, app_assoc. split; [done|by apply Forall_app].
Qed.
Lemma quiet_guarded w w' : quiet w w' → guarded_step w w'.
Proof.
  intros [f s t (d & E & B)]. split; [|done|done|].
  - intros [p Hp]. exists p. auto.
  - exists d. split; [done|]. eapply Forall_impl; [done|]. by intros e [? _].
Qed.

Lemma quiet_last_fw w w' : quiet w w' → last_fw (w_log w') = last_fw (w_log w).
Proof.
  intros [_ _ _ (d & -> & B)]. induction B as [|e d [_ He] _ IH]; cbn; [done|]. by rewrite He.
Qed.

(** Calls that keep the firewall. *)
Lemma call_quiet {A} (f : os → A * os) w a w' :
  (∀ o s, enforced o s → enforced (f o).2 s) → call f w = (a, w') → quiet w w'.
Proof.
  intros Hf. unfold call. specialize (Hf (w_os w)). destruct (f (w_os w)) as [a' o'].
  intros [= <- <-]. split; [done|done|done|]. by exists [].
Qed.

Lemma emit_quiet e w a w' : boring e → emit e w = (a, w') → quiet w w'.
Proof. intros He [= <- <-]. split; [done|done|done|]. exists [e]. split; [done|by apply Forall_singleton]. Qed.

Lemma send_quiet tx w a w' : send tx w = (a, w') → quiet w w'.
Proof. by apply emit_quiet. Qed.

Lemma modify_check_quiet v w a w' : modify_sv (with_check v) w = (a, w') → quiet w w'.
Proof. intros [= <- <-]. split; [done|done|done|]. by exists []. Qed.
End Safety.

#[export] Hint Resolve quiet_refl guarded_refl quiet_guarded : vpn.
#[export] Hint Resolve dns_set_fw dns_reset_fw dns_reset_before_fw route_clear_routes_fw
  route_clear_routing_rules_fw route_stop_fw nm_new_fw nm_disable_fw nm_enable_fw generate_fw
  spawn_tunnel_fw : vpn.

(** Turns the calls among the hypotheses into [quiet] facts. *)
Ltac quiet_calls :=
  repeat match goal with
  | H : call _ ?w = (_, ?w') |- _ =>
      lazymatch goal with
      | _ : quiet w w' |- _ => fail
      | _ => assert (quiet w w') by (refine (call_quiet _ _ _ _ _ H); intros; eauto with vpn)
      end
  | H : send _ ?w = (_, ?w') |- _ => apply send_quiet in H
  | H : modify_sv (with_check _) ?w = (_, ?w') |- _ => apply modify_check_quiet in H
  | H : emit ?e ?w = (_, ?w') |- _ => apply emit_quiet in H; [|done]
  end.
Ltac quiet_chain :=
  repeat match goal with
  | |- quiet ?w ?w => apply quiet_refl
  | H : quiet ?w ?w' |- quiet ?w _ => eapply quiet_trans; [exact H|]; clear H
  end.

Section Calls.
Context {os : Type} `{TunnelOs os}.
Implicit Types (w : World os) (sv : SharedTunnelStateValues).

Lemma disable_connectivity_check_quiet w a w' : disable_connectivity_check w = (a, w') → quiet w w'.
Proof.
  unfold disable_connectivity_check. intros Hr. run_all.
  destruct (connectivity_check_was_enabled _); run_all; [apply quiet_refl|].
  destruct a0; run_all; quiet_calls; quiet_chain.
Qed.

Lemma reset_connectivity_check_quiet w a w' : reset_connectivity_check w = (a, w') → quiet w w'.
Proof.
  unfold reset_connectivity_check. intros Hr. run_all.
  case_decide; run_all; quiet_calls; [|by quiet_chain].
  match goal with r : result unit unit |- _ => destruct r end; run_all; quiet_calls; by quiet_chain.
Qed.

Lemma reset_connectivity_check_none w a w' :
  reset_connectivity_check w = (a, w') → connectivity_check_was_enabled (w_sv w') = None.
Proof.
  unfold reset_connectivity_check, mbind, stateM_bind, get_sv, modify_sv, call, emit, mret, stateM_ret.
  intros Hr. repeat (case_match; simplify_eq; cbn in * ); done.
Qed.

Lemma reset_routes_quiet w a w' : reset_routes w = (a, w') → quiet w w'.
Proof. unfold reset_routes. intros Hr. run_all. quiet_calls. by quiet_chain. Qed.
Lemma dns_monitor_reset_quiet w a w' : dns_monitor_reset w = (a, w') → quiet w w'.
Proof. unfold dns_monitor_reset. intros Hr. run_all. quiet_calls. by quiet_chain. Qed.
Lemma reset_dns_before_removal_quiet w a w' : reset_dns_before_removal w = (a, w') → quiet w w'.
Proof. unfold reset_dns_before_removal. intros Hr. run_all. quiet_calls. by quiet_chain. Qed.
Lemma ConnectedState_set_dns_quiet s w a w' : ConnectedState_set_dns s w = (a, w') → quiet w w'.
Proof. unfold ConnectedState_set_dns. intros Hr. run_all. quiet_calls. by quiet_chain. Qed.

(** Applying a policy. *)
Lemma apply_spec p w r w' :
  firewall_apply_policy p w = (r, w') →
  guarded_step w w' ∧ last_fw (w_log w') = Some (is_ok r) ∧ w_sv w' = w_sv w ∧
  match r with
  | Ok _ => enforced (w_os w') (Some p)
  | Err _ => (∀ s, enforced (w_os w) s → enforced (w_os w') s) ∨ enforced (w_os w') (Some p)
  end.
Proof.
  unfold firewall_apply_policy, mbind, stateM_bind, call, emit, mret, stateM_ret.
  destruct (fw_apply p (w_os w)) as [r' o'] eqn:E. intros [= <- <-]. cbn.
  assert (match r' with
          | Ok _ => enforced o' (Some p)
          | Err _ => (∀ s, enforced (w_os w) s → enforced o' s) ∨ enforced o' (Some p)
          end) as Hr.
  { destruct r' as [[]|[]]; [by eapply fw_apply_ok|by eapply fw_apply_err]. }
  split_and!; [|done..]. split; [|done|done|].
  - intros [q Hq]. destruct r'; [by exists p|]. destruct Hr; [exists q; auto|by exists p].
  - exists [EfApply p (is_ok r')]. split; [done|by apply Forall_singleton].
Qed.

Lemma reset_spec w r w' :
  firewall_reset_policy w = (r, w') →
  same_settings w w' ∧ w_tunnels w' = w_tunnels w ∧ w_log w' = EfReset (is_ok r) :: w_log w ∧
  (is_ok r = true → enforced (w_os w') None).
Proof.
  unfold firewall_reset_policy, mbind, stateM_bind, call, emit, mret, stateM_ret.
  destruct (fw_reset (w_os w)) as [r' o'] eqn:E. intros [= <- <-]. cbn. split_and!; [done..|].
  destruct r' as [[]|]; [|done]. intros _. by eapply fw_reset_ok.
Qed.
End Calls.

(** ** The invariant *)

(** The tunnel a state is responsible for. *)
Definition tunnel_of (st : TunnelState) : option nat :=
  match st with
  | StConnecting s => Some (cg_tunnel_close_tx s)
  | StConnected s => Some (cd_tunnel_close_tx s)
  | StDisconnecting s => Some (ce_tunnel (dg_tunnel_close_event s))
  | _ => None
  end.

Definition event_of (st : TunnelState) : option TunnelCloseEvent :=
  match st with
  | StConnecting s => Some (cg_tunnel_close_event s)
  | StConnected s => Some (cd_tunnel_close_event s)
  | StDisconnecting s => Some (dg_tunnel_close_event s)
  | _ => None
  end.

(** All channels of a state belong to its tunnel, and the end of the tunnel has
    not been reported yet. *)
Definition channels_ok (st : TunnelState) : Prop :=
  (∀ e, event_of st = Some e → tunnel_of st = Some (ce_tunnel e) ∧ is_terminated e = false) ∧
  match st with
  | StConnecting s => cg_tunnel_events s = cg_tunnel_close_tx s
  | StConnected s => cd_tunnel_events s = cd_tunnel_close_tx s
  | _ => True
  end.

Definition started (log : list Effect) (i : nat) : Prop := ∃ p n, EfStart i p n ∈ log.
Definition closed (log : list Effect) (i : nat) : Prop := EfClosed i ∈ log.

Section Invariant.
Context {os : Type} `{TunnelOs os}.
Implicit Types (w : World os) (sv : SharedTunnelStateValues).

(** The tunnels that were started and not closed are exactly [t]. *)
Definition tunnels_ok (t : option nat) w : Prop :=
  (∀ i, started (w_log w) i ∨ closed (w_log w) i → (i < w_tunnels w)%nat) ∧
  (∀ i, started (w_log w) i ∧ ¬ closed (w_log w) i ↔ t = Some i).

(** The firewall policy of a state.  The connecting state keeps the policy in
    place when the tunnel device goes down; the error state and the disconnected
    state report or log a failure and carry on. *)
Definition firewall_ok (st : TunnelState) w : Prop :=
  match st with
  | StConnecting s =>
      ∃ md tr, enforced (w_os w) (Some (connecting_policy (w_sv w) (cg_tunnel_parameters s) md tr)) ∧
        ((md, tr) = (cg_tunnel_metadata s, cg_allowed_tunnel_traffic s) ∨
         (cg_tunnel_metadata s, cg_allowed_tunnel_traffic s) = (None, TrafficNone))
  | StConnected s => enforced (w_os w) (Some (get_firewall_policy s (w_sv w)))
  | StDisconnecting _ => secure w
  | StError _ => last_fw (w_log w) = Some true → enforced (w_os w) (Some (blocked_policy (w_sv w)))
  | StDisconnected =>
      last_fw (w_log w) = Some true →
      enforced (w_os w) (if LockdownMode_bool (lockdown_mode (w_sv w))
                         then Some (blocked_policy (w_sv w)) else None)
  end.

Record inv (st : TunnelState) w : Prop := {
  i_firewall : firewall_ok st w;
  i_tunnels : tunnels_ok (tunnel_of st) w;
  i_channels : channels_ok st;
  i_check : st = StDisconnected → connectivity_check_was_enabled (w_sv w) = None;
  i_close : ∀ s, st = StDisconnecting s → EfSendClose (ce_tunnel (dg_tunnel_close_event s)) ∈ w_log w
}.

(** A transition describes the state it leads to; the error state admits a
    failure to block exactly when applying the policy failed. *)
Definition reports w (st : TunnelState) (tr : TunnelStateTransition) : Prop :=
  match st, tr with
  | StDisconnected, TrDisconnected locked_down => locked_down = LockdownMode_bool (lockdown_mode (w_sv w))
  | StConnecting s, TrConnecting e => e = get_tunnel_endpoint (cg_tunnel_parameters s)
  | StConnected s, TrConnected e => e = connected_endpoint s
  | StDisconnecting s, TrDisconnecting a => a = action (dg_after_disconnect s)
  | StError reason, TrError e =>
      tunnel.cause e = reason ∧ last_fw (w_log w) = Some (tunnel.is_blocking e)
  | _, _ => False
  end.

(** What entering a state establishes. *)
Record entered w (st : TunnelState) (tr : TunnelStateTransition) w' : Prop := {
  e_inv : inv st w';
  e_reports : reports w' st tr;
  e_settings : same_settings w w';
  e_secure : secure w → st ≠ StDisconnected → secure w'
}.

Lemma same_settings_policies w w' :
  same_settings w w' →
  blocked_policy (w_sv w') = blocked_policy (w_sv w) ∧
  (∀ p md tr, connecting_policy (w_sv w') p md tr = connecting_policy (w_sv w) p md tr) ∧
  (∀ s, get_firewall_policy s (w_sv w') = get_firewall_policy s (w_sv w)).
Proof.
  intros (El & Ee & Ed & _). unfold blocked_policy, connecting_policy, get_firewall_policy, resolve_dns.
  rewrite El, Ee, Ed. done.
Qed.

Lemma tame_started d l i : Forall tame d → started (d ++ l) i ↔ started l i.
Proof.
  intros Hd. split; [|intros (p & n & ?); exists p, n; set_solver].
  intros (p & n & [Hin|Hin]%elem_of_app); [|by exists p, n].
  rewrite Forall_forall in Hd. by specialize (Hd _ Hin).
Qed.
Lemma tame_closed d l i : Forall tame d → closed (d ++ l) i ↔ closed l i.
Proof.
  intros Hd. unfold closed. split; [|set_solver].
  intros [Hin|Hin]%elem_of_app; [|done]. rewrite Forall_forall in Hd. by specialize (Hd _ Hin).
Qed.

Lemma tunnels_ok_step t w w' : guarded_step w w' → tunnels_ok t w → tunnels_ok t w'.
Proof.
  intros [_ _ Et (d & El & Hd)] [H1 H2]. unfold tunnels_ok. rewrite El, Et. split; intros i.
  - rewrite tame_started, tame_closed by done. apply H1.
  - rewrite tame_started, tame_closed by done. apply H2.
Qed.
Lemma tunnels_ok_quiet t w w' : quiet w w' → tunnels_ok t w → tunnels_ok t w'.
Proof. intros ?%quiet_guarded. by apply tunnels_ok_step. Qed.

(** The invariant survives quiet steps, apart from the saved connectivity check. *)
Lemma firewall_ok_quiet st w w' : quiet w w' → firewall_ok st w → firewall_ok st w'.
Proof.
  intros Hq. pose proof (q_settings _ _ Hq) as Hs. pose proof (quiet_last_fw _ _ Hq) as Hl.
  destruct (same_settings_policies _ _ Hs) as (Eb & Ec & Ed). destruct Hs as (_ & _ & _ & Em & _).
  destruct st as [|s|s|s|r]; cbn.
  - rewrite Hl, Em, Eb. intros Hi Hx. apply (q_fw _ _ Hq). auto.
  - intros (md & tr & He & Hx). exists md, tr. rewrite Ec. split; [by apply (q_fw _ _ Hq)|done].
  - rewrite Ed. apply (q_fw _ _ Hq).
  - intros [p Hp]. exists p. by apply (q_fw _ _ Hq).
  - rewrite Hl, Eb. intros Hi Hx. apply (q_fw _ _ Hq). auto.
Qed.

Lemma inv_quiet st w w' :
  quiet w w' → connectivity_check_was_enabled (w_sv w') = connectivity_check_was_enabled (w_sv w) →
  inv st w → inv st w'.
Proof.
  intros Hq Hc [If It Ic Ik Is]. split.
  - by eapply firewall_ok_quiet.
  - by eapply tunnels_ok_quiet.
  - done.
  - rewrite Hc. done.
  - intros s Hs. destruct (q_log _ _ Hq) as (d & -> & _). apply elem_of_app. right. auto.
Qed.

(** Receiving the close event ends the tunnel. *)
Lemma tunnels_ok_closed i w a w' :
  tunnels_ok (Some i) w → emit (EfClosed i) w = (a, w') → tunnels_ok None w'.
Proof.
  intros [H1 H2] [= <- <-]. unfold tunnels_ok, started, closed. cbn. split; intros j.
  - intros [(p & n & Hin)|Hin]; [apply H1; left; exists p, n; set_solver|].
    apply elem_of_cons in Hin as [[= ->]|Hin]; [|by apply H1; right].
    apply H1. left. by apply H2.
  - split; [|done]. intros [(p & n & Hin) Hnc]. exfalso.
    assert (Some i = Some j) as [= ->].
    { apply H2. split; [exists p, n; set_solver|]. intros Hc. apply Hnc. unfold closed in Hc. set_solver. }
    set_solver.
Qed.

(** Starting a tunnel when there is none. *)
Lemma start_tunnel_spec params n w s w' :
  tunnels_ok None w → start_tunnel params n w = (s, w') →
  tunnels_ok (Some (cg_tunnel_close_tx s)) w' ∧ same_settings w w' ∧
  (∀ x, enforced (w_os w) x → enforced (w_os w') x) ∧ channels_ok (StConnecting s) ∧
  cg_tunnel_parameters s = params ∧ cg_tunnel_metadata s = None ∧
  cg_allowed_tunnel_traffic s = TrafficNone ∧ cg_retry_attempt s = n.
Proof.
  intros [H1 H2]. unfold start_tunnel, mbind, stateM_bind, fresh_tunnel, call, emit, mret, stateM_ret.
  cbn. destruct (spawn_tunnel_thread _ _ _ _) as [u o'] eqn:E. intros [= <- <-]. cbn.
  split_and!; try done.
  - unfold tunnels_ok, started, closed. cbn. split; intros j.
    + intros [(p & k & Hin)|Hin].
      * apply elem_of_cons in Hin as [[= -> -> ->]|Hin]; [lia|].
        assert (j < w_tunnels w)%nat by (apply H1; left; by exists p, k). lia.
      * assert (j < w_tunnels w)%nat by (apply H1; right; unfold closed; set_solver). lia.
    + split.
      * intros [(p & k & [[= -> -> ->]|Hin]%elem_of_cons) Hnc]; [done|]. exfalso.
        assert (None = Some j); [|done]. apply H2. split; [by exists p, k|]. intros Hc. apply Hnc. set_solver.
      * intros [= <-]. split; [exists params, n; set_solver|]. intros [?|Hin]%elem_of_cons; [done|].
        assert (w_tunnels w < w_tunnels w)%nat; [|lia]. apply H1. right. done.
  - intros x Hx. change o' with (u, o').2. rewrite <- E. by apply spawn_tunnel_fw.
  - split; [|done]. intros e [= <-]. done.
Qed.
End Invariant.

(** ** Entering states *)

Section Enter.
Context {os : Type} `{TunnelOs os}.
Implicit Types (w : World os) (sv : SharedTunnelStateValues).

Lemma is_ok_map_err {E F A} (f : E → F) (r : result E A) : is_ok (map_err f r) = is_ok r.
Proof. by destruct r. Qed.

Lemma error_set_firewall w r w' :
  ErrorState_set_firewall_policy w = (r, w') →
  guarded_step w w' ∧ last_fw (w_log w') = Some (is_ok r) ∧
  (is_ok r = true → enforced (w_os w') (Some (blocked_policy (w_sv w')))).
Proof.
  unfold ErrorState_set_firewall_policy. intros Hr. run_all.
  match goal with
  | E1 : disable_connectivity_check _ = _, E2 : firewall_apply_policy _ _ = _ |- _ =>
      apply disable_connectivity_check_quiet in E1; apply apply_spec in E2 as (Hg & Hl & Hs & He);
      destruct (same_settings_policies _ _ (q_settings _ _ E1)) as (Eb & _);
      pose proof (guarded_trans _ _ _ (quiet_guarded _ _ E1) Hg)
  end.
  rewrite is_ok_map_err. split_and!; [done|done|]. rewrite Hs, Eb.
  match goal with r : result unit unit |- _ => by destruct r end.
Qed.

Lemma error_enter reason w st tr w' :
  tunnels_ok None w → ErrorState_enter reason w = ((st, tr), w') →
  entered w st tr w' ∧ st = StError reason.
Proof.
  intros Ht Hr. unfold ErrorState_enter in Hr. run_all.
  match goal with E : ErrorState_set_firewall_policy _ = _ |- _ => apply error_set_firewall in E as (Hg & Hl & He) end.
  split; [|done]. split.
  - split; [|by eapply tunnels_ok_step|done..]. cbn. rewrite Hl. intros [= ?]. auto.
  - cbn. split; [done|]. rewrite Hl. unfold tunnel.is_blocking. cbn.
    match goal with r : result FirewallPolicyError unit |- _ => by destruct r end.
  - apply Hg.
  - intros Hsec _. by apply Hg.
Qed.

(** Setting the policy of the disconnected state. *)
Lemma disconnected_set_firewall b w a w' :
  DisconnectedState_set_firewall_policy b w = (a, w') →
  same_settings w w' ∧ w_tunnels w' = w_tunnels w ∧
  (∃ d, w_log w' = d ++ w_log w ∧ Forall tame d) ∧ w_sv w' = w_sv w ∧
  ((b = true ∨ LockdownMode_bool (lockdown_mode (w_sv w)) = true ∨ firewall_ok StDisconnected w) →
   firewall_ok StDisconnected w').
Proof.
  unfold DisconnectedState_set_firewall_policy. intros Hr. run_all.
  destruct (LockdownMode_bool (lockdown_mode (w_sv w0))) eqn:El; run_all.
  - match goal with E : firewall_apply_policy _ _ = _ |- _ => apply apply_spec in E as (Hg & Hl & Hs & He) end.
    split_and!; [apply Hg|apply Hg|apply Hg|done|]. intros _. cbn. rewrite Hl, Hs, El.
    match goal with r : result unit unit |- _ => by destruct r end.
  - destruct b; run_all.
    + match goal with E : firewall_reset_policy _ = _ |- _ => pose proof E as Hr; apply reset_spec in E as (Hs & Ht & Hl & He) end.
      assert (w_sv w' = w_sv w0) as Hsv.
      { unfold firewall_reset_policy, mbind, stateM_bind, call, emit in Hr.
        destruct (fw_reset (w_os w0)). by injection Hr as <- <-. }
      split_and!; [done|done| |done|].
      * rewrite Hl. eexists [_]. split; [done|by apply Forall_singleton].
      * intros _. cbn. rewrite Hl, Hsv, El. cbn. intros [= ?]. auto.
    + split_and!; [done|done|by exists []|done|]. intros [?|[?|?]]; [done|congruence|done].
Qed.

Lemma tunnels_ok_same t w w' :
  w_tunnels w' = w_tunnels w → (∃ d, w_log w' = d ++ w_log w ∧ Forall tame d) →
  tunnels_ok t w → tunnels_ok t w'.
Proof.
  intros Et (d & El & Hd) [H1 H2]. unfold tunnels_ok. rewrite El, Et. split; intros i.
  - rewrite tame_started, tame_closed by done. apply H1.
  - rewrite tame_started, tame_closed by done. apply H2.
Qed.

Lemma disconnected_enter b w st tr w' :
  tunnels_ok None w → (b = false → firewall_ok StDisconnected w) →
  DisconnectedState_enter b w = ((st, tr), w') → entered w st tr w' ∧ st = StDisconnected.
Proof.
  intros Ht Hfw Hr. unfold DisconnectedState_enter, DisconnectedState_construct_state_transition in Hr. run_all.
  match goal with
  | E1 : DisconnectedState_set_firewall_policy _ _ = _, E2 : reset_connectivity_check _ = _ |- _ =>
      apply disconnected_set_firewall in E1 as (Hs & Hn & Hd & _ & Hf);
      pose proof (reset_connectivity_check_none _ _ _ E2); apply reset_connectivity_check_quiet in E2 as Hq
  end.
  split; [|done]. split.
  - split; [|by eapply tunnels_ok_quiet, tunnels_ok_same|done|done|done].
    eapply firewall_ok_quiet; [done|]. apply Hf. destruct b; [by left|]. right. right. auto.
  - done.
  - eapply same_settings_trans; [done|apply Hq].
  - done.
Qed.

Lemma disconnecting_enter tx ev after w st tr w' :
  tunnels_ok (Some tx) w → secure w → ce_tunnel ev = tx → is_terminated ev = false →
  DisconnectingState_enter tx ev after w = ((st, tr), w') →
  entered w st tr w' ∧
  st = StDisconnecting {| dg_tunnel_close_event := ev; dg_after_disconnect := after |}.
Proof.
  intros Ht Hsec <- Hterm Hr. unfold DisconnectingState_enter in Hr. run_all.
  match goal with E : emit _ _ = _ |- _ => pose proof E as Hlog; apply emit_quiet in E as Hq; [|done] end.
  injection Hlog as _ Hlog.
  assert (secure w') by (by apply (g_secure _ _ (quiet_guarded _ _ Hq))).
  split; [|done]. split.
  - split.
    + done.
    + by eapply tunnels_ok_quiet.
    + split; [|done]. intros e [= <-]. done.
    + done.
    + intros s [= <-]. rewrite <- Hlog. cbn. set_solver.
  - done.
  - apply Hq.
  - done.
Qed.

Lemma connecting_set_firewall params md tr w r w' :
  ConnectingState_set_firewall_policy params md tr w = (r, w') →
  guarded_step w w' ∧
  (is_ok r = true → enforced (w_os w') (Some (connecting_policy (w_sv w') params md tr))).
Proof.
  unfold ConnectingState_set_firewall_policy. intros Hr. run_all.
  match goal with
  | E1 : disable_connectivity_check _ = _, E2 : firewall_apply_policy _ _ = _ |- _ =>
      apply disable_connectivity_check_quiet in E1; apply apply_spec in E2 as (Hg & Hl & Hs & He);
      pose proof (guarded_trans _ _ _ (quiet_guarded _ _ E1) Hg)
  end.
  rewrite is_ok_map_err, Hs. split; [done|].
  match goal with r : result unit unit |- _ => by destruct r end.
Qed.

Lemma entered_after w0 w st tr w' : guarded_step w0 w → entered w st tr w' → entered w0 st tr w'.
Proof.
  intros [Hsec Hs _ _] [Hi Hr Hs' Hsec']. split; [done|done|by eapply same_settings_trans|auto].
Qed.

Lemma connecting_enter n w st tr w' :
  tunnels_ok None w → ConnectingState_enter n w = ((st, tr), w') →
  entered w st tr w' ∧ ((∃ s, st = StConnecting s ∧ cg_retry_attempt s = n) ∨ ∃ reason, st = StError reason).
Proof.
  intros Ht Hr. unfold ConnectingState_enter in Hr. run_all.
  destruct (availability (connectivity (w_sv w0))) as [av|].
  2: { apply error_enter in Hr as [? ->]; eauto. }
  run_all. match goal with E : call _ _ = _ |- _ => apply call_quiet in E as Hq; [|eauto with vpn] end.
  apply quiet_guarded in Hq.
  match goal with r : result ParameterGenerationError _ |- _ => destruct r as [params|err] end.
  2: { apply error_enter in Hr as [? ->]; [|by eapply tunnels_ok_step]. split; [by eapply entered_after|eauto]. }
  run_all. match goal with E : ConnectingState_set_firewall_policy _ _ _ _ = _ |- _ =>
    apply connecting_set_firewall in E as [Hg He] end.
  pose proof (guarded_trans _ _ _ Hq Hg) as Hgg. pose proof (tunnels_ok_step _ _ _ Hgg Ht) as Ht2.
  match goal with r : result FirewallPolicyError _ |- _ => destruct r as [[]|err] end.
  2: { apply error_enter in Hr as [? ->]; [|done]. split; [by eapply entered_after|eauto]. }
  run_all. match goal with E : start_tunnel _ _ _ = (?s, _) |- _ =>
    apply start_tunnel_spec in E as (Ht3 & Hs & Hfw & Hch & Hpar & Hmd & Htr & Hn); [|done]; rename s into cs end.
  specialize (He eq_refl). apply Hfw in He.
  split; [|left; eauto]. eapply entered_after; [done|]. split.
  - split; [|done|done|done|done]. cbn. destruct (same_settings_policies _ _ Hs) as (_ & Ec & _).
    exists None, TrafficNone. rewrite Ec, Hpar, Hmd, Htr. split; [done|by left].
  - done.
  - done.
  - intros _ _. eexists. exact He.
Qed.

Lemma connected_set_firewall s w r w' :
  ConnectedState_set_firewall_policy s w = (r, w') →
  guarded_step w w' ∧ w_sv w' = w_sv w ∧
  (is_ok r = true → enforced (w_os w') (Some (get_firewall_policy s (w_sv w')))).
Proof.
  unfold ConnectedState_set_firewall_policy. intros Hr. run_all.
  match goal with E : firewall_apply_policy _ _ = _ |- _ => apply apply_spec in E as (Hg & Hl & Hs & He) end.
  rewrite is_ok_map_err, Hs. split_and!; [done|done|].
  match goal with r : result unit unit |- _ => by destruct r end.
Qed.

Lemma connected_enter md evs params ev tx w st tr w' :
  tunnels_ok (Some tx) w → secure w → evs = tx → ce_tunnel ev = tx → is_terminated ev = false →
  ConnectedState_enter md evs params ev tx w = ((st, tr), w') →
  entered w st tr w' ∧
  ((∃ s, st = StConnected s) ∨ ∃ cause, st = StDisconnecting
     {| dg_tunnel_close_event := ev; dg_after_disconnect := AfterBlock cause |}).
Proof.
  intros Ht Hsec -> Hev Hterm Hr. unfold ConnectedState_enter in Hr. run_all.
  match goal with E : ConnectedState_set_firewall_policy _ _ = _ |- _ =>
    apply connected_set_firewall in E as (Hg & _ & He) end.
  match goal with r : result FirewallPolicyError _ |- _ => destruct r as [[]|err] end.
  2: { apply disconnecting_enter in Hr as [? ->]; [|by eapply tunnels_ok_step|by apply Hg|done|done].
       split; [by eapply entered_after|eauto]. }
  run_all. match goal with E : ConnectedState_set_dns _ _ = _ |- _ => apply ConnectedState_set_dns_quiet in E as Hq end.
  apply quiet_guarded in Hq as Hg2. pose proof (guarded_trans _ _ _ Hg Hg2) as Hgg.
  match goal with r : result unit unit |- _ => destruct r end; run_all.
  2: { apply disconnecting_enter in Hr as [? ->]; [|exact (tunnels_ok_step _ _ _ Hgg Ht)|by apply Hgg|done|done].
       split; [by eapply entered_after|eauto]. }
  split; [|by left; eexists]. eapply entered_after; [done|].
  apply (q_fw _ _ Hq) in He; [|done]. destruct (same_settings_policies _ _ (q_settings _ _ Hq)) as (_ & _ & Ed).
  rewrite <- Ed in He. split.
  - split; [exact He|exact (tunnels_ok_step _ _ _ Hgg Ht)|..|done|done].
    split; [|done]. intros e [= <-]. done.
  - done.
  - done.
  - intros _ _. by eexists.
Qed.
End Enter.
