(* ===== verification/TunnelHandlers.v ===== *)
(** * Every handler preserves the invariant

    Each handler of the tunnel state machine is shown to keep the invariant of
    TunnelSafety, to follow the state diagram, and to keep the device secured
    unless the disconnected state is entered. *)

From S2P Require Import Prelude NetTypes TunnelTypes TunnelStates TunnelSafety.

(** ** The state diagram *)

Inductive Kind : Set := KDisconnected | KConnecting | KConnected | KDisconnecting | KError.

Definition kind (st : TunnelState) : Kind :=
  match st with
  | StDisconnected => KDisconnected
  | StConnecting _ => KConnecting
  | StConnected _ => KConnected
  | StDisconnecting _ => KDisconnecting
  | StError _ => KError
  end.

(** The transitions between different states that can be reported. *)
Definition edge (a b : Kind) : bool :=
  match a, b with
  | KDisconnected, (KDisconnected | KConnecting | KError) => true
  | KConnecting, (KConnecting | KConnected | KDisconnecting | KError) => true
  | KConnected, (KConnecting | KDisconnecting | KError) => true
  | KDisconnecting, (KDisconnected | KConnecting | KError) => true
  | KError, (KDisconnected | KConnecting | KError) => true
  | _, _ => false
  end.

(** Commands by which the daemon gives the network up: the user disconnects, or
    the daemon shuts down and closes the channel. *)
Definition releasing (r : EventResult) : bool :=
  match r with EvCommand (Some Disconnect) | EvCommand None => true | _ => false end.

(** The machine is connecting, connected, blocked, or about to be so again. *)
Definition committed (st : TunnelState) : bool :=
  match st with
  | StDisconnected => false
  | StDisconnecting s => match dg_after_disconnect s with AfterNothing => false | _ => true end
  | _ => true
  end.

Section Handlers.
Context {os : Type} `{TunnelOs os}.
Implicit Types (w : World os) (sv : SharedTunnelStateValues).

(** Settings may change, the tunnels do not, and the device stays secured. *)
Record evolves w w' : Prop := {
  v_secure : secure w → secure w';
  v_tunnels : w_tunnels w' = w_tunnels w;
  v_log : ∃ d, w_log w' = d ++ w_log w ∧ Forall tame d
}.

Lemma evolves_refl w : evolves w w.
Proof. split; [done|done|]. by exists []. Qed.
Lemma evolves_trans w1 w2 w3 : evolves w1 w2 → evolves w2 w3 → evolves w1 w3.
Proof.
  intros [f1 t1 (d1 & E1 & B1)] [f2 t2 (d2 & E2 & B2)]. split; [auto|congruence|].
  exists (d2 ++ d1). rewrite E2, E1, app_assoc. split; [done|by apply Forall_app].
Qed.
Lemma guarded_evolves w w' : guarded_step w w' → evolves w w'.
Proof. by intros [? _ ? ?]. Qed.
Lemma quiet_evolves w w' : quiet w w' → evolves w w'.
Proof. intros ?%quiet_guarded. by apply guarded_evolves. Qed.
Lemma modify_evolves f w a w' : modify_sv f w = (a, w') → evolves w w'.
Proof. intros [= <- <-]. split; [done|done|]. by exists []. Qed.

Lemma evolves_tunnels t w w' : evolves w w' → tunnels_ok t w → tunnels_ok t w'.
Proof. intros [_ Ht Hl]. by apply tunnels_ok_same. Qed.

(** The invariant with a new firewall policy. *)
Lemma inv_evolves st w w' :
  evolves w w' → inv st w → firewall_ok st w' →
  (st = StDisconnected → connectivity_check_was_enabled (w_sv w') = None) → inv st w'.
Proof.
  intros Hv [_ It Ic _ Is] Hf Hk. split; [done|by eapply evolves_tunnels|done|done|].
  intros s Hs. destruct (v_log _ _ Hv) as (d & -> & _). apply elem_of_app. right. auto.
Qed.

(** ** What a handler guarantees *)

Record handled (st : TunnelState) (r : EventResult) w (c : EventConsequence) w' : Prop := {
  h_inv : match c with
          | NewState st' tr => inv st' w' ∧ reports w' st' tr
          | SameState st' => inv st' w'
          | Finished => True
          end;
  h_edge : match c with
           | NewState st' _ => edge (kind st) (kind st') = true
           | SameState st' => kind st' = kind st
           | Finished => st = StDisconnected
           end;
  h_secure : secure w → (∀ tr, c ≠ NewState StDisconnected tr) → secure w';
  h_committed : committed st = true → releasing r = false →
    match c with
    | NewState st' _ | SameState st' => committed st' = true
    | Finished => False
    end
}.

(** Staying in the same state. *)
Lemma handled_same st st' r w w' :
  evolves w w' → inv st' w' → kind st' = kind st →
  (committed st = true → releasing r = false → committed st' = true) →
  handled st r w (SameState st') w'.
Proof. intros Hv Hi Hk Hc. split; [done|done|intros; by apply Hv|done]. Qed.

(** Entering another state. *)
Lemma handled_new st r w0 w st' tr w' :
  evolves w0 w → entered w st' tr w' → edge (kind st) (kind st') = true →
  (committed st = true → releasing r = false → committed st' = true) →
  handled st r w0 (NewState st' tr) w'.
Proof.
  intros Hv [Hi Hr _ Hs] He Hc. split; [done|done| |done].
  intros Hsec Hne. apply Hs; [by apply Hv|]. intros ->. by eapply Hne.
Qed.

Lemma send_sv tx w a w' : send tx w = (a, w') → w_sv w' = w_sv w ∧ quiet w w'.
Proof. intros E. split; [by injection E as <- <-|by eapply send_quiet]. Qed.

Lemma set_allow_lan_spec v w b w' :
  set_allow_lan v w = (b, w') →
  evolves w w' ∧ w_os w' = w_os w ∧ w_log w' = w_log w ∧
  w_sv w' = with_allow_lan v (w_sv w) ∧ (b = false → w' = w).
Proof.
  unfold set_allow_lan. intros Hr. run_all.
  destruct (Bool.eqb (allow_lan (w_sv w0)) v) eqn:E; cbn in Hr; run_all.
  - apply Bool.eqb_prop in E as <-. split_and!; [apply evolves_refl|done..| |done].
    by destruct (w_sv w').
  - match goal with X : modify_sv _ _ = _ |- _ => pose proof (modify_evolves _ _ _ _ X); injection X as _ <- end.
    done.
Qed.

Lemma set_dns_config_spec v w b w' :
  set_dns_config v w = (b, w') →
  evolves w w' ∧ w_os w' = w_os w ∧ w_log w' = w_log w ∧
  w_sv w' = with_dns_config v (w_sv w) ∧ (b = false → w' = w).
Proof.
  unfold set_dns_config. intros Hr. run_all. case_decide as E; run_all.
  - split_and!; [apply evolves_refl|done..| |done]. by destruct (w_sv w').
  - match goal with X : modify_sv _ _ = _ |- _ => pose proof (modify_evolves _ _ _ _ X); injection X as _ <- end.
    done.
Qed.

(** ** The disconnected state *)

Lemma disconnected_policy_evolves w a w' :
  DisconnectedState_set_firewall_policy false w = (a, w') →
  evolves w w' ∧ w_sv w' = w_sv w ∧ (firewall_ok StDisconnected w ∨ LockdownMode_bool (lockdown_mode (w_sv w)) = true → firewall_ok StDisconnected w').
Proof.
  intros Hr. pose proof (disconnected_set_firewall _ _ _ _ Hr) as (_ & Ht & Hl & Hsv & Hf).
  split_and!; [|done|intros [?|?]; auto]. split; [|done|done].
  unfold DisconnectedState_set_firewall_policy in Hr. run_all.
  destruct (LockdownMode_bool _); run_all; [|done].
  match goal with E : firewall_apply_policy _ _ = _ |- _ => apply apply_spec in E as (Hg & _) end. apply Hg.
Qed.

(** A settings change in the disconnected state re-applies the policy only when
    it is locked down. *)
Lemma disconnected_reapply w w1 a w' :
  inv StDisconnected w → evolves w w1 → w_os w1 = w_os w → w_log w1 = w_log w →
  lockdown_mode (w_sv w1) = lockdown_mode (w_sv w) →
  connectivity_check_was_enabled (w_sv w1) = connectivity_check_was_enabled (w_sv w) →
  DisconnectedState_set_firewall_policy false w1 = (a, w') →
  evolves w w' ∧ inv StDisconnected w'.
Proof.
  intros Hi Hv Ho Hl Hm Hk Hr. apply disconnected_policy_evolves in Hr as (Hv' & Hsv & Hf).
  pose proof (evolves_trans _ _ _ Hv Hv') as Hvv. split; [done|].
  apply (inv_evolves _ w); [done|done| |].
  - apply Hf. destruct (LockdownMode_bool (lockdown_mode (w_sv w1))) eqn:E; [by right|left].
    pose proof (i_firewall _ _ Hi) as If. cbn in *. rewrite Hl, Ho, E. rewrite Hm in E. by rewrite E in If.
  - intros _. rewrite Hsv, Hk. by apply (i_check _ _ Hi).
Qed.

(** Sending an acknowledgement after everything else. *)
Lemma inv_send st tx w a w' : send tx w = (a, w') → inv st w → inv st w' ∧ evolves w w'.
Proof.
  intros [Hsv Hq]%send_sv Hi. split; [|by apply quiet_evolves].
  apply (inv_quiet _ w); [done|by rewrite Hsv|done].
Qed.

(** The state stays and the acknowledgement is the last call. *)
Lemma handled_send st st' r tx w w1 a w' :
  evolves w w1 → inv st' w1 → kind st' = kind st →
  (committed st = true → releasing r = false → committed st' = true) →
  send tx w1 = (a, w') → handled st r w (SameState st') w'.
Proof.
  intros Hv Hi Hk Hc Hs. apply (inv_send st') in Hs as [Hi' Hv']; [|done].
  apply handled_same; [by eapply evolves_trans|done..].
Qed.

Lemma handled_then_send st r tx w c w1 a w' :
  handled st r w c w1 → send tx w1 = (a, w') → handled st r w c w'.
Proof.
  intros [Hi He Hs Hc] [Hsv Hq]%send_sv. split; [|done| |done].
  - assert (∀ st, inv st w1 → inv st w') as Hinv.
    { intros st0. apply inv_quiet; [done|by rewrite Hsv]. }
    destruct c as [st' tr|st'|]; [|by apply Hinv|done]. destruct Hi as [Hi Hr]. split; [by apply Hinv|].
    destruct st', tr; try done; cbn in *; rewrite ?Hsv, ?(quiet_last_fw _ _ Hq); done.
  - intros Hsec Hne. apply (v_secure _ _ (quiet_evolves _ _ Hq)). auto.
Qed.

Lemma disconnected_lockdown v tx w c w' :
  inv StDisconnected w →
  DisconnectedState_handle_event (Some (SetLockdownMode v tx)) w = (c, w') →
  handled StDisconnected (EvCommand (Some (SetLockdownMode v tx))) w c w'.
Proof.
  intros Hi Hr. cbn in Hr. run_all. destruct (LockdownMode_eq _ _); cbn in Hr; run_all.
  { eapply handled_send; [apply evolves_refl|done..|eassumption]. }
  unfold DisconnectedState_construct_state_transition in *. run_all.
  match goal with
  | E1 : modify_sv _ _ = (_, ?w1), E2 : DisconnectedState_set_firewall_policy _ ?w1 = (_, ?w2),
    E3 : send _ ?w2 = (_, ?w3) |- _ =>
      pose proof (modify_evolves _ _ _ _ E1) as Hv1; injection E1 as _ Hw1;
      apply disconnected_set_firewall in E2 as (_ & Ht & Hl & Hsv & Hf); apply send_sv in E3 as [Hsv3 Hq]
  end.
  split; [|done| |done].
  - split; [|done]. split; [..|done].
    + eapply firewall_ok_quiet; [done|]. apply Hf. by left.
    + eapply tunnels_ok_quiet; [done|]. eapply tunnels_ok_same; [done|done|].
      eapply evolves_tunnels; [done|]. apply Hi.
    + apply Hi.
    + intros _. rewrite Hsv3, Hsv, <- Hw1. by apply (i_check _ _ Hi).
  - intros _ Hne. by edestruct Hne.
Qed.

Lemma disconnected_handled command w c w' :
  inv StDisconnected w → DisconnectedState_handle_event command w = (c, w') →
  handled StDisconnected (EvCommand command) w c w'.
Proof.
  intros Hi Hr. pose proof (i_tunnels _ _ Hi) as Ht. cbn in Ht.
  destruct command as [[v tx|v tx|v tx|v tx|v| | |reason]|].
  4: { by apply disconnected_lockdown. }
  all: cbn in Hr; run_all.
  - match goal with E : set_allow_lan _ _ = (?b, _) |- _ =>
      apply set_allow_lan_spec in E as (Hv & Ho & Hl & Hsv & Hb); destruct b end.
    + match goal with E : DisconnectedState_set_firewall_policy _ _ = _ |- _ =>
        eapply disconnected_reapply in E as [Hv2 Hi2]; [|done|done|done|done|by rewrite Hsv|by rewrite Hsv] end.
      eapply handled_send; [done|done|done|done|eassumption].
    + rewrite Hb in * by done. run_all. eapply handled_send; [apply evolves_refl|done..|eassumption].
  - case_decide; run_all.
    + eapply handled_send; [apply evolves_refl|done..|eassumption].
    + match goal with E1 : modify_sv _ _ = _, E2 : DisconnectedState_set_firewall_policy _ _ = _ |- _ =>
        pose proof (modify_evolves _ _ _ _ E1); injection E1 as _ <-;
        eapply disconnected_reapply in E2 as [Hv2 Hi2]; [|done..] end.
      eapply handled_send; [done|done|done|done|eassumption].
  - match goal with E : set_dns_config _ _ = (?b, _) |- _ =>
      apply set_dns_config_spec in E as (Hv & Ho & Hl & Hsv & _) end.
    eapply handled_send; [exact Hv| |done|done|eassumption]. eapply inv_evolves; [exact Hv|exact Hi|..].
    + cbn. rewrite Ho, Hl, Hsv. exact (i_firewall _ _ Hi).
    + intros _. rewrite Hsv. by apply (i_check _ _ Hi).
  - match goal with E1 : modify_sv _ _ = _ |- _ => pose proof (modify_evolves _ _ _ _ E1) as Hv; injection E1 as _ <- end.
    apply handled_same; [done| |done|done]. eapply inv_evolves; [exact Hv|exact Hi|exact (i_firewall _ _ Hi)|].
    intros _. by apply (i_check _ _ Hi).
  - match goal with E : ConnectingState_enter _ _ = (?x, _) |- _ =>
      destruct x as [st tr]; apply connecting_enter in E as [He Hx]; [|done] end.
    eapply handled_new; [apply evolves_refl|done| |done]. by destruct Hx as [(s & -> & _)|(? & ->)].
  - by apply handled_same; [apply evolves_refl|..].
  - by apply handled_same; [apply evolves_refl|..].
  - match goal with E : dns_monitor_reset _ = _ |- _ => apply dns_monitor_reset_quiet, quiet_evolves in E end.
    split; [done|done| |done]. intros ? _. by eapply v_secure.
Qed.

(** ** The connecting state *)

Lemma inv_secure st w : inv st w → tunnel_of st ≠ None → secure w.
Proof.
  intros Hi Ht. pose proof (i_firewall _ _ Hi) as Hf. destruct st as [|s|s|s|r]; cbn in *; [done|..|done].
  - destruct Hf as (md & tr & Hf & _). by eexists.
  - by eexists.
  - done.
Qed.

(** Leaving for the disconnecting state; [w1] is the world after the calls that
    precede [disconnect]. *)
Lemma connecting_disconnect s r after w w1 c w' :
  inv (StConnecting s) w → evolves w w1 →
  (releasing r = false → after ≠ AfterNothing) →
  ConnectingState_disconnect s after w1 = (c, w') → handled (StConnecting s) r w c w'.
Proof.
  intros Hi Hv Ha Hr. unfold ConnectingState_disconnect in Hr. run_all.
  match goal with
  | E1 : reset_routes _ = _, E2 : DisconnectingState_enter _ _ _ _ = (?x, _) |- _ =>
      apply reset_routes_quiet, quiet_evolves in E1; pose proof (evolves_trans _ _ _ Hv E1) as Hv2;
      destruct x as [st tr]
  end.
  destruct (i_channels _ _ Hi) as [Hch _]. destruct (Hch _ eq_refl) as [[= Hev] Hterm].
  match goal with E2 : DisconnectingState_enter _ _ _ _ = _ |- _ =>
    apply disconnecting_enter in E2 as [He ->];
      [|eapply evolves_tunnels; [exact Hv2|apply Hi]
       |apply (v_secure _ _ Hv2), (inv_secure _ _ Hi); done|done|done] end.
  eapply handled_new; [exact Hv2|done|done|].
  intros _ Hrel. cbn. destruct after; [|done..]. by destruct (Ha Hrel).
Qed.

(** Re-applying the policy of the connecting state after a change of settings. *)
Lemma connecting_reset_firewall s r w w1 c w' :
  inv (StConnecting s) w → evolves w w1 → ConnectingState_reset_firewall s w1 = (c, w') →
  handled (StConnecting s) r w c w'.
Proof.
  intros Hi Hv Hr. unfold ConnectingState_reset_firewall in Hr. run_all.
  match goal with E : ConnectingState_set_firewall_policy _ _ _ _ = (?x, _) |- _ =>
    apply connecting_set_firewall in E as [Hg He]; apply guarded_evolves in Hg;
    pose proof (evolves_trans _ _ _ Hv Hg) as Hv2; destruct x as [[]|err] end; run_all.
  - apply handled_same; [done| |done|done]. eapply inv_evolves; [exact Hv2|exact Hi| |done].
    exists (cg_tunnel_metadata s), (cg_allowed_tunnel_traffic s). split; [auto|by left].
  - by eapply connecting_disconnect; [exact Hi|exact Hv2| |exact Hr].
Qed.

(** Changes of settings that the policy of the connecting state does not depend on. *)
Lemma connecting_setting s f w a w' :
  inv (StConnecting s) w →
  (∀ sv, allow_lan (f sv) = allow_lan sv ∧ allowed_endpoint (f sv) = allowed_endpoint sv) →
  modify_sv f w = (a, w') → inv (StConnecting s) w' ∧ evolves w w'.
Proof.
  intros Hi Hf Hm. pose proof (modify_evolves _ _ _ _ Hm) as Hv. injection Hm as _ <-.
  split; [|done]. eapply inv_evolves; [exact Hv|exact Hi| |done].
  destruct (i_firewall _ _ Hi) as (md & tr & He & Hx). exists md, tr. split; [|done].
  unfold connecting_policy in *. cbn. by destruct (Hf (w_sv w)) as [-> ->].
Qed.

Lemma connecting_commands s command w c w' :
  inv (StConnecting s) w → ConnectingState_handle_commands s command w = (c, w') →
  handled (StConnecting s) (EvCommand command) w c w'.
Proof.
  intros Hi Hr. destruct command as [[v tx|v tx|v tx|v tx|v| | |reason]|]; cbn in Hr; run_all.
  - match goal with E : set_allow_lan _ _ = (?b, _) |- _ =>
      apply set_allow_lan_spec in E as (Hv & Ho & Hl & Hsv & Hb); destruct b end.
    + eapply handled_then_send; [|eassumption]. by eapply connecting_reset_firewall.
    + rewrite Hb in * by done. run_all. eapply handled_send; [apply evolves_refl|done..|eassumption].
  - case_decide; run_all; [eapply handled_send; [apply evolves_refl|done..|eassumption]|].
    match goal with
    | E1 : modify_sv _ _ = _, E2 : ConnectingState_set_firewall_policy _ _ _ _ = (?x, _) |- _ =>
        apply modify_evolves in E1; apply connecting_set_firewall in E2 as [Hg He]; apply guarded_evolves in Hg;
        pose proof (evolves_trans _ _ _ E1 Hg) as Hv2; destruct x as [[]|err]; run_all
    end.
    + eapply handled_send; [exact Hv2| |done|done|eassumption]. eapply inv_evolves; [exact Hv2|exact Hi| |done].
      exists (cg_tunnel_metadata s), (cg_allowed_tunnel_traffic s). split; [auto|by left].
    + match goal with E : send _ _ = _ |- _ => apply send_quiet, quiet_evolves in E;
        by eapply connecting_disconnect; [exact Hi|exact (evolves_trans _ _ _ Hv2 E)| |exact Hr] end.
  - match goal with E : set_dns_config _ _ = _ |- _ => apply set_dns_config_spec in E as (Hv & Ho & Hl & Hsv & _) end.
    eapply handled_send; [exact Hv| |done|done|eassumption]. eapply inv_evolves; [exact Hv|exact Hi| |done].
    cbn. rewrite Ho, Hsv. exact (i_firewall _ _ Hi).
  - match goal with E : modify_sv _ _ = _ |- _ => eapply connecting_setting in E as [Hi' Hv]; [|done..] end.
    eapply handled_send; [exact Hv|done|done|done|eassumption].
  - match goal with E : modify_sv _ _ = _ |- _ => eapply connecting_setting in E as [Hi' Hv]; [|done..] end.
    destruct (is_offline v); run_all; [|by apply handled_same].
    by eapply connecting_disconnect; [exact Hi|exact Hv| |exact Hr].
  - by eapply connecting_disconnect; [exact Hi|apply evolves_refl| |exact Hr].
  - by eapply connecting_disconnect; [exact Hi|apply evolves_refl| |exact Hr].
  - by eapply connecting_disconnect; [exact Hi|apply evolves_refl| |exact Hr].
  - by eapply connecting_disconnect; [exact Hi|apply evolves_refl| |exact Hr].
Qed.

Lemma connecting_tunnel_events s event w c w' :
  inv (StConnecting s) w → ConnectingState_handle_tunnel_events s event w = (c, w') →
  handled (StConnecting s) (EvEvent event) w c w'.
Proof.
  intros Hi Hr. destruct event as [[[reason|md al|md|] tx]|]; cbn in Hr.
  - by eapply connecting_disconnect; [exact Hi|apply evolves_refl| |exact Hr].
  - run_all. match goal with E : ConnectingState_set_firewall_policy _ _ _ _ = (?x, _) |- _ =>
      apply connecting_set_firewall in E as [Hg He]; apply guarded_evolves in Hg; destruct x as [[]|err] end; run_all.
    + apply handled_same; [done| |done|done].
      destruct Hi as [_ It Ic _ Is]. split; [|by eapply evolves_tunnels|exact Ic|done|done].
      exists (Some md), al. split; [auto|by left].
    + change (ConnectingState_disconnect s (AfterBlock (SetFirewallPolicyError err)) w0 = (c, w')) in Hr.
      by eapply connecting_disconnect; [exact Hi|exact Hg| |exact Hr].
  - run_all. match goal with E : ConnectedState_enter _ _ _ _ _ _ = (?x, _) |- _ =>
      destruct x as [st tr]; destruct (i_channels _ _ Hi) as [Hch Hev]; destruct (Hch _ eq_refl) as [[= Htx] Hterm];
      apply connected_enter in E as [He Hx]; [|apply Hi|by apply (inv_secure _ _ Hi)|done|done|done] end.
    eapply handled_new; [apply evolves_refl|done|..]; by destruct Hx as [(? & ->)|(? & ->)].
  - run_all. apply handled_same; [apply evolves_refl| |done|done].
    destruct Hi as [If It Ic _ Is]. split; [|exact It|exact Ic|done|done].
    destruct If as (md & tr & He & _). exists md, tr. split; [done|by right].
  - by eapply connecting_disconnect; [exact Hi|apply evolves_refl| |exact Hr].
Qed.

(** Entering another state once the tunnel is closed; [w1] is the world after
    the clean-up. *)
Lemma closed_error st r reason w w1 x w' :
  evolves w w1 → tunnels_ok None w1 → edge (kind st) KError = true →
  ErrorState_enter reason w1 = (x, w') → handled st r w (to_new_state x) w'.
Proof.
  intros Hv Ht He Hr. destruct x as [st' tr]. apply error_enter in Hr as [Hen ->]; [|done].
  by eapply handled_new.
Qed.

Lemma closed_connect st r n w w1 x w' :
  evolves w w1 → tunnels_ok None w1 → edge (kind st) KError = true → edge (kind st) KConnecting = true →
  ConnectingState_enter n w1 = (x, w') → handled st r w (to_new_state x) w'.
Proof.
  intros Hv Ht He1 He2 Hr. destruct x as [st' tr]. apply connecting_enter in Hr as [Hen Hx]; [|done].
  eapply handled_new; [done|done|..]; by destruct Hx as [(? & -> & _)|(? & ->)].
Qed.

(** Receiving a close event: the tunnel is gone, everything else is as before. *)
Lemma close_received st e w a w' :
  inv st w → event_of st = Some e → emit (EfClosed (ce_tunnel e)) w = (a, w') →
  tunnels_ok None w' ∧ (secure w → secure w').
Proof.
  intros Hi He Hc. destruct (i_channels _ _ Hi) as [Hch _]. destruct (Hch _ He) as [Ht _]. split.
  - eapply tunnels_ok_closed; [|done]. rewrite <- Ht. apply Hi.
  - by injection Hc as <- <-.
Qed.

(** [handled] from the world after the close event to the world before it. *)
Lemma handled_before st r w w1 c w' :
  (secure w → secure w1) → handled st r w1 c w' → handled st r w c w'.
Proof. intros Hs [H1 H2 H3 H4]. split; auto. Qed.

Lemma connecting_close s block_reason w w1 a c w' :
  inv (StConnecting s) w → emit (EfClosed (ce_tunnel (cg_tunnel_close_event s))) w = (a, w1) →
  ConnectingState_handle_tunnel_close_event (cg_completed s) block_reason w1 = (c, w') →
  ∀ r, handled (StConnecting s) r w c w'.
Proof.
  intros Hi Hc Hr r. destruct (close_received _ _ _ _ _ Hi eq_refl Hc) as [Ht Hs].
  apply (handled_before _ _ _ w1); [done|].
  destruct block_reason as [reason|]; cbn in Hr; run_all.
  all: match goal with E : reset_routes _ = _ |- _ => apply reset_routes_quiet, quiet_evolves in E as Hv end.
  all: pose proof (evolves_tunnels _ _ _ Hv Ht).
  - by eapply closed_error.
  - by eapply closed_connect.
Qed.

(** ** The connected state *)

Lemma connected_disconnect s r after w w1 c w' :
  inv (StConnected s) w → evolves w w1 → (releasing r = false → after ≠ AfterNothing) →
  ConnectedState_disconnect s after w1 = (c, w') → handled (StConnected s) r w c w'.
Proof.
  intros Hi Hv Ha Hr. unfold ConnectedState_disconnect in Hr. run_all.
  match goal with
  | E0 : reset_dns_before_removal _ = _, E1 : reset_routes _ = _,
    E2 : DisconnectingState_enter _ _ _ _ = (?x, _) |- _ =>
      apply reset_dns_before_removal_quiet, quiet_evolves in E0;
      apply reset_routes_quiet, quiet_evolves in E1;
      pose proof (evolves_trans _ _ _ Hv (evolves_trans _ _ _ E0 E1)) as Hv2; destruct x as [st tr]
  end.
  destruct (i_channels _ _ Hi) as [Hch _]. destruct (Hch _ eq_refl) as [[= Hev] Hterm].
  match goal with E2 : DisconnectingState_enter _ _ _ _ = _ |- _ =>
    apply disconnecting_enter in E2 as [He ->];
      [|eapply evolves_tunnels; [exact Hv2|apply Hi]
       |apply (v_secure _ _ Hv2), (inv_secure _ _ Hi); done|done|done] end.
  eapply handled_new; [exact Hv2|done|done|].
  intros _ Hrel. cbn. destruct after; [|done..]. by destruct (Ha Hrel).
Qed.

(** Re-applying the policy of the connected state. *)
Lemma connected_reapply s w w1 r w' :
  inv (StConnected s) w → evolves w w1 → ConnectedState_set_firewall_policy s w1 = (r, w') →
  evolves w w' ∧ (is_ok r = true → inv (StConnected s) w').
Proof.
  intros Hi Hv Hr. apply connected_set_firewall in Hr as (Hg%guarded_evolves & _ & He).
  pose proof (evolves_trans _ _ _ Hv Hg) as Hv2. split; [done|]. intros Hok.
  eapply inv_evolves; [exact Hv2|exact Hi|by apply He|done].
Qed.

Lemma connected_dns s v tx w c w' :
  inv (StConnected s) w → ConnectedState_handle_commands s (Some (Dns v tx)) w = (c, w') →
  handled (StConnected s) (EvCommand (Some (Dns v tx))) w c w'.
Proof.
  intros Hi Hr. cbn in Hr. run_all.
  match goal with E : set_dns_config _ _ = (?b, _) |- _ =>
    apply set_dns_config_spec in E as (Hv & Ho & Hl & Hsv & Hb); destruct b; run_all end.
  2: { rewrite Hb in * by done. eapply handled_send; [apply evolves_refl|done..|eassumption]. }
  match goal with E : ConnectedState_set_firewall_policy _ _ = (?x, _) |- _ =>
    eapply connected_reapply in E as [Hv2 Hi2]; [|exact Hi|exact Hv]; destruct x as [[]|err] end.
  2: { by eapply connected_disconnect; [exact Hi|exact Hv2| |exact Hr]. }
  run_all. specialize (Hi2 eq_refl).
  match goal with E : ConnectedState_set_dns _ _ = (?x, _) |- _ =>
    apply ConnectedState_set_dns_quiet in E as Hq; destruct x as [[]|err]; run_all end.
  - eapply handled_send; [exact (evolves_trans _ _ _ Hv2 (quiet_evolves _ _ Hq))| |done|done|eassumption].
    eapply inv_evolves; [exact (quiet_evolves _ _ Hq)|exact Hi2| |done].
    by eapply firewall_ok_quiet, (i_firewall _ _ Hi2).
  - eapply handled_then_send; [|eassumption].
    by eapply connected_disconnect; [exact Hi|exact (evolves_trans _ _ _ Hv2 (quiet_evolves _ _ Hq))| |eassumption].
Qed.

(** Changes of settings that the policy of the connected state does not depend on. *)
Lemma connected_setting s f w a w' :
  inv (StConnected s) w →
  (∀ sv, allow_lan (f sv) = allow_lan sv ∧ dns_config (f sv) = dns_config sv) →
  modify_sv f w = (a, w') → inv (StConnected s) w' ∧ evolves w w'.
Proof.
  intros Hi Hf Hm. pose proof (modify_evolves _ _ _ _ Hm) as Hv. injection Hm as _ <-.
  split; [|done]. eapply inv_evolves; [exact Hv|exact Hi| |done].
  pose proof (i_firewall _ _ Hi) as He. unfold firewall_ok, get_firewall_policy, resolve_dns in *. cbn.
  by destruct (Hf (w_sv w)) as [-> ->].
Qed.

Lemma connected_commands s command w c w' :
  inv (StConnected s) w → ConnectedState_handle_commands s command w = (c, w') →
  handled (StConnected s) (EvCommand command) w c w'.
Proof.
  intros Hi Hr. destruct command as [[v tx|v tx|v tx|v tx|v| | |reason]|].
  3: { by apply connected_dns. }
  all: cbn in Hr; run_all.
  - match goal with E : set_allow_lan _ _ = (?b, _) |- _ =>
      apply set_allow_lan_spec in E as (Hv & Ho & Hl & Hsv & Hb); destruct b; run_all end.
    2: { rewrite Hb in * by done. eapply handled_send; [apply evolves_refl|done..|eassumption]. }
    match goal with E : ConnectedState_set_firewall_policy _ _ = (?x, _) |- _ =>
      eapply connected_reapply in E as [Hv2 Hi2]; [|exact Hi|exact Hv]; destruct x as [[]|err]; run_all end.
    + eapply handled_send; [exact Hv2|by apply Hi2|done|done|eassumption].
    + eapply handled_then_send; [|eassumption].
      by eapply connected_disconnect; [exact Hi|exact Hv2| |eassumption].
  - match goal with E : modify_sv _ _ = _ |- _ => eapply connected_setting in E as [Hi' Hv]; [|done..] end.
    eapply handled_send; [exact Hv|done|done|done|eassumption].
  - match goal with E : modify_sv _ _ = _ |- _ => eapply connected_setting in E as [Hi' Hv]; [|done..] end.
    eapply handled_send; [exact Hv|done|done|done|eassumption].
  - match goal with E : modify_sv _ _ = _ |- _ => eapply connected_setting in E as [Hi' Hv]; [|done..] end.
    destruct (is_offline v); run_all; [|by apply handled_same].
    by eapply connected_disconnect; [exact Hi|exact Hv| |exact Hr].
  - by eapply connected_disconnect; [exact Hi|apply evolves_refl| |exact Hr].
  - by eapply connected_disconnect; [exact Hi|apply evolves_refl| |exact Hr].
  - by eapply connected_disconnect; [exact Hi|apply evolves_refl| |exact Hr].
  - by eapply connected_disconnect; [exact Hi|apply evolves_refl| |exact Hr].
Qed.

Lemma connected_tunnel_events s event w c w' :
  inv (StConnected s) w → ConnectedState_handle_tunnel_events s event w = (c, w') →
  handled (StConnected s) (EvEvent event) w c w'.
Proof.
  intros Hi Hr. destruct event as [[[reason|md al|md|] tx]|]; cbn in Hr; run_all.
  1-3: by apply handled_same; [apply evolves_refl|..].
  all: by eapply connected_disconnect; [exact Hi|apply evolves_refl| |exact Hr].
Qed.

Lemma connected_close s block_reason w w1 a c w' :
  inv (StConnected s) w → emit (EfClosed (ce_tunnel (cd_tunnel_close_event s))) w = (a, w1) →
  ConnectedState_handle_tunnel_close_event (cd_completed s) block_reason w1 = (c, w') →
  ∀ r, handled (StConnected s) r w c w'.
Proof.
  intros Hi Hc Hr r. destruct (close_received _ _ _ _ _ Hi eq_refl Hc) as [Ht Hs].
  apply (handled_before _ _ _ w1); [done|].
  destruct block_reason as [reason|]; cbn in Hr; run_all.
  all: match goal with E0 : reset_dns_before_removal _ = _, E : reset_routes _ = _ |- _ =>
         apply reset_routes_quiet, quiet_evolves in E; apply reset_dns_before_removal_quiet, quiet_evolves in E0;
         pose proof (evolves_trans _ _ _ E0 E) as Hv end.
  all: pose proof (evolves_tunnels _ _ _ Hv Ht).
  - by eapply closed_error.
  - by eapply closed_connect.
Qed.

(** ** The disconnecting state *)

Lemma disconnecting_settings s w w1 after :
  inv (StDisconnecting s) w → evolves w w1 → inv (StDisconnecting (with_after after s)) w1.
Proof.
  intros Hi Hv. pose proof (inv_secure _ _ Hi ltac:(done)) as Hsec.
  destruct Hi as [_ It Ic _ Is]. split.
  - cbn. by apply (v_secure _ _ Hv).
  - by eapply evolves_tunnels.
  - exact Ic.
  - done.
  - intros s0 [= <-]. destruct (v_log _ _ Hv) as (d & -> & _). apply elem_of_app. right. exact (Is s eq_refl).
Qed.

(** Only a request to release the network makes the machine disconnect for good. *)
Lemma next_after_committed after command :
  after ≠ AfterNothing → releasing (EvCommand command) = false →
  next_after_disconnect after command ≠ AfterNothing.
Proof.
  destruct command as [[]|]; cbn; try done; destruct after as [|[]|]; try done;
    by destruct (is_offline _).
Qed.

Lemma disconnecting_commands s command w c w' :
  inv (StDisconnecting s) w → DisconnectingState_handle_commands s command w = (c, w') →
  handled (StDisconnecting s) (EvCommand command) w c w'.
Proof.
  intros Hi Hr. unfold DisconnectingState_handle_commands in Hr. apply stateM_bind_inv in Hr as (u & w1 & E & Hr).
  run_all.
  assert (evolves w w') as Hv.
  { destruct command as [[v tx|v tx|v tx|v tx|v| | |reason]|]; run_all; try apply evolves_refl;
      repeat match goal with
      | X : set_allow_lan _ _ = _ |- _ => apply set_allow_lan_spec in X as (? & _)
      | X : set_dns_config _ _ = _ |- _ => apply set_dns_config_spec in X as (? & _)
      | X : modify_sv _ _ = _ |- _ => apply modify_evolves in X
      | X : send _ _ = _ |- _ => apply send_quiet, quiet_evolves in X
      end; by eauto using evolves_trans. }
  apply handled_same; [done|by eapply disconnecting_settings|done|].
  cbn. intros Hc Hrel. destruct (dg_after_disconnect s) as [|cause|n] eqn:Ea; [done|..].
  all: pose proof (next_after_committed (dg_after_disconnect s) command) as Hn; rewrite Ea in Hn.
  all: destruct (next_after_disconnect _ _); [exfalso; by apply Hn|done..].
Qed.

Lemma disconnecting_close s block_reason w w1 a x w' r :
  inv (StDisconnecting s) w → emit (EfClosed (ce_tunnel (dg_tunnel_close_event s))) w = (a, w1) →
  DisconnectingState_after_disconnect s block_reason w1 = (x, w') →
  handled (StDisconnecting s) r w (to_new_state x) w'.
Proof.
  intros Hi Hc Hr. destruct (close_received _ _ _ _ _ Hi eq_refl Hc) as [Ht Hs].
  apply (handled_before _ _ _ w1); [done|]. unfold DisconnectingState_after_disconnect in Hr.
  destruct block_reason as [reason|]; [by eapply closed_error; [apply evolves_refl|..]|].
  destruct (dg_after_disconnect s) as [|cause|n] eqn:Ea.
  - destruct x as [st' tr]. apply disconnected_enter in Hr as [He ->]; [|done|done].
    eapply handled_new; [apply evolves_refl|done|done|]. cbn. by rewrite Ea.
  - by eapply closed_error; [apply evolves_refl|..].
  - by eapply closed_connect; [apply evolves_refl|..].
Qed.

(** ** The error state *)

Lemma error_reapply reason w w1 r w' :
  inv (StError reason) w → evolves w w1 → ErrorState_set_firewall_policy w1 = (r, w') →
  inv (StError reason) w' ∧ evolves w w'.
Proof.
  intros Hi Hv Hr. apply error_set_firewall in Hr as (Hg%guarded_evolves & Hl & He).
  pose proof (evolves_trans _ _ _ Hv Hg) as Hv2. split; [|done].
  eapply inv_evolves; [exact Hv2|exact Hi| |done]. cbn. rewrite Hl. intros [= ?]. auto.
Qed.

Lemma error_setting reason f w a w' :
  inv (StError reason) w →
  (∀ sv, allow_lan (f sv) = allow_lan sv ∧ allowed_endpoint (f sv) = allowed_endpoint sv) →
  modify_sv f w = (a, w') → inv (StError reason) w' ∧ evolves w w'.
Proof.
  intros Hi Hf Hm. pose proof (modify_evolves _ _ _ _ Hm) as Hv. injection Hm as _ <-.
  split; [|done]. eapply inv_evolves; [exact Hv|exact Hi| |done].
  pose proof (i_firewall _ _ Hi) as He. unfold firewall_ok, blocked_policy in *. cbn.
  by destruct (Hf (w_sv w)) as [-> ->].
Qed.

Lemma error_release reason w w1 w2 x u v w' r :
  inv (StError reason) w → releasing r = true →
  reset_connectivity_check w = (u, w1) → dns_monitor_reset w1 = (v, w2) →
  DisconnectedState_enter true w2 = (x, w') → handled (StError reason) r w (to_new_state x) w'.
Proof.
  intros Hi Hrel E1%reset_connectivity_check_quiet%quiet_evolves E2%dns_monitor_reset_quiet%quiet_evolves Hr.
  pose proof (evolves_trans _ _ _ E1 E2) as Hv. destruct x as [st tr].
  apply disconnected_enter in Hr as [He ->]; [|eapply evolves_tunnels; [exact Hv|apply Hi]|done].
  eapply handled_new; [exact Hv|done|done|]. congruence.
Qed.

Lemma error_handled reason command w c w' :
  inv (StError reason) w → ErrorState_handle_event reason command w = (c, w') →
  handled (StError reason) (EvCommand command) w c w'.
Proof.
  intros Hi Hr. pose proof (i_tunnels _ _ Hi) as Ht.
  destruct command as [[v tx|v tx|v tx|v tx|v| | |cause]|]; cbn in Hr; run_all.
  - match goal with E : set_allow_lan _ _ = (?b, _) |- _ =>
      apply set_allow_lan_spec in E as (Hv & Ho & Hl & Hsv & Hb); destruct b; run_all end.
    2: { rewrite Hb in * by done. eapply handled_send; [apply evolves_refl|done..|eassumption]. }
    match goal with E : ErrorState_set_firewall_policy _ = _ |- _ =>
      eapply error_reapply in E as [Hi2 Hv2]; [|exact Hi|exact Hv] end.
    eapply handled_send; [exact Hv2|done|done|done|eassumption].
  - case_decide; run_all; [eapply handled_send; [apply evolves_refl|done..|eassumption]|].
    match goal with E1 : modify_sv _ _ = _, E : ErrorState_set_firewall_policy _ = _ |- _ =>
      apply modify_evolves in E1; eapply error_reapply in E as [Hi2 Hv2]; [|exact Hi|exact E1] end.
    eapply handled_send; [exact Hv2|done|done|done|eassumption].
  - match goal with E : set_dns_config _ _ = (?b, _) |- _ =>
      apply set_dns_config_spec in E as (Hv & Ho & Hl & Hsv & Hb); destruct b; run_all end.
    2: { rewrite Hb in * by done. eapply handled_send; [apply evolves_refl|done..|eassumption]. }
    match goal with E : ErrorState_set_firewall_policy _ = _ |- _ =>
      eapply error_reapply in E as [Hi2 Hv2]; [|exact Hi|exact Hv] end.
    eapply handled_send; [exact Hv2|done|done|done|eassumption].
  - match goal with E : modify_sv _ _ = _ |- _ => eapply error_setting in E as [Hi2 Hv]; [|done..] end.
    eapply handled_send; [exact Hv|done|done|done|eassumption].
  - match goal with E : modify_sv _ _ = _ |- _ => eapply error_setting in E as [Hi2 Hv]; [|done..] end.
    destruct (negb (is_offline v) && _); run_all; [|by apply handled_same].
    match goal with E : dns_monitor_reset _ = _ |- _ => apply dns_monitor_reset_quiet, quiet_evolves in E as Hv2 end.
    eapply closed_connect; [exact (evolves_trans _ _ _ Hv Hv2)| |done|done|eassumption].
    eapply evolves_tunnels; [exact Hv2|apply Hi2].
  - match goal with E : dns_monitor_reset _ = _ |- _ => apply dns_monitor_reset_quiet, quiet_evolves in E as Hv2 end.
    eapply closed_connect; [exact Hv2| |done|done|eassumption]. by eapply evolves_tunnels.
  - by eapply error_release.
  - by eapply closed_error; [apply evolves_refl|..].
  - by eapply error_release.
Qed.

(** ** All states *)

Lemma handle_event_handled st r handler w c w' :
  inv st w → handle_event st r = Some handler → handler w = (c, w') → handled st r w c w'.
Proof.
  intros Hi Hh Hr. destruct st as [|s|s|s|reason]; cbn in Hh.
  - destruct r as [command| |]; [|done..]. injection Hh as <-. by apply disconnected_handled.
  - destruct r as [command|event|result]; cbn in Hh.
    + injection Hh as <-. by apply connecting_commands.
    + injection Hh as <-. by apply connecting_tunnel_events.
    + destruct (is_terminated _); [done|]. injection Hh as <-. run_all. by eapply connecting_close.
  - destruct r as [command|event|result]; cbn in Hh.
    + injection Hh as <-. by apply connected_commands.
    + injection Hh as <-. by apply connected_tunnel_events.
    + destruct (is_terminated _); [done|]. injection Hh as <-. run_all. by eapply connected_close.
  - destruct r as [command|event|result]; cbn in Hh.
    + injection Hh as <-. by apply disconnecting_commands.
    + done.
    + destruct (i_channels _ _ Hi) as [Hch _]. destruct (Hch _ eq_refl) as [_ Hterm].
      rewrite Hterm in Hh. injection Hh as <-. run_all. by eapply disconnecting_close.
  - destruct r as [command| |]; [|done..]. injection Hh as <-. by apply error_handled.
Qed.
End Handlers.
