(* ===== verification/TunnelTheorems.v ===== *)
(** * Theorems about the tunnel state machine *)

From S2P Require Import Prelude NetTypes TunnelTypes TunnelStates TunnelSafety TunnelHandlers.

Section Reachable.
Context {os : Type} `{TunnelOs os}.
Implicit Types (m : TunnelStateMachine (os := os)) (w : World os).

(** ** One iteration of the loop *)

Lemma step_inv m r ok t m' st :
  step m r ok = Some (t, m') → current_state m = Some st → inv st (world m) →
  ∃ c w', handled st r (world m) c w' ∧
    match c with
    | NewState st' tr => (t, m') = if ok then (Some tr, {| current_state := Some st'; world := w' |})
                                   else (None, stop w')
    | SameState st' => (t, m') = (None, {| current_state := Some st'; world := w' |})
    | Finished => (t, m') = (None, stop w')
    end.
Proof.
  intros Hs Hst Hi. unfold step in Hs. rewrite Hst in Hs. cbn in Hs.
  destruct (handle_event st r) as [handler|] eqn:Hh; cbn in Hs; [|done].
  destruct (handler (world m)) as [c w'] eqn:Hr. exists c, w'.
  split; [by eapply handle_event_handled|]. injection Hs as <-. by destruct c, ok.
Qed.

Lemma initial_inv settings c (o : os) st :
  current_state (TunnelStateMachine_new settings c o) = Some st →
  inv st (world (TunnelStateMachine_new settings c o)) ∧ st = StDisconnected.
Proof.
  unfold TunnelStateMachine_new. set (w0 := {| w_sv := _ |}).
  destruct (DisconnectedState_enter (reset_firewall settings) w0) as [[st0 tr] w'] eqn:E. cbn. intros [= ->].
  apply disconnected_enter in E as [He ->]; [by split; [apply He|]| |].
  - unfold tunnels_ok, started, closed. cbn. set_solver.
  - done.
Qed.

Lemma reachable_inv m st : reachable m → current_state m = Some st → inv st (world m).
Proof.
  intros Hr. revert st. induction Hr as [settings c o|m r ok t m' Hr IH Hs]; intros st Hst.
  - by apply initial_inv.
  - destruct (current_state m) as [st0|] eqn:Hst0; [|by unfold step in Hs; rewrite Hst0 in Hs].
    destruct (step_inv _ _ _ _ _ _ Hs Hst0 (IH _ eq_refl)) as (c & w' & Hh & Hc).
    pose proof (h_inv _ _ _ _ _ Hh) as Hi.
    destruct c as [st' tr|st'|]; [destruct ok|..]; simplify_eq/=; [apply Hi|exact Hi].
Qed.

Lemma stop_secure w : secure w → secure (world (stop w)).
Proof.
  intros [p Hp]. exists p. unfold stop, call. cbn. pose proof (route_stop_fw _ _ Hp).
  by destruct (route_stop (w_os w)).
Qed.

Lemma run_step_inv (f : EventResult * bool) inputs m ts m' :
  run (f :: inputs) m = Some (ts, m') →
  ∃ t m1 ts', step m f.1 f.2 = Some (t, m1) ∧ run inputs m1 = Some (ts', m').
Proof.
  destruct f as [r ok]. cbn [run]. destruct (step m r ok) as [[t m1]|] eqn:Es; cbn; [|done].
  destruct (run inputs m1) as [[ts' m2]|] eqn:E; cbn; [|done]. 
  intros [= <- <-]. exists t, m1, ts'. done.
Qed.

(** ** The kill switch *)

Lemma kill_switch_run inputs m ts m' :
  reachable m → secure (world m) → (∀ st, current_state m = Some st → committed st = true) →
  Forall (λ i, releasing i.1 = false) inputs → run inputs m = Some (ts, m') →
  secure (world m') ∧ ∀ st, current_state m' = Some st → committed st = true.
Proof.
  revert m ts. induction inputs as [|[r ok] inputs IH]; intros m ts Hr Hsec Hc Hf Hrun.
  - cbn in Hrun. simplify_eq. done.
  - apply Forall_cons in Hf as [Hrel Hf]. apply run_step_inv in Hrun as (t & m1 & ts' & Hs & Hrun).
    cbn in Hrel, Hs. destruct (current_state m) as [st|] eqn:Hst; [|by unfold step in Hs; rewrite Hst in Hs].
    pose proof (reachable_inv _ _ Hr Hst) as Hi.
    destruct (step_inv _ _ _ _ _ _ Hs Hst Hi) as (c & w' & [Hinv He Hse Hco] & Hm).
    specialize (Hc _ eq_refl). specialize (Hco Hc Hrel).
    assert (secure w') as Hsec'.
    { apply Hse; [done|]. intros tr ->. done. }
    eapply IH; [by eapply reachable_step|..|done|done].
    + destruct c; [destruct ok|..]; simplify_eq/=; [done|by apply stop_secure|done].
    + destruct c; [destruct ok|..]; simplify_eq/=; naive_solver.
Qed.

(** C2: The kill switch: from a machine that is connecting, connected or blocked
    with a policy in force, whatever commands, tunnel events and failures of the
    firewall, the DNS monitor or the route manager follow, as long as nobody asks
    to disconnect or shuts the machine down, a firewall policy stays in force and
    the machine does not return to the disconnected state. *)
Theorem kill_switch m (st : TunnelState) (inputs : list (EventResult * bool))
    (ts : list TunnelStateTransition) m' :
  reachable m → current_state m = Some st → committed st = true →
  secure (world m) ∨ tunnel_of st ≠ None →
  Forall (λ i, releasing i.1 = false) inputs → run inputs m = Some (ts, m') →
  secure (world m') ∧ ∀ st', current_state m' = Some st' → committed st' = true.
Proof.
  intros Hr Hst Hc Hsec Hf Hrun. eapply kill_switch_run; [exact Hr|..|exact Hf|exact Hrun].
  - destruct Hsec as [?|Ht]; [done|]. by apply (inv_secure st), Ht; apply reachable_inv.
  - rewrite Hst. by intros ? [= <-].
Qed.

(** The policy of a state, spelled out. *)
Definition state_policy (st : TunnelState) w : Prop :=
  let sv := w_sv w in
  let blocked := Blocked (allow_lan sv) (Some (allowed_endpoint sv)) in
  match st with
  | StConnecting s =>
      ∃ md tr, enforced (w_os w) (Some (Connecting (peer_endpoints_of (cg_tunnel_parameters s)) md
                                          (allow_lan sv) (allowed_endpoint sv) tr)) ∧
        ((md, tr) = (cg_tunnel_metadata s, cg_allowed_tunnel_traffic s) ∨
         (cg_tunnel_metadata s, cg_allowed_tunnel_traffic s) = (None, TrafficNone))
  | StConnected s =>
      enforced (w_os w) (Some (Connected (peer_endpoints_of (cd_tunnel_parameters s)) (cd_metadata s)
                                 (allow_lan sv) (resolve (dns_config sv) (gateways (cd_metadata s)))))
  | StDisconnecting _ => ∃ policy, enforced (w_os w) (Some policy)
  | StError _ => last_fw (w_log w) = Some true → enforced (w_os w) (Some blocked)
  | StDisconnected =>
      last_fw (w_log w) = Some true →
      enforced (w_os w) (if LockdownMode_bool (lockdown_mode sv) then Some blocked else None)
  end.

Lemma firewall_ok_state st w : firewall_ok st w → state_policy st w.
Proof. by destruct st. Qed.

(** C4: In every reachable machine the firewall holds the policy of the current
    state, with the settings last accepted.  Connected: exactly the connected
    policy of the tunnel.  Connecting: the connecting policy of the tunnel's
    peers, with exactly the tunnel metadata and traffic the state holds when it
    holds any; when it holds none, the theorem leaves the policy's metadata and
    traffic open, because the state forgets them when the tunnel device goes
    down without applying a new policy.  Disconnecting: some policy, which may
    have been applied before settings changed.  Error and disconnected: exactly
    the blocking policy (or, disconnected without lockdown mode, none), unless
    the last call to the firewall failed. *)
Theorem firewall_matches_state m (st : TunnelState) :
  reachable m → current_state m = Some st → state_policy st (world m).
Proof. intros Hr Hst. apply firewall_ok_state, (reachable_inv _ _ Hr Hst). Qed.

(** A reported transition is true: it describes the state the machine is in,
    it is an edge of the state diagram, and the error state claims to block
    exactly when the blocking policy has been applied. *)
Theorem transitions_sound m (r : EventResult) (ok : bool) (tr : TunnelStateTransition) m' (st : TunnelState) :
  reachable m → current_state m = Some st → step m r ok = Some (Some tr, m') →
  ∃ st', current_state m' = Some st' ∧ edge (kind st) (kind st') = true ∧
    reports (world m') st' tr ∧
    ∀ e, tr = TrError e → tunnel.is_blocking e = true →
      enforced (w_os (world m')) (Some (blocked_policy (w_sv (world m')))).
Proof.
  intros Hr Hst Hs. pose proof (reachable_inv _ _ Hr Hst) as Hi.
  destruct (step_inv _ _ _ _ _ _ Hs Hst Hi) as (c & w' & [Hinv He _ _] & Hm).
  destruct c as [st' tr'|st'|]; [destruct ok|..]; simplify_eq/=.
  destruct Hinv as [Hinv Hrep]. exists st'. split_and!; [done|done|done|].
  intros e -> Hb. destruct st' as [| | | |reason]; try done. cbn in Hrep. destruct Hrep as [_ Hl].
  apply (i_firewall _ _ Hinv). by rewrite Hl, Hb.
Qed.

(** At most one tunnel exists at any time: the tunnels started and not yet
    closed are exactly the one the current state is responsible for, all channels
    of the state belong to it, its end has not been received yet, and the
    disconnecting state has asked it to close. *)
Theorem one_tunnel_at_a_time m (st : TunnelState) :
  reachable m → current_state m = Some st →
  (∀ i, started (w_log (world m)) i ∧ ¬ closed (w_log (world m)) i ↔ tunnel_of st = Some i) ∧
  channels_ok st ∧
  ∀ s, st = StDisconnecting s → EfSendClose (ce_tunnel (dg_tunnel_close_event s)) ∈ w_log (world m).
Proof.
  intros Hr Hst. destruct (reachable_inv _ _ Hr Hst) as [_ [_ Ht] Hc _ Hs]. done.
Qed.

(** ** Acknowledgements *)

Definition ack_of (cmd : TunnelCommand) : option Sender :=
  match cmd with
  | AllowLan _ tx | AllowEndpoint _ tx | Dns _ tx | SetLockdownMode _ tx => Some tx
  | _ => None
  end.

(** The one command that is dropped: a DNS change in the connected state whose
    firewall policy cannot be applied. *)
Definition dropped (st : TunnelState) (cmd : TunnelCommand) w : Prop :=
  ∃ s v tx, st = StConnected s ∧ cmd = Dns v tx ∧ dns_config (w_sv w) ≠ v ∧
    is_ok (fw_apply (get_firewall_policy s (with_dns_config v (w_sv w))) (w_os w)).1 = false.

Lemma send_acked tx w a w' : send tx w = (a, w') → EfAck tx ∈ w_log w'.
Proof. intros [= _ <-]. cbn. set_solver. Qed.

Lemma evolves_acked tx w w' : evolves w w' → EfAck tx ∈ w_log w → EfAck tx ∈ w_log w'.
Proof. intros [_ _ (d & -> & _)]. set_solver. Qed.

Lemma disconnecting_log tx ev after w x w' :
  DisconnectingState_enter tx ev after w = (x, w') → w_log w' = EfSendClose tx :: w_log w.
Proof.
  unfold DisconnectingState_enter. intros Hr. run_all.
  match goal with E : emit _ _ = _ |- _ => by injection E as _ <- end.
Qed.

Lemma call_log {A} (f : os → A * os) w a w' : call f w = (a, w') → w_log w' = w_log w.
Proof. unfold call. destruct (f (w_os w)). by intros [= _ <-]. Qed.

(** Disconnecting from the connected state only asks the tunnel to close. *)
Lemma connected_disconnect_log s after w c w' :
  ConnectedState_disconnect s after w = (c, w') →
  w_log w' = EfSendClose (cd_tunnel_close_tx s) :: w_log w.
Proof.
  unfold ConnectedState_disconnect, reset_dns_before_removal, reset_routes. intros Hr. run_all.
  repeat match goal with E : call _ _ = _ |- _ => apply call_log in E end.
  match goal with E : DisconnectingState_enter _ _ _ _ = _ |- _ => apply disconnecting_log in E; congruence end.
Qed.

Lemma connecting_disconnect_acked s after tx w c w' :
  EfAck tx ∈ w_log w → ConnectingState_disconnect s after w = (c, w') → EfAck tx ∈ w_log w'.
Proof.
  unfold ConnectingState_disconnect, reset_routes. intros Hin Hr. run_all.
  repeat match goal with E : call _ _ = _ |- _ => apply call_log in E end.
  match goal with E : DisconnectingState_enter _ _ _ _ = _ |- _ => apply disconnecting_log in E as -> end.
  apply elem_of_cons. right. congruence.
Qed.

(** A DNS change in the connected state. *)
Lemma connected_dns_ack s v tx w c w' :
  EfAck tx ∉ w_log w → ConnectedState_handle_commands s (Some (Dns v tx)) w = (c, w') →
  EfAck tx ∈ w_log w' ↔ ¬ dropped (StConnected s) (Dns v tx) w.
Proof.
  intros Hni Hr. cbn in Hr. unfold set_dns_config in Hr. run_all.
  case_decide as Hd; run_all.
  { split; [intros _ (s0 & v0 & tx0 & _ & [= <- <-] & Hn & _); done|]. intros _. by eapply send_acked. }
  match goal with E : modify_sv _ _ = _ |- _ => injection E as _ <- end.
  match goal with E : ConnectedState_set_firewall_policy _ _ = (?x, _) |- _ =>
    unfold ConnectedState_set_firewall_policy, firewall_apply_policy in E; run_all end.
  match goal with E : call (fw_apply ?p) ?w0 = _, E2 : emit _ _ = _ |- _ =>
    unfold call in E; cbn in E; destruct (fw_apply p _) as [r o] eqn:Ef;
    injection E as <- <-; injection E2 as _ <- end.
  destruct r as [[]|[]]; cbn in Hr.
  - run_all. split; [intros _ (s0 & v0 & tx0 & [= <-] & [= <- <-] & _ & Hx); by rewrite Ef in Hx|].
    intros _. by eapply send_acked.
  - apply connected_disconnect_log in Hr. split; [rewrite Hr; cbn; set_solver|].
    intros Hnd. destruct Hnd. exists s, v, tx. by rewrite Ef.
Qed.

(** Every command that carries a completion channel is acknowledged when the
    state has handled it, whatever fails on the way, in particular an allowed
    endpoint; the one exception is a change of DNS servers in the connected state
    whose firewall policy cannot be applied. *)
Theorem commands_acknowledged (st : TunnelState) (cmd : TunnelCommand) (tx : Sender) handler w
    (c : EventConsequence) w' :
  ack_of cmd = Some tx → handle_event st (EvCommand (Some cmd)) = Some handler →
  EfAck tx ∉ w_log w → handler w = (c, w') →
  EfAck tx ∈ w_log w' ↔ ¬ dropped st cmd w.
Proof.
  intros Ha Hh Hni Hr.
  assert ((∀ s v tx, st = StConnected s → cmd = Dns v tx → False) → EfAck tx ∈ w_log w' →
          EfAck tx ∈ w_log w' ↔ ¬ dropped st cmd w) as Hother.
  { intros Hne Hin. split; [|done]. intros _ (s & v & tx' & -> & -> & _). by eapply Hne. }
  destruct cmd as [v tx'|v tx'|v tx'|v tx'|v| | |cause]; try discriminate Ha; injection Ha as ->;
    destruct st as [|s|s|s|reason]; cbn in Hh; injection Hh as <-; try (by eapply connected_dns_ack).
  all: apply Hother; [done|].
  all: cbn in Hr; run_all.
  all: try (by eapply send_acked).
  all: unfold DisconnectingState_handle_commands in *; run_all; try (by eapply send_acked).
  all: try (case_match; run_all; by eapply send_acked).
  - case_decide; run_all; [by eapply send_acked|].
    case_match; run_all; [by eapply send_acked|].
    eapply connecting_disconnect_acked; [|exact Hr]. by eapply send_acked.
  - unfold DisconnectedState_construct_state_transition in *.
    destruct (negb _); run_all; by eapply send_acked.
Qed.

(** ** Shutting down *)

Lemma step_same m st r ok handler st' w' :
  current_state m = Some st → handle_event st r = Some handler → handler (world m) = (SameState st', w') →
  step m r ok = Some (None, {| current_state := Some st'; world := w' |}).
Proof. intros Hst Hh Hr. unfold step. rewrite Hst. cbn. rewrite Hh. cbn. by rewrite Hr. Qed.

Lemma step_new m st r handler st' tr w' :
  current_state m = Some st → handle_event st r = Some handler → handler (world m) = (NewState st' tr, w') →
  step m r true = Some (Some tr, {| current_state := Some st'; world := w' |}).
Proof. intros Hst Hh Hr. unfold step. rewrite Hst. cbn. rewrite Hh. cbn. by rewrite Hr. Qed.

Lemma run_cons m r ok t m1 inputs ts m' :
  step m r ok = Some (t, m1) → run inputs m1 = Some (ts, m') →
  ∃ ts', run ((r, ok) :: inputs) m = Some (ts', m').
Proof. intros Hs Hr. cbn [run]. rewrite Hs. cbn. rewrite Hr. cbn. eauto. Qed.

(** The events of a shutdown: the command channel is closed, and a tunnel that
    was asked to close does so. *)
Definition shutdown_event (r : EventResult) : Prop := r = EvCommand None ∨ r = EvClose (Ok None).

Definition shuts_down (n : nat) m : Prop :=
  ∃ inputs ts m', (length inputs ≤ n)%nat ∧
    Forall (λ i, shutdown_event i.1 ∧ i.2 = true) inputs ∧
    run inputs m = Some (ts, m') ∧ current_state m' = None.

Lemma shuts_down_step n m r t m1 :
  shutdown_event r → step m r true = Some (t, m1) → shuts_down n m1 → shuts_down (S n) m.
Proof.
  intros Hr Hs (inputs & ts & m' & Hl & Hf & Hrun & Hend).
  destruct (run_cons _ _ _ _ _ _ _ _ Hs Hrun) as [ts' Hrun'].
  exists ((r, true) :: inputs), ts', m'. split_and!; [cbn; lia| |done|done].
  by constructor.
Qed.

Lemma disconnected_shuts_down m : current_state m = Some StDisconnected → shuts_down 1 m.
Proof.
  intros Hst. exists [(EvCommand None, true)].
  assert (∃ m', step m (EvCommand None) true = Some (None, m') ∧ current_state m' = None) as (m' & Hs & He).
  { unfold step. rewrite Hst. cbn. unfold dns_monitor_reset, mbind, stateM_bind. destruct (call _ _). cbn. eauto. }
  eexists [], m'. split_and!; [done| | |done].
  - apply Forall_singleton. by split; [left|].
  - cbn [run]. rewrite Hs. done.
Qed.

Lemma error_shuts_down m reason : current_state m = Some (StError reason) → shuts_down 2 m.
Proof.
  intros Hst.
  destruct (ErrorState_handle_event reason None (world m)) as [c w'] eqn:Hr. pose proof Hr as Hr'.
  cbn in Hr. run_all.
  match goal with E : DisconnectedState_enter _ _ = (?x, _) |- _ =>
    unfold DisconnectedState_enter, DisconnectedState_construct_state_transition in E; run_all end.
  eapply shuts_down_step; [by left|by eapply step_new|]. by apply disconnected_shuts_down.
Qed.

Lemma disconnecting_shuts_down m s :
  current_state m = Some (StDisconnecting s) → is_terminated (dg_tunnel_close_event s) = false →
  (∀ n, dg_after_disconnect s ≠ AfterReconnect n) → shuts_down 3 m.
Proof.
  intros Hst Hterm Hafter.
  assert (∃ h, handle_event (StDisconnecting s) (EvClose (Ok None)) = Some h ∧
    ∃ st tr w', h (world m) = (NewState st tr, w') ∧ (st = StDisconnected ∨ ∃ reason, st = StError reason)) as
    (h & Hh & st & tr & w' & Hr & Hx).
  { unfold handle_event, DisconnectingState_handle_event. rewrite Hterm. eexists; split; [done|].
    lazymatch goal with |- context [?h (world m)] => destruct (h (world m)) as [c w'] eqn:E end. run_all.
    unfold DisconnectingState_after_disconnect, block_reason_of in *.
    destruct (dg_after_disconnect s) as [|cause|n]; [..|by destruct (Hafter n)].
    - unfold DisconnectedState_enter, DisconnectedState_construct_state_transition in *. run_all.
      eexists _, _, _. split; [done|by left].
    - unfold ErrorState_enter in *. run_all. eexists _, _, _. split; [done|right; eauto]. }
  eapply shuts_down_step; [by right|by eapply step_new|].
  destruct Hx as [->|[reason ->]]; [|by eapply error_shuts_down].
  destruct (disconnected_shuts_down {| current_state := Some StDisconnected; world := w' |} eq_refl)
    as (i & ts & m' & ? & ?). exists i, ts, m'. split; [lia|done].
Qed.

Lemma shuts_down_le n n' m : (n ≤ n')%nat → shuts_down n m → shuts_down n' m.
Proof. intros Hle (i & ts & m' & ? & ?). exists i, ts, m'. split; [lia|done]. Qed.

(** A machine that has seen the end of its commands: it is not in a state with a
    live tunnel, and will not reconnect when the tunnel has closed. *)
Definition shutting_down m : Prop :=
  match current_state m with
  | None | Some StDisconnected | Some (StError _) => True
  | Some (StDisconnecting s) => ∀ n, dg_after_disconnect s ≠ AfterReconnect n
  | _ => False
  end.

(** How many steps it has left, not counting those that wait for the tunnel. *)
Definition steps_left m : nat :=
  match current_state m with
  | None => 0
  | Some StDisconnected => 1
  | Some (StError _) => 2
  | _ => 3
  end.

(** No more commands. *)
Definition no_command (i : EventResult * bool) : Prop := ∀ c, i.1 ≠ EvCommand (Some c).

Lemma after_disconnect_ends s b w x w' :
  (∀ n, dg_after_disconnect s ≠ AfterReconnect n) → DisconnectingState_after_disconnect s b w = (x, w') →
  x.1 = StDisconnected ∨ ∃ reason, x.1 = StError reason.
Proof.
  intros Hafter Hx. unfold DisconnectingState_after_disconnect in Hx.
  destruct b as [b|]; [unfold ErrorState_enter in Hx; run_all; right; eauto|].
  destruct (dg_after_disconnect s) as [|cause|n]; [..|by destruct (Hafter n)].
  - unfold DisconnectedState_enter, DisconnectedState_construct_state_transition in Hx. run_all. by left.
  - unfold ErrorState_enter in Hx. run_all. right; eauto.
Qed.

Definition moves_on m m' (r : EventResult) : Prop :=
  shutting_down m' ∧
  ((steps_left m' < steps_left m)%nat ∨
   (r = EvCommand None ∧ (∃ s, current_state m = Some (StDisconnecting s)) ∧ ∃ s, current_state m' = Some (StDisconnecting s))).

Lemma step_parts m r ok t m' :
  step m r ok = Some (t, m') →
  ∃ st handler c w', current_state m = Some st ∧ handle_event st r = Some handler ∧ handler (world m) = (c, w') ∧
    (t, m') = match c with
              | NewState st' tr => if ok then (Some tr, {| current_state := Some st'; world := w' |}) else (None, stop w')
              | SameState st' => (None, {| current_state := Some st'; world := w' |})
              | Finished => (None, stop w')
              end.
Proof.
  unfold step. destruct (current_state m) as [st|]; [|done]. cbn.
  destruct (handle_event st r) as [handler|] eqn:Hh; [|done]. cbn.
  destruct (handler (world m)) as [c w'] eqn:Hr. intros [= E]. exists st, handler, c, w'. by rewrite <- E.
Qed.

Lemma shutdown_step m r ok t m' :
  shutting_down m → (∀ c, r ≠ EvCommand (Some c)) → step m r ok = Some (t, m') → moves_on m m' r.
Proof.
  intros Hsh Hc (st & h & c & w' & Hst & Hh & Hr & Hm)%step_parts.
  unfold moves_on, shutting_down, steps_left in *. rewrite Hst in *.
  destruct st as [| | |s|reason]; try done; cbn in Hh.
  - destruct r as [[cm|]| |]; [by destruct (Hc cm)| |done..]. injection Hh as <-. cbn in Hr. run_all.
    injection Hm as -> ->. cbn. split; [done|left; lia].
  - destruct r as [[cm|]| |res]; [by destruct (Hc cm)| |done|]; cbn in Hh.
    + injection Hh as <-. unfold DisconnectingState_handle_commands in Hr. run_all. injection Hm as -> ->.
      split; [cbn; by destruct (dg_after_disconnect s)|]. right. cbn. eauto.
    + assert (∃ b w0 x, DisconnectingState_after_disconnect s b w0 = (x, w') ∧ c = NewState x.1 x.2) as
        (b & w0 & x & Hx & ->).
      { destruct (is_terminated (dg_tunnel_close_event s)); injection Hh as <-; run_all.
        - by exists None, (world m), a.
        - by eexists _, _, _. }
      apply after_disconnect_ends in Hx; [|done]. destruct ok; injection Hm as -> ->; cbn.
      * destruct Hx as [->|[? ->]]; (split; [done|left; lia]).
      * split; [done|left; lia].
  - destruct r as [[cm|]| |]; [by destruct (Hc cm)| |done..]. injection Hh as <-. cbn in Hr. run_all.
    match goal with E : DisconnectedState_enter _ _ = (?x, _) |- _ =>
      unfold DisconnectedState_enter, DisconnectedState_construct_state_transition in E; run_all end.
    destruct ok; injection Hm as -> ->; cbn; (split; [done|left; lia]).
Qed.

(** The first look at the closed channel. *)
Lemma shutdown_begins m ok t m' : step m (EvCommand None) ok = Some (t, m') → shutting_down m'.
Proof.
  intros (st & h & c & w' & Hst & Hh & Hr & Hm)%step_parts. unfold shutting_down.
  destruct st as [|s|s|s|reason]; cbn in Hh; injection Hh as <-; cbn in Hr.
  - run_all. by injection Hm as -> ->.
  - unfold ConnectingState_disconnect, DisconnectingState_enter in Hr. run_all.
    by destruct ok; injection Hm as -> ->.
  - unfold ConnectedState_disconnect, DisconnectingState_enter in Hr. run_all.
    by destruct ok; injection Hm as -> ->.
  - unfold DisconnectingState_handle_commands in Hr. run_all. injection Hm as -> ->. cbn.
    by destruct (dg_after_disconnect s).
  - run_all.
    match goal with E : DisconnectedState_enter _ _ = (?x, _) |- _ =>
      unfold DisconnectedState_enter, DisconnectedState_construct_state_transition in E; run_all end.
    by destruct ok; injection Hm as -> ->.
Qed.

(** The inputs of a shutdown: looks at the closed channel while the tunnel
    closes, and then as many steps as there are left. *)
Lemma shutdown_run inputs m ts m' :
  shutting_down m → Forall no_command inputs → run inputs m = Some (ts, m') →
  shutting_down m' ∧ ∃ waits rest, inputs = waits ++ rest ∧ Forall (λ i, i.1 = EvCommand None) waits ∧
    (waits = [] ∨ steps_left m = 3%nat) ∧ (length rest + steps_left m' ≤ steps_left m)%nat.
Proof.
  revert m ts. induction inputs as [|[r ok] inputs IH]; intros m ts Hsh Hf Hrun.
  - injection Hrun as _ <-. split; [done|]. exists [], []. split_and!; [done|by apply Forall_nil_2|by left|cbn; lia].
  - apply Forall_cons in Hf as [Hi Hf]. apply run_step_inv in Hrun as (t & m1 & ts' & Hs & Hrun). cbn in Hs.
    destruct (shutdown_step _ r _ _ _ Hsh Hi Hs) as [Hsh1 Hm].
    destruct (IH _ _ Hsh1 Hf Hrun) as (Hsh' & waits & rest & -> & Hw & H3 & Hl). split; [done|].
    assert (steps_left m ≤ 3)%nat as Hle by (unfold steps_left; repeat case_match; lia).
    cbn in Hm. destruct Hm as [Hlt|(-> & [s Es] & [s1 Es1])].
    + destruct H3 as [->|H3]; [|lia]. exists [], ((r, ok) :: rest).
      split_and!; [done|constructor|by left|]. cbn in *. lia.
    + exists ((EvCommand None, ok) :: waits), rest. unfold steps_left in *. rewrite Es, Es1 in *.
      split_and!; [done|by constructor|by right|done].
Qed.

(** Whatever the tunnel reports when it closes, the machine is done after the
    steps it has left. *)
Lemma shutdown_finishes m :
  reachable m → shutting_down m → shuts_down (steps_left m) m.
Proof.
  intros Hr Hsh. unfold shutting_down, steps_left in *.
  destruct (current_state m) as [[| | |s|reason]|] eqn:Hst; try done.
  - by apply disconnected_shuts_down.
  - destruct (i_channels _ _ (reachable_inv _ _ Hr Hst)) as [Hch _]. destruct (Hch _ eq_refl) as [_ Hterm].
    by eapply disconnecting_shuts_down.
  - by eapply error_shuts_down.
  - exists [], [], m. by split_and!.
Qed.

Lemma runs_reachable inputs m ts m' : reachable m → run inputs m = Some (ts, m') → reachable m'.
Proof.
  revert m ts. induction inputs as [|i inputs IH]; intros m ts Hm Hr; [by injection Hr as _ <-|].
  apply run_step_inv in Hr as (t & m1 & ts' & Hs & Hr). eapply IH; [|done]. by eapply reachable_step.
Qed.

(** C10: Shutdown terminates.  Once the machine has seen that its command channel
    is closed, then whatever follows (results of the closing tunnel, repeated
    looks at the closed channel, a listener that is gone, failures of the other
    components), it never connects again: it is disconnecting, in the error
    state, disconnected or finished.  Apart from looks at the closed channel
    while it waits for a tunnel it has asked to close, it takes at most three
    further steps; and in every machine reached on the way, the tunnel's end and
    the closed channel are all that is needed to finish within those steps. *)
Theorem shutdown_terminates m ok t m1 inputs ts m' :
  reachable m → step m (EvCommand None) ok = Some (t, m1) →
  Forall no_command inputs → run inputs m1 = Some (ts, m') →
  match current_state m' with
  | Some (StConnecting _) | Some (StConnected _) => False
  | Some (StDisconnecting s) => EfSendClose (ce_tunnel (dg_tunnel_close_event s)) ∈ w_log (world m')
  | _ => True
  end ∧
  (∃ waits rest, inputs = waits ++ rest ∧ Forall (λ i, i.1 = EvCommand None) waits ∧
    (length rest + steps_left m' ≤ steps_left m1)%nat ∧ (steps_left m1 ≤ 3)%nat) ∧
  shuts_down (steps_left m') m'.
Proof.
  intros Hr Hs Hf Hrun. pose proof (shutdown_begins _ _ _ _ Hs) as Hsh.
  destruct (shutdown_run _ _ _ _ Hsh Hf Hrun) as (Hsh' & waits & rest & E & Hw & _ & Hl).
  assert (reachable m') as Hr' by (eapply runs_reachable; [by eapply reachable_step|done]).
  split_and!; [|exists waits, rest|by apply shutdown_finishes].
  - unfold shutting_down in Hsh'. destruct (current_state m') as [[| | |s|]|] eqn:Hst; try done.
    by apply (i_close _ _ (reachable_inv _ _ Hr' Hst)).
  - split_and!; [done..|]. unfold steps_left. repeat case_match; lia.
Qed.

(** ** Reconnecting *)

(** The state after a transition, when the machine goes on. *)
Lemma new_state_current (c : EventConsequence) w' (ok : bool) t m' st tr :
  c = NewState st tr →
  Some match c with
       | NewState st transition =>
           if ok then (Some transition, {| current_state := Some st; world := w' |}) else (None, stop w')
       | SameState st => (None, {| current_state := Some st; world := w' |})
       | Finished => (None, stop w')
       end = Some (t, m') →
  ∀ st', current_state m' = Some st' → st' = st.
Proof. intros -> Hs. destruct ok; injection Hs as <- <-; cbn; naive_solver. Qed.

Lemma connect_attempt n w x w' (ok : bool) t m' s' :
  tunnels_ok None w → ConnectingState_enter n w = (x, w') →
  Some match to_new_state x with
       | NewState st transition =>
           if ok then (Some transition, {| current_state := Some st; world := w' |}) else (None, stop w')
       | SameState st => (None, {| current_state := Some st; world := w' |})
       | Finished => (None, stop w')
       end = Some (t, m') →
  current_state m' = Some (StConnecting s') → cg_retry_attempt s' = n.
Proof.
  intros Ht Hr Hs Hst'. destruct x as [st tr].
  pose proof (new_state_current _ _ _ _ _ _ _ eq_refl Hs _ Hst') as Hx. cbn in Hx. subst st.
  apply connecting_enter in Hr as [_ [(s & [= <-] & ?)|(? & ?)]]; done.
Qed.

Lemma error_attempt reason w x w' (ok : bool) t m' s' :
  tunnels_ok None w → ErrorState_enter reason w = (x, w') →
  Some match to_new_state x with
       | NewState st transition =>
           if ok then (Some transition, {| current_state := Some st; world := w' |}) else (None, stop w')
       | SameState st => (None, {| current_state := Some st; world := w' |})
       | Finished => (None, stop w')
       end = Some (t, m') →
  current_state m' ≠ Some (StConnecting s').
Proof.
  intros Ht Hr Hs Hst'. destruct x as [st tr].
  pose proof (new_state_current _ _ _ _ _ _ _ eq_refl Hs _ Hst') as Hx. cbn in Hx. subst st.
  by apply error_enter in Hr as [_ ?].
Qed.

(** Attempts are counted: when the tunnel of a connecting state closes and
    the machine connects again, the attempt number is one higher, in 32 bits;
    after a connected tunnel closed it is zero, and after a disconnection it is
    the number chosen when the disconnection began. *)
Theorem attempts_counted m (st : TunnelState) (r : result unit (option ErrorStateCause)) (ok : bool)
    t m' (s' : ConnectingState) :
  reachable m → current_state m = Some st → step m (EvClose r) ok = Some (t, m') →
  current_state m' = Some (StConnecting s') →
  match st with
  | StConnecting s => cg_retry_attempt s' = wrap 32 (cg_retry_attempt s + 1)
  | StConnected _ => cg_retry_attempt s' = 0
  | StDisconnecting s => dg_after_disconnect s = AfterReconnect (cg_retry_attempt s')
  | _ => False
  end.
Proof.
  intros Hr Hst Hs Hst'. pose proof (reachable_inv _ _ Hr Hst) as Hi.
  unfold step in Hs. rewrite Hst in Hs. cbn in Hs.
  destruct st as [|s|s|s|reason]; cbn in Hs; [done|..|done];
    destruct (is_terminated _) eqn:Hterm; cbn in Hs; try done.
  3: { destruct (i_channels _ _ Hi) as [Hch _]. destruct (Hch _ eq_refl) as [_ Hx]. cbn in Hx. congruence. }
  all: lazymatch type of Hs with
       | context [let '(_, _) := ?h (world ?m0) in _] => destruct (h (world m0)) as [c w'] eqn:Hc
       end.
  all: run_all.
  all: match goal with E : emit (EfClosed _) _ = (_, ?w1) |- _ =>
         assert (tunnels_ok None w1) as Ht by
           (eapply (close_received (os := os)); [exact Hi|reflexivity|exact E]) end.
  all: destruct (block_reason_of r) as [reason|]; cbn in *; run_all.
  all: repeat match goal with
       | E : reset_routes _ = _ |- _ => apply reset_routes_quiet in E
       | E : reset_dns_before_removal _ = _ |- _ => apply reset_dns_before_removal_quiet in E
       | Hq : quiet ?w1 ?w2, Ht : tunnels_ok None ?w1 |- _ => apply (tunnels_ok_quiet _ _ _ Hq) in Ht; clear Hq
       end.
  - exfalso. by eapply error_attempt.
  - by eapply connect_attempt.
  - exfalso. by eapply error_attempt.
  - by eapply connect_attempt.
  - unfold DisconnectingState_after_disconnect in *. exfalso.
    match goal with E : ErrorState_enter _ _ = _ |- _ => exact (error_attempt _ _ _ _ _ _ _ _ Ht E Hs Hst') end.
  - unfold DisconnectingState_after_disconnect in *. destruct (dg_after_disconnect s) as [|cause|n].
    + match goal with E : DisconnectedState_enter _ _ = (?x, _) |- _ =>
        destruct x as [st tr]; pose proof (new_state_current (NewState st tr) _ _ _ _ _ _ eq_refl Hs _ Hst') as Hx;
        cbn in Hx; subst st; by apply disconnected_enter in E as [_ ?] end.
    + match goal with E : ErrorState_enter _ _ = _ |- _ =>
        destruct (error_attempt _ _ _ _ _ _ _ _ Ht E Hs Hst') end.
    + match goal with E : ConnectingState_enter _ _ = _ |- _ =>
        by rewrite (connect_attempt _ _ _ _ _ _ _ _ Ht E Hs Hst') end.
Qed.

(** ** NetworkManager's connectivity check *)

Lemma reset_check_enables w a w' :
  connectivity_check_was_enabled (w_sv w) = Some true → (∀ o : os, is_ok (nm_new o).1 = true) →
  reset_connectivity_check w = (a, w') → EfEnableCheck ∈ w_log w'.
Proof.
  intros Hck Hnm. unfold reset_connectivity_check. intros Hr. run_all. rewrite decide_True in Hr by done. run_all.
  match goal with E : call nm_new ?w0 = (?r, _) |- _ =>
    unfold call in E; specialize (Hnm (w_os w0)); destruct (nm_new (w_os w0)) as [r' o]; injection E as <- <- end.
  destruct r' as [[]|]; [|done]. run_all.
  match goal with E : emit _ _ = _ |- _ => injection E as _ <- end. cbn. set_solver.
Qed.

Lemma quiet_log_in e w w' : quiet w w' → e ∈ w_log w → e ∈ w_log w'.
Proof. intros Hq. destruct (q_log _ _ Hq) as (d & -> & _). set_solver. Qed.

(** Leaving the error state for a locked-down disconnected state switches
    NetworkManager's connectivity check, which was disabled because the firewall
    blocks it, back on and then applies the blocking policy. *)
Theorem locked_down_enables_check (reason : ErrorStateCause) w (c : EventConsequence) w' :
  connectivity_check_was_enabled (w_sv w) = Some true → (∀ o : os, is_ok (nm_new o).1 = true) →
  LockdownMode_bool (lockdown_mode (w_sv w)) = true →
  ErrorState_handle_event reason (Some Disconnect) w = (c, w') →
  EfEnableCheck ∈ w_log w' ∧ connectivity_check_was_enabled (w_sv w') = None ∧
  ∃ ok, EfApply (blocked_policy (w_sv w)) ok ∈ w_log w'.
Proof.
  intros Hck Hnm Hl Hr. cbn in Hr. unfold DisconnectedState_enter, DisconnectedState_construct_state_transition in Hr.
  run_all.
  match goal with
  | E1 : reset_connectivity_check w = (_, ?w1), E2 : dns_monitor_reset ?w1 = (_, ?w2),
    E3 : DisconnectedState_set_firewall_policy _ ?w2 = (_, ?w3), E4 : reset_connectivity_check ?w3 = _ |- _ =>
      pose proof (reset_check_enables _ _ _ Hck Hnm E1) as Hin; pose proof (reset_connectivity_check_none _ _ _ E4) as Hn;
      apply reset_connectivity_check_quiet in E1, E4; apply dns_monitor_reset_quiet in E2;
      pose proof (quiet_trans _ _ _ E1 E2) as Hq; pose proof (quiet_log_in _ _ _ E2 Hin) as Hin2;
      pose proof (disconnected_set_firewall _ _ _ _ E3) as (_ & _ & (d & Hlog & _) & _ & _);
      unfold DisconnectedState_set_firewall_policy in E3; run_all
  end.
  destruct (same_settings_policies _ _ (q_settings _ _ Hq)) as (Hb & _).
  assert (∀ e, e ∈ w_log w3 → e ∈ w_log w') as Hext by (intros e; by apply quiet_log_in).
  split_and!; [apply Hext; rewrite Hlog; set_solver|done|].
  destruct (q_settings _ _ Hq) as (_ & _ & _ & Hm & _).
  match goal with E3 : (if _ then _ else _) _ = _ |- _ => rewrite Hm, Hl in E3; run_all end.
  match goal with E : firewall_apply_policy _ _ = (?r, _) |- _ =>
    unfold firewall_apply_policy in E; run_all; rewrite <- Hb; eexists; apply Hext end.
  match goal with E : emit (EfApply _ _) _ = _ |- _ => injection E as _ <- end. apply list_elem_of_here.
Qed.
End Reachable.
