(* ===== verification/LinuxTunnel.v ===== *)
(** * The tunnel state machine on Linux

    The Linux firewall is an instance of the interface the tunnel state machine
    was verified against, so its theorems hold of the installed nftables rules.
    A small operating system serves as the example of both. *)

From S2P Require Import Prelude NetTypes TunnelTypes Nft LinuxFirewall RuleSemantics FirewallRules FirewallSpec.
From S2P Require Import FirewallRefinement TunnelStates TunnelSafety TunnelHandlers TunnelTheorems.

(** ** The Linux firewall under the state machine *)

(** The services besides the firewall; nothing is assumed of their answers. *)
Class TunnelServices (rest : Type) : Type := {
  sv_dns_set : string → ResolvedDnsConfig → rest → result unit unit * rest;
  sv_dns_reset : rest → result unit unit * rest;
  sv_dns_reset_before_interface_removal : rest → result unit unit * rest;
  sv_clear_routes : rest → result unit unit * rest;
  sv_clear_routing_rules : rest → result unit unit * rest;
  sv_route_stop : rest → unit * rest;
  sv_nm_new : rest → result unit unit * rest;
  sv_nm_disable : rest → option bool * rest;
  sv_nm_enable : rest → unit * rest;
  sv_generate : Z → IpAvailability → rest → result ParameterGenerationError TunnelParameters * rest;
  sv_spawn_tunnel : nat → TunnelParameters → Z → rest → unit * rest
}.

Section Linux.
Context `{IpNetworkCrate} `{NftRules} {kernel : Type} `{LinuxHost kernel} {rest : Type} `{TunnelServices rest}.
Context (fw : Firewall) (Hmark : u32_range (fwmark fw)).

(** The firewall's table holds the policy, as built from the host's state when
    it was applied, or there is no table. *)
Definition linux_enforced (o : kernel * rest) (s : option FirewallPolicy) : Prop :=
  match s with
  | Some p =>
      policy_wf p → ∃ k0 cs, installed o.1 !! mullvad_table = Some cs ∧
        enforces (host_env k0) (fwmark fw) (split_available (host_env k0)) p cs
  | None => installed o.1 !! mullvad_table = None
  end.

Definition on_kernel {A E} (f : kernel → result E A * kernel) (o : kernel * rest) : result unit A * (kernel * rest) :=
  let '(r, k) := f o.1 in (map_err (λ _, tt) r, (k, o.2)).
Definition on_rest {A} (f : rest → A * rest) (o : kernel * rest) : A * (kernel * rest) :=
  let '(a, r) := f o.2 in (a, (o.1, r)).

Lemma on_rest_enforced {A} (f : rest → A * rest) o s :
  linux_enforced o s → linux_enforced (on_rest f o).2 s.
Proof. unfold on_rest. destruct (f o.2). by destruct s. Qed.

Lemma enforced_same_tables k k' r s :
  installed k' = installed k → linux_enforced (k, r) s → linux_enforced (k', r) s.
Proof. intros E. unfold linux_enforced. cbn. by rewrite E. Qed.

Lemma holds_enforced policy k k' r :
  (policy_wf policy → holds_policy fw policy k (installed k) (installed k')) →
  linux_enforced (k', r) (Some policy).
Proof.
  intros Hh Hw. destruct (Hh Hw) as (cs & E & He). exists k, cs. cbn.
  by rewrite E, lookup_insert_eq.
Qed.

#[export] Instance linux_tunnel_os : TunnelOs (kernel * rest).
Proof.
  refine {| fw_apply p := on_kernel (apply_policy fw p); fw_reset := on_kernel (reset_policy fw);
            dns_set i c := on_rest (sv_dns_set i c); dns_reset := on_rest sv_dns_reset;
            dns_reset_before_interface_removal := on_rest sv_dns_reset_before_interface_removal;
            route_clear_routes := on_rest sv_clear_routes;
            route_clear_routing_rules := on_rest sv_clear_routing_rules;
            route_stop := on_rest sv_route_stop; nm_new := on_rest sv_nm_new;
            nm_disable_connectivity_check := on_rest sv_nm_disable;
            nm_enable_connectivity_check := on_rest sv_nm_enable;
            generate n a := on_rest (sv_generate n a);
            spawn_tunnel_thread i p n := on_rest (sv_spawn_tunnel i p n);
            enforced := linux_enforced |}.
  - intros p [k r] o'. unfold on_kernel. cbn. destruct (apply_policy fw p k) as [[[]|e] k'] eqn:E; [|done].
    intros [= <-]. eapply holds_enforced. by apply apply_policy_outcome in E.
  - intros p [k r] o'. unfold on_kernel. cbn. destruct (apply_policy fw p k) as [[[]|e] k'] eqn:E; [done|].
    intros [= <-]. apply apply_policy_outcome in E as [E|E]; [left|right|done].
    + intros s. by apply enforced_same_tables.
    + by eapply holds_enforced.
  - intros [k r] o'. unfold on_kernel. cbn. destruct (reset_policy fw k) as [[[]|e] k'] eqn:E; [|done].
    intros [= <-]. apply reset_policy_outcome in E. unfold linux_enforced. cbn in *.
    by rewrite E, without_deprecated_mullvad, lookup_delete_eq.
  - intros [k r] o'. unfold on_kernel. cbn. destruct (reset_policy fw k) as [[[]|e] k'] eqn:E; [done|].
    intros [= <-]. apply reset_policy_outcome in E as [_ [E|E]]; [left|right].
    + intros s. by apply enforced_same_tables.
    + unfold linux_enforced. cbn in *. by rewrite E, without_deprecated_mullvad, lookup_delete_eq.
  - intros. by apply on_rest_enforced.
  - intros. by apply on_rest_enforced.
  - intros. by apply on_rest_enforced.
  - intros. by apply on_rest_enforced.
  - intros. by apply on_rest_enforced.
  - intros. by apply on_rest_enforced.
  - intros. by apply on_rest_enforced.
  - intros. by apply on_rest_enforced.
  - intros. by apply on_rest_enforced.
  - intros. by apply on_rest_enforced.
  - intros. by apply on_rest_enforced.
Defined.

(** C3: A connected Linux device does not leak: in every reachable machine that is
    connected, the installed nftables rules let a packet for a public address that,
    as it leaves the output hook with the marks the rules give it, is neither on the
    loopback interface nor excluded by split tunnelling nor a DHCP server reply out
    only to the relay with the daemon's mark, to a
    configured DNS server, or through the tunnel. *)
Theorem connected_device_does_not_leak (m : TunnelStateMachine (os := kernel * rest)) (s : ConnectedState) :
  reachable m → current_state m = Some (StConnected s) →
  policy_wf (get_firewall_policy s (w_sv (world m))) →
  ∃ k0 cs, installed (w_os (world m)).1 !! mullvad_table = Some cs ∧
    ∀ p0 p, pk_wf p0 → hook_passes cs HookOut p0 = Some p → lan_dst p = false →
      m_iface DirOut (ifindex (host_env k0) "lo") p = false →
      split_available (host_env k0) && m_ct_mark p = false → dhcpv4_server_response p = false →
      public_exit (host_env k0) (fwmark fw) (get_firewall_policy s (w_sv (world m))) p = true.
Proof.
  intros Hr Hst Hw. pose proof (i_firewall _ _ (reachable_inv _ _ Hr Hst)) as Hf.
  destruct (Hf Hw) as (k0 & cs & Hcs & He). exists k0, cs. split; [done|].
  intros p0 p Hp. by eapply public_confined.
Qed.
End Linux.

(** * Concrete runs of the tunnel state machine

    A small operating system, whose firewall fails once a number of calls have
    succeeded, and the Linux firewall with idle services: the machines on which
    the theorems of TunnelTheorems.v and LinuxTunnel.v are instantiated. *)

(** ** Tunnel parameters and settings *)

Definition key : list Z := repeat 7 32.
Definition relay_address : SocketAddr := SockV4 (Ipv4Addr_new 185 213 154 68) 51820.
Definition wg_params : TunnelParameters := WireguardParams {|
  wireguard.connection := {|
    wireguard.tunnel := {| wireguard.private_key := key; wireguard.addresses := [AddrV4 (Ipv4Addr_new 10 68 1 2)] |};
    wireguard.peer := {| wireguard.public_key := key; wireguard.allowed_ips := [NetV4 0 0];
                         wireguard.endpoint := relay_address; wireguard.psk := None;
                         wireguard.constant_packet_size := false |};
    wireguard.exit_peer := None; wireguard.ipv4_gateway := Ipv4Addr_new 10 64 0 1;
    wireguard.ipv6_gateway := None; wireguard.fwmark := Some FirewallRefinement.Example.mark |};
  wireguard.options := {| wireguard.mtu := None; wireguard.quantum_resistant := false; wireguard.daita := false |};
  wireguard.generic_options := {| enable_ipv6 := false |};
  wireguard.obfuscation := None |}.

Definition api : AllowedEndpoint := {|
  endpoint := Endpoint_new (AddrV4 (Ipv4Addr_new 45 83 223 196)) 443 Tcp; clients := Root |}.
Definition settings : InitialTunnelState := {|
  is_allow_lan := false; is_lockdown_mode := Enabled true; is_dns_config := DnsDefault;
  is_allowed_endpoint := api; reset_firewall := true |}.
Definition online : Connectivity := PresumeOnline.
Definition up : EventResult := EvEvent (Some (EvUp FirewallRefinement.Example.tunnel, 0%nat)).
Definition connect : EventResult := EvCommand (Some Connect).
Definition good (rs : list EventResult) : list (EventResult * bool) := map (λ r, (r, true)) rs.

(** ** A small operating system *)

Record SmallOs : Set := { so_policy : option FirewallPolicy; so_budget : nat }.

Definition small_firewall (p : option FirewallPolicy) (o : SmallOs) : result unit unit * SmallOs :=
  match so_budget o with
  | O => (Err tt, o)
  | S n => (Ok tt, {| so_policy := p; so_budget := n |})
  end.

#[global] Instance small_os : TunnelOs SmallOs.
Proof.
  refine {| fw_apply p := small_firewall (Some p); fw_reset := small_firewall None;
            dns_set _ _ o := (Ok tt, o); dns_reset o := (Ok tt, o);
            dns_reset_before_interface_removal o := (Ok tt, o);
            route_clear_routes o := (Ok tt, o); route_clear_routing_rules o := (Ok tt, o);
            route_stop o := (tt, o); nm_new o := (Ok tt, o);
            nm_disable_connectivity_check o := (Some true, o); nm_enable_connectivity_check o := (tt, o);
            generate _ _ o := (Ok wg_params, o); spawn_tunnel_thread _ _ _ o := (tt, o);
            enforced o s := so_policy o = s |};
    try done.
  all: intros; unfold small_firewall in *; destruct (so_budget _); simplify_eq/=; auto.
Defined.

Definition machine : Type := TunnelStateMachine (os := SmallOs).
Definition boot (budget : nat) : machine :=
  TunnelStateMachine_new settings online {| so_policy := None; so_budget := budget |}.
Definition after (inputs : list EventResult) (m : machine) : machine :=
  match run (good inputs) m with Some (_, m') => m' | None => m end.
Definition reported (inputs : list EventResult) (m : machine) : list TunnelStateTransition :=
  match run (good inputs) m with Some (ts, _) => ts | None => [] end.
Definition connected_machine (budget : nat) : machine := after [connect; up] (boot budget).
Definition state_of (m : machine) : TunnelState := default StDisconnected (current_state m).

Lemma run_reachable {os} `{TunnelOs os} inputs (m : TunnelStateMachine (os := os)) ts m' :
  reachable m → run inputs m = Some (ts, m') → reachable m'.
Proof.
  revert m ts. induction inputs as [|f inputs IH]; intros m ts Hr Hrun; [by simplify_eq/=|].
  apply run_step_inv in Hrun as (t & m1 & ts' & Hs & Hrun). eauto using reachable_step.
Qed.

Lemma after_reachable inputs m : reachable m → reachable (after inputs m).
Proof.
  intros Hr. unfold after. destruct (run _ m) as [[ts m']|] eqn:E; [|done]. by eapply run_reachable.
Qed.

Lemma machine_reachable inputs n : reachable (after inputs (boot n)).
Proof. apply after_reachable, reachable_new. Qed.

(** After three calls the firewall fails: a change of DNS servers makes the
    machine block, and nothing of it is released. *)
Definition dns_change : DnsConfig := DnsOverride [AddrV4 (Ipv4Addr_new 9 9 9 9)] [].
Definition failing_inputs : list EventResult :=
  [EvCommand (Some (Dns dns_change 1%nat)); EvCommand (Some (SetConnectivity Offline)); EvClose (Ok None)].

Lemma kill_switch_witness :
  secure (world (after failing_inputs (connected_machine 3))) ∧
  ∀ st', current_state (after failing_inputs (connected_machine 3)) = Some st' → committed st' = true.
Proof.
  apply (kill_switch (connected_machine 3) (state_of (connected_machine 3)) (good failing_inputs)
           (reported failing_inputs (connected_machine 3))).
  - apply machine_reachable.
  - vm_compute. reflexivity.
  - vm_compute. reflexivity.
  - right. vm_compute. discriminate.
  - repeat constructor.
  - vm_compute. reflexivity.
Defined.

Lemma firewall_matches_state_witness :
  state_policy (state_of (connected_machine 3)) (world (connected_machine 3)).
Proof.
  apply (firewall_matches_state (connected_machine 3)).
  - apply machine_reachable.
  - vm_compute. reflexivity.
Defined.

Lemma transitions_sound_witness :
  ∃ st', current_state (connected_machine 3) = Some st' ∧ edge KConnecting (kind st') = true ∧
    reports (world (connected_machine 3)) st'
      (TrConnected (connected_endpoint {| cd_metadata := FirewallRefinement.Example.tunnel; cd_tunnel_events := 0%nat;
         cd_tunnel_parameters := wg_params;
         cd_tunnel_close_event := {| ce_tunnel := 0%nat; is_terminated := false |}; cd_tunnel_close_tx := 0%nat |})) ∧
    ∀ e, TrConnected (connected_endpoint {| cd_metadata := FirewallRefinement.Example.tunnel; cd_tunnel_events := 0%nat;
         cd_tunnel_parameters := wg_params;
         cd_tunnel_close_event := {| ce_tunnel := 0%nat; is_terminated := false |}; cd_tunnel_close_tx := 0%nat |})
      = TrError e → tunnel.is_blocking e = true →
      enforced (w_os (world (connected_machine 3))) (Some (blocked_policy (w_sv (world (connected_machine 3))))).
Proof.
  refine (transitions_sound (after [connect] (boot 3)) up true _ (connected_machine 3)
            (state_of (after [connect] (boot 3))) _ _ _).
  - apply machine_reachable.
  - vm_compute. reflexivity.
  - vm_compute. reflexivity.
Defined.

Lemma one_tunnel_at_a_time_witness :
  (∀ i, started (w_log (world (connected_machine 3))) i ∧ ¬ closed (w_log (world (connected_machine 3))) i ↔
        tunnel_of (state_of (connected_machine 3)) = Some i) ∧
  channels_ok (state_of (connected_machine 3)) ∧
  ∀ s, state_of (connected_machine 3) = StDisconnecting s →
    EfSendClose (ce_tunnel (dg_tunnel_close_event s)) ∈ w_log (world (connected_machine 3)).
Proof.
  apply (one_tunnel_at_a_time (connected_machine 3)).
  - apply machine_reachable.
  - vm_compute. reflexivity.
Defined.

(** The dropped command: the change of DNS servers when the firewall fails. *)
Definition dns_handler : World SmallOs → EventConsequence * World SmallOs :=
  default (λ w, (Finished, w))
    (handle_event (state_of (connected_machine 3)) (EvCommand (Some (Dns dns_change 1%nat)))).

Lemma commands_acknowledged_witness :
  EfAck 1 ∈ w_log (dns_handler (world (connected_machine 3))).2 ↔
  ¬ dropped (state_of (connected_machine 3)) (Dns dns_change 1%nat) (world (connected_machine 3)).
Proof.
  apply (commands_acknowledged (state_of (connected_machine 3)) (Dns dns_change 1%nat) 1%nat dns_handler
           (world (connected_machine 3)) (dns_handler (world (connected_machine 3))).1).
  - reflexivity.
  - reflexivity.
  - vm_compute. intros Hin. repeat (apply elem_of_cons in Hin as [Hin|Hin]; [discriminate|]). by apply elem_of_nil in Hin.
  - apply surjective_pairing.
Defined.

(** The command channel closes, is looked at again, and the tunnel closes. *)
Definition closing : list EventResult := [EvCommand None; EvClose (Ok None)].
Definition closing_machine : TunnelStateMachine (os := SmallOs) := after closing (after [EvCommand None] (connected_machine 3)).

Lemma shutdown_terminates_witness :
  match current_state closing_machine with
  | Some (StConnecting _) | Some (StConnected _) => False
  | Some (StDisconnecting s) => EfSendClose (ce_tunnel (dg_tunnel_close_event s)) ∈ w_log (world closing_machine)
  | _ => True
  end ∧
  (∃ waits rest, good closing = waits ++ rest ∧ Forall (λ i, i.1 = EvCommand None) waits ∧
    (length rest + steps_left closing_machine ≤ steps_left (after [EvCommand None] (connected_machine 3)))%nat ∧
    (steps_left (after [EvCommand None] (connected_machine 3)) ≤ 3)%nat) ∧
  shuts_down (steps_left closing_machine) closing_machine.
Proof.
  eapply (shutdown_terminates (connected_machine 3) true _ (after [EvCommand None] (connected_machine 3)) (good closing)
    (reported closing (after [EvCommand None] (connected_machine 3)))).
  - apply machine_reachable.
  - vm_compute. reflexivity.
  - apply Forall_cons_2; [intros c; discriminate|apply Forall_cons_2; [intros c; discriminate|apply Forall_nil_2]].
  - vm_compute. reflexivity.
Defined.

(** A tunnel that closes while connecting is started again. *)
Definition connecting_machine : machine := after [connect] (boot 9).
Definition again : machine := after [EvClose (Ok None)] connecting_machine.
Definition connecting_of (m : machine) : ConnectingState :=
  match current_state m with
  | Some (StConnecting s) => s
  | _ => {| cg_tunnel_events := 0; cg_tunnel_parameters := wg_params; cg_tunnel_metadata := None;
            cg_allowed_tunnel_traffic := TrafficNone;
            cg_tunnel_close_event := {| ce_tunnel := 0; is_terminated := false |};
            cg_tunnel_close_tx := 0; cg_retry_attempt := 99 |}
  end.

Lemma attempts_counted_witness :
  cg_retry_attempt (connecting_of again) = wrap 32 (cg_retry_attempt (connecting_of connecting_machine) + 1).
Proof.
  refine (attempts_counted connecting_machine (StConnecting (connecting_of connecting_machine)) (Ok None) true
           (Some (TrConnecting (get_tunnel_endpoint wg_params))) again (connecting_of again) _ _ _ _).
  - apply machine_reachable.
  - vm_compute. reflexivity.
  - vm_compute. reflexivity.
  - vm_compute. reflexivity.
Defined.

(** Blocked because of a failing firewall, with the check disabled. *)
Definition blocked_machine : machine := after [connect; EvCommand (Some (Block IsOffline)); EvClose (Ok None)] (boot 9).
Abbreviation unblock := (ErrorState_handle_event IsOffline (Some Disconnect) (world blocked_machine)).

Lemma locked_down_enables_check_witness :
  EfEnableCheck ∈ w_log unblock.2 ∧ connectivity_check_was_enabled (w_sv unblock.2) = None ∧
  ∃ ok, EfApply (blocked_policy (w_sv (world blocked_machine))) ok ∈ w_log unblock.2.
Proof.
  refine (locked_down_enables_check IsOffline (world blocked_machine) unblock.1 unblock.2 _ _ _ (surjective_pairing unblock)).
  - vm_compute. reflexivity.
  - intros. reflexivity.
  - vm_compute. reflexivity.
Defined.

(** ** The Linux firewall *)

#[global] Instance idle_services : TunnelServices unit := {|
  sv_dns_set _ _ o := (Ok tt, o); sv_dns_reset o := (Ok tt, o);
  sv_dns_reset_before_interface_removal o := (Ok tt, o);
  sv_clear_routes o := (Ok tt, o); sv_clear_routing_rules o := (Ok tt, o); sv_route_stop o := (tt, o);
  sv_nm_new o := (Err tt, o); sv_nm_disable o := (None, o); sv_nm_enable o := (tt, o);
  sv_generate _ _ o := (Ok wg_params, o); sv_spawn_tunnel _ _ _ o := (tt, o) |}.

#[local] Instance linux : TunnelOs (Tables * unit) :=
  linux_tunnel_os FirewallRefinement.Example.fw FirewallRefinement.Example.mark_range.

Definition linux_boot : TunnelStateMachine (os := Tables * unit) :=
  TunnelStateMachine_new settings online (∅, tt).
Definition linux_connected : TunnelStateMachine (os := Tables * unit) :=
  match run (good [connect; up]) linux_boot with Some (_, m) => m | None => linux_boot end.
Definition linux_connected_state : ConnectedState := {|
  cd_metadata := FirewallRefinement.Example.tunnel; cd_tunnel_events := 0%nat; cd_tunnel_parameters := wg_params;
  cd_tunnel_close_event := {| ce_tunnel := 0%nat; is_terminated := false |}; cd_tunnel_close_tx := 0%nat |}.

Lemma linux_connected_reachable : reachable linux_connected.
Proof.
  unfold linux_connected. destruct (run _ linux_boot) as [[ts m]|] eqn:E.
  - eapply run_reachable; [|exact E]. apply reachable_new.
  - apply reachable_new.
Qed.

Lemma linux_policy_wf : policy_wf (get_firewall_policy linux_connected_state (w_sv (world linux_connected))).
Proof.
  unfold policy_wf, get_firewall_policy. vm_compute resolve_dns. vm_compute peer_endpoints_of.
  cbn. split_and!; repeat (apply Forall_cons_2 || apply Forall_nil_2);
    first [FirewallRefinement.Example.range|split; FirewallRefinement.Example.range].
Qed.

Lemma connected_device_does_not_leak_witness :
  ∃ k0 cs, installed (w_os (world linux_connected)).1 !! mullvad_table = Some cs ∧
    ∀ p0 p, pk_wf p0 → hook_passes cs HookOut p0 = Some p → lan_dst p = false →
      m_iface DirOut (ifindex (host_env k0) "lo") p = false →
      split_available (host_env k0) && m_ct_mark p = false → dhcpv4_server_response p = false →
      public_exit (host_env k0) FirewallRefinement.Example.mark
        (get_firewall_policy linux_connected_state (w_sv (world linux_connected))) p = true.
Proof.
  refine (connected_device_does_not_leak FirewallRefinement.Example.fw FirewallRefinement.Example.mark_range
            linux_connected linux_connected_state _ _ _).
  - apply linux_connected_reachable.
  - vm_compute. reflexivity.
  - apply linux_policy_wf.
Defined.
