(* ===== verification/TunnelThread.v ===== *)
(** * The thread that runs a tunnel

    talpid-core/src/tunnel/mod.rs ([TunnelMonitor]), the closure that
    [ConnectingState::start_tunnel] spawns, [wait_for_tunnel_monitor] and
    [should_retry] (connecting_state.rs), and the end of
    [WireguardMonitor::wait] (talpid-wireguard/src/lib.rs), on Linux.  What the
    thread sends over the close channel decides whether the state machine tries
    again or blocks. *)

From S2P Require Import Prelude NetTypes TunnelTypes LinuxFirewall.

(** ** Errors *)

(** Errors of other libraries are carried for the log only; their constructors
    are left without an argument. *)
Module routing.
Inductive Error : Set := ManagerChannelDown | PlatformError | RouteManagerDown.
Definition is_recoverable (e : Error) : bool := false.
End routing.

Module wg.
Inductive ConfigError : Set := InvalidTunnelIpError | InvalidPeerIpError.

Inductive TunnelError : Set :=
| RecoverableStartWireguardError
| FatalStartWireguardError
| StopWireguardError
| StatsError
| GetConfigError
| SetConfigError
| FdDuplicationError
| SetupTunnelDevice
| InterfaceNameError
| LoggingError
| StartDaita
| DaitaNotSupported.

Inductive Error : Set :=
| SetupRoutingError (e : routing.Error)
| TimeoutError
| WireguardConfigError (e : ConfigError)
| TunnelFailed (e : TunnelError)
| ObfuscationError
| ConnectivityMonitorError
| EphemeralPeerNegotiationError.

Definition is_recoverable (e : Error) : bool :=
  match e with
  | ObfuscationError => true
  | EphemeralPeerNegotiationError => true
  | TunnelFailed RecoverableStartWireguardError => true
  | SetupRoutingError error => routing.is_recoverable error
  | _ => false
  end.

Inductive CloseMsg : Set :=
| Stop
| EphemeralPeerNegotiationTimeout
| PingErr
| SetupError (e : Error)
| ObfuscatorExpired
| ObfuscatorFailed (e : Error).

(** The result of [WireguardMonitor::wait]; an error is a closed channel. *)
Definition wait_result (msg : result unit CloseMsg) : result Error unit :=
  match msg with
  | Ok EphemeralPeerNegotiationTimeout | Ok PingErr => Err TimeoutError
  | Ok Stop | Ok ObfuscatorExpired => Ok tt
  | Ok (SetupError error) => Err error
  | Ok (ObfuscatorFailed error) => Err error
  | Err _ => Ok tt
  end.
End wg.

Module ovpn.
Inductive Error : Set :=
| RuntimeError
| ChildProcessError (what : string)
| EventDispatcherError
| EventDispatcherExited
| ChildProcessDied
| StartProcessError
| OpenVpnNotFound (path : string)
| PluginNotFound (path : string)
| CredentialsWriteError
| ProxyError
| MissingTunnelInterface
| MissingRemoteHost
| ParseRemoteHost.

Definition is_recoverable (e : Error) : bool := false.
End ovpn.

Module monitor.
Inductive Error : Set :=
| EnableIpv6Error
| UnsupportedPlatform
| RotateLogError
| OpenVpnTunnelMonitoringError (e : ovpn.Error)
| WireguardTunnelMonitoringError (e : wg.Error)
| AssignMtuError.

Definition ErrorStateCause_from (error : Error) : ErrorStateCause :=
  match error with
  | EnableIpv6Error => Ipv6Unavailable
  | _ => StartTunnelError
  end.

Definition is_recoverable (e : Error) : bool :=
  match e with
  | WireguardTunnelMonitoringError error => wg.is_recoverable error
  | OpenVpnTunnelMonitoringError error => ovpn.is_recoverable error
  | _ => false
  end.
End monitor.

(** ** The tunnel monitor *)

(** What the thread finds when it asks the host and the tunnel libraries:
    the content of `disable_ipv6`, log rotation, the start of a tunnel, how a
    running tunnel ends, and the time in milliseconds after which it ends. *)
Record ThreadEnv : Type := {
  disable_ipv6 : result unit string;
  rotate_log : string → result unit unit;
  wireguard_start : wireguard.TunnelParameters → option string → result wg.Error unit;
  openvpn_start : openvpn.TunnelParameters → option string → result ovpn.Error unit;
  wireguard_close : result unit wg.CloseMsg;
  openvpn_wait : result ovpn.Error unit;
  elapsed : Z
}.

Inductive InternalTunnelMonitor : Set := MonOpenVpn | MonWireguard.

Definition OPENVPN_LOG_FILENAME : string := "openvpn.log".
Definition WIREGUARD_LOG_FILENAME : string := "wireguard.log".
Definition MIN_TUNNEL_ALIVE_TIME : Z := 1000.

(** [Path::join] of a relative file name. *)
Definition path_join (dir file : string) : string := (dir +:+ "/" +:+ file)%string.

Section Thread.
Context (env : ThreadEnv).

Definition is_ipv6_enabled_in_os : bool :=
  match disable_ipv6 env with
  | Ok disable_ipv6 => bool_decide (trim disable_ipv6 = "0")
  | Err _ => false
  end.

Definition ensure_ipv6_can_be_used_if_enabled (tunnel_parameters : TunnelParameters) :
    result monitor.Error unit :=
  let options := get_generic_options tunnel_parameters in
  if enable_ipv6 options then
    if is_ipv6_enabled_in_os then Ok tt else Err monitor.EnableIpv6Error
  else Ok tt.

Definition prepare_tunnel_log_file (parameters : TunnelParameters) (log_dir : option string) :
    result monitor.Error (option string) :=
  match log_dir with
  | Some log_dir =>
      match parameters with
      | OpenVpnParams _ =>
          let tunnel_log := path_join log_dir OPENVPN_LOG_FILENAME in
          _ ← map_err (λ _, monitor.RotateLogError) (rotate_log env tunnel_log);
          Ok (Some tunnel_log)
      | WireguardParams _ => Ok (Some (path_join log_dir WIREGUARD_LOG_FILENAME))
      end
  | None => Ok None
  end.

Definition start_wireguard_tunnel (params : wireguard.TunnelParameters) (log : option string) :
    result monitor.Error InternalTunnelMonitor :=
  _ ← map_err monitor.WireguardTunnelMonitoringError (wireguard_start env params log);
  Ok MonWireguard.

Definition start_openvpn_tunnel (config : openvpn.TunnelParameters) (log : option string) :
    result monitor.Error InternalTunnelMonitor :=
  _ ← map_err monitor.OpenVpnTunnelMonitoringError (openvpn_start env config log);
  Ok MonOpenVpn.

Definition TunnelMonitor_start (tunnel_parameters : TunnelParameters) (log_dir : option string) :
    result monitor.Error InternalTunnelMonitor :=
  _ ← ensure_ipv6_can_be_used_if_enabled tunnel_parameters;
  log_file ← prepare_tunnel_log_file tunnel_parameters log_dir;
  match tunnel_parameters with
  | OpenVpnParams config => start_openvpn_tunnel config log_file
  | WireguardParams config => start_wireguard_tunnel config log_file
  end.

Definition InternalTunnelMonitor_wait (m : InternalTunnelMonitor) : result monitor.Error unit :=
  match m with
  | MonOpenVpn => map_err monitor.OpenVpnTunnelMonitoringError (openvpn_wait env)
  | MonWireguard => map_err monitor.WireguardTunnelMonitoringError (wg.wait_result (wireguard_close env))
  end.

(** ** The thread *)

Definition should_retry (error : monitor.Error) (retry_attempt : Z) : bool :=
  monitor.is_recoverable error.

Definition wait_for_tunnel_monitor (tunnel_monitor : InternalTunnelMonitor) (retry_attempt : Z) :
    option ErrorStateCause :=
  match InternalTunnelMonitor_wait tunnel_monitor with
  | Ok _ => None
  | Err error =>
      match error with
      | monitor.WireguardTunnelMonitoringError wg.TimeoutError => None
      | monitor.WireguardTunnelMonitoringError _ =>
          if negb (should_retry error retry_attempt) then Some StartTunnelError else None
      | _ => None
      end
  end.

(** [Duration::checked_sub]. *)
Definition checked_sub (a b : Z) : option Z := if b <=? a then Some (a - b) else None.

(** The block reason the thread sends, and the milliseconds after its start at
    which it sends it. *)
Definition tunnel_thread (tunnel_parameters : TunnelParameters) (log_dir : option string)
    (retry_attempt : Z) : option ErrorStateCause * Z :=
  let block_reason :=
    match TunnelMonitor_start tunnel_parameters log_dir with
    | Ok m => wait_for_tunnel_monitor m retry_attempt
    | Err error =>
        if should_retry error retry_attempt then None
        else Some (monitor.ErrorStateCause_from error)
    end in
  match block_reason, checked_sub MIN_TUNNEL_ALIVE_TIME (elapsed env) with
  | None, Some remaining_time => (block_reason, elapsed env + remaining_time)
  | _, _ => (block_reason, elapsed env)
  end.

(** ** What the state machine is told *)

(** IPv6 is asked for and the system has switched it off. *)
Definition ipv6_missing (p : TunnelParameters) : bool :=
  enable_ipv6 (get_generic_options p) && negb is_ipv6_enabled_in_os.

(** A WireGuard tunnel that ended this way is not tried again. *)
Definition fatal_close (msg : result unit wg.CloseMsg) : bool :=
  match msg with
  | Ok (wg.SetupError e) | Ok (wg.ObfuscatorFailed e) =>
      negb (wg.is_recoverable e) && match e with wg.TimeoutError => false | _ => true end
  | _ => false
  end.

Lemma thread_reason p log_dir n :
  (tunnel_thread p log_dir n).1 =
  match TunnelMonitor_start p log_dir with
  | Ok m => wait_for_tunnel_monitor m n
  | Err error => if should_retry error n then None else Some (monitor.ErrorStateCause_from error)
  end.
Proof. unfold tunnel_thread. cbv zeta. by repeat case_match. Qed.

Lemma wait_wireguard n :
  wait_for_tunnel_monitor MonWireguard n =
  if fatal_close (wireguard_close env) then Some StartTunnelError else None.
Proof.
  unfold wait_for_tunnel_monitor, InternalTunnelMonitor_wait, fatal_close, should_retry.
  destruct (wireguard_close env) as [[]|]; cbn; try done;
    (destruct e as [r| |c|t| | |]; cbn; [by destruct r|done|done|by destruct t|done..]).
Qed.

Lemma wait_openvpn n : wait_for_tunnel_monitor MonOpenVpn n = None.
Proof. unfold wait_for_tunnel_monitor, InternalTunnelMonitor_wait. by destruct (openvpn_wait env). Qed.

Lemma wait_cause m n c : wait_for_tunnel_monitor m n = Some c → c = StartTunnelError.
Proof.
  destruct m; [by rewrite wait_openvpn|]. rewrite wait_wireguard. case_match; naive_solver.
Qed.

Lemma start_ipv6_missing p log_dir :
  ipv6_missing p = true → TunnelMonitor_start p log_dir = Err monitor.EnableIpv6Error.
Proof.
  unfold TunnelMonitor_start, ensure_ipv6_can_be_used_if_enabled, ipv6_missing.
  by destruct (enable_ipv6 _), is_ipv6_enabled_in_os.
Qed.

Lemma start_cause p log_dir e :
  ipv6_missing p = false → TunnelMonitor_start p log_dir = Err e →
  monitor.ErrorStateCause_from e = StartTunnelError.
Proof.
  unfold TunnelMonitor_start, ensure_ipv6_can_be_used_if_enabled, ipv6_missing.
  intros Hip. assert (∀ A (k : unit → result monitor.Error A),
    ((if enable_ipv6 (get_generic_options p)
      then if is_ipv6_enabled_in_os then Ok tt else Err monitor.EnableIpv6Error else Ok tt) ≫= k) = k tt) as ->
    by (intros; destruct (enable_ipv6 _), is_ipv6_enabled_in_os; done).
  unfold prepare_tunnel_log_file, start_openvpn_tunnel, start_wireguard_tunnel.
  unfold mbind, result_bind, map_err. intros Hs. destruct p as [config|config], log_dir as [dir|]; cbn in Hs;
    repeat case_match; by simplify_eq/=.
Qed.

(** The tunnel thread tells the state machine to block with the right cause
    and otherwise lets it try again: a missing IPv6 stack blocks with its own
    cause; a WireGuard tunnel that starts blocks exactly when it ended with an
    error that is neither recoverable nor a timeout; an OpenVPN tunnel that
    starts never blocks; and whenever the machine may try again, at least one
    second has passed since the thread started. *)
Theorem tunnel_thread_outcome (p : TunnelParameters) (log_dir : option string) (n : Z) :
  let reason := (tunnel_thread p log_dir n).1 in
  (reason = Some Ipv6Unavailable ↔ ipv6_missing p = true) ∧
  (∀ c, reason = Some c → c = Ipv6Unavailable ∨ c = StartTunnelError) ∧
  (TunnelMonitor_start p log_dir = Ok MonWireguard →
     reason = if fatal_close (wireguard_close env) then Some StartTunnelError else None) ∧
  (TunnelMonitor_start p log_dir = Ok MonOpenVpn → reason = None) ∧
  (reason = None → MIN_TUNNEL_ALIVE_TIME ≤ (tunnel_thread p log_dir n).2).
Proof.
  cbv zeta. rewrite thread_reason. split_and!.
  - split; intros Hx; [|by rewrite start_ipv6_missing].
    apply not_false_iff_true. intros Hip. destruct (TunnelMonitor_start p log_dir) as [m|e] eqn:E.
    + by apply wait_cause in Hx.
    + apply start_cause in E; [|done]. case_match; congruence.
  - intros c Hc. destruct (ipv6_missing p) eqn:Hip; [rewrite start_ipv6_missing in Hc by done; naive_solver|].
    destruct (TunnelMonitor_start p log_dir) as [m|e] eqn:E; [apply wait_cause in Hc; by right|].
    apply start_cause in E; [|done]. case_match; [done|]. right. congruence.
  - intros ->. apply wait_wireguard.
  - intros ->. apply wait_openvpn.
  - rewrite <- thread_reason. unfold tunnel_thread, checked_sub. cbv zeta.
    repeat case_match; simplify_eq/=; try done; lia.
Qed.
End Thread.
