(* ===== verification/Connectivity.v ===== *)
(** * The connectivity monitor (talpid-wireguard/src/connectivity/)

    Check.rs infers from the traffic counters of a WireGuard tunnel whether the
    tunnel works, and pings when it is in doubt; monitor.rs runs the check about
    once a second and ends when the tunnel has stopped working.

    Every call that looks at the outside world (the clock, the counters, the
    pinger, the cancel token, the tunnel handle) asks an [Oracle], which answers
    the [n]-th question of a run; [cw_tick] counts the questions.  Instants and
    durations are in nanoseconds. *)

From S2P Require Import Prelude.

(** ** Constants (constants.rs, monitor.rs) *)

Definition secs (n : Z) : Z := n * 10 ^ 9.
Definition BYTES_RX_TIMEOUT : Z := secs 5.
Definition TRAFFIC_TIMEOUT : Z := secs 120.
Definition PING_TIMEOUT : Z := secs 15.
Definition ESTABLISH_TIMEOUT : Z := secs 4.
Definition ESTABLISH_TIMEOUT_MULTIPLIER : Z := 2.
Definition MAX_ESTABLISH_TIMEOUT : Z := PING_TIMEOUT.
Definition SECONDS_PER_PING : Z := secs 3.
Definition REGULAR_LOOP_SLEEP : Z := secs 1.
Definition SUSPEND_TIMEOUT : Z := secs 6.

(** [Duration::MAX] and [u32::MAX]. *)
Definition DURATION_MAX : Z := secs (2 ^ 64) - 1.
Definition U32_MAX : Z := 2 ^ 32 - 1.

(** ** Traffic counters (stats.rs) *)

Record Stats : Set := { tx_bytes : Z; rx_bytes : Z }.
Abbreviation StatsMap := (gmap (list Z) Stats).

(** [m.values().map(|s| s.tx_bytes).sum::<u64>()]. *)
Definition tx_sum (m : StatsMap) : Z := wrap 64 (map_fold (λ _ s acc, tx_bytes s + acc) 0 m).
(** [m.values().all(|s| s.rx_bytes > 0)]. *)
Definition all_received (m : StatsMap) : bool :=
  forallb (λ kv, 0 <? rx_bytes kv.2) (map_to_list m).
(** All counters of [old] have grown in [new]. *)
Definition rx_incremented (old new : StatsMap) : bool :=
  forallb (λ kv, match new !! kv.1 with
                 | Some new_stats => rx_bytes kv.2 <? rx_bytes new_stats
                 | None => false
                 end) (map_to_list old).
Definition is_empty (m : StatsMap) : bool := bool_decide (m = ∅).

(** ** State (check.rs) *)

Inductive ConnState : Type :=
| Connecting (start : Z) (stats : StatsMap) (tx_timestamp : option Z)
| Connected (rx_timestamp tx_timestamp : Z) (stats : StatsMap).

Record PingState : Set := {
  initial_ping_timestamp : option Z;
  num_pings_sent : Z
}.

Definition ConnState_new (start : Z) (stats : StatsMap) : ConnState := Connecting start stats None.
Definition PingState_new_with : PingState := {| initial_ping_timestamp := None; num_pings_sent := 0 |}.

Definition update (now : Z) (new_stats : StatsMap) (c : ConnState) : bool * ConnState :=
  match c with
  | Connecting start stats tx_timestamp =>
      if negb (is_empty new_stats) && all_received new_stats then
        (true, Connected now (default start tx_timestamp) new_stats)
      else if tx_sum stats <? tx_sum new_stats then
        (false, Connecting start new_stats (Some now))
      else (false, c)
  | Connected rx_timestamp tx_timestamp stats =>
      let incremented := rx_incremented stats new_stats in
      let rx_timestamp := if incremented then now else rx_timestamp in
      let tx_timestamp := if tx_sum stats <? tx_sum new_stats then now else tx_timestamp in
      (incremented, Connected rx_timestamp tx_timestamp new_stats)
  end.

Definition reset_after_suspension (now : Z) (c : ConnState) : ConnState :=
  match c with
  | Connected _ tx_timestamp stats => Connected now tx_timestamp stats
  | Connecting _ _ _ => c
  end.

Definition connected (c : ConnState) : bool :=
  match c with Connected _ _ _ => true | Connecting _ _ _ => false end.

(** ** The outside world *)

Record Oracle : Type := {
  new_pinger : result unit unit;
  clock : nat → Z;
  get_tunnel_stats : nat → result unit StatsMap;
  send_icmp : nat → result unit unit;
  closed : nat → bool;
  tunnel_exists : nat → bool
}.

Inductive Error : Set :=
| ConfigReadError
| PingError
| Panic.

Record CheckWorld : Type := {
  cw_tick : nat;
  cw_conn : ConnState;
  cw_ping : PingState;
  cw_pings : list Z
}.

Section Check.
Context (orc : Oracle).

(** Computations over the check and its world that may fail. *)
Definition M (A : Type) : Type := CheckWorld → result Error A * CheckWorld.
#[global] Instance M_ret : MRet M := λ A a w, (Ok a, w).
#[global] Instance M_bind : MBind M := λ A B f m w,
  match m w with
  | (Ok a, w) => f a w
  | (Err e, w) => (Err e, w)
  end.

Definition fail {A} (e : Error) : M A := λ w, (Err e, w).
Definition ask {A} (f : nat → A) : M A := λ w,
  (Ok (f (cw_tick w)), {| cw_tick := S (cw_tick w); cw_conn := cw_conn w; cw_ping := cw_ping w;
                          cw_pings := cw_pings w |}).
Definition get_conn : M ConnState := λ w, (Ok (cw_conn w), w).
Definition get_ping : M PingState := λ w, (Ok (cw_ping w), w).
Definition put_conn (c : ConnState) : M unit := λ w,
  (Ok tt, {| cw_tick := cw_tick w; cw_conn := c; cw_ping := cw_ping w; cw_pings := cw_pings w |}).
Definition put_ping (p : PingState) : M unit := λ w,
  (Ok tt, {| cw_tick := cw_tick w; cw_conn := cw_conn w; cw_ping := p; cw_pings := cw_pings w |}).
Definition log_ping : M unit := λ w,
  (Ok tt, {| cw_tick := cw_tick w; cw_conn := cw_conn w; cw_ping := cw_ping w;
             cw_pings := clock orc (cw_tick w) :: cw_pings w |}).

Definition Instant_now : M Z := ask (clock orc).
(** [Instant::elapsed] is zero for an instant in the future. *)
Definition elapsed (since : Z) : M Z := now ← Instant_now; mret (Z.max 0 (now - since)).

(** The times of the pings are logged. *)
Definition Pinger_send : M unit :=
  r ← ask (send_icmp orc);
  match r with
  | Ok _ => log_ping
  | Err _ => fail PingError
  end.

(** *** Timeouts *)

Definition rx_timed_out (c : ConnState) : M bool :=
  match c with
  | Connecting start _ _ => e ← elapsed start; mret (BYTES_RX_TIMEOUT <=? e)
  | Connected rx_timestamp tx_timestamp _ =>
      if rx_timestamp <=? tx_timestamp then e ← elapsed rx_timestamp; mret (BYTES_RX_TIMEOUT <=? e)
      else mret false
  end.

Definition traffic_timed_out (c : ConnState) : M bool :=
  match c with
  | Connecting _ _ _ => rx_timed_out c
  | Connected rx_timestamp tx_timestamp _ =>
      e ← elapsed rx_timestamp;
      if TRAFFIC_TIMEOUT <=? e then mret true
      else e ← elapsed tx_timestamp; mret (TRAFFIC_TIMEOUT <=? e)
  end.

Definition ping_timed_out (p : PingState) (timeout : Z) : M bool :=
  match initial_ping_timestamp p with
  | Some t => e ← elapsed t; mret (timeout <? e)
  | None => mret false
  end.

Definition PingState_reset : M unit := put_ping PingState_new_with.

(** [PingState::new] and [Check::new]: opening the ping socket may fail. *)
Definition PingState_new : result Error PingState :=
  match new_pinger orc with
  | Ok _ => Ok PingState_new_with
  | Err _ => Err PingError
  end.

Definition Check_new : result Error CheckWorld :=
  let conn_state := ConnState_new (clock orc 0) ∅ in
  match PingState_new with
  | Ok ping_state => Ok {| cw_tick := 1; cw_conn := conn_state; cw_ping := ping_state; cw_pings := [] |}
  | Err error => Err error
  end.

(** *** Checking *)

(** Dividing a duration by zero panics. *)
Definition ping_due (p : PingState) : M bool :=
  match initial_ping_timestamp p with
  | Some t =>
      e ← elapsed t;
      if num_pings_sent p =? 0 then fail Panic
      else mret (e / num_pings_sent p <? SECONDS_PER_PING)
  | None => mret true
  end.

Definition maybe_send_ping (now : Z) : M unit :=
  c ← get_conn;
  p ← get_ping;
  rx ← rx_timed_out c;
  timed_out ← (if rx : bool then mret true else traffic_timed_out c);
  due ← (if timed_out : bool then ping_due p else mret false);
  if due : bool then
    _ ← Pinger_send;
    put_ping {| initial_ping_timestamp := Some (default now (initial_ping_timestamp p));
                num_pings_sent := wrap 32 (num_pings_sent p + 1) |}
  else mret tt.

Definition get_stats : M (option StatsMap) :=
  r ← ask (get_tunnel_stats orc);
  match r with
  | Ok stats => mret (if is_empty stats then None else Some stats)
  | Err _ => fail ConfigReadError
  end.

Definition check_connectivity_interval (now timeout : Z) : M bool :=
  stats ← get_stats;
  match stats with
  | None => mret false
  | Some new_stats =>
      c ← get_conn;
      let '(received, c) := update now new_stats c in
      _ ← put_conn c;
      if received : bool then _ ← PingState_reset; mret true
      else
        _ ← maybe_send_ping now;
        p ← get_ping;
        timed_out ← ping_timed_out p timeout;
        mret (negb timed_out && connected c)
  end.

Definition check_connectivity (now : Z) : M bool := check_connectivity_interval now PING_TIMEOUT.

Definition reset (current_iteration : Z) : M unit :=
  _ ← PingState_reset;
  c ← get_conn;
  put_conn (reset_after_suspension current_iteration c).

(** [u32::saturating_pow] and [Duration::saturating_mul]. *)
Definition saturating_pow (b : Z) (e : Z) : Z := Z.min U32_MAX (b ^ e).
Definition saturating_mul (d k : Z) : Z := Z.min DURATION_MAX (d * k).

Definition check_timeout (retry_attempt timeout_initial timeout_multiplier max_timeout : Z) : Z :=
  Z.min max_timeout (saturating_mul timeout_initial (saturating_pow timeout_multiplier retry_attempt)).

(** The polling loop; [polls] is the number of iterations it completes before
    the cancel signal or the timeout of the [select!] wins. *)
Fixpoint poll_check (polls : nat) (timeout : Z) : M bool :=
  match polls with
  | O => mret false
  | S polls =>
      now ← Instant_now;
      ok ← check_connectivity_interval now timeout;
      if ok : bool then mret true else poll_check polls timeout
  end.

Definition establish_connectivity_inner (polls : nat)
    (retry_attempt timeout_initial timeout_multiplier max_timeout : Z) : M bool :=
  c ← get_conn;
  if connected c then mret true
  else poll_check polls (check_timeout retry_attempt timeout_initial timeout_multiplier max_timeout).

Definition establish_connectivity (polls : nat) (retry_attempt : Z) : M bool :=
  _ ← Pinger_send;
  establish_connectivity_inner polls retry_attempt ESTABLISH_TIMEOUT ESTABLISH_TIMEOUT_MULTIPLIER
    MAX_ESTABLISH_TIMEOUT.

(** ** The monitor (monitor.rs) *)

(** Why the loop has ended, or the time of the last check when it goes on. *)
Inductive Progress : Set :=
| Running (last_check : Z)
| ShutDown
| TunnelClosed
| NotConnected.

Definition tunnel_exists_and_is_connected : M (option bool) :=
  exists_ ← ask (tunnel_exists orc);
  if exists_ : bool then
    now ← Instant_now;
    ok ← check_connectivity now;
    mret (Some ok)
  else mret None.

(** One iteration of [Monitor::run]; waiting for the interval of
    [REGULAR_LOOP_SLEEP] is one more question to the world, which takes the time
    that the clock shows afterwards: the interval's ticks come a second apart,
    and later when the system sleeps or is busy. *)
Definition monitor_iteration (last_check : Z) : M Progress :=
  stop ← ask (closed orc);
  if stop : bool then mret ShutDown
  else
    now ← Instant_now;
    let time_slept := now - last_check in
    progress ← (if SUSPEND_TIMEOUT <=? time_slept then _ ← reset now; mret (Running now)
                else
                  r ← tunnel_exists_and_is_connected;
                  mret match r with
                       | Some true => Running now
                       | Some false => NotConnected
                       | None => TunnelClosed
                       end);
    match progress with
    | Running _ => _ ← ask (λ _, tt); mret progress
    | _ => mret progress
    end.

Fixpoint monitor_run (iterations : nat) (last_check : Z) : M Progress :=
  match iterations with
  | O => mret (Running last_check)
  | S iterations =>
      progress ← monitor_iteration last_check;
      match progress with
      | Running now => monitor_run iterations now
      | _ => mret progress
      end
  end.

(** [Monitor::run], for a number of iterations. *)
Definition Monitor_run (iterations : nat) : M Progress :=
  last_check ← Instant_now;
  monitor_run iterations last_check.
End Check.

(** ** Invariant *)

Section Theorems.
Context (orc : Oracle) (clock_mono : ∀ i j : nat, (i ≤ j)%nat → clock orc i ≤ clock orc j).

(** After at most [n] checks, all instants stored in the check are at most [b],
    which has passed; a ping is outstanding only if pings were counted, and
    nothing has been received since it was sent. *)
Record check_inv (b n : Z) (w : CheckWorld) : Prop := {
  ci_now : b ≤ clock orc (cw_tick w);
  ci_none : initial_ping_timestamp (cw_ping w) = None → num_pings_sent (cw_ping w) = 0;
  ci_some t : initial_ping_timestamp (cw_ping w) = Some t → 1 ≤ num_pings_sent (cw_ping w) ≤ n ∧ t ≤ b;
  ci_conn rx tx s : cw_conn w = Connected rx tx s →
    rx ≤ b ∧ ∀ t, initial_ping_timestamp (cw_ping w) = Some t → rx ≤ t
}.

(** Questions that change nothing but the number of questions asked. *)
Definition advance (k : nat) (w : CheckWorld) : CheckWorld :=
  {| cw_tick := (k + cw_tick w)%nat; cw_conn := cw_conn w; cw_ping := cw_ping w; cw_pings := cw_pings w |}.

Lemma advance_advance k k' w : advance k (advance k' w) = advance (k + k') w.
Proof. unfold advance. cbn. f_equal. lia. Qed.

Lemma advance_0 w : advance 0 w = w.
Proof. by destruct w. Qed.

Lemma check_inv_later b b' n n' k w :
  check_inv b n w → b ≤ b' ≤ clock orc (cw_tick (advance k w)) → n ≤ n' → check_inv b' n' (advance k w).
Proof.
  intros [Hb Hn Hs Hc] Hb' Hn'. split; cbn in *; [lia|done| |].
  - intros t Ht. destruct (Hs t Ht). lia.
  - intros rx tx s E. destruct (Hc _ _ _ E). split; [lia|done].
Qed.

Lemma check_inv_advance b n k w : check_inv b n w → check_inv b n (advance k w).
Proof.
  intros Hi. eapply check_inv_later; [done| |lia]. pose proof (ci_now _ _ _ Hi).
  pose proof (clock_mono (cw_tick w) (k + cw_tick w)). cbn. lia.
Qed.

Lemma elapsed_eq t w : elapsed orc t w = (Ok (Z.max 0 (clock orc (cw_tick w) - t)), advance 1 w).
Proof. done. Qed.

Lemma rx_timed_out_eq c w : ∃ v k, (k ≤ 1)%nat ∧ rx_timed_out orc c w = (Ok v, advance k w).
Proof.
  destruct c as [start s o|rx tx s]; cbn; [eexists _, 1%nat; split; [lia|done]|].
  case_match; [eexists _, 1%nat; split; [lia|done]|]. eexists _, 0%nat. rewrite advance_0. split; [lia|done].
Qed.

Lemma traffic_timed_out_eq c w :
  ∃ v k, (k ≤ 2)%nat ∧ traffic_timed_out orc c w = (Ok v, advance k w) ∧
    ∀ rx tx s, c = Connected rx tx s → TRAFFIC_TIMEOUT ≤ clock orc (cw_tick w) - rx → v = true.
Proof.
  destruct c as [start s o|rx tx s]; cbn.
  - destruct (rx_timed_out_eq (Connecting start s o) w) as (v & k & ? & E). exists v, k. split_and!; [lia|done|done].
  - unfold mbind, M_bind, mret, M_ret. rewrite elapsed_eq. case_match eqn:E.
    + exists true, 1%nat. split_and!; [lia|done|done].
    + eexists _, 2%nat. split_and!; [lia|done|]. intros ? ? ? [= <- <- <-] Hr. apply Z.leb_gt in E. lia.
Qed.

Lemma ping_due_eq p w :
  (initial_ping_timestamp p ≠ None → num_pings_sent p ≠ 0) →
  ∃ v k, (k ≤ 1)%nat ∧ ping_due orc p w = (Ok v, advance k w) ∧ (initial_ping_timestamp p = None → v = true).
Proof.
  unfold ping_due. destruct (initial_ping_timestamp p) as [t|]; intros Hnz.
  - unfold mbind, M_bind. rewrite elapsed_eq. destruct (Z.eqb_spec (num_pings_sent p) 0) as [E|_]; [by apply Hnz in E|].
    eexists _, 1%nat. split_and!; [lia|done|done].
  - exists true, 0%nat. rewrite advance_0. split_and!; [lia|done|done].
Qed.

(** Sending a ping, when one is sent. *)
Definition pinged (b : Z) (w : CheckWorld) : CheckWorld :=
  {| cw_tick := S (cw_tick w); cw_conn := cw_conn w;
     cw_ping := {| initial_ping_timestamp := Some (default b (initial_ping_timestamp (cw_ping w)));
                   num_pings_sent := wrap 32 (num_pings_sent (cw_ping w) + 1) |};
     cw_pings := clock orc (S (cw_tick w)) :: cw_pings w |}.

Lemma ping_nonzero b n w :
  check_inv b n w → initial_ping_timestamp (cw_ping w) ≠ None → num_pings_sent (cw_ping w) ≠ 0.
Proof.
  intros Hi Hn. destruct (initial_ping_timestamp (cw_ping w)) as [t|] eqn:E; [|done].
  destruct (ci_some _ _ _ Hi t E). lia.
Qed.

Lemma M_bind_ok {A B} (m : M A) (f : A → M B) w a w1 : m w = (Ok a, w1) → (m ≫= f) w = f a w1.
Proof. unfold mbind, M_bind. by intros ->. Qed.

Lemma in_doubt_eq (v : bool) c w :
  ∃ v' k, (k ≤ 2)%nat ∧ (if v then mret true else traffic_timed_out orc c : M bool) w = (Ok v', advance k w) ∧
    ∀ rx tx s, c = Connected rx tx s → TRAFFIC_TIMEOUT ≤ clock orc (cw_tick w) - rx → v' = true.
Proof.
  destruct v; [|apply traffic_timed_out_eq].
  exists true, 0%nat. rewrite advance_0. split_and!; [lia|done|done].
Qed.

Lemma maybe_send_ping_eq b n w :
  check_inv b n w →
  ∃ k, (k ≤ 4)%nat ∧
    ((maybe_send_ping orc b w = (Ok tt, advance k w) ∧
      ∀ rx tx s, cw_conn w = Connected rx tx s → initial_ping_timestamp (cw_ping w) = None →
        clock orc (cw_tick w) - rx < TRAFFIC_TIMEOUT) ∨
     maybe_send_ping orc b w = (Err PingError, advance (S k) w) ∨
     maybe_send_ping orc b w = (Ok tt, pinged b (advance k w))).
Proof.
  intros Hi. unfold maybe_send_ping.
  erewrite (M_bind_ok get_conn), (M_bind_ok get_ping) by done.
  destruct (rx_timed_out_eq (cw_conn w) w) as (v & k1 & Hk1 & E1). erewrite M_bind_ok by exact E1.
  destruct (in_doubt_eq v (cw_conn w) (advance k1 w)) as (v' & k2 & Hk2 & E2 & Htraffic).
  erewrite M_bind_ok by exact E2. rewrite advance_advance.
  assert (∀ rx tx s, cw_conn w = Connected rx tx s → v' = false →
    clock orc (cw_tick w) - rx < TRAFFIC_TIMEOUT) as Hsoon.
  { intros rx tx s E Hv'. pose proof (clock_mono (cw_tick w) (k1 + cw_tick w)).
    destruct (Z.lt_ge_cases (clock orc (cw_tick w) - rx) TRAFFIC_TIMEOUT); [done|].
    specialize (Htraffic _ _ _ E). cbn in Htraffic. by rewrite Htraffic in Hv' by lia. }
  destruct v'; [|exists (k2 + k1)%nat; split; [lia|]; left; split; [done|]; intros; by eapply Hsoon].
  destruct (ping_due_eq (cw_ping w) (advance (k2 + k1) w)) as (due & k3 & Hk3 & E3 & Hdue);
    [by eapply ping_nonzero|]. erewrite M_bind_ok by exact E3. rewrite advance_advance.
  exists (k3 + (k2 + k1))%nat. split; [lia|].
  destruct due; [right|left; split; [done|]; intros rx tx s _ E; by specialize (Hdue E)].
  unfold Pinger_send, mbind, M_bind, ask, fail. cbn.
  destruct (send_icmp orc _); cbn; [right|left]; done.
Qed.

(** *** One check *)

Lemma update_connected now m c : connected c = true → connected (update now m c).2 = true.
Proof. by destruct c. Qed.

Lemma update_true now m c b c' : update now m c = (b, c') → b = true → connected c' = true.
Proof. destruct c; cbn; repeat case_match; naive_solver. Qed.

(** The times of an updated connection: unchanged, or [now] when bytes came in. *)
Lemma update_times now m c b c' rx tx s :
  update now m c = (b, c') → c' = Connected rx tx s →
  if b then rx = now else ∃ tx0 s0, c = Connected rx tx0 s0.
Proof. destruct c; cbn; repeat case_match; intros; simplify_eq/=; by eauto. Qed.

Lemma check_inv_update b n w now m r c :
  check_inv b n w → b = now → update now m (cw_conn w) = (r, c) →
  check_inv b n {| cw_tick := cw_tick w; cw_conn := c;
                   cw_ping := if r then PingState_new_with else cw_ping w; cw_pings := cw_pings w |}.
Proof.
  intros [Hb Hn Hs Hc] -> Hu. split; cbn; [done|by destruct r|destruct r; [done|exact Hs]|].
  intros rx tx s E. pose proof (update_times _ _ _ _ _ _ _ _ Hu E) as Ht. destruct r.
  - subst rx. split; [lia|done].
  - destruct Ht as (tx0 & s0 & E0). eauto.
Qed.

Lemma check_inv_pinged b n w :
  check_inv b n w → n + 1 < 2 ^ 32 → 0 ≤ n → check_inv b (n + 1) (pinged b w).
Proof.
  intros [Hb Hn Hs Hc] Hlt Hn0. assert (0 ≤ num_pings_sent (cw_ping w) ≤ n) as Hnum.
  { destruct (initial_ping_timestamp (cw_ping w)) as [t|] eqn:E; [destruct (Hs _ eq_refl); lia|].
    rewrite Hn by done. lia. }
  split; cbn; [|done|..].
  - pose proof (clock_mono (cw_tick w) (S (cw_tick w))). lia.
  - intros t [= <-]. unfold wrap. rewrite Z.mod_small by lia. split; [lia|].
    destruct (initial_ping_timestamp (cw_ping w)) as [t|] eqn:E; cbn; [by apply Hs|lia].
  - intros rx tx s E. destruct (Hc _ _ _ E) as [? Ht]. split; [done|]. intros t [= <-].
    destruct (initial_ping_timestamp (cw_ping w)) as [t|] eqn:E'; cbn; [by apply Ht|done].
Qed.

(** What a check of a connection that was last heard of at [rx] found. *)
Definition in_time (timeout : Z) (w w' : CheckWorld) (b rx : Z) : Prop :=
  match initial_ping_timestamp (cw_ping w') with
  | None => clock orc (cw_tick w) - rx < TRAFFIC_TIMEOUT
  | Some t => t = default b (initial_ping_timestamp (cw_ping w)) ∧
              ∃ i, (cw_tick w ≤ i < cw_tick w')%nat ∧ clock orc i - t ≤ timeout
  end.

(** The state of the connection after reading non-empty counters at time [b]. *)
Definition updated (b : Z) (w : CheckWorld) (c : ConnState) : Prop :=
  ∃ m, get_tunnel_stats orc (cw_tick w) = Ok m ∧ m ≠ ∅ ∧ c = (update b m (cw_conn w)).2.

Record checked (b n timeout : Z) (w : CheckWorld) (r : result Error bool) (w' : CheckWorld) : Prop := {
  ck_inv : check_inv b (n + 1) w';
  ck_tick : (1 + cw_tick w ≤ cw_tick w' ≤ 7 + cw_tick w)%nat;
  ck_no_panic : r ≠ Err Panic;
  ck_connected : connected (cw_conn w) = true → connected (cw_conn w') = true;
  ck_true : r = Ok true → connected (cw_conn w') = true;
  ck_false : r = Ok false → connected (cw_conn w) = true →
    get_tunnel_stats orc (cw_tick w) = Ok ∅ ∨
    ∃ t, initial_ping_timestamp (cw_ping w') = Some t ∧ timeout < clock orc (cw_tick w') - t;
  ck_rx rx tx s : cw_conn w' = Connected rx tx s → r = Ok true →
    rx = b ∨ (∃ tx0 s0, cw_conn w = Connected rx tx0 s0) ∧ in_time timeout w w' b rx;
  ck_update : updated b w (cw_conn w') ∨ cw_conn w' = cw_conn w ∧ r ≠ Ok true;
  ck_first : connected (cw_conn w) = false → connected (cw_conn w') = true → r = Ok true
}.

Lemma get_stats_eq w :
  get_stats orc w = (match get_tunnel_stats orc (cw_tick w) with
                     | Ok m => Ok (if is_empty m then None else Some m)
                     | Err _ => Err ConfigReadError
                     end, advance 1 w).
Proof. unfold get_stats, mbind, M_bind, ask. by destruct (get_tunnel_stats orc (cw_tick w)). Qed.

Lemma unheard_not_connected w0 c :
  (∀ rx tx s, c = Connected rx tx s → ∃ tx0 s0, cw_conn w0 = Connected rx tx0 s0) →
  connected (cw_conn w0) = false → connected c = false.
Proof. destruct c as [|rx tx s]; [done|]. intros Hrx. by destruct (Hrx _ _ _ eq_refl) as (? & ? & ->). Qed.

(** The end of a check that heard nothing: has the ping timed out? *)
Lemma check_verdict b n timeout w0 c w2 r w' :
  check_inv b (n + 1) w2 → (S (cw_tick w0) ≤ cw_tick w2 ≤ 6 + cw_tick w0)%nat → cw_conn w2 = c →
  updated b w0 c →
  (connected (cw_conn w0) = true → connected c = true) →
  (∀ rx tx s, c = Connected rx tx s → ∃ tx0 s0, cw_conn w0 = Connected rx tx0 s0) →
  (∀ rx tx s, c = Connected rx tx s → initial_ping_timestamp (cw_ping w2) = None →
    clock orc (cw_tick w0) - rx < TRAFFIC_TIMEOUT) →
  (∀ t, initial_ping_timestamp (cw_ping w2) = Some t → t = default b (initial_ping_timestamp (cw_ping w0))) →
  (p ← get_ping; t ← ping_timed_out orc p timeout; mret (negb t && connected c)) w2 = (r, w') →
  checked b n timeout w0 r w'.
Proof.
  intros Hi Ht Hc Hup Hconn Hrx Hsoon Hping Hr. erewrite (M_bind_ok get_ping) in Hr by done.
  unfold ping_timed_out in Hr. destruct (initial_ping_timestamp (cw_ping w2)) as [t|] eqn:Ep.
  - erewrite (M_bind_ok (elapsed orc t ≫= _)) in Hr by done. injection Hr as <- <-.
    split; cbn -[Z.add]; [by apply (check_inv_advance _ _ 1)|lia|done|by rewrite Hc| | | |by left; rewrite Hc|intros H0; by rewrite Hc, (unheard_not_connected _ _ Hrx H0)].
    + rewrite Hc. intros [= [_ ?]%andb_true_iff]. done.
    + intros [= Hv] Hw0. right. exists t. split; [done|]. rewrite (Hconn Hw0), andb_true_r in Hv.
      apply negb_false_iff, Z.ltb_lt in Hv. pose proof (clock_mono (cw_tick w2) (S (cw_tick w2))).
      pose proof (ci_now _ _ _ Hi). destruct (ci_some _ _ _ Hi _ Ep). lia.
    + intros rx tx s E [= [Hv _]%andb_true_iff]. right. rewrite Hc in E. split; [by eapply Hrx|].
      unfold in_time. cbn. rewrite Ep. split; [by apply Hping|]. exists (cw_tick w2).
      apply negb_true_iff, Z.ltb_ge in Hv. cbn. split; lia.
  - erewrite (M_bind_ok (mret false)) in Hr by done. injection Hr as <- <-.
    split; [done|lia|done|by rewrite Hc| | | |by left; rewrite Hc|intros H0; by rewrite Hc, (unheard_not_connected _ _ Hrx H0)].
    + rewrite Hc. by intros [= ?].
    + intros [= Hv] Hw0. by rewrite (Hconn Hw0) in Hv.
    + intros rx tx s E _. right. rewrite Hc in E. split; [by eapply Hrx|]. unfold in_time. rewrite Ep. by eapply Hsoon.
Qed.

Lemma check_inv_more b n n' w : check_inv b n w → n ≤ n' → check_inv b n' w.
Proof.
  intros Hi Hn. rewrite <- (advance_0 w). eapply check_inv_later; [done| |done].
  rewrite advance_0. pose proof (ci_now _ _ _ Hi). lia.
Qed.

Lemma check_unheard b n timeout w0 m c r w' :
  check_inv b n w0 → 0 ≤ n → n + 1 < 2 ^ 32 → get_tunnel_stats orc (cw_tick w0) = Ok m → m ≠ ∅ →
  update b m (cw_conn w0) = (false, c) →
  (_ ← put_conn c; _ ← maybe_send_ping orc b; p ← get_ping; t ← ping_timed_out orc p timeout;
   mret (negb t && connected c)) (advance 1 w0) = (r, w') →
  checked b n timeout w0 r w'.
Proof.
  intros Hi Hn Hlt Hm Hne Hu Hr. erewrite M_bind_ok in Hr by done.
  assert (updated b w0 c) as Hup by (exists m; by rewrite Hu).
  set (w1 := {| cw_tick := _ |}) in Hr.
  assert (check_inv b n w1) as Hi1.
  { apply (check_inv_update b n (advance 1 w0) b m false c); [by apply check_inv_advance|done|done]. }
  assert (∀ rx tx s, c = Connected rx tx s → ∃ tx0 s0, cw_conn w0 = Connected rx tx0 s0) as Hrx.
  { intros rx tx s E. by apply (update_times _ _ _ _ _ _ _ _ Hu E). }
  assert (connected (cw_conn w0) = true → connected c = true) as Hconn.
  { intros Hc. apply (update_connected b m) in Hc. by rewrite Hu in Hc. }
  pose proof (clock_mono (cw_tick w0) (S (cw_tick w0))) as Hmono.
  destruct (maybe_send_ping_eq b n w1 Hi1) as (k & Hk & [[E Hsoon]|[E|E]]).
  - erewrite M_bind_ok in Hr by exact E. eapply check_verdict; [..|exact Hr]; try done.
    + eapply check_inv_more; [by apply check_inv_advance|lia].
    + cbn. lia.
    + intros rx tx s Ec En. specialize (Hsoon rx tx s Ec En). cbn in Hsoon. lia.
    + cbn. by intros t ->.
  - unfold mbind at 1, M_bind at 1 in Hr. rewrite E in Hr. injection Hr as <- <-.
    split; [eapply check_inv_more; [by apply check_inv_advance|lia]|cbn; lia|done..|by left|].
    intros H0. cbn. by rewrite (unheard_not_connected _ _ Hrx H0).
  - erewrite M_bind_ok in Hr by exact E. eapply check_verdict; [..|exact Hr]; try done.
    + apply check_inv_pinged; [by apply check_inv_advance|done|done].
    + cbn. lia.
    + by intros t [= <-].
Qed.

Lemma check_interval_spec b n timeout w r w' :
  check_inv b n w → 0 ≤ n → n + 1 < 2 ^ 32 →
  check_connectivity_interval orc b timeout w = (r, w') → checked b n timeout w r w'.
Proof.
  intros Hi Hn Hlt Hr. unfold check_connectivity_interval in Hr.
  unfold mbind at 1, M_bind at 1 in Hr. rewrite get_stats_eq in Hr.
  assert (check_inv b (n + 1) (advance 1 w)) as Hi'.
  { eapply check_inv_more; [by apply check_inv_advance|lia]. }
  destruct (get_tunnel_stats orc (cw_tick w)) as [m|e] eqn:Es.
  2: { injection Hr as <- <-. split; [done|cbn; lia|done..|by right|]. cbn. congruence. }
  destruct (is_empty m) eqn:Em.
  { injection Hr as <- <-. unfold is_empty in Em. apply bool_decide_eq_true in Em. subst m.
    split; [done|cbn; lia|done..|by left|done|by right|]. cbn. congruence. }
  unfold is_empty in Em. apply bool_decide_eq_false in Em.
  erewrite (M_bind_ok get_conn) in Hr by done. cbn [advance cw_conn] in Hr.
  destruct (update b m (cw_conn w)) as [[] c] eqn:Hu; [|by eapply check_unheard].
  erewrite (M_bind_ok (put_conn c)), (M_bind_ok PingState_reset) in Hr by done. injection Hr as <- <-.
  pose proof (update_true _ _ _ _ _ Hu eq_refl) as Hc.
  split; cbn; [|lia|done|done|done|done| |left; exists m; by rewrite Hu|done].
  - eapply (check_inv_update b (n + 1) (advance 1 w) b m true c); done.
  - intros rx tx s E _. left. by apply (update_times _ _ _ _ _ _ _ _ Hu E).
Qed.
(** *** The monitor *)

Lemma iteration_cases last w r w' :
  monitor_iteration orc last w = (r, w') →
  let now := clock orc (1 + cw_tick w) in
  ((r = Ok ShutDown ∨ r = Ok TunnelClosed) ∧ (cw_tick w' ≤ 3 + cw_tick w)%nat) ∨
  (SUSPEND_TIMEOUT ≤ now - last ∧ r = Ok (Running now) ∧
   w' = {| cw_tick := 3 + cw_tick w; cw_conn := reset_after_suspension now (cw_conn w);
           cw_ping := PingState_new_with; cw_pings := cw_pings w |}) ∨
  (now - last < SUSPEND_TIMEOUT ∧
   ∃ rc wc, check_connectivity orc (clock orc (3 + cw_tick w)) (advance 4 w) = (rc, wc) ∧
     match rc with
     | Ok true => r = Ok (Running now) ∧ w' = advance 1 wc
     | Ok false => r = Ok NotConnected ∧ w' = wc
     | Err e => r = Err e ∧ w' = wc
     end).
Proof.
  intros Hr now. unfold monitor_iteration in Hr.
  erewrite (M_bind_ok (ask (closed orc))) in Hr by done.
  destruct (closed orc (cw_tick w)); [injection Hr as <- <-; left; split; [auto|cbn; lia]|].
  erewrite (M_bind_ok (Instant_now orc)) in Hr by done. cbv zeta in Hr. cbn [cw_tick] in Hr.
  change (clock orc (S (cw_tick w))) with now in Hr.
  destruct (Z.leb_spec SUSPEND_TIMEOUT (now - last)) as [Hs|Hs].
  - right. left. unfold reset, mbind, M_bind in Hr. injection Hr as <- <-. done.
  - unfold tunnel_exists_and_is_connected, mbind, M_bind in Hr. cbn in Hr.
    destruct (tunnel_exists orc _); [|injection Hr as <- <-; left; split; [auto|cbn; lia]].
    do 2 right. split; [done|].
    match type of Hr with context [check_connectivity orc ?b ?w1] =>
      destruct (check_connectivity orc b w1) as [rc wc] eqn:E; change w1 with (advance 4 w) in E;
      change b with (clock orc (3 + cw_tick w)) in E end.
    exists rc, wc. split; [done|]. destruct rc as [[]|e]; injection Hr as <- <-; done.
Qed.

(** Reading the clock is fresh: an invariant for the new time. *)
Lemma check_inv_read b n k i w :
  check_inv b n w → (cw_tick w ≤ i ≤ k + cw_tick w)%nat → check_inv (clock orc i) n (advance k w).
Proof.
  intros Hi Hk. eapply check_inv_later; [done| |lia]. pose proof (ci_now _ _ _ Hi).
  pose proof (clock_mono (cw_tick w) i). pose proof (clock_mono i (k + cw_tick w)). cbn. lia.
Qed.

Lemma check_inv_reset b n k w :
  check_inv b n w →
  let now := clock orc (1 + cw_tick w) in
  check_inv now n {| cw_tick := S k + cw_tick w; cw_conn := reset_after_suspension now (cw_conn w);
                     cw_ping := PingState_new_with; cw_pings := cw_pings w |}.
Proof.
  intros Hi now. split; cbn [cw_tick cw_conn cw_ping]; [|done|done|].
  - apply clock_mono. lia.
  - intros rx tx s E. split; [|done]. destruct (cw_conn w); simplify_eq/=. lia.
Qed.

Definition heard_late (w : CheckWorld) : Prop :=
  ∃ rx tx s, cw_conn w = Connected rx tx s ∧ PING_TIMEOUT < clock orc (cw_tick w) - rx.

Lemma iteration_spec b n last w r w' :
  check_inv b n w → connected (cw_conn w) = true → 0 ≤ n → n + 1 < 2 ^ 32 →
  monitor_iteration orc last w = (r, w') →
  r ≠ Err Panic ∧
  (∀ l, r = Ok (Running l) → connected (cw_conn w') = true ∧ ∃ b', check_inv b' (n + 1) w') ∧
  (r = Ok NotConnected → (∃ i, get_tunnel_stats orc i = Ok ∅) ∨ heard_late w').
Proof.
  intros Hi Hc Hn Hlt Hr.
  destruct (iteration_cases _ _ _ _ Hr) as [[[-> | ->] _] | [(_ & -> & ->) | (_ & rc & wc & Hck & Hrc)]]; [done..| |].
  - split_and!; [done| |done]. intros l _. split; [by destruct (cw_conn w)|]. eexists.
    eapply check_inv_more; [eapply (check_inv_reset _ _ 2), Hi|lia].
  - apply (check_interval_spec _ n) in Hck as [Hi' _ Hp Hcc _ Hf _ _ _]; [|by eapply check_inv_read; [|lia]|done|done].
    specialize (Hcc Hc). destruct rc as [[]|e]; destruct Hrc as [-> ->].
    + split_and!; [done| |done]. intros l _. split; [done|]. eexists. by apply check_inv_advance.
    + split_and!; [done|done|]. intros _. destruct (Hf eq_refl Hc) as [?|(t & Ht & Hlate)]; [by left; eexists|right].
      destruct (cw_conn wc) as [|rx tx s] eqn:E; [done|]. exists rx, tx, s. split; [done|].
      destruct (ci_conn _ _ _ Hi' _ _ _ E) as [_ Hrx]. specialize (Hrx _ Ht). lia.
    + split_and!; [by intros [= ->]|done|done].
Qed.

Lemma run_spec iterations : ∀ b n last w r w',
  check_inv b n w → connected (cw_conn w) = true → 0 ≤ n → n + Z.of_nat iterations < 2 ^ 32 →
  monitor_run orc iterations last w = (r, w') →
  r ≠ Err Panic ∧
  (r = Ok NotConnected → (∃ i, get_tunnel_stats orc i = Ok ∅) ∨ heard_late w').
Proof.
  induction iterations as [|iterations IH]; intros b n last w r w' Hi Hc Hn Hlt Hr.
  { injection Hr as <- <-. done. }
  cbn [monitor_run] in Hr. unfold mbind, M_bind in Hr.
  destruct (monitor_iteration orc last w) as [r1 w1] eqn:E1.
  destruct (iteration_spec _ n _ _ _ _ Hi Hc Hn ltac:(lia) E1) as (Hp & Hrun & Hnot).
  destruct r1 as [[l| | |]|e]; try (injection Hr as <- <-; by auto).
  destruct (Hrun l eq_refl) as [Hc1 [b1 Hi1]]. eapply IH; [exact Hi1|done|lia|lia|exact Hr].
Qed.
(** *** Establishing a connection *)

Lemma Check_new_inv w :
  Check_new orc = Ok w → check_inv (clock orc 0) 0 w ∧ connected (cw_conn w) = false.
Proof.
  unfold Check_new, PingState_new. destruct (new_pinger orc); [intros [= <-]|done].
  split; [|done]. split; cbn; [apply clock_mono; lia|done..].
Qed.

(** A connection over which every peer has been heard. *)
Definition heard (c : ConnState) : Prop :=
  ∃ rx tx s, c = Connected rx tx s ∧ s ≠ ∅ ∧ all_received s = true.

Lemma poll_spec polls : ∀ b n timeout w r w',
  check_inv b n w → connected (cw_conn w) = false → 0 ≤ n → n + Z.of_nat polls < 2 ^ 32 →
  poll_check orc polls timeout w = (r, w') →
  r ≠ Err Panic ∧ (∃ b', check_inv b' (n + Z.of_nat polls) w') ∧ (r = Ok true → heard (cw_conn w')).
Proof.
  induction polls as [|polls IH]; intros b n timeout w r w' Hi Hc Hn Hlt Hr.
  { injection Hr as <- <-. split_and!; [done| |done]. exists b. by rewrite Z.add_0_r. }
  cbn [poll_check] in Hr. erewrite (M_bind_ok (Instant_now orc)) in Hr by done.
  change {| cw_tick := S (cw_tick w) |} with (advance 1 w) in Hr. unfold mbind, M_bind in Hr.
  match type of Hr with context [check_connectivity_interval orc ?b timeout ?w1] =>
    change w1 with (advance 1 w) in Hr;
    destruct (check_connectivity_interval orc b timeout (advance 1 w)) as [rc wc] eqn:E end.
  apply (check_interval_spec _ n) in E as [Hi' _ Hp _ Ht _ _ Hup Hfst]; [|by eapply check_inv_read; [|lia]|done|lia].
  destruct rc as [[]|e].
  - injection Hr as <- <-. split_and!; [done|eexists; eapply check_inv_more; [done|lia]|].
    intros _. specialize (Ht eq_refl). destruct Hup as [(m & _ & Hne & E)|[_ ?]]; [|done].
    rewrite E in Ht |- *. cbn in Ht |- *. destruct (cw_conn w) as [start s o|]; [|done]. cbn in *.
    destruct (negb (is_empty m) && all_received m) eqn:Em; [|by destruct (_ <? _)].
    apply andb_true_iff in Em as [_ Em]. by eexists _, _, m.
  - assert (connected (cw_conn wc) = false) as Hc'.
    { destruct (connected (cw_conn wc)); [by specialize (Hfst Hc eq_refl)|done]. }
    destruct (IH _ _ _ _ _ _ Hi' Hc' ltac:(lia) ltac:(lia) Hr) as (? & [b' Hb'] & ?).
    split_and!; [done|exists b'; eapply check_inv_more; [done|lia]|done].
  - injection Hr as <- <-. split_and!; [by intros [= ->]|eexists; eapply check_inv_more; [done|lia]|done].
Qed.

(** Logging a ping does not concern the invariant. *)
Definition logged (w : CheckWorld) : CheckWorld :=
  {| cw_tick := S (cw_tick w); cw_conn := cw_conn w; cw_ping := cw_ping w;
     cw_pings := clock orc (S (cw_tick w)) :: cw_pings w |}.

Lemma Pinger_send_eq w :
  Pinger_send orc w = match send_icmp orc (cw_tick w) with
                      | Ok _ => (Ok tt, logged w)
                      | Err _ => (Err PingError, advance 1 w)
                      end.
Proof. unfold Pinger_send, mbind, M_bind, ask. by destruct (send_icmp orc (cw_tick w)). Qed.

Lemma check_inv_logged b n w : check_inv b n w → check_inv b n (logged w).
Proof. intros Hi. destruct (check_inv_advance _ _ 1 _ Hi). by split. Qed.

Lemma establish_spec polls attempt w0 r w' :
  Check_new orc = Ok w0 → Z.of_nat polls < 2 ^ 32 → establish_connectivity orc polls attempt w0 = (r, w') →
  r ≠ Err Panic ∧ (∃ b, check_inv b (Z.of_nat polls) w') ∧ (r = Ok true → heard (cw_conn w')).
Proof.
  intros [Hi Hc]%Check_new_inv Hlt Hr. unfold establish_connectivity, mbind, M_bind in Hr. rewrite Pinger_send_eq in Hr.
  destruct (send_icmp orc _).
  - unfold establish_connectivity_inner in Hr. erewrite (M_bind_ok get_conn) in Hr by done.
    change (cw_conn (logged w0)) with (cw_conn w0) in Hr. rewrite Hc in Hr.
    eapply (poll_spec _ (clock orc 0) 0) in Hr; [by rewrite Z.add_0_l in Hr|..]; [|done|lia|lia].
    by apply check_inv_logged.
  - injection Hr as <- <-. split_and!; [done| |done]. eexists.
    eapply check_inv_more; [apply (check_inv_advance _ _ 1), Hi|lia].
Qed.

(** A tunnel is only reported as connected when every peer has been heard:
    when establishing a new connection succeeds, the check is in the connected
    state with non-zero received bytes for every peer, and it gives up after
    four to fifteen seconds, whatever the number of the attempt. *)
Theorem establish_sound (polls : nat) (attempt : Z) (w0 w' : CheckWorld) :
  Check_new orc = Ok w0 →
  Z.of_nat polls < 2 ^ 32 → 0 ≤ attempt →
  establish_connectivity orc polls attempt w0 = (Ok true, w') →
  heard (cw_conn w') ∧
  ESTABLISH_TIMEOUT ≤ check_timeout attempt ESTABLISH_TIMEOUT ESTABLISH_TIMEOUT_MULTIPLIER MAX_ESTABLISH_TIMEOUT ≤
    MAX_ESTABLISH_TIMEOUT.
Proof.
  intros Hnew Hlt Ha Hr. split; [by eapply establish_spec|].
  unfold check_timeout, saturating_mul, saturating_pow.
  assert (1 ≤ ESTABLISH_TIMEOUT_MULTIPLIER ^ attempt) as Hp.
  { unfold ESTABLISH_TIMEOUT_MULTIPLIER. pose proof (Z.pow_pos_nonneg 2 attempt). lia. }
  assert (1 ≤ Z.min U32_MAX (ESTABLISH_TIMEOUT_MULTIPLIER ^ attempt)) by (unfold U32_MAX; lia).
  unfold ESTABLISH_TIMEOUT, MAX_ESTABLISH_TIMEOUT, PING_TIMEOUT, DURATION_MAX, secs in *. lia.
Qed.

(** No false alarm: a monitor that runs on an established connection never
    panics, and it only reports the tunnel as not connected when the tunnel has
    no peers any more or when nothing has been received for more than the ping
    timeout of fifteen seconds. *)
Theorem monitor_no_false_alarm (polls iterations : nat) (attempt : Z) (w0 w1 w2 : CheckWorld)
    (r : result Error Progress) :
  Check_new orc = Ok w0 →
  Z.of_nat polls + Z.of_nat iterations < 2 ^ 32 →
  establish_connectivity orc polls attempt w0 = (Ok true, w1) →
  Monitor_run orc iterations w1 = (r, w2) →
  r ≠ Err Panic ∧
  (r = Ok NotConnected → (∃ i, get_tunnel_stats orc i = Ok ∅) ∨ heard_late w2).
Proof.
  intros Hnew Hlt He Hr. apply establish_spec in He as (_ & [b Hi] & Hc); [|done|lia].
  destruct (Hc eq_refl) as (rx & tx & s & Hconn & _).
  unfold Monitor_run in Hr. erewrite (M_bind_ok (Instant_now orc)) in Hr by done.
  eapply run_spec; [by apply (check_inv_advance _ _ 1), Hi| |lia|exact Hlt|exact Hr]. cbn. by rewrite Hconn.
Qed.

(** Pings are not spaced: once a ping is outstanding, every check less than
    three seconds per ping sent so far after it sends one more, so a monitor
    that checks every second pings every second, while the comment on
    [SECONDS_PER_PING] announces one ping every three seconds. *)
Theorem ping_every_check (b t rx tx : Z) (s : StatsMap) (w : CheckWorld) :
  initial_ping_timestamp (cw_ping w) = Some t → 1 ≤ num_pings_sent (cw_ping w) →
  cw_conn w = Connected rx tx s → rx ≤ tx → BYTES_RX_TIMEOUT ≤ clock orc (cw_tick w) - rx →
  clock orc (1 + cw_tick w) - t < num_pings_sent (cw_ping w) * SECONDS_PER_PING → send_icmp orc (2 + cw_tick w) = Ok tt →
  ∃ w', maybe_send_ping orc b w = (Ok tt, w') ∧ cw_pings w' = clock orc (3 + cw_tick w) :: cw_pings w ∧
    num_pings_sent (cw_ping w') = wrap 32 (num_pings_sent (cw_ping w) + 1).
Proof.
  intros Ht Hn Hc Hrx Hto Hsoon Hsend. unfold maybe_send_ping.
  erewrite (M_bind_ok get_conn), (M_bind_ok get_ping) by done. rewrite Hc.
  assert (rx_timed_out orc (Connected rx tx s) w = (Ok true, advance 1 w)) as E1.
  { cbn. destruct (Z.leb_spec rx tx); [|lia]. erewrite M_bind_ok by apply elapsed_eq.
    unfold mret, M_ret. do 2 f_equal. apply Z.leb_le. unfold BYTES_RX_TIMEOUT in *. lia. }
  erewrite M_bind_ok by exact E1. erewrite (M_bind_ok (if true then _ else _)) by done.
  assert (ping_due orc (cw_ping w) (advance 1 w) = (Ok true, advance 2 w)) as E2.
  { unfold ping_due. rewrite Ht. erewrite M_bind_ok by apply elapsed_eq.
    destruct (Z.eqb_spec (num_pings_sent (cw_ping w)) 0); [lia|].
    unfold mret, M_ret. rewrite advance_advance. do 2 f_equal. apply Z.ltb_lt.
    apply Z.div_lt_upper_bound; [lia|]. cbn in *. unfold SECONDS_PER_PING, secs in *. nia. }
  erewrite M_bind_ok by exact E2.
  assert (Pinger_send orc (advance 2 w) = (Ok tt, logged (advance 2 w))) as E3.
  { rewrite Pinger_send_eq. cbn in *. by rewrite Hsend. }
  cbv beta iota. erewrite M_bind_ok by exact E3. eexists. split; [done|]. done.
Qed.
(** *** Detecting a dead tunnel *)

Definition still_running (r : result Error Progress) : bool :=
  match r with Ok (Running _) => true | _ => false end.

(** From question [from] on, peer [key] is not heard any more: its counter of
    received bytes stays at [v]. *)
Definition silent (key : list Z) (v : Z) (from : nat) : Prop :=
  ∀ i m, (from ≤ i)%nat → get_tunnel_stats orc i = Ok m → m ≠ ∅ →
    ∃ st, m !! key = Some st ∧ rx_bytes st = v.

Definition holds_counter (key : list Z) (v : Z) (s : StatsMap) : Prop :=
  ∃ st, s !! key = Some st ∧ rx_bytes st = v.

Lemma silent_update key v now m c rx tx s :
  c = Connected rx tx s → holds_counter key v s → holds_counter key v m →
  ∃ tx', update now m c = (false, Connected rx tx' m).
Proof.
  intros -> (st & Hs & Hv) (st' & Hm & Hv'). cbn.
  assert (rx_incremented s m = false) as ->; [|by eexists].
  apply not_true_is_false. unfold rx_incremented. intros Hall. rewrite forallb_forall in Hall.
  assert (In (key, st) (map_to_list s)) as Hin by by apply list_elem_of_In, elem_of_map_to_list.
  specialize (Hall _ Hin). cbn in Hall. rewrite Hm in Hall. apply Z.ltb_lt in Hall. lia.
Qed.

Section Silence.
Context (key : list Z) (v : Z) (from : nat) (d : Z).
Context (Hsilent : silent key v from) (Hd : d < SUSPEND_TIMEOUT)
  (Hslow : ∀ i j : nat, (i ≤ j ≤ 12 + i)%nat → clock orc j ≤ clock orc i + d).

(** The connection was last heard of before [T0]; while no ping is outstanding
    the last check did not notice the idle timeout yet, and a ping times out
    soon. *)
Record fading (T0 n : Z) (w : CheckWorld) : Prop := {
  fd_inv : ∃ b, check_inv b n w;
  fd_from : (from ≤ cw_tick w)%nat;
  fd_conn : ∃ rx tx s, cw_conn w = Connected rx tx s ∧ rx ≤ T0 ∧ holds_counter key v s;
  fd_none : initial_ping_timestamp (cw_ping w) = None →
    ∃ i, (i ≤ cw_tick w ≤ 9 + i)%nat ∧ clock orc i ≤ T0 + TRAFFIC_TIMEOUT;
  fd_some t : initial_ping_timestamp (cw_ping w) = Some t → t ≤ T0 + TRAFFIC_TIMEOUT + d;
  fd_clock : clock orc (cw_tick w) ≤ T0 + TRAFFIC_TIMEOUT + PING_TIMEOUT + 2 * d
}.

Lemma d_nonneg : 0 ≤ d.
Proof. specialize (Hslow 0 0). lia. Qed.

Lemma fading_check T0 n w wc :
  fading T0 n w → 0 ≤ n → n + 1 < 2 ^ 32 →
  check_connectivity orc (clock orc (3 + cw_tick w)) (advance 4 w) = (Ok true, wc) →
  fading T0 (n + 1) (advance 1 wc) ∧ (5 + cw_tick w ≤ cw_tick wc ≤ 11 + cw_tick w)%nat.
Proof.
  intros [[b Hi] Hfrom (rx & tx & s & Hc & Hrx & Hs) Hnone Hsome Hclk] Hn Hlt Hck.
  pose proof d_nonneg as Hd0.
  apply (check_interval_spec _ n) in Hck as [Hi' Htick _ _ _ _ Hrx' Hup _];
    [|by eapply check_inv_read; [|lia]|done|done].
  cbn [advance cw_tick] in Htick. split; [|lia].
  destruct Hup as [(m & Hm & Hne & Ec)|[_ ?]]; [|done].
  destruct (Hsilent (4 + cw_tick w)%nat m ltac:(lia) Hm Hne) as (st & Hst).
  destruct (silent_update key v (clock orc (3 + cw_tick w)) m _ rx tx s Hc Hs) as (tx' & Hu); [by exists st|].
  cbn [advance cw_conn] in Ec. rewrite Hu in Ec. cbn in Ec.
  specialize (Hrx' _ _ _ Ec eq_refl).
  assert (clock orc (cw_tick (advance 1 wc)) ≤ clock orc (3 + cw_tick w) + d) as Hnow by (apply Hslow; cbn; lia).
  pose proof (Hslow (cw_tick w) (3 + cw_tick w) ltac:(lia)) as Hb.
  pose proof (clock_mono (3 + cw_tick w) (4 + cw_tick w) ltac:(lia)) as H34.
  assert (initial_ping_timestamp (cw_ping wc) = None →
    ∃ i, (i ≤ 1 + cw_tick wc ≤ 9 + i)%nat ∧ clock orc i ≤ T0 + TRAFFIC_TIMEOUT) as Hnone'.
  { intros E. exists (4 + cw_tick w)%nat. split; [lia|]. destruct Hrx' as [->|[_ Hin]].
    - pose proof (Hslow (3 + cw_tick w) (4 + cw_tick w) ltac:(lia)). unfold TRAFFIC_TIMEOUT, SUSPEND_TIMEOUT, secs in *. lia.
    - unfold in_time in Hin. rewrite E in Hin. cbn [advance cw_tick] in Hin. lia. }
  assert (∀ t, initial_ping_timestamp (cw_ping wc) = Some t → t ≤ T0 + TRAFFIC_TIMEOUT + d) as Hsome'.
  { intros t E. destruct Hrx' as [->|[_ Hin]].
    - destruct (ci_some _ _ _ Hi' _ E). unfold TRAFFIC_TIMEOUT, secs. lia.
    - unfold in_time in Hin. rewrite E in Hin. destruct Hin as [-> _]. cbn [advance cw_ping].
      destruct (initial_ping_timestamp (cw_ping w)) as [t0|] eqn:E0; cbn [default]; [by apply Hsome|].
      destruct (Hnone eq_refl) as (i & Hi0 & Hci). pose proof (Hslow i (3 + cw_tick w) ltac:(lia)). lia. }
  split; [|cbn; lia| |exact Hnone'|exact Hsome'|].
  - eexists _. by apply check_inv_advance.
  - exists rx, tx', m. cbn. split_and!; [done|done|by exists st].
  - destruct (initial_ping_timestamp (cw_ping wc)) as [t|] eqn:E; [|
      destruct (Hnone' eq_refl) as (i & Hi0 & Hci); pose proof (Hslow i (1 + cw_tick wc) ltac:(lia)); unfold PING_TIMEOUT, secs; cbn in *; lia].
    specialize (Hsome' t eq_refl). destruct Hrx' as [->|[_ Hin]]; [unfold TRAFFIC_TIMEOUT, PING_TIMEOUT, secs; lia|].
    unfold in_time in Hin. rewrite E in Hin. destruct Hin as (_ & i & Hi2 & Hit). cbn in Hi2.
    pose proof (Hslow i (1 + cw_tick wc) ltac:(lia)). cbn in *. lia.
Qed.

Lemma fading_ticks T0 n w b r wc :
  fading T0 n w → 0 ≤ n → n + 1 < 2 ^ 32 → b = clock orc (3 + cw_tick w) →
  check_connectivity orc b (advance 4 w) = (r, wc) → (cw_tick wc ≤ 12 + cw_tick w)%nat.
Proof.
  intros [[b0 Hi] _ _ _ _ _] Hn Hlt -> Hck.
  apply (check_interval_spec _ n) in Hck as [_ Htick _ _ _ _ _ _ _]; [|by eapply check_inv_read; [|lia]|done|done].
  cbn [advance cw_tick] in Htick. lia.
Qed.

Lemma fading_run iterations : ∀ T0 n last w r w',
  fading T0 n w → 0 ≤ n → n + Z.of_nat iterations < 2 ^ 32 →
  (∃ i, (i ≤ 1 + cw_tick w ≤ 12 + i)%nat ∧ last = clock orc i) →
  monitor_run orc iterations last w = (r, w') →
  (still_running r = true → (6 * iterations + cw_tick w ≤ cw_tick w')%nat) ∧
  clock orc (cw_tick w') ≤ T0 + TRAFFIC_TIMEOUT + PING_TIMEOUT + 3 * d.
Proof.
  pose proof d_nonneg as Hd0. induction iterations as [|iterations IH]; intros T0 n last w r w' Hf Hn Hlt Hlast Hr.
  { injection Hr as _ <-. split; [lia|]. pose proof (fd_clock _ _ _ Hf). lia. }
  cbn [monitor_run] in Hr. unfold mbind, M_bind in Hr.
  destruct (monitor_iteration orc last w) as [r1 w1] eqn:E1. destruct Hlast as (i & Hi & ->).
  assert (∀ w1, (cw_tick w1 ≤ 12 + cw_tick w)%nat → clock orc (cw_tick w1) ≤ T0 + TRAFFIC_TIMEOUT + PING_TIMEOUT + 3 * d) as Hend.
  { intros w2 Hw2. pose proof (fd_clock _ _ _ Hf). pose proof (clock_mono (cw_tick w2) (12 + cw_tick w) ltac:(lia)).
    pose proof (Hslow (cw_tick w) (12 + cw_tick w) ltac:(lia)). lia. }
  destruct (iteration_cases _ _ _ _ E1) as [[[-> | ->] Ht] | [(Hs & _ & _) | (_ & rc & wc & Hck & Hrc)]].
  1, 2: injection Hr as <- <-; split; [done|apply Hend; lia].
  - pose proof (Hslow i (1 + cw_tick w) ltac:(lia)). lia.
  - destruct rc as [[]|e].
    2, 3: destruct Hrc as [-> ->]; injection Hr as <- <-; split; [done|apply Hend]; eapply fading_ticks; [exact Hf|done|lia|done|exact Hck].
    destruct Hrc as [-> ->].
    destruct (fading_check _ _ _ _ Hf Hn ltac:(lia) Hck) as [Hf' Ht].
    eapply (IH T0 (n + 1)) in Hr; [|done|lia|lia|].
    + destruct Hr as [Ht' Hc']. split; [|done]. intros Hr'. specialize (Ht' Hr'). cbn in Ht'. lia.
    + exists (1 + cw_tick w)%nat. split; [cbn; lia|done].
Qed.
End Silence.

Lemma clock_progress p k i :
  (∀ i, clock orc i + p ≤ clock orc (12 + i)) → clock orc i + p * Z.of_nat k ≤ clock orc (12 * k + i).
Proof.
  intros Hp. induction k as [|k IH]; [rewrite Nat.mul_0_r, Z.mul_0_r; cbn; lia|].
  replace (12 * S k + i)%nat with (12 + (12 * k + i))%nat by lia. specialize (Hp (12 * k + i)%nat). lia.
Qed.

(** C39: A dead tunnel is detected: when one peer of an established connection is
    not heard any more, and twelve consecutive operations of the monitor (those
    of one turn of its loop, the wait of a second included) take between [p] and
    [d] nanoseconds, [d] being less than the six seconds that count as a
    suspension, then the monitor ends, even when nothing is sent over the tunnel:
    after enough turns it is not running any more, and it ends at most 135
    seconds (two minutes without traffic, fifteen seconds for the pings) and
    three times [d] after the connection was established.  (An end may also be a
    request to close, or an error of the counters or the pinger.) *)
Theorem monitor_detects_silence (polls iterations : nat) (attempt p d : Z) (key : list Z)
    (rx tx : Z) (s : StatsMap) (st : Stats) (w0 w1 w2 : CheckWorld) (r : result Error Progress) :
  Check_new orc = Ok w0 →
  Z.of_nat polls + Z.of_nat iterations < 2 ^ 32 →
  establish_connectivity orc polls attempt w0 = (Ok true, w1) →
  cw_conn w1 = Connected rx tx s → s !! key = Some st → silent key (rx_bytes st) (cw_tick w1) →
  d < secs 6 → (∀ i j : nat, (i ≤ j ≤ 12 + i)%nat → clock orc j ≤ clock orc i + d) →
  0 < p → (∀ i, clock orc i + p ≤ clock orc (12 + i)) →
  2 * (secs 135 + 3 * d) < p * (Z.of_nat iterations - 1) →
  Monitor_run orc iterations w1 = (r, w2) →
  still_running r = false ∧ clock orc (cw_tick w2) ≤ clock orc (cw_tick w1) + secs 135 + 3 * d.
Proof.
  intros Hnew Hlt He Hc Hst Hsil Hd Hslow Hp Hprog Hmany Hr.
  apply establish_spec in He as (_ & [b Hi] & _); [|done|lia].
  unfold Monitor_run in Hr. erewrite (M_bind_ok (Instant_now orc)) in Hr by done.
  pose proof (Hslow (cw_tick w1) (1 + cw_tick w1)%nat ltac:(lia)) as H1.
  pose proof (clock_mono (cw_tick w1) (1 + cw_tick w1)%nat ltac:(lia)) as H0.
  assert (fading key (rx_bytes st) (cw_tick w1) d (clock orc (cw_tick w1)) (Z.of_nat polls) (advance 1 w1)) as Hf.
  { pose proof (ci_now _ _ _ Hi). split; cbn [advance cw_tick cw_conn cw_ping].
    - eexists. by apply check_inv_advance.
    - lia.
    - exists rx, tx, s. destruct (ci_conn _ _ _ Hi _ _ _ Hc). split_and!; [done|lia|by exists st].
    - intros _. exists (cw_tick w1). split; [lia|]. unfold TRAFFIC_TIMEOUT, secs. lia.
    - intros t Ht. destruct (ci_some _ _ _ Hi _ Ht). unfold TRAFFIC_TIMEOUT, secs. lia.
    - unfold TRAFFIC_TIMEOUT, PING_TIMEOUT, secs. lia. }
  eapply fading_run in Hr as [Ht Hclk]; [|exact Hsil|done|done|exact Hf|lia|lia|].
  - assert (clock orc (cw_tick w2) ≤ clock orc (cw_tick w1) + secs 135 + 3 * d) as Hbound
      by (unfold TRAFFIC_TIMEOUT, PING_TIMEOUT, secs in *; lia).
    split; [|done]. apply not_true_is_false. intros Hrun. specialize (Ht Hrun).
    pose proof (clock_progress p (iterations / 2) (cw_tick w1) Hprog) as Hpr.
    pose proof (Nat.div_mod iterations 2 ltac:(lia)) as Hdm. pose proof (Nat.mod_upper_bound iterations 2 ltac:(lia)).
    cbn [advance cw_tick] in Ht. pose proof (clock_mono (12 * (iterations / 2) + cw_tick w1) (cw_tick w2) ltac:(lia)).
    assert (Z.of_nat iterations - 1 ≤ 2 * Z.of_nat (iterations / 2)) by lia. nia.
  - exists (cw_tick w1). cbn. split; [lia|done].
Qed.
End Theorems.

(** ** A tunnel that falls silent *)

Module Silent.
Definition peer : list Z := repeat 7 32.
Definition counters : StatsMap := {[ peer := {| tx_bytes := 148; rx_bytes := 92 |} ]}.
(** Every operation takes a tenth of a second; one handshake is answered. *)
Definition orc : Oracle := {|
  new_pinger := Ok tt;
  clock i := Z.of_nat i * 10 ^ 8;
  get_tunnel_stats _ := Ok counters;
  send_icmp _ := Ok tt;
  closed _ := false;
  tunnel_exists _ := true |}.
Definition w0 : CheckWorld := {|
  cw_tick := 1; cw_conn := ConnState_new (clock orc 0) ∅; cw_ping := PingState_new_with; cw_pings := [] |}.
Definition w1 : CheckWorld := (establish_connectivity orc 1 0 w0).2.
Definition run (iterations : nat) : result Error Progress * CheckWorld := Monitor_run orc iterations w1.

Lemma clock_increases (i j : nat) : (i ≤ j)%nat → clock orc i ≤ clock orc j.
Proof. cbn. lia. Qed.

Lemma established : establish_connectivity orc 1 0 w0 = (Ok true, w1).
Proof. vm_compute. reflexivity. Qed.

Lemma establish_sound_witness :
  heard (cw_conn w1) ∧
  ESTABLISH_TIMEOUT ≤ check_timeout 0 ESTABLISH_TIMEOUT ESTABLISH_TIMEOUT_MULTIPLIER MAX_ESTABLISH_TIMEOUT ≤
    MAX_ESTABLISH_TIMEOUT.
Proof. apply (establish_sound orc clock_increases 1 0 w0 w1); [done|lia|lia|apply established]. Defined.

Lemma monitor_no_false_alarm_witness :
  (run 300).1 ≠ Err Panic ∧
  ((run 300).1 = Ok NotConnected → (∃ i, get_tunnel_stats orc i = Ok ∅) ∨ heard_late orc (run 300).2).
Proof.
  apply (monitor_no_false_alarm orc clock_increases 1 300 0 w0 w1 (run 300).2 (run 300).1);
    [done|lia|apply established|apply surjective_pairing].
Defined.

Lemma monitor_detects_silence_witness :
  still_running (run 300).1 = false ∧
  clock orc (cw_tick (run 300).2) ≤ clock orc (cw_tick w1) + secs 135 + 3 * (12 * 10 ^ 8).
Proof.
  apply (monitor_detects_silence orc clock_increases 1 300 0 (12 * 10 ^ 8) (12 * 10 ^ 8) peer
           (clock orc 2) (clock orc 0) counters {| tx_bytes := 148; rx_bytes := 92 |} w0 w1 (run 300).2).
  - done.
  - lia.
  - apply established.
  - vm_compute. reflexivity.
  - apply lookup_singleton_eq.
  - intros i m _ [= <-] _. eexists. split; [apply lookup_singleton_eq|done].
  - vm_compute. reflexivity.
  - cbn. lia.
  - lia.
  - cbn -[Z.mul]. lia.
  - vm_compute. reflexivity.
  - apply surjective_pairing.
Defined.

(** The check right after the first ping, with traffic going out only. *)
Definition doubtful : CheckWorld := {|
  cw_tick := 70; cw_conn := Connected 0 (secs 6) counters;
  cw_ping := {| initial_ping_timestamp := Some (secs 6); num_pings_sent := 1 |}; cw_pings := [] |}.

Lemma ping_every_check_witness :
  ∃ w', maybe_send_ping orc (secs 7) doubtful = (Ok tt, w') ∧ cw_pings w' = clock orc 73 :: cw_pings doubtful ∧
    num_pings_sent (cw_ping w') = wrap 32 (1 + 1).
Proof.
  apply (ping_every_check orc (secs 7) (secs 6) 0 (secs 6) counters doubtful);
    [done|cbn; lia|done|vm_compute; discriminate|vm_compute; discriminate|vm_compute; reflexivity|done].
Defined.

(** The monitor pings at every one of its checks until it gives up. *)
Lemma pings_of_silence : (run 300).1 = Ok NotConnected ∧ (14 < length (cw_pings (run 300).2))%nat.
Proof. vm_compute. split; [reflexivity|lia]. Qed.
End Silent.
