(* ===== verification/Fragment.v ===== *)
(** * Fragmentation of datagrams (mullvad-masque-proxy/src/fragment.rs)

    Datagrams that do not fit into a QUIC packet are cut into fragments with a
    five-byte header; the receiver collects them by packet id and puts the
    packet together when all have arrived.  A queue of the ids of the last 255
    fragments bounds the memory that incomplete packets take. *)

From stdpp Require Import sorting.
From S2P Require Import Prelude.

(** ** Wire encodings

    Variable-length integers are those of the `h3` crate and big-endian integers
    those of the `bytes` crate; these laws are what their documentation states.
    A byte string is a list of integers. *)
Class Wire : Type := {
  varint_encode : Z → list Z;
  varint_decode : list Z → option (Z * list Z);
  put_u16 : Z → list Z;
  try_get_u16 : list Z → option (Z * list Z);
  put_u8 : Z → list Z;
  try_get_u8 : list Z → option (Z * list Z);
  varint_decode_encode v rest : 0 ≤ v < 2 ^ 62 → varint_decode (varint_encode v ++ rest) = Some (v, rest);
  varint_encode_small v : 0 ≤ v < 64 → length (varint_encode v) = 1%nat;
  get_put_u16 v rest : u16_range v → try_get_u16 (put_u16 v ++ rest) = Some (v, rest);
  put_u16_length v : length (put_u16 v) = 2%nat;
  get_put_u8 v rest : u8_range v → try_get_u8 (put_u8 v ++ rest) = Some (v, rest);
  put_u8_length v : length (put_u8 v) = 1%nat
}.

(** ** Constants (lib.rs, fragment.rs) *)

Definition HTTP_MASQUE_DATAGRAM_CONTEXT_ID : Z := 0.
Definition HTTP_MASQUE_FRAGMENTED_DATAGRAM_CONTEXT_ID : Z := 1.
Definition FRAGMENT_HEADER_SIZE_FRAGMENTED : Z := 5.
Definition FRAGMENT_INDEX_START : Z := 1.
Definition FRAGMENT_BUFFER_CAP : nat := 255.

(** ** Data *)

Record Fragment : Set := { index : Z; payload : list Z }.

Record Fragments : Set := {
  fragment_index_fifo : list Z;
  fragment_map : gmap Z (list Fragment)
}.

Definition Fragments_default : Fragments := {| fragment_index_fifo := []; fragment_map := ∅ |}.

Inductive DefragError : Set :=
| BadContextId (id : option Z)
| PayloadTooSmall
| TooFewFragments
| DuplicateFragment.

Inductive DefragReceived : Set :=
| Nonfragmented (packet : list Z)
| FragmentReceived
| Reassembled (packet : list Z).

(** [slice::binary_search_by_key] on a slice sorted by the key: the position of
    the element with the key, or where it can be inserted. *)
Fixpoint binary_search_by_key (key : Z) (l : list Fragment) : result nat nat :=
  match l with
  | [] => Err 0%nat
  | f :: l' =>
      if index f <? key then
        match binary_search_by_key key l' with Ok i => Ok (S i) | Err i => Err (S i) end
      else if index f =? key then Ok 0%nat
      else Err 0%nat
  end.

(** [Vec::insert]. *)
Definition vec_insert {A} (i : nat) (x : A) (l : list A) : list A := take i l ++ x :: drop i l.

Section Defrag.
Context `{Wire}.

(** The header of an incoming packet: a whole packet, or the id, index and count
    of a fragment with its payload. *)
Inductive Header : Set :=
| Whole (packet : list Z)
| Part (id : Z) (fragment : Fragment) (fragment_count : Z).

Definition parse_header (p : list Z) : result DefragError Header :=
  match varint_decode p with
  | Some (ctx, p) =>
      if ctx =? HTTP_MASQUE_DATAGRAM_CONTEXT_ID then Ok (Whole p)
      else if ctx =? HTTP_MASQUE_FRAGMENTED_DATAGRAM_CONTEXT_ID then
        match try_get_u16 p with
        | None => Err PayloadTooSmall
        | Some (id, p) =>
            match try_get_u8 p with
            | None => Err PayloadTooSmall
            | Some (index, p) =>
                match try_get_u8 p with
                | None => Err PayloadTooSmall
                | Some (fragment_count, p) =>
                    if fragment_count <? 2 then Err TooFewFragments
                    else Ok (Part id {| index := index; payload := p |} fragment_count)
                end
            end
        end
      else Err (BadContextId (Some ctx))
  | None => Err (BadContextId None)
  end.

(** Make room in the queue, and push. *)
Definition push_id (id : Z) (s : Fragments) : Fragments :=
  let s :=
    if decide (FRAGMENT_BUFFER_CAP ≤ length (fragment_index_fifo s))%nat then
      match fragment_index_fifo s with
      | old :: fifo => {| fragment_index_fifo := fifo; fragment_map := delete old (fragment_map s) |}
      | [] => s
      end
    else s in
  {| fragment_index_fifo := fragment_index_fifo s ++ [id]; fragment_map := fragment_map s |}.

(** Collect a fragment. *)
Definition add_fragment (id : Z) (fragment : Fragment) (fragment_count : Z) (s : Fragments) :
    result DefragError DefragReceived * Fragments :=
  match fragment_map s !! id with
  | None =>
      (Ok FragmentReceived, {| fragment_index_fifo := fragment_index_fifo s;
                               fragment_map := <[id := [fragment]]> (fragment_map s) |})
  | Some fragments =>
      match binary_search_by_key (index fragment) fragments with
      | Ok _ => (Err DuplicateFragment, s)
      | Err insert_here =>
          let fragments := vec_insert insert_here fragment fragments in
          if negb (Z.of_nat (length fragments) =? fragment_count) then
            (Ok FragmentReceived, {| fragment_index_fifo := fragment_index_fifo s;
                                     fragment_map := <[id := fragments]> (fragment_map s) |})
          else
            (Ok (Reassembled (concat (map payload fragments))),
             {| fragment_index_fifo := fragment_index_fifo s;
                fragment_map := delete id (fragment_map s) |})
      end
  end.

Definition handle_incoming_packet (p : list Z) (s : Fragments) :
    result DefragError DefragReceived * Fragments :=
  match parse_header p with
  | Err e => (Err e, s)
  | Ok (Whole p) => (Ok (Nonfragmented p), s)
  | Ok (Part id fragment fragment_count) => add_fragment id fragment fragment_count (push_id id s)
  end.

(** ** Fragmenting *)

Inductive FragmentError : Set :=
| PacketTooLarge (size : Z)
| Panic.

(** [slice::chunks]; the fuel is the length of the slice. *)
Fixpoint chunks_fuel {A} (fuel : nat) (size : nat) (l : list A) : list (list A) :=
  match fuel, l with
  | S fuel, _ :: _ => take size l :: chunks_fuel fuel size (drop size l)
  | _, _ => []
  end.
Definition chunks {A} (size : nat) (l : list A) : list (list A) := chunks_fuel (length l) size l.

(** [u8::try_from]. *)
Definition u8_try_from (z : Z) : option Z := if (0 <=? z) && (z <? 256) then Some z else None.

Definition fragment_bytes (packet_id fragment_index fragment_count : Z) (fragment_payload : list Z) : list Z :=
  varint_encode HTTP_MASQUE_FRAGMENTED_DATAGRAM_CONTEXT_ID ++ put_u16 packet_id ++
  put_u8 fragment_index ++ put_u8 fragment_count ++ fragment_payload.

(** The fragments in order.  The subtraction is a 16-bit one, and splitting into
    chunks of size zero panics, as does an index that does not fit a byte. *)
Fixpoint fragments_from (i : nat) (packet_id fragment_count : Z) (cs : list (list Z)) :
    result FragmentError (list (list Z)) :=
  match cs with
  | [] => Ok []
  | c :: cs =>
      match u8_try_from (Z.of_nat i + FRAGMENT_INDEX_START) with
      | None => Err Panic
      | Some fragment_index =>
          rest ← fragments_from (S i) packet_id fragment_count cs;
          Ok (fragment_bytes packet_id fragment_index fragment_count c :: rest)
      end
  end.

Definition fragment_packet (maximum_packet_size : Z) (payload : list Z) (packet_id : Z) :
    result FragmentError (list (list Z)) :=
  let fragment_payload_size := wrap 16 (maximum_packet_size - FRAGMENT_HEADER_SIZE_FRAGMENTED) in
  if fragment_payload_size =? 0 then Err Panic
  else
    let cs := chunks (Z.to_nat fragment_payload_size) payload in
    match u8_try_from (Z.of_nat (length cs)) with
    | None => Err (PacketTooLarge (Z.of_nat (length payload)))
    | Some fragment_count => fragments_from 0 packet_id fragment_count cs
    end.
(** ** A stream of packets *)

Fixpoint receive_all (ps : list (list Z)) (s : Fragments) : list (result DefragError DefragReceived) * Fragments :=
  match ps with
  | [] => ([], s)
  | p :: ps =>
      let '(r, s) := handle_incoming_packet p s in
      let '(rs, s) := receive_all ps s in (r :: rs, s)
  end.

(** ** The buffer *)

Definition index_lt (f g : Fragment) : Prop := index f < index g.
#[local] Instance index_lt_trans : Transitive index_lt.
Proof. intros f g h. unfold index_lt. lia. Qed.
#[local] Instance index_lt_antisymm : AntiSymm (=) index_lt.
Proof. intros f g. unfold index_lt. lia. Qed.

Definition occurrences (id : Z) (l : list Z) : nat := length (filter (λ x, x = id) l).
#[local] Arguments occurrences : simpl never.

(** The lists are sorted by index and not empty, and every buffered fragment has
    its id in the queue, which is bounded. *)
Record frag_inv (s : Fragments) : Prop := {
  fi_cap : (length (fragment_index_fifo s) ≤ FRAGMENT_BUFFER_CAP)%nat;
  fi_sorted id l : fragment_map s !! id = Some l → StronglySorted index_lt l;
  fi_count id l : fragment_map s !! id = Some l →
    (1 ≤ length l ≤ occurrences id (fragment_index_fifo s))%nat
}.

Lemma occurrences_app id l1 l2 : occurrences id (l1 ++ l2) = (occurrences id l1 + occurrences id l2)%nat.
Proof. unfold occurrences. by rewrite filter_app, length_app. Qed.

Lemma occurrences_cons id x l :
  occurrences id (x :: l) = ((if decide (x = id) then 1 else 0) + occurrences id l)%nat.
Proof. unfold occurrences. rewrite filter_cons. by case_decide. Qed.

Lemma search_insert f l :
  StronglySorted index_lt l →
  match binary_search_by_key (index f) l with
  | Ok _ => ∃ g, g ∈ l ∧ index g = index f
  | Err i => StronglySorted index_lt (vec_insert i f l)
  end.
Proof.
  unfold vec_insert. induction 1 as [|g l Hs IH Hall]; cbn; [repeat constructor|].
  destruct (Z.ltb_spec (index g) (index f)) as [Hlt|Hge].
  - destruct (binary_search_by_key (index f) l) as [i|i]; [destruct IH as (h & ? & ?); exists h; set_solver|].
    cbn. constructor; [done|]. rewrite <- (take_drop i l) in Hall. apply Forall_app in Hall as [H1 H2].
    apply Forall_app. split; [done|]. by constructor.
  - destruct (Z.eqb_spec (index g) (index f)); [exists g; set_solver|]. constructor; [by constructor|].
    assert (index_lt f g) by (unfold index_lt; lia). constructor; [done|].
    eapply Forall_impl; [exact Hall|]. intros h ?. by transitivity g.
Qed.

Lemma vec_insert_perm {A} i (x : A) l : vec_insert i x l ≡ₚ x :: l.
Proof. unfold vec_insert. rewrite <- Permutation_middle. by rewrite take_drop. Qed.

(** Room in the queue: at most one entry is dropped, the oldest. *)
Lemma push_id_spec id s :
  frag_inv s →
  let s' := push_id id s in
  frag_inv s' ∧
  (∀ l, fragment_map s' !! id = Some l → (length l < occurrences id (fragment_index_fifo s'))%nat).
Proof.
  intros [Hcap Hsort Hcount] s'. unfold push_id in s'.
  assert (∃ fifo m, s' = {| fragment_index_fifo := fifo ++ [id]; fragment_map := m |} ∧
    (length fifo < FRAGMENT_BUFFER_CAP)%nat ∧
    ∀ id' l, m !! id' = Some l → fragment_map s !! id' = Some l ∧ (1 ≤ length l ≤ occurrences id' fifo)%nat)
    as (fifo & m & -> & Hlen & Hm).
  { unfold s'. case_decide as Hfull.
    - destruct (fragment_index_fifo s) as [|old fifo] eqn:E; [cbn in Hfull; unfold FRAGMENT_BUFFER_CAP in *; lia|].
      eexists _, _. split; [done|]. cbn in Hcap |- *. split; [lia|]. intros id' l Hl.
      apply lookup_delete_Some in Hl as [Hne Hl]. split; [done|]. apply Hcount in Hl.
      rewrite occurrences_cons, decide_False in Hl by done. lia.
    - eexists _, _. split; [done|]. split; [lia|]. eauto. }
  split; [split; cbn|cbn].
  - rewrite length_app. cbn. lia.
  - intros id' l [Hl _]%Hm. by eapply Hsort.
  - intros id' l [_ Hl]%Hm. rewrite occurrences_app. lia.
  - intros l [_ Hl]%Hm. rewrite occurrences_app, occurrences_cons, decide_True by done. lia.
Qed.

Lemma add_fragment_inv id f n s :
  frag_inv s →
  (∀ l, fragment_map s !! id = Some l → (length l < occurrences id (fragment_index_fifo s))%nat) →
  id ∈ fragment_index_fifo s →
  frag_inv (add_fragment id f n s).2.
Proof.
  intros [Hcap Hsort Hcount] Hroom Hin. unfold add_fragment.
  destruct (fragment_map s !! id) as [l|] eqn:E.
  - pose proof (search_insert f l (Hsort _ _ E)) as Hs.
    destruct (binary_search_by_key (index f) l) as [i|i]; [by split|].
    destruct (negb _); split; cbn; try done.
    + intros id' l' Hl'. apply lookup_insert_Some in Hl' as [[<- <-]|[_ ?]]; [done|by eapply Hsort].
    + intros id' l' Hl'. apply lookup_insert_Some in Hl' as [[<- <-]|[_ ?]]; [|by eapply Hcount].
      rewrite vec_insert_perm. cbn. specialize (Hroom l eq_refl). lia.
    + intros id' l' Hl'. apply lookup_delete_Some in Hl' as [_ ?]. by eapply Hsort.
    + intros id' l' Hl'. apply lookup_delete_Some in Hl' as [_ ?]. by eapply Hcount.
  - split; cbn; [done|..]; intros id' l' Hl'; apply lookup_insert_Some in Hl' as [[<- <-]|[_ ?]].
    + repeat constructor.
    + by eapply Hsort.
    + cbn. apply list_elem_of_split in Hin as (l1 & l2 & ->).
      rewrite occurrences_app, occurrences_cons, decide_True by done. lia.
    + by eapply Hcount.
Qed.

Lemma handle_inv p s : frag_inv s → frag_inv (handle_incoming_packet p s).2.
Proof.
  intros Hi. unfold handle_incoming_packet. destruct (parse_header p) as [[|id f n]|]; [done| |done].
  destruct (push_id_spec id s Hi) as [Hi' Hroom]. apply add_fragment_inv; [done|done|].
  unfold push_id. cbn. set_solver.
Qed.

Lemma receive_all_inv ps s : frag_inv s → frag_inv (receive_all ps s).2.
Proof.
  revert s. induction ps as [|p ps IH]; intros s Hi; [done|]. cbn.
  pose proof (handle_inv p s Hi) as Hh. destruct (handle_incoming_packet p s) as [r s1]. cbn in Hh.
  specialize (IH s1 Hh). by destruct (receive_all ps s1).
Qed.

Lemma default_inv : frag_inv Fragments_default.
Proof. split; cbn; [unfold FRAGMENT_BUFFER_CAP; lia|..]; intros id l Hl; by apply lookup_empty_Some in Hl. Qed.

(** All buffered fragments. *)
Definition buffered (m : gmap Z (list Fragment)) : list Fragment := concat (map snd (map_to_list m)).

Lemma total_occurrences (kvs : list (Z * list Fragment)) (fifo : list Z) :
  NoDup kvs.*1 → (∀ id l, (id, l) ∈ kvs → (length l ≤ occurrences id fifo)%nat) →
  (length (concat (map snd kvs)) ≤ length fifo)%nat.
Proof.
  revert fifo. induction kvs as [|[id l] kvs IH]; intros fifo Hnd Hle; cbn; [lia|].
  apply NoDup_cons in Hnd as [Hni Hnd]. rewrite length_app.
  pose proof (Hle id l ltac:(set_solver)) as Hl.
  specialize (IH (filter (λ x, x ≠ id) fifo) Hnd).
  assert (length fifo = occurrences id fifo + length (filter (λ x, x ≠ id) fifo))%nat as ->.
  { clear. induction fifo as [|x fifo IH]; [done|]. rewrite occurrences_cons, filter_cons.
    destruct (decide (x = id)), (decide (x ≠ id)); try done; cbn; lia. }
  enough (length (concat (map snd kvs)) ≤ length (filter (λ x, x ≠ id) fifo))%nat by lia.
  apply IH. intros id' l' Hin. transitivity (occurrences id' fifo); [apply Hle; set_solver|].
  assert (id' ≠ id) as Hne by (intros ->; apply Hni, list_elem_of_fmap; by exists (id, l')).
  clear -Hne. induction fifo as [|x fifo IH]; [done|]. rewrite occurrences_cons, filter_cons.
  destruct (decide (x ≠ id)) as [|Hx]; [rewrite occurrences_cons; lia|].
  apply dec_stable in Hx. rewrite decide_False by congruence. lia.
Qed.

(** The reassembly buffer is bounded and stays sorted: whatever packets
    arrive, at most 255 fragments are buffered in total, over all incomplete
    packets, and the fragments of a packet are in strictly increasing order of
    their index. *)
Theorem buffer_bounded (ps : list (list Z)) :
  let s := (receive_all ps Fragments_default).2 in
  (length (buffered (fragment_map s)) ≤ FRAGMENT_BUFFER_CAP)%nat ∧
  (length (fragment_index_fifo s) ≤ FRAGMENT_BUFFER_CAP)%nat ∧
  ∀ id l, fragment_map s !! id = Some l → StronglySorted index_lt l.
Proof.
  cbv zeta. pose proof (receive_all_inv ps _ default_inv) as [Hcap Hsort Hcount].
  split_and!; [|done|done]. etransitivity; [|exact Hcap]. apply total_occurrences.
  - apply NoDup_fst_map_to_list.
  - intros id l Hl. apply Hcount. by apply elem_of_map_to_list.
Qed.

(** ** Fragmenting and reassembling *)

Lemma chunks_fuel_spec {A} fuel size (l : list A) :
  (0 < size)%nat → (length l ≤ fuel)%nat →
  let cs := chunks_fuel fuel size l in
  concat cs = l ∧ Forall (λ c, (length c ≤ size)%nat) cs ∧
  (length l ≤ length cs * size)%nat ∧ (length cs * size < length l + size)%nat.
Proof.
  intros Hs. revert l. induction fuel as [|fuel IH]; intros l Hl; cbv zeta.
  { destruct l; cbn in Hl |- *; [|lia]. split_and!; [done|constructor|lia|lia]. }
  destruct l as [|x l]; [cbn; split_and!; [done|constructor|lia|lia]|].
  cbn [chunks_fuel]. destruct (IH (drop size (x :: l))) as (Hc & Hf & Hlo & Hhi).
  { rewrite length_drop. cbn in *. lia. }
  rewrite length_drop in Hlo, Hhi. cbn [concat length] in *. split_and!.
  - by rewrite Hc, take_drop.
  - constructor; [rewrite length_take; lia|done].
  - lia.
  - destruct (chunks_fuel fuel size (drop size (x :: l))) as [|c cs]; cbn [length] in *; lia.
Qed.

(** The fragments as the receiver parses them. *)
Definition parts (i : nat) (cs : list (list Z)) : list Fragment :=
  imap (λ k c, {| index := Z.of_nat (i + k) + FRAGMENT_INDEX_START; payload := c |}) cs.

Lemma parts_cons i c cs :
  parts i (c :: cs) = {| index := Z.of_nat i + FRAGMENT_INDEX_START; payload := c |} :: parts (S i) cs.
Proof.
  unfold parts. cbn. rewrite Nat.add_0_r. f_equal. apply imap_ext. intros k x _. cbn. do 2 f_equal. lia.
Qed.

Lemma parts_payload i cs : map payload (parts i cs) = cs.
Proof. revert i; induction cs as [|c cs IH]; intros i; [done|]. rewrite parts_cons. cbn. by rewrite IH. Qed.

Lemma parts_sorted i cs :
  StronglySorted index_lt (parts i cs) ∧ Forall (λ f, Z.of_nat i < index f) (parts i cs).
Proof.
  revert i; induction cs as [|c cs IH]; intros i; [split; constructor|]. rewrite parts_cons.
  destruct (IH (S i)) as [Hs Hf]. unfold FRAGMENT_INDEX_START.
  split; constructor; [done|eapply Forall_impl; [exact Hf|]; unfold index_lt; cbn; lia|cbn; lia|].
  eapply Forall_impl; [exact Hf|]. cbn. lia.
Qed.

Lemma parse_fragment_bytes id i n c :
  u16_range id → u8_range i → u8_range n → 2 ≤ n →
  parse_header (fragment_bytes id i n c) = Ok (Part id {| index := i; payload := c |} n).
Proof.
  intros Hid Hi Hn H2. unfold parse_header, fragment_bytes.
  rewrite varint_decode_encode by (unfold HTTP_MASQUE_FRAGMENTED_DATAGRAM_CONTEXT_ID; lia).
  cbn -[try_get_u16 try_get_u8]. rewrite get_put_u16, get_put_u8, get_put_u8 by done.
  destruct (Z.ltb_spec n 2); [lia|done].
Qed.

Lemma fragment_bytes_length id i n c :
  Z.of_nat (length (fragment_bytes id i n c)) = FRAGMENT_HEADER_SIZE_FRAGMENTED + Z.of_nat (length c).
Proof.
  unfold fragment_bytes. rewrite !length_app, varint_encode_small, put_u16_length, !put_u8_length
    by (unfold HTTP_MASQUE_FRAGMENTED_DATAGRAM_CONTEXT_ID; lia).
  unfold FRAGMENT_HEADER_SIZE_FRAGMENTED. lia.
Qed.

Lemma u8_try_from_ok z : 0 ≤ z < 256 → u8_try_from z = Some z.
Proof. intros Hz. unfold u8_try_from. by rewrite (proj2 (Z.leb_le 0 z)), (proj2 (Z.ltb_lt z 256)) by lia. Qed.

Lemma fragments_from_ok i id n cs :
  (i + length cs ≤ 255)%nat →
  fragments_from i id n cs = Ok (map (λ f, fragment_bytes id (index f) n (payload f)) (parts i cs)).
Proof.
  revert i. induction cs as [|c cs IH]; intros i Hi; [done|]. cbn in Hi. rewrite parts_cons. cbn [fragments_from].
  rewrite u8_try_from_ok by (unfold FRAGMENT_INDEX_START; lia). rewrite IH by lia. done.
Qed.
(** The size of the payload of a fragment. *)
Definition payload_size (max : Z) : Z := max - FRAGMENT_HEADER_SIZE_FRAGMENTED.

Lemma fragment_packet_eq max data id :
  FRAGMENT_HEADER_SIZE_FRAGMENTED < max < 2 ^ 16 →
  let cs := chunks (Z.to_nat (payload_size max)) data in
  fragment_packet max data id =
    if Z.of_nat (length cs) <? 256
    then Ok (map (λ f, fragment_bytes id (index f) (Z.of_nat (length cs)) (payload f)) (parts 0 cs))
    else Err (PacketTooLarge (Z.of_nat (length data))).
Proof.
  intros Hmax cs. unfold FRAGMENT_HEADER_SIZE_FRAGMENTED in Hmax. unfold fragment_packet, wrap.
  rewrite Z.mod_small by (unfold FRAGMENT_HEADER_SIZE_FRAGMENTED; lia).
  fold (payload_size max). destruct (Z.eqb_spec (payload_size max) 0) as [E|_].
  { unfold payload_size, FRAGMENT_HEADER_SIZE_FRAGMENTED in E. lia. }
  cbv zeta. fold cs. unfold u8_try_from. destruct (Z.ltb_spec (Z.of_nat (length cs)) 256) as [Hlt|Hge].
  - rewrite (proj2 (Z.leb_le 0 _)) by lia. cbn [andb]. apply fragments_from_ok. lia.
  - by rewrite andb_false_r.
Qed.

Lemma chunks_spec {A} (size : nat) (l : list A) :
  (0 < size)%nat →
  concat (chunks size l) = l ∧ Forall (λ c, (length c ≤ size)%nat) (chunks size l) ∧
  (length l ≤ length (chunks size l) * size)%nat ∧ (length (chunks size l) * size < length l + size)%nat.
Proof. intros Hs. by apply chunks_fuel_spec. Qed.

(** Fragmenting is total on usable packet sizes: it never panics, it refuses
    a packet exactly when it needs more than 255 fragments, and otherwise every
    fragment fits the maximum size and together they carry the packet. *)
Theorem fragment_packet_total (max : Z) (data : list Z) (id : Z) :
  FRAGMENT_HEADER_SIZE_FRAGMENTED < max < 2 ^ 16 →
  match fragment_packet max data id with
  | Ok fs =>
      Z.of_nat (length data) ≤ 255 * payload_size max ∧
      Forall (λ f, Z.of_nat (length f) ≤ max) fs ∧
      ∃ cs, concat cs = data ∧ fs = map (λ f, fragment_bytes id (index f) (Z.of_nat (length cs)) (payload f)) (parts 0 cs)
  | Err e => e = PacketTooLarge (Z.of_nat (length data)) ∧ 255 * payload_size max < Z.of_nat (length data)
  end.
Proof.
  intros Hmax. rewrite fragment_packet_eq by done. cbv zeta.
  assert (0 < payload_size max) as Hpos by (unfold payload_size; lia).
  destruct (chunks_spec (Z.to_nat (payload_size max)) data) as (Hc & Hf & Hlo & Hhi); [lia|].
  destruct (Z.ltb_spec (Z.of_nat (length (chunks (Z.to_nat (payload_size max)) data))) 256).
  - split_and!; [nia| |by eexists]. apply Forall_map.
    rewrite <- (parts_payload 0 (chunks _ data)), Forall_map in Hf. eapply Forall_impl; [exact Hf|].
    intros f Hlen. cbn in Hlen |- *. rewrite fragment_bytes_length. unfold payload_size in *. lia.
  - split; [done|]. nia.
Qed.

(** *** Collecting the fragments of one packet *)

Definition fragment_of (id : Z) (p : list Z) : option (Fragment * Z) :=
  match parse_header p with
  | Ok (Part id' f n) => if decide (id' = id) then Some (f, n) else None
  | _ => None
  end.

(** At most [k] fragments were pushed since the packet [id] was unknown, and [got]
    is what is buffered of it. *)
Record collecting (id : Z) (got : list Fragment) (k : nat) (s : Fragments) : Prop := {
  co_fifo : ∃ old new, fragment_index_fifo s = old ++ new ∧ id ∉ old ∧ (length new ≤ k)%nat;
  co_map : match fragment_map s !! id with
           | None => got = []
           | Some l => l ≡ₚ got ∧ got ≠ [] ∧ StronglySorted index_lt l
           end
}.

Lemma push_collecting id id' got k s :
  collecting id got k s → (k < FRAGMENT_BUFFER_CAP)%nat → collecting id got (S k) (push_id id' s).
Proof.
  intros [(old & new & Hfifo & Hni & Hlen) Hmap] Hk. unfold push_id. rewrite Hfifo.
  case_decide as Hfull.
  - destruct old as [|x old]; [cbn in Hfull; unfold FRAGMENT_BUFFER_CAP in *; lia|]. cbn [app].
    apply not_elem_of_cons in Hni as [Hne Hni]. split; cbn [fragment_index_fifo fragment_map].
    + exists old, (new ++ [id']). rewrite length_app, app_assoc. cbn. split_and!; [done|done|lia].
    + by rewrite lookup_delete_ne by done.
  - split; cbn [fragment_index_fifo fragment_map]; [|done].
    exists old, (new ++ [id']). rewrite Hfifo, length_app, app_assoc. cbn. split_and!; [done|done|lia].
Qed.

Lemma collecting_more id got k k' s : collecting id got k s → (k ≤ k')%nat → collecting id got k' s.
Proof. intros [(old & new & ? & ? & ?) ?] ?. split; [|done]. exists old, new. split_and!; [done|done|lia]. Qed.

Lemma other_collecting id got k p s :
  fragment_of id p = None → collecting id got k s → (k < FRAGMENT_BUFFER_CAP)%nat →
  collecting id got (S k) (handle_incoming_packet p s).2.
Proof.
  unfold fragment_of, handle_incoming_packet. intros Hp Hc Hk.
  destruct (parse_header p) as [[|id' f n]|]; [by eapply collecting_more; [exact Hc|lia]| |by eapply collecting_more; [exact Hc|lia]].
  case_decide as Hne; [done|]. pose proof (push_collecting id id' _ _ _ Hc Hk) as [Hf Hm].
  unfold add_fragment. destruct (fragment_map (push_id id' s) !! id') as [l|].
  - destruct (binary_search_by_key (index f) l); [by split|]. destruct (negb _); split; cbn; try done;
      [by rewrite lookup_insert_ne by done|by rewrite lookup_delete_ne by done].
  - split; cbn; [done|]. by rewrite lookup_insert_ne by done.
Qed.

Lemma own_collecting id got k f n p s :
  fragment_of id p = Some (f, n) → collecting id got k s → (k < FRAGMENT_BUFFER_CAP)%nat →
  index f ∉ map index got → 2 ≤ n →
  if decide (Z.of_nat (S (length got)) = n) then
    ∃ l, l ≡ₚ f :: got ∧ StronglySorted index_lt l ∧
      (handle_incoming_packet p s).1 = Ok (Reassembled (concat (map payload l)))
  else collecting id (f :: got) (S k) (handle_incoming_packet p s).2.
Proof.
  unfold fragment_of, handle_incoming_packet. intros Hp Hc Hk Hni H2.
  destruct (parse_header p) as [[|id' f' n']|]; [done| |done]. case_decide; [|done]. simplify_eq.
  pose proof (push_collecting id id _ _ _ Hc Hk) as [Hf Hm]. unfold add_fragment.
  destruct (fragment_map (push_id id s) !! id) as [l|] eqn:E.
  - destruct Hm as (Hperm & Hne & Hs). pose proof (search_insert f l Hs) as Hins.
    destruct (binary_search_by_key (index f) l) as [i|i].
    { destruct Hins as (g & Hg & Hig). destruct Hni. rewrite <- Hperm, <- Hig.
      by apply list_elem_of_fmap_2. }
    assert (vec_insert i f l ≡ₚ f :: got) as Hp' by by rewrite vec_insert_perm, Hperm.
    rewrite (Permutation_length Hp'). cbn [length].
    destruct (Z.eqb_spec (Z.of_nat (S (length got))) n); cbn [negb].
    + rewrite decide_True by done. exists (vec_insert i f l). done.
    + rewrite decide_False by done. split; cbn; [done|]. by rewrite lookup_insert_eq.
  - subst got. rewrite decide_False by (cbn; lia). split; cbn; [done|]. rewrite lookup_insert_eq.
    split_and!; [done|done|repeat constructor].
Qed.
Lemma receive_all_cons p ps s : (receive_all (p :: ps) s).2 = (receive_all ps (handle_incoming_packet p s).2).2.
Proof. cbn. destruct (handle_incoming_packet p s) as [r s1]. cbn. by destruct (receive_all ps s1). Qed.

(** As long as the packet is not complete its fragments accumulate. *)
Lemma collect_all id n ps : ∀ got k s,
  collecting id got k s → (k + length ps ≤ 254)%nat → 2 ≤ n →
  Forall (λ x, x.2 = n) (omap (fragment_of id) ps) →
  NoDup (map index (got ++ (omap (fragment_of id) ps).*1)) →
  Z.of_nat (length got + length (omap (fragment_of id) ps)) < n →
  ∃ got', got' ≡ₚ got ++ (omap (fragment_of id) ps).*1 ∧
    collecting id got' (k + length ps) (receive_all ps s).2.
Proof.
  induction ps as [|p ps IH]; intros got k s Hc Hk H2 Hn Hnd Hlen.
  { exists got. cbn. rewrite app_nil_r, Nat.add_0_r. done. }
  rewrite receive_all_cons. cbn [omap list_omap length] in *. 
  destruct (fragment_of id p) as [[f n']|] eqn:Hp.
  - apply Forall_cons in Hn as [Hn' Hn]. cbn in Hn'. subst n'. cbn [length fmap list_fmap fst] in *.
    assert (got ++ f :: (omap (fragment_of id) ps).*1 ≡ₚ (f :: got) ++ (omap (fragment_of id) ps).*1) as Hperm
      by by rewrite <- Permutation_middle.
    pose proof (own_collecting id got k f n p s Hp Hc) as Ho. rewrite decide_False in Ho by lia.
    destruct (IH (f :: got) (S k) (handle_incoming_packet p s).2) as (got' & Hg & Hc').
    + apply Ho; [unfold FRAGMENT_BUFFER_CAP; lia| |done].
      rewrite Hperm in Hnd. cbn in Hnd. apply NoDup_cons in Hnd as [Hni _]. rewrite map_app in Hni. set_solver.
    + lia.
    + done.
    + done.
    + by rewrite <- Hperm.
    + cbn. lia.
    + exists got'. split; [by rewrite Hg, Hperm|]. eapply collecting_more; [exact Hc'|lia].
  - destruct (IH got (S k) (handle_incoming_packet p s).2) as (got' & Hg & Hc'); try done.
    + apply other_collecting; [done|done|unfold FRAGMENT_BUFFER_CAP; lia].
    + lia.
    + exists got'. split; [done|]. eapply collecting_more; [exact Hc'|lia].
Qed.

Lemma fragments_parsed id cs n :
  u16_range id → 2 ≤ n < 256 → (length cs ≤ 255)%nat →
  omap (fragment_of id) (map (λ f, fragment_bytes id (index f) n (payload f)) (parts 0 cs)) =
  map (λ f, (f, n)) (parts 0 cs).
Proof.
  intros Hid Hn Hlen. assert (Forall (λ f, u8_range (index f)) (parts 0 cs)) as Hr.
  { apply Forall_forall. intros f Hf. unfold parts in Hf. apply elem_of_lookup_imap in Hf as (k & c & -> & Hk).
    apply lookup_lt_Some in Hk. cbn. unfold u8_range, FRAGMENT_INDEX_START. lia. }
  induction Hr as [|f fs Hf _ IH]; [done|]. cbn. unfold fragment_of at 1.
  rewrite parse_fragment_bytes; [|done|done|unfold u8_range; lia|lia]. rewrite decide_True by done.
  destruct f. cbn. by rewrite IH.
Qed.

Lemma sorted_indices l : StronglySorted index_lt l → NoDup (map index l).
Proof.
  induction 1 as [|f l _ IH Hf]; cbn; constructor; [|done].
  intros (g & Hg & Hin)%list_elem_of_fmap. rewrite Forall_forall in Hf. specialize (Hf g Hin).
  unfold index_lt in Hf. lia.
Qed.

Lemma fresh_collecting id s :
  frag_inv s → id ∉ fragment_index_fifo s → collecting id [] 0 s.
Proof.
  intros Hi Hni. split; [exists (fragment_index_fifo s), []; by rewrite app_nil_r|].
  destruct (fragment_map s !! id) as [l|] eqn:E; [|done].
  apply (fi_count _ Hi) in E. unfold occurrences in E.
  destruct (filter (λ x, x = id) (fragment_index_fifo s)) as [|x xs] eqn:Ef; [cbn in E; lia|].
  assert (x ∈ filter (λ x, x = id) (fragment_index_fifo s)) as [-> ?]%list_elem_of_filter by (rewrite Ef; set_solver).
  done.
Qed.

Lemma omap_filter_own id (ps : list (list Z)) :
  omap (fragment_of id) (filter (λ q, is_Some (fragment_of id q)) ps) = omap (fragment_of id) ps.
Proof.
  induction ps as [|p ps IH]; [done|]. rewrite filter_cons. case_decide as Hp; cbn; rewrite IH; [done|].
  destruct (fragment_of id p); [|done]. by destruct Hp.
Qed.

(** What arrives of a packet that was fragmented. *)
Lemma sent_parts max data id fs (qs : list (list Z)) :
  FRAGMENT_HEADER_SIZE_FRAGMENTED < max < 2 ^ 16 → u16_range id →
  fragment_packet max data id = Ok fs → (2 ≤ length fs)%nat →
  filter (λ q, is_Some (fragment_of id q)) qs ≡ₚ fs →
  ∃ cs, concat cs = data ∧ (2 ≤ length cs < 256)%nat ∧
    omap (fragment_of id) qs ≡ₚ map (λ f, (f, Z.of_nat (length cs))) (parts 0 cs).
Proof.
  intros Hmax Hid Hfs H2 Hown. rewrite fragment_packet_eq in Hfs by done. cbv zeta in Hfs.
  set (cs := chunks (Z.to_nat (payload_size max)) data) in Hfs. exists cs.
  assert (concat cs = data) as Hc by (apply chunks_spec; unfold payload_size; lia).
  destruct (Z.ltb_spec (Z.of_nat (length cs)) 256) as [Hlt|]; [|done]. injection Hfs as <-.
  rewrite length_map in H2. unfold parts in H2. rewrite length_imap in H2. split_and!; [done|lia|lia|].
  rewrite <- omap_filter_own, Hown, fragments_parsed; [done|done|lia|lia].
Qed.

(** C38: Reassembly: when the fragments of a packet arrive, in any order and mixed
    with at most 255 datagrams in all, whole packets, garbage and fragments of
    other packets, the last of them completes exactly the packet that was sent.
    The packet's id must not be in the queue when its first fragment arrives. *)
Theorem reassembles (qs ps : list (list Z)) (p : list Z) (fs : list (list Z)) (max : Z) (data : list Z) (id : Z) :
  let s := (receive_all qs Fragments_default).2 in
  FRAGMENT_HEADER_SIZE_FRAGMENTED < max < 2 ^ 16 → u16_range id →
  fragment_packet max data id = Ok fs → (2 ≤ length fs)%nat → id ∉ fragment_index_fifo s →
  filter (λ q, is_Some (fragment_of id q)) (ps ++ [p]) ≡ₚ fs → is_Some (fragment_of id p) →
  (length (ps ++ [p]) ≤ FRAGMENT_BUFFER_CAP)%nat →
  (handle_incoming_packet p (receive_all ps s).2).1 = Ok (Reassembled data).
Proof.
  intros s Hmax Hid Hfs H2 Hni Hown Hp Hlen.
  destruct (sent_parts _ _ _ _ _ Hmax Hid Hfs H2 Hown) as (cs & Hc & Hcs & Hall). set (n := Z.of_nat (length cs)) in *.
  destruct Hp as [[f n'] Hp]. rewrite omap_app in Hall. cbn [omap list_omap] in Hall. rewrite Hp in Hall.
  set (before := omap (fragment_of id) ps) in *.
  assert (before.*1 ++ [f] ≡ₚ parts 0 cs) as Hparts.
  { apply (fmap_Permutation fst) in Hall. rewrite fmap_app in Hall. cbn in Hall. rewrite Hall.
    change (fst <$> map ?g ?l) with (map fst (map g l)). by rewrite map_map, map_id. }
  assert (Forall (λ x, x.2 = n) (before ++ [(f, n')])) as Hn.
  { rewrite Hall. apply Forall_map, Forall_true. done. }
  apply Forall_app in Hn as [Hn [Hn' _]%Forall_cons]. cbn in Hn'. subst n'.
  destruct (parts_sorted 0 cs) as [Hsort _]. pose proof (sorted_indices _ Hsort) as Hnd.
  rewrite <- Hparts in Hnd. pose proof (Permutation_length Hparts) as Hcount.
  rewrite length_app, length_fmap in Hcount. unfold parts in Hcount. rewrite length_imap in Hcount. cbn in Hcount.
  rewrite length_app in Hlen. cbn in Hlen. rewrite map_app in Hnd. cbn in Hnd. apply NoDup_app in Hnd as (Hnd & Hdis & _).
  destruct (collect_all id n ps [] 0 s) as (got & Hg & Hcol).
  { apply fresh_collecting; [apply receive_all_inv, default_inv|done]. }
  { unfold FRAGMENT_BUFFER_CAP in Hlen. lia. }
  { unfold n. lia. }
  { done. }
  { done. }
  { fold before. unfold n. cbn. lia. }
  cbn in Hg. fold before in Hg. pose proof (own_collecting id got _ f n p _ Hp Hcol) as Ho.
  rewrite decide_True in Ho by (rewrite (Permutation_length Hg), length_fmap; unfold n; lia).
  destruct Ho as (l & Hl & Hs & ->).
  - unfold FRAGMENT_BUFFER_CAP in *. lia.
  - rewrite Hg. intros Hin. by eapply (Hdis _ Hin), list_elem_of_singleton.
  - unfold n. lia.
  - do 2 f_equal. rewrite <- Hc, <- (parts_payload 0 cs). do 2 f_equal.
    apply (StronglySorted_unique index_lt); [done|done|]. rewrite Hl, Hg, <- Hparts. by rewrite Permutation_cons_append.
Qed.
End Defrag.

(** ** The wire encodings of RFC 9000 *)

Module Rfc9000.
(** One, two, four or eight bytes, with the exponent in the top two bits. *)
Definition varint_size (v : Z) : nat * Z :=
  if v <? 2 ^ 6 then (1%nat, 0) else if v <? 2 ^ 14 then (2%nat, 1)
  else if v <? 2 ^ 30 then (4%nat, 2) else (8%nat, 3).
Definition top (n : nat) : Z := 2 ^ (8 * Z.of_nat n - 2).
Definition encode (v : Z) : list Z :=
  let '(n, k) := varint_size v in be_bytes n (v + k * top n).
Definition decode (bs : list Z) : option (Z * list Z) :=
  match bs with
  | [] => None
  | b :: _ =>
      let k := b / 64 in
      let n := Z.to_nat (2 ^ k) in
      if decide (n ≤ length bs)%nat then Some (le_val (rev (take n bs)) - k * top n, drop n bs) else None
  end.
Definition get (n : nat) (bs : list Z) : option (Z * list Z) :=
  if decide (n ≤ length bs)%nat then Some (le_val (rev (take n bs)), drop n bs) else None.

Lemma le_bytes_S n z : le_bytes (S n) z = le_bytes n z ++ [z / 256 ^ Z.of_nat n mod 256].
Proof.
  revert z. induction n as [|n IH]; intros z; [cbn; by rewrite Z.div_1_r|].
  cbn [le_bytes]. change (z mod 256 :: (z / 256) mod 256 :: le_bytes n (z / 256 / 256)) with
    (z mod 256 :: le_bytes (S n) (z / 256)). rewrite IH. cbn [le_bytes app]. do 3 f_equal.
  rewrite Z.div_div by lia. do 2 f_equal. rewrite Nat2Z.inj_succ, Z.pow_succ_r by lia. done.
Qed.

Lemma be_bytes_S n z : be_bytes (S n) z = z / 256 ^ Z.of_nat n mod 256 :: be_bytes n z.
Proof. unfold be_bytes. by rewrite le_bytes_S, rev_app_distr. Qed.

Lemma be_value n z rest :
  0 ≤ z < 256 ^ Z.of_nat n → le_val (rev (take n (be_bytes n z ++ rest))) = z.
Proof.
  intros Hz. rewrite take_app_le by (rewrite length_be_bytes; lia).
  rewrite take_ge by (rewrite length_be_bytes; lia). unfold be_bytes. rewrite rev_involutive. by apply le_val_le_bytes.
Qed.

Lemma decode_bytes n k z rest :
  0 ≤ k → Z.to_nat (2 ^ k) = S n → 0 ≤ z < top (S n) → k < 4 →
  decode (be_bytes (S n) (z + k * top (S n)) ++ rest) = Some (z, rest).
Proof.
  intros Hk Hn Hz Hk4. set (x := z + k * top (S n)).
  assert (256 ^ Z.of_nat (S n) = 4 * top (S n)) as Hp.
  { unfold top. change 256 with (2 ^ 8). rewrite <- Z.pow_mul_r by lia. change 4 with (2 ^ 2).
    rewrite <- Z.pow_add_r by lia. f_equal. lia. }
  assert (0 ≤ x < 256 ^ Z.of_nat (S n)) as Hx by (unfold x; nia).
  assert (x / 256 ^ Z.of_nat n mod 256 / 64 = k) as Hb.
  { assert (256 ^ Z.of_nat (S n) = 256 * 256 ^ Z.of_nat n) as H256 by (rewrite Nat2Z.inj_succ, Z.pow_succ_r; lia).
    rewrite Z.mod_small; [|split; [apply Z.div_pos; lia|apply Z.div_lt_upper_bound; lia]].
    rewrite Z.div_div by lia. replace (256 ^ Z.of_nat n * 64) with (top (S n)) by lia.
    unfold x. rewrite Z.div_add, Z.div_small by lia. lia. }
  assert (be_bytes (S n) x ++ rest = x / 256 ^ Z.of_nat n mod 256 :: be_bytes n x ++ rest) as E by by rewrite be_bytes_S.
  unfold decode. rewrite E. cbv zeta. rewrite Hb, Hn, <- E. rewrite decide_True; [|rewrite length_app, length_be_bytes; lia].
  rewrite be_value by done. f_equal. f_equal; [unfold x; lia|].
  rewrite drop_app_le by (rewrite length_be_bytes; lia). by rewrite drop_ge by (rewrite length_be_bytes; lia).
Qed.

Lemma decode_encode v rest : 0 ≤ v < 2 ^ 62 → decode (encode v ++ rest) = Some (v, rest).
Proof.
  intros Hv. unfold encode, varint_size.
  destruct (Z.ltb_spec v (2 ^ 6)); [apply decode_bytes; unfold top; cbn; lia|].
  destruct (Z.ltb_spec v (2 ^ 14)); [apply decode_bytes; unfold top; cbn; lia|].
  destruct (Z.ltb_spec v (2 ^ 30)); apply decode_bytes; unfold top; cbn; lia.
Qed.

Lemma get_be n v rest : 0 ≤ v < 256 ^ Z.of_nat n → get n (be_bytes n v ++ rest) = Some (v, rest).
Proof.
  intros Hv. unfold get. rewrite decide_True; [|rewrite length_app, length_be_bytes; lia]. rewrite be_value by done.
  do 2 f_equal. rewrite drop_app_le by (rewrite length_be_bytes; lia). by rewrite drop_ge by (rewrite length_be_bytes; lia).
Qed.

#[export] Instance wire : Wire.
Proof.
  refine {| varint_encode := encode; varint_decode := decode; put_u16 := be_bytes 2; try_get_u16 := get 2;
            put_u8 := be_bytes 1; try_get_u8 := get 1 |}.
  - apply decode_encode.
  - intros v Hv. unfold encode, varint_size. rewrite (proj2 (Z.ltb_lt v (2 ^ 6))) by lia. apply length_be_bytes.
  - intros v rest Hv. by apply get_be.
  - intros v. apply length_be_bytes.
  - intros v rest Hv. by apply get_be.
  - intros v. apply length_be_bytes.
Defined.

(** Three fragments, out of order, with a whole packet in between. *)
Definition data : list Z := [1; 2; 3; 4; 5].
Definition sent : list (list Z) :=
  match fragment_packet 7 data 300 with Ok fs => fs | Err _ => [] end.
Definition frag (i : nat) : list Z := default [] (sent !! i).

Lemma buffer_bounded_witness :
  (length (buffered (fragment_map (receive_all [frag 2; frag 1] Fragments_default).2)) ≤ FRAGMENT_BUFFER_CAP)%nat ∧
  (length (fragment_index_fifo (receive_all [frag 2; frag 1] Fragments_default).2) ≤ FRAGMENT_BUFFER_CAP)%nat ∧
  ∀ id l, fragment_map (receive_all [frag 2; frag 1] Fragments_default).2 !! id = Some l → StronglySorted index_lt l.
Proof. apply (buffer_bounded [frag 2; frag 1]). Defined.

Lemma fragment_packet_total_witness :
  match fragment_packet 7 data 300 with
  | Ok fs =>
      Z.of_nat (length data) ≤ 255 * payload_size 7 ∧ Forall (λ f, Z.of_nat (length f) ≤ 7) fs ∧
      ∃ cs, concat cs = data ∧ fs = map (λ f, fragment_bytes 300 (index f) (Z.of_nat (length cs)) (payload f)) (parts 0 cs)
  | Err e => e = PacketTooLarge (Z.of_nat (length data)) ∧ 255 * payload_size 7 < Z.of_nat (length data)
  end.
Proof. apply (fragment_packet_total 7 data 300). unfold FRAGMENT_HEADER_SIZE_FRAGMENTED. lia. Defined.

Lemma reassembles_witness :
  (handle_incoming_packet (frag 0)
     (receive_all [frag 2; [0; 9; 9]; frag 1] (receive_all [] Fragments_default).2).2).1 = Ok (Reassembled data).
Proof.
  apply (reassembles [] [frag 2; [0; 9; 9]; frag 1] (frag 0) sent 7 data 300).
  - unfold FRAGMENT_HEADER_SIZE_FRAGMENTED. lia.
  - unfold u16_range. lia.
  - vm_compute. reflexivity.
  - vm_compute. lia.
  - apply not_elem_of_nil.
  - assert (filter (λ q, is_Some (fragment_of 300 q)) ([frag 2; [0; 9; 9]; frag 1] ++ [frag 0]) =
            [frag 2; frag 1; frag 0]) as -> by (vm_compute; reflexivity).
    assert (sent = [frag 0; frag 1; frag 2]) as -> by (vm_compute; reflexivity).
    symmetry. apply (Permutation_rev [frag 0; frag 1; frag 2]).
  - vm_compute. eauto.
  - vm_compute. lia.
Defined.
End Rfc9000.
