(* ===== verification/AndroidRoutes.v ===== *)
(** * Routes of the Android tunnel

    talpid-tunnel/src/tun_provider/android/: subtraction of IP networks
    (ipnetwork_sub.rs) and the routes and DNS servers of the VPN service
    (mod.rs).  Android has no firewall for the app to use: what is routed into
    the tunnel decides what is protected. *)

From S2P Require Import Prelude NetTypes.

(** ** Bit arithmetic *)

Lemma div_coarser a b x y : 0 ≤ a ≤ b → x / 2 ^ a = y / 2 ^ a → x / 2 ^ b = y / 2 ^ b.
Proof.
  intros Hab E. replace b with (a + (b - a)) by lia. rewrite Z.pow_add_r by lia.
  by rewrite <- !Z.div_div, E by lia.
Qed.

(** Masking keeps the bits above the host bits. *)
Lemma land_high w k x : 0 ≤ k ≤ w → 0 ≤ x < 2 ^ w → Z.land x (2 ^ w - 2 ^ k) = 2 ^ k * (x / 2 ^ k).
Proof.
  intros Hk Hx. replace (2 ^ w - 2 ^ k) with (Z.shiftl (Z.ones (w - k)) k).
  2: { rewrite Z.shiftl_mul_pow2, Z.ones_equiv by lia. rewrite <- Z.sub_1_r, Z.mul_sub_distr_r, <- Z.pow_add_r by lia.
       replace (w - k + k) with w by lia. lia. }
  rewrite Z.mul_comm, <- Z.shiftr_div_pow2, <- Z.shiftl_mul_pow2 by lia. apply Z.bits_inj'. intros i Hi.
  rewrite Z.land_spec, !Z.shiftl_spec by lia. destruct (Z.lt_ge_cases i k).
  - by rewrite !(Z.testbit_neg_r _ (i - k)), andb_false_r by lia.
  - rewrite Z.shiftr_spec by lia. replace (i - k + k) with i by lia. destruct (Z.lt_ge_cases i w).
    + by rewrite Z.ones_spec_low, andb_true_r by lia.
    + rewrite Z.ones_spec_high, andb_false_r by lia. symmetry. apply Z.testbit_false; [lia|].
      rewrite Z.div_small; [done|]. split; [lia|]. eapply Z.lt_le_trans; [apply Hx|]. apply Z.pow_le_mono_r; lia.
Qed.

Lemma lxor_1 y : Z.lxor y 1 = if Z.even y then y + 1 else y - 1.
Proof.
  rewrite (Z.div2_odd (Z.lxor y 1)). assert (Z.div2 (Z.lxor y 1) = Z.div2 y) as ->.
  { rewrite !Z.div2_spec, Z.shiftr_lxor. change (Z.shiftr 1 1) with 0. apply Z.lxor_0_r. }
  assert (Z.odd (Z.lxor y 1) = negb (Z.odd y)) as ->.
  { rewrite <- !Z.bit0_odd, Z.lxor_spec. by destruct (Z.testbit y 0). }
  pose proof (Z.div2_odd y) as Hy. rewrite <- Z.negb_odd. destruct (Z.odd y); cbn in *; lia.
Qed.

(** Two numbers that differ in the last bit only. *)
Lemma sibling x y : x = Z.lxor y 1 ↔ x / 2 = y / 2 ∧ x ≠ y.
Proof.
  rewrite lxor_1. destruct (Z.even y) eqn:E.
  - apply Z.even_spec in E as [k ->]. rewrite (Z.mul_comm 2 k), Z.div_mul by lia.
    pose proof (Z.div_mod x 2). pose proof (Z.mod_pos_bound x 2). split; [intros ->|lia].
    split; [|lia]. rewrite Z.div_add_l by lia. change (1 / 2) with 0. lia.
  - rewrite <- Z.negb_odd in E. apply negb_false_iff, Z.odd_spec in E as [k ->].
    replace (2 * k + 1) with (k * 2 + 1) by lia. rewrite Z.div_add_l by lia. change (1 / 2) with 0.
    pose proof (Z.div_mod x 2). pose proof (Z.mod_pos_bound x 2). split; [intros ->|lia].
    replace (k * 2 + 1 - 1) with (k * 2) by lia. rewrite Z.div_mul by lia. lia.
Qed.

(** ** Networks of one family *)

(** The trait of the source, with the width of the representation and what the
    `ipnetwork` crate documents for its two implementations: the mask has the
    [prefix] most significant bits set, and the network address is the address
    under the mask. *)
Class AbstractIpNetwork (T : Type) : Type := {
  MAX_PREFIX : Z;
  an_new : Z → Z → T;
  an_mask : T → Z;
  an_network : T → Z;
  an_prefix : T → Z;
  MAX_PREFIX_range : 0 < MAX_PREFIX ≤ 128;
  an_prefix_new a p : 0 ≤ p ≤ MAX_PREFIX → an_prefix (an_new a p) = p;
  an_network_new a p : 0 ≤ p ≤ MAX_PREFIX → an_network (an_new a p) = Z.land a (2 ^ MAX_PREFIX - 2 ^ (MAX_PREFIX - p));
  an_mask_eq n : 0 ≤ an_prefix n ≤ MAX_PREFIX → an_mask n = 2 ^ MAX_PREFIX - 2 ^ (MAX_PREFIX - an_prefix n)
}.

Section Sub.
Context {T : Type} `{AbstractIpNetwork T}.

Record IpNetworkRange : Set := {
  rg_network : Z;
  bit_position : Z;
  max_bit_position : Z
}.

(** Operators of the representation, an unsigned integer of [MAX_PREFIX] bits. *)
Definition rep_shl (a b : Z) : Z := wrap MAX_PREFIX (Z.shiftl a b).
Definition rep_not (a : Z) : Z := 2 ^ MAX_PREFIX - 1 - a.

Definition range_next (r : IpNetworkRange) : option (T * IpNetworkRange) :=
  if bit_position r <? max_bit_position r then
    let bit_mask := rep_shl 1 (bit_position r) in
    let prefix_mask := rep_not (bit_mask - 1) in
    let address := Z.land (Z.lxor (rg_network r) bit_mask) prefix_mask in
    let prefix := MAX_PREFIX - bit_position r in
    Some (an_new address prefix,
          {| rg_network := rg_network r; bit_position := bit_position r + 1;
             max_bit_position := max_bit_position r |})
  else None.

Inductive IpNetworks : Type :=
| Empty
| SingleNetwork (n : T)
| MultipleNetworks (r : IpNetworkRange).

Definition networks_next (s : IpNetworks) : option T * IpNetworks :=
  match s with
  | Empty => (None, Empty)
  | SingleNetwork network => (Some network, Empty)
  | MultipleNetworks range =>
      match range_next range with
      | Some (item, range) => (Some item, MultipleNetworks range)
      | None => (None, Empty)
      end
  end.

(** What the iterator yields in at most [fuel] steps. *)
Fixpoint networks_collect (fuel : nat) (s : IpNetworks) : list T :=
  match fuel with
  | O => []
  | S fuel =>
      match networks_next s with
      | (Some item, s) => item :: networks_collect fuel s
      | (None, _) => []
      end
  end.

Definition sub (self other : T) : IpNetworks :=
  let subtrahend := an_network self in
  let minuend := an_network other in
  let mask := an_mask self in
  if Z.land minuend mask =? subtrahend then
    let max_bit_position := MAX_PREFIX - an_prefix self in
    let bit_position := MAX_PREFIX - an_prefix other in
    MultipleNetworks {| rg_network := minuend; bit_position := bit_position;
                        max_bit_position := max_bit_position |}
  else
    let other_mask := an_mask other in
    if Z.land subtrahend other_mask =? minuend then Empty else SingleNetwork self.

(** No iterator of [sub] yields more than 128 networks. *)
Definition sub_list (self other : T) : list T := networks_collect 129 (sub self other).

(** ** Correctness of the subtraction *)

(** An address is in a network when they agree above the host bits. *)
Definition member (x : Z) (n : T) : Prop :=
  x / 2 ^ (MAX_PREFIX - an_prefix n) = an_network n / 2 ^ (MAX_PREFIX - an_prefix n).

Definition an_wf (n : T) : Prop :=
  0 ≤ an_prefix n ≤ MAX_PREFIX ∧ 0 ≤ an_network n < 2 ^ MAX_PREFIX ∧
  an_network n mod 2 ^ (MAX_PREFIX - an_prefix n) = 0.

Abbreviation W := (MAX_PREFIX (T := T)).

Lemma mask_land n x : an_wf n → 0 ≤ x < 2 ^ W →
  Z.land x (an_mask n) = 2 ^ (W - an_prefix n) * (x / 2 ^ (W - an_prefix n)).
Proof. intros (Hp & _) Hx. rewrite an_mask_eq by done. apply land_high; [lia|done]. Qed.

Lemma wf_network n : an_wf n →
  an_network n = 2 ^ (W - an_prefix n) * (an_network n / 2 ^ (W - an_prefix n)).
Proof.
  intros (Hp & _ & Hm). pose proof (Z.div_mod (an_network n) (2 ^ (W - an_prefix n))) as E.
  rewrite Hm in E. pose proof (Z.pow_pos_nonneg 2 (W - an_prefix n)). lia.
Qed.

(** The network at a position of the range. *)
Lemma range_item m b :
  0 ≤ m < 2 ^ W → 0 ≤ b < W →
  let n := an_new (Z.land (Z.lxor m (rep_shl 1 b)) (rep_not (rep_shl 1 b - 1))) (W - b) in
  an_wf n ∧ ∀ x, member x n ↔ x / 2 ^ (b + 1) = m / 2 ^ (b + 1) ∧ x / 2 ^ b ≠ m / 2 ^ b.
Proof.
  intros Hm Hb n. pose proof MAX_PREFIX_range as HW.
  assert (0 < 2 ^ b) as Hpb by (apply Z.pow_pos_nonneg; lia).
  assert (rep_shl 1 b = 2 ^ b) as Hshl.
  { unfold rep_shl, wrap. rewrite Z.shiftl_1_l. apply Z.mod_small. split; [lia|]. apply Z.pow_lt_mono_r; lia. }
  assert (rep_not (2 ^ b - 1) = 2 ^ W - 2 ^ b) as Hnot by (unfold rep_not; lia).
  set (y := Z.lxor m (2 ^ b)).
  assert (0 ≤ y < 2 ^ W) as Hy.
  { assert (y mod 2 ^ W = y) as <-; [|apply Z.mod_pos_bound; lia].
    unfold y. rewrite <- Z.land_ones by lia. apply Z.bits_inj'. intros i Hi. rewrite Z.land_spec, Z.lxor_spec.
    destruct (Z.lt_ge_cases i W); [by rewrite Z.ones_spec_low, andb_true_r by lia|].
    rewrite Z.ones_spec_high, andb_false_r by lia. rewrite Z.pow2_bits_false by lia.
    rewrite (proj2 (Z.testbit_false m i Hi)); [done|]. rewrite Z.div_small; [done|].
    split; [lia|]. eapply Z.lt_le_trans; [apply Hm|]. apply Z.pow_le_mono_r; lia. }
  assert (y / 2 ^ b = Z.lxor (m / 2 ^ b) 1) as Hyb.
  { unfold y. rewrite <- !Z.shiftr_div_pow2, Z.shiftr_lxor by lia. f_equal.
    rewrite Z.shiftr_div_pow2 by lia. apply Z.div_same. lia. }
  assert (0 ≤ 2 ^ b * (y / 2 ^ b) < 2 ^ W) as Hrange.
  { pose proof (Z.mul_div_le y (2 ^ b) Hpb). pose proof (Z.div_pos y (2 ^ b)). nia. }
  assert (an_prefix n = W - b) as Hp by (apply an_prefix_new; lia).
  assert (an_network n = 2 ^ b * (y / 2 ^ b)) as Hn.
  { unfold n. rewrite an_network_new, Hshl, Hnot by lia. replace (W - (W - b)) with b by lia. fold y.
    rewrite (land_high _ _ y), land_high by lia. rewrite (Z.mul_comm (2 ^ b) (y / 2 ^ b)), Z.div_mul by lia. lia. }
  unfold an_wf, member. rewrite Hp, Hn. replace (W - (W - b)) with b by lia.
  rewrite (Z.mul_comm (2 ^ b)), Z.div_mul, Z.mod_mul by lia. split; [lia|].
  intros x. rewrite Hyb, sibling, !Z.div_div, Z.pow_add_r by lia. done.
Qed.

Lemma range_members fuel : ∀ m b c x,
  0 ≤ m < 2 ^ W → 0 ≤ b ≤ W → 0 ≤ c ≤ W → c - b < Z.of_nat fuel →
  let l := networks_collect fuel
             (MultipleNetworks {| rg_network := m; bit_position := b; max_bit_position := c |}) in
  Forall an_wf l ∧
  ((∃ n, n ∈ l ∧ member x n) ↔ x / 2 ^ c = m / 2 ^ c ∧ x / 2 ^ b ≠ m / 2 ^ b).
Proof.
  induction fuel as [|fuel IH]; intros m b c x Hm Hb Hc Hf; cbn [networks_collect networks_next].
  { split; [constructor|]. split; [intros (n & Hn & _); by apply not_elem_of_nil in Hn|].
    intros [E1 E2]. destruct E2. eapply div_coarser; [|exact E1]. lia. }
  unfold range_next. cbn [rg_network bit_position max_bit_position].
  destruct (Z.ltb_spec b c) as [Hlt|Hge].
  - destruct (range_item m b) as [Hwf Hx]; [done|lia|].
    destruct (IH m (b + 1) c x) as [Hwf' Hm']; [done|lia|done|lia|].
    split; [by constructor|]. split.
    + intros (n & Hn & Hxn). apply elem_of_cons in Hn as [->|Hn].
      * apply Hx in Hxn as [E1 E2]. split; [|done]. eapply div_coarser; [|exact E1]. lia.
      * destruct (proj1 Hm') as [E1 E2]; [by eauto|]. split; [done|]. contradict E2. eapply div_coarser; [|exact E2]. lia.
    + intros [E1 E2]. destruct (Z.eq_dec (x / 2 ^ (b + 1)) (m / 2 ^ (b + 1))) as [E|E].
      * eexists. split; [apply list_elem_of_here|]. by apply Hx.
      * destruct (proj2 Hm') as (n & ? & ?); [done|]. exists n. split; [by apply list_elem_of_further|done].
  - split; [constructor|]. split; [intros (n & Hn & _); by apply not_elem_of_nil in Hn|].
    intros [E1 E2]. destruct E2. eapply div_coarser; [|exact E1]. lia.
Qed.

Lemma sub_correct self other x :
  an_wf self → an_wf other → 0 ≤ x < 2 ^ W →
  Forall an_wf (sub_list self other) ∧
  ((∃ n, n ∈ sub_list self other ∧ member x n) ↔ member x self ∧ ¬ member x other).
Proof.
  intros Hs Ho Hx. pose proof Hs as (Hps & Hrs & _). pose proof Ho as (Hpo & Hro & _).
  pose proof MAX_PREFIX_range as HW. unfold sub_list, sub, member at 2 3.
  pose proof (wf_network _ Hs) as Es. pose proof (wf_network _ Ho) as Eo.
  rewrite (mask_land self) by done. rewrite (mask_land other) by done.
  set (ks := W - an_prefix self) in *. set (ko := W - an_prefix other) in *.
  set (ns := an_network self) in *. set (no := an_network other) in *.
  assert (0 < 2 ^ ks ∧ 0 < 2 ^ ko) as [H1 H2] by (split; apply Z.pow_pos_nonneg; lia).
  destruct (Z.eqb_spec (2 ^ ks * (no / 2 ^ ks)) ns) as [E|E].
  - destruct (range_members 129 no ko ks x) as [Hwf Hm]; [done|lia..|]. split; [done|]. rewrite Hm.
    assert (no / 2 ^ ks = ns / 2 ^ ks) as -> by nia. done.
  - assert (no / 2 ^ ks ≠ ns / 2 ^ ks) as Hne by congruence.
    destruct (Z.eqb_spec (2 ^ ko * (ns / 2 ^ ko)) no) as [E'|E'].
    + split; [constructor|]. split; [intros (n & Hn & _); by apply not_elem_of_nil in Hn|].
      intros [Hxs Hxo]. exfalso. destruct (Z.le_ge_cases ks ko) as [Hle|Hle].
      * apply Hxo. etransitivity; [eapply div_coarser; [|exact Hxs]; lia|]. nia.
      * apply Hne. eapply div_coarser; [|]; [split; [|exact Hle]; lia|]. nia.
    + cbn. split; [constructor; [done|constructor]|]. split.
      * intros (n & ->%list_elem_of_singleton & Hxs). split; [exact Hxs|]. intros Hxo. unfold member in Hxs.
        destruct (Z.le_ge_cases ks ko) as [Hle|Hle].
        -- apply E'. assert (x / 2 ^ ko = ns / 2 ^ ko) as Hk by (eapply div_coarser; [|exact Hxs]; lia). congruence.
        -- apply Hne. transitivity (x / 2 ^ ks); [symmetry; eapply div_coarser; [|exact Hxo]; lia|done].
      * intros [Hxs _]. exists self. split; [by apply list_elem_of_singleton|done].
Qed.
End Sub.
#[global] Arguments IpNetworks T : clear implicits.

(** ** Networks of both families *)

Section Routes.
Context `{IpNetworkCrate}.

Record Ipv4Network : Set := { v4_ip : Z; v4_prefix : Z }.
Record Ipv6Network : Set := { v6_ip : Z; v6_prefix : Z }.

#[global] Instance Ipv4Network_trait : AbstractIpNetwork Ipv4Network.
Proof.
  refine {| MAX_PREFIX := 32; an_new a p := {| v4_ip := a; v4_prefix := p |};
            an_mask n := ipv4_mask (v4_prefix n); an_network n := Z.land (v4_ip n) (ipv4_mask (v4_prefix n));
            an_prefix := v4_prefix |}.
  - lia.
  - done.
  - intros a p Hp. cbn. by rewrite ipv4_mask_spec.
  - intros n Hn. by apply ipv4_mask_spec.
Defined.

#[global] Instance Ipv6Network_trait : AbstractIpNetwork Ipv6Network.
Proof.
  refine {| MAX_PREFIX := 128; an_new a p := {| v6_ip := a; v6_prefix := p |};
            an_mask n := ipv6_mask (v6_prefix n); an_network n := Z.land (v6_ip n) (ipv6_mask (v6_prefix n));
            an_prefix := v6_prefix |}.
  - lia.
  - done.
  - intros a p Hp. cbn. by rewrite ipv6_mask_spec.
  - intros n Hn. by apply ipv6_mask_spec.
Defined.

Definition of_v4 (n : Ipv4Network) : IpNetwork := NetV4 (v4_ip n) (v4_prefix n).
Definition of_v6 (n : Ipv6Network) : IpNetwork := NetV6 (v6_ip n) (v6_prefix n).
Definition is_ipv4 (n : IpNetwork) : bool := match n with NetV4 _ _ => true | NetV6 _ _ => false end.

(** Removing a network of the other family panics. *)
Definition IpNetwork_sub (self other : IpNetwork) : option (list IpNetwork) :=
  match self, other with
  | NetV4 a p, NetV4 b q =>
      Some (map of_v4 (sub_list {| v4_ip := a; v4_prefix := p |} {| v4_ip := b; v4_prefix := q |}))
  | NetV6 a p, NetV6 b q =>
      Some (map of_v6 (sub_list {| v6_ip := a; v6_prefix := p |} {| v6_ip := b; v6_prefix := q |}))
  | _, _ => None
  end.

(** [flat_map] with a function that may panic. *)
Definition flat_map_opt {A B} (f : A → option (list B)) (l : list A) : option (list B) :=
  @concat B <$> mapM f l.

Fixpoint sub_all_from (result : list IpNetwork) (others : list IpNetwork) : option (list IpNetwork) :=
  match others with
  | [] => Some result
  | other :: others =>
      result ← flat_map_opt (λ network, IpNetwork_sub network other) result;
      sub_all_from result others
  end.
Definition sub_all (self : IpNetwork) (others : list IpNetwork) : option (list IpNetwork) :=
  sub_all_from [self] others.

(** ** The configuration of the VPN service (tun_provider/mod.rs, android/mod.rs) *)

Record TunConfig : Set := {
  addresses : list IpAddr;
  mtu : Z;
  ipv4_gateway : Z;
  ipv6_gateway : option Z;
  routes : list IpNetwork;
  allow_lan : bool;
  dns_servers : option (list IpAddr);
  excluded_packages : list string
}.

Definition TunConfig_gateways (c : TunConfig) : list IpAddr :=
  AddrV4 (ipv4_gateway c) :: match ipv6_gateway c with Some gateway => [AddrV6 gateway] | None => [] end.

Record InetNetwork : Set := { in_address : IpAddr; in_prefix : Z }.
Definition net_prefix (n : IpNetwork) : Z := match n with NetV4 _ p | NetV6 _ p => p end.
Definition InetNetwork_from (n : IpNetwork) : InetNetwork :=
  {| in_address := net_ip n; in_prefix := net_prefix n |}.
(** [IpNetwork::new], which is unwrapped. *)
Definition IpNetwork_new (ip : IpAddr) (prefix : Z) : option IpNetwork :=
  match ip with
  | AddrV4 a => if (0 <=? prefix) && (prefix <=? 32) then Some (NetV4 a prefix) else None
  | AddrV6 a => if (0 <=? prefix) && (prefix <=? 128) then Some (NetV6 a prefix) else None
  end.
Definition IpNetwork_from_inet (n : InetNetwork) : option IpNetwork :=
  IpNetwork_new (in_address n) (wrap 8 (in_prefix n)).

(** [IpNetwork::from(IpAddr)]: the network of one address. *)
Definition IpNetwork_from_addr (ip : IpAddr) : IpNetwork :=
  match ip with AddrV4 a => NetV4 a 32 | AddrV6 a => NetV6 a 128 end.

Definition addr_is_ipv6 (ip : IpAddr) : bool := match ip with AddrV6 _ => true | AddrV4 _ => false end.

Definition resolve_dns_servers (config : TunConfig) : list IpAddr :=
  List.filter (λ ip, bool_decide (is_Some (ipv6_gateway config)) || negb (addr_is_ipv6 ip))
    (default (TunConfig_gateways config) (dns_servers config)).

Definition allowed_lan_networks : list IpNetwork := ALLOWED_LAN_NETS ++ ALLOWED_LAN_MULTICAST_NETS.

Definition resolve_routes (config : TunConfig) : option (list InetNetwork) :=
  if negb (allow_lan config) then Some (map InetNetwork_from (routes config))
  else
    let required_ipv4_routes := [IpNetwork_from_addr (AddrV4 (ipv4_gateway config))] in
    let required_ipv6_routes := match ipv6_gateway config with
                                | Some addr => [IpNetwork_from_addr (AddrV6 addr)]
                                | None => []
                                end in
    let original_lan_ipv4_networks := List.filter is_ipv4 allowed_lan_networks in
    let original_lan_ipv6_networks := List.filter (λ n, negb (is_ipv4 n)) allowed_lan_networks in
    lan_ipv4_networks ← flat_map_opt (λ network, sub_all network required_ipv4_routes) original_lan_ipv4_networks;
    lan_ipv6_networks ← flat_map_opt (λ network, sub_all network required_ipv6_routes) original_lan_ipv6_networks;
    result ← flat_map_opt (λ route, if is_ipv4 route then sub_all route lan_ipv4_networks
                                    else sub_all route lan_ipv6_networks) (routes config);
    Some (map InetNetwork_from result).

Record VpnServiceConfig : Set := {
  vs_addresses : list IpAddr;
  vs_dns_servers : list IpAddr;
  vs_routes : list InetNetwork;
  vs_excluded_packages : list string;
  vs_mtu : Z
}.

Definition VpnServiceConfig_new (tun_config : TunConfig) : option VpnServiceConfig :=
  let dns_servers := resolve_dns_servers tun_config in
  routes ← resolve_routes tun_config;
  Some {| vs_addresses := addresses tun_config; vs_dns_servers := dns_servers; vs_routes := routes;
          vs_excluded_packages := excluded_packages tun_config; vs_mtu := mtu tun_config |}.

Definition real_routes (c : TunConfig) : option (list IpNetwork) :=
  config ← VpnServiceConfig_new c;
  mapM IpNetwork_from_inet (vs_routes config).

Definition DEFAULT_ROUTES : list IpNetwork := [NetV4 0 0; NetV6 0 0].
Definition blocking_config : TunConfig := {|
  addresses := [AddrV4 (Ipv4Addr_new 10 0 0 1)]; mtu := 1380; ipv4_gateway := Ipv4Addr_new 10 64 0 1;
  ipv6_gateway := None; routes := DEFAULT_ROUTES; allow_lan := false; dns_servers := None;
  excluded_packages := [] |}.

(** ** What is routed into the tunnel *)

Definition covers (l : list IpNetwork) (ip : IpAddr) : Prop := ∃ n, n ∈ l ∧ net_contains n ip = true.

Definition net_ok (n : IpNetwork) : Prop :=
  match n with
  | NetV4 a p => an_wf {| v4_ip := a; v4_prefix := p |}
  | NetV6 a p => an_wf {| v6_ip := a; v6_prefix := p |}
  end.

(** What the containment test of the crate means for one family. *)
Lemma contains_member {T} `{AbstractIpNetwork T} (n : T) a x :
  an_wf n → an_network n = Z.land a (an_mask n) → 0 ≤ x < 2 ^ MAX_PREFIX →
  (Z.land x (an_mask n) =? Z.land a (an_mask n)) = true ↔ member x n.
Proof.
  intros Hok Ha Hx. rewrite Z.eqb_eq, <- Ha. unfold member.
  rewrite (mask_land n x Hok Hx). pose proof (wf_network n Hok) as En. destruct Hok as (Hp & _).
  pose proof (Z.pow_pos_nonneg 2 (MAX_PREFIX - an_prefix n)). split; intros; nia.
Qed.

Lemma v4_member n x :
  an_wf n → u32_range x → net_contains (of_v4 n) (AddrV4 x) = true ↔ member x n.
Proof. intros Hok Hx. rewrite net_contains_spec. exact (contains_member n (v4_ip n) x Hok eq_refl Hx). Qed.

Lemma v6_member n x :
  an_wf n → u128_range x → net_contains (of_v6 n) (AddrV6 x) = true ↔ member x n.
Proof. intros Hok Hx. rewrite net_contains_spec. exact (contains_member n (v6_ip n) x Hok eq_refl Hx). Qed.

Lemma sub_covers {T} `{AbstractIpNetwork T} (mk : T → IpNetwork) (addr : Z → IpAddr) (self other : T) x :
  (∀ n, an_wf n → net_contains (mk n) (addr x) = true ↔ member x n) →
  an_wf self → an_wf other → 0 ≤ x < 2 ^ MAX_PREFIX →
  covers (map mk (sub_list self other)) (addr x) ↔
  net_contains (mk self) (addr x) = true ∧ net_contains (mk other) (addr x) ≠ true.
Proof.
  intros Hc Hs Ho Hx. destruct (sub_correct self other x Hs Ho Hx) as [Hw Hm].
  rewrite !Hc by done. rewrite <- Hm. unfold covers. rewrite Forall_forall in Hw. split.
  - intros (n & (m & -> & Hin)%list_elem_of_fmap & Hcm). exists m. split; [done|]. apply Hc; auto.
  - intros (m & Hin & Hcm). exists (mk m). split; [by apply list_elem_of_fmap_2|]. apply Hc; auto.
Qed.

(** A list of networks with property [F] that covers the addresses [P] describes. *)
Definition family (v4 : bool) (n : IpNetwork) : Prop := net_ok n ∧ is_ipv4 n = v4.
Definition covering (F : IpNetwork → Prop) (P : IpAddr → Prop) (l : list IpNetwork) : Prop :=
  Forall F l ∧ ∀ ip, ip_wf ip → covers l ip ↔ P ip.

Lemma IpNetwork_sub_correct v4 self other :
  family v4 self → family v4 other →
  ∃ l, IpNetwork_sub self other = Some l ∧
    covering (family v4) (λ ip, net_contains self ip = true ∧ net_contains other ip ≠ true) l.
Proof.
  intros [Hs <-] [Ho Hf]. destruct self as [a p|a p], other as [b q|b q]; try done; eexists; (split; [done|]); split.
  1, 3: apply Forall_map; eapply Forall_impl; [by apply (sub_correct _ _ 0)|by intros []].
  - intros [x|x] Hx; [apply (sub_covers of_v4 AddrV4); [intros; by apply v4_member|done..]|].
    split; [|by rewrite net_contains_spec; intros [? _]].
    intros (n & (m & -> & Hin)%list_elem_of_fmap & Hc). by rewrite net_contains_spec in Hc.
  - intros [x|x] Hx; [|apply (sub_covers of_v6 AddrV6); [intros; by apply v6_member|done..]].
    split; [|by rewrite net_contains_spec; intros [? _]].
    intros (n & (m & -> & Hin)%list_elem_of_fmap & Hc). by rewrite net_contains_spec in Hc.
Qed.

Lemma covers_cons n l ip : covers (n :: l) ip ↔ net_contains n ip = true ∨ covers l ip.
Proof.
  unfold covers. split; [intros (m & [->|Hm]%elem_of_cons & ?); eauto|].
  intros [?|(m & ? & ?)]; [exists n|exists m]; set_solver.
Qed.

Lemma flat_map_covering F f (Q : IpAddr → Prop) l :
  (∀ n, n ∈ l → ∃ l', f n = Some l' ∧ covering F (λ ip, net_contains n ip = true ∧ Q ip) l') →
  ∃ L, flat_map_opt f l = Some L ∧ covering F (λ ip, covers l ip ∧ Q ip) L.
Proof.
  unfold flat_map_opt. induction l as [|n l IH]; intros Hf.
  - exists []. split; [done|]. split; [constructor|]. intros ip _. unfold covers. set_solver.
  - destruct (Hf n ltac:(set_solver)) as (l' & E & Hw & Hc).
    destruct IH as (L & EL & HwL & HcL); [intros m Hm; apply Hf; set_solver|].
    cbn. rewrite E. cbn. destruct (mapM f l) as [ls|]; [|done]. cbn in EL |- *. injection EL as <-.
    eexists. split; [done|]. split; [by apply Forall_app|]. intros ip Hip. specialize (Hc ip Hip). specialize (HcL ip Hip).
    assert (covers (l' ++ concat ls) ip ↔ covers l' ip ∨ covers (concat ls) ip) as -> by (unfold covers; set_solver).
    rewrite covers_cons, Hc, HcL. tauto.
Qed.

Lemma sub_all_correct v4 others : ∀ result P,
  covering (family v4) P result → Forall (family v4) others →
  ∃ l, sub_all_from result others = Some l ∧ covering (family v4) (λ ip, P ip ∧ ¬ covers others ip) l.
Proof.
  induction others as [|o others IH]; intros result P [Hw Hc] Ho.
  { exists result. split; [done|]. split; [done|]. intros ip Hip. rewrite Hc by done. unfold covers. set_solver. }
  apply Forall_cons in Ho as [Ho Hos]. cbn.
  destruct (flat_map_covering (family v4) (λ network, IpNetwork_sub network o) (λ ip, net_contains o ip ≠ true) result)
    as (L & -> & HL).
  { intros n Hn. rewrite Forall_forall in Hw. by apply IpNetwork_sub_correct; [apply Hw|]. }
  cbn. destruct (IH L _ HL Hos) as (l & E & Hwl & Hcl). exists l. split; [done|]. split; [done|].
  intros ip Hip. rewrite Hcl, Hc, covers_cons by done. tauto.
Qed.
Lemma sub_all_one v4 n others :
  family v4 n → Forall (family v4) others →
  ∃ l, sub_all n others = Some l ∧ covering (family v4) (λ ip, net_contains n ip = true ∧ ¬ covers others ip) l.
Proof.
  intros Hn Ho. apply sub_all_correct; [|done]. split; [by constructor|]. intros ip _. rewrite covers_cons.
  split; [intros [?|(m & Hm & _)]; [done|by apply not_elem_of_nil in Hm]|by left].
Qed.

(** Addresses and prefixes in range. *)
Definition net_range (n : IpNetwork) : Prop :=
  match n with
  | NetV4 a p => u32_range a ∧ 0 ≤ p ≤ 32
  | NetV6 a p => u128_range a ∧ 0 ≤ p ≤ 128
  end.

Lemma range_wf {T} `{AbstractIpNetwork T} (n : T) a :
  0 ≤ an_prefix n ≤ MAX_PREFIX → 0 ≤ a < 2 ^ MAX_PREFIX → an_network n = Z.land a (an_mask n) → an_wf n.
Proof.
  intros Hp Ha En. rewrite an_mask_eq, land_high in En by lia. unfold an_wf. rewrite En.
  assert (0 < 2 ^ (MAX_PREFIX - an_prefix n)) as Hpos by (apply Z.pow_pos_nonneg; lia).
  pose proof (Z.mul_div_le a _ Hpos) as Hle.
  assert (0 ≤ a / 2 ^ (MAX_PREFIX - an_prefix n)) as Hdiv by (apply Z.div_pos; lia).
  rewrite (Z.mul_comm (2 ^ _)) in Hle |- *. rewrite Z.mod_mul by lia. split_and!; [lia|lia|nia|lia|done].
Qed.

Lemma net_range_ok n : net_range n → net_ok n.
Proof.
  destruct n as [a p|a p]; intros [Ha Hp].
  - exact (range_wf (T := Ipv4Network) {| v4_ip := a; v4_prefix := p |} a Hp Ha eq_refl).
  - exact (range_wf (T := Ipv6Network) {| v6_ip := a; v6_prefix := p |} a Hp Ha eq_refl).
Qed.

Lemma contains_addr a ip :
  ip_wf a → ip_wf ip → net_contains (IpNetwork_from_addr a) ip = true ↔ ip = a.
Proof.
  intros Ha Hip. rewrite net_contains_spec. destruct a as [a|a], ip as [x|x]; cbn in *; try done.
  - rewrite ipv4_mask_spec, !(land_high 32 0) by (try done; lia). rewrite !Z.div_1_r, Z.eqb_eq. split; [intros; f_equal; lia|by intros [= ->]].
  - rewrite ipv6_mask_spec, !(land_high 128 0) by (try done; lia). rewrite !Z.div_1_r, Z.eqb_eq. split; [intros; f_equal; lia|by intros [= ->]].
Qed.

Lemma covers_family (f : IpNetwork → bool) l ip :
  (∀ n, net_contains n ip = true → f n = true) → covers (List.filter f l) ip ↔ covers l ip.
Proof.
  intros Hf. unfold covers. split; intros (n & Hn & Hc); exists n; (split; [|done]).
  - apply list_elem_of_In, filter_In in Hn as [Hn _]. by apply list_elem_of_In.
  - apply list_elem_of_In, filter_In. split; [by apply list_elem_of_In|auto].
Qed.

Definition is_addr_v4 (ip : IpAddr) : bool := match ip with AddrV4 _ => true | AddrV6 _ => false end.

Lemma contains_family n ip : net_contains n ip = true → is_ipv4 n = is_addr_v4 ip.
Proof. rewrite net_contains_spec. by destruct n, ip. Qed.

Lemma lan_nets_range : Forall net_range allowed_lan_networks.
Proof. repeat (constructor; [vm_compute; repeat split; congruence|]). constructor. Qed.

Lemma covers_addrs l ip :
  Forall ip_wf l → ip_wf ip → covers (map IpNetwork_from_addr l) ip ↔ ip ∈ l.
Proof.
  intros Hl Hip. rewrite Forall_forall in Hl. unfold covers. split.
  - intros (n & (a & -> & Ha)%list_elem_of_fmap & Hc). apply contains_addr in Hc as ->; auto.
  - intros Hin. exists (IpNetwork_from_addr ip). split; [by apply list_elem_of_fmap_2|]. by apply contains_addr.
Qed.

Lemma from_addr_family a : ip_wf a → family (is_addr_v4 a) (IpNetwork_from_addr a).
Proof. intros Ha. destruct a; (split; [|done]); apply net_range_ok; split; [done|lia|done|lia]. Qed.

(** The LAN networks of one family without the gateways of that family. *)
Lemma lan_family v4 (gateways : list IpAddr) :
  Forall ip_wf gateways → Forall (λ a, is_addr_v4 a = v4) gateways →
  ∃ L, flat_map_opt (λ network, sub_all network (map IpNetwork_from_addr gateways))
         (List.filter (λ n, Bool.eqb v4 (is_ipv4 n)) allowed_lan_networks) = Some L ∧
    covering (family v4) (λ ip, covers (List.filter (λ n, Bool.eqb v4 (is_ipv4 n)) allowed_lan_networks) ip ∧
                                ip ∉ gateways) L.
Proof.
  intros Hw Hf. apply flat_map_covering. intros n Hn.
  apply list_elem_of_In, filter_In in Hn as [Hn Hv]. apply Bool.eqb_prop in Hv.
  pose proof lan_nets_range as Hr. rewrite Forall_forall in Hr. apply list_elem_of_In, Hr, net_range_ok in Hn.
  destruct (sub_all_one v4 n (map IpNetwork_from_addr gateways)) as (l & E & Hwl & Hc); [done| |].
  { apply Forall_map. rewrite Forall_forall in *. intros a Ha. rewrite <- (Hf a Ha). apply from_addr_family; auto. }
  exists l. split; [done|]. split; [done|]. intros ip Hip. by rewrite Hc, covers_addrs.
Qed.

Lemma filter_v4 l : List.filter is_ipv4 l = List.filter (λ n, Bool.eqb true (is_ipv4 n)) l.
Proof. apply filter_ext. intros n. by destruct (is_ipv4 n). Qed.
Lemma filter_v6 l : List.filter (λ n, negb (is_ipv4 n)) l = List.filter (λ n, Bool.eqb false (is_ipv4 n)) l.
Proof. apply filter_ext. intros n. by destruct (is_ipv4 n). Qed.

Lemma inet_round_trip n : net_ok n → IpNetwork_from_inet (InetNetwork_from n) = Some n.
Proof.
  destruct n as [a p|a p]; intros (Hp & _); cbn in Hp; unfold IpNetwork_from_inet, wrap; cbn.
  all: rewrite Z.mod_small by (cbn; lia); rewrite (proj2 (Z.leb_le 0 p)), (proj2 (Z.leb_le p _)) by lia; done.
Qed.

Definition gateways_wf (c : TunConfig) : Prop := Forall ip_wf (TunConfig_gateways c).

(** The addresses that LAN sharing keeps out of the tunnel. *)
Definition kept_local (c : TunConfig) (ip : IpAddr) : Prop :=
  covers allowed_lan_networks ip ∧ ip ∉ TunConfig_gateways c.

Lemma family_kept_local c v4 (gateways : list IpAddr) L ip :
  covering (family v4) (λ ip, covers (List.filter (λ n, Bool.eqb v4 (is_ipv4 n)) allowed_lan_networks) ip ∧
                              ip ∉ gateways) L →
  (∀ ip, is_addr_v4 ip = v4 → ip ∈ gateways ↔ ip ∈ TunConfig_gateways c) →
  ip_wf ip → is_addr_v4 ip = v4 → covers L ip ↔ kept_local c ip.
Proof.
  intros [_ Hc] Hg Hip <-. rewrite Hc, Hg by done. unfold kept_local. rewrite covers_family; [done|].
  intros n Hn. rewrite (contains_family _ _ Hn). by destruct (is_addr_v4 ip).
Qed.

(** Subtracting the LAN networks from the routes. *)
Lemma lan_routes c :
  Forall net_range (routes c) → gateways_wf c → allow_lan c = true →
  ∃ rs, resolve_routes c = Some (map InetNetwork_from rs) ∧
    covering net_ok (λ ip, covers (routes c) ip ∧ ¬ kept_local c ip) rs.
Proof.
  intros Hr Hg Hl. unfold resolve_routes. rewrite Hl. cbn [negb]. cbv zeta. rewrite filter_v4, filter_v6.
  unfold gateways_wf, TunConfig_gateways in Hg. apply Forall_cons in Hg as [Hg4 Hg6].
  destruct (lan_family true [AddrV4 (ipv4_gateway c)]) as (L4 & E4 & H4); [by constructor|by constructor|].
  set (g6 := match ipv6_gateway c with Some g => [AddrV6 g] | None => [] end) in Hg6.
  destruct (lan_family false g6) as (L6 & E6 & H6); [done|unfold g6; by destruct (ipv6_gateway c); repeat constructor|].
  assert (map IpNetwork_from_addr g6 =
    match ipv6_gateway c with Some addr => [IpNetwork_from_addr (AddrV6 addr)] | None => [] end) as Eg
    by (unfold g6; by destruct (ipv6_gateway c)).
  rewrite Eg in E6. cbn [map] in E4. rewrite E4. cbn [mbind option_bind]. rewrite E6. cbn [mbind option_bind].
  assert (∀ ip, ip_wf ip → is_addr_v4 ip = true → covers L4 ip ↔ kept_local c ip) as K4.
  { intros ip Hip Hv. eapply family_kept_local; [exact H4| |done|done]. intros a Ha. unfold TunConfig_gateways.
    destruct a; [|done]. fold g6. split; [set_solver|]. intros [?|Hin]%elem_of_cons; [set_solver|].
    unfold g6 in Hin. destruct (ipv6_gateway c); set_solver. }
  assert (∀ ip, ip_wf ip → is_addr_v4 ip = false → covers L6 ip ↔ kept_local c ip) as K6.
  { intros ip Hip Hv. eapply family_kept_local; [exact H6| |done|done]. intros a Ha. unfold TunConfig_gateways.
    destruct a; [done|]. fold g6. set_solver. }
  destruct (flat_map_covering net_ok (λ route, if is_ipv4 route then sub_all route L4 else sub_all route L6)
              (λ ip, ¬ kept_local c ip) (routes c)) as (rs & -> & Hrs); [|by exists rs].
  intros n Hn. rewrite Forall_forall in Hr. pose proof (net_range_ok _ (Hr _ Hn)) as Hok.
  assert (∃ l, (if is_ipv4 n then sub_all n L4 else sub_all n L6) = Some l ∧
    covering (family (is_ipv4 n)) (λ ip, net_contains n ip = true ∧
       ¬ covers (if is_ipv4 n then L4 else L6) ip) l) as (l & -> & Hw & Hc).
  { destruct (is_ipv4 n) eqn:En; (apply sub_all_one; [by split|]); [apply (proj1 H4)|apply (proj1 H6)]. }
  exists l. split; [done|]. split; [eapply Forall_impl; [exact Hw|]; by intros m []|].
  intros ip Hip. rewrite Hc by done. split; intros [Hcn Hk]; (split; [done|]); contradict Hk;
    pose proof (contains_family _ _ Hcn) as Ev; symmetry in Ev; destruct (is_ipv4 n);
    first [by apply (K4 ip Hip Ev)|by apply (K6 ip Hip Ev)].
Qed.

(** Routes on Android: with valid routes and gateways, the VPN service gets
    routes (nothing panics, and the conversions keep the networks), and an
    address is routed into the tunnel exactly when a configured route covers it
    and, if LAN sharing is on, it is not in a private or multicast network, the
    gateways of the tunnel excepted. *)
Theorem routes_resolved (c : TunConfig) :
  Forall net_range (routes c) → gateways_wf c →
  ∃ rs, real_routes c = Some rs ∧
    ∀ ip, ip_wf ip →
      covers rs ip ↔
      covers (routes c) ip ∧
      (allow_lan c = true → covers allowed_lan_networks ip → ip ∈ TunConfig_gateways c).
Proof.
  intros Hr Hg.
  assert (∃ rs, resolve_routes c = Some (map InetNetwork_from rs) ∧
    covering net_ok (λ ip, covers (routes c) ip ∧ (allow_lan c = true → ¬ kept_local c ip)) rs)
    as (rs & E & Hok & Hc).
  { destruct (allow_lan c) eqn:El.
    - destruct (lan_routes c Hr Hg El) as (rs & E & Hok & Hc). exists rs. split; [done|]. split; [done|].
      intros ip Hip. rewrite Hc by done. naive_solver.
    - exists (routes c). unfold resolve_routes. rewrite El. split; [done|].
      split; [eapply Forall_impl; [exact Hr|]; apply net_range_ok|]. intros ip _. naive_solver. }
  exists rs. split.
  - unfold real_routes, VpnServiceConfig_new. rewrite E. cbn. apply mapM_Some, Forall2_fmap_l, Forall_Forall2_diag.
    eapply Forall_impl; [exact Hok|]. apply inet_round_trip.
  - intros ip Hip. rewrite Hc by done. unfold kept_local. split; intros [Hcov Hk]; (split; [done|]); intros Hl.
    + intros Hlan. destruct (decide (ip ∈ TunConfig_gateways c)); [done|]. by destruct (Hk Hl).
    + intros [Hlan Hni]. by apply Hni, Hk.
Qed.
End Routes.

(** ** A device that shares its LAN *)

Module SharedLan.
Definition config : TunConfig := {|
  addresses := [AddrV4 (Ipv4Addr_new 10 68 1 2)]; mtu := 1380; ipv4_gateway := Ipv4Addr_new 10 64 0 1;
  ipv6_gateway := None; routes := DEFAULT_ROUTES; allow_lan := true; dns_servers := None;
  excluded_packages := [] |}.

Lemma routes_resolved_witness :
  ∃ rs, real_routes config = Some rs ∧
    ∀ ip, ip_wf ip →
      covers rs ip ↔
      covers (routes config) ip ∧
      (allow_lan config = true → covers allowed_lan_networks ip → ip ∈ TunConfig_gateways config).
Proof.
  apply (routes_resolved config).
  - repeat (constructor; [vm_compute; repeat split; congruence|]). constructor.
  - constructor; [vm_compute; split; congruence|constructor].
Defined.

(** The gateway is reached through the tunnel, a printer in the LAN is not. *)
Lemma gateway_routed :
  ∃ rs, real_routes config = Some rs ∧
    existsb (λ n, net_contains n (AddrV4 (Ipv4Addr_new 10 64 0 1))) rs = true ∧
    existsb (λ n, net_contains n (AddrV4 (Ipv4Addr_new 192 168 1 7))) rs = false.
Proof. eexists. split; [vm_compute; reflexivity|]. split; vm_compute; reflexivity. Qed.
End SharedLan.
