(* ===== verification/Constraints.v ===== *)
(** * Constraints (mullvad-types/src/constraints)

    The type [Constraint], the interface [Intersection] of the types that can be
    combined, and the laws its documentation asks of an implementation.  The
    laws are the class [Lawful]; they are closed under [Constraint] and under
    the products that the derive macro (mullvad-types/intersection-derive)
    builds. *)

From S2P Require Import Prelude NetTypes.

(** ** constraint.rs *)

Inductive Constraint (T : Type) : Type :=
| Any
| Only (t : T).
Arguments Any {T}.
Arguments Only {T} t.

#[global] Instance Constraint_eq_dec `{EqDecision T} : EqDecision (Constraint T).
Proof. solve_decision. Defined.

Section Combinators.
Context {T U : Type}.
Definition constraint_unwrap (c : Constraint T) : option T :=
  match c with Any => None | Only value => Some value end.
Definition unwrap_or (c : Constraint T) (other : T) : T :=
  match c with Any => other | Only value => value end.
Definition constraint_or (c other : Constraint T) : Constraint T :=
  match c with Any => other | Only value => Only value end.
Definition constraint_map (f : T → U) (c : Constraint T) : Constraint U :=
  match c with Any => Any | Only value => Only (f value) end.
Definition constraint_and_then (f : T → Constraint U) (c : Constraint T) : Constraint U :=
  match c with Any => Any | Only value => f value end.
Definition is_any (c : Constraint T) : bool :=
  match c with Any => true | Only _ => false end.
Definition is_only (c : Constraint T) : bool := negb (is_any c).
Definition constraint_option (c : Constraint T) : option T :=
  match c with Any => None | Only value => Some value end.
Definition is_only_and (c : Constraint T) (f : T → bool) : bool :=
  match constraint_option c with Some value => f value | None => false end.
Definition Constraint_from (o : option T) : Constraint T :=
  match o with Some value => Only value | None => Any end.
End Combinators.

(** ** mod.rs *)

(** The trait [Match] and its implementation for constraints. *)
Definition constraint_matches {T U} (matches : T → U → bool) (c : Constraint T) (other : U) : bool :=
  match c with Any => true | Only value => matches value other end.

(** The trait [Intersection]. *)
Class Intersection (T : Type) : Type := intersection : T → T → option T.
Arguments intersection : simpl never.

(** [impl_intersection_partialeq!]. *)
Definition intersection_partialeq `{EqDecision T} : Intersection T := λ self other,
  if decide (self = other) then Some self else None.

#[global] Instance Constraint_intersection `{Intersection T} : Intersection (Constraint T) :=
  λ self other,
    match self, other with
    | Any, Any => Some Any
    | Only t, Any | Any, Only t => Some (Only t)
    | Only l, Only r => Only <$> intersection l r
    end.

#[global] Instance Z_intersection : Intersection Z := intersection_partialeq.
#[global] Instance bool_intersection : Intersection bool := intersection_partialeq.
#[global] Instance TransportProtocol_intersection : Intersection TransportProtocol := intersection_partialeq.
#[global] Instance IpVersion_intersection : Intersection IpVersion := intersection_partialeq.
#[global] Instance TunnelType_eq_dec : EqDecision TunnelType.
Proof. solve_decision. Defined.
#[global] Instance TunnelType_intersection : Intersection TunnelType := intersection_partialeq.

(** The field-wise intersection that the derive macro generates, on pairs. *)
#[global] Instance prod_intersection `{Intersection A, Intersection B} : Intersection (A * B) :=
  λ self other,
    a ← intersection self.1 other.1;
    b ← intersection self.2 other.2;
    Some (a, b).

(** ** The laws *)

(** Intersecting a possibly empty set with a constraint. *)
Notation "o ∩? z" := (o ≫= λ xy, intersection xy z) (at level 40, left associativity).

(** [Commutes] is separate: one implementation of the repository is commutative
    and nothing else. *)
Class Commutes (T : Type) `{Intersection T} : Prop :=
  intersection_comm (x y : T) : intersection x y = intersection y x.

Class Lawful (T : Type) `{Intersection T} : Prop := {
  lawful_comm :: Commutes T;
  intersection_idemp (x : T) : intersection x x = Some x;
  intersection_assoc (x y z : T) : intersection x y ∩? z = intersection y z ∩? x
}.

Lemma partialeq_lawful `{EqDecision T} : @Lawful T intersection_partialeq.
Proof.
  unfold intersection_partialeq. split; [intros x y|intros x|intros x y z];
    unfold intersection; repeat (case_decide; subst; cbn); congruence.
Qed.

#[global] Instance Z_lawful : Lawful Z := partialeq_lawful.
#[global] Instance bool_lawful : Lawful bool := partialeq_lawful.
#[global] Instance TransportProtocol_lawful : Lawful TransportProtocol := partialeq_lawful.
#[global] Instance IpVersion_lawful : Lawful IpVersion := partialeq_lawful.
#[global] Instance TunnelType_lawful : Lawful TunnelType := partialeq_lawful.

Lemma only_inter `{Intersection T} (x y : T) : intersection (Only x) (Only y) = Only <$> intersection x y.
Proof. done. Qed.

Lemma any_inter `{Intersection T} (x : Constraint T) : intersection Any x = Some x ∧ intersection x Any = Some x.
Proof. by destruct x. Qed.

#[global] Instance Constraint_commutes `{Commutes T} : Commutes (Constraint T).
Proof. intros [|x] [|y]; try done. by rewrite !only_inter, intersection_comm. Qed.

#[global] Instance Constraint_lawful `{Lawful T} : Lawful (Constraint T).
Proof.
  split; [apply _| |].
  - intros [|x]; [done|]. by rewrite only_inter, intersection_idemp.
  - intros [|x] [|y] [|z]; try done.
    + rewrite (proj1 (any_inter (Only y))). cbn. rewrite !only_inter. by destruct (intersection y z).
    + rewrite (proj2 (any_inter (Only x))), (proj1 (any_inter (Only z))). cbn. by rewrite !only_inter, intersection_comm.
    + rewrite (proj2 (any_inter (Only y))), only_inter. cbn. rewrite only_inter, (intersection_comm y x).
      by destruct (intersection x y).
    + rewrite !only_inter. pose proof (intersection_assoc x y z) as E.
      destruct (intersection x y), (intersection y z); cbn in *; rewrite ?only_inter, ?E; try done. by rewrite <- E.
Qed.

Lemma pair_inter `{Intersection A, Intersection B} (x y : A * B) :
  intersection x y = a ← intersection x.1 y.1; b ← intersection x.2 y.2; Some (a, b).
Proof. done. Qed.

#[global] Instance prod_commutes `{Commutes A, Commutes B} : Commutes (A * B).
Proof. intros x y. rewrite !pair_inter, (intersection_comm x.1), (intersection_comm x.2). done. Qed.

(** Associativity at three elements. *)
Definition assoc_at `{Intersection T} (x y z : T) : Prop := intersection x y ∩? z = intersection y z ∩? x.

Lemma prod_assoc_at `{Intersection A, Intersection B} (x y z : A * B) :
  assoc_at x.1 y.1 z.1 → assoc_at x.2 y.2 z.2 → assoc_at x y z.
Proof.
  destruct x as [x1 x2], y as [y1 y2], z as [z1 z2]. unfold assoc_at. cbn. intros E1 E2. rewrite !pair_inter. cbn.
  destruct (intersection x1 y1), (intersection x2 y2), (intersection y1 z1), (intersection y2 z2);
    cbn in E1, E2 |- *; rewrite ?pair_inter; cbn;
    repeat match goal with |- context [intersection ?a ?b] => destruct (intersection a b) eqn:?; cbn end;
    congruence.
Qed.

#[global] Instance prod_lawful `{Lawful A, Lawful B} : Lawful (A * B).
Proof.
  split; [apply _| |].
  - intros [a b]. rewrite pair_inter. cbn. by rewrite !intersection_idemp.
  - intros x y z. apply prod_assoc_at; apply intersection_assoc.
Qed.

(** A record with a derived intersection is its tuple of fields. *)
Section Iso.
Context `{Intersection A, Intersection B} (to : A → B) (from : B → A).
Hypothesis from_to : ∀ a, from (to a) = a.
Hypothesis to_from : ∀ b, to (from b) = b.
Hypothesis derived : ∀ x y, intersection x y = from <$> intersection (to x) (to y).

Lemma commutes_iso : Commutes B → Commutes A.
Proof using derived. intros ? x y. by rewrite !derived, intersection_comm. Qed.

Lemma assoc_iso x y z : assoc_at (to x) (to y) (to z) → assoc_at x y z.
Proof using derived to_from.
  unfold assoc_at. rewrite !derived. intros E.
  destruct (intersection (to x) (to y)), (intersection (to y) (to z)); cbn in *;
    rewrite ?derived, ?to_from; rewrite ?E; cbn; try done. by rewrite <- E.
Qed.

Lemma lawful_iso : Lawful B → Lawful A.
Proof using derived from_to to_from.
  intros L. split; [apply commutes_iso, _| |].
  - intros x. by rewrite derived, intersection_idemp; cbn; rewrite from_to.
  - intros x y z. apply assoc_iso, intersection_assoc.
Qed.
End Iso.
