(* ===== verification/RelayTypes.v ===== *)
(** * Relays and constraints (mullvad-types)

    location.rs, relay_list.rs, relay_constraints.rs and the
    parts of wireguard.rs, custom_tunnel.rs and endpoint.rs that the relay
    selector works with.  A 64-bit float is kept as its bit pattern; a UUID is a
    number; a public key is its bytes.  Sets are finite sets when only their
    elements matter ([Providers], the locations of a custom list) and lists in
    their iteration order when one is picked by position. *)

From S2P Require Import Prelude NetTypes Constraints.

(** ** location.rs *)

Record Location : Set := {
  country : string;
  country_code : string;
  city : string;
  city_code : string;
  latitude : Z;
  longitude : Z
}.
Record Coordinates : Set := { co_latitude : Z; co_longitude : Z }.

Definition Coordinates_from (l : Location) : Coordinates :=
  {| co_latitude := latitude l; co_longitude := longitude l |}.
Definition has_same_city (l other : Location) : bool :=
  bool_decide (country_code l = country_code other) && bool_decide (city_code l = city_code other).

(** ** relay_list.rs *)

Module relay.
Record Quic : Set := { addr_in : list IpAddr; token : string; domain : string }.

Definition in_ipv4 (q : Quic) : list Z :=
  omap (λ a, match a with AddrV4 ip => Some ip | AddrV6 _ => None end) (addr_in q).
Definition in_ipv6 (q : Quic) : list Z :=
  omap (λ a, match a with AddrV4 _ => None | AddrV6 ip => Some ip end) (addr_in q).
Definition quic_port : Z := 443.

Record WireguardRelayEndpointData : Set := {
  public_key : list Z;
  daita : bool;
  quic : option Quic;
  lwo : bool;
  shadowsocks_extra_addr_in : list IpAddr
}.
Inductive RelayEndpointData : Set :=
| EdOpenvpn
| EdBridge
| EdWireguard (data : WireguardRelayEndpointData).

Record Relay : Set := {
  hostname : string;
  ipv4_addr_in : Z;
  ipv6_addr_in : option Z;
  overridden_ipv4 : bool;
  overridden_ipv6 : bool;
  include_in_country : bool;
  active : bool;
  owned : bool;
  provider : string;
  weight : Z;
  endpoint_data : RelayEndpointData;
  location : Location
}.

(** [PartialEq for Relay]: relays are identified by their host names. *)
Definition relay_eqb (r other : Relay) : bool := bool_decide (hostname r = hostname other).

Definition wireguard_data (r : Relay) : option WireguardRelayEndpointData :=
  match endpoint_data r with
  | EdWireguard data => Some data
  | EdOpenvpn | EdBridge => None
  end.
Definition is_wireguard (r : Relay) : bool :=
  match endpoint_data r with EdWireguard _ => true | _ => false end.
Definition is_openvpn (r : Relay) : bool :=
  match endpoint_data r with EdOpenvpn => true | _ => false end.

Definition override_ipv4 (new_ipv4 : Z) (r : Relay) : Relay := {|
  hostname := hostname r; ipv4_addr_in := new_ipv4; ipv6_addr_in := ipv6_addr_in r;
  overridden_ipv4 := true; overridden_ipv6 := overridden_ipv6 r;
  include_in_country := include_in_country r; active := active r; owned := owned r;
  provider := provider r; weight := weight r; endpoint_data := endpoint_data r; location := location r |}.
Definition override_ipv6 (new_ipv6 : Z) (r : Relay) : Relay := {|
  hostname := hostname r; ipv4_addr_in := ipv4_addr_in r; ipv6_addr_in := Some new_ipv6;
  overridden_ipv4 := overridden_ipv4 r; overridden_ipv6 := true;
  include_in_country := include_in_country r; active := active r; owned := owned r;
  provider := provider r; weight := weight r; endpoint_data := endpoint_data r; location := location r |}.
Definition set_endpoint_data (d : RelayEndpointData) (r : Relay) : Relay := {|
  hostname := hostname r; ipv4_addr_in := ipv4_addr_in r; ipv6_addr_in := ipv6_addr_in r;
  overridden_ipv4 := overridden_ipv4 r; overridden_ipv6 := overridden_ipv6 r;
  include_in_country := include_in_country r; active := active r; owned := owned r;
  provider := provider r; weight := weight r; endpoint_data := d; location := location r |}.
Definition set_relay_location (l : Location) (r : Relay) : Relay := {|
  hostname := hostname r; ipv4_addr_in := ipv4_addr_in r; ipv6_addr_in := ipv6_addr_in r;
  overridden_ipv4 := overridden_ipv4 r; overridden_ipv6 := overridden_ipv6 r;
  include_in_country := include_in_country r; active := active r; owned := owned r;
  provider := provider r; weight := weight r; endpoint_data := endpoint_data r; location := l |}.
End relay.
Import relay.

(** An inclusive range of ports. *)
Record PortRange : Set := { range_start : Z; range_end : Z }.
Definition range_contains (r : PortRange) (port : Z) : bool :=
  (range_start r <=? port) && (port <=? range_end r).

Record OpenVpnEndpoint : Set := { ovpn_port : Z; ovpn_protocol : TransportProtocol }.
Record WireguardEndpointData : Set := {
  port_ranges : list PortRange;
  wg_ipv4_gateway : Z;
  wg_ipv6_gateway : Z;
  shadowsocks_port_ranges : list PortRange;
  udp2tcp_ports : list Z
}.
Definition WireguardEndpointData_default : WireguardEndpointData := {|
  port_ranges := []; wg_ipv4_gateway := 0; wg_ipv6_gateway := 0;
  shadowsocks_port_ranges := []; udp2tcp_ports := [] |}.

Record ShadowsocksEndpointData : Set := {
  ss_port : Z;
  ss_cipher : string;
  ss_password : string;
  ss_protocol : TransportProtocol
}.
(** [talpid_types::net::proxy::Shadowsocks]. *)
Record ShadowsocksProxy : Set := {
  sp_endpoint : SocketAddr;
  sp_password : string;
  sp_cipher : string
}.
Definition to_proxy_settings (d : ShadowsocksEndpointData) (addr : IpAddr) : ShadowsocksProxy :=
  {| sp_endpoint := SocketAddr_new addr (ss_port d); sp_password := ss_password d; sp_cipher := ss_cipher d |}.

Record RelayListCity : Set := {
  city_name : string;
  city_code_ : string;
  city_latitude : Z;
  city_longitude : Z;
  city_relays : list Relay
}.
Record RelayListCountry : Set := {
  country_name : string;
  country_code_ : string;
  cities : list RelayListCity
}.
Record RelayList : Set := {
  etag : option string;
  countries : list RelayListCountry;
  openvpn_ports : list OpenVpnEndpoint;
  bridge_shadowsocks : list ShadowsocksEndpointData;
  wireguard_endpoints : WireguardEndpointData
}.
Definition RelayList_empty : RelayList := {|
  etag := None; countries := []; openvpn_ports := []; bridge_shadowsocks := [];
  wireguard_endpoints := WireguardEndpointData_default |}.

Definition lookup_country (l : RelayList) (code : string) : option RelayListCountry :=
  List.find (λ c, bool_decide (country_code_ c = code)) (countries l).
Definition lookup_country_code_by_name (l : RelayList) (name : string) : option string :=
  country_code_ <$> List.find (λ c, bool_decide (country_name c = name)) (countries l).
Definition lookup_city (c : RelayListCountry) (code : string) : option RelayListCity :=
  List.find (λ c, bool_decide (city_code_ c = code)) (cities c).
Definition relays (l : RelayList) : list Relay :=
  flat_map (λ c, flat_map city_relays (cities c)) (countries l).

(** ** relay_constraints.rs *)

Inductive GeographicLocationConstraint : Set :=
| GCountry (country : string)
| GCity (country city : string)
| GHostname (country city hostname : string).

#[global] Instance Geo_eq_dec : EqDecision GeographicLocationConstraint.
Proof. solve_decision. Defined.
#[global] Instance Geo_countable : Countable GeographicLocationConstraint.
Proof.
  refine (inj_countable'
    (λ g, match g with
          | GCountry c => inl c
          | GCity c d => inr (inl (c, d))
          | GHostname c d h => inr (inr (c, d, h))
          end)
    (λ s, match s with
          | inl c => GCountry c
          | inr (inl (c, d)) => GCity c d
          | inr (inr (c, d, h)) => GHostname c d h
          end) _).
  by intros [].
Defined.

Definition is_country (g : GeographicLocationConstraint) : bool :=
  match g with GCountry _ => true | _ => false end.
Definition get_hostname (g : GeographicLocationConstraint) : option string :=
  match g with GHostname _ _ h => Some h | _ => None end.

Definition geo_matches (g : GeographicLocationConstraint) (r : Relay) : bool :=
  let loc := location r in
  match g with
  | GCountry country => bool_decide (country_code loc = country)
  | GCity country city => bool_decide (country_code loc = country) && bool_decide (city_code loc = city)
  | GHostname country city host =>
      bool_decide (country_code loc = country) && bool_decide (city_code loc = city) &&
      bool_decide (hostname r = host)
  end.

Inductive LocationConstraint : Set :=
| LcLocation (location : GeographicLocationConstraint)
| LcCustomList (list_id : Z).
Inductive Ownership : Set := MullvadOwned | Rented.
Record Providers : Set := { providers_set : gset string }.

#[global] Instance LocationConstraint_eq_dec : EqDecision LocationConstraint.
Proof. solve_decision. Defined.
#[global] Instance Ownership_eq_dec : EqDecision Ownership.
Proof. solve_decision. Defined.
#[global] Instance Providers_eq_dec : EqDecision Providers.
Proof. solve_decision. Defined.
#[global] Instance LocationConstraint_intersection : Intersection LocationConstraint := intersection_partialeq.
#[global] Instance Ownership_intersection : Intersection Ownership := intersection_partialeq.
#[global] Instance Providers_intersection : Intersection Providers := intersection_partialeq.

Definition ownership_matches (o : Ownership) (r : Relay) : bool :=
  match o with MullvadOwned => owned r | Rented => negb (owned r) end.

(** [Providers::new] refuses an empty iterator. *)
Definition Providers_new (ps : list string) : result unit Providers :=
  let providers := {| providers_set := list_to_set ps |} in
  if decide (providers_set providers = ∅) then Err tt else Ok providers.
Definition providers_matches (p : Providers) (r : Relay) : bool :=
  bool_decide (provider r ∈ providers_set p).

Record TransportPort : Set := { tp_protocol : TransportProtocol; tp_port : Constraint Z }.
Record OpenVpnConstraints : Set := { oc_port : Constraint TransportPort }.

Record AllowedIps : Set := { allowed_nets : list IpNetwork }.
#[global] Instance TransportPort_eq_dec : EqDecision TransportPort.
Proof. solve_decision. Defined.
#[global] Instance AllowedIps_eq_dec : EqDecision AllowedIps.
Proof. solve_decision. Defined.
#[global] Instance AllowedIps_intersection : Intersection AllowedIps := intersection_partialeq.
#[global] Instance TransportPort_intersection : Intersection TransportPort := λ self other,
  protocol ← intersection (tp_protocol self) (tp_protocol other);
  port ← intersection (tp_port self) (tp_port other);
  Some {| tp_protocol := protocol; tp_port := port |}.

(** [mod allowed_ip]. *)
Definition AllowedIps_allow_all : AllowedIps := {| allowed_nets := [NetV4 0 0; NetV6 0 0] |}.
Definition to_constraint (a : AllowedIps) : Constraint AllowedIps :=
  match allowed_nets a with [] => Any | _ => Only a end.
Definition allowed_ips_resolve (a : AllowedIps) (host_ipv4 host_ipv6 : option Z) : list IpNetwork :=
  let networks := allowed_nets a in
  let networks := match host_ipv6 with Some ip => networks ++ [NetV6 ip 128] | None => networks end in
  match host_ipv4 with Some ip => networks ++ [NetV4 ip 32] | None => networks end.
Definition resolve_from_constraint (c : Constraint AllowedIps) (host_ipv4 host_ipv6 : option Z) : list IpNetwork :=
  allowed_ips_resolve
    (match c with
     | Any => AllowedIps_allow_all
     | Only ips => match allowed_nets ips with [] => AllowedIps_allow_all | _ => ips end
     end) host_ipv4 host_ipv6.

Record WireguardConstraints : Set := {
  wc_port : Constraint Z;
  wc_ip_version : Constraint IpVersion;
  wc_allowed_ips : Constraint AllowedIps;
  wc_use_multihop : bool;
  wc_entry_location : Constraint LocationConstraint
}.
Record RelayConstraints : Set := {
  rc_location : Constraint LocationConstraint;
  rc_providers : Constraint Providers;
  rc_ownership : Constraint Ownership;
  rc_tunnel_protocol : TunnelType;
  rc_wireguard_constraints : WireguardConstraints;
  rc_openvpn_constraints : OpenVpnConstraints
}.

(** custom_tunnel.rs. *)
Inductive CustomConnectionConfig : Set :=
| CcOpenVpn (config : openvpn.ConnectionConfig)
| CcWireguard (config : wireguard.ConnectionConfig).
Record CustomTunnelEndpoint : Set := { ct_host : string; ct_config : CustomConnectionConfig }.
Definition CustomTunnelEndpoint_endpoint (c : CustomTunnelEndpoint) : Endpoint :=
  match ct_config c with
  | CcOpenVpn config => openvpn.endpoint config
  | CcWireguard config => wireguard.get_endpoint config
  end.

Inductive RelaySettings : Set :=
| RsCustomTunnelEndpoint (e : CustomTunnelEndpoint)
| RsNormal (c : RelayConstraints).

Definition supports_bridge (s : RelaySettings) : bool :=
  match s with
  | RsCustomTunnelEndpoint e => bool_decide (protocol (CustomTunnelEndpoint_endpoint e) = Tcp)
  | RsNormal update =>
      match oc_port (rc_openvpn_constraints update) with
      | Only {| tp_protocol := Udp |} => false
      | _ => true
      end
  end.

Record Udp2TcpObfuscationSettings : Set := { u2t_port : Constraint Z }.
Record ShadowsocksSettings : Set := { sss_port : Constraint Z }.
Inductive SelectedObfuscation : Set := SelAuto | SelOff | SelUdp2Tcp | SelShadowsocks | SelQuic | SelLwo.
Record ObfuscationSettings : Set := {
  selected_obfuscation : SelectedObfuscation;
  os_udp2tcp : Udp2TcpObfuscationSettings;
  os_shadowsocks : ShadowsocksSettings
}.
Definition ObfuscationSettings_default : ObfuscationSettings := {|
  selected_obfuscation := SelAuto; os_udp2tcp := {| u2t_port := Any |}; os_shadowsocks := {| sss_port := Any |} |}.

#[global] Instance Udp2Tcp_eq_dec : EqDecision Udp2TcpObfuscationSettings.
Proof. solve_decision. Defined.
#[global] Instance ShadowsocksSettings_eq_dec : EqDecision ShadowsocksSettings.
Proof. solve_decision. Defined.
#[global] Instance SelectedObfuscation_eq_dec : EqDecision SelectedObfuscation.
Proof. solve_decision. Defined.
#[global] Instance Udp2Tcp_intersection : Intersection Udp2TcpObfuscationSettings := λ self other,
  port ← intersection (u2t_port self) (u2t_port other); Some {| u2t_port := port |}.
#[global] Instance ShadowsocksSettings_intersection : Intersection ShadowsocksSettings := λ self other,
  port ← intersection (sss_port self) (sss_port other); Some {| sss_port := port |}.
#[global] Instance SelectedObfuscation_intersection : Intersection SelectedObfuscation := λ self other,
  match self, other with
  | l, SelAuto => Some l
  | SelAuto, r => Some r
  | l, r => if decide (l = r) then Some l else None
  end.

Inductive BridgeType : Set := BtNormal | BtCustom.
Inductive BridgeState : Set := BsAuto | BsOn | BsOff.
Record BridgeConstraints : Set := {
  bc_location : Constraint LocationConstraint;
  bc_providers : Constraint Providers;
  bc_ownership : Constraint Ownership
}.
Definition BridgeConstraints_default : BridgeConstraints :=
  {| bc_location := Any; bc_providers := Any; bc_ownership := Any |}.
Record BridgeSettings : Set := {
  bridge_type : BridgeType;
  bs_normal : BridgeConstraints;
  bs_custom : option CustomProxy
}.
Definition BridgeSettings_default : BridgeSettings :=
  {| bridge_type := BtNormal; bs_normal := BridgeConstraints_default; bs_custom := None |}.
Record InternalBridgeConstraints : Set := {
  ib_location : Constraint LocationConstraint;
  ib_providers : Constraint Providers;
  ib_ownership : Constraint Ownership;
  ib_transport_protocol : Constraint TransportProtocol
}.

#[global] Instance BridgeConstraints_eq_dec : EqDecision BridgeConstraints.
Proof. solve_decision. Defined.
#[global] Instance SocksAuth_eq_dec : EqDecision SocksAuth.
Proof. solve_decision. Defined.
#[global] Instance CustomProxy_eq_dec : EqDecision CustomProxy.
Proof. solve_decision. Defined.
#[global] Instance BridgeConstraints_intersection : Intersection BridgeConstraints := λ self other,
  location ← intersection (bc_location self) (bc_location other);
  providers ← intersection (bc_providers self) (bc_providers other);
  ownership ← intersection (bc_ownership self) (bc_ownership other);
  Some {| bc_location := location; bc_providers := providers; bc_ownership := ownership |}.

Inductive ResolvedBridgeSettings : Set :=
| RbNormal (c : BridgeConstraints)
| RbCustom (p : CustomProxy).
Definition bridge_settings_resolve (s : BridgeSettings) : result unit ResolvedBridgeSettings :=
  match bridge_type s, bs_custom s with
  | BtNormal, _ => Ok (RbNormal (bs_normal s))
  | BtCustom, Some custom => Ok (RbCustom custom)
  | BtCustom, None => Err tt
  end.

Record RelayOverride : Set := {
  ro_hostname : string;
  ro_ipv4_addr_in : option Z;
  ro_ipv6_addr_in : option Z
}.
#[global] Instance RelayOverride_eq_dec : EqDecision RelayOverride.
Proof. solve_decision. Defined.
Definition RelayOverride_empty (hostname : string) : RelayOverride :=
  {| ro_hostname := hostname; ro_ipv4_addr_in := None; ro_ipv6_addr_in := None |}.
Definition override_is_empty (o : RelayOverride) : bool := bool_decide (o = RelayOverride_empty (ro_hostname o)).

Definition addr_is_ipv4 (a : IpAddr) : bool := match a with AddrV4 _ => true | AddrV6 _ => false end.

Definition apply_to_relay (o : RelayOverride) (r : Relay) : Relay :=
  let r := match ro_ipv4_addr_in o with Some ip => override_ipv4 ip r | None => r end in
  let r := match ro_ipv6_addr_in o with Some ip => override_ipv6 ip r | None => r end in
  match endpoint_data r with
  | EdWireguard data =>
      let keep addr :=
        let not_overridden_v4 := bool_decide (ro_ipv4_addr_in o = None) && addr_is_ipv4 addr in
        let not_overridden_v6 := bool_decide (ro_ipv6_addr_in o = None) && negb (addr_is_ipv4 addr) in
        not_overridden_v4 || not_overridden_v6 in
      set_endpoint_data (EdWireguard {|
        public_key := public_key data; daita := daita data; quic := quic data; lwo := lwo data;
        shadowsocks_extra_addr_in := List.filter keep (shadowsocks_extra_addr_in data) |}) r
  | _ => r
  end.

(** ** wireguard.rs *)

Inductive QuantumResistantState : Set := QrAuto | QrOn | QrOff.
#[global] Instance QuantumResistantState_eq_dec : EqDecision QuantumResistantState.
Proof. solve_decision. Defined.
(** [QUANTUM_RESISTANT_AUTO_STATE] is true on all desktop platforms and Android. *)
Definition quantum_resistant_enabled (s : QuantumResistantState) : bool :=
  match s with QrAuto => true | QrOff => false | QrOn => true end.
#[global] Instance QuantumResistantState_intersection : Intersection QuantumResistantState := λ self other,
  match self, other with
  | QrAuto, other | other, QrAuto => Some other
  | val0, val1 => if decide (val0 = val1) then Some val0 else None
  end.

(** endpoint.rs. *)
Record MullvadWireguardEndpoint : Set := {
  mw_peer : wireguard.PeerConfig;
  mw_exit_peer : option wireguard.PeerConfig;
  mw_ipv4_gateway : Z;
  mw_ipv6_gateway : Z
}.
