(* ===== verification/CustomLists.v ===== *)
(** * Custom lists of locations (mullvad-types/src/custom_list.rs)

    The operations on [CustomListsSettings] and what they keep: the identifiers
    of the lists are distinct, and so are their names.  The identifier of a new
    list is drawn by the `uuid` crate and is an argument. *)

From S2P Require Import Prelude NetTypes Constraints RelayTypes.

Definition CUSTOM_LIST_NAME_MAX_SIZE : nat := 30.

Inductive Error : Set := NameTooLong | DuplicateName | ListNotFound | ListExists.

Record CustomList : Set := {
  id : Z;
  name : string;
  locations : gset GeographicLocationConstraint
}.
Notation CustomListsSettings := (list CustomList).

(** [char]s are counted, not bytes: [chars] decodes the name. *)
Definition CustomList_with_id (id : Z) : CustomList :=
  {| id := id; name := ""; locations := ∅ |}.
Definition CustomList_new (chars : string → nat) (new_v4 : Z) (name : string) : result Error CustomList :=
  if (CUSTOM_LIST_NAME_MAX_SIZE <? chars name)%nat then Err NameTooLong
  else
    let custom_list := CustomList_with_id new_v4 in
    Ok {| id := id custom_list; name := name; locations := locations custom_list |}.
Definition append (l : CustomList) (locs : gset GeographicLocationConstraint) : CustomList :=
  {| id := id l; name := name l; locations := locations l ∪ locs |}.

Definition check_list_name_is_unique (s : CustomListsSettings) (new_list : CustomList) : result Error unit :=
  if existsb (λ l, bool_decide (name l = name new_list) && negb (bool_decide (id l = id new_list))) s
  then Err DuplicateName else Ok tt.
Definition check_if_id_is_unique (s : CustomListsSettings) (new_list : CustomList) : result Error unit :=
  if existsb (λ l, bool_decide (id l = id new_list)) s then Err ListExists else Ok tt.
Definition find_list_index (s : CustomListsSettings) (list_id : Z) : option nat :=
  fst <$> list_find (λ l, id l = list_id) s.

Definition add (new_list : CustomList) (s : CustomListsSettings) : result Error CustomListsSettings :=
  _ ← check_if_id_is_unique s new_list;
  _ ← check_list_name_is_unique s new_list;
  Ok (s ++ [new_list]).
Definition remove (list_id : Z) (s : CustomListsSettings) : result Error CustomListsSettings :=
  match find_list_index s list_id with
  | None => Err ListNotFound
  | Some list_index => Ok (delete list_index s)
  end.
Definition clear (s : CustomListsSettings) : CustomListsSettings := [].
Definition update (new_list : CustomList) (s : CustomListsSettings) : result Error CustomListsSettings :=
  match find_list_index s (id new_list) with
  | None => Err ListNotFound
  | Some list_index =>
      _ ← check_list_name_is_unique s new_list;
      Ok (<[list_index := new_list]> s)
  end.

(** ** The invariant *)

Record lists_inv (s : CustomListsSettings) : Prop := {
  li_ids : NoDup (id <$> s);
  li_names : NoDup (name <$> s)
}.

Inductive Operation : Set := OpAdd (l : CustomList) | OpRemove (i : Z) | OpClear | OpUpdate (l : CustomList).
Definition apply_op (o : Operation) (s : CustomListsSettings) : result Error CustomListsSettings :=
  match o with
  | OpAdd l => add l s
  | OpRemove i => remove i s
  | OpClear => Ok (clear s)
  | OpUpdate l => update l s
  end.

(** A failed operation leaves the settings as they were. *)
Definition after (s : CustomListsSettings) (o : Operation) : CustomListsSettings :=
  match apply_op o s with Ok s' => s' | Err _ => s end.

Lemma name_unique_ok s l :
  check_list_name_is_unique s l = Ok tt ↔ ∀ k, k ∈ s → name k = name l → id k = id l.
Proof.
  unfold check_list_name_is_unique. destruct (existsb _ s) eqn:E.
  - split; [done|]. apply existsb_exists in E as (k & Hk & E). bool_to_prop.
    intros Hall. rewrite <- list_elem_of_In in Hk. naive_solver.
  - split; [|done]. intros _ k Hk Hn. destruct (decide (id k = id l)) as [|Hne]; [done|].
    exfalso. revert E. apply not_false_iff_true. apply existsb_exists.
    exists k. rewrite <- list_elem_of_In. split; [done|].
    rewrite andb_true_iff, negb_true_iff, bool_decide_eq_true, bool_decide_eq_false. done.
Qed.

Lemma id_unique_ok s l : check_if_id_is_unique s l = Ok tt ↔ id l ∉ id <$> s.
Proof.
  unfold check_if_id_is_unique. destruct (existsb _ s) eqn:E.
  - split; [done|]. apply existsb_exists in E as (k & Hk & ?%bool_decide_eq_true).
    intros []. apply list_elem_of_fmap. exists k. rewrite list_elem_of_In. done.
  - split; [|done]. intros _ (k & Hk & Hin)%list_elem_of_fmap.
    revert E. apply not_false_iff_true, existsb_exists. exists k.
    rewrite <- list_elem_of_In, bool_decide_eq_true. done.
Qed.

Lemma find_index_some s i k :
  find_list_index s i = Some k → ∃ l, s !! k = Some l ∧ id l = i.
Proof.
  unfold find_list_index. destruct (list_find _ s) as [[j l]|] eqn:E; [|done].
  intros [= <-]. apply list_find_Some in E as (? & ? & _). eauto.
Qed.

Lemma find_index_none s i : find_list_index s i = None ↔ i ∉ id <$> s.
Proof.
  unfold find_list_index. rewrite fmap_None, list_find_None, Forall_forall. split.
  - intros H (l & -> & Hl)%list_elem_of_fmap. by apply (H l).
  - intros H l Hl <-. apply H. apply list_elem_of_fmap. eauto.
Qed.

Lemma NoDup_delete {A} (l : list A) i : NoDup l → NoDup (delete i l).
Proof. intros H. eapply sublist_NoDup; [done|apply sublist_delete]. Qed.

(** Replacing one element by a fresh one keeps the elements distinct. *)
Lemma NoDup_insert {A} (l : list A) i (y : A) :
  NoDup l → (∀ j, l !! j = Some y → j = i) → NoDup (<[i := y]> l).
Proof.
  intros Hl Hy. apply NoDup_alt. intros j k x Hj Hk.
  destruct (decide (i < length l)%nat) as [Hlt|]; [|rewrite !list_insert_ge in Hj, Hk by lia].
  2: { by eapply NoDup_lookup. }
  destruct (decide (j = i)) as [->|Hji], (decide (k = i)) as [->|Hki]; [done|..].
  - rewrite list_lookup_insert_eq in Hj by done. rewrite list_lookup_insert_ne in Hk by done.
    simplify_eq. symmetry. by apply Hy.
  - rewrite list_lookup_insert_eq in Hk by done. rewrite list_lookup_insert_ne in Hj by done.
    simplify_eq. by apply Hy.
  - rewrite !list_lookup_insert_ne in Hj, Hk by done. by eapply NoDup_lookup.
Qed.

Lemma add_inv s l s' : lists_inv s → add l s = Ok s' → lists_inv s'.
Proof.
  intros [Hi Hn] H. unfold add in H. apply result_bind_ok in H as ([] & Hid & H).
  apply result_bind_ok in H as ([] & Hna & [= <-]).
  rewrite id_unique_ok in Hid. rewrite name_unique_ok in Hna.
  split; rewrite fmap_app; apply NoDup_app; (split; [done|]); (split; [|apply NoDup_singleton]);
    intros x Hx ->%list_elem_of_singleton; [done|].
  apply list_elem_of_fmap in Hx as (k & E & Hk). apply Hid, list_elem_of_fmap.
  exists k. split; [symmetry; by apply Hna|done].
Qed.

Lemma update_inv s l s' : lists_inv s → update l s = Ok s' → lists_inv s'.
Proof.
  intros [Hi Hn] H. unfold update in H.
  destruct (find_list_index s (id l)) as [k|] eqn:Ek; [|done].
  apply find_index_some in Ek as (l0 & Hk & Hid).
  apply result_bind_ok in H as ([] & Hna & [= <-]). rewrite name_unique_ok in Hna.
  assert (∀ j l1, s !! j = Some l1 → id l1 = id l → j = k) as Hsame.
  { intros j l1 Hj E. apply (NoDup_lookup (id <$> s) j k (id l)); [done| |];
      apply list_lookup_fmap_Some; [exists l1|exists l0]; rewrite ?E, ?Hid; done. }
  split; rewrite list_fmap_insert; apply NoDup_insert; try done; intros j Hj;
    rewrite list_lookup_fmap in Hj; destruct (s !! j) as [l1|] eqn:E; simplify_eq/=.
  - by eapply Hsame.
  - eapply Hsame; [done|]. apply Hna; [|done]. by eapply list_elem_of_lookup_2.
Qed.

Lemma apply_op_inv s o s' : lists_inv s → apply_op o s = Ok s' → lists_inv s'.
Proof.
  intros Hs. destruct o; cbn; [by apply add_inv| | |by apply update_inv].
  - unfold remove. destruct (find_list_index s i); [|done]. intros [= <-]. destruct Hs.
    split; rewrite list_fmap_delete; by apply NoDup_delete.
  - intros [= <-]. split; apply NoDup_nil_2.
Qed.

(** Whatever sequence of additions, removals, updates and clearings is made,
    starting from no lists, the identifiers of the custom lists stay distinct and
    so do their names; and an operation fails exactly when it should: adding on
    a taken identifier or name, removing or updating an unknown identifier,
    renaming to the name of another list. *)
Theorem custom_lists_consistent (ops : list Operation) (l : CustomList) :
  let s := foldl after [] ops in
  lists_inv s ∧
  (is_ok (add l s) = true ↔ id l ∉ id <$> s ∧ name l ∉ name <$> s) ∧
  (is_ok (remove (id l) s) = true ↔ id l ∈ id <$> s) ∧
  (is_ok (update l s) = true ↔ id l ∈ id <$> s ∧ ∀ k, k ∈ s → name k = name l → id k = id l).
Proof.
  intros s. assert (lists_inv s) as Hs.
  { subst s. assert (lists_inv []) as H by (split; apply NoDup_nil_2). revert H.
    generalize (@nil CustomList) as s. induction ops as [|o ops IH]; intros s Hs; cbn; [done|].
    apply IH. unfold after. destruct (apply_op o s) eqn:E; [by eapply apply_op_inv|done]. }
  split; [done|]. unfold add, remove, update.
  assert (∀ i, i ∈ id <$> s ↔ ∃ k, find_list_index s i = Some k) as Hfind.
  { intros i. destruct (decide (i ∈ id <$> s)) as [H|H].
    - destruct (find_list_index s i) eqn:E; [naive_solver|]. by apply find_index_none in E.
    - split; [done|]. intros [k E]. apply find_index_none in H. congruence. }
  split_and!.
  - destruct (check_if_id_is_unique s l) as [[]|] eqn:E1; cbn.
    + apply id_unique_ok in E1. destruct (check_list_name_is_unique s l) as [[]|] eqn:E2; cbn.
      * rewrite name_unique_ok in E2. split; [|done]. intros _. split; [done|].
        intros (k & En & Hk)%list_elem_of_fmap. apply E1, list_elem_of_fmap. exists k.
        split; [symmetry; by apply E2|done].
      * split; [done|]. intros [_ Hn]. exfalso. rewrite (proj2 (name_unique_ok s l)) in E2; [done|].
        intros k Hk En. destruct Hn. apply list_elem_of_fmap. eauto.
    + split; [done|]. intros [Hid _]. apply id_unique_ok in Hid. congruence.
  - rewrite Hfind. destruct (find_list_index s (id l)); cbn; naive_solver.
  - rewrite Hfind, <- name_unique_ok. destruct (find_list_index s (id l)); cbn; [|naive_solver].
    destruct (check_list_name_is_unique s l) as [[]|]; cbn; naive_solver.
Qed.
