(* ===== verification/RelayQuery.v ===== *)
(** * Relay queries (mullvad-relay-selector/src/relay_selector/query.rs)

    The queries, their validation and their intersection, the builders that make
    up the retry orders, and the mapping from the user's settings to a query
    (relay_selector/mod.rs).  The theorems say when an intersection respects the
    user's query, and which of the laws documented for [Intersection] it obeys. *)

From S2P Require Import Prelude NetTypes Constraints RelayTypes.

Inductive ObfuscationQuery : Set :=
| OqOff
| OqAuto
| OqUdp2tcp (settings : Udp2TcpObfuscationSettings)
| OqShadowsocks (settings : ShadowsocksSettings)
| OqQuic
| OqLwo.

Record WireguardRelayQuery : Set := {
  wq_port : Constraint Z;
  wq_ip_version : Constraint IpVersion;
  wq_allowed_ips : Constraint AllowedIps;
  wq_use_multihop : Constraint bool;
  wq_entry_location : Constraint LocationConstraint;
  wq_obfuscation : ObfuscationQuery;
  wq_daita : Constraint bool;
  wq_daita_use_multihop_if_necessary : Constraint bool;
  wq_quantum_resistant : QuantumResistantState
}.

Inductive BridgeQuery : Set :=
| BqOff
| BqAuto
| BqNormal (constraints : BridgeConstraints)
| BqCustom (custom : option CustomProxy).

Record OpenVpnRelayQuery : Set := {
  oq_port : Constraint TransportPort;
  oq_bridge_settings : BridgeQuery
}.

Record RelayQuery : Set := {
  q_location : Constraint LocationConstraint;
  q_providers : Constraint Providers;
  q_ownership : Constraint Ownership;
  q_tunnel_protocol : TunnelType;
  q_wireguard_constraints : WireguardRelayQuery;
  q_openvpn_constraints : OpenVpnRelayQuery
}.

#[global] Instance ObfuscationQuery_eq_dec : EqDecision ObfuscationQuery.
Proof. solve_decision. Defined.
#[global] Instance BridgeQuery_eq_dec : EqDecision BridgeQuery.
Proof. solve_decision. Defined.

(** ** Defaults *)

Definition WireguardRelayQuery_new : WireguardRelayQuery := {|
  wq_port := Any; wq_ip_version := Any; wq_allowed_ips := Any; wq_use_multihop := Any;
  wq_entry_location := Any; wq_obfuscation := OqAuto; wq_daita := Any;
  wq_daita_use_multihop_if_necessary := Any; wq_quantum_resistant := QrAuto |}.
Definition OpenVpnRelayQuery_new : OpenVpnRelayQuery := {| oq_port := Any; oq_bridge_settings := BqAuto |}.
Definition RelayQuery_default : RelayQuery := {|
  q_location := Any; q_providers := Any; q_ownership := Any; q_tunnel_protocol := Wireguard;
  q_wireguard_constraints := WireguardRelayQuery_new; q_openvpn_constraints := OpenVpnRelayQuery_new |}.

(** ** Setters of record fields *)

Definition set_q_location (l : Constraint LocationConstraint) (q : RelayQuery) : RelayQuery := {|
  q_location := l; q_providers := q_providers q; q_ownership := q_ownership q;
  q_tunnel_protocol := q_tunnel_protocol q; q_wireguard_constraints := q_wireguard_constraints q;
  q_openvpn_constraints := q_openvpn_constraints q |}.
Definition set_q_tunnel_protocol (t : TunnelType) (q : RelayQuery) : RelayQuery := {|
  q_location := q_location q; q_providers := q_providers q; q_ownership := q_ownership q;
  q_tunnel_protocol := t; q_wireguard_constraints := q_wireguard_constraints q;
  q_openvpn_constraints := q_openvpn_constraints q |}.
Definition set_q_wireguard (w : WireguardRelayQuery) (q : RelayQuery) : RelayQuery := {|
  q_location := q_location q; q_providers := q_providers q; q_ownership := q_ownership q;
  q_tunnel_protocol := q_tunnel_protocol q; q_wireguard_constraints := w;
  q_openvpn_constraints := q_openvpn_constraints q |}.
Definition set_q_openvpn (o : OpenVpnRelayQuery) (q : RelayQuery) : RelayQuery := {|
  q_location := q_location q; q_providers := q_providers q; q_ownership := q_ownership q;
  q_tunnel_protocol := q_tunnel_protocol q; q_wireguard_constraints := q_wireguard_constraints q;
  q_openvpn_constraints := o |}.
Definition set_wq_ip_version (v : Constraint IpVersion) (w : WireguardRelayQuery) : WireguardRelayQuery := {|
  wq_port := wq_port w; wq_ip_version := v; wq_allowed_ips := wq_allowed_ips w;
  wq_use_multihop := wq_use_multihop w; wq_entry_location := wq_entry_location w;
  wq_obfuscation := wq_obfuscation w; wq_daita := wq_daita w;
  wq_daita_use_multihop_if_necessary := wq_daita_use_multihop_if_necessary w;
  wq_quantum_resistant := wq_quantum_resistant w |}.
Definition set_wq_obfuscation (o : ObfuscationQuery) (w : WireguardRelayQuery) : WireguardRelayQuery := {|
  wq_port := wq_port w; wq_ip_version := wq_ip_version w; wq_allowed_ips := wq_allowed_ips w;
  wq_use_multihop := wq_use_multihop w; wq_entry_location := wq_entry_location w;
  wq_obfuscation := o; wq_daita := wq_daita w;
  wq_daita_use_multihop_if_necessary := wq_daita_use_multihop_if_necessary w;
  wq_quantum_resistant := wq_quantum_resistant w |}.
Definition set_wq_daita (d : Constraint bool) (w : WireguardRelayQuery) : WireguardRelayQuery := {|
  wq_port := wq_port w; wq_ip_version := wq_ip_version w; wq_allowed_ips := wq_allowed_ips w;
  wq_use_multihop := wq_use_multihop w; wq_entry_location := wq_entry_location w;
  wq_obfuscation := wq_obfuscation w; wq_daita := d;
  wq_daita_use_multihop_if_necessary := wq_daita_use_multihop_if_necessary w;
  wq_quantum_resistant := wq_quantum_resistant w |}.

(** ** Validation *)

Definition multihop (w : WireguardRelayQuery) : bool :=
  match wq_use_multihop w with Only true => true | _ => false end.

Definition core_privacy_feature_enabled (q : RelayQuery) : bool :=
  bool_decide (wq_daita (q_wireguard_constraints q) = Only true) ||
  multihop (q_wireguard_constraints q) ||
  bool_decide (wq_quantum_resistant (q_wireguard_constraints q) = QrOn).

(** [Error::InvalidConstraints] is the only error of validation. *)
Definition validate (q : RelayQuery) : option RelayQuery :=
  if core_privacy_feature_enabled q then
    if decide (q_tunnel_protocol q = OpenVpn) then None
    else Some (set_q_tunnel_protocol Wireguard q)
  else Some q.

Definition RelayQuery_new (location : Constraint LocationConstraint) (providers : Constraint Providers)
    (ownership : Constraint Ownership) (tunnel_protocol : TunnelType)
    (wireguard_constraints : WireguardRelayQuery) (openvpn_constraints : OpenVpnRelayQuery) : option RelayQuery :=
  validate {|
    q_location := location; q_providers := providers; q_ownership := ownership;
    q_tunnel_protocol := tunnel_protocol; q_wireguard_constraints := wireguard_constraints;
    q_openvpn_constraints := openvpn_constraints |}.

Definition set_if_valid (set_fn : RelayQuery → RelayQuery) (q : RelayQuery) : option RelayQuery :=
  validate (set_fn q).
Definition set_location (l : Constraint LocationConstraint) : RelayQuery → option RelayQuery :=
  set_if_valid (set_q_location l).
Definition set_tunnel_protocol (t : TunnelType) : RelayQuery → option RelayQuery :=
  set_if_valid (set_q_tunnel_protocol t).
Definition set_openvpn_constraints (o : OpenVpnRelayQuery) : RelayQuery → option RelayQuery :=
  set_if_valid (set_q_openvpn o).
Definition set_wireguard_constraints (w : WireguardRelayQuery) : RelayQuery → option RelayQuery :=
  set_if_valid (set_q_wireguard w).

(** [trait RelayQueryExt]. *)
Definition using_daita (q : RelayQuery) : bool :=
  is_only_and (wq_daita (q_wireguard_constraints q)) (λ enabled, enabled).
Definition use_multihop_if_necessary (q : RelayQuery) : bool :=
  bool_decide (is_Some (intersection (wq_daita_use_multihop_if_necessary (q_wireguard_constraints q)) (Only true))).
Definition singlehop (q : RelayQuery) : bool := negb (multihop (q_wireguard_constraints q)).

(** ** Intersection *)

#[global] Instance ObfuscationQuery_intersection : Intersection ObfuscationQuery := λ self other,
  match self, other with
  | OqOff, _ | _, OqOff => Some OqOff
  | OqAuto, other | other, OqAuto => Some other
  | OqUdp2tcp a, OqUdp2tcp b => s ← intersection a b; Some (OqUdp2tcp s)
  | OqShadowsocks a, OqShadowsocks b => s ← intersection a b; Some (OqShadowsocks s)
  | _, _ => None
  end.

#[global] Instance BridgeQuery_intersection : Intersection BridgeQuery := λ self other,
  match self, other with
  | BqNormal l, BqNormal r => c ← intersection l r; Some (BqNormal c)
  | BqAuto, r => Some r
  | l, BqAuto => Some l
  | l, r => if decide (l = r) then Some l else None
  end.

#[global] Instance WireguardRelayQuery_intersection : Intersection WireguardRelayQuery := λ self other,
  port ← intersection (wq_port self) (wq_port other);
  ip_version ← intersection (wq_ip_version self) (wq_ip_version other);
  allowed_ips ← intersection (wq_allowed_ips self) (wq_allowed_ips other);
  use_multihop ← intersection (wq_use_multihop self) (wq_use_multihop other);
  entry_location ← intersection (wq_entry_location self) (wq_entry_location other);
  obfuscation ← intersection (wq_obfuscation self) (wq_obfuscation other);
  daita ← intersection (wq_daita self) (wq_daita other);
  if_necessary ← intersection (wq_daita_use_multihop_if_necessary self) (wq_daita_use_multihop_if_necessary other);
  quantum_resistant ← intersection (wq_quantum_resistant self) (wq_quantum_resistant other);
  Some {| wq_port := port; wq_ip_version := ip_version; wq_allowed_ips := allowed_ips;
          wq_use_multihop := use_multihop; wq_entry_location := entry_location; wq_obfuscation := obfuscation;
          wq_daita := daita; wq_daita_use_multihop_if_necessary := if_necessary;
          wq_quantum_resistant := quantum_resistant |}.

#[global] Instance OpenVpnRelayQuery_intersection : Intersection OpenVpnRelayQuery := λ self other,
  port ← intersection (oq_port self) (oq_port other);
  bridge_settings ← intersection (oq_bridge_settings self) (oq_bridge_settings other);
  Some {| oq_port := port; oq_bridge_settings := bridge_settings |}.

#[global] Instance RelayQuery_intersection : Intersection RelayQuery := λ self other,
  location ← intersection (q_location self) (q_location other);
  providers ← intersection (q_providers self) (q_providers other);
  ownership ← intersection (q_ownership self) (q_ownership other);
  tunnel_protocol ← intersection (q_tunnel_protocol self) (q_tunnel_protocol other);
  wireguard_constraints ← intersection (q_wireguard_constraints self) (q_wireguard_constraints other);
  openvpn_constraints ← intersection (q_openvpn_constraints self) (q_openvpn_constraints other);
  Some {| q_location := location; q_providers := providers; q_ownership := ownership;
          q_tunnel_protocol := tunnel_protocol; q_wireguard_constraints := wireguard_constraints;
          q_openvpn_constraints := openvpn_constraints |}.

(** ** Queries to settings and back *)

Definition ObfuscationQuery_into_settings (q : ObfuscationQuery) : ObfuscationSettings :=
  let d := ObfuscationSettings_default in
  match q with
  | OqAuto => {| selected_obfuscation := SelAuto; os_udp2tcp := os_udp2tcp d; os_shadowsocks := os_shadowsocks d |}
  | OqOff => {| selected_obfuscation := SelOff; os_udp2tcp := os_udp2tcp d; os_shadowsocks := os_shadowsocks d |}
  | OqUdp2tcp s => {| selected_obfuscation := SelUdp2Tcp; os_udp2tcp := s; os_shadowsocks := os_shadowsocks d |}
  | OqShadowsocks s =>
      {| selected_obfuscation := SelShadowsocks; os_udp2tcp := os_udp2tcp d; os_shadowsocks := s |}
  | OqQuic => {| selected_obfuscation := SelQuic; os_udp2tcp := os_udp2tcp d; os_shadowsocks := os_shadowsocks d |}
  | OqLwo => {| selected_obfuscation := SelLwo; os_udp2tcp := os_udp2tcp d; os_shadowsocks := os_shadowsocks d |}
  end.
Definition ObfuscationQuery_from (s : ObfuscationSettings) : ObfuscationQuery :=
  match selected_obfuscation s with
  | SelOff => OqOff
  | SelAuto => OqAuto
  | SelUdp2Tcp => OqUdp2tcp (os_udp2tcp s)
  | SelShadowsocks => OqShadowsocks (os_shadowsocks s)
  | SelQuic => OqQuic
  | SelLwo => OqLwo
  end.

Definition should_use_bridge (q : BridgeQuery) : bool :=
  match q with BqNormal _ | BqCustom _ => true | BqOff | BqAuto => false end.
Definition BridgeQuery_into_settings (q : BridgeQuery) : BridgeState * BridgeSettings :=
  match q with
  | BqOff => (BsOff, BridgeSettings_default)
  | BqAuto => (BsAuto, BridgeSettings_default)
  | BqNormal constraints => (BsOn, {| bridge_type := BtNormal; bs_normal := constraints; bs_custom := None |})
  | BqCustom custom =>
      (BsOn, {| bridge_type := BtNormal; bs_normal := BridgeConstraints_default; bs_custom := custom |})
  end.
Definition WireguardRelayQuery_into_constraints (w : WireguardRelayQuery) : WireguardConstraints := {|
  wc_port := wq_port w; wc_ip_version := wq_ip_version w; wc_allowed_ips := wq_allowed_ips w;
  wc_entry_location := wq_entry_location w; wc_use_multihop := unwrap_or (wq_use_multihop w) false |}.
Definition OpenVpnRelayQuery_into_constraints (o : OpenVpnRelayQuery) : OpenVpnConstraints :=
  {| oc_port := oq_port o |}.
Definition RelayQuery_into_settings (q : RelayQuery) :
    RelayConstraints * BridgeState * BridgeSettings * ObfuscationSettings :=
  let '(bridge_state, bridge_settings) := BridgeQuery_into_settings (oq_bridge_settings (q_openvpn_constraints q)) in
  let obfuscation := ObfuscationQuery_into_settings (wq_obfuscation (q_wireguard_constraints q)) in
  let constraints := {|
    rc_location := q_location q; rc_providers := q_providers q; rc_ownership := q_ownership q;
    rc_tunnel_protocol := q_tunnel_protocol q;
    rc_wireguard_constraints := WireguardRelayQuery_into_constraints (q_wireguard_constraints q);
    rc_openvpn_constraints := OpenVpnRelayQuery_into_constraints (q_openvpn_constraints q) |} in
  (constraints, bridge_state, bridge_settings, obfuscation).

(** relay_selector/mod.rs: the user's settings as a query. *)
Record AdditionalWireguardConstraints : Set := {
  ad_daita : bool;
  ad_daita_use_multihop_if_necessary : bool;
  ad_quantum_resistant : QuantumResistantState
}.
Record NormalSelectorConfig : Set := {
  user_preferences : RelayConstraints;
  additional_preferences : AdditionalWireguardConstraints;
  obfuscation_settings : ObfuscationSettings;
  nc_bridge_state : BridgeState;
  nc_bridge_settings : BridgeSettings
}.

Definition wireguard_constraints (c : WireguardConstraints) (a : AdditionalWireguardConstraints)
    (o : ObfuscationSettings) : WireguardRelayQuery := {|
  wq_port := wc_port c; wq_ip_version := wc_ip_version c; wq_allowed_ips := wc_allowed_ips c;
  wq_use_multihop := Only (wc_use_multihop c); wq_entry_location := wc_entry_location c;
  wq_obfuscation := ObfuscationQuery_from o; wq_daita := Only (ad_daita a);
  wq_daita_use_multihop_if_necessary := Only (ad_daita_use_multihop_if_necessary a);
  wq_quantum_resistant := ad_quantum_resistant a |}.
Definition openvpn_constraints (c : OpenVpnConstraints) (state : BridgeState) (s : BridgeSettings) :
    OpenVpnRelayQuery := {|
  oq_port := oc_port c;
  oq_bridge_settings :=
    match state with
    | BsOn => match bridge_type s with
              | BtNormal => BqNormal (bs_normal s)
              | BtCustom => BqCustom (bs_custom s)
              end
    | BsAuto => BqAuto
    | BsOff => BqOff
    end |}.
Definition RelayQuery_try_from (value : NormalSelectorConfig) : option RelayQuery :=
  let p := user_preferences value in
  RelayQuery_new (rc_location p) (rc_providers p) (rc_ownership p) (rc_tunnel_protocol p)
    (wireguard_constraints (rc_wireguard_constraints p) (additional_preferences value) (obfuscation_settings value))
    (openvpn_constraints (rc_openvpn_constraints p) (nc_bridge_state value) (nc_bridge_settings value)).

(** ** mod builder

    The builder's type states have no run-time content; a builder is the query
    it has accumulated. *)
Definition builder_wireguard : RelayQuery := set_q_tunnel_protocol Wireguard RelayQuery_default.
Definition builder_openvpn : RelayQuery := set_q_tunnel_protocol OpenVpn RelayQuery_default.
Definition builder_ip_version (v : IpVersion) (q : RelayQuery) : RelayQuery :=
  set_q_wireguard (set_wq_ip_version (Only v) (q_wireguard_constraints q)) q.
Definition builder_udp2tcp (q : RelayQuery) : RelayQuery :=
  set_q_wireguard (set_wq_obfuscation (OqUdp2tcp {| u2t_port := Any |}) (q_wireguard_constraints q)) q.
Definition builder_shadowsocks (q : RelayQuery) : RelayQuery :=
  set_q_wireguard (set_wq_obfuscation (OqShadowsocks {| sss_port := Any |}) (q_wireguard_constraints q)) q.
Definition builder_quic (q : RelayQuery) : RelayQuery :=
  set_q_wireguard (set_wq_obfuscation OqQuic (q_wireguard_constraints q)) q.
Definition builder_lwo (q : RelayQuery) : RelayQuery :=
  set_q_wireguard (set_wq_obfuscation OqLwo (q_wireguard_constraints q)) q.
Definition builder_transport_protocol (p : TransportProtocol) (q : RelayQuery) : RelayQuery :=
  set_q_openvpn {| oq_port := Only {| tp_protocol := p; tp_port := Any |};
                   oq_bridge_settings := oq_bridge_settings (q_openvpn_constraints q) |} q.
(** The transport protocol is the one stored in the builder's type state. *)
Definition builder_port (p : TransportProtocol) (port : Z) (q : RelayQuery) : RelayQuery :=
  set_q_openvpn {| oq_port := Only {| tp_protocol := p; tp_port := Only port |};
                   oq_bridge_settings := oq_bridge_settings (q_openvpn_constraints q) |} q.
Definition builder_bridge (q : RelayQuery) : RelayQuery :=
  builder_transport_protocol Tcp
    (set_q_openvpn {| oq_port := oq_port (q_openvpn_constraints q);
                      oq_bridge_settings := BqNormal BridgeConstraints_default |} q).

(** The retry orders of relay_selector/mod.rs. *)
Definition WIREGUARD_RETRY_ORDER : list RelayQuery := [
  builder_wireguard;
  builder_ip_version V6 builder_wireguard;
  builder_shadowsocks builder_wireguard;
  builder_quic builder_wireguard;
  builder_udp2tcp builder_wireguard;
  builder_ip_version V6 (builder_udp2tcp builder_wireguard);
  builder_lwo builder_wireguard
].
Definition OPENVPN_RETRY_ORDER : list RelayQuery := [
  builder_openvpn;
  builder_port Tcp 443 (builder_transport_protocol Tcp builder_openvpn);
  builder_bridge (builder_transport_protocol Tcp builder_openvpn)
].

(** ** As specific as

    [r ⊑ u]: every choice that [u] makes is made by [r] too. *)

Class LowerBound (T : Type) `{Intersection T, SqSubsetEq T} : Prop :=
  intersection_lower (x y r : T) : intersection x y = Some r → r ⊑ x ∧ r ⊑ y.

#[global] Instance Constraint_le `{SqSubsetEq T} : SqSubsetEq (Constraint T) := λ r u,
  match u, r with
  | Any, _ => True
  | Only b, Only a => a ⊑ b
  | Only _, Any => False
  end.
#[global] Instance Constraint_lower `{LowerBound T, !PreOrder (⊑@{T})} : LowerBound (Constraint T).
Proof.
  intros [|x] [|y] r; unfold intersection; cbn.
  - intros [= <-]. done.
  - intros [= <-]. cbn. done.
  - intros [= <-]. cbn. done.
  - intros (a & E & ->)%fmap_Some. by apply intersection_lower in E.
Qed.

(** Values that only intersect when they are equal. *)
Definition eq_le {T} : SqSubsetEq T := eq.
Lemma partialeq_lower `{EqDecision T} : @LowerBound T intersection_partialeq eq_le.
Proof.
  intros x y r. unfold intersection, intersection_partialeq.
  case_decide; [intros [= <-]; by subst|done].
Qed.
Lemma eq_preorder {T} : PreOrder (@eq_le T).
Proof. split; [by intros x|intros x y z -> ->; done]. Qed.

#[global] Instance Z_le : SqSubsetEq Z := eq_le.
#[global] Instance Z_preorder : PreOrder (⊑@{Z}) := eq_preorder.
#[global] Instance Z_lower : LowerBound Z := partialeq_lower.
#[global] Instance bool_le : SqSubsetEq bool := eq_le.
#[global] Instance bool_preorder : PreOrder (⊑@{bool}) := eq_preorder.
#[global] Instance bool_lower : LowerBound bool := partialeq_lower.
#[global] Instance TransportProtocol_le : SqSubsetEq TransportProtocol := eq_le.
#[global] Instance TransportProtocol_preorder : PreOrder (⊑@{TransportProtocol}) := eq_preorder.
#[global] Instance TransportProtocol_lower : LowerBound TransportProtocol := partialeq_lower.
#[global] Instance IpVersion_le : SqSubsetEq IpVersion := eq_le.
#[global] Instance IpVersion_preorder : PreOrder (⊑@{IpVersion}) := eq_preorder.
#[global] Instance IpVersion_lower : LowerBound IpVersion := partialeq_lower.
#[global] Instance TunnelType_le : SqSubsetEq TunnelType := eq_le.
#[global] Instance TunnelType_preorder : PreOrder (⊑@{TunnelType}) := eq_preorder.
#[global] Instance TunnelType_lower : LowerBound TunnelType := partialeq_lower.
#[global] Instance LocationConstraint_le : SqSubsetEq LocationConstraint := eq_le.
#[global] Instance LocationConstraint_preorder : PreOrder (⊑@{LocationConstraint}) := eq_preorder.
#[global] Instance LocationConstraint_lower : LowerBound LocationConstraint := partialeq_lower.
#[global] Instance Ownership_le : SqSubsetEq Ownership := eq_le.
#[global] Instance Ownership_preorder : PreOrder (⊑@{Ownership}) := eq_preorder.
#[global] Instance Ownership_lower : LowerBound Ownership := partialeq_lower.
#[global] Instance Providers_le : SqSubsetEq Providers := eq_le.
#[global] Instance Providers_preorder : PreOrder (⊑@{Providers}) := eq_preorder.
#[global] Instance Providers_lower : LowerBound Providers := partialeq_lower.
#[global] Instance AllowedIps_le : SqSubsetEq AllowedIps := eq_le.
#[global] Instance AllowedIps_preorder : PreOrder (⊑@{AllowedIps}) := eq_preorder.
#[global] Instance AllowedIps_lower : LowerBound AllowedIps := partialeq_lower.

#[global] Instance TransportPort_le : SqSubsetEq TransportPort := λ r u,
  tp_protocol r ⊑ tp_protocol u ∧ tp_port r ⊑ tp_port u.
#[global] Instance BridgeConstraints_le : SqSubsetEq BridgeConstraints := λ r u,
  bc_location r ⊑ bc_location u ∧ bc_providers r ⊑ bc_providers u ∧ bc_ownership r ⊑ bc_ownership u.
#[global] Instance QuantumResistantState_le : SqSubsetEq QuantumResistantState := λ r u, u = QrAuto ∨ r = u.
#[global] Instance ObfuscationQuery_le : SqSubsetEq ObfuscationQuery := λ r u,
  match u, r with
  | OqAuto, _ => True
  | OqUdp2tcp b, OqUdp2tcp a => u2t_port a ⊑ u2t_port b
  | OqShadowsocks b, OqShadowsocks a => sss_port a ⊑ sss_port b
  | u, r => r = u
  end.
#[global] Instance BridgeQuery_le : SqSubsetEq BridgeQuery := λ r u,
  match u, r with
  | BqAuto, _ => True
  | BqNormal b, BqNormal a => a ⊑ b
  | u, r => r = u
  end.
#[global] Instance WireguardRelayQuery_le : SqSubsetEq WireguardRelayQuery := λ r u,
  wq_port r ⊑ wq_port u ∧ wq_ip_version r ⊑ wq_ip_version u ∧ wq_allowed_ips r ⊑ wq_allowed_ips u ∧
  wq_use_multihop r ⊑ wq_use_multihop u ∧ wq_entry_location r ⊑ wq_entry_location u ∧
  wq_obfuscation r ⊑ wq_obfuscation u ∧ wq_daita r ⊑ wq_daita u ∧
  wq_daita_use_multihop_if_necessary r ⊑ wq_daita_use_multihop_if_necessary u ∧
  wq_quantum_resistant r ⊑ wq_quantum_resistant u.
#[global] Instance OpenVpnRelayQuery_le : SqSubsetEq OpenVpnRelayQuery := λ r u,
  oq_port r ⊑ oq_port u ∧ oq_bridge_settings r ⊑ oq_bridge_settings u.
#[global] Instance RelayQuery_le : SqSubsetEq RelayQuery := λ r u,
  q_location r ⊑ q_location u ∧ q_providers r ⊑ q_providers u ∧ q_ownership r ⊑ q_ownership u ∧
  q_tunnel_protocol r ⊑ q_tunnel_protocol u ∧ q_wireguard_constraints r ⊑ q_wireguard_constraints u ∧
  q_openvpn_constraints r ⊑ q_openvpn_constraints u.

(** Splits a derived intersection into the intersections of the fields. *)
Ltac inter_inv H :=
  match type of H with
  | @intersection _ ?I ?x ?y = Some ?r => change (I x y = Some r) in H; unfold I in H; inter_inv H
  | (_ ≫= _) = Some _ =>
      let a := fresh "a" in let E := fresh "E" in
      apply bind_Some in H as (a & E & H); inter_inv H
  | Some _ = Some _ => injection H as <-
  end.

#[global] Instance Constraint_le_refl `{SqSubsetEq T, !Reflexive (⊑@{T})} : Reflexive (⊑@{Constraint T}).
Proof. intros [|x]; cbn; [done|]. change (x ⊑ x). reflexivity. Qed.
#[global] Instance TransportPort_preorder : PreOrder (⊑@{TransportPort}).
Proof.
  split.
  - intros x. split; reflexivity.
  - intros [px x] [py y] [pz z] [H1 H2] [K1 K2]. split; cbn in *; [by rewrite H1|].
    destruct z, y, x; try done. congruence.
Qed.
#[global] Instance TransportPort_lower : LowerBound TransportPort.
Proof.
  intros x y r H. inter_inv H. apply intersection_lower in E as [? ?], E0 as [? ?]. by split; split.
Qed.
#[global] Instance BridgeConstraints_lower : LowerBound BridgeConstraints.
Proof.
  intros x y r H. inter_inv H.
  apply intersection_lower in E as [? ?], E0 as [? ?], E1 as [? ?]. by split; split_and!.
Qed.
#[global] Instance QuantumResistantState_lower : LowerBound QuantumResistantState.
Proof. intros [] [] r; unfold intersection; cbn; intros [= <-]; split; (by left) || (by right). Qed.
#[global] Instance BridgeConstraints_le_refl : Reflexive (⊑@{BridgeConstraints}).
Proof. intros x. split_and!; reflexivity. Qed.
#[global] Instance BridgeQuery_le_refl : Reflexive (⊑@{BridgeQuery}).
Proof. by intros []. Qed.
#[global] Instance BridgeQuery_lower : LowerBound BridgeQuery.
Proof.
  intros x y r H. destruct (decide (x = BqAuto)) as [->|].
  { injection H as <-. split; [by destruct y|reflexivity]. }
  destruct (decide (y = BqAuto)) as [->|].
  { assert (r = x) as -> by (destruct x; unfold intersection in H; cbn in H; congruence). split; [reflexivity|by destruct x]. }
  destruct x, y; unfold intersection in H; cbn in H; try done;
    try (case_decide; simplify_eq; split; reflexivity).
  apply bind_Some in H as (c & E & [= <-]). by apply intersection_lower in E as [? ?].
Qed.
#[global] Instance OpenVpnRelayQuery_lower : LowerBound OpenVpnRelayQuery.
Proof.
  intros x y r H. inter_inv H. apply intersection_lower in E as [? ?], E0 as [? ?]. by split; split.
Qed.
#[global] Instance ObfuscationQuery_le_refl : Reflexive (⊑@{ObfuscationQuery}).
Proof. intros []; try done; apply Constraint_le_refl. Qed.

(** Turning obfuscation off wins over every other choice: only the query that
    does not ask for it may be overruled. *)
Lemma obfuscation_lower x y r :
  intersection x y = Some r → x ≠ OqOff → r ⊑ y.
Proof.
  intros H Hx. destruct x, y; unfold intersection in H; cbn in H; try done; simplify_eq/=;
    try reflexivity; try done; apply bind_Some in H as (s & E & [= <-]); inter_inv E;
    by apply intersection_lower in E0 as [? ?].
Qed.

Lemma wireguard_lower x y r :
  intersection x y = Some r → wq_obfuscation x ≠ OqOff → r ⊑ y.
Proof.
  intros H Hx. inter_inv H. apply obfuscation_lower in E4; [|done].
  repeat match goal with E : intersection _ _ = Some _ |- _ => apply intersection_lower in E as [_ ?] end.
  by split_and!.
Qed.

Lemma query_lower (q u r : RelayQuery) :
  intersection q u = Some r → wq_obfuscation (q_wireguard_constraints q) ≠ OqOff → r ⊑ u.
Proof.
  intros H Hq. inter_inv H. apply wireguard_lower in E3; [|done].
  repeat match goal with E : intersection _ _ = Some _ |- _ => apply intersection_lower in E as [_ ?] end.
  by split_and!.
Qed.

(** ** The laws of the documentation *)

#[global] Instance LocationConstraint_lawful : Lawful LocationConstraint := partialeq_lawful.
#[global] Instance Ownership_lawful : Lawful Ownership := partialeq_lawful.
#[global] Instance Providers_lawful : Lawful Providers := partialeq_lawful.
#[global] Instance AllowedIps_lawful : Lawful AllowedIps := partialeq_lawful.
#[global] Instance QuantumResistantState_lawful : Lawful QuantumResistantState.
Proof. split; [intros [] []|intros []|intros [] [] []]; done. Qed.

(** Proves that a derived intersection is the one of the tuple of fields. *)
Ltac derive_iso :=
  intros; unfold intersection at 1;
  match goal with |- ?I _ _ = _ => unfold I end; rewrite ?pair_inter; cbn;
  repeat match goal with |- context [intersection ?a ?b] => destruct (intersection a b); cbn end; done.

#[global] Instance Udp2Tcp_lawful : Lawful Udp2TcpObfuscationSettings.
Proof. apply (lawful_iso u2t_port Build_Udp2TcpObfuscationSettings); [by intros []|done|derive_iso|apply _]. Qed.
#[global] Instance ShadowsocksSettings_lawful : Lawful ShadowsocksSettings.
Proof. apply (lawful_iso sss_port Build_ShadowsocksSettings); [by intros []|done|derive_iso|apply _]. Qed.
#[global] Instance TransportPort_lawful : Lawful TransportPort.
Proof.
  apply (lawful_iso (λ p, (tp_protocol p, tp_port p)) (λ p, {| tp_protocol := p.1; tp_port := p.2 |}));
    [by intros []|by intros []|derive_iso|apply _].
Qed.
#[global] Instance BridgeConstraints_lawful : Lawful BridgeConstraints.
Proof.
  apply (lawful_iso (λ p, (bc_location p, (bc_providers p, bc_ownership p)))
           (λ p, {| bc_location := p.1; bc_providers := p.2.1; bc_ownership := p.2.2 |}));
    [by intros []|by intros [? []]|derive_iso|apply _].
Qed.

Lemma bridge_normal l r : intersection (BqNormal l) (BqNormal r) = c ← intersection l r; Some (BqNormal c).
Proof. done. Qed.

(** Two choices of which at least one is not [Auto] and one is not [Normal]. *)
Lemma bridge_partialeq x y : (x = BqAuto → False) → (y = BqAuto → False) →
  (∀ l r, x = BqNormal l → y = BqNormal r → False) →
  intersection x y = if decide (x = y) then Some x else None.
Proof. intros Hx Hy Hn. destruct x, y; try done; try (by destruct Hx); try (by destruct Hy). by destruct (Hn _ _ eq_refl eq_refl). Qed.

#[global] Instance BridgeQuery_lawful : Lawful BridgeQuery.
Proof.
  assert (∀ x, intersection BqAuto x = Some x ∧ intersection x BqAuto = Some x) as Hauto by (by intros []).
  assert (Commutes BridgeQuery) as Hcomm.
  { intros [| |l|l] [| |r|r]; try done; unfold intersection, BridgeQuery_intersection; cbn.
    - by rewrite intersection_comm.
    - repeat case_decide; congruence. }
  split; [done| |].
  - intros [| |l|l]; try done; [rewrite bridge_normal, intersection_idemp; done|].
    rewrite bridge_partialeq by done. by rewrite decide_True.
  - intros x y z. change (assoc_at x y z).
    destruct (decide (x = BqAuto)) as [->|]; [|destruct (decide (y = BqAuto)) as [->|];
      [|destruct (decide (z = BqAuto)) as [->|]]]; unfold assoc_at.
    + rewrite (proj1 (Hauto y)). cbn. destruct (intersection y z); cbn; [|done]. by rewrite (proj2 (Hauto _)).
    + rewrite (proj2 (Hauto x)), (proj1 (Hauto z)). cbn. apply Hcomm.
    + rewrite (proj2 (Hauto y)). cbn. rewrite Hcomm. destruct (intersection y x); cbn; [|done]. by rewrite (proj2 (Hauto _)).
    + destruct x as [| |a|a], y as [| |b|b], z as [| |c|c]; try done;
        rewrite ?bridge_normal, ?(bridge_partialeq (BqCustom _) (BqCustom _)) by done;
        try (destruct (intersection _ _); done); try (repeat case_decide; simplify_eq/=; done).
      * destruct (intersection b c); done.
      * pose proof (intersection_assoc a b c) as E.
        destruct (intersection a b), (intersection b c); cbn in *; rewrite ?bridge_normal, ?E; try done. by rewrite <- E.
      * destruct (intersection b c); done.
      * repeat case_decide; simplify_eq/=; rewrite ?bridge_partialeq by done; repeat case_decide; simplify_eq/=; done.
Qed.

#[global] Instance OpenVpnRelayQuery_lawful : Lawful OpenVpnRelayQuery.
Proof.
  apply (lawful_iso (λ p, (oq_port p, oq_bridge_settings p)) (λ p, {| oq_port := p.1; oq_bridge_settings := p.2 |}));
    [by intros []|by intros []|derive_iso|apply _].
Qed.

(** The fields of a WireGuard query other than the obfuscation. *)
Definition wq_rest (w : WireguardRelayQuery) :=
  (wq_port w, (wq_ip_version w, (wq_allowed_ips w, (wq_use_multihop w, (wq_entry_location w,
    (wq_daita w, (wq_daita_use_multihop_if_necessary w, wq_quantum_resistant w))))))).
Definition wq_tuple (w : WireguardRelayQuery) := (wq_obfuscation w, wq_rest w).
Definition wq_of_tuple (t : ObfuscationQuery * _) : WireguardRelayQuery :=
  let '(o, (p, (v, (a, (m, (e, (d, (n, r)))))))) := t in
  {| wq_port := p; wq_ip_version := v; wq_allowed_ips := a; wq_use_multihop := m; wq_entry_location := e;
     wq_obfuscation := o; wq_daita := d; wq_daita_use_multihop_if_necessary := n; wq_quantum_resistant := r |}.
Definition q_tuple (q : RelayQuery) :=
  (q_wireguard_constraints q,
   (q_location q, (q_providers q, (q_ownership q, (q_tunnel_protocol q, q_openvpn_constraints q))))).
Definition q_of_tuple (t : WireguardRelayQuery * _) : RelayQuery :=
  let '(w, (l, (p, (o, (t, v))))) := t in
  {| q_location := l; q_providers := p; q_ownership := o; q_tunnel_protocol := t;
     q_wireguard_constraints := w; q_openvpn_constraints := v |}.

Lemma wq_derived (x y : WireguardRelayQuery) :
  intersection x y = wq_of_tuple <$> intersection (wq_tuple x) (wq_tuple y).
Proof. derive_iso. Qed.
Lemma q_derived (x y : RelayQuery) : intersection x y = q_of_tuple <$> intersection (q_tuple x) (q_tuple y).
Proof. derive_iso. Qed.
Lemma wq_tuple_of t : wq_tuple (wq_of_tuple t) = t.
Proof. by destruct t as [? (?&?&?&?&?&?&?&?)]. Qed.
Lemma q_tuple_of t : q_tuple (q_of_tuple t) = t.
Proof. by destruct t as [? (?&?&?&?&?)]. Qed.
#[global] Instance ObfuscationQuery_commutes : Commutes ObfuscationQuery.
Proof.
  intros [] []; try done; unfold intersection, ObfuscationQuery_intersection; cbn; by rewrite intersection_comm.
Qed.

#[global] Instance WireguardRelayQuery_commutes : Commutes WireguardRelayQuery.
Proof. apply (commutes_iso wq_tuple wq_of_tuple wq_derived), _. Qed.
#[global] Instance RelayQuery_commutes : Commutes RelayQuery.
Proof. apply (commutes_iso q_tuple q_of_tuple q_derived), _. Qed.

Definition obfuscation_of (q : RelayQuery) : ObfuscationQuery := wq_obfuscation (q_wireguard_constraints q).

Lemma obfuscation_assoc_at x y z : x ≠ OqOff → y ≠ OqOff → z ≠ OqOff → assoc_at x y z.
Proof.
  intros Hx Hy Hz. assert (∀ o, intersection OqAuto o = Some o ∧ intersection o OqAuto = Some o) as Ha by (by intros []).
  assert (∀ a b, intersection (OqUdp2tcp a) (OqUdp2tcp b) = s ← intersection a b; Some (OqUdp2tcp s)) as Hu by done.
  assert (∀ a b, intersection (OqShadowsocks a) (OqShadowsocks b) = s ← intersection a b; Some (OqShadowsocks s)) as Hs by done.
  unfold assoc_at. destruct x as [| |a|a| |], y as [| |b|b| |], z as [| |c|c| |]; try done;
    rewrite ?(proj1 (Ha _)), ?(proj2 (Ha _)); cbn; rewrite ?Hu, ?Hs; try (by rewrite intersection_comm);
    try (rewrite intersection_comm; destruct (intersection _ _); done); try (destruct (intersection _ _); done).
  all: first [solve [destruct (intersection b c); done] | solve [destruct (intersection a b); done] |
    pose proof (intersection_assoc a b c) as E; destruct (intersection a b), (intersection b c);
    cbn in *; rewrite ?Hu, ?Hs, ?E; try done; by rewrite <- E].
Qed.

Lemma wq_inter_obfuscation (x y r : WireguardRelayQuery) :
  intersection x y = Some r → intersection (wq_obfuscation x) (wq_obfuscation y) = Some (wq_obfuscation r).
Proof. intros H. inter_inv H. done. Qed.
Lemma q_inter_fields (x y r : RelayQuery) :
  intersection x y = Some r →
  intersection (q_wireguard_constraints x) (q_wireguard_constraints y) = Some (q_wireguard_constraints r) ∧
  intersection (q_tunnel_protocol x) (q_tunnel_protocol y) = Some (q_tunnel_protocol r).
Proof. intros H. inter_inv H. done. Qed.

Lemma obfuscation_idemp o : intersection o o = Some o ↔ o ≠ OqQuic ∧ o ≠ OqLwo.
Proof.
  destruct o; try (by split; [intros|]; [split|]); try (by split; [|intros []]).
  - split; [done|]. intros _. unfold intersection, ObfuscationQuery_intersection. by rewrite intersection_idemp.
  - split; [done|]. intros _. unfold intersection, ObfuscationQuery_intersection. by rewrite intersection_idemp.
Qed.

Lemma prod_idemp_at `{Intersection A, Lawful B} (x : A * B) :
  intersection x.1 x.1 = Some x.1 → intersection x x = Some x.
Proof. intros E. rewrite pair_inter, E. cbn. rewrite intersection_idemp. by destruct x. Qed.

Lemma query_idemp q : intersection q q = Some q ↔ obfuscation_of q ≠ OqQuic ∧ obfuscation_of q ≠ OqLwo.
Proof.
  rewrite <- obfuscation_idemp. split.
  - intros H. by apply q_inter_fields in H as [H%wq_inter_obfuscation _].
  - intros H. rewrite q_derived, prod_idemp_at; [by destruct q|].
    cbn. rewrite wq_derived, prod_idemp_at by done. by destruct (q_wireguard_constraints q).
Qed.

Lemma query_assoc x y z :
  obfuscation_of x ≠ OqOff → obfuscation_of y ≠ OqOff → obfuscation_of z ≠ OqOff → assoc_at x y z.
Proof.
  intros Hx Hy Hz. apply (assoc_iso q_tuple q_of_tuple q_tuple_of q_derived).
  apply prod_assoc_at; [|apply intersection_assoc].
  apply (assoc_iso wq_tuple wq_of_tuple wq_tuple_of wq_derived).
  apply prod_assoc_at; [|apply intersection_assoc]. by apply obfuscation_assoc_at.
Qed.

Lemma default_identity (q u : RelayQuery) :
  q = set_q_tunnel_protocol (q_tunnel_protocol q) RelayQuery_default →
  intersection q u = Some u ↔ q_tunnel_protocol u = q_tunnel_protocol q.
Proof.
  intros Hq. split.
  - intros H. apply q_inter_fields in H as [_ H]. apply intersection_lower in H as [H _]. done.
  - intros E. rewrite Hq. destruct u as [l p o t w v]. cbn in E. subst t. unfold intersection, RelayQuery_intersection. cbn.
    rewrite !(proj1 (any_inter _)). cbn. rewrite intersection_idemp. cbn.
    assert (intersection WireguardRelayQuery_new w = Some w) as ->.
    { destruct w as [? ? ? ? ? ob ? ? qr]. unfold intersection, WireguardRelayQuery_intersection. cbn.
      rewrite !(proj1 (any_inter _)). cbn. assert (intersection OqAuto ob = Some ob) as -> by (by destruct ob). done. }
    cbn. assert (intersection OpenVpnRelayQuery_new v = Some v) as ->; [|done].
    destruct v as [port b]. unfold intersection, OpenVpnRelayQuery_intersection. cbn.
    rewrite !(proj1 (any_inter _)). done.
Qed.

(** C40: Which of the documented laws of [Intersection] relay queries obey: the
    intersection is commutative; it is idempotent exactly for the queries that
    do not ask for QUIC or LWO obfuscation; it is associative for queries that
    do not turn obfuscation off, and not in general; and [RelayQuery::default] is
    its identity exactly on the WireGuard queries. *)
Theorem query_intersection_laws :
  (∀ x y : RelayQuery, intersection x y = intersection y x) ∧
  (∀ x, intersection x x = Some x ↔ obfuscation_of x ≠ OqQuic ∧ obfuscation_of x ≠ OqLwo) ∧
  (∀ x y z, obfuscation_of x ≠ OqOff → obfuscation_of y ≠ OqOff → obfuscation_of z ≠ OqOff →
    intersection x y ∩? z = intersection y z ∩? x) ∧
  (∃ x y z : RelayQuery, intersection x y ∩? z ≠ intersection y z ∩? x) ∧
  (∀ u, intersection RelayQuery_default u = Some u ↔ q_tunnel_protocol u = Wireguard).
Proof.
  split_and!.
  - apply intersection_comm.
  - apply query_idemp.
  - apply query_assoc.
  - exists (set_q_wireguard (set_wq_obfuscation OqOff WireguardRelayQuery_new) RelayQuery_default),
      (builder_udp2tcp builder_wireguard), (builder_quic builder_wireguard). vm_compute. done.
  - intros u. by apply default_identity.
Qed.

(** C11: A connection attempt never overrides the user's choices: whatever entry
    of the two retry orders is merged with the user's query, every choice that
    the user made (location, provider, ownership, protocol, port, IP version,
    multihop, entry location, obfuscation, DAITA, quantum resistance, bridges) is
    the choice of the merged query, and the first entry of the order of the
    user's protocol yields the user's query itself. *)
Theorem retry_respects_user (q u r : RelayQuery) :
  q ∈ WIREGUARD_RETRY_ORDER ++ OPENVPN_RETRY_ORDER → intersection q u = Some r →
  r ⊑ u ∧
  (q_tunnel_protocol u = Wireguard → head WIREGUARD_RETRY_ORDER ≫= (λ q, intersection q u) = Some u) ∧
  (q_tunnel_protocol u = OpenVpn → head OPENVPN_RETRY_ORDER ≫= (λ q, intersection q u) = Some u).
Proof.
  intros Hq H. split_and!.
  - apply (query_lower q); [done|]. revert q H Hq. intros q _. revert q. apply Forall_forall. repeat constructor; done.
  - intros E. by apply default_identity.
  - intros E. by apply default_identity.
Qed.
