(* ===== verification/RelayMatcher.v ===== *)
(** * Filtering and picking relays (mullvad-relay-selector)

    relay_selector/matcher.rs, helpers.rs, detailer.rs and relays.rs, as built
    without the feature `staggered-obfuscation` and not for Android.  The random
    numbers, the iteration order of temporary hash sets and the trigonometry of
    distances come from outside: they are the class [Host].  A panic of the
    source is an outcome of its own, which [Result::ok] does not catch. *)

From S2P Require Import Prelude NetTypes Constraints RelayTypes CustomLists RelayQuery.

Import relay.

(** ** The host *)

(** [choose_index n] is a random index below [n] (`rand`'s [choose]),
    [random_range lo hi] a random number of an inclusive range, and [hash_order]
    the unspecified order of the elements of a hash set or of the equal elements
    of an unstable sort.  Distances and midpoints are floating-point functions of
    latitudes and longitudes given as bit patterns. *)
Class Host : Type := {
  rng : Type;
  choose_index : nat → rng → nat * rng;
  random_range : Z → Z → rng → Z * rng;
  hash_order : ∀ {A : Type}, list A → rng → list A * rng;
  haversine_dist_deg : Z → Z → Z → Z → Z;
  f64_sub : Z → Z → Z;
  midpoint_inner : list Coordinates → Coordinates;
  choose_index_lt n g : (0 < n)%nat → ((choose_index n g).1 < n)%nat;
  random_range_in lo hi g : lo ≤ hi → lo ≤ (random_range lo hi g).1 ≤ hi;
  hash_order_perm A (l : list A) g : (hash_order l g).1 ≡ₚ l
}.

(** ** Computations with randomness, errors and panics *)

Inductive outcome (E A : Type) : Type :=
| Done (a : A)
| Fail (e : E)
| Panicked.
Arguments Done {E A} a.
Arguments Fail {E A} e.
Arguments Panicked {E A}.

Section Monad.
Context `{Host}.
Definition M (E A : Type) : Type := rng → outcome E A * rng.
#[global] Instance M_ret E : MRet (M E) := λ A a g, (Done a, g).
#[global] Instance M_bind E : MBind (M E) := λ A B f m g,
  match m g with
  | (Done a, g') => f a g'
  | (Fail e, g') => (Fail e, g')
  | (Panicked, g') => (Panicked, g')
  end.
Definition throw {E A} (e : E) : M E A := λ g, (Fail e, g).
Definition panic {E A} : M E A := λ g, (Panicked, g).
Definition ok_or {E A} (o : option A) (e : E) : M E A :=
  match o with Some a => mret a | None => throw e end.
(** [Result::ok]: errors are values, panics are not. *)
Definition attempt {E F A} (m : M E A) : M F (option A) := λ g,
  match m g with
  | (Done a, g') => (Done (Some a), g')
  | (Fail _, g') => (Done None, g')
  | (Panicked, g') => (Panicked, g')
  end.
Definition M_map_err {E F A} (f : E → F) (m : M E A) : M F A := λ g,
  match m g with
  | (Done a, g') => (Done a, g')
  | (Fail e, g') => (Fail (f e), g')
  | (Panicked, g') => (Panicked, g')
  end.
Definition assert_ {E} (b : bool) : M E unit := if b then mret tt else panic.

(** [IteratorRandom::choose] and [IndexedRandom::choose]. *)
Definition choose {E A} (l : list A) : M E (option A) := λ g,
  match l with
  | [] => (Done None, g)
  | _ => let '(i, g') := choose_index (length l) g in (Done (l !! i), g')
  end.
Definition range_sample {E} (lo hi : Z) : M E Z := λ g,
  let '(i, g') := random_range lo hi g in (Done i, g').
Definition reorder {E A} (l : list A) : M E (list A) := λ g,
  let '(l', g') := hash_order l g in (Done l', g').

(** ** helpers.rs *)

Inductive PortError : Set := NoMatchingPort.

Definition SHADOWSOCKS_EXTRA_PORT_RANGES : list PortRange := [{| range_start := 1; range_end := 65535 |}].

Fixpoint find_weighted {A} (weight : A → Z) (i : Z) (l : list A) : option A :=
  match l with
  | [] => None
  | relay :: l =>
      let i := Z.max 0 (i - weight relay) in
      if i =? 0 then Some relay else find_weighted weight i l
  end.

Definition pick_random_relay_weighted {E A} (weight : A → Z) (l : list A) : M E (option A) :=
  let total_weight := wrap 64 (foldr (λ r acc, weight r + acc) 0 l) in
  if total_weight =? 0 then choose l
  else
    i ← range_sample 1 total_weight;
    match find_weighted weight i l with
    | Some relay => mret (Some relay)
    | None => panic
    end.
Definition pick_random_relay {E} (l : list Relay) : M E (option Relay) := pick_random_relay_weighted weight l.
Definition pick_random_relay_excluding {E} (l : list Relay) (exclude : Relay) : M E (option Relay) :=
  pick_random_relay_weighted weight (List.filter (λ a, negb (relay_eqb a exclude)) l).

Definition port_if_in_range (ranges : list PortRange) (port : Z) : option Z :=
  if existsb (λ range, range_contains range port) ranges then Some port else None.
Definition range_ports (r : PortRange) : list Z := seqZ (range_start r) (range_end r - range_start r + 1).
Definition select_random_port (ranges : list PortRange) : M PortError Z :=
  port ← choose (flat_map range_ports ranges); ok_or port NoMatchingPort.
Definition desired_or_random_port_from_range (ranges : list PortRange) (desired_port : Constraint Z) :
    M PortError Z :=
  match desired_port with
  | Only port => ok_or (port_if_in_range ranges port) NoMatchingPort
  | Any => select_random_port ranges
  end.

Definition get_udp2tcp_obfuscator_port (s : Udp2TcpObfuscationSettings) (ports : list Z) : M PortError Z :=
  port ← match u2t_port s with
         | Only desired_port => mret (List.find (λ candidate, desired_port =? candidate) ports)
         | Any => choose ports
         end;
  ok_or port NoMatchingPort.
Definition peer_endpoint (e : MullvadWireguardEndpoint) : SocketAddr := wireguard.endpoint (mw_peer e).
Definition get_udp2tcp_obfuscator (s : Udp2TcpObfuscationSettings) (ports : list Z) (relay : Relay)
    (endpoint : MullvadWireguardEndpoint) : M PortError (ObfuscatorConfig * Relay) :=
  port ← get_udp2tcp_obfuscator_port s ports;
  mret (Udp2Tcp (SocketAddr_new (sock_ip (peer_endpoint endpoint)) port), relay).

Definition get_shadowsocks_obfuscator_inner (wg_in_addr : IpAddr) (wg_in_addr_port_ranges : list PortRange)
    (extra_in_addrs : list IpAddr) (desired_port : Constraint Z) : M PortError SocketAddr :=
  let extra_in_addrs :=
    List.filter (λ addr, bool_decide (addr_is_ipv4 addr = addr_is_ipv4 wg_in_addr)) extra_in_addrs in
  chosen ← choose extra_in_addrs;
  let in_ip := default wg_in_addr chosen in
  selected_port ←
    match extra_in_addrs with
    | [] => desired_or_random_port_from_range wg_in_addr_port_ranges desired_port
    | _ => desired_or_random_port_from_range SHADOWSOCKS_EXTRA_PORT_RANGES desired_port
    end;
  mret (SocketAddr_new in_ip selected_port).
Definition get_shadowsocks_obfuscator (s : ShadowsocksSettings) (non_extra_port_ranges : list PortRange)
    (relay : Relay) (endpoint : MullvadWireguardEndpoint) : M PortError (ObfuscatorConfig * Relay) :=
  match endpoint_data relay with
  | EdWireguard wg =>
      e ← get_shadowsocks_obfuscator_inner (sock_ip (peer_endpoint endpoint)) non_extra_port_ranges
            (shadowsocks_extra_addr_in wg) (sss_port s);
      mret (Shadowsocks e, relay)
  | _ => panic
  end.

Definition get_quic_obfuscator {E} (relay : Relay) (ip_version : IpVersion) : M E (option (ObfuscatorConfig * Relay)) :=
  match wireguard_data relay ≫= quic with
  | None => mret None
  | Some q =>
      let addrs := match ip_version with
                   | V4 => AddrV4 <$> in_ipv4 q
                   | V6 => AddrV6 <$> in_ipv6 q
                   end in
      in_ip ← choose addrs;
      mret (match in_ip with
            | None => None
            | Some in_ip => Some (NetTypes.Quic (domain q) (SocketAddr_new in_ip quic_port) (token q), relay)
            end)
  end.

Definition get_lwo_obfuscator (relay : Relay) (endpoint : MullvadWireguardEndpoint) :
    option (ObfuscatorConfig * Relay) :=
  data ← wireguard_data relay;
  if negb (lwo data) then None
  else
    ip ← match peer_endpoint endpoint with
         | SockV4 _ _ => Some (AddrV4 (ipv4_addr_in relay))
         | SockV6 _ _ _ _ => AddrV6 <$> ipv6_addr_in relay
         end;
    let port := sock_port (peer_endpoint endpoint) in
    Some (Lwo (SocketAddr_new ip port), relay).

(** ** detailer.rs *)

Inductive DetailerError : Set :=
| NoOpenVpnEndpoint
| NoBridgeEndpoint
| MissingPublicKey
| NoIPv6 (relay : Relay)
| PortSelectionError.

Definition WIREGUARD_EXIT_PORT : Z := 51820.

Definition resolve_ip_version (v : Constraint IpVersion) : IpVersion :=
  match v with Any | Only V4 => V4 | Only V6 => V6 end.
Definition get_address_for_wireguard_relay (query : WireguardRelayQuery) (relay : Relay) : M DetailerError IpAddr :=
  match resolve_ip_version (wq_ip_version query) with
  | V4 => mret (AddrV4 (ipv4_addr_in relay))
  | V6 => ok_or (AddrV6 <$> ipv6_addr_in relay) (NoIPv6 relay)
  end.
Definition get_port_for_wireguard_relay (query : WireguardRelayQuery) (data : WireguardEndpointData) :
    M DetailerError Z :=
  M_map_err (λ _, PortSelectionError) (desired_or_random_port_from_range (port_ranges data) (wq_port query)).
Definition get_public_key (relay : Relay) : M DetailerError (list Z) :=
  match endpoint_data relay with
  | EdWireguard endpoint => mret (public_key endpoint)
  | EdOpenvpn | EdBridge => throw MissingPublicKey
  end.

(** [WireguardConfig] of relays.rs. *)
Inductive WireguardConfig : Set :=
| Singlehop (exit : Relay)
| Multihop (exit entry : Relay).
Definition Singlehop_new {E} (exit : Relay) : M E WireguardConfig :=
  _ ← assert_ (is_wireguard exit); mret (Singlehop exit).
Definition Multihop_new {E} (entry exit : Relay) : M E WireguardConfig :=
  _ ← assert_ (is_wireguard exit); _ ← assert_ (is_wireguard entry); mret (Multihop exit entry).

Definition wireguard_singlehop_endpoint (query : WireguardRelayQuery) (data : WireguardEndpointData) (exit : Relay) :
    M DetailerError MullvadWireguardEndpoint :=
  host ← get_address_for_wireguard_relay query exit;
  port ← get_port_for_wireguard_relay query data;
  let endpoint := SocketAddr_new host port in
  key ← get_public_key exit;
  let peer_config := {|
    wireguard.public_key := key; wireguard.endpoint := endpoint;
    wireguard.allowed_ips := resolve_from_constraint (wq_allowed_ips query)
                               (Some (wg_ipv4_gateway data)) (Some (wg_ipv6_gateway data));
    wireguard.psk := None; wireguard.constant_packet_size := false |} in
  mret {| mw_peer := peer_config; mw_exit_peer := None;
          mw_ipv4_gateway := wg_ipv4_gateway data; mw_ipv6_gateway := wg_ipv6_gateway data |}.

Definition wireguard_multihop_endpoint (query : WireguardRelayQuery) (data : WireguardEndpointData)
    (exit entry : Relay) : M DetailerError MullvadWireguardEndpoint :=
  let exit_endpoint := SocketAddr_new (AddrV4 (ipv4_addr_in exit)) WIREGUARD_EXIT_PORT in
  exit_key ← get_public_key exit;
  let exit_peer := {|
    wireguard.public_key := exit_key; wireguard.endpoint := exit_endpoint;
    wireguard.allowed_ips := resolve_from_constraint (wq_allowed_ips query)
                               (Some (wg_ipv4_gateway data)) (Some (wg_ipv6_gateway data));
    wireguard.psk := None; wireguard.constant_packet_size := false |} in
  host ← get_address_for_wireguard_relay query entry;
  port ← get_port_for_wireguard_relay query data;
  let entry_endpoint := SocketAddr_new host port in
  entry_key ← get_public_key entry;
  let entry_peer := {|
    wireguard.public_key := entry_key; wireguard.endpoint := entry_endpoint;
    wireguard.allowed_ips := [NetV4 (ipv4_addr_in exit) 32];
    wireguard.psk := None; wireguard.constant_packet_size := false |} in
  mret {| mw_peer := entry_peer; mw_exit_peer := Some exit_peer;
          mw_ipv4_gateway := wg_ipv4_gateway data; mw_ipv6_gateway := wg_ipv6_gateway data |}.

Definition wireguard_endpoint (query : WireguardRelayQuery) (data : WireguardEndpointData) (relay : WireguardConfig) :
    M DetailerError MullvadWireguardEndpoint :=
  match relay with
  | Singlehop exit => wireguard_singlehop_endpoint query data exit
  | Multihop exit entry => wireguard_multihop_endpoint query data exit entry
  end.

Definition compatible_openvpn_port_combo (port_constraint : Constraint TransportPort) (endpoint : OpenVpnEndpoint) : bool :=
  match port_constraint with
  | Any => true
  | Only transport_port =>
      match tp_port transport_port with
      | Any => bool_decide (tp_protocol transport_port = ovpn_protocol endpoint)
      | Only port => (port =? ovpn_port endpoint) && bool_decide (tp_protocol transport_port = ovpn_protocol endpoint)
      end
  end.
Definition openvpn_singlehop_endpoint (port_constraint : Constraint TransportPort) (ports : list OpenVpnEndpoint)
    (exit : Relay) : M DetailerError Endpoint :=
  e ← choose (List.filter (compatible_openvpn_port_combo port_constraint) ports);
  ok_or ((λ e, Endpoint_new (AddrV4 (ipv4_addr_in exit)) (ovpn_port e) (ovpn_protocol e)) <$> e) NoOpenVpnEndpoint.
Definition openvpn_bridge_endpoint (port_constraint : Constraint TransportPort) (ports : list OpenVpnEndpoint)
    (exit : Relay) : M DetailerError Endpoint :=
  e ← choose (List.filter (compatible_openvpn_port_combo port_constraint)
                (List.filter (λ e, bool_decide (ovpn_protocol e = Tcp)) ports));
  ok_or ((λ e, Endpoint_new (AddrV4 (ipv4_addr_in exit)) (ovpn_port e) (ovpn_protocol e)) <$> e) NoBridgeEndpoint.
Definition openvpn_endpoint (query : OpenVpnRelayQuery) (ports : list OpenVpnEndpoint) (relay : Relay) :
    M DetailerError Endpoint :=
  if should_use_bridge (oq_bridge_settings query) then openvpn_bridge_endpoint (oq_port query) ports relay
  else openvpn_singlehop_endpoint (oq_port query) ports relay.
Definition bridge_endpoint {E} (data : list ShadowsocksEndpointData) (relay : Relay) : M E (option ShadowsocksProxy) :=
  match endpoint_data relay with
  | EdBridge =>
      e ← choose data;
      mret ((λ e, to_proxy_settings e (AddrV4 (ipv4_addr_in relay))) <$> e)
  | _ => mret None
  end.
End Monad.

(** ** matcher.rs *)

(** [ResolvedLocationConstraint::from_constraint]: an unknown list is empty. *)
Definition from_constraint (c : Constraint LocationConstraint) (custom_lists : list CustomList) :
    Constraint (list GeographicLocationConstraint) :=
  match c with
  | Any => Any
  | Only (LcLocation location) => Only [location]
  | Only (LcCustomList list_id) =>
      match List.find (λ l, id l =? list_id) custom_lists with
      | Some custom_list => Only (elements (CustomLists.locations custom_list))
      | None => Only []
      end
  end.

Definition filter_on_active (relay : Relay) : bool := active relay.
Definition filter_on_location (filter : Constraint (list GeographicLocationConstraint)) (relay : Relay) : bool :=
  constraint_matches (λ locations relay, existsb (λ location, geo_matches location relay) locations) filter relay.
Definition filter_on_ownership (filter : Constraint Ownership) (relay : Relay) : bool :=
  constraint_matches ownership_matches filter relay.
Definition filter_on_providers (filter : Constraint Providers) (relay : Relay) : bool :=
  constraint_matches providers_matches filter relay.
Definition filter_on_daita (filter : Constraint bool) (relay : Relay) : bool :=
  match filter, endpoint_data relay with
  | Only true, EdWireguard data => daita data
  | _, _ => true
  end.
Definition filter_openvpn (relay : Relay) : bool := is_openvpn relay.
Definition filter_wireguard (relay : Relay) : bool := is_wireguard relay.
Definition filter_bridge (relay : Relay) : bool :=
  match endpoint_data relay with EdBridge => true | _ => false end.
Definition filter_tunnel_type (filter : TunnelType) (relay : Relay) : bool :=
  match filter with OpenVpn => filter_openvpn relay | Wireguard => filter_wireguard relay end.

Definition ip_version_of (a : IpAddr) : IpVersion := match a with AddrV4 _ => V4 | AddrV6 _ => V6 end.
Definition filter_on_shadowsocks (ranges : list PortRange) (ip_version : Constraint IpVersion)
    (settings : ShadowsocksSettings) (endpoint_data : WireguardRelayEndpointData) : bool :=
  let ip_version := resolve_ip_version ip_version in
  match sss_port settings with
  | Only desired_port =>
      let filtered_extra_addrs :=
        List.find (λ addr, bool_decide (ip_version_of addr = ip_version)) (shadowsocks_extra_addr_in endpoint_data) in
      bool_decide (is_Some filtered_extra_addrs) || existsb (λ range, range_contains range desired_port) ranges
  | Any => true
  end.
Definition filter_on_obfuscation (query : WireguardRelayQuery) (relay_list : RelayList) (relay : Relay) : bool :=
  match wireguard_data relay with
  | None => true
  | Some data =>
      match wq_obfuscation query with
      | OqShadowsocks settings =>
          filter_on_shadowsocks (shadowsocks_port_ranges (wireguard_endpoints relay_list)) (wq_ip_version query)
            settings data
      | OqQuic =>
          match quic data with
          | Some quic =>
              match wq_ip_version query with
              | Any => true
              | Only V4 => negb (bool_decide (in_ipv4 quic = []))
              | Only V6 => negb (bool_decide (in_ipv6 quic = []))
              end
          | None => false
          end
      | OqLwo => lwo data
      | OqOff | OqAuto | OqUdp2tcp _ => true
      end
  end.

Definition filter_matching_relay_list_include_all (query : RelayQuery) (relay_list : RelayList)
    (custom_lists : list CustomList) : list Relay :=
  let locations := from_constraint (q_location query) custom_lists in
  let l := relays relay_list in
  let l := List.filter (filter_tunnel_type (q_tunnel_protocol query)) l in
  let l := List.filter filter_on_active l in
  let l := List.filter (filter_on_location locations) l in
  let l := List.filter (filter_on_ownership (q_ownership query)) l in
  let l := List.filter (filter_on_providers (q_providers query)) l in
  let l := List.filter (filter_on_daita (wq_daita (q_wireguard_constraints query))) l in
  List.filter (filter_on_obfuscation (q_wireguard_constraints query) relay_list) l.

Definition filter_matching_bridges (constraints : InternalBridgeConstraints) (l : list Relay)
    (custom_lists : list CustomList) : list Relay :=
  let locations := from_constraint (ib_location constraints) custom_lists in
  let l := List.filter filter_on_active l in
  let l := List.filter filter_bridge l in
  let l := List.filter (filter_on_location locations) l in
  let l := List.filter (filter_on_ownership (ib_ownership constraints)) l in
  List.filter (filter_on_providers (ib_providers constraints)) l.

(** [HashSet::extend]: an element equal to one of the set is not inserted. *)
Definition hash_insert (s : list Relay) (r : Relay) : list Relay :=
  if existsb (relay_eqb r) s then s else s ++ [r].
Definition hash_extend (s l : list Relay) : list Relay := foldl hash_insert s l.

Section Include.
Context `{Host}.
Definition filter_on_include_in_country {E} (locations : Constraint (list GeographicLocationConstraint))
    (l : list Relay) : M E (list Relay) :=
  match locations with
  | Any => mret l
  | Only locations =>
      let in_country location relay := is_country location && include_in_country relay in
      let included := foldl (λ s location, hash_extend s (List.filter (in_country location) l)) [] locations in
      let excluded :=
        foldl (λ s location, hash_extend s (List.filter (λ r, negb (in_country location r)) l)) [] locations in
      match included with
      | [] => reorder excluded
      | _ => reorder included
      end
  end.
Definition filter_matching_relay_list {E} (query : RelayQuery) (relay_list : RelayList)
    (custom_lists : list CustomList) : M E (list Relay) :=
  let l := filter_matching_relay_list_include_all query relay_list custom_lists in
  let locations := from_constraint (q_location query) custom_lists in
  filter_on_include_in_country locations l.
End Include.

(** * Picking relays: specifications of the helpers

    A weakest precondition for the computations of the relay selector, and the
    specifications of picking, port selection, filtering and endpoint
    construction (matcher.rs, helpers.rs, detailer.rs) that the theorems on the
    selector use. *)

Import relay.

Section Wp.
Context `{Host}.

(** [m] never panics, its results satisfy [P] and its errors satisfy [Q]. *)
Definition wp {E A} (m : M E A) (P : A → Prop) (Q : E → Prop) : Prop :=
  ∀ g, match (m g).1 with Done a => P a | Fail e => Q e | Panicked => False end.

Lemma wp_ret {E A} (a : A) (P : A → Prop) (Q : E → Prop) : P a → wp (mret a) P Q.
Proof. by intros ? g. Qed.
Lemma wp_throw {E A} (e : E) (P : A → Prop) (Q : E → Prop) : Q e → wp (throw e) P Q.
Proof. by intros ? g. Qed.
Lemma wp_bind {E A B} (m : M E A) (f : A → M E B) (P : B → Prop) (Q : E → Prop) :
  wp m (λ a, wp (f a) P Q) Q → wp (m ≫= f) P Q.
Proof.
  intros Hm g. specialize (Hm g). unfold mbind, M_bind. destruct (m g) as [[a|e|] g']; cbn in *; [apply Hm|done|done].
Qed.
Lemma wp_mono {E A} (m : M E A) (P P' : A → Prop) (Q Q' : E → Prop) :
  wp m P Q → (∀ a, P a → P' a) → (∀ e, Q e → Q' e) → wp m P' Q'.
Proof. intros Hm HP HQ g. specialize (Hm g). destruct (m g) as [[a|e|] g']; cbn in *; auto. Qed.
Lemma wp_and {E A} (m : M E A) (P P' : A → Prop) (Q Q' : E → Prop) :
  wp m P Q → wp m P' Q' → wp m (λ a, P a ∧ P' a) (λ e, Q e ∧ Q' e).
Proof. intros K K' g. specialize (K g). specialize (K' g). destruct (m g) as [[a|e|] g']; cbn in *; auto. Qed.
Lemma wp_ok_or {E A} (o : option A) (e : E) (P : A → Prop) (Q : E → Prop) :
  (∀ a, o = Some a → P a) → (o = None → Q e) → wp (ok_or o e) P Q.
Proof. intros HP HQ. destruct o; cbn; [apply wp_ret; auto|apply wp_throw; auto]. Qed.
Lemma wp_attempt {E F A} (m : M E A) (P : option A → Prop) (Q : F → Prop) :
  wp m (λ a, P (Some a)) (λ _, P None) → wp (attempt m) P Q.
Proof. intros Hm g. specialize (Hm g). unfold attempt. destruct (m g) as [[a|e|] g']; cbn in *; auto. Qed.
Lemma wp_map_err {E F A} (f : E → F) (m : M E A) (P : A → Prop) (Q : F → Prop) :
  wp m P (λ e, Q (f e)) → wp (M_map_err f m) P Q.
Proof. intros Hm g. specialize (Hm g). unfold M_map_err. destruct (m g) as [[a|e|] g']; cbn in *; auto. Qed.
Lemma wp_assert {E} b (P : unit → Prop) (Q : E → Prop) : b = true → P tt → wp (assert_ b) P Q.
Proof. intros -> ?. by apply wp_ret. Qed.

Lemma wp_choose {E A} (l : list A) (P : option A → Prop) (Q : E → Prop) :
  (l = [] → P None) → (∀ x, x ∈ l → P (Some x)) → wp (choose l) P Q.
Proof.
  intros H0 H1 g. unfold choose. destruct l as [|y l]; cbn -[length]; [auto|].
  pose proof (choose_index_lt (length (y :: l)) g ltac:(cbn; lia)) as Hi.
  destruct (choose_index _ g) as [i g']. cbn -[length lookup] in *.
  destruct ((y :: l) !! i) as [x|] eqn:E'.
  - apply H1. by eapply list_elem_of_lookup_2.
  - apply lookup_ge_None in E'. lia.
Qed.
Lemma wp_sample {E} lo hi (P : Z → Prop) (Q : E → Prop) :
  lo ≤ hi → (∀ i, lo ≤ i ≤ hi → P i) → wp (range_sample lo hi) P Q.
Proof.
  intros Hle HP g. unfold range_sample. pose proof (random_range_in lo hi g Hle).
  destruct (random_range lo hi g). cbn in *. auto.
Qed.
Lemma wp_reorder {E A} (l : list A) (P : list A → Prop) (Q : E → Prop) :
  (∀ l', l' ≡ₚ l → P l') → wp (reorder l) P Q.
Proof.
  intros HP g. unfold reorder. pose proof (hash_order_perm A l g). destruct (hash_order l g). cbn in *. auto.
Qed.

(** ** Weighted picks *)

Definition weight_sum {A} (weight : A → Z) (l : list A) : Z := foldr (λ r acc, weight r + acc) 0 l.

Lemma find_weighted_spec {A} (weight : A → Z) l : ∀ i,
  Forall (λ r, 0 ≤ weight r) l → 0 < i ≤ weight_sum weight l →
  ∃ r, find_weighted weight i l = Some r ∧ r ∈ l ∧ 0 < weight r.
Proof.
  induction l as [|r l IH]; intros i Hl Hi; cbn in *; [lia|]. fold (weight_sum weight l) in Hi.
  apply Forall_cons in Hl as [Hr Hl]. destruct (Z.eqb_spec (Z.max 0 (i - weight r)) 0) as [E'|E'].
  - exists r. split_and!; [done|by left|lia].
  - destruct (IH (Z.max 0 (i - weight r)) Hl) as (x & ? & ? & ?); [lia|]. exists x. split_and!; [done|by right|done].
Qed.

Lemma wrap_le z : 0 ≤ z → 0 ≤ wrap 64 z ≤ z.
Proof. intros Hz. unfold wrap. split; [apply Z.mod_pos_bound; lia|apply Z.mod_le; lia]. Qed.

Lemma weight_sum_nonneg {A} (weight : A → Z) l : Forall (λ r, 0 ≤ weight r) l → 0 ≤ weight_sum weight l.
Proof. induction 1 as [|r l ? _ IH]; cbn; [lia|]. unfold weight_sum in IH. lia. Qed.

(** The pick is total: it yields a relay exactly when there is one, and one of
    weight zero only when the weights (as summed up in 64 bits) are all zero. *)
Lemma wp_pick_weighted {E A} (weight : A → Z) (l : list A) (P : option A → Prop) (Q : E → Prop) :
  Forall (λ r, 0 ≤ weight r) l →
  (l = [] → P None) →
  (∀ r, r ∈ l → 0 < weight r ∨ wrap 64 (weight_sum weight l) = 0 → P (Some r)) →
  wp (pick_random_relay_weighted weight l) P Q.
Proof.
  intros Hl H0 H1. unfold pick_random_relay_weighted. fold (weight_sum weight l).
  pose proof (wrap_le _ (weight_sum_nonneg _ _ Hl)).
  destruct (Z.eqb_spec (wrap 64 (weight_sum weight l)) 0) as [E'|E'].
  - apply wp_choose; [done|]. intros x Hx. apply H1; auto.
  - apply wp_bind, wp_sample; [lia|]. intros i Hi.
    destruct (find_weighted_spec weight l i Hl) as (r & -> & ? & ?); [lia|]. apply wp_ret. auto.
Qed.

Definition weights_ok (l : list Relay) : Prop := Forall (λ r, 0 ≤ weight r) l.

Lemma wp_pick {E} (l : list Relay) (P : option Relay → Prop) (Q : E → Prop) :
  weights_ok l → (l = [] → P None) → (∀ r, r ∈ l → P (Some r)) → wp (pick_random_relay l) P Q.
Proof. intros Hl H0 H1. apply wp_pick_weighted; auto. Qed.

Lemma relay_eqb_true r s : relay_eqb r s = true ↔ hostname r = hostname s.
Proof. apply bool_decide_eq_true. Qed.
Lemma relay_eqb_false r s : relay_eqb r s = false ↔ hostname r ≠ hostname s.
Proof. apply bool_decide_eq_false. Qed.

Lemma elem_of_List_filter {A} (p : A → bool) l x : x ∈ List.filter p l ↔ x ∈ l ∧ p x = true.
Proof. rewrite !list_elem_of_In. apply filter_In. Qed.

Lemma Forall_List_filter {A} (P : A → Prop) (p : A → bool) l : Forall P l → Forall P (List.filter p l).
Proof. rewrite !Forall_forall. intros Hl x [Hx _]%elem_of_List_filter. auto. Qed.

Lemma wp_pick_excluding {E} (l : list Relay) exclude (P : option Relay → Prop) (Q : E → Prop) :
  weights_ok l →
  ((∀ r, r ∈ l → hostname r = hostname exclude) → P None) →
  (∀ r, r ∈ l → hostname r ≠ hostname exclude → P (Some r)) →
  wp (pick_random_relay_excluding l exclude) P Q.
Proof.
  intros Hl H0 H1. apply wp_pick_weighted.
  - by apply Forall_List_filter.
  - intros E'. apply H0. intros r Hr. destruct (decide (hostname r = hostname exclude)) as [|Hne]; [done|].
    assert (r ∈ List.filter (λ a, negb (relay_eqb a exclude)) l) as Hin.
    { apply elem_of_List_filter. split; [done|]. apply negb_true_iff. by apply relay_eqb_false. }
    rewrite E' in Hin. by apply elem_of_nil in Hin.
  - intros r [Hr Hne%negb_true_iff%relay_eqb_false]%elem_of_List_filter _. auto.
Qed.

(** ** Ports *)

Definition port_allowed (ranges : list PortRange) (port : Z) : Prop :=
  ∃ range, range ∈ ranges ∧ range_contains range port = true.

Lemma port_if_in_range_spec ranges port p :
  port_if_in_range ranges port = Some p ↔ p = port ∧ port_allowed ranges port.
Proof.
  unfold port_if_in_range, port_allowed. destruct (existsb _ ranges) eqn:E'.
  - apply existsb_exists in E' as (r & Hr & ?). split; [intros [= <-]|by intros [-> _]].
    split; [done|]. exists r. by rewrite list_elem_of_In.
  - split; [done|]. intros (-> & r & Hr & Hc). exfalso. revert E'. apply not_false_iff_true, existsb_exists.
    exists r. by rewrite <- list_elem_of_In.
Qed.

Lemma range_ports_spec r port : port ∈ range_ports r ↔ range_contains r port = true.
Proof. unfold range_ports, range_contains. rewrite elem_of_seqZ, andb_true_iff, !Z.leb_le. lia. Qed.

Lemma flat_ports_spec ranges port : port ∈ flat_map range_ports ranges ↔ port_allowed ranges port.
Proof.
  rewrite list_elem_of_In, in_flat_map. unfold port_allowed. split.
  - intros (r & Hr & Hp). exists r. rewrite <- range_ports_spec, !list_elem_of_In. done.
  - intros (r & Hr & Hp). exists r. rewrite <- !list_elem_of_In, range_ports_spec. done.
Qed.

Lemma wp_port ranges (desired : Constraint Z) (P : Z → Prop) (Q : PortError → Prop) :
  (∀ p, port_allowed ranges p → (∀ d, desired = Only d → p = d) → P p) →
  ((∀ d, desired = Only d → ¬ port_allowed ranges d) → (desired = Any → ∀ p, ¬ port_allowed ranges p) →
    Q NoMatchingPort) →
  wp (desired_or_random_port_from_range ranges desired) P Q.
Proof.
  intros HP HQ. destruct desired as [|d]; cbn.
  - apply wp_bind, wp_choose.
    + intros E'. apply wp_throw, HQ; [done|]. intros _ p Hp. apply flat_ports_spec in Hp.
      rewrite E' in Hp. by apply elem_of_nil in Hp.
    + intros p Hp. apply wp_ret, HP; [by apply flat_ports_spec|done].
  - apply wp_ok_or.
    + intros p [-> Hp]%port_if_in_range_spec. apply HP; [done|by intros ? [= ->]].
    + intros E'. apply HQ; [|done]. intros ? [= <-] Hp. assert (port_if_in_range ranges d = Some d) by (by apply port_if_in_range_spec). congruence.
Qed.

(** ** Filters *)

(** The conditions that a query puts on a relay by itself. *)
Definition suits (q : RelayQuery) (relay_list : RelayList) (r : Relay) : Prop :=
  r ∈ relays relay_list ∧
  filter_tunnel_type (q_tunnel_protocol q) r = true ∧
  active r = true ∧
  filter_on_ownership (q_ownership q) r = true ∧
  filter_on_providers (q_providers q) r = true.
Definition located (c : Constraint LocationConstraint) (custom_lists : list CustomList) (r : Relay) : Prop :=
  filter_on_location (from_constraint c custom_lists) r = true.
Definition candidate (q : RelayQuery) (custom_lists : list CustomList) (relay_list : RelayList) (r : Relay) : Prop :=
  suits q relay_list r ∧ located (q_location q) custom_lists r ∧
  filter_on_daita (wq_daita (q_wireguard_constraints q)) r = true ∧
  filter_on_obfuscation (q_wireguard_constraints q) relay_list r = true.

Lemma include_all_spec q relay_list lists r :
  r ∈ filter_matching_relay_list_include_all q relay_list lists ↔ candidate q lists relay_list r.
Proof.
  unfold filter_matching_relay_list_include_all, candidate, suits, located.
  rewrite !elem_of_List_filter. unfold filter_on_active. tauto.
Qed.

Lemma hash_insert_elem s r x : x ∈ hash_insert s r → x ∈ s ∨ x = r.
Proof.
  unfold hash_insert. destruct (existsb _ s); [by left|]. rewrite elem_of_app, list_elem_of_singleton. tauto.
Qed.
Lemma hash_insert_nonempty s r : hash_insert s r ≠ [].
Proof. unfold hash_insert. destruct (existsb _ s) eqn:E'; [by destruct s|by destruct s]. Qed.
Lemma hash_insert_NoDup s r : NoDup (hostname <$> s) → NoDup (hostname <$> hash_insert s r).
Proof.
  intros Hs. unfold hash_insert. destruct (existsb _ s) eqn:E'; [done|].
  rewrite fmap_app. apply NoDup_app. split_and!; [done| |apply NoDup_singleton].
  intros h (x & -> & Hx)%list_elem_of_fmap Hh%list_elem_of_singleton. revert E'. apply not_false_iff_true, existsb_exists.
  exists x. rewrite <- list_elem_of_In, relay_eqb_true. done.
Qed.

Lemma hash_extend_elem l : ∀ s x, x ∈ hash_extend s l → x ∈ s ∨ x ∈ l.
Proof.
  induction l as [|r l IH]; intros s x Hx; cbn in *; [by left|].
  apply IH in Hx as [Hx|Hx]; [|by right; right]. apply hash_insert_elem in Hx as [?| ->]; [by left|right; by left].
Qed.
Lemma hash_extend_nil l : ∀ s, hash_extend s l = [] → s = [] ∧ l = [].
Proof.
  induction l as [|r l IH]; intros s Hs; cbn in *; [done|].
  apply IH in Hs as [Hs _]. by apply hash_insert_nonempty in Hs.
Qed.
Lemma hash_extend_NoDup l : ∀ s, NoDup (hostname <$> s) → NoDup (hostname <$> hash_extend s l).
Proof. induction l as [|r l IH]; intros s Hs; cbn; [done|]. apply IH. by apply hash_insert_NoDup. Qed.

(** A set filled in one round per location. *)
Section Rounds.
Context {L : Type} (f : L → list Relay).
Let rounds (s : list Relay) (ls : list L) := foldl (λ s l, hash_extend s (f l)) s ls.
Lemma rounds_elem ls : ∀ s x, x ∈ rounds s ls → x ∈ s ∨ ∃ l, l ∈ ls ∧ x ∈ f l.
Proof.
  induction ls as [|l ls IH]; intros s x Hx; cbn in *; [by left|].
  apply IH in Hx as [Hx|(k & ? & ?)]; [|right; exists k; split; [by right|done]].
  apply hash_extend_elem in Hx as [?|?]; [by left|right; exists l; split; [by left|done]].
Qed.
Lemma rounds_nil ls : ∀ s, rounds s ls = [] → s = [] ∧ ∀ l, l ∈ ls → f l = [].
Proof.
  induction ls as [|l ls IH]; intros s Hs; cbn in *; [split; [done|by intros ? ?%elem_of_nil]|].
  apply IH in Hs as [Hs Hf]. apply hash_extend_nil in Hs as [-> ?]. split; [done|].
  intros k [-> |?]%elem_of_cons; auto.
Qed.
Lemma rounds_NoDup ls : ∀ s, NoDup (hostname <$> s) → NoDup (hostname <$> rounds s ls).
Proof. induction ls as [|l ls IH]; intros s Hs; cbn; [done|]. apply IH. by apply hash_extend_NoDup. Qed.
End Rounds.

Lemma filter_negb_nil {A} (p : A → bool) l : List.filter p l = [] → List.filter (λ x, negb (p x)) l = [] → l = [].
Proof. destruct l as [|x l]; [done|]. cbn. by destruct (p x). Qed.

Lemma NoDup_hostnames_filter p (l : list Relay) :
  NoDup (hostname <$> l) → NoDup (hostname <$> List.filter p l).
Proof.
  induction l as [|r l IH]; intros Hl; cbn in *; [done|]. apply NoDup_cons in Hl as [Hr Hl].
  destruct (p r); cbn; [|auto]. apply NoDup_cons. split; [|auto].
  intros (x & Ex & [Hx _]%elem_of_List_filter)%list_elem_of_fmap. apply Hr. apply list_elem_of_fmap. eauto.
Qed.

(** What is kept for a country: its relays that are included in it, if any. *)
Lemma wp_filter_matching {E} q relay_list lists (P : list Relay → Prop) (Q : E → Prop) :
  (∀ l, (∀ r, r ∈ l → candidate q lists relay_list r) →
    (l = [] → ∀ r, ¬ candidate q lists relay_list r) →
    (NoDup (hostname <$> relays relay_list) → NoDup (hostname <$> l)) → P l) →
  wp (filter_matching_relay_list q relay_list lists) P Q.
Proof.
  intros HP. unfold filter_matching_relay_list, filter_on_include_in_country.
  set (all := filter_matching_relay_list_include_all q relay_list lists).
  assert (all = [] → ∀ r, ¬ candidate q lists relay_list r) as Hnil.
  { intros E' r Hr. apply include_all_spec in Hr. fold all in Hr. rewrite E' in Hr. by apply elem_of_nil in Hr. }
  destruct (from_constraint (q_location q) lists) as [|locations] eqn:El.
  { apply wp_ret, HP; [by intros r Hr%include_all_spec|done|].
    intros Hd. subst all. by repeat apply NoDup_hostnames_filter. }
  assert (∀ p l, l ≡ₚ foldl (λ s location, hash_extend s (List.filter (p location) all)) [] locations →
    (∀ r, r ∈ l → candidate q lists relay_list r) ∧ NoDup (hostname <$> l)) as Hset.
  { intros p l Hl. split.
    - intros r Hr. rewrite Hl in Hr. apply rounds_elem in Hr as [Hr%elem_of_nil|(k & _ & [Hr _]%elem_of_List_filter)]; [done|].
      by apply include_all_spec.
    - rewrite Hl. apply rounds_NoDup, NoDup_nil_2. }
  match goal with |- wp (match ?i with _ => _ end) _ _ => destruct i as [|r0 included] eqn:Ei end;
    apply wp_reorder; intros l Hl.
  - destruct (Hset _ _ Hl). apply HP; [done| |done]. intros -> r Hr. apply Hnil in Hr; [done|].
    symmetry in Hl. apply Permutation_nil_r in Hl. apply rounds_nil in Ei as [_ Ei], Hl as [_ Hl].
    destruct locations as [|k locations].
    + destruct Hr as (_ & Hr & _). unfold located in Hr. rewrite El in Hr. done.
    + eapply filter_negb_nil; [apply (Ei k); by left|apply (Hl k); by left].
  - rewrite <- Ei in Hl. destruct (Hset _ _ Hl). apply HP; [done| |done].
    intros ->. symmetry in Hl. apply Permutation_nil_r in Hl. congruence.
Qed.

Lemma candidate_weight q lists relay_list l :
  weights_ok (relays relay_list) → (∀ r, r ∈ l → candidate q lists relay_list r) → weights_ok l.
Proof. unfold weights_ok. rewrite !Forall_forall. intros Hw Hl r Hr. apply Hw, (Hl r Hr). Qed.
End Wp.
