(* ===== verification/RelaySelector.v ===== *)
(** * The relay selector (mullvad-relay-selector)

    relay_selector/parsed_relays.rs and relay_selector/mod.rs as built without
    the feature `staggered-obfuscation` and not for Android: the state of the
    selector, its updates, and the selection of relays and bridges.  The content
    of the relay list files and the clock are arguments. *)

From S2P Require Import Prelude NetTypes Constraints RelayTypes CustomLists RelayQuery RelayMatcher.
Import relay.

(** ** parsed_relays.rs *)

Definition UDP2TCP_PORTS : list Z := [80; 5001].

Record ParsedRelays : Set := {
  last_updated : Z;
  parsed_list : RelayList;
  original_list : RelayList;
  overrides : list RelayOverride
}.

Definition locate (country : RelayListCountry) (city : RelayListCity) (r : Relay) : Relay :=
  set_relay_location {|
    RelayTypes.country := country_name country; country_code := country_code_ country;
    RelayTypes.city := city_name city; city_code := city_code_ city;
    latitude := city_latitude city; longitude := city_longitude city |} r.

(** One pass over the relays of a city; overrides are used up. *)
Fixpoint parse_relays (country : RelayListCountry) (city : RelayListCity)
    (remaining_overrides : gmap string RelayOverride) (l : list Relay) : list Relay * gmap string RelayOverride :=
  match l with
  | [] => ([], remaining_overrides)
  | r :: l =>
      let r := locate country city r in
      let '(r, remaining_overrides) :=
        match remaining_overrides !! hostname r with
        | Some o => (apply_to_relay o r, delete (hostname r) remaining_overrides)
        | None => (r, remaining_overrides)
        end in
      let '(l, remaining_overrides) := parse_relays country city remaining_overrides l in
      (r :: l, remaining_overrides)
  end.
Fixpoint parse_cities (country : RelayListCountry) (remaining_overrides : gmap string RelayOverride)
    (l : list RelayListCity) : list RelayListCity * gmap string RelayOverride :=
  match l with
  | [] => ([], remaining_overrides)
  | c :: l =>
      let '(rs, remaining_overrides) := parse_relays country c remaining_overrides (city_relays c) in
      let '(l, remaining_overrides) := parse_cities country remaining_overrides l in
      ({| city_name := city_name c; city_code_ := city_code_ c; city_latitude := city_latitude c;
          city_longitude := city_longitude c; city_relays := rs |} :: l, remaining_overrides)
  end.
Fixpoint parse_countries (remaining_overrides : gmap string RelayOverride) (l : list RelayListCountry) :
    list RelayListCountry * gmap string RelayOverride :=
  match l with
  | [] => ([], remaining_overrides)
  | c :: l =>
      let '(cs, remaining_overrides) := parse_cities c remaining_overrides (cities c) in
      let '(l, remaining_overrides) := parse_countries remaining_overrides l in
      ({| country_name := country_name c; country_code_ := country_code_ c; cities := cs |} :: l, remaining_overrides)
  end.

Definition parse_relay_list (relay_list : RelayList) (overrides : list RelayOverride) : RelayList :=
  let remaining_overrides := foldl (λ m o, <[ro_hostname o := o]> m) (∅ : gmap string RelayOverride) overrides in
  let wg := wireguard_endpoints relay_list in
  let ports := match udp2tcp_ports wg with [] => UDP2TCP_PORTS | ports => ports end in
  {| etag := etag relay_list;
     countries := (parse_countries remaining_overrides (countries relay_list)).1;
     openvpn_ports := openvpn_ports relay_list; bridge_shadowsocks := bridge_shadowsocks relay_list;
     wireguard_endpoints := {|
       port_ranges := port_ranges wg; wg_ipv4_gateway := wg_ipv4_gateway wg; wg_ipv6_gateway := wg_ipv6_gateway wg;
       shadowsocks_port_ranges := shadowsocks_port_ranges wg; udp2tcp_ports := ports |} |}.

Definition from_relay_list (relay_list : RelayList) (last_updated : Z) (overrides : list RelayOverride) : ParsedRelays := {|
  last_updated := last_updated; parsed_list := parse_relay_list relay_list overrides;
  original_list := relay_list; overrides := overrides |}.
Definition ParsedRelays_update (now : Z) (new_relays : RelayList) (p : ParsedRelays) : ParsedRelays :=
  from_relay_list new_relays now (overrides p).
Definition ParsedRelays_set_overrides (new_overrides : list RelayOverride) (p : ParsedRelays) : ParsedRelays := {|
  last_updated := last_updated p; parsed_list := parse_relay_list (original_list p) new_overrides;
  original_list := original_list p; overrides := new_overrides |}.
Definition ParsedRelays_empty : ParsedRelays := {|
  last_updated := 0; parsed_list := RelayList_empty; original_list := RelayList_empty; overrides := [] |}.

(** ** Errors and results *)

Inductive Error : Set :=
| OpenRelayCache
| Serialize
| InvalidConstraints
| NoRelay (query : RelayQuery)
| NoBridge
| NoObfuscator
| NoEndpoint (internal : DetailerError)
| IpVersionUnavailable (family : IpVersion).

(** A relay list file: when it was modified, and the list it holds. *)
Definition from_file_inner (file : result Error (Z * RelayList)) (overrides : list RelayOverride) :
    result Error ParsedRelays :=
  '(last_modified, relay_list) ← file; Ok (from_relay_list relay_list last_modified overrides).
Definition from_file (cache_file resource_file : result Error (Z * RelayList)) (overrides : list RelayOverride) :
    result Error ParsedRelays :=
  let cached_relays := from_file_inner cache_file overrides in
  match from_file_inner resource_file overrides with
  | Err _ => cached_relays
  | Ok bundled_relays =>
      match cached_relays with
      | Ok cached =>
          if last_updated bundled_relays <? last_updated cached then cached_relays else Ok bundled_relays
      | Err _ => Ok bundled_relays
      end
  end.

Record SelectorConfig : Set := {
  relay_settings : RelaySettings;
  additional_constraints : AdditionalWireguardConstraints;
  custom_lists : list CustomList;
  relay_overrides : list RelayOverride;
  sc_obfuscation_settings : ObfuscationSettings;
  bridge_state : BridgeState;
  bridge_settings : BridgeSettings
}.
Record RelaySelector : Set := { config : SelectorConfig; parsed_relays : ParsedRelays }.

Record SelectedObfuscator : Set := { so_config : Obfuscators; so_relay : Relay }.
Definition SelectedObfuscator_from (p : ObfuscatorConfig * Relay) : SelectedObfuscator :=
  {| so_config := Single p.1; so_relay := p.2 |}.
Inductive SelectedBridge : Set :=
| SbNormal (settings : ShadowsocksProxy) (relay : Relay)
| SbCustom (settings : CustomProxy).
Definition to_proxy (b : SelectedBridge) : CustomProxy :=
  match b with
  | SbNormal s _ => CustomShadowsocks (sp_endpoint s) (sp_password s) (sp_cipher s)
  | SbCustom s => s
  end.
Definition bridge_relay (b : SelectedBridge) : option Relay :=
  match b with SbNormal _ r => Some r | SbCustom _ => None end.
Inductive GetRelay : Set :=
| GrWireguard (endpoint : MullvadWireguardEndpoint) (obfuscator : option SelectedObfuscator) (inner : WireguardConfig)
| GrOpenVpn (endpoint : Endpoint) (exit : Relay) (bridge : option SelectedBridge)
| GrCustom (e : CustomTunnelEndpoint).

Inductive SpecializedSelectorConfig : Set :=
| ScNormal (c : NormalSelectorConfig)
| ScCustom (e : CustomTunnelEndpoint).
Definition SpecializedSelectorConfig_from (c : SelectorConfig) : SpecializedSelectorConfig :=
  match relay_settings c with
  | RsCustomTunnelEndpoint e => ScCustom e
  | RsNormal user_preferences =>
      ScNormal {| user_preferences := user_preferences; additional_preferences := additional_constraints c;
                  obfuscation_settings := sc_obfuscation_settings c;
                  nc_bridge_state := bridge_state c; nc_bridge_settings := bridge_settings c |}
  end.

(** ** 64-bit floats as bit patterns *)

Definition f64_negative (b : Z) : bool := 2 ^ 63 <=? b.
Definition f64_magnitude (b : Z) : Z := b mod 2 ^ 63.
Definition f64_is_nan (b : Z) : bool := 0x7ff0000000000000 <? f64_magnitude b.
Definition f64_key (b : Z) : Z := if f64_negative b then - f64_magnitude b else f64_magnitude b.
Definition f64_le (a b : Z) : bool := negb (f64_is_nan a) && negb (f64_is_nan b) && (f64_key a <=? f64_key b).
Definition f64_max (a b : Z) : Z :=
  if f64_is_nan a then b else if f64_is_nan b then a else if f64_key a <? f64_key b then b else a.
(** [f64::total_cmp] orders -0 before +0 and the NaNs by sign and payload. *)
Definition f64_total_key (b : Z) : Z := if f64_negative b then - f64_magnitude b - 1 else f64_magnitude b.
(** The saturating cast [as u64]; [usize] has 64 bits too. *)
Definition f64_as_u64 (b : Z) : Z :=
  if f64_negative b || f64_is_nan b then 0
  else
    let exponent := Z.shiftr b 52 in
    let mantissa := 2 ^ 52 + b mod 2 ^ 52 in
    if exponent =? 0 then 0 else Z.min (2 ^ 64 - 1) (Z.shiftl mantissa (exponent - 1075)).

Record RelayWithDistance : Set := { rd_distance : Z; rd_relay : Relay }.

(** A sort by an integer key. *)
Fixpoint insert_by {A} (key : A → Z) (x : A) (l : list A) : list A :=
  match l with
  | [] => [x]
  | y :: l => if key x <=? key y then x :: y :: l else y :: insert_by key x l
  end.
Definition sort_by {A} (key : A → Z) (l : list A) : list A := foldr (insert_by key) [] l.
Fixpoint take_while {A} (p : A → bool) (l : list A) : list A :=
  match l with
  | [] => []
  | x :: l => if p x then x :: take_while p l else []
  end.
(** [Itertools::unique_by]. *)
Fixpoint unique_by_city (seen : list string) (l : list Location) : list Location :=
  match l with
  | [] => []
  | x :: l => if decide (city x ∈ seen) then unique_by_city seen l else x :: unique_by_city (city x :: seen) l
  end.

Section Select.
Context `{Host}.

Definition distance_from (l : Location) (c : Coordinates) : Z :=
  haversine_dist_deg (latitude l) (longitude l) (co_latitude c) (co_longitude c).
Definition new_with_distance_from (r : Relay) (from : Coordinates) : RelayWithDistance :=
  {| rd_distance := distance_from (location r) from; rd_relay := r |}.

(** ** WireGuard *)

(** [?] on the result of a validated update of a query. *)
Definition valid (o : option RelayQuery) : M Error RelayQuery := ok_or o InvalidConstraints.

Definition get_wireguard_singlehop_config (query : RelayQuery) (custom_lists : list CustomList)
    (parsed_relays : RelayList) : M Error (option WireguardConfig) :=
  candidates ← filter_matching_relay_list query parsed_relays custom_lists;
  r ← pick_random_relay candidates;
  match r with
  | None => mret None
  | Some exit => c ← Singlehop_new exit; mret (Some c)
  end.

(** DAITA and obfuscation are only used to the entry relay. *)
Definition exit_constraints (w : WireguardRelayQuery) : WireguardRelayQuery :=
  set_wq_obfuscation OqOff (set_wq_daita (Only false) w).

Definition get_wireguard_auto_multihop_config (query : RelayQuery) (custom_lists : list CustomList)
    (parsed_relays : RelayList) : M Error WireguardConfig :=
  exit_relay_query ← valid (set_wireguard_constraints (exit_constraints (q_wireguard_constraints query)) query);
  exit_candidates ← filter_matching_relay_list exit_relay_query parsed_relays custom_lists;
  exit ← pick_random_relay exit_candidates;
  exit ← ok_or exit (NoRelay exit_relay_query);
  entry_query ← valid (set_location Any query);
  entry_candidates ← filter_matching_relay_list entry_query parsed_relays custom_lists;
  let entry_candidates :=
    map (λ entry, new_with_distance_from entry (Coordinates_from (location exit))) entry_candidates in
  unordered ← reorder entry_candidates;
  let entry_candidates := sort_by (λ r, f64_total_key (rd_distance r)) unordered in
  let smallest_distance := default 0 (rd_distance <$> head entry_candidates) in
  let entry_candidates :=
    map rd_relay (take_while (λ r, f64_le (rd_distance r) smallest_distance) entry_candidates) in
  entry ← pick_random_relay_excluding entry_candidates exit;
  entry ← ok_or entry (NoRelay entry_query);
  Multihop_new entry exit.

Definition list_contains (l : list Relay) (r : Relay) : bool := existsb (relay_eqb r) l.
(** The guards of the first two arms: a single candidate that is also a
    candidate for the other hop. *)
Definition sole_shared (candidates others : list Relay) : option Relay :=
  match candidates with
  | [r] => if list_contains others r then Some r else None
  | _ => None
  end.
Definition pick_working_entry_exit_combo (exits entries : list Relay) : M Error (option (Relay * Relay)) :=
  match sole_shared entries exits with
  | Some entry =>
      exit ← pick_random_relay_excluding exits entry; mret ((λ exit, (exit, entry)) <$> exit)
  | None =>
      match sole_shared exits entries with
      | Some exit =>
          entry ← pick_random_relay_excluding entries exit; mret ((λ entry, (exit, entry)) <$> entry)
      | None =>
          exit ← pick_random_relay exits;
          match exit with
          | None => mret None
          | Some exit =>
              entry ← pick_random_relay_excluding entries exit; mret ((λ entry, (exit, entry)) <$> entry)
          end
      end
  end.

Definition get_wireguard_multihop_config (query : RelayQuery) (custom_lists : list CustomList)
    (parsed_relays : RelayList) : M Error WireguardConfig :=
  entry_relay_query ← valid (set_location (wq_entry_location (q_wireguard_constraints query)) query);
  exit_relay_query ← valid (set_wireguard_constraints (exit_constraints (q_wireguard_constraints query)) query);
  exit_candidates ← filter_matching_relay_list exit_relay_query parsed_relays custom_lists;
  entry_candidates ← filter_matching_relay_list entry_relay_query parsed_relays custom_lists;
  combo ← pick_working_entry_exit_combo exit_candidates entry_candidates;
  match combo with
  | Some (exit, entry) => Multihop_new entry exit
  | None =>
      let exit_candidates := filter_matching_relay_list_include_all exit_relay_query parsed_relays custom_lists in
      let entry_candidates := filter_matching_relay_list_include_all entry_relay_query parsed_relays custom_lists in
      combo ← pick_working_entry_exit_combo exit_candidates entry_candidates;
      '(exit, entry) ← ok_or combo (NoRelay query);
      Multihop_new entry exit
  end.

Definition get_wireguard_relay_config (query : RelayQuery) (custom_lists : list CustomList)
    (parsed_relays : RelayList) : M Error WireguardConfig :=
  if singlehop query then
    r ← get_wireguard_singlehop_config query custom_lists parsed_relays;
    match r with
    | Some exit => mret exit
    | None =>
        if using_daita query && use_multihop_if_necessary query then
          get_wireguard_auto_multihop_config query custom_lists parsed_relays
        else throw (NoRelay query)
    end
  else if using_daita query && use_multihop_if_necessary query then
    get_wireguard_auto_multihop_config query custom_lists parsed_relays
  else get_wireguard_multihop_config query custom_lists parsed_relays.

Definition get_wireguard_endpoint (query : RelayQuery) (parsed_relays : RelayList) (relay : WireguardConfig) :
    M Error MullvadWireguardEndpoint :=
  M_map_err NoEndpoint
    (wireguard_endpoint (q_wireguard_constraints query) (wireguard_endpoints parsed_relays) relay).

Definition get_wireguard_obfuscator (query : RelayQuery) (relay : WireguardConfig)
    (endpoint : MullvadWireguardEndpoint) (parsed_relays : RelayList) : M Error (option SelectedObfuscator) :=
  let obfuscator_relay := match relay with Singlehop exit => exit | Multihop _ entry => entry end in
  let data := wireguard_endpoints parsed_relays in
  match wq_obfuscation (q_wireguard_constraints query) with
  | OqOff => mret None
  | OqAuto => mret None
  | OqUdp2tcp settings =>
      obfs ← M_map_err (λ _, NoObfuscator)
               (get_udp2tcp_obfuscator settings (udp2tcp_ports data) obfuscator_relay endpoint);
      mret (Some (SelectedObfuscator_from obfs))
  | OqShadowsocks settings =>
      obfs ← M_map_err (λ _, NoObfuscator)
               (get_shadowsocks_obfuscator settings (shadowsocks_port_ranges data) obfuscator_relay endpoint);
      mret (Some (SelectedObfuscator_from obfs))
  | OqQuic =>
      let ip_version := resolve_ip_version (wq_ip_version (q_wireguard_constraints query)) in
      obfs ← get_quic_obfuscator obfuscator_relay ip_version;
      mret (SelectedObfuscator_from <$> obfs)
  | OqLwo => mret (SelectedObfuscator_from <$> get_lwo_obfuscator obfuscator_relay endpoint)
  end.

Definition get_wireguard_relay_inner (query : RelayQuery) (custom_lists : list CustomList)
    (parsed_relays : RelayList) : M Error GetRelay :=
  _ ← assert_ (bool_decide (q_tunnel_protocol query = Wireguard));
  inner ← get_wireguard_relay_config query custom_lists parsed_relays;
  endpoint ← get_wireguard_endpoint query parsed_relays inner;
  obfuscator ← get_wireguard_obfuscator query inner endpoint parsed_relays;
  mret (GrWireguard endpoint obfuscator inner).

(** ** OpenVPN and bridges *)

Definition choose_openvpn_relay (query : RelayQuery) (custom_lists : list CustomList) (parsed_relays : RelayList) :
    M Error (option Relay) :=
  candidates ← filter_matching_relay_list query parsed_relays custom_lists;
  pick_random_relay candidates.
Definition get_openvpn_endpoint (query : RelayQuery) (relay : Relay) (parsed_relays : RelayList) : M Error Endpoint :=
  M_map_err NoEndpoint (openvpn_endpoint (q_openvpn_constraints query) (openvpn_ports parsed_relays) relay).

Definition MIN_BRIDGE_COUNT : nat := 5.
Definition get_proximate_bridge (l : list Relay) (location : Coordinates) : M Error Relay :=
  unordered ← reorder (map (λ relay, new_with_distance_from relay location) l);
  let matching_bridges := take MIN_BRIDGE_COUNT (sort_by (λ r, f64_as_u64 (rd_distance r)) unordered) in
  match map rd_distance matching_bridges with
  | [] => throw NoBridge
  | d :: ds =>
      let greatest_distance := foldl f64_max d ds in
      let weight_fn relay := wrap 64 (1 + f64_as_u64 (f64_sub greatest_distance (rd_distance relay))) in
      r ← pick_random_relay_weighted weight_fn matching_bridges;
      ok_or (rd_relay <$> r) NoBridge
  end.

Definition get_proxy_settings (relay_list : RelayList) (constraints : InternalBridgeConstraints)
    (location : option Coordinates) (custom_lists : list CustomList) : M Error (ShadowsocksProxy * Relay) :=
  let bridges := filter_matching_bridges constraints (relays relay_list) custom_lists in
  bridge ← match location with
           | Some location => get_proximate_bridge bridges location
           | None => r ← pick_random_relay bridges; ok_or r NoBridge
           end;
  endpoint ← bridge_endpoint (bridge_shadowsocks relay_list) bridge;
  endpoint ← ok_or endpoint NoBridge;
  mret (endpoint, bridge).

Definition get_bridge_for (query : BridgeQuery) (location : Location) (transport_protocol : TransportProtocol)
    (parsed_relays : RelayList) (custom_lists : list CustomList) : M Error (option SelectedBridge) :=
  match query with
  | BqNormal settings =>
      let bridge_constraints := {|
        ib_location := bc_location settings; ib_providers := bc_providers settings;
        ib_ownership := bc_ownership settings; ib_transport_protocol := Only transport_protocol |} in
      '(settings, relay) ←
        get_proxy_settings parsed_relays bridge_constraints (Some (Coordinates_from location)) custom_lists;
      mret (Some (SbNormal settings relay))
  | BqCustom settings => mret (SbCustom <$> settings)
  | BqOff | BqAuto => mret None
  end.

Definition get_openvpn_bridge (query : RelayQuery) (relay : Relay) (protocol : TransportProtocol)
    (parsed_relays : RelayList) (custom_lists : list CustomList) : M Error (option SelectedBridge) :=
  if negb (should_use_bridge (oq_bridge_settings (q_openvpn_constraints query))) then mret None
  else
    match protocol with
    | Udp => throw NoBridge
    | Tcp => get_bridge_for (oq_bridge_settings (q_openvpn_constraints query)) (location relay) Tcp
               parsed_relays custom_lists
    end.

Definition get_openvpn_relay (query : RelayQuery) (custom_lists : list CustomList) (parsed_relays : RelayList) :
    M Error GetRelay :=
  _ ← assert_ (bool_decide (q_tunnel_protocol query = OpenVpn));
  exit ← choose_openvpn_relay query custom_lists parsed_relays;
  exit ← ok_or exit (NoRelay query);
  endpoint ← get_openvpn_endpoint query exit parsed_relays;
  bridge ← get_openvpn_bridge query exit (protocol endpoint) parsed_relays custom_lists;
  _ ← assert_ (is_openvpn exit);
  mret (GrOpenVpn endpoint exit bridge).

(** ** Selection *)

Definition get_relay_inner (query : RelayQuery) (parsed_relays : RelayList) (custom_lists : list CustomList) :
    M Error GetRelay :=
  match q_tunnel_protocol query with
  | Wireguard => get_wireguard_relay_inner query custom_lists parsed_relays
  | OpenVpn => get_openvpn_relay query custom_lists parsed_relays
  end.

Definition apply_ip_availability (runtime_ip_availability : IpAvailability) (user_query : RelayQuery) :
    M Error RelayQuery :=
  if decide (q_tunnel_protocol user_query = OpenVpn) then mret user_query
  else
    let ip_version := match runtime_ip_availability with
                      | Ipv4 => Only V4
                      | Ipv6 => Only V6
                      | Ipv4AndIpv6 => Any
                      end in
    match intersection (q_wireguard_constraints user_query) (set_wq_ip_version ip_version WireguardRelayQuery_new) with
    | Some wireguard_constraints => valid (set_wireguard_constraints wireguard_constraints user_query)
    | None =>
        match constraint_unwrap (wq_ip_version (q_wireguard_constraints user_query)) with
        | Some family => throw (IpVersionUnavailable family)
        | None => panic
        end
    end.

Section Retry.
Context (user_query : RelayQuery) (parsed_relays : RelayList) (custom_lists : list CustomList).

(** The two [filter_map]s: the first relay of the rest of the retry order, with
    what is left of it. *)
Fixpoint next_relay (queries : list RelayQuery) : M Error (option (GetRelay * list RelayQuery)) :=
  match queries with
  | [] => mret None
  | q :: rest =>
      match intersection q user_query with
      | None => next_relay rest
      | Some query =>
          r ← attempt (get_relay_inner query parsed_relays custom_lists);
          match r with
          | Some g => mret (Some (g, rest))
          | None => next_relay rest
          end
      end
  end.

(** [Iterator::cycle] and [nth]. *)
Definition cycle_next (retry_order remaining : list RelayQuery) : M Error (option (GetRelay * list RelayQuery)) :=
  y ← next_relay remaining;
  match y with
  | None => next_relay retry_order
  | Some y => mret (Some y)
  end.
Fixpoint cycle_nth (retry_order : list RelayQuery) (n : nat) (remaining : list RelayQuery) :
    M Error (option GetRelay) :=
  y ← cycle_next retry_order remaining;
  match y with
  | None => mret None
  | Some (g, rest) => match n with
                      | O => mret (Some g)
                      | S n => cycle_nth retry_order n rest
                      end
  end.
End Retry.

Definition get_relay_with_custom_params (s : RelaySelector) (retry_attempt : nat) (retry_order : list RelayQuery)
    (runtime_ip_availability : IpAvailability) : M Error GetRelay :=
  match SpecializedSelectorConfig_from (config s) with
  | ScCustom custom_config => mret (GrCustom custom_config)
  | ScNormal normal_config =>
      let relay_list := parsed_list (parsed_relays s) in
      let custom_lists := custom_lists (config s) in
      user_query ← valid (RelayQuery_try_from normal_config);
      user_query ← apply_ip_availability runtime_ip_availability user_query;
      r ← cycle_nth user_query relay_list custom_lists retry_order retry_attempt retry_order;
      r ← match r with
          | Some g => mret (Some g)
          | None => attempt (get_relay_inner user_query relay_list custom_lists)
          end;
      ok_or r (NoRelay user_query)
  end.

Definition get_relay (s : RelaySelector) (retry_attempt : nat) (runtime_ip_availability : IpAvailability) :
    M Error GetRelay :=
  match SpecializedSelectorConfig_from (config s) with
  | ScCustom custom_config => mret (GrCustom custom_config)
  | ScNormal normal_config =>
      match rc_tunnel_protocol (user_preferences normal_config) with
      | Wireguard => get_relay_with_custom_params s retry_attempt WIREGUARD_RETRY_ORDER runtime_ip_availability
      | OpenVpn => get_relay_with_custom_params s retry_attempt OPENVPN_RETRY_ORDER runtime_ip_availability
      end
  end.

Definition get_relay_by_query (s : RelaySelector) (query : RelayQuery) : M Error GetRelay :=
  match SpecializedSelectorConfig_from (config s) with
  | ScCustom custom_config => mret (GrCustom custom_config)
  | ScNormal _ => get_relay_inner query (parsed_list (parsed_relays s)) (custom_lists (config s))
  end.

Definition get_relay_midpoint (query : RelayQuery) (parsed_relays : RelayList) (custom_lists : list CustomList) :
    M Error (option Coordinates) :=
  if is_any (q_location query) then mret None
  else
    l ← filter_matching_relay_list query parsed_relays custom_lists;
    let matching_locations := unique_by_city [] (map location l) in
    mret (match matching_locations with
          | [] => None
          | _ => Some (midpoint_inner (map Coordinates_from matching_locations))
          end).

Definition get_bridge_forced (s : RelaySelector) : M Error (option ShadowsocksProxy) :=
  let relay_list := parsed_list (parsed_relays s) in
  let custom_lists := custom_lists (config s) in
  near_location ←
    match SpecializedSelectorConfig_from (config s) with
    | ScNormal config =>
        match RelayQuery_try_from config with
        | Some user_preferences => get_relay_midpoint user_preferences relay_list custom_lists
        | None => mret None
        end
    | ScCustom _ => mret None
    end;
  let constraints :=
    match bridge_settings_resolve (bridge_settings (config s)) with
    | Ok (RbNormal settings) =>
        {| ib_location := bc_location settings; ib_providers := bc_providers settings;
           ib_ownership := bc_ownership settings; ib_transport_protocol := Only Tcp |}
    | _ => {| ib_location := Any; ib_providers := Any; ib_ownership := Any; ib_transport_protocol := Only Tcp |}
    end in
  r ← attempt (get_proxy_settings relay_list constraints near_location custom_lists);
  mret (fst <$> r).
End Select.

(** ** The state of the selector *)

Definition RelaySelector_new (c : SelectorConfig) (cache_file resource_file : result Error (Z * RelayList)) :
    RelaySelector := {|
  config := c;
  parsed_relays := match from_file cache_file resource_file (relay_overrides c) with
                   | Ok p => p
                   | Err _ => ParsedRelays_empty
                   end |}.
Definition RelaySelector_from_list (now : Z) (c : SelectorConfig) (l : RelayList) : RelaySelector :=
  {| config := c; parsed_relays := from_relay_list l now (relay_overrides c) |}.
Definition set_overrides (o : list RelayOverride) (s : RelaySelector) : RelaySelector :=
  {| config := config s; parsed_relays := ParsedRelays_set_overrides o (parsed_relays s) |}.
Definition set_config (c : SelectorConfig) (s : RelaySelector) : RelaySelector :=
  let s := set_overrides (relay_overrides c) s in
  {| config := c; parsed_relays := parsed_relays s |}.
Definition set_relays (now : Z) (l : RelayList) (s : RelaySelector) : RelaySelector :=
  {| config := config s; parsed_relays := ParsedRelays_update now l (parsed_relays s) |}.
Definition get_relays (s : RelaySelector) : RelayList := original_list (parsed_relays s).
Definition selector_etag (s : RelaySelector) : option string := etag (parsed_list (parsed_relays s)).
Definition selector_last_updated (s : RelaySelector) : Z := last_updated (parsed_relays s).
