(* ===== verification/RelayTheorems.v ===== *)
(** * Theorems on the relay selector

    What [RelaySelector::get_relay] answers respects the user's settings and
    never panics; when it finds a relay; picking distinct hops. *)

From S2P Require Import Prelude NetTypes Constraints RelayTypes CustomLists RelayQuery RelayMatcher.
From S2P Require Import RelaySelector.
Import relay.

(** ** What an answer promises *)

Definition first_hop (c : WireguardConfig) : Relay :=
  match c with Singlehop exit => exit | Multihop _ entry => entry end.

(** DAITA may add an entry relay of the selector's choice. *)
Definition auto_entry (w : WireguardRelayQuery) : Prop :=
  wq_daita w ≠ Only false ∧ wq_daita_use_multihop_if_necessary w ≠ Only false.

Definition config_ok (q : RelayQuery) (lists : list CustomList) (l : RelayList) (c : WireguardConfig) : Prop :=
  let w := q_wireguard_constraints q in
  filter_on_daita (wq_daita w) (first_hop c) = true ∧
  match c with
  | Singlehop exit => suits q l exit ∧ located (q_location q) lists exit ∧ wq_use_multihop w ≠ Only true
  | Multihop exit entry =>
      suits q l exit ∧ located (q_location q) lists exit ∧ suits q l entry ∧ hostname entry ≠ hostname exit ∧
      (located (wq_entry_location w) lists entry ∨ auto_entry w) ∧
      (wq_use_multihop w ≠ Only false ∨ auto_entry w)
  end.

Definition allowed_ok (w : WireguardRelayQuery) (d : WireguardEndpointData) (p : wireguard.PeerConfig) : Prop :=
  ∀ a, wq_allowed_ips w = Only a →
    wireguard.allowed_ips p = resolve_from_constraint (Only a) (Some (wg_ipv4_gateway d)) (Some (wg_ipv6_gateway d)).

Definition has_key (r : Relay) (p : wireguard.PeerConfig) : Prop :=
  ∃ d, endpoint_data r = EdWireguard d ∧ wireguard.public_key p = public_key d.

Definition endpoint_ok (q : RelayQuery) (l : RelayList) (c : WireguardConfig) (e : MullvadWireguardEndpoint) : Prop :=
  let w := q_wireguard_constraints q in
  let d := wireguard_endpoints l in
  let first := first_hop c in
  let ip := sock_ip (peer_endpoint e) in
  (ip = AddrV4 (ipv4_addr_in first) ∨ ∃ a, ipv6_addr_in first = Some a ∧ ip = AddrV6 a) ∧
  (∀ v, wq_ip_version w = Only v → ip_version_of ip = v) ∧
  port_allowed (port_ranges d) (sock_port (peer_endpoint e)) ∧
  (∀ p, wq_port w = Only p → sock_port (peer_endpoint e) = p) ∧
  has_key first (mw_peer e) ∧
  match c with
  | Singlehop _ => mw_exit_peer e = None ∧ allowed_ok w d (mw_peer e)
  | Multihop exit _ =>
      wireguard.allowed_ips (mw_peer e) = [NetV4 (ipv4_addr_in exit) 32] ∧
      ∃ p, mw_exit_peer e = Some p ∧ has_key exit p ∧ allowed_ok w d p ∧
        wireguard.endpoint p = SockV4 (ipv4_addr_in exit) WIREGUARD_EXIT_PORT
  end.

Definition obfuscator_ok (q : RelayQuery) (l : RelayList) (first : Relay) (e : MullvadWireguardEndpoint)
    (o : option SelectedObfuscator) : Prop :=
  let w := q_wireguard_constraints q in
  let ip := sock_ip (peer_endpoint e) in
  match wq_obfuscation w with
  | OqOff => o = None
  | OqAuto => True
  | OqUdp2tcp s => ∃ p,
      o = Some {| so_config := Single (Udp2Tcp (SocketAddr_new ip p)); so_relay := first |} ∧
      p ∈ udp2tcp_ports (wireguard_endpoints l) ∧ (∀ d, u2t_port s = Only d → p = d)
  | OqShadowsocks s => ∃ a p data,
      o = Some {| so_config := Single (Shadowsocks (SocketAddr_new a p)); so_relay := first |} ∧
      endpoint_data first = EdWireguard data ∧ (a = ip ∨ a ∈ shadowsocks_extra_addr_in data) ∧
      ip_version_of a = ip_version_of ip ∧ (∀ d, sss_port s = Only d → p = d)
  | OqQuic =>
      (∃ data k a, endpoint_data first = EdWireguard data ∧ quic data = Some k ∧ a ∈ addr_in k ∧
        o = Some {| so_config := Single (NetTypes.Quic (domain k) (SocketAddr_new a quic_port) (token k));
                    so_relay := first |}) ∨
      (o = None ∧ wq_ip_version w = Any)
  | OqLwo => o = Some {| so_config := Single (Lwo (SocketAddr_new ip (sock_port (peer_endpoint e))));
                         so_relay := first |}
  end.

Definition bridge_ok (b : BridgeQuery) (lists : list CustomList) (l : RelayList) (o : option SelectedBridge) : Prop :=
  match b with
  | BqOff => o = None
  | BqAuto => True
  | BqNormal c => ∃ s r, o = Some (SbNormal s r) ∧ r ∈ relays l ∧ active r = true ∧ filter_bridge r = true ∧
      located (bc_location c) lists r ∧ filter_on_ownership (bc_ownership c) r = true ∧
      filter_on_providers (bc_providers c) r = true
  | BqCustom p => o = SbCustom <$> p
  end.

Definition answers (q : RelayQuery) (lists : list CustomList) (l : RelayList) (a : GetRelay) : Prop :=
  match a with
  | GrWireguard e o c =>
      q_tunnel_protocol q = Wireguard ∧ config_ok q lists l c ∧ endpoint_ok q l c e ∧
      obfuscator_ok q l (first_hop c) e o
  | GrOpenVpn e exit b =>
      q_tunnel_protocol q = OpenVpn ∧ suits q l exit ∧ located (q_location q) lists exit ∧
      sock_ip (address e) = AddrV4 (ipv4_addr_in exit) ∧
      compatible_openvpn_port_combo (oq_port (q_openvpn_constraints q))
        {| ovpn_port := sock_port (address e); ovpn_protocol := protocol e |} = true ∧
      (b ≠ None → protocol e = Tcp) ∧ bridge_ok (oq_bridge_settings (q_openvpn_constraints q)) lists l b
  | GrCustom _ => False
  end.

(** ** More specific queries promise more *)

Ltac le_cases H := cbv [sqsubseteq Constraint_le eq_le] in H.

Lemma constraint_eq_le {T} (r u : Constraint T) :
  (match u, r with Any, _ => True | Only b, Only a => a = b | Only _, Any => False end) → u = Any ∨ r = u.
Proof. destruct u, r; intros E; [by left|by left|done|right; by rewrite E]. Qed.

Lemma suits_mono r u l x :
  r ⊑ u → suits r l x → suits u l x.
Proof.
  intros (_ & Hp & Ho & Ht & _) (H1 & H2 & H3 & H4 & H5).
  apply constraint_eq_le in Hp, Ho. unfold suits. split_and!; try done.
  - by rewrite <- (Ht : _ = _).
  - destruct Ho as [->|<-]; done.
  - destruct Hp as [->|<-]; done.
Qed.

Lemma located_mono (r u : Constraint LocationConstraint) lists x : r ⊑ u → located r lists x → located u lists x.
Proof. intros [-> | <-]%constraint_eq_le; done. Qed.

Lemma only_mono {T} (r u : Constraint T) t :
  (match u, r with Any, _ => True | Only b, Only a => a = b | Only _, Any => False end) → u = Only t → r = Only t.
Proof. intros [-> | <-]%constraint_eq_le; done. Qed.

Lemma daita_mono (r u : Constraint bool) x : r ⊑ u → filter_on_daita r x = true → filter_on_daita u x = true.
Proof. intros [-> | <-]%constraint_eq_le; done. Qed.

Lemma auto_mono r u : r ⊑ u → auto_entry r → auto_entry u.
Proof.
  intros (_&_&_&_&_&_&Hd&Hn&_) [H1 H2]. split; intros E; [apply H1|apply H2]; by eapply only_mono.
Qed.

Lemma config_mono r u lists l c : r ⊑ u → config_ok r lists l c → config_ok u lists l c.
Proof.
  intros Hle [Hd Hc]. pose proof Hle as (Hl & _ & _ & _ & Hw & _).
  pose proof (auto_mono _ _ Hw) as Ha. pose proof Hw as (_&_&_&Hm&He&_&Hda&_).
  pose proof (suits_mono r u l) as Hs. split; [by eapply daita_mono|].
  destruct c as [exit|exit entry].
  - destruct Hc as (H1 & H2 & H3). split_and!; [auto|by eapply located_mono|].
    intros E. apply H3. by eapply only_mono.
  - destruct Hc as (H1 & H2 & H3 & H4 & H5 & H6). split_and!; [auto|by eapply located_mono|auto|done|..].
    + destruct H5; [left; by eapply located_mono|right; auto].
    + destruct H6 as [H6|]; [left|right; auto]. intros E. apply H6. by eapply only_mono.
Qed.

Lemma endpoint_mono r u l c e : r ⊑ u → endpoint_ok r l c e → endpoint_ok u l c e.
Proof.
  intros (_ & _ & _ & _ & (Hp & Hv & Ha & _) & _) (H1 & H2 & H3 & H4 & H5 & H6).
  split_and!; try done.
  - intros v E. apply H2. by eapply only_mono.
  - intros p E. apply H4. by eapply only_mono.
  - assert (∀ d p, allowed_ok (q_wireguard_constraints r) d p → allowed_ok (q_wireguard_constraints u) d p) as Hal.
    { intros d p K a E. apply K. by eapply only_mono. }
    destruct c; [naive_solver|]. destruct H6 as (? & p & ? & ? & ? & ?). split; [done|]. exists p. auto.
Qed.

Lemma obfuscator_mono r u l f e o : r ⊑ u → obfuscator_ok r l f e o → obfuscator_ok u l f e o.
Proof.
  intros (_ & _ & _ & _ & (_ & Hv & _ & _ & _ & Ho & _) & _). unfold obfuscator_ok.
  destruct (wq_obfuscation (q_wireguard_constraints r)) as [| |s|s| |],
    (wq_obfuscation (q_wireguard_constraints u)) as [| |t|t| |]; try done.
  - intros (p & ? & ? & K). exists p. split_and!; [done..|]. intros d E. apply K. by eapply only_mono.
  - intros (a & p & data & ? & ? & ? & ? & K). exists a, p, data. split_and!; [done..|].
    intros d E. apply K. by eapply only_mono.
  - intros [?|[? E]]; [by left|right]. split; [done|]. apply constraint_eq_le in Hv as [-> | <-]; done.
Qed.

Lemma bridge_mono (r u : BridgeQuery) lists l o : r ⊑ u → bridge_ok r lists l o → bridge_ok u lists l o.
Proof.
  intros Hle. destruct u as [| |d|p]; [|done| |]; cbn in *.
  - change (match r with _ => r = BqOff end) in Hle. destruct r; simplify_eq; done.
  - destruct r as [| |c|]; try done. destruct Hle as (Hl & Hp & Ho).
    intros (s & x & ? & ? & ? & ? & ? & ? & ?). exists s, x. apply constraint_eq_le in Hp, Ho.
    split_and!; try done; [by eapply located_mono|destruct Ho as [-> | <-]; done|destruct Hp as [-> | <-]; done].
  - by destruct r; simplify_eq.
Qed.

Lemma port_combo_mono (r u : Constraint TransportPort) e :
  r ⊑ u → compatible_openvpn_port_combo r e = true → compatible_openvpn_port_combo u e = true.
Proof.
  destruct u as [|[pu tu]], r as [|[pr tr]]; try done. intros [Hp Ht]. cbn in *.
  assert (pr = pu) as -> by exact Hp. apply constraint_eq_le in Ht as [-> | ->]; [|done].
  destruct tr; [done|]. intros [_ ?]%andb_true_iff. done.
Qed.

Lemma answers_mono r u lists l a : r ⊑ u → answers r lists l a → answers u lists l a.
Proof.
  intros Hle. pose proof Hle as (Hl & _ & _ & Ht & _ & Hp & Hb). destruct a as [e o c|e exit b|]; cbn; [| |done].
  - intros (? & ? & ? & ?). split_and!; [by rewrite <- (Ht : _ = _)|by eapply config_mono|by eapply endpoint_mono|
      by eapply obfuscator_mono].
  - intros (? & ? & ? & ? & ? & ? & ?). split_and!; try done; [by rewrite <- (Ht : _ = _)|by eapply suits_mono|
      by eapply located_mono|by eapply port_combo_mono|by eapply bridge_mono].
Qed.

(** ** Every stage keeps the promise *)

Lemma validate_wireguard q : q_tunnel_protocol q = Wireguard → validate q = Some q.
Proof.
  intros E. unfold validate. destruct (core_privacy_feature_enabled q); [|done].
  rewrite decide_False by congruence. f_equal. destruct q. cbn in *. by subst.
Qed.

Lemma tunnel_wireguard r : filter_tunnel_type Wireguard r = true → ∃ d, endpoint_data r = EdWireguard d.
Proof. unfold filter_tunnel_type, filter_wireguard, is_wireguard. destruct (endpoint_data r); naive_solver. Qed.

Section Sound.
Context `{Host} (lists : list CustomList) (l : RelayList).
Hypothesis weights : weights_ok (relays l).

(** The hop that is connected to can be obfuscated as the query asks. *)
Definition config_post (q : RelayQuery) (c : WireguardConfig) : Prop :=
  config_ok q lists l c ∧ filter_on_obfuscation (q_wireguard_constraints q) l (first_hop c) = true.

Lemma is_wireguard_suits q r : q_tunnel_protocol q = Wireguard → suits q l r → is_wireguard r = true.
Proof. intros E (_ & K & _). by rewrite E in K. Qed.

Lemma Singlehop_new_spec {E} r (P : WireguardConfig → Prop) (Q : E → Prop) :
  is_wireguard r = true → P (Singlehop r) → wp (Singlehop_new r) P Q.
Proof. intros. apply wp_bind, wp_assert; [done|]. by apply wp_ret. Qed.
Lemma Multihop_new_spec {E} entry exit (P : WireguardConfig → Prop) (Q : E → Prop) :
  is_wireguard entry = true → is_wireguard exit = true → P (Multihop exit entry) → wp (Multihop_new entry exit) P Q.
Proof. intros. do 2 (apply wp_bind, wp_assert; [done|]). by apply wp_ret. Qed.

Lemma singlehop_spec q :
  q_tunnel_protocol q = Wireguard → singlehop q = true →
  wp (get_wireguard_singlehop_config q lists l)
    (λ o, match o with
          | Some c => config_post q c ∧ ∃ exit, c = Singlehop exit
          | None => ∀ r, ¬ candidate q lists l r
          end) (λ _, False).
Proof using weights.
  intros Hq Hs. apply wp_bind, wp_filter_matching. intros cs Hc Hnil _.
  apply wp_bind, wp_pick; [by eapply candidate_weight|intros E; apply wp_ret; auto|].
  intros exit Hin. apply wp_bind. apply Hc in Hin as (Hsu & Hlo & Hd & Ho).
  apply Singlehop_new_spec; [by eapply is_wireguard_suits|]. apply wp_ret.
  split; [|by eexists]. split; [|done].
  split_and!; [done..|]. unfold singlehop, multihop in Hs. intros E. by rewrite E in Hs.
Qed.

(** The queries for the two hops. *)
Lemma exit_query_spec q :
  q_tunnel_protocol q = Wireguard →
  set_wireguard_constraints (exit_constraints (q_wireguard_constraints q)) q =
    Some (set_q_wireguard (exit_constraints (q_wireguard_constraints q)) q).
Proof. intros E. by apply validate_wireguard. Qed.
Lemma entry_query_spec q c :
  q_tunnel_protocol q = Wireguard → set_location c q = Some (set_q_location c q).
Proof. intros E. by apply validate_wireguard. Qed.

Lemma exit_candidate q r :
  candidate (set_q_wireguard (exit_constraints (q_wireguard_constraints q)) q) lists l r →
  suits q l r ∧ located (q_location q) lists r.
Proof. by intros (? & ? & _). Qed.

Lemma elem_of_sort_by {A} key (k : list A) x : x ∈ sort_by key k ↔ x ∈ k.
Proof.
  assert (∀ y k, insert_by key y k ≡ₚ y :: k) as Hi.
  { intros y k'. induction k' as [|z k' IH]; cbn; [done|]. destruct (_ <=? _); [done|]. rewrite IH. apply Permutation_swap. }
  assert (sort_by key k ≡ₚ k) as ->; [|done]. induction k as [|y k IH]; cbn; [done|]. by rewrite Hi, IH.
Qed.
Lemma elem_of_take_while {A} p (k : list A) x : x ∈ take_while p k → x ∈ k.
Proof.
  induction k as [|y k IH]; cbn; [done|]. destruct (p y); [|by intros ?%elem_of_nil].
  intros [->|?]%elem_of_cons; [by left|right; auto].
Qed.

Lemma auto_multihop_spec q :
  q_tunnel_protocol q = Wireguard → using_daita q && use_multihop_if_necessary q = true →
  wp (get_wireguard_auto_multihop_config q lists l) (config_post q) (λ _, True).
Proof using weights.
  intros Hq [Hd Hn]%andb_true_iff. unfold get_wireguard_auto_multihop_config, valid.
  rewrite exit_query_spec, entry_query_spec by done.
  apply wp_bind, wp_ret, wp_bind, wp_filter_matching. intros xs Hx _ _.
  apply wp_bind, wp_pick; [by eapply candidate_weight|intros; by apply wp_bind, wp_throw|].
  intros exit Hexit. apply wp_bind, wp_ret. apply Hx, exit_candidate in Hexit as [Hs Hl].
  apply wp_bind, wp_ret, wp_bind, wp_filter_matching. intros es He _ _.
  apply wp_bind, wp_reorder. intros un Hun.
  apply wp_bind, wp_pick_excluding.
  - eapply candidate_weight; [done|]. intros r (d & -> & Hr%elem_of_take_while%elem_of_sort_by)%list_elem_of_fmap.
    rewrite Hun in Hr. apply list_elem_of_fmap in Hr as (r & -> & Hr). apply He, Hr.
  - intros _. by apply wp_bind, wp_throw.
  - intros entry (d & -> & Hr%elem_of_take_while%elem_of_sort_by)%list_elem_of_fmap Hne.
    rewrite Hun in Hr. apply list_elem_of_fmap in Hr as (entry & -> & Hr).
    apply He in Hr as (Hse & _ & Hde & Ho). cbn in Hse, Hde, Ho, Hne |- *. apply wp_bind, wp_ret.
    assert (auto_entry (q_wireguard_constraints q)) as Ha.
    { split; intros E; [unfold using_daita in Hd; by rewrite E in Hd|].
      unfold use_multihop_if_necessary in Hn. by rewrite E in Hn. }
    apply Multihop_new_spec; [by eapply is_wireguard_suits|by eapply is_wireguard_suits|].
    split; [|done]. split_and!; try done; by right.
Qed.

Lemma sole_shared_some cs others r : sole_shared cs others = Some r → cs = [r] ∧ ∃ x, x ∈ others ∧ hostname x = hostname r.
Proof.
  unfold sole_shared. destruct cs as [|c [|]]; [done| |done]. unfold list_contains.
  destruct (existsb _ others) eqn:E; [|done]. intros [= ->]. split; [done|].
  apply existsb_exists in E as (x & Hx & E). exists x. rewrite list_elem_of_In. by apply relay_eqb_true in E.
Qed.
Lemma sole_shared_none r others x : sole_shared [r] others = None → x ∈ others → hostname r ≠ hostname x.
Proof.
  cbn. unfold list_contains. destruct (existsb _ others) eqn:E; [done|]. intros _ Hx Eh. revert E.
  apply not_false_iff_true, existsb_exists. exists x. rewrite <- list_elem_of_In. by rewrite relay_eqb_true.
Qed.

(** Picks two distinct hops, whenever there are any. *)
Lemma combo_spec exits entries :
  weights_ok exits → weights_ok entries →
  wp (pick_working_entry_exit_combo exits entries)
    (λ o, match o with
          | Some (exit, entry) => exit ∈ exits ∧ entry ∈ entries ∧ hostname entry ≠ hostname exit
          | None => NoDup (hostname <$> entries) → ∀ x y, x ∈ exits → y ∈ entries → hostname x = hostname y
          end) (λ _, False).
Proof using.
  intros Hx He. unfold pick_working_entry_exit_combo.
  destruct (sole_shared entries exits) as [entry|] eqn:E1.
  { apply sole_shared_some in E1 as [-> _]. apply wp_bind, wp_pick_excluding; [done|..].
    - intros Hall. apply wp_ret. intros _ x y Hxin ->%list_elem_of_singleton. auto.
    - intros exit Hin Hne. apply wp_ret. split_and!; [done|by left|done]. }
  destruct (sole_shared exits entries) as [exit|] eqn:E2.
  { apply sole_shared_some in E2 as [-> _]. apply wp_bind, wp_pick_excluding; [done|..].
    - intros Hall. apply wp_ret. intros _ x y ->%list_elem_of_singleton Hyin. symmetry. auto.
    - intros entry Hin Hne. apply wp_ret. split_and!; [by left|done|done]. }
  apply wp_bind, wp_pick; [done|..].
  { intros ->. apply wp_ret. by intros _ x y ?%elem_of_nil. }
  intros exit Hexit. apply wp_bind, wp_pick_excluding; [done|..].
  - intros Hall. apply wp_ret. intros Hd x y _ Hy. exfalso. destruct entries as [|e [|e2 entries]].
    + by apply elem_of_nil in Hy.
    + eapply sole_shared_none; [done|exact Hexit|]. apply Hall. by left.
    + cbn in Hd. apply NoDup_cons in Hd as [Hd _]. apply Hd. rewrite (Hall e) by (by left).
      rewrite <- (Hall e2) by (right; by left). by left.
  - intros entry Hin Hne. by apply wp_ret.
Qed.

Lemma multihop_spec q :
  q_tunnel_protocol q = Wireguard → singlehop q = false →
  wp (get_wireguard_multihop_config q lists l) (config_post q) (λ _, True).
Proof using weights.
  intros Hq Hm. unfold get_wireguard_multihop_config, valid. rewrite exit_query_spec, entry_query_spec by done.
  assert (∀ exit entry,
    candidate (set_q_wireguard (exit_constraints (q_wireguard_constraints q)) q) lists l exit →
    candidate (set_q_location (wq_entry_location (q_wireguard_constraints q)) q) lists l entry →
    hostname entry ≠ hostname exit → wp (Multihop_new entry exit) (config_post q) (λ _ : Error, True)) as Hfin.
  { intros exit entry [Hsx Hlx]%exit_candidate (Hse & Hle & Hde & Hoe) Hne.
    apply Multihop_new_spec; [by eapply is_wireguard_suits|by eapply is_wireguard_suits|].
    split; [|done]. split_and!; try done; [by left|left]. intros E. unfold singlehop, multihop in Hm. by rewrite E in Hm. }
  apply wp_bind, wp_ret, wp_bind, wp_ret, wp_bind, wp_filter_matching. intros xs Hx _ _.
  apply wp_bind, wp_filter_matching. intros es He _ _.
  apply wp_bind. eapply wp_mono; [apply combo_spec; by eapply candidate_weight| |done].
  intros [[exit entry]|].
  - intros (? & ? & ?). auto.
  - intros _. apply wp_bind. eapply wp_mono; [apply combo_spec| |done].
    1,2: eapply candidate_weight; [done|]; intros r; apply include_all_spec.
    intros [[exit entry]|]; [|intros _; by apply wp_bind, wp_throw].
    intros (?%include_all_spec & ?%include_all_spec & ?). apply wp_bind, wp_ret. auto.
Qed.

Lemma relay_config_spec q :
  q_tunnel_protocol q = Wireguard → wp (get_wireguard_relay_config q lists l) (config_post q) (λ _, True).
Proof using weights.
  intros Hq. unfold get_wireguard_relay_config. destruct (singlehop q) eqn:Hs.
  - apply wp_bind. eapply wp_mono; [by apply singlehop_spec| |done]. intros [c|].
    + intros [Hc _]. by apply wp_ret.
    + intros _. destruct (_ && _) eqn:Ha; [by apply auto_multihop_spec|by apply wp_throw].
  - destruct (_ && _) eqn:Ha; [by apply auto_multihop_spec|by apply multihop_spec].
Qed.

Lemma address_spec q r :
  wp (get_address_for_wireguard_relay (q_wireguard_constraints q) r)
    (λ ip, ip_version_of ip = resolve_ip_version (wq_ip_version (q_wireguard_constraints q)) ∧
      (ip = AddrV4 (ipv4_addr_in r) ∨ ∃ a, ipv6_addr_in r = Some a ∧ ip = AddrV6 a)) (λ _, True).
Proof using.
  unfold get_address_for_wireguard_relay. destruct (resolve_ip_version _).
  - apply wp_ret. split; [done|by left].
  - apply wp_ok_or; [|done]. intros ip (a & E & ->)%fmap_Some. split; [done|]. right. eauto.
Qed.
Lemma resolve_only v w : v = Only w → resolve_ip_version v = w.
Proof. intros ->. by destruct w. Qed.

Lemma port_spec q :
  wp (get_port_for_wireguard_relay (q_wireguard_constraints q) (wireguard_endpoints l))
    (λ p, port_allowed (port_ranges (wireguard_endpoints l)) p ∧
      ∀ d, wq_port (q_wireguard_constraints q) = Only d → p = d) (λ _, True).
Proof using. apply wp_map_err, wp_port; auto. Qed.

Lemma public_key_spec r d (P : list Z → Prop) (Q : DetailerError → Prop) :
  endpoint_data r = EdWireguard d → P (public_key d) → wp (get_public_key r) P Q.
Proof using. intros E ?. unfold get_public_key. rewrite E. by apply wp_ret. Qed.

Lemma sock_ip_new ip p : sock_ip (SocketAddr_new ip p) = ip.
Proof. by destruct ip. Qed.
Lemma sock_port_new ip p : sock_port (SocketAddr_new ip p) = p.
Proof. by destruct ip. Qed.

Lemma endpoint_spec q c :
  q_tunnel_protocol q = Wireguard → config_ok q lists l c →
  wp (get_wireguard_endpoint q l c)
    (λ e, endpoint_ok q l c e ∧
      ip_version_of (sock_ip (peer_endpoint e)) = resolve_ip_version (wq_ip_version (q_wireguard_constraints q)))
    (λ _, True).
Proof using.
  intros Hq Hc. apply wp_map_err. destruct c as [exit|exit entry]; cbn.
  - destruct Hc as (_ & (_ & Ht & _) & _). rewrite Hq in Ht. apply tunnel_wireguard in Ht as [d Hd].
    apply wp_bind. eapply wp_mono; [apply address_spec| |done]. intros ip [Hv Hip].
    apply wp_bind. eapply wp_mono; [apply port_spec| |done]. intros p [Hp Hpd].
    apply wp_bind. eapply public_key_spec; [done|]. apply wp_ret. unfold endpoint_ok, peer_endpoint. cbn.
    rewrite sock_ip_new, sock_port_new. split_and!; try done.
    + intros v E. rewrite Hv. by apply resolve_only.
    + by exists d.
    + intros a E. by rewrite E.
  - destruct Hc as (_ & (_ & Htx & _) & _ & (_ & Hte & _) & _). rewrite Hq in Htx, Hte.
    apply tunnel_wireguard in Htx as [dx Hdx], Hte as [de Hde].
    apply wp_bind. eapply public_key_spec; [done|].
    apply wp_bind. eapply wp_mono; [apply address_spec| |done]. intros ip [Hv Hip].
    apply wp_bind. eapply wp_mono; [apply port_spec| |done]. intros p [Hp Hpd].
    apply wp_bind. eapply public_key_spec; [done|]. apply wp_ret. unfold endpoint_ok, peer_endpoint. cbn.
    rewrite sock_ip_new, sock_port_new. split_and!; try done.
    + intros v E. rewrite Hv. by apply resolve_only.
    + by exists de.
    + eexists. split_and!; [done|by exists dx| |done]. intros a E. by rewrite E.
Qed.

Lemma udp2tcp_spec s ports (P : Z → Prop) (Q : PortError → Prop) :
  (∀ p, p ∈ ports → (∀ d, u2t_port s = Only d → p = d) → P p) → Q NoMatchingPort →
  wp (get_udp2tcp_obfuscator_port s ports) P Q.
Proof using.
  intros HP HQ. apply wp_bind. destruct (u2t_port s) as [|d].
  - apply wp_choose; [intros _; by apply wp_throw|]. intros p Hp. apply wp_ret. by apply HP.
  - apply wp_ret, wp_ok_or; [|done]. intros p [Hp ->%Z.eqb_eq]%find_some.
    apply HP; [by apply list_elem_of_In|by intros ? [= ->]].
Qed.

Lemma shadowsocks_spec ip ranges extra desired (P : SocketAddr → Prop) (Q : PortError → Prop) :
  (∀ a p, a = ip ∨ a ∈ extra → ip_version_of a = ip_version_of ip → (∀ d, desired = Only d → p = d) →
    P (SocketAddr_new a p)) → Q NoMatchingPort →
  wp (get_shadowsocks_obfuscator_inner ip ranges extra desired) P Q.
Proof using.
  intros HP HQ. set (same := λ addr, bool_decide (addr_is_ipv4 addr = addr_is_ipv4 ip)).
  assert (∀ rs a, a = ip ∨ a ∈ extra → ip_version_of a = ip_version_of ip →
    wp (desired_or_random_port_from_range rs desired ≫= λ p, mret (SocketAddr_new a p)) P Q) as Hfin.
  { intros rs a Ha Hv. apply wp_bind, wp_port; [|done]. intros p _ Hp. apply wp_ret. auto. }
  unfold get_shadowsocks_obfuscator_inner. fold same. apply wp_bind, wp_choose.
  - intros E. rewrite E. cbn. apply Hfin; auto.
  - intros a Ha. pose proof Ha as [Hin Hs%bool_decide_eq_true]%elem_of_List_filter.
    destruct (List.filter same extra); [by apply elem_of_nil in Ha|]. apply Hfin; [by right|]. cbn. by destruct a, ip.
Qed.

Lemma obfuscator_spec q c e :
  q_tunnel_protocol q = Wireguard → config_post q c → endpoint_ok q l c e →
  ip_version_of (sock_ip (peer_endpoint e)) = resolve_ip_version (wq_ip_version (q_wireguard_constraints q)) →
  wp (get_wireguard_obfuscator q c e l) (obfuscator_ok q l (first_hop c) e) (λ _, True).
Proof using.
  intros Hq [_ Hfo] (Hip & _ & _ & _ & (data & Hdata & _) & _) Hv.
  unfold get_wireguard_obfuscator. change (match c with Singlehop exit => exit | Multihop _ entry => entry end) with (first_hop c).
  assert (wireguard_data (first_hop c) = Some data) as Hwd by (unfold wireguard_data; by rewrite Hdata).
  unfold filter_on_obfuscation in Hfo. rewrite Hwd in Hfo. unfold obfuscator_ok.
  destruct (wq_obfuscation (q_wireguard_constraints q)) as [| |s|s| |].
  - by apply wp_ret.
  - by apply wp_ret.
  - apply wp_bind, wp_map_err, wp_bind, udp2tcp_spec; [|done]. intros p Hp Hd. apply wp_ret, wp_ret. eauto.
  - apply wp_bind, wp_map_err. unfold get_shadowsocks_obfuscator. rewrite Hdata.
    apply wp_bind, shadowsocks_spec; [|done]. intros a p Ha Hva Hp. apply wp_ret, wp_ret. by exists a, p, data.
  - unfold get_quic_obfuscator. rewrite Hwd. cbn. destruct (quic data) as [k|] eqn:Hk; [|done]. apply wp_bind, wp_bind, wp_choose.
    + intros E. apply wp_ret, wp_ret. right. split; [done|]. destruct (wq_ip_version _) as [|[]]; [done|..]; cbn in E;
        apply fmap_nil_inv in E; rewrite E in Hfo; done.
    + intros a Ha. apply wp_ret, wp_ret. left. exists data, k, a. split_and!; [done..| |done].
      destruct (resolve_ip_version _); apply list_elem_of_fmap in Ha as (x & -> & Hx);
        apply list_elem_of_omap in Hx as (y & Hy & E); destruct y; by simplify_eq.
  - unfold get_lwo_obfuscator. rewrite Hwd. cbn. rewrite Hfo. cbn. apply wp_ret.
    destruct Hip as [Hip|(a & Ha & Hip)]; destruct (peer_endpoint e) as [x p|x p fl sc]; cbn in *; simplify_eq; [done|].
    by rewrite Ha.
Qed.

Lemma wireguard_inner_spec q :
  q_tunnel_protocol q = Wireguard → wp (get_wireguard_relay_inner q lists l) (answers q lists l) (λ _, True).
Proof using weights.
  intros Hq. apply wp_bind, wp_assert; [by apply bool_decide_eq_true|].
  apply wp_bind. eapply wp_mono; [by apply relay_config_spec| |done]. intros c Hc.
  apply wp_bind. eapply wp_mono; [apply (endpoint_spec q c Hq), Hc| |done]. intros e [He Hv].
  apply wp_bind. eapply wp_mono; [by apply obfuscator_spec| |done]. intros o Ho. apply wp_ret.
  split_and!; [done|apply Hc|done|done].
Qed.

Lemma openvpn_endpoint_spec q r :
  wp (get_openvpn_endpoint q r l)
    (λ e, sock_ip (address e) = AddrV4 (ipv4_addr_in r) ∧
      compatible_openvpn_port_combo (oq_port (q_openvpn_constraints q))
        {| ovpn_port := sock_port (address e); ovpn_protocol := protocol e |} = true ∧
      (should_use_bridge (oq_bridge_settings (q_openvpn_constraints q)) = true → protocol e = Tcp)) (λ _, True).
Proof using.
  apply wp_map_err. unfold openvpn_endpoint. destruct (should_use_bridge _).
  - apply wp_bind, wp_choose; [intros _; by apply wp_throw|]. intros [p t] [[_ Ht%bool_decide_eq_true]%elem_of_List_filter Hx]%elem_of_List_filter.
    apply wp_ret. done.
  - apply wp_bind, wp_choose; [intros _; by apply wp_throw|]. intros [p t] [_ Hx]%elem_of_List_filter.
    by apply wp_ret.
Qed.

Lemma bridges_spec c r :
  r ∈ filter_matching_bridges c (relays l) lists →
  r ∈ relays l ∧ active r = true ∧ filter_bridge r = true ∧ located (ib_location c) lists r ∧
  filter_on_ownership (ib_ownership c) r = true ∧ filter_on_providers (ib_providers c) r = true.
Proof using. unfold filter_matching_bridges, located. rewrite !elem_of_List_filter. unfold filter_on_active. tauto. Qed.

Lemma proximate_spec k loc : weights_ok k → wp (get_proximate_bridge k loc) (λ r, r ∈ k) (λ _, True).
Proof using.
  intros Hw. apply wp_bind, wp_reorder. intros un Hun.
  cbv beta zeta. match goal with |- wp (match ?d with _ => _ end) _ _ => destruct d as [|d0 ds] end; [by apply wp_throw|].
  apply wp_bind, wp_pick_weighted.
  - apply Forall_forall. intros x _. unfold wrap. apply Z.mod_pos_bound. lia.
  - intros _. by apply wp_throw.
  - intros r Hr _. apply wp_ret. apply elem_of_take in Hr as (i & Hr & _). apply list_elem_of_lookup_2 in Hr.
    apply elem_of_sort_by in Hr. rewrite Hun in Hr. apply list_elem_of_fmap in Hr as (x & -> & Hx). done.
Qed.

Lemma proxy_settings_spec c loc :
  wp (get_proxy_settings l c loc lists) (λ '(s, r), r ∈ filter_matching_bridges c (relays l) lists) (λ _, True).
Proof using weights.
  assert (weights_ok (filter_matching_bridges c (relays l) lists)) as Hw.
  { unfold weights_ok in *. rewrite Forall_forall in *. intros r Hr%bridges_spec. apply weights, Hr. }
  apply wp_bind. apply (wp_mono _ (λ r, r ∈ filter_matching_bridges c (relays l) lists) _ (λ _, True)); [| |done].
  - destruct loc as [loc|]; [by apply proximate_spec|]. apply wp_bind, wp_pick; [done|intros _; by apply wp_throw|].
    intros r Hr. by apply wp_ret.
  - intros r Hr. apply wp_bind. unfold bridge_endpoint. pose proof Hr as (_ & _ & Hb & _)%bridges_spec.
    unfold filter_bridge in Hb. destruct (endpoint_data r); try done.
    apply wp_bind, wp_choose; [intros _; apply wp_ret; by apply wp_bind, wp_throw|].
    intros s Hs. apply wp_ret, wp_bind, wp_ret. by apply wp_ret.
Qed.

Lemma openvpn_bridge_spec q r p :
  (should_use_bridge (oq_bridge_settings (q_openvpn_constraints q)) = true → p = Tcp) →
  wp (get_openvpn_bridge q r p l lists)
    (λ b, (b ≠ None → p = Tcp) ∧ bridge_ok (oq_bridge_settings (q_openvpn_constraints q)) lists l b) (λ _, True).
Proof using weights.
  intros Hp. unfold get_openvpn_bridge. destruct (oq_bridge_settings _) as [| |c|o] eqn:Eb; cbn [negb should_use_bridge get_bridge_for] in *.
  - by apply wp_ret.
  - by apply wp_ret.
  - specialize (Hp eq_refl) as ->. apply wp_bind. eapply wp_mono; [apply proxy_settings_spec| |done].
    intros [s x] Hx%bridges_spec. apply wp_ret. split; [done|]. exists s, x. cbn in Hx. naive_solver.
  - specialize (Hp eq_refl) as ->. by apply wp_ret.
Qed.

Lemma openvpn_inner_spec q :
  q_tunnel_protocol q = OpenVpn → wp (get_openvpn_relay q lists l) (answers q lists l) (λ _, True).
Proof using weights.
  intros Hq. apply wp_bind, wp_assert; [by apply bool_decide_eq_true|].
  apply wp_bind, wp_bind, wp_filter_matching. intros cs Hc _ _.
  apply wp_pick; [by eapply candidate_weight|intros _; by apply wp_bind, wp_throw|].
  intros exit Hexit. apply Hc in Hexit as (Hs & Hl & _). apply wp_bind, wp_ret.
  apply wp_bind. eapply wp_mono; [apply openvpn_endpoint_spec| |done]. intros e (Hip & Hport & Hb).
  apply wp_bind. eapply wp_mono; [by apply openvpn_bridge_spec| |done]. intros b [Htcp Hbr].
  apply wp_bind, wp_assert; [destruct Hs as (_ & Ht & _); by rewrite Hq in Ht|]. by apply wp_ret.
Qed.

Lemma inner_spec q : wp (get_relay_inner q l lists) (answers q lists l) (λ _, True).
Proof using weights.
  unfold get_relay_inner. destruct (q_tunnel_protocol q) eqn:E; [by apply openvpn_inner_spec|by apply wireguard_inner_spec].
Qed.
End Sound.

(** ** The user's query *)

Lemma set_ip_version_inter w v :
  intersection w (set_wq_ip_version v WireguardRelayQuery_new) =
    (λ x, set_wq_ip_version x w) <$> intersection (wq_ip_version w) v.
Proof.
  destruct w as [p ip a m e ob d n qr]. unfold intersection at 1, WireguardRelayQuery_intersection. cbn.
  rewrite !(proj2 (any_inter _)). cbn. destruct (intersection ip v); cbn; [|done].
  assert (intersection ob OqAuto = Some ob) as -> by (by destruct ob).
  assert (intersection qr QrAuto = Some qr) as -> by (by destruct qr). done.
Qed.

Lemma set_ip_version_le x q :
  x ⊑ wq_ip_version (q_wireguard_constraints q) →
  set_q_wireguard (set_wq_ip_version x (q_wireguard_constraints q)) q ⊑ q.
Proof.
  intros Hx. split_and!; cbn; try reflexivity; [|split; reflexivity].
  split_and!; cbn; try reflexivity; [done|by right].
Qed.

Definition available (a : IpAvailability) (v : IpVersion) : Prop :=
  match v with V4 => availability_has_ipv4 a = true | V6 => availability_has_ipv6 a = true end.

Section GetRelay.
Context `{Host}.

(** Never panics: the query has an IP version when there is no intersection. *)
Lemma ip_availability_spec a u :
  wp (apply_ip_availability a u)
    (λ r, r ⊑ u ∧ q_tunnel_protocol r = q_tunnel_protocol u ∧
      (q_tunnel_protocol u = Wireguard → ∀ v, wq_ip_version (q_wireguard_constraints r) = Only v → available a v) ∧
      (q_tunnel_protocol u = Wireguard → wq_ip_version (q_wireguard_constraints r) = Any → a = Ipv4AndIpv6))
    (λ _, True).
Proof.
  unfold apply_ip_availability. destruct (decide (q_tunnel_protocol u = OpenVpn)) as [E|E].
  - apply wp_ret. split_and!; try done; [|by rewrite E..].
    split_and!; try reflexivity; [split_and!; try reflexivity; by right|split; reflexivity].
  - assert (q_tunnel_protocol u = Wireguard) as Eu by (by destruct (q_tunnel_protocol u)).
    rewrite set_ip_version_inter. set (v := match a with Ipv4 => _ | Ipv6 => _ | Ipv4AndIpv6 => _ end).
    destruct (intersection (wq_ip_version (q_wireguard_constraints u)) v) as [x|] eqn:Ex; cbn.
    + apply wp_ok_or; [|done]. intros r Hr. unfold set_wireguard_constraints, set_if_valid in Hr.
      rewrite validate_wireguard in Hr by done. injection Hr as <-.
      apply intersection_lower in Ex as [Hx Hv]. split_and!; cbn; [by apply set_ip_version_le|done|..].
      * intros _ w ->. subst v. by destruct a, w.
      * intros _ ->. subst v. by destruct a.
    + destruct (wq_ip_version (q_wireguard_constraints u)) as [|w]; cbn; [by destruct v|by apply wp_throw].
Qed.

Section Retry.
Context (u : RelayQuery) (l : RelayList) (lists : list CustomList).
Hypothesis weights : weights_ok (relays l).
Definition keeps_obfuscation (q : RelayQuery) : Prop := wq_obfuscation (q_wireguard_constraints q) ≠ OqOff.

Lemma next_relay_spec queries :
  Forall keeps_obfuscation queries →
  wp (next_relay u l lists queries)
    (λ o, match o with Some (g, rest) => answers u lists l g ∧ Forall keeps_obfuscation rest | None => True end)
    (λ _, False).
Proof using weights.
  induction 1 as [|q queries Hq Hqs IH]; cbn; [by apply wp_ret|].
  destruct (intersection q u) as [r|] eqn:E; [|done].
  apply wp_bind, wp_attempt. eapply wp_mono; [by apply inner_spec| |done].
  intros g Hg. apply wp_ret. split; [|done]. eapply answers_mono; [by eapply query_lower|done].
Qed.

Lemma cycle_nth_spec order n : ∀ remaining,
  Forall keeps_obfuscation order → Forall keeps_obfuscation remaining →
  wp (cycle_nth u l lists order n remaining)
    (λ o, match o with Some g => answers u lists l g | None => True end) (λ _, False).
Proof using weights.
  induction n as [|n IH]; intros remaining Ho Hr; cbn; apply wp_bind.
  all: apply (wp_mono _ (λ o, match o with Some (g, rest) => answers u lists l g ∧ Forall keeps_obfuscation rest | None => True end)
         _ (λ _, False)); [|intros [[g rest]|]; [intros [? ?]|intros _]|done].
  all: try (apply wp_bind; eapply wp_mono; [by apply next_relay_spec| |done]; intros [[g rest]|] Hg;
            [by apply wp_ret|by apply next_relay_spec]).
  all: try by apply wp_ret.
  auto.
Qed.

(** The first query of the order is the user's: when it can be answered, every
    attempt is. *)
Lemma next_relay_total q queries :
  intersection q u = Some u → wp (get_relay_inner u l lists) (λ _, True) (λ _, False) →
  wp (next_relay u l lists (q :: queries)) (λ o, is_Some o) (λ _, False).
Proof using.
  intros Hq Hu. cbn. rewrite Hq. apply wp_bind, wp_attempt. eapply wp_mono; [done| |done].
  intros g _. apply wp_ret. by eexists.
Qed.

Lemma next_relay_no_panic queries : wp (next_relay u l lists queries) (λ _, True) (λ _, False).
Proof using weights.
  induction queries as [|q queries IH]; cbn; [by apply wp_ret|]. destruct (intersection q u); [|done].
  apply wp_bind, wp_attempt. eapply wp_mono; [by apply inner_spec|intros; by apply wp_ret|done].
Qed.

Lemma cycle_nth_total q order n : ∀ remaining,
  intersection q u = Some u → wp (get_relay_inner u l lists) (λ _, True) (λ _, False) →
  wp (cycle_nth u l lists (q :: order) n remaining) (λ o, is_Some o) (λ _, False).
Proof using weights.
  intros remaining Hq Hu. revert remaining.
  assert (∀ remaining, wp (cycle_next u l lists (q :: order) remaining) (λ o, is_Some o) (λ _, False)) as Hnext.
  { intros remaining. apply wp_bind. eapply wp_mono; [apply next_relay_no_panic| |done].
    intros [y|] _; [apply wp_ret; by eexists|by apply next_relay_total]. }
  induction n as [|n IH]; intros remaining; cbn; apply wp_bind; eapply wp_mono; try apply Hnext; try done;
    intros ? [[g rest] ->]; [apply wp_ret; by eexists|apply IH].
Qed.
End Retry.

Lemma retry_orders_keep : Forall keeps_obfuscation WIREGUARD_RETRY_ORDER ∧ Forall keeps_obfuscation OPENVPN_RETRY_ORDER.
Proof. split; repeat constructor; done. Qed.

Lemma custom_params_spec s n order a :
  weights_ok (relays (parsed_list (parsed_relays s))) → Forall keeps_obfuscation order →
  wp (get_relay_with_custom_params s n order a)
    (λ r, match SpecializedSelectorConfig_from (config s) with
          | ScCustom e => r = GrCustom e
          | ScNormal c => ∃ u u', RelayQuery_try_from c = Some u ∧ u' ⊑ u ∧
              answers u' (custom_lists (config s)) (parsed_list (parsed_relays s)) r ∧
              (q_tunnel_protocol u' = Wireguard → ∀ v, wq_ip_version (q_wireguard_constraints u') = Only v → available a v) ∧
              (q_tunnel_protocol u' = Wireguard → wq_ip_version (q_wireguard_constraints u') = Any → a = Ipv4AndIpv6)
          end) (λ _, True).
Proof.
  intros Hw Ho. unfold get_relay_with_custom_params.
  destruct (SpecializedSelectorConfig_from (config s)) as [c|e]; [|by apply wp_ret].
  apply wp_bind, wp_ok_or; [|done]. intros u Hu.
  apply wp_bind. eapply wp_mono; [apply ip_availability_spec| |done]. intros u' (Hle & Ht & H1 & H2). rewrite <- Ht in H1, H2.
  apply wp_bind. eapply wp_mono; [by apply cycle_nth_spec| |done]. intros o Hg. apply wp_bind.
  set (good := λ r, answers u' (custom_lists (config s)) (parsed_list (parsed_relays s)) r).
  apply (wp_mono _ (λ o, match o with Some r => good r | None => True end) _ (λ _, False)); [| |done].
  - destruct o as [r|]; [by apply wp_ret|]. apply wp_attempt. eapply wp_mono; [by apply inner_spec|done|done].
  - intros [r|] Hr; [|by apply wp_throw]. apply wp_ret. exists u, u'. done.
Qed.

(** ** Theorems *)

Definition family_available (a : IpAvailability) (r : GetRelay) : Prop :=
  match r with
  | GrWireguard e _ _ => available a (ip_version_of (sock_ip (peer_endpoint e)))
  | _ => True
  end.

Lemma get_relay_spec s n a :
  weights_ok (relays (parsed_list (parsed_relays s))) →
  wp (get_relay s n a)
    (λ r, match r with
          | GrCustom e => relay_settings (config s) = RsCustomTunnelEndpoint e
          | _ => ∃ c u, SpecializedSelectorConfig_from (config s) = ScNormal c ∧ RelayQuery_try_from c = Some u ∧
              answers u (custom_lists (config s)) (parsed_list (parsed_relays s)) r ∧ family_available a r
          end) (λ _, True).
Proof.
  intros Hw. unfold get_relay. pose proof retry_orders_keep as [Hwg Hov].
  destruct (SpecializedSelectorConfig_from (config s)) as [c|e] eqn:Es.
  2: { apply wp_ret. unfold SpecializedSelectorConfig_from in Es. destruct (relay_settings (config s)); by simplify_eq. }
  assert (∀ order, Forall keeps_obfuscation order → wp (get_relay_with_custom_params s n order a)
    (λ r, match r with
          | GrCustom e => relay_settings (config s) = RsCustomTunnelEndpoint e
          | _ => ∃ c0 u, ScNormal c = ScNormal c0 ∧ RelayQuery_try_from c0 = Some u ∧
              answers u (custom_lists (config s)) (parsed_list (parsed_relays s)) r ∧ family_available a r
          end) (λ _, True)) as Hgen; [|destruct (rc_tunnel_protocol _); auto].
  intros order Ho. eapply wp_mono; [by apply custom_params_spec| |done].
  rewrite Es. intros r (u & u' & Hu & Hle & Hr & Hv & Hany).
  destruct r as [e o i|e x b|]; [| |done]; exists c, u; (split_and!; [done|done|by eapply answers_mono|]); [|done].
  destruct Hr as (Hq & _ & (_ & Hver & _) & _). cbn.
  destruct (wq_ip_version (q_wireguard_constraints u')) as [|v].
  - rewrite (Hany Hq eq_refl). by destruct (ip_version_of _).
  - rewrite (Hver v eq_refl). by apply Hv.
Qed.

(** A query that the selector can always answer: a single hop without special
    obfuscation, for which a relay and a port exist. *)
Lemma inner_total lists l q :
  weights_ok (relays l) → q_tunnel_protocol q = Wireguard → singlehop q = true →
  (∃ r, candidate q lists l r) → resolve_ip_version (wq_ip_version (q_wireguard_constraints q)) = V4 →
  (match wq_port (q_wireguard_constraints q) with
   | Only p => port_allowed (port_ranges (wireguard_endpoints l)) p
   | Any => ∃ p, port_allowed (port_ranges (wireguard_endpoints l)) p
   end) →
  wq_obfuscation (q_wireguard_constraints q) = OqAuto ∨ wq_obfuscation (q_wireguard_constraints q) = OqOff →
  wp (get_relay_inner q l lists) (λ _, True) (λ _, False).
Proof.
  intros Hw Hq Hs [r0 Hr0] Hv Hp Ho. unfold get_relay_inner. rewrite Hq.
  apply wp_bind, wp_assert; [by apply bool_decide_eq_true|].
  unfold get_wireguard_relay_config. rewrite Hs.
  apply wp_bind, wp_bind. eapply wp_mono; [by apply singlehop_spec| |done].
  intros [c|]; [|intros Hno; by apply Hno in Hr0]. intros [[Hc _] [exit ->]].
  apply wp_ret. destruct Hc as [_ (Hsu & _)].
  destruct Hsu as (_ & Ht & _). rewrite Hq in Ht. apply tunnel_wireguard in Ht as [d Hd].
  apply wp_bind, wp_map_err. cbn. unfold wireguard_singlehop_endpoint, get_address_for_wireguard_relay. rewrite Hv.
  apply wp_bind, wp_ret, wp_bind, wp_map_err, wp_port.
  - intros p _ _. apply wp_bind. eapply public_key_spec; [done|]. apply wp_ret.
    apply wp_bind. unfold get_wireguard_obfuscator. destruct Ho as [-> | ->]; apply wp_ret; by apply wp_ret.
  - intros K1 K2. destruct (wq_port _) as [|p]; [destruct Hp as [p Hp]; by eapply K2|by eapply K1].
Qed.

Lemma get_relay_total s n a c u :
  weights_ok (relays (parsed_list (parsed_relays s))) →
  SpecializedSelectorConfig_from (config s) = ScNormal c → RelayQuery_try_from c = Some u →
  rc_tunnel_protocol (user_preferences c) = Wireguard →
  wp (apply_ip_availability a u)
    (λ u', wp (get_relay_inner u' (parsed_list (parsed_relays s)) (custom_lists (config s))) (λ _, True) (λ _, False))
    (λ _, False) →
  wp (get_relay s n a) (λ _, True) (λ _, False).
Proof.
  intros Hw Hc Hu Ht Hq. unfold get_relay. rewrite Hc, Ht. unfold get_relay_with_custom_params. rewrite Hc, Hu.
  assert (q_tunnel_protocol u = Wireguard) as Eu.
  { unfold RelayQuery_try_from, RelayQuery_new in Hu. rewrite validate_wireguard in Hu by done. by injection Hu as <-. }
  apply wp_bind, wp_ret, wp_bind. eapply wp_mono; [apply (wp_and _ _ _ _ _ Hq (ip_availability_spec a u))| |by intros e [? _]].
  intros u' [Hu' (_ & Ht' & _)]. apply wp_bind. eapply wp_mono; [apply cycle_nth_total; [done| |exact Hu']| |done].
  - apply default_identity; [done|]. by rewrite Ht'.
  - intros o [r ->]. apply wp_bind, wp_ret. by apply wp_ret.
Qed.

(** C5: Whatever random choices are made, asking for a relay never panics (none
    of the assertions, unwraps and expectations of the selector can fail), and an
    answer respects the user's settings.  A custom endpoint is returned as it is.
    Otherwise the settings form a valid query and: the relays are active relays
    of the list, of the chosen protocol, ownership and provider; the exit is at
    the chosen location; with two hops the hops are different and the entry is at
    the chosen entry location, unless DAITA may choose it; with DAITA the first
    hop supports it; the address is one of the first hop, of the chosen IP
    version and of a family the host has; the port is the chosen one and is open;
    the obfuscation is the chosen one, the only exception being QUIC when no IP
    version is chosen; the bridge obeys the bridge settings and is used over TCP
    only.  (The weights of the list are unsigned numbers, as in the source; that
    the host has the address family is stated for WireGuard.) *)
Theorem get_relay_answers_user (s : RelaySelector) (n : nat) (a : IpAvailability) (g : rng) :
  weights_ok (relays (parsed_list (parsed_relays s))) →
  match (get_relay s n a g).1 with
  | Done (GrCustom e) => relay_settings (config s) = RsCustomTunnelEndpoint e
  | Done r => ∃ c u, SpecializedSelectorConfig_from (config s) = ScNormal c ∧ RelayQuery_try_from c = Some u ∧
      answers u (custom_lists (config s)) (parsed_list (parsed_relays s)) r ∧ family_available a r
  | Fail _ => True
  | Panicked => False
  end.
Proof.
  intros Hw. pose proof (get_relay_spec s n a Hw g) as K. destruct (get_relay s n a g) as [[[]| |] ?]; done.
Qed.

(** C12: The selector finds a relay when there is one: for WireGuard settings without
    multihop, without a special obfuscation and without a choice of IPv6 (a user who
    chose IPv6 on a host without it is given none), on a host with IPv4, if the weights
    of the list are in range and some active relay of the list matches location,
    ownership, provider and DAITA, and the port (any port, if none is chosen) is open,
    then every connection attempt, whatever its number, is given a relay. *)
Theorem get_relay_finds_relay (s : RelaySelector) (p : RelayConstraints) (n : nat) (a : IpAvailability)
    (r : Relay) (port : Z) (g : rng) :
  let w := rc_wireguard_constraints p in
  let d := wireguard_endpoints (parsed_list (parsed_relays s)) in
  weights_ok (relays (parsed_list (parsed_relays s))) →
  relay_settings (config s) = RsNormal p → rc_tunnel_protocol p = Wireguard → wc_use_multihop w = false →
  selected_obfuscation (sc_obfuscation_settings (config s)) ∈ [SelAuto; SelOff] →
  wc_ip_version w ≠ Only V6 → availability_has_ipv4 a = true →
  (wc_port w = Any ∨ wc_port w = Only port) → port_allowed (port_ranges d) port →
  r ∈ relays (parsed_list (parsed_relays s)) → is_wireguard r = true → active r = true →
  located (rc_location p) (custom_lists (config s)) r →
  filter_on_ownership (rc_ownership p) r = true → filter_on_providers (rc_providers p) r = true →
  (ad_daita (additional_constraints (config s)) = true → filter_on_daita (Only true) r = true) →
  is_Some (match (get_relay s n a g).1 with Done r => Some r | _ => None end).
Proof.
  intros w d Hw Hs Ht Hm Ho Hv Ha Hport Hopen Hr Hwg Hact Hloc Hown Hprov Hdaita.
  assert (∃ c, SpecializedSelectorConfig_from (config s) = ScNormal c ∧ user_preferences c = p ∧
    additional_preferences c = additional_constraints (config s) ∧
    obfuscation_settings c = sc_obfuscation_settings (config s)) as (c & Hc & Hp & Hadd & Hobf).
  { unfold SpecializedSelectorConfig_from. rewrite Hs. by eexists. }
  assert (ObfuscationQuery_from (sc_obfuscation_settings (config s)) = OqAuto ∨
    ObfuscationQuery_from (sc_obfuscation_settings (config s)) = OqOff) as Hob.
  { unfold ObfuscationQuery_from. apply elem_of_cons in Ho as [-> | ->%list_elem_of_singleton]; auto. }
  assert (wp (get_relay s n a) (λ _, True) (λ _, False)) as K.
  2: { specialize (K g). destruct (get_relay s n a g) as [[]]; cbn in *; done. }
  eapply get_relay_total; [done|exact Hc| |by rewrite Hp|].
  { unfold RelayQuery_try_from, RelayQuery_new. apply validate_wireguard. cbn. by rewrite Hp. }
  unfold apply_ip_availability. cbn. rewrite Hp, Hadd, Hobf. rewrite decide_False by (cbn; congruence).
  rewrite set_ip_version_inter. cbn.
  assert (∃ x, intersection (wc_ip_version w) (match a with Ipv4 => Only V4 | Ipv6 => Only V6 | Ipv4AndIpv6 => Any end)
    = Some x ∧ resolve_ip_version x = V4) as (x & Ex & Hx).
  { destruct a; try done; destruct (wc_ip_version w) as [|[]]; try done; by eexists. }
  subst w. rewrite Ex. cbn. unfold valid, set_wireguard_constraints, set_if_valid.
  rewrite validate_wireguard by done. apply wp_ret. apply inner_total; try done; cbn.
  - unfold singlehop, multihop. cbn. by rewrite Hm.
  - exists r. split_and!; cbn; try done.
    + rewrite Ht. done.
    + destruct (ad_daita _); [auto|done].
    + unfold filter_on_obfuscation. cbn. destruct (wireguard_data r); [|done]. by destruct Hob as [-> | ->].
  - destruct Hport as [-> | ->]; [by eexists|done].
Qed.

(** The two hops of a multihop connection are picked from their candidates
    and are different relays; and such a pair is found whenever there is one. *)
Theorem entry_exit_combo (exits entries : list Relay) (g : rng) :
  weights_ok exits → weights_ok entries → NoDup (hostname <$> entries) →
  match (pick_working_entry_exit_combo exits entries g).1 with
  | Done (Some (exit, entry)) => exit ∈ exits ∧ entry ∈ entries ∧ hostname entry ≠ hostname exit
  | Done None => ∀ exit entry, exit ∈ exits → entry ∈ entries → hostname exit = hostname entry
  | _ => False
  end.
Proof.
  intros Hx He Hd. pose proof (combo_spec exits entries Hx He g) as K.
  destruct (pick_working_entry_exit_combo exits entries g) as [[[[]|]| |] ?]; cbn in *; auto.
Qed.

(** Picking by weight is total: a relay is picked exactly when there is one,
    also when the weights do not fit in 64 bits and their sum wraps around; and a
    relay of weight zero is only picked when that sum is zero. *)
Theorem weighted_pick (l : list Relay) (g : rng) :
  weights_ok l →
  match (pick_random_relay l g : outcome Error (option Relay) * rng).1 with
  | Done (Some r) => r ∈ l ∧ (weight r = 0 → wrap 64 (weight_sum weight l) = 0)
  | Done None => l = []
  | _ => False
  end.
Proof.
  intros Hw. assert (wp (pick_random_relay l) (λ o, match o with
      | Some r => r ∈ l ∧ (weight r = 0 → wrap 64 (weight_sum weight l) = 0)
      | None => l = [] end) (λ _ : Error, False)) as K.
  { apply wp_pick_weighted; [done|done|]. intros r Hr Hz. split; [done|]. intros E. destruct Hz; [lia|done]. }
  specialize (K g). destruct (pick_random_relay l g) as [[[]| |] ?]; done.
Qed.
End GetRelay.
