(* ===== verification/RelayLists.v ===== *)
(** * The relay list that the selector works on

    What parsed_relays.rs computes: the relays of the API's list, located and
    overridden, and that this is what the selector keeps through every update. *)

From S2P Require Import Prelude NetTypes Constraints RelayTypes CustomLists RelayQuery RelayMatcher RelaySelector.
Import relay.

(** ** Reference definitions *)

(** The relays in list order, each with the location of its city. *)
Definition located_relays (l : RelayList) : list Relay :=
  flat_map (λ c, flat_map (λ ct, locate c ct <$> city_relays ct) (cities c)) (countries l).

(** The last override of a host counts. *)
Definition override_of (os : list RelayOverride) (host : string) : option RelayOverride :=
  last (filter (λ o, ro_hostname o = host) os).
Definition overridden (os : list RelayOverride) (r : Relay) : Relay :=
  from_option (λ o, apply_to_relay o r) r (override_of os (hostname r)).

(** ** The pass over the list *)

(** Overrides are used up along a flat list of located relays. *)
Fixpoint consume (m : gmap string RelayOverride) (l : list Relay) : list Relay * gmap string RelayOverride :=
  match l with
  | [] => ([], m)
  | r :: l =>
      let k := consume (delete (hostname r) m) l in
      (from_option (λ o, apply_to_relay o r) r (m !! hostname r) :: k.1, k.2)
  end.

Lemma consume_app m l1 l2 :
  consume m (l1 ++ l2) =
    ((consume m l1).1 ++ (consume (consume m l1).2 l2).1, (consume (consume m l1).2 l2).2).
Proof. revert m; induction l1 as [|r l1 IH]; intros m; cbn; [by destruct (consume m l2)|]. by rewrite IH. Qed.

Lemma consume_unique m l :
  NoDup (hostname <$> l) →
  (consume m l).1 = (λ r, from_option (λ o, apply_to_relay o r) r (m !! hostname r)) <$> l.
Proof.
  revert m; induction l as [|r l IH]; intros m; cbn; [done|]. intros [Hr Hd]%NoDup_cons. f_equal.
  rewrite IH by done. apply list_fmap_ext. intros i r' Hi. rewrite lookup_delete_ne; [done|].
  intros E. apply Hr. rewrite E. apply list_elem_of_fmap_2. by eapply list_elem_of_lookup_2.
Qed.

Lemma parse_relays_consume c ct m l : parse_relays c ct m l = consume m (locate c ct <$> l).
Proof.
  revert m; induction l as [|r l IH]; intros m; cbn; [done|].
  destruct (m !! hostname r) eqn:E; cbn; rewrite IH; [by destruct (consume _ _)|].
  rewrite (delete_id m) by done. by destruct (consume _ _).
Qed.

Lemma parse_cities_consume c m l :
  (flat_map city_relays (parse_cities c m l).1, (parse_cities c m l).2) =
    consume m (flat_map (λ ct, locate c ct <$> city_relays ct) l).
Proof.
  revert m; induction l as [|ct l IH]; intros m; cbn; [done|].
  rewrite parse_relays_consume, consume_app.
  destruct (consume m _) as [rs m'] eqn:Em; cbn. rewrite <- IH. by destruct (parse_cities c m' l).
Qed.

Lemma parse_countries_consume m l :
  (flat_map (λ c, flat_map city_relays (cities c)) (parse_countries m l).1, (parse_countries m l).2) =
    consume m (flat_map (λ c, flat_map (λ ct, locate c ct <$> city_relays ct) (cities c)) l).
Proof.
  revert m; induction l as [|c l IH]; intros m; cbn; [done|].
  rewrite consume_app. rewrite <- (parse_cities_consume c m (cities c)).
  destruct (parse_cities c m (cities c)) as [cs m'] eqn:Em; cbn. rewrite <- IH. by destruct (parse_countries m' l).
Qed.

Lemma overrides_map_lookup os (m : gmap string RelayOverride) host :
  foldl (λ m o, <[ro_hostname o := o]> m) m os !! host = from_option Some (m !! host) (override_of os host).
Proof.
  revert m; induction os as [|o os IH]; intros m; cbn; [done|]. rewrite IH. unfold override_of.
  rewrite filter_cons. destruct (decide (ro_hostname o = host)) as [->|Hne].
  - rewrite last_cons. destruct (last _); cbn; [done|]. by rewrite lookup_insert_eq.
  - destruct (last _); cbn; [done|]. by rewrite lookup_insert_ne.
Qed.

Lemma located_hostnames l : hostname <$> located_relays l = hostname <$> relays l.
Proof.
  unfold located_relays, relays. induction (countries l) as [|c cs IH]; cbn; [done|].
  rewrite !fmap_app, IH. f_equal. clear IH. induction (cities c) as [|ct cts IH]; cbn; [done|].
  rewrite !fmap_app, IH. f_equal. induction (city_relays ct) as [|r rs IH']; cbn; by f_equal.
Qed.

Lemma parsed_relays_spec l os :
  NoDup (hostname <$> relays l) → relays (parse_relay_list l os) = overridden os <$> located_relays l.
Proof.
  intros Hd. unfold parse_relay_list. cbn. 
  pose proof (parse_countries_consume (foldl (λ m o, <[ro_hostname o := o]> m) ∅ os) (countries l)) as K.
  apply (f_equal fst) in K. cbn in K. rewrite K. fold (located_relays l).
  rewrite consume_unique by (by rewrite located_hostnames).
  apply list_fmap_ext. intros i r _. rewrite overrides_map_lookup, lookup_empty. unfold overridden.
  by destruct (override_of os (hostname r)).
Qed.

(** ** The selector over time *)

Inductive SelectorUpdate : Set :=
| SetConfig (c : SelectorConfig)
| SetRelays (now : Z) (l : RelayList).
Definition apply_update (s : RelaySelector) (u : SelectorUpdate) : RelaySelector :=
  match u with
  | SetConfig c => set_config c s
  | SetRelays now l => set_relays now l s
  end.
Definition run_updates (s : RelaySelector) (us : list SelectorUpdate) : RelaySelector := foldl apply_update s us.

(** The newest list and configuration among the updates. *)
Definition newest_list (l : RelayList) (us : list SelectorUpdate) : RelayList :=
  foldl (λ l u, match u with SetRelays _ l => l | SetConfig _ => l end) l us.
Definition newest_config (c : SelectorConfig) (us : list SelectorUpdate) : SelectorConfig :=
  foldl (λ c u, match u with SetConfig c => c | SetRelays _ _ => c end) c us.

(** The selector works on its list under the overrides of its settings. *)
Definition in_step (s : RelaySelector) : Prop :=
  parsed_list (parsed_relays s) = parse_relay_list (original_list (parsed_relays s)) (relay_overrides (config s)) ∧
  overrides (parsed_relays s) = relay_overrides (config s).

Lemma in_step_run s us :
  in_step s →
  in_step (run_updates s us) ∧ original_list (parsed_relays (run_updates s us)) = newest_list (original_list (parsed_relays s)) us ∧
  config (run_updates s us) = newest_config (config s) us.
Proof.
  revert s; induction us as [|u us IH]; intros s Hs; [done|]. unfold run_updates in *. cbn.
  assert (in_step (apply_update s u)) as Hu.
  { destruct u; cbn; [done|]. destruct Hs as [_ Hs]. unfold in_step. cbn. by rewrite Hs. }
  specialize (IH _ Hu) as (H1 & H2 & H3). split_and!; [done| |].
  - rewrite H2. by destruct u.
  - rewrite H3. by destruct u.
Qed.

Lemma from_file_in_step c cache resource :
  is_ok cache || is_ok resource = true → in_step (RelaySelector_new c cache resource).
Proof.
  unfold in_step, RelaySelector_new, from_file, from_file_inner.
  destruct cache as [[t1 l1]|], resource as [[t2 l2]|]; cbn; try done. by destruct (t2 <? t1).
Qed.

(** The newer of two files, the bundled one when they are of the same age. *)
Definition newer_file (cache resource : result Error (Z * RelayList)) : option RelayList :=
  match cache, resource with
  | Ok (t1, l1), Ok (t2, l2) => Some (if t2 <? t1 then l1 else l2)
  | Ok (_, l), Err _ | Err _, Ok (_, l) => Some l
  | Err _, Err _ => None
  end.

(** C13: A selector that could read the cached or the bundled relay list starts with
    the newer of the two and, whatever settings and lists it is given afterwards,
    selects among the relays of the newest list, each at the location of its city
    and with the last override that the newest settings have for its host name,
    provided that the newest list names no host twice (the first of two relays with
    the same name takes the override).  Without a list to start with, the
    overrides of the first settings are not applied to the lists that follow, which
    is a finding and is excluded here. *)
Theorem relay_list_parsed (c : SelectorConfig) (cache resource : result Error (Z * RelayList)) (l0 : RelayList)
    (us : list SelectorUpdate) :
  newer_file cache resource = Some l0 → NoDup (hostname <$> relays (newest_list l0 us)) →
  let s := run_updates (RelaySelector_new c cache resource) us in
  relays (parsed_list (parsed_relays s)) =
    overridden (relay_overrides (newest_config c us)) <$> located_relays (newest_list l0 us) ∧
  get_relays s = newest_list l0 us.
Proof.
  intros Hf Hd s. assert (is_ok cache || is_ok resource = true) as Hok by (by destruct cache as [[]|], resource as [[]|]).
  pose proof (in_step_run _ us (from_file_in_step c cache resource Hok)) as ((Hp & _) & Hl & Hc). fold s in Hp, Hl, Hc.
  assert (original_list (parsed_relays (RelaySelector_new c cache resource)) = l0) as E.
  { unfold RelaySelector_new, from_file, from_file_inner. clear -Hf.
    destruct cache as [[t1 l1]|], resource as [[t2 l2]|]; cbn in *; simplify_eq; try done. by destruct (t2 <? t1). }
  rewrite E in Hl. unfold get_relays. rewrite Hp, Hl, Hc. split; [|done]. by apply parsed_relays_spec.
Qed.
