(* ===== verification/RelayExample.v ===== *)
(** * Concrete runs of the relay selector

    A host whose random numbers count upwards, a small relay list and selectors
    over it: the inputs on which the theorems about the selector are
    instantiated, and runs that show where it departs from its documentation. *)

From S2P Require Import Prelude NetTypes Constraints RelayTypes CustomLists RelayQuery RelayMatcher.
From S2P Require Import RelaySelector RelayTheorems RelayLists.
Import relay.

(** ** A host *)

#[global] Instance counting_host : Host.
Proof.
  refine {| rng := nat; choose_index n g := ((g mod n)%nat, S g);
            random_range lo hi g := (lo + Z.of_nat g mod (hi - lo + 1), S g);
            hash_order A l g := (l, g);
            haversine_dist_deg lat _ lat' _ := Z.abs (lat - lat'); f64_sub a b := Z.max 0 (a - b);
            midpoint_inner l := default {| co_latitude := 0; co_longitude := 0 |} (head l) |}.
  - intros n g Hn. cbn. apply Nat.mod_upper_bound. lia.
  - intros lo hi g Hl. cbn. pose proof (Z.mod_pos_bound (Z.of_nat g) (hi - lo + 1)). lia.
  - done.
Defined.

(** ** Relays *)

Definition no_location : Location :=
  {| country := ""; country_code := ""; city := ""; city_code := ""; latitude := 0; longitude := 0 |}.
Definition wg_data (with_daita : bool) (q : option Quic) : RelayEndpointData := EdWireguard {|
  public_key := repeat 7 32; daita := with_daita; quic := q; lwo := false; shadowsocks_extra_addr_in := [] |}.
Definition make_relay (host : string) (last_byte : Z) (d : RelayEndpointData) : Relay := {|
  hostname := host; ipv4_addr_in := Ipv4Addr_new 185 213 154 last_byte; ipv6_addr_in := None;
  overridden_ipv4 := false; overridden_ipv6 := false; include_in_country := true; active := true; owned := true;
  provider := "31173"; weight := 100; endpoint_data := d; location := no_location |}.
Definition make_city (name code : string) (lat : Z) (rs : list Relay) : RelayListCity :=
  {| city_name := name; city_code_ := code; city_latitude := lat; city_longitude := 0; city_relays := rs |}.
Definition make_list (cs : list RelayListCity) : RelayList := {|
  etag := None; countries := [{| country_name := "Sweden"; country_code_ := "se"; cities := cs |}];
  openvpn_ports := []; bridge_shadowsocks := [];
  wireguard_endpoints := {|
    port_ranges := [{| range_start := 51820; range_end := 51822 |}]; wg_ipv4_gateway := Ipv4Addr_new 10 64 0 1;
    wg_ipv6_gateway := 0; shadowsocks_port_ranges := []; udp2tcp_ports := [] |} |}.

Definition gothenburg : RelayListCity := make_city "Gothenburg" "got" 0
  [make_relay "se-got-wg-001" 1 (wg_data true None); make_relay "se-got-wg-002" 2 (wg_data false None)].
Definition malmo : RelayListCity := make_city "Malmo" "mma" 100
  [make_relay "se-mma-wg-001" 3 (wg_data true None)].
Definition sweden : RelayList := make_list [gothenburg; malmo].

(** ** Settings *)

Definition wg_settings (multihop : bool) : WireguardConstraints := {|
  wc_port := Any; wc_ip_version := Any; wc_allowed_ips := Any; wc_use_multihop := multihop; wc_entry_location := Any |}.
Definition settings (multihop : bool) (l : Constraint LocationConstraint) : RelayConstraints := {|
  rc_location := l; rc_providers := Any; rc_ownership := Any; rc_tunnel_protocol := Wireguard;
  rc_wireguard_constraints := wg_settings multihop; rc_openvpn_constraints := {| oc_port := Any |} |}.
Definition obfuscated (o : SelectedObfuscation) : ObfuscationSettings :=
  {| selected_obfuscation := o; os_udp2tcp := {| u2t_port := Any |}; os_shadowsocks := {| sss_port := Any |} |}.
Definition make_config (rs : RelayConstraints) (with_daita anywhere : bool) (o : SelectedObfuscation)
    (os : list RelayOverride) : SelectorConfig := {|
  relay_settings := RsNormal rs;
  additional_constraints := {| ad_daita := with_daita; ad_daita_use_multihop_if_necessary := anywhere;
                               ad_quantum_resistant := QrAuto |};
  custom_lists := []; relay_overrides := os; sc_obfuscation_settings := obfuscated o;
  bridge_state := BsAuto; bridge_settings := BridgeSettings_default |}.

Definition plain : SelectorConfig := make_config (settings false Any) false false SelAuto [].
Definition selector : RelaySelector := RelaySelector_from_list 0 plain sweden.
Definition two_hops : SelectorConfig := make_config (settings true (Only (LcLocation (GCity "se" "mma")))) false false SelOff [].
Definition two_hop_selector : RelaySelector := RelaySelector_from_list 0 two_hops sweden.

Definition hops (r : outcome Error GetRelay) : option (list string) :=
  match r with
  | Done (GrWireguard _ _ (Singlehop exit)) => Some [hostname exit]
  | Done (GrWireguard _ _ (Multihop exit entry)) => Some [hostname entry; hostname exit]
  | _ => None
  end.

Lemma sweden_weights : weights_ok (relays sweden).
Proof. repeat constructor; cbn; lia. Qed.
Lemma selector_weights c : weights_ok (relays (parsed_list (parsed_relays (RelaySelector_from_list 0 (make_config c false false SelOff []) sweden)))).
Proof. repeat constructor; cbn; lia. Qed.

(** ** Witnesses *)

(** The user wants a relay in Sweden; the fourth attempt adds an obfuscation. *)
Definition in_sweden : RelayQuery := set_q_location (Only (LcLocation (GCountry "se"))) RelayQuery_default.
Definition fourth_attempt : RelayQuery := default RelayQuery_default (WIREGUARD_RETRY_ORDER !! 3%nat).
Definition fourth_query : RelayQuery := default RelayQuery_default (intersection fourth_attempt in_sweden).

Lemma retry_respects_user_witness :
  (fourth_query ⊑ in_sweden ∧ obfuscation_of fourth_query ≠ obfuscation_of in_sweden) ∧
  head WIREGUARD_RETRY_ORDER ≫= (λ q, intersection q in_sweden) = Some in_sweden.
Proof.
  assert (intersection fourth_attempt in_sweden = Some fourth_query) as E by (vm_compute; reflexivity).
  destruct (retry_respects_user fourth_attempt in_sweden fourth_query) as (H1 & H2 & _).
  - apply (list_elem_of_lookup_2 _ 3%nat). reflexivity.
  - exact E.
  - split; [split; [exact H1|vm_compute; discriminate]|]. apply H2. reflexivity.
Defined.

Lemma get_relay_answers_user_witness :
  hops (get_relay two_hop_selector 0 Ipv4 5%nat).1 = Some ["se-got-wg-001"; "se-mma-wg-001"] ∧
  match (get_relay two_hop_selector 0 Ipv4 5%nat).1 with
  | Done (GrCustom e) => relay_settings two_hops = RsCustomTunnelEndpoint e
  | Done r => ∃ c u, SpecializedSelectorConfig_from two_hops = ScNormal c ∧ RelayQuery_try_from c = Some u ∧
      answers u [] (parsed_list (parsed_relays two_hop_selector)) r ∧ family_available Ipv4 r
  | Fail _ => True
  | Panicked => False
  end.
Proof.
  split; [vm_compute; reflexivity|].
  apply (@get_relay_answers_user counting_host two_hop_selector 0 Ipv4 5%nat), selector_weights.
Defined.

Definition first_relay : Relay := default (make_relay "" 0 EdBridge) (head (relays (parsed_list (parsed_relays selector)))).

Lemma get_relay_finds_relay_witness :
  is_Some (match (get_relay selector 7 Ipv4AndIpv6 5%nat).1 with Done r => Some r | _ => None end).
Proof.
  apply (@get_relay_finds_relay counting_host selector (settings false Any) 7 Ipv4AndIpv6 first_relay 51821).
  - repeat constructor; cbn; lia.
  - reflexivity.
  - reflexivity.
  - reflexivity.
  - left.
  - discriminate.
  - reflexivity.
  - left. reflexivity.
  - eexists. split; [left|reflexivity].
  - left.
  - reflexivity.
  - reflexivity.
  - vm_compute. reflexivity.
  - reflexivity.
  - reflexivity.
  - discriminate.
Defined.

Definition one_entry : list Relay := take 1 (relays sweden).
Lemma entry_exit_combo_witness :
  match (pick_working_entry_exit_combo (relays sweden) one_entry 2%nat).1 with
  | Done (Some (exit, entry)) =>
      exit ∈ relays sweden ∧ entry ∈ one_entry ∧ hostname entry ≠ hostname exit
  | Done None => ∀ exit entry, exit ∈ relays sweden → entry ∈ one_entry → hostname exit = hostname entry
  | _ => False
  end.
Proof.
  apply (@entry_exit_combo counting_host (relays sweden) one_entry 2%nat).
  - apply sweden_weights.
  - repeat constructor; cbn; lia.
  - apply (bool_decide_eq_true_1 _). vm_compute. reflexivity.
Defined.

Lemma weighted_pick_witness :
  match (pick_random_relay (relays sweden) 250%nat : outcome Error (option Relay) * nat).1 with
  | Done (Some r) => r ∈ relays sweden ∧ (weight r = 0 → wrap 64 (weight_sum weight (relays sweden)) = 0)
  | Done None => relays sweden = []
  | _ => False
  end.
Proof. apply (@weighted_pick counting_host (relays sweden) 250%nat), sweden_weights. Defined.

(** The bundled list is newer; later the settings override an address. *)
Definition override : RelayOverride :=
  {| ro_hostname := "se-mma-wg-001"; ro_ipv4_addr_in := Some (Ipv4Addr_new 1 2 3 4); ro_ipv6_addr_in := None |}.
Definition overriding : SelectorConfig := make_config (settings false Any) false false SelOff [override].
Lemma relay_list_parsed_witness :
  let s := run_updates (RelaySelector_new plain (Ok (3, make_list [malmo])) (Ok (4, sweden))) [SetConfig overriding] in
  (relays (parsed_list (parsed_relays s)) = overridden [override] <$> located_relays sweden ∧ get_relays s = sweden) ∧
  ipv4_addr_in <$> last (relays (parsed_list (parsed_relays s))) = Some (Ipv4Addr_new 1 2 3 4).
Proof.
  split; [|vm_compute; reflexivity].
  apply (relay_list_parsed plain (Ok (3, make_list [malmo])) (Ok (4, sweden)) sweden [SetConfig overriding]).
  - reflexivity.
  - apply (bool_decide_eq_true_1 _). vm_compute. reflexivity.
Defined.

(** ** Departures from the documentation *)

(** A relay with QUIC on IPv6 only passes the filter when no IP version is
    chosen, and is then used without any obfuscation although the user asked for
    QUIC. *)
Definition ipv6_quic : RelayList := make_list [make_city "Gothenburg" "got" 0
  [make_relay "se-got-wg-001" 1 (wg_data false
     (Some {| addr_in := [AddrV6 1]; token := "token"; domain := "se-got-wg-001.example" |}))]].
Definition quic_config : SelectorConfig := make_config (settings false Any) false false SelQuic [].
Lemma quic_silently_dropped :
  match (get_relay (RelaySelector_from_list 0 quic_config ipv6_quic) 0 Ipv4AndIpv6 0%nat).1 with
  | Done (GrWireguard _ obfuscator (Singlehop exit)) => obfuscator = None ∧ hostname exit = "se-got-wg-001"
  | _ => False
  end.
Proof. vm_compute. done. Qed.

(** With DAITA and multihop, the exit in Malmo is also the nearest entry: no
    relay is found, although the entry in Gothenburg supports DAITA. *)
Definition daita_config : SelectorConfig :=
  make_config (settings true (Only (LcLocation (GCity "se" "mma")))) true true SelOff [].
Lemma nearest_entry_is_exit :
  match (get_relay (RelaySelector_from_list 0 daita_config sweden) 0 Ipv4AndIpv6 0%nat).1 with
  | Fail (NoRelay _) => True
  | _ => False
  end ∧
  hops (get_wireguard_relay_inner
    (set_q_location (Only (LcLocation (GCity "se" "mma")))
      (set_q_wireguard {|
        wq_port := Any; wq_ip_version := Any; wq_allowed_ips := Any; wq_use_multihop := Only true;
        wq_entry_location := Any; wq_obfuscation := OqOff; wq_daita := Only true;
        wq_daita_use_multihop_if_necessary := Only false; wq_quantum_resistant := QrAuto |} RelayQuery_default))
    [] (parse_relay_list sweden []) 0%nat).1 = Some ["se-got-wg-001"; "se-mma-wg-001"].
Proof. vm_compute. done. Qed.

(** A selector that starts without a relay list forgets the overrides of its
    settings: they are not applied to the first list that it is given. *)
Lemma overrides_forgotten :
  let s := set_relays 5 sweden (RelaySelector_new overriding (Err OpenRelayCache) (Err OpenRelayCache)) in
  relay_overrides (config s) = [override] ∧
  ipv4_addr_in <$> last (relays (parsed_list (parsed_relays s))) = Some (Ipv4Addr_new 185 213 154 3) ∧
  ipv4_addr_in <$> last (relays (parsed_list (parsed_relays (set_config overriding s)))) = Some (Ipv4Addr_new 1 2 3 4).
Proof. vm_compute. done. Qed.

(** A query for a custom bridge is turned into settings for an ordinary one. *)
Definition custom_bridge : CustomProxy := CustomShadowsocks (SockV4 (Ipv4Addr_new 1 2 3 4) 443) "secret" "aes-256-gcm".
Lemma custom_bridge_lost :
  bridge_settings_resolve (BridgeQuery_into_settings (BqCustom (Some custom_bridge))).2 =
    Ok (RbNormal BridgeConstraints_default).
Proof. reflexivity. Qed.
