(* ===== verification/Versions.v ===== *)
(** * App versions (mullvad-version/src/lib.rs)

    Versions, their order, and their text form.  A string is the list of its
    bytes.  The regular expression of [from_str] is matched by hand: at a given
    position no alternative of it can match after a greedy choice failed, and
    like the `regex-lite` crate the search tries the positions from the left. *)

From S2P Require Import Prelude.
From Stdlib Require Import Ascii.
#[local] Open Scope list_scope.
#[local] Open Scope Z_scope.

Definition str : Set := list ascii.
Definition lit (s : string) : str := String.list_ascii_of_string s.

Inductive PreStableType : Set := Alpha (n : Z) | Beta (n : Z).
Record Version : Set := {
  year : Z;
  incremental : Z;
  pre_stable : option PreStableType;
  dev : option str
}.
#[global] Instance ascii_eq_dec : EqDecision ascii := ascii_dec.
#[global] Instance PreStableType_eq_dec : EqDecision PreStableType.
Proof. solve_decision. Defined.
#[global] Instance Version_eq_dec : EqDecision Version.
Proof. solve_decision. Defined.

(** ** Order *)

(** [Ordering::then]. *)
Definition then_ (a b : comparison) : comparison := match a with Eq => b | _ => a end.

Definition PreStableType_cmp (a b : PreStableType) : comparison :=
  match a, b with
  | Alpha a, Alpha b => a ?= b
  | Beta a, Beta b => a ?= b
  | Alpha _, Beta _ => Lt
  | Beta _, Alpha _ => Gt
  end.

Definition is_dev (v : Version) : bool := match dev v with Some _ => true | None => false end.

Definition type_ordering (a b : Version) : comparison :=
  match pre_stable a, pre_stable b with
  | None, None => Eq
  | Some _, None => Lt
  | None, Some _ => Gt
  | Some a, Some b => PreStableType_cmp a b
  end.
Definition dev_ordering (a b : Version) : option comparison :=
  match dev a, dev b with
  | Some _, None => Some Gt
  | None, Some _ => Some Lt
  | Some a, Some b => if decide (a = b) then Some Eq else None
  | None, None => Some Eq
  end.
Definition release_ordering (a b : Version) : comparison :=
  then_ (then_ (year a ?= year b) (incremental a ?= incremental b)) (type_ordering a b).
Definition partial_cmp (a b : Version) : option comparison :=
  match release_ordering a b with
  | Eq => dev_ordering a b
  | o => Some o
  end.
(** The operator [>] of the source. *)
Definition version_gt (a b : Version) : bool :=
  match partial_cmp a b with Some Gt => true | _ => false end.

(** ** Text *)

Definition digit (c : ascii) : option Z :=
  let n := Z.of_N (N_of_ascii c) - 48 in if (0 <=? n) && (n <=? 9) then Some n else None.
Definition digit_char (d : Z) : ascii := ascii_of_N (Z.to_N (48 + d)).
Definition value (ds : list Z) : Z := foldl (λ acc d, 10 * acc + d) 0 ds.

(** The decimal digits of a 32-bit number: there are at most ten. *)
Fixpoint show_digits (fuel : nat) (z : Z) (acc : str) : str :=
  match fuel with
  | O => acc
  | S fuel => if z <? 10 then digit_char z :: acc else show_digits fuel (z / 10) (digit_char (z mod 10) :: acc)
  end.
Definition show_u32 (z : Z) : str := show_digits 10 z [].

Definition Version_to_string (v : Version) : str :=
  show_u32 (year v) ++ lit "." ++ show_u32 (incremental v) ++
  match pre_stable v with
  | Some (Alpha n) => lit "-alpha" ++ show_u32 n
  | Some (Beta n) => lit "-beta" ++ show_u32 n
  | None => []
  end ++
  match dev v with Some commit_hash => lit "-dev-" ++ commit_hash | None => [] end.

(** Parts of the expression; each returns the rest of the text. *)
Fixpoint strip_prefix (p s : str) : option str :=
  match p, s with
  | [], _ => Some s
  | a :: p, b :: s => if decide (a = b) then strip_prefix p s else None
  | _ :: _, [] => None
  end.
Fixpoint up_to_digits (k : nat) (s : str) : list Z * str :=
  match k, s with
  | S k, c :: s' =>
      match digit c with
      | Some d => let '(ds, rest) := up_to_digits k s' in (d :: ds, rest)
      | None => ([], s)
      end
  | _, _ => ([], s)
  end.
Definition four_digits (s : str) : option (Z * str) :=
  match up_to_digits 4 s with
  | ([a; b; c; d], rest) => Some (value [a; b; c; d], rest)
  | _ => None
  end.
(** A digit that is not zero and up to [k] digits. *)
Definition number (k : nat) (s : str) : option (Z * str) :=
  match up_to_digits (S k) s with
  | (d :: ds, rest) => if d =? 0 then None else Some (value (d :: ds), rest)
  | ([], _) => None
  end.
Definition is_hex (c : ascii) : bool :=
  let n := Z.of_N (N_of_ascii c) in ((48 <=? n) && (n <=? 57)) || ((97 <=? n) && (n <=? 102)).
Fixpoint span_hex (s : str) : str * str :=
  match s with
  | c :: s' => if is_hex c then let '(h, rest) := span_hex s' in (c :: h, rest) else ([], s)
  | [] => ([], [])
  end.
Definition pre_stable_suffix (s : str) : option PreStableType * str :=
  match s' ← strip_prefix (lit "-alpha") s; number 2 s' with
  | Some (n, rest) => (Some (Alpha n), rest)
  | None =>
      match s' ← strip_prefix (lit "-beta") s; number 2 s' with
      | Some (n, rest) => (Some (Beta n), rest)
      | None => (None, s)
      end
  end.
Definition dev_suffix (s : str) : option str * str :=
  match strip_prefix (lit "-dev-") s with
  | Some s' => match span_hex s' with
               | ([], _) => (None, s)
               | (h, rest) => (Some h, rest)
               end
  | None => (None, s)
  end.
Definition match_here (s : str) : option Version :=
  '(y, s) ← four_digits s;
  s ← strip_prefix (lit ".") s;
  '(i, s) ← number 1 s;
  let '(p, s) := pre_stable_suffix s in
  let '(d, s) := dev_suffix s in
  match s with
  | [] => Some {| year := y; incremental := i; pre_stable := p; dev := d |}
  | _ => None
  end.
Fixpoint Version_from_str (s : str) : option Version :=
  match match_here s with
  | Some v => Some v
  | None => match s with [] => None | _ :: s => Version_from_str s end
  end.

Example from_str_stable : Version_from_str (lit "2021.34") =
  Some {| year := 2021; incremental := 34; pre_stable := None; dev := None |}.
Proof. vm_compute. reflexivity. Qed.
Example from_str_beta_dev : Version_to_string <$> Version_from_str (lit "2024.8-beta1-dev-e5483d") =
  Some (lit "2024.8-beta1-dev-e5483d").
Proof. vm_compute. reflexivity. Qed.
Example from_str_bad : Version_from_str <$> [lit "2021"; lit "2021.2a"; lit "2021.1-beta001"; lit "2021.1-beta5-alpha2"; lit "2021.1-dev"]
  = [None; None; None; None; None].
Proof. vm_compute. reflexivity. Qed.

(** ** The order *)

Definition rank (p : option PreStableType) : Z * Z :=
  match p with
  | Some (Alpha n) => (0, n)
  | Some (Beta n) => (1, n)
  | None => (2, 0)
  end.
Definition release (v : Version) : Z * Z * (Z * Z) := (year v, incremental v, rank (pre_stable v)).
Definition older (a b : Z * Z * (Z * Z)) : Prop :=
  let '(y1, i1, (t1, n1)) := a in
  let '(y2, i2, (t2, n2)) := b in
  y1 < y2 ∨ y1 = y2 ∧ (i1 < i2 ∨ i1 = i2 ∧ (t1 < t2 ∨ t1 = t2 ∧ n1 < n2)).

Lemma rank_inj p q : rank p = rank q → p = q.
Proof. destruct p as [[]|], q as [[]|]; cbn; congruence. Qed.

Lemma older_trans a b c : older a b → older b c → older a c.
Proof. destruct a as [[] []], b as [[] []], c as [[] []]; cbn. lia. Qed.
Lemma older_irrefl a : ¬ older a a.
Proof. destruct a as [[] []]; cbn. lia. Qed.

Lemma release_ordering_spec a b :
  match release_ordering a b with
  | Eq => release a = release b
  | Lt => older (release a) (release b)
  | Gt => older (release b) (release a)
  end.
Proof.
  unfold release_ordering, type_ordering, release, older.
  destruct (Z.compare_spec (year a) (year b)) as [Hy|Hy|Hy]; cbn;
    [|by destruct (rank _), (rank _); auto..].
  destruct (Z.compare_spec (incremental a) (incremental b)) as [Hi|Hi|Hi]; cbn;
    [|by destruct (rank _), (rank _); auto..].
  destruct (pre_stable a) as [[m|m]|], (pre_stable b) as [[n|n]|]; cbn; rewrite ?Hy, ?Hi; try lia; try done;
    destruct (Z.compare_spec m n) as [-> | |]; (done || lia).
Qed.

Lemma release_ordering_eq a b : release_ordering a b = Eq ↔ release a = release b.
Proof.
  pose proof (release_ordering_spec a b) as K. split; [by intros E; rewrite E in K|].
  intros E. rewrite E in K. destruct (release_ordering a b); [done|by apply older_irrefl in K..].
Qed.

Lemma release_ordering_opp a b : release_ordering b a = CompOpp (release_ordering a b).
Proof.
  pose proof (release_ordering_spec a b) as K1. pose proof (release_ordering_spec b a) as K2.
  destruct (release_ordering a b), (release_ordering b a); cbn; try done;
    repeat match goal with
    | E : release _ = release _ |- _ => rewrite E in *; clear E
    | E : older ?a ?a |- _ => by apply older_irrefl in E
    | E : older ?a ?b, F : older ?b ?a |- _ => by destruct (older_irrefl a); eapply older_trans
    end.
Qed.

Lemma release_dev_eq a b : release a = release b → dev a = dev b → a = b.
Proof. destruct a, b; unfold release; cbn. intros [= -> -> ?%rank_inj]. congruence. Qed.

Lemma version_gt_spec a b :
  version_gt a b = true ↔
    older (release b) (release a) ∨ release a = release b ∧ is_dev a = true ∧ is_dev b = false.
Proof.
  unfold version_gt, partial_cmp, is_dev, dev_ordering. pose proof (release_ordering_spec a b) as K.
  destruct (release_ordering a b).
  - destruct (dev a), (dev b); try destruct (decide _); split; try done; try (by auto);
      intros [L | (_ & ? & ?)]; try done; rewrite K in L; by apply older_irrefl in L.
  - split; [done|]. intros [L | (E & _)]; [|by rewrite E in K; apply older_irrefl in K].
    by destruct (older_irrefl (release a)); eapply older_trans.
  - split; [by left|done].
Qed.

(** Versions are partially ordered: two versions compare equal exactly when
    they are the same, comparing them the other way round gives the opposite
    answer, being newer is transitive, and the only versions that cannot be
    compared are builds of the same release with different development
    suffixes.  A stable release is newer than the pre-releases of it. *)
Theorem version_order :
  (∀ a b, partial_cmp a b = Some Eq ↔ a = b) ∧
  (∀ a b, partial_cmp b a = CompOpp <$> partial_cmp a b) ∧
  (∀ a b c, version_gt a b = true → version_gt b c = true → version_gt a c = true) ∧
  (∀ a b, partial_cmp a b = None ↔
    release a = release b ∧ ∃ x y, dev a = Some x ∧ dev b = Some y ∧ x ≠ y) ∧
  (∀ a b, year a = year b → incremental a = incremental b → pre_stable a = None → is_Some (pre_stable b) →
    version_gt a b = true).
Proof.
  split_and!.
  - intros a b. unfold partial_cmp. destruct (release_ordering a b) eqn:E;
      [|split; [done|intros ->; by rewrite (proj2 (release_ordering_eq b b) eq_refl) in E]..].
    apply release_ordering_eq in E. unfold dev_ordering. split.
    + destruct (dev a) eqn:Ea, (dev b) eqn:Eb; try destruct (decide _); try done; intros _; apply release_dev_eq; congruence.
    + intros ->. destruct (dev b); [|done]. by rewrite decide_True.
  - intros a b. unfold partial_cmp. rewrite release_ordering_opp. destruct (release_ordering a b); cbn; try done.
    unfold dev_ordering. destruct (dev a), (dev b); cbn; try done. repeat destruct (decide _); (done || congruence).
  - intros a b c. rewrite !version_gt_spec. intros [H1 | (E1 & D1 & D2)] [H2 | (E2 & D3 & D4)].
    + left. by eapply older_trans.
    + left. by rewrite <- E2.
    + left. by rewrite E1.
    + congruence.
  - intros a b. unfold partial_cmp. destruct (release_ordering a b) eqn:E;
      [|split; [done|intros [E' _]; apply release_ordering_eq in E'; congruence]..].
    apply release_ordering_eq in E. unfold dev_ordering.
    destruct (dev a) as [x|], (dev b) as [y|]; try destruct (decide (x = y)); split; try done;
      try (intros (_ & ? & ? & ? & ? & ?); congruence). intros _. split; [done|]. by exists x, y.
  - intros a b Hy Hi Hp [q Hq]. apply version_gt_spec. left. unfold release, older.
    rewrite Hy, Hi, Hp, Hq. destruct q; cbn; lia.
Qed.

(** ** Text *)

Definition digits (s : str) : option (list Z) := mapM digit s.

Lemma digit_inv c d : digit c = Some d → 0 ≤ d ≤ 9 ∧ c = digit_char d.
Proof.
  unfold digit, digit_char. destruct (Z.leb_spec 0 (Z.of_N (N_of_ascii c) - 48)); [|done].
  destruct (Z.leb_spec (Z.of_N (N_of_ascii c) - 48) 9); [|done]. intros [= <-]. split; [lia|].
  replace (48 + (Z.of_N (N_of_ascii c) - 48)) with (Z.of_N (N_of_ascii c)) by lia.
  by rewrite N2Z.id, ascii_N_embedding.
Qed.

Lemma up_to_digits_inv k s ds rest :
  up_to_digits k s = (ds, rest) → (length ds ≤ k)%nat ∧ Forall (λ d, 0 ≤ d ≤ 9) ds ∧ s = (digit_char <$> ds) ++ rest.
Proof.
  revert s ds. induction k as [|k IH]; intros [|c s] ds E; cbn in E; simplify_eq/=; try (by split_and!; [lia|constructor|]).
  destruct (digit c) as [d|] eqn:Ed; [|simplify_eq/=; by split_and!; [lia|constructor|]].
  destruct (up_to_digits k s) as [ds' rest'] eqn:Es. simplify_eq/=.
  apply digit_inv in Ed as [Hd ->]. apply IH in Es as (Hl & Hf & ->). split_and!; [lia|by constructor|done].
Qed.

(** A text that does not go on with a digit. *)
Definition no_digit (s : str) : Prop := match s with c :: _ => digit c = None | [] => True end.

Lemma up_to_digits_app k s ds rest :
  digits s = Some ds → (length ds ≤ k)%nat → (length ds = k ∨ no_digit rest) → up_to_digits k (s ++ rest) = (ds, rest).
Proof.
  unfold digits. rewrite mapM_Some. intros F. revert k. induction F as [|c d s ds Ed F IH]; intros k Hl Hr.
  - destruct k, rest as [|c rest]; try done. cbn in *. destruct Hr as [?|Hr]; [done|]. by rewrite Hr.
  - destruct k as [|k]; cbn in Hl, Hr |- *; [lia|]. rewrite Ed, IH; [done|lia|]. destruct Hr; [left; lia|by right].
Qed.

(** ** Numbers *)

Lemma value_snoc ds d : value (ds ++ [d]) = 10 * value ds + d.
Proof. unfold value. by rewrite foldl_app. Qed.

Lemma value_pos d ds : Forall (λ d, 0 ≤ d ≤ 9) (d :: ds) → d ≠ 0 → 0 < value (d :: ds).
Proof.
  induction ds as [|x ds IH] using rev_ind; intros Hf Hd; [apply Forall_cons in Hf as [? _]; cbn; lia|].
  rewrite app_comm_cons in Hf |- *. apply Forall_app in Hf as [Hf [Hx _]%Forall_cons].
  rewrite value_snoc. specialize (IH Hf Hd). lia.
Qed.

Lemma show_value_digits fuel d ds acc :
  Forall (λ d, 0 ≤ d ≤ 9) (d :: ds) → d ≠ 0 → (length (d :: ds) ≤ fuel)%nat →
  show_digits fuel (value (d :: ds)) acc = (digit_char <$> d :: ds) ++ acc.
Proof.
  revert ds acc. induction fuel as [|fuel IH]; intros ds acc Hf Hd Hl; [cbn in Hl; lia|].
  induction ds as [|x ds _] using rev_ind.
  - apply Forall_cons in Hf as [? _]. cbn. rewrite (proj2 (Z.ltb_lt _ _)) by lia. by replace (10 * 0 + d) with d by lia.
  - rewrite app_comm_cons in Hf, Hl |- *. apply Forall_app in Hf as [Hf [Hx _]%Forall_cons].
    rewrite length_app in Hl. cbn [length] in Hl. pose proof (value_pos d ds Hf Hd) as Hv.
    rewrite value_snoc. cbn [show_digits]. rewrite (proj2 (Z.ltb_ge _ _)) by lia.
    replace ((10 * value (d :: ds) + x) / 10) with (value (d :: ds)) by (Z.div_mod_to_equations; lia).
    replace ((10 * value (d :: ds) + x) mod 10) with x by (Z.div_mod_to_equations; lia).
    rewrite IH by (done || (cbn [length]; lia)). rewrite fmap_app, <- app_assoc. done.
Qed.

Lemma show_value d ds :
  Forall (λ d, 0 ≤ d ≤ 9) (d :: ds) → d ≠ 0 → (length ds ≤ 3)%nat → show_u32 (value (d :: ds)) = digit_char <$> d :: ds.
Proof. intros. unfold show_u32. rewrite show_value_digits, app_nil_r; [done..|]. cbn [length]. lia. Qed.

Lemma digit_digit_char d : 0 ≤ d ≤ 9 → digit (digit_char d) = Some d.
Proof.
  intros Hd. assert (d = 0 ∨ d = 1 ∨ d = 2 ∨ d = 3 ∨ d = 4 ∨ d = 5 ∨ d = 6 ∨ d = 7 ∨ d = 8 ∨ d = 9) as E by lia.
  by destruct_or! E; subst d.
Qed.

Lemma digits_chars ds : Forall (λ d, 0 ≤ d ≤ 9) ds → digits (digit_char <$> ds) = Some ds.
Proof. intros F. apply mapM_Some. induction F; constructor; [by apply digit_digit_char|done]. Qed.

(** The number of digits that [number k] reads. *)
Lemma show_u32_spec k z :
  1 ≤ z < 10 ^ Z.of_nat (S k) → (k ≤ 3)%nat →
  ∃ d ds, digits (show_u32 z) = Some (d :: ds) ∧ d ≠ 0 ∧ value (d :: ds) = z ∧ (length ds ≤ k)%nat ∧
    (10 ^ Z.of_nat k ≤ z → length ds = k).
Proof.
  intros Hz Hk. assert (∃ d ds, Forall (λ d, 0 ≤ d ≤ 9) (d :: ds) ∧ d ≠ 0 ∧ value (d :: ds) = z ∧ (length ds ≤ k)%nat ∧
    (10 ^ Z.of_nat k ≤ z → length ds = k)) as (d & ds & Hf & Hd & Hv & Hl & Hge).
  2: { exists d, ds. split_and!; try done. rewrite <- Hv, show_value by (done || lia). by apply digits_chars. }
  revert z Hz. clear Hk. induction k as [|k IH]; intros z Hz.
  - exists z, []. change (10 ^ Z.of_nat 1) with 10 in Hz. split_and!; [repeat constructor; lia|lia|cbn; lia|done|done].
  - rewrite Nat2Z.inj_succ, Z.pow_succ_r in Hz by lia. destruct (Z.ltb_spec z 10).
    + exists z, []. split_and!; [repeat constructor; lia|lia|cbn; lia|cbn; lia|].
      rewrite Nat2Z.inj_succ, Z.pow_succ_r by lia. pose proof (Z.pow_pos_nonneg 10 (Z.of_nat k)). lia.
    + destruct (IH (z / 10)) as (d & ds & Hf & Hd & Hv & Hl & Hge); [Z.div_mod_to_equations; lia|].
      exists d, (ds ++ [z mod 10]). split_and!; [|done| | |].
      * rewrite app_comm_cons. apply Forall_app. split; [done|]. repeat constructor; Z.div_mod_to_equations; lia.
      * rewrite app_comm_cons, value_snoc, Hv. Z.div_mod_to_equations; lia.
      * rewrite length_app. cbn. lia.
      * rewrite Nat2Z.inj_succ, Z.pow_succ_r by lia. intros Hle. rewrite length_app, Hge; [cbn; lia|].
        Z.div_mod_to_equations; lia.
Qed.

Lemma number_show k z rest :
  1 ≤ z < 10 ^ Z.of_nat (S k) → (k ≤ 3)%nat → no_digit rest → number k (show_u32 z ++ rest) = Some (z, rest).
Proof.
  intros Hz Hk Hr. destruct (show_u32_spec k z Hz Hk) as (d & ds & Ed & Hd & Hv & Hl & _).
  unfold number. rewrite (up_to_digits_app (S k) _ (d :: ds)); [|done|cbn; lia|by right].
  rewrite (proj2 (Z.eqb_neq d 0)) by done. by rewrite Hv.
Qed.

Lemma number_inv k s z rest :
  number k s = Some (z, rest) → (k ≤ 3)%nat → 1 ≤ z < 10 ^ Z.of_nat (S k) ∧ s = show_u32 z ++ rest.
Proof.
  unfold number. destruct (up_to_digits (S k) s) as [[|d ds] rest'] eqn:E; [done|].
  destruct (Z.eqb_spec d 0); [done|]. intros [= <- ->] Hk. apply up_to_digits_inv in E as (Hl & Hf & ->).
  cbn [length] in Hl. split; [|by rewrite show_value by (done || lia)].
  pose proof (value_pos d ds Hf n). split; [lia|]. assert (∀ l, Forall (λ d, 0 ≤ d ≤ 9) l → value l < 10 ^ Z.of_nat (length l)) as Hb.
  { intros l. induction l as [|x l IH] using rev_ind; [cbn; lia|]. intros [F [Hx _]%Forall_cons]%Forall_app.
    rewrite value_snoc, length_app, Nat2Z.inj_add. change (Z.of_nat (length [x])) with 1.
    rewrite Z.pow_add_r, Z.pow_1_r by lia. specialize (IH F). lia. }
  specialize (Hb _ Hf). eapply Z.lt_le_trans; [exact Hb|]. apply Z.pow_le_mono_r; cbn [length]; lia.
Qed.

(** ** Reading what was printed *)

(** The versions that the expression describes, with a year of four digits that
    does not start with zero. *)
Record version_ok (v : Version) : Prop := {
  ok_incremental : 1 ≤ incremental v < 100;
  ok_pre_stable : match pre_stable v with Some (Alpha n) | Some (Beta n) => 1 ≤ n < 1000 | None => True end;
  ok_dev : match dev v with Some h => h ≠ [] ∧ forallb is_hex h = true | None => True end
}.

Lemma strip_prefix_app p s : strip_prefix p (p ++ s) = Some s.
Proof. induction p as [|a p IH]; cbn; [done|]. by rewrite decide_True. Qed.
Lemma strip_prefix_inv p s r : strip_prefix p s = Some r → s = p ++ r.
Proof.
  revert s. induction p as [|a p IH]; intros [|b s]; cbn; try congruence.
  destruct (decide (a = b)) as [->|]; [|done]. intros E. by rewrite (IH s).
Qed.

Lemma span_hex_all h : forallb is_hex h = true → span_hex h = (h, []).
Proof. induction h as [|c h IH]; cbn; [done|]. intros [-> E]%andb_true_iff. by rewrite IH. Qed.
Lemma span_hex_inv s h r : span_hex s = (h, r) → s = h ++ r ∧ forallb is_hex h = true.
Proof.
  revert h. induction s as [|c s IH]; intros h E; cbn in E; [by simplify_eq|].
  destruct (is_hex c) eqn:Ec; [|by simplify_eq]. destruct (span_hex s) as [h' r'] eqn:Es. simplify_eq/=.
  destruct (IH h') as [-> Eh]; [done|]. split; [done|]. by rewrite Ec.
Qed.

Definition dev_text (d : option str) : str :=
  match d with Some commit_hash => lit "-dev-" ++ commit_hash | None => [] end.
Definition pre_text (p : option PreStableType) : str :=
  match p with
  | Some (Alpha n) => lit "-alpha" ++ show_u32 n
  | Some (Beta n) => lit "-beta" ++ show_u32 n
  | None => []
  end.

Lemma dev_text_no_digit d : no_digit (dev_text d).
Proof. by destruct d. Qed.
Lemma pre_dev_no_digit p d : no_digit (pre_text p ++ dev_text d).
Proof. destruct p as [[]|]; [done..|apply dev_text_no_digit]. Qed.

Lemma dev_suffix_text d :
  match d with Some h => h ≠ [] ∧ forallb is_hex h = true | None => True end → dev_suffix (dev_text d) = (d, []).
Proof.
  destruct d as [h|]; [|done]. intros [Hne Hh]. unfold dev_suffix, dev_text. rewrite strip_prefix_app, span_hex_all by done.
  by destruct h.
Qed.
Lemma dev_suffix_inv s d :
  dev_suffix s = (d, []) →
  s = dev_text d ∧ match d with Some h => h ≠ [] ∧ forallb is_hex h = true | None => True end.
Proof.
  unfold dev_suffix. destruct (strip_prefix (lit "-dev-") s) as [s'|] eqn:E; [|by intros [= <- ->]].
  destruct (span_hex s') as [[|c h] r] eqn:Eh; intros [= <- ?]; subst; [done|].
  apply strip_prefix_inv in E as ->. apply span_hex_inv in Eh as [-> Eh]. rewrite app_nil_r. done.
Qed.

Lemma pre_stable_suffix_text p d :
  match p with Some (Alpha n) | Some (Beta n) => 1 ≤ n < 1000 | None => True end →
  pre_stable_suffix (pre_text p ++ dev_text d) = (p, dev_text d).
Proof.
  unfold pre_stable_suffix. destruct p as [[n|n]|]; intros Hn; cbn [pre_text].
  - rewrite <- app_assoc, strip_prefix_app. cbn [mbind option_bind].
    rewrite number_show; [done|exact Hn|lia|apply dev_text_no_digit].
  - rewrite <- app_assoc. change (strip_prefix (lit "-alpha") (lit "-beta" ++ show_u32 n ++ dev_text d)) with (@None str).
    rewrite strip_prefix_app. cbn [mbind option_bind]. rewrite number_show; [done|exact Hn|lia|apply dev_text_no_digit].
  - by destruct d.
Qed.
Lemma pre_stable_suffix_inv s p r :
  pre_stable_suffix s = (p, r) →
  s = pre_text p ++ r ∧ match p with Some (Alpha n) | Some (Beta n) => 1 ≤ n < 1000 | None => True end.
Proof.
  unfold pre_stable_suffix.
  destruct (strip_prefix (lit "-alpha") s ≫= number 2) as [[n r']|] eqn:Ea.
  - intros [= <- ->]. apply bind_Some in Ea as (s' & Es & En). apply strip_prefix_inv in Es as ->.
    apply number_inv in En as [Hn ->]; [|lia]. split; [|exact Hn]. cbn [pre_text]. by rewrite app_assoc.
  - destruct (strip_prefix (lit "-beta") s ≫= number 2) as [[n r']|] eqn:Eb; [|by intros [= <- ->]].
    intros [= <- ->]. apply bind_Some in Eb as (s' & Es & En). apply strip_prefix_inv in Es as ->.
    apply number_inv in En as [Hn ->]; [|lia]. split; [|exact Hn]. cbn [pre_text]. by rewrite app_assoc.
Qed.

Lemma four_digits_show z rest : 1000 ≤ z < 10000 → four_digits (show_u32 z ++ rest) = Some (z, rest).
Proof.
  intros Hz. destruct (show_u32_spec 3 z) as (d & ds & Ed & Hd & Hv & Hl & Hge); [cbn; lia|lia|].
  unfold four_digits. rewrite (up_to_digits_app 4 _ (d :: ds)); [|done|cbn; lia|left; cbn; rewrite Hge; cbn; lia].
  specialize (Hge ltac:(cbn; lia)). destruct ds as [|a [|b [|c [|]]]]; try done. by rewrite Hv.
Qed.
Lemma four_digits_inv s z rest :
  four_digits s = Some (z, rest) → 0 ≤ z < 10000 ∧ (1000 ≤ z → s = show_u32 z ++ rest).
Proof.
  unfold four_digits. destruct (up_to_digits 4 s) as [[|a [|b [|c [|d [|]]]]] rest'] eqn:E; try done.
  intros [= <- ->]. apply up_to_digits_inv in E as (_ & Hf & ->).
  assert (0 ≤ a ≤ 9 ∧ 0 ≤ b ≤ 9 ∧ 0 ≤ c ≤ 9 ∧ 0 ≤ d ≤ 9) as Hb by (repeat match goal with H : Forall _ (_ :: _) |- _ => apply Forall_cons in H as [? ?] end; done).
  split; [cbn; lia|]. intros Hz. rewrite show_value; [done|done| |cbn; lia]. intros ->. cbn in Hz. lia.
Qed.

Lemma match_here_text v :
  version_ok v → 1000 ≤ year v < 10000 → match_here (Version_to_string v) = Some v.
Proof.
  intros [Hi Hp Hd] Hy. unfold match_here.
  change (Version_to_string v) with
    (show_u32 (year v) ++ lit "." ++ show_u32 (incremental v) ++ pre_text (pre_stable v) ++ dev_text (dev v)).
  rewrite four_digits_show by done. cbn [mbind option_bind]. rewrite strip_prefix_app. cbn [mbind option_bind].
  rewrite number_show; [|exact Hi|lia|apply pre_dev_no_digit]. cbn [mbind option_bind].
  rewrite pre_stable_suffix_text, dev_suffix_text by done. by destruct v.
Qed.
Lemma match_here_inv s v :
  match_here s = Some v →
  version_ok v ∧ 0 ≤ year v < 10000 ∧ (1000 ≤ year v → s = Version_to_string v).
Proof.
  unfold match_here. intros ([y s1] & Ey & E)%bind_Some. apply bind_Some in E as (s2 & Es & E).
  apply bind_Some in E as ([i s3] & Ei & E). destruct (pre_stable_suffix s3) as [p s4] eqn:Ep.
  destruct (dev_suffix s4) as [d [|]] eqn:Ed; [|done]. injection E as <-. cbn.
  apply four_digits_inv in Ey as [Hy Ey]. apply strip_prefix_inv in Es as ->.
  apply number_inv in Ei as [Hi ->]; [|lia]. apply pre_stable_suffix_inv in Ep as [-> Hp].
  apply dev_suffix_inv in Ed as [-> Hd]. split_and!; [by split|lia..|]. intros Hge. by rewrite Ey.
Qed.

(** The text of a version is read back as that version; and whatever text is
    accepted, the version read has an incremental number of at most two digits, a
    pre-release number of at most three and a hexadecimal development suffix,
    and the text ends with the text of that version (for a year of four digits
    without leading zeros).  Text before it is ignored. *)
Theorem version_text :
  (∀ v, version_ok v → 1000 ≤ year v < 10000 → Version_from_str (Version_to_string v) = Some v) ∧
  (∀ s v, Version_from_str s = Some v →
    version_ok v ∧ 0 ≤ year v < 10000 ∧ (1000 ≤ year v → ∃ ignored, s = ignored ++ Version_to_string v)).
Proof.
  split.
  - intros v Hv Hy. pose proof (match_here_text v Hv Hy) as E.
    destruct (Version_to_string v); cbn [Version_from_str]; by rewrite E.
  - intros s v. induction s as [|c s IH]; [done|]. cbn [Version_from_str].
    destruct (match_here (c :: s)) as [v'|] eqn:E.
    + intros [= ->]. apply match_here_inv in E as (? & ? & Ht). split_and!; [done|lia..|]. intros Hy. exists []. by rewrite Ht.
    + intros Hs. destruct (IH Hs) as (? & ? & Ht). split_and!; [done|lia..|]. intros Hy.
      destruct (Ht Hy) as [ignored ->]. by exists (c :: ignored).
Qed.

(** The expression is not anchored at the start of the text. *)
Example from_str_unanchored : Version_to_string <$> Version_from_str (lit "not-a-version 12025.3") = Some (lit "2025.3").
Proof. vm_compute. reflexivity. Qed.
