(* ===== verification/UpdateInfo.v ===== *)
(** * Version metadata (mullvad-update)

    mullvad-update/src/format/: the signed metadata and its verification;
    mullvad-update/src/version.rs: the versions that are offered to a client.
    JSON, canonical JSON, ed25519 and hexadecimal decoding belong to other crates
    and are the class [MetadataCrates].  A 32-bit float is its bit pattern; times
    are numbers of nanoseconds. *)

From S2P Require Import Prelude Versions.

(** ** format/mod.rs *)

Inductive Architecture : Set := X86 | Arm64.
#[global] Instance Architecture_eq_dec : EqDecision Architecture.
Proof. solve_decision. Defined.

(** [Rollout], the bits of a float. *)
Definition Rollout : Set := Z.

Record Installer : Set := {
  i_architecture : Architecture;
  i_urls : list string;
  i_size : Z;
  i_sha256 : string
}.
Record Release : Set := {
  r_version : Version;
  r_changelog : string;
  r_installers : list Installer;
  r_rollout : Rollout
}.
Record Response : Set := {
  metadata_version : Z;
  metadata_expiry : Z;
  releases : list Release
}.
Inductive ResponseSignature : Set :=
| Ed25519 (keyid sig : list Z)
| OtherSignature (keyid sig : string).

(** ** What other crates do *)

Class MetadataCrates : Type := {
  json : Type;
  (** [serde_json::from_slice] into [PartialSignedResponse] and into a value. *)
  parse_partial : list Z → option (list ResponseSignature * json);
  parse_value : list Z → option json;
  (** [json_canon::to_vec], [VerifyingKey::verify_strict], [serde_json::from_value], [hex::decode]. *)
  to_canonical : json → option (list Z);
  verify_strict : list Z → list Z → list Z → bool;
  parse_response : json → option Response;
  hex_decode : string → option (list Z)
}.

Inductive UpdateError : Set :=
| InvalidJson | UnrecognizedKey | NotCanonical | BadSignature | InvalidCanonicalJson | InvalidResponse
| Expired | TooOld
| DuplicateVersions | InvalidChecksumHex | InvalidChecksumLength | NoStableVersion.

Definition or_err {A} (o : option A) (e : UpdateError) : result UpdateError A :=
  match o with Some a => Ok a | None => Err e end.

Section Metadata.
Context `{MetadataCrates}.

(** ** format/deserializer.rs *)

Fixpoint find_signature (keys : list (list Z)) (sigs : list ResponseSignature) : option (list Z * list Z) :=
  match sigs with
  | [] => None
  | Ed25519 keyid sig :: sigs =>
      if decide (keyid ∈ keys) then Some (keyid, sig) else find_signature keys sigs
  | OtherSignature _ _ :: sigs => find_signature keys sigs
  end.

Definition deserialize_and_verify (keys : list (list Z)) (bytes : list Z) : result UpdateError json :=
  '(signatures, signed) ← or_err (parse_partial bytes) InvalidJson;
  '(key, sig) ← or_err (find_signature keys signatures) UnrecognizedKey;
  canon_data ← or_err (to_canonical signed) NotCanonical;
  if verify_strict key canon_data sig then or_err (parse_value canon_data) InvalidCanonicalJson
  else Err BadSignature.

Definition deserialize_and_verify_at_time (keys : list (list Z)) (bytes : list Z) (current_time : Z)
    (min_metadata_version : Z) : result UpdateError Response :=
  signed ← deserialize_and_verify keys bytes;
  signed_response ← or_err (parse_response signed) InvalidResponse;
  if metadata_expiry signed_response <=? current_time then Err Expired
  else if metadata_version signed_response <? min_metadata_version then Err TooOld
  else Ok signed_response.

(** ** version.rs *)

Definition f32_negative (b : Z) : bool := 2 ^ 31 <=? b.
Definition f32_magnitude (b : Z) : Z := b mod 2 ^ 31.
Definition f32_is_nan (b : Z) : bool := 0x7f800000 <? f32_magnitude b.
Definition f32_is_finite (b : Z) : bool := f32_magnitude b <? 0x7f800000.
Definition f32_key (b : Z) : Z := if f32_negative b then - f32_magnitude b else f32_magnitude b.
Definition f32_ge (a b : Z) : bool := negb (f32_is_nan a) && negb (f32_is_nan b) && (f32_key b <=? f32_key a).

Definition IGNORE : Rollout := 0.
Definition SUPPORTED_VERSION : Rollout := 0x34000000.
Definition FULLY_ROLLED_OUT : Rollout := 0x3f800000.
Definition Rollout_try_from (rollout : Z) : option Rollout :=
  if negb (f32_is_finite rollout) then None
  else if f32_ge rollout 0 && f32_ge FULLY_ROLLED_OUT rollout then Some rollout else None.

Record VersionParameters : Set := {
  vp_architecture : Architecture;
  vp_rollout : Rollout;
  allow_empty : bool;
  lowest_metadata_version : Z
}.
(** [mullvad_update::version::Version]. *)
Record VersionDetails : Set := {
  version : Version;
  urls : list string;
  size : Z;
  changelog : string;
  sha256 : list Z
}.
Record VersionInfo : Set := { stable : VersionDetails; beta : option VersionDetails }.

(** The version that a release offers to a client, if any. *)
Definition release_version (params : VersionParameters) (r : Release) : option (result UpdateError VersionDetails) :=
  if bool_decide (r_installers r = []) && allow_empty params then
    Some (Ok {| version := r_version r; size := 0; urls := []; changelog := r_changelog r; sha256 := repeat 0 32 |})
  else
    (λ installer,
       hash ← or_err (hex_decode (i_sha256 installer)) InvalidChecksumHex;
       if decide (length hash = 32%nat) then
         Ok {| version := r_version r; size := i_size installer; urls := i_urls installer;
               changelog := r_changelog r; sha256 := hash |}
       else Err InvalidChecksumLength) <$>
    List.find (λ installer, bool_decide (vp_architecture params = i_architecture installer)) (r_installers r).

(** [Itertools::try_collect]. *)
Fixpoint try_collect {A} (l : list (result UpdateError A)) : result UpdateError (list A) :=
  match l with
  | [] => Ok []
  | x :: l => a ← x; rest ← try_collect l; Ok (a :: rest)
  end.

(** [Iterator::max_by]: of several greatest elements, the last one. *)
Definition newest (l : list VersionDetails) : option VersionDetails :=
  match l with
  | [] => None
  | x :: l =>
      Some (foldl (λ a b, match partial_cmp (version a) (version b) with Some Gt => a | _ => b end) x l)
  end.

Definition is_stable (v : VersionDetails) : bool := bool_decide (pre_stable (version v) = None).
Definition is_beta (v : VersionDetails) : bool :=
  match pre_stable (version v) with Some (Beta _) => true | _ => false end.

Definition available_versions (params : VersionParameters) (response : Response) :
    result UpdateError (list VersionDetails) :=
  try_collect (omap (release_version params)
    (List.filter (λ r, negb (is_dev (r_version r))) (List.filter (λ r, f32_ge (r_rollout r) (vp_rollout params)) (releases response)))).

Definition try_from_response (params : VersionParameters) (response : Response) : result UpdateError VersionInfo :=
  if negb (bool_decide (NoDup (r_version <$> releases response))) then Err DuplicateVersions
  else
    available_versions ← available_versions params response;
    stable ← or_err (newest (List.filter is_stable available_versions)) NoStableVersion;
    let beta := newest (List.filter (λ r, version_gt (version r) (version stable)) (List.filter is_beta available_versions)) in
    Ok {| stable := stable; beta := beta |}.

Definition is_version_supported (current_version : Version) (response : Response) : bool :=
  existsb (λ r, bool_decide (r_version r = current_version)) (releases response).
End Metadata.

(** ** Authenticity *)

Section Theorems.
Context `{MetadataCrates}.

Lemma find_signature_inv keys sigs key sig :
  find_signature keys sigs = Some (key, sig) → key ∈ keys ∧ Ed25519 key sig ∈ sigs.
Proof.
  induction sigs as [|[k s|k s] sigs IH]; cbn; [done| |].
  - destruct (decide (k ∈ keys)); [|intros E; destruct (IH E); split; [done|by right]].
    intros [= -> ->]. split; [done|left].
  - intros E. destruct (IH E). split; [done|by right].
Qed.

Lemma or_err_ok {A} (o : option A) e a : or_err o e = Ok a ↔ o = Some a.
Proof. destruct o; cbn; split; congruence. Qed.

(** What a response that was accepted is known to be. *)
Definition authentic (keys : list (list Z)) (bytes : list Z) (resp : Response) : Prop :=
  ∃ sigs signed key sig canon value,
    parse_partial bytes = Some (sigs, signed) ∧ Ed25519 key sig ∈ sigs ∧ key ∈ keys ∧
    to_canonical signed = Some canon ∧ verify_strict key canon sig = true ∧
    parse_value canon = Some value ∧ parse_response value = Some resp.

Lemma deserialize_and_verify_inv keys bytes now lowest resp :
  deserialize_and_verify_at_time keys bytes now lowest = Ok resp →
  authentic keys bytes resp ∧ now < metadata_expiry resp ∧ lowest ≤ metadata_version resp.
Proof.
  unfold deserialize_and_verify_at_time, deserialize_and_verify.
  intros (value & E & K)%result_bind_ok. apply result_bind_ok in E as ([sigs signed] & Ep%or_err_ok & E).
  apply result_bind_ok in E as ([key sig] & [Hk Hs]%or_err_ok%find_signature_inv & E).
  apply result_bind_ok in E as (canon & Ec%or_err_ok & E).
  destruct (verify_strict key canon sig) eqn:Ev; [|done]. apply or_err_ok in E.
  apply result_bind_ok in K as (r & Er%or_err_ok & K).
  destruct (Z.leb_spec (metadata_expiry r) now); [done|]. destruct (Z.ltb_spec (metadata_version r) lowest); [done|].
  injection K as <-. split; [|lia]. by exists sigs, signed, key, sig, canon, value.
Qed.

(** ** The versions that are offered *)

Definition offers (params : VersionParameters) (r : Release) : bool :=
  f32_ge (r_rollout r) (vp_rollout params) && negb (is_dev (r_version r)) &&
  bool_decide (is_Some (release_version params r)).
(** A version that the metadata offers to a client. *)
Definition offered (params : VersionParameters) (resp : Response) (v : Version) : Prop :=
  ∃ r, r ∈ releases resp ∧ offers params r = true ∧ r_version r = v.

Lemma release_version_version params r d : release_version params r = Some (Ok d) → version d = r_version r.
Proof.
  unfold release_version. destruct (_ && _); [by intros [= <-]|].
  destruct (List.find _ _) as [i|]; cbn; [|done]. intros [= E].
  apply result_bind_ok in E as (hash & _ & E). destruct (decide _); [by injection E as <-|done].
Qed.

Lemma try_collect_ok {A} (l : list (result UpdateError A)) k : try_collect l = Ok k ↔ l = Ok <$> k.
Proof.
  revert k. induction l as [|x l IH]; intros k; cbn.
  - split; [by intros [= <-]|]. by destruct k.
  - rewrite result_bind_ok. setoid_rewrite result_bind_ok. split.
    + intros (a & -> & rest & E%IH & [= <-]). cbn. by rewrite E.
    + destruct k as [|a k]; [done|]. cbn. intros [= -> ->]. exists a. split; [done|]. exists k. by rewrite IH.
Qed.

Lemma elem_of_filter_bool {A} (f : A → bool) l x : x ∈ List.filter f l ↔ f x = true ∧ x ∈ l.
Proof. rewrite !list_elem_of_In, filter_In. naive_solver. Qed.

Lemma available_spec params resp l :
  available_versions params resp = Ok l →
  (∀ v, (∃ d, d ∈ l ∧ version d = v) ↔ offered params resp v).
Proof.
  unfold available_versions. rewrite try_collect_ok. intros E v. split.
  - intros (d & Hd & <-). assert (Ok d ∈ omap (release_version params) (List.filter (λ r, negb (is_dev (r_version r)))
      (List.filter (λ r, f32_ge (r_rollout r) (vp_rollout params)) (releases resp)))) as Ho.
    { rewrite E. by apply list_elem_of_fmap_2. }
    apply list_elem_of_omap in Ho as (r & Hr & Er). rewrite !elem_of_filter_bool in Hr. destruct Hr as (Hdev & Hroll & Hr).
    exists r. split_and!; [done| |by symmetry; apply (release_version_version params)].
    unfold offers. rewrite Hroll, Hdev. cbn. apply bool_decide_eq_true. by eexists.
  - intros (r & Hr & Ho & <-). unfold offers in Ho. apply andb_true_iff in Ho as [[Hroll Hdev]%andb_true_iff Hs%bool_decide_eq_true].
    destruct Hs as [res Hs]. assert (res ∈ Ok (E:=UpdateError) <$> l) as Hres.
    { rewrite <- E. apply list_elem_of_omap. exists r. split; [|done]. by rewrite !elem_of_filter_bool. }
    apply list_elem_of_fmap in Hres as (d & -> & Hd). exists d. split; [done|]. by eapply release_version_version.
Qed.

Lemma offered_not_dev params resp v : offered params resp v → is_dev v = false.
Proof. intros (r & _ & Ho & <-). unfold offers in Ho. apply andb_true_iff in Ho as [[_ Hd]%andb_true_iff _]. by apply negb_true_iff. Qed.

Definition not_newer (v m : VersionDetails) : Prop := version_gt (version v) (version m) = false.

Lemma not_newer_older v m :
  is_dev (version v) = false →
  not_newer v m ↔ release (version v) = release (version m) ∨ older (release (version v)) (release (version m)).
Proof.
  intros Hd. unfold not_newer. rewrite <- not_true_iff_false, version_gt_spec, Hd.
  destruct (release (version v)) as [[] []], (release (version m)) as [[] []]; cbn. split.
  - intros Hn. assert (∀ P Q : Prop, ¬ (P ∨ Q) → ¬ P) as K by tauto. apply K in Hn.
    destruct (decide ((z, z0, (z1, z2)) = (z3, z4, (z5, z6)))); [by left|right]. 
    assert (¬ (z = z3 ∧ z0 = z4 ∧ z1 = z5 ∧ z2 = z6)) by (intros (-> & -> & -> & ->); done). lia.
  - intros [[= -> -> -> ->] | Ho]; [intros [?|(_ & ? & _)]; [lia|done]|]. intros [?|(_ & ? & _)]; [lia|done].
Qed.

Lemma newest_spec l :
  Forall (λ d, is_dev (version d) = false) l →
  match newest l with
  | Some m => m ∈ l ∧ ∀ v, v ∈ l → not_newer v m
  | None => l = []
  end.
Proof.
  destruct l as [|x l]; [done|]. cbn [newest]. revert x. induction l as [|y l IH]; intros x Hd.
  - cbn. split; [left|]. intros v ->%list_elem_of_singleton. apply Forall_cons in Hd as [Hx _]. by apply not_newer_older; [|left].
  - apply Forall_cons in Hd as [Hx [Hy Hl]%Forall_cons]. cbn [foldl].
    set (z := match partial_cmp (version x) (version y) with Some Gt => x | _ => y end).
    assert ((z = x ∨ z = y) ∧ not_newer x z ∧ not_newer y z) as (Hz & Nx & Ny).
    { assert (∀ a, is_dev (version a) = false → not_newer a a) as Hrefl by (intros a Ha; by apply not_newer_older; [|left]).
      subst z. destruct (version_gt (version x) (version y)) eqn:E.
      - pose proof E as E'. unfold version_gt in E. destruct (partial_cmp _ _) as [[]|] eqn:Ec; try done.
        split_and!; [by left|by apply Hrefl|]. apply version_gt_spec in E' as [Ho | (_ & ? & _)]; [|congruence].
        apply not_newer_older; [done|by right].
      - assert (match partial_cmp (version x) (version y) with Some Gt => x | _ => y end = y) as ->.
        { unfold version_gt in E. by destruct (partial_cmp _ _) as [[]|]. }
        split_and!; [by right|done|by apply Hrefl]. }
    assert (is_dev (version z) = false) as Hdz by (destruct Hz as [-> | ->]; done).
    destruct (IH z) as [Hin Hmax]; [by constructor|]. split.
    + apply elem_of_cons in Hin as [-> | Hin]; [|by right; right]. destruct Hz as [-> | ->]; [left|right; left].
    + assert (∀ a, is_dev (version a) = false → not_newer a z → not_newer a
        (foldl (λ a b, match partial_cmp (version a) (version b) with Some Gt => a | _ => b end) z l)) as Htrans.
      { intros a Ha Haz. specialize (Hmax z ltac:(left)). apply not_newer_older in Hmax, Haz; try done.
        apply not_newer_older; [done|]. destruct Haz as [-> |], Hmax as [<- |]; auto. right. by eapply older_trans. }
      intros v Hv. apply elem_of_cons in Hv as [-> | Hv]; [by apply Htrans|].
      apply elem_of_cons in Hv as [-> | Hv]; [by apply Htrans|]. apply Hmax. by right.
Qed.

Lemma newest_filter params resp l (f : VersionDetails → bool) :
  available_versions params resp = Ok l →
  match newest (List.filter f l) with
  | Some m => f m = true ∧ offered params resp (version m) ∧ ∀ d, d ∈ l → f d = true → not_newer d m
  | None => ∀ d, d ∈ l → f d = false
  end.
Proof.
  intros E. pose proof (available_spec params resp l E) as Hav.
  assert (∀ d, d ∈ l → is_dev (version d) = false) as Hdev.
  { intros d Hd. eapply offered_not_dev, Hav. by exists d. }
  pose proof (newest_spec (List.filter f l)) as K. destruct (newest (List.filter f l)) as [m|].
  - destruct K as [[Hf Hm]%elem_of_filter_bool Hmax].
    + apply Forall_forall. intros d [_ Hd]%elem_of_filter_bool. by apply Hdev.
    + split_and!; [done|apply Hav; by exists m|]. intros d Hd Hfd. apply Hmax. by apply elem_of_filter_bool.
  - intros d Hd. destruct (f d) eqn:Ef; [|done]. assert (d ∈ List.filter f l) as Hin by (by apply elem_of_filter_bool).
    rewrite K in Hin; [by apply not_elem_of_nil in Hin|]. apply Forall_forall. intros d' [_ Hd']%elem_of_filter_bool. by apply Hdev.
Qed.

Lemma available_err params resp e :
  available_versions params resp = Err e →
  ∃ r, r ∈ releases resp ∧ offers params r = true ∧ release_version params r = Some (Err e).
Proof.
  unfold available_versions. intros E.
  assert (∀ l : list (result UpdateError VersionDetails), try_collect l = Err e → Err e ∈ l) as K.
  { induction l as [|[d|e'] l IH]; cbn; [done| |by intros [= ->]; left].
    destruct (try_collect l); cbn; [done|]. intros [= ->]. right. by apply IH. }
  apply K, list_elem_of_omap in E as (r & Hr & Er). rewrite !elem_of_filter_bool in Hr. destruct Hr as (Hdev & Hroll & Hr).
  exists r. split_and!; [done| |done]. unfold offers. rewrite Hroll, Hdev. cbn. apply bool_decide_eq_true. by eexists.
Qed.

Definition beta_version (v : Version) : bool := match pre_stable v with Some (Beta _) => true | _ => false end.

(** The versions shown to a client are the newest that the metadata offers
    to it.  A release is offered when it is rolled out to the client, is no
    development build and has an installer for the client's architecture (or none
    at all, where that is allowed).  The stable version is the newest stable one;
    the beta version is the newest beta that is newer than it, if there is one.
    Versions are found unless releases are listed twice, a checksum of an offered
    installer is malformed, or no stable release is offered. *)
Theorem offered_versions (params : VersionParameters) (resp : Response) :
  match try_from_response params resp with
  | Ok info =>
      (offered params resp (version (stable info)) ∧ pre_stable (version (stable info)) = None ∧
       ∀ v, offered params resp v → pre_stable v = None → version_gt v (version (stable info)) = false) ∧
      match beta info with
      | Some b => offered params resp (version b) ∧ is_beta b = true ∧ version_gt (version b) (version (stable info)) = true ∧
          ∀ v, offered params resp v → beta_version v = true → version_gt v (version b) = false
      | None => ∀ v, offered params resp v → beta_version v = true → version_gt v (version (stable info)) = false
      end
  | Err _ =>
      ¬ NoDup (r_version <$> releases resp) ∨
      (∃ r e, r ∈ releases resp ∧ offers params r = true ∧ release_version params r = Some (Err e)) ∨
      ∀ v, offered params resp v → pre_stable v ≠ None
  end.
Proof.
  unfold try_from_response. destruct (bool_decide (NoDup _)) eqn:Ed; cbn [negb]; [|left; by apply bool_decide_eq_false in Ed].
  destruct (available_versions params resp) as [l|e] eqn:E; cbn [mbind result_bind]; [|right; left; apply available_err in E as (r & ? & ? & ?); by exists r, e].
  pose proof (available_spec params resp l E) as Hav.
  pose proof (newest_filter params resp l is_stable E) as Hs. destruct (newest (List.filter is_stable l)) as [s|]; cbn [or_err mbind result_bind].
  2: { right; right. intros v Hv Hp. apply Hav in Hv as (d & Hd & <-). specialize (Hs d Hd). unfold is_stable in Hs.
       by apply bool_decide_eq_false in Hs. }
  destruct Hs as (Hst & Hso & Hsmax). unfold is_stable in Hst. apply bool_decide_eq_true in Hst. cbn [stable beta].
  split; [split_and!; [done|done|]|].
  { intros v Hv Hp. apply Hav in Hv as (d & Hd & <-). apply Hsmax; [done|]. by apply bool_decide_eq_true. }
  pose proof (newest_filter params resp l (λ r, is_beta r && version_gt (version r) (version s)) E) as Hb.
  assert (List.filter (λ r, version_gt (version r) (version s)) (List.filter is_beta l) =
    List.filter (λ r, is_beta r && version_gt (version r) (version s)) l) as ->.
  { clear. induction l as [|d l IH]; cbn; [done|]. destruct (is_beta d); cbn; [|done]. by destruct (version_gt _ _); cbn; rewrite IH. }
  destruct (newest _) as [b|].
  - destruct Hb as ([Hbb Hbg]%andb_true_iff & Hbo & Hbmax). split_and!; [done..|].
    intros v Hv Hvb. apply Hav in Hv as (d & Hd & <-). destruct (version_gt (version d) (version s)) eqn:Eg.
    + apply Hbmax; [done|]. apply andb_true_iff. done.
    + apply not_true_iff_false. intros Hgt. apply version_gt_spec in Hgt as [Hgt | (_ & Hdev & _)].
      * assert (version_gt (version d) (version s) = true) as K; [|congruence]. apply version_gt_spec. left.
        apply version_gt_spec in Hbg as [Hbg | (_ & Hdev & _)]; [by eapply older_trans|].
        by rewrite (offered_not_dev params resp (version b)) in Hdev.
      * rewrite (offered_not_dev params resp (version d)) in Hdev; [done|]. apply Hav. by exists d.
  - intros v Hv Hvb. apply Hav in Hv as (d & Hd & <-). specialize (Hb d Hd). unfold beta_version in Hvb.
    unfold is_beta in Hb. by rewrite Hvb in Hb.
Qed.
End Theorems.
