(* ===== verification/VersionCheck.v ===== *)
(** * Checking for new versions

    mullvad-daemon/src/version/check.rs with [version_check_2] of
    mullvad-api/src/version.rs, on desktop systems: the version cache, a check
    against the API with its retries, and the loop that runs foreground and
    background checks.  The app's own version, the trusted keys, the architecture
    and the rollout threshold are variables; HTTP replies, clocks and the answers
    of the availability monitor are inputs. *)

From S2P Require Import Prelude Versions UpdateInfo.
From Stdlib Require Import Sorting.Sorted.

Record VersionCache : Set := {
  cache_version : Version;
  current_version_supported : bool;
  version_info : VersionInfo;
  last_platform_header_check : Z;
  vc_metadata_version : Z;
  etag : option string
}.

(** [PLATFORM_HEADER_INTERVAL], in nanoseconds, and the number of delays of
    [IMMEDIATE_RETRY_STRATEGY]. *)
Definition PLATFORM_HEADER_INTERVAL : Z := 60 * 60 * 24 * 1000000000.
Definition IMMEDIATE_RETRIES : nat := 3.
Definition MIN_VERIFY_METADATA_VERSION : Z := 0.

(** [SystemTime::elapsed] fails for a time in the future. *)
Definition should_include_platform_headers (time : option Z) (now : Z) : bool :=
  match time with
  | Some t => if t <=? now then PLATFORM_HEADER_INTERVAL <=? now - t else true
  | None => true
  end.

Inductive CheckError : Set :=
| DownloadNetwork
| DownloadOther
| FetchVersions (e : UpdateError)
| ApiCheck
| CheckPanic.

(** A reply of the API: no reply at all, or a status (304 or 200), an ETag and a
    body. *)
Inductive ApiReply : Set :=
| Failed (network_error : bool)
| Reply (not_modified : bool) (reply_etag : option string) (body : list Z).

Record AppVersionResponse2 : Set := {
  rs_version_info : VersionInfo;
  rs_metadata_version : Z;
  rs_current_version_supported : bool;
  rs_etag : option string
}.

Section Check.
Context `{MetadataCrates} (APP_VERSION : Version) (keys : list (list Z)) (architecture : Architecture)
  (rollout : Rollout) (is_linux : bool).

(** ** mullvad-api/src/version.rs *)

Definition version_check_2 (lowest : Z) (etag : option string) (reply : ApiReply) (now : Z) :
    result CheckError (option AppVersionResponse2) :=
  match reply with
  | Failed network_error => Err (if network_error then DownloadNetwork else DownloadOther)
  | Reply not_modified reply_etag body =>
      if bool_decide (is_Some etag) && not_modified then Ok None
      else
        response ← map_err FetchVersions (deserialize_and_verify_at_time keys body now lowest);
        let params := {| vp_architecture := architecture; vp_rollout := rollout; allow_empty := is_linux;
                         lowest_metadata_version := lowest |} in
        info ← map_err FetchVersions (try_from_response params response);
        Ok (Some {| rs_version_info := info; rs_metadata_version := metadata_version response;
                    rs_current_version_supported := is_version_supported APP_VERSION response;
                    rs_etag := reply_etag |})
  end.

(** ** check.rs *)

Definition cache_of_response (response : AppVersionResponse2) (last_platform_header_check : Z) : VersionCache := {|
  cache_version := APP_VERSION; current_version_supported := rs_current_version_supported response;
  version_info := rs_version_info response; last_platform_header_check := last_platform_header_check;
  vc_metadata_version := rs_metadata_version response; etag := rs_etag response |}.
Definition set_platform_check (t : Z) (c : VersionCache) : VersionCache := {|
  cache_version := cache_version c; current_version_supported := current_version_supported c;
  version_info := version_info c; last_platform_header_check := t;
  vc_metadata_version := vc_metadata_version c; etag := etag c |}.

Definition version_check_inner (cache : option VersionCache) (reply : ApiReply) (now : Z) :
    result CheckError VersionCache :=
  match cache with
  | Some prev_cache =>
      let add_platform_headers := should_include_platform_headers (Some (last_platform_header_check prev_cache)) now in
      let last_check := if add_platform_headers then now else last_platform_header_check prev_cache in
      r ← version_check_2 (vc_metadata_version prev_cache) (etag prev_cache) reply now;
      match r with
      | None => Ok (set_platform_check last_check prev_cache)
      | Some response => Ok (cache_of_response response last_check)
      end
  | None =>
      r ← version_check_2 MIN_VERIFY_METADATA_VERSION None reply now;
      match r with
      | None => Err CheckPanic
      | Some response => Ok (cache_of_response response now)
      end
  end.

(** [retry_future] with the immediate strategy; [at_ n] is the reply to the
    [n]-th attempt, its time, and whether the host is offline afterwards. *)
Fixpoint retry (delays : nat) (cache : option VersionCache) (at_ : nat → ApiReply * Z * bool) (n : nat) :
    result CheckError VersionCache :=
  let '(reply, now, offline) := at_ n in
  let current_result := version_check_inner cache reply now in
  match delays, current_result with
  | S delays, Err DownloadNetwork => if offline then current_result else retry delays cache at_ (S n)
  | _, _ => current_result
  end.
Definition do_version_check (cache : option VersionCache) (at_ : nat → ApiReply * Z * bool) :
    result CheckError VersionCache := retry IMMEDIATE_RETRIES cache at_ 0.
Definition do_version_check_in_background (cache : option VersionCache) (background_available : bool)
    (reply : ApiReply) (now : Z) : result CheckError VersionCache :=
  if background_available then version_check_inner cache reply now else Err ApiCheck.

Definition cache_is_stale (cache : VersionCache) : bool := negb (bool_decide (cache_version cache = APP_VERSION)).
(** The cache file as it was read, if it could be read. *)
Definition load_cache (file : option VersionCache) : option VersionCache :=
  cache ← file; if cache_is_stale cache then None else Some cache.

Definition ignore_cache_if_same_version (last : option VersionCache) (new_version_info : VersionCache) : VersionCache :=
  match last with
  | Some current_cache =>
      if vc_metadata_version current_cache =? vc_metadata_version new_version_info then
        {| cache_version := cache_version current_cache;
           current_version_supported := current_version_supported current_cache;
           version_info := version_info current_cache;
           last_platform_header_check := last_platform_header_check new_version_info;
           vc_metadata_version := vc_metadata_version current_cache; etag := etag new_version_info |}
      else new_version_info
  | None => new_version_info
  end.

(** ** The loop *)

(** A check that runs holds the cache with which it was started. *)
Record VersionUpdaterInner : Set := {
  last_app_version_info : option VersionCache;
  version_check_fg : option (option VersionCache);
  version_check_bg : option (option VersionCache);
  run_next_check_bg : bool
}.

Inductive UpdaterEvent : Type :=
| EvRefresh
| EvTimer
| EvForeground (at_ : nat → ApiReply * Z * bool)
| EvBackground (background_available : bool) (reply : ApiReply) (now : Z).

(** What is sent to the version router (and written to the cache file). *)
Definition update_version_info (new_version_info : VersionCache) (u : VersionUpdaterInner) :
    option VersionCache * VersionUpdaterInner :=
  let new_version_info := ignore_cache_if_same_version (last_app_version_info u) new_version_info in
  (Some new_version_info,
   {| last_app_version_info := Some new_version_info; version_check_fg := version_check_fg u;
      version_check_bg := version_check_bg u; run_next_check_bg := run_next_check_bg u |}).
Definition handle_version_response (response : result CheckError VersionCache) (u : VersionUpdaterInner) :
    option VersionCache * VersionUpdaterInner :=
  match response with
  | Ok version_info => update_version_info version_info u
  | Err _ =>
      match last_app_version_info u with
      | Some version_info => update_version_info version_info u
      | None => (None, u)
      end
  end.

Definition set_checks (fg bg : option (option VersionCache)) (timer : bool) (u : VersionUpdaterInner) : VersionUpdaterInner := {|
  last_app_version_info := last_app_version_info u; version_check_fg := fg; version_check_bg := bg;
  run_next_check_bg := timer |}.

(** One turn of the select loop; events of branches that are not armed do not
    happen. *)
Definition updater_step (e : UpdaterEvent) (u : VersionUpdaterInner) : option VersionCache * VersionUpdaterInner :=
  match e with
  | EvRefresh =>
      match version_check_fg u with
      | Some _ => (None, u)
      | None => (None, set_checks (Some (last_app_version_info u)) (version_check_bg u) (run_next_check_bg u) u)
      end
  | EvTimer =>
      if run_next_check_bg u then
        (None, set_checks (version_check_fg u) (Some (last_app_version_info u)) false u)
      else (None, u)
  | EvBackground available reply now =>
      match version_check_bg u with
      | None => (None, u)
      | Some cache =>
          let u := set_checks (version_check_fg u) None (run_next_check_bg u) u in
          let '(out, u) := handle_version_response (do_version_check_in_background cache available reply now) u in
          (out, set_checks (version_check_fg u) (version_check_bg u) true u)
      end
  | EvForeground at_ =>
      match version_check_fg u with
      | None => (None, u)
      | Some cache =>
          let u := set_checks None (version_check_bg u) (run_next_check_bg u) u in
          handle_version_response (do_version_check cache at_) u
      end
  end.

Definition updater_start (file : option VersionCache) : VersionUpdaterInner := {|
  last_app_version_info := load_cache file; version_check_fg := None; version_check_bg := None;
  run_next_check_bg := true |}.
Fixpoint updater_run (es : list UpdaterEvent) (u : VersionUpdaterInner) : list VersionCache * VersionUpdaterInner :=
  match es with
  | [] => ([], u)
  | e :: es =>
      let '(out, u) := updater_step e u in
      let '(outs, u) := updater_run es u in
      (option_list out ++ outs, u)
  end.

(** ** Where the version information comes from *)

(** The information of a cache is that of a signed and unexpired response, or of
    the cache file of this version of the app. *)
Definition from_response (c : VersionCache) : Prop :=
  ∃ body now lowest resp, authentic keys body resp ∧ now < metadata_expiry resp ∧
    vc_metadata_version c = metadata_version resp ∧
    current_version_supported c = is_version_supported APP_VERSION resp ∧
    try_from_response {| vp_architecture := architecture; vp_rollout := rollout; allow_empty := is_linux;
                         lowest_metadata_version := lowest |} resp = Ok (version_info c).
Definition same_info (a b : VersionCache) : Prop :=
  cache_version a = cache_version b ∧ current_version_supported a = current_version_supported b ∧
  version_info a = version_info b ∧ vc_metadata_version a = vc_metadata_version b.
Definition trusted (file : option VersionCache) (c : VersionCache) : Prop :=
  cache_version c = APP_VERSION ∧
  (from_response c ∨ ∃ c0, file = Some c0 ∧ same_info c c0).

Lemma same_info_trusted file a b : same_info a b → trusted file b → trusted file a.
Proof.
  intros (E1 & E2 & E3 & E4) [Hv Hb]. split; [congruence|]. destruct Hb as [Hb | (c0 & Ef & E)].
  - left. unfold from_response in *. by rewrite E2, E3, E4.
  - right. exists c0. split; [done|]. destruct E as (? & ? & ? & ?). unfold same_info. by rewrite E1, E2, E3, E4.
Qed.

Lemma version_check_2_ok lowest tag reply now r :
  version_check_2 lowest tag reply now = Ok (Some r) →
  lowest ≤ rs_metadata_version r ∧ ∀ t, from_response (cache_of_response r t).
Proof.
  destruct reply as [|nm re body]; cbn; [done|]. destruct (_ && nm); [done|].
  destruct (deserialize_and_verify_at_time keys body now lowest) as [resp|] eqn:E; cbn; [|done].
  destruct (try_from_response _ resp) as [info|] eqn:Ei; cbn; [|done]. intros [= <-]. cbn.
  apply deserialize_and_verify_inv in E as (Ha & Hx & Hm). split; [done|]. intros t. by exists body, now, lowest, resp.
Qed.

Definition meta (c : option VersionCache) : Z := from_option vc_metadata_version MIN_VERIFY_METADATA_VERSION c.

Lemma version_check_inner_ok file cache reply now c :
  (∀ c0, cache = Some c0 → trusted file c0) →
  version_check_inner cache reply now = Ok c → trusted file c ∧ meta cache ≤ vc_metadata_version c.
Proof.
  intros Hc. destruct cache as [prev|]; cbn; intros (r & Er & E)%result_bind_ok; destruct r as [r|]; try done; injection E as <-.
  - apply version_check_2_ok in Er as [Hm Hr]. split; [|done]. split; [done|]. left. apply Hr.
  - split; [|done]. eapply same_info_trusted; [|by apply Hc]. done.
  - apply version_check_2_ok in Er as [Hm Hr]. split; [|done]. split; [done|]. left. apply Hr.
Qed.

Lemma retry_ok file delays cache at_ n c :
  (∀ c0, cache = Some c0 → trusted file c0) →
  retry delays cache at_ n = Ok c → trusted file c ∧ meta cache ≤ vc_metadata_version c.
Proof.
  intros Hc. revert n. induction delays as [|delays IH]; intros n; cbn; destruct (at_ n) as [[reply now] offline].
  - by apply version_check_inner_ok.
  - destruct (version_check_inner cache reply now) as [c'|[]] eqn:E; try done;
      [intros [= ->]; by eapply version_check_inner_ok|]. destruct offline; [done|apply IH].
Qed.

(** Never a panic: a check without an ETag always has a body. *)
Lemma version_check_inner_no_panic cache reply now : version_check_inner cache reply now ≠ Err CheckPanic.
Proof.
  assert (∀ lowest tag, version_check_2 lowest tag reply now ≠ Err CheckPanic ∧
    (tag = None → version_check_2 lowest tag reply now ≠ Ok None)) as K.
  { intros lowest tag. destruct reply as [[]|nm re body]; cbn; [done..|].
    destruct tag as [tag|]; cbn; [destruct nm; [done|]|];
      destruct (deserialize_and_verify_at_time keys body now lowest); cbn; try done;
      destruct (try_from_response _ _); done. }
  destruct cache as [prev|]; cbn.
  - destruct (K (vc_metadata_version prev) (etag prev)) as [K1 _].
    destruct (version_check_2 _ _ reply now) as [[]|e]; cbn; congruence.
  - destruct (K MIN_VERIFY_METADATA_VERSION None) as [K1 K2]. specialize (K2 eq_refl).
    destruct (version_check_2 _ _ reply now) as [[]|e]; cbn; congruence.
Qed.

(** ** The loop keeps what it knows *)

Record updater_inv (file : option VersionCache) (u : VersionUpdaterInner) : Prop := {
  inv_last : ∀ c, last_app_version_info u = Some c → trusted file c;
  inv_fg : ∀ s c, version_check_fg u = Some s → s = Some c → trusted file c;
  inv_bg : ∀ s c, version_check_bg u = Some s → s = Some c → trusted file c
}.

(** No check was started from an outdated cache. *)
Definition up_to_date (u : VersionUpdaterInner) : Prop :=
  (∀ s, version_check_fg u = Some s → s = last_app_version_info u) ∧
  (∀ s, version_check_bg u = Some s → s = last_app_version_info u).
Definition one_check (u : VersionUpdaterInner) : bool :=
  match version_check_fg u, version_check_bg u with Some _, Some _ => false | _, _ => true end.

Lemma handle_response_spec file response u out u' :
  (∀ c, last_app_version_info u = Some c → trusted file c) →
  (∀ c, response = Ok c → trusted file c) →
  handle_version_response response u = (out, u') →
  version_check_fg u' = version_check_fg u ∧ version_check_bg u' = version_check_bg u ∧
  run_next_check_bg u' = run_next_check_bg u ∧
  (∀ c, last_app_version_info u' = Some c → trusted file c) ∧
  match out with
  | Some c => last_app_version_info u' = Some c ∧
      ((∃ r, response = Ok r ∧ vc_metadata_version c = vc_metadata_version r) ∨ vc_metadata_version c = meta (last_app_version_info u))
  | None => u' = u
  end.
Proof.
  intros Hl Hr. assert (∀ new, trusted file new →
    trusted file (ignore_cache_if_same_version (last_app_version_info u) new) ∧
    vc_metadata_version (ignore_cache_if_same_version (last_app_version_info u) new) = vc_metadata_version new) as Hig.
  { intros new Hn. unfold ignore_cache_if_same_version. destruct (last_app_version_info u) as [cur|]; [|done].
    destruct (Z.eqb_spec (vc_metadata_version cur) (vc_metadata_version new)); [|done]. split; [|done].
    eapply same_info_trusted; [|by apply Hl]. done. }
  unfold handle_version_response, update_version_info. destruct response as [r|e].
  - intros [= <- <-]. cbn. destruct (Hig r) as [H1 H2]; [by apply Hr|].
    split_and!; try done; [by intros c [= <-]|]. left. by exists r.
  - destruct (last_app_version_info u) as [cur|] eqn:El.
    + intros [= <- <-]. cbn. destruct (Hig cur) as [H1 H2]; [by apply Hl|]. cbn in H1, H2.
      split_and!; try done; [by intros c [= <-]|]. right. by rewrite H2.
    + intros [= <- <-]. rewrite El. done.
Qed.

Lemma updater_step_spec file e u out u' :
  updater_inv file u → updater_step e u = (out, u') →
  updater_inv file u' ∧ (∀ c, out = Some c → trusted file c ∧ last_app_version_info u' = Some c) ∧
  (out = None → last_app_version_info u' = last_app_version_info u) ∧
  (up_to_date u → one_check u = true → up_to_date u' ∧ ∀ c, out = Some c → meta (last_app_version_info u) ≤ vc_metadata_version c).
Proof.
  intros [Hl Hf Hb]. destruct e as [| |at_|available reply now]; cbn [updater_step].
  - destruct (version_check_fg u) as [s|] eqn:Ef; intros [= <- <-]; (split_and!; [split; cbn; try done; try congruence; naive_solver|done|done|]).
    + done.
    + intros [_ U2] _. split; [|done]. split; cbn; [by intros s [= <-]|done].
  - destruct (run_next_check_bg u); intros [= <- <-]; (split_and!; [split; cbn; try done; naive_solver|done|done|]); [|done].
    intros [U1 U2] _. split; [|done]. split; cbn; [done|by intros s [= <-]].
  - destruct (version_check_fg u) as [s|] eqn:Ef; [|intros [= <- <-]; split_and!; try done; by split; rewrite ?Ef].
    intros E. eapply (handle_response_spec file) in E as (E1 & E2 & E3 & E4 & E5); [|done|].
    2: { intros c Hc. eapply retry_ok; [|exact Hc]. naive_solver. }
    cbn in E1, E2. split_and!.
    + split; [done|by rewrite E1|by rewrite E2].
    + intros c ->. destruct E5 as [E5 _]. split; [by apply E4|done].
    + intros ->. by rewrite E5.
    + intros [U1 U2] Hone. unfold one_check in Hone. rewrite Ef in Hone. destruct (version_check_bg u) eqn:Eb; [done|].
      split; [by split; [rewrite E1|rewrite E2]|]. intros c ->. destruct E5 as [_ [(r & Hr & ->) | ->]]; [|done].
      eapply retry_ok in Hr as [_ Hr]; [|naive_solver]. by rewrite (U1 s Ef) in Hr.
  - destruct (version_check_bg u) as [s|] eqn:Eb; [|intros [= <- <-]; split_and!; try done; by split; rewrite ?Eb].
    destruct (handle_version_response _ _) as [out0 u0] eqn:E. intros [= <- <-].
    eapply (handle_response_spec file) in E as (E1 & E2 & E3 & E4 & E5); [|done|].
    2: { intros c Hc. unfold do_version_check_in_background in Hc. destruct available; [|done].
         eapply version_check_inner_ok; [|exact Hc]. naive_solver. }
    cbn in E1, E2. split_and!.
    + split; cbn; [done|by rewrite E1|by rewrite E2].
    + cbn. intros c ->. destruct E5 as [E5 _]. split; [by apply E4|done].
    + cbn. intros ->. by rewrite E5.
    + intros [U1 U2] Hone. unfold one_check in Hone. rewrite Eb in Hone. destruct (version_check_fg u) eqn:Ef; [done|].
      split; [by split; cbn; [rewrite E1|rewrite E2]|]. intros c ->. destruct E5 as [_ [(r & Hr & ->) | ->]]; [|done].
      unfold do_version_check_in_background in Hr. destruct available; [|done].
      eapply version_check_inner_ok in Hr as [_ Hr]; [|naive_solver]. by rewrite (U2 s Eb) in Hr.
Qed.

(** The foreground and the background check never run at the same time. *)
Fixpoint checks_in_turn (es : list UpdaterEvent) (u : VersionUpdaterInner) : bool :=
  one_check u && match es with [] => true | e :: es => checks_in_turn es (updater_step e u).2 end.

Lemma updater_run_spec file es u outs u' :
  updater_inv file u → updater_run es u = (outs, u') →
  Forall (trusted file) outs ∧
  (up_to_date u → checks_in_turn es u = true →
   Sorted Z.le (option_list (vc_metadata_version <$> last_app_version_info u) ++ (vc_metadata_version <$> outs))).
Proof.
  revert u outs. induction es as [|e es IH]; intros u outs Hi E; cbn in E.
  - simplify_eq. split; [done|]. intros _ _. cbn. rewrite app_nil_r. destruct (last_app_version_info _); repeat constructor.
  - cbn [checks_in_turn]. destruct (updater_step e u) as [out u1] eqn:Es. destruct (updater_run es u1) as [outs1 u2] eqn:Er.
    simplify_eq. apply (updater_step_spec file) in Es as (Hi1 & Ho & Hn & Hm); [|done].
    destruct (IH _ _ Hi1 Er) as [Ht Hs]. destruct out as [c|]; cbn [option_list app] in *.
    + destruct (Ho c eq_refl) as [Hc El]. rewrite El in Hs. split; [by constructor|].
      intros Hu [H1 H2]%andb_true_iff. destruct (Hm Hu H1) as [Hu1 Hle]. specialize (Hs Hu1 H2). specialize (Hle c eq_refl).
      cbn in *. destruct (last_app_version_info u) as [c0|]; cbn in *; [|done]. constructor; [done|]. by constructor.
    + split; [done|]. intros Hu [H1 H2]%andb_true_iff. destruct (Hm Hu H1) as [Hu1 _].
      rewrite <- (Hn eq_refl). by apply Hs.
Qed.

(** All version information that reaches the rest of the daemon stems from
    metadata that carries a valid signature of a trusted key over its canonical
    form and had not expired, or from the cache file if that was written by this
    very version of the app.  As long as a foreground and a background check do
    not overlap, the counter of the metadata never decreases: old metadata cannot
    be replayed. *)
Theorem version_checks_sound (file : option VersionCache) (es : list UpdaterEvent) :
  Forall (trusted file) (updater_run es (updater_start file)).1 ∧
  (checks_in_turn es (updater_start file) = true →
   Sorted Z.le (vc_metadata_version <$> (updater_run es (updater_start file)).1)).
Proof.
  destruct (updater_run es (updater_start file)) as [outs u'] eqn:E. cbn.
  apply (updater_run_spec file) in E as [Ht Hs].
  - split; [done|]. intros Hc. assert (up_to_date (updater_start file)) as Hu by (by split).
    specialize (Hs Hu Hc). by destruct (last_app_version_info _); cbn in Hs; [apply Sorted_inv in Hs as [Hs _]|].
  - split; cbn; [|done|done]. intros c Hc. unfold load_cache in Hc. apply bind_Some in Hc as (c0 & -> & Hc).
    unfold cache_is_stale in Hc. destruct (bool_decide (cache_version c0 = APP_VERSION)) eqn:Ev; cbn in Hc; [|done].
    simplify_eq. apply bool_decide_eq_true in Ev. split; [done|]. right. by exists c.
Qed.
End Check.
