(* ===== verification/VersionRouter.v ===== *)
(** * The version router (mullvad-daemon/src/version/router.rs)

    The router passes version information on to the daemon, answers requests
    for it, and runs the download of an upgrade (downloader.rs).  It is modelled
    as built with in-app upgrades (Windows and macOS).  A step handles one event
    of the select loop and returns the new router with what was sent, in order.
    The app's own version and the extension of installer files are variables;
    reply channels and download tasks are numbered. *)

From S2P Require Import Prelude Versions UpdateInfo VersionCheck.

(** ** mullvad-types/src/version.rs *)

(** A directory and a file name in it. *)
Definition path : Set := string * str.

Record SuggestedUpgrade : Set := {
  su_version : Version;
  su_changelog : string;
  verified_installer_path : option path
}.
Record AppVersionInfo : Set := {
  info_current_version_supported : bool;
  suggested_upgrade : option SuggestedUpgrade
}.
Inductive AppUpgradeError : Set := GeneralError | DownloadFailed | VerificationFailed.
Inductive AppUpgradeEvent : Set :=
| DownloadStarting
| Aborted
| VerifyingInstaller
| VerifiedInstaller
| UpgradeError (e : AppUpgradeError).

#[global] Instance SuggestedUpgrade_eq_dec : EqDecision SuggestedUpgrade.
Proof. solve_decision. Defined.
#[global] Instance AppVersionInfo_eq_dec : EqDecision AppVersionInfo.
Proof. solve_decision. Defined.

(** ** Messages, states and effects *)

Inductive Message : Set :=
| SetBetaProgram (state : bool) (result_tx : nat)
| GetLatestVersion (result_tx : nat)
| UpdateApplication (result_tx : nat)
| CancelUpdate (result_tx : nat)
| GetCacheDir (result_tx : nat).

Inductive State : Set :=
| NoVersion
| HasVersion (version_cache : VersionCache)
| Downloading (version_cache : VersionCache) (upgrading_to_version : VersionDetails) (downloader_handle : nat)
| Downloaded (version_cache : VersionCache) (verified_installer_path : path).

(** What the router does to others: events for the daemon, answers to requests,
    broadcasts, and the start and abortion of download tasks. *)
Inductive Effect : Set :=
| ToDaemon (info : AppVersionInfo)
| Answer (tx : nat) (info : AppVersionInfo)
| AnswerClosed (tx : nat)
| Ack (tx : nat)
| AnswerCacheDir (tx : nat) (dir : string)
| RefreshCheck
| Broadcast (e : AppUpgradeEvent)
| SpawnDownloader (handle : nat) (version : VersionDetails)
| AbortTask (handle : nat).

Record VersionRouter : Set := {
  state : State;
  beta_program : bool;
  version_request_channels : list nat;
  cache_dir : string;
  next_handle : nat
}.
Definition set_state (s : State) (r : VersionRouter) : VersionRouter := {|
  state := s; beta_program := beta_program r; version_request_channels := version_request_channels r;
  cache_dir := cache_dir r; next_handle := next_handle r |}.

Definition get_version_cache (s : State) : option VersionCache :=
  match s with
  | NoVersion => None
  | HasVersion c | Downloading c _ _ | Downloaded c _ => Some c
  end.

(** [Drop for DownloaderHandle] of a download that has not ended. *)
Definition drop_state (s : State) : list Effect :=
  match s with
  | Downloading _ _ handle => [AbortTask handle; Broadcast Aborted]
  | _ => []
  end.

Section Router.
Context (APP_VERSION : Version) (bin_extension : str).

(** ** downloader.rs *)

(** [mullvad_update::app::bin_path]. *)
Definition bin_path (app_version : Version) (dir : string) : path :=
  (dir, lit "mullvad-" ++ Version_to_string app_version ++ bin_extension).

(** How a download task ends: it has no URL, cannot create the directory, fails
    to download, fails to verify, succeeds, or is cancelled or panics. *)
Inductive Task : Set :=
| TaskNoUrl
| TaskNoDir
| TaskDownloadFailed
| TaskVerificationFailed
| TaskDone (download_dir : string)
| TaskJoinError.

(** [start]: its broadcasts and its result. *)
Definition start (version : VersionDetails) (t : Task) : list AppUpgradeEvent * option path :=
  match t with
  | TaskNoUrl | TaskJoinError => ([], None)
  | TaskNoDir => ([UpgradeError GeneralError], None)
  | TaskDownloadFailed => ([DownloadStarting; UpgradeError DownloadFailed], None)
  | TaskVerificationFailed => ([DownloadStarting; VerifyingInstaller; UpgradeError VerificationFailed], None)
  | TaskDone dir => ([DownloadStarting; VerifyingInstaller; VerifiedInstaller], Some (bin_path (UpdateInfo.version version) dir))
  end.

(** ** Suggestions *)

Definition recommended_version_upgrade (info : VersionInfo) (beta_program : bool) : option VersionDetails :=
  let version_details := if beta_program then default (stable info) (beta info) else stable info in
  if version_gt (UpdateInfo.version version_details) APP_VERSION then Some version_details else None.

Definition to_app_version_info (cache : VersionCache) (beta_program : bool) (installer : option path) : AppVersionInfo := {|
  info_current_version_supported := current_version_supported cache;
  suggested_upgrade :=
    (λ v, {| su_version := UpdateInfo.version v; su_changelog := changelog v; verified_installer_path := installer |}) <$>
    recommended_version_upgrade (version_info cache) beta_program |}.

(** ** Handlers *)

Definition notify_version_requesters (info : AppVersionInfo) (r : VersionRouter) : list Effect * VersionRouter :=
  ((λ tx, Answer tx info) <$> version_request_channels r,
   {| state := state r; beta_program := beta_program r; version_request_channels := []; cache_dir := cache_dir r; next_handle := next_handle r |}).

(** The information, whether it is new, and the effects of replacing the state. *)
Definition on_new_version (version_cache : VersionCache) (r : VersionRouter) :
    (AppVersionInfo * bool) * list Effect * VersionRouter :=
  let info_of cache installer := to_app_version_info cache (beta_program r) installer in
  let reset info is_new := ((info, is_new), drop_state (state r), set_state (HasVersion version_cache) r) in
  match state r with
  | NoVersion => reset (info_of version_cache None) true
  | HasVersion prev_cache =>
      let prev_app_version := info_of prev_cache None in
      let new_app_version := info_of version_cache None in
      reset new_app_version (negb (bool_decide (new_app_version = prev_app_version)))
  | Downloading prev_cache to handle =>
      let prev_info := info_of prev_cache None in
      let info := info_of version_cache None in
      if decide (prev_info = info) then ((info, false), [], set_state (Downloading version_cache to handle) r)
      else reset info true
  | Downloaded prev_cache installer =>
      let prev_info := info_of prev_cache (Some installer) in
      let info := info_of version_cache (Some installer) in
      if decide (prev_info = info) then ((info, false), [], set_state (Downloaded version_cache installer) r)
      else reset info true
  end.

Definition set_beta_program (new_state : bool) (r : VersionRouter) : list Effect * VersionRouter :=
  if decide (new_state = beta_program r) then ([], r)
  else
    let previous_state := beta_program r in
    let r := {| state := state r; beta_program := new_state; version_request_channels := version_request_channels r;
                cache_dir := cache_dir r; next_handle := next_handle r |} in
    match get_version_cache (state r) with
    | None => ([], r)
    | Some version_cache =>
        let prev_app_version := to_app_version_info version_cache previous_state None in
        let new_app_version := to_app_version_info version_cache new_state None in
        if decide (new_app_version = prev_app_version) then ([], r)
        else
          let dropped := drop_state (state r) in
          let r := set_state (HasVersion version_cache) r in
          let '(answers, r) := notify_version_requesters new_app_version r in
          (dropped ++ ToDaemon new_app_version :: answers, r)
    end.

Definition get_latest_version (result_tx : nat) (updater_alive : bool) (r : VersionRouter) : list Effect * VersionRouter :=
  if updater_alive then
    ([RefreshCheck],
     {| state := state r; beta_program := beta_program r;
        version_request_channels := version_request_channels r ++ [result_tx]; cache_dir := cache_dir r; next_handle := next_handle r |})
  else ([AnswerClosed result_tx], r).

Definition update_application (r : VersionRouter) : list Effect * VersionRouter :=
  match state r with
  | HasVersion version_cache =>
      match recommended_version_upgrade (version_info version_cache) (beta_program r) with
      | None => ([], r)
      | Some upgrading_to_version =>
          let handle := next_handle r in
          ([SpawnDownloader handle upgrading_to_version],
           {| state := Downloading version_cache upgrading_to_version handle; beta_program := beta_program r;
              version_request_channels := version_request_channels r; cache_dir := cache_dir r; next_handle := S handle |})
      end
  | _ => ([], r)
  end.

Definition cancel_upgrade (r : VersionRouter) : list Effect * VersionRouter :=
  match state r with
  | Downloading version_cache _ _ => (drop_state (state r), set_state (HasVersion version_cache) r)
  | Downloaded version_cache _ =>
      let info := to_app_version_info version_cache (beta_program r) None in
      let r := set_state (HasVersion version_cache) r in
      let '(answers, r) := notify_version_requesters info r in
      (Broadcast Aborted :: answers ++ [ToDaemon info], r)
  | _ => ([], r)
  end.

Definition handle_message (m : Message) (updater_alive : bool) (r : VersionRouter) : list Effect * VersionRouter :=
  match m with
  | SetBetaProgram s tx => let '(es, r) := set_beta_program s r in (es ++ [Ack tx], r)
  | GetLatestVersion tx => get_latest_version tx updater_alive r
  | UpdateApplication tx => let '(es, r) := update_application r in (es ++ [Ack tx], r)
  | CancelUpdate tx => let '(es, r) := cancel_upgrade r in (es ++ [Ack tx], r)
  | GetCacheDir tx => ([AnswerCacheDir tx (cache_dir r)], r)
  end.

(** The end of the download task: a task that was joined does not broadcast
    [Aborted] when its handle is dropped. *)
Definition wait_for_update (t : Task) (r : VersionRouter) : option AppVersionInfo * list Effect * VersionRouter :=
  match state r with
  | Downloading version_cache upgrading_to_version handle =>
      match (start upgrading_to_version t).2 with
      | Some installer =>
          (Some {| info_current_version_supported := current_version_supported version_cache;
                   suggested_upgrade := Some {|
                     su_version := UpdateInfo.version upgrading_to_version;
                     su_changelog := changelog upgrading_to_version;
                     verified_installer_path := Some installer |} |},
           [], set_state (Downloaded version_cache installer) r)
      | None =>
          (None, match t with TaskJoinError => [Broadcast Aborted] | _ => [] end, set_state (HasVersion version_cache) r)
      end
  | _ => (None, [], r)
  end.

(** ** The loop *)

Inductive RouterEvent : Set :=
| ReNewVersion (new_version : VersionCache)
| ReDownload (t : Task)
| ReMessage (m : Message) (updater_alive : bool).

Definition run_step (e : RouterEvent) (r : VersionRouter) : list Effect * VersionRouter :=
  match e with
  | ReNewVersion new_version =>
      let '((info, is_new), dropped, r) := on_new_version new_version r in
      let '(answers, r) := notify_version_requesters info r in
      (dropped ++ answers ++ (if is_new then [ToDaemon info] else []), r)
  | ReDownload t =>
      let '(res, dropped, r) := wait_for_update t r in
      (dropped ++ (match res with Some info => [ToDaemon info] | None => [] end), r)
  | ReMessage m updater_alive => handle_message m updater_alive r
  end.

Definition spawn_version_router (beta : bool) (dir : string) : VersionRouter := {|
  state := NoVersion; beta_program := beta; version_request_channels := []; cache_dir := dir; next_handle := 0 |}.
Fixpoint router_run (es : list RouterEvent) (r : VersionRouter) : list Effect * VersionRouter :=
  match es with
  | [] => ([], r)
  | e :: es =>
      let '(out, r) := run_step e r in
      let '(outs, r) := router_run es r in
      (out ++ outs, r)
  end.

(** ** What is suggested *)

Definition key (v : VersionDetails) : Version * string := (UpdateInfo.version v, changelog v).
Definition recommended_key (c : VersionCache) (beta : bool) : option (Version * string) :=
  key <$> recommended_version_upgrade (version_info c) beta.

Lemma same_info_same_key c1 b1 c2 b2 installer :
  to_app_version_info c1 b1 installer = to_app_version_info c2 b2 installer → recommended_key c1 b1 = recommended_key c2 b2.
Proof.
  unfold to_app_version_info, recommended_key, key. intros [= _ E].
  destruct (recommended_version_upgrade _ b1), (recommended_version_upgrade _ b2); cbn in *; congruence.
Qed.

Lemma recommended_newer info beta v :
  recommended_version_upgrade info beta = Some v → version_gt (UpdateInfo.version v) APP_VERSION = true.
Proof.
  unfold recommended_version_upgrade. destruct (version_gt _ APP_VERSION) eqn:E; [|done]. by intros [= <-].
Qed.

(** The download in progress and the installer on disk are those of the
    suggested version. *)
Definition router_inv (r : VersionRouter) : Prop :=
  match state r with
  | NoVersion | HasVersion _ => True
  | Downloading c v handle => recommended_key c (beta_program r) = Some (key v) ∧ (handle < next_handle r)%nat
  | Downloaded c installer =>
      ∃ k dir, recommended_key c (beta_program r) = Some k ∧ installer = bin_path k.1 dir
  end.

(** A report suggests newer versions only, and an installer is that of the
    suggested version. *)
Definition suggests_newer (info : AppVersionInfo) : Prop :=
  ∀ su, suggested_upgrade info = Some su → version_gt (su_version su) APP_VERSION = true.
Definition installer_fits (info : AppVersionInfo) : Prop :=
  ∀ su p, suggested_upgrade info = Some su → verified_installer_path su = Some p → ∃ dir, p = bin_path (su_version su) dir.
(** The one exception: new information that arrives when an installer has been
    downloaded is reported together with that installer. *)
Definition stale_installer (e : RouterEvent) (r : VersionRouter) : Prop :=
  ∃ prev_cache installer new_version,
    e = ReNewVersion new_version ∧ state r = Downloaded prev_cache installer ∧
    to_app_version_info prev_cache (beta_program r) (Some installer) ≠
    to_app_version_info new_version (beta_program r) (Some installer).

Definition reported (es : list Effect) : list AppVersionInfo :=
  omap (λ e, match e with ToDaemon i | Answer _ i => Some i | _ => None end) es.

Lemma reported_app a b : reported (a ++ b) = reported a ++ reported b.
Proof. apply omap_app. Qed.
Lemma reported_drop s : reported (drop_state s) = [].
Proof. by destruct s. Qed.
Lemma reported_answers (txs : list nat) info (P : AppVersionInfo → Prop) :
  P info → Forall P (reported ((λ tx, Answer tx info) <$> txs)).
Proof. intros Hp. induction txs; cbn; by constructor. Qed.

Definition sound (info : AppVersionInfo) : Prop := suggests_newer info ∧ installer_fits info.

Lemma info_newer c beta installer : suggests_newer (to_app_version_info c beta installer).
Proof.
  intros su. cbn. destruct (recommended_version_upgrade _ _) as [v|] eqn:E; cbn; [|done]. intros [= <-]. cbn.
  by eapply recommended_newer.
Qed.
Lemma info_sound c beta : sound (to_app_version_info c beta None).
Proof. split; [apply info_newer|]. intros su p. cbn. destruct (recommended_version_upgrade _ _); cbn; [|done]. by intros [= <-]. Qed.
Lemma info_installer_sound c beta k dir :
  recommended_key c beta = Some k → sound (to_app_version_info c beta (Some (bin_path k.1 dir))).
Proof.
  intros Hk. split; [apply info_newer|]. intros su p. unfold recommended_key in Hk. cbn.
  destruct (recommended_version_upgrade _ _) as [v|]; cbn in *; [|done]. injection Hk as <-. intros [= <-] [= <-]. by exists dir.
Qed.

Lemma on_new_version_spec c r info is_new es r' :
  router_inv r → on_new_version c r = ((info, is_new), es, r') →
  router_inv r' ∧ reported es = [] ∧ version_request_channels r' = version_request_channels r ∧
  suggests_newer info ∧ (installer_fits info ∨ stale_installer (ReNewVersion c) r).
Proof.
  unfold router_inv, on_new_version. destruct (state r) as [|prev|prev to h|prev p] eqn:Es; intros Hi.
  1-2: intros [= <- <- <- <-]; rewrite ?Es; split_and!; try done; [by apply info_newer|left; apply info_sound].
  - destruct (decide _) as [E|E]; intros [= <- <- <- <-]; rewrite ?Es.
    + destruct Hi as [Hk Hh]. split_and!; try done; [|by apply info_newer|left; apply info_sound].
      cbn. by rewrite <- (same_info_same_key prev (beta_program r) c (beta_program r) None).
    + split_and!; try done; [by apply info_newer|left; apply info_sound].
  - destruct Hi as (k & dir & Hk & ->). destruct (decide _) as [E|E]; intros [= <- <- <- <-]; rewrite ?Es.
    + assert (recommended_key c (beta_program r) = Some k) as Hk' by (by rewrite <- Hk; symmetry; eapply same_info_same_key).
      split_and!; try done; [by exists k, dir|by apply info_newer|left; by apply info_installer_sound].
    + split_and!; try done; [by apply info_newer|]. right. by exists prev, (bin_path k.1 dir), c.
Qed.

Lemma set_beta_spec b r es r' :
  router_inv r → set_beta_program b r = (es, r') → router_inv r' ∧ Forall sound (reported es).
Proof.
  unfold set_beta_program. intros Hi. destruct (decide (b = beta_program r)); [by intros [= <- <-]|]. cbn.
  destruct (get_version_cache (state r)) as [c|] eqn:Ec; [|intros [= <- <-]; split; [|done]].
  - destruct (decide _) as [E|E]; intros [= <- <-].
    + split; [|done]. apply same_info_same_key in E. unfold router_inv in *. cbn. destruct (state r); cbn in Ec; simplify_eq; try done.
      * by rewrite E.
      * destruct Hi as (k & dir & Hk & ->). exists k, dir. by rewrite E.
    + split; [done|]. rewrite reported_app, reported_drop. cbn. constructor; [apply info_sound|].
      by apply reported_answers, info_sound.
  - unfold router_inv. cbn. by destruct (state r).
Qed.

Lemma run_step_spec e r es r' :
  router_inv r → run_step e r = (es, r') →
  router_inv r' ∧ Forall (λ info, suggests_newer info ∧ (installer_fits info ∨ stale_installer e r)) (reported es).
Proof.
  assert (∀ l, Forall sound l → Forall (λ info, suggests_newer info ∧ (installer_fits info ∨ stale_installer e r)) l) as Hsound.
  { intros l F. eapply Forall_impl; [exact F|]. intros info [? ?]. auto. }
  intros Hi. destruct e as [c|t|m alive]; cbn [run_step].
  - destruct (on_new_version c r) as [[[info is_new] dropped] r1] eqn:E. cbn.
    apply on_new_version_spec in E as (Hi1 & Hd & _ & Hn & Hf); [|done]. intros [= <- <-]. split; [done|].
    rewrite !reported_app, Hd. cbn. apply Forall_app. split; [by apply reported_answers|]. destruct is_new; [apply Forall_singleton; done|constructor].
  - unfold wait_for_update. destruct (state r) as [| |c v h|] eqn:Es; try (by intros [= <- <-]).
    unfold router_inv in Hi. rewrite Es in Hi. destruct Hi as [Hk Hh].
    destruct (start v t).2 as [p|] eqn:Ep; intros [= <- <-].
    + destruct t; cbn in Ep; try done. injection Ep as <-. split; [by exists (key v), download_dir|].
      constructor; [|constructor]. cbn. unfold recommended_key in Hk.
      destruct (recommended_version_upgrade _ _) as [v'|] eqn:Er; cbn in Hk; [|done]. apply recommended_newer in Er.
      unfold key in Hk. injection Hk as Ev Ec. split.
      * intros su [= <-]. cbn. by rewrite <- Ev.
      * left. intros su p [= <-] [= <-]. by exists download_dir.
    + split; [done|]. rewrite app_nil_r. by destruct t.
  - unfold handle_message. destruct m as [b tx|tx|tx|tx|tx].
    + destruct (set_beta_program b r) as [es1 r1] eqn:E. apply set_beta_spec in E as [? ?]; [|done]. intros [= <- <-].
      split; [done|]. rewrite reported_app. cbn. rewrite app_nil_r. by apply Hsound.
    + unfold get_latest_version. destruct alive; intros [= <- <-]; (split; [|constructor]); done.
    + unfold update_application. destruct (state r) as [|c| |] eqn:Es; cbn; try (by intros [= <- <-]).
      destruct (recommended_version_upgrade _ _) as [v|] eqn:Er; intros [= <- <-]; [|by split; [|constructor]].
      split; [|constructor]. cbn. unfold recommended_key. rewrite Er. cbn. split; [done|]. cbn. lia.
    + unfold cancel_upgrade. destruct (state r) as [| |c v h|c p] eqn:Es; intros [= <- <-].
      1-3: by split; [unfold router_inv; rewrite ?Es|constructor].
      split; [done|]. apply Hsound. rewrite <- app_assoc. match goal with |- Forall _ (reported (_ :: ?l)) => change (Forall sound (reported l)) end.
      rewrite reported_app. apply Forall_app.
      split; [apply reported_answers, info_sound|apply Forall_singleton, info_sound].
    + intros [= <- <-]. by split; [|constructor].
Qed.

Lemma router_run_inv es r : router_inv r → router_inv (router_run es r).2.
Proof.
  revert r. induction es as [|e es IH]; intros r Hi; [done|]. cbn. destruct (run_step e r) as [out r1] eqn:E.
  apply run_step_spec in E as [Hi1 _]; [|done]. specialize (IH r1 Hi1). by destruct (router_run es r1).
Qed.

(** Whatever has happened before, the router only ever suggests a version
    that is newer than the running app, and an installer that it reports as
    verified is the installer of the version it suggests.  The only exception is
    new version information that arrives after an installer has been downloaded:
    it is reported with the installer of the old suggestion. *)
Theorem router_suggestions (beta : bool) (dir : string) (past : list RouterEvent) (e : RouterEvent) :
  let r := (router_run past (spawn_version_router beta dir)).2 in
  Forall (λ info, suggests_newer info ∧ (installer_fits info ∨ stale_installer e r)) (reported (run_step e r).1).
Proof.
  intros r. destruct (run_step e r) as [es r'] eqn:E. eapply run_step_spec; [|exact E]. by apply router_run_inv.
Qed.

(** ** Requests for the latest version *)

Definition answered (es : list Effect) : list nat := omap (λ e, match e with Answer tx _ => Some tx | _ => None end) es.
Definition accepted (es : list RouterEvent) : list nat :=
  omap (λ e, match e with ReMessage (GetLatestVersion tx) true => Some tx | _ => None end) es.

Lemma answered_app a b : answered (a ++ b) = answered a ++ answered b.
Proof. apply omap_app. Qed.
Lemma answered_drop s : answered (drop_state s) = [].
Proof. by destruct s. Qed.
Lemma answered_answers txs info : answered ((λ tx, Answer tx info) <$> txs) = txs.
Proof. induction txs as [|tx txs IH]; cbn; [done|]. f_equal. exact IH. Qed.

Lemma on_new_version_channels c r :
  answered (on_new_version c r).1.2 = [] ∧ version_request_channels (on_new_version c r).2 = version_request_channels r.
Proof. unfold on_new_version. destruct (state r); try destruct (decide _); cbn; by rewrite ?answered_drop. Qed.

Lemma run_step_channels e r :
  answered (run_step e r).1 ++ version_request_channels (run_step e r).2 = version_request_channels r ++ accepted [e].
Proof.
  destruct e as [c|t|m alive]; cbn [run_step].
  - pose proof (on_new_version_channels c r) as [H1 H2].
    destruct (on_new_version c r) as [[[info is_new] dropped] r1].
    cbn [fst snd version_request_channels notify_version_requesters] in *. rewrite !answered_app, H1, answered_answers, H2.
    destruct is_new; cbn; by rewrite ?app_nil_r.
  - unfold wait_for_update. destruct (state r); cbn; rewrite ?app_nil_r; try done.
    destruct (start _ t).2; cbn; [by rewrite ?app_nil_r|]. destruct t; cbn; by rewrite ?app_nil_r.
  - unfold handle_message. destruct m as [b tx|tx|tx|tx|tx]; cbn [accepted omap list_omap].
    + unfold set_beta_program. destruct (decide _); cbn; [by rewrite ?app_nil_r|].
      destruct (get_version_cache _); cbn; [|by rewrite ?app_nil_r]. destruct (decide _); cbn; [by rewrite ?app_nil_r|].
      rewrite <- app_assoc, answered_app, answered_drop. cbn. by rewrite answered_app, answered_answers, ?app_nil_r.
    + unfold get_latest_version. destruct alive; cbn; [done|by rewrite ?app_nil_r].
    + unfold update_application. destruct (state r); cbn; rewrite ?app_nil_r; try done.
      destruct (recommended_version_upgrade _ _); cbn; by rewrite ?app_nil_r.
    + unfold cancel_upgrade. destruct (state r) eqn:Es; cbn; rewrite ?app_nil_r; try done.
      rewrite !answered_app, answered_answers. cbn. by rewrite ?app_nil_r.
    + cbn. by rewrite ?app_nil_r.
Qed.

(** Requests for the latest version are answered in the order in which they
    were made, each at most once, and none is lost: those that have been
    answered followed by those that wait are all that were accepted.  After new
    version information none waits. *)
Theorem requests_answered_once (beta : bool) (dir : string) (es : list RouterEvent) (c : VersionCache) :
  (let '(outs, r) := router_run es (spawn_version_router beta dir) in
   answered outs ++ version_request_channels r = accepted es) ∧
  (let r := (router_run es (spawn_version_router beta dir)).2 in
   version_request_channels (run_step (ReNewVersion c) r).2 = []).
Proof.
  split.
  - assert (∀ r, answered (router_run es r).1 ++ version_request_channels (router_run es r).2 =
      version_request_channels r ++ accepted es) as K.
    { induction es as [|e es IH]; intros r; cbn [router_run]; [cbn; by rewrite app_nil_r|].
      pose proof (run_step_channels e r) as Hs. destruct (run_step e r) as [out r1]. specialize (IH r1).
      destruct (router_run es r1) as [outs r2]. cbn [fst snd] in *. rewrite answered_app, <- app_assoc, IH, app_assoc, Hs, <- app_assoc.
      f_equal. unfold accepted. cbn. by destruct (match e with ReMessage (GetLatestVersion tx) true => Some tx | _ => None end). }
    specialize (K (spawn_version_router beta dir)). by destruct (router_run es _).
  - cbn. destruct (on_new_version c _) as [[[info is_new] dropped] r1]. done.
Qed.
End Router.

(** * Concrete runs of the version checks and of the version router

    Metadata in a toy encoding, a run of the updater in which old metadata
    replaces new one, and a run of the router in which a version is reported with
    the installer of another. *)

Module VersionExample.
(** ** Toy metadata *)

(** The bytes are the metadata counter and the numbers of the releases of 2025;
    the signature of the key [7] is the length of the bytes. *)
Definition release_2025 (n : Z) : Release := {|
  r_version := {| year := 2025; incremental := n; pre_stable := None; dev := None |};
  r_changelog := ""; r_installers := []; r_rollout := FULLY_ROLLED_OUT |}.
#[local] Instance toy_crates : MetadataCrates := {|
  json := list Z;
  parse_partial bytes := Some ([OtherSignature "rsa" ""; Ed25519 [7] [Z.of_nat (length bytes)]], bytes);
  parse_value bytes := Some bytes;
  to_canonical v := Some v;
  verify_strict key data sig := bool_decide (key = [7]) && bool_decide (sig = [Z.of_nat (length data)]);
  parse_response v :=
    match v with
    | [] => None
    | m :: l => Some {| metadata_version := m; metadata_expiry := 1000; releases := release_2025 <$> l |}
    end;
  hex_decode _ := None
|}.

Definition app : Version := {| year := 2025; incremental := 3; pre_stable := None; dev := None |}.
Notation run := (updater_run app [[7]] X86 SUPPORTED_VERSION true).
Definition reply (bytes : list Z) : ApiReply := Reply false None bytes.
Definition always (bytes : list Z) : nat → ApiReply * Z * bool := λ _, (reply bytes, 10, false).

Definition numbers (l : list VersionCache) : list (Z * Z) :=
  (λ c, (vc_metadata_version c, incremental (UpdateInfo.version (stable (version_info c))))) <$> l.

(** Checks one after the other: metadata that is older, or not signed by a
    trusted key, is refused and the last information is repeated. *)
Example checks_in_order :
  numbers (run [EvRefresh; EvForeground (always [5; 3; 4]); EvTimer; EvBackground true (reply [6; 3; 5]) 20;
                EvRefresh; EvForeground (always [5; 3; 4])] (updater_start app None)).1 = [(5, 4); (6, 5); (6, 5)] ∧
  (updater_run app [[8]] X86 SUPPORTED_VERSION true [EvRefresh; EvForeground (always [5; 3; 4])] (updater_start app None)).1 = [].
Proof. vm_compute. done. Qed.

(** A background check that is started before a foreground check ends accepts
    metadata that is older than what the foreground check has accepted. *)
Example overlapping_checks_downgrade :
  numbers (run [EvRefresh; EvForeground (always [5; 3; 4]); EvTimer; EvRefresh; EvForeground (always [7; 3; 6]);
                EvBackground true (reply [6; 3; 5]) 20] (updater_start app None)).1 = [(5, 4); (7, 6); (6, 5)].
Proof. vm_compute. done. Qed.

(** ** Upgrades *)

Definition details (n : Z) : VersionDetails := {|
  UpdateInfo.version := {| year := 2025; incremental := n; pre_stable := None; dev := None |};
  urls := []; UpdateInfo.size := 1; changelog := ""; sha256 := [] |}.
Definition cache (n : Z) : VersionCache := {|
  cache_version := app; current_version_supported := true; version_info := {| stable := details n; beta := None |};
  last_platform_header_check := 0; vc_metadata_version := n; etag := None |}.
Notation step := (run_step app (lit ".exe")).
Notation router := (router_run app (lit ".exe")).
Definition downloaded : list RouterEvent :=
  [ReNewVersion (cache 4); ReMessage (UpdateApplication 0) true; ReDownload (TaskDone "downloads")].

Definition suggestion (info : AppVersionInfo) : option (Z * option path) :=
  (λ su, (incremental (su_version su), verified_installer_path su)) <$> suggested_upgrade info.

(** An upgrade from the first information to the verified installer. *)
Example upgrade :
  suggestion <$> reported (router downloaded (spawn_version_router false "cache")).1 =
    [Some (4, None); Some (4, Some ("downloads", lit "mullvad-2025.4.exe"))].
Proof. vm_compute. done. Qed.

(** New information after a download: version 2025.5 is reported with the
    verified installer of 2025.4. *)
Example stale_installer_reported :
  suggestion <$> reported (step (ReNewVersion (cache 5)) (router downloaded (spawn_version_router false "cache")).2).1 =
    [Some (5, Some ("downloads", lit "mullvad-2025.4.exe"))].
Proof. vm_compute. done. Qed.
End VersionExample.
