(* ===== verification/EncryptedDns.v ===== *)
(** * Encrypted DNS proxies (mullvad-encrypted-dns-proxy)

    The API can be reached through proxies whose addresses are published as AAAA
    records.  This file models how a record is decoded into a proxy configuration
    ([config/mod.rs], [config/plain.rs], [config/xor.rs]), the XOR obfuscation of
    the traffic to the proxy ([config/xor.rs], [forwarder.rs]) and the order in
    which the fetched configurations are tried ([state.rs],
    [config_resolver.rs]).

    A byte is a [Z] between 0 and 255; a slice index out of bounds and a remainder
    by zero, which panic, give [None].  A [HashSet] is the duplicate-free list of
    its elements in iteration order.  Every set has its own random order: the
    order a fetched set iterates in is an argument of [fetch_configs].  The DoH
    lookup belongs to the resolver crate: its answer is an argument too. *)

From S2P Require Import Prelude NetTypes.

(** ** Configurations *)

Module edns.

Inductive Error : Set :=
| UnknownProxyType (t : Z)
| XorV1Unsupported
| InvalidPort (port : Z)
| EmptyXorKey.

Inductive ProxyType : Set := Plain | XorV1 | XorV2.

Record XorKey : Set := { data : list Z; len : nat }.

Inductive ObfuscationConfig : Set := ObfXorV2 (key : XorKey).

(** [addr] is a [SocketAddrV4]: the address and the port. *)
Record ProxyConfig : Set := {
  addr_ip : Z;
  addr_port : Z;
  obfuscation : option ObfuscationConfig
}.

#[global] Instance XorKey_eq_dec : EqDecision XorKey.
Proof. solve_decision. Defined.
#[global] Instance ObfuscationConfig_eq_dec : EqDecision ObfuscationConfig.
Proof. solve_decision. Defined.
#[global] Instance ProxyConfig_eq_dec : EqDecision ProxyConfig.
Proof. solve_decision. Defined.

(** [u16::from_le_bytes] and [Ipv4Addr::from([u8; 4])]. *)
Definition from_le_bytes (bs : list Z) : Z := le_val bs.
Definition ipv4_from (bs : list Z) : Z := le_val (rev bs).

Definition ProxyType_try_from (bytes : list Z) : result Error ProxyType :=
  match from_le_bytes bytes with
  | 1 => Ok Plain
  | 2 => Ok XorV1
  | 3 => Ok XorV2
  | unknown => Err (UnknownProxyType unknown)
  end.

Definition parse_plain (data : list Z) : result Error ProxyConfig :=
  let ip_bytes := take 4 data in
  let tail := drop 4 data in
  let port_bytes := take 2 tail in
  let ip := ipv4_from ip_bytes in
  let port := from_le_bytes port_bytes in
  if port =? 0 then Err (InvalidPort 0)
  else Ok {| addr_ip := ip; addr_port := port; obfuscation := None |}.

(** [iter().position(p)]. *)
Fixpoint position {A} (p : A → bool) (l : list A) : option nat :=
  match l with
  | [] => None
  | x :: l => if p x then Some O else S <$> position p l
  end.

Definition XorKey_try_from (key_bytes : list Z) : result Error XorKey :=
  let key_len := default (length key_bytes) (position (λ b, b =? 0) key_bytes) in
  if (key_len =? 0)%nat then Err EmptyXorKey
  else
    let key_bytes := take key_len key_bytes ++ replicate (length key_bytes - key_len) 0 in
    Ok {| data := key_bytes; len := key_len |}.

Definition parse_xor (data : list Z) : result Error ProxyConfig :=
  let ip_bytes := take 4 data in
  let tail := drop 4 data in
  let port_bytes := take 2 tail in
  let key_bytes := drop 2 tail in
  let ip := ipv4_from ip_bytes in
  let port := from_le_bytes port_bytes in
  if port =? 0 then Err (InvalidPort port)
  else
    key ← XorKey_try_from key_bytes;
    Ok {| addr_ip := ip; addr_port := port; obfuscation := Some (ObfXorV2 key) |}.

(** [TryFrom<Ipv6Addr>]; [Ipv6Addr::octets] are the big-endian bytes. *)
Definition ProxyConfig_try_from (ip : Z) : result Error ProxyConfig :=
  let data := be_bytes 16 ip in
  let proxy_type_bytes := take 2 (drop 2 data) in
  let proxy_config_payload := take 12 (drop 4 data) in
  proxy_type ← ProxyType_try_from proxy_type_bytes;
  match proxy_type with
  | Plain => parse_plain proxy_config_payload
  | XorV1 => Err XorV1Unsupported
  | XorV2 => parse_xor proxy_config_payload
  end.

(** ** Obfuscation *)

Definition key_data (k : XorKey) : option (list Z) :=
  if (len k <=? length (data k))%nat then Some (take (len k) (data k)) else None.

Record XorObfuscator : Set := { key : XorKey; key_index : nat }.

Definition XorObfuscator_new (k : XorKey) : XorObfuscator := {| key := k; key_index := 0 |}.

Definition create_obfuscator (c : ObfuscationConfig) : XorObfuscator :=
  match c with ObfXorV2 key => XorObfuscator_new key end.

(** The loop of [obfuscate]: the bytes written in place and the final index. *)
Fixpoint obfuscate_bytes (key_data : list Z) (key_index : nat) (buffer : list Z) : option (list Z * nat) :=
  match buffer with
  | [] => Some ([], key_index)
  | byte :: buffer =>
      k ← key_data !! (key_index mod length key_data)%nat;
      '(rest, i) ← obfuscate_bytes key_data ((key_index + 1) mod length key_data)%nat buffer;
      Some (Z.lxor byte k :: rest, i)
  end.

Definition obfuscate (o : XorObfuscator) (buffer : list Z) : option (list Z * XorObfuscator) :=
  kd ← key_data (key o);
  '(bytes, i) ← obfuscate_bytes kd (key_index o) buffer;
  Some (bytes, {| key := key o; key_index := i |}).

(** An [Option<Box<dyn Obfuscator>>] used as the forwarder does. *)
Definition obfuscate_opt (o : option XorObfuscator) (buffer : list Z) :
    option (list Z * option XorObfuscator) :=
  match o with
  | None => Some (buffer, None)
  | Some o => '(bytes, o) ← obfuscate o buffer; Some (bytes, Some o)
  end.

(** ** The forwarder *)

Record Forwarder : Set := {
  read_obfuscator : option XorObfuscator;
  write_obfuscator : option XorObfuscator
}.

Definition from_stream (proxy_config : ProxyConfig) : Forwarder :=
  match obfuscation proxy_config with
  | Some obfuscation_config =>
      {| read_obfuscator := Some (create_obfuscator obfuscation_config);
         write_obfuscator := Some (create_obfuscator obfuscation_config) |}
  | None => {| read_obfuscator := None; write_obfuscator := None |}
  end.

(** [forward]: an element of [reads] is what one read of the source returns (a
    failed read ends the loop) and what [write_all] to the sink then does: [None]
    writes everything, [Some n] fails after [n] bytes.  The result pairs the bytes
    the sink accepted with the outcome; a source that has no more reads is at its
    end. *)
Fixpoint forward (obfuscator : option XorObfuscator)
    (reads : list (result unit (list Z) * option nat)) : option (list Z * result unit unit) :=
  match reads with
  | [] => Some ([], Ok tt)
  | (Err _, _) :: _ => Some ([], Ok tt)
  | (Ok [], _) :: _ => Some ([], Ok tt)
  | (Ok bytes_received, write) :: reads =>
      '(bytes, obfuscator) ← obfuscate_opt obfuscator bytes_received;
      match write with
      | Some n => Some (take n bytes, Err tt)
      | None => '(rest, r) ← forward obfuscator reads; Some (bytes ++ rest, r)
      end
  end.

Inductive Poll (A : Type) : Type := Pending | Ready (a : A).
Arguments Pending {A}.
Arguments Ready {A} a.

(** [poll_read]: [filled] is the part of the buffer that holds data when the call
    is made, [socket] what polling the inner stream gives (the bytes it appends).
    The result is the filled part afterwards. *)
Definition poll_read (f : Forwarder) (filled : list Z) (socket : Poll (result unit (list Z))) :
    option (Forwarder * list Z * Poll (result unit unit)) :=
  match socket with
  | Pending => Some (f, filled, Pending)
  | Ready (Err e) => Some (f, filled, Ready (Err e))
  | Ready (Ok received) =>
      '(filled, o) ← obfuscate_opt (read_obfuscator f) (filled ++ received);
      Some ({| read_obfuscator := o; write_obfuscator := write_obfuscator f |}, filled, Ready (Ok tt))
  end.

(** [poll_write]: [stream] is the answer of the inner stream to the obfuscated
    copy of the buffer: the number of bytes it takes.  The second component of the
    result is what goes out on the wire. *)
Definition poll_write (f : Forwarder) (buf : list Z) (stream : Poll (result unit nat)) :
    option (Forwarder * list Z * Poll (result unit nat)) :=
  '(owned_buf, o) ← obfuscate_opt (write_obfuscator f) buf;
  let f := {| read_obfuscator := read_obfuscator f; write_obfuscator := o |} in
  Some (f, match stream with Ready (Ok n) => take n owned_buf | _ => [] end, stream).

(** ** The configurations in use *)

(** [ResolutionError] and [Timeout] of the lookup. *)
Inductive ResolverError : Set := ResolutionError | Timeout.

(** [resolve_config_with_resolverconfig]: the records of the answer that decode. *)
Fixpoint decode_all (addrs : list Z) : list ProxyConfig :=
  match addrs with
  | [] => []
  | addr :: addrs =>
      match ProxyConfig_try_from addr with
      | Ok proxy_config => proxy_config :: decode_all addrs
      | Err _ => decode_all addrs
      end
  end.

Definition resolve_configs (lookup : result ResolverError (list Z)) : result ResolverError (list ProxyConfig) :=
  addrs ← lookup; Ok (decode_all addrs).

Record EncryptedDnsProxyState : Set := {
  configurations : list ProxyConfig;
  tried_configurations : list ProxyConfig
}.

Definition EncryptedDnsProxyState_default : EncryptedDnsProxyState :=
  {| configurations := []; tried_configurations := [] |}.

(** [HashSet::difference], iterated in the order of the first set. *)
Definition difference (s t : list ProxyConfig) : list ProxyConfig :=
  filter (λ c, c ∉ t) s.

Definition should_reset (st : EncryptedDnsProxyState) : bool :=
  (length (difference (configurations st) (tried_configurations st)) =? 0)%nat.

Definition reset (st : EncryptedDnsProxyState) : EncryptedDnsProxyState :=
  {| configurations := configurations st; tried_configurations := [] |}.

Definition is_obfuscated (c : ProxyConfig) : bool :=
  match obfuscation c with Some _ => true | None => false end.

Definition next_configuration (st : EncryptedDnsProxyState) : option ProxyConfig * EncryptedDnsProxyState :=
  let st := if should_reset st then reset st else st in
  match difference (configurations st) (tried_configurations st) with
  | [] => (None, st)
  | first_config :: rest =>
      let obfuscated_config := List.find is_obfuscated rest in
      let selected_config := default first_config obfuscated_config in
      (Some selected_config,
       {| configurations := configurations st;
          tried_configurations := selected_config :: tried_configurations st |})
  end.

(** [fetch_configs]: [resolved] is the answer of [resolve_default_config], [order]
    the iteration order of the set collected from it. *)
Definition fetch_configs (st : EncryptedDnsProxyState) (resolved : result ResolverError (list ProxyConfig))
    (order : list ProxyConfig → list ProxyConfig) : result ResolverError unit * EncryptedDnsProxyState :=
  match resolved with
  | Ok new_configs =>
      (Ok tt, {| configurations := order (remove_dups new_configs);
                 tried_configurations := tried_configurations st |})
  | Err err => (match configurations st with [] => Err err | _ => Ok tt end, st)
  end.

(** The use the access method resolver makes of it: fetch, whatever the outcome,
    then take the next configuration. *)
Definition fetch_next (st : EncryptedDnsProxyState) (resolved : result ResolverError (list ProxyConfig))
    (order : list ProxyConfig → list ProxyConfig) : option ProxyConfig * EncryptedDnsProxyState :=
  next_configuration (fetch_configs st resolved order).2.

(** ** What a record means

    [encodes octets c]: the documented layout of the sixteen octets that carry the
    configuration [c]: two octets that are not interpreted, the proxy type, the
    address of the proxy, its port in little-endian order and, for an obfuscated
    proxy, the key up to the first zero octet. *)
Definition key_wf (k : XorKey) : Prop :=
  (1 ≤ len k ≤ 6)%nat ∧
  ∃ ks, length ks = len k ∧ Forall (λ b, 0 < b < 256) ks ∧ data k = ks ++ replicate (6 - len k) 0.

Definition config_wf (c : ProxyConfig) : Prop :=
  u32_range (addr_ip c) ∧ 0 < addr_port c < 2 ^ 16 ∧
  match obfuscation c with None => True | Some (ObfXorV2 k) => key_wf k end.

Definition encodes (octets : list Z) (c : ProxyConfig) : Prop :=
  ∃ hd tl, length hd = 2%nat ∧
    match obfuscation c with
    | None => octets = hd ++ [1; 0] ++ be_bytes 4 (addr_ip c) ++ le_bytes 2 (addr_port c) ++ tl
    | Some (ObfXorV2 k) =>
        octets = hd ++ [3; 0] ++ be_bytes 4 (addr_ip c) ++ le_bytes 2 (addr_port c) ++ take (len k) (data k) ++ tl
        ∧ (tl = [] ∨ head tl = Some 0)
    end.

Lemma position_Some {A} (p : A → bool) l n :
  position p l = Some n ↔ ∃ x, l !! n = Some x ∧ p x = true ∧ Forall (λ y, p y = false) (take n l).
Proof.
  revert n; induction l as [|y l IH]; intros n; cbn.
  - split; [done|]. intros (x & H & _). by rewrite lookup_nil in H.
  - destruct (p y) eqn:Hy.
    + split; [intros [= <-]; eauto|]. intros (x & Hx & Hp & HF). destruct n; [done|].
      cbn in HF. apply Forall_cons in HF as [? _]. congruence.
    + rewrite fmap_Some. split.
      * intros (m & (x & Hx & Hp & HF)%IH & ->). exists x. cbn. eauto.
      * intros (x & Hx & Hp & HF). destruct n as [|n]; cbn in *; [congruence|].
        apply Forall_cons in HF as [_ ?]. exists n. split; [|done]. apply IH. eauto.
Qed.

Lemma position_None {A} (p : A → bool) l : position p l = None ↔ Forall (λ y, p y = false) l.
Proof.
  induction l as [|y l IH]; cbn; [done|]. rewrite Forall_cons. destruct (p y).
  - split; [done|]. by intros [? _].
  - rewrite fmap_None, IH. naive_solver.
Qed.

Lemma le_val_bounds bs : Forall u8_range bs → 0 ≤ le_val bs < 256 ^ Z.of_nat (length bs).
Proof.
  induction 1 as [|b bs Hb _ IH]; [cbn; lia|]. cbn [le_val length].
  rewrite Nat2Z.inj_succ, Z.pow_succ_r by lia. unfold u8_range in Hb. lia.
Qed.

(** A value is that of some bytes exactly when the bytes are its encoding. *)
Lemma le_val_iff bs z :
  Forall u8_range bs → 0 ≤ z < 256 ^ Z.of_nat (length bs) → le_val bs = z ↔ bs = le_bytes (length bs) z.
Proof.
  intros Hbs Hz. split; [intros <-; by rewrite le_bytes_le_val|].
  intros E. rewrite E. by apply le_val_le_bytes.
Qed.

Lemma ipv4_from_iff bs z :
  Forall u8_range bs → length bs = 4%nat → u32_range z → ipv4_from bs = z ↔ bs = be_bytes 4 z.
Proof.
  intros Hbs Hl Hz. unfold ipv4_from, be_bytes. rewrite le_val_iff.
  - rewrite length_rev, Hl. split; intros E; [rewrite <- E|rewrite E]; by rewrite rev_involutive.
  - by apply Forall_rev.
  - rewrite length_rev, Hl. exact Hz.
Qed.

Lemma ipv4_from_range bs : Forall u8_range bs → length bs = 4%nat → u32_range (ipv4_from bs).
Proof.
  intros Hbs Hl. unfold ipv4_from, u32_range. pose proof (le_val_bounds (rev bs) ltac:(by apply Forall_rev)) as B.
  rewrite length_rev, Hl in B. exact B.
Qed.

(** The octets before the first zero octet. *)
Definition zero_ended (ks tl : list Z) : Prop :=
  Forall (λ b, 0 < b < 256) ks ∧ (tl = [] ∨ head tl = Some 0).

Lemma zero_ended_unique ks tl ks' tl' :
  zero_ended ks tl → zero_ended ks' tl' → ks ++ tl = ks' ++ tl' → ks = ks'.
Proof.
  intros [HF Ht] [HF' Ht']. revert ks' HF'. induction HF as [|b ks Hb HF IH]; intros ks' HF' E.
  - destruct HF' as [|b' ks' Hb' HF']; [done|]. cbn in E. subst.
    destruct Ht as [?|[= ->]]; [done|lia].
  - destruct HF' as [|b' ks' Hb' HF']; cbn in E.
    + subst. destruct Ht' as [?|[= ->]]; [done|lia].
    + injection E as -> E. f_equal. eauto.
Qed.

Lemma zero_ended_position bs :
  Forall u8_range bs →
  let n := default (length bs) (position (λ b, b =? 0) bs) in
  (n ≤ length bs)%nat ∧ zero_ended (take n bs) (drop n bs).
Proof.
  intros Hbs. assert (Hnz : ∀ y, y ∈ bs → (y =? 0) = false → 0 < y < 256).
  { intros y Hy H0. rewrite Forall_forall in Hbs. specialize (Hbs y Hy). unfold u8_range in Hbs. lia. }
  destruct (position _ bs) as [m|] eqn:Hp; cbn.
  - apply position_Some in Hp as (x & Hx & Hx0 & HF). split; [apply lookup_lt_Some in Hx; lia|]. split.
    + apply Forall_forall. intros y Hy. rewrite Forall_forall in HF.
      apply Hnz, HF; [|done]. by apply (subseteq_take m) in Hy.
    + right. apply Z.eqb_eq in Hx0 as ->. by rewrite head_lookup, lookup_drop, Nat.add_0_r.
  - apply position_None in Hp. rewrite take_ge, drop_ge by done. split; [done|]. split; [|by left].
    apply Forall_forall. intros y Hy. rewrite Forall_forall in Hp. auto.
Qed.

(** The key of a record is its octets up to the first zero octet. *)
Lemma XorKey_try_from_spec bs k :
  Forall u8_range bs → length bs = 6%nat →
  XorKey_try_from bs = Ok k ↔
  key_wf k ∧ ∃ tl, bs = take (len k) (data k) ++ tl ∧ (tl = [] ∨ head tl = Some 0).
Proof.
  intros Hbs Hl. destruct (zero_ended_position bs Hbs) as [Hn Hz]. unfold XorKey_try_from.
  set (n := default _ _) in *. destruct (Nat.eqb_spec n 0) as [H0|H0]; split.
  - done.
  - intros [(Hk & ks & Hks & HF & Hd) (tl & E & Ht)]. exfalso. rewrite Hd, take_app_length' in E by done.
    assert (take n bs = ks) as <- by (eapply zero_ended_unique; [done|by split|by rewrite take_drop]).
    rewrite length_take in Hks. lia.
  - intros [= <-]. rewrite Hl. cbn [len data].
    rewrite take_app_length' by (rewrite length_take; lia). destruct Hz as [HF Ht].
    split; [split; cbn; [lia|]|].
    + exists (take n bs). rewrite length_take. split; [lia|]. done.
    + exists (drop n bs). by rewrite take_drop.
  - intros [(Hk & ks & Hks & HF & Hd) (tl & E & Ht)]. rewrite Hd, take_app_length' in E by done.
    assert (ks = take n bs) as -> by (eapply zero_ended_unique; [by split|done|by rewrite take_drop]).
    rewrite length_take, Nat.min_l in Hks by lia. destruct k as [d l]; cbn in *. by rewrite Hl, Hd, <- Hks.
Qed.

Lemma ProxyType_try_from_eq bs :
  ProxyType_try_from bs =
  let v := from_le_bytes bs in
  if v =? 1 then Ok Plain else if v =? 2 then Ok XorV1 else if v =? 3 then Ok XorV2
  else Err (UnknownProxyType v).
Proof.
  unfold ProxyType_try_from. destruct (from_le_bytes bs) as [|p|p]; [done| |done].
  destruct p as [[p|p|]|[p|p|]|]; done.
Qed.

(** The five fields of sixteen octets. *)
Lemma record_fields o :
  length o = 16%nat → Forall u8_range o →
  ∃ hd ty ib pb kb, o = hd ++ ty ++ ib ++ pb ++ kb ∧
    length hd = 2%nat ∧ length ty = 2%nat ∧ length ib = 4%nat ∧ length pb = 2%nat ∧ length kb = 6%nat ∧
    Forall u8_range ty ∧ Forall u8_range ib ∧ Forall u8_range pb ∧ Forall u8_range kb.
Proof.
  intros Hl HF.
  exists (take 2 o), (take 2 (drop 2 o)), (take 4 (drop 4 o)), (take 2 (drop 8 o)), (drop 10 o).
  rewrite !length_take, !length_drop, Hl. split_and!; try done; try by repeat first [apply Forall_take|apply Forall_drop].
  do 16 (destruct o as [|? o]; [done|]). destruct o; done.
Qed.

(** Decoding in terms of the fields. *)
Definition decode_fields (ty ib pb kb : list Z) : result Error ProxyConfig :=
  let v := from_le_bytes ty in
  let port := from_le_bytes pb in
  if v =? 1 then
    if port =? 0 then Err (InvalidPort 0)
    else Ok {| addr_ip := ipv4_from ib; addr_port := port; obfuscation := None |}
  else if v =? 2 then Err XorV1Unsupported
  else if v =? 3 then
    if port =? 0 then Err (InvalidPort port)
    else key ← XorKey_try_from kb;
         Ok {| addr_ip := ipv4_from ib; addr_port := port; obfuscation := Some (ObfXorV2 key) |}
  else Err (UnknownProxyType v).

Lemma try_from_fields ip hd ty ib pb kb :
  be_bytes 16 ip = hd ++ ty ++ ib ++ pb ++ kb →
  length hd = 2%nat → length ty = 2%nat → length ib = 4%nat → length pb = 2%nat → length kb = 6%nat →
  ProxyConfig_try_from ip = decode_fields ty ib pb kb.
Proof.
  intros E H1 H2 H3 H4 H5. unfold ProxyConfig_try_from. rewrite E, ProxyType_try_from_eq.
  assert (take 2 (drop 2 (hd ++ ty ++ ib ++ pb ++ kb)) = ty) as ->.
  { by rewrite drop_app_length', take_app_length' by done. }
  assert (drop 4 (hd ++ ty ++ ib ++ pb ++ kb) = ib ++ pb ++ kb) as ->.
  { rewrite (app_assoc hd). rewrite drop_app_length'; [done|]. rewrite length_app. lia. }
  rewrite (take_ge (ib ++ pb ++ kb)) by (rewrite !length_app; lia).
  unfold decode_fields, parse_plain, parse_xor. cbv zeta.
  rewrite take_app_length', drop_app_length', take_app_length', drop_app_length' by done.
  destruct (_ =? 1); [done|]. destruct (_ =? 2); [done|]. by destruct (_ =? 3).
Qed.

Lemma from_le_bytes_iff bs z :
  Forall u8_range bs → length bs = 2%nat → u16_range z → from_le_bytes bs = z ↔ bs = le_bytes 2 z.
Proof. intros Hbs Hl Hz. unfold from_le_bytes. rewrite le_val_iff; rewrite ?Hl; [done..|exact Hz]. Qed.

Lemma from_le_bytes_range bs : Forall u8_range bs → length bs = 2%nat → u16_range (from_le_bytes bs).
Proof. intros Hbs Hl. pose proof (le_val_bounds bs Hbs) as B. rewrite Hl in B. exact B. Qed.

(** [decode_fields] yields exactly the configurations the fields encode. *)
Lemma decode_fields_spec ty ib pb kb c :
  length ty = 2%nat → length ib = 4%nat → length pb = 2%nat → length kb = 6%nat →
  Forall u8_range ty → Forall u8_range ib → Forall u8_range pb → Forall u8_range kb →
  decode_fields ty ib pb kb = Ok c ↔
  config_wf c ∧ ib = be_bytes 4 (addr_ip c) ∧ pb = le_bytes 2 (addr_port c) ∧
  match obfuscation c with
  | None => ty = [1; 0]
  | Some (ObfXorV2 k) => ty = [3; 0] ∧ ∃ tl, kb = take (len k) (data k) ++ tl ∧ (tl = [] ∨ head tl = Some 0)
  end.
Proof.
  intros Lt Li Lp Lk Ft Fi Fp Fk.
  assert (Ht : ∀ z, 0 ≤ z < 256 → from_le_bytes ty = z ↔ ty = [z; 0]).
  { intros z Hz. rewrite from_le_bytes_iff by (done || (unfold u16_range; lia)). cbn.
    by rewrite Z.mod_small, Z.div_small by lia. }
  pose proof (ipv4_from_range ib Fi Li) as Ri. pose proof (from_le_bytes_range pb Fp Lp) as Rp.
  assert (Hi : ib = be_bytes 4 (ipv4_from ib)) by (by apply ipv4_from_iff).
  assert (Hp : pb = le_bytes 2 (from_le_bytes pb)) by (by apply from_le_bytes_iff).
  unfold decode_fields. cbv zeta. split.
  - destruct (Z.eqb_spec (from_le_bytes ty) 1), (Z.eqb_spec (from_le_bytes pb) 0),
      (Z.eqb_spec (from_le_bytes ty) 2), (Z.eqb_spec (from_le_bytes ty) 3); intros H; try done; try lia.
    + injection H as <-. cbn. rewrite <- Ht by lia. unfold config_wf, u16_range in *. cbn. split_and!; done || lia.
    + apply result_bind_ok in H as (k & Hk & [= <-]). cbn. apply XorKey_try_from_spec in Hk as [Wk Ek]; [|done..].
      rewrite <- Ht by lia. unfold config_wf, u16_range in *. cbn. split_and!; done || lia.
  - destruct c as [a p o]. unfold config_wf. cbn [addr_ip addr_port obfuscation]. intros ((Ra & Rq & Wo) & Ei & Ep & Ho).
    rewrite <- ipv4_from_iff in Ei by done.
    rewrite <- from_le_bytes_iff in Ep by (done || (unfold u16_range; lia)). subst a p.
    destruct o as [[k]|].
    + destruct Ho as [Ety Hk]. rewrite <- Ht in Ety by lia. rewrite Ety. cbn.
      rewrite (proj2 (Z.eqb_neq _ _)) by lia.
      by rewrite (proj2 (XorKey_try_from_spec kb k Fk Lk) (conj Wo Hk)).
    + rewrite <- Ht in Ho by lia. rewrite Ho. cbn. by rewrite (proj2 (Z.eqb_neq _ _)) by lia.
Qed.

(** a DNS record decodes to a proxy configuration exactly when it is the documented
    encoding of that configuration: two octets that are not interpreted, proxy type 1 or
    3, the address, the little-endian port and, for an obfuscated proxy, the key up to
    the first zero octet. Every decoded configuration has a port and, if it is
    obfuscated, a key of one to six octets that are not zero; a configuration that is
    not encoded is an error and no record decodes to two configurations. *)
Theorem proxy_record_decoded (ip : Z) (c : ProxyConfig) :
  ProxyConfig_try_from ip = Ok c ↔ config_wf c ∧ encodes (be_bytes 16 ip) c.
Proof.
  destruct (record_fields (be_bytes 16 ip)) as (hd & ty & ib & pb & kb & E & Lh & Lt & Li & Lp & Lk & Ft & Fi & Fp & Fk).
  { apply length_be_bytes. }
  { unfold be_bytes. apply Forall_rev, le_bytes_range. }
  rewrite (try_from_fields ip hd ty ib pb kb), decode_fields_spec by done. unfold encodes. rewrite E. split.
  - intros (Wc & Ei & Ep & Ho). split; [done|]. destruct (obfuscation c) as [[k]|].
    + destruct Ho as (-> & tl & -> & Ht). exists hd, tl. rewrite <- Ei, <- Ep. done.
    + subst ty. exists hd, kb. rewrite <- Ei, <- Ep. done.
  - intros (Wc & hd' & tl & Lh' & Ho). split; [done|]. destruct (obfuscation c) as [[k]|].
    + destruct Ho as [Ho Ht].
      apply app_inj_1 in Ho as [_ Ho]; [|congruence]. apply app_inj_1 in Ho as [-> Ho]; [|done].
      apply app_inj_1 in Ho as [-> Ho]; [|by rewrite length_be_bytes].
      apply app_inj_1 in Ho as [-> Ho]; [|by rewrite length_le_bytes]. split_and!; eauto.
    + apply app_inj_1 in Ho as [_ Ho]; [|congruence]. apply app_inj_1 in Ho as [-> Ho]; [|done].
      apply app_inj_1 in Ho as [-> Ho]; [|by rewrite length_be_bytes].
      apply app_inj_1 in Ho as [-> Ho]; [|by rewrite length_le_bytes]. split_and!; eauto.
Qed.

(** ** The obfuscated stream

    [mask ks i bytes]: the bytes from position [i] of a stream, each combined with
    the key octet of its position, the key being repeated for ever. *)
Fixpoint mask (ks : list Z) (i : nat) (bytes : list Z) : list Z :=
  match bytes with
  | [] => []
  | b :: bytes => Z.lxor b (ks !!! (i mod length ks)%nat) :: mask ks (S i) bytes
  end.

Lemma mask_app ks i a b : mask ks i (a ++ b) = mask ks i a ++ mask ks (i + length a) b.
Proof.
  revert i; induction a as [|x a IH]; intros i; cbn; [by rewrite Nat.add_0_r|].
  by rewrite IH, Nat.add_succ_r.
Qed.

Lemma mask_mask ks i a : mask ks i (mask ks i a) = a.
Proof.
  revert i; induction a as [|x a IH]; intros i; cbn; [done|].
  by rewrite IH, Z.lxor_assoc, Z.lxor_nilpotent, Z.lxor_0_r.
Qed.

Lemma length_mask ks i a : length (mask ks i a) = length a.
Proof. revert i; induction a; intros; cbn; auto. Qed.

Lemma mask_take ks i n a : take n (mask ks i a) = mask ks i (take n a).
Proof. revert i n; induction a; intros i [|n]; cbn; f_equal; auto. Qed.

Lemma mask_mod ks i a : ks ≠ [] → mask ks (i mod length ks) a = mask ks i a.
Proof.
  intros Hks. assert (length ks ≠ 0%nat) by (by destruct ks).
  revert i; induction a as [|x a IH]; intros i; cbn [mask]; [done|].
  rewrite Nat.Div0.mod_mod. f_equal. rewrite <- IH, <- (IH (S i)). f_equal.
  rewrite <- (Nat.add_1_r (i mod _)), <- (Nat.add_1_r i). apply Nat.Div0.add_mod_idemp_l.
Qed.

Lemma obfuscate_bytes_mask ks i buf :
  ks ≠ [] → (i < length ks)%nat →
  obfuscate_bytes ks i buf = Some (mask ks i buf, ((i + length buf) mod length ks)%nat).
Proof.
  intros Hks. assert (length ks ≠ 0%nat) by (by destruct ks).
  revert i; induction buf as [|b buf IH]; intros i Hi; cbn [obfuscate_bytes mask length].
  - by rewrite Nat.add_0_r, Nat.mod_small.
  - destruct (lookup_lt_is_Some_2 ks (i mod length ks)%nat) as [k Hk]; [by apply Nat.mod_upper_bound|].
    rewrite (list_lookup_total_correct _ _ _ Hk), Hk. cbn.
    rewrite IH by (by apply Nat.mod_upper_bound). cbn.
    by rewrite mask_mod, Nat.add_1_r, Nat.Div0.add_mod_idemp_l, Nat.add_succ_l, Nat.add_succ_r by done.
Qed.

Definition key_octets (k : XorKey) : list Z := take (len k) (data k).

Lemma key_wf_octets k : key_wf k → key_data k = Some (key_octets k) ∧ key_octets k ≠ [].
Proof.
  intros (Hl & ks & Hks & HF & Hd). unfold key_data, key_octets. rewrite Hd, length_app, length_replicate.
  rewrite take_app_length' by done. rewrite (proj2 (Nat.leb_le _ _)) by lia. split; [done|]. by destruct ks; cbn in *; [lia|].
Qed.

(** An obfuscator that has processed [i] bytes. *)
Definition at_position (k : XorKey) (i : nat) : XorObfuscator :=
  {| key := k; key_index := i mod length (key_octets k) |}.

Lemma obfuscate_at k i buf :
  key_wf k →
  obfuscate (at_position k i) buf = Some (mask (key_octets k) i buf, at_position k (i + length buf)).
Proof.
  intros [Hd Hne]%key_wf_octets. unfold obfuscate, at_position. cbn [key key_index]. rewrite Hd. cbn.
  rewrite obfuscate_bytes_mask; [|done|apply Nat.mod_upper_bound; by destruct (key_octets k)]. cbn.
  by rewrite mask_mod, Nat.Div0.add_mod_idemp_l by done.
Qed.

Lemma create_obfuscator_at k : key_wf k → create_obfuscator (ObfXorV2 k) = at_position k 0.
Proof. intros [_ Hne]%key_wf_octets. unfold at_position. rewrite Nat.mod_0_l; [done|]. by destruct (key_octets k). Qed.

(** Forwarding is forwarding in the clear and masking the stream, however the
    source is split into reads. *)
Lemma forward_at k i reads :
  key_wf k →
  ∃ plain r, forward None reads = Some (plain, r) ∧
    forward (Some (at_position k i)) reads = Some (mask (key_octets k) i plain, r).
Proof.
  intros Wk. revert i; induction reads as [|[[[|b bs]|] w] reads IH]; intros i; cbn; [by eauto..| |by eauto].
  rewrite obfuscate_at by done. cbn [mbind option_bind].
  destruct w as [n|].
  - exists (take n (b :: bs)), (Err tt). by rewrite mask_take.
  - destruct (IH (i + length (b :: bs))%nat) as (plain & r & -> & ->). cbn [mbind option_bind].
    exists ((b :: bs) ++ plain), r. by rewrite mask_app.
Qed.

Lemma forward_clear chunks :
  Forall (λ c, c ≠ []) chunks →
  forward None (map (λ c, (Ok c, None)) chunks) = Some (concat chunks, Ok tt).
Proof.
  induction 1 as [|c chunks Hc _ IH]; [done|]. destruct c as [|b c]; [done|].
  cbn. by rewrite IH.
Qed.

(** forwarding through an obfuscated proxy always succeeds, and the bytes that go
    out are the bytes of the source masked with the repeated key, however the source is
    split into reads; another forwarder with the same key that receives them, split in
    any way, gives the original bytes back. The same bytes are lost when a write to the
    sink fails as without obfuscation. *)
Theorem forwarded_stream (k : XorKey) (reads : list (result unit (list Z) * option nat)) :
  key_wf k →
  ∃ plain wire r,
    forward None reads = Some (plain, r) ∧
    forward (Some (create_obfuscator (ObfXorV2 k))) reads = Some (wire, r) ∧
    wire = mask (key_octets k) 0 plain ∧
    ∀ chunks, concat chunks = wire → Forall (λ c, c ≠ []) chunks →
      forward (Some (create_obfuscator (ObfXorV2 k))) (map (λ c, (Ok c, None)) chunks) = Some (plain, Ok tt).
Proof.
  intros Wk. rewrite create_obfuscator_at by done. destruct (forward_at k 0 reads Wk) as (plain & r & E1 & E2).
  exists plain, (mask (key_octets k) 0 plain), r. do 3 (split; [done|]). intros chunks Hc HF.
  destruct (forward_at k 0 (map (λ c, (Ok c, None)) chunks) Wk) as (plain' & r' & E1' & ->).
  rewrite forward_clear in E1' by done. injection E1' as <- <-. by rewrite Hc, mask_mask.
Qed.

(** ** The forwarder as a stream

    A sequence of polls: what the inner stream does at each, the bytes that went
    out on the wire and, for reads, what the caller's buffers hold. *)
Fixpoint poll_writes (f : Forwarder) (calls : list (list Z * Poll (result unit nat))) : option (Forwarder * list Z) :=
  match calls with
  | [] => Some (f, [])
  | (buf, stream) :: calls =>
      '(f, wire, _) ← poll_write f buf stream;
      '(f, rest) ← poll_writes f calls;
      Some (f, wire ++ rest)
  end.

Fixpoint poll_reads (f : Forwarder) (calls : list (list Z)) : option (Forwarder * list Z) :=
  match calls with
  | [] => Some (f, [])
  | received :: calls =>
      '(f, filled, _) ← poll_read f [] (Ready (Ok received));
      '(f, rest) ← poll_reads f calls;
      Some (f, filled ++ rest)
  end.

Lemma poll_writes_whole k i ro bufs :
  key_wf k →
  poll_writes {| read_obfuscator := ro; write_obfuscator := Some (at_position k i) |}
    (map (λ b, (b, Ready (Ok (length b)))) bufs) =
  Some ({| read_obfuscator := ro; write_obfuscator := Some (at_position k (i + length (concat bufs))) |},
        mask (key_octets k) i (concat bufs)).
Proof.
  intros Wk. revert i; induction bufs as [|b bufs IH]; intros i; cbn [map poll_writes concat].
  - by rewrite Nat.add_0_r.
  - unfold poll_write, obfuscate_opt. cbn [write_obfuscator]. rewrite obfuscate_at by done. cbn.
    rewrite IH. cbn. rewrite take_ge by (by rewrite length_mask).
    by rewrite mask_app, length_app, Nat.add_assoc.
Qed.

Lemma poll_reads_fresh k i wo received :
  key_wf k →
  poll_reads {| read_obfuscator := Some (at_position k i); write_obfuscator := wo |} received =
  Some ({| read_obfuscator := Some (at_position k (i + length (concat received))); write_obfuscator := wo |},
        mask (key_octets k) i (concat received)).
Proof.
  intros Wk. revert i; induction received as [|b bufs IH]; intros i; cbn [poll_reads concat].
  - by rewrite Nat.add_0_r.
  - unfold poll_read, obfuscate_opt. cbn [read_obfuscator app]. rewrite obfuscate_at by done. cbn.
    rewrite IH. cbn. by rewrite mask_app, length_app, Nat.add_assoc.
Qed.

(** A key of one octet pair, and a forwarder that uses it. *)
Definition example_key : XorKey := {| data := [1; 2; 0; 0; 0; 0]; len := 2 |}.
Definition example_config : ProxyConfig :=
  {| addr_ip := Ipv4Addr_new 192 168 1 1; addr_port := 443; obfuscation := Some (ObfXorV2 example_key) |}.

Lemma example_key_wf : key_wf example_key.
Proof. split; [cbn; lia|]. exists [1; 2]. cbn. split_and!; [done| |done]. repeat constructor; lia. Qed.

(** used as a byte stream, the forwarder is faithful when the inner stream takes
    each written buffer whole and each read fills an empty buffer: what one end writes
    the other reads, and the obfuscators stay in step. It is not when the inner stream
    takes a part of a buffer (or is not ready) and the caller passes the rest again, and
    not when a read appends to a buffer that already holds data: the key position has
    moved on, or data that was read is masked a second time. *)
Theorem poll_stream (k : XorKey) :
  key_wf k →
  (∀ c bufs received, obfuscation c = Some (ObfXorV2 k) → concat received = mask (key_octets k) 0 (concat bufs) →
     ∃ f f', poll_writes (from_stream c) (map (λ b, (b, Ready (Ok (length b)))) bufs) = Some (f, concat received) ∧
             poll_reads (from_stream c) received = Some (f', concat bufs)) ∧
  (∃ f wire, poll_writes (from_stream example_config) [([10; 20], Ready (Ok 1%nat)); ([20], Ready (Ok 1%nat))] = Some (f, wire) ∧
     mask (key_octets example_key) 0 wire ≠ [10; 20]) ∧
  (∃ f wire, poll_writes (from_stream example_config) [([10], Pending); ([10], Ready (Ok 1%nat))] = Some (f, wire) ∧
     mask (key_octets example_key) 0 wire ≠ [10]) ∧
  ∃ f1 f2 b1 b2, poll_read (from_stream example_config) [] (Ready (Ok [11])) = Some (f1, b1, Ready (Ok tt)) ∧
     poll_read f1 b1 (Ready (Ok [22])) = Some (f2, b2, Ready (Ok tt)) ∧
     b1 = mask (key_octets example_key) 0 [11] ∧ b2 ≠ mask (key_octets example_key) 0 [11; 22].
Proof.
  intros Wk. split_and!.
  - intros c bufs received Hc Hr. unfold from_stream. rewrite Hc, create_obfuscator_at by done.
    rewrite poll_writes_whole, poll_reads_fresh, Hr, mask_mask by done. eauto.
  - eexists _, _. split; [reflexivity|done].
  - eexists _, _. split; [reflexivity|done].
  - eexists _, _, _, _. split_and!; [reflexivity|reflexivity|done|done].
Qed.

Lemma forwarded_stream_witness :
  ∃ plain wire r,
    forward None [(Ok [10; 20; 30], None); (Ok [40], Some O)] = Some (plain, r) ∧
    forward (Some (create_obfuscator (ObfXorV2 example_key))) [(Ok [10; 20; 30], None); (Ok [40], Some O)] = Some (wire, r) ∧
    wire = mask (key_octets example_key) 0 plain ∧
    ∀ chunks, concat chunks = wire → Forall (λ c, c ≠ []) chunks →
      forward (Some (create_obfuscator (ObfXorV2 example_key))) (map (λ c, (Ok c, None)) chunks) = Some (plain, Ok tt).
Proof. exact (forwarded_stream example_key _ example_key_wf). Defined.

Lemma poll_stream_witness :
  ∃ f f', poll_writes (from_stream example_config) [([10; 20], Ready (Ok 2%nat)); ([30], Ready (Ok 1%nat))] = Some (f, [11; 22; 31]) ∧
          poll_reads (from_stream example_config) [[11]; [22; 31]] = Some (f', [10; 20; 30]).
Proof. exact (proj1 (poll_stream example_key example_key_wf) example_config [[10; 20]; [30]] [[11]; [22; 31]] eq_refl eq_refl). Defined.

(** ** The order of the configurations *)

(** The configurations chosen by a sequence of fetches. *)
Fixpoint fetch_run (st : EncryptedDnsProxyState)
    (steps : list (result ResolverError (list ProxyConfig) * (list ProxyConfig → list ProxyConfig))) :
    list (option ProxyConfig) :=
  match steps with
  | [] => []
  | (resolved, order) :: steps =>
      let '(c, st) := fetch_next st resolved order in c :: fetch_run st steps
  end.

(** A fetch that fails, or that answers with the configurations [s] in any order. *)
Definition same_answer (s : list ProxyConfig)
    (step : result ResolverError (list ProxyConfig) * (list ProxyConfig → list ProxyConfig)) : Prop :=
  match step.1 with Ok l => step.2 (remove_dups l) ≡ₚ s | Err _ => True end.

(** What is left to try: everything once everything has been tried. *)
Definition untried (s tried : list ProxyConfig) : list ProxyConfig :=
  match difference s tried with [] => s | d => d end.

Definition obfuscated_first (l : list ProxyConfig) : Prop :=
  ∃ a b, l = a ++ b ∧ Forall (λ c, is_obfuscated c = true) a ∧ Forall (λ c, is_obfuscated c = false) b.

Lemma elem_of_difference c s t : c ∈ difference s t ↔ c ∈ s ∧ c ∉ t.
Proof. unfold difference. rewrite list_elem_of_filter. naive_solver. Qed.

Lemma difference_nil s : difference s [] = s.
Proof. induction s as [|c s IH]; [done|]. unfold difference in *. rewrite filter_cons_True by set_solver. by rewrite IH. Qed.

Lemma difference_pick c s t :
  NoDup s → c ∈ difference s t → c :: difference s (c :: t) ≡ₚ difference s t.
Proof.
  intros Hs Hc. apply NoDup_Permutation.
  - constructor; [|by apply NoDup_filter]. rewrite elem_of_difference. set_solver.
  - by apply NoDup_filter.
  - intros x. rewrite elem_of_cons, !elem_of_difference in *. destruct (decide (x = c)); set_solver.
Qed.

Lemma difference_perm s s' t : s ≡ₚ s' → difference s t ≡ₚ difference s' t.
Proof. intros E. unfold difference. by rewrite E. Qed.

Lemma fetch_configs_state st step s :
  configurations st ≡ₚ s → same_answer s step →
  configurations (fetch_configs st step.1 step.2).2 ≡ₚ s ∧
  tried_configurations (fetch_configs st step.1 step.2).2 = tried_configurations st.
Proof. destruct step as [[l|e] order]; cbn; intros; eauto. Qed.

Lemma next_configuration_pick st s :
  configurations st ≡ₚ s → difference s (tried_configurations st) ≠ [] →
  ∃ c, next_configuration st =
         (Some c, {| configurations := configurations st; tried_configurations := c :: tried_configurations st |}) ∧
       c ∈ difference s (tried_configurations st) ∧
       (is_obfuscated c = true ∨ Forall (λ c, is_obfuscated c = false) (difference s (tried_configurations st))).
Proof.
  intros Es Hne. pose proof (difference_perm _ _ (tried_configurations st) Es) as Ed.
  unfold next_configuration, should_reset.
  destruct (difference (configurations st) (tried_configurations st)) as [|c0 rest] eqn:E.
  { apply Permutation_nil in Ed. congruence. }
  cbn [length Nat.eqb]. rewrite E. eexists. split; [reflexivity|]. rewrite <- Ed.
  destruct (List.find is_obfuscated rest) as [c|] eqn:Ef; cbn.
  - apply find_some in Ef as [Hin Ho]. split; [|by left]. apply list_elem_of_In in Hin. set_solver.
  - split; [set_solver|]. destruct (is_obfuscated c0) eqn:Ho; [by left|]. right. constructor; [done|].
    apply Forall_forall. intros x Hx%list_elem_of_In. by apply (find_none _ _ Ef).
Qed.

Lemma fetch_run_from s st steps :
  NoDup s → configurations st ≡ₚ s → Forall (same_answer s) steps →
  length steps = length (difference s (tried_configurations st)) →
  ∃ picks, fetch_run st steps = map Some picks ∧
    picks ≡ₚ difference s (tried_configurations st) ∧ obfuscated_first picks.
Proof.
  intros Hs. revert st; induction steps as [|step steps IH]; intros st Es HF Hlen.
  - exists []. destruct (difference s _); [|done]. split_and!; [done..|]. by exists [], [].
  - apply Forall_cons in HF as [Ha HF]. destruct (fetch_configs_state st step s Es Ha) as [Es' Et'].
    destruct (next_configuration_pick _ s Es') as (c & Hn & Hc & Ho).
    { intros E. rewrite Et' in E. rewrite E in Hlen. done. }
    rewrite Et' in *. pose proof (difference_pick c s _ Hs Hc) as Hd.
    destruct (IH {| configurations := configurations (fetch_configs st step.1 step.2).2;
                    tried_configurations := c :: tried_configurations st |}) as (picks & Hr & Hp & Hf);
      [done|done| |].
    { cbn. apply Permutation_length in Hd. cbn in Hd, Hlen. lia. }
    cbn in Hp. exists (c :: picks). split_and!.
    + cbn. destruct step as [resolved order]. cbn in *. unfold fetch_next. rewrite Hn, Hr. done.
    + by rewrite Hp.
    + destruct Ho as [Ho|Ho].
      * destruct Hf as (a & b & -> & Fa & Fb). exists (c :: a), b. split_and!; [done|by constructor|done].
      * exists [], (c :: picks). split_and!; [done..|]. by rewrite Hp, Hd.
Qed.

Lemma fetch_configs_reset st resolved order :
  (fetch_configs (reset st) resolved order).2 = reset (fetch_configs st resolved order).2.
Proof. by destruct resolved. Qed.

Lemma next_configuration_reset st :
  should_reset st = true → next_configuration (reset st) = next_configuration st.
Proof. intros H. unfold next_configuration. rewrite H. by destruct (should_reset (reset st)). Qed.

(** As long as the lookups that succeed answer with the same configurations, in any
    order, the choice goes through every configuration that has not been tried (all of
    them once all have been tried) exactly once, those with obfuscation before those
    without, and only then starts over. *)
Theorem configurations_exhausted (s : list ProxyConfig) (st : EncryptedDnsProxyState)
    (steps : list (result ResolverError (list ProxyConfig) * (list ProxyConfig → list ProxyConfig))) :
  NoDup s → configurations st ≡ₚ s → Forall (same_answer s) steps →
  length steps = length (untried s (tried_configurations st)) →
  ∃ picks, fetch_run st steps = map Some picks ∧
    picks ≡ₚ untried s (tried_configurations st) ∧ obfuscated_first picks.
Proof.
  intros Hs Es HF. unfold untried.
  destruct (difference s (tried_configurations st)) as [|c d] eqn:E; [|rewrite <- E; by apply fetch_run_from].
  intros Hlen. assert (Hall : difference s [] = s) by apply difference_nil.
  destruct (fetch_run_from s (reset st) steps) as (picks & Hr & Hp & Hf); [done|done|done|cbn; by rewrite Hall|].
  cbn in Hp. rewrite Hall in Hp. exists picks. split_and!; [|done|done]. rewrite <- Hr.
  destruct steps as [|[resolved order] steps]; [done|]. cbn. apply Forall_cons in HF as [Ha _].
  destruct (fetch_configs_state st (resolved, order) s Es Ha) as [Es1 Et1]. cbn in Es1, Et1.
  unfold fetch_next. rewrite fetch_configs_reset, next_configuration_reset; [done|].
  unfold should_reset. by rewrite Et1, (difference_perm _ _ _ Es1), E.
Qed.

Definition plain_config : ProxyConfig :=
  {| addr_ip := Ipv4Addr_new 192 168 1 2; addr_port := 443; obfuscation := None |}.

Lemma configurations_exhausted_witness :
  ∃ picks,
    fetch_run {| configurations := [plain_config; example_config]; tried_configurations := [] |}
      [(Ok [plain_config; example_config; plain_config], @rev ProxyConfig); (Err Timeout, λ l : list ProxyConfig, l)] = map Some picks ∧
    picks ≡ₚ untried [plain_config; example_config] [] ∧ obfuscated_first picks.
Proof.
  apply (configurations_exhausted [plain_config; example_config]); cbn.
  - apply NoDup_cons. split; [|apply NoDup_singleton]. rewrite list_elem_of_singleton. done.
  - done.
  - repeat constructor.
  - reflexivity.
Defined.

End edns.
