(* ===== verification/AccessMethods.v ===== *)
(** * API access methods (mullvad-types/src/access_method.rs)

    The ways the daemon may reach the API: three built-in methods and the user's
    own proxies, each of which can be switched off.  This file has the settings,
    their operations and the invariant the operations keep.  A UUID is a [Z]; the
    identifier a new method gets is an argument of the operation that creates it. *)

From S2P Require Import Prelude NetTypes.

Inductive BuiltInAccessMethod : Set := Direct | Bridge | EncryptedDnsProxy.

Inductive AccessMethod : Set :=
| BuiltIn (method : BuiltInAccessMethod)
| Custom (config : CustomProxy).

#[global] Instance SocksAuth_eq_dec : EqDecision SocksAuth.
Proof. solve_decision. Defined.
#[global] Instance CustomProxy_eq_dec : EqDecision CustomProxy.
Proof. solve_decision. Defined.
#[global] Instance BuiltInAccessMethod_eq_dec : EqDecision BuiltInAccessMethod.
Proof. solve_decision. Defined.
#[global] Instance AccessMethod_eq_dec : EqDecision AccessMethod.
Proof. solve_decision. Defined.

Record AccessMethodSetting : Set := {
  am_id : Z;
  am_name : string;
  am_enabled : bool;
  access_method : AccessMethod
}.
#[global] Instance AccessMethodSetting_eq_dec : EqDecision AccessMethodSetting.
Proof. solve_decision. Defined.

Inductive AccessMethodError : Set :=
| DuplicateName
| RemoveBuiltin (attempted : BuiltInAccessMethod).

Module access_methods.

Record Settings : Set := {
  direct : AccessMethodSetting;
  mullvad_bridges : AccessMethodSetting;
  encrypted_dns_proxy : AccessMethodSetting;
  custom : list AccessMethodSetting
}.
#[global] Instance Settings_eq_dec : EqDecision Settings.
Proof. solve_decision. Defined.

(** ** One method *)

Definition enable (m : AccessMethodSetting) : AccessMethodSetting :=
  {| am_id := am_id m; am_name := am_name m; am_enabled := true; access_method := access_method m |}.
Definition disabled (m : AccessMethodSetting) : bool := negb (am_enabled m).
Definition as_custom (m : AccessMethodSetting) : option CustomProxy :=
  match access_method m with BuiltIn _ => None | Custom p => Some p end.
Definition is_builtin (m : AccessMethodSetting) : bool :=
  match as_custom m with None => true | Some _ => false end.
Definition is_direct (m : AccessMethodSetting) : bool :=
  match access_method m with BuiltIn Direct => true | _ => false end.

Definition canonical_name (m : BuiltInAccessMethod) : string :=
  match m with
  | Direct => "Direct"
  | Bridge => "Mullvad Bridges"
  | EncryptedDnsProxy => "Encrypted DNS proxy"
  end.

(** ** The settings *)

Definition create_builtin (id : Z) (method : BuiltInAccessMethod) : AccessMethodSetting :=
  {| am_id := id; am_name := canonical_name method; am_enabled := true; access_method := BuiltIn method |}.

(** [Default]: the identifiers are freshly generated. *)
Definition Settings_default (id1 id2 id3 : Z) : Settings :=
  {| direct := create_builtin id1 Direct; mullvad_bridges := create_builtin id2 Bridge;
     encrypted_dns_proxy := create_builtin id3 EncryptedDnsProxy; custom := [] |}.

Definition iter (s : Settings) : list AccessMethodSetting :=
  [direct s; mullvad_bridges s; encrypted_dns_proxy s] ++ custom s.

Definition cardinality (s : Settings) : nat := length (iter s).

Definition with_custom (c : list AccessMethodSetting) (s : Settings) : Settings :=
  {| direct := direct s; mullvad_bridges := mullvad_bridges s;
     encrypted_dns_proxy := encrypted_dns_proxy s; custom := c |}.

(** The assignment through the [i]-th reference [iter_mut] yields. *)
Definition assign (i : nat) (m : AccessMethodSetting) (s : Settings) : Settings :=
  match i with
  | 0 => {| direct := m; mullvad_bridges := mullvad_bridges s;
            encrypted_dns_proxy := encrypted_dns_proxy s; custom := custom s |}
  | 1 => {| direct := direct s; mullvad_bridges := m;
            encrypted_dns_proxy := encrypted_dns_proxy s; custom := custom s |}
  | 2 => {| direct := direct s; mullvad_bridges := mullvad_bridges s;
            encrypted_dns_proxy := m; custom := custom s |}
  | S (S (S i)) => with_custom (<[i := m]> (custom s)) s
  end%nat.

Definition ensure_consistent_state (s : Settings) : Settings :=
  if forallb disabled (iter s) then assign 0 (enable (direct s)) s else s.

Definition check_custom_access_method_name_is_unique (s : Settings) (m : AccessMethodSetting) :
    result AccessMethodError unit :=
  if existsb (λ a, negb (am_id a =? am_id m) && bool_decide (am_name a = am_name m)) (custom s)
  then Err DuplicateName else Ok tt.

Definition append (m : AccessMethodSetting) (s : Settings) : result AccessMethodError Settings :=
  _ ← check_custom_access_method_name_is_unique s m;
  Ok (with_custom (custom s ++ [m]) s).

Definition remove (id : Z) (s : Settings) : result AccessMethodError Settings :=
  match List.find (λ m, am_id m =? id) (custom s) with
  | Some x =>
      match access_method x with
      | BuiltIn built_in => Err (RemoveBuiltin built_in)
      | Custom _ =>
          Ok (ensure_consistent_state
                (with_custom (List.filter (λ m, negb (am_id m =? id)) (custom s)) s))
      end
  | None => Ok s
  end.

(** [iter_mut().find(p)]: the position and the value of the first match. *)
Fixpoint find_from (p : AccessMethodSetting → bool) (i : nat) (l : list AccessMethodSetting) :
    option (nat * AccessMethodSetting) :=
  match l with
  | [] => None
  | m :: l => if p m then Some (i, m) else find_from p (S i) l
  end.
Definition find_indexed (p : AccessMethodSetting → bool) (s : Settings) : option (nat * AccessMethodSetting) :=
  find_from p 0 (iter s).

Definition update (predicate : AccessMethodSetting → bool) (f : AccessMethodSetting → AccessMethodSetting)
    (s : Settings) : result AccessMethodError (bool * Settings) :=
  match find_indexed predicate s with
  | Some (i, access_method) =>
      let new_access_method := f access_method in
      _ ← check_custom_access_method_name_is_unique s new_access_method;
      Ok (true, ensure_consistent_state (assign i new_access_method s))
  | None => Ok (false, ensure_consistent_state s)
  end.

Definition update_builtin (predicate : AccessMethodSetting → bool)
    (f : AccessMethodSetting → AccessMethodSetting) (s : Settings) : bool * Settings :=
  match find_indexed (λ m, is_builtin m && predicate m) s with
  | Some (i, access_method) => (true, assign i (f access_method) s)
  | None => (false, s)
  end.

Definition clear_custom (s : Settings) : Settings := ensure_consistent_state (with_custom [] s).

(** ** What the daemon does with them (mullvad-daemon/src/access_method.rs)

    The closures the daemon passes to the settings store. *)
Inductive Operation : Set :=
| AddAccessMethod (id : Z) (name : string) (enabled : bool) (method : AccessMethod)
| RemoveAccessMethod (id : Z)
| UseApiAccessMethod (id : Z)
| UpdateAccessMethod (m : AccessMethodSetting)
| ClearCustomApiAccessMethods.

Definition operation (op : Operation) (s : Settings) : result AccessMethodError Settings :=
  match op with
  | AddAccessMethod id name enabled method =>
      append {| am_id := id; am_name := name; am_enabled := enabled; access_method := method |} s
  | RemoveAccessMethod id => remove id s
  | UseApiAccessMethod id => r ← update (λ m, am_id m =? id) enable s; Ok r.2
  | UpdateAccessMethod u => r ← update (λ m, am_id m =? am_id u) (λ _, u) s; Ok r.2
  | ClearCustomApiAccessMethods => Ok (clear_custom s)
  end.

(** An operation that fails leaves the settings as they were. *)
Definition perform (s : Settings) (op : Operation) : Settings :=
  match operation op s with Ok s' => s' | Err _ => s end.

(** ** The invariant *)

(** Identifiers are distinct, so are the names of the custom methods, and some
    method is enabled. *)
Definition settings_ok (s : Settings) : Prop :=
  NoDup (map am_id (iter s)) ∧ NoDup (map am_name (custom s)) ∧
  Exists (λ m, am_enabled m = true) (iter s).

(** New identifiers are new. *)
Definition fresh (op : Operation) (s : Settings) : Prop :=
  match op with AddAccessMethod id _ _ _ => id ∉ map am_id (iter s) | _ => True end.

Lemma iter_assign i m s : (i < cardinality s)%nat → iter (assign i m s) = <[i := m]> (iter s).
Proof. unfold cardinality, iter. intros Hi. by do 3 (destruct i as [|i]; [done|]). Qed.

Lemma find_from_spec p i l j m :
  find_from p i l = Some (j, m) →
  ∃ n, j = (i + n)%nat ∧ l !! n = Some m ∧ p m = true ∧ ∀ n' m', (n' < n)%nat → l !! n' = Some m' → p m' = false.
Proof.
  revert i; induction l as [|x l IH]; intros i; cbn; [done|]. destruct (p x) eqn:Hx.
  - intros [= <- <-]. exists O. split_and!; [lia|done|done|]. intros; lia.
  - intros (n & -> & Hn & Hp & Hlt)%IH. exists (S n). split_and!; [lia|done|done|].
    intros [|n'] m' Hn' Hl; cbn in Hl; [congruence|]. apply (Hlt n'); [lia|done].
Qed.

Lemma find_from_None p i l : find_from p i l = None ↔ Forall (λ m, p m = false) l.
Proof.
  revert i; induction l as [|x l IH]; intros i; cbn; [done|]. rewrite Forall_cons.
  destruct (p x); [naive_solver|]. rewrite IH. naive_solver.
Qed.

Lemma find_indexed_spec p s i m :
  find_indexed p s = Some (i, m) → iter s !! i = Some m ∧ p m = true ∧ (i < cardinality s)%nat.
Proof.
  intros (n & -> & Hn & Hp & _)%find_from_spec. split_and!; [done|done|].
  by apply lookup_lt_Some in Hn.
Qed.

Lemma ensure_enabled s : Exists (λ m, am_enabled m = true) (iter (ensure_consistent_state s)).
Proof.
  unfold ensure_consistent_state. destruct (forallb disabled (iter s)) eqn:E; [by left|].
  destruct (decide (Exists (λ m, am_enabled m = true) (iter s))) as [H|H]; [done|].
  exfalso. apply not_true_iff_false in E. apply E, forallb_forall. intros m Hm%list_elem_of_In.
  unfold disabled. destruct (am_enabled m) eqn:He; [|done]. exfalso. apply H, Exists_exists. eauto.
Qed.

(** Re-enabling the direct method changes neither identifiers nor names. *)
Lemma ensure_same s :
  map am_id (iter (ensure_consistent_state s)) = map am_id (iter s) ∧
  custom (ensure_consistent_state s) = custom s.
Proof. unfold ensure_consistent_state. by destruct (forallb _ _). Qed.

Lemma ensure_ok s :
  NoDup (map am_id (iter s)) → NoDup (map am_name (custom s)) → settings_ok (ensure_consistent_state s).
Proof.
  intros Hi Hn. destruct (ensure_same s) as [Ei Ec]. unfold settings_ok. rewrite Ei, Ec.
  split_and!; [done|done|]. apply ensure_enabled.
Qed.

Lemma check_unique s m :
  check_custom_access_method_name_is_unique s m = Ok tt ↔
  ∀ a, a ∈ custom s → am_id a ≠ am_id m → am_name a ≠ am_name m.
Proof.
  unfold check_custom_access_method_name_is_unique. destruct (existsb _ _) eqn:E.
  - split; [done|]. intros H. apply existsb_exists in E as (a & Ha%list_elem_of_In & Hb). bool_to_prop.
    apply Z.eqb_neq in H0. exfalso. by apply (H a).
  - split; [|done]. intros _ a Ha Hid Hn. apply not_true_iff_false in E. apply E, existsb_exists.
    exists a. rewrite <- list_elem_of_In. split; [done|]. apply Z.eqb_neq in Hid. by rewrite Hid, bool_decide_eq_true_2.
Qed.

(** Replacing a method by one with its identifier, whose name no other method has. *)
Lemma NoDup_names_insert j m m' l :
  NoDup (map am_id l) → NoDup (map am_name l) → l !! j = Some m → am_id m' = am_id m →
  (∀ a, a ∈ l → am_id a ≠ am_id m' → am_name a ≠ am_name m') →
  NoDup (map am_name (<[j := m']> l)).
Proof.
  rewrite !NoDup_alt. intros Hi Hn Hj Hid Hu a b x Ha Hb.
  assert (Hother : ∀ c y, c ≠ j → l !! c = Some y → am_name y ≠ am_name m').
  { intros c y Hc Hy. apply Hu; [by apply list_elem_of_lookup_2 in Hy|]. intros E. apply Hc.
    apply (Hi c j (am_id m)); rewrite list_lookup_fmap, ?Hy, ?Hj; cbn; congruence. }
  rewrite list_lookup_fmap in Ha, Hb.
  destruct (decide (a = j)) as [->|Ha'], (decide (b = j)) as [->|Hb']; [done| | |].
  - rewrite list_lookup_insert_ne in Hb by done. rewrite list_lookup_insert_eq in Ha by (by apply lookup_lt_Some in Hj).
    cbn in Ha. apply fmap_Some in Hb as (y & Hy & ->). injection Ha as E. exfalso. by apply (Hother b y).
  - rewrite list_lookup_insert_ne in Ha by done. rewrite list_lookup_insert_eq in Hb by (by apply lookup_lt_Some in Hj).
    cbn in Hb. apply fmap_Some in Ha as (y & Hy & ->). injection Hb as E. exfalso. by apply (Hother a y).
  - rewrite list_lookup_insert_ne in Ha, Hb by done. apply (Hn a b x); by rewrite list_lookup_fmap.
Qed.

Lemma assign_ids i m m' s :
  iter s !! i = Some m → am_id m' = am_id m → map am_id (iter (assign i m' s)) = map am_id (iter s).
Proof.
  intros Hi Hid. rewrite iter_assign by (by apply lookup_lt_Some in Hi).
  change (map am_id) with (fmap (M := list) am_id). rewrite list_fmap_insert. apply list_insert_id.
  by rewrite list_lookup_fmap, Hi, Hid.
Qed.

Lemma assign_names i m m' s :
  NoDup (map am_id (iter s)) → NoDup (map am_name (custom s)) → iter s !! i = Some m → am_id m' = am_id m →
  check_custom_access_method_name_is_unique s m' = Ok tt → NoDup (map am_name (custom (assign i m' s))).
Proof.
  intros Hi Hn Hl Hid Hc. rewrite check_unique in Hc. do 3 (destruct i as [|i]; [done|]). cbn [assign custom with_custom].
  apply (NoDup_names_insert i m); [|done..|done]. unfold iter in Hi. rewrite map_app in Hi.
  by apply NoDup_app in Hi as (_ & _ & ?).
Qed.

Lemma update_ok p f s r :
  settings_ok s → (∀ m, p m = true → am_id (f m) = am_id m) → update p f s = Ok r → settings_ok r.2.
Proof.
  intros (Hi & Hn & _) Hf. unfold update. destruct (find_indexed p s) as [[i m]|] eqn:E.
  - apply find_indexed_spec in E as (Hl & Hp & _).
    intros ([] & Hc & [= <-])%result_bind_ok. apply ensure_ok.
    + by rewrite (assign_ids i m) by auto.
    + by apply (assign_names i m); auto.
  - intros [= <-]. by apply ensure_ok.
Qed.

Lemma append_ok m s s' :
  settings_ok s → am_id m ∉ map am_id (iter s) → append m s = Ok s' → settings_ok s'.
Proof.
  intros (Hi & Hn & He) Hf ([] & Hc & [= <-])%result_bind_ok. rewrite check_unique in Hc.
  assert (E : iter (with_custom (custom s ++ [m]) s) = iter s ++ [m]) by done.
  unfold settings_ok. rewrite E, map_app. cbn [custom with_custom]. rewrite map_app. split_and!.
  - apply NoDup_app. split_and!; [done| |apply NoDup_singleton]. intros x Hx ->%list_elem_of_singleton. done.
  - apply NoDup_app. split_and!; [done| |apply NoDup_singleton]. intros x Hx ->%list_elem_of_singleton.
    apply list_elem_of_fmap in Hx as (a & Hn' & Ha). symmetry in Hn'. apply (Hc a) in Hn'; [done|done|].
    intros Hid. apply Hf. rewrite <- Hid. apply (list_elem_of_fmap_2 am_id). unfold iter. set_solver.
  - apply Exists_app. by left.
Qed.

Lemma NoDup_map_filter {A B} (f : A → B) (p : A → bool) l : NoDup (map f l) → NoDup (map f (List.filter p l)).
Proof.
  induction l as [|x l IH]; cbn; [done|]. intros [Hx Hl]%NoDup_cons. destruct (p x); cbn; [|auto].
  apply NoDup_cons. split; [|auto]. contradict Hx. apply list_elem_of_fmap in Hx as (y & -> & Hy).
  apply list_elem_of_In, filter_In in Hy as [Hy _]. by apply list_elem_of_fmap_2, list_elem_of_In.
Qed.

Lemma with_custom_ids c s :
  NoDup (map am_id (iter s)) → map am_id c ⊆ map am_id (custom s) → NoDup (map am_id c) →
  NoDup (map am_id (iter (with_custom c s))).
Proof.
  unfold iter. cbn [direct mullvad_bridges encrypted_dns_proxy custom with_custom]. rewrite !map_app, !NoDup_app.
  intros (H3 & Hd & _) Hsub Hc. split_and!; [done| |done]. intros x Hx Hx'. by apply (Hd x Hx), Hsub.
Qed.

Lemma remove_ok id s s' : settings_ok s → remove id s = Ok s' → settings_ok s'.
Proof.
  intros (Hi & Hn & He). unfold remove. destruct (List.find _ _) as [x|]; [|by intros [= <-]].
  destruct (access_method x); [done|]. intros [= <-]. apply ensure_ok.
  - apply with_custom_ids; [done| |].
    + intros y Hy. apply list_elem_of_fmap in Hy as (m & -> & Hm). apply list_elem_of_In, filter_In in Hm as [Hm _].
      by apply list_elem_of_fmap_2, list_elem_of_In.
    + apply NoDup_map_filter. unfold iter in Hi. rewrite map_app in Hi. by apply NoDup_app in Hi as (_ & _ & ?).
  - by apply NoDup_map_filter.
Qed.

Lemma clear_ok s : settings_ok s → settings_ok (clear_custom s).
Proof.
  intros (Hi & _ & _). apply ensure_ok; [|constructor].
  apply with_custom_ids; [done|apply list_subseteq_nil|constructor].
Qed.

Lemma operation_ok op s s' : settings_ok s → fresh op s → operation op s = Ok s' → settings_ok s'.
Proof.
  intros Hs Hf. destruct op; cbn in *.
  - by apply append_ok.
  - by apply remove_ok.
  - intros (r & Hr & [= <-])%result_bind_ok. by apply update_ok in Hr.
  - intros (r & Hr & [= <-])%result_bind_ok. apply update_ok in Hr; [done|done|]. intros m' Hm%Z.eqb_eq. done.
  - intros [= <-]. by apply clear_ok.
Qed.

Lemma perform_ok op s : settings_ok s → fresh op s → settings_ok (perform s op).
Proof. intros Hs Hf. unfold perform. destruct (operation op s) eqn:E; [|done]. by apply (operation_ok op s). Qed.

(** Sequences of operations in which every new identifier is new. *)
Fixpoint all_fresh (ops : list Operation) (s : Settings) : Prop :=
  match ops with
  | [] => True
  | op :: ops => fresh op s ∧ all_fresh ops (perform s op)
  end.

Lemma default_ok id1 id2 id3 : NoDup [id1; id2; id3] → settings_ok (Settings_default id1 id2 id3).
Proof. intros H. split_and!; [done|constructor|]. by left. Qed.

Lemma performs_ok ops s : settings_ok s → all_fresh ops s → settings_ok (fold_left perform ops s).
Proof.
  revert s; induction ops as [|op ops IH]; intros s Hs; cbn; [done|]. intros [Hf Ha].
  apply IH; [by apply perform_ok|done].
Qed.

(** What an error says about the settings. *)
Definition error_explained (op : Operation) (s : Settings) (e : AccessMethodError) : Prop :=
  match e with
  | DuplicateName => ∃ a, a ∈ custom s ∧
      match op with
      | AddAccessMethod id name _ _ => am_id a ≠ id ∧ am_name a = name
      | UpdateAccessMethod u => am_id a ≠ am_id u ∧ am_name a = am_name u
      | UseApiAccessMethod id => am_id a ≠ id ∧ ∃ m, m ∈ iter s ∧ am_id m = id ∧ am_name a = am_name m
      | _ => False
      end
  | RemoveBuiltin b => ∃ m, m ∈ custom s ∧ op = RemoveAccessMethod (am_id m) ∧ access_method m = BuiltIn b
  end.

Lemma check_error s m e :
  check_custom_access_method_name_is_unique s m = Err e →
  e = DuplicateName ∧ ∃ a, a ∈ custom s ∧ am_id a ≠ am_id m ∧ am_name a = am_name m.
Proof.
  unfold check_custom_access_method_name_is_unique. destruct (existsb _ _) eqn:E; [|done]. intros [= <-].
  split; [done|]. apply existsb_exists in E as (a & Ha%list_elem_of_In & Hb). bool_to_prop.
  exists a. apply Z.eqb_neq in H. done.
Qed.

Lemma update_error p f s e :
  update p f s = Err e →
  e = DuplicateName ∧ ∃ m a, m ∈ iter s ∧ p m = true ∧ a ∈ custom s ∧ am_id a ≠ am_id (f m) ∧ am_name a = am_name (f m).
Proof.
  unfold update. destruct (find_indexed p s) as [[i m]|] eqn:E; [|done].
  apply find_indexed_spec in E as (Hl & Hp & _). apply list_elem_of_lookup_2 in Hl.
  destruct (check_custom_access_method_name_is_unique s (f m)) as [|e'] eqn:Hc; [done|]. intros [= <-].
  apply check_error in Hc as [-> (a & Ha & Hi & Hn)]. eauto 10.
Qed.

Lemma operation_error op s e : operation op s = Err e → error_explained op s e.
Proof.
  destruct op as [id name en method|id|id|u|]; cbn.
  - unfold append. destruct (check_custom_access_method_name_is_unique _ _) as [|e'] eqn:Hc; [done|].
    intros [= <-]. by apply check_error in Hc as [-> ?].
  - unfold remove. destruct (List.find _ _) as [x|] eqn:E; [|done].
    apply find_some in E as [Hx%list_elem_of_In Hid%Z.eqb_eq].
    destruct (access_method x) eqn:Hm; [|done]. intros [= <-]. cbn. subst id. eauto.
  - destruct (update _ _ _) as [|e'] eqn:Hu; [done|]. intros [= <-].
    apply update_error in Hu as [-> (m & a & Hm & Hp%Z.eqb_eq & Ha & Hi & Hn)]. exists a. cbn in *. subst id. eauto 10.
  - destruct (update _ _ _) as [|e'] eqn:Hu; [done|]. intros [= <-].
    apply update_error in Hu as [-> (m & a & Hm & Hp & Ha & Hi & Hn)]. exists a. cbn in *. eauto.
  - done.
Qed.

Lemma remove_builtin_unchanged s m :
  settings_ok s → m ∈ [direct s; mullvad_bridges s; encrypted_dns_proxy s] → remove (am_id m) s = Ok s.
Proof.
  intros (Hi & _) Hm. unfold remove. destruct (List.find _ _) as [x|] eqn:E; [|done].
  apply find_some in E as [Hx%list_elem_of_In Hid%Z.eqb_eq]. exfalso.
  unfold iter in Hi. rewrite map_app in Hi. apply NoDup_app in Hi as (_ & Hd & _).
  apply (Hd (am_id m)); [by apply (list_elem_of_fmap_2 am_id)|]. rewrite <- Hid. by apply (list_elem_of_fmap_2 am_id).
Qed.

Lemma ensure_keeps m s : m ∈ iter s → am_enabled m = true → m ∈ iter (ensure_consistent_state s).
Proof.
  intros Hm He. unfold ensure_consistent_state. destruct (forallb disabled (iter s)) eqn:E; [|done].
  rewrite forallb_forall in E. apply list_elem_of_In, E in Hm. unfold disabled in Hm. by rewrite He in Hm.
Qed.

Lemma use_enables id s s' :
  id ∈ map am_id (iter s) → operation (UseApiAccessMethod id) s = Ok s' →
  ∃ m, m ∈ iter s' ∧ am_id m = id ∧ am_enabled m = true.
Proof.
  intros Hid (r & Hr & [= <-])%result_bind_ok. revert Hr. unfold update.
  destruct (find_indexed _ s) as [[i m]|] eqn:E.
  - apply find_indexed_spec in E as (Hl & Hp%Z.eqb_eq & Hlt). intros (_ & _ & [= <-])%result_bind_ok.
    exists (enable m). split_and!; [|done|done]. apply ensure_keeps; [|done]. rewrite iter_assign by done.
    by apply list_elem_of_insert.
  - apply find_from_None in E. rewrite Forall_forall in E. intros _.
    apply list_elem_of_fmap in Hid as (m & -> & Hm). specialize (E m Hm). cbn in E. apply Z.eqb_neq in E. done.
Qed.

(** whatever the user does, the API access methods keep distinct identifiers and
    distinct custom names, and at least one method stays enabled; a method that is
    chosen is enabled afterwards. An operation fails only when another custom method has
    the name, or when a method stored as custom is built in. Removing a built-in method
    is accepted and does nothing. Custom methods are not kept from taking the name of a
    built-in one, after which that built-in method can be neither chosen nor changed. *)
Theorem access_methods_consistent (id1 id2 id3 : Z) (ops : list Operation) :
  NoDup [id1; id2; id3] → all_fresh ops (Settings_default id1 id2 id3) →
  let s := fold_left perform ops (Settings_default id1 id2 id3) in
  settings_ok s ∧
  (∀ op e, operation op s = Err e → error_explained op s e) ∧
  (∀ id s', id ∈ map am_id (iter s) → operation (UseApiAccessMethod id) s = Ok s' →
     ∃ m, m ∈ iter s' ∧ am_id m = id ∧ am_enabled m = true) ∧
  (∀ m, m ∈ [direct s; mullvad_bridges s; encrypted_dns_proxy s] → operation (RemoveAccessMethod (am_id m)) s = Ok s) ∧
  ∀ id p, id ≠ id1 →
    let s' := perform (Settings_default id1 id2 id3) (AddAccessMethod id "Direct" true (Custom p)) in
    am_name <$> custom s' = ["Direct"%string] ∧ operation (UseApiAccessMethod id1) s' = Err DuplicateName.
Proof.
  intros Hid Hf s. assert (Hs : settings_ok s) by (apply performs_ok; [by apply default_ok|done]).
  split_and!.
  - done.
  - intros op e. apply operation_error.
  - intros id s'. apply use_enables.
  - intros m Hm. by apply remove_builtin_unchanged.
  - intros id p Hne. split; [done|]. unfold operation, update, find_indexed. cbn.
    rewrite Z.eqb_refl. cbn. unfold check_custom_access_method_name_is_unique. cbn.
    by rewrite (proj2 (Z.eqb_neq _ _) Hne).
Qed.

Definition example_methods : list Operation :=
  [AddAccessMethod 4 "office" true (Custom (Socks5Remote (SockV4 (Ipv4Addr_new 192 0 2 1) 1080) None));
   UpdateAccessMethod {| am_id := 1; am_name := "Direct"; am_enabled := false; access_method := BuiltIn Direct |};
   RemoveAccessMethod 4].

Lemma access_methods_consistent_witness : settings_ok (fold_left perform example_methods (Settings_default 1 2 3)).
Proof.
  apply (access_methods_consistent 1 2 3 example_methods).
  - apply (bool_decide_unpack _). reflexivity.
  - cbn. split_and!; [|done..]. intros H. apply (bool_decide_pack _) in H. exact H.
Defined.

End access_methods.
