(* ===== verification/AccessMode.v ===== *)
(** * Choosing an API access method (mullvad-api/src/access_mode.rs, proxy.rs)

    [AccessModeSelector] is an actor: it holds the access method settings, the
    position of the method in use and how that method resolved, and answers
    messages.  When the REST client cannot reach the API it asks the actor to
    rotate.  Every choice is announced twice: to the REST client, and in a spawned
    task to the daemon, which opens the firewall for it.

    What resolves a method is behind a trait: the class [AccessMethodResolver] has
    its two functions, [LawfulResolver] what the selector relies on.  The selector
    is proved against the classes; ApiResolver.v has the daemon's instance.  The
    build is without the [api-override] feature. *)

From S2P Require Import Prelude NetTypes EncryptedDns AccessMethods.
Import access_methods.

(** ** Connection modes (proxy.rs) *)

Inductive ProxyConfig : Set :=
| PcShadowsocks (endpoint : SocketAddr) (password cipher : string)
| PcSocks5Local (remote_endpoint : Endpoint) (local_port : Z)
| PcSocks5Remote (endpoint : SocketAddr) (auth : option SocksAuth)
| PcEncryptedDnsProxy (proxy : edns.ProxyConfig).

Inductive ApiConnectionMode : Set :=
| ModeDirect
| Proxied (proxy_config : ProxyConfig).

#[global] Instance ProxyConfig_eq_dec : EqDecision ProxyConfig.
Proof. solve_decision. Defined.
#[global] Instance ApiConnectionMode_eq_dec : EqDecision ApiConnectionMode.
Proof. solve_decision. Defined.

Definition ProxyConfig_get_endpoint (c : ProxyConfig) : Endpoint :=
  match c with
  | PcShadowsocks e _ _ => Endpoint_from_socket_address e Tcp
  | PcSocks5Local remote _ => remote
  | PcSocks5Remote e _ => Endpoint_from_socket_address e Tcp
  | PcEncryptedDnsProxy proxy =>
      Endpoint_from_socket_address (SockV4 (edns.addr_ip proxy) (edns.addr_port proxy)) Tcp
  end.

(** [From<CustomProxy>]. *)
Definition ProxyConfig_from (p : CustomProxy) : ProxyConfig :=
  match p with
  | CustomShadowsocks e password cipher => PcShadowsocks e password cipher
  | Socks5Local remote port => PcSocks5Local remote port
  | Socks5Remote e auth => PcSocks5Remote e auth
  end.

Definition get_endpoint (m : ApiConnectionMode) : option Endpoint :=
  match m with
  | ModeDirect => None
  | Proxied proxy_config => Some (ProxyConfig_get_endpoint proxy_config)
  end.

(** The mode in the cache file: [read] is what reading the file gives, [Ok None]
    when it does not parse; the missing file is [None]. *)
Definition try_from_cache (read : option (result unit (option ApiConnectionMode))) : ApiConnectionMode :=
  match read with
  | None => ModeDirect
  | Some (Err _) => ModeDirect
  | Some (Ok None) => ModeDirect
  | Some (Ok (Some mode)) => mode
  end.

(** ** The daemon's endpoint for a mode (mullvad-daemon/src/api.rs) *)

Definition allowed_clients (connection_mode : ApiConnectionMode) : AllowedClients :=
  match connection_mode with
  | Proxied (PcSocks5Local _ _) => All
  | ModeDirect | Proxied _ => Root
  end.

Definition resolve_allowed_endpoint (connection_mode : ApiConnectionMode) (fallback : SocketAddr) : AllowedEndpoint :=
  let endpoint := match get_endpoint connection_mode with
                  | Some endpoint => endpoint
                  | None => Endpoint_from_socket_address fallback Tcp
                  end in
  {| endpoint := endpoint; clients := allowed_clients connection_mode |}.

(** ** Resolving methods *)

Class AccessMethodResolver (B : Type) : Type := {
  resolve_access_method_setting : AccessMethod → B → option (AllowedEndpoint * ApiConnectionMode) * B;
  default_connection_mode : B → AllowedEndpoint
}.

(** Opening the firewall for [e] lets the traffic of the mode through, and lets
    no more clients use it than the mode needs. *)
Definition serves (mode : ApiConnectionMode) (e : AllowedEndpoint) : Prop :=
  clients e = allowed_clients mode ∧
  match get_endpoint mode with
  | Some endpoint' => endpoint e = endpoint'
  | None => protocol (endpoint e) = Tcp
  end.

(** The mode is of the kind the method names. *)
Definition implements (m : AccessMethod) (mode : ApiConnectionMode) : Prop :=
  match m with
  | BuiltIn Direct => mode = ModeDirect
  | BuiltIn Bridge => ∃ e p c, mode = Proxied (PcShadowsocks e p c)
  | BuiltIn EncryptedDnsProxy => ∃ p, mode = Proxied (PcEncryptedDnsProxy p)
  | Custom config => mode = Proxied (ProxyConfig_from config)
  end.

Class LawfulResolver (B : Type) `{AccessMethodResolver B} : Prop := {
  resolve_serves m b b' e mode :
    resolve_access_method_setting m b = (Some (e, mode), b') → serves mode e;
  resolve_implements m b b' e mode :
    resolve_access_method_setting m b = (Some (e, mode), b') → implements m mode;
  default_serves b : serves ModeDirect (default_connection_mode b)
}.

Lemma resolve_allowed_endpoint_serves mode fallback : serves mode (resolve_allowed_endpoint mode fallback).
Proof. split; [done|]. unfold resolve_allowed_endpoint. cbn. by destruct (get_endpoint mode). Qed.

(** ** The selector *)

Record ResolvedConnectionMode : Set := {
  connection_mode : ApiConnectionMode;
  rc_endpoint : AllowedEndpoint;
  setting : AccessMethodSetting
}.

Inductive AccessMethodEvent : Set :=
| New (setting : AccessMethodSetting) (connection_mode : ApiConnectionMode) (endpoint : AllowedEndpoint)
| Allow (endpoint : AllowedEndpoint).

Inductive Message : Set :=
| Get
| Use (id : Z)
| Rotate
| Update (settings : Settings)
| Resolve (setting : AccessMethodSetting).

Inductive Reply : Set :=
| GetReply (current : ResolvedConnectionMode)
| UseReply
| RotateReply (mode : ApiConnectionMode)
| UpdateReply
| ResolveReply (resolved : option ResolvedConnectionMode).

Section Selector.
Context {B : Type} `{AccessMethodResolver B}.

(** The channels to the daemon and to the REST client are the sequences of what
    was put on them: [events] the events of the spawned tasks, [modes] the modes
    announced to the REST client, which starts with [initial]. *)
Record AccessModeSelector : Type := {
  method_resolver : B;
  access_method_settings : Settings;
  current : ResolvedConnectionMode;
  index : nat;
  initial : ApiConnectionMode;
  events : list AccessMethodEvent;
  modes : list ApiConnectionMode
}.

Definition resolve_with_default (method_setting : AccessMethodSetting) (b : B) : ResolvedConnectionMode * B :=
  let '(resolved, b) := resolve_access_method_setting (access_method method_setting) b in
  let '(endpoint, connection_mode) :=
    match resolved with
    | Some resolved => resolved
    | None => (default_connection_mode b, ModeDirect)
    end in
  ({| connection_mode := connection_mode; rc_endpoint := endpoint; setting := method_setting |}, b).

(** [iter().cloned().enumerate().cycle().skip(start).take(cardinality())]: the
    methods from position [start], wrapping around, with their positions. *)
Definition cycle_from (start : nat) (s : Settings) : list (nat * AccessMethodSetting) :=
  map (λ k, let i := ((start + k) mod cardinality s)%nat in (i, nth i (iter s) (direct s)))
    (seq 0 (cardinality s)).

Definition find_next_active (start : nat) (access_methods : Settings) : nat * AccessMethodSetting :=
  default (0%nat, direct access_methods)
    (List.find (λ p, am_enabled p.2) (cycle_from start access_methods)).

Definition spawn (b : B) (settings : Settings) : AccessModeSelector :=
  let '(index, next) := find_next_active 0 settings in
  let '(initial_connection_mode, b) := resolve_with_default next b in
  {| method_resolver := b; access_method_settings := settings; current := initial_connection_mode;
     index := index; initial := connection_mode initial_connection_mode; events := []; modes := [] |}.

(** [set_current] with [notify_connection_mode]. *)
Definition set_current (access_method : AccessMethodSetting) (s : AccessModeSelector) : AccessModeSelector :=
  let '(resolved, b) := resolve_with_default access_method (method_resolver s) in
  {| method_resolver := b; access_method_settings := access_method_settings s; current := resolved;
     index := index s; initial := initial s;
     events := events s ++ [New (setting resolved) (connection_mode resolved) (rc_endpoint resolved)];
     modes := modes s ++ [connection_mode resolved] |}.

Definition with_index (i : nat) (s : AccessModeSelector) : AccessModeSelector :=
  {| method_resolver := method_resolver s; access_method_settings := access_method_settings s;
     current := current s; index := i; initial := initial s; events := events s; modes := modes s |}.
Definition with_settings (v : Settings) (s : AccessModeSelector) : AccessModeSelector :=
  {| method_resolver := method_resolver s; access_method_settings := v;
     current := current s; index := index s; initial := initial s; events := events s; modes := modes s |}.
Definition with_resolver (b : B) (s : AccessModeSelector) : AccessModeSelector :=
  {| method_resolver := b; access_method_settings := access_method_settings s;
     current := current s; index := index s; initial := initial s; events := events s; modes := modes s |}.

Definition use_access_method (id : Z) (s : AccessModeSelector) : AccessModeSelector :=
  match find_indexed (λ m, am_id m =? id) (access_method_settings s) with
  | None => s
  | Some (i, method) => set_current method (with_index i s)
  end.

Definition next_connection_mode (s : AccessModeSelector) : AccessModeSelector :=
  let '(next_index, next) := find_next_active (index s + 1) (access_method_settings s) in
  set_current next (with_index next_index s).

Definition update_access_methods (access_methods : Settings) (s : AccessModeSelector) : AccessModeSelector :=
  let s := with_settings access_methods s in
  match find_indexed (λ m, am_id m =? am_id (setting (current s))) (access_method_settings s) with
  | Some (i, new_current) =>
      let s := with_index i s in
      if decide (setting (current s) = new_current) then s
      else if am_enabled new_current then set_current new_current s
      else next_connection_mode s
  | None => next_connection_mode (with_index (index s - 1) s)
  end.

Definition resolve (method_setting : AccessMethodSetting) (s : AccessModeSelector) :
    option ResolvedConnectionMode * AccessModeSelector :=
  let '(r, b) := resolve_access_method_setting (access_method method_setting) (method_resolver s) in
  ((λ r, {| connection_mode := r.2; rc_endpoint := r.1; setting := method_setting |}) <$> r, with_resolver b s).

(** One turn of the loop in [into_future]: the new state, the reply, and whether
    the loop goes on.  The loop ends when the reply cannot be delivered because
    whoever asked has stopped waiting ([waiting] is false). *)
Definition handle_message (s : AccessModeSelector) (m : Message) (waiting : bool) : AccessModeSelector * Reply * bool :=
  match m with
  | Get => (s, GetReply (current s), waiting)
  | Use id => (use_access_method id s, UseReply, waiting)
  | Rotate => let s := next_connection_mode s in (s, RotateReply (connection_mode (current s)), waiting)
  | Update settings => (update_access_methods settings s, UpdateReply, waiting)
  | Resolve setting => let '(r, s) := resolve setting s in (s, ResolveReply r, waiting)
  end.

(** What happens to a running selector: a message, or a change of what the
    resolver shares with the rest of the daemon (relay list, API address). *)
Inductive Step : Type :=
| MessageStep (m : Message)
| ResolverStep (f : B → B).

Definition step (s : AccessModeSelector) (t : Step) : AccessModeSelector :=
  match t with
  | MessageStep m => (handle_message s m true).1.1
  | ResolverStep f => with_resolver (f (method_resolver s)) s
  end.
End Selector.
Arguments AccessModeSelector B : clear implicits.
Arguments Step B : clear implicits.

(** ** The search for the next method *)

Section Search.
Context (s : Settings).

(** The method at a position of the endless repetition of the list. *)
Definition cyclic (n : nat) : AccessMethodSetting := nth (n mod cardinality s) (iter s) (direct s).

Lemma cardinality_pos : cardinality s ≠ 0%nat.
Proof. done. Qed.

Lemma cyclic_lookup n : iter s !! (n mod cardinality s)%nat = Some (cyclic n).
Proof.
  unfold cyclic. destruct (lookup_lt_is_Some_2 (iter s) (n mod cardinality s)%nat) as [m Hm].
  { apply Nat.mod_upper_bound, cardinality_pos. }
  rewrite Hm. f_equal. symmetry. by apply nth_lookup_Some.
Qed.

Lemma cyclic_small i m : iter s !! i = Some m → cyclic i = m.
Proof.
  intros Hi. pose proof (cyclic_lookup i) as Hc. rewrite Nat.mod_small in Hc by (by apply lookup_lt_Some in Hi). congruence.
Qed.

Definition position_of (start k : nat) : nat * AccessMethodSetting :=
  let i := ((start + k) mod cardinality s)%nat in (i, nth i (iter s) (direct s)).

Lemma find_in_cycle start n0 n i m :
  List.find (λ p, am_enabled p.2) (map (position_of start) (seq n0 n)) = Some (i, m) →
  ∃ k, (n0 ≤ k < n0 + n)%nat ∧ i = ((start + k) mod cardinality s)%nat ∧ m = cyclic (start + k) ∧
    am_enabled m = true ∧ ∀ k', (n0 ≤ k' < k)%nat → am_enabled (cyclic (start + k')) = false.
Proof.
  revert n0; induction n as [|n IH]; intros n0; cbn [seq map List.find]; [done|].
  change (position_of start n0).2 with (cyclic (start + n0)). destruct (am_enabled (cyclic _)) eqn:He.
  - intros E. injection E as <- <-. exists n0. split_and!; [lia|lia|done|done|done|]. lia.
  - intros (k & Hk & -> & -> & Hm & Hlt)%IH. exists k. split_and!; [lia|lia|done|done|done|].
    intros k' Hk'. destruct (decide (k' = n0)) as [->|]; [done|]. apply Hlt. lia.
Qed.

(** Every position of the list comes up in one turn. *)
Lemma cycle_reaches start i :
  (i < cardinality s)%nat → ∃ k, (k < cardinality s)%nat ∧ ((start + k) mod cardinality s = i)%nat.
Proof.
  intros Hi. exists ((i + (cardinality s - start mod cardinality s)) mod cardinality s)%nat.
  split; [apply Nat.mod_upper_bound, cardinality_pos|]. rewrite Nat.Div0.add_mod_idemp_r.
  pose proof (Nat.mod_upper_bound start _ cardinality_pos) as Hb.
  pose proof (Nat.div_mod_eq start (cardinality s)) as Hd.
  replace (start + _)%nat with (i + (start / cardinality s + 1) * cardinality s)%nat by nia.
  rewrite Nat.Div0.mod_add. by apply Nat.mod_small.
Qed.

(** The search stops at the first enabled method from [start] on; only if no
    method is enabled it falls back to the direct one. *)
Lemma find_next_active_spec start :
  let '(i, m) := find_next_active start s in
  (∃ k, (k < cardinality s)%nat ∧ i = ((start + k) mod cardinality s)%nat ∧ m = cyclic (start + k) ∧
        am_enabled m = true ∧ ∀ k', (k' < k)%nat → am_enabled (cyclic (start + k')) = false) ∨
  (i = 0%nat ∧ m = direct s ∧ Forall (λ m, am_enabled m = false) (iter s)).
Proof.
  unfold find_next_active. destruct (List.find _ _) as [[i m]|] eqn:E; cbn [default from_option].
  - left. apply find_in_cycle in E as (k & Hk & Hi & Hm & He & Hlt).
    exists k. split_and!; [lia|done|done|done|]. intros k' Hk'. apply Hlt. lia.
  - right. split_and!; [done|done|]. apply Forall_lookup. intros i m Hi.
    destruct (cycle_reaches start i) as (k & Hk & Hki); [by apply lookup_lt_Some in Hi|].
    apply (find_none _ _ E (i, m)), in_map_iff. exists k. rewrite Hki. split; [|apply in_seq; lia].
    f_equal. by apply nth_lookup_Some.
Qed.

Lemma find_next_active_lookup start i m : find_next_active start s = (i, m) → iter s !! i = Some m.
Proof.
  intros E. pose proof (find_next_active_spec start) as F. rewrite E in F.
  destruct F as [(k & _ & -> & -> & _)|(-> & -> & _)]; [apply cyclic_lookup|done].
Qed.

Lemma find_next_active_enabled start i m :
  find_next_active start s = (i, m) → Exists (λ m, am_enabled m = true) (iter s) → am_enabled m = true.
Proof.
  intros E He. pose proof (find_next_active_spec start) as F. rewrite E in F.
  destruct F as [(k & _ & _ & _ & ? & _)|(_ & _ & HF)]; [done|].
  apply Exists_exists in He as (x & Hx & Hxe). rewrite Forall_forall in HF. specialize (HF x Hx). congruence.
Qed.
End Search.

(** ** The selector keeps in step

    The method in use is the one at the position the selector remembers, its
    endpoint is the one its connection mode needs, the mode is of the kind the
    method names (or direct, when the method could not be resolved), and both the
    daemon and the REST client were told last of this mode. *)
Section Invariant.
Context {B : Type} `{LawfulResolver B}.

Definition announced (e : AccessMethodEvent) (mode : ApiConnectionMode) : Prop :=
  match e with New _ mode' endpoint => mode' = mode ∧ serves mode endpoint | Allow _ => False end.

Definition last_event_ok (s : AccessModeSelector B) : Prop :=
  match last (events s) with
  | None => True
  | Some e => e = New (setting (current s)) (connection_mode (current s)) (rc_endpoint (current s))
  end.

Definition in_step (s : AccessModeSelector B) : Prop :=
  iter (access_method_settings s) !! index s = Some (setting (current s)) ∧
  serves (connection_mode (current s)) (rc_endpoint (current s)) ∧
  (implements (access_method (setting (current s))) (connection_mode (current s)) ∨
   connection_mode (current s) = ModeDirect) ∧
  last (initial s :: modes s) = Some (connection_mode (current s)) ∧
  last_event_ok s ∧ Forall2 announced (events s) (modes s).

Lemma resolve_with_default_spec m b r b' :
  resolve_with_default m b = (r, b') →
  setting r = m ∧ serves (connection_mode r) (rc_endpoint r) ∧
  (implements (access_method m) (connection_mode r) ∨ connection_mode r = ModeDirect).
Proof.
  unfold resolve_with_default. destruct (resolve_access_method_setting _ b) as [[[e mode]|] b1] eqn:E; intros [= <- _]; cbn.
  - split_and!; [done|by eapply resolve_serves|left; by eapply resolve_implements].
  - split_and!; [done|apply default_serves|by right].
Qed.

(** The state after a method has been made the current one at its position. *)
Lemma set_current_in_step s i m :
  Forall2 announced (events s) (modes s) → iter (access_method_settings s) !! i = Some m →
  in_step (set_current m (with_index i s)) ∧ setting (current (set_current m (with_index i s))) = m ∧
  access_method_settings (set_current m (with_index i s)) = access_method_settings s.
Proof.
  intros Ha Hi. unfold set_current, with_index. cbn [method_resolver].
  destruct (resolve_with_default m (method_resolver s)) as [r b] eqn:E.
  apply resolve_with_default_spec in E as (Hr & Hs & Hm). split; [|done].
  unfold in_step, last_event_ok. cbn. rewrite Hr. split_and!; [done|done|done| | |].
  - by rewrite app_comm_cons, last_snoc.
  - by rewrite last_snoc.
  - apply Forall2_app; [done|]. constructor; [|done]. done.
Qed.

Lemma next_connection_mode_in_step s :
  Forall2 announced (events s) (modes s) →
  in_step (next_connection_mode s) ∧
  access_method_settings (next_connection_mode s) = access_method_settings s ∧
  (index (next_connection_mode s), setting (current (next_connection_mode s))) =
    find_next_active (index s + 1) (access_method_settings s).
Proof.
  intros Ha. unfold next_connection_mode.
  destruct (find_next_active (index s + 1) (access_method_settings s)) as [i m] eqn:E.
  destruct (set_current_in_step s i m Ha) as (Hs & Hc & Hse); [by eapply find_next_active_lookup|].
  split_and!; [done|done|]. rewrite Hc. f_equal.
  unfold set_current, with_index. cbn. by destruct (resolve_with_default m (method_resolver s)).
Qed.

Lemma spawn_in_step b settings : in_step (spawn b settings).
Proof.
  unfold spawn. destruct (find_next_active 0 settings) as [i m] eqn:E. apply find_next_active_lookup in E.
  destruct (resolve_with_default m b) as [r b'] eqn:Er. apply resolve_with_default_spec in Er as (Hr & Hs & Hm).
  unfold in_step, last_event_ok. cbn. rewrite Hr. split_and!; done.
Qed.

Lemma update_in_step settings s : in_step s → in_step (update_access_methods settings s).
Proof.
  intros (Hi & Hs & Hm & Hl & He & Ha). unfold update_access_methods.
  destruct (find_indexed _ _) as [[i m]|] eqn:E; cbn [access_method_settings with_settings] in E.
  - apply find_indexed_spec in E as (Hl' & _ & _). destruct (decide _) as [Heq|Hne]; [cbn in Heq; by subst m|].
    destruct (am_enabled m).
    + by apply (set_current_in_step (with_settings settings s)).
    + by apply next_connection_mode_in_step.
  - by apply next_connection_mode_in_step.
Qed.

Lemma step_in_step s t : in_step s → in_step (step s t).
Proof.
  intros Hs. destruct t as [m|f]; [|done]. destruct m as [|id| |settings|m]; cbn.
  - done.
  - unfold use_access_method. destruct (find_indexed _ _) as [[i m]|] eqn:E; [|done].
    apply find_indexed_spec in E as (Hi & _ & _). apply set_current_in_step; [|done]. apply Hs.
  - apply next_connection_mode_in_step, Hs.
  - by apply update_in_step.
  - unfold resolve. by destruct (resolve_access_method_setting _ _).
Qed.

Lemma steps_in_step ts s : in_step s → in_step (fold_left step ts s).
Proof. revert s; induction ts; cbn; auto using step_in_step. Qed.
(** Messages that only name methods to be used: settings with an enabled method,
    and no use of a disabled one. *)
Definition reasonable (t : Step B) (s : AccessModeSelector B) : Prop :=
  match t with
  | MessageStep (Update settings) => Exists (λ m, am_enabled m = true) (iter settings)
  | MessageStep (Use id) =>
      ∀ i m, find_indexed (λ m, am_id m =? id) (access_method_settings s) = Some (i, m) → am_enabled m = true
  | _ => True
  end.

Fixpoint all_reasonable (ts : list (Step B)) (s : AccessModeSelector B) : Prop :=
  match ts with
  | [] => True
  | t :: ts => reasonable t s ∧ all_reasonable ts (step s t)
  end.

Definition enabled_in_use (s : AccessModeSelector B) : Prop :=
  Exists (λ m, am_enabled m = true) (iter (access_method_settings s)) ∧ am_enabled (setting (current s)) = true.

Lemma next_enabled s :
  Forall2 announced (events s) (modes s) → Exists (λ m, am_enabled m = true) (iter (access_method_settings s)) →
  enabled_in_use (next_connection_mode s).
Proof.
  intros Ha He. destruct (next_connection_mode_in_step s Ha) as (_ & Hs & Hf). split; [by rewrite Hs|].
  by eapply find_next_active_enabled.
Qed.

Lemma set_current_enabled s i m :
  Forall2 announced (events s) (modes s) → Exists (λ m, am_enabled m = true) (iter (access_method_settings s)) →
  iter (access_method_settings s) !! i = Some m → am_enabled m = true →
  enabled_in_use (set_current m (with_index i s)).
Proof.
  intros Ha He Hi Hm. destruct (set_current_in_step s i m Ha Hi) as (_ & Hc & Hs).
  split; [by rewrite Hs|by rewrite Hc].
Qed.

Lemma step_enabled s t : in_step s → enabled_in_use s → reasonable t s → enabled_in_use (step s t).
Proof.
  intros Hin [He Hc] Hr. assert (Ha : Forall2 announced (events s) (modes s)) by apply Hin.
  destruct t as [m|f]; [|done]. destruct m as [|id| |settings|m]; cbn in *.
  - done.
  - unfold use_access_method. destruct (find_indexed _ _) as [[i m]|] eqn:E; [|done].
    apply set_current_enabled; [done|done| |by eapply Hr]. by apply find_indexed_spec in E as [? _].
  - by apply next_enabled.
  - unfold update_access_methods. destruct (find_indexed _ _) as [[i m]|] eqn:E; cbn [access_method_settings with_settings] in E.
    + apply find_indexed_spec in E as (Hi & _ & _). destruct (decide _) as [Heq|Hne].
      * split; [done|]. done.
      * destruct (am_enabled m) eqn:Hm; [by apply (set_current_enabled (with_settings settings s))|by apply next_enabled].
    + by apply next_enabled.
  - unfold resolve. by destruct (resolve_access_method_setting _ _).
Qed.

Lemma steps_enabled ts s :
  in_step s → enabled_in_use s → all_reasonable ts s → enabled_in_use (fold_left step ts s).
Proof.
  revert s; induction ts as [|t ts IH]; intros s Hi He; cbn; [done|]. intros [Hr Ha].
  apply IH; [by apply step_in_step|by apply step_enabled|done].
Qed.

Lemma spawn_enabled b settings :
  Exists (λ m, am_enabled m = true) (iter settings) → enabled_in_use (spawn b settings).
Proof.
  intros He. unfold spawn. destruct (find_next_active 0 settings) as [i m] eqn:E.
  apply find_next_active_enabled in E; [|done].
  destruct (resolve_with_default m b) as [r b'] eqn:Er. apply resolve_with_default_spec in Er as (Hr & _ & _).
  split; cbn; [done|by rewrite Hr].
Qed.

(** after any messages, and whatever changes in what the resolver shares with the
    rest of the daemon, the access method in use is the one at the position the selector
    remembers, its firewall endpoint is the one its connection mode needs and admits
    other programs only for a local SOCKS5 proxy, the mode is of the kind the method
    names or direct, and the last announcements to the REST client and to the daemon are
    of this mode. If the settings have an enabled method and no disabled method is asked
    for, the method in use is always enabled. A selector stops for good when a reply
    finds nobody waiting. *)
Theorem selector_in_step (b : B) (settings : Settings) (ts : list (Step B)) :
  let s := fold_left step ts (spawn b settings) in
  in_step s ∧
  (Exists (λ m, am_enabled m = true) (iter settings) → all_reasonable ts (spawn b settings) → enabled_in_use s) ∧
  ∀ m waiting, (handle_message s m waiting).2 = waiting ∧
    match (handle_message s m waiting).1.2 with
    | GetReply r => m = Get ∧ r = current s
    | RotateReply mode => m = Rotate ∧ mode = connection_mode (current (handle_message s m waiting).1.1)
    | ResolveReply (Some r) => m = Resolve (setting r) ∧ serves (connection_mode r) (rc_endpoint r) ∧
        implements (access_method (setting r)) (connection_mode r)
    | _ => True
    end.
Proof.
  intros s. split_and!.
  - apply steps_in_step, spawn_in_step.
  - intros He Hr. apply steps_enabled; [apply spawn_in_step|by apply spawn_enabled|done].
  - intros m waiting. destruct m as [|id| |settings'|m]; cbn; try done. unfold resolve.
    destruct (resolve_access_method_setting _ _) as [[[e mode]|] b'] eqn:E; cbn; [|done].
    split_and!; [done|done|by eapply resolve_serves|by eapply resolve_implements].
Qed.
End Invariant.

(** ** Rotation *)

Section Rotation.
Context {B : Type} `{AccessMethodResolver B}.

Definition rotate (s : AccessModeSelector B) : AccessModeSelector B := (handle_message s Rotate true).1.1.

Lemma rotate_spec s :
  access_method_settings (rotate s) = access_method_settings s ∧
  (index (rotate s), setting (current (rotate s))) = find_next_active (index s + 1) (access_method_settings s).
Proof.
  change (rotate s) with (next_connection_mode s). unfold next_connection_mode.
  destruct (find_next_active (index s + 1) (access_method_settings s)) as [i m].
  unfold set_current, with_index, resolve_with_default. cbn.
  destruct (resolve_access_method_setting _ _) as [[[e mode]|] b]; split; reflexivity.
Qed.

Lemma rotations_reach k s :
  (k < cardinality (access_method_settings s))%nat →
  am_enabled (cyclic (access_method_settings s) (index s + 1 + k)) = true →
  ∃ n, (n ≤ k)%nat ∧
    setting (current (Nat.iter (S n) rotate s)) = cyclic (access_method_settings s) (index s + 1 + k).
Proof.
  revert s; induction (lt_wf k) as [k _ IH]; intros s Hk He. destruct (rotate_spec s) as [Hs Hf].
  pose proof (find_next_active_spec (access_method_settings s) (index s + 1)) as F. rewrite <- Hf in F.
  destruct F as [(k0 & Hk0 & Hi & Hm & _ & Hlt)|(_ & _ & HF)].
  - destruct (Nat.lt_trichotomy k k0) as [Hkk|[->|Hkk]].
    + specialize (Hlt k Hkk). congruence.
    + exists O. split; [lia|done].
    + assert (Hc : cyclic (access_method_settings s) (index (rotate s) + 1 + (k - k0 - 1)) =
                   cyclic (access_method_settings s) (index s + 1 + k)).
      { unfold cyclic. rewrite Hi. f_equal. rewrite <- !Nat.add_assoc, Nat.Div0.add_mod_idemp_l. f_equal. lia. }
      destruct (IH (k - k0 - 1)%nat ltac:(lia) (rotate s)) as (n & Hn & Hr).
      { rewrite Hs. lia. }
      { by rewrite Hs, Hc. }
      exists (S n). split; [lia|]. rewrite Nat.iter_succ_r, Hr, Hs. exact Hc.
  - pose proof (cyclic_lookup (access_method_settings s) (index s + 1 + k)) as Hc.
    rewrite Forall_lookup in HF. specialize (HF _ _ Hc). congruence.
Qed.

(** C28: rotation gives every enabled access method its turn: whatever method is in use,
    after at most as many rotations as there are methods any given enabled method is the
    one in use. *)
Theorem rotation_fair (s : AccessModeSelector B) (i : nat) (m : AccessMethodSetting) :
  iter (access_method_settings s) !! i = Some m → am_enabled m = true →
  ∃ n, (1 ≤ n ≤ cardinality (access_method_settings s))%nat ∧ setting (current (Nat.iter n rotate s)) = m.
Proof.
  intros Hi He.
  destruct (cycle_reaches (access_method_settings s) (index s + 1) i) as (k & Hk & Hki); [by apply lookup_lt_Some in Hi|].
  assert (Hc : cyclic (access_method_settings s) (index s + 1 + k) = m).
  { pose proof (cyclic_lookup (access_method_settings s) (index s + 1 + k)) as Hc. rewrite Hki in Hc. congruence. }
  destruct (rotations_reach k s Hk) as (n & Hn & Hr); [by rewrite Hc|].
  exists (S n). split; [lia|]. by rewrite Hr.
Qed.
End Rotation.
