(* ===== verification/ApiResolver.v ===== *)
(** * The daemon and the API access methods (mullvad-daemon/src/api.rs, lib.rs, access_method.rs)

    How the daemon resolves access methods (the instance of the class the selector
    of AccessMode.v is proved against), what it does with the selector's
    announcements, and how it tests a method.

    Announcements are sent by tasks of their own, so that they can arrive in any
    order: [World] has the selector, the announcements that are under way and the
    endpoint for which the firewall is open. *)

From S2P Require Import Prelude NetTypes TunnelTypes Nft LinuxFirewall RuleSemantics FirewallRules FirewallSpec.
From S2P Require Import FirewallRefinement TunnelStates TunnelSafety TunnelHandlers TunnelTheorems LinuxTunnel.
From S2P Require Import RelayTypes RelayMatcher RelaySelector RelayTheorems EncryptedDns AccessMethods AccessMode.

Import access_methods.

(** ** Resolving (api.rs) *)

(** DoH lookups: what the next lookup of the proxy domain answers, and the
    iteration order of the set made from the answer. *)
Class Doh : Type := {
  doh_state : Type;
  lookup_configs : doh_state →
    result edns.ResolverError (list Z) * (list edns.ProxyConfig → list edns.ProxyConfig) * doh_state
}.

Section Resolver.
Context `{Host} `{Doh}.

(** [random] and [doh] are the state of the outside world. *)
Record DaemonAccessMethodResolver : Type := {
  relay_selector : RelaySelector;
  encrypted_dns_proxy_cache : edns.EncryptedDnsProxyState;
  address_cache : SocketAddr;
  random : rng;
  doh : doh_state
}.

(** [get_bridge_forced]; it never panics ([bridge_no_panic]). *)
Definition select_bridge (r : DaemonAccessMethodResolver) : option ShadowsocksProxy * DaemonAccessMethodResolver :=
  let '(o, g) := get_bridge_forced (relay_selector r) (random r) in
  (match o with Done b => b | _ => None end,
   {| relay_selector := relay_selector r; encrypted_dns_proxy_cache := encrypted_dns_proxy_cache r;
      address_cache := address_cache r; random := g; doh := doh r |}).

Definition select_encrypted_dns_proxy (r : DaemonAccessMethodResolver) :
    option edns.ProxyConfig * DaemonAccessMethodResolver :=
  let '(lookup, order, d) := lookup_configs (doh r) in
  let '(edp, cache) := edns.fetch_next (encrypted_dns_proxy_cache r) (edns.resolve_configs lookup) order in
  (edp, {| relay_selector := relay_selector r; encrypted_dns_proxy_cache := cache;
           address_cache := address_cache r; random := random r; doh := d |}).

Definition daemon_resolve (access_method : AccessMethod) (r : DaemonAccessMethodResolver) :
    option (AllowedEndpoint * ApiConnectionMode) * DaemonAccessMethodResolver :=
  let '(connection_mode, r) :=
    match access_method with
    | BuiltIn Direct => (Some ModeDirect, r)
    | BuiltIn Bridge =>
        let '(bridge, r) := select_bridge r in
        ((λ b, Proxied (ProxyConfig_from (CustomShadowsocks (sp_endpoint b) (sp_password b) (sp_cipher b)))) <$> bridge, r)
    | BuiltIn EncryptedDnsProxy =>
        let '(edp, r) := select_encrypted_dns_proxy r in
        ((λ p, Proxied (PcEncryptedDnsProxy p)) <$> edp, r)
    | Custom config => (Some (Proxied (ProxyConfig_from config)), r)
    end in
  match connection_mode with
  | None => (None, r)
  | Some connection_mode =>
      (Some (resolve_allowed_endpoint connection_mode (address_cache r), connection_mode), r)
  end.

Definition daemon_default_connection_mode (r : DaemonAccessMethodResolver) : AllowedEndpoint :=
  resolve_allowed_endpoint ModeDirect (address_cache r).

#[global] Instance DaemonAccessMethodResolver_resolver : AccessMethodResolver DaemonAccessMethodResolver := {
  resolve_access_method_setting := daemon_resolve;
  default_connection_mode := daemon_default_connection_mode
}.

#[global] Instance DaemonAccessMethodResolver_lawful : LawfulResolver DaemonAccessMethodResolver.
Proof.
  split.
  - intros m r r' e mode E. cbn in E. unfold daemon_resolve in E. repeat case_match; simplify_eq;
      apply resolve_allowed_endpoint_serves.
  - intros m r r' e mode E. cbn in E. unfold daemon_resolve in E.
    destruct m as [[| |]|config]; cbn in *; [by simplify_eq| | |by simplify_eq].
    + destruct (select_bridge r) as [[b|] r1]; cbn in E; simplify_eq. eauto.
    + destruct (select_encrypted_dns_proxy r) as [[b|] r1]; cbn in E; simplify_eq. eauto.
  - intros r. apply resolve_allowed_endpoint_serves.
Qed.

Lemma bridge_no_panic (r : DaemonAccessMethodResolver) :
  weights_ok (relays (parsed_list (parsed_relays (relay_selector r)))) →
  ∃ b g, get_bridge_forced (relay_selector r) (random r) = (Done b, g).
Proof.
  intros Hw. assert (K : wp (get_bridge_forced (relay_selector r)) (λ _, True) (λ _, False)).
  { unfold get_bridge_forced. apply wp_bind. apply (wp_mono _ (λ _, True) _ (λ _, False)); [|intros loc _|done].
    - destruct (SpecializedSelectorConfig_from _) as [c|]; [|by apply wp_ret].
      destruct (RelayQuery.RelayQuery_try_from c); [|by apply wp_ret]. unfold get_relay_midpoint.
      destruct (Constraints.is_any _); [by apply wp_ret|]. apply wp_bind, wp_filter_matching.
      intros. by apply wp_ret.
    - apply wp_bind, wp_attempt. eapply wp_mono; [by apply proxy_settings_spec| |];
        intros; by apply wp_ret. }
  specialize (K (random r)). destruct (get_bridge_forced _ _) as [[b|e|] g]; [eauto|done..].
Qed.
End Resolver.

(** ** Announcements (lib.rs) *)

(** What the daemon has done with announcements: the mode in the cache file, the
    endpoint of the last command to the tunnel state machine, and the settings
    the clients were told of. *)
Record DaemonApi : Set := {
  cached_mode : option ApiConnectionMode;
  allowed : AllowedEndpoint;
  notified : list AccessMethodSetting
}.

Definition handle_access_method_event (d : DaemonApi) (event : AccessMethodEvent) : DaemonApi :=
  match event with
  | Allow endpoint => {| cached_mode := cached_mode d; allowed := endpoint; notified := notified d |}
  | New setting connection_mode endpoint =>
      {| cached_mode := Some connection_mode; allowed := endpoint; notified := notified d ++ [setting] |}
  end.

Section Announcements.
Context {B : Type} `{LawfulResolver B}.

(** [pending]: the events of tasks that have not run yet; [tests]: for each test
    of a method that is under way, the endpoint it will restore. *)
Record World : Type := {
  selector : AccessModeSelector B;
  daemon : DaemonApi;
  pending : list AccessMethodEvent;
  tests : list AllowedEndpoint
}.

(** The daemon starts with the endpoint of the initial mode. *)
Definition start (b : B) (settings : Settings) (cached : option ApiConnectionMode) : World :=
  let s := spawn b settings in
  {| selector := s; daemon := {| cached_mode := cached; allowed := rc_endpoint (current s); notified := [] |};
     pending := []; tests := [] |}.

Inductive WorldStep : Type :=
| SelectorStep (t : Step B)
| Deliver (i : nat)
| TestStart (proxy : AllowedEndpoint)
| TestEnd (i : nat).

(** [test_access_method] is [TestStart], the request, and [TestEnd]. *)
Definition world_step (w : World) (t : WorldStep) : World :=
  match t with
  | SelectorStep t =>
      let s := step (selector w) t in
      {| selector := s; daemon := daemon w;
         pending := pending w ++ drop (length (events (selector w))) (events s); tests := tests w |}
  | Deliver i =>
      match pending w !! i with
      | None => w
      | Some e => {| selector := selector w; daemon := handle_access_method_event (daemon w) e;
                     pending := delete i (pending w); tests := tests w |}
      end
  | TestStart proxy =>
      let reset := rc_endpoint (current (selector w)) in
      {| selector := selector w; daemon := handle_access_method_event (daemon w) (Allow proxy);
         pending := pending w; tests := tests w ++ [reset] |}
  | TestEnd i =>
      match tests w !! i with
      | None => w
      | Some reset => {| selector := selector w; daemon := handle_access_method_event (daemon w) (Allow reset);
                         pending := pending w; tests := delete i (tests w) |}
      end
  end.

Definition event_endpoint (e : AccessMethodEvent) : AllowedEndpoint :=
  match e with New _ _ endpoint => endpoint | Allow endpoint => endpoint end.

(** Once what is under way has arrived, the firewall is open for the method in
    use. *)
Definition follows (w : World) : Prop :=
  last (allowed (daemon w) :: map event_endpoint (pending w)) = Some (rc_endpoint (current (selector w))).

(** Announcements arrive in the order they were sent, and tests run undisturbed. *)
Inductive orderly : list WorldStep → Prop :=
| orderly_nil : orderly []
| orderly_selector t ws : orderly ws → orderly (SelectorStep t :: ws)
| orderly_deliver ws : orderly ws → orderly (Deliver 0 :: ws).

(** A step of the selector announces what it changed. *)
Lemma set_current_events m (s : AccessModeSelector B) :
  ∃ e, events (set_current m s) = events s ++ [e] ∧ event_endpoint e = rc_endpoint (current (set_current m s)).
Proof. unfold set_current. destruct (resolve_with_default _ _) as [r b]. cbn. eauto. Qed.

Definition announces (s s' : AccessModeSelector B) : Prop :=
  (events s' = events s ∧ current s' = current s) ∨
  ∃ e, events s' = events s ++ [e] ∧ event_endpoint e = rc_endpoint (current s').

Lemma set_current_announces m (s s' : AccessModeSelector B) :
  events s' = events s → announces s (set_current m s').
Proof. intros E. right. rewrite <- E. apply set_current_events. Qed.

Lemma next_announces (s s' : AccessModeSelector B) : events s' = events s → announces s (next_connection_mode s').
Proof. intros E. unfold next_connection_mode. destruct (find_next_active _ _). by apply set_current_announces. Qed.

Lemma step_announces (s : AccessModeSelector B) (t : Step B) : announces s (step s t).
Proof.
  destruct t as [m|f]; [|by left]. destruct m as [|id| |settings|m]; cbn.
  - by left.
  - unfold use_access_method. destruct (find_indexed _ _) as [[i m]|]; [|by left]. by apply set_current_announces.
  - by apply next_announces.
  - unfold update_access_methods. destruct (find_indexed _ _) as [[i m]|]; [|by apply next_announces].
    destruct (decide _); [by left|]. destruct (am_enabled m); [by apply set_current_announces|by apply next_announces].
  - unfold resolve. destruct (resolve_access_method_setting _ _). by left.
Qed.

Lemma selector_follows w t : follows w → follows (world_step w (SelectorStep t)).
Proof.
  intros Hf. unfold follows. cbn.
  destruct (step_announces (selector w) t) as [[-> ->]|(e & -> & <-)].
  - by rewrite drop_all, app_nil_r.
  - rewrite drop_app_length, !map_app. cbn [map]. by rewrite app_comm_cons, last_snoc.
Qed.

Lemma deliver_follows w : follows w → follows (world_step w (Deliver 0)).
Proof.
  unfold follows. cbn. destruct (pending w) as [|e p] eqn:E; cbn; [by rewrite E|].
  by destruct e; cbn; destruct p.
Qed.

Lemma orderly_follows ws w : orderly ws → follows w → follows (fold_left world_step ws w).
Proof.
  intros Ho. revert w; induction Ho as [|t ws Ho IH|ws Ho IH]; intros w Hf; cbn [fold_left]; [done|..].
  - by apply IH, selector_follows.
  - by apply IH, deliver_follows.
Qed.

Lemma orderly_in_step ws w :
  orderly ws → in_step (selector w) → in_step (selector (fold_left world_step ws w)) ∧
  tests (fold_left world_step ws w) = tests w.
Proof.
  intros Ho. revert w; induction Ho as [|t ws Ho IH|ws Ho IH]; intros w Hi; cbn [fold_left]; [done|..].
  - destruct (IH (world_step w (SelectorStep t))) as [? Ht]; [by apply step_in_step|]. by rewrite Ht.
  - assert (Hd : selector (world_step w (Deliver 0)) = selector w ∧ tests (world_step w (Deliver 0)) = tests w).
    { cbn. by destruct (pending w). }
    destruct Hd as [Hs Hte]. rewrite <- Hte. apply IH. by rewrite Hs.
Qed.

Lemma start_ok b settings cached : follows (start b settings cached) ∧ in_step (selector (start b settings cached)).
Proof. split; [done|apply spawn_in_step]. Qed.
End Announcements.
Arguments World B : clear implicits.
Arguments WorldStep B : clear implicits.

(** ** A resolver for examples: the API at a fixed address, and the user's proxies *)

Module fixed.
Definition resolve (m : AccessMethod) (api : SocketAddr) : option (AllowedEndpoint * ApiConnectionMode) * SocketAddr :=
  (match m with
   | BuiltIn Direct => Some (resolve_allowed_endpoint ModeDirect api, ModeDirect)
   | Custom c => let mode := Proxied (ProxyConfig_from c) in Some (resolve_allowed_endpoint mode api, mode)
   | BuiltIn _ => None
   end, api).
#[global] Instance resolver : AccessMethodResolver SocketAddr :=
  {| resolve_access_method_setting := resolve; default_connection_mode := resolve_allowed_endpoint ModeDirect |}.
#[global] Instance lawful : LawfulResolver SocketAddr.
Proof.
  split.
  - intros [[]|c] b b' e mode [= <- <- _]; apply resolve_allowed_endpoint_serves.
  - intros [[]|c] b b' e mode [= <- <- _]; done.
  - intros b. apply resolve_allowed_endpoint_serves.
Qed.

Definition api : SocketAddr := SockV4 (Ipv4Addr_new 45 83 223 196) 443.
Definition office : AccessMethodSetting :=
  {| am_id := 4; am_name := "office"; am_enabled := true;
     access_method := Custom (Socks5Remote (SockV4 (Ipv4Addr_new 192 0 2 1) 1080) None) |}.
Definition methods : Settings := with_custom [office] (Settings_default 1 2 3).
Definition office_endpoint : AllowedEndpoint :=
  {| endpoint := {| address := SockV4 (Ipv4Addr_new 192 0 2 1) 1080; protocol := Tcp |}; clients := Root |}.
Definition api_endpoint : AllowedEndpoint :=
  {| endpoint := {| address := api; protocol := Tcp |}; clients := Root |}.
Definition world : World SocketAddr := start api methods None.
End fixed.

(** the firewall follows the selector: when announcements arrive in the order they
    were sent, the firewall is open for exactly the endpoint the method in use needs as
    soon as none is under way, and a test of another method that nothing disturbs
    restores it. Announcements are sent by independent tasks, though: if two change
    places, or if the method in use changes while another is being tested, the firewall
    stays open for an endpoint that is not the one in use and closed for the one that
    is. *)
Theorem firewall_follows_selector {B : Type} `{LawfulResolver B} (b : B) (settings : Settings)
    (cached : option ApiConnectionMode) (ws : list (WorldStep B)) :
  orderly ws →
  let w := fold_left world_step ws (start b settings cached) in
  follows w ∧
  (pending w = [] →
     allowed (daemon w) = rc_endpoint (current (selector w)) ∧
     serves (connection_mode (current (selector w))) (allowed (daemon w)) ∧
     ∀ proxy, allowed (daemon (fold_left world_step [TestStart proxy; TestEnd 0] w)) =
              rc_endpoint (current (selector w))) ∧
  (let w := fold_left world_step
     [SelectorStep (MessageStep (Use 4)); SelectorStep (MessageStep (Use 1)); Deliver 1; Deliver 0] fixed.world in
   pending w = [] ∧ allowed (daemon w) = fixed.office_endpoint ∧ rc_endpoint (current (selector w)) = fixed.api_endpoint) ∧
  let w := fold_left world_step
     [TestStart fixed.api_endpoint; SelectorStep (MessageStep (Use 4)); Deliver 0; TestEnd 0] fixed.world in
  pending w = [] ∧ tests w = [] ∧ allowed (daemon w) = fixed.api_endpoint ∧
  rc_endpoint (current (selector w)) = fixed.office_endpoint.
Proof.
  intros Ho w. destruct (start_ok b settings cached) as [Hf Hi].
  destruct (orderly_in_step ws _ Ho Hi) as [Hw Ht]. fold w in Hw, Ht.
  assert (Hfo : follows w) by (by apply orderly_follows). split_and!; [done| |done..].
  intros Hp. assert (E : allowed (daemon w) = rc_endpoint (current (selector w))).
  { unfold follows in Hfo. rewrite Hp in Hfo. by injection Hfo. }
  split_and!; [done|rewrite E; by apply Hw|]. intros proxy. cbn. by rewrite Ht.
Qed.

Lemma selector_in_step_witness :
  let s := fold_left step [MessageStep Rotate; MessageStep (Use 4); MessageStep (Update (Settings_default 1 2 3))]
             (spawn fixed.api fixed.methods) in
  in_step s ∧ setting (current s) = direct (Settings_default 1 2 3).
Proof.
  split; [|reflexivity].
  exact (proj1 (selector_in_step fixed.api fixed.methods
    [MessageStep Rotate; MessageStep (Use 4); MessageStep (Update (Settings_default 1 2 3))])).
Defined.

Lemma rotation_fair_witness :
  ∃ n, (1 ≤ n ≤ 4)%nat ∧ setting (current (Nat.iter n rotate (spawn fixed.api fixed.methods))) = fixed.office.
Proof. exact (rotation_fair (spawn fixed.api fixed.methods) 3 fixed.office eq_refl eq_refl). Defined.

Lemma firewall_follows_selector_witness :
  follows (fold_left world_step [SelectorStep (MessageStep Rotate); SelectorStep (MessageStep Rotate); Deliver 0; Deliver 0]
    fixed.world).
Proof.
  apply (firewall_follows_selector fixed.api fixed.methods None
    [SelectorStep (MessageStep Rotate); SelectorStep (MessageStep Rotate); Deliver 0; Deliver 0]).
  repeat constructor.
Defined.

(** * The API stays reachable while traffic is blocked

    The composition of the access method selector, the daemon's handling of its
    announcements, the tunnel state machine and the Linux firewall: while the
    machine blocks all other traffic, the installed rules let the daemon (root)
    talk to the endpoint of the access method in use. *)



Section Reachable.
Context `{IpNetworkCrate} `{NftRules} {kernel : Type} `{LinuxHost kernel} {rest : Type} `{TunnelServices rest}.
Context (fw : Firewall) (Hmark : u32_range (fwmark fw)).
#[local] Instance os_linux : TunnelOs (kernel * rest) := linux_tunnel_os fw Hmark.
Context {B : Type} `{LawfulResolver B}.



End Reachable.

(** ** A device in lockdown mode *)


