(* ===== verification/Json.v ===== *)
(** * JSON documents as the settings migrations use them (serde_json)

    [serde_json::Value] without the [preserve_order] feature: an object is a map
    sorted by key.  Reading ([get], [get_mut]) never fails, it yields nothing;
    writing through an index ([v["key"] = x]) turns null into an object, adds the
    key if need be and panics on any other value.

    The decoders are those serde derives: an enum is its tag as a string, or an
    object with the tag as its only key; a structure is an object that has the
    fields, or an array of them. *)

From S2P Require Import Prelude Constraints.
From Stdlib Require Import Ascii.

Unset Elimination Schemes.
Inductive Value : Type :=
| Null
| Bool (b : bool)
| Number (n : Z)
| Float (bits : Z)
| String_ (s : string)
| Array (l : list Value)
| Object (m : list (string * Value)).
Set Elimination Schemes.

(** ** Induction and equality *)

Definition Value_ind (P : Value → Prop) (Hnull : P Null) (Hbool : ∀ b, P (Bool b)) (Hnum : ∀ n, P (Number n))
    (Hfloat : ∀ n, P (Float n)) (Hstr : ∀ s, P (String_ s)) (Harr : ∀ l, Forall P l → P (Array l))
    (Hobj : ∀ m, Forall (λ kv, P kv.2) m → P (Object m)) : ∀ v, P v :=
  fix go v := match v with
  | Null => Hnull
  | Bool b => Hbool b
  | Number n => Hnum n
  | Float n => Hfloat n
  | String_ s => Hstr s
  | Array l => Harr l ((fix all (l : list Value) : Forall P l := match l with
      | [] => Forall_nil_2 _
      | x :: l => Forall_cons_2 _ _ _ (go x) (all l) end) l)
  | Object m => Hobj m ((fix all (m : list (string * Value)) : Forall (λ kv, P kv.2) m := match m with
      | [] => Forall_nil_2 _
      | kv :: m => Forall_cons_2 _ _ _ (go kv.2) (all m) end) m)
  end.

Fixpoint Value_eqb (v w : Value) : bool :=
  match v, w with
  | Null, Null => true
  | Bool a, Bool b => Bool.eqb a b
  | Number a, Number b => a =? b
  | Float a, Float b => a =? b
  | String_ a, String_ b => bool_decide (a = b)
  | Array l, Array k =>
      (fix all l k := match l, k with
        | [], [] => true
        | x :: l, y :: k => Value_eqb x y && all l k
        | _, _ => false end) l k
  | Object l, Object k =>
      (fix all l k := match l, k with
        | [], [] => true
        | (a, x) :: l, (b, y) :: k => bool_decide (a = b) && Value_eqb x y && all l k
        | _, _ => false end) l k
  | _, _ => false
  end.

Lemma Value_eqb_eq v w : Value_eqb v w = true ↔ v = w.
Proof.
  revert w. induction v as [|b|n|n|s|l IH|m IH] using Value_ind; intros [|b'|n'|n'|s'|k|k]; cbn;
    try (split; [done|congruence]).
  - rewrite Bool.eqb_true_iff. split; congruence.
  - rewrite Z.eqb_eq. split; congruence.
  - rewrite Z.eqb_eq. split; congruence.
  - rewrite bool_decide_eq_true. split; congruence.
  - transitivity (l = k); [|split; congruence]. revert k; induction IH as [|x l Hx _ IHl]; intros [|y k]; try done.
    rewrite andb_true_iff, Hx, IHl. split; [by intros [-> ->]|by intros [= -> ->]].
  - transitivity (m = k); [|split; congruence]. revert k; induction IH as [|[a x] l Hx _ IHl]; intros [|[b y] k]; try done.
    rewrite !andb_true_iff, bool_decide_eq_true, IHl. cbn in Hx. rewrite Hx.
    split; [by intros [[-> ->] ->]|by intros [= -> -> ->]].
Qed.
#[global] Instance Value_eq_dec : EqDecision Value.
Proof. intros v w. destruct (Value_eqb v w) eqn:E; [left|right]; rewrite <- Value_eqb_eq; congruence. Defined.

(** ** Objects *)

Abbreviation Map := (list (string * Value)).

Fixpoint map_get (k : string) (m : Map) : option Value :=
  match m with
  | [] => None
  | (k', v) :: m => if decide (k = k') then Some v else map_get k m
  end.

Fixpoint map_insert (k : string) (v : Value) (m : Map) : Map :=
  match m with
  | [] => [(k, v)]
  | (k', v') :: m =>
      match String.compare k k' with
      | Eq => (k, v) :: m
      | Lt => (k, v) :: (k', v') :: m
      | Gt => (k', v') :: map_insert k v m
      end
  end.

Definition map_remove (k : string) (m : Map) : Map := List.filter (λ kv, negb (bool_decide (kv.1 = k))) m.

(** [Map] from pairs: [json!({..})] and the serialization of structures. *)
Definition object (kvs : list (string * Value)) : Value := Object (foldr (λ kv m, map_insert kv.1 kv.2 m) [] kvs).

(** ** Reading *)

Definition get (k : string) (v : Value) : option Value :=
  match v with Object m => map_get k m | _ => None end.

(** [v.get(k1)?.get(k2)?...]. *)
Fixpoint get_path (p : list string) (v : Value) : option Value :=
  match p with
  | [] => Some v
  | k :: p => w ← get k v; get_path p w
  end.

Definition is_null (v : Value) : bool := match v with Null => true | _ => false end.
Definition is_object (v : Value) : bool := match v with Object _ => true | _ => false end.
Definition as_bool (v : Value) : option bool := match v with Bool b => Some b | _ => None end.
Definition as_str (v : Value) : option string := match v with String_ s => Some s | _ => None end.
Definition as_u64 (v : Value) : option Z := match v with Number n => if 0 <=? n then Some n else None | _ => None end.

(** ** Computations that fail or panic *)

Inductive outcome (E A : Type) : Type :=
| Done (a : A)
| Failed (e : E)
| Panicked.
Arguments Done {E A} a.
Arguments Failed {E A} e.
Arguments Panicked {E A}.
#[global] Instance outcome_ret E : MRet (outcome E) := λ A a, Done a.
#[global] Instance outcome_bind E : MBind (outcome E) := λ A B f m,
  match m with Done a => f a | Failed e => Failed e | Panicked => Panicked end.
Definition ok_or {E A} (o : option A) (e : E) : outcome E A :=
  match o with Some a => Done a | None => Failed e end.

Section Writing.
Context {E : Type}.

(** [v[k1][k2]... = f(v[k1][k2]...)] through [IndexMut]. *)
Fixpoint index_update (p : list string) (f : Value → outcome E Value) (v : Value) : outcome E Value :=
  match p with
  | [] => f v
  | k :: p =>
      match v with
      | Null => w ← index_update p f Null; Done (Object (map_insert k w []))
      | Object m =>
          w ← index_update p f (default Null (map_get k m));
          Done (Object (map_insert k w m))
      | _ => Panicked
      end
  end.
Definition index_set (p : list string) (x : Value) : Value → outcome E Value := index_update p (λ _, Done x).

(** [if let Some(x) = v.get_mut(k1)?.get_mut(k2)... { f(x) }]. *)
Fixpoint get_update (p : list string) (f : Value → outcome E Value) (v : Value) : outcome E Value :=
  match p with
  | [] => f v
  | k :: p =>
      match get k v, v with
      | Some w, Object m => w' ← get_update p f w; Done (Object (map_insert k w' m))
      | _, _ => Done v
      end
  end.

(** [v.as_object_mut().ok_or(e)?] with a function of the map. *)
Definition update_object (e : E) (f : Map → outcome E Map) (v : Value) : outcome E Value :=
  match v with Object m => m' ← f m; Done (Object m') | _ => Failed e end.
End Writing.

(** ** Lemmas on objects *)

Lemma String_compare_eq a b : String.compare a b = Eq ↔ a = b.
Proof. split; [apply String.compare_eq_iff|]. intros ->. pose proof (String.compare_antisym b b). by destruct (String.compare b b). Qed.

Lemma map_get_insert k v m : map_get k (map_insert k v m) = Some v.
Proof.
  induction m as [|[k' v'] m IH]; cbn; [by rewrite decide_True|].
  destruct (String.compare k k') eqn:E; cbn; [by rewrite decide_True..|].
  rewrite decide_False; [done|]. intros Hk. apply (proj2 (String_compare_eq _ _)) in Hk. congruence.
Qed.

Lemma map_get_insert_ne k k' v m : k ≠ k' → map_get k' (map_insert k v m) = map_get k' m.
Proof.
  intros Hne. induction m as [|[k1 v1] m IH]; cbn; [by rewrite decide_False|].
  destruct (String.compare k k1) eqn:E; cbn.
  - apply String_compare_eq in E as ->. by rewrite !decide_False by done.
  - by rewrite (decide_False (P := k' = k)) by done.
  - by rewrite IH.
Qed.

Lemma map_get_remove k m : map_get k (map_remove k m) = None.
Proof.
  induction m as [|[k1 v1] m IH]; cbn; [done|]. case_bool_decide as E; cbn; [done|].
  rewrite decide_False; [done|congruence].
Qed.

Lemma map_get_remove_ne k k' m : k ≠ k' → map_get k' (map_remove k m) = map_get k' m.
Proof.
  intros Hne. induction m as [|[k1 v1] m IH]; cbn; [done|]. case_bool_decide as E; cbn.
  - subst. by rewrite decide_False.
  - destruct (decide (k' = k1)); [done|exact IH].
Qed.
