(* ===== verification/Migrations.v ===== *)
(** * Settings migrations (mullvad-daemon/src/migrations)

    The settings file of an older version is brought to the current format by
    eleven steps, each from one version to the next; the account history file is
    migrated on the way.  A step is a function on JSON documents that may fail and
    may panic (an index into something that is not an object).  The build is not
    for Android or Windows; integer arithmetic is that of a release build.

    Text that standard types parse and print (addresses), the current type of
    bridge constraints, whose JSON code is derived, and the parser of the history
    file are the class [Formats].  A file is what it parses to ([Some None]: it
    does not parse). *)

From stdpp Require Import pretty.
From Stdlib Require Import Ascii.
From S2P Require Import Prelude NetTypes Constraints Json.

Class Formats : Type := {
  (* [IpAddr] and [SocketAddr]: parsed and printed again *)
  canonical_ip : string → option string;
  canonical_socket : string → option string;
  (* [BridgeConstraints]: read from a value and written again *)
  canonical_bridge_constraints : Value → option Value;
  (* [Value::to_string] of values that are not strings *)
  display_other : Value → string;
  parse_json : string → option Value
}.

Inductive Error : Set :=
| InvalidSettingsContent
| Read | Deserialize | Serialize | Open | Write | SyncSettings
| ReadHistory | WriteHistory | ParseHistory.

Definition M := outcome Error.

(** ** Encodings *)

Definition any : Value := String_ "any".
Definition only (v : Value) : Value := object [("only"%string, v)].
Definition ser_constraint (c : Constraint Value) : Value := match c with Any => any | Only v => only v end.

Definition de_tag {A} (tags : list (string * A)) (v : Value) : option A :=
  let tag s := snd <$> List.find (λ t, bool_decide (t.1 = s)) tags in
  match v with
  | String_ s => tag s
  | Object [(s, Null)] => tag s
  | _ => None
  end.
Definition de_constraint {A} (f : Value → option A) (v : Value) : option (Constraint A) :=
  match v with
  | Object [(k, x)] => if decide (k = "only"%string) then Only <$> f x else de_tag [("any"%string, Any)] v
  | _ => de_tag [("any"%string, Any)] v
  end.
Definition de_u16 (v : Value) : option Z := n ← as_u64 v; if n <? 2 ^ 16 then Some n else None.
Definition de_protocol : Value → option TransportProtocol := de_tag [("udp"%string, Udp); ("tcp"%string, Tcp)].
Definition ser_protocol (p : TransportProtocol) : Value := String_ (match p with Udp => "udp" | Tcp => "tcp" end).

(** [TransportPort] of versions 4 and 5. *)
Record TransportPort : Set := { tp_protocol : TransportProtocol; tp_port : Constraint Z }.
Definition de_transport_port (v : Value) : option TransportPort :=
  match v with
  | Array [a; b] => p ← de_protocol a; q ← de_constraint de_u16 b; Some {| tp_protocol := p; tp_port := q |}
  | Object _ =>
      a ← get "protocol" v; p ← de_protocol a; b ← get "port" v; q ← de_constraint de_u16 b;
      Some {| tp_protocol := p; tp_port := q |}
  | _ => None
  end.
Definition ser_port (c : Constraint Z) : Value := ser_constraint (constraint_map Number c).
Definition ser_transport_port (t : TransportPort) : Value :=
  object [("protocol"%string, ser_protocol (tp_protocol t)); ("port"%string, ser_port (tp_port t))].

Definition version_is (n : Z) (settings : Value) : bool :=
  match get "settings_version" settings with Some v => bool_decide (as_u64 v = Some n) | None => false end.
Definition set_version (n : Z) : Value → M Value := index_set ["settings_version"%string] (Number n).

(** [SettingsVersion] as versions 10 and 11 read it. *)
Definition version (settings : Value) : option Z :=
  v ← get "settings_version" settings; n ← as_u64 v;
  if (2 <=? n) && (n <=? 12) then Some n else None.

(** ** v1.rs *)

Module v1.
Definition version_matches (settings : Value) : bool :=
  match get "settings_version" settings with None => true | Some _ => false end.

Definition migrate_normal (openvpn_constraints wireguard_constraints : option Value) (normal_settings : Value) : M Value :=
  normal_settings ←
    match openvpn_constraints, wireguard_constraints with
    | Some c, _ =>
        n ← index_set ["openvpn_constraints"%string] c normal_settings;
        index_set ["tunnel_protocol"%string] any n
    | None, Some c =>
        n ← index_set ["wireguard_constraints"%string] c normal_settings;
        index_set ["tunnel_protocol"%string] (only (String_ "wireguard")) n
    | None, None => index_set ["tunnel_protocol"%string] any normal_settings
    end;
  match normal_settings with
  | Object m => Done (Object (map_remove "tunnel" m))
  | v => Done v
  end.

Definition migrate (settings : Value) : M Value :=
  if negb (version_matches settings) then Done settings
  else
    let openvpn_constraints := get_path ["relay_settings"; "normal"; "tunnel"; "only"; "openvpn"]%string settings in
    let wireguard_constraints := get_path ["relay_settings"; "normal"; "tunnel"; "only"; "wireguard"]%string settings in
    settings ← get_update ["relay_settings"; "normal"]%string
                 (migrate_normal openvpn_constraints wireguard_constraints) settings;
    settings ← index_set ["show_beta_releases"%string] (Bool false) settings;
    set_version 2 settings.
End v1.

(** ** v2.rs *)

Module v2.
Definition MIN_ROTATION_INTERVAL : Z := 1 * 24 * 60 * 60.
Definition MAX_ROTATION_INTERVAL : Z := 7 * 24 * 60 * 60.
Definition ser_duration (secs : Z) : Value := object [("secs"%string, Number secs); ("nanos"%string, Number 0)].

Definition new_interval (interval : Z) : Z :=
  let ivl := wrap 64 (60 * 60 * interval) in
  if ivl <? MIN_ROTATION_INTERVAL then MIN_ROTATION_INTERVAL
  else if MAX_ROTATION_INTERVAL <? ivl then MAX_ROTATION_INTERVAL
  else ivl.

Definition migrate (settings : Value) : M Value :=
  if negb (version_is 2 settings) then Done settings
  else
    settings ← (if match get "show_beta_releases" settings with Some v => is_null v | None => false end
                then update_object InvalidSettingsContent (λ m, Done (map_remove "show_beta_releases" m)) settings
                else Done settings);
    let automatic_rotation :=
      v ← get_path ["tunnel_options"; "wireguard"; "automatic_rotation"]%string settings; as_u64 v in
    settings ←
      match automatic_rotation with
      | Some interval =>
          s ← index_set ["tunnel_options"; "wireguard"; "rotation_interval"]%string
                (ser_duration (new_interval interval)) settings;
          index_update ["tunnel_options"; "wireguard"]%string
            (update_object InvalidSettingsContent (λ m, Done (map_remove "automatic_rotation" m))) s
      | None => Done settings
      end;
    set_version 3 settings.
End v2.

(** ** v3.rs *)

Module v3.
Definition ser_dns_options (custom : bool) (addresses : list string) : Value :=
  object [
    ("state"%string, String_ (if custom then "custom" else "default"));
    ("default_options"%string, object [("block_ads"%string, Bool false); ("block_trackers"%string, Bool false)]);
    ("custom_options"%string, object [("addresses"%string, Array (map String_ addresses))])].

Section Migrate.
Context `{Formats}.

Definition de_ip (v : Value) : option string := s ← as_str v; canonical_ip s.
Definition de_ips (v : Value) : option (list string) := match v with Array l => mapM de_ip l | _ => None end.

Definition migrate (settings : Value) : M Value :=
  if negb (version_is 3 settings) then Done settings
  else
    settings ←
      match get_path ["tunnel_options"; "dns_options"]%string settings with
      | Some options =>
          match get "state" options with
          | None =>
              let custom := match get "custom" options with Some c => default false (as_bool c) | None => false end in
              addresses ← match get "addresses" options with
                          | Some addrs => ok_or (de_ips addrs) InvalidSettingsContent
                          | None => Done []
                          end;
              index_set ["tunnel_options"; "dns_options"]%string (ser_dns_options custom addresses) settings
          | Some _ => Done settings
          end
      | None => Done settings
      end;
    set_version 4 settings.
End Migrate.
End v3.

(** ** v4.rs *)

Module v4.
Definition WIREGUARD_TCP_PORTS : list Z := [80; 443; 5001].
Definition OPENVPN_TCP_PORTS : list Z := [80; 443].
Definition wg_protocol_from_port (port : Z) : TransportProtocol :=
  if existsb (Z.eqb port) WIREGUARD_TCP_PORTS then Tcp else Udp.
Definition openvpn_protocol_from_port (port : Z) : TransportProtocol :=
  if existsb (Z.eqb port) OPENVPN_TCP_PORTS then Tcp else Udp.

Definition remove_protocol : Value → M Value :=
  update_object InvalidSettingsContent (λ m, Done (map_remove "protocol" m)).

Definition wireguard_port (constraints : Value) : M Value :=
  port ← match get "port" constraints with
         | Some port => ok_or (de_constraint de_u16 port) InvalidSettingsContent
         | None => Done Any
         end;
  Done (match port with
        | Any => any
        | Only p => only (ser_transport_port {| tp_protocol := wg_protocol_from_port p; tp_port := Only p |})
        end).

Definition openvpn_port (constraints : Value) : M Value :=
  port ← match get "port" constraints with
         | Some port => ok_or (de_constraint de_u16 port) InvalidSettingsContent
         | None => Done Any
         end;
  transport_constraint ← match get "protocol" constraints with
                         | Some protocol => ok_or (de_constraint de_protocol protocol) InvalidSettingsContent
                         | None => Done Any
                         end;
  let port :=
    match port, transport_constraint with
    | Only p, Any => Only {| tp_protocol := openvpn_protocol_from_port p; tp_port := Only p |}
    | port, Only protocol => Only {| tp_protocol := protocol; tp_port := port |}
    | Any, Any => Any
    end in
  Done (ser_constraint (constraint_map ser_transport_port port)).

(** What happens to the constraints of one tunnel protocol. *)
Definition migrate_constraints (key : string) (new_port : Value → M Value) (settings : Value) : M Value :=
  match get_path ["relay_settings"%string; "normal"%string; key] settings with
  | Some constraints =>
      port ← new_port constraints;
      s ← index_set ["relay_settings"%string; "normal"%string; key; "port"%string] port settings;
      index_update ["relay_settings"%string; "normal"%string; key] remove_protocol s
  | None => Done settings
  end.

Definition migrate (settings : Value) : M Value :=
  if negb (version_is 4 settings) then Done settings
  else
    settings ← migrate_constraints "wireguard_constraints" wireguard_port settings;
    settings ← migrate_constraints "openvpn_constraints" openvpn_port settings;
    set_version 5 settings.
End v4.

(** ** v5.rs *)

Module v5.
Record MigrationData : Type := { token : string; wg_data : option Value }.

Definition create_migrated_obfuscation_settings (port : Constraint Z) : Value :=
  object [("selected_obfuscation"%string, String_ "udp2_tcp");
          ("udp2tcp"%string, object [("port"%string, ser_port port)])].

(** The changes to the WireGuard constraints, and the obfuscation settings they
    give rise to. *)
Definition migrate_multihop (wireguard_constraints : Value) : M Value :=
  match get "entry_location" wireguard_constraints, get "use_multihop" wireguard_constraints with
  | Some location, None =>
      if is_null location then
        update_object InvalidSettingsContent (λ m, Done (map_remove "entry_location" m)) wireguard_constraints
      else index_set ["use_multihop"%string] (Bool true) wireguard_constraints
  | _, _ => Done wireguard_constraints
  end.

Definition migrate_port (wireguard_constraints : Value) : M (Value * option Value) :=
  match get "port" wireguard_constraints with
  | Some port =>
      port_constraint ← ok_or (de_constraint de_transport_port port) InvalidSettingsContent;
      match port_constraint with
      | Only transport_port =>
          let '(port, obfuscation_settings) :=
            match tp_protocol transport_port with
            | Udp => (ser_port (tp_port transport_port), None)
            | Tcp => (any, Some (create_migrated_obfuscation_settings (tp_port transport_port)))
            end in
          w ← index_set ["port"%string] port wireguard_constraints;
          Done (w, obfuscation_settings)
      | Any => Done (wireguard_constraints, None)
      end
  | None => Done (wireguard_constraints, None)
  end.

Definition WG : list string := ["relay_settings"; "normal"; "wireguard_constraints"]%string.

Definition migrate_wireguard_constraints (settings : Value) : M Value :=
  match get_path WG settings with
  | Some wireguard_constraints =>
      w ← migrate_multihop wireguard_constraints;
      '(w, obfuscation_settings) ← migrate_port w;
      s ← get_update WG (λ _, Done w) settings;
      match obfuscation_settings with
      | Some o => index_set ["obfuscation_settings"%string] o s
      | None => Done s
      end
  | None => Done settings
  end.

Definition not_null (o : option Value) : option Value :=
  match o with Some v => if is_null v then None else Some v | None => None end.

Definition migrate_account (settings : Value) : M (Value * option MigrationData) :=
  match not_null (get "account_token" settings) with
  | Some token =>
      token ← ok_or (as_str token) InvalidSettingsContent;
      let migration_data := {| token := token; wg_data := not_null (get "wireguard" settings) |} in
      s ← update_object InvalidSettingsContent
            (λ m, Done (map_remove "wireguard" (map_remove "account_token" m))) settings;
      Done (s, Some migration_data)
  | None => Done (settings, None)
  end.

Definition migrate (settings : Value) : M (Value * option MigrationData) :=
  if negb (version_is 5 settings) then Done (settings, None)
  else
    settings ← migrate_wireguard_constraints settings;
    '(settings, migration_data) ← migrate_account settings;
    settings ← set_version 6 settings;
    Done (settings, migration_data).
End v5.

(** ** v6.rs *)

Module v6.
Definition wrap_location (location : Value) : M Value :=
  get_update ["only"%string]
    (λ only,
       o ← index_set ["location"%string] only only;
       update_object InvalidSettingsContent
         (λ m, Done (map_remove "hostname" (map_remove "city" (map_remove "country" m)))) o)
    location.

Definition migrate_location_constraint (settings : Value) : M Value :=
  settings ← get_update ["relay_settings"; "normal"; "location"]%string wrap_location settings;
  settings ← get_update ["relay_settings"; "normal"; "wireguard_constraints"; "entry_location"]%string wrap_location settings;
  get_update ["bridge_settings"; "normal"; "location"]%string wrap_location settings.

Definition migrate_pq_setting (settings : Value) : M Value :=
  get_update ["tunnel_options"; "wireguard"]%string
    (update_object InvalidSettingsContent
       (λ m, Done (match map_get "use_pq_safe_psk" m with
                   | Some psk_setting =>
                       let state := match as_bool psk_setting with Some true => "on" | _ => "auto" end%string in
                       map_insert "quantum_resistant" (String_ state) (map_remove "use_pq_safe_psk" m)
                   | None => m
                   end))) settings.

Definition migrate_udp2tcp_port_443 (settings : Value) : M Value :=
  get_update ["obfuscation_settings"; "udp2tcp"; "port"]%string
    (λ port, Done (if decide (port = only (Number 443)) then any else port)) settings.

Definition migrate (settings : Value) : M Value :=
  if negb (version_is 6 settings) then Done settings
  else
    settings ← migrate_pq_setting settings;
    settings ← migrate_udp2tcp_port_443 settings;
    settings ← migrate_location_constraint settings;
    set_version 7 settings.
End v6.

(** ** v7.rs *)

Module v7.
(** [Value::to_string]: the JSON text.  A string is quoted and escaped. *)
Definition QUOTE : ascii := ascii_of_nat 34.
Definition BACKSLASH : ascii := ascii_of_nat 92.
Definition hex_digit (n : nat) : ascii := ascii_of_nat (if (n <? 10)%nat then 48 + n else 87 + n).
Definition escape_char (c : ascii) : string :=
  let n := nat_of_ascii c in
  let escaped (x : ascii) := String BACKSLASH (String x "") in
  if decide (c = QUOTE) then escaped QUOTE
  else if decide (c = BACKSLASH) then escaped BACKSLASH
  else if (32 <=? n)%nat then String c ""
  else if (n =? 8)%nat then escaped "b"%char
  else if (n =? 9)%nat then escaped "t"%char
  else if (n =? 10)%nat then escaped "n"%char
  else if (n =? 12)%nat then escaped "f"%char
  else if (n =? 13)%nat then escaped "r"%char
  else String BACKSLASH ("u00" ++ String (hex_digit (n / 16)) (String (hex_digit (n mod 16)) "")).
Fixpoint escape (s : string) : string :=
  match s with
  | EmptyString => EmptyString
  | String c s => (escape_char c ++ escape s)%string
  end.

Definition rename_map_field (old_name new_name : string) (object : Map) : M Map :=
  old_value ← ok_or (map_get old_name object) InvalidSettingsContent;
  Done (map_remove old_name (map_insert new_name old_value object)).
Definition rename_field (old_name new_name : string) : Value → M Value :=
  update_object InvalidSettingsContent (rename_map_field old_name new_name).
Definition extract_str (o : option Value) : M string :=
  v ← ok_or o InvalidSettingsContent; ok_or (as_str v) InvalidSettingsContent.

(** *** API access methods *)

Definition replace_socks5 (key : string) (v : Value) (custom : Value) : M Value :=
  c ← index_set [key] v custom;
  update_object InvalidSettingsContent (λ m, Done (map_remove "socks5" m)) c.

Definition migrate_custom_access_method (custom : Value) : M Value :=
  match get "shadowsocks" custom, get_path ["socks5"; "local"]%string custom,
        get_path ["socks5"; "remote"]%string custom with
  | Some _, _, _ => get_update ["shadowsocks"%string] (rename_field "peer" "endpoint") custom
  | None, Some new_socks5_local, _ => replace_socks5 "socks5_local" new_socks5_local custom
  | None, None, Some socks5_remote =>
      r ← rename_field "authentication" "auth" socks5_remote;
      r ← rename_field "peer" "endpoint" r;
      replace_socks5 "socks5_remote" r custom
  | None, None, None => Failed InvalidSettingsContent
  end.

Definition migrate_access_method_setting (setting : Value) : M Value :=
  access_method ← ok_or (get "access_method" setting) InvalidSettingsContent;
  match get "custom" access_method with
  | None => Done setting
  | Some _ => get_update ["access_method"; "custom"]%string migrate_custom_access_method setting
  end.

Fixpoint migrate_list (l : list Value) : M (list Value) :=
  match l with
  | [] => Done []
  | x :: l => x' ← migrate_access_method_setting x; l' ← migrate_list l; Done (x' :: l')
  end.

Definition on_array (f : list Value → M (list Value)) (v : Value) : M Value :=
  match v with Array l => l' ← f l; Done (Array l') | v => Done v end.

Definition built_in (v : Value) : option Value := get_path ["access_method"; "built_in"]%string v.
Definition built_in_key (v : Value) : option (string * Value) :=
  b ← built_in v; s ← as_str b;
  if decide (s = "direct"%string) then Some ("direct"%string, v)
  else if decide (s = "bridge"%string) then Some ("mullvad_bridges"%string, v)
  else None.

(** Steps 1 to 4. *)
Definition separate_built_ins (settings : Map) : M Map :=
  settings ← rename_map_field "access_method_settings" "custom" settings;
  match map_get "custom" settings with
  | Some (Array l) =>
      let built_ins := List.filter (λ v, match built_in v with Some _ => true | None => false end) l in
      let l := foldl (λ l b, List.filter (λ m, negb (bool_decide (get "id" m = get "id" b))) l) l built_ins in
      let settings := map_insert "custom" (Array l) settings in
      Done (foldl (λ m kv, map_insert kv.1 kv.2 m) settings (omap built_in_key built_ins))
  | _ => Done settings
  end.

Definition migrate_api_access_settings (settings : Value) : M Value :=
  settings ← get_update ["api_access_methods"; "access_method_settings"]%string (on_array migrate_list) settings;
  get_update ["api_access_methods"%string]
    (λ v, match v with Object m => m' ← separate_built_ins m; Done (Object m') | v => Done v end) settings.

(** *** Bridge settings *)

Section Bridges.
Context `{Formats}.

Definition value_to_string (v : Value) : string :=
  match v with
  | String_ s => String QUOTE (escape s ++ String QUOTE "")
  | v => display_other v
  end.

Definition default_bridge_constraints : Value :=
  object [("location"%string, any); ("providers"%string, any); ("ownership"%string, any)].
Definition ser_bridge_settings (bridge_type : string) (normal custom : Value) : Value :=
  object [("bridge_type"%string, String_ bridge_type); ("normal"%string, normal); ("custom"%string, custom)].
Definition custom_bridge (tag : string) (v : Value) : Value :=
  ser_bridge_settings "custom" default_bridge_constraints (object [(tag, v)]).

Definition extract_address (o : option Value) : M Value :=
  s ← extract_str o; a ← ok_or (canonical_socket s) InvalidSettingsContent; Done (String_ a).

Definition local_bridge (v : Value) : M Value :=
  address ← extract_address (get "peer" v);
  port ← ok_or (get "port" v) InvalidSettingsContent;
  port ← ok_or (as_u64 port) InvalidSettingsContent;
  port ← (if port <? 2 ^ 16 then Done port else Failed InvalidSettingsContent);
  Done (custom_bridge "socks5_local"
    (object [("remote_endpoint"%string, object [("address"%string, address); ("protocol"%string, ser_protocol Tcp)]);
             ("local_port"%string, Number port)])).

Definition bridge_auth (v : Value) : Value :=
  match (auth ← get "auth" v; username ← get "username" auth; password ← get "password" auth;
         match SocksAuth_new (value_to_string username) (value_to_string password) with
         | Ok a => Some a
         | Err _ => None
         end) with
  | Some a => object [("username"%string, String_ (username a)); ("password"%string, String_ (password a))]
  | None => Null
  end.

Definition remote_bridge (v : Value) : M Value :=
  address ← extract_address (get "address" v);
  Done (custom_bridge "socks5_remote" (object [("endpoint"%string, address); ("auth"%string, bridge_auth v)])).

Definition shadowsocks_bridge (v : Value) : M Value :=
  address ← extract_address (get "peer" v);
  password ← extract_str (get "password" v);
  cipher ← extract_str (get "cipher" v);
  Done (custom_bridge "shadowsocks"
    (object [("endpoint"%string, address); ("password"%string, String_ password); ("cipher"%string, String_ cipher)])).

Definition migrate_bridge_settings (settings : Value) : M Value :=
  let bridge p := get_path ("bridge_settings"%string :: p) settings in
  let write new := index_set ["bridge_settings"%string] new settings in
  match bridge ["custom"; "local"]%string, bridge ["custom"; "remote"]%string,
        bridge ["custom"; "shadowsocks"]%string, bridge ["normal"%string] with
  | Some v, _, _, _ => new ← local_bridge v; write new
  | None, Some v, _, _ => new ← remote_bridge v; write new
  | None, None, Some v, _ => new ← shadowsocks_bridge v; write new
  | None, None, None, Some v =>
      normal ← ok_or (canonical_bridge_constraints v) Serialize;
      write (ser_bridge_settings "normal" normal Null)
  | None, None, None, None => Done settings
  end.

Definition migrate (settings : Value) : M Value :=
  if negb (version_is 7 settings) then Done settings
  else
    settings ← migrate_bridge_settings settings;
    settings ← migrate_api_access_settings settings;
    set_version 8 settings.
End Bridges.
End v7.

(** ** v8.rs *)

Module v8.
Definition migrate_selected_obfuscaton : Value → M Value :=
  get_update ["obfuscation_settings"; "selected_obfuscation"]%string
    (λ v, Done (if decide (v = String_ "off") then String_ "auto" else v)).
Definition migrate (settings : Value) : M Value :=
  if negb (version_is 8 settings) then Done settings
  else settings ← migrate_selected_obfuscaton settings; set_version 9 settings.
End v8.

(** ** v9.rs: only the version changes *)

Module v9.
Definition migrate (settings : Value) : M Value :=
  if negb (version_is 9 settings) then Done settings
  else update_object InvalidSettingsContent (λ m, Done (map_insert "settings_version" (Number 10) m)) settings.
End v9.

(** ** v10.rs *)

Module v10.
Definition HYPHEN : ascii := ascii_of_nat 45.
(** [str::split('-')]. *)
Fixpoint split_hyphen (s : string) : list string :=
  match s with
  | EmptyString => [""%string]
  | String c s =>
      if decide (c = HYPHEN) then ""%string :: split_hyphen s
      else match split_hyphen s with
           | [] => [String c ""]
           | t :: ts => String c t :: ts
           end
  end.

Definition de_tunnel_type : Value → option string :=
  de_tag [("openvpn"%string, "openvpn"%string); ("wireguard"%string, "wireguard"%string)].

Definition protocol_of_hostname (hostname : option Value) : string :=
  match hostname with
  | Some (String_ s) =>
      if existsb (λ token, bool_decide (token = "ovpn"%string)) (split_hyphen s) then "openvpn" else "wireguard"
  | _ => "wireguard"
  end.

Definition migrate_tunnel_type_inner (normal : Value) : M Value :=
  match get "tunnel_protocol" normal with
  | Some (String_ s) =>
      if decide (s = "any"%string) then
        let hostname := get_path ["location"; "only"; "location"; "hostname"]%string normal in
        index_set ["tunnel_protocol"%string] (String_ (protocol_of_hostname hostname)) normal
      else Failed InvalidSettingsContent
  | Some (Object constraint) =>
      match map_get "only" constraint with
      | Some tunnel_type =>
          t ← ok_or (de_tunnel_type tunnel_type) InvalidSettingsContent;
          index_set ["tunnel_protocol"%string] (String_ t) normal
      | None => Failed InvalidSettingsContent
      end
  | Some _ => Failed InvalidSettingsContent
  | None => Done normal
  end.

Definition migrate (settings : Value) : M Value :=
  if negb (bool_decide (version settings = Some 10)) then Done settings
  else
    settings ← get_update ["relay_settings"; "normal"]%string migrate_tunnel_type_inner settings;
    set_version 11 settings.
End v10.

(** ** v11.rs *)

Module v11.
Definition migrate_block_when_disconnected : Value → M Value :=
  update_object InvalidSettingsContent (λ m,
    value ← ok_or (map_get "block_when_disconnected" m) InvalidSettingsContent;
    Done (map_remove "block_when_disconnected" (map_insert "lockdown_mode" value m))).

Definition count (name : string) (names : list string) : nat :=
  length (List.filter (λ n, bool_decide (n = name)) names).
Definition generate_access_method_name_initial_suffix (names : list string) (name : string) : nat :=
  if (1 <? count name names)%nat then (count name names - 1)%nat else 1%nat.

(** Whether a name with a lower index is the same. *)
Definition get_should_rename_api_access_method (names : list string) (name : string) (index : nat) : bool :=
  existsb (λ n, bool_decide (n = name)) (take index names).

Definition suffixed (name : string) (suffix : nat) : string := (name ++ "_" ++ pretty (N.of_nat suffix))%string.

(** The recursion ends: at most [index] names are in its way. *)
Fixpoint generate_access_method_name (fuel : nat) (names : list string) (name : string) (index suffix : nat) : option string :=
  match fuel with
  | O => None
  | S fuel =>
      let generated := suffixed name suffix in
      if get_should_rename_api_access_method names generated index
      then generate_access_method_name fuel names name index (suffix + 1)
      else Some generated
  end.

Definition rename_step (names : list string) (index : nat) : list string :=
  match names !! index with
  | Some name =>
      if get_should_rename_api_access_method names name index then
        let suffix := generate_access_method_name_initial_suffix names name in
        match generate_access_method_name (S index) names name index suffix with
        | Some generated => <[index := generated]> names
        | None => names
        end
      else names
  | None => names
  end.
Definition rename_all (names : list string) : list string := foldl rename_step names (seq 0 (length names)).

(** The names of the custom methods, and writing them back. *)
Definition name_of (v : Value) : option string := n ← get "name" v; as_str n.
Fixpoint write_names (l : list Value) (names : list string) : list Value :=
  match l with
  | [] => []
  | v :: l =>
      match name_of v, v, names with
      | Some _, Object m, n :: names => Object (map_insert "name" (String_ n) m) :: write_names l names
      | _, _, _ => v :: write_names l names
      end
  end.

Definition migrate_duplicated_api_access_method_names (settings : Value) : M Value :=
  if is_object settings then
    get_update ["api_access_methods"; "custom"]%string
      (λ v, match v with Array l => Done (Array (write_names l (rename_all (omap name_of l)))) | v => Done v end) settings
  else Failed InvalidSettingsContent.

Definition migrate (settings : Value) : M Value :=
  if negb (bool_decide (version settings = Some 11)) then Done settings
  else
    settings ← migrate_block_when_disconnected settings;
    settings ← migrate_duplicated_api_access_method_names settings;
    set_version 12 settings.
End v11.

(** ** Account history (account_history.rs) *)

Module account_history.
Definition is_digit (c : ascii) : bool := (48 <=? nat_of_ascii c)%nat && (nat_of_ascii c <=? 57)%nat.
Fixpoint all_digits (s : string) : bool :=
  match s with EmptyString => true | String c s => is_digit c && all_digits s end.
(** [token.is_empty() || ^[0-9]+$]. *)
Definition is_format_v3 (bytes : string) : bool := all_digits bytes.

(** [AccountEntry], as an object or as an array of its fields. *)
Definition de_entry (v : Value) : option (string * Value) :=
  match v with
  | Object _ => a ← get "account" v; account ← as_str a; w ← get "wireguard" v; Some (account, w)
  | Array [a; w] => account ← as_str a; Some (account, w)
  | _ => None
  end.
(** [OldFormat]. *)
Definition de_accounts (v : Value) : option (list string) :=
  let list_of v := match v with Array l => mapM as_str l | _ => None end in
  match v with
  | Object _ => a ← get "accounts" v; list_of a
  | Array [a] => list_of a
  | _ => None
  end.

Section Formats.
Context `{Formats}.
Definition try_format_v2 (bytes : string) : option (option (string * Value)) :=
  v ← parse_json bytes;
  match v with Array l => entries ← mapM de_entry l; Some (head entries) | _ => None end.
Definition try_format_v1 (bytes : string) : option (option string) :=
  v ← parse_json bytes; accounts ← de_accounts v; Some (head accounts).

Definition migrate_formats_inner (bytes : string) (settings : Value) : M (Value * option string) :=
  match try_format_v2 bytes, try_format_v1 bytes with
  | Some (Some (token, wg_data)), _ =>
      s ← index_set ["wireguard"%string] wg_data settings; Done (s, Some token)
  | Some None, _ => Done (settings, None)
  | None, Some token => Done (settings, token)
  | None, None => Failed ParseHistory
  end.
End Formats.
End account_history.

(** ** The whole migration (mod.rs) *)

Section MigrateAll.
Context `{Formats}.

(** The files: the settings (what they parse to), and the account history in the
    settings directory and in the cache directory. *)
Record Disk : Type := {
  settings_file : option (option Value);
  history : option string;
  old_history : option string
}.

(** Which file operations fail: reading the settings; copying the history and
    removing the old one; opening or reading it, truncating, writing and syncing
    it; opening (with truncation), writing and syncing the settings.  An operation
    that fails has no effect, so a file whose writing fails is left empty. *)
Record Faults : Type := {
  f_read : bool; f_copy : bool; f_remove : bool;
  f_read_history : bool; f_truncate_history : bool; f_write_history : bool; f_sync_history : bool;
  f_open : bool; f_write : bool; f_sync : bool
}.

Definition with_history (h o : option string) (d : Disk) : Disk :=
  {| settings_file := settings_file d; history := h; old_history := o |}.
Definition with_settings_file (s : option (option Value)) (d : Disk) : Disk :=
  {| settings_file := s; history := history d; old_history := old_history d |}.

Definition migrate_location (f : Faults) (d : Disk) : Disk :=
  match old_history d, history d with
  | Some h, None => if f_copy f then d else with_history (Some h) (if f_remove f then Some h else None) d
  | _, _ => d
  end.

Definition write_format_v3 (f : Faults) (d : Disk) (token : option string) : M unit * Disk :=
  if f_truncate_history f then (Failed WriteHistory, d)
  else match token with
       | Some token =>
           if f_write_history f then (Failed WriteHistory, with_history (Some "") (old_history d) d)
           else (if f_sync_history f then Failed WriteHistory else Done (), with_history (Some token) (old_history d) d)
       | None => (if f_sync_history f then Failed WriteHistory else Done (), with_history (Some "") (old_history d) d)
       end.

Definition migrate_formats (f : Faults) (d : Disk) (settings : Value) : M Value * Disk :=
  match history d with
  | None => (Done settings, d)
  | Some bytes =>
      if f_read_history f then (Failed ReadHistory, d)
      else if account_history.is_format_v3 bytes then (Done settings, d)
      else match account_history.migrate_formats_inner bytes settings with
           | Done (s, token) => let '(r, d) := write_format_v3 f d token in (r ≫= λ _, Done s, d)
           | Failed e => (Failed e, d)
           | Panicked => (Panicked, d)
           end
  end.

(** The steps before and after the account history. *)
Definition migrate_early (settings : Value) : M Value :=
  s ← v1.migrate settings; s ← v2.migrate s; s ← v3.migrate s; v4.migrate s.
Definition migrate_late (settings : Value) : M (Value * option v5.MigrationData) :=
  '(s, migration_data) ← v5.migrate settings;
  s ← v6.migrate s; s ← v7.migrate s; s ← v8.migrate s; s ← v9.migrate s;
  s ← v10.migrate s; s ← v11.migrate s;
  Done (s, migration_data).

Definition migrate_settings (f : Faults) (d : Disk) (settings : Value) : M (Value * option v5.MigrationData) * Disk :=
  if negb (is_object settings) then (Failed InvalidSettingsContent, d)
  else
    match migrate_early settings with
    | Done s =>
        match migrate_formats f (migrate_location f d) s with
        | (Done s, d) => (migrate_late s, d)
        | (Failed e, d) => (Failed e, d)
        | (Panicked, d) => (Panicked, d)
        end
    | Failed e => (Failed e, d)
    | Panicked => (Panicked, d)
    end.

Definition migrate_all (f : Faults) (d : Disk) : M (option v5.MigrationData) * Disk :=
  match settings_file d with
  | None => (Done None, d)
  | Some contents =>
      if f_read f then (Failed Read, d)
      else match contents with
           | None => (Failed Deserialize, d)
           | Some old_settings =>
               match migrate_settings f d old_settings with
               | (Failed e, d) => (Failed e, d)
               | (Panicked, d) => (Panicked, d)
               | (Done (settings, migration_data), d) =>
                   if decide (settings = old_settings) then (Done migration_data, d)
                   else if f_open f then (Failed Open, d)
                   else if f_write f then (Failed Write, with_settings_file (Some None) d)
                   else
                     let d := with_settings_file (Some (Some settings)) d in
                     if f_sync f then (Failed SyncSettings, d) else (Done migration_data, d)
               end
           end
  end.
End MigrateAll.
