(* ===== verification/MigrationSteps.v ===== *)
(** * Lemmas on the steps of the settings migrations

    Every step keeps the keys it does not mean to change and advances the version
    by one; the steps compose.  The lemmas on the writing primitives say which keys
    a write can change. *)

From stdpp Require Import pretty.
From Stdlib Require Import Ascii.
From S2P Require Import Prelude NetTypes Constraints Json Migrations.

(** ** Frames

    [frames T f]: [f] keeps objects objects and changes only the keys in [T]. *)
Definition frame (T : list string) (s s' : Value) : Prop :=
  is_object s' = true ∧ ∀ k, k ∉ T → get k s' = get k s.
Definition frames (T : list string) (f : Value → M Value) : Prop :=
  ∀ s s', is_object s = true → f s = Done s' → frame T s s'.

Lemma outcome_bind_done {E A B} (m : outcome E A) (f : A → outcome E B) b :
  m ≫= f = Done b ↔ ∃ a, m = Done a ∧ f a = Done b.
Proof. destruct m; cbn; naive_solver. Qed.

Lemma frame_refl T s : is_object s = true → frame T s s.
Proof. by split. Qed.
Lemma frame_trans T s1 s2 s3 : frame T s1 s2 → frame T s2 s3 → frame T s1 s3.
Proof. intros [_ H1] [Ho H2]. split; [done|]. intros k Hk. by rewrite H2, H1. Qed.
Lemma frame_mono T T' s s' : T ⊆ T' → frame T s s' → frame T' s s'.
Proof. intros Hs [Ho H1]. split; [done|]. intros k Hk. apply H1. set_solver. Qed.

Lemma frames_bind T f g : frames T f → frames T g → frames T (λ s, s' ← f s; g s').
Proof.
  intros Hf Hg s s' Ho (s1 & H1 & H2)%outcome_bind_done. pose proof (Hf _ _ Ho H1) as F1.
  eapply frame_trans; [done|]. apply (Hg s1); [apply F1|done].
Qed.

Lemma frame_insert T k v m : k ∈ T → frame T (Object m) (Object (map_insert k v m)).
Proof. intros Hk. split; [done|]. intros k' Hk'. apply map_get_insert_ne. set_solver. Qed.
Lemma frame_remove T k m : k ∈ T → frame T (Object m) (Object (map_remove k m)).
Proof. intros Hk. split; [done|]. intros k' Hk'. apply map_get_remove_ne. set_solver. Qed.

Lemma frame_insert_r T k v s m : k ∈ T → frame T s (Object m) → frame T s (Object (map_insert k v m)).
Proof. intros Hk F. eapply frame_trans; [done|by apply frame_insert]. Qed.
Lemma frame_remove_r T k s m : k ∈ T → frame T s (Object m) → frame T s (Object (map_remove k m)).
Proof. intros Hk F. eapply frame_trans; [done|by apply frame_remove]. Qed.

Lemma frames_index_update T k p f : k ∈ T → frames T (index_update (k :: p) f).
Proof.
  intros Hk [| | | | | |m] s' Ho; try done. cbn. intros (w & _ & [= <-])%outcome_bind_done. by apply frame_insert.
Qed.
Lemma frames_index_set T k p v : k ∈ T → frames T (index_set (k :: p) v).
Proof. apply frames_index_update. Qed.
Lemma frames_get_update T k p f : k ∈ T → frames T (get_update (k :: p) f).
Proof.
  intros Hk [| | | | | |m] s' Ho; try done. cbn [get_update get]. destruct (map_get k m) as [w|].
  - intros (w' & _ & [= <-])%outcome_bind_done. by apply frame_insert.
  - intros [= <-]. by apply frame_refl.
Qed.

Create HintDb frames discriminated.
#[export] Hint Resolve frames_index_update frames_index_set frames_get_update frames_bind frame_refl : frames.

(** One step of unfolding a computation that succeeded. *)
Ltac inv_done :=
  repeat match goal with
  | H : (_ ≫= _) = Done _ |- _ => apply outcome_bind_done in H as (? & ? & ?)
  | H : ok_or ?o _ = Done _ |- _ => destruct o eqn:?; cbn in H; [|discriminate H]
  | H : Failed _ = Done _ |- _ => discriminate H
  | H : Panicked = Done _ |- _ => discriminate H
  | H : Done _ = Done _ |- _ => injection H as H; subst
  | x : _ * _ |- _ => destruct x
  end.

Lemma in_T (k : string) (T : list string) : bool_decide (k ∈ T) = true → k ∈ T.
Proof. apply bool_decide_eq_true. Qed.
Ltac in_T := apply in_T; reflexivity.

(** ** Versions *)

(** The version of a document: 1 without a version field, 0 if there is one that
    no step reads. *)
Definition ver (s : Value) : Z :=
  match get "settings_version" s with
  | None => 1
  | Some v => match as_u64 v with Some n => if 2 <=? n then n else 0 | None => 0 end
  end.

Lemma version_is_ver n s : 2 ≤ n → version_is n s = true ↔ ver s = n.
Proof.
  intros Hn. unfold version_is, ver. destruct (get "settings_version" s) as [v|]; [|split; [done|intros; exfalso; lia]].
  rewrite bool_decide_eq_true. destruct (as_u64 v) as [k|]; [|split; [done|intros; exfalso; lia]].
  destruct (Z.leb_spec 2 k); split; intros; simplify_eq; try done; exfalso; lia.
Qed.

Lemma version_ver n s : 2 ≤ n ≤ 12 → version s = Some n ↔ ver s = n.
Proof.
  intros Hn. unfold version, ver. destruct (get "settings_version" s) as [v|]; cbn; [|split; [done|intros; exfalso; lia]].
  destruct (as_u64 v) as [k|]; cbn; [|split; [done|intros; exfalso; lia]].
  destruct (Z.leb_spec 2 k), (Z.leb_spec k 12); cbn; split; intros; simplify_eq; try done; exfalso; lia.
Qed.

Lemma set_version_spec n s s' :
  is_object s = true → set_version n s = Done s' →
  get "settings_version" s' = Some (Number n) ∧ frame ["settings_version"%string] s s'.
Proof.
  intros Ho H. split; [|by apply (frames_index_set _ "settings_version" [] (Number n)); [in_T|..]].
  destruct s; try done. injection H as <-. cbn. apply map_get_insert.
Qed.

(** [steps n T f]: on settings of version [n] the step makes version [n + 1] and
    changes keys of [T] only; other settings it leaves alone. *)
Definition steps (n : Z) (T : list string) (f : Value → M Value) : Prop :=
  ∀ s s', is_object s = true → f s = Done s' →
    (ver s = n ∧ get "settings_version" s' = Some (Number (n + 1)) ∧ frame T s s') ∨ (ver s ≠ n ∧ s' = s).

(** A step that changes keys of [T] and then sets the version. *)
Lemma steps_intro n T (matches : Value → bool) f :
  (∀ s, matches s = true ↔ ver s = n) → "settings_version"%string ∈ T →
  (∀ s, matches s = false → f s = Done s) →
  (∀ s s', is_object s = true → matches s = true → f s = Done s' →
     ∃ s1, frame T s s1 ∧ set_version (n + 1) s1 = Done s') → steps n T f.
Proof.
  intros Hm Hv Hf Ht s s' Ho H. destruct (matches s) eqn:E.
  - left. destruct (Ht s s' Ho E H) as (s1 & F & H2). apply set_version_spec in H2 as [Hg F2]; [|apply F].
    split; [by apply Hm|]. split; [done|]. eapply frame_trans; [done|]. eapply frame_mono; [|done]. set_solver.
  - rewrite Hf in H by done. injection H as <-. right. split; [|done]. intros Hn. apply Hm in Hn. congruence.
Qed.

(** ** The steps *)

Lemma frames_done T : frames T (λ s, Done s).
Proof. intros s s' Ho [= <-]. by apply frame_refl. Qed.
Lemma frames_update_object T e f :
  (∀ m m', f m = Done m' → frame T (Object m) (Object m')) → frames T (update_object e f).
Proof. intros Hf [| | | | | |m] s' Ho; try done. cbn. intros (m' & Hm & [= <-])%outcome_bind_done. auto. Qed.
#[export] Hint Resolve frames_done : frames.

(** The frame of an update of an object's keys. *)
Ltac object_frame :=
  repeat first [ apply frame_insert_r; [in_T|] | apply frame_remove_r; [in_T|] | by apply frame_refl
    | match goal with |- frame _ _ (Object (match ?o with _ => _ end)) => destruct o end ].

(** The frame of a write, and of what follows it. *)
Ltac write_frame :=
  match goal with
  | H : index_set (?k :: ?p) ?v ?s = Done ?s' |- frame ?T ?s _ =>
      apply (frames_index_set T k p v ltac:(in_T) s s') in H; [|done]
  | H : index_update (?k :: ?p) ?f ?s = Done ?s' |- frame ?T ?s _ =>
      apply (frames_index_update T k p f ltac:(in_T) s s') in H; [|done]
  | H : get_update (?k :: ?p) ?f ?s = Done ?s' |- frame ?T ?s _ =>
      apply (frames_get_update T k p f ltac:(in_T) s s') in H; [|done]
  | H : update_object ?e ?f ?s = Done ?s' |- frame ?T ?s _ =>
      apply (frames_update_object T e f ltac:(intros ? ? Hm; cbn beta in Hm; inv_done; object_frame) s s') in H; [|done]
  end;
  match goal with
  | H : frame ?T ?s ?s', Ho : is_object ?s = true |- frame ?T ?s ?t =>
      first [exact H | apply (frame_trans T s s' t H); destruct H as [H _]]
  end.

(** The keys a computation built of writes changes. *)
Ltac solve_frame :=
  repeat first
    [ progress inv_done
    | write_frame
    | match goal with
      | H : (if ?b then _ else _) = Done _ |- frame _ _ _ => destruct b eqn:?
      | H : (match ?o with _ => _ end) = Done _ |- frame _ _ _ => destruct o eqn:?
      end ]; try done; try (by apply frame_refl).

(** The parts of the steps. *)
Ltac unfold_steps :=
  unfold v4.migrate_constraints, v5.migrate_wireguard_constraints, v5.migrate_account, v6.migrate_pq_setting,
    v6.migrate_udp2tcp_port_443, v6.migrate_location_constraint, v7.migrate_bridge_settings,
    v7.migrate_api_access_settings, v8.migrate_selected_obfuscaton, v11.migrate_block_when_disconnected,
    v11.migrate_duplicated_api_access_method_names, v5.WG in *.

(** Opens a step whose condition is the version number. *)
Ltac unfold_head f := lazymatch f with ?g _ => unfold_head g | _ => unfold f in * end.
Ltac open_step m :=
  apply (steps_intro _ _ m);
    [ intros s; first [apply version_is_ver; lia | rewrite bool_decide_eq_true; apply version_ver; lia] | in_T
    | intros s E; match goal with |- ?f = _ => unfold_head f end; by rewrite E
    | intros s s' Ho E Hm; match type of Hm with ?f = _ => unfold_head f end; rewrite E in Hm; cbn [negb] in Hm;
      inv_done; eexists; split; [|eassumption]; unfold_steps; solve_frame ].

Abbreviation T1 := ["relay_settings"; "show_beta_releases"; "settings_version"]%string (only parsing).
Lemma v1_steps : steps 1 T1 v1.migrate.
Proof.
  apply (steps_intro _ _ v1.version_matches).
  - intros s. unfold v1.version_matches, ver. destruct (get "settings_version" s) as [v|]; [|done].
    split; [done|]. destruct (as_u64 v) as [n|]; [destruct (Z.leb_spec 2 n)|]; intros; exfalso; lia.
  - in_T.
  - intros s E. unfold v1.migrate. by rewrite E.
  - intros s s' Ho E H. unfold v1.migrate in H. rewrite E in H. cbn [negb] in H. inv_done.
    eexists; split; [|eassumption]. solve_frame.
Qed.

Abbreviation T2 := ["show_beta_releases"; "tunnel_options"; "settings_version"]%string (only parsing).
Lemma v2_steps : steps 2 T2 v2.migrate.
Proof. open_step (version_is 2).
Qed.

Abbreviation T3 := ["tunnel_options"; "settings_version"]%string (only parsing).
Lemma v3_steps `{Formats} : steps 3 T3 v3.migrate.
Proof. open_step (version_is 3). Qed.

Abbreviation T4 := ["relay_settings"; "settings_version"]%string (only parsing).
Lemma v4_steps : steps 4 T4 v4.migrate.
Proof. open_step (version_is 4). Qed.

Abbreviation T6 := ["tunnel_options"; "obfuscation_settings"; "relay_settings"; "bridge_settings"; "settings_version"]%string (only parsing).
Lemma v6_steps : steps 6 T6 v6.migrate.
Proof. open_step (version_is 6). Qed.

Abbreviation T7 := ["bridge_settings"; "api_access_methods"; "settings_version"]%string (only parsing).
Lemma v7_steps `{Formats} : steps 7 T7 v7.migrate.
Proof. open_step (version_is 7). Qed.

Abbreviation T8 := ["obfuscation_settings"; "settings_version"]%string (only parsing).
Lemma v8_steps : steps 8 T8 v8.migrate.
Proof. open_step (version_is 8). Qed.

Abbreviation T9 := ["settings_version"]%string (only parsing).
Lemma v9_steps : steps 9 T9 v9.migrate.
Proof.
  apply (steps_intro _ _ (version_is 9)); [intros s; apply version_is_ver; lia|in_T|..].
  - intros s E. unfold v9.migrate. by rewrite E.
  - intros s s' Ho E H. unfold v9.migrate in H. rewrite E in H. exists s. split; [by apply frame_refl|]. by destruct s.
Qed.

Abbreviation T10 := ["relay_settings"; "settings_version"]%string (only parsing).
Lemma v10_steps : steps 10 T10 v10.migrate.
Proof. open_step (λ s, bool_decide (version s = Some 10)). Qed.

Abbreviation T11 := ["block_when_disconnected"; "lockdown_mode"; "api_access_methods"; "settings_version"]%string (only parsing).
Lemma v11_steps : steps 11 T11 v11.migrate.
Proof. open_step (λ s, bool_decide (version s = Some 11)). Qed.

(** The settings of the fifth step, without the data it extracts. *)
Definition v5_settings (s : Value) : M Value := '(s, _) ← v5.migrate s; Done s.
Abbreviation T5 := ["relay_settings"; "obfuscation_settings"; "account_token"; "wireguard"; "settings_version"]%string (only parsing).
Lemma v5_steps : steps 5 T5 v5_settings.
Proof.
  apply (steps_intro _ _ (version_is 5)); [intros s; apply version_is_ver; lia|in_T|..].
  - intros s E. unfold v5_settings, v5.migrate. by rewrite E.
  - intros s s' Ho E H. unfold v5_settings, v5.migrate in H. rewrite E in H. cbn [negb] in H. inv_done.
    eexists; split; [|eassumption]. unfold_steps. solve_frame.
Qed.

(** ** Composition *)

(** [moves a b T f]: settings of versions [a] to [b - 1] are brought to version [b],
    others are left alone. *)
Definition moves (a b : Z) (T : list string) (f : Value → M Value) : Prop :=
  ∀ s s', is_object s = true → f s = Done s' →
    (a ≤ ver s < b ∧ get "settings_version" s' = Some (Number b) ∧ frame T s s') ∨ (¬ a ≤ ver s < b ∧ s' = s).

Lemma ver_number n s : 2 ≤ n → get "settings_version" s = Some (Number n) → ver s = n.
Proof.
  intros Hn E. unfold ver. rewrite E. cbn. destruct (Z.leb_spec 0 n); [|exfalso; lia].
  destruct (Z.leb_spec 2 n); [done|exfalso; lia].
Qed.

Lemma steps_moves n T f : steps n T f → moves n (n + 1) T f.
Proof.
  intros Hf s s' Ho H. destruct (Hf s s' Ho H) as [(<- & Hv & F)|[Hn ->]]; [left; split; [lia|done]|right].
  split; [lia|done].
Qed.

Lemma moves_bind a b c T T' f g :
  2 ≤ b → a ≤ b ≤ c → moves a b T f → moves b c T' g → moves a c (T ++ T') (λ s, s' ← f s; g s').
Proof.
  intros Hb Hac Hf Hg s s' Ho (s1 & H1 & H2)%outcome_bind_done.
  destruct (Hf s s1 Ho H1) as [(Hr & Hv & F)|[Hn ->]].
  - destruct (Hg s1 s' (proj1 F) H2) as [(_ & Hv' & F')|[Hn ->]].
    + left. split; [lia|]. split; [done|]. apply (frame_trans _ _ s1); eapply frame_mono; [|done| |done]; set_solver.
    + left. pose proof (ver_number b s1 Hb Hv) as E. split; [lia|].
      assert (b = c) as <- by lia. split; [done|]. eapply frame_mono; [|done]. set_solver.
  - destruct (Hg s s' Ho H2) as [(Hr & Hv & F)|[Hn' ->]]; [left|right; split; [lia|done]].
    split; [lia|]. split; [done|]. eapply frame_mono; [|done]. set_solver.
Qed.

Lemma moves_object a b T f s s' : moves a b T f → is_object s = true → f s = Done s' → is_object s' = true.
Proof. intros Hf Ho H. destruct (Hf s s' Ho H) as [(_ & _ & [? _])|[_ ->]]; done. Qed.
Lemma moves_get a b T f s s' k : moves a b T f → is_object s = true → f s = Done s' → k ∉ T → get k s' = get k s.
Proof. intros Hf Ho H Hk. destruct (Hf s s' Ho H) as [(_ & _ & [_ F])|[_ ->]]; auto. Qed.
(** Where the version ends up. *)
Lemma moves_ver a b T f s s' :
  2 ≤ b → moves a b T f → is_object s = true → f s = Done s' →
  (a ≤ ver s < b ∧ ver s' = b) ∨ (¬ a ≤ ver s < b ∧ ver s' = ver s).
Proof.
  intros Hb Hf Ho H. destruct (Hf s s' Ho H) as [(Hr & Hv & _)|[Hn ->]]; [left|by right].
  split; [done|]. by apply ver_number.
Qed.

Section Chain.
Context `{Formats}.

Definition Tearly : list string := T1 ++ T2 ++ T3 ++ T4.
Lemma early_moves : moves 1 5 Tearly migrate_early.
Proof.
  apply (moves_bind 1 2 5); [lia..|apply steps_moves, v1_steps|].
  apply (moves_bind 2 3 5); [lia..|apply steps_moves, v2_steps|].
  apply (moves_bind 3 4 5); [lia..|apply steps_moves, v3_steps|apply steps_moves, v4_steps].
Qed.

(** The steps 6 to 10, and the whole second half. *)
Definition middle (s : Value) : M Value :=
  s ← v6.migrate s; s ← v7.migrate s; s ← v8.migrate s; s ← v9.migrate s; v10.migrate s.
Definition Tmiddle : list string := T6 ++ T7 ++ T8 ++ T9 ++ T10.
Lemma middle_moves : moves 6 11 Tmiddle middle.
Proof.
  apply (moves_bind 6 7 11); [lia..|apply steps_moves, v6_steps|].
  apply (moves_bind 7 8 11); [lia..|apply steps_moves, v7_steps|].
  apply (moves_bind 8 9 11); [lia..|apply steps_moves, v8_steps|].
  apply (moves_bind 9 10 11); [lia..|apply steps_moves, v9_steps|apply steps_moves, v10_steps].
Qed.

Lemma migrate_late_done s s' data :
  migrate_late s = Done (s', data) ↔
  ∃ s1 s2, v5.migrate s = Done (s1, data) ∧ middle s1 = Done s2 ∧ v11.migrate s2 = Done s'.
Proof.
  unfold migrate_late, middle. split.
  - intros Hl. inv_done. do 2 eexists. split_and!; [done| |done].
    repeat (match goal with E : ?f ?x = Done _ |- (?f ?x ≫= _) = _ => rewrite E; cbn [mbind outcome_bind] end). done.
  - intros (s1 & s2 & E5 & Em & E11). rewrite E5. cbn. inv_done.
    repeat (match goal with E : ?f ?x = Done _ |- (?f ?x ≫= _) = _ => rewrite E; cbn [mbind outcome_bind] end). done.
Qed.

(** Writing the account history: if it succeeds, it holds the number. *)
Lemma write_format_v3_spec f d token r d' :
  write_format_v3 f d token = (r, d') →
  settings_file d' = settings_file d ∧
  match r with
  | Done _ => history d' = Some (default "" token) ∧ old_history d' = old_history d
  | Failed e => e = WriteHistory
  | Panicked => False
  end.
Proof.
  unfold write_format_v3. destruct (f_truncate_history f); [by intros [= <- <-]|].
  destruct token as [t|], (f_write_history f), (f_sync_history f); by intros [= <- <-].
Qed.

(** The outcomes of migrating the account history. *)
Lemma migrate_formats_inv f d s r d' :
  migrate_formats f d s = (r, d') →
  settings_file d' = settings_file d ∧
  match r with
  | Done s' =>
      match history d with
      | None => s' = s ∧ d' = d
      | Some bytes =>
          if account_history.is_format_v3 bytes then s' = s ∧ d' = d
          else ∃ token, account_history.migrate_formats_inner bytes s = Done (s', token) ∧
            history d' = Some (default "" token) ∧ old_history d' = old_history d
      end
  | Failed e => e = ReadHistory ∨ e = WriteHistory ∨ ∃ bytes, account_history.migrate_formats_inner bytes s = Failed e
  | Panicked => ∃ bytes, account_history.migrate_formats_inner bytes s = Panicked
  end.
Proof.
  unfold migrate_formats. destruct (history d) as [b|]; [|by intros [= <- <-]].
  destruct (f_read_history f); [intros [= <- <-]; auto|].
  destruct (account_history.is_format_v3 b); [by intros [= <- <-]|].
  destruct (account_history.migrate_formats_inner b s) as [[s1 t]|e|] eqn:E; [|intros [= <- <-]; eauto..].
  destruct (write_format_v3 f d t) as [r1 d1] eqn:W. apply write_format_v3_spec in W as [Ws W].
  intros [= <- <-]. split; [done|]. destruct r1 as [[]|e|]; cbn; [|auto|done]. destruct W as [Wh Wo]. eauto.
Qed.

(** It adds "wireguard" at most. *)
Lemma migrate_formats_frame f d s s' d' :
  is_object s = true → migrate_formats f d s = (Done s', d') → frame ["wireguard"%string] s s'.
Proof.
  intros Ho [_ Hi]%migrate_formats_inv. destruct (history d) as [bytes|]; [|destruct Hi as [-> _]; by apply frame_refl].
  destruct (account_history.is_format_v3 bytes); [destruct Hi as [-> _]; by apply frame_refl|].
  destruct Hi as (t & E & _). unfold account_history.migrate_formats_inner in E. solve_frame.
Qed.

Lemma frame_ver T s s' : "settings_version"%string ∉ T → frame T s s' → ver s' = ver s.
Proof. intros Hk [_ F]. unfold ver. by rewrite F. Qed.

Lemma migrate_settings_done f d s s' data d' :
  migrate_settings f d s = (Done (s', data), d') →
  is_object s = true ∧ ∃ s1 s2, migrate_early s = Done s1 ∧ migrate_formats f (migrate_location f d) s1 = (Done s2, d') ∧
    migrate_late s2 = Done (s', data).
Proof.
  unfold migrate_settings. destruct (is_object s); [cbn [negb]|done]. destruct (migrate_early s) as [s1|e|]; [|done..].
  destruct (migrate_formats f (migrate_location f d) s1) as [[s2|e|] d2] eqn:E; [|done..]. intros [= Hl <-]. eauto 10.
Qed.
End Chain.

(** ** Settings of other versions *)

Section Idle.
Context `{Formats}.

Lemma version_is_false n s : 2 ≤ n → ver s ≠ n → version_is n s = false.
Proof. intros Hn Hv. apply not_true_iff_false. by rewrite version_is_ver. Qed.
Lemma version_false n s : 2 ≤ n ≤ 12 → ver s ≠ n → bool_decide (version s = Some n) = false.
Proof. intros Hn Hv. apply bool_decide_eq_false. by rewrite version_ver. Qed.
Lemma version_matches_false s : ver s ≠ 1 → v1.version_matches s = false.
Proof. unfold ver, v1.version_matches. by destruct (get "settings_version" s). Qed.

Lemma early_idle s : ver s < 1 ∨ 5 ≤ ver s → migrate_early s = Done s.
Proof.
  intros Hv. unfold migrate_early, v1.migrate, v2.migrate, v3.migrate, v4.migrate.
  rewrite version_matches_false by lia. cbn [negb mbind outcome_bind].
  do 3 (rewrite version_is_false by lia; cbn [negb mbind outcome_bind]). done.
Qed.

Lemma late_idle s : ver s < 5 ∨ 12 ≤ ver s → migrate_late s = Done (s, None).
Proof.
  intros Hv. unfold migrate_late, v5.migrate, v6.migrate, v7.migrate, v8.migrate, v9.migrate, v10.migrate, v11.migrate.
  do 5 (rewrite version_is_false by lia; cbn [negb mbind outcome_bind]).
  do 2 (rewrite version_false by lia; cbn [negb mbind outcome_bind]). done.
Qed.
End Idle.

(** ** What single steps do *)

Lemma rename_frames : frames ["api_access_methods"%string] v11.migrate_duplicated_api_access_method_names.
Proof. intros s s' Ho Hm. unfold_steps. solve_frame. Qed.

Lemma block_when_disconnected_renamed s s' :
  v11.migrate_block_when_disconnected s = Done s' →
  is_object s' = true ∧ ∃ v, get "block_when_disconnected" s = Some v ∧ get "lockdown_mode" s' = Some v ∧
    get "block_when_disconnected" s' = None.
Proof.
  unfold_steps. destruct s as [| | | | | |m]; try done. cbn. intros Hm. inv_done. split; [done|]. eexists. split; [done|]. cbn.
  by rewrite map_get_remove, map_get_remove_ne, map_get_insert.
Qed.

Lemma v11_lockdown s s' :
  ver s = 11 → v11.migrate s = Done s' →
  ∃ v, get "block_when_disconnected" s = Some v ∧ get "lockdown_mode" s' = Some v ∧
    get "block_when_disconnected" s' = None.
Proof.
  intros Hv Hm. unfold v11.migrate in Hm. rewrite bool_decide_eq_true_2 in Hm by (apply version_ver; lia).
  cbn [negb] in Hm. inv_done.
  match goal with E : v11.migrate_block_when_disconnected _ = _ |- _ =>
    apply block_when_disconnected_renamed in E as (Ho & v & Hb & Hl & Hn) end.
  match goal with E : v11.migrate_duplicated_api_access_method_names _ = _ |- _ =>
    apply rename_frames in E as [Ho' F]; [|done] end.
  match goal with E : set_version _ _ = Done _ |- _ => apply set_version_spec in E as [_ [_ F']]; [|done] end.
  exists v. split; [done|]. by rewrite !F', !F by (apply (bool_decide_unpack _); reflexivity).
Qed.

(** The account token and the WireGuard data of version 5. *)
Lemma wireguard_constraints_frames :
  frames ["relay_settings"; "obfuscation_settings"]%string v5.migrate_wireguard_constraints.
Proof. intros s s' Ho Hm. unfold_steps. solve_frame. Qed.

Lemma v5_account s s' data :
  is_object s = true → ver s = 5 → v5.migrate s = Done (s', data) →
  match v5.not_null (get "account_token" s) with
  | Some t => ∃ token, t = String_ token ∧
      data = Some {| v5.token := token; v5.wg_data := v5.not_null (get "wireguard" s) |} ∧
      get "account_token" s' = None ∧ get "wireguard" s' = None
  | None => data = None ∧ get "account_token" s' = get "account_token" s ∧ get "wireguard" s' = get "wireguard" s
  end.
Proof.
  intros Ho Hv Hm. unfold v5.migrate in Hm. rewrite (proj2 (version_is_ver 5 s ltac:(lia))) in Hm by done.
  cbn [negb] in Hm. inv_done.
  match goal with E : v5.migrate_wireguard_constraints _ = _ |- _ =>
    apply wireguard_constraints_frames in E as [Ho' F]; [|done] end.
  match goal with E : v5.migrate_account ?x = _ |- _ => rename x into s1; rename E into Ha end.
  match goal with E : set_version _ ?x = _ |- _ => rename x into s2; rename E into Hs end.
  rewrite <- !F by (apply (bool_decide_unpack _); reflexivity).
  unfold v5.migrate_account in Ha. destruct (v5.not_null (get "account_token" s1)) as [t|].
  - inv_done. destruct s1 as [| | | | | |m]; try done. destruct t; try done. cbn in *. simplify_eq.
    eexists. split_and!; [done..| |].
    + cbn. rewrite map_get_insert_ne, map_get_remove_ne by done. apply map_get_remove.
    + cbn. rewrite map_get_insert_ne by done. apply map_get_remove.
  - simplify_eq. apply set_version_spec in Hs as [_ [_ F']]; [|done].
    rewrite !F' by (apply (bool_decide_unpack _); reflexivity). done.
Qed.

(** ** The errors of the steps *)

Definition step_error (e : Error) : bool := match e with InvalidSettingsContent | Serialize => true | _ => false end.

(** A computation fails with errors of the steps only. *)
Definition step_errors {A} (m : M A) : Prop := ∀ e, m = Failed e → step_error e = true.

Lemma step_errors_done {A} (a : A) : step_errors (Done a).
Proof. done. Qed.
Lemma step_errors_failed {A} e : step_error e = true → step_errors (A := A) (Failed e).
Proof. by intros He e' [= <-]. Qed.
Lemma step_errors_panicked {A} : step_errors (A := A) Panicked.
Proof. done. Qed.
Lemma step_errors_bind {A B} (m : M A) (f : A → M B) :
  step_errors m → (∀ a, step_errors (f a)) → step_errors (m ≫= f).
Proof. intros Hm Hf. destruct m as [a|e|]; cbn; [apply Hf|intros e' [= <-]; by apply Hm|done]. Qed.
Lemma step_errors_ok_or {A} (o : option A) e : step_error e = true → step_errors (ok_or o e).
Proof. intros He. destruct o; [done|]. by apply step_errors_failed. Qed.
Lemma step_errors_index p f : (∀ v, step_errors (f v)) → ∀ v, step_errors (index_update p f v).
Proof.
  intros Hf. induction p as [|k p IH]; cbn; [done|]. intros [| | | | | |m]; try done; by apply step_errors_bind.
Qed.
Lemma step_errors_index_set p x v : step_errors (index_set p x v).
Proof. by apply step_errors_index. Qed.
Lemma step_errors_get_update p f : (∀ v, step_errors (f v)) → ∀ v, step_errors (get_update p f v).
Proof.
  intros Hf. induction p as [|k p IH]; cbn; [done|]. intros v. destruct (get k v); [|done].
  destruct v; try done. by apply step_errors_bind.
Qed.
Lemma step_errors_update_object e f :
  step_error e = true → (∀ m, step_errors (f m)) → ∀ v, step_errors (update_object e f v).
Proof. intros He Hf [| | | | | |m]; cbn; try by apply step_errors_failed. by apply step_errors_bind. Qed.

(** Goes through a computation built of the primitives. *)
Ltac solve_errors :=
  repeat (intros; cbn beta;
    first
    [ apply step_errors_done | apply step_errors_panicked
    | apply step_errors_failed; reflexivity | apply step_errors_ok_or; reflexivity
    | apply step_errors_bind | apply step_errors_index_set | apply step_errors_index | apply step_errors_get_update
    | apply step_errors_update_object; [reflexivity|]
    | match goal with |- step_errors (match ?x with _ => _ end) => destruct x end ]).

Lemma early_errors `{Formats} s : step_errors (migrate_early s).
Proof.
  unfold migrate_early, v1.migrate, v1.migrate_normal, v2.migrate, v3.migrate, v4.migrate, v4.migrate_constraints,
    v4.wireguard_port, v4.openvpn_port, v4.remove_protocol, set_version. solve_errors.
Qed.

Lemma v7_list_errors l : step_errors (v7.migrate_list l).
Proof.
  induction l as [|x l IH]; cbn; [done|]. apply step_errors_bind; [|by intros; apply step_errors_bind].
  unfold v7.migrate_access_method_setting, v7.migrate_custom_access_method, v7.replace_socks5, v7.rename_field,
    v7.rename_map_field. solve_errors.
Qed.

Lemma v7_errors `{Formats} s : step_errors (v7.migrate s).
Proof.
  unfold v7.migrate, v7.migrate_bridge_settings, v7.local_bridge, v7.remote_bridge, v7.shadowsocks_bridge,
    v7.extract_address, v7.extract_str, v7.migrate_api_access_settings, v7.on_array, v7.separate_built_ins,
    v7.rename_map_field, set_version.
  solve_errors; apply v7_list_errors.
Qed.

Lemma late_errors `{Formats} s : step_errors (migrate_late s).
Proof.
  unfold migrate_late. apply step_errors_bind.
  { unfold v5.migrate, v5.migrate_wireguard_constraints, v5.migrate_multihop, v5.migrate_port, v5.migrate_account, set_version.
    solve_errors. }
  intros [s1 data]. apply step_errors_bind.
  { unfold v6.migrate, v6.migrate_location_constraint, v6.wrap_location, v6.migrate_pq_setting,
      v6.migrate_udp2tcp_port_443, set_version. solve_errors. }
  intros s2. apply step_errors_bind; [apply v7_errors|]. intros s3.
  unfold v8.migrate, v8.migrate_selected_obfuscaton, v9.migrate, v10.migrate, v10.migrate_tunnel_type_inner, v11.migrate,
    v11.migrate_block_when_disconnected, v11.migrate_duplicated_api_access_method_names, set_version. solve_errors.
Qed.
