(* ===== verification/MigrationTheorems.v ===== *)
(** * Theorems on the settings migrations

    What the whole migration does to a document of any version, to the account and
    to the files, and what the last steps do to the names of API
    access methods and to the tunnel protocol. *)

From stdpp Require Import pretty.
From Stdlib Require Import Ascii.
From S2P Require Import Prelude NetTypes Constraints Json Migrations MigrationSteps.

(** ** The document *)

Section Document.
Context `{Formats}.

(** Settings of a version the migration knows. *)
Definition outdated (s : Value) : bool := (1 <=? ver s) && (ver s <=? 11).

(** The keys at the top of the settings that some step writes. *)
Definition migrated_keys : list string :=
  ["relay_settings"; "show_beta_releases"; "tunnel_options"; "obfuscation_settings"; "bridge_settings";
   "api_access_methods"; "account_token"; "wireguard"; "block_when_disconnected"; "lockdown_mode"; "settings_version"]%string.

(** The account history, if any, has the current format. *)
Definition history_settled (f : Faults) (d : Disk) : Prop :=
  match history (migrate_location f d) with
  | None => True
  | Some bytes => f_read_history f = false ∧ account_history.is_format_v3 bytes = true
  end.

Lemma formats_settled f d s : history_settled f d →
  migrate_formats f (migrate_location f d) s = (Done s, migrate_location f d).
Proof.
  unfold history_settled, migrate_formats. destruct (history (migrate_location f d)) as [b|]; [|done].
  intros [-> ->]. done.
Qed.

(** The intermediate documents of a migration that succeeded: before and after the
    account history, after step 5 and after step 10. *)
Lemma migration_trace f d s s' data d' :
  migrate_settings f d s = (Done (s', data), d') →
  ∃ s1 s2 s5 s10,
    is_object s = true ∧ is_object s1 = true ∧ is_object s2 = true ∧ is_object s5 = true ∧ is_object s10 = true ∧
    is_object s' = true ∧
    migrate_early s = Done s1 ∧ migrate_formats f (migrate_location f d) s1 = (Done s2, d') ∧
    v5.migrate s2 = Done (s5, data) ∧ middle s5 = Done s10 ∧ v11.migrate s10 = Done s' ∧ migrate_late s2 = Done (s', data).
Proof.
  intros (Ho & s1 & s2 & H1 & H2 & L)%migrate_settings_done. pose proof L as (s5 & s10 & H5 & Hm & H11)%migrate_late_done.
  exists s1, s2, s5, s10.
  assert (is_object s1 = true) as O1 by (eapply moves_object; [apply early_moves|done..]).
  assert (is_object s2 = true) as O2 by (by eapply migrate_formats_frame).
  assert (is_object s5 = true) as O5.
  { eapply moves_object; [apply steps_moves, v5_steps|exact O2|]. unfold v5_settings. by rewrite H5. }
  assert (is_object s10 = true) as O10 by (eapply moves_object; [apply middle_moves|done..]).
  assert (is_object s' = true) as O' by (eapply moves_object; [apply steps_moves, v11_steps|done..]).
  done.
Qed.

(** Versions along the trace. *)
Lemma v5_ver s s' data : is_object s = true → v5.migrate s = Done (s', data) →
  (5 ≤ ver s < 6 ∧ ver s' = 6) ∨ (¬ 5 ≤ ver s < 6 ∧ ver s' = ver s).
Proof.
  intros Ho H5. apply (moves_ver 5 6 T5 v5_settings); [lia|apply steps_moves, v5_steps|done|].
  unfold v5_settings. by rewrite H5.
Qed.

Lemma trace_versions f d s s1 s2 s5 s10 s' data d' :
  is_object s = true → is_object s1 = true → is_object s2 = true → is_object s5 = true → is_object s10 = true →
  migrate_early s = Done s1 → migrate_formats f (migrate_location f d) s1 = (Done s2, d') →
  v5.migrate s2 = Done (s5, data) → middle s5 = Done s10 → v11.migrate s10 = Done s' →
  ((1 ≤ ver s ≤ 4 ∧ ver s2 = 5) ∨ (¬ 1 ≤ ver s ≤ 4 ∧ ver s2 = ver s)) ∧
  ((1 ≤ ver s ≤ 11 ∧ ver s10 = 11) ∨ (¬ 1 ≤ ver s ≤ 11 ∧ ver s10 = ver s)) ∧
  ((1 ≤ ver s ≤ 11 ∧ ver s' = 12) ∨ (¬ 1 ≤ ver s ≤ 11 ∧ ver s' = ver s)).
Proof.
  intros O O1 O2 O5 O10 H1 H2 H5 Hm H11.
  pose proof (moves_ver 1 5 _ _ _ _ ltac:(lia) early_moves O H1) as V1.
  pose proof (frame_ver ["wireguard"%string] _ _ ltac:(set_solver) (migrate_formats_frame _ _ _ _ _ O1 H2)) as V2.
  pose proof (v5_ver _ _ _ O2 H5) as V5.
  pose proof (moves_ver 6 11 _ _ _ _ ltac:(lia) middle_moves O5 Hm) as V10.
  pose proof (moves_ver 11 12 _ _ _ _ ltac:(lia) (steps_moves _ _ _ v11_steps) O10 H11) as V'.
  lia.
Qed.

(** Keys outside a list of keys. *)
Ltac keys := unfold migrated_keys, Tearly, Tmiddle; set_solver.

(** A key no step before the last writes keeps its value until then. *)
Lemma kept_until_last f d s s1 s2 s5 s10 data d' k :
  is_object s = true → is_object s1 = true → is_object s2 = true → is_object s5 = true →
  migrate_early s = Done s1 → migrate_formats f (migrate_location f d) s1 = (Done s2, d') →
  v5.migrate s2 = Done (s5, data) → middle s5 = Done s10 →
  k ∉ Tearly ++ "wireguard"%string :: T5 ++ Tmiddle → get k s10 = get k s.
Proof.
  intros O O1 O2 O5 H1 H2 H5 Hm Hk.
  rewrite (moves_get 6 11 Tmiddle middle s5 s10) by (done || apply middle_moves || set_solver).
  rewrite (moves_get 5 6 T5 v5_settings s2 s5); [|apply steps_moves, v5_steps|done| |set_solver].
  2: { unfold v5_settings. by rewrite H5. }
  rewrite (proj2 (migrate_formats_frame _ _ _ _ _ O1 H2)) by set_solver.
  apply (moves_get 1 5 Tearly migrate_early); [apply early_moves|done..|set_solver].
Qed.

(** C29: A migration that succeeds takes the settings of every version from 1 to 11
    to version 12, whatever the account history holds: the setting
    [block_when_disconnected], which such settings must have, becomes
    [lockdown_mode] with the same value and its old name disappears.  Settings of
    version 12, of an unknown version or with a version that is not a number are
    left alone, but for the WireGuard data the account history holds.  Keys that
    no step means to change keep their value, and a second migration changes
    nothing, once the account history, if there is one, can be read and has the
    current format. *)
Theorem settings_migrated f d s s' data d' :
  migrate_settings f d s = (Done (s', data), d') →
  is_object s' = true ∧
  (if outdated s then
     get "settings_version" s' = Some (Number 12) ∧
     get "lockdown_mode" s' = get "block_when_disconnected" s ∧ get "lockdown_mode" s' ≠ None ∧
     get "block_when_disconnected" s' = None
   else data = None ∧ frame ["wireguard"%string] s s') ∧
  (∀ k, k ∉ migrated_keys → get k s' = get k s) ∧
  (∀ f2 d2, history_settled f2 d2 → migrate_settings f2 d2 s' = (Done (s', None), migrate_location f2 d2)).
Proof.
  intros (s1 & s2 & s5 & s10 & O & O1 & O2 & O5 & O10 & O' & H1 & H2 & H5 & Hm & H11 & L)%migration_trace.
  destruct (trace_versions f d s s1 s2 s5 s10 s' data d') as (V1 & V10 & V'); [done..|].
  pose proof (migrate_formats_frame _ _ _ _ _ O1 H2) as F2.
  split; [done|]. split; [|split].
  - unfold outdated. destruct (Z.leb_spec 1 (ver s)), (Z.leb_spec (ver s) 11); cbn [andb].
    + destruct (v11_steps s10 s' O10 H11) as [(_ & Hv & _)|[? _]]; [|exfalso; lia]. split; [done|].
      destruct (v11_lockdown s10 s' ltac:(lia) H11) as (v & Hb & Hl & Hn).
      rewrite <- (kept_until_last f d s s1 s2 s5 s10 data d' "block_when_disconnected") by (done || keys).
      by rewrite Hb, Hl.
    + rewrite early_idle in H1 by lia. rewrite late_idle in L by lia. simplify_eq. done.
    + rewrite early_idle in H1 by lia. rewrite late_idle in L by lia. simplify_eq. done.
    + exfalso; lia.
  - intros k Hk. rewrite (moves_get 11 12 _ _ _ _ k (steps_moves _ _ _ v11_steps) O10 H11); [|revert Hk; keys].
    eapply (kept_until_last f d s s1 s2 s5 s10 data d'); try done. revert Hk. keys.
  - intros f2 d2 Hs. unfold migrate_settings. rewrite O'. cbn [negb]. rewrite early_idle by lia.
    rewrite formats_settled by done. rewrite late_idle by lia. done.
Qed.
(** The WireGuard data there is when step 5 runs: those of the account history in
    its second format, otherwise those in the settings. *)
Definition wireguard_found (history : option string) (s : Value) : option Value :=
  match history with
  | Some bytes =>
      if account_history.is_format_v3 bytes then get "wireguard" s
      else match account_history.try_format_v2 bytes with
           | Some (Some (_, w)) => Some w
           | _ => get "wireguard" s
           end
  | None => get "wireguard" s
  end.

Lemma migrate_formats_wireguard f d s s' d' :
  is_object s = true → migrate_formats f d s = (Done s', d') → get "wireguard" s' = wireguard_found (history d) s.
Proof.
  intros Ho [_ Hi]%migrate_formats_inv. unfold wireguard_found. destruct (history d) as [bytes|]; [|by destruct Hi as [-> _]].
  destruct (account_history.is_format_v3 bytes); [by destruct Hi as [-> _]|].
  destruct Hi as (t & E & _). unfold account_history.migrate_formats_inner in E.
  destruct (account_history.try_format_v2 bytes) as [[[t' w]|]|]; [|by simplify_eq|].
  - destruct s as [| | | | | |m]; try done. cbn in E. simplify_eq. apply map_get_insert.
  - destruct (account_history.try_format_v1 bytes); by simplify_eq.
Qed.

(** The account of settings of version 1 to 5 is handed on: if they have an
    account token it is a string, and the migration returns it with the WireGuard
    data, which are those of an account history in its second format and otherwise
    those of the settings; neither stays in the settings.  Without a token nothing
    is returned and the WireGuard data stay.  Later versions return nothing. *)
Theorem account_extracted f d s s' data d' :
  migrate_settings f d s = (Done (s', data), d') →
  let wireguard := wireguard_found (history (migrate_location f d)) s in
  if decide (1 ≤ ver s ≤ 5) then
    match v5.not_null (get "account_token" s) with
    | Some t => ∃ token, t = String_ token ∧
        data = Some {| v5.token := token; v5.wg_data := v5.not_null wireguard |} ∧
        get "account_token" s' = None ∧ get "wireguard" s' = None
    | None => data = None ∧ get "account_token" s' = get "account_token" s ∧ get "wireguard" s' = wireguard
    end
  else data = None ∧ get "wireguard" s' = wireguard.
Proof.
  intros (s1 & s2 & s5 & s10 & O & O1 & O2 & O5 & O10 & O' & H1 & H2 & H5 & Hm & H11 & L)%migration_trace. cbn zeta.
  destruct (trace_versions f d s s1 s2 s5 s10 s' data d') as (V1 & _ & _); [done..|].
  assert (∀ k, k ∈ ["account_token"; "wireguard"]%string → get k s1 = get k s ∧ get k s' = get k s5) as K.
  { intros k Hk. split; [eapply (moves_get 1 5); [apply early_moves|done..|revert Hk; keys]|].
    rewrite (moves_get 11 12 _ _ _ _ k (steps_moves _ _ _ v11_steps) O10 H11) by (revert Hk; keys).
    eapply (moves_get 6 11); [apply middle_moves|done..|revert Hk; keys]. }
  destruct (K "account_token"%string ltac:(in_T)) as [Ka Ka'], (K "wireguard"%string ltac:(in_T)) as [Kw Kw'].
  assert (wireguard_found (history (migrate_location f d)) s = get "wireguard" s2) as ->.
  { rewrite (migrate_formats_wireguard _ _ _ _ _ O1 H2). unfold wireguard_found. by rewrite Kw. }
  rewrite <- Ka, <- (proj2 (migrate_formats_frame _ _ _ _ _ O1 H2) "account_token"%string) by set_solver.
  rewrite Ka', Kw'. case_decide.
  - by apply v5_account; [|lia|].
  - unfold v5.migrate in H5. rewrite version_is_false in H5 by lia. by simplify_eq/=.
Qed.
End Document.

(** ** The files *)

Section Files.
Context `{Formats}.

Lemma migrate_location_settings f d : settings_file (migrate_location f d) = settings_file d.
Proof. unfold migrate_location. destruct (old_history d), (history d), (f_copy f); done. Qed.

Lemma migrate_settings_file f d s : settings_file (migrate_settings f d s).2 = settings_file d.
Proof.
  unfold migrate_settings. destruct (is_object s); [cbn [negb]|done]. destruct (migrate_early s) as [s1| |]; [|done..].
  destruct (migrate_formats f (migrate_location f d) s1) as [r d1] eqn:E.
  apply migrate_formats_inv in E as [E _]. rewrite migrate_location_settings in E. by destruct r.
Qed.

(** Failing while the settings are written. *)
Definition writing (e : Error) : bool := match e with Open | Write | SyncSettings => true | _ => false end.
Lemma step_not_writing {A} (m : M A) e : step_errors m → m = Failed e → writing e = false.
Proof. intros Hm He. specialize (Hm e He). by destruct e. Qed.

Lemma formats_errors f d s d' e : migrate_formats f d s = (Failed e, d') → writing e = false.
Proof.
  intros [_ [->|[->|[bytes E]]]]%migrate_formats_inv; [done..|]. unfold account_history.migrate_formats_inner in E.
  destruct (account_history.try_format_v2 bytes) as [[[t w]|]|]; [|done|].
  - eapply step_not_writing, E. by apply step_errors_bind; [apply step_errors_index_set|].
  - by destruct (account_history.try_format_v1 bytes); simplify_eq.
Qed.

Lemma migrate_settings_errors f d s e : (migrate_settings f d s).1 = Failed e → writing e = false.
Proof.
  unfold migrate_settings. destruct (is_object s); cbn [negb]; [|by intros [= <-]].
  destruct (migrate_early s) as [s1|e1|] eqn:E1; cbn [fst]; [|intros [= <-]; eapply step_not_writing, E1; apply early_errors|done].
  destruct (migrate_formats f (migrate_location f d) s1) as [[s2|e2|] d2] eqn:E2; cbn [fst]; [|intros [= <-]; by eapply formats_errors|done].
  apply step_not_writing, late_errors.
Qed.

(** The account number in a history of any format. *)
Definition account_in (bytes : string) : string :=
  if account_history.is_format_v3 bytes then bytes
  else match account_history.try_format_v2 bytes with
       | Some entry => default "" (fst <$> entry)
       | None => default "" (default None (account_history.try_format_v1 bytes))
       end.

Lemma migrate_settings_history f d s new data d' :
  migrate_settings f d s = (Done (new, data), d') → history d' = account_in <$> history (migrate_location f d).
Proof.
  intros (_ & s1 & s2 & _ & [_ Hi]%migrate_formats_inv & _)%migrate_settings_done. unfold account_in.
  destruct (history (migrate_location f d)) as [b|] eqn:Eh; cbn; [|by destruct Hi as [_ ->]].
  destruct (account_history.is_format_v3 b); [by destruct Hi as [_ ->]|]. destruct Hi as (t & E & -> & _).
  unfold account_history.migrate_formats_inner in E.
  destruct (account_history.try_format_v2 b) as [[[t' w]|]|]; [inv_done; done|by simplify_eq|].
  destruct (account_history.try_format_v1 b); by simplify_eq.
Qed.

(** What the migration leaves on disk.  When it succeeds, the settings file
    holds the migrated settings.  When it fails or panics, the settings file is as
    it was, except that a write that fails after the file was truncated leaves a
    file that does not parse, and that after a failed sync the new settings are
    there.  When it succeeds or fails while writing the settings, the account
    history, in whatever format it was, holds only the account number: the
    WireGuard data of an older format are lost if the settings are not written. *)
Theorem migration_disk f d old r d' :
  settings_file d = Some (Some old) → migrate_all f d = (r, d') →
  match r with
  | Done data => ∃ new, (migrate_settings f d old).1 = Done (new, data) ∧ settings_file d' = Some (Some new)
  | Panicked => settings_file d' = settings_file d
  | Failed Write => settings_file d' = Some None
  | Failed SyncSettings => ∃ new data, (migrate_settings f d old).1 = Done (new, data) ∧ settings_file d' = Some (Some new)
  | Failed _ => settings_file d' = settings_file d
  end ∧
  match r with
  | Done _ | Failed (Open | Write | SyncSettings) => history d' = account_in <$> history (migrate_location f d)
  | _ => True
  end.
Proof.
  intros Hf. unfold migrate_all. rewrite Hf. destruct (f_read f); [by intros [= <- <-]|].
  pose proof (migrate_settings_file f d old) as Hs. pose proof (migrate_settings_errors f d old) as He.
  destruct (migrate_settings f d old) as [[[new data]|e|] d1] eqn:E; cbn [fst snd] in *.
  - apply migrate_settings_history in E as Hh. destruct (decide (new = old)) as [->|].
    { intros [= <- <-]. split; [|done]. exists old. split; [done|congruence]. }
    destruct (f_open f), (f_write f), (f_sync f); intros [= <- <-]; cbn; split; eauto; congruence.
  - intros [= <- <-]. specialize (He e eq_refl). by destruct e; split; try congruence.
  - intros [= <- <-]. split; [congruence|done].
Qed.
End Files.

(** ** The tunnel protocol *)

Lemma protocol_of_hostname_spec h :
  v10.protocol_of_hostname h = "openvpn"%string ↔
  ∃ name, h = Some (String_ name) ∧ "ovpn"%string ∈ v10.split_hyphen name.
Proof.
  unfold v10.protocol_of_hostname. destruct h as [[| | | |s| |]|];
    try (split; [discriminate|intros (? & ? & _); discriminate]).
  destruct (existsb _ (v10.split_hyphen s)) eqn:E; split; try done.
  - intros _. exists s. split; [done|]. apply existsb_exists in E as (t & Ht & ->%bool_decide_eq_true).
    by apply list_elem_of_In.
  - intros (name & [= <-] & Hin). apply not_true_iff_false in E. destruct E. apply existsb_exists.
    exists "ovpn"%string. split; [by apply list_elem_of_In|by apply bool_decide_eq_true].
Qed.

Lemma de_tunnel_type_tag v t : v10.de_tunnel_type v = Some t → t ∈ ["openvpn"; "wireguard"]%string.
Proof.
  assert (∀ s, snd <$> List.find (λ t, bool_decide (t.1 = s))
    [("openvpn"%string, "openvpn"%string); ("wireguard"%string, "wireguard"%string)] = Some t →
    t ∈ ["openvpn"; "wireguard"]%string) as Hf.
  { intros s (p & [Hp _]%find_some & ->)%fmap_Some. apply list_elem_of_In in Hp. set_solver. }
  unfold v10.de_tunnel_type, de_tag. destruct v as [| | | |s| |[|[s [| | | | | |]] [|]]]; try done; apply Hf.
Qed.

(** The protocol chosen, and the rest of the relay settings. *)
Lemma migrate_tunnel_type_spec n n' :
  v10.migrate_tunnel_type_inner n = Done n' →
  (∀ k, k ≠ "tunnel_protocol"%string → get k n' = get k n) ∧
  match get "tunnel_protocol" n with
  | None => n' = n
  | Some p => ∃ t, get "tunnel_protocol" n' = Some (String_ t) ∧ t ∈ ["openvpn"; "wireguard"]%string ∧
      if decide (p = any)
      then t = v10.protocol_of_hostname (get_path ["location"; "only"; "location"; "hostname"]%string n)
      else (only ← get "only" p; v10.de_tunnel_type only) = Some t
  end.
Proof.
  destruct n as [| | | | | |m]; try (by intros [= <-]). unfold v10.migrate_tunnel_type_inner, index_set. cbn [get].
  destruct (map_get "tunnel_protocol" m) as [p|] eqn:Ep; [|by intros [= <-]].
  destruct p as [| | | |s| |c]; try done.
  - destruct (decide (s = "any"%string)) as [->|]; [|done]. cbn. intros [= <-].
    split; [intros k Hk; by apply map_get_insert_ne|]. eexists. cbn [get]. rewrite map_get_insert. split; [done|].
    split; [|done]. unfold v10.protocol_of_hostname. repeat case_match; set_solver.
  - destruct (map_get "only" c) as [o|] eqn:Eo; [|done].
    destruct (v10.de_tunnel_type o) as [t|] eqn:Et; [|done]. cbn. intros [= <-].
    split; [intros k Hk; by apply map_get_insert_ne|]. exists t. cbn [get]. rewrite map_get_insert. split; [done|].
    split; [by eapply de_tunnel_type_tag|]. cbn. by rewrite Eo.
Qed.

(** The tenth migration leaves one tunnel protocol in the relay settings, a
    string, and changes nothing else of them.  A protocol that was chosen stays.
    Where it was open, it becomes OpenVPN exactly if the location is given with a
    host name that is a string and has the part "ovpn" between hyphens, and
    WireGuard otherwise, also if the host name is a list (the format in which the
    daemon writes locations). *)
Theorem tunnel_protocol_migrated s s' n :
  ver s = 10 → v10.migrate s = Done s' →
  get_path ["relay_settings"; "normal"]%string s = Some n →
  ∃ n', get_path ["relay_settings"; "normal"]%string s' = Some n' ∧
    (∀ k, k ≠ "tunnel_protocol"%string → get k n' = get k n) ∧
    match get "tunnel_protocol" n with
    | None => n' = n
    | Some p => ∃ t, get "tunnel_protocol" n' = Some (String_ t) ∧ t ∈ ["openvpn"; "wireguard"]%string ∧
        if decide (p = any)
        then t = "openvpn"%string ↔
          ∃ name, get_path ["location"; "only"; "location"; "hostname"]%string n = Some (String_ name) ∧
            "ovpn"%string ∈ v10.split_hyphen name
        else (only ← get "only" p; v10.de_tunnel_type only) = Some t
    end.
Proof.
  intros Hv Hm Hn. unfold v10.migrate in Hm. rewrite bool_decide_eq_true_2 in Hm by (apply version_ver; lia).
  cbn [negb] in Hm. inv_done.
  match goal with E : get_update _ _ _ = Done ?x |- _ => rename x into s1; rename E into K1 end.
  assert (∃ n', get_path ["relay_settings"; "normal"]%string s1 = Some n' ∧ v10.migrate_tunnel_type_inner n = Done n' ∧
    is_object s1 = true) as (n' & Hn' & Ht & O1).
  { destruct s as [| | | | | |m]; try done. cbn in *. destruct (map_get "relay_settings" m) as [r|]; [|done]. cbn in *.
    destruct r as [| | | | | |mr]; try done. cbn in *. destruct (map_get "normal" mr) as [n0|]; [|done].
    cbn in Hn. injection Hn as ->. inv_done. eexists. split; [|done]. cbn. rewrite map_get_insert. cbn.
    by rewrite map_get_insert. }
  match goal with E : set_version _ _ = _ |- _ => apply set_version_spec in E as [_ [_ F]]; [|done] end.
  exists n'. cbn [get_path] in *. rewrite F by (apply (bool_decide_unpack _); reflexivity). split; [done|].
  apply migrate_tunnel_type_spec in Ht as [Hk Ht]. split; [done|].
  destruct (get "tunnel_protocol" n) as [p|]; [|done]. destruct Ht as (t & Hg & Hin & Ht). exists t.
  split; [done|]. split; [done|]. case_decide; [|done]. rewrite Ht. apply protocol_of_hostname_spec.
Qed.

(** * Unique names of API access methods (migrations/v11.rs)

    The loop that renames duplicates: its recursion ends, the names become unique,
    every name is the old one or the old one with a number, and names that are
    unique already stay. *)

(** ** Generated names *)

Lemma suffixed_inj name j k : v11.suffixed name j = v11.suffixed name k → j = k.
Proof.
  unfold v11.suffixed. intros E. apply (inj (String.append name)) in E. apply (inj (String.append "_")) in E.
  apply (inj pretty) in E. lia.
Qed.

Lemma taken_spec names name index :
  v11.get_should_rename_api_access_method names name index = true ↔ name ∈ take index names.
Proof.
  unfold v11.get_should_rename_api_access_method. rewrite existsb_exists. split.
  - intros (n & Hn & <-%bool_decide_eq_true). by apply list_elem_of_In.
  - intros Hn. exists name. split; [by apply list_elem_of_In|by apply bool_decide_eq_true].
Qed.

Lemma generate_some fuel names name index suffix g :
  v11.generate_access_method_name fuel names name index suffix = Some g →
  g ∉ take index names ∧ ∃ k, (suffix ≤ k)%nat ∧ g = v11.suffixed name k.
Proof.
  revert suffix; induction fuel as [|fuel IH]; intros suffix; [done|]. cbn.
  destruct (v11.get_should_rename_api_access_method names (v11.suffixed name suffix) index) eqn:E.
  - intros (Hg & k & Hk & ->)%IH. split; [done|]. exists k. split; [lia|done].
  - intros [= <-]. split; [|by eauto]. rewrite <- taken_spec, E. done.
Qed.

Lemma generate_none fuel names name index suffix :
  v11.generate_access_method_name fuel names name index suffix = None →
  map (v11.suffixed name) (seq suffix fuel) ⊆ take index names.
Proof.
  revert suffix; induction fuel as [|fuel IH]; intros suffix; cbn; [set_solver|].
  destruct (v11.get_should_rename_api_access_method names (v11.suffixed name suffix) index) eqn:E; [|done].
  apply taken_spec in E. intros Hi%IH. rewrite Nat.add_1_r in Hi. set_solver.
Qed.

(** The candidates differ, so [index] of them cannot all be taken, and one more is
    enough. *)
Lemma generate_total names name index suffix :
  ∃ g, v11.generate_access_method_name (S index) names name index suffix = Some g.
Proof.
  destruct (v11.generate_access_method_name (S index) names name index suffix) as [g|] eqn:E; [by exists g|].
  apply generate_none in E. exfalso.
  assert (NoDup (map (v11.suffixed name) (seq suffix (S index)))) as Hn.
  { apply NoDup_fmap_2; [intros j k; apply suffixed_inj|apply NoDup_seq]. }
  pose proof (submseteq_length _ _ (NoDup_submseteq _ _ Hn E)) as Hl.
  rewrite length_map, length_seq, length_take in Hl. lia.
Qed.

(** ** The loop *)

(** The name of an access method afterwards. *)
Definition renamed (old new : string) : Prop := new = old ∨ ∃ k, (1 ≤ k)%nat ∧ new = v11.suffixed old k.

Lemma rename_step_spec names i name :
  names !! i = Some name →
  ∃ name', v11.rename_step names i = <[i := name']> names ∧ name' ∉ take i names ∧ renamed name name' ∧
    (name ∉ take i names → name' = name).
Proof.
  intros Hi. unfold v11.rename_step. rewrite Hi.
  destruct (v11.get_should_rename_api_access_method names name i) eqn:E.
  - apply taken_spec in E.
    destruct (generate_total names name i (v11.generate_access_method_name_initial_suffix names name)) as [g Hg].
    rewrite Hg. exists g. apply generate_some in Hg as (Hn & k & Hk & ->). split_and!; [done..| |done].
    right. exists k. split; [|done]. unfold v11.generate_access_method_name_initial_suffix in Hk.
    destruct (Nat.ltb_spec 1 (v11.count name names)); lia.
  - apply not_true_iff_false in E. rewrite taken_spec in E. exists name.
    split_and!; [by rewrite list_insert_id|done|by left|done].
Qed.

Lemma take_S_insert {A} (l : list A) i x y : l !! i = Some x → take (S i) (<[i := y]> l) = take i l ++ [y].
Proof.
  intros Hl. rewrite (take_S_r _ _ y); [by rewrite take_insert_ge|].
  apply list_lookup_insert_eq. by eapply lookup_lt_Some.
Qed.

(** After the first [n] rounds. *)
Lemma rename_rounds names n :
  (n ≤ length names)%nat →
  let names' := foldl v11.rename_step names (seq 0 n) in
  NoDup (take n names') ∧ drop n names' = drop n names ∧ Forall2 renamed names names' ∧ (NoDup names → names' = names).
Proof.
  induction n as [|n IH]; intros Hn; cbn zeta.
  - split_and!; [apply NoDup_nil_2|done| |done]. apply Forall_Forall2_diag, Forall_true. by left.
  - rewrite seq_S, foldl_app. cbn [foldl Nat.add]. destruct (IH ltac:(lia)) as (Hd & Hr & Hf & Hi).
    set (names' := foldl v11.rename_step names (seq 0 n)) in *.
    assert (∃ name, names !! n = Some name) as [name Hname] by (apply lookup_lt_is_Some; lia).
    assert (names' !! n = Some name) as Hname'.
    { rewrite <- (Nat.add_0_r n), <- lookup_drop, Hr, lookup_drop, Nat.add_0_r. done. }
    destruct (rename_step_spec names' n name Hname') as (g & -> & Hg & Hren & Hid). split_and!.
    + rewrite (take_S_insert _ _ name) by done. apply NoDup_app. split; [done|]. split; [set_solver|apply NoDup_singleton].
    + rewrite drop_insert_lt by lia. rewrite <- (Nat.add_1_r n), <- !drop_drop, Hr. done.
    + rewrite <- (list_insert_id names n name) by done. by apply Forall2_insert.
    + intros Hnd. rewrite Hi by done. rewrite Hi in Hid, Hname' by done. rewrite Hid; [by apply list_insert_id|].
      intros (j & Hj)%list_elem_of_lookup. apply lookup_take_Some in Hj as [Hj Hlt].
      pose proof (NoDup_lookup names j n name Hnd Hj Hname). lia.
Qed.

Lemma rename_all_spec names :
  NoDup (v11.rename_all names) ∧ Forall2 renamed names (v11.rename_all names) ∧
  (NoDup names → v11.rename_all names = names).
Proof.
  destruct (rename_rounds names (length names) ltac:(lia)) as (Hd & _ & Hf & Hi). fold (v11.rename_all names) in *.
  split_and!; [|done..]. rewrite (Forall2_length _ _ _ Hf) in Hd. by rewrite take_ge in Hd.
Qed.

(** ** Writing the names back *)

Lemma write_names_spec l names :
  length names = length (omap v11.name_of l) →
  omap v11.name_of (v11.write_names l names) = names ∧
  Forall2 (λ v v', is_object v' = is_object v ∧ ∀ k, k ≠ "name"%string → get k v' = get k v) l (v11.write_names l names).
Proof.
  revert names; induction l as [|v l IH]; intros names Hl; cbn [omap list_omap v11.write_names] in *.
  - destruct names; [|done]. split; [done|constructor].
  - destruct (v11.name_of v) as [n|] eqn:E; cbn [length] in Hl.
    + destruct v as [| | | | | |m]; try done. destruct names as [|n' names]; [done|].
      destruct (IH names ltac:(cbn in Hl; lia)) as [IH1 IH2]. cbn [omap list_omap]. 
      assert (v11.name_of (Object (map_insert "name" (String_ n') m)) = Some n') as ->.
      { unfold v11.name_of. cbn. by rewrite map_get_insert. }
      split; [by rewrite IH1|]. constructor; [|done]. split; [done|]. intros k Hk. by apply map_get_insert_ne.
    + destruct (IH names Hl) as [IH1 IH2]. cbn [omap list_omap]. rewrite E. split; [done|]. by constructor.
Qed.

(** The last migration makes the names of the custom API access methods unique.
    The recursion that looks for a free name always ends; every name is the old
    one, or the old one followed by an underscore and a number from one; the
    methods keep their order and everything but the name; and if the names were
    unique before, none changes. *)
Theorem access_names_unique s s' l :
  ver s = 11 → v11.migrate s = Done s' →
  get_path ["api_access_methods"; "custom"]%string s = Some (Array l) →
  ∃ l', get_path ["api_access_methods"; "custom"]%string s' = Some (Array l') ∧
    NoDup (omap v11.name_of l') ∧
    Forall2 renamed (omap v11.name_of l) (omap v11.name_of l') ∧
    (NoDup (omap v11.name_of l) → omap v11.name_of l' = omap v11.name_of l) ∧
    Forall2 (λ v v', is_object v' = is_object v ∧ ∀ k, k ≠ "name"%string → get k v' = get k v) l l'.
Proof.
  intros Hv Hm Hl. unfold v11.migrate in Hm. rewrite bool_decide_eq_true_2 in Hm by (apply version_ver; lia).
  cbn [negb] in Hm. inv_done.
  match goal with E : v11.migrate_block_when_disconnected _ = Done ?x |- _ => rename x into s1; rename E into K1 end.
  match goal with E : v11.migrate_duplicated_api_access_method_names _ = Done ?x |- _ => rename x into s2; rename E into K2 end.
  assert (frame ["block_when_disconnected"; "lockdown_mode"]%string s s1) as [O1 F1].
  { assert (is_object s = true) as Ho by (by destruct s). unfold_steps. solve_frame. }
  assert (is_object s2 = true) as O2 by (by eapply rename_frames).
  match goal with E : set_version _ _ = _ |- _ => apply set_version_spec in E as [_ [_ F2]]; [|done] end.
  cbn [get_path] in *. rewrite F2 by (apply (bool_decide_unpack _); reflexivity).
  rewrite <- F1 in Hl by (apply (bool_decide_unpack _); reflexivity).
  unfold v11.migrate_duplicated_api_access_method_names in K2. rewrite O1 in K2.
  destruct s1 as [| | | | | |m]; try done. cbn in Hl, K2.
  destruct (map_get "api_access_methods" m) as [a|]; [|done]. cbn in Hl.
  destruct a as [| | | | | |ma]; try done. cbn in Hl, K2. destruct (map_get "custom" ma) as [c|]; [|done].
  cbn in Hl, K2. simplify_eq. exists (v11.write_names l (v11.rename_all (omap v11.name_of l))).
  destruct (rename_all_spec (omap v11.name_of l)) as (Hn & Hf & Hi).
  destruct (write_names_spec l (v11.rename_all (omap v11.name_of l))) as [Hw Hk].
  { symmetry. eapply Forall2_length, Hf. }
  rewrite Hw. cbn in K2. injection K2 as <-. cbn. rewrite map_get_insert. cbn. by rewrite map_get_insert.
Qed.

Definition method (name : string) : Value := object [("id"%string, String_ name); ("name"%string, String_ name)].
Definition duplicated : Value :=
  object [("settings_version"%string, Number 11); ("block_when_disconnected"%string, Bool true);
          ("api_access_methods"%string,
           object [("custom"%string, Array [method "proxy"; Null; method "proxy"; method "proxy_1"; method "proxy"])])].

Lemma access_names_unique_witness : ∃ s', v11.migrate duplicated = Done s' ∧
  get_path ["api_access_methods"; "custom"]%string duplicated =
    Some (Array [method "proxy"; Null; method "proxy"; method "proxy_1"; method "proxy"]) ∧
  ∃ l', get_path ["api_access_methods"; "custom"]%string s' = Some (Array l') ∧ NoDup (omap v11.name_of l') ∧
    omap v11.name_of l' = ["proxy"; "proxy_2"; "proxy_1"; "proxy_3"]%string.
Proof.
  eexists. split; [vm_compute; reflexivity|]. split; [vm_compute; reflexivity|].
  destruct (access_names_unique duplicated _ _ ltac:(vm_compute; reflexivity) ltac:(vm_compute; reflexivity)
    ltac:(vm_compute; reflexivity)) as (l' & Hl & Hn & _).
  exists l'. split; [exact Hl|]. split; [exact Hn|]. revert Hl. vm_compute. intros [= <-]. reflexivity.
Defined.

(** * Example settings of older versions

    Settings without a version, with a bridge and an account, and an account
    history in its second format, on which the theorems on migrations are applied. *)

Module MigrationExample.
(** An account history of one entry, as JSON text and as the value it is. *)
Definition quoted (s : string) : string := String v7.QUOTE (s ++ String v7.QUOTE "").
Definition history_v2 : string := ("[[" ++ quoted "1234" ++ "," ++ quoted "key" ++ "]]")%string.
#[local] Instance example_formats : Formats := {|
  canonical_ip := λ s, Some s;
  canonical_socket := λ s, Some s;
  canonical_bridge_constraints := λ v, Some v;
  display_other := λ _, "null"%string;
  parse_json := λ s, if decide (s = history_v2) then Some (Array [Array [String_ "1234"; String_ "key"]]) else None
|}.

Definition remote : Value :=
  object [("address"%string, String_ "192.0.2.1:1080");
          ("auth"%string, object [("username"%string, String_ "user"); ("password"%string, String_ "pass")])].
(** An OpenVPN relay, selected as the daemon writes it. *)
Definition openvpn_relay : Value :=
  only (object [("hostname"%string, Array [String_ "se"; String_ "got"; String_ "se-got-ovpn-001"])]).
Definition old_settings : Value :=
  object [
    ("relay_settings"%string, object [("normal"%string, object [("location"%string, openvpn_relay)])]);
    ("bridge_settings"%string, object [("custom"%string, object [("remote"%string, remote)])]);
    ("account_token"%string, String_ "1234");
    ("block_when_disconnected"%string, Bool true);
    ("allow_lan"%string, Bool true)].

Definition no_faults : Faults :=
  {| f_read := false; f_copy := false; f_remove := false;
     f_read_history := false; f_truncate_history := false; f_write_history := false; f_sync_history := false;
     f_open := false; f_write := false; f_sync := false |}.
Definition example_disk : Disk :=
  {| settings_file := Some (Some old_settings); history := None; old_history := Some history_v2 |}.

Definition migrated : M (Value * option v5.MigrationData) * Disk := migrate_settings no_faults example_disk old_settings.
Definition new_settings : Value := match migrated.1 with Done (s, _) => s | _ => Null end.
Definition extracted : option v5.MigrationData := match migrated.1 with Done (_, data) => data | _ => None end.
Definition disk_after : Disk := migrated.2.

Lemma migrated_done : migrate_settings no_faults example_disk old_settings = (Done (new_settings, extracted), disk_after).
Proof. vm_compute. reflexivity. Defined.

Lemma settings_migrated_witness :
  outdated old_settings = true ∧ get "settings_version" new_settings = Some (Number 12) ∧
  get "lockdown_mode" new_settings = Some (Bool true) ∧ get "allow_lan" new_settings = Some (Bool true).
Proof.
  destruct (settings_migrated _ _ _ _ _ _ migrated_done) as (_ & Hv & Hk & _).
  change (outdated old_settings) with true in Hv. cbn iota in Hv. destruct Hv as (Hv & Hl & _ & _).
  split; [reflexivity|]. split; [exact Hv|]. split; [exact Hl|].
  apply (Hk "allow_lan"%string). apply (bool_decide_unpack _). vm_compute. exact I.
Defined.

Lemma account_extracted_witness :
  extracted = Some {| v5.token := "1234"; v5.wg_data := Some (String_ "key") |} ∧ get "account_token" new_settings = None.
Proof.
  pose proof (account_extracted _ _ _ _ _ _ migrated_done) as Ha. cbn zeta in Ha.
  rewrite decide_True in Ha by (vm_compute; split; discriminate).
  change (v5.not_null (get "account_token" old_settings)) with (Some (String_ "1234")) in Ha. cbn iota in Ha.
  destruct Ha as (t & Ht & Hd & Hn & _). split; [|exact Hn]. injection Ht as <-. exact Hd.
Defined.

(** The settings cannot be written: the key is gone. *)
Definition disk_full : Faults :=
  {| f_read := false; f_copy := false; f_remove := false;
     f_read_history := false; f_truncate_history := false; f_write_history := false; f_sync_history := false;
     f_open := false; f_write := true; f_sync := false |}.
Lemma migration_disk_witness :
  (migrate_all disk_full example_disk).1 = Failed Write ∧
  settings_file (migrate_all disk_full example_disk).2 = Some None ∧
  history (migrate_all disk_full example_disk).2 = Some "1234"%string.
Proof.
  assert (migrate_all disk_full example_disk = (Failed Write, (migrate_all disk_full example_disk).2)) as E
    by (vm_compute; reflexivity).
  split; [vm_compute; reflexivity|].
  destruct (migration_disk disk_full example_disk old_settings _ _ eq_refl E) as [Hs Hh]. split; [exact Hs|].
  rewrite Hh. vm_compute. reflexivity.
Defined.

(** The relay that was selected is an OpenVPN relay, and WireGuard is chosen. *)
Definition settings_v10 : Value :=
  object [("settings_version"%string, Number 10);
    ("relay_settings"%string, object [("normal"%string,
      object [("tunnel_protocol"%string, any); ("location"%string, only (object [("location"%string,
        object [("hostname"%string, Array [String_ "se"; String_ "got"; String_ "se-got-ovpn-001"])])]))])])].
Lemma tunnel_protocol_migrated_witness :
  ∃ n', get_path ["relay_settings"; "normal"]%string
      (match v10.migrate settings_v10 with Done s => s | _ => Null end) = Some n' ∧
    get "tunnel_protocol" n' = Some (String_ "wireguard").
Proof.
  assert (v10.migrate settings_v10 = Done (match v10.migrate settings_v10 with Done s => s | _ => Null end)) as E
    by (vm_compute; reflexivity).
  destruct (tunnel_protocol_migrated settings_v10 _ _ eq_refl E eq_refl) as (n' & Hn & _ & Ht).
  exists n'. split; [exact Hn|]. revert Hn. vm_compute. intros [= <-]. reflexivity.
Defined.
End MigrationExample.
