(* ===== verification/Retry.v ===== *)
(** * Retrying requests (talpid-future/src/retry.rs)

    [retry_future] repeats a request as long as its result asks for it and the
    strategy has a delay left.  The results of the attempts are a function of
    their number; a strategy is an iterator, a state with a step.  Durations are in
    nanoseconds and saturate as in the standard library.  Jitter is a
    floating-point factor in (0, 1]: what it does to a delay is a parameter. *)

From S2P Require Import Prelude.

(** [Duration::MAX]: the seconds are 64 bits wide. *)
Definition DURATION_MAX : Z := 2 ^ 64 * 10 ^ 9 - 1.
Definition saturating_mul (d factor : Z) : Z := Z.min (d * factor) DURATION_MAX.

(** ** Strategies *)

Record ConstantInterval : Set := { interval : Z; attempt : Z; max_attempts : option Z }.
Definition ConstantInterval_new (interval : Z) (max_attempts : option Z) : ConstantInterval :=
  {| interval := interval; attempt := 0; max_attempts := max_attempts |}.
(** The counter is a [usize] and saturates. *)
Definition ConstantInterval_next (c : ConstantInterval) : option (Z * ConstantInterval) :=
  match max_attempts c with
  | Some m => if m <=? attempt c then None
      else Some (interval c, {| interval := interval c; attempt := Z.min (attempt c + 1) (2 ^ 64 - 1);
                                max_attempts := max_attempts c |})
  | None => Some (interval c, {| interval := interval c; attempt := Z.min (attempt c + 1) (2 ^ 64 - 1);
                                 max_attempts := max_attempts c |})
  end.

Record ExponentialBackoff : Set := { next_value : Z; factor : Z; max_delay : option Z }.
Definition ExponentialBackoff_new (initial factor : Z) : ExponentialBackoff :=
  {| next_value := initial; factor := factor; max_delay := None |}.
Definition set_max_delay (d : option Z) (b : ExponentialBackoff) : ExponentialBackoff :=
  {| next_value := next_value b; factor := factor b; max_delay := d |}.
Definition next_delay (b : ExponentialBackoff) : Z * ExponentialBackoff :=
  let next := next_value b in
  let advanced := (next, {| next_value := saturating_mul next (factor b); factor := factor b; max_delay := max_delay b |}) in
  match max_delay b with
  | Some m => if m <? next then (m, b) else advanced
  | None => advanced
  end.
Definition ExponentialBackoff_next (b : ExponentialBackoff) : option (Z * ExponentialBackoff) := Some (next_delay b).

(** [Jittered]: [jitter n] is what the [n]-th random factor makes of a delay. *)
Definition Jittered_next {I} (jitter : nat → Z → Z) (next : I → option (Z * I)) (s : nat * I) : option (Z * (nat * I)) :=
  match next s.2 with
  | Some (d, i) => Some (jitter s.1 d, (S s.1, i))
  | None => None
  end.

(** ** The loop *)

Section Retry.
Context {T I : Type} (next : I → option (Z * I)) (factory : nat → T) (should_retry : nat → T → bool).

(** The result, the number of attempts and the delays slept; [None]: still running
    after [fuel] attempts. *)
Fixpoint retry_future (fuel : nat) (n : nat) (delays : I) : option (T * nat * list Z) :=
  match fuel with
  | O => None
  | S fuel =>
      let current_result := factory n in
      if should_retry n current_result then
        match next delays with
        | Some (delay, delays) =>
            match retry_future fuel (S n) delays with
            | Some (r, k, ds) => Some (r, S k, delay :: ds)
            | None => None
            end
        | None => Some (current_result, 1%nat, [])
        end
      else Some (current_result, 1%nat, [])
  end.

(** The delays the strategy has before it ends, at most [n]. *)
Fixpoint take_delays (n : nat) (delays : I) : list Z :=
  match n with
  | O => []
  | S n => match next delays with Some (d, delays) => d :: take_delays n delays | None => [] end
  end.

(** What the loop returns is the result of its last attempt, all earlier results
    asked for another one, and the delays are those of the strategy. *)
Lemma retry_future_result fuel n delays r k ds :
  retry_future fuel n delays = Some (r, k, ds) →
  (0 < k)%nat ∧ length ds = pred k ∧ ds = take_delays (pred k) delays ∧ r = factory (n + pred k)%nat ∧
  (∀ i, (n ≤ i < n + pred k)%nat → should_retry i (factory i) = true) ∧
  (should_retry (n + pred k)%nat r = false ∨ take_delays k delays = ds).
Proof.
  revert n delays r k ds; induction fuel as [|fuel IH]; intros n delays r k ds; [done|]. cbn.
  destruct (should_retry n (factory n)) eqn:E.
  2: { intros [= <- <- <-]. cbn. rewrite Nat.add_0_r. split_and!; try done; [lia|intros; lia|by left]. }
  destruct (next delays) as [[d delays']|] eqn:N.
  2: { intros [= <- <- <-]. cbn. rewrite Nat.add_0_r, N. split_and!; try done; [lia|intros; lia|by right]. }
  destruct (retry_future fuel (S n) delays') as [[[r' k'] ds']|] eqn:R; [|done]. intros [= <- <- <-].
  destruct (IH _ _ _ _ _ R) as (Hk & Hl & Hd & Hr & Ha & Hs). destruct k' as [|k']; [lia|]. cbn [pred] in *.
  rewrite Nat.add_succ_comm in *. split_and!.
  - lia.
  - cbn. by rewrite Hl.
  - cbn. rewrite N. by rewrite <- Hd.
  - done.
  - intros i Hi. destruct (decide (i = n)) as [->|]; [done|]. apply Ha. lia.
  - destruct Hs as [Hs|Hs]; [by left|right]. cbn [take_delays] in *. rewrite N. by rewrite Hs.
Qed.

(** The loop ends when a result does not ask for more. *)
Lemma retry_future_ends fuel n delays m :
  (n ≤ m < n + fuel)%nat → should_retry m (factory m) = false → ∃ x, retry_future fuel n delays = Some x.
Proof.
  revert n delays; induction fuel as [|fuel IH]; intros n delays Hm Hs; [lia|]. cbn.
  destruct (should_retry n (factory n)) eqn:E; [|eauto]. destruct (next delays) as [[d delays']|]; [|eauto].
  destruct (decide (n = m)) as [->|]; [congruence|]. destruct (IH (S n) delays') as [[[r k] ds] ->]; [lia|done|eauto].
Qed.
(** It also ends when the strategy has no more delays. *)
Lemma retry_future_exhausted fuel n delays k :
  (length (take_delays k delays) < k)%nat → (k ≤ fuel)%nat → ∃ x, retry_future fuel n delays = Some x.
Proof.
  revert n delays k; induction fuel as [|fuel IH]; intros n delays k Hk Hf; [lia|]. cbn.
  destruct (should_retry n (factory n)); [|eauto]. destruct k as [|k]; [lia|]. cbn in Hk.
  destruct (next delays) as [[d delays']|]; [|eauto]. cbn in Hk.
  destruct (IH (S n) delays' k) as [[[r k'] ds] ->]; [lia|lia|eauto].
Qed.
End Retry.

(** ** Delays of the strategies *)

Lemma constant_delays n c m :
  max_attempts c = Some m → 0 ≤ attempt c ≤ m → m < 2 ^ 64 →
  take_delays ConstantInterval_next n c = replicate (min n (Z.to_nat (m - attempt c))) (interval c).
Proof.
  revert c; induction n as [|n IH]; intros [i a mx] Hm Ha Hw; [done|]. cbn in Hm, Ha. subst mx.
  cbn [take_delays]. unfold ConstantInterval_next at 1. cbn [max_attempts attempt interval].
  destruct (Z.leb_spec m a).
  - replace (Z.to_nat (m - a)) with 0%nat by lia. done.
  - rewrite IH; cbn [max_attempts attempt interval]; [|done|lia|lia].
    replace (Z.to_nat (m - a)) with (S (Z.to_nat (m - Z.min (a + 1) (2 ^ 64 - 1)))) by lia.
    rewrite <- Nat.succ_min_distr. done.
Qed.

Definition limit (b : ExponentialBackoff) : Z := match max_delay b with Some m => m | None => DURATION_MAX end.

(** One delay, and what follows. *)
Lemma next_delay_spec b :
  0 ≤ next_value b ≤ DURATION_MAX → 1 ≤ factor b → limit b ≤ DURATION_MAX →
  let '(d, b') := next_delay b in
  d = Z.min (next_value b) (limit b) ∧ factor b' = factor b ∧ max_delay b' = max_delay b ∧
  0 ≤ next_value b' ≤ DURATION_MAX ∧
  Z.min (next_value b') (limit b) = Z.min (next_value b * factor b) (limit b).
Proof.
  intros Hn Hf Hl. unfold next_delay, limit, saturating_mul in *. destruct (max_delay b) as [m|] eqn:E.
  - destruct (Z.ltb_spec m (next_value b)); cbn; rewrite ?E; split_and!; try done; try nia.
  - cbn. rewrite ?E. split_and!; try done; nia.
Qed.

Lemma backoff_delays n i b :
  0 ≤ next_value b ≤ DURATION_MAX → 1 ≤ factor b → limit b ≤ DURATION_MAX → (i < n)%nat →
  take_delays ExponentialBackoff_next n b !! i = Some (Z.min (next_value b * factor b ^ Z.of_nat i) (limit b)).
Proof.
  revert i b; induction n as [|n IH]; intros i b Hn Hf Hl Hi; [lia|]. cbn [take_delays]. unfold ExponentialBackoff_next at 1.
  pose proof (next_delay_spec b Hn Hf Hl) as Hd. destruct (next_delay b) as [d b'].
  destruct Hd as (-> & Hf' & Hm & Hn' & Hmin). assert (limit b' = limit b) as Hl' by (unfold limit; by rewrite Hm).
  destruct i as [|i]; cbn [lookup list_lookup]; [by rewrite Z.mul_1_r|].
  rewrite IH by (rewrite ?Hf', ?Hl'; lia). f_equal. rewrite Hf', Hl', Nat2Z.inj_succ, Z.pow_succ_r by lia.
  rewrite Z.mul_assoc. assert (0 < factor b ^ Z.of_nat i) by (apply Z.pow_pos_nonneg; lia).
  assert (0 ≤ next_value b * factor b) by nia.
  destruct (Z.le_gt_cases (limit b) (next_value b')), (Z.le_gt_cases (limit b) (next_value b * factor b)); try lia; nia.
Qed.
