(* ===== verification/Availability.v ===== *)
(** * Whether the API may be used (mullvad-api/src/availability.rs)

    A shared state says whether the host is offline, requests are suspended and
    background requests are paused; a timer pauses background requests when the
    daemon is not used.  Every change is broadcast, and tasks wait for a state that
    suits them.

    The mutex makes every operation atomic: an operation is a function on
    [ApiAvailabilityState], which has the broadcast values in order and the
    inactivity timer.  A receiver is a position in the broadcast values; one that is
    more than the channel's capacity behind gets an error.  The capacity is at least
    the one asked for, as documented for tokio's channel, and a variable.  Times are
    nanoseconds. *)

From S2P Require Import Prelude.

Definition INACTIVITY_TIME : Z := 3 * 24 * 60 * 60 * 10 ^ 9.

Record State : Set := { suspended : bool; pause_background_ : bool; offline : bool; inactive : bool }.
#[global] Instance State_eq_dec : EqDecision State.
Proof. solve_decision. Defined.

Definition State_default : State :=
  {| suspended := false; pause_background_ := false; offline := false; inactive := false |}.
Definition is_suspended (s : State) : bool := suspended s.
Definition is_background_paused (s : State) : bool := offline s || pause_background_ s || suspended s || inactive s.
Definition is_offline (s : State) : bool := offline s.

(** The task of the timer: when it is due, and whether it has run. *)
Record Timer : Set := { deadline : Z; fired : bool }.
Record ApiAvailabilityState : Set := {
  initial : State;
  tx : list State;
  state : State;
  inactivity_timer : option Timer
}.

(** Assigns a new state and broadcasts it. *)
Definition publish (s : State) (a : ApiAvailabilityState) : ApiAvailabilityState :=
  {| initial := initial a; tx := tx a ++ [s]; state := s; inactivity_timer := inactivity_timer a |}.
Definition with_timer (t : option Timer) (a : ApiAvailabilityState) : ApiAvailabilityState :=
  {| initial := initial a; tx := tx a; state := state a; inactivity_timer := t |}.

Definition suspend (a : ApiAvailabilityState) : ApiAvailabilityState :=
  let s := state a in
  if negb (suspended s) then
    publish {| suspended := true; pause_background_ := pause_background_ s; offline := offline s; inactive := inactive s |} a
  else a.
Definition unsuspend (a : ApiAvailabilityState) : ApiAvailabilityState :=
  let s := state a in
  if suspended s then
    publish {| suspended := false; pause_background_ := pause_background_ s; offline := offline s; inactive := inactive s |} a
  else a.
Definition set_inactive (a : ApiAvailabilityState) : ApiAvailabilityState :=
  let s := state a in
  if negb (inactive s) then
    publish {| suspended := suspended s; pause_background_ := pause_background_ s; offline := offline s; inactive := true |} a
  else a.
Definition set_active (a : ApiAvailabilityState) : ApiAvailabilityState :=
  let s := state a in
  if inactive s then
    publish {| suspended := suspended s; pause_background_ := pause_background_ s; offline := offline s; inactive := false |} a
  else a.
Definition set_offline (off : bool) (a : ApiAvailabilityState) : ApiAvailabilityState :=
  let s := state a in
  if negb (Bool.eqb (offline s) off) then
    publish {| suspended := suspended s; pause_background_ := pause_background_ s; offline := off; inactive := inactive s |} a
  else a.
Definition pause_background (a : ApiAvailabilityState) : ApiAvailabilityState :=
  let s := state a in
  if negb (pause_background_ s) then
    publish {| suspended := suspended s; pause_background_ := true; offline := offline s; inactive := inactive s |} a
  else a.
Definition inner_resume_background (a : ApiAvailabilityState) : ApiAvailabilityState :=
  let s := state a in
  if pause_background_ s then
    publish {| suspended := suspended s; pause_background_ := false; offline := offline s; inactive := inactive s |} a
  else a.

Definition stop_inactivity_timer (a : ApiAvailabilityState) : ApiAvailabilityState := with_timer None a.
Definition inactivity_timer_running (a : ApiAvailabilityState) : bool :=
  match inactivity_timer a with Some _ => true | None => false end.

Definition reset_inactivity_timer (now : Z) (a : ApiAvailabilityState) : ApiAvailabilityState :=
  let a := stop_inactivity_timer a in
  let a := with_timer (Some {| deadline := now + INACTIVITY_TIME; fired := false |}) a in
  set_active a.
(** The handle stays in its place when its task has ended, so a timer that ran out
    counts as running. *)
Definition resume_background (now : Z) (a : ApiAvailabilityState) : ApiAvailabilityState :=
  let a := inner_resume_background a in
  if inactivity_timer_running a then reset_inactivity_timer now a else a.

Definition ApiAvailability_new (initial_state : State) (now : Z) : ApiAvailabilityState :=
  reset_inactivity_timer now
    {| initial := initial_state; tx := []; state := initial_state; inactivity_timer := None |}.

(** What the runtime does when time has come to [now]. *)
Definition run_timer (now : Z) (a : ApiAvailabilityState) : ApiAvailabilityState :=
  match inactivity_timer a with
  | Some t => if negb (fired t) && (deadline t <=? now)
      then set_inactive (with_timer (Some {| deadline := deadline t; fired := true |}) a) else a
  | None => a
  end.

Inductive Operation : Set :=
| OpSuspend | OpUnsuspend | OpSetOffline (offline : bool) | OpPauseBackground
| OpResumeBackground (now : Z) | OpResetTimer (now : Z) | OpStopTimer | OpRunTimer (now : Z).
Definition operate (o : Operation) (a : ApiAvailabilityState) : ApiAvailabilityState :=
  match o with
  | OpSuspend => suspend a
  | OpUnsuspend => unsuspend a
  | OpSetOffline off => set_offline off a
  | OpPauseBackground => pause_background a
  | OpResumeBackground now => resume_background now a
  | OpResetTimer now => reset_inactivity_timer now a
  | OpStopTimer => stop_inactivity_timer a
  | OpRunTimer now => run_timer now a
  end.
Definition operate_all (os : list Operation) (a : ApiAvailabilityState) : ApiAvailabilityState := foldl (λ a o, operate o a) a os.

(** ** Waiting for a state *)

Section Wait.
Context (CAPACITY : nat) (state_ready : State → bool).

(** The future of [wait_for_state]: its receiver, and whether it was polled. *)
Record Waiter : Set := { position : nat; started : bool }.
Definition wait_for_state (a : ApiAvailabilityState) : Waiter := {| position := length (tx a); started := false |}.

Inductive Poll : Set :=
| Pending (w : Waiter)
| Ready (r : result unit unit).

(** The loop over [rx.recv()]. *)
Fixpoint receive (values : list State) (p : nat) : Poll :=
  match values with
  | [] => Pending {| position := p; started := true |}
  | new_state :: values => if state_ready new_state then Ready (Ok ()) else receive values (S p)
  end.
Definition receive_all (a : ApiAvailabilityState) (w : Waiter) : Poll :=
  if (CAPACITY <? length (tx a) - position w)%nat then Ready (Err ())
  else receive (drop (position w) (tx a)) (position w).
Definition poll (a : ApiAvailabilityState) (w : Waiter) : Poll :=
  if started w then receive_all a w
  else if state_ready (state a) then Ready (Ok ()) else receive_all a w.
End Wait.

(** The conditions tasks wait for. *)
Definition unsuspended (s : State) : bool := negb (is_suspended s).
Definition background_resumed (s : State) : bool := negb (is_background_paused s).
Definition online (s : State) : bool := negb (is_offline s).

(** ** What the broadcast says *)

(** The state after the first [p] broadcasts. *)
Definition state_at (a : ApiAvailabilityState) (p : nat) : State :=
  match p with O => initial a | S q => default (state a) (tx a !! q) end.
(** The last broadcast is the current state. *)
Definition broadcast_ok (a : ApiAvailabilityState) : Prop := state a = state_at a (length (tx a)).

Lemma publish_ok s a : broadcast_ok (publish s a).
Proof.
  unfold broadcast_ok. cbn. rewrite length_app, Nat.add_1_r. cbn. by rewrite lookup_app_r, Nat.sub_diag by lia.
Qed.
Lemma state_at_publish s a p : broadcast_ok a → (p ≤ length (tx a))%nat → state_at (publish s a) p = state_at a p.
Proof.
  intros Ha Hp. destruct p as [|q]; [done|]. cbn. rewrite lookup_app_l by lia.
  destruct (lookup_lt_is_Some_2 (tx a) q) as [x ->]; [lia|done].
Qed.

(** One availability follows another: it has broadcast more. *)
Definition extends (a b : ApiAvailabilityState) : Prop :=
  broadcast_ok b ∧ (∃ l, tx b = tx a ++ l) ∧ (∀ p, (p ≤ length (tx a))%nat → state_at b p = state_at a p).

Lemma state_extends_refl a : broadcast_ok a → extends a a.
Proof. intros Ha. split; [done|]. split; [exists []; by rewrite app_nil_r|done]. Qed.
Lemma state_extends_trans a b c : extends a b → extends b c → extends a c.
Proof.
  intros (Hb & [l Hl] & Hs) (Hc & [l' Hl'] & Hs'). split; [done|]. split.
  - exists (l ++ l'). by rewrite Hl', Hl, <- app_assoc.
  - intros p Hp. rewrite Hs', Hs; [done|done|]. rewrite Hl, length_app. lia.
Qed.
Lemma extends_publish s a : broadcast_ok a → extends a (publish s a).
Proof. intros Ha. split; [apply publish_ok|]. split; [by eexists|]. intros p Hp. by apply state_at_publish. Qed.
Lemma extends_with_timer t a : broadcast_ok a → extends a (with_timer t a).
Proof. intros Ha. split; [done|]. split; [exists []; by rewrite app_nil_r|]. by intros [|q]. Qed.
#[local] Hint Resolve state_extends_refl extends_publish extends_with_timer : core.

(** Every operation that may publish extends. *)
Ltac extends_if := intros Ha; cbv zeta; match goal with |- extends _ (if ?b then _ else _) => destruct b end; auto.
Lemma extends_set_active a : broadcast_ok a → extends a (set_active a).
Proof. unfold set_active. extends_if. Qed.
Lemma extends_set_inactive a : broadcast_ok a → extends a (set_inactive a).
Proof. unfold set_inactive. extends_if. Qed.
Lemma extends_reset now a : broadcast_ok a → extends a (reset_inactivity_timer now a).
Proof.
  intros Ha. unfold reset_inactivity_timer, stop_inactivity_timer. cbv zeta.
  eapply state_extends_trans; [|apply extends_set_active; done]. by apply (extends_with_timer (Some {| deadline := now + INACTIVITY_TIME; fired := false |}) a).
Qed.

Lemma extends_operate o a : broadcast_ok a → extends a (operate o a).
Proof.
  intros Ha. destruct o; cbn.
  - unfold suspend. revert Ha. extends_if.
  - unfold unsuspend. revert Ha. extends_if.
  - unfold set_offline. revert Ha. extends_if.
  - unfold pause_background. revert Ha. extends_if.
  - unfold resume_background.
    assert (extends a (inner_resume_background a)) as He by (unfold inner_resume_background; revert Ha; extends_if).
    cbv zeta. destruct (inactivity_timer_running _); [|done]. eapply state_extends_trans; [done|]. apply extends_reset, He.
  - by apply extends_reset.
  - by apply extends_with_timer.
  - unfold run_timer. destruct (inactivity_timer a) as [t|]; [|auto]. destruct (negb (fired t) && (deadline t <=? now)); [|auto].
    eapply state_extends_trans; [by apply extends_with_timer|]. by apply extends_set_inactive.
Qed.

Lemma extends_operate_all os a : broadcast_ok a → extends a (operate_all os a).
Proof.
  revert a; induction os as [|o os IH]; intros a Ha; [by apply state_extends_refl|]. cbn.
  pose proof (extends_operate o a Ha) as He. eapply state_extends_trans; [done|]. apply IH, He.
Qed.

Lemma new_ok s now : broadcast_ok (ApiAvailability_new s now).
Proof. by apply extends_reset. Qed.

(** ** Tasks that wait *)

Section Waiting.
Context (CAPACITY : nat) (state_ready : State → bool).

(** A task that subscribed after [p0] broadcasts, while others change the state and
    it is polled. *)
Inductive waiting (p0 : nat) : ApiAvailabilityState → Waiter → Prop :=
| waiting_new a : broadcast_ok a → p0 = length (tx a) → waiting p0 a (wait_for_state a)
| waiting_operate a w o : waiting p0 a w → waiting p0 (operate o a) w
| waiting_poll a w w' : waiting p0 a w → poll CAPACITY state_ready a w = Pending w' → waiting p0 a w'.

(** The waiter has seen the states up to its position, and none was ready. *)
Definition waiter_ok (p0 : nat) (a : ApiAvailabilityState) (w : Waiter) : Prop :=
  broadcast_ok a ∧ (p0 ≤ position w ≤ length (tx a))%nat ∧
  (started w = true → state_ready (state_at a (position w)) = false).

Lemma receive_spec a p values :
  drop p (tx a) = values → (p ≤ length (tx a))%nat →
  match receive state_ready values p with
  | Pending w => w = {| position := length (tx a); started := true |} ∧
      (values ≠ [] → state_ready (state_at a (length (tx a))) = false)
  | Ready (Ok _) => ∃ q, (p < q ≤ length (tx a))%nat ∧ state_ready (state_at a q) = true
  | Ready (Err _) => False
  end.
Proof.
  revert p; induction values as [|v values IH]; intros p Hd Hp; cbn.
  - assert (p = length (tx a)) as ->; [|done]. apply (f_equal length) in Hd. rewrite length_drop in Hd. cbn in Hd. lia.
  - assert (tx a !! p = Some v) as Hv by (rewrite <- (Nat.add_0_r p), <- lookup_drop, Hd; done).
    apply lookup_lt_Some in Hv as Hlt. destruct (state_ready v) eqn:E.
    { exists (S p). split; [lia|]. cbn. by rewrite Hv. }
    assert (drop (S p) (tx a) = values) as Hd' by (rewrite <- (Nat.add_1_r p), <- drop_drop, Hd; done).
    specialize (IH (S p) Hd' ltac:(lia)). destruct (receive state_ready values (S p)) as [w|[]]; [|destruct IH as (q & ? & ?); exists q; split; [lia|done]|done].
    destruct IH as [-> IH]. split; [done|]. intros _. destruct values as [|v' values]; [|by apply IH].
    apply (f_equal length) in Hd'. rewrite length_drop in Hd'. cbn in Hd'. assert (length (tx a) = S p) as -> by lia.
    cbn. by rewrite Hv.
Qed.

Lemma waiter_poll_spec p0 a w :
  waiter_ok p0 a w →
  match poll CAPACITY state_ready a w with
  | Pending w' => state_ready (state a) = false ∧ waiter_ok p0 a w'
  | Ready (Ok _) => ∃ q, (p0 ≤ q ≤ length (tx a))%nat ∧ state_ready (state_at a q) = true
  | Ready (Err _) => (CAPACITY < length (tx a) - position w)%nat
  end.
Proof.
  intros (Ha & Hp & Hs). assert (∀ not_ready : started w = true ∨ state_ready (state a) = false,
    match receive_all CAPACITY state_ready a w with
    | Pending w' => state_ready (state a) = false ∧ waiter_ok p0 a w'
    | Ready (Ok _) => ∃ q, (p0 ≤ q ≤ length (tx a))%nat ∧ state_ready (state_at a q) = true
    | Ready (Err _) => (CAPACITY < length (tx a) - position w)%nat
    end) as Hr.
  { intros Hnr. unfold receive_all. destruct (Nat.ltb_spec CAPACITY (length (tx a) - position w)); [done|].
    pose proof (receive_spec a (position w) _ eq_refl ltac:(lia)) as R.
    destruct (receive state_ready (drop (position w) (tx a)) (position w)) as [w'|[]]; [|destruct R as (q & ? & ?); exists q; split; [lia|done]|done].
    destruct R as [-> R]. assert (state_ready (state a) = false) as E.
    { rewrite Ha. destruct (drop (position w) (tx a)) as [|v l] eqn:D; [|by apply R].
      apply (f_equal length) in D. rewrite length_drop in D. cbn in D.
      destruct Hnr as [Hst|Hst]; [|by rewrite <- Ha]. rewrite <- (Hs Hst). f_equal. f_equal. lia. }
    split; [done|]. split; [done|]. cbn. split; [lia|]. intros _. by rewrite <- Ha. }
  unfold poll. destruct (started w) eqn:Est; [apply Hr; by left|].
  destruct (state_ready (state a)) eqn:E; [|apply Hr; by right].
  exists (length (tx a)). split; [lia|]. by rewrite <- Ha.
Qed.

Lemma waiting_ok p0 a w : waiting p0 a w → waiter_ok p0 a w.
Proof.
  induction 1 as [a Ha ->|a w o _ (Ha & Hp & Hs)|a w w' _ IH Hw].
  - split; [done|]. cbn. split; [lia|done].
  - destruct (extends_operate o a Ha) as (Ho & [l Hl] & He). split; [done|]. split; [rewrite Hl, length_app; lia|].
    intros Hst. rewrite He by lia. by apply Hs.
  - pose proof (waiter_poll_spec p0 a w IH) as Hp. rewrite Hw in Hp. apply Hp.
Qed.

(** No wake-up is lost.  However the availability changes and however often a
    waiting task is polled: as long as it is told to wait the current state is not
    one it waits for; when it goes on, there was such a state since it
    subscribed, or more values than the channel holds were broadcast since its last
    poll. *)
Theorem waiters_wake p0 a w :
  waiting p0 a w →
  match poll CAPACITY state_ready a w with
  | Pending _ => state_ready (state a) = false
  | Ready (Ok _) => ∃ q, (p0 ≤ q ≤ length (tx a))%nat ∧ state_ready (state_at a q) = true
  | Ready (Err _) => (CAPACITY < length (tx a) - position w)%nat
  end.
Proof. intros Hw%waiting_ok%waiter_poll_spec. destruct (poll CAPACITY state_ready a w) as [|[]]; naive_solver. Qed.
End Waiting.

(** A task waits for the host to come online, and it does. *)
Lemma waiters_wake_witness :
  let a := set_offline true (ApiAvailability_new State_default 0) in
  let w := {| position := 1; started := true |} in
  poll 100 online a (wait_for_state a) = Pending w ∧ waiting 100 online 1 a w ∧ online (state a) = false ∧
  poll 100 online (set_offline false a) w = Ready (Ok ()).
Proof.
  assert (poll 100 online (set_offline true (ApiAvailability_new State_default 0))
    (wait_for_state (set_offline true (ApiAvailability_new State_default 0))) = Pending {| position := 1; started := true |}) as E
    by reflexivity.
  assert (waiting 100 online 1 (set_offline true (ApiAvailability_new State_default 0)) {| position := 1; started := true |}) as W.
  { apply (waiting_poll _ _ _ _ (wait_for_state (set_offline true (ApiAvailability_new State_default 0)))); [|exact E].
    apply waiting_new; [|reflexivity]. apply (extends_operate (OpSetOffline true)), new_ok. }
  cbv zeta. split; [exact E|]. split; [exact W|]. split; [|reflexivity].
  exact (waiters_wake 100 online _ _ _ W).
Defined.
