(* ===== verification/DeviceService.v ===== *)
(** * Devices, accounts and their API requests

    mullvad-types/src/device.rs, account.rs and wireguard.rs (the data),
    mullvad-api/src/rest.rs (its errors) and mullvad-daemon/src/device/service.rs:
    the requests the account manager makes, their retries, the meaning of API errors,
    and what the answers do to the availability of the API (Availability.v).

    The answers to the attempts of a request, whether the host is offline after
    each, and the clock are arguments.  Deriving a public key belongs to the crate
    of the curve and is the class [Keys].  Keys are strings; times are nanoseconds. *)

From S2P Require Import Prelude NetTypes Retry Availability.

Class Keys : Type := { public_key : string → string }.

(** ** Data *)

Definition DeviceId := string.
Definition AccountNumber := string.

Record Device : Set := {
  dev_id : DeviceId; dev_name : string; dev_pubkey : string; dev_hijack_dns : bool; dev_created : Z
}.
Record AssociatedAddresses : Set := { ipv4_address : IpNetwork; ipv6_address : IpNetwork }.
Record WireguardData : Set := { private_key : string; addresses : AssociatedAddresses; wg_created : Z }.
Record PrivateDevice : Set := {
  id : DeviceId; name : string; wg_data : WireguardData; hijack_dns : bool; created : Z
}.
Record PrivateAccountAndDevice : Set := { account_number : AccountNumber; device : PrivateDevice }.
Record AccountData : Set := { account_id : string; expiry : Z }.
Record VoucherSubmission : Set := { time_added : Z; new_expiry : Z }.

#[global] Instance AssociatedAddresses_eq_dec : EqDecision AssociatedAddresses.
Proof. solve_decision. Defined.
#[global] Instance WireguardData_eq_dec : EqDecision WireguardData.
Proof. solve_decision. Defined.
#[global] Instance PrivateDevice_eq_dec : EqDecision PrivateDevice.
Proof. solve_decision. Defined.
#[global] Instance PrivateAccountAndDevice_eq_dec : EqDecision PrivateAccountAndDevice.
Proof. solve_decision. Defined.

(** [AccountData::is_expired]. *)
Definition AccountData_is_expired (d : AccountData) (now : Z) : bool := expiry d <=? now.

(** ** Errors *)

Module rest.
Inductive Error : Set :=
| RestServiceDown | Aborted | LegacyHyperError | HyperError | InvalidHeaderError | HttpError | TimeoutError
| DeserializeError | ApiError (status : Z) (code : string) | InvalidUri | NoAccessTokenStore | FetchVersions | BodyTooLarge.
#[global] Instance Error_eq_dec : EqDecision Error.
Proof. solve_decision. Defined.
Definition is_network_error (e : Error) : bool :=
  match e with HyperError | LegacyHyperError | TimeoutError => true | _ => false end.
Definition is_aborted (e : Error) : bool := match e with Aborted => true | _ => false end.
Definition NOT_FOUND : Z := 404.
End rest.

Definition VOUCHER_USED : string := "VOUCHER_USED".
Definition INVALID_VOUCHER : string := "INVALID_VOUCHER".
Definition INVALID_ACCOUNT : string := "INVALID_ACCOUNT".
Definition DEVICE_NOT_FOUND : string := "DEVICE_NOT_FOUND".
Definition MAX_DEVICES_REACHED : string := "MAX_DEVICES_REACHED".
Definition PUBKEY_IN_USE : string := "PUBKEY_IN_USE".

Inductive Error : Set :=
| MaxDevicesReached | NoDevice | InvalidDevice | InvalidAccount | InvalidVoucher | UsedVoucher
| DeviceIoError | ParseDeviceCache | OtherRestError (e : rest.Error) | Cancelled | AccountChange | AccountManagerDown.
#[global] Instance Error_eq_dec : EqDecision Error.
Proof. solve_decision. Defined.
Definition is_network_error (e : Error) : bool :=
  match e with OtherRestError e => rest.is_network_error e | _ => false end.
Definition is_aborted (e : Error) : bool := match e with OtherRestError e => rest.is_aborted e | _ => false end.

Definition map_rest_error (error : rest.Error) : Error :=
  match error with
  | rest.ApiError _ code =>
      if decide (code = DEVICE_NOT_FOUND) then InvalidDevice
      else if decide (code = INVALID_ACCOUNT) then InvalidAccount
      else if decide (code = MAX_DEVICES_REACHED) then MaxDevicesReached
      else if decide (code = INVALID_VOUCHER) then InvalidVoucher
      else if decide (code = VOUCHER_USED) then UsedVoucher
      else OtherRestError error
  | error => OtherRestError error
  end.

(** ** Retries *)

(** Retry at once, three times. *)
Definition RETRY_ACTION_STRATEGY : ConstantInterval := ConstantInterval_new 0 (Some 3).
(** Without the jitter: 4 seconds, then five times as long every time, a day at most. *)
Definition RETRY_BACKOFF_STRATEGY : ExponentialBackoff :=
  set_max_delay (Some (24 * 60 * 60 * 10 ^ 9)) (ExponentialBackoff_new (4 * 10 ^ 9) 5).

Definition should_retry {A} (r : result rest.Error A) (offline : bool) : bool :=
  match r with Err error => if rest.is_network_error error then negb offline else false | Ok _ => false end.
Definition should_retry_backoff {A} (r : result rest.Error A) : bool :=
  match r with
  | Ok _ => false
  | Err (rest.ApiError status code) =>
      negb (status =? rest.NOT_FOUND) && bool_decide (code ≠ DEVICE_NOT_FOUND) && bool_decide (code ≠ INVALID_ACCOUNT) &&
      bool_decide (code ≠ MAX_DEVICES_REACHED) && bool_decide (code ≠ PUBKEY_IN_USE)
  | Err _ => true
  end.

(** An action makes at most four attempts, so four steps are enough. *)
Definition retry_action {A} (replies : nat → result rest.Error A) (offline : nat → bool) : result rest.Error A :=
  match retry_future ConstantInterval_next replies (λ n r, should_retry r (offline n)) 4 0 RETRY_ACTION_STRATEGY with
  | Some (r, _, _) => r
  | None => Err rest.Aborted
  end.
(** A background request goes on until it is answered; [jitter] are its random
    factors. *)
Definition retry_backoff {A} (jitter : nat → Z → Z) (strategy : ExponentialBackoff) (fuel : nat)
    (replies : nat → result rest.Error A) : option (result rest.Error A) :=
  (λ x, x.1.1) <$> retry_future (Jittered_next jitter ExponentialBackoff_next) replies (λ _ r, should_retry_backoff r) fuel 0
    (0%nat, strategy).

(** ** Devices *)

Section Service.
Context `{Keys}.

Definition try_from_device (device : Device) (wg_data : WireguardData) : result Error PrivateDevice :=
  if decide (dev_pubkey device ≠ public_key (private_key wg_data)) then Err InvalidDevice
  else Ok {| id := dev_id device; name := dev_name device; wg_data := wg_data;
             hijack_dns := dev_hijack_dns device; created := dev_created device |}.
Definition PrivateDevice_update (d : PrivateDevice) (device : Device) : result Error PrivateDevice :=
  if decide (dev_pubkey device ≠ public_key (private_key (wg_data d))) then Err InvalidDevice
  else Ok {| id := dev_id device; name := dev_name device; wg_data := wg_data d;
             hijack_dns := dev_hijack_dns device; created := dev_created device |}.
(** [From<PrivateDevice> for Device]. *)
Definition Device_from (d : PrivateDevice) : Device :=
  {| dev_id := id d; dev_name := name d; dev_pubkey := public_key (private_key (wg_data d));
     dev_hijack_dns := hijack_dns d; dev_created := created d |}.

(** The account and device made of a reply to [proxy.create]. *)
Definition device_of_reply (number : AccountNumber) (key : string) (now : Z)
    (reply : result rest.Error (Device * AssociatedAddresses)) : result Error PrivateAccountAndDevice :=
  '(device, addresses) ← map_err map_rest_error reply;
  device ← try_from_device device {| private_key := key; addresses := addresses; wg_created := now |};
  Ok {| account_number := number; device := device |}.

Definition generate_for_account (number : AccountNumber) (key : string)
    (replies : nat → result rest.Error (Device * AssociatedAddresses)) (offline : nat → bool) (now : Z) :
    result Error PrivateAccountAndDevice :=
  device_of_reply number key now (retry_action replies offline).
Definition generate_for_account_with_backoff (jitter : nat → Z → Z) (fuel : nat) (number : AccountNumber) (key : string)
    (replies : nat → result rest.Error (Device * AssociatedAddresses)) (now : Z) : option (result Error PrivateAccountAndDevice) :=
  device_of_reply number key now <$> retry_backoff jitter RETRY_BACKOFF_STRATEGY fuel replies.

Definition remove_device_inner (replies : nat → result rest.Error unit) (offline : nat → bool) : result Error unit :=
  map_err map_rest_error (retry_action replies offline).
Definition list_devices (replies : nat → result rest.Error (list Device)) (offline : nat → bool) : result Error (list Device) :=
  map_err map_rest_error (retry_action replies offline).
Definition remove_device (removed : nat → result rest.Error unit) (listed : nat → result rest.Error (list Device))
    (offline : nat → bool) : result Error (list Device) :=
  _ ← remove_device_inner removed offline; list_devices listed offline.
Definition remove_device_with_backoff (jitter : nat → Z → Z) (fuel : nat) (replies : nat → result rest.Error unit) :
    option (result Error unit) :=
  map_err map_rest_error <$> retry_backoff jitter (set_max_delay None RETRY_BACKOFF_STRATEGY) fuel replies.
Definition list_devices_with_backoff (jitter : nat → Z → Z) (fuel : nat) (replies : nat → result rest.Error (list Device)) :
    option (result Error (list Device)) :=
  map_err map_rest_error <$> retry_backoff jitter RETRY_BACKOFF_STRATEGY fuel replies.

Definition rotated (key : string) (now : Z) (reply : result rest.Error AssociatedAddresses) : result Error WireguardData :=
  addresses ← map_err map_rest_error reply;
  Ok {| private_key := key; addresses := addresses; wg_created := now |}.
Definition rotate_key (key : string) (replies : nat → result rest.Error AssociatedAddresses) (offline : nat → bool) (now : Z) :
    result Error WireguardData :=
  rotated key now (retry_action replies offline).
(** Once a day, without end. *)
Definition rotate_key_with_backoff (fuel : nat) (key : string) (replies : nat → result rest.Error AssociatedAddresses) (now : Z) :
    option (result Error WireguardData) :=
  (λ x, rotated key now x.1.1) <$>
    retry_future ConstantInterval_next replies (λ _ r, should_retry_backoff r) fuel 0
      (ConstantInterval_new (24 * 60 * 60 * 10 ^ 9) None).
Definition get (replies : nat → result rest.Error Device) (offline : nat → bool) : result Error Device :=
  map_err map_rest_error (retry_action replies offline).

(** *** Devices for migrated accounts (migrations/device.rs)

    [None] is a request that did not end within the time limit. *)
Definition within_timeout {A} (r : option (result Error A)) : result Error A :=
  match r with Some r => r | None => Err Cancelled end.
Definition cache_from_wireguard_key (number : AccountNumber) (wg_data : WireguardData)
    (listed : option (result Error (list Device))) : result Error PrivateAccountAndDevice :=
  devices ← within_timeout listed;
  match List.find (λ d, bool_decide (dev_pubkey d = public_key (private_key wg_data))) devices with
  | Some d => d ← try_from_device d wg_data; Ok {| account_number := number; device := d |}
  | None => Err InvalidDevice
  end.
Definition cache_from_account (generated : option (result Error PrivateAccountAndDevice)) : result Error PrivateAccountAndDevice :=
  within_timeout generated.
Definition generate_device (number : AccountNumber) (wg_data : option WireguardData) (listed : option (result Error (list Device)))
    (generated : option (result Error PrivateAccountAndDevice)) : result Error PrivateAccountAndDevice :=
  match wg_data with
  | Some wg_data => cache_from_wireguard_key number wg_data listed
  | None => cache_from_account generated
  end.
End Service.

(** ** Accounts *)

(** [AccountService]: the shared availability and the task of the initial check. *)
Record AccountService : Set := {
  api_availability : ApiAvailabilityState;
  initial_check : option AccountNumber
}.

Definition handle_account_data_result (r : result rest.Error AccountData) (now : Z) (a : ApiAvailabilityState) :
    bool * ApiAvailabilityState :=
  match r with
  | Ok data =>
      if now <=? expiry data then (true, resume_background now a)
      else (true, pause_background a)
  | Err (rest.ApiError _ code) =>
      if decide (code = INVALID_ACCOUNT) then (true, pause_background a) else (false, a)
  | Err _ => (false, a)
  end.

Definition get_data (replies : nat → result rest.Error AccountData) (offline : nat → bool) (now : Z) (s : AccountService) :
    result rest.Error AccountData * AccountService :=
  let result := retry_action replies offline in
  let '(handled, a) := handle_account_data_result result now (api_availability s) in
  (result, {| api_availability := a; initial_check := if handled then None else initial_check s |}).
Definition get_data_2 (replies : nat → result rest.Error AccountData) (offline : nat → bool) (now : Z) (s : AccountService) :
    result Error AccountData * AccountService :=
  let '(result, s) := get_data replies offline now s in (map_err map_rest_error result, s).
Definition submit_voucher (replies : nat → result rest.Error VoucherSubmission) (offline : nat → bool) (now : Z)
    (s : AccountService) : result Error VoucherSubmission * AccountService :=
  let result := retry_action replies offline in
  (map_err map_rest_error result,
   if is_ok result then {| api_availability := resume_background now (api_availability s); initial_check := None |} else s).
Definition create_account (replies : nat → result rest.Error AccountNumber) (offline : nat → bool) : result rest.Error AccountNumber :=
  retry_action replies offline.
Definition get_www_auth_token (replies : nat → result rest.Error string) (offline : nat → bool) : result rest.Error string :=
  retry_action replies offline.

Definition spawn_account_service (number : option AccountNumber) (a : ApiAvailabilityState) : AccountService :=
  let a := pause_background a in
  match number with
  | None => {| api_availability := pause_background a; initial_check := None |}
  | Some number => {| api_availability := a; initial_check := Some number |}
  end.
(** An attempt of the initial check was answered. *)
Definition initial_check_attempt (r : result rest.Error AccountData) (now : Z) (s : AccountService) : AccountService :=
  match initial_check s with
  | None => s
  | Some number =>
      let '(state_was_updated, a) := handle_account_data_result r now (api_availability s) in
      {| api_availability := a; initial_check := if state_was_updated then None else Some number |}
  end.

(** ** Theorems on retries *)

Lemma jittered_delays {I} (jitter : nat → Z → Z) (next : I → option (Z * I)) n k s i :
  take_delays (Jittered_next jitter next) n (k, s) !! i = jitter (k + i)%nat <$> take_delays next n s !! i.
Proof.
  revert k s i; induction n as [|n IH]; intros k s i; [done|]. cbn [take_delays]. unfold Jittered_next at 1. cbn [fst snd].
  destruct (next s) as [[d s']|]; [|done]. destruct i as [|i]; cbn; [by rewrite Nat.add_0_r|].
  by rewrite IH, Nat.add_succ_comm.
Qed.

(** A request made for the user is tried at most four times and never waits: its
    result is that of the first attempt that did not fail for a network error while
    the host was online, or of the fourth. *)
Theorem requests_retried {A} (replies : nat → result rest.Error A) (offline : nat → bool) :
  ∃ n, (n ≤ 3)%nat ∧ retry_action replies offline = replies n ∧
    (∀ i, (i < n)%nat → ∃ e, replies i = Err e ∧ rest.is_network_error e = true ∧ offline i = false) ∧
    ((n < 3)%nat → ∀ e, replies n = Err e → rest.is_network_error e = true → offline n = true).
Proof.
  assert (∀ k, take_delays ConstantInterval_next k RETRY_ACTION_STRATEGY = replicate (min k 3) 0) as Hd.
  { intros k. by rewrite (constant_delays k _ 3) by (done || cbn; lia). }
  destruct (retry_future_exhausted ConstantInterval_next replies (λ n r, should_retry r (offline n)) 4 0 RETRY_ACTION_STRATEGY 4)
    as [[[r k] ds] E]; [rewrite Hd; cbn; lia|lia|].
  unfold retry_action. rewrite E. apply retry_future_result in E as (Hk & Hl & Hds & -> & Ha & Hs). cbn [plus] in *.
  rewrite Hd in Hds. subst ds. rewrite length_replicate in Hl. exists (pred k). split; [lia|]. split; [done|]. split.
  - intros i Hi. specialize (Ha i ltac:(lia)). unfold should_retry in Ha. destruct (replies i) as [|e]; [done|].
    exists e. destruct (rest.is_network_error e); [|done]. by destruct (offline i).
  - intros Hlt e He Hn. destruct Hs as [Hs|Hs].
    + rewrite He in Hs. unfold should_retry in Hs. rewrite Hn in Hs. by destruct (offline (pred k)).
    + rewrite Hd in Hs. apply (f_equal length) in Hs. rewrite !length_replicate in Hs. lia.
Qed.

(** A background request goes on until it gets an answer that settles it: it
    returns the first reply that is a success or says that the device or the account
    does not exist, that the account is full or that the key is taken; and it waits
    4 seconds before the second attempt, five times as long before every further one
    and never more than a day, each time shortened by the jitter. *)
Theorem background_retries {A} (jitter : nat → Z → Z) (replies : nat → result rest.Error A) m fuel :
  should_retry_backoff (replies m) = false → (m < fuel)%nat →
  ∃ k delays, (k ≤ m)%nat ∧
    retry_future (Jittered_next jitter ExponentialBackoff_next) replies (λ _ r, should_retry_backoff r) fuel 0
      (0%nat, RETRY_BACKOFF_STRATEGY) = Some (replies k, S k, delays) ∧
    should_retry_backoff (replies k) = false ∧ (∀ i, (i < k)%nat → should_retry_backoff (replies i) = true) ∧
    length delays = k ∧
    ∀ i, (i < k)%nat → delays !! i = Some (jitter i (Z.min (4 * 10 ^ 9 * 5 ^ Z.of_nat i) (24 * 60 * 60 * 10 ^ 9))).
Proof.
  intros Hm Hf. set (next := Jittered_next jitter ExponentialBackoff_next).
  destruct (retry_future_ends next replies (λ _ r, should_retry_backoff r) fuel 0 (0%nat, RETRY_BACKOFF_STRATEGY) m)
    as [[[r k] ds] E]; [lia|done|].
  apply retry_future_result in E as R. destruct R as (Hk & Hl & Hds & Hr & Ha & Hs). cbn [plus] in *.
  assert (∀ n i, (i < n)%nat → take_delays next n (0%nat, RETRY_BACKOFF_STRATEGY) !! i =
    Some (jitter i (Z.min (4 * 10 ^ 9 * 5 ^ Z.of_nat i) (24 * 60 * 60 * 10 ^ 9)))) as Hd.
  { intros n i Hi. unfold next. rewrite jittered_delays. rewrite backoff_delays by (done || cbn; lia). done. }
  assert (should_retry_backoff r = false) as Hstop.
  { destruct Hs as [Hs|Hs]; [done|]. exfalso. pose proof (Hd k (pred k) ltac:(lia)) as Hlt%lookup_lt_Some.
    rewrite Hs in Hlt. lia. }
  exists (pred k), ds. replace (S (pred k)) with k by lia. subst r. split_and!; try done.
  - destruct (decide (pred k ≤ m)%nat); [done|]. rewrite Ha in Hm by lia. done.
  - intros i Hi. apply Ha. lia.
  - intros i Hi. rewrite Hds. apply Hd. lia.
Qed.

Lemma background_retries_witness :
  let replies n := if (n <? 3)%nat then Err rest.TimeoutError else Ok n in
  should_retry_backoff (replies 3%nat) = false ∧
  ∃ k delays, retry_future (Jittered_next (λ _ d, d) ExponentialBackoff_next) replies (λ _ r, should_retry_backoff r) 4 0
      (0%nat, RETRY_BACKOFF_STRATEGY) = Some (replies k, S k, delays) ∧ (k ≤ 3)%nat ∧
    delays = [4000000000; 20000000000; 100000000000].
Proof.
  intros replies. split; [reflexivity|].
  destruct (background_retries (λ _ d, d) replies 3 4 eq_refl ltac:(lia)) as (k & delays & Hk & E & _).
  exists k, delays. split; [exact E|]. split; [exact Hk|]. revert E. vm_compute. intros [= E1 E2 E3]. congruence.
Defined.

(** ** Theorems on accounts *)

Inductive ServiceOp : Type :=
| SvGetData (replies : nat → result rest.Error AccountData) (offline : nat → bool) (now : Z)
| SvSubmitVoucher (replies : nat → result rest.Error VoucherSubmission) (offline : nat → bool) (now : Z)
| SvInitialCheck (reply : result rest.Error AccountData) (now : Z)
| SvSuspend | SvUnsuspend | SvSetOffline (offline : bool) | SvResetTimer (now : Z) | SvStopTimer | SvRunTimer (now : Z).

Definition with_availability (f : ApiAvailabilityState → ApiAvailabilityState) (s : AccountService) : AccountService :=
  {| api_availability := f (api_availability s); initial_check := initial_check s |}.
Definition service_step (s : AccountService) (o : ServiceOp) : AccountService :=
  match o with
  | SvGetData replies offline now => (get_data replies offline now s).2
  | SvSubmitVoucher replies offline now => (submit_voucher replies offline now s).2
  | SvInitialCheck reply now => initial_check_attempt reply now s
  | SvSuspend => with_availability suspend s
  | SvUnsuspend => with_availability unsuspend s
  | SvSetOffline off => with_availability (set_offline off) s
  | SvResetTimer now => with_availability (reset_inactivity_timer now) s
  | SvStopTimer => with_availability stop_inactivity_timer s
  | SvRunTimer now => with_availability (run_timer now) s
  end.

(** What an answer says of the account: it has time left, it has none or does not
    exist, or nothing. *)
Definition account_verdict (r : result rest.Error AccountData) (now : Z) : option bool :=
  match r with
  | Ok data => Some (now <=? expiry data)
  | Err (rest.ApiError _ code) => if decide (code = INVALID_ACCOUNT) then Some false else None
  | Err _ => None
  end.
Definition op_verdict (s : AccountService) (o : ServiceOp) : option bool :=
  match o with
  | SvGetData replies offline now => account_verdict (retry_action replies offline) now
  | SvSubmitVoucher replies offline _ => if is_ok (retry_action replies offline) then Some true else None
  | SvInitialCheck reply now => match initial_check s with Some _ => account_verdict reply now | None => None end
  | _ => None
  end.
(** The verdict of the last answer that has one. *)
Fixpoint last_verdict (s : AccountService) (os : list ServiceOp) (v : bool) : bool :=
  match os with
  | [] => v
  | o :: os => last_verdict (service_step s o) os (default v (op_verdict s o))
  end.

Abbreviation paused a := (pause_background_ (state a)).
Lemma paused_set_active a : paused (set_active a) = paused a.
Proof. unfold set_active. by destruct (inactive (state a)). Qed.
Lemma paused_reset now a : paused (reset_inactivity_timer now a) = paused a.
Proof. unfold reset_inactivity_timer. cbv zeta. by rewrite paused_set_active. Qed.
Lemma paused_resume now a : paused (resume_background now a) = false.
Proof.
  unfold resume_background. cbv zeta. assert (paused (inner_resume_background a) = false) as E.
  { unfold inner_resume_background. cbv zeta. by destruct (pause_background_ (state a)) eqn:E. }
  destruct (inactivity_timer_running _); [by rewrite paused_reset|done].
Qed.
Lemma paused_pause a : paused (pause_background a) = true.
Proof. unfold pause_background. cbv zeta. by destruct (pause_background_ (state a)) eqn:E. Qed.
Lemma handle_account_data_verdict r now a :
  (handle_account_data_result r now a).1 = bool_decide (account_verdict r now ≠ None) ∧
  paused (handle_account_data_result r now a).2 = negb (default (negb (paused a)) (account_verdict r now)).
Proof.
  unfold handle_account_data_result, account_verdict. destruct r as [data|[]];
    try (by split; [by rewrite bool_decide_eq_false_2 by naive_solver|cbn; by rewrite negb_involutive]).
  - destruct (now <=? expiry data); cbn; [by rewrite paused_resume|by rewrite paused_pause].
  - case_decide; cbn; [by rewrite paused_pause|by rewrite negb_involutive].
Qed.

Lemma service_step_paused s o :
  paused (api_availability (service_step s o)) = negb (default (negb (paused (api_availability s))) (op_verdict s o)).
Proof.
  destruct o; cbn [service_step op_verdict].
  - unfold get_data. pose proof (handle_account_data_verdict (retry_action replies offline) now (api_availability s)) as [_ Hp].
    by destruct (handle_account_data_result _ _ _).
  - unfold submit_voucher. cbn [snd]. destruct (is_ok (retry_action replies offline)); cbn;
      [by rewrite paused_resume|by rewrite negb_involutive].
  - unfold initial_check_attempt. destruct (initial_check s); [|cbn; by rewrite negb_involutive].
    pose proof (handle_account_data_verdict reply now (api_availability s)) as [_ Hp].
    by destruct (handle_account_data_result _ _ _).
  - cbn. unfold suspend. cbv zeta. rewrite negb_involutive. by destruct (negb (suspended _)).
  - cbn. unfold unsuspend. cbv zeta. rewrite negb_involutive. by destruct (suspended _).
  - cbn. unfold set_offline. cbv zeta. rewrite negb_involutive. by destruct (negb (Bool.eqb _ _)).
  - cbn. by rewrite paused_reset, negb_involutive.
  - cbn. by rewrite negb_involutive.
  - cbn. rewrite negb_involutive. unfold run_timer. destruct (inactivity_timer _) as [t|]; [|done].
    destruct (negb (fired t) && _); [|done]. unfold set_inactive. cbv zeta. cbn. by destruct (negb (inactive _)).
Qed.

(** Background requests are paused when the daemon starts and whenever the
    account is not known to have time left: after any sequence of requests and other
    events, they are paused exactly if the last answer that says anything about the
    account says that it has expired or does not exist, or if there was none. *)
Theorem background_needs_time number a os :
  paused (api_availability (foldl service_step (spawn_account_service number a) os)) =
  negb (last_verdict (spawn_account_service number a) os false).
Proof.
  assert (paused (api_availability (spawn_account_service number a)) = negb false) as E.
  { unfold spawn_account_service. cbv zeta. destruct number; cbn [api_availability]; by rewrite paused_pause. }
  revert E. generalize (spawn_account_service number a) as s. generalize false as v. intros v s E.
  revert s v E. induction os as [|o os IH]; intros s v E; [done|]. cbn [foldl last_verdict]. apply IH.
  rewrite service_step_paused, E. by rewrite negb_involutive.
Qed.
