(* ===== verification/AccountManager.v ===== *)
(** * The account manager (mullvad-daemon/src/device/mod.rs, api.rs)

    An actor that owns the device the daemon is logged in with.  It runs at most one
    API call at a time and keeps the requests that wait for it; it writes the device
    to a file, tells its listeners of every change, and rotates the WireGuard key
    when it is due.  The second part is the handler that has the device checked when
    tunnels cannot be set up.

    [Manager] is the actor's state, with the cache file and the call under way; [out]
    has what it sent: answers to requests (a request is a number, the name of its
    reply channel), reply channels that were dropped, events for listeners and
    devices to remove in the background.  [step] is one turn of the loop: a command,
    or the result of the call under way ([Results] has one of every type).  Which
    write to the cache fails, the clock and the listeners that are gone are inputs
    too.  [None] is a panic.  Times are nanoseconds. *)

From S2P Require Import Prelude NetTypes TunnelTypes Availability DeviceService.

Definition VALIDITY_CACHE_TIMEOUT : Z := 10 * 10 ^ 9.
Definition WG_DEVICE_CHECK_THRESHOLD : Z := 3.

(** ** Device state *)

Inductive PrivateDeviceState : Set :=
| LoggedIn (device : PrivateAccountAndDevice)
| LoggedOut
| Revoked.
#[global] Instance PrivateDeviceState_eq_dec : EqDecision PrivateDeviceState.
Proof. solve_decision. Defined.
Definition state_logged_in (s : PrivateDeviceState) : bool := match s with LoggedIn _ => true | _ => false end.
Definition state_logged_out (s : PrivateDeviceState) : bool := match s with LoggedOut => true | _ => false end.
Definition state_device (s : PrivateDeviceState) : option PrivateAccountAndDevice :=
  match s with LoggedIn d => Some d | _ => None end.

Inductive PrivateDeviceEvent : Set :=
| EvLogin (d : PrivateAccountAndDevice)
| EvLogout
| EvRevoked
| EvUpdated (d : PrivateAccountAndDevice)
| EvRotatedKey (d : PrivateAccountAndDevice).
Definition event_state (e : PrivateDeviceEvent) : PrivateDeviceState :=
  match e with
  | EvLogin config | EvUpdated config | EvRotatedKey config => LoggedIn config
  | EvLogout => LoggedOut
  | EvRevoked => Revoked
  end.
Inductive AccountEvent : Set :=
| AeDevice (e : PrivateDeviceEvent)
| AeExpiry (expiry : Z).

(** ** Requests, calls and outputs *)

Definition Tx := nat.
Bind Scope nat_scope with Tx.
Inductive AccountManagerCommand : Set :=
| CmdLogin (number : AccountNumber) (tx : Tx)
| CmdLogout (tx : Tx)
| CmdSetData (d : PrivateAccountAndDevice) (tx : Tx)
| CmdGetData (tx : Tx)
| CmdGetDataAfterLogin (tx : Tx)
| CmdRotateKey (tx : Tx)
| CmdSetRotationInterval (interval : Z) (tx : Tx)
| CmdValidateDevice (tx : Tx)
| CmdSubmitVoucher (voucher : string) (tx : Tx)
| CmdCheckExpiry (tx : Tx)
| CmdShutdown (tx : Tx).

Inductive Call : Set :=
| CallLogin (number : AccountNumber) (tx : Tx)
| CallTimerKeyRotation (number : AccountNumber) (id : DeviceId)
| CallOneshotKeyRotation (number : AccountNumber) (id : DeviceId)
| CallValidation (number : AccountNumber) (id : DeviceId)
| CallVoucherSubmission (number : AccountNumber) (voucher : string) (tx : Tx)
| CallExpiryCheck (number : AccountNumber).

Record Results : Set := {
  r_login : result Error PrivateAccountAndDevice;
  r_rotation : result Error WireguardData;
  r_validation : result Error Device;
  r_voucher : result Error VoucherSubmission;
  r_expiry : result Error Z
}.

Inductive Answer : Set :=
| AnsUnit (r : result Error unit)
| AnsData (r : result Error PrivateDeviceState)
| AnsVoucher (r : result Error VoucherSubmission)
| AnsExpiry (r : result Error Z)
| AnsStopped.
Inductive Output : Set :=
| Answered (tx : Tx) (a : Answer)
| Dropped (tx : Tx)
| Sent (listener : nat) (e : AccountEvent)
  (* [remove_device_with_backoff] in a task, which answers the logout, if any, when
     it is done or after two seconds *)
| RemoveTask (number : AccountNumber) (id : DeviceId) (tx : option Tx).

Record Manager : Type := {
  cache : option PrivateDeviceState;
  data : PrivateDeviceState;
  rotation_interval : Z;
  listeners : list nat;
  last_validation : option Z;
  validation_requests : list Tx;
  expiry_requests : list Tx;
  rotation_requests : list Tx;
  data_requests : list Tx;
  current_call : option Call;
  running : bool;
  out : list Output
}.

(** A failing write: the file was not truncated, is empty or incomplete, or was
    written and not synced. *)
Inductive WriteFault : Set := NotTruncated | Incomplete | NotSynced.
Record Env : Type := { fault : option WriteFault; now : Z; gone : list nat }.

Definition emit (os : list Output) (m : Manager) : Manager :=
  {| cache := cache m; data := data m; rotation_interval := rotation_interval m; listeners := listeners m;
     last_validation := last_validation m; validation_requests := validation_requests m;
     expiry_requests := expiry_requests m; rotation_requests := rotation_requests m; data_requests := data_requests m;
     current_call := current_call m; running := running m; out := out m ++ os |}.
Definition set_cache (c : option PrivateDeviceState) (m : Manager) : Manager :=
  {| cache := c; data := data m; rotation_interval := rotation_interval m; listeners := listeners m;
     last_validation := last_validation m; validation_requests := validation_requests m;
     expiry_requests := expiry_requests m; rotation_requests := rotation_requests m; data_requests := data_requests m;
     current_call := current_call m; running := running m; out := out m |}.
Definition set_state (s : PrivateDeviceState) (lv : option Z) (m : Manager) : Manager :=
  {| cache := cache m; data := s; rotation_interval := rotation_interval m; listeners := listeners m;
     last_validation := lv; validation_requests := validation_requests m;
     expiry_requests := expiry_requests m; rotation_requests := rotation_requests m; data_requests := data_requests m;
     current_call := current_call m; running := running m; out := out m |}.
Definition set_listeners (ls : list nat) (m : Manager) : Manager :=
  {| cache := cache m; data := data m; rotation_interval := rotation_interval m; listeners := ls;
     last_validation := last_validation m; validation_requests := validation_requests m;
     expiry_requests := expiry_requests m; rotation_requests := rotation_requests m; data_requests := data_requests m;
     current_call := current_call m; running := running m; out := out m |}.
(** The four queues: validation, expiry, rotation, data. *)
Definition set_queues (v e r d : list Tx) (m : Manager) : Manager :=
  {| cache := cache m; data := data m; rotation_interval := rotation_interval m; listeners := listeners m;
     last_validation := last_validation m; validation_requests := v; expiry_requests := e;
     rotation_requests := r; data_requests := d;
     current_call := current_call m; running := running m; out := out m |}.
Definition set_interval (i : Z) (m : Manager) : Manager :=
  {| cache := cache m; data := data m; rotation_interval := i; listeners := listeners m;
     last_validation := last_validation m; validation_requests := validation_requests m;
     expiry_requests := expiry_requests m; rotation_requests := rotation_requests m; data_requests := data_requests m;
     current_call := current_call m; running := running m; out := out m |}.
Definition put_call (c : option Call) (m : Manager) : Manager :=
  {| cache := cache m; data := data m; rotation_interval := rotation_interval m; listeners := listeners m;
     last_validation := last_validation m; validation_requests := validation_requests m;
     expiry_requests := expiry_requests m; rotation_requests := rotation_requests m; data_requests := data_requests m;
     current_call := c; running := running m; out := out m |}.

(** ** The call under way (api.rs) *)

Definition call_tx (c : option Call) : list Tx :=
  match c with Some (CallLogin _ tx) | Some (CallVoucherSubmission _ _ tx) => [tx] | _ => [] end.
(** Setting a call or clearing it drops the one under way, with its reply channel. *)
Definition set_call (c : option Call) (m : Manager) : Manager :=
  put_call c (emit (map Dropped (call_tx (current_call m))) m).

Definition is_validating (m : Manager) : bool :=
  match current_call m with Some (CallValidation _ _) | Some (CallOneshotKeyRotation _ _) => true | _ => false end.
Definition is_checking_expiry (m : Manager) : bool := match current_call m with Some (CallExpiryCheck _) => true | _ => false end.
Definition is_running_timed_totation (m : Manager) : bool :=
  match current_call m with Some (CallTimerKeyRotation _ _) => true | _ => false end.
Definition is_idle (m : Manager) : bool := match current_call m with None => true | _ => false end.
Definition is_logging_in (m : Manager) : bool := match current_call m with Some (CallLogin _ _) => true | _ => false end.

(** ** Operations *)

Definition answer (tx : Tx) (a : Answer) : Manager → Manager := emit [Answered tx a].
Definition answer_all (txs : list Tx) (a : Answer) : Manager → Manager := emit (map (λ tx, Answered tx a) txs).

Definition drain_validation (r : result Error unit) (m : Manager) : Manager :=
  set_queues [] (expiry_requests m) (rotation_requests m) (data_requests m) (answer_all (validation_requests m) (AnsUnit r) m).
Definition drain_rotation (r : result Error unit) (m : Manager) : Manager :=
  set_queues (validation_requests m) (expiry_requests m) [] (data_requests m) (answer_all (rotation_requests m) (AnsUnit r) m).
Definition drain_expiry (r : result Error Z) (m : Manager) : Manager :=
  set_queues (validation_requests m) [] (rotation_requests m) (data_requests m) (answer_all (expiry_requests m) (AnsExpiry r) m).
Definition drain_data (r : result Error PrivateDeviceState) (m : Manager) : Manager :=
  set_queues (validation_requests m) (expiry_requests m) (rotation_requests m) [] (answer_all (data_requests m) (AnsData r) m).
Definition drain_device_requests_with_err (err : Error) (m : Manager) : Manager :=
  drain_validation (Err err) (drain_rotation (Err err) m).

Section Manager.
Context `{Keys} (env : Env).

(** [listeners.retain(|l| l.send(event).is_ok())]. *)
Definition notify (e : AccountEvent) (m : Manager) : Manager :=
  let alive := List.filter (λ l, negb (bool_decide (l ∈ gone env))) (listeners m) in
  set_listeners alive (emit (map (λ l, Sent l e) alive) m).

(** [DeviceCacher::write]. *)
Definition cacher_write (s : PrivateDeviceState) (m : Manager) : result Error unit * Manager :=
  match fault env with
  | None => (Ok (), set_cache (Some s) m)
  | Some NotTruncated => (Err DeviceIoError, m)
  | Some Incomplete => (Err DeviceIoError, set_cache None m)
  | Some NotSynced => (Err DeviceIoError, set_cache (Some s) m)
  end.

Definition set (event : PrivateDeviceEvent) (m : Manager) : result Error unit * Manager :=
  let device_state := event_state event in
  if decide (device_state = data m) then (Ok (), m)
  else match cacher_write device_state m with
       | (Err e, m) => (Err e, m)
       | (Ok _, m) =>
           let m := match state_device (data m) with
                    | Some old_config =>
                        if decide ((λ d, id (device d)) <$> state_device device_state ≠ Some (id (device old_config)))
                        then emit [RemoveTask (account_number old_config) (id (device old_config)) None] m else m
                    | None => m
                    end in
           (Ok (), notify (AeDevice event) (set_state device_state None m))
       end.

Definition revoke_device (err : Error) (m : Manager) : Manager :=
  let '(_, m) := cacher_write Revoked m in
  let m := set_state Revoked (last_validation m) m in
  let m := drain_expiry (Err err) (drain_rotation (Err err) (drain_validation (Err err) m)) in
  notify (AeDevice EvRevoked) m.

Definition logout (tx : Tx) (m : Manager) : Manager :=
  let m := drain_data (Err AccountChange) m in
  if state_logged_out (data m) then answer tx (AnsUnit (Ok ())) m
  else match cacher_write LoggedOut m with
       | (Err err, m) => answer tx (AnsUnit (Err err)) m
       | (Ok _, m) =>
           let old_config := state_device (data m) in
           let m := notify (AeDevice EvLogout) (set_state LoggedOut (last_validation m) m) in
           match old_config with
           | Some old_config => emit [RemoveTask (account_number old_config) (id (device old_config)) (Some tx)] m
           | None => answer tx (AnsUnit (Ok ())) m
           end
       end.

(** [Some] call on the device, if there is one. *)
Definition device_call (f : AccountNumber → DeviceId → Call) (m : Manager) : result Error Call :=
  match state_device (data m) with
  | Some c => Ok (f (account_number c) (id (device c)))
  | None => Err NoDevice
  end.

Definition spawn_timed_key_rotation (m : Manager) : option Call :=
  match device_call CallTimerKeyRotation m with Ok c => Some c | Err _ => None end.

(** How long a timed rotation waits first. *)
Definition key_rotation_timer (interval key_created now : Z) : Z :=
  let secs := Z.quot (now - key_created) (10 ^ 9) in
  let key_age := if 0 <=? secs then secs * 10 ^ 9 else 0 in
  Z.max (Z.max (interval - key_age) 0) (60 * 10 ^ 9).

(** Whether the device has to be looked up, and the time of the last look-up. *)
Definition needs_validation (m : Manager) : bool * Manager :=
  if negb (state_logged_in (data m)) then (true, m)
  else
    let elapsed := match last_validation m with
                   | Some last => if last <=? now env then now env - last else VALIDITY_CACHE_TIMEOUT
                   | None => VALIDITY_CACHE_TIMEOUT
                   end in
    if VALIDITY_CACHE_TIMEOUT <=? elapsed then (true, set_state (data m) (Some (now env)) m) else (false, m).

(** *** Commands *)

Definition handle_validation_request (tx : Tx) (m : Manager) : Manager :=
  let push := λ m, set_queues (validation_requests m ++ [tx]) (expiry_requests m) (rotation_requests m) (data_requests m) m in
  if is_logging_in m then answer tx (AnsUnit (Err AccountChange)) m
  else if is_validating m then push m
  else
    let '(needed, m) := needs_validation m in
    if negb needed then answer tx (AnsUnit (Ok ())) m
    else match device_call CallValidation m with
         | Ok call => push (set_call (Some call) m)
         | Err err => answer tx (AnsUnit (Err err)) m
         end.

Definition handle_voucher_submission (tx : Tx) (voucher : string) (m : Manager) : Manager :=
  if is_logging_in m then answer tx (AnsVoucher (Err AccountChange)) m
  else match device_call (λ number _, CallVoucherSubmission number voucher tx) m with
       | Ok call => set_call (Some call) m
       | Err err => answer tx (AnsVoucher (Err err)) m
       end.

Definition handle_expiry_request (tx : Tx) (m : Manager) : Manager :=
  let push := λ m, set_queues (validation_requests m) (expiry_requests m ++ [tx]) (rotation_requests m) (data_requests m) m in
  if is_logging_in m then answer tx (AnsExpiry (Err AccountChange)) m
  else if is_checking_expiry m then push m
  else match device_call (λ number _, CallExpiryCheck number) m with
       | Ok call => push (set_call (Some call) m)
       | Err err => answer tx (AnsExpiry (Err err)) m
       end.

Definition handle_rotation_request (tx : Tx) (m : Manager) : Manager :=
  let push := λ m, set_queues (validation_requests m) (expiry_requests m) (rotation_requests m ++ [tx]) (data_requests m) m in
  if is_logging_in m then answer tx (AnsUnit (Err AccountChange)) m
  else if is_validating m then push m
  else match device_call CallOneshotKeyRotation m with
       | Ok call => push (set_call (Some call) m)
       | Err err => answer tx (AnsUnit (Err err)) m
       end.

(** The end of the actor drops the channels it still holds. *)
Definition stop (m : Manager) : Manager :=
  let m := emit (map Dropped (call_tx (current_call m) ++ validation_requests m ++ expiry_requests m ++
                              rotation_requests m ++ data_requests m)) m in
  {| cache := cache m; data := data m; rotation_interval := rotation_interval m; listeners := listeners m;
     last_validation := last_validation m; validation_requests := []; expiry_requests := []; rotation_requests := [];
     data_requests := []; current_call := None; running := false; out := out m |}.

Definition handle_command (c : AccountManagerCommand) (m : Manager) : Manager :=
  match c with
  | CmdShutdown tx => answer tx AnsStopped (stop m)
  | CmdLogin number tx => set_call (Some (CallLogin number tx)) m
  | CmdLogout tx => logout tx (set_call None m)
  | CmdSetData d tx => let '(r, m) := set (EvLogin d) m in answer tx (AnsUnit r) m
  | CmdGetData tx => answer tx (AnsData (Ok (data m))) m
  | CmdGetDataAfterLogin tx =>
      if is_logging_in m then
        set_queues (validation_requests m) (expiry_requests m) (rotation_requests m) (data_requests m ++ [tx]) m
      else answer tx (AnsData (Ok (data m))) m
  | CmdRotateKey tx => handle_rotation_request tx m
  | CmdSetRotationInterval interval tx =>
      let m := set_interval interval m in
      let m := if is_running_timed_totation m then set_call None m else m in
      answer tx (AnsUnit (Ok ())) m
  | CmdValidateDevice tx => handle_validation_request tx m
  | CmdSubmitVoucher voucher tx => handle_voucher_submission tx voucher m
  | CmdCheckExpiry tx => handle_expiry_request tx m
  end.

(** *** Results *)

Definition consume_login (r : result Error PrivateAccountAndDevice) (tx : Tx) (m : Manager) : Manager :=
  let '(reply, m) := match r with Ok d => set (EvLogin d) m | Err e => (Err e, m) end in
  let m := answer tx (AnsUnit reply) m in
  drain_data (Ok (data m)) m.

(** An error that says the device or the account is gone. *)
Definition gone_error (e : Error) : bool := match e with InvalidAccount | InvalidDevice => true | _ => false end.

Definition consume_voucher_result (r : result Error VoucherSubmission) (tx : Tx) (m : Manager) : Manager :=
  let m := match r with
           | Ok submission => notify (AeExpiry (new_expiry submission)) m
           | Err e => if gone_error e then revoke_device e m else m
           end in
  answer tx (AnsVoucher r) m.

Definition consume_expiry_result (r : result Error Z) (m : Manager) : Manager :=
  match r with
  | Ok expiry => drain_expiry (Ok expiry) (notify (AeExpiry expiry) m)
  | Err e => if gone_error e then revoke_device e m else drain_expiry (Err e) m
  end.

(** The rotation that follows a validation when requests are left. *)
Definition rotate_if_requested (m : Manager) : Manager :=
  if negb (bool_decide (rotation_requests m = [])) || negb (bool_decide (validation_requests m = [])) then
    match device_call CallOneshotKeyRotation m with
    | Ok call => set_call (Some call) m
    | Err _ => m
    end
  else m.

Definition consume_validation (r : result Error Device) (m : Manager) : option Manager :=
  match state_device (data m) with
  | None => None
  | Some current_config =>
      m ← match r with
          | Ok new_device =>
              if decide (dev_pubkey new_device = public_key (private_key (wg_data (device current_config)))) then
                match PrivateDevice_update (device current_config) new_device with
                | Err _ => None
                | Ok d =>
                    let '(r, m) := set (EvUpdated {| account_number := account_number current_config; device := d |}) m in
                    Some (drain_validation r m)
                end
              else Some m
          | Err e => Some (if gone_error e then revoke_device e m else drain_validation (Err e) m)
          end;
      Some (rotate_if_requested m)
  end.

Definition consume_rotation_result (r : result Error WireguardData) (m : Manager) : option Manager :=
  match state_device (data m) with
  | None => None
  | Some config =>
      Some match r with
      | Ok wg_data =>
          let d := device config in
          let config := {| account_number := account_number config;
                           device := {| id := id d; name := name d; wg_data := wg_data; hijack_dns := hijack_dns d;
                                        created := created d |} |} in
          match set (EvRotatedKey config) m with
          | (Ok _, m) => drain_validation (Ok ()) (drain_rotation (Ok ()) m)
          | (Err err, m) => drain_device_requests_with_err err m
          end
      | Err e => if gone_error e then revoke_device e m else drain_device_requests_with_err e m
      end
  end.

Definition consume_api_result (c : Call) (r : Results) (m : Manager) : option Manager :=
  match c with
  | CallLogin _ tx => Some (consume_login (r_login r) tx m)
  | CallTimerKeyRotation _ _ | CallOneshotKeyRotation _ _ => consume_rotation_result (r_rotation r) m
  | CallValidation _ _ => consume_validation (r_validation r) m
  | CallVoucherSubmission _ _ tx => Some (consume_voucher_result (r_voucher r) tx m)
  | CallExpiryCheck _ => Some (consume_expiry_result (r_expiry r) m)
  end.

(** *** The loop *)

Inductive Input : Type :=
| InCommand (c : AccountManagerCommand)
| InResult (r : Results)
| InClosed.

(** The start of a turn: if no call is under way, the next rotation is. *)
Definition prepare (m : Manager) : Manager :=
  if is_idle m then
    match spawn_timed_key_rotation m with Some c => set_call (Some c) m | None => m end
  else m.

Definition step (i : Input) (m : Manager) : option Manager :=
  if running m then
    let m := prepare m in
    match i with
    | InCommand c => Some (handle_command c m)
    | InResult r => match current_call m with
                    | Some c => consume_api_result c r (put_call None m)
                    | None => Some m
                    end
    | InClosed => Some (stop m)
    end
  else Some (match i with
             | InCommand (CmdLogin _ tx | CmdLogout tx | CmdSetData _ tx | CmdGetData tx | CmdGetDataAfterLogin tx
                         | CmdRotateKey tx | CmdSetRotationInterval _ tx | CmdValidateDevice tx | CmdSubmitVoucher _ tx
                         | CmdCheckExpiry tx | CmdShutdown tx) => emit [Dropped tx] m
             | _ => m
             end).
End Manager.

(** ** Starting (DeviceCacher::new, AccountManager::spawn) *)

(** Reads the cache; [file] is what it parses to, if it exists and is not empty. *)
Definition DeviceCacher_new (env : Env) (file : option (option PrivateDeviceState)) :
    result Error (option PrivateDeviceState * PrivateDeviceState) :=
  match file with
  | Some (Some device) => Ok (Some device, device)
  | _ => match fault env with
         | None => Ok (Some LoggedOut, LoggedOut)
         | Some _ => Err DeviceIoError
         end
  end.

Definition spawn (env : Env) (file : option (option PrivateDeviceState)) (interval : Z) (listener : nat) : result Error Manager :=
  '(cache, data) ← DeviceCacher_new env file;
  Ok {| cache := cache; data := data; rotation_interval := interval; listeners := [listener]; last_validation := None;
        validation_requests := []; expiry_requests := []; rotation_requests := []; data_requests := [];
        current_call := None; running := true; out := [] |}.

(** A run of the actor. *)
Fixpoint run `{Keys} (inputs : list (Env * Input)) (m : Manager) : option Manager :=
  match inputs with
  | [] => Some m
  | (env, i) :: inputs => m ← step env i m; run inputs m
  end.

(** ** Checking the device when tunnels fail (TunnelStateChangeHandler)

    [can_retry] is shared with the tasks that check; [running_checks] of them have
    not ended.  [started] counts the checks started. *)
Record Handler : Set := { can_retry : bool; wg_retry_attempt : Z; running_checks : nat; started_checks : nat }.
Definition Handler_new : Handler := {| can_retry := true; wg_retry_attempt := 0; running_checks := 0; started_checks := 0 |}.

Definition is_wireguard (e : TunnelEndpoint) : bool := match tunnel_type e with Wireguard => true | OpenVpn => false end.
Definition update_retry_counter (new_state : TunnelStateTransition) (retry_attempt : Z) : Z :=
  match new_state with
  | TrConnecting e => if is_wireguard e then wrap 64 (retry_attempt + 1) else retry_attempt
  | TrConnected e => if is_wireguard e then 0 else retry_attempt
  | _ => retry_attempt
  end.
Definition update_retry_bool (new_state : TunnelStateTransition) (can_retry : bool) : bool :=
  match new_state with
  | TrDisconnected _ | TrConnected _ | TrError _ => true
  | _ => can_retry
  end.
Definition should_check_device_validity_on_attempt (n : Z) : bool := (0 <? n) && (n mod WG_DEVICE_CHECK_THRESHOLD =? 0).
Definition should_continue_retries (e : Error) : bool := is_network_error e || is_aborted e.

(** [can_retry.swap(false)] happens only on the attempts that may check. *)
Definition handle_state_transition (new_state : TunnelStateTransition) (h : Handler) : Handler :=
  let attempt := update_retry_counter new_state (wg_retry_attempt h) in
  let retry := update_retry_bool new_state (can_retry h) in
  if should_check_device_validity_on_attempt attempt then
    if retry then {| can_retry := false; wg_retry_attempt := attempt; running_checks := S (running_checks h);
                     started_checks := S (started_checks h) |}
    else {| can_retry := false; wg_retry_attempt := attempt; running_checks := running_checks h; started_checks := started_checks h |}
  else {| can_retry := retry; wg_retry_attempt := attempt; running_checks := running_checks h; started_checks := started_checks h |}.

(** [check_device_validity_inner]: the device first, then the account. *)
Definition check_device_validity_inner (validated : result Error unit) (expiry : result Error Z) : result Error unit :=
  _ ← validated; _ ← expiry; Ok ().
(** A check ends with a result. *)
Definition check_device_validity (r : result Error unit) (h : Handler) : Handler :=
  match running_checks h with
  | O => h
  | S n =>
      let retry := match r with Err error => if should_continue_retries error then true else can_retry h | Ok _ => can_retry h end in
      {| can_retry := retry; wg_retry_attempt := wg_retry_attempt h; running_checks := n; started_checks := started_checks h |}
  end.

Inductive HandlerInput : Set :=
| HTransition (t : TunnelStateTransition)
| HChecked (r : result Error unit).
Definition handler_step (h : Handler) (i : HandlerInput) : Handler :=
  match i with
  | HTransition t => handle_state_transition t h
  | HChecked r => check_device_validity r h
  end.
