(* ===== verification/AccountTheorems.v ===== *)
(** * Theorems on the account manager

    Its calls only run while there is a device they are for, so it never panics;
    every request is answered once; file, listeners and the API's list of devices
    follow the device; its key is one the API knows; and when devices are checked. *)

From S2P Require Import Prelude NetTypes TunnelTypes Availability DeviceService AccountManager.

Section Theorems.
Context `{Keys}.

(** ** What the operations change *)

(** The fields other operations than those on the device leave alone. *)
Definition same_requests (m m' : Manager) : Prop :=
  current_call m' = current_call m ∧ validation_requests m' = validation_requests m ∧
  expiry_requests m' = expiry_requests m ∧ rotation_requests m' = rotation_requests m ∧
  data_requests m' = data_requests m ∧ running m' = running m.

(** The listeners that hear an event, and the outputs it makes. *)
Definition alive (env : Env) (m : Manager) : list nat :=
  List.filter (λ l, negb (bool_decide (l ∈ gone env))) (listeners m).
Definition sends (env : Env) (e : AccountEvent) (m : Manager) : list Output := map (λ l, Sent l e) (alive env m).

(** The removal of a device that another one replaces. *)
Definition removal (old new : PrivateDeviceState) : list Output :=
  match state_device old with
  | Some c => if decide ((λ d, id (device d)) <$> state_device new ≠ Some (id (device c)))
      then [RemoveTask (account_number c) (id (device c)) None] else []
  | None => []
  end.

Lemma cacher_write_spec env s m r m' :
  cacher_write env s m = (r, m') →
  same_requests m m' ∧ data m' = data m ∧ listeners m' = listeners m ∧ out m' = out m ∧
  last_validation m' = last_validation m ∧ (is_ok r = true → cache m' = Some s) ∧ (fault env = None → r = Ok ()).
Proof. unfold cacher_write, same_requests. destruct (fault env) as [[]|]; intros [= <- <-]; done. Qed.

Lemma set_spec env ev m r m' :
  set env ev m = (r, m') →
  same_requests m m' ∧
  ((r = Ok () ∧ event_state ev = data m ∧ m' = m) ∨
   (is_ok r = false ∧ fault env ≠ None ∧ data m' = data m ∧ listeners m' = listeners m ∧ out m' = out m) ∨
   (r = Ok () ∧ event_state ev ≠ data m ∧ data m' = event_state ev ∧ cache m' = Some (event_state ev) ∧
    listeners m' = alive env m ∧ out m' = out m ++ removal (data m) (event_state ev) ++ sends env (AeDevice ev) m)).
Proof.
  unfold set. cbv zeta. case_decide as E; [intros [= <- <-]; split; [done|]; by left|].
  destruct (cacher_write env (event_state ev) m) as [[[]|e] m1] eqn:W; apply cacher_write_spec in W as (Hs & Hd & Hl & Ho & _ & Hc & Hf).
  2: { intros [= <- <-]. split; [done|]. right; left. split_and!; try done. intros Hn. by specialize (Hf Hn). }
  intros [= <- <-]. split.
  - unfold removal. destruct Hs as (? & ? & ? & ? & ? & ?). repeat case_match; done.
  - right; right. unfold removal, sends, alive. rewrite Hd. split_and!; try done.
    + repeat case_match; by apply Hc.
    + repeat case_match; cbn; by rewrite Hl.
    + repeat case_match; cbn; rewrite ?Ho, ?Hl, <- ?app_assoc; done.
Qed.

(** Revoking empties three queues and always succeeds. *)
Lemma revoke_spec env err m :
  let m' := revoke_device env err m in
  current_call m' = current_call m ∧ data_requests m' = data_requests m ∧ running m' = running m ∧
  validation_requests m' = [] ∧ expiry_requests m' = [] ∧ rotation_requests m' = [] ∧ data m' = Revoked ∧
  listeners m' = alive env m ∧ (fault env = None → cache m' = Some Revoked) ∧
  out m' = out m ++ map (λ tx, Answered tx (AnsUnit (Err err))) (validation_requests m) ++
    map (λ tx, Answered tx (AnsUnit (Err err))) (rotation_requests m) ++
    map (λ tx, Answered tx (AnsExpiry (Err err))) (expiry_requests m) ++ sends env (AeDevice EvRevoked) m.
Proof.
  cbv zeta. unfold revoke_device. destruct (cacher_write env Revoked m) as [r m1] eqn:W.
  apply cacher_write_spec in W as ((Hc1 & Hv & He & Hr & Hdr & Hrun) & Hd & Hl & Ho & _ & Hc & Hf). cbn.
  split_and!; try done.
  - unfold alive. by rewrite Hl.
  - intros Hn. apply Hc. by rewrite (Hf Hn).
  - unfold sends, alive. by rewrite Ho, Hv, He, Hr, Hl, <- !app_assoc.
Qed.

(** ** Calls and their device *)

Definition needs_device (c : option Call) : bool :=
  match c with None | Some (CallLogin _ _) => false | _ => true end.

Record inv (m : Manager) : Prop := {
  inv_device : needs_device (current_call m) = true → state_logged_in (data m) = true;
  inv_data : data_requests m ≠ [] → is_logging_in m = true;
  inv_stopped : running m = false →
    current_call m = None ∧ validation_requests m = [] ∧ expiry_requests m = [] ∧ rotation_requests m = [] ∧ data_requests m = []
}.

Lemma device_call_ok f m c : device_call f m = Ok c → state_logged_in (data m) = true ∧ ∃ d, data m = LoggedIn d ∧ c = f (account_number d) (id (device d)).
Proof. unfold device_call. destruct (data m) as [d| |]; cbn; [intros [= <-]|done..]. eauto. Qed.

(** Setting a call for the device there is keeps the invariant. *)
Lemma inv_set_call f m c :
  inv m → running m = true → data_requests m = [] → device_call f m = Ok c → inv (set_call (Some c) m).
Proof. intros [I1 I2 I3] Hr Hd (Hl & _)%device_call_ok. split; cbn; [done|done|]. rewrite Hr. done. Qed.

Lemma not_logging_in_no_data m : inv m → is_logging_in m = false → data_requests m = [].
Proof. intros Hi Hl. destruct (decide (data_requests m = [])); [done|]. rewrite (inv_data m Hi) in Hl; done. Qed.

Lemma prepare_inv m : inv m → running m = true → inv (prepare m) ∧ running (prepare m) = true ∧ data (prepare m) = data m.
Proof.
  intros Hi Hr. unfold prepare, spawn_timed_key_rotation. destruct (is_idle m) eqn:E; [|done].
  destruct (device_call CallTimerKeyRotation m) as [c|] eqn:D; [|done]. split; [|done].
  eapply inv_set_call; [done..| |done]. apply not_logging_in_no_data; [done|].
  unfold is_idle in E. unfold is_logging_in. by destruct (current_call m) as [[]|].
Qed.

(** The invariant where the running manager only changes fields it does not
    mention. *)
Lemma inv_same m m' :
  inv m → running m = true → current_call m' = current_call m → data_requests m' = data_requests m →
  state_logged_in (data m') = state_logged_in (data m) → running m' = running m → inv m'.
Proof.
  intros [I1 I2 I3] Hr Hc Hd Hs Hr'. split; unfold is_logging_in in *; rewrite ?Hc, ?Hd, ?Hs, ?Hr'; try done. by rewrite Hr.
Qed.
(** The invariant with no call for a device. *)
Lemma inv_no_call m : running m = true → current_call m = None → data_requests m = [] → inv m.
Proof. intros Hr Hc Hd. split; rewrite ?Hc, ?Hd; try done. by rewrite Hr. Qed.

Lemma handle_command_inv env c m : inv m → running m = true → inv (handle_command env c m).
Proof.
  intros Hi Hr. pose proof (not_logging_in_no_data m Hi) as Hnd. destruct c; cbn [handle_command].
  - destruct Hi as [I1 I2 I3]. split; cbn; [done|done|by rewrite Hr].
  - unfold logout. cbv zeta. set (m0 := drain_data _ _). change (data m0) with (data m).
    destruct (state_logged_out (data m)); [by apply inv_no_call|].
    destruct (cacher_write env LoggedOut m0) as [[[]|e] m1] eqn:W; apply cacher_write_spec in W as ((Hc & _ & _ & _ & Hd & Hrun) & _).
    + destruct (state_device (data m1)); apply inv_no_call; cbn; rewrite ?Hc, ?Hd, ?Hrun; done.
    + apply inv_no_call; cbn; rewrite ?Hc, ?Hd, ?Hrun; done.
  - destruct (set env (EvLogin d) m) as [r m1] eqn:S. apply set_spec in S as ((Hc & _ & _ & _ & Hd & Hrun) & S).
    assert (inv m1) as Hi1; [|destruct Hi1; by split].
    destruct S as [(_ & _ & ->)|[(_ & _ & Hda & _)|(_ & _ & Hda & _)]]; [done|by apply (inv_same m); rewrite ?Hda|].
    destruct Hi as [I1 I2 I3]. split; unfold is_logging_in in *; rewrite ?Hc, ?Hd, ?Hrun, ?Hda; try done. by rewrite Hr.
  - by apply (inv_same m).
  - destruct (is_logging_in m) eqn:E; [|by apply (inv_same m)]. destruct Hi as [I1 I2 I3]. split; cbn; [done|done|by rewrite Hr].
  - unfold handle_rotation_request. destruct (is_logging_in m) eqn:E; [by apply (inv_same m)|].
    destruct (is_validating m); [by apply (inv_same m)|]. destruct (device_call _ m) as [c|] eqn:D; [|by apply (inv_same m)].
    eapply (inv_same (set_call (Some c) m)); [|done..]. eapply inv_set_call; eauto.
  - destruct (is_running_timed_totation (set_interval interval m)) eqn:E; [|by apply (inv_same m)].
    apply inv_no_call; cbn; [done|done|]. apply Hnd. unfold is_running_timed_totation in E. cbn in E. unfold is_logging_in.
    by destruct (current_call m) as [[]|].
  - unfold handle_validation_request. destruct (is_logging_in m) eqn:E; [by apply (inv_same m)|].
    destruct (is_validating m); [by apply (inv_same m)|].
    destruct (needs_validation env m) as [b m1] eqn:V.
    assert (inv m1 ∧ running m1 = true ∧ data_requests m1 = []) as (Hi1 & Hr1 & Hd1).
    { unfold needs_validation in V. cbv zeta in V. specialize (Hnd eq_refl). repeat case_match; simplify_eq; split_and!; try done; by apply (inv_same m). }
    destruct (negb b); [by apply (inv_same m1)|]. destruct (device_call _ m1) as [c|] eqn:D; [|by apply (inv_same m1)].
    eapply (inv_same (set_call (Some c) m1)); [|done..]. by eapply inv_set_call.
  - unfold handle_voucher_submission. destruct (is_logging_in m) eqn:E; [by apply (inv_same m)|].
    destruct (device_call _ m) as [c|] eqn:D; [|by apply (inv_same m)]. eapply inv_set_call; eauto.
  - unfold handle_expiry_request. destruct (is_logging_in m) eqn:E; [by apply (inv_same m)|].
    destruct (is_checking_expiry m); [by apply (inv_same m)|]. destruct (device_call _ m) as [c|] eqn:D; [|by apply (inv_same m)].
    eapply (inv_same (set_call (Some c) m)); [|done..]. eapply inv_set_call; eauto.
  - split; cbn; done.
Qed.

(** After a result was taken, no call is under way. *)
Lemma consume_login_inv env r tx m : running m = true → current_call m = None → inv (consume_login env r tx m).
Proof.
  intros Hr Hc. unfold consume_login. destruct r as [d|e]; [|by apply inv_no_call].
  destruct (set env (EvLogin d) m) as [r m1] eqn:S. apply set_spec in S as ((Hc1 & _ & _ & _ & Hd & Hrun) & _).
  apply inv_no_call; cbn; congruence.
Qed.

(** A running manager that has no call under way and no one waits for a login. *)
Definition quiet (m : Manager) : Prop := running m = true ∧ current_call m = None ∧ data_requests m = [].
Lemma quiet_inv m : quiet m → inv m.
Proof. intros (? & ? & ?). by apply inv_no_call. Qed.
Lemma set_quiet env ev m r m' : quiet m → set env ev m = (r, m') → quiet m'.
Proof. intros (Hr & Hc & Hd) ((Hc1 & _ & _ & _ & Hd1 & Hr1) & _)%set_spec. split_and!; congruence. Qed.
Lemma revoke_quiet env e m : quiet m → quiet (revoke_device env e m).
Proof. intros (Hr & Hc & Hd). destruct (revoke_spec env e m) as (Hc1 & Hd1 & Hr1 & _). split_and!; congruence. Qed.

Lemma rotate_if_requested_inv m : quiet m → inv (rotate_if_requested m).
Proof.
  intros (Hr & Hc & Hd). unfold rotate_if_requested. assert (inv m) by by apply inv_no_call. destruct (_ || _); [|done].
  destruct (device_call _ m) as [c|] eqn:D; [|done]. by eapply inv_set_call.
Qed.
Lemma consume_rotation_quiet env r m :
  quiet m → state_logged_in (data m) = true → ∃ m', consume_rotation_result env r m = Some m' ∧ quiet m'.
Proof.
  intros Hq Hl. unfold consume_rotation_result. destruct (data m) as [d| |]; cbn [state_device]; [|done..].
  eexists. split; [done|]. destruct r as [w|e]; [|destruct (gone_error e); [by apply revoke_quiet|done]].
  cbv zeta. destruct (set env _ m) as [[[]|e] m1] eqn:S; eapply set_quiet in S; eauto.
Qed.
Lemma consume_validation_inv env r m :
  quiet m → state_logged_in (data m) = true → ∃ m', consume_validation env r m = Some m' ∧ inv m'.
Proof.
  intros Hq Hl. unfold consume_validation. destruct (data m) as [d| |] eqn:E; cbn [state_device]; [|done..].
  destruct r as [dev|e].
  - case_decide as Hk; [|eexists; split; [done|]; by apply rotate_if_requested_inv].
    unfold PrivateDevice_update. rewrite decide_False by (intros Hn; by apply Hn).
    destruct (set env _ m) as [r1 m1] eqn:S. eapply set_quiet in S; [|done].
    eexists. split; [done|]. by apply rotate_if_requested_inv.
  - eexists. split; [done|]. apply rotate_if_requested_inv. destruct (gone_error e); [by apply revoke_quiet|done].
Qed.
Lemma consume_voucher_quiet env r tx m : quiet m → quiet (consume_voucher_result env r tx m).
Proof.
  intros Hq. unfold consume_voucher_result. destruct r as [v|e]; [done|]. destruct (gone_error e); [|done].
  exact (revoke_quiet env e m Hq).
Qed.
Lemma consume_expiry_quiet env r m : quiet m → quiet (consume_expiry_result env r m).
Proof.
  intros Hq. unfold consume_expiry_result. destruct r as [v|e]; [done|]. destruct (gone_error e); [|done]. by apply revoke_quiet.
Qed.

(** A result of a call finds the device the call was for. *)
Lemma consume_api_result_inv env c r m :
  inv m → running m = true → current_call m = Some c → ∃ m', consume_api_result env c r (put_call None m) = Some m' ∧ inv m'.
Proof.
  intros Hi Hr Hc. pose proof (inv_device m Hi) as Hdev. rewrite Hc in Hdev.
  assert (is_logging_in m = false → quiet (put_call None m)) as Hq.
  { intros E. split_and!; [done..|]. exact (not_logging_in_no_data m Hi E). }
  unfold is_logging_in in Hq. rewrite Hc in Hq. destruct c; cbn [consume_api_result needs_device] in *.
  - eexists. split; [done|]. by apply consume_login_inv.
  - destruct (consume_rotation_quiet env (r_rotation r) (put_call None m)) as (m' & E & Q); [auto..|]. eauto using quiet_inv.
  - destruct (consume_rotation_quiet env (r_rotation r) (put_call None m)) as (m' & E & Q); [auto..|]. eauto using quiet_inv.
  - apply consume_validation_inv; auto.
  - eexists. split; [done|]. apply quiet_inv, consume_voucher_quiet; auto.
  - eexists. split; [done|]. apply quiet_inv, consume_expiry_quiet; auto.
Qed.

Lemma manager_step_inv env i m : inv m → ∃ m', step env i m = Some m' ∧ inv m'.
Proof.
  intros Hi. unfold step. destruct (running m) eqn:Hr.
  - destruct (prepare_inv m Hi Hr) as (Hp & Hr' & _). destruct i as [c|r|].
    + eexists. split; [done|]. by apply handle_command_inv.
    + destruct (current_call (prepare m)) as [c|] eqn:E; [|eauto]. by apply consume_api_result_inv.
    + eexists. split; [done|]. by split.
  - eexists. split; [done|]. destruct Hi as [I1 I2 I3]. destruct i as [[]| |]; split; cbn; auto.
Qed.

Lemma spawn_inv env file interval l m : spawn env file interval l = Ok m → inv m ∧ running m = true.
Proof.
  unfold spawn. destruct (DeviceCacher_new env file) as [[c d]|]; [|done]. intros [= <-]. split; [by split|done].
Qed.
Lemma manager_run_inv ins m : inv m → ∃ m', run ins m = Some m' ∧ inv m'.
Proof.
  revert m; induction ins as [|[env i] ins IH]; intros m Hi; [by eauto|]. cbn.
  destruct (manager_step_inv env i m Hi) as (m1 & -> & Hi1). by apply IH.
Qed.

(** The account manager never panics: whatever commands arrive, whatever the API
    answers and whichever writes fail, a result that is about the device finds
    the manager logged in.  And whoever waits for a login to end is never forgotten:
    they wait only while a login is under way. *)
Theorem manager_no_panic env file interval l m ins :
  spawn env file interval l = Ok m →
  ∃ m', run ins m = Some m' ∧
    (∀ c, current_call m' = Some c → match c with CallLogin _ _ => True | _ => state_logged_in (data m') = true end) ∧
    (data_requests m' ≠ [] → is_logging_in m' = true).
Proof.
  intros [Hi _]%spawn_inv. destruct (manager_run_inv ins m Hi) as (m' & E & Hi'). exists m'. split; [done|].
  split; [|apply Hi']. intros c Hc. pose proof (inv_device m' Hi') as Hd. rewrite Hc in Hd. destruct c; auto.
Qed.

(** ** Requests *)

(** The requests that were answered, whose channel was dropped or which a task will
    answer; and those that still wait. *)
Definition finished (os : list Output) : list Tx :=
  omap (λ o, match o with Answered tx _ | Dropped tx | RemoveTask _ _ (Some tx) => Some tx | _ => None end) os.
Definition pending (m : Manager) : list Tx :=
  call_tx (current_call m) ++ validation_requests m ++ expiry_requests m ++ rotation_requests m ++ data_requests m.
Definition command_tx (c : AccountManagerCommand) : Tx :=
  match c with
  | CmdLogin _ tx | CmdLogout tx | CmdSetData _ tx | CmdGetData tx | CmdGetDataAfterLogin tx | CmdRotateKey tx
  | CmdSetRotationInterval _ tx | CmdValidateDevice tx | CmdSubmitVoucher _ tx | CmdCheckExpiry tx | CmdShutdown tx => tx
  end.

(** From [m] to [m'] the requests [txs] came in and none was lost or doubled. *)
Definition conserves (txs : list Tx) (m m' : Manager) : Prop :=
  finished (out m') ++ pending m' ≡ₚ txs ++ finished (out m) ++ pending m.

Lemma conserves_refl m : conserves [] m m.
Proof. unfold conserves. reflexivity. Qed.
Lemma conserves_trans t1 t2 m1 m2 m3 : conserves t1 m1 m2 → conserves t2 m2 m3 → conserves (t1 ++ t2) m1 m3.
Proof. unfold conserves. intros H1 H2. rewrite H2, H1. solve_Permutation. Qed.
Lemma conserves_trans' t m1 m2 m3 : conserves [] m1 m2 → conserves t m2 m3 → conserves t m1 m3.
Proof. apply conserves_trans. Qed.
Lemma finished_app a b : finished (a ++ b) = finished a ++ finished b.
Proof. apply omap_app. Qed.
Lemma finished_answers txs a : finished (map (λ tx, Answered tx a) txs) = txs.
Proof. induction txs as [|tx txs IH]; cbn; [done|]. by f_equal. Qed.
Lemma finished_dropped txs : finished (map Dropped txs) = txs.
Proof. induction txs as [|tx txs IH]; cbn; [done|]. by f_equal. Qed.
Lemma finished_sends env e m : finished (sends env e m) = [].
Proof. unfold sends. induction (alive env m) as [|l ls IH]; cbn; done. Qed.
Lemma finished_removal old new : finished (removal old new) = [].
Proof. unfold removal. destruct (state_device old); [|done]. by case_decide. Qed.

Lemma emit_conserves os m : conserves (finished os) m (emit os m).
Proof. unfold conserves. cbn. rewrite finished_app. change (pending (emit os m)) with (pending m). solve_Permutation. Qed.
Lemma answer_conserves tx a m : conserves [tx] m (answer tx a m).
Proof. apply (emit_conserves [Answered tx a]). Qed.
Lemma notify_conserves env e m : conserves [] m (notify env e m).
Proof.
  unfold conserves. change (pending (notify env e m)) with (pending m). cbn. rewrite finished_app.
  pose proof (finished_sends env e m) as E. unfold sends, alive in E. rewrite E, app_nil_r. done.
Qed.
Lemma same_conserves m m' : same_requests m m' → out m' = out m → conserves [] m m'.
Proof.
  intros (Hc & Hv & He & Hr & Hd & _) Ho. unfold conserves, pending. by rewrite Hc, Hv, He, Hr, Hd, Ho.
Qed.

(** Draining a queue answers it. *)
Ltac drained := unfold conserves, pending; cbn; rewrite finished_app, finished_answers; solve_Permutation.
Lemma drain_validation_conserves r m : conserves [] m (drain_validation r m).
Proof. drained. Qed.
Lemma drain_rotation_conserves r m : conserves [] m (drain_rotation r m).
Proof. drained. Qed.
Lemma drain_expiry_conserves r m : conserves [] m (drain_expiry r m).
Proof. drained. Qed.
Lemma drain_data_conserves r m : conserves [] m (drain_data r m).
Proof. drained. Qed.
Lemma set_call_conserves c m : conserves (call_tx c) m (set_call c m).
Proof. unfold conserves, pending. cbn. rewrite finished_app, finished_dropped. solve_Permutation. Qed.
Lemma set_conserves env ev m r m' : set env ev m = (r, m') → conserves [] m m'.
Proof.
  intros [Hs S]%set_spec. destruct S as [(_ & _ & ->)|[(_ & _ & _ & _ & Ho)|(_ & _ & _ & _ & _ & Ho)]]; [apply conserves_refl|by apply same_conserves|].
  destruct Hs as (Hc & Hv & He & Hr & Hd & _). unfold conserves, pending. rewrite Hc, Hv, He, Hr, Hd, Ho.
  by rewrite !finished_app, finished_removal, finished_sends, app_nil_r.
Qed.
Lemma revoke_conserves env err m : conserves [] m (revoke_device env err m).
Proof.
  destruct (revoke_spec env err m) as (Hc & Hd & _ & Hv & He & Hr & _ & _ & _ & Ho).
  unfold conserves, pending. rewrite Ho, Hc, Hd, Hv, He, Hr, !finished_app, !finished_answers, finished_sends. solve_Permutation.
Qed.

(** A push onto a queue takes the request in. *)
Ltac pushed := unfold conserves, pending; cbn; solve_Permutation.

Lemma logout_conserves env tx m : conserves [tx] m (logout env tx m).
Proof.
  unfold logout. cbv zeta. eapply conserves_trans'; [apply drain_data_conserves|].
  destruct (state_logged_out _); [apply answer_conserves|].
  destruct (cacher_write env LoggedOut _) as [[[]|e] m1] eqn:W; apply cacher_write_spec in W as (Hs & _ & _ & Ho & _).
  - eapply conserves_trans'; [by eapply same_conserves|].
    eapply conserves_trans'; [apply (same_conserves _ (set_state LoggedOut (last_validation m1) m1)); done|].
    eapply conserves_trans'; [apply notify_conserves|].
    destruct (state_device (data m1)) as [c|]; [apply (emit_conserves [RemoveTask _ _ (Some tx)])|apply answer_conserves].
  - eapply conserves_trans'; [by eapply same_conserves|apply answer_conserves].
Qed.

Lemma device_call_tx f m c tx : device_call (λ n i, f n i) m = Ok c → (∀ n i, call_tx (Some (f n i)) = tx) → call_tx (Some c) = tx.
Proof. intros (_ & d & _ & ->)%device_call_ok Hf. apply Hf. Qed.

Lemma needs_validation_same env m b m' : needs_validation env m = (b, m') → conserves [] m m'.
Proof.
  unfold needs_validation. cbv zeta. intros E. apply same_conserves; repeat case_match; by simplify_eq.
Qed.

(** Starting a call and queueing the request that wants it. *)
Lemma call_and_push c m m' tx :
  call_tx (Some c) = [] → conserves [tx] (set_call (Some c) m) m' → conserves [tx] m m'.
Proof. intros Hc Hp. eapply conserves_trans'; [|exact Hp]. rewrite <- Hc. apply set_call_conserves. Qed.

Lemma handle_command_conserves env c m : conserves [command_tx c] m (handle_command env c m).
Proof.
  destruct c; cbn [handle_command command_tx].
  - apply set_call_conserves.
  - eapply conserves_trans'; [apply (set_call_conserves None)|apply logout_conserves].
  - destruct (set env (EvLogin d) m) as [r m1] eqn:S. eapply conserves_trans'; [by eapply set_conserves|apply answer_conserves].
  - apply answer_conserves.
  - destruct (is_logging_in m); [pushed|apply answer_conserves].
  - unfold handle_rotation_request. destruct (is_logging_in m); [apply answer_conserves|]. destruct (is_validating m); [pushed|].
    destruct (device_call _ m) as [c|] eqn:D; [|apply answer_conserves].
    apply (call_and_push c); [by eapply device_call_tx in D|pushed].
  - eapply conserves_trans'; [|apply answer_conserves].
    eapply conserves_trans'; [by apply (same_conserves m (set_interval interval m))|].
    destruct (is_running_timed_totation _); [apply (set_call_conserves None)|apply conserves_refl].
  - unfold handle_validation_request. destruct (is_logging_in m); [apply answer_conserves|]. destruct (is_validating m); [pushed|].
    destruct (needs_validation env m) as [b m1] eqn:V. eapply conserves_trans'; [by eapply needs_validation_same|].
    destruct (negb b); [apply answer_conserves|]. destruct (device_call _ m1) as [c|] eqn:D; [|apply answer_conserves].
    apply (call_and_push c); [by eapply device_call_tx in D|pushed].
  - unfold handle_voucher_submission. destruct (is_logging_in m); [apply answer_conserves|].
    destruct (device_call _ m) as [c|] eqn:D; [|apply answer_conserves].
    apply device_call_ok in D as (_ & d & _ & ->). apply set_call_conserves.
  - unfold handle_expiry_request. destruct (is_logging_in m); [apply answer_conserves|]. destruct (is_checking_expiry m); [pushed|].
    destruct (device_call _ m) as [c|] eqn:D; [|apply answer_conserves].
    apply (call_and_push c); [by eapply device_call_tx in D|pushed].
  - eapply conserves_trans'; [|apply answer_conserves]. unfold conserves, pending. cbn.
    rewrite finished_app, finished_dropped. solve_Permutation.
Qed.

Lemma consume_rotation_conserves env r m m' : consume_rotation_result env r m = Some m' → conserves [] m m'.
Proof.
  unfold consume_rotation_result. destruct (state_device (data m)) as [c|]; [|done]. intros [= <-].
  assert (∀ e m1, conserves [] m1 (drain_device_requests_with_err e m1)) as He.
  { intros e m1. eapply conserves_trans'; [apply drain_rotation_conserves|apply drain_validation_conserves]. }
  destruct r as [w|e]; [|destruct (gone_error e); [apply revoke_conserves|apply He]].
  cbv zeta. destruct (set env _ m) as [[[]|e] m1] eqn:S; apply set_conserves in S; eapply conserves_trans'; eauto.
  eapply conserves_trans'; [apply drain_rotation_conserves|apply drain_validation_conserves].
Qed.
Lemma consume_validation_conserves env r m m' : consume_validation env r m = Some m' → conserves [] m m'.
Proof.
  unfold consume_validation. destruct (state_device (data m)) as [c|]; [|done].
  assert (∀ m1, conserves [] m m1 → Some (rotate_if_requested m1) = Some m' → conserves [] m m') as Hk.
  { intros m1 H1 [= <-]. eapply conserves_trans'; [done|]. unfold rotate_if_requested. destruct (_ || _); [|apply conserves_refl].
    destruct (device_call _ m1) as [k|] eqn:D; [|apply conserves_refl].
    apply device_call_ok in D as (_ & d & _ & ->). apply set_call_conserves. }
  destruct r as [dev|e].
  - case_decide; [|apply Hk, conserves_refl]. destruct (PrivateDevice_update _ _) as [d|]; [|done].
    destruct (set env _ m) as [r1 m1] eqn:S. apply set_conserves in S. apply Hk.
    eapply conserves_trans'; [done|apply drain_validation_conserves].
  - apply Hk. destruct (gone_error e); [apply revoke_conserves|apply drain_validation_conserves].
Qed.

Lemma consume_conserves env c r m m' :
  consume_api_result env c r m = Some m' → conserves (call_tx (Some c)) m m'.
Proof.
  destruct c; cbn [consume_api_result call_tx].
  - intros [= <-]. unfold consume_login. destruct (r_login r) as [d|e].
    + destruct (set env (EvLogin d) m) as [r1 m1] eqn:S. apply set_conserves in S. eapply conserves_trans'; [done|].
      apply (conserves_trans [tx] []) with (answer tx (AnsUnit r1) m1); [apply answer_conserves|apply drain_data_conserves].
    + apply (conserves_trans [tx] []) with (answer tx (AnsUnit (Err e)) m); [apply answer_conserves|apply drain_data_conserves].
  - apply consume_rotation_conserves.
  - apply consume_rotation_conserves.
  - apply consume_validation_conserves.
  - intros [= <-]. unfold consume_voucher_result. eapply conserves_trans'; [|apply answer_conserves].
    destruct (r_voucher r) as [v|e]; [apply notify_conserves|]. destruct (gone_error e); [apply revoke_conserves|apply conserves_refl].
  - intros [= <-]. unfold consume_expiry_result. destruct (r_expiry r) as [v|e].
    + eapply conserves_trans'; [apply notify_conserves|apply drain_expiry_conserves].
    + destruct (gone_error e); [apply revoke_conserves|apply drain_expiry_conserves].
Qed.

Definition input_txs (i : Input) : list Tx := match i with InCommand c => [command_tx c] | _ => [] end.

Lemma step_conserves env i m m' : step env i m = Some m' → conserves (input_txs i) m m'.
Proof.
  unfold step. destruct (running m).
  - assert (conserves [] m (prepare m)) as Hp.
    { unfold prepare, spawn_timed_key_rotation. destruct (is_idle m); [|apply conserves_refl].
      destruct (device_call _ m) as [c|] eqn:D; [|apply conserves_refl].
      apply device_call_ok in D as (_ & d & _ & ->). apply set_call_conserves. }
    cbv zeta. destruct i as [c|r|]; cbn [input_txs].
    + intros [= <-]. eapply conserves_trans'; [done|apply handle_command_conserves].
    + destruct (current_call (prepare m)) as [c|] eqn:E; [|by intros [= <-]].
      intros Hc%consume_conserves. eapply conserves_trans'; [done|].
      unfold conserves, pending in *. rewrite Hc, E. cbn. solve_Permutation.
    + intros [= <-]. eapply conserves_trans'; [done|]. unfold conserves, pending. cbn.
      rewrite finished_app, finished_dropped. solve_Permutation.
  - intros [= <-]. destruct i as [c|r|]; cbn [input_txs]; [|apply conserves_refl..].
    destruct c; apply (emit_conserves [Dropped _]).
Qed.

(** No request is lost and none is answered twice: after any run, the requests
    that have been answered, or whose channel was dropped, and those that still wait
    are together exactly the requests that came in. *)
Theorem requests_conserved env file interval l m ins m' :
  spawn env file interval l = Ok m → run ins m = Some m' →
  finished (out m') ++ pending m' ≡ₚ concat (map (λ x, input_txs x.2) ins).
Proof.
  intros Hs Hr. assert (finished (out m) ++ pending m = []) as E.
  { unfold spawn in Hs. destruct (DeviceCacher_new env file) as [[c d]|]; [|done]. by injection Hs as <-. }
  assert (conserves (concat (map (λ x, input_txs x.2) ins)) m m') as Hc; [|unfold conserves in Hc; by rewrite Hc, E, app_nil_r].
  clear E Hs. revert m Hr. induction ins as [|[env' i] ins IH]; intros m; cbn; [intros [= ->]; apply conserves_refl|].
  destruct (step env' i m) as [m1|] eqn:S; [|done]. intros Hr. eapply conserves_trans; [by eapply step_conserves|by apply IH].
Qed.

(** ** The device, its file and its listeners *)

(** The device events a listener was sent. *)
Definition device_events (l : nat) (os : list Output) : list PrivateDeviceEvent :=
  omap (λ o, match o with Sent l' (AeDevice e) => if decide (l' = l) then Some e else None | _ => None end) os.
Lemma device_events_app l a b : device_events l (a ++ b) = device_events l a ++ device_events l b.
Proof. apply omap_app. Qed.

(** Nothing happens to the device. *)
Definition silent (env : Env) (m m' : Manager) : Prop :=
  data m' = data m ∧ (fault env = None → cache m' = cache m) ∧ listeners m' ⊆ listeners m ∧
  ∃ os, out m' = out m ++ os ∧ ∀ l, device_events l os = [].
(** The device changes: the change is written, announced to every listener that is
    left, and the old device is kept, removed or was revoked. *)
Definition loud (env : Env) (ev : PrivateDeviceEvent) (m m' : Manager) : Prop :=
  data m' = event_state ev ∧ (fault env = None → cache m' = Some (data m')) ∧ listeners m' ⊆ listeners m ∧
  ∃ os, out m' = out m ++ os ∧
    (∀ l, l ∈ listeners m' → last (device_events l os) = Some ev) ∧
    (∀ c, data m = LoggedIn c → ((λ d, id (device d)) <$> state_device (data m') = Some (id (device c))) ∨
       (∃ tx, RemoveTask (account_number c) (id (device c)) tx ∈ os) ∨ ev = EvRevoked).
Definition effect (env : Env) (m m' : Manager) : Prop := silent env m m' ∨ ∃ ev, loud env ev m m'.

Lemma silent_refl env m : silent env m m.
Proof. split_and!; try done. exists []. by rewrite app_nil_r. Qed.
Lemma silent_trans env m1 m2 m3 : silent env m1 m2 → silent env m2 m3 → silent env m1 m3.
Proof.
  intros (D1 & C1 & L1 & os1 & O1 & E1) (D2 & C2 & L2 & os2 & O2 & E2). split_and!.
  - congruence.
  - intros Hf. rewrite C2, C1; done.
  - set_solver.
  - exists (os1 ++ os2). rewrite O2, O1, <- app_assoc. split; [done|]. intros l. by rewrite device_events_app, E1, E2.
Qed.
Lemma silent_effect env m1 m2 m3 : silent env m1 m2 → effect env m2 m3 → effect env m1 m3.
Proof.
  intros Hs [Hs'|(ev & D2 & C2 & L2 & os2 & O2 & E2 & A2)]; [left; by eapply silent_trans|right; exists ev].
  destruct Hs as (D1 & C1 & L1 & os1 & O1 & E1). split_and!; [done|done|set_solver|].
  exists (os1 ++ os2). rewrite O2, O1, <- app_assoc. split; [done|]. split.
  - intros l Hl. rewrite device_events_app, E1. by apply E2.
  - intros c Hc. rewrite <- D1 in Hc. destruct (A2 c Hc) as [?|[[tx ?]|?]]; [by left|right; left; exists tx; set_solver|auto].
Qed.
Lemma effect_silent env m1 m2 m3 : effect env m1 m2 → silent env m2 m3 → effect env m1 m3.
Proof.
  intros [Hs'|(ev & D1 & C1 & L1 & os1 & O1 & E1 & A1)] Hs; [left; by eapply silent_trans|right; exists ev].
  destruct Hs as (D2 & C2 & L2 & os2 & O2 & E2). split_and!; [congruence|intros Hf; rewrite C2, D2 by done; auto|set_solver|].
  exists (os1 ++ os2). rewrite O2, O1, <- app_assoc. split; [done|]. split.
  - intros l Hl. rewrite device_events_app, E2, app_nil_r. apply E1. set_solver.
  - intros c Hc. rewrite D2. destruct (A1 c Hc) as [?|[[tx ?]|?]]; [by left|right; left; exists tx; set_solver|auto].
Qed.

(** Outputs without events, and changes of other fields. *)
Lemma device_events_nil l os : (∀ o, o ∈ os → match o with Sent _ (AeDevice _) => False | _ => True end) → device_events l os = [].
Proof.
  induction os as [|o os IH]; intros Ho; [done|]. unfold device_events in *. cbn.
  rewrite IH by (intros; apply Ho; set_solver). specialize (Ho o ltac:(set_solver)). by destruct o as [| |? []|].
Qed.
Lemma silent_fields env m m' :
  data m' = data m → cache m' = cache m → listeners m' = listeners m → out m' = out m → silent env m m'.
Proof. intros Hd Hc Hl Ho. split_and!; [done|done|by rewrite Hl|]. exists []. by rewrite Ho, app_nil_r. Qed.
Lemma silent_emit env os m : (∀ l, device_events l os = []) → silent env m (emit os m).
Proof. intros Ho. split_and!; try done. by exists os. Qed.
Lemma events_answers l txs a : device_events l (map (λ tx, Answered tx a) txs) = [].
Proof. apply device_events_nil. intros o (tx & -> & _)%list_elem_of_fmap. done. Qed.
Lemma events_dropped l txs : device_events l (map Dropped txs) = [].
Proof. apply device_events_nil. intros o (tx & -> & _)%list_elem_of_fmap. done. Qed.
Lemma events_removal l old new : device_events l (removal old new) = [].
Proof. unfold removal. destruct (state_device old); [|done]. by case_decide. Qed.
(** A listener that is left hears an event. *)
Lemma events_sends env e l m : l ∈ alive env m → last (device_events l (sends env (AeDevice e) m)) = Some e.
Proof.
  unfold sends. induction (alive env m) as [|l' ls IH]; [set_solver|]. intros Hl. unfold device_events in *. cbn.
  destruct (decide (l' = l)) as [->|].
  - destruct (decide (l ∈ ls)) as [Hin|Hin]; [rewrite last_cons, IH by done; done|].
    assert (∀ ls, l ∉ ls → omap (λ o, match o with Sent l' (AeDevice e) => if decide (l' = l) then Some e else None | _ => None end)
      (map (λ l, Sent l (AeDevice e)) ls) = []) as ->; [|done|done].
    clear. induction ls as [|l' ls IH]; intros Hl; [done|]. cbn. rewrite decide_False by set_solver. apply IH. set_solver.
  - apply IH. set_solver.
Qed.
Lemma alive_listeners env m : alive env m ⊆ listeners m.
Proof. unfold alive. intros l Hl. apply list_elem_of_In in Hl. apply filter_In in Hl as [Hl _]. by apply list_elem_of_In. Qed.

Lemma silent_notify_expiry env x m : silent env m (notify env (AeExpiry x) m).
Proof.
  split_and!; try done; [apply alive_listeners|]. eexists. split; [done|]. intros l. apply device_events_nil.
  intros o (l' & -> & _)%list_elem_of_fmap. done.
Qed.

Lemma set_effect env ev m r m' : set env ev m = (r, m') → effect env m m'.
Proof.
  intros [_ [(_ & _ & ->)|[(_ & Hf & Hd & Hl & Ho)|(_ & _ & Hd & Hc & Hl & Ho)]]]%set_spec; [left; apply silent_refl|left|right; exists ev].
  - split_and!; [done|done|by rewrite Hl|]. exists []. by rewrite app_nil_r.
  - split_and!; [done|by rewrite Hd|rewrite Hl; apply alive_listeners|]. eexists. split; [done|]. split.
    + intros l Hin. rewrite Hl in Hin. by rewrite device_events_app, events_removal, app_nil_l, events_sends.
    + intros c Hc'. rewrite Hc', Hd. unfold removal. cbn [state_device]. case_decide as E; [|by left].
      right; left. exists None. set_solver.
Qed.
Lemma revoke_effect env err m : effect env m (revoke_device env err m).
Proof.
  destruct (revoke_spec env err m) as (_ & _ & _ & _ & _ & _ & Hd & Hl & Hc & Ho). right. exists EvRevoked.
  split_and!; [done|by rewrite Hd|rewrite Hl; apply alive_listeners|]. eexists. split; [done|]. split; [|by auto].
  intros l Hin. rewrite Hl in Hin. by rewrite !device_events_app, !events_answers, !app_nil_l, events_sends.
Qed.

Create HintDb effects discriminated.
Lemma silent_answer env tx a m : silent env m (answer tx a m).
Proof. by apply silent_emit. Qed.
Lemma silent_set_call env c m : silent env m (set_call c m).
Proof. eapply silent_trans; [apply silent_emit; intros l; apply events_dropped|by apply silent_fields]. Qed.
Lemma silent_drain_validation env r m : silent env m (drain_validation r m).
Proof. eapply silent_trans; [apply silent_emit; intros l; apply events_answers|by apply silent_fields]. Qed.
Lemma silent_drain_rotation env r m : silent env m (drain_rotation r m).
Proof. eapply silent_trans; [apply silent_emit; intros l; apply events_answers|by apply silent_fields]. Qed.
Lemma silent_drain_expiry env r m : silent env m (drain_expiry r m).
Proof. eapply silent_trans; [apply silent_emit; intros l; apply events_answers|by apply silent_fields]. Qed.
Lemma silent_drain_data env r m : silent env m (drain_data r m).
Proof. eapply silent_trans; [apply silent_emit; intros l; apply events_answers|by apply silent_fields]. Qed.
Lemma silent_drain_err env e m : silent env m (drain_device_requests_with_err e m).
Proof. eapply silent_trans; [apply silent_drain_rotation|apply silent_drain_validation]. Qed.
Lemma silent_rotate env m : silent env m (rotate_if_requested m).
Proof.
  unfold rotate_if_requested. destruct (_ || _); [|apply silent_refl]. destruct (device_call _ m); [apply silent_set_call|apply silent_refl].
Qed.
Lemma silent_prepare env m : silent env m (prepare m).
Proof.
  unfold prepare. destruct (is_idle m); [|apply silent_refl]. destruct (spawn_timed_key_rotation m); [apply silent_set_call|apply silent_refl].
Qed.
Lemma silent_is_effect env m m' : silent env m m' → effect env m m'.
Proof. by left. Qed.
#[local] Hint Resolve silent_refl silent_answer silent_set_call silent_drain_validation silent_drain_rotation silent_drain_expiry
  silent_drain_data silent_drain_err silent_rotate silent_prepare silent_notify_expiry revoke_effect silent_is_effect : effects.

(** A call that is set, and a request queued. *)
Lemma silent_push env c m v e r d : silent env m (set_queues v e r d (set_call c m)).
Proof. apply (silent_trans _ _ (set_call c m)); [apply silent_set_call|by apply silent_fields]. Qed.
#[local] Hint Resolve silent_push : effects.

Lemma logout_effect env tx m : effect env m (logout env tx m).
Proof.
  unfold logout. cbv zeta. eapply silent_effect; [apply (silent_drain_data env (Err AccountChange))|].
  set (m0 := drain_data _ m). destruct (state_logged_out (data m0)); [auto with effects|].
  destruct (cacher_write env LoggedOut m0) as [[[]|e] m1] eqn:W; apply cacher_write_spec in W as (_ & Hd & Hl & Ho & _ & Hc & Hf).
  2: { left. split_and!; [done|intros Hn; by specialize (Hf Hn)|change (listeners m1 ⊆ listeners m0); by rewrite Hl|]. exists [Answered tx (AnsUnit (Err e))].
       split; [cbn; by rewrite Ho|done]. }
  assert (∀ l, l ∈ alive env m1 → last (device_events l (sends env (AeDevice EvLogout) m1)) = Some EvLogout) as Hev
    by (intros; by apply events_sends).
  right. exists EvLogout. destruct (state_device (data m1)) as [c|] eqn:E.
  - split_and!; [done|by intros; apply Hc|etrans; [apply (alive_listeners env m1)|by rewrite Hl]|].
    exists (sends env (AeDevice EvLogout) m1 ++ [RemoveTask (account_number c) (id (device c)) (Some tx)]).
    split; [cbn; by rewrite Ho, <- app_assoc|]. split.
    + intros l Hin. rewrite device_events_app. cbn. rewrite app_nil_r. by apply Hev.
    + intros c' Hc'. rewrite Hd, Hc' in E. injection E as <-. right; left. exists (Some tx). set_solver.
  - split_and!; [done|by intros; apply Hc|etrans; [apply (alive_listeners env m1)|by rewrite Hl]|].
    exists (sends env (AeDevice EvLogout) m1 ++ [Answered tx (AnsUnit (Ok ()))]).
    split; [cbn; by rewrite Ho, <- app_assoc|]. split.
    + intros l Hin. rewrite device_events_app. cbn. rewrite app_nil_r. by apply Hev.
    + intros c' Hc'. by rewrite Hd, Hc' in E.
Qed.

Lemma handle_command_effect env c m : effect env m (handle_command env c m).
Proof.
  destruct c; cbn [handle_command].
  - auto with effects.
  - eapply silent_effect; [apply (silent_set_call env None)|apply logout_effect].
  - destruct (set env (EvLogin d) m) as [r m1] eqn:S. apply set_effect in S. by eapply effect_silent; [|auto with effects].
  - auto with effects.
  - destruct (is_logging_in m); [left; by apply silent_fields|auto with effects].
  - left. unfold handle_rotation_request. destruct (is_logging_in m); [auto with effects|].
    destruct (is_validating m); [by apply silent_fields|]. destruct (device_call _ m); auto with effects.
  - left. eapply silent_trans; [|apply silent_answer]. eapply silent_trans; [by apply (silent_fields env m (set_interval interval m))|].
    destruct (is_running_timed_totation _); auto with effects.
  - left. unfold handle_validation_request. destruct (is_logging_in m); [auto with effects|].
    destruct (is_validating m); [by apply silent_fields|]. destruct (needs_validation env m) as [b m1] eqn:V.
    assert (silent env m m1) as Hs by (unfold needs_validation in V; cbv zeta in V; repeat case_match; simplify_eq; by apply silent_fields).
    eapply silent_trans; [done|]. destruct (negb b); [auto with effects|]. destruct (device_call _ m1); auto with effects.
  - left. unfold handle_voucher_submission. destruct (is_logging_in m); [auto with effects|]. destruct (device_call _ m); auto with effects.
  - left. unfold handle_expiry_request. destruct (is_logging_in m); [auto with effects|].
    destruct (is_checking_expiry m); [by apply silent_fields|]. destruct (device_call _ m); auto with effects.
  - left. eapply silent_trans; [|apply silent_answer]. eapply silent_trans; [apply silent_emit; intros l; apply events_dropped|by apply silent_fields].
Qed.

Lemma consume_effect env c r m m' : consume_api_result env c r m = Some m' → effect env m m'.
Proof.
  assert (∀ r m', consume_rotation_result env r m = Some m' → effect env m m') as Hrot.
  { intros r0 m0. unfold consume_rotation_result. destruct (state_device (data m)) as [d|]; [|done]. intros [= <-].
    destruct r0 as [w|e]; [|destruct (gone_error e); auto with effects]. cbv zeta.
    destruct (set env _ m) as [[[]|e] m1] eqn:S; apply set_effect in S; [|by eapply effect_silent; [|auto with effects]].
    eapply effect_silent; [|apply silent_drain_validation]. by eapply effect_silent; [|apply silent_drain_rotation]. }
  destruct c; cbn [consume_api_result]; [|apply Hrot|apply Hrot|..].
  - intros [= <-]. unfold consume_login. destruct (r_login r) as [d|e].
    + destruct (set env (EvLogin d) m) as [r1 m1] eqn:S. apply set_effect in S.
      eapply effect_silent; [|apply silent_drain_data]. by eapply effect_silent; [|apply silent_answer].
    + left. eapply silent_trans; [apply silent_answer|apply silent_drain_data].
  - unfold consume_validation. destruct (state_device (data m)) as [d|]; [|done]. destruct (r_validation r) as [dev|e].
    + case_decide; [|intros [= <-]; auto with effects]. destruct (PrivateDevice_update _ _) as [pd|]; [|done].
      destruct (set env _ m) as [r1 m1] eqn:S. apply set_effect in S. intros [= <-].
      eapply effect_silent; [|apply silent_rotate]. by eapply effect_silent; [|apply silent_drain_validation].
    + intros [= <-]. eapply effect_silent; [|apply silent_rotate]. destruct (gone_error e); auto with effects.
  - intros [= <-]. unfold consume_voucher_result. eapply effect_silent; [|apply silent_answer].
    destruct (r_voucher r) as [v|e]; [auto with effects|]. destruct (gone_error e); auto with effects.
  - intros [= <-]. unfold consume_expiry_result. destruct (r_expiry r) as [v|e]; [|destruct (gone_error e); auto with effects].
    left. eapply silent_trans; [apply silent_notify_expiry|apply silent_drain_expiry].
Qed.

Lemma step_effect env i m m' : step env i m = Some m' → effect env m m'.
Proof.
  unfold step. destruct (running m).
  - cbv zeta. intros Hs. eapply silent_effect; [apply silent_prepare|]. destruct i as [c|r|].
    + injection Hs as <-. apply handle_command_effect.
    + destruct (current_call (prepare m)) as [c|]; [|injection Hs as <-; auto with effects].
      apply consume_effect in Hs. eapply silent_effect; [|done]. by apply silent_fields.
    + injection Hs as <-. left. eapply silent_trans; [apply silent_emit; intros l; apply events_dropped|by apply silent_fields].
  - intros [= <-]. left. destruct i as [[]| |]; first [apply silent_refl|by apply silent_emit].
Qed.

(** The state of the device a listener has heard of last. *)
Definition heard (l : nat) (s : PrivateDeviceState) (os : list Output) : PrivateDeviceState :=
  match last (device_events l os) with Some e => event_state e | None => s end.

Lemma effect_heard env l s0 m m' :
  effect env m m' → (l ∈ listeners m → heard l s0 (out m) = data m) → l ∈ listeners m' → heard l s0 (out m') = data m'.
Proof.
  unfold heard. intros [(Hd & _ & Hl & os & -> & Ho)|(ev & Hd & _ & Hl & os & -> & Ho & _)] Hm Hin;
    rewrite device_events_app.
  - rewrite Ho, app_nil_r, Hd. apply Hm. set_solver.
  - rewrite last_app, Ho by done. done.
Qed.
Lemma effect_cache env m m' : effect env m m' → fault env = None → cache m = Some (data m) → cache m' = Some (data m').
Proof.
  intros [(Hd & Hc & _)|(ev & Hd & Hc & _)] Hf Hm; [by rewrite Hc, Hd|by apply Hc].
Qed.

Lemma run_heard l s0 ins m m' :
  run ins m = Some m' → (l ∈ listeners m → heard l s0 (out m) = data m) → l ∈ listeners m' → heard l s0 (out m') = data m'.
Proof.
  revert m; induction ins as [|[env i] ins IH]; intros m; cbn; [by intros [= ->]|].
  destruct (step env i m) as [m1|] eqn:S; [|done]. intros Hr Hm. apply (IH m1 Hr). by eapply effect_heard; [eapply step_effect|].
Qed.
Lemma run_cache ins m m' :
  run ins m = Some m' → Forall (λ x, fault x.1 = None) ins → cache m = Some (data m) → cache m' = Some (data m').
Proof.
  revert m; induction ins as [|[env i] ins IH]; intros m; cbn; [by intros [= ->]|].
  destruct (step env i m) as [m1|] eqn:S; [|done]. intros Hr [Hf Hfs]%Forall_cons Hc. apply (IH m1 Hr Hfs).
  by eapply effect_cache; [eapply step_effect|..].
Qed.
Lemma spawn_fresh env file interval l m :
  spawn env file interval l = Ok m → out m = [] ∧ cache m = Some (data m).
Proof.
  unfold spawn, DeviceCacher_new. destruct file as [[s|]|]; [by intros [= <-]|..]; destruct (fault env); try done; by intros [= <-].
Qed.

(** Whoever listens to the account manager knows the device: as long as a
    listener is served, the last event it was sent tells the state the manager is in.
    As long as no write fails, the cache file has that state too, so that a daemon
    that is started again continues with it. *)
Theorem device_state_published env file interval l m ins m' :
  spawn env file interval l = Ok m → run ins m = Some m' →
  (l ∈ listeners m' → heard l (data m) (out m') = data m') ∧
  (Forall (λ x, fault x.1 = None) ins → cache m' = Some (data m') ∧
   ∀ env' interval' l', ∃ m2, spawn env' (Some (cache m')) interval' l' = Ok m2 ∧ data m2 = data m').
Proof.
  intros [Ho Hc]%spawn_fresh Hr. split.
  - apply (run_heard _ _ _ _ _ Hr). by rewrite Ho.
  - intros Hf. pose proof (run_cache _ _ _ Hr Hf Hc) as Hc'. split; [done|]. intros env' interval' l'. rewrite Hc'. by eexists.
Qed.

(** A device is given up by removing it from the account, or because the API said it
    is gone. *)
Definition has_device (i : DeviceId) (m : Manager) : Prop :=
  (λ d, id (device d)) <$> state_device (data m) = Some i.

Lemma effect_device env i m m' :
  effect env m m' → has_device i m →
  has_device i m' ∨ (∃ number tx, RemoveTask number i tx ∈ out m') ∨ data m' = Revoked.
Proof.
  unfold has_device. intros He Hi. destruct (data m) as [c| |] eqn:E; try done. cbn in Hi. injection Hi as <-.
  destruct He as [(Hd & _)|(ev & Hd & _ & _ & os & Ho & _ & Ha)]; [left; by rewrite Hd, E|].
  destruct (Ha c E) as [?|[[tx Hin]| ->]]; [by left|right; left|right; right; done]. exists (account_number c), tx. rewrite Ho. set_solver.
Qed.
Lemma effect_out env m m' : effect env m m' → ∃ os, out m' = out m ++ os.
Proof. intros [(_ & _ & _ & os & Ho & _)|(ev & _ & _ & _ & os & Ho & _)]; by exists os. Qed.
Lemma run_out ins m m' : run ins m = Some m' → ∃ os, out m' = out m ++ os.
Proof.
  revert m; induction ins as [|[env i] ins IH]; intros m; cbn; [intros [= ->]; exists []; by rewrite app_nil_r|].
  destruct (step env i m) as [m1|] eqn:S; [|done]. apply step_effect, effect_out in S as [os1 O1].
  intros [os2 O2]%IH. exists (os1 ++ os2). by rewrite O2, O1, app_assoc.
Qed.

(** Devices do not pile up in the account: a device the manager was logged in
    with is the one it still uses, or a task was started that removes it from the
    account, or the manager learned on the way that it is gone. *)
Theorem devices_accounted ins m m' i :
  run ins m = Some m' → has_device i m →
  has_device i m' ∨ (∃ number tx, RemoveTask number i tx ∈ out m') ∨
  ∃ before after m1, ins = before ++ after ∧ run before m = Some m1 ∧ data m1 = Revoked.
Proof.
  revert m; induction ins as [|[env x] ins IH]; intros m; cbn; [intros [= ->]; by left|].
  destruct (step env x m) as [m1|] eqn:S; [|done]. intros Hr Hi.
  destruct (effect_device _ _ _ _ (step_effect _ _ _ _ S) Hi) as [Hi1|[(number & tx & Hin)|Hv]].
  - destruct (IH m1 Hr Hi1) as [?|[?|(b & a & m2 & -> & Hb & Hd)]]; [by left|by right; left|].
    right; right. exists ((env, x) :: b), a, m2. cbn. by rewrite S.
  - right; left. apply run_out in Hr as [os Ho]. exists number, tx. rewrite Ho. set_solver.
  - right; right. exists [(env, x)], ins, m1. cbn. by rewrite S.
Qed.

(** ** The key of the device *)

Section Registered.
(** The keys the API has accepted for a device. *)
Context (registered : DeviceId → string → Prop).

Definition key_of (d : PrivateAccountAndDevice) : string := public_key (private_key (wg_data (device d))).

(** A call about a device is about the one the manager has. *)
Definition call_ok (s : PrivateDeviceState) (c : option Call) : Prop :=
  match c with
  | Some (CallTimerKeyRotation n i | CallOneshotKeyRotation n i | CallValidation n i) =>
      ∃ d, s = LoggedIn d ∧ account_number d = n ∧ id (device d) = i
  | _ => True
  end.
Definition key_inv (m : Manager) : Prop :=
  (∀ d, data m = LoggedIn d → registered (id (device d)) (key_of d)) ∧ call_ok (data m) (current_call m).

(** What the API's replies mean: the device of a reply to a login is registered with
    the key of the reply; the key of a rotation that succeeded is registered for the
    device of the request; a look-up finds the device that was asked for. *)
Definition results_from_api (c : Call) (r : Results) : Prop :=
  match c with
  | CallLogin number _ => ∃ key now reply, r_login r = device_of_reply number key now reply ∧
      ∀ dev a, reply = Ok (dev, a) → registered (dev_id dev) (dev_pubkey dev)
  | CallTimerKeyRotation _ i | CallOneshotKeyRotation _ i => ∃ key now reply, r_rotation r = rotated key now reply ∧
      (is_ok reply = true → registered i (public_key key))
  | CallValidation _ i => ∀ dev, r_validation r = Ok dev → dev_id dev = i
  | _ => True
  end.
(** Data of a device are only set from outside while the manager has none (the
    migration asks first), and they are those of a registered device. *)
Definition admissible (i : Input) (m : Manager) : Prop :=
  match i with
  | InCommand (CmdSetData d _) => state_logged_in (data m) = false ∧ registered (id (device d)) (key_of d)
  | InResult r => ∀ c, current_call (prepare m) = Some c → results_from_api c r
  | _ => True
  end.

Lemma key_same m m' : key_inv m → data m' = data m → current_call m' = current_call m → key_inv m'.
Proof. unfold key_inv. by intros Hk -> ->. Qed.
Lemma key_no_call m m' : key_inv m → data m' = data m → current_call m' = None → key_inv m'.
Proof. unfold key_inv. intros [Hk _] -> ->. done. Qed.
Lemma key_set_call f m c :
  key_inv m → device_call f m = Ok c → (∀ n i, call_ok (data m) (Some (f n i)) ∨ f n i = CallTimerKeyRotation n i ∨
    f n i = CallOneshotKeyRotation n i ∨ f n i = CallValidation n i) → key_inv (set_call (Some c) m).
Proof.
  intros [Hk _] (_ & d & Hd & ->)%device_call_ok Hf. split; [done|]. change (data (set_call _ m)) with (data m).
  change (current_call (set_call ?c m)) with c. rewrite Hd in Hf |- *.
  destruct (Hf (account_number d) (id (device d))) as [?|[->|[->| ->]]]; [done|cbn; eauto..].
Qed.
Lemma key_set env ev m r m' d :
  set env ev m = (r, m') → event_state ev = LoggedIn d → registered (id (device d)) (key_of d) →
  needs_device (current_call m) = false → key_inv m → key_inv m'.
Proof.
  intros [(Hc & _) S]%set_spec He Hreg Hn [Hk _]. split.
  - intros d' Hd'. destruct S as [(_ & _ & ->)|[(_ & _ & Hd & _)|(_ & _ & Hd & _)]]; [auto|rewrite Hd in Hd'; auto|].
    rewrite Hd, He in Hd'. by injection Hd' as <-.
  - rewrite Hc. by destruct (current_call m) as [[]|].
Qed.
Lemma key_revoke env e m : current_call m = None → key_inv (revoke_device env e m).
Proof. intros Hc. destruct (revoke_spec env e m) as (Hc' & _ & _ & _ & _ & _ & Hd & _). unfold key_inv. rewrite Hd, Hc', Hc. done. Qed.

Lemma key_prepare m : key_inv m → key_inv (prepare m).
Proof.
  intros Hk. unfold prepare, spawn_timed_key_rotation. destruct (is_idle m); [|done].
  destruct (device_call _ m) as [c|] eqn:D; [|done]. eapply key_set_call; [done|done|]. auto.
Qed.

Lemma key_command env c m :
  inv m → key_inv m → admissible (InCommand c) m → key_inv (handle_command env c m).
Proof.
  intros Hi Hk Ha. destruct c; cbn [handle_command].
  - destruct Hk as [Hk _]. by split.
  - unfold logout. cbv zeta. destruct (state_logged_out _); [by apply (key_no_call m)|].
    destruct (cacher_write env LoggedOut _) as [[[]|e] m1] eqn:W; apply cacher_write_spec in W as ((Hc & _) & Hd & _).
    + destruct (state_device (data m1)); unfold key_inv; cbn; rewrite Hc; by split.
    + apply (key_no_call m); [done|cbn; by rewrite Hd|cbn; by rewrite Hc].
  - destruct (set env (EvLogin d) m) as [r m1] eqn:S. destruct Ha as [Hl Hreg].
    assert (key_inv m1); [|done]. eapply key_set; [done..| |done]. destruct (needs_device (current_call m)) eqn:E; [|done].
    by rewrite (inv_device m Hi E) in Hl.
  - by apply (key_same m).
  - destruct (is_logging_in m); by apply (key_same m).
  - unfold handle_rotation_request. destruct (is_logging_in m); [by apply (key_same m)|]. destruct (is_validating m); [by apply (key_same m)|].
    destruct (device_call _ m) as [c|] eqn:D; [|by apply (key_same m)].
    apply (key_same (set_call (Some c) m)); [|done..]. eapply key_set_call; [done|done|]. auto.
  - destruct (is_running_timed_totation _); [by apply (key_no_call m)|by apply (key_same m)].
  - unfold handle_validation_request. destruct (is_logging_in m); [by apply (key_same m)|]. destruct (is_validating m); [by apply (key_same m)|].
    destruct (needs_validation env m) as [b m1] eqn:V.
    assert (key_inv m1) as Hk1 by (unfold needs_validation in V; cbv zeta in V; repeat case_match; simplify_eq; eapply key_same; [exact Hk|done..]).
    destruct (negb b); [by apply (key_same m1)|]. destruct (device_call _ m1) as [c|] eqn:D; [|by apply (key_same m1)].
    apply (key_same (set_call (Some c) m1)); [|done..]. eapply key_set_call; [done|done|]. auto.
  - unfold handle_voucher_submission. destruct (is_logging_in m); [by apply (key_same m)|].
    destruct (device_call _ m) as [c|] eqn:D; [|by apply (key_same m)]. eapply key_set_call; [done|done|]. by left.
  - unfold handle_expiry_request. destruct (is_logging_in m); [by apply (key_same m)|]. destruct (is_checking_expiry m); [by apply (key_same m)|].
    destruct (device_call _ m) as [c|] eqn:D; [|by apply (key_same m)].
    apply (key_same (set_call (Some c) m)); [|done..]. eapply key_set_call; [done|done|]. by left.
  - by apply (key_no_call m).
Qed.

Lemma key_rotation env r m m' i :
  key_inv m → current_call m = None → (∃ d, data m = LoggedIn d ∧ id (device d) = i) →
  (∃ key now reply, r = rotated key now reply ∧ (is_ok reply = true → registered i (public_key key))) →
  consume_rotation_result env r m = Some m' → key_inv m'.
Proof.
  intros Hk Hc (d & Hd & <-) (key & now & reply & -> & Hreg). unfold consume_rotation_result. rewrite Hd. cbn [state_device].
  intros [= <-]. unfold rotated. destruct reply as [a|e]; cbn.
  - destruct (set env _ m) as [[[]|e] m1] eqn:S; (eapply key_set in S; [|done|by apply Hreg|by rewrite Hc|done]); by apply (key_same m1).
  - destruct (gone_error (map_rest_error e)); [by apply key_revoke|by apply (key_no_call m)].
Qed.
Lemma key_rotate_if_requested m : key_inv m → key_inv (rotate_if_requested m).
Proof.
  intros Hk. unfold rotate_if_requested. destruct (_ || _); [|done]. destruct (device_call _ m) as [c|] eqn:D; [|done].
  eapply key_set_call; [done|done|]. auto.
Qed.
Lemma key_validation env r m m' i :
  key_inv m → current_call m = None → (∃ d, data m = LoggedIn d ∧ id (device d) = i) →
  (∀ dev, r = Ok dev → dev_id dev = i) → consume_validation env r m = Some m' → key_inv m'.
Proof.
  intros Hk Hc (d & Hd & <-) Hr. unfold consume_validation. rewrite Hd. cbn [state_device]. destruct r as [dev|e].
  - case_decide as Hp; [|intros [= <-]; by apply key_rotate_if_requested]. unfold PrivateDevice_update.
    rewrite decide_False by (intros Hn; by apply Hn). destruct (set env _ m) as [r1 m1] eqn:S. intros [= <-].
    apply key_rotate_if_requested. eapply key_set in S; [|done| |by rewrite Hc|done]; [by apply (key_same m1)|].
    cbn. rewrite (Hr dev eq_refl). exact (proj1 Hk d Hd).
  - intros [= <-]. apply key_rotate_if_requested. destruct (gone_error e); [by apply key_revoke|by apply (key_no_call m)].
Qed.

Lemma key_consume env c r m m' :
  key_inv m → current_call m = Some c → results_from_api c r →
  consume_api_result env c r (put_call None m) = Some m' → key_inv m'.
Proof.
  intros Hk Hc Hr. assert (key_inv (put_call None m)) as Hk0 by by apply (key_no_call m).
  pose proof (proj2 Hk) as Hcall. rewrite Hc in Hcall. destruct c; cbn [consume_api_result results_from_api call_ok] in *.
  - destruct Hr as (key & now & reply & Hl & Hreg). intros [= <-]. unfold consume_login. rewrite Hl. unfold device_of_reply.
    destruct reply as [[dev a]|e]; cbn; [|by apply (key_same (put_call None m))]. unfold try_from_device.
    case_decide as Hp; cbn; [by apply (key_same (put_call None m))|].
    destruct (set env _ (put_call None m)) as [r1 m1] eqn:S. eapply key_set in S; [|done| |done|done]; [by apply (key_same m1)|].
    unfold key_of. cbn. cbn in Hp. rewrite <- Hp. by eapply Hreg.
  - destruct Hcall as (d & Hd & _ & Hi). eapply key_rotation; eauto.
  - destruct Hcall as (d & Hd & _ & Hi). eapply key_rotation; eauto.
  - destruct Hcall as (d & Hd & _ & Hi). eapply key_validation; eauto.
  - intros [= <-]. unfold consume_voucher_result. destruct (r_voucher r) as [v|e]; [by apply (key_same (put_call None m))|].
    destruct (gone_error e); [|by apply (key_same (put_call None m))].
    assert (key_inv (revoke_device env e (put_call None m))) as Hv by by apply key_revoke.
    by apply (key_same (revoke_device env e (put_call None m))).
  - intros [= <-]. unfold consume_expiry_result. destruct (r_expiry r) as [v|e]; [by apply (key_same (put_call None m))|].
    destruct (gone_error e); [by apply key_revoke|by apply (key_same (put_call None m))].
Qed.

Lemma key_step env i m m' : inv m → key_inv m → admissible i m → step env i m = Some m' → key_inv m'.
Proof.
  intros Hi Hk Ha. unfold step. destruct (running m) eqn:Hr.
  - destruct (prepare_inv m Hi Hr) as (Hp & _ & Hd). pose proof (key_prepare m Hk) as Hkp. cbv zeta. destruct i as [c|r|].
    + intros [= <-]. apply key_command; [done..|]. by destruct c; cbn in *; rewrite ?Hd.
    + destruct (current_call (prepare m)) as [c|] eqn:E; [|by intros [= <-]]. apply key_consume; [done..|]. by apply Ha.
    + intros [= <-]. by apply (key_no_call (prepare m)).
  - intros [= <-]. by destruct i as [[]| |]; apply (key_same m).
Qed.

(** Runs in which every input is admissible when it arrives. *)
Inductive admissible_run : list (Env * Input) → Manager → Manager → Prop :=
| run_nil m : admissible_run [] m m
| run_cons env i ins m m1 m' :
    admissible i m → step env i m = Some m1 → admissible_run ins m1 m' → admissible_run ((env, i) :: ins) m m'.

(** The device the daemon is logged in with has a key the API accepted for it.
    However logins, rotations, validations, failing writes and commands follow each
    other, the manager never has a device together with the key of another one, nor
    a key that only a failed rotation knows, and every call about a device is made
    for the device it has. *)
Theorem device_key_registered ins m m' :
  inv m → key_inv m → admissible_run ins m m' →
  (∀ d, data m' = LoggedIn d → registered (id (device d)) (key_of d)) ∧ call_ok (data m') (current_call m').
Proof.
  intros Hi Hk Hr. induction Hr as [m|env i ins m m1 m' Ha Hs Hr IH]; [done|]. apply IH.
  - destruct (manager_step_inv env i m Hi) as (m2 & E & Hi2). congruence.
  - by eapply key_step.
Qed.
End Registered.
End Theorems.

(** * When the device is checked

    The handler of tunnel state transitions (mullvad-daemon/src/device/mod.rs) has
    the device and the account looked up while tunnels cannot be set up, without
    flooding the API. *)

(** What happens while connecting does not succeed: attempts, ends of attempts and
    results of checks. *)
Definition connecting_loop (i : HandlerInput) : Prop :=
  match i with
  | HTransition (TrConnecting _ | TrDisconnecting _) | HChecked _ => True
  | _ => False
  end.
Definition wg_attempt (i : HandlerInput) : bool :=
  match i with HTransition (TrConnecting e) => is_wireguard e | _ => false end.
Definition inconclusive (i : HandlerInput) : bool :=
  match i with HChecked (Err e) => should_continue_retries e | _ => false end.
Definition count_inputs (p : HandlerInput → bool) (ins : list HandlerInput) : nat := length (List.filter p ins).

(** A check runs, or one may be started, but not both; the checks started are
    accounted for. *)
Record checks_ok (n failures : nat) (h : Handler) : Prop := {
  ok_one : (running_checks h + (if can_retry h then 1 else 0) ≤ 1)%nat;
  ok_started : (started_checks h + (if can_retry h then 1 else 0) ≤ 1 + failures)%nat;
  ok_attempt : Z.of_nat n < 2 ^ 64 → wg_retry_attempt h = Z.of_nat n;
  ok_checked : Z.of_nat n < 2 ^ 64 → (3 ≤ n)%nat → (1 ≤ started_checks h)%nat;
  ok_waiting : Z.of_nat n < 2 ^ 64 → started_checks h = 0%nat → can_retry h = true
}.

Lemma step_checks_ok n f h i :
  connecting_loop i → checks_ok n f h →
  checks_ok (n + (if wg_attempt i then 1 else 0)) (f + (if inconclusive i then 1 else 0)) (handler_step h i).
Proof.
  intros Hi [H1 H2 H3 H4 H5]. destruct h as [retry attempt running started]. cbn in *.
  destruct i as [t|r]; cbn [wg_attempt inconclusive handler_step].
  - rewrite Nat.add_0_r. unfold handle_state_transition. cbv zeta. cbn [can_retry wg_retry_attempt running_checks started_checks].
    assert (update_retry_bool t retry = retry) as -> by by destruct t.
    set (k := if _ : bool then _ else _).
    assert (Z.of_nat (n + k) < 2 ^ 64 → update_retry_counter t attempt = Z.of_nat (n + k)) as Hk.
    { intros Hb. subst k. destruct t; try done; cbn in *; try (rewrite Nat.add_0_r in *; auto).
      destruct (is_wireguard e); [|rewrite Nat.add_0_r in *; auto]. rewrite H3 by lia. unfold wrap. rewrite Z.mod_small by lia. lia. }
    assert (Z.of_nat (n + k) < 2 ^ 64 → (3 ≤ n + k)%nat → (n < 3)%nat →
      should_check_device_validity_on_attempt (update_retry_counter t attempt) = true) as H3rd.
    { intros Hb Hn Hlt. rewrite Hk by done. assert (n + k = 3)%nat as -> by (subst k; destruct t; cbn in *; try destruct (is_wireguard e); lia). done. }
    destruct (should_check_device_validity_on_attempt _) eqn:E; [destruct retry|]; split; cbn in *; try lia; try done.
    all: intros Hb ?; try (destruct (Nat.lt_ge_cases n 3); [specialize (H3rd Hb ltac:(lia) ltac:(lia)); try done|specialize (H4 ltac:(lia) ltac:(lia)); lia]).
    all: try (apply H5; lia).
  - rewrite Nat.add_0_r. unfold check_device_validity. cbn [running_checks can_retry wg_retry_attempt started_checks].
    destruct running as [|running].
    + split; cbn; auto; destruct r as [|e]; cbn; try (destruct (should_continue_retries e)); lia.
    + destruct retry; [lia|]. split; cbn; try done; destruct r as [|e]; cbn; try (destruct (should_continue_retries e)); cbn; try lia; auto.
Qed.

Lemma run_checks_ok ins n f h :
  Forall connecting_loop ins → checks_ok n f h →
  checks_ok (n + count_inputs wg_attempt ins) (f + count_inputs inconclusive ins) (foldl handler_step h ins).
Proof.
  revert n f h; induction ins as [|i ins IH]; intros n f h Hi Hh; cbn [foldl]; unfold count_inputs in *; cbn [List.filter length].
  - by rewrite !Nat.add_0_r.
  - apply Forall_cons in Hi as [Hi His]. apply (step_checks_ok _ _ _ _ Hi) in Hh. apply (IH _ _ _ His) in Hh.
    destruct (wg_attempt i), (inconclusive i); cbn [length]; rewrite ?Nat.add_1_r, ?Nat.add_0_r, ?Nat.add_succ_comm in *; done.
Qed.

(** While the daemon keeps failing to connect, the device is checked, and the API
    is spared: there is a check by the third WireGuard attempt, never more than one
    runs at a time, and another one is only started after one that found out nothing
    (a network error); this however often it tries. *)
Theorem device_checked ins :
  Forall connecting_loop ins → Z.of_nat (count_inputs wg_attempt ins) < 2 ^ 64 →
  let h := foldl handler_step Handler_new ins in
  (running_checks h ≤ 1)%nat ∧
  (started_checks h ≤ 1 + count_inputs inconclusive ins)%nat ∧
  ((3 ≤ count_inputs wg_attempt ins)%nat → (1 ≤ started_checks h)%nat) ∧
  (∀ t, started_checks (handle_state_transition t h) ≠ started_checks h →
     should_check_device_validity_on_attempt (wg_retry_attempt (handle_state_transition t h)) = true ∧
     update_retry_bool t (can_retry h) = true).
Proof.
  intros Hi Hb. cbv zeta. assert (checks_ok 0 0 Handler_new) as H0 by (split; cbn; try done; lia).
  destruct (run_checks_ok _ _ _ _ Hi H0) as [H1 H2 H3 H4 H5]. cbn [plus] in *. set (h := foldl handler_step Handler_new ins) in *.
  split_and!; [lia|lia|auto|]. intros t. unfold handle_state_transition. cbv zeta.
  destruct (should_check_device_validity_on_attempt _) eqn:E; [destruct (update_retry_bool t (can_retry h))|]; cbn; try done.
Qed.

Definition example_endpoint : TunnelEndpoint :=
  {| te_endpoint := {| address := SockV4 0 51820; protocol := Udp |}; tunnel_type := Wireguard; quantum_resistant := true;
     te_proxy := None; te_obfuscation := None; entry_endpoint := None; tunnel_interface := None; daita := false |}.
Lemma device_checked_witness :
  let ins := repeat (HTransition (TrConnecting example_endpoint)) 6 in
  Forall connecting_loop ins ∧ started_checks (foldl handler_step Handler_new ins) = 1%nat ∧
  (running_checks (foldl handler_step Handler_new ins) ≤ 1)%nat.
Proof.
  assert (Forall connecting_loop (repeat (HTransition (TrConnecting example_endpoint)) 6)) as Hi by (repeat constructor).
  cbv zeta. split; [exact Hi|]. split; [reflexivity|].
  exact (proj1 (device_checked _ Hi ltac:(vm_compute; reflexivity))).
Defined.

(** * Concrete runs of the account manager

    A login, a rotation and a logout, on which the theorems are applied; and a run in
    which a request to validate the device waits although nothing will answer it. *)

Module AccountExample.
#[local] Instance example_keys : Keys := {| public_key := λ k, ("pub " ++ k)%string |}.

Definition env0 : Env := {| fault := None; now := 0; gone := [] |}.
Definition example_addresses : AssociatedAddresses := {| ipv4_address := NetV4 0 32; ipv6_address := NetV6 0 128 |}.
Definition example_device : Device :=
  {| dev_id := "d1"; dev_name := "happy seal"; dev_pubkey := "pub k1"; dev_hijack_dns := false; dev_created := 0 |}.
Definition login_reply : result rest.Error (Device * AssociatedAddresses) := Ok (example_device, example_addresses).
Definition rotation_reply : result rest.Error AssociatedAddresses := Ok example_addresses.
Definition results : Results :=
  {| r_login := device_of_reply "1234" "k1" 0 login_reply; r_rotation := rotated "k2" 0 rotation_reply;
     r_validation := Ok example_device; r_voucher := Err InvalidVoucher; r_expiry := Ok 5 |}.

Definition manager0 : Manager :=
  {| cache := Some LoggedOut; data := LoggedOut; rotation_interval := 0; listeners := [7]%nat; last_validation := None;
     validation_requests := []; expiry_requests := []; rotation_requests := []; data_requests := [];
     current_call := None; running := true; out := [] |}.
Lemma spawned : spawn env0 None 0 7 = Ok manager0.
Proof. reflexivity. Defined.

(** Log in, wait for it, rotate the key, log out. *)
Definition session : list (Env * Input) :=
  [(env0, InCommand (CmdLogin "1234" 1)); (env0, InCommand (CmdGetDataAfterLogin 2)); (env0, InResult results);
   (env0, InCommand (CmdRotateKey 3)); (env0, InResult results)].
Definition logged_in : Manager := default manager0 (run session manager0).
Lemma session_run : run session manager0 = Some logged_in.
Proof. vm_compute. reflexivity. Defined.

Lemma manager_no_panic_witness : ∃ m', run session manager0 = Some m' ∧ (data_requests m' ≠ [] → is_logging_in m' = true).
Proof.
  destruct (manager_no_panic env0 None 0 7 manager0 session spawned) as (m' & E & _ & Hd). exists m'. split; [exact E|exact Hd].
Defined.

Lemma requests_conserved_witness : finished (out logged_in) ++ pending logged_in ≡ₚ [1; 2; 3]%nat.
Proof. exact (requests_conserved env0 None 0 7 manager0 session logged_in spawned session_run). Defined.

Lemma device_state_published_witness :
  heard 7 LoggedOut (out logged_in) = data logged_in ∧ cache logged_in = Some (data logged_in).
Proof.
  destruct (device_state_published env0 None 0 7 manager0 session logged_in spawned session_run) as [Hh Hc].
  split; [apply Hh; vm_compute; apply list_elem_of_here|]. apply Hc. repeat constructor.
Defined.

(** The device is removed at logout. *)
Definition after_logout : Manager := default manager0 (run [(env0, InCommand (CmdLogout 4))] logged_in).
Lemma devices_accounted_witness :
  has_device "d1" logged_in ∧
  (has_device "d1" after_logout ∨ (∃ number tx, RemoveTask number "d1" tx ∈ out after_logout) ∨
   ∃ before after m1, [(env0, InCommand (CmdLogout 4))] = before ++ after ∧ run before logged_in = Some m1 ∧ data m1 = Revoked).
Proof.
  assert (has_device "d1" logged_in) as Hd by (vm_compute; reflexivity). split; [exact Hd|].
  apply (devices_accounted _ logged_in after_logout "d1"); [vm_compute; reflexivity|exact Hd].
Defined.

(** The API knows two keys of the device. *)
Definition known (i : DeviceId) (key : string) : Prop := i = "d1"%string ∧ key ∈ ["pub k1"; "pub k2"]%string.
Definition at_ (n : nat) : Manager := default manager0 (run (take n session) manager0).
Lemma session_admissible : admissible_run known session manager0 logged_in.
Proof.
  apply (run_cons known _ _ _ _ (at_ 1)); [exact I|vm_compute; reflexivity|].
  apply (run_cons known _ _ _ _ (at_ 2)); [exact I|vm_compute; reflexivity|].
  apply (run_cons known _ _ _ _ (at_ 3)); [|vm_compute; reflexivity|].
  - intros c Hc. assert (c = CallLogin "1234" 1) as -> by (revert Hc; vm_compute; congruence).
    exists "k1"%string, 0, login_reply. split; [reflexivity|]. intros dev a [= <- <-]. split; [reflexivity|apply list_elem_of_here].
  - apply (run_cons known _ _ _ _ (at_ 4)); [exact I|vm_compute; reflexivity|].
    apply (run_cons known _ _ _ _ logged_in); [|vm_compute; reflexivity|apply run_nil].
    intros c Hc. assert (c = CallOneshotKeyRotation "1234" "d1") as -> by (revert Hc; vm_compute; congruence).
    exists "k2"%string, 0, rotation_reply. split; [reflexivity|]. intros _.
    split; [reflexivity|apply list_elem_of_further, list_elem_of_here].
Defined.
Lemma device_key_registered_witness :
  inv manager0 ∧ key_inv known manager0 ∧ admissible_run known session manager0 logged_in ∧
  ∀ d, data logged_in = LoggedIn d → known (id (device d)) (key_of d).
Proof.
  pose proof (proj1 (spawn_inv env0 None 0 7 manager0 spawned)) as Hi.
  assert (key_inv known manager0) as Hk by (split; [intros d [=]|exact I]).
  split; [exact Hi|]. split; [exact Hk|]. split; [exact session_admissible|].
  exact (proj1 (device_key_registered known session manager0 logged_in Hi Hk session_admissible)).
Defined.

(** A request to validate the device is overtaken by one for the expiry: the call it
    waits for is dropped, the request stays.  The next request is answered without a
    look-up, as the last one is thought to be recent. *)
Definition overtaken : list (Env * Input) :=
  [(env0, InCommand (CmdValidateDevice 4)); (env0, InCommand (CmdCheckExpiry 5)); (env0, InResult results);
   (env0, InCommand (CmdValidateDevice 6))].
Definition stranded : Manager := default manager0 (run overtaken logged_in).
Lemma validation_stranded :
  run overtaken logged_in = Some stranded ∧ validation_requests stranded = [4]%nat ∧ is_validating stranded = false ∧
  List.In (Answered 6 (AnsUnit (Ok ()))) (out stranded).
Proof. vm_compute. tauto. Qed.
(** A request that waits when the user logs out waits for ever. *)
Definition logged_out : Manager :=
  default manager0 (run [(env0, InCommand (CmdRotateKey 4)); (env0, InCommand (CmdLogout 5))] logged_in).
Lemma rotation_stranded :
  rotation_requests logged_out = [4]%nat ∧ current_call logged_out = None ∧ data logged_out = LoggedOut.
Proof. vm_compute. done. Qed.
End AccountExample.
