(* ===== verification/DaemonSettings.v ===== *)
(** * The settings of the daemon

    mullvad-types/src/settings/mod.rs and settings/dns.rs, the tunnel options of
    mullvad-types/src/wireguard.rs, what other components make of the settings:
    the configuration of the relay selector (mullvad-relay-selector), the DNS
    configuration (mullvad-daemon/src/dns.rs) and the feature indicators
    (mullvad-types/src/features.rs).  As built for Linux: no split-tunnelling
    settings, with DAITA.  Durations are nanoseconds. *)

From S2P Require Import Prelude NetTypes TunnelTypes Constraints RelayTypes CustomLists RelayQuery RelaySelector RelayLists AccessMethods.

(** ** DNS options (settings/dns.rs) *)

Inductive DnsState : Set := DnsStateDefault | DnsStateCustom.
Record DefaultDnsOptions : Set := {
  block_ads : bool;
  block_trackers : bool;
  block_malware : bool;
  block_adult_content : bool;
  block_gambling : bool;
  block_social_media : bool
}.
Record CustomDnsOptions : Set := { addresses : list IpAddr }.
Record DnsOptions : Set := {
  dns_state : DnsState;
  default_options : DefaultDnsOptions;
  custom_options : CustomDnsOptions
}.
Definition DnsOptions_default : DnsOptions := {|
  dns_state := DnsStateDefault;
  default_options := {| block_ads := false; block_trackers := false; block_malware := false;
                        block_adult_content := false; block_gambling := false; block_social_media := false |};
  custom_options := {| addresses := [] |} |}.
Definition any_blockers_enabled (o : DefaultDnsOptions) : bool :=
  block_ads o || block_trackers o || block_malware o || block_adult_content o || block_gambling o ||
  block_social_media o.

(** ** Tunnel options (wireguard.rs, settings/mod.rs) *)

Definition MIN_ROTATION_INTERVAL : Z := 1 * 24 * 60 * 60 * 10 ^ 9.
Definition MAX_ROTATION_INTERVAL : Z := 30 * 24 * 60 * 60 * 10 ^ 9.
Definition DEFAULT_ROTATION_INTERVAL : Z := MAX_ROTATION_INTERVAL.
Inductive RotationIntervalError : Set := TooSmall | TooLarge.
Definition RotationInterval_new (interval : Z) : result RotationIntervalError Z :=
  if interval <? MIN_ROTATION_INTERVAL then Err TooSmall
  else if MAX_ROTATION_INTERVAL <? interval then Err TooLarge
  else Ok interval.
(** From a number of hours, a 64-bit integer. *)
Definition RotationInterval_try_from (value : Z) : result RotationIntervalError Z :=
  let val := value * (60 * 60) in
  if val <? 2 ^ 64 then RotationInterval_new (val * 10 ^ 9) else Err TooLarge.
Definition RotationInterval_default : Z := DEFAULT_ROTATION_INTERVAL.

Record DaitaSettings : Set := { daita_enabled : bool; use_multihop_if_necessary : bool }.
Definition DaitaSettings_default : DaitaSettings := {| daita_enabled := false; use_multihop_if_necessary := true |}.

Module wg_options.
Record TunnelOptions : Set := {
  mtu : option Z;
  quantum_resistant : QuantumResistantState;
  daita : DaitaSettings;
  rotation_interval : option Z
}.
Definition TunnelOptions_default : TunnelOptions :=
  {| mtu := None; quantum_resistant := QrAuto; daita := DaitaSettings_default; rotation_interval := None |}.
Definition into_talpid_tunnel_options (o : TunnelOptions) : wireguard.TunnelOptions :=
  {| wireguard.mtu := mtu o; wireguard.quantum_resistant := quantum_resistant_enabled (quantum_resistant o);
     wireguard.daita := daita_enabled (daita o) |}.
End wg_options.

Record TunnelOptions : Set := {
  to_openvpn : openvpn.TunnelOptions;
  to_wireguard : wg_options.TunnelOptions;
  to_generic : GenericTunnelOptions;
  dns_options : DnsOptions
}.
Definition TunnelOptions_default : TunnelOptions := {|
  to_openvpn := {| openvpn.mssfix := None |}; to_wireguard := wg_options.TunnelOptions_default;
  to_generic := {| enable_ipv6 := false |}; dns_options := DnsOptions_default |}.

(** ** The settings (settings/mod.rs) *)

Inductive SettingsVersion : Set := V2 | V3 | V4 | V5 | V6 | V7 | V8 | V9 | V10 | V11 | V12.
Definition SettingsVersion_number (v : SettingsVersion) : Z :=
  match v with V2 => 2 | V3 => 3 | V4 => 4 | V5 => 5 | V6 => 6 | V7 => 7 | V8 => 8 | V9 => 9 | V10 => 10 | V11 => 11
  | V12 => 12 end.
Definition SettingsVersion_deserialize (n : Z) : option SettingsVersion :=
  List.find (λ v, n =? SettingsVersion_number v) [V2; V3; V4; V5; V6; V7; V8; V9; V10; V11; V12].
Definition CURRENT_SETTINGS_VERSION : SettingsVersion := V12.

Inductive Recent : Set :=
| RecentSinglehop (location : LocationConstraint)
| RecentMultihop (entry exit : LocationConstraint).

Record Settings : Set := {
  s_relay_settings : RelaySettings;
  s_bridge_settings : BridgeSettings;
  s_obfuscation_settings : ObfuscationSettings;
  s_bridge_state : BridgeState;
  s_custom_lists : CustomListsSettings;
  s_api_access_methods : access_methods.Settings;
  s_update_default_location : bool;
  s_allow_lan : bool;
  s_lockdown_mode : bool;
  s_auto_connect : bool;
  s_tunnel_options : TunnelOptions;
  s_relay_overrides : list RelayOverride;
  s_show_beta_releases : bool;
  s_settings_version : SettingsVersion;
  s_recents : option (list Recent);
  s_rollout_threshold_seed : option Z
}.

#[global] Instance Settings_eta : Eta Settings := λ x, {|
  s_relay_settings := s_relay_settings x; s_bridge_settings := s_bridge_settings x;
  s_obfuscation_settings := s_obfuscation_settings x; s_bridge_state := s_bridge_state x;
  s_custom_lists := s_custom_lists x; s_api_access_methods := s_api_access_methods x;
  s_update_default_location := s_update_default_location x; s_allow_lan := s_allow_lan x;
  s_lockdown_mode := s_lockdown_mode x; s_auto_connect := s_auto_connect x; s_tunnel_options := s_tunnel_options x;
  s_relay_overrides := s_relay_overrides x; s_show_beta_releases := s_show_beta_releases x;
  s_settings_version := s_settings_version x; s_recents := s_recents x;
  s_rollout_threshold_seed := s_rollout_threshold_seed x |}.
#[global] Instance TunnelOptions_eta : Eta TunnelOptions := λ x, {|
  to_openvpn := to_openvpn x; to_wireguard := to_wireguard x; to_generic := to_generic x; dns_options := dns_options x |}.
#[global] Instance wg_options_eta : Eta wg_options.TunnelOptions := λ x, {|
  wg_options.mtu := wg_options.mtu x; wg_options.quantum_resistant := wg_options.quantum_resistant x;
  wg_options.daita := wg_options.daita x; wg_options.rotation_interval := wg_options.rotation_interval x |}.
#[global] Instance DaitaSettings_eta : Eta DaitaSettings := λ x,
  {| daita_enabled := daita_enabled x; use_multihop_if_necessary := use_multihop_if_necessary x |}.
#[global] Instance RelayConstraints_eta : Eta RelayConstraints := λ x, {|
  rc_location := rc_location x; rc_providers := rc_providers x; rc_ownership := rc_ownership x;
  rc_tunnel_protocol := rc_tunnel_protocol x; rc_wireguard_constraints := rc_wireguard_constraints x;
  rc_openvpn_constraints := rc_openvpn_constraints x |}.
#[global] Instance WireguardConstraints_eta : Eta WireguardConstraints := λ x, {|
  wc_port := wc_port x; wc_ip_version := wc_ip_version x; wc_allowed_ips := wc_allowed_ips x;
  wc_use_multihop := wc_use_multihop x; wc_entry_location := wc_entry_location x |}.

(** [PartialEq]. *)
#[global] Instance DnsState_eq_dec : EqDecision DnsState.
Proof. solve_decision. Defined.
#[global] Instance DefaultDnsOptions_eq_dec : EqDecision DefaultDnsOptions.
Proof. solve_decision. Defined.
#[global] Instance CustomDnsOptions_eq_dec : EqDecision CustomDnsOptions.
Proof. solve_decision. Defined.
#[global] Instance DnsOptions_eq_dec : EqDecision DnsOptions.
Proof. solve_decision. Defined.
#[global] Instance DaitaSettings_eq_dec : EqDecision DaitaSettings.
Proof. solve_decision. Defined.
#[global] Instance wg_options_eq_dec : EqDecision wg_options.TunnelOptions.
Proof. solve_decision. Defined.
#[global] Instance openvpn_options_eq_dec : EqDecision openvpn.TunnelOptions.
Proof. solve_decision. Defined.
#[global] Instance GenericTunnelOptions_eq_dec : EqDecision GenericTunnelOptions.
Proof. solve_decision. Defined.
#[global] Instance TunnelOptions_eq_dec : EqDecision TunnelOptions.
Proof. solve_decision. Defined.
#[global] Instance SettingsVersion_eq_dec : EqDecision SettingsVersion.
Proof. solve_decision. Defined.
#[global] Instance Recent_eq_dec : EqDecision Recent.
Proof. solve_decision. Defined.
#[global] Instance openvpn_config_eq_dec : EqDecision openvpn.ConnectionConfig.
Proof. solve_decision. Defined.
#[global] Instance PeerConfig_eq_dec : EqDecision wireguard.PeerConfig.
Proof. solve_decision. Defined.
#[global] Instance TunnelConfig_eq_dec : EqDecision wireguard.TunnelConfig.
Proof. solve_decision. Defined.
#[global] Instance wireguard_config_eq_dec : EqDecision wireguard.ConnectionConfig.
Proof. solve_decision. Defined.
#[global] Instance CustomConnectionConfig_eq_dec : EqDecision CustomConnectionConfig.
Proof. solve_decision. Defined.
#[global] Instance CustomTunnelEndpoint_eq_dec : EqDecision CustomTunnelEndpoint.
Proof. solve_decision. Defined.
#[global] Instance WireguardConstraints_eq_dec : EqDecision WireguardConstraints.
Proof. solve_decision. Defined.
#[global] Instance OpenVpnConstraints_eq_dec : EqDecision OpenVpnConstraints.
Proof. solve_decision. Defined.
#[global] Instance RelayConstraints_eq_dec : EqDecision RelayConstraints.
Proof. solve_decision. Defined.
#[global] Instance RelaySettings_eq_dec : EqDecision RelaySettings.
Proof. solve_decision. Defined.
#[global] Instance BridgeType_eq_dec : EqDecision BridgeType.
Proof. solve_decision. Defined.
#[global] Instance BridgeState_eq_dec : EqDecision BridgeState.
Proof. solve_decision. Defined.
#[global] Instance BridgeSettings_eq_dec : EqDecision BridgeSettings.
Proof. solve_decision. Defined.
#[global] Instance ObfuscationSettings_eq_dec : EqDecision ObfuscationSettings.
Proof. solve_decision. Defined.
#[global] Instance CustomList_eq_dec : EqDecision CustomList.
Proof. solve_decision. Defined.
#[global] Instance Settings_eq_dec : EqDecision Settings.
Proof. solve_decision. Defined.

(** ** Defaults and operations *)

Definition RelayConstraints_default : RelayConstraints := {|
  rc_location := Any; rc_providers := Any; rc_ownership := Any; rc_tunnel_protocol := Wireguard;
  rc_wireguard_constraints := {| wc_port := Any; wc_ip_version := Any; wc_allowed_ips := Any;
                                 wc_use_multihop := false; wc_entry_location := Any |};
  rc_openvpn_constraints := {| oc_port := Any |} |}.

(** Relays and entry relays of one country, anything else open. *)
Definition in_country (code : string) : RelaySettings :=
  RsNormal (RelayConstraints_default
    <| rc_location := Only (LcLocation (GCountry code)) |>
    <| rc_wireguard_constraints ::= λ w, w <| wc_entry_location := Only (LcLocation (GCountry code)) |> |>).

(** The identifiers of the built-in access methods are drawn at random. *)
Definition Settings_default (ids : Z * Z * Z) : Settings := {|
  s_relay_settings := in_country "se";
  s_bridge_settings := BridgeSettings_default;
  s_obfuscation_settings := ObfuscationSettings_default;
  s_bridge_state := BsAuto;
  s_custom_lists := [];
  s_api_access_methods := access_methods.Settings_default ids.1.1 ids.1.2 ids.2;
  s_update_default_location := false;
  s_allow_lan := false;
  s_lockdown_mode := false;
  s_auto_connect := false;
  s_tunnel_options := TunnelOptions_default;
  s_relay_overrides := [];
  s_show_beta_releases := false;
  s_settings_version := CURRENT_SETTINGS_VERSION;
  s_recents := Some [];
  s_rollout_threshold_seed := None |}.

Definition set_relay_settings (new_settings : RelaySettings) (s : Settings) : Settings :=
  if decide (s_relay_settings s = new_settings) then s
  else
    let s := if negb (supports_bridge new_settings) && bool_decide (s_bridge_state s = BsOn)
             then s <| s_bridge_state := BsAuto |> else s in
    s <| s_relay_settings := new_settings |>.

(** [Vec::swap_remove] of an index in range. *)
Definition swap_remove {A} (i : nat) (l : list A) : list A :=
  match last l with
  | Some x => take (length l - 1) (<[i := x]> l)
  | None => l
  end.

Definition set_relay_override (o : RelayOverride) (s : Settings) : Settings :=
  s <| s_relay_overrides ::= λ os,
         match list_find (λ elem, ro_hostname elem = ro_hostname o) os with
         | None => os ++ [o]
         | Some (index, _) => if override_is_empty o then swap_remove index os else <[index := o]> os
         end |>.

Definition RECENTS_MAX_COUNT : nat := 50.

Definition is_hostname (l : LocationConstraint) : bool :=
  match l with LcLocation (GHostname _ _ _) => true | _ => false end.
Definition Recent_try_from (s : RelaySettings) : option Recent :=
  match s with
  | RsCustomTunnelEndpoint _ => None
  | RsNormal constraints =>
      location ← constraint_option (rc_location constraints);
      if wc_use_multihop (rc_wireguard_constraints constraints) then
        entry ← constraint_option (wc_entry_location (rc_wireguard_constraints constraints));
        if is_hostname entry && is_hostname location && bool_decide (entry = location) then None
        else Some (RecentMultihop entry location)
      else Some (RecentSinglehop location)
  end.

Definition update_recents (s : Settings) : Settings :=
  match s_recents s, Recent_try_from (s_relay_settings s) with
  | Some recents, Some new_recent =>
      s <| s_recents := Some (take RECENTS_MAX_COUNT
             (new_recent :: List.filter (λ r, negb (bool_decide (r = new_recent))) recents)) |>
  | _, _ => s
  end.

(** ** What is derived from the settings *)

(** [SelectorConfig::from_settings]. *)
Definition SelectorConfig_from_settings (s : Settings) : SelectorConfig :=
  let options := to_wireguard (s_tunnel_options s) in
  {| relay_settings := s_relay_settings s;
     additional_constraints := {|
       ad_daita := daita_enabled (wg_options.daita options);
       ad_daita_use_multihop_if_necessary := use_multihop_if_necessary (wg_options.daita options);
       ad_quantum_resistant := wg_options.quantum_resistant options |};
     bridge_state := s_bridge_state s;
     bridge_settings := s_bridge_settings s;
     sc_obfuscation_settings := s_obfuscation_settings s;
     custom_lists := s_custom_lists s;
     relay_overrides := s_relay_overrides s |}.

(** mullvad-daemon/src/dns.rs. *)
Definition DNS_BLOCKING_IP_BASE : Z := Ipv4Addr_new 100 64 0 0.
Definition DNS_AD_BLOCKING_IP_BIT : Z := Z.shiftl 1 0.
Definition DNS_TRACKER_BLOCKING_IP_BIT : Z := Z.shiftl 1 1.
Definition DNS_MALWARE_BLOCKING_IP_BIT : Z := Z.shiftl 1 2.
Definition DNS_ADULT_BLOCKING_IP_BIT : Z := Z.shiftl 1 3.
Definition DNS_GAMBLING_BLOCKING_IP_BIT : Z := Z.shiftl 1 4.
Definition DNS_SOCIAL_MEDIA_BLOCKING_IP_BIT : Z := Z.shiftl 1 5.

Definition blocking_byte (o : DefaultDnsOptions) : Z :=
  let set (b : bool) bit byte := if b then Z.lor byte bit else byte in
  set (block_social_media o) DNS_SOCIAL_MEDIA_BLOCKING_IP_BIT
    (set (block_gambling o) DNS_GAMBLING_BLOCKING_IP_BIT
      (set (block_adult_content o) DNS_ADULT_BLOCKING_IP_BIT
        (set (block_malware o) DNS_MALWARE_BLOCKING_IP_BIT
          (set (block_trackers o) DNS_TRACKER_BLOCKING_IP_BIT
            (set (block_ads o) DNS_AD_BLOCKING_IP_BIT 0))))).

Definition addresses_from_options `{IpNetworkCrate} (options : DnsOptions) : DnsConfig :=
  match dns_state options with
  | DnsStateDefault =>
      let last_byte := blocking_byte (default_options options) in
      if negb (last_byte =? 0) then
        DnsConfig_from_addresses [AddrV4 (Z.lor DNS_BLOCKING_IP_BASE last_byte)] []
      else DnsDefault
  | DnsStateCustom =>
      match addresses (custom_options options) with
      | [] => DnsDefault
      | addrs =>
          DnsConfig_from_addresses (List.filter (λ addr, negb (is_local_address addr)) addrs)
                                   (List.filter is_local_address addrs)
      end
  end.

(** features.rs. *)
Inductive FeatureIndicator : Set :=
| QuantumResistance | FMultihop | BridgeMode | SplitTunneling | FLockdownMode | FUdp2Tcp | FShadowsocks | FQuic | FLwo
| LanSharing | DnsContentBlockers | CustomDns | ServerIpOverride | CustomMtu | CustomMssFix | Daita | DaitaMultihop.
#[global] Instance FeatureIndicator_eq_dec : EqDecision FeatureIndicator.
Proof. solve_decision. Defined.
Definition all_features : list FeatureIndicator := [QuantumResistance; FMultihop; BridgeMode; SplitTunneling;
  FLockdownMode; FUdp2Tcp; FShadowsocks; FQuic; FLwo; LanSharing; DnsContentBlockers; CustomDns; ServerIpOverride;
  CustomMtu; CustomMssFix; Daita; DaitaMultihop].
#[global] Program Instance FeatureIndicator_countable : Countable FeatureIndicator :=
  inj_countable (λ f, default 0%nat (fst <$> list_find (eq f) all_features)) (λ n, all_features !! n) _.
Next Obligation. by intros []. Qed.
#[global] Instance ObfuscationType_eq_dec : EqDecision ObfuscationType.
Proof. solve_decision. Defined.

Definition has_obfuscation (endpoint : TunnelEndpoint) (obfs : ObfuscationType) : bool :=
  match te_obfuscation endpoint with
  | Some (InfoSingle e) => bool_decide (obfuscation_type e = obfs)
  | Some (InfoMultiplexer _ obfuscators) => existsb (λ single, bool_decide (obfuscation_type single = obfs)) obfuscators
  | None => false
  end.

Definition compute_feature_indicators (settings : Settings) (endpoint : TunnelEndpoint) (server_ip_override : bool) :
    gset FeatureIndicator :=
  let options := s_tunnel_options settings in
  let generic_features := [
    (false, SplitTunneling);
    (s_allow_lan settings, LanSharing);
    (any_blockers_enabled (default_options (dns_options options)), DnsContentBlockers);
    (bool_decide (dns_state (dns_options options) = DnsStateCustom), CustomDns);
    (server_ip_override, ServerIpOverride);
    (s_lockdown_mode settings, FLockdownMode)] in
  let protocol_features :=
    match tunnel_type endpoint with
    | OpenVpn => [
        (bool_decide (is_Some (te_proxy endpoint)), BridgeMode);
        (bool_decide (is_Some (openvpn.mssfix (to_openvpn options))), CustomMssFix)]
    | Wireguard =>
        let has_entry := bool_decide (is_Some (entry_endpoint endpoint)) in
        let '(multihop, daita_multihop) :=
          match s_relay_settings settings with
          | RsNormal constraints =>
              let use_multihop := wc_use_multihop (rc_wireguard_constraints constraints) in
              (has_entry && use_multihop, NetTypes.daita endpoint && has_entry && negb use_multihop)
          | RsCustomTunnelEndpoint _ => (false, false)
          end in
        [(NetTypes.quantum_resistant endpoint, QuantumResistance);
         (multihop, FMultihop);
         (has_obfuscation endpoint ObfUdp2Tcp, FUdp2Tcp);
         (has_obfuscation endpoint ObfShadowsocks, FShadowsocks);
         (has_obfuscation endpoint ObfQuic, FQuic);
         (has_obfuscation endpoint ObfLwo, FLwo);
         (bool_decide (is_Some (wg_options.mtu (to_wireguard options))), CustomMtu);
         (NetTypes.daita endpoint && negb daita_multihop, Daita);
         (daita_multihop, DaitaMultihop)]
    end in
  list_to_set (map snd (List.filter fst (generic_features ++ protocol_features))).

(** ** Properties *)

Lemma filter_true_subset {A} (f : A → bool) l x : x ∈ List.filter f l ↔ x ∈ l ∧ f x = true.
Proof. rewrite !list_elem_of_In. apply filter_In. Qed.

Lemma NoDup_list_filter {A} (f : A → bool) (l : list A) : NoDup l → NoDup (List.filter f l).
Proof.
  induction 1 as [|x l Hx _ IH]; cbn; [constructor|]. destruct (f x); [|done].
  constructor; [|done]. rewrite filter_true_subset. tauto.
Qed.

(** Recents without repetition, at most as many as are kept. *)
Definition recents_ok (s : Settings) : Prop :=
  ∀ recents, s_recents s = Some recents → NoDup recents ∧ (length recents ≤ RECENTS_MAX_COUNT)%nat.

(** The recent locations stay without repetition and bounded, and the location
    in use becomes the first of them. *)
Theorem recents_updated s :
  recents_ok s → recents_ok (update_recents s) ∧
  (∀ recents r, s_recents s = Some recents → Recent_try_from (s_relay_settings s) = Some r →
     (s_recents (update_recents s) ≫= head) = Some r ∧
     ∀ r', r' ∈ default [] (s_recents (update_recents s)) → r' = r ∨ r' ∈ recents).
Proof.
  intros Hok. unfold update_recents.
  destruct (s_recents s) as [rs|] eqn:Er; [|split; [by intros ? ?; congruence|congruence]].
  destruct (Recent_try_from _) as [r|] eqn:E; [|split; [done|congruence]].
  destruct (Hok _ Er) as [Hnd _]. set (kept := List.filter _ rs).
  assert (NoDup (r :: kept)) as Hnd'.
  { constructor; [|by apply NoDup_list_filter]. unfold kept. rewrite filter_true_subset, negb_true_iff, bool_decide_eq_false.
    tauto. }
  set (new := take RECENTS_MAX_COUNT (r :: kept)).
  assert (∀ r', r' ∈ new → r' ∈ r :: kept) as Hin.
  { intros r' (i & Hi & _)%elem_of_take. by eapply list_elem_of_lookup_2. }
  split.
  - intros l Hl. assert (l = new) as -> by (symmetry; apply (inj Some), Hl). split; [|apply firstn_le_length].
    eapply sublist_NoDup; [done|apply sublist_take].
  - intros ? ? [= <-] [= <-]. split; [done|]. intros r' Hr'%Hin.
    apply elem_of_cons in Hr' as [->|H]; [by left|]. unfold kept in H. rewrite filter_true_subset in H. right. tauto.
Qed.

(** ** Overrides *)

Definition overrides_ok (s : Settings) : Prop := NoDup (ro_hostname <$> s_relay_overrides s).

Lemma override_of_app os1 os2 host :
  override_of (os1 ++ os2) host = match override_of os2 host with Some o => Some o | None => override_of os1 host end.
Proof.
  unfold override_of. rewrite filter_app, last_app. by destruct (last (filter _ os2)).
Qed.

Lemma override_of_absent os host : host ∉ ro_hostname <$> os → override_of os host = None.
Proof.
  intros H. unfold override_of. replace (filter _ os) with (@nil RelayOverride); [done|].
  symmetry. induction os as [|o os IH]; [done|]. cbn in H. rewrite filter_cons. case_decide; [set_solver|]. apply IH. set_solver.
Qed.

(** Overrides with distinct hosts can be looked up in any order. *)
Lemma override_of_perm os os' host : NoDup (ro_hostname <$> os) → os ≡ₚ os' → override_of os host = override_of os' host.
Proof.
  intros Hnd Hp. induction Hp as [|o l k _ IH|o o' l|l k m Hp1 IH1 _ IH2].
  - done.
  - cbn in Hnd. apply NoDup_cons in Hnd as [_ Hnd]. rewrite (override_of_app [o] l), (override_of_app [o] k).
    by rewrite (IH Hnd).
  - rewrite (override_of_app [o'; o] l), (override_of_app [o; o'] l). destruct (override_of l host); [done|].
    cbn in Hnd. apply NoDup_cons in Hnd as [Hne _]. unfold override_of; cbn [filter list_filter].
    unfold filter, list_filter. repeat case_decide; try done. subst. set_solver.
  - rewrite IH1 by done. apply IH2. by rewrite <- (fmap_Permutation ro_hostname _ _ Hp1).
Qed.

Lemma swap_remove_perm {A} (l : list A) i x : l !! i = Some x → swap_remove i l ≡ₚ delete i l.
Proof.
  intros Hi. apply (Permutation_cons_inv (a := x)). rewrite <- delete_Permutation by done.
  destruct l as [|y l _] using rev_ind; [done|]. unfold swap_remove. rewrite last_snoc, length_app, Nat.add_sub.
  apply lookup_app_Some in Hi as [Hi|[Hi Hi']].
  - rewrite insert_app_l, take_app_length' by (rewrite ?length_insert; eauto using lookup_lt_Some).
    apply list_elem_of_split_length in Hi as (a & b & -> & ->). rewrite insert_app_r_alt, Nat.sub_diag by done; cbn.
    solve_Permutation.
  - apply list_lookup_singleton_Some in Hi' as [Hi' <-]. rewrite insert_app_r_alt, take_app_length' by done.
    solve_Permutation.
Qed.

Lemma override_of_cons o os host :
  ro_hostname o ∉ ro_hostname <$> os →
  override_of (o :: os) host = if decide (host = ro_hostname o) then Some o else override_of os host.
Proof.
  intros Ho. rewrite (override_of_app [o] os). unfold override_of at 2; cbn [filter list_filter].
  case_decide as E; [subst; rewrite override_of_absent by done; by rewrite decide_True|].
  rewrite decide_False by done. by destruct (override_of os host).
Qed.

(** [new] has the overrides [os] with that for the host of [o] removed or replaced. *)
Lemma override_replaced o os rest new host :
  let removed := override_is_empty o && bool_decide (is_Some (override_of os (ro_hostname o))) in
  NoDup (ro_hostname <$> rest) → ro_hostname o ∉ ro_hostname <$> rest →
  (∀ h, h ≠ ro_hostname o → override_of rest h = override_of os h) →
  new ≡ₚ (if removed then rest else o :: rest) →
  NoDup (ro_hostname <$> new) ∧ override_of new host =
    if decide (host = ro_hostname o) then if removed then None else Some o else override_of os host.
Proof.
  intros removed Hr Ho Hsame Hp.
  assert (NoDup (ro_hostname <$> new)) as Hnew.
  { rewrite (fmap_Permutation ro_hostname _ _ Hp). destruct removed; [done|]. by apply NoDup_cons. }
  split; [done|]. rewrite (override_of_perm _ _ _ Hnew Hp).
  destruct removed; case_decide as E; subst; rewrite ?override_of_cons by done;
    rewrite ?decide_True by done; rewrite ?(decide_False (P := host = _)) by done; auto using override_of_absent.
Qed.

(** Setting the override of a relay changes that of no other one.  The given one
    is stored, or removed when it is empty and there was one. *)
Theorem relay_override_set o s host :
  overrides_ok s →
  overrides_ok (set_relay_override o s) ∧
  override_of (s_relay_overrides (set_relay_override o s)) host =
    if decide (host = ro_hostname o) then
      if override_is_empty o && bool_decide (is_Some (override_of (s_relay_overrides s) (ro_hostname o)))
      then None else Some o
    else override_of (s_relay_overrides s) host.
Proof.
  unfold overrides_ok, set_relay_override; cbn. set (os := s_relay_overrides s). intros Hnd.
  destruct (list_find _ os) as [[i e]|] eqn:E.
  - apply list_find_Some in E as (Hi & He & _). cbn in He.
    pose proof (delete_Permutation _ _ _ Hi) as Hp.
    assert (NoDup (ro_hostname <$> e :: delete i os)) as Hnd' by (by rewrite <- (fmap_Permutation ro_hostname _ _ Hp)).
    rewrite fmap_cons, NoDup_cons, He in Hnd'. destruct Hnd' as [Hfresh Hrest].
    assert (∀ h, override_of os h = if decide (h = ro_hostname o) then Some e else override_of (delete i os) h) as Hos.
    { intros h. rewrite (override_of_perm os (e :: delete i os)), override_of_cons, He by (rewrite ?He; done). done. }
    apply override_replaced with (rest := delete i os); try done.
    + intros h Hh. by rewrite Hos, decide_False.
    + rewrite Hos, decide_True, bool_decide_eq_true_2, andb_true_r by eauto.
      destruct (override_is_empty o); [by eapply swap_remove_perm|].
      apply list_elem_of_split_length in Hi as (a & b & -> & ->).
      rewrite delete_middle, insert_app_r_alt, Nat.sub_diag by done; cbn. solve_Permutation.
  - apply list_find_None in E. rewrite Forall_forall in E.
    assert (ro_hostname o ∉ ro_hostname <$> os) as Ho.
    { intros (o' & Eo & Ho')%list_elem_of_fmap. by apply (E o'). }
    apply override_replaced with (rest := os); try done.
    rewrite override_of_absent, (bool_decide_eq_false_2 (is_Some None)), andb_false_r by (done || by intros [? ?]).
    solve_Permutation.
Qed.

(** ** DNS servers *)

Lemma filter_partition {A} (f : A → bool) l : List.filter (λ x, negb (f x)) l ++ List.filter f l ≡ₚ l.
Proof. induction l as [|x l IH]; cbn; [done|]. destruct (f x); cbn; rewrite <- IH at 3; solve_Permutation. Qed.

(** The servers of the DNS options.  With the default servers, the choice of
    blockers can be read off the address: the last byte has one bit for each, and
    no blocker means the default server.  The user's own servers are all used, in the
    tunnel exactly if their address is not local. *)
Theorem dns_from_options `{IpNetworkCrate} (options : DnsOptions) :
  match dns_state options with
  | DnsStateDefault => ∃ byte, 0 ≤ byte < 64 ∧
      (let o := default_options options in
       map (Z.testbit byte) [0; 1; 2; 3; 4; 5] =
         [block_ads o; block_trackers o; block_malware o; block_adult_content o; block_gambling o; block_social_media o]) ∧
      addresses_from_options options =
        if any_blockers_enabled (default_options options)
        then DnsOverride [AddrV4 (Ipv4Addr_new 100 64 0 byte)] [] else DnsDefault
  | DnsStateCustom =>
      match addresses_from_options options with
      | DnsDefault => addresses (custom_options options) = []
      | DnsOverride in_tunnel outside =>
          in_tunnel ++ outside ≡ₚ addresses (custom_options options) ∧ in_tunnel ++ outside ≠ [] ∧
          Forall (λ a, is_local_address a = false) in_tunnel ∧ Forall (λ a, is_local_address a = true) outside
      end
  end.
Proof.
  unfold addresses_from_options. destruct (dns_state options).
  - exists (blocking_byte (default_options options)).
    destruct (default_options options) as [[] [] [] [] [] []]; (split; [done|split; [reflexivity|reflexivity]]).
  - destruct (addresses (custom_options options)) as [|a l] eqn:E; [done|].
    pose proof (filter_partition is_local_address (a :: l)) as Hp.
    split; [done|split; [|split]].
    + intros E'. rewrite E' in Hp. by apply Permutation_nil_cons in Hp.
    + apply Forall_forall. intros x Hx. apply filter_true_subset in Hx as [_ Hx]. by apply negb_true_iff in Hx.
    + apply Forall_forall. intros x Hx. by apply filter_true_subset in Hx as [_ Hx].
Qed.

(** ** Feature indicators *)

(** What each indicator means. *)
Definition indicates (s : Settings) (e : TunnelEndpoint) (server_ip_override : bool) (f : FeatureIndicator) : Prop :=
  let options := s_tunnel_options s in
  let wireguard := tunnel_type e = Wireguard in
  let two_hops := is_Some (entry_endpoint e) in
  let multihop_is b := match s_relay_settings s with
                       | RsNormal c => wc_use_multihop (rc_wireguard_constraints c) = b
                       | RsCustomTunnelEndpoint _ => False
                       end in
  match f with
  | SplitTunneling => False
  | LanSharing => s_allow_lan s = true
  | FLockdownMode => s_lockdown_mode s = true
  | DnsContentBlockers => any_blockers_enabled (default_options (dns_options options)) = true
  | CustomDns => dns_state (dns_options options) = DnsStateCustom
  | ServerIpOverride => server_ip_override = true
  | BridgeMode => tunnel_type e = OpenVpn ∧ is_Some (te_proxy e)
  | CustomMssFix => tunnel_type e = OpenVpn ∧ is_Some (openvpn.mssfix (to_openvpn options))
  | QuantumResistance => wireguard ∧ NetTypes.quantum_resistant e = true
  | FUdp2Tcp => wireguard ∧ has_obfuscation e ObfUdp2Tcp = true
  | FShadowsocks => wireguard ∧ has_obfuscation e ObfShadowsocks = true
  | FQuic => wireguard ∧ has_obfuscation e ObfQuic = true
  | FLwo => wireguard ∧ has_obfuscation e ObfLwo = true
  | CustomMtu => wireguard ∧ is_Some (wg_options.mtu (to_wireguard options))
  | FMultihop => wireguard ∧ two_hops ∧ multihop_is true
  | DaitaMultihop => wireguard ∧ NetTypes.daita e = true ∧ two_hops ∧ multihop_is false
  | Daita => wireguard ∧ NetTypes.daita e = true ∧ ¬ (two_hops ∧ multihop_is false)
  end.

Lemma elem_of_active `{EqDecision A} (f : A) (l : list (bool * A)) :
  f ∈ map snd (List.filter fst l) ↔ existsb (λ p, p.1 && bool_decide (p.2 = f)) l = true.
Proof.
  induction l as [|[b f'] l IH]; cbn; [set_solver|]. rewrite orb_true_iff, andb_true_iff, bool_decide_eq_true, <- IH.
  destruct b; cbn; set_solver.
Qed.

(** The indicators shown are those of the settings and the tunnel in use, no more and
    no less; the two of DAITA exclude each other, and that for an automatic
    second hop excludes that for a chosen one. *)
Theorem feature_indicators_exact s e b :
  (∀ f, f ∈ compute_feature_indicators s e b ↔ indicates s e b f) ∧
  ¬ (Daita ∈ compute_feature_indicators s e b ∧ DaitaMultihop ∈ compute_feature_indicators s e b) ∧
  ¬ (FMultihop ∈ compute_feature_indicators s e b ∧ DaitaMultihop ∈ compute_feature_indicators s e b).
Proof.
  assert (∀ f, f ∈ compute_feature_indicators s e b ↔ indicates s e b f) as Hf.
  { intros f. unfold compute_feature_indicators. rewrite elem_of_list_to_set, elem_of_active, existsb_app.
    destruct (tunnel_type e) eqn:Et, (s_relay_settings s) as [c|c] eqn:Er; destruct f; cbn;
      rewrite ?andb_false_r, ?andb_true_r, ?orb_false_r, ?orb_false_l, ?Et, ?Er, ?andb_true_iff, ?negb_true_iff,
        ?andb_false_iff, ?negb_false_iff, ?bool_decide_eq_true, ?bool_decide_eq_false;
      try destruct (wc_use_multihop (rc_wireguard_constraints c)) eqn:?; destruct (entry_endpoint e);
      rewrite ?is_Some_alt; cbn; destruct (NetTypes.daita e); naive_solver. }
  split; [done|]. rewrite !Hf. cbn. destruct (s_relay_settings s); naive_solver congruence.
Qed.

(** An indicator can be shown for a setting that has no effect: the blockers of the
    default servers while the user's own servers are used. *)
Lemma blockers_shown_unused `{IpNetworkCrate} : ∃ s e,
  DnsContentBlockers ∈ compute_feature_indicators s e false ∧
  addresses_from_options (dns_options (s_tunnel_options s)) = DnsDefault.
Proof.
  set (options := {| dns_state := DnsStateCustom; custom_options := {| addresses := [] |};
    default_options := {| block_ads := true; block_trackers := false; block_malware := false;
      block_adult_content := false; block_gambling := false; block_social_media := false |} |}).
  exists (Settings_default (1, 2, 3) <| s_tunnel_options ::= λ o, o <| dns_options := options |> |>).
  exists (get_tunnel_endpoint (OpenVpnParams {| openvpn.config := {| openvpn.endpoint := {| address := SocketAddr_new (AddrV4 1) 2; protocol := Udp |};
    openvpn.username := ""; openvpn.password := "" |}; openvpn.options := {| openvpn.mssfix := None |};
    openvpn.generic_options := {| enable_ipv6 := false |}; openvpn.proxy := None; openvpn.fwmark := 0 |})).
  split; [by vm_compute|done].
Qed.
