(* ===== verification/SettingsPersister.v ===== *)
(** * Keeping the settings (mullvad-daemon/src/settings/mod.rs)

    The daemon's copy of the settings, the settings file and those who are told of
    changes.  A file is written to a temporary name and renamed (mullvad-fs), so
    that a failed write leaves the old file.  JSON is that of serde: reading
    back what was written gives the same settings, except for what is not
    written: the pre-shared key and the packet size of a custom tunnel's peers,
    and the flow labels of socket addresses. *)

From S2P Require Import Prelude NetTypes TunnelTypes Constraints RelayTypes CustomLists AccessMethods DaemonSettings.

(** ** Outside the repository *)

(** What is left of a value that is written and read back.  [psk] and
    [constant_packet_size] are marked `serde(skip)`. *)
Definition persisted_peer (p : wireguard.PeerConfig) : wireguard.PeerConfig := {|
  wireguard.public_key := wireguard.public_key p; wireguard.allowed_ips := wireguard.allowed_ips p;
  wireguard.endpoint := clear_flowinfo (wireguard.endpoint p);
  wireguard.psk := None; wireguard.constant_packet_size := false |}.
Definition persisted_endpoint (e : Endpoint) : Endpoint :=
  {| address := clear_flowinfo (address e); protocol := protocol e |}.
Definition persisted_config (c : CustomConnectionConfig) : CustomConnectionConfig :=
  match c with
  | CcOpenVpn config => CcOpenVpn {|
      openvpn.endpoint := persisted_endpoint (openvpn.endpoint config);
      openvpn.username := openvpn.username config; openvpn.password := openvpn.password config |}
  | CcWireguard config => CcWireguard {|
      wireguard.tunnel := wireguard.tunnel config; wireguard.peer := persisted_peer (wireguard.peer config);
      wireguard.exit_peer := persisted_peer <$> wireguard.exit_peer config;
      wireguard.ipv4_gateway := wireguard.ipv4_gateway config;
      wireguard.ipv6_gateway := wireguard.ipv6_gateway config; wireguard.fwmark := wireguard.fwmark config |}
  end.
Definition persisted_relay_settings (s : RelaySettings) : RelaySettings :=
  match s with
  | RsCustomTunnelEndpoint e => RsCustomTunnelEndpoint {| ct_host := ct_host e; ct_config := persisted_config (ct_config e) |}
  | RsNormal c => RsNormal c
  end.
Definition persisted_proxy (p : CustomProxy) : CustomProxy :=
  match p with
  | CustomShadowsocks e password cipher => CustomShadowsocks (clear_flowinfo e) password cipher
  | Socks5Local remote local_port => Socks5Local (persisted_endpoint remote) local_port
  | Socks5Remote e auth => Socks5Remote (clear_flowinfo e) auth
  end.
Definition persisted_bridge (s : BridgeSettings) : BridgeSettings :=
  {| bridge_type := bridge_type s; bs_normal := bs_normal s; bs_custom := persisted_proxy <$> bs_custom s |}.
Definition persisted_method (m : AccessMethodSetting) : AccessMethodSetting :=
  {| am_id := am_id m; am_name := am_name m; am_enabled := am_enabled m;
     access_method := match access_method m with
                      | BuiltIn b => BuiltIn b
                      | Custom p => Custom (persisted_proxy p)
                      end |}.
Definition persisted_methods (s : access_methods.Settings) : access_methods.Settings :=
  {| access_methods.direct := persisted_method (access_methods.direct s);
     access_methods.mullvad_bridges := persisted_method (access_methods.mullvad_bridges s);
     access_methods.encrypted_dns_proxy := persisted_method (access_methods.encrypted_dns_proxy s);
     access_methods.custom := persisted_method <$> access_methods.custom s |}.
Definition persisted (s : Settings) : Settings := {|
  s_relay_settings := persisted_relay_settings (s_relay_settings s);
  s_bridge_settings := persisted_bridge (s_bridge_settings s);
  s_obfuscation_settings := s_obfuscation_settings s; s_bridge_state := s_bridge_state s;
  s_custom_lists := s_custom_lists s; s_api_access_methods := persisted_methods (s_api_access_methods s);
  s_update_default_location := s_update_default_location s; s_allow_lan := s_allow_lan s;
  s_lockdown_mode := s_lockdown_mode s; s_auto_connect := s_auto_connect s; s_tunnel_options := s_tunnel_options s;
  s_relay_overrides := s_relay_overrides s; s_show_beta_releases := s_show_beta_releases s;
  s_settings_version := s_settings_version s; s_recents := s_recents s;
  s_rollout_threshold_seed := s_rollout_threshold_seed s |}.

Lemma clear_flowinfo_twice s : clear_flowinfo (clear_flowinfo s) = clear_flowinfo s.
Proof. by destruct s. Qed.
Lemma persisted_proxy_twice p : persisted_proxy (persisted_proxy p) = persisted_proxy p.
Proof. by destruct p as [[]|[[]]|[]]. Qed.
Lemma persisted_peer_twice p : persisted_peer (persisted_peer p) = persisted_peer p.
Proof. unfold persisted_peer. cbn. by rewrite clear_flowinfo_twice. Qed.
Lemma persisted_method_twice m : persisted_method (persisted_method m) = persisted_method m.
Proof. unfold persisted_method. cbn. f_equal. destruct (access_method m); [done|]. by rewrite persisted_proxy_twice. Qed.
Lemma persisted_relay_twice rs : persisted_relay_settings (persisted_relay_settings rs) = persisted_relay_settings rs.
Proof.
  destruct rs as [[host [c|c]]|c]; [| |done]; cbn.
  - unfold persisted_endpoint. cbn. by rewrite clear_flowinfo_twice.
  - rewrite persisted_peer_twice. destruct (wireguard.exit_peer c); [|done]. cbn. by rewrite persisted_peer_twice.
Qed.
Lemma persisted_bridge_twice bs : persisted_bridge (persisted_bridge bs) = persisted_bridge bs.
Proof.
  unfold persisted_bridge. cbn. destruct (bs_custom bs); [|done]. cbn. by rewrite persisted_proxy_twice.
Qed.
Lemma persisted_methods_twice ms : persisted_methods (persisted_methods ms) = persisted_methods ms.
Proof.
  unfold persisted_methods. cbn. rewrite !persisted_method_twice. f_equal.
  rewrite <- list_fmap_compose. apply list_fmap_ext. intros i m _. apply persisted_method_twice.
Qed.
(** Writing and reading once more changes nothing. *)
Lemma persisted_same s :
  persisted_relay_settings (s_relay_settings s) = s_relay_settings s →
  persisted_bridge (s_bridge_settings s) = s_bridge_settings s →
  persisted_methods (s_api_access_methods s) = s_api_access_methods s → persisted s = s.
Proof. destruct s. unfold persisted. cbn. by intros -> -> ->. Qed.
Lemma persisted_twice s : persisted (persisted s) = persisted s.
Proof.
  apply persisted_same; [apply (persisted_relay_twice (s_relay_settings s))
    |apply (persisted_bridge_twice (s_bridge_settings s))|apply (persisted_methods_twice (s_api_access_methods s))].
Qed.

(** The methods are the same ones. *)
Lemma persisted_iter ms : access_methods.iter (persisted_methods ms) = persisted_method <$> access_methods.iter ms.
Proof. done. Qed.
Lemma persisted_methods_ok ms : access_methods.settings_ok ms → access_methods.settings_ok (persisted_methods ms).
Proof.
  intros (Hi & Hn & He). unfold access_methods.settings_ok. rewrite persisted_iter.
  split_and!.
  - change (map am_id (persisted_method <$> access_methods.iter ms)) with (am_id <$> (persisted_method <$> access_methods.iter ms)).
    by rewrite <- list_fmap_compose.
  - cbn. change (map am_name (persisted_method <$> access_methods.custom ms)) with (am_name <$> (persisted_method <$> access_methods.custom ms)).
    by rewrite <- list_fmap_compose.
  - by apply Exists_fmap.
Qed.

(** serde reads back what it wrote, and reads only what can be written. *)
Class SettingsJson : Type := {
  to_string_pretty : Settings → result unit string;
  from_slice : string → result unit Settings;
  from_slice_to_string s text : to_string_pretty s = Ok text → from_slice text = Ok (persisted s);
  from_slice_persisted s text : from_slice text = Ok s → persisted s = s
}.

(** [io::ErrorKind], of which only one value matters. *)
Inductive ErrorKind : Set := KindNotFound | KindOther.
#[global] Instance ErrorKind_eq_dec : EqDecision ErrorKind.
Proof. solve_decision. Defined.

(** ** Errors *)

(** The errors [try_update] boxes. *)
Inductive UpdateError : Set :=
| OfCustomLists (e : CustomLists.Error)
| OfAccessMethods (e : AccessMethodError)
  (* the same error inside that of mullvad-daemon/src/access_method.rs *)
| OfDaemonAccessMethods (e : AccessMethodError).

Inductive Error : Set :=
| ReadError (kind : ErrorKind)
| ParseError
| DeleteError (kind : ErrorKind)
| SerializeError
| WriteError (kind : ErrorKind)
| UpdateFailed (e : UpdateError)
| ParseIp (text : string).

(** [mullvad_management_interface::Status], by its code and details. *)
Inductive Code : Set :=
| FailedPrecondition | AlreadyExists | InvalidArgument | CodeNotFound | Internal | Unknown | Unauthenticated
| ResourceExhausted | DeadlineExceeded | CodeUnavailable.
Record Status : Set := { code : Code; details : option string }.
Definition handle_api_access_method_error (e : AccessMethodError) : Status :=
  match e with
  | AccessMethods.DuplicateName => {| code := AlreadyExists; details := Some "api_access_method_exists" |}
  | _ => {| code := Unknown; details := None |}
  end.
Definition handle_custom_list_error (e : CustomLists.Error) : Status :=
  match e with
  | ListExists | CustomLists.DuplicateName => {| code := AlreadyExists; details := Some "custom_list_list_exists" |}
  | NameTooLong => {| code := InvalidArgument; details := Some "custom_list_list_name_too_long" |}
  | ListNotFound => {| code := CodeNotFound; details := Some "custom_list_list_not_found" |}
  end.
Definition Status_from (e : Error) : Status :=
  match e with
  | DeleteError _ | WriteError _ | ReadError _ => {| code := FailedPrecondition; details := None |}
  | UpdateFailed (OfCustomLists e) => handle_custom_list_error e
  | UpdateFailed (OfAccessMethods e) => handle_api_access_method_error e
  | SerializeError | ParseError | UpdateFailed (OfDaemonAccessMethods _) | ParseIp _ => {| code := Internal; details := None |}
  end.

(** ** The persister *)

(** What the file system answers during one call, and the identifiers drawn for
    default settings. *)
Record Io : Set := {
  read_fault : option ErrorKind;
  create_fault : option ErrorKind;
  write_fault : option ErrorKind;
  finalize_fault : option ErrorKind;
  remove_fault : option ErrorKind;
  fresh_ids : Z * Z * Z
}.

(** The settings, the content of the settings file if there is one, and the
    settings the change listeners were called with, the last one first. *)
Record SettingsPersister : Set := {
  p_settings : Settings;
  p_file : option string;
  p_notified : list Settings
}.
#[global] Instance SettingsPersister_eta : Eta SettingsPersister := λ x,
  {| p_settings := p_settings x; p_file := p_file x; p_notified := p_notified x |}.

Section Persister.
Context `{SettingsJson} (beta : bool).

Definition default_settings (ids : Z * Z * Z) : Settings :=
  let settings := Settings_default ids in
  if beta then settings <| s_show_beta_releases := true |> else settings.

Definition load_from_bytes (bytes : string) : result Error Settings := map_err (λ _, ParseError) (from_slice bytes).
Definition load_from_file (io : Io) (file : option string) : result Error Settings :=
  bytes ← match read_fault io, file with
          | Some kind, _ => Err (ReadError kind)
          | None, None => Err (ReadError KindNotFound)
          | None, Some bytes => Ok bytes
          end;
  load_from_bytes bytes.

Record LoadSettingsResult : Set := { loaded : Settings; should_save : bool }.

Definition load_inner (ids : Z * Z * Z) (load_settings : result Error Settings) : LoadSettingsResult :=
  let result :=
    match load_settings with
    | Ok settings => {| loaded := settings; should_save := false |}
    | Err (ReadError KindNotFound) => {| loaded := default_settings ids; should_save := true |}
    | Err _ => {| loaded := default_settings ids <| s_lockdown_mode := true |>; should_save := true |}
    end in
  if beta then {| loaded := loaded result <| s_show_beta_releases := true |>;
                  should_save := should_save result || negb (s_show_beta_releases (loaded result)) |}
  else result.

(** What is at the path afterwards. *)
Definition save_inner (io : Io) (settings : Settings) (file : option string) : result Error unit * option string :=
  match to_string_pretty settings with
  | Err _ => (Err SerializeError, file)
  | Ok buffer =>
      match create_fault io, write_fault io, finalize_fault io with
      | Some kind, _, _ => (Err (WriteError kind), file)
      | _, Some kind, _ => (Err (WriteError kind), file)
      | _, _, Some kind => (Err (WriteError kind), file)
      | None, None, None => (Ok tt, Some buffer)
      end
  end.
Definition save (io : Io) (p : SettingsPersister) : result Error unit * SettingsPersister :=
  let '(r, file) := save_inner io (p_settings p) (p_file p) in (r, p <| p_file := file |>).

Definition load (io : Io) (file : option string) : SettingsPersister :=
  let r := load_inner (fresh_ids io) (load_from_file io file) in
  let persister := {| p_settings := loaded r; p_file := file; p_notified := [] |} in
  if should_save r then (save io persister).2 else persister.
Definition read_only (io : Io) (file : option string) : Settings :=
  loaded (load_inner (fresh_ids io) (load_from_file io file)).

Definition notify_listeners (p : SettingsPersister) : SettingsPersister := p <| p_notified ::= cons (p_settings p) |>.

Definition remove_settings_file (io : Io) (p : SettingsPersister) : result Error unit * SettingsPersister :=
  match remove_fault io, p_file p with
  | Some kind, _ => (Err (DeleteError kind), p)
  | None, None => (Err (DeleteError KindNotFound), p)
  | None, Some _ => (Ok tt, p <| p_file := None |>)
  end.

Definition reset (io : Io) (p : SettingsPersister) : result Error unit * SettingsPersister :=
  let p := p <| p_settings := default_settings (fresh_ids io) |> in
  let '(r, p) := save io p in
  let '(r, p) := match r with Ok _ => (Ok tt, p) | Err _ => remove_settings_file io p end in
  match r with
  | Ok _ => (Ok tt, notify_listeners p)
  | Err e => (Err e, p)
  end.

Definition try_update (io : Io) (update_fn : Settings → result UpdateError Settings) (p : SettingsPersister) :
    result Error bool * SettingsPersister :=
  match update_fn (p_settings p) with
  | Err e => (Err (UpdateFailed e), p)
  | Ok new_settings =>
      if decide (p_settings p = new_settings) then (Ok false, p)
      else
        let '(r, file) := save_inner io new_settings (p_file p) in
        match r with
        | Err e => (Err e, p <| p_file := file |>)
        | Ok _ => (Ok true, notify_listeners (p <| p_file := file |> <| p_settings := new_settings |>))
        end
  end.
Definition update (io : Io) (update_fn : Settings → Settings) (p : SettingsPersister) :
    result Error bool * SettingsPersister :=
  try_update io (λ s, Ok (update_fn s)) p.

(** ** Properties *)

(** The outcome of an update: all of it, or nothing. *)
Inductive update_outcome (f : Settings → result UpdateError Settings) (p : SettingsPersister) :
    result Error bool → SettingsPersister → Prop :=
| UpdateFails e : update_outcome f p (Err e) p
| UpdateSame : f (p_settings p) = Ok (p_settings p) → update_outcome f p (Ok false) p
| UpdateDone new text :
    f (p_settings p) = Ok new → new ≠ p_settings p → to_string_pretty new = Ok text →
    update_outcome f p (Ok true) {| p_settings := new; p_file := Some text; p_notified := new :: p_notified p |}.

Lemma save_inner_cases io s file :
  (∃ e, save_inner io s file = (Err e, file)) ∨ (∃ text, to_string_pretty s = Ok text ∧ save_inner io s file = (Ok tt, Some text)).
Proof.
  unfold save_inner. destruct (to_string_pretty s) as [text|]; [|by left; eexists].
  destruct (create_fault io), (write_fault io), (finalize_fault io); first [by left; eexists | by right; exists text].
Qed.

(** [try_update] returns what its comment promises, and a failure leaves the
    settings, the file and the listeners alone. *)
Lemma try_update_outcome io f p : update_outcome f p (try_update io f p).1 (try_update io f p).2.
Proof.
  unfold try_update. destruct (f (p_settings p)) as [new|e] eqn:E; [|constructor].
  case_decide as Es; [subst; by constructor|].
  destruct (save_inner_cases io new (p_file p)) as [[e ->]|(text & Ht & ->)]; cbn.
  - destruct p. apply UpdateFails.
  - refine (UpdateDone f p new text E _ Ht). done.
Qed.

(** The file has the settings in memory, as far as they are written. *)
Definition synced (p : SettingsPersister) : Prop :=
  ∃ text, p_file p = Some text ∧ from_slice text = Ok (persisted (p_settings p)).
(** The file is gone, and the settings are the defaults. *)
Definition removed (p : SettingsPersister) : Prop :=
  p_file p = None ∧ ∃ ids, p_settings p = default_settings ids.

Inductive Operation : Type :=
| OpUpdate (io : Io) (f : Settings → result UpdateError Settings)
| OpReset (io : Io).
Definition operate (p : SettingsPersister) (o : Operation) : SettingsPersister :=
  match o with
  | OpUpdate io f => (try_update io f p).2
  | OpReset io => (reset io p).2
  end.

(** Neither the file could be written nor removed. *)
Definition reset_failed (p : SettingsPersister) (o : Operation) : Prop :=
  match o with OpUpdate _ _ => False | OpReset io => is_ok (reset io p).1 = false end.
Fixpoint no_reset_failed (p : SettingsPersister) (os : list Operation) : Prop :=
  match os with [] => True | o :: os => ¬ reset_failed p o ∧ no_reset_failed (operate p o) os end.

Record persister_inv (p : SettingsPersister) : Prop := {
  pi_file : synced p ∨ removed p;
  pi_notified : ∀ s, head (p_notified p) = Some s → s = p_settings p
}.

Lemma operate_inv p o : persister_inv p → ¬ reset_failed p o → persister_inv (operate p o).
Proof.
  intros Hp. destruct o as [io f|io]; cbn; intros Hr.
  - destruct (try_update_outcome io f p) as [e|_|new text Hf Hne Ht]; [done|done|].
    constructor; cbn; [|by intros s0 [= ->]]. left. exists text. eauto using from_slice_to_string.
  - revert Hr. unfold reset, save; cbn. set (p1 := p <| p_settings := _ |>).
    destruct (save_inner_cases io (default_settings (fresh_ids io)) (p_file p)) as [[e ->]|(text & Ht & ->)]; cbn.
    + unfold remove_settings_file; cbn. destruct (remove_fault io); cbn; [done|].
      destruct (p_file p); cbn; [|done]. intros _. constructor; cbn; [right; split; eauto|by intros s0 [= ->]].
    + intros _. constructor; cbn; [|by intros s0 [= ->]]. left. exists text. eauto using from_slice_to_string.
Qed.

Lemma run_inv os p : persister_inv p → no_reset_failed p os → persister_inv (foldl operate p os).
Proof.
  revert p; induction os as [|o os IH]; intros p Hp; cbn; [done|]. intros [Ho Hos]. apply IH; [|done].
  by apply operate_inv.
Qed.

Definition beta_forced (s : Settings) : Settings := if beta then s <| s_show_beta_releases := true |> else s.

Lemma load_file io file s :
  read_fault io = None → load_from_file io file = Ok s → p_settings (load io file) = beta_forced s.
Proof.
  intros Hr Hl. unfold load, load_inner. rewrite Hl. unfold save, beta_forced; cbn.
  destruct beta; cbn; [|done]. destruct (s_show_beta_releases s); cbn; [done|].
  by destruct (save_inner io _ file).
Qed.

Lemma load_no_file io : read_fault io = None → p_settings (load io None) = default_settings (fresh_ids io).
Proof.
  intros Hr. unfold load, load_inner, load_from_file. rewrite Hr; cbn. unfold save, default_settings; cbn.
  destruct beta; cbn; by destruct (save_inner io _ None).
Qed.

(** Loading wrote the settings, if it had to. *)
Definition loaded_cleanly (io : Io) (file : option string) : Prop :=
  let r := load_inner (fresh_ids io) (load_from_file io file) in
  should_save r = true →
  is_ok (save io {| p_settings := loaded r; p_file := file; p_notified := [] |}).1 = true.

Lemma load_from_file_ok io file s :
  load_from_file io file = Ok s → ∃ text, file = Some text ∧ from_slice text = Ok s.
Proof.
  unfold load_from_file, load_from_bytes. destruct (read_fault io), file as [text|]; cbn; try done.
  destruct (from_slice text) eqn:E; cbn; [|done]. intros [= ->]. eauto.
Qed.

Lemma load_synced io file : loaded_cleanly io file → persister_inv (load io file).
Proof.
  unfold loaded_cleanly, load. set (r := load_inner (fresh_ids io) (load_from_file io file)). intros Hs.
  destruct (should_save r) eqn:Es.
  - specialize (Hs eq_refl). revert Hs. unfold save; cbn.
    destruct (save_inner_cases io (loaded r) file) as [[e ->]|(text & Ht & ->)]; cbn; [done|]. intros _.
    split; cbn; [|done]. left. exists text. eauto using from_slice_to_string.
  - split; cbn; [|done]. left. subst r. clear Hs. unfold load_inner in *.
    destruct (load_from_file io file) as [s|e] eqn:El; [|by destruct e as [[]| | | | | |], beta].
    apply load_from_file_ok in El as (text & -> & E). exists text. split; [done|].
    pose proof (from_slice_persisted _ _ E) as Hp. destruct beta; cbn in *; [|by rewrite Hp].
    destruct (s_show_beta_releases s) eqn:Eb; [|done].
    assert (s <| s_show_beta_releases := true |> = s) as -> by (destruct s; cbn in *; by subst). by rewrite Hp.
Qed.

(** C23: Settings are not lost and nobody works with old ones.  A daemon loads whatever
    file it finds (and can write it if loading made it necessary).  After any sequence
    of updates and resets, also failing ones, a daemon that is started again and can
    read the file has the settings the last one had, as far as they are written (the
    pre-shared keys and packet sizes of a custom tunnel's peers are not, nor the flow labels
    of addresses), with beta releases shown in a beta version, and default ones if the
    file had to be removed; and the last settings the listeners were told are those in
    use.  The exception is a reset that can neither write nor remove the file. *)
Theorem settings_durable io0 file os io :
  loaded_cleanly io0 file → no_reset_failed (load io0 file) os → read_fault io = None →
  let p' := foldl operate (load io0 file) os in
  (∀ s, head (p_notified p') = Some s → s = p_settings p') ∧
  (p_settings (load io (p_file p')) = beta_forced (persisted (p_settings p')) ∨
   ∃ ids, p_settings p' = default_settings ids ∧ p_settings (load io (p_file p')) = default_settings (fresh_ids io)).
Proof.
  intros Hl Hos Hio p'. pose proof (load_synced io0 file Hl) as Hp. set (p := load io0 file) in *. destruct (run_inv os p Hp Hos) as [[(text & Hf & Ht)|[Hf [ids Hs]]] Hn]; (split; [done|]).
  - left. apply load_file; [done|]. unfold load_from_file, load_from_bytes. fold p' in Hf, Ht. by rewrite Hio, Hf; cbn; rewrite Ht.
  - right. exists ids. split; [done|]. fold p' in Hf. by rewrite Hf, load_no_file.
Qed.

(** A damaged settings file never opens the firewall: loading always gives
    settings, and lockdown mode is off in them only if the file can be read and says
    so, or if there is no file. *)
Theorem damaged_settings_lock_down io file :
  s_lockdown_mode (p_settings (load io file)) = false →
  (∃ text s, read_fault io = None ∧ file = Some text ∧ from_slice text = Ok s ∧ s_lockdown_mode s = false) ∨
  read_fault io = Some KindNotFound ∨ (read_fault io = None ∧ file = None).
Proof.
  assert (∀ r, s_lockdown_mode (p_settings (let p := {| p_settings := loaded r; p_file := file; p_notified := [] |} in
    if should_save r then (save io p).2 else p)) = s_lockdown_mode (loaded r)) as Hsave.
  { intros r. cbn. destruct (should_save r); [|done]. unfold save; cbn. by destruct (save_inner _ _ _). }
  unfold load. rewrite Hsave. clear Hsave.
  assert (∀ r, s_lockdown_mode (loaded (load_inner (fresh_ids io) r)) = false →
    (∃ s, r = Ok s ∧ s_lockdown_mode s = false) ∨ r = Err (ReadError KindNotFound)) as Hinner.
  { intros [s|[[]| | | | | |]]; unfold load_inner, default_settings; destruct beta; cbn; eauto; done. }
  intros [(s & E & Hs)|E]%Hinner; unfold load_from_file, load_from_bytes in E;
    destruct (read_fault io) as [[]|] eqn:Er, file as [text|]; cbn in E; try done; eauto.
  - left. exists text, s. destruct (from_slice text) eqn:Et; naive_solver.
  - by destruct (from_slice text).
Qed.

(** A reset that fails replaces the settings in memory and tells nobody: the
    listeners, among them the relay selector, go on with the old ones. *)
Lemma failed_reset_not_told io p :
  is_ok (reset io p).1 = false →
  p_settings (reset io p).2 = default_settings (fresh_ids io) ∧ p_file (reset io p).2 = p_file p ∧
  p_notified (reset io p).2 = p_notified p.
Proof.
  unfold reset, save; cbn. destruct (save_inner_cases io (default_settings (fresh_ids io)) (p_file p))
    as [[e ->]|(text & Ht & ->)]; cbn; [|done].
  unfold remove_settings_file; cbn. destruct (remove_fault io); cbn; [done|]. by destruct (p_file p); cbn.
Qed.
End Persister.
