(* ===== verification/TargetState.v ===== *)
(** * The target state and the account history

    mullvad-daemon/src/target_state.rs: whether the daemon should be connected is
    kept in a file while it runs, so that a daemon that is killed continues in the
    same state.  mullvad-daemon/src/account_history.rs: the last account that was
    used.  Both files are written in place, a write that fails or is interrupted
    leaves part of the new content. *)

From Stdlib Require Import Ascii.
From S2P Require Import Prelude SettingsPersister.

(** ** The target state (mullvad-types/src/states.rs, target_state.rs) *)

Inductive TargetState : Set := Unsecured | Secured.
#[global] Instance TargetState_eq_dec : EqDecision TargetState.
Proof. solve_decision. Defined.

(** serde_json: what is written can be read, and a text that is cut off cannot. *)
Class TargetStateJson : Type := {
  ts_to_string : TargetState → string;
  ts_from_str : string → option TargetState;
  ts_round_trip s : ts_from_str (ts_to_string s) = Some s;
  ts_cut_off s n : (n < String.length (ts_to_string s))%nat → ts_from_str (String.substring 0 n (ts_to_string s)) = None
}.

(** [fs::write]: the file cannot be opened, or is truncated and then written up
    to some byte, by an error or because the process ends. *)
Inductive WriteOutcome : Set := NotOpened | CutOff (n : nat) | Written.
Definition fs_write (o : WriteOutcome) (data : string) (file : option string) : option string :=
  match o with
  | NotOpened => file
  | CutOff n => Some (String.substring 0 n data)
  | Written => Some data
  end.

Definition DEFAULT_TARGET_STATE : TargetState := Unsecured.

Record TargetStateInner : Set := { inner_state : TargetState; update_cache : bool }.

(** The state, whether the file is to be kept, and the file. *)
Record PersistentTargetState : Set := {
  ts_state : TargetState;
  ts_locked : bool;
  ts_file : option string
}.
#[global] Instance PersistentTargetState_eta : Eta PersistentTargetState := λ x,
  {| ts_state := ts_state x; ts_locked := ts_locked x; ts_file := ts_file x |}.

Section Target.
Context `{TargetStateJson}.

Definition read_target_state (cache : result ErrorKind string) : TargetStateInner :=
  match cache with
  | Ok content => match ts_from_str content with
                  | Some state => {| inner_state := state; update_cache := false |}
                  | None => {| inner_state := Secured; update_cache := true |}
                  end
  | Err KindNotFound => {| inner_state := DEFAULT_TARGET_STATE; update_cache := false |}
  | Err _ => {| inner_state := Secured; update_cache := true |}
  end.

Definition ts_save (o : WriteOutcome) (t : PersistentTargetState) : PersistentTargetState :=
  t <| ts_file ::= fs_write o (ts_to_string (ts_state t)) |>.

(** [read_fault] is an error other than that there is no file. *)
Definition ts_read (read_fault : bool) (file : option string) : result ErrorKind string :=
  if read_fault then Err KindOther else match file with Some content => Ok content | None => Err KindNotFound end.
Definition PersistentTargetState_new (read_fault : bool) (o : WriteOutcome) (file : option string) :
    PersistentTargetState :=
  let r := read_target_state (ts_read read_fault file) in
  let state := {| ts_state := inner_state r; ts_locked := false; ts_file := file |} in
  if update_cache r then ts_save o state else state.
Definition new_secured (o : WriteOutcome) (file : option string) : PersistentTargetState :=
  ts_save o {| ts_state := Secured; ts_locked := false; ts_file := file |}.
Definition ts_set (o : WriteOutcome) (new_state : TargetState) (t : PersistentTargetState) : PersistentTargetState :=
  if decide (new_state = ts_state t) then t else ts_save o (t <| ts_state := new_state |>).
Definition lock (t : PersistentTargetState) : PersistentTargetState := t <| ts_locked := true |>.

(** [fs::remove_file]; an error is logged only. *)
Definition remove_cache (fails : bool) (t : PersistentTargetState) : PersistentTargetState :=
  if fails then t else t <| ts_file := None |>.
Definition ts_finalize (remove_fails : bool) (t : PersistentTargetState) : PersistentTargetState :=
  if ts_locked t then t else (remove_cache remove_fails t) <| ts_locked := true |>.
(** The destructor: what is left is the file. *)
Definition ts_drop (remove_fails : bool) (t : PersistentTargetState) : option string :=
  ts_file (if ts_locked t then t else remove_cache remove_fails t).

(** *** A killed daemon *)

(** What happens to the target state while the daemon runs. *)
Inductive TargetInput : Set :=
| TiSet (o : WriteOutcome) (s : TargetState)
| TiLock.
Definition target_step (t : PersistentTargetState) (i : TargetInput) : PersistentTargetState :=
  match i with TiSet o s => ts_set o s t | TiLock => lock t end.
(** The writes of a daemon that may be killed while it writes ([complete] is
    [false]), or is not. *)
Definition allowed (complete : bool) (o : WriteOutcome) : Prop :=
  match o with NotOpened => False | CutOff _ => complete = false | Written => True end.
Definition input_allowed (complete : bool) (i : TargetInput) : Prop :=
  match i with TiSet o _ => allowed complete o | TiLock => True end.

(** What a daemon that starts with this file makes of it: the state, or a safer one. *)
Definition cached (complete : bool) (t : PersistentTargetState) : Prop :=
  let s := inner_state (read_target_state (ts_read false (ts_file t))) in
  s = ts_state t ∨ (complete = false ∧ s = Secured).

Lemma length_substring n s : (String.length s ≤ n)%nat → String.substring 0 n s = s.
Proof.
  revert n; induction s as [|c s IH]; intros [|n]; cbn; try done; [lia|]. intros Hn. by rewrite IH by lia.
Qed.

Lemma save_cached c o t : allowed c o → cached c (ts_save o t).
Proof.
  unfold cached, ts_save; cbn. destruct o as [|n|]; cbn; [done| |].
  - intros ->. destruct (decide (n < String.length (ts_to_string (ts_state t)))%nat) as [Hn|Hn].
    + rewrite ts_cut_off by done. by right.
    + rewrite length_substring by lia. rewrite ts_round_trip. by left.
  - intros _. rewrite ts_round_trip. by left.
Qed.

Lemma target_step_cached c t i : cached c t → input_allowed c i → cached c (target_step t i).
Proof.
  intros Ht Hi. destruct i as [o s|]; cbn; [|done]. unfold ts_set. case_decide; [done|]. by apply save_cached.
Qed.

Lemma run_cached c inputs t : cached c t → Forall (input_allowed c) inputs → cached c (foldl target_step t inputs).
Proof.
  intros Ht His. revert t Ht. induction His as [|i inputs Hi _ IH]; intros t Ht; cbn; [done|].
  apply IH. by apply target_step_cached.
Qed.

(** With or without auto-connect. *)
Definition target_start (auto_connect read_fault : bool) (o : WriteOutcome) (file : option string) :
    PersistentTargetState :=
  if auto_connect then new_secured o file else PersistentTargetState_new read_fault o file.

Lemma start_cached c auto_connect read_fault o file : allowed c o → cached c (target_start auto_connect read_fault o file).
Proof.
  intros Ho. destruct auto_connect; [by apply save_cached|]. unfold target_start, PersistentTargetState_new.
  destruct (update_cache _) eqn:E; [by apply save_cached|]. unfold cached; cbn. left. by destruct read_fault.
Qed.

(** C24: A daemon that is killed comes back as protected as it was.  As long as the
    file could be opened for every write, wherever a write was cut off, and if the next
    daemon can read the file, it aims for the state of the one before or for the secured
    one; if all writes were complete, for exactly the same state, unless the settings of
    the next daemon ask to connect automatically: then always for the secured one.
    (A write whose file cannot be opened leaves the old state in it, so that a daemon
    that was secured comes back unsecured.) *)
Theorem target_state_survives complete auto_connect auto_connect' read_fault o0 file inputs o :
  allowed complete o0 → Forall (input_allowed complete) inputs →
  let t := foldl target_step (target_start auto_connect read_fault o0 file) inputs in
  let t' := target_start auto_connect' false o (ts_file t) in
  (ts_state t = Secured → ts_state t' = Secured) ∧
  (complete = true → auto_connect' = false → ts_state t' = ts_state t) ∧
  (auto_connect' = true → ts_state t' = Secured).
Proof.
  intros Ho His t t'. assert (cached complete t) as Hc by (apply run_cached; [by apply start_cached|done]).
  subst t'. destruct auto_connect'; [by split_and!|].
  assert (ts_state (target_start false false o (ts_file t)) = inner_state (read_target_state (ts_read false (ts_file t)))) as E.
  { unfold target_start, PersistentTargetState_new. by destruct (update_cache _). }
  rewrite E. destruct Hc as [-> | [Hc ->]]; split_and!; congruence.
Qed.

(** *** The end of a daemon *)

(** A clean end removes the file, so that the next start is unsecured, unless a
    restart was prepared: then the file is kept. *)
Lemma clean_end t o : ts_locked t = false →
  ts_state (PersistentTargetState_new false o (ts_drop false (ts_finalize false t))) = Unsecured ∧
  ts_drop false (ts_finalize false (lock t)) = ts_file t.
Proof. intros Hl. unfold ts_finalize, ts_drop; cbn. rewrite Hl. by cbn. Qed.

(** A daemon that fails to start drops the state it has just read, and its
    destructor removes the file: after a crash in the secured state, one failed
    start is enough for the next one to be unsecured. *)
Lemma failed_start_forgets file o o' :
  ts_from_str file = Some Secured →
  let t := PersistentTargetState_new false o (Some file) in
  ts_state t = Secured ∧ ts_state (PersistentTargetState_new false o' (ts_drop false t)) = Unsecured.
Proof.
  intros Hf. unfold PersistentTargetState_new, ts_read, read_target_state; cbn. by rewrite Hf.
Qed.
End Target.

(** ** The account history (account_history.rs) *)

(** [^[0-9]+$]. *)
Definition is_account_number (s : string) : bool :=
  negb (bool_decide (s = EmptyString)) &&
  forallb (λ c, (48 <=? nat_of_ascii c)%nat && (nat_of_ascii c <=? 57)%nat) (String.list_ascii_of_string s).

Inductive HistoryError : Set := HistoryRead | HistoryWrite.

(** Saving truncates the file, writes the number and synchronizes; the outcome says
    how far it got. *)
Inductive SaveOutcome : Set := NotTruncated | NotWritten (n : nat) | NotSynced | Saved.
Record AccountHistory : Set := { history_number : option string; history_file : string }.
#[global] Instance AccountHistory_eta : Eta AccountHistory := λ x,
  {| history_number := history_number x; history_file := history_file x |}.

Definition save_to_disk (o : SaveOutcome) (h : AccountHistory) : result HistoryError unit * AccountHistory :=
  let content := default EmptyString (history_number h) in
  match o with
  | NotTruncated => (Err HistoryWrite, h)
  | NotWritten n => (Err HistoryWrite, h <| history_file := String.substring 0 n content |>)
  | NotSynced => (Err HistoryWrite, h <| history_file := content |>)
  | Saved => (Ok tt, h <| history_file := content |>)
  end.

(** Opening creates the file; [text] is its content if it can be read. *)
Definition AccountHistory_new (opens : bool) (text : option string) (file : string) (o : SaveOutcome)
    (current_number : option string) : result HistoryError AccountHistory :=
  if negb opens then Err HistoryRead
  else
    let '(number, should_save) :=
      match text with
      | Some buffer => if is_account_number buffer then (Some buffer, false) else (current_number, true)
      | None => (current_number, true)
      end in
    let history := {| history_number := number; history_file := file |} in
    Ok (if should_save : bool then (save_to_disk o history).2 else history).
Definition history_get (h : AccountHistory) : option string := history_number h.
Definition history_set (o : SaveOutcome) (new_entry : string) (h : AccountHistory) :
    result HistoryError unit * AccountHistory := save_to_disk o (h <| history_number := Some new_entry |>).
Definition history_clear (o : SaveOutcome) (h : AccountHistory) : result HistoryError unit * AccountHistory :=
  save_to_disk o (h <| history_number := None |>).

(** A number that was saved is read back by the next start, whoever is logged in
    then; after the history is cleared, or a file that cannot be understood, the
    account in use becomes the history. *)
Lemma history_survives h h' number current o :
  history_set Saved number h = (Ok tt, h') → is_account_number number = true →
  history_get <$> AccountHistory_new true (Some (history_file h')) (history_file h') o current = Ok (Some number).
Proof.
  intros [= <-] Hn. unfold AccountHistory_new; cbn. by rewrite Hn.
Qed.
