(* ===== verification/TunnelParams.v ===== *)
(** * Tunnel parameters (mullvad-daemon/src/tunnel.rs)

    What the tunnel state machine asks for when it connects: a relay for the
    attempt, and the credentials of the device the daemon is logged in with.  Also
    the parameters of a custom tunnel (mullvad-types/src/custom_tunnel.rs) and the
    location that is shown for a relay.  What the account manager and the name
    resolution answer are arguments. *)

From S2P Require Import Prelude NetTypes TunnelTypes Constraints RelayTypes CustomLists RelayQuery RelayMatcher RelaySelector RelayTheorems.
From S2P Require Import DeviceService AccountManager DaemonSettings.
Import relay.

Definition TUNNEL_TABLE_ID : Z := 0x6d6f6c65.
Definition TUNNEL_FWMARK : Z := 0x6d6f6c65.

(** ** Custom tunnels (custom_tunnel.rs) *)

Inductive CustomTunnelError : Set := InvalidHost (host : string) | HostHasNoIpv4 (host : string).

(** What [to_socket_addrs] finds, in order. *)
Definition resolve_to_ip (lookup : string → option (list IpAddr)) (host : string) : result CustomTunnelError IpAddr :=
  match lookup host with
  | None => Err (InvalidHost host)
  | Some addrs =>
      let ipv4 := List.filter addr_is_ipv4 addrs in
      let ipv6 := List.filter (λ a, negb (addr_is_ipv4 a)) addrs in
      match last ipv4 with
      | Some ip => Ok ip
      | None => match last ipv6 with Some ip => Ok ip | None => Err (HostHasNoIpv4 host) end
      end
  end.

(** Of several addresses of a family the last one is taken. *)
Lemma resolve_takes_last a b : resolve_to_ip (λ _, Some [AddrV4 a; AddrV4 b]) EmptyString = Ok (AddrV4 b).
Proof. done. Qed.

Definition set_ip (ip : IpAddr) (c : CustomConnectionConfig) : CustomConnectionConfig :=
  match c with
  | CcOpenVpn config =>
      let e := openvpn.endpoint config in
      CcOpenVpn {| openvpn.endpoint := {| address := SocketAddr_new ip (sock_port (address e)); protocol := protocol e |};
                   openvpn.username := openvpn.username config; openvpn.password := openvpn.password config |}
  | CcWireguard config =>
      let p := wireguard.peer config in
      CcWireguard {|
        wireguard.tunnel := wireguard.tunnel config;
        wireguard.peer := {| wireguard.public_key := wireguard.public_key p; wireguard.allowed_ips := wireguard.allowed_ips p;
          wireguard.endpoint := SocketAddr_new ip (sock_port (wireguard.endpoint p)); wireguard.psk := wireguard.psk p;
          wireguard.constant_packet_size := wireguard.constant_packet_size p |};
        wireguard.exit_peer := wireguard.exit_peer config; wireguard.ipv4_gateway := wireguard.ipv4_gateway config;
        wireguard.ipv6_gateway := wireguard.ipv6_gateway config; wireguard.fwmark := wireguard.fwmark config |}
  end.

Definition to_tunnel_parameters (lookup : string → option (list IpAddr)) (e : CustomTunnelEndpoint)
    (tunnel_options : TunnelOptions) (proxy : option CustomProxy) : result CustomTunnelError TunnelParameters :=
  ip ← resolve_to_ip lookup (ct_host e);
  Ok (match set_ip ip (ct_config e) with
      | CcOpenVpn config => OpenVpnParams {|
          openvpn.config := config; openvpn.options := to_openvpn tunnel_options;
          openvpn.generic_options := to_generic tunnel_options; openvpn.proxy := proxy; openvpn.fwmark := TUNNEL_FWMARK |}
      | CcWireguard connection =>
          let options := wg_options.into_talpid_tunnel_options (to_wireguard tunnel_options) in
          WireguardParams {|
            wireguard.connection := connection;
            wireguard.options := {| wireguard.mtu := wireguard.mtu options; wireguard.quantum_resistant := false;
                                    wireguard.daita := wireguard.daita options |};
            wireguard.generic_options := to_generic tunnel_options; wireguard.obfuscation := None |}
      end).

(** ** The generator *)

Module params.
Inductive Error : Set :=
| NoAuthDetails
| SelectRelay (e : RelaySelector.Error)
| ResolveCustomHostname
| Device (e : DeviceService.Error).
End params.

Definition ParameterGenerationError_from (e : params.Error) : ParameterGenerationError :=
  match e with
  | params.SelectRelay NoBridge => NoMatchingBridgeRelay
  | params.ResolveCustomHostname => CustomTunnelHostResolutionError
  | params.SelectRelay (RelaySelector.IpVersionUnavailable family) => TunnelTypes.IpVersionUnavailable family
  | params.NoAuthDetails | params.SelectRelay _ | params.Device _ => NoMatchingRelay
  end.

Inductive LastSelectedRelays : Set :=
| LastWireGuard (wg_entry : option Relay) (wg_exit : Relay) (obfuscator : option Relay) (server_override : bool)
| LastOpenVpn (relay : Relay) (bridge : option Relay) (server_override : bool).

Record ParametersGenerator : Set := {
  pg_relay_selector : RelaySelector;
  pg_tunnel_options : TunnelOptions;
  last_generated_relays : option LastSelectedRelays
}.
#[global] Instance ParametersGenerator_eta : Eta ParametersGenerator := λ x,
  {| pg_relay_selector := pg_relay_selector x; pg_tunnel_options := pg_tunnel_options x;
     last_generated_relays := last_generated_relays x |}.

Definition ParametersGenerator_new (selector : RelaySelector) (options : TunnelOptions) : ParametersGenerator :=
  {| pg_relay_selector := selector; pg_tunnel_options := options; last_generated_relays := None |}.
Definition set_tunnel_options (options : TunnelOptions) (p : ParametersGenerator) : ParametersGenerator :=
  p <| pg_tunnel_options := options |>.
Definition last_relay_was_overridden (p : ParametersGenerator) : bool :=
  match last_generated_relays p with
  | Some (LastWireGuard _ _ _ server_override) | Some (LastOpenVpn _ _ server_override) => server_override
  | None => false
  end.

(** mullvad-types/src/location.rs. *)
Record GeoIpLocation : Set := {
  geo_ipv4 : option Z;
  geo_ipv6 : option Z;
  geo_country : string;
  geo_city : option string;
  geo_latitude : Z;
  geo_longitude : Z;
  mullvad_exit_ip : bool;
  geo_hostname : option string;
  bridge_hostname : option string;
  entry_hostname : option string;
  obfuscator_hostname : option string
}.
#[global] Instance GeoIpLocation_eta : Eta GeoIpLocation := λ x, {|
  geo_ipv4 := geo_ipv4 x; geo_ipv6 := geo_ipv6 x; geo_country := geo_country x; geo_city := geo_city x;
  geo_latitude := geo_latitude x; geo_longitude := geo_longitude x; mullvad_exit_ip := mullvad_exit_ip x;
  geo_hostname := geo_hostname x; bridge_hostname := bridge_hostname x; entry_hostname := entry_hostname x;
  obfuscator_hostname := obfuscator_hostname x |}.

Definition get_last_location (p : ParametersGenerator) : option GeoIpLocation :=
  relays ← last_generated_relays p;
  let '(host, bridge, entry, obfuscator, l) :=
    match relays with
    | LastWireGuard entry exit obfuscator _ =>
        (hostname exit, None, hostname <$> entry, hostname <$> obfuscator, location exit)
    | LastOpenVpn relay bridge _ => (hostname relay, hostname <$> bridge, None, None, location relay)
    end in
  Some {| geo_ipv4 := None; geo_ipv6 := None; geo_country := country l; geo_city := Some (city l);
          geo_latitude := latitude l; geo_longitude := longitude l; mullvad_exit_ip := true; geo_hostname := Some host;
          bridge_hostname := bridge; entry_hostname := entry; obfuscator_hostname := obfuscator |}.

Definition sock_is_ipv4 (s : SocketAddr) : bool := addr_is_ipv4 (sock_ip s).
(** Whether the address of the first relay is one the user has set. *)
Definition address_overridden (first_relay : Relay) (s : SocketAddr) : bool :=
  (overridden_ipv4 first_relay && sock_is_ipv4 s) || (overridden_ipv6 first_relay && negb (sock_is_ipv4 s)).

Definition network_ip (n : IpNetwork) : IpAddr := match n with NetV4 a _ => AddrV4 a | NetV6 a _ => AddrV6 a end.

Section Generate.
(** The bytes of a private key, whose text is what devices are stored with. *)
Context `{Host} (key_bytes : string → list Z) (lookup : string → option (list IpAddr)).

Definition create_openvpn_tunnel_parameters (p : ParametersGenerator) (endpoint : Endpoint)
    (data : PrivateAccountAndDevice) (bridge_settings : option CustomProxy) : TunnelParameters :=
  OpenVpnParams {|
    openvpn.config := {| openvpn.endpoint := endpoint; openvpn.username := account_number data; openvpn.password := "-" |};
    openvpn.options := to_openvpn (pg_tunnel_options p);
    openvpn.generic_options := to_generic (pg_tunnel_options p);
    openvpn.proxy := bridge_settings;
    openvpn.fwmark := TUNNEL_FWMARK |}.

Definition create_wireguard_tunnel_parameters (p : ParametersGenerator) (endpoint : MullvadWireguardEndpoint)
    (data : PrivateAccountAndDevice) (obfuscator_config : option Obfuscators) : TunnelParameters :=
  let wg := wg_data (device data) in
  let tunnel_ipv4 := network_ip (ipv4_address (DeviceService.addresses wg)) in
  let tunnel_ipv6 := network_ip (ipv6_address (DeviceService.addresses wg)) in
  WireguardParams {|
    wireguard.connection := {|
      wireguard.tunnel := {| wireguard.private_key := key_bytes (private_key wg);
                             wireguard.addresses := [tunnel_ipv4; tunnel_ipv6] |};
      wireguard.peer := mw_peer endpoint;
      wireguard.exit_peer := mw_exit_peer endpoint;
      wireguard.ipv4_gateway := mw_ipv4_gateway endpoint;
      wireguard.ipv6_gateway := Some (mw_ipv6_gateway endpoint);
      wireguard.fwmark := Some TUNNEL_FWMARK |};
    wireguard.options := wg_options.into_talpid_tunnel_options (to_wireguard (pg_tunnel_options p));
    wireguard.generic_options := to_generic (pg_tunnel_options p);
    wireguard.obfuscation := obfuscator_config |}.

(** The device, from the answer of the account manager. *)
Definition generator_device (data : result DeviceService.Error PrivateDeviceState) : M params.Error PrivateAccountAndDevice :=
  match data with
  | Err e => throw (params.Device e)
  | Ok device_state => ok_or (state_device device_state) params.NoAuthDetails
  end.

(** An error that is thrown leaves the generator as it was. *)
Definition generate_inner (data : result DeviceService.Error PrivateDeviceState) (retry_attempt : Z) (a : IpAvailability)
    (p : ParametersGenerator) : M params.Error (result params.Error TunnelParameters * ParametersGenerator) :=
  data ← generator_device data;
  selected_relay ← M_map_err params.SelectRelay (get_relay (pg_relay_selector p) (Z.to_nat retry_attempt) a);
  match selected_relay with
  | GrOpenVpn endpoint exit bridge =>
      let bridge_relay := bridge ≫= RelaySelector.bridge_relay in
      let server_override := address_overridden (default exit bridge_relay) (address endpoint) in
      let p := p <| last_generated_relays := Some (LastOpenVpn exit bridge_relay server_override) |> in
      mret (Ok (create_openvpn_tunnel_parameters p endpoint data (to_proxy <$> bridge)), p)
  | GrWireguard endpoint obfuscator inner =>
      let '(wg_entry, wg_exit) := match inner with
                                  | Singlehop exit => (None, exit)
                                  | Multihop exit entry => (Some entry, exit)
                                  end in
      let server_override := address_overridden (default wg_exit wg_entry) (wireguard.endpoint (mw_peer endpoint)) in
      let p := p <| last_generated_relays := Some (LastWireGuard wg_entry wg_exit (so_relay <$> obfuscator) server_override) |> in
      mret (Ok (create_wireguard_tunnel_parameters p endpoint data (so_config <$> obfuscator)), p)
  | GrCustom custom_relay =>
      let p := p <| last_generated_relays := None |> in
      mret (map_err (λ _, params.ResolveCustomHostname)
              (to_tunnel_parameters lookup custom_relay (pg_tunnel_options p) None), p)
  end.

(** [TunnelParametersGenerator::generate]; [None] is a panic. *)
Definition generate (data : result DeviceService.Error PrivateDeviceState) (retry_attempt : Z) (a : IpAvailability)
    (p : ParametersGenerator) (g : rng) :
    option (result ParameterGenerationError TunnelParameters) * ParametersGenerator * rng :=
  match generate_inner data retry_attempt a p g with
  | (Done (r, p'), g') => (Some (map_err ParameterGenerationError_from r), p', g')
  | (Fail e, g') => (Some (Err (ParameterGenerationError_from e)), p, g')
  | (Panicked, g') => (None, p, g')
  end.

(** ** Properties *)

(** The parameters are those of the device and the relay. *)
Definition parameters_of (d : PrivateAccountAndDevice) (o : TunnelOptions) (r : GetRelay) (t : TunnelParameters) : Prop :=
  match t, r with
  | WireguardParams w, GrWireguard endpoint obfuscator _ =>
      let c := wireguard.connection w in
      wireguard.private_key (wireguard.tunnel c) = key_bytes (private_key (wg_data (device d))) ∧
      wireguard.addresses (wireguard.tunnel c) =
        [network_ip (ipv4_address (DeviceService.addresses (wg_data (device d))));
         network_ip (ipv6_address (DeviceService.addresses (wg_data (device d))))] ∧
      wireguard.peer c = mw_peer endpoint ∧ wireguard.exit_peer c = mw_exit_peer endpoint ∧
      wireguard.ipv4_gateway c = mw_ipv4_gateway endpoint ∧ wireguard.ipv6_gateway c = Some (mw_ipv6_gateway endpoint) ∧
      wireguard.options w = wg_options.into_talpid_tunnel_options (to_wireguard o) ∧
      wireguard.generic_options w = to_generic o ∧
      NetTypes.get_next_hop_endpoints t = match obfuscator with
                                          | Some ob => Obfuscators_endpoints (so_config ob)
                                          | None => [wireguard.get_endpoint c]
                                          end
  | OpenVpnParams v, GrOpenVpn endpoint _ bridge =>
      openvpn.endpoint (openvpn.config v) = endpoint ∧ openvpn.username (openvpn.config v) = account_number d ∧
      openvpn.options v = to_openvpn o ∧ openvpn.generic_options v = to_generic o ∧
      NetTypes.get_next_hop_endpoints t = match bridge with
                                          | Some b => [pe_endpoint (get_remote_endpoint (to_proxy b))]
                                          | None => [endpoint]
                                          end
  | _, _ => False
  end.

(** The location of a relay, with the names of those the traffic passes on the way. *)
Definition location_of (exit : Relay) (entry bridge obfuscator : option Relay) (l : option GeoIpLocation) : Prop :=
  ∃ g, l = Some g ∧ geo_country g = country (location exit) ∧ geo_city g = Some (city (location exit)) ∧
    geo_latitude g = latitude (location exit) ∧ geo_longitude g = longitude (location exit) ∧
    geo_hostname g = Some (hostname exit) ∧ entry_hostname g = hostname <$> entry ∧
    bridge_hostname g = hostname <$> bridge ∧ obfuscator_hostname g = hostname <$> obfuscator ∧
    mullvad_exit_ip g = true ∧ geo_ipv4 g = None ∧ geo_ipv6 g = None.
Definition shows (r : GetRelay) (l : option GeoIpLocation) : Prop :=
  match r with
  | GrWireguard _ ob (Singlehop exit) => location_of exit None None (so_relay <$> ob) l
  | GrWireguard _ ob (Multihop exit entry) => location_of exit (Some entry) None (so_relay <$> ob) l
  | GrOpenVpn _ exit bridge => location_of exit None (bridge ≫= RelaySelector.bridge_relay) None l
  | GrCustom _ => l = None
  end.
(** C25: The tunnel that is set up is one for the user's device and settings.  Asking
    for parameters never panics; the parameters given have the key and the
    addresses of the device the daemon is logged in with (the account number for
    OpenVPN), the tunnel options and generic options in force, and the peers, gateways or
    endpoint of a relay that answers the user's settings and an address family the host
    has; the endpoints the firewall has to let through are those of that relay's first
    hop, its obfuscator or bridge; and the location shown afterwards is that of the exit
    relay, with the host names of the entry, the bridge and the obfuscator.  Without a
    device there are none.  The exception is a custom tunnel: its parameters are those of
    the custom tunnel itself, with its own key, addresses or credentials, and no location is
    shown for it.  (The weights of the relay list are unsigned numbers, as in the
    source; the address family is stated for WireGuard.) *)
Theorem parameters_generated data n a p g :
  weights_ok (relays (parsed_list (parsed_relays (pg_relay_selector p)))) →
  let s := pg_relay_selector p in
  match generate data n a p g with
  | (None, _, _) => False
  | (Some (Err e), p', _) => p' = p ∨ (e = CustomTunnelHostResolutionError ∧ get_last_location p' = None)
  | (Some (Ok t), p', _) =>
      ∃ d, data = Ok (LoggedIn d) ∧
      ((∃ e, relay_settings (config s) = RsCustomTunnelEndpoint e ∧
         to_tunnel_parameters lookup e (pg_tunnel_options p) None = Ok t ∧ get_last_location p' = None) ∨
       ∃ c u r, SpecializedSelectorConfig_from (config s) = ScNormal c ∧ RelayQuery_try_from c = Some u ∧
         answers u (custom_lists (config s)) (parsed_list (parsed_relays s)) r ∧ family_available a r ∧
         parameters_of d (pg_tunnel_options p) r t ∧ shows r (get_last_location p'))
  end.
Proof.
  intros Hw s. unfold generate, generate_inner, generator_device, mbind, M_bind.
  destruct data as [[d| |]|e]; cbn; [|by left..].
  pose proof (get_relay_spec s (Z.to_nat n) a Hw g) as Hr. unfold M_map_err. fold s.
  destruct (get_relay s (Z.to_nat n) a g) as [[r|e|] g']; cbn in *; [|by left|done].
  destruct r as [endpoint ob inner|endpoint exit bridge|e].
  - destruct Hr as (c & u & Hc & Hu & Ha & Hf).
    destruct inner as [exit|exit entry]; cbn; exists d; (split; [done|]); right;
      exists c, u; eexists; (split; [done|]); (split; [done|]); (split; [exact Ha|]); (split; [done|]);
      (split; [|by eexists]); cbn; repeat (split; [done|]); by destruct ob.
  - destruct Hr as (c & u & Hc & Hu & Ha & Hf). cbn. exists d. split; [done|]. right.
    exists c, u, (GrOpenVpn endpoint exit bridge). repeat (split; [done|]). split; [|by eexists].
    cbn. repeat (split; [done|]). by destruct bridge.
  - cbn. destruct (to_tunnel_parameters _ _ _ _) as [t|] eqn:Et; cbn; [|by right].
    exists d. split; [done|]. left. by exists e.
Qed.
End Generate.
