(* ===== verification/SettingsPatch.v ===== *)
(** * Settings patches (mullvad-daemon/src/settings/patch.rs)

    A patch is a JSON document that changes a part of the settings, those listed
    in [PERMITTED_SUBKEYS]: it is validated, merged with the settings as JSON and
    read back.  docs/settings-patch-format.md says what a patch of the relay
    overrides means; that is what the theorems below state of the code. *)

From S2P Require Import Prelude Constraints RelayTypes RelayLists Json DaemonSettings SettingsPersister.

Module patch.
Inductive Error : Set :=
| InvalidOrMissingValue (what : string)
| UnknownOrProhibitedKey (key : string)
| ParsePatch
| DeserializePatched
| SerializeSettings
| SerializeValue
| RecursionLimit
| Settings (e : SettingsPersister.Error).
Definition Status_from (e : Error) : Status :=
  match e with
  | InvalidOrMissingValue _ | UnknownOrProhibitedKey _ | ParsePatch | DeserializePatched | RecursionLimit =>
      {| code := InvalidArgument; details := None |}
  | Settings error => SettingsPersister.Status_from error
  | SerializeSettings | SerializeValue => {| code := Internal; details := None |}
  end.
End patch.
Import patch (InvalidOrMissingValue, UnknownOrProhibitedKey, ParsePatch, DeserializePatched, RecursionLimit).

(** ** What may be patched, and how it is merged *)

Inductive MergeStrategy : Type :=
| Replace
| CustomMerge (f : Value → Value → result patch.Error Value).
Inductive PermittedKey : Type :=
| KeyObject (keys : list (string * PermittedKey)) (merge : MergeStrategy)
| KeyArray (key : PermittedKey) (merge : MergeStrategy)
| KeyAny (merge : MergeStrategy).
Definition merge_strategy (k : PermittedKey) : MergeStrategy :=
  match k with KeyObject _ m | KeyArray _ m | KeyAny m => m end.

Definition as_object (v : Value) : option Map := match v with Object m => Some m | _ => None end.
Definition as_array (v : Value) : option (list Value) := match v with Array l => Some l | _ => None end.
Definition ok_or_missing {A} (o : option A) (what : string) : result patch.Error A :=
  match o with Some a => Ok a | None => Err (InvalidOrMissingValue what) end.

(** The host name of an entry. *)
Definition hostname_of (v : Value) : option string := m ← as_object v; h ← map_get "hostname" m; as_str h.

(** One entry of the patch: replaces or adds the values of an existing entry for the
    host, or is appended. *)
Definition merge_entry (new_array : list Value) (patch_override : Value) : result patch.Error (list Value) :=
  patch_obj ← ok_or_missing (as_object patch_override) "override entry";
  patch_hostname ← ok_or_missing (h ← map_get "hostname" patch_obj; as_str h) "hostname";
  match list_find (λ v, hostname_of v = Some patch_hostname) new_array with
  | Some (i, Object current) =>
      Ok (<[i := Object (foldl (λ m kv, map_insert kv.1 kv.2 m) current patch_obj)]> new_array)
  | Some (_, _) => Err (InvalidOrMissingValue "all override entries must be objects")
  | None => Ok (new_array ++ [patch_override])
  end.

Definition merge_relay_overrides (current_settings patch : Value) : result patch.Error Value :=
  if is_null current_settings then Ok patch
  else
    patch_array ← ok_or_missing (as_array patch) "relay overrides must be array";
    current_array ← ok_or_missing (as_array current_settings) "existing overrides should be an array";
    new_array ← try_fold merge_entry patch_array current_array;
    Ok (Array new_array).

Definition PERMITTED_SUBKEYS : PermittedKey :=
  KeyObject [("relay_overrides"%string,
    KeyArray (KeyObject [("hostname"%string, KeyAny Replace); ("ipv4_addr_in"%string, KeyAny Replace);
                         ("ipv6_addr_in"%string, KeyAny Replace)] Replace)
      (CustomMerge merge_relay_overrides))] Replace.
Definition RECURSE_LIMIT : nat := 15.

Definition find_key (k : string) (keys : list (string * PermittedKey)) : option PermittedKey :=
  snd <$> List.find (λ p, bool_decide (k = p.1)) keys.

(** The number is how many more levels are allowed: [RECURSE_LIMIT] less the level. *)
Fixpoint merge_patch_to_value (levels : nat) (permitted_key : PermittedKey) (current_value patch_value : Value) :
    result patch.Error Value :=
  match levels with
  | O => Err RecursionLimit
  | S levels =>
      match merge_strategy permitted_key with
      | Replace =>
          match permitted_key, current_value, patch_value with
          | KeyObject sub_permitted _, Object current, Object patch =>
              current ← try_fold (λ current kv,
                match find_key kv.1 sub_permitted with
                | None => Err (UnknownOrProhibitedKey kv.1)
                | Some sub =>
                    v ← merge_patch_to_value levels sub (default Null (map_get kv.1 current)) kv.2;
                    Ok (map_insert kv.1 v current)
                end) patch current;
              Ok (Object current)
          | _, _, _ => Ok patch_value
          end
      | CustomMerge merge_function => merge_function current_value patch_value
      end
  end.

Fixpoint validate_patch_value (levels : nat) (permitted_key : PermittedKey) (json_value : Value) :
    result patch.Error unit :=
  match levels with
  | O => Err RecursionLimit
  | S levels =>
      match permitted_key with
      | KeyObject subkeys _ =>
          map ← ok_or_missing (as_object json_value) "expected JSON object in patch";
          try_fold (λ _ kv, match find_key kv.1 subkeys with
                            | None => Err (UnknownOrProhibitedKey kv.1)
                            | Some subkey => validate_patch_value levels subkey kv.2
                            end) map tt
      | KeyArray subkey _ =>
          values ← ok_or_missing (as_array json_value) "expected JSON array in patch";
          try_fold (λ _ v, validate_patch_value levels subkey v) values tt
      | KeyAny _ => Ok tt
      end
  end.

(** ** Settings as JSON *)

Definition option_to_value (text : Z → string) (o : option Z) : Value :=
  match o with Some a => String_ (text a) | None => Null end.
(** An optional address: absent and null mean none. *)
Definition option_from_value (parse : string → option Z) (v : option Value) : option (option Z) :=
  match v with
  | None | Some Null => Some None
  | Some (String_ s) => Some <$> parse s
  | Some _ => None
  end.

(** Addresses are written as text. *)
Class IpText : Type := {
  ipv4_text : Z → string;
  ipv4_parse : string → option Z;
  ipv6_text : Z → string;
  ipv6_parse : string → option Z;
  ipv4_round_trip a : ipv4_parse (ipv4_text a) = Some a;
  ipv6_round_trip a : ipv6_parse (ipv6_text a) = Some a
}.

Definition override_to_value `{IpText} (o : RelayOverride) : Value :=
  object [("hostname"%string, String_ (ro_hostname o));
          ("ipv4_addr_in"%string, option_to_value ipv4_text (ro_ipv4_addr_in o));
          ("ipv6_addr_in"%string, option_to_value ipv6_text (ro_ipv6_addr_in o))].
(** Of an object: an entry is never another value here. *)
Definition override_from_value `{IpText} (v : Value) : option RelayOverride :=
  m ← as_object v;
  host ← hostname_of v;
  v4 ← option_from_value ipv4_parse (map_get "ipv4_addr_in" m);
  v6 ← option_from_value ipv6_parse (map_get "ipv6_addr_in" m);
  Some {| ro_hostname := host; ro_ipv4_addr_in := v4; ro_ipv6_addr_in := v6 |}.

(** An object has each key once. *)
Fixpoint distinct_keys (v : Value) : Prop :=
  match v with
  | Array l => (fix all l := match l with [] => True | x :: l => distinct_keys x ∧ all l end) l
  | Object m =>
      NoDup m.*1 ∧ (fix all m := match m with [] => True | (_, x) :: m => distinct_keys x ∧ all m end) m
  | _ => True
  end.

(** serde: the settings are an object with a key for each field, which can be read
    back, each field from its own key, as far as it is written. *)
Class PatchJson `{IpText} : Type := {
  settings_to_value : Settings → result unit Map;
  settings_from_value : Value → option Settings;
  parse_value : string → option Value;
  print_value : Value → result unit string;
  print_round_trip v text : print_value v = Ok text → distinct_keys v → parse_value text = Some v;
  parse_distinct text v : parse_value text = Some v → distinct_keys v;
  to_value_overrides s m : settings_to_value s = Ok m →
    map_get "relay_overrides" m = Some (Array (override_to_value <$> s_relay_overrides s));
  from_value_same s m : settings_to_value s = Ok m → settings_from_value (Object m) = Some (persisted s);
  from_value_overrides s m l : settings_to_value s = Ok m →
    settings_from_value (Object (map_insert "relay_overrides" (Array l) m)) =
      (λ os, persisted s <| s_relay_overrides := os |>) <$> mapM override_from_value l
}.

(** ** Applying and exporting *)

Section Patch.
Context `{IpText} `{!PatchJson}.

Definition export_override (o : RelayOverride) : option Value :=
  match override_to_value o with
  | Object m =>
      let m := List.filter (λ kv, negb (is_null kv.2)) m in
      let has_overrides := existsb (λ kv, negb (bool_decide (kv.1 = "hostname"%string))) m in
      if has_overrides then Some (Object m) else None
  | v => Some v
  end.
Definition export_settings_inner (s : Settings) : Value :=
  match omap export_override (s_relay_overrides s) with
  | [] => Object []
  | overrides => Object [("relay_overrides"%string, Array overrides)]
  end.
Definition export_settings (s : Settings) : result patch.Error string :=
  map_err (λ _, patch.SerializeValue) (print_value (export_settings_inner s)).

Definition merge_validate_patch_inner (s : Settings) (json_patch : string) : result patch.Error Settings :=
  settings_value ← map_err (λ _, patch.SerializeSettings) (settings_to_value s);
  match parse_value json_patch with
  | None => Err ParsePatch
  | Some patch_value =>
      _ ← validate_patch_value RECURSE_LIMIT PERMITTED_SUBKEYS patch_value;
      merged ← merge_patch_to_value RECURSE_LIMIT PERMITTED_SUBKEYS (Object settings_value) patch_value;
      match settings_from_value merged with
      | Some new_settings => Ok new_settings
      | None => Err DeserializePatched
      end
  end.

Definition merge_validate_patch `{!SettingsJson} (io : Io) (json_patch : string) (p : SettingsPersister) :
    result patch.Error unit * SettingsPersister :=
  match merge_validate_patch_inner (p_settings p) json_patch with
  | Err e => (Err e, p)
  | Ok new_settings =>
      let '(r, p) := update io (λ _, new_settings) p in
      (match r with Ok _ => Ok tt | Err e => Err (patch.Settings e) end, p)
  end.

(** ** What a patch means *)

(** The value the last entry for a host that has the key gives it. *)
Definition last_specified (key host : string) (entries : list Value) : option Value :=
  last (omap (λ e, if decide (hostname_of e = Some host) then get key e else None) entries).
Definition mentions (host : string) (entries : list Value) : Prop := Exists (λ e, hostname_of e = Some host) entries.

(** The entry for a host in an array. *)
Definition entry_of (host : string) (arr : list Value) : option Value :=
  List.find (λ e, bool_decide (hostname_of e = Some host)) arr.
Definition field_of (key host : string) (arr : list Value) : option Value := e ← entry_of host arr; get key e.

Record array_ok (arr : list Value) : Prop := {
  ao_hosts : Forall (λ e, is_Some (hostname_of e)) arr;
  ao_nodup : NoDup (hostname_of <$> arr)
}.

(** *** Keys of merged objects *)

Lemma insert_all_get (l : Map) m k :
  NoDup l.*1 →
  map_get k (foldl (λ m kv, map_insert kv.1 kv.2 m) m l) =
    match map_get k l with Some v => Some v | None => map_get k m end.
Proof.
  revert m; induction l as [|[k' v] l IH]; intros m; cbn; [done|]. intros [Hk Hnd]%NoDup_cons. rewrite IH by done.
  case_decide as E; subst.
  - replace (map_get k' l) with (@None Value); [by rewrite map_get_insert|]. symmetry.
    clear -Hk. induction l as [|[k v0] l IH]; cbn in *; [done|]. rewrite decide_False by set_solver. apply IH. set_solver.
  - by rewrite map_get_insert_ne by done.
Qed.

(** *** One entry *)

Lemma entry_of_app host a b :
  entry_of host (a ++ b) = match entry_of host a with Some e => Some e | None => entry_of host b end.
Proof. unfold entry_of. induction a as [|e a IH]; cbn; [done|]. by destruct (bool_decide _). Qed.

Lemma entry_of_cons host e a :
  entry_of host (e :: a) = if decide (hostname_of e = Some host) then Some e else entry_of host a.
Proof. unfold entry_of; cbn. case_bool_decide; by case_decide. Qed.

Lemma entry_of_host host a e : entry_of host a = Some e → hostname_of e = Some host ∧ e ∈ a.
Proof. unfold entry_of. intros [Hin Hb]%find_some. apply bool_decide_eq_true in Hb. split; [done|by apply list_elem_of_In]. Qed.

Lemma entry_of_None host a : entry_of host a = None ↔ Some host ∉ hostname_of <$> a.
Proof.
  induction a as [|e a IH]; [cbn; set_solver|]. rewrite entry_of_cons, fmap_cons. case_decide as E; [set_solver|].
  rewrite IH. set_solver.
Qed.

(** An array in which the entry for [h] is replaced by [new]. *)
Lemma entry_replaced h host a old new b :
  hostname_of old = Some h → hostname_of new = Some h → entry_of h a = None →
  entry_of host (a ++ new :: b) = if decide (host = h) then Some new else entry_of host (a ++ old :: b).
Proof.
  intros Ho Hn Ha. rewrite !entry_of_app, !entry_of_cons, Ho, Hn. destruct (decide (host = h)) as [->|E].
  - by rewrite Ha, decide_True.
  - by rewrite !(decide_False (P := Some h = Some host)) by congruence.
Qed.

Lemma merge_entry_spec arr e arr' :
  array_ok arr → distinct_keys e → merge_entry arr e = Ok arr' →
  ∃ h, hostname_of e = Some h ∧ array_ok arr' ∧ ∀ host,
    (is_Some (entry_of host arr') ↔ is_Some (entry_of host arr) ∨ host = h) ∧
    ∀ key, field_of key host arr' =
      if decide (host = h) then match get key e with Some v => Some v | None => field_of key h arr end
      else field_of key host arr.
Proof.
  intros [Hhosts Hnd] Hd. unfold merge_entry, ok_or_missing.
  destruct e as [| | | | | |m]; cbn; try done. destruct (map_get "hostname" m) as [hv|] eqn:Eh; cbn; [|done].
  destruct (as_str hv) as [h|] eqn:Es; cbn; [|done].
  assert (hostname_of (Object m) = Some h) as He by (unfold hostname_of; cbn; by rewrite Eh).
  destruct Hd as [Hd _]. destruct (list_find _ arr) as [[i v]|] eqn:Ef.
  - apply list_find_Some in Ef as (Hi & Hv & Hbefore). destruct v as [| | | | | |current]; try done. cbn [mbind].
    intros [= <-]. set (merged := Object _).
    assert (∀ key, get key merged = match get key (Object m) with Some v => Some v | None => get key (Object current) end)
      as Hget by (intros key; cbn; by apply insert_all_get).
    assert (hostname_of merged = Some h) as Hm.
    { unfold hostname_of, merged in *; cbn in *. rewrite insert_all_get, Eh by done. done. }
    apply list_elem_of_split_length in Hi as (a & b & -> & ->).
    assert (entry_of h a = None) as Ha.
    { apply entry_of_None. intros (e & E & Hin)%list_elem_of_fmap. apply list_elem_of_lookup in Hin as [j Hj].
      eapply (Hbefore j e); [|by apply lookup_lt_Some in Hj|done]. by apply lookup_app_l_Some. }
    rewrite insert_app_r_alt, Nat.sub_diag by done; cbn [insert list_insert].
    exists h. split; [done|]. split.
    { constructor.
      - rewrite Forall_app, Forall_cons in *. rewrite Hm. naive_solver.
      - rewrite fmap_app, fmap_cons in *. by rewrite Hm, <- Hv. }
    intros host. unfold field_of. rewrite (entry_replaced h host a (Object current) merged b) by done. split.
    + case_decide; [naive_solver|]. naive_solver.
    + intros key. case_decide; [subst; cbn [mbind option_bind]|done].
      rewrite Hget, (entry_of_app h a), Ha, entry_of_cons, decide_True by done. done.
  - intros [= <-]. apply list_find_None in Ef. rewrite Forall_forall in Ef.
    assert (entry_of h arr = None) as Ha.
    { apply entry_of_None. intros (e & E & Hin)%list_elem_of_fmap. by apply (Ef e). }
    exists h. split; [done|]. split.
    { constructor; [rewrite Forall_app, Forall_singleton; rewrite He; eauto|].
      rewrite fmap_app, fmap_cons, He. apply NoDup_app. split; [done|]. split; [|apply NoDup_singleton].
      intros x Hx ->%list_elem_of_singleton. by apply entry_of_None in Ha. }
    intros host. unfold field_of. rewrite entry_of_app, entry_of_cons, He. split.
    + destruct (entry_of host arr) eqn:E; [naive_solver|]. case_decide; split; naive_solver.
    + intros key. destruct (decide (host = h)) as [->|E].
      * rewrite Ha, decide_True by done. cbn. by destruct (map_get key m).
      * rewrite (decide_False (P := Some h = Some host)) by congruence. by destruct (entry_of host arr).
Qed.

(** *** All entries *)

Lemma merge_entries_spec entries arr arr' :
  array_ok arr → Forall distinct_keys entries → try_fold merge_entry entries arr = Ok arr' →
  array_ok arr' ∧ ∀ host,
    (is_Some (entry_of host arr') ↔ is_Some (entry_of host arr) ∨ mentions host entries) ∧
    ∀ key, field_of key host arr' =
      match last_specified key host entries with Some v => Some v | None => field_of key host arr end.
Proof.
  intros Hok Hd. revert arr Hok. induction Hd as [|e entries He _ IH]; intros arr Hok; cbn.
  - intros [= <-]. split; [done|]. intros host. split; [|done]. unfold mentions. rewrite Exists_nil. tauto.
  - destruct (merge_entry arr e) as [arr1|] eqn:E1; cbn; [|done]. intros Hf.
    destruct (merge_entry_spec _ _ _ Hok He E1) as (h & Hh & Hok1 & Hs).
    destruct (IH _ Hok1 Hf) as [Hok' Hs']. split; [done|]. intros host.
    destruct (Hs host) as [Hs1 Hs2], (Hs' host) as [Hs1' Hs2']. split.
    + rewrite Hs1', Hs1. unfold mentions. rewrite Exists_cons, Hh. naive_solver.
    + intros key. rewrite Hs2', Hs2. unfold last_specified; cbn. rewrite Hh.
      destruct (decide (host = h)) as [->|E].
      * rewrite decide_True by done. destruct (get key e) as [v|]; [|done]. rewrite last_cons.
        by destruct (last _).
      * rewrite (decide_False (P := Some h = Some host)) by congruence. done.
Qed.

(** *** Reading entries *)

Lemma override_of_host os host o : override_of os host = Some o → o ∈ os ∧ ro_hostname o = host.
Proof.
  unfold override_of. intros Ho. assert (o ∈ filter (λ o, ro_hostname o = host) os) as H1.
  { rewrite last_lookup in Ho. by eapply list_elem_of_lookup_2. }
  apply list_elem_of_filter in H1. tauto.
Qed.
Lemma override_get_host o : hostname_of (override_to_value o) = Some (ro_hostname o).
Proof. done. Qed.
Lemma override_get_v4 o : get "ipv4_addr_in" (override_to_value o) = Some (option_to_value ipv4_text (ro_ipv4_addr_in o)).
Proof. done. Qed.
Lemma override_get_v6 o : get "ipv6_addr_in" (override_to_value o) = Some (option_to_value ipv6_text (ro_ipv6_addr_in o)).
Proof. done. Qed.
Lemma option_value_round_trip text parse o :
  (∀ a : Z, parse (text a) = Some a) → option_from_value parse (Some (option_to_value text o)) = Some o.
Proof. intros Hr. destruct o; cbn; [by rewrite Hr|done]. Qed.

Lemma override_from_value_some e o :
  override_from_value e = Some o ↔
  hostname_of e = Some (ro_hostname o) ∧
  option_from_value ipv4_parse (get "ipv4_addr_in" e) = Some (ro_ipv4_addr_in o) ∧
  option_from_value ipv6_parse (get "ipv6_addr_in" e) = Some (ro_ipv6_addr_in o).
Proof.
  unfold override_from_value. destruct e; cbn; try naive_solver.
  destruct (map_get "hostname" _ ≫= _) as [h|]; cbn; [|naive_solver].
  destruct (option_from_value ipv4_parse _); cbn; [|naive_solver].
  destruct (option_from_value ipv6_parse _); cbn; [|naive_solver]. destruct o; naive_solver.
Qed.

Lemma overrides_array_ok os : NoDup (ro_hostname <$> os) → array_ok (override_to_value <$> os).
Proof.
  intros Hnd. constructor.
  - apply Forall_fmap, Forall_forall. intros o _. cbn. eauto.
  - rewrite <- list_fmap_compose. assert (hostname_of ∘ override_to_value = Some ∘ ro_hostname) as E by done.
    rewrite E, list_fmap_compose. by apply NoDup_fmap_2; [apply _|].
Qed.

Lemma entry_of_overrides os host :
  NoDup (ro_hostname <$> os) → entry_of host (override_to_value <$> os) = override_to_value <$> override_of os host.
Proof.
  induction os as [|o os IH]; [done|]. rewrite !fmap_cons. intros [Ho Hnd]%NoDup_cons.
  rewrite override_of_cons, entry_of_cons by done.
  rewrite override_get_host. destruct (decide (host = ro_hostname o)) as [->|E].
  - by rewrite decide_True.
  - rewrite decide_False by congruence. by apply IH.
Qed.

Lemma overrides_read arr os :
  array_ok arr → mapM override_from_value arr = Some os →
  NoDup (ro_hostname <$> os) ∧ ∀ host, override_of os host = (entry_of host arr ≫= override_from_value).
Proof.
  intros [_ Hnd] Hm%mapM_Some. revert Hnd. induction Hm as [|e o arr os He _ IH]; [intros; split; [constructor|done]|].
  rewrite !fmap_cons. intros [Hfresh Hnd]%NoDup_cons. destruct (IH Hnd) as [Hnd' Hos].
  pose proof He as (Hh & _)%override_from_value_some.
  assert (ro_hostname o ∉ ro_hostname <$> os) as Ho.
  { intros Hin. destruct (override_of os (ro_hostname o)) as [o'|] eqn:E.
    - rewrite Hos in E. destruct (entry_of _ arr) as [e'|] eqn:Ee; [|done]. apply entry_of_host in Ee as [Eh Hin'].
      apply Hfresh. rewrite Hh, <- Eh. by apply list_elem_of_fmap_2.
    - clear -E Hin. induction os as [|o1 os IH]; cbn in *; [set_solver|].
      rewrite (override_of_app [o1] os) in E. destruct (override_of os (ro_hostname o)) eqn:E1; [done|].
      apply elem_of_cons in Hin as [Hin|Hin]; [|by apply IH].
      unfold override_of in E; cbn in E. by rewrite decide_True in E. }
  split; [by apply NoDup_cons|]. intros host. rewrite override_of_cons, entry_of_cons, Hh by done.
  destruct (decide (host = ro_hostname o)) as [->|E].
  - by rewrite decide_True.
  - by rewrite (decide_False (P := Some _ = Some _)) by congruence.
Qed.

(** *** Documents *)

Lemma find_permitted k x y : find_key k [("relay_overrides"%string, x)] = Some y → k = "relay_overrides"%string ∧ y = x.
Proof. unfold find_key; cbn. case_bool_decide; cbn; [|done]. by intros [= <-]. Qed.

Lemma validated n v :
  distinct_keys v → validate_patch_value (S (S n)) PERMITTED_SUBKEYS v = Ok tt →
  v = Object [] ∨ ∃ entries, v = Object [("relay_overrides"%string, Array entries)] ∧ Forall distinct_keys entries.
Proof.
  intros Hd. unfold PERMITTED_SUBKEYS. destruct v as [| | | | | |m]; try done.
  destruct Hd as [Hnd Hall]. destruct m as [|[k x] m]; [by left|].
  cbn [validate_patch_value as_object ok_or_missing mbind result_bind try_fold fst snd].
  destruct (find_key k _) as [sub|] eqn:Ek; [|done]. apply find_permitted in Ek as [-> ->].
  destruct x as [| | | | |l|]; try done.
  intros Hv. right. exists l. destruct m as [|[k' y] m].
  - split; [done|]. destruct Hall as [Hall _]. clear -Hall. cbn in Hall.
    induction l as [|e l IH]; [constructor|]. destruct Hall as [He Hl]. constructor; [done|by apply IH].
  - exfalso. revert Hv. cbn [validate_patch_value as_array ok_or_missing mbind result_bind].
    destruct (try_fold _ l tt); cbn [mbind result_bind try_fold fst snd]; [|done].
    destruct (find_key k' _) as [sub|] eqn:Ek; [|done]. apply find_permitted in Ek as [-> _].
    intros _. cbn in Hnd. apply NoDup_cons in Hnd as [Hnd _]. set_solver.
Qed.

Lemma merged_value n s m entries :
  settings_to_value s = Ok m →
  merge_patch_to_value (S (S n)) PERMITTED_SUBKEYS (Object m)
    (Object [("relay_overrides"%string, Array entries)]) =
  (arr ← try_fold merge_entry entries (override_to_value <$> s_relay_overrides s);
   Ok (Object (map_insert "relay_overrides" (Array arr) m))).
Proof.
  intros Hm. unfold PERMITTED_SUBKEYS.
  cbn [merge_patch_to_value merge_strategy try_fold fst snd mbind result_bind].
  replace (find_key _ _) with (Some (KeyArray (KeyObject [("hostname"%string, KeyAny Replace); ("ipv4_addr_in"%string, KeyAny Replace);
    ("ipv6_addr_in"%string, KeyAny Replace)] Replace) (CustomMerge merge_relay_overrides))) by done.
  cbn [merge_patch_to_value merge_strategy]. rewrite (to_value_overrides s) by done. unfold merge_relay_overrides, ok_or_missing.
  cbn [is_null default from_option id as_array mbind result_bind]. by destruct (try_fold _ entries _).
Qed.

Lemma last_specified_unmentioned key host entries : ¬ mentions host entries → last_specified key host entries = None.
Proof.
  unfold mentions, last_specified. induction entries as [|e entries IH]; [done|]. rewrite Exists_cons. intros Hn; cbn.
  rewrite decide_False by tauto. apply IH. tauto.
Qed.

(** What the merged entry of a host is read as. *)
Definition patched (before : option RelayOverride) (host : string) (entries : list Value) (o : RelayOverride) : Prop :=
  ro_hostname o = host ∧
  Some (ro_ipv4_addr_in o) = match last_specified "ipv4_addr_in" host entries with
                             | Some v => option_from_value ipv4_parse (Some v)
                             | None => Some (before ≫= ro_ipv4_addr_in)
                             end ∧
  Some (ro_ipv6_addr_in o) = match last_specified "ipv6_addr_in" host entries with
                             | Some v => option_from_value ipv6_parse (Some v)
                             | None => Some (before ≫= ro_ipv6_addr_in)
                             end.

Lemma patched_unmentioned before host entries o :
  ¬ mentions host entries → (∀ b, before = Some b → ro_hostname b = host) →
  patched before host entries o → is_Some before → before = Some o.
Proof.
  intros Hm Hb (Hh & H4 & H6) [b Eb]. rewrite !last_specified_unmentioned in H4, H6 by done. subst before. cbn in *.
  specialize (Hb b eq_refl). destruct b, o; cbn in *. congruence.
Qed.

Lemma overrides_merged os entries arr os' host :
  NoDup (ro_hostname <$> os) → Forall distinct_keys entries →
  try_fold merge_entry entries (override_to_value <$> os) = Ok arr → mapM override_from_value arr = Some os' →
  let before := override_of os host in
  let after := override_of os' host in
  NoDup (ro_hostname <$> os') ∧ (is_Some after ↔ is_Some before ∨ mentions host entries) ∧
  ∀ o, after = Some o → patched before host entries o.
Proof.
  intros Hok He Ef Em. destruct (merge_entries_spec _ _ _ (overrides_array_ok _ Hok) He Ef) as [Hok' Hs].
  destruct (overrides_read _ _ Hok' Em) as [Hnd Hread]. cbn zeta. rewrite Hread.
  destruct (Hs host) as [Hent Hfield]. unfold field_of in Hfield. rewrite (entry_of_overrides _ _ Hok) in Hent, Hfield.
  rewrite fmap_is_Some in Hent. split; [done|]. split.
  - rewrite <- Hent. destruct (entry_of host arr) as [e|] eqn:Ee; [|naive_solver]. cbn.
    apply entry_of_host in Ee as [_ Hin]. apply mapM_Some in Em. apply list_elem_of_lookup in Hin as [i Hi].
    destruct (Forall2_lookup_l _ _ _ _ _ Em Hi) as (o & _ & ->). naive_solver.
  - intros o Ho. destruct (entry_of host arr) as [e|] eqn:Ee; [|done]. cbn in Ho, Hfield.
    apply override_from_value_some in Ho as (Hh & H4 & H6). apply entry_of_host in Ee as [Eh _].
    rewrite Hfield in H4, H6. split; [congruence|]. split.
    + destruct (last_specified "ipv4_addr_in" host entries); [done|]. destruct (override_of os host) as [b|]; [|done].
      rewrite <- H4. exact (option_value_round_trip _ _ (ro_ipv4_addr_in b) ipv4_round_trip).
    + destruct (last_specified "ipv6_addr_in" host entries); [done|]. destruct (override_of os host) as [b|]; [|done].
      rewrite <- H6. exact (option_value_round_trip _ _ (ro_ipv6_addr_in b) ipv6_round_trip).
Qed.

Lemma patch_meaning s text s' :
  overrides_ok s → merge_validate_patch_inner s text = Ok s' →
  s' = persisted s <| s_relay_overrides := s_relay_overrides s' |> ∧ overrides_ok s' ∧
  ∃ entries,
    (parse_value text = Some (Object [("relay_overrides"%string, Array entries)]) ∨
     (parse_value text = Some (Object []) ∧ entries = [])) ∧
    ∀ host,
      let before := override_of (s_relay_overrides s) host in
      let after := override_of (s_relay_overrides s') host in
      (¬ mentions host entries → after = before) ∧
      (mentions host entries → ∃ o, after = Some o ∧ patched before host entries o).
Proof.
  intros Hok. unfold merge_validate_patch_inner. destruct (settings_to_value s) as [sv|] eqn:Esv; cbn [mbind result_bind map_err]; [|done].
  destruct (parse_value text) as [v|] eqn:Ep; [|done].
  pose proof (parse_distinct _ _ Ep) as Hd.
  destruct (validate_patch_value _ _ v) as [[]|] eqn:Ev; cbn [mbind result_bind]; [|done].
  destruct (validated 13 v Hd Ev) as [->|(entries & -> & He)].
  - cbn. rewrite (from_value_same s) by done. intros [= <-]. split; [by destruct s|]. split; [done|].
    exists []. split; [by right|]. intros host. split; [done|]. intros Hm. by apply Exists_nil in Hm.
  - rewrite (merged_value 13 s) by done. destruct (try_fold _ _ _) as [arr|] eqn:Ef; cbn [mbind result_bind]; [|done].
    rewrite (from_value_overrides s) by done. destruct (mapM _ arr) as [os|] eqn:Em; [|done]. intros [= <-].
    clear Ev. cbn [s_relay_overrides modify]. pose proof (λ host, overrides_merged _ _ _ _ host Hok He Ef Em) as Hmerged.
    split; [done|]. split; [apply (Hmerged EmptyString)|]. exists entries. split; [by left|]. intros host.
    destruct (Hmerged host) as (_ & Hsome & Hp). split.
    + intros Hm. destruct (override_of os host) as [o|] eqn:Eo.
      * symmetry. apply patched_unmentioned with host entries; [done| |by apply Hp|naive_solver].
        intros b (_ & Hb)%override_of_host. done.
      * destruct (override_of (s_relay_overrides s) host) as [r|]; [|done].
        by destruct (proj2 Hsome (or_introl (mk_is_Some (Some r) r eq_refl))).
    + intros Hm. destruct (proj2 Hsome (or_intror Hm)) as [o Ho]. exists o. split; [done|]. by apply Hp.
Qed.

(** A settings patch does what the documentation of the format says.  A patch
    that is accepted changes nothing but the relay overrides (and what is never
    written to JSON).  It mentions hosts; no
    other host is affected, and every host it mentions has an override
    afterwards, in which each address is the last one the patch specifies for the
    host, and an address it does not specify is what it was before. *)
Theorem patch_applied s text s' :
  overrides_ok s → merge_validate_patch_inner s text = Ok s' →
  s' = persisted s <| s_relay_overrides := s_relay_overrides s' |> ∧ overrides_ok s' ∧
  ∃ entries,
    (parse_value text = Some (Object [("relay_overrides"%string, Array entries)]) ∨
     (parse_value text = Some (Object []) ∧ entries = [])) ∧
    ∀ host,
      let before := override_of (s_relay_overrides s) host in
      let after := override_of (s_relay_overrides s') host in
      (¬ mentions host entries → after = before) ∧
      (mentions host entries → ∃ o, after = Some o ∧ patched before host entries o).
Proof. apply patch_meaning. Qed.

(** Nothing but the overrides changes. *)
Lemma patch_changes_overrides s text s' :
  merge_validate_patch_inner s text = Ok s' → s' = persisted s <| s_relay_overrides := s_relay_overrides s' |>.
Proof.
  unfold merge_validate_patch_inner. destruct (settings_to_value s) as [sv|] eqn:Esv; cbn [mbind result_bind map_err]; [|done].
  destruct (parse_value text) as [v|] eqn:Ep; [|done].
  destruct (validate_patch_value _ _ v) as [[]|] eqn:Ev; cbn [mbind result_bind]; [|done].
  destruct (validated 13 v (parse_distinct _ _ Ep) Ev) as [->|(entries & -> & He)].
  - cbn. rewrite (from_value_same s) by done. intros [= <-]. by destruct s.
  - rewrite (merged_value 13 s) by done. destruct (try_fold _ _ _) as [arr|]; cbn [mbind result_bind]; [|done].
    rewrite (from_value_overrides s) by done. destruct (mapM _ arr); [|done]. by intros [= <-].
Qed.

(** *** Exporting *)

(** An override without the addresses it does not set. *)
Definition pruned (o : RelayOverride) : Value :=
  Object (List.filter (λ kv, negb (is_null kv.2))
    [("hostname"%string, String_ (ro_hostname o));
     ("ipv4_addr_in"%string, option_to_value ipv4_text (ro_ipv4_addr_in o));
     ("ipv6_addr_in"%string, option_to_value ipv6_text (ro_ipv6_addr_in o))]).

Lemma export_override_pruned o : export_override o = if override_is_empty o then None else Some (pruned o).
Proof.
  unfold override_is_empty. destruct o as [h [a|] [b|]]; [| | |by rewrite bool_decide_eq_true_2];
    by rewrite bool_decide_eq_false_2 by (by intros [=]).
Qed.

Lemma pruned_ok o :
  hostname_of (pruned o) = Some (ro_hostname o) ∧ override_from_value (pruned o) = Some o ∧ distinct_keys (pruned o) ∧
  ∀ n m, validate_patch_value (S (S n)) (KeyObject [("hostname"%string, KeyAny Replace); ("ipv4_addr_in"%string, KeyAny Replace);
    ("ipv6_addr_in"%string, KeyAny Replace)] m) (pruned o) = Ok tt.
Proof.
  rewrite override_from_value_some.
  destruct o as [h [a|] [b|]]; (split; [done|]); (split; [|split; [cbn; repeat constructor; set_solver|intros; reflexivity]]);
    (split; [done|]); split; first
    [ reflexivity
    | change (Some <$> ipv4_parse (ipv4_text a) = Some (Some a)); by rewrite ipv4_round_trip
    | change (Some <$> ipv6_parse (ipv6_text b) = Some (Some b)); by rewrite ipv6_round_trip ].
Qed.

Definition exported (s : Settings) : list RelayOverride :=
  List.filter (λ o, negb (override_is_empty o)) (s_relay_overrides s).

Lemma export_entries os :
  omap export_override os = pruned <$> List.filter (λ o, negb (override_is_empty o)) os.
Proof.
  induction os as [|o os IH]; [done|]. cbn [omap list_omap List.filter]. rewrite export_override_pruned.
  destruct (override_is_empty o); cbn; [done|]. by rewrite <- IH.
Qed.

Lemma merge_entry_new arr m h :
  hostname_of (Object m) = Some h → list_find (λ v, hostname_of v = Some h) arr = None →
  merge_entry arr (Object m) = Ok (arr ++ [Object m]).
Proof.
  unfold merge_entry, ok_or_missing. unfold hostname_of at 1. cbn [as_object mbind result_bind option_bind].
  intros -> Hf. cbn [mbind result_bind]. by rewrite Hf.
Qed.

Lemma merge_new_entries os arr :
  NoDup ((hostname_of <$> arr) ++ (Some ∘ ro_hostname <$> os)) → try_fold merge_entry (pruned <$> os) arr = Ok (arr ++ (pruned <$> os)).
Proof.
  revert arr; induction os as [|o os IH]; intros arr Hnd; [by rewrite app_nil_r|].
  destruct (pruned_ok o) as (Hh & _). rewrite !fmap_cons in *. cbn [try_fold].
  assert (merge_entry arr (pruned o) = Ok (arr ++ [pruned o])) as ->.
  { assert (list_find (λ v, hostname_of v = Some (ro_hostname o)) arr = None) as Hf.
    { apply list_find_None, Forall_forall. intros e He Ee. apply NoDup_app in Hnd as (_ & Hnd & _).
      apply (Hnd (Some (ro_hostname o))); [rewrite <- Ee; by apply list_elem_of_fmap_2|cbn; set_solver]. }
    by apply merge_entry_new with (ro_hostname o). }
  cbn [mbind result_bind]. rewrite IH; [by rewrite <- app_assoc|].
  rewrite fmap_app, fmap_cons, Hh, <- app_assoc. done.
Qed.

Lemma validate_exported n os :
  validate_patch_value (S (S (S (S n)))) PERMITTED_SUBKEYS (Object [("relay_overrides"%string, Array (pruned <$> os))]) = Ok tt.
Proof.
  assert (∀ k, (∀ o, validate_patch_value (S (S n)) k (pruned o) = Ok tt) →
    try_fold (λ _ v, validate_patch_value (S (S n)) k v) (pruned <$> os) tt = Ok tt) as Hall.
  { intros k Hk. induction os as [|o os IH]; [done|]. rewrite fmap_cons. cbn [try_fold]. by rewrite Hk. }
  unfold PERMITTED_SUBKEYS.
  change (try_fold (λ _ v, validate_patch_value (S (S n)) (KeyObject [("hostname"%string, KeyAny Replace);
    ("ipv4_addr_in"%string, KeyAny Replace); ("ipv6_addr_in"%string, KeyAny Replace)] Replace) v) (pruned <$> os) tt ≫= mret = Ok tt).
  rewrite Hall; [done|]. intros o. apply (pruned_ok o).
Qed.

Lemma distinct_array l : Forall distinct_keys l → distinct_keys (Array l).
Proof. induction 1; [done|]. by split. Qed.

(** C26: Settings can be moved with a patch: the patch that is exported is accepted,
    by any settings without overrides, and gives them exactly the overrides of the
    exported ones, in order, except those that override nothing; nothing else changes,
    apart from what is never written to JSON ([persisted]). *)
Theorem patch_round_trip s text t :
  overrides_ok s → export_settings s = Ok text → s_relay_overrides t = [] → is_ok (settings_to_value t) = true →
  merge_validate_patch_inner t text = Ok (persisted t <| s_relay_overrides := exported s |>).
Proof.
  intros Hok He Ht Hjson. destruct (settings_to_value t) as [sv|] eqn:Esv; [|done]. assert (NoDup (ro_hostname <$> exported s)) as Hnd.
  { unfold exported, overrides_ok in *. induction (s_relay_overrides s) as [|o os IH]; [constructor|].
    rewrite fmap_cons in Hok. apply NoDup_cons in Hok as [Ho Hok]. cbn [List.filter].
    destruct (negb _); [|by apply IH]. rewrite fmap_cons. apply NoDup_cons. split; [|by apply IH].
    intros (o' & E & [Hin _]%filter_true_subset)%list_elem_of_fmap. apply Ho. rewrite E. by apply list_elem_of_fmap_2. }
  assert (mapM override_from_value (pruned <$> exported s) = Some (exported s)) as Hm.
  { clear. induction (exported s) as [|o os IH]; [done|]. rewrite fmap_cons. cbn [mapM].
    destruct (pruned_ok o) as (_ & -> & _). cbn. by rewrite IH. }
  unfold export_settings, export_settings_inner in He. rewrite export_entries in He. fold (exported s) in He.
  destruct (print_value _) as [text'|] eqn:Ep in He; [|done]. injection He as ->.
  unfold merge_validate_patch_inner. rewrite Esv. cbn [mbind result_bind map_err].
  destruct (exported s) as [|o os] eqn:E.
  - rewrite (print_round_trip _ _ Ep) by (split; [constructor|done]). cbn.
    rewrite (from_value_same t) by done. by destruct t; cbn in *; subst.
  - rewrite fmap_cons in Ep. change (pruned o :: (pruned <$> os)) with (pruned <$> (o :: os)) in Ep.
    rewrite <- E in *. clear E o os.
    assert (distinct_keys (Array (pruned <$> exported s))) as Hd.
    { apply distinct_array, Forall_fmap, Forall_forall. intros o _. apply (pruned_ok o). }
    rewrite (print_round_trip _ _ Ep) by (split; [apply NoDup_singleton|done]).
    rewrite (validate_exported 11), (merged_value 13 t), Ht by done. cbn [mbind result_bind].
    rewrite (merge_new_entries _ []) by (cbn; rewrite list_fmap_compose; by apply NoDup_fmap_2; [apply _|]).
    cbn [app mbind result_bind]. by rewrite (from_value_overrides t), Hm.
Qed.
End Patch.
