(* ===== verification/GeoIp.v ===== *)
(** * The location of the device (mullvad-daemon/src/geoip.rs)

    The daemon asks am.i.mullvad.net which address its traffic comes from, over IPv4
    and if wanted over IPv6, and numbers its requests to recognize old answers.  What
    the service answers is an argument. *)

From S2P Require Import Prelude NetTypes Retry DeviceService TunnelParams.

(** mullvad-types/src/location.rs; coordinates are the bits of floating-point numbers. *)
Record AmIMullvad : Set := {
  am_ip : IpAddr;
  am_country : string;
  am_city : option string;
  am_latitude : Z;
  am_longitude : Z;
  am_mullvad_exit_ip : bool
}.
Definition GeoIpLocation_from (l : AmIMullvad) : GeoIpLocation :=
  let '(ipv4, ipv6) := match am_ip l with AddrV4 v4 => (Some v4, None) | AddrV6 v6 => (None, Some v6) end in
  {| geo_ipv4 := ipv4; geo_ipv6 := ipv6; geo_country := am_country l; geo_city := am_city l;
     geo_latitude := am_latitude l; geo_longitude := am_longitude l; mullvad_exit_ip := am_mullvad_exit_ip l;
     geo_hostname := None; bridge_hostname := None; entry_hostname := None; obfuscator_hostname := None |}.

Record LocationEventData : Set := { event_request_id : Z; event_location : GeoIpLocation }.

(** 1 second, then four times as long every time. *)
Definition LOCATION_RETRY_STRATEGY : ExponentialBackoff := ExponentialBackoff_new (1 * 10 ^ 9) 4.

(** What the two servers answer to one request. *)
Record LocationReplies : Set := {
  v4_reply : result rest.Error AmIMullvad;
  v6_reply : result rest.Error AmIMullvad
}.
Definition send_location_request (use_ipv6 : bool) (replies : LocationReplies) : result rest.Error GeoIpLocation :=
  let v4_result := GeoIpLocation_from <$> v4_reply replies in
  let v6_result := if use_ipv6 then Some (GeoIpLocation_from <$> v6_reply replies) else None in
  match v4_result, v6_result with
  | Ok v4, Some (Ok v6) =>
      Ok (v4 <| geo_ipv6 := geo_ipv6 v6 |> <| mullvad_exit_ip := mullvad_exit_ip v4 && mullvad_exit_ip v6 |>)
  | Ok v4, None => Ok v4
  | Ok v4, Some (Err _) => Ok v4
  | Err _, Some (Ok v6) => Ok v6
  | Err e_v4, _ => Err e_v4
  end.

(** At most [fuel] attempts are followed; the code retries without end. *)
Definition get_geo_location_with_retry (jitter : nat → Z → Z) (fuel : nat) (use_ipv6 : bool) (replies : nat → LocationReplies) :
    option (result rest.Error GeoIpLocation) :=
  (λ x, x.1.1) <$> retry_future (Jittered_next jitter ExponentialBackoff_next)
    (λ n, send_location_request use_ipv6 (replies n))
    (λ _ r, match r with Err error => rest.is_network_error error | Ok _ => false end)
    fuel 0 (0%nat, LOCATION_RETRY_STRATEGY).

(** The number of the last request; [usize] has 64 bits. *)
Definition next_request_id (request_id : Z) : Z := wrap 64 (request_id + 1).

(** A location says that traffic leaves through Mullvad only if no server that answered
    says otherwise. *)
Lemma location_exit use_ipv6 replies l :
  send_location_request use_ipv6 replies = Ok l → mullvad_exit_ip l = true →
  (∀ r, v4_reply replies = Ok r → am_mullvad_exit_ip r = true) ∧
  (use_ipv6 = true → ∀ r, v6_reply replies = Ok r → am_mullvad_exit_ip r = true).
Proof.
  unfold send_location_request. destruct (v4_reply replies) as [[[] ? ? ? ? ?]|], use_ipv6, (v6_reply replies) as [[[] ? ? ? ? ?]|]; cbn;
    intros [= <-]; cbn; rewrite ?andb_true_iff; naive_solver.
Qed.
