(* ===== verification/SplitTunnel.v ===== *)
(** * Processes outside of the tunnel (talpid-core/src/split_tunnel/linux.rs)

    On Linux a process is excluded from the tunnel by moving it to a control group of
    the net_cls controller, whose packets the firewall and the routing table
    recognize (LinuxFirewall.v).  A process is moved by writing its number to the
    file [cgroup.procs] of a group.  The state here is the kernel's list of the
    processes in the group for excluded ones. *)

From S2P Require Import Prelude.


Inductive SplitTunnelError : Set :=
| InitNetClsCGroup
| CreateCGroup
| Unavailable
| SetCGroupClassId
| AddCGroupPid
| RemoveCGroupPid
| ListCGroupPids
| ListMounts.

(** The processes excluded are meaningful only if the group could be set up. *)
Record PidManager : Set := { pm_inner : result SplitTunnelError unit; pm_excluded : list Z }.
#[global] Instance PidManager_eta : Eta PidManager := λ x, {| pm_inner := pm_inner x; pm_excluded := pm_excluded x |}.

(** What the system answers while the group is set up. *)
Record SetupAnswers : Set := {
  find_net_cls_mount : result unit bool;
  dir_exists : bool;
  create_dir_ok : bool;
  mount_ok : bool;
  exclusions_exist : bool;
  create_exclusions_ok : bool;
  write_classid_ok : bool;
  present : list Z
}.
Definition create_cgroup (a : SetupAnswers) : result SplitTunnelError unit :=
  match find_net_cls_mount a with
  | Err _ => Err ListMounts
  | Ok true => Ok tt
  | Ok false =>
      if negb (dir_exists a) && negb (create_dir_ok a) then Err CreateCGroup
      else if mount_ok a then Ok tt else Err InitNetClsCGroup
  end.
Definition setup_exclusion_group (a : SetupAnswers) : result SplitTunnelError unit :=
  if negb (exclusions_exist a) && negb (create_exclusions_ok a) then Err CreateCGroup
  else if write_classid_ok a then Ok tt else Err SetCGroupClassId.
Definition PidManager_default (a : SetupAnswers) : PidManager :=
  {| pm_inner := _ ← create_cgroup a; setup_exclusion_group a; pm_excluded := present a |}.

Definition get_net_cls_path (m : PidManager) : result SplitTunnelError unit := map_err (λ _, Unavailable) (pm_inner m).
Definition is_enabled (m : PidManager) : bool := is_ok (pm_inner m).

(** Whether the file can be opened and read, and which processes the kernel moves. *)
Record PidAnswers : Set := { opens : bool; reads : bool; moves : Z → bool }.

Definition pid_add (a : PidAnswers) (pid : Z) (m : PidManager) : result SplitTunnelError unit * PidManager :=
  match get_net_cls_path m with
  | Err e => (Err e, m)
  | Ok _ =>
      if negb (opens a) then (Err AddCGroupPid, m)
      else if moves a pid
        then (Ok tt, m <| pm_excluded ::= λ l, if decide (pid ∈ l) then l else l ++ [pid] |>)
        else (Err AddCGroupPid, m)
  end.

(** Writing a number to the file of the parent group. *)
Definition move_to_parent (a : PidAnswers) (pid : Z) (m : PidManager) : result SplitTunnelError unit * PidManager :=
  if moves a pid then (Ok tt, m <| pm_excluded ::= List.filter (λ p, negb (p =? pid)) |>) else (Err RemoveCGroupPid, m).
Definition pid_remove (a : PidAnswers) (pid : Z) (m : PidManager) : result SplitTunnelError unit * PidManager :=
  match get_net_cls_path m with
  | Err e => (Err e, m)
  | Ok _ => if negb (opens a) then (Err RemoveCGroupPid, m) else move_to_parent a pid m
  end.

Definition pid_list (a : PidAnswers) (m : PidManager) : result SplitTunnelError (list Z) :=
  match get_net_cls_path m with
  | Err e => Err e
  | Ok _ => if opens a && reads a then Ok (pm_excluded m) else Err ListCGroupPids
  end.

Fixpoint move_all (a : PidAnswers) (pids : list Z) (m : PidManager) : result SplitTunnelError unit * PidManager :=
  match pids with
  | [] => (Ok tt, m)
  | pid :: pids =>
      match move_to_parent a pid m with
      | (Err e, m) => (Err e, m)
      | (Ok _, m) => move_all a pids m
      end
  end.
(** The processes are listed first; [opens] holds for that file and for that of the
    parent group. *)
Definition pid_clear (a : PidAnswers) (m : PidManager) : result SplitTunnelError unit * PidManager :=
  match pid_list a m with
  | Err e => (Err e, m)
  | Ok pids => if negb (opens a) then (Err RemoveCGroupPid, m) else move_all a pids m
  end.

(** ** Properties *)

Lemma move_all_left a pids m :
  (move_all a pids m).1 = Ok tt →
  pm_excluded (move_all a pids m).2 = List.filter (λ p, negb (existsb (Z.eqb p) pids)) (pm_excluded m).
Proof.
  revert m; induction pids as [|pid pids IH]; intros m; cbn.
  - intros _. induction (pm_excluded m) as [|p l IH]; cbn; congruence.
  - unfold move_to_parent at 1 2. destruct (moves a pid); cbn; [|done]. intros Hr. rewrite IH by done. cbn.
    induction (pm_excluded m) as [|p l IHl]; cbn; [done|]. destruct (Z.eqb_spec p pid) as [->|Hp]; cbn; [done|].
    destruct (existsb _ pids); cbn; congruence.
Qed.

(** Clearing leaves nothing excluded, or says that it could not. *)
Lemma clear_all a m : (pid_clear a m).1 = Ok tt → pm_excluded (pid_clear a m).2 = [].
Proof.
  unfold pid_clear, pid_list. destruct (get_net_cls_path m); cbn; [|done]. destruct (opens a && reads a); cbn; [|done].
  destruct (negb (opens a)); cbn; [done|]. intros Hr. rewrite move_all_left by done.
  assert (∀ l, (∀ p, p ∈ l → p ∈ pm_excluded m) →
    List.filter (λ p, negb (existsb (Z.eqb p) (pm_excluded m))) l = []) as H; [|by apply H].
  induction l as [|p l IH]; cbn; [done|]. intros Hl.
  replace (existsb (Z.eqb p) (pm_excluded m)) with true; cbn; [by apply IH; set_solver|].
  symmetry. apply existsb_exists. exists p. split; [|apply Z.eqb_refl]. apply list_elem_of_In, Hl. set_solver.
Qed.

(** A process that was added is listed and one that was removed is not. *)
Lemma added_listed a pid m : (pid_add a pid m).1 = Ok tt → pid ∈ pm_excluded (pid_add a pid m).2.
Proof.
  unfold pid_add. destruct (get_net_cls_path m); cbn; [|done]. destruct (negb (opens a)); [done|].
  destruct (moves a pid); [|done]. cbn. intros _. case_decide; [done|]. set_solver.
Qed.
Lemma removed_not_listed a pid m : (pid_remove a pid m).1 = Ok tt → pid ∉ pm_excluded (pid_remove a pid m).2.
Proof.
  unfold pid_remove, move_to_parent. destruct (get_net_cls_path m); cbn; [|done]. destruct (negb (opens a)); [done|].
  destruct (moves a pid); [|done]. cbn. intros _ Hin. apply list_elem_of_In, filter_In in Hin as [_ Hin].
  by rewrite Z.eqb_refl in Hin.
Qed.
