(* ===== verification/DaemonTypes.v ===== *)
(** * The daemon: data, state and primitives (mullvad-daemon/src/lib.rs)

    [Daemon] is the state of the daemon's event loop and of what it shares with
    others: the settings, the target state, the parameters generator with the relay
    selector, the API availability.  Handlers are in the monad [M] of functions on
    that state.  What they send is put on [d_out], the last one first: commands to the
    tunnel state machine, notifications of the clients, answers to requests, messages
    to the other actors.  A request is a number, the name of its reply channel.
    Events the daemon sends to itself are in [d_queue], tasks it spawned in [d_tasks].

    What the rest of the system answers while an event is handled is in [Env]: the
    clock, the outcome of writing files, and the answers of other actors. *)

From S2P Require Import Prelude NetTypes TunnelTypes TunnelStates Constraints RelayTypes CustomLists RelayMatcher RelaySelector.
From S2P Require Import Versions VersionRouter AccessMethods AccessMode Availability DeviceService AccountManager DaemonSettings.
From S2P Require Import SettingsPersister TargetState TunnelParams SettingsPatch GeoIp SplitTunnel.

(** ** The tunnel state clients see (mullvad-types/src/states.rs) *)

Abbreviation FeatureIndicators := (gset FeatureIndicator).
Inductive TunnelState : Set :=
| TsDisconnected (location : option GeoIpLocation) (locked_down : bool)
| TsConnecting (endpoint : TunnelEndpoint) (location : option GeoIpLocation) (features : FeatureIndicators)
| TsConnected (endpoint : TunnelEndpoint) (location : option GeoIpLocation) (features : FeatureIndicators)
| TsDisconnecting (after : ActionAfterDisconnect)
| TsError (error : tunnel.ErrorState).

Definition is_in_error_state (s : TunnelState) : bool := match s with TsError _ => true | _ => false end.
Definition is_connected (s : TunnelState) : bool := match s with TsConnected _ _ _ => true | _ => false end.
Definition is_disconnected (s : TunnelState) : bool := match s with TsDisconnected _ _ => true | _ => false end.
Definition ts_endpoint (s : TunnelState) : option TunnelEndpoint :=
  match s with TsConnecting e _ _ | TsConnected e _ _ => Some e | _ => None end.
Definition get_tunnel_type (s : TunnelState) : option TunnelType := tunnel_type <$> ts_endpoint s.
Definition get_location (s : TunnelState) : option GeoIpLocation :=
  match s with TsConnected _ l _ | TsConnecting _ l _ | TsDisconnected l _ => l | _ => None end.

(** ** Devices as clients see them (mullvad-types/src/device.rs, device/mod.rs) *)

Record AccountAndDevice : Set := { ad_account_number : AccountNumber; ad_device : Device }.
Inductive DeviceState : Set := DsLoggedIn (d : AccountAndDevice) | DsLoggedOut | DsRevoked.
Inductive DeviceEventCause : Set := CauseLoggedIn | CauseLoggedOut | CauseRevoked | CauseUpdated | CauseRotatedKey.
Record DeviceEvent : Set := { de_cause : DeviceEventCause; new_state : DeviceState }.

Definition AccountAndDevice_from `{Keys} (c : PrivateAccountAndDevice) : AccountAndDevice :=
  {| ad_account_number := account_number c; ad_device := Device_from (device c) |}.
Definition DeviceState_from `{Keys} (s : PrivateDeviceState) : DeviceState :=
  match s with
  | LoggedIn dev => DsLoggedIn (AccountAndDevice_from dev)
  | LoggedOut => DsLoggedOut
  | Revoked => DsRevoked
  end.
Definition DeviceEvent_from `{Keys} (e : PrivateDeviceEvent) : DeviceEvent :=
  {| de_cause := match e with
                 | EvLogin _ => CauseLoggedIn
                 | EvLogout => CauseLoggedOut
                 | EvRevoked => CauseRevoked
                 | EvUpdated _ => CauseUpdated
                 | EvRotatedKey _ => CauseRotatedKey
                 end;
     new_state := DeviceState_from (event_state e) |}.

(** mullvad-types/src/wireguard.rs. *)
Record PublicKey : Set := { pk_key : string; pk_created : Z }.
Definition get_public_key `{Keys} (w : WireguardData) : PublicKey :=
  {| pk_key := DeviceService.public_key (private_key w); pk_created := wg_created w |}.

(** ** Errors *)

(** mullvad-api/src/access_mode.rs. *)
Inductive AccessModeError : Set := SendFailed | OneshotSendFailed | NotRunning | ResolveFailed (method : AccessMethod).
(** mullvad-daemon/src/access_method.rs. *)
Inductive MethodError : Set :=
| NoSuchMethod (id : Z)
| ApiService (e : AccessModeError)
| RestOf (e : rest.Error)
| SettingsOf (e : SettingsPersister.Error).
Inductive FactoryResetFailure : Set := ClearHistory | ResetSettingsFailed | ClearDirectories.

(** mullvad-daemon/src/version/mod.rs. *)
Inductive VersionError : Set :=
| ReadVersionCache | WriteVersionCache | SerializeVersion | DeserializeVersion | DownloadVersion | ApiCheck | MissingStable
| OutdatedVersion | VersionUpdaterDown | VersionRouterClosed | UpdateAborted.

(** The errors the handlers below answer with. *)
Inductive Error : Set :=
| RestError (e : rest.Error)
| LoginError (e : DeviceService.Error)
| LogoutError (e : DeviceService.Error)
| KeyRotationError (e : DeviceService.Error)
| ListDevicesError (e : DeviceService.Error)
| RemoveDeviceError (e : DeviceService.Error)
| UpdateDeviceError (e : DeviceService.Error)
| VoucherSubmissionError (e : DeviceService.Error)
| AlreadyLoggedIn
| NoAccountNumber
| SettingsError (e : SettingsPersister.Error)
| HistoryError (e : TargetState.HistoryError)
| FactoryResetError (what : FactoryResetFailure)
| CustomListError (e : CustomLists.Error)
| AccessMethodErr (e : MethodError)
| ApiConnectionModeError (e : AccessModeError)
| VersionCheckError (e : VersionError)
| NoCustomProxySaved.

(** ** Commands and events *)

Inductive DaemonCommand : Set :=
| SetTargetState (tx : Tx) (state : TargetState)
| Reconnect (tx : Tx)
| GetState (tx : Tx)
| CreateNewAccount (tx : Tx)
| GetAccountData (tx : Tx) (number : AccountNumber)
| GetWwwAuthToken (tx : Tx)
| SubmitVoucher (tx : Tx) (voucher : string)
| GetAccountHistory (tx : Tx)
| ClearAccountHistory (tx : Tx)
| GetRelayLocations (tx : Tx)
| UpdateRelayLocations
| LoginAccount (tx : Tx) (number : AccountNumber)
| LogoutAccount (tx : Tx)
| GetDevice (tx : Tx)
| UpdateDevice (tx : Tx)
| ListDevices (tx : Tx) (number : AccountNumber)
| RemoveDevice (tx : Tx) (number : AccountNumber) (device_id : DeviceId)
| SetRelaySettings (tx : Tx) (update : RelaySettings)
| SetAllowLan (tx : Tx) (allow_lan : bool)
| SetShowBetaReleases (tx : Tx) (enabled : bool)
| SetLockdownMode (tx : Tx) (lockdown_mode : bool)
| SetAutoConnect (tx : Tx) (auto_connect : bool)
| SetOpenVpnMssfix (tx : Tx) (mssfix : option Z)
| SetBridgeSettings (tx : Tx) (settings : BridgeSettings)
| SetBridgeState (tx : Tx) (state : BridgeState)
| SetEnableIpv6 (tx : Tx) (enable_ipv6 : bool)
| SetEnableRecents (tx : Tx) (enable_recents : bool)
| SetQuantumResistantTunnel (tx : Tx) (state : QuantumResistantState)
| SetEnableDaita (tx : Tx) (value : bool)
| SetDaitaUseMultihopIfNecessary (tx : Tx) (value : bool)
| SetDaitaSettings (tx : Tx) (settings : DaitaSettings)
| SetDnsOptions (tx : Tx) (options : DnsOptions)
| SetRelayOverride (tx : Tx) (o : RelayOverride)
| ClearAllRelayOverrides (tx : Tx)
| SetWireguardMtu (tx : Tx) (mtu : option Z)
| SetWireguardAllowedIps (tx : Tx) (ips : Constraint AllowedIps)
| SetWireguardRotationInterval (tx : Tx) (interval : option Z)
| GetSettings (tx : Tx)
| ResetSettings (tx : Tx)
| RotateWireguardKey (tx : Tx)
| GetWireguardKey (tx : Tx)
| CreateCustomList (tx : Tx) (name : string) (locations : gset GeographicLocationConstraint)
| DeleteCustomList (tx : Tx) (id : Z)
| UpdateCustomList (tx : Tx) (new_list : CustomList)
| ClearCustomLists (tx : Tx)
| AddApiAccessMethod (tx : Tx) (name : string) (enabled : bool) (method : AccessMethod)
| RemoveApiAccessMethod (tx : Tx) (id : Z)
| SetApiAccessMethod (tx : Tx) (id : Z)
| UpdateApiAccessMethod (tx : Tx) (method : AccessMethodSetting)
| ClearCustomApiAccessMethods (tx : Tx)
| GetCurrentAccessMethod (tx : Tx)
| TestApiAccessMethodById (tx : Tx) (id : Z)
| TestCustomApiAccessMethod (tx : Tx) (proxy : CustomProxy)
| GetVersionInfo (tx : Tx)
| IsPerformingPostUpgrade (tx : Tx)
| GetCurrentVersion (tx : Tx)
| FactoryReset (tx : Tx)
| SplitTunnelIsEnabled (tx : Tx)
| GetSplitTunnelProcesses (tx : Tx)
| AddSplitTunnelProcess (tx : Tx) (pid : Z)
| RemoveSplitTunnelProcess (tx : Tx) (pid : Z)
| ClearSplitTunnelProcesses (tx : Tx)
| SetObfuscationSettings (tx : Tx) (settings : ObfuscationSettings)
| PrepareRestart (shutdown : bool)
| ApplyJsonSettings (tx : Tx) (blob : string)
| ExportJsonSettings (tx : Tx)
| GetFeatureIndicators (tx : Tx)
| UpdateDefaultLocationCountry (tx : Tx)
| DisableRelay (tx : Tx) (relay : string)
| EnableRelay (tx : Tx) (relay : string)
| AppUpgrade (tx : Tx)
| AppUpgradeAbort (tx : Tx)
| GetAppUpgradeCacheDir (tx : Tx).

Inductive InternalDaemonEvent : Set :=
| TunnelStateTransition_ (transition : TunnelStateTransition)
| Command (command : DaemonCommand)
| TriggerShutdown (user_init : bool)
| NewAppVersionInfo (info : AppVersionInfo)
| DeviceEvent_ (event : AccountEvent)
| AccessMethodEvent_ (event : AccessMethodEvent) (endpoint_active_tx : Tx)
| DeviceMigrationEvent (r : result DeviceService.Error PrivateAccountAndDevice)
| LocationEvent (data : LocationEventData)
| SettingsChanged
| LeakDetected.

(** ** What the daemon sends *)

(** The values answered with. *)
Inductive Reply : Type :=
| ReBool (b : bool)
| ReState (s : TunnelState)
| ReUnit (r : result Error unit)
| ReSaved (r : result SettingsPersister.Error unit)
| ReText (r : result Error string)
| ReAccountData (r : result rest.Error AccountData)
| ReVoucher (r : result Error VoucherSubmission)
| ReHistory (number : option AccountNumber)
| ReRelays (l : RelayList)
| ReDevice (r : result Error DeviceState)
| ReDevices (r : result Error (list Device))
| ReKey (r : result Error (option PublicKey))
| ReId (r : result Error Z)
| ReMethod (r : result Error AccessMethodSetting)
| ReTest (r : result Error bool)
| ReSettings (s : Settings)
| ReVersionInfo (r : result Error AppVersionInfo)
| ReVersion (v : Version)
| RePids (r : result SplitTunnelError (list Z))
| RePid (r : result SplitTunnelError unit)
| RePatch (r : result patch.Error unit)
| ReExport (r : result patch.Error string)
| ReFeatures (f : FeatureIndicators)
| ReDone
| RePath (p : string).

(** To the clients ([management_interface.notifier()]). *)
Inductive Notification : Type :=
| NotifyState (s : TunnelState)
| NotifySettings (s : Settings)
| NotifyRelayList (l : RelayList)
| NotifyAppVersion (info : AppVersionInfo)
| NotifyDevice (e : DeviceEvent)
| NotifyRemoveDevice (number : AccountNumber) (new_devices : list Device)
| NotifyAccessMethod (s : AccessMethodSetting).

Inductive Output : Type :=
| ToTunnel (c : TunnelCommand)
| SpawnTunnel (initial : InitialTunnelState)
| Respond (tx : Tx) (r : Reply)
| Notify (n : Notification)
| ResetApiSockets
| ResetLocationSockets
| ToAccountManager (c : AccountManagerCommand)
| ToAccessMode (m : AccessMode.Message)
| UpdateRelayList
| SetBetaProgram_ (enabled : bool)
| SaveConnectionMode (m : ApiConnectionMode).

(** Tasks, with what they own. *)
Inductive Task : Type :=
| TaskCreateNewAccount (tx : Tx)
| TaskGetAccountData (tx : Tx) (number : AccountNumber)
| TaskGetWwwAuthToken (tx : Tx) (number : AccountNumber)
| TaskSubmitVoucher (tx : Tx) (voucher : string)
| TaskLogin (tx : Tx) (number : AccountNumber)
| TaskLogout (tx : Tx)
| TaskGetDevice (tx : Tx)
| TaskUpdateDevice (tx : Tx)
| TaskListDevices (tx : Tx) (number : AccountNumber)
| TaskRemoveDevice (tx : Tx) (number : AccountNumber) (device_id : DeviceId)
| TaskGetVersionInfo (tx : Tx)
| TaskRotateKey (tx : Tx)
| TaskGetCurrentAccessMethod (tx : Tx)
| TaskTestMethod (tx : Tx) (endpoint : AllowedEndpoint)
  (* the endpoint is allowed; the one to go back to *)
| TaskTestRunning (tx : Tx) (reset : AllowedEndpoint)
| TaskSetShowBetaReleases (enabled : bool)
| TaskRotateAccessMethod
| TaskSetRotationInterval (interval : Z)
| TaskUpdateAccessMethods (methods : access_methods.Settings)
| TaskSaveConnectionMode (m : ApiConnectionMode)
  (* [oneshot_map]: answers [tx] when the command with that channel has been handled *)
| TaskForwardAck (ack tx : Tx)
| TaskEndpointActive (ack endpoint_active_tx : Tx) (setting : option AccessMethodSetting)
| TaskLocation (request_id : Z) (use_ipv6 : bool)
| TaskDeviceMigration (r : result DeviceService.Error PrivateAccountAndDevice).

(** ** State *)

(** A reconnect that is due at a time; once it was triggered only its handle is left. *)
Record ReconnectJob : Set := { due : Z; triggered : bool }.
(** The event loop, the wait for the tunnel, and the end. *)
Inductive Phase : Set := Running | Stopping | Stopped.
#[global] Instance Phase_eq_dec : EqDecision Phase.
Proof. solve_decision. Defined.

Record Daemon : Type := {
  d_tunnel_state : TunnelState;
  d_target_state : PersistentTargetState;
  d_exclude_pids : PidManager;
  d_reconnection_job : option ReconnectJob;
  d_settings : SettingsPersister;
  d_account_history : AccountHistory;
  d_device_checker : Handler;
  d_availability : ApiAvailabilityState;
  d_parameters_generator : ParametersGenerator;
  d_param_gen : list TunnelOptions;
  d_request_id : Z;
  d_migration_complete : bool;
  d_shutdown_tasks : list (Tx * option FactoryResetFailure);
  d_phase : Phase;
  d_next_tx : Tx;
  d_queue : list InternalDaemonEvent;
  d_tasks : list Task;
  d_out : list Output
}.
#[global] Instance Daemon_eta : Eta Daemon := λ x, {|
  d_tunnel_state := d_tunnel_state x; d_target_state := d_target_state x; d_exclude_pids := d_exclude_pids x;
  d_reconnection_job := d_reconnection_job x; d_settings := d_settings x; d_account_history := d_account_history x;
  d_device_checker := d_device_checker x; d_availability := d_availability x;
  d_parameters_generator := d_parameters_generator x; d_param_gen := d_param_gen x; d_request_id := d_request_id x;
  d_migration_complete := d_migration_complete x; d_shutdown_tasks := d_shutdown_tasks x; d_phase := d_phase x;
  d_next_tx := d_next_tx x; d_queue := d_queue x; d_tasks := d_tasks x; d_out := d_out x |}.

(** The relay selector is shared with the parameters generator and the resolver of
    access methods. *)
Definition relay_selector (d : Daemon) : RelaySelector := pg_relay_selector (d_parameters_generator d).
Definition settings (d : Daemon) : Settings := p_settings (d_settings d).
Definition target_state (d : Daemon) : TargetState := ts_state (d_target_state d).

Record Env : Type := {
  now : Z;
  io : nat → Io;
  target_write : WriteOutcome;
  history_save : SaveOutcome;
  account_data : result DeviceService.Error PrivateDeviceState;
  use_method_reply : result AccessModeError unit;
  resolve_reply : result AccessModeError (option ResolvedConnectionMode);
  pid_answers : PidAnswers;
  new_v4 : Z;
  directories_cleared : bool;
  target_remove_fails : bool
}.

(** ** Primitives *)

Abbreviation M := (stateM Daemon).
Definition get : M Daemon := λ d, (d, d).
Definition modify_daemon (f : Daemon → Daemon) : M unit := λ d, (tt, f d).
Definition when (b : bool) (m : M unit) : M unit := if b then m else mret tt.

Definition send_out (o : Output) : M unit := modify_daemon (λ d, d <| d_out ::= cons o |>).
Definition oneshot_send (tx : Tx) (r : Reply) : M unit := send_out (Respond tx r).
Definition notify (n : Notification) : M unit := send_out (Notify n).
Definition spawn (t : Task) : M unit := modify_daemon (λ d, d <| d_tasks ::= λ l, l ++ [t] |>).
(** [self.tx.send]. *)
Definition send_self (e : InternalDaemonEvent) : M unit := modify_daemon (λ d, d <| d_queue ::= λ l, l ++ [e] |>).
(** A new channel; the daemon numbers those it makes. *)
Definition channel : M Tx := λ d, (d_next_tx d, d <| d_next_tx ::= S |>).

Definition send_tunnel_command (c : TunnelCommand) : M unit := send_out (ToTunnel c).
Definition connect_tunnel : M unit := send_tunnel_command Connect.
Definition disconnect_tunnel : M unit := send_tunnel_command Disconnect.
Definition reconnect_tunnel : M unit :=
  d ← get; when (bool_decide (target_state d = Secured)) connect_tunnel.

(** [oneshot_map]: a channel that answers [tx] with success when it is used. *)
Definition oneshot_map (tx : Tx) : M Tx := ack ← channel; _ ← spawn (TaskForwardAck ack tx); mret ack.
(** A channel whose receiving end is dropped at once. *)
Definition unused : M Tx := channel.

Definition get_target_tunnel_type (d : Daemon) : option TunnelType := get_tunnel_type (d_tunnel_state d).
Definition get_connected_tunnel_type (d : Daemon) : option TunnelType :=
  match get_tunnel_type (d_tunnel_state d) with
  | Some tunnel_type => if is_connected (d_tunnel_state d) then Some tunnel_type else None
  | None => None
  end.

(** ** Settings and those who are told of changes

    The listeners [start] registers, in order: the clients, the relay selector, the
    access methods, the parameters generator, the daemon itself. *)
Definition set_selector_config (s : Settings) : M unit :=
  modify_daemon (λ d, d <| d_parameters_generator ::= λ p,
    p <| pg_relay_selector ::= set_config (SelectorConfig_from_settings s) |> |>).
Definition on_settings_change (s : Settings) : M unit :=
  _ ← notify (NotifySettings s);
  _ ← set_selector_config s;
  _ ← spawn (TaskUpdateAccessMethods (s_api_access_methods s));
  _ ← modify_daemon (λ d, d <| d_param_gen ::= λ l, l ++ [s_tunnel_options s] |>);
  send_self SettingsChanged.

(** An operation of the persister; for every time it calls the listeners, they run. *)
Definition persister {E A} (op : SettingsPersister → result E A * SettingsPersister) : M (result E A) := λ d,
  let '(r, p) := op (d_settings d) in
  let told := take (length (p_notified p) - length (p_notified (d_settings d))) (p_notified p) in
  (r, foldl (λ d s, (on_settings_change s d).2) (d <| d_settings := p |>) (rev told)).

Section Settings.
Context `{SettingsJson} (beta : bool) (env : Env).

(** The [k]-th access to the settings file while an event is handled. *)
Definition settings_try_update (k : nat) (f : Settings → result UpdateError Settings) :
    M (result SettingsPersister.Error bool) := persister (try_update (io env k) f).
Definition settings_update (k : nat) (f : Settings → Settings) : M (result SettingsPersister.Error bool) :=
  persister (SettingsPersister.update (io env k) f).
Definition settings_reset (k : nat) : M (result SettingsPersister.Error unit) := persister (reset beta (io env k)).

Definition update_recents_ (k : nat) : M unit := _ ← settings_update k update_recents; mret tt.
End Settings.
