(* ===== verification/DaemonCommands.v ===== *)
(** * The daemon: handlers of commands (mullvad-daemon/src/lib.rs)

    One definition for each [on_*] method of the Linux build, with the operations of
    custom_list.rs and access_method.rs they call, and [handle_command].  The methods
    answer some requests themselves and leave others to a task they spawn. *)

From S2P Require Import Prelude NetTypes TunnelTypes TunnelStates Constraints RelayTypes CustomLists RelayMatcher RelaySelector.
From S2P Require Import Versions VersionRouter AccessMethods AccessMode Availability DeviceService AccountManager DaemonSettings.
From S2P Require Import SettingsPersister TargetState TunnelParams SettingsPatch GeoIp SplitTunnel DaemonTypes.
Import relay.

(** ** Countries (mullvad-types/src/relay_list.rs) *)

Definition f64_lt (a b : Z) : bool := negb (f64_is_nan a) && negb (f64_is_nan b) && (f64_key a <? f64_key b).
Definition f64_MAX : Z := 0x7fefffffffffffff.

Section Nearest.
Context `{Host}.
(** All relays with their countries, in order. *)
Definition relays_by_country (l : RelayList) : list (RelayListCountry * Relay) :=
  flat_map (λ c, flat_map (λ city, map (λ r, (c, r)) (city_relays city)) (cities c)) (countries l).
Definition get_nearest_country_with_relay (l : RelayList) (location : Coordinates) : option string :=
  match countries l with
  | [] => None
  | first :: _ =>
      let '(_, nearest) := foldl (λ best cr,
        let distance := distance_from (relay.location cr.2) location in
        if f64_lt distance best.1 then (distance, cr.1) else best) (f64_MAX, first) (relays_by_country l) in
      Some (country_code_ nearest)
  end.
End Nearest.
Definition geo_coordinates (l : GeoIpLocation) : Coordinates :=
  {| co_latitude := geo_latitude l; co_longitude := geo_longitude l |}.

(** ** Marking relays as active *)

(** ASCII letters in lower case: a text is equal to one in lower case of ASCII letters
    other than k exactly if it is so under [to_lowercase]. *)
Definition ascii_to_lower (c : Ascii.ascii) : Ascii.ascii :=
  let n := Ascii.nat_of_ascii c in
  if (65 <=? n)%nat && (n <=? 90)%nat then Ascii.ascii_of_nat (n + 32) else c.
Fixpoint to_lowercase (s : string) : string :=
  match s with EmptyString => EmptyString | String c s => String (ascii_to_lower c) (to_lowercase s) end.

Definition toggle_relay (relay : string) (active : bool) (country : RelayListCountry) (city : RelayListCity) (r : Relay) : Relay :=
  let matching_country := bool_decide (relay = country_name country) in
  let matching_city := bool_decide (relay = city_name city) in
  let matching_protocol := (bool_decide (to_lowercase relay = "openvpn"%string) && is_openvpn r) ||
                           (bool_decide (to_lowercase relay = "wireguard"%string) && relay.is_wireguard r) in
  let matching_relay := bool_decide (relay = hostname r) in
  if matching_relay || matching_city || matching_country || matching_protocol then
    {| hostname := hostname r; ipv4_addr_in := ipv4_addr_in r; ipv6_addr_in := ipv6_addr_in r;
       overridden_ipv4 := overridden_ipv4 r; overridden_ipv6 := overridden_ipv6 r;
       include_in_country := include_in_country r; relay.active := active; owned := owned r; provider := provider r;
       weight := weight r; endpoint_data := endpoint_data r; relay.location := relay.location r |}
  else r.
Definition toggle_relays (relay : string) (active : bool) (l : RelayList) : RelayList :=
  {| etag := etag l;
     countries := map (λ country,
       {| country_name := country_name country; country_code_ := country_code_ country;
          cities := map (λ city,
            {| city_name := city_name city; city_code_ := city_code_ city; city_latitude := city_latitude city;
               city_longitude := city_longitude city;
               city_relays := map (toggle_relay relay active country city) (city_relays city) |}) (cities country) |})
       (countries l);
     openvpn_ports := openvpn_ports l; bridge_shadowsocks := bridge_shadowsocks l;
     wireguard_endpoints := wireguard_endpoints l |}.

Section Commands.
Context `{SettingsJson} `{TargetStateJson} `{PatchJson} `{Keys} `{IpNetworkCrate} `{Host}.
(** Whether this is a beta version, and which version; the number of characters of a text. *)
Context (beta : bool) (VERSION : Version) (chars : string → nat).
Context (env : Env).

Abbreviation update k f := (settings_update env k f).
Abbreviation try_update k f := (settings_try_update env k f).
Definition saved (r : result SettingsPersister.Error bool) : Reply := ReSaved (_ ← r; Ok tt).

(** ** The target state *)

Definition set_target_state (new_state : TargetState) : M bool :=
  d ← get;
  if negb (bool_decide (new_state = target_state d)) || is_in_error_state (d_tunnel_state d) then
    _ ← modify_daemon (λ d, d <| d_target_state ::= ts_set (target_write env) new_state |>);
    d ← get;
    _ ← match target_state d with
        | Secured => connect_tunnel
        | Unsecured => disconnect_tunnel
        end;
    mret true
  else mret false.
Definition on_set_target_state (tx : Tx) (new_target_state : TargetState) : M unit :=
  state_change_initiated ← set_target_state new_target_state;
  oneshot_send tx (ReBool state_change_initiated).
Definition on_reconnect (tx : Tx) : M unit :=
  d ← get;
  if bool_decide (target_state d = Secured) || is_in_error_state (d_tunnel_state d) then
    _ ← connect_tunnel; oneshot_send tx (ReBool true)
  else oneshot_send tx (ReBool false).

(** ** Queries *)

Definition on_get_state (tx : Tx) : M unit := d ← get; oneshot_send tx (ReState (d_tunnel_state d)).
Definition on_is_performing_post_upgrade (tx : Tx) : M unit :=
  d ← get; oneshot_send tx (ReBool (negb (d_migration_complete d))).
Definition on_get_relay_locations (tx : Tx) : M unit := d ← get; oneshot_send tx (ReRelays (get_relays (relay_selector d))).
Definition on_get_account_history (tx : Tx) : M unit := d ← get; oneshot_send tx (ReHistory (history_get (d_account_history d))).
Definition on_get_current_version (tx : Tx) : M unit := oneshot_send tx (ReVersion VERSION).
Definition on_get_settings (tx : Tx) : M unit := d ← get; oneshot_send tx (ReSettings (settings d)).
Definition on_get_feature_indicators (tx : Tx) : M unit :=
  d ← get;
  oneshot_send tx (ReFeatures match d_tunnel_state d with
                              | TsConnecting _ _ f | TsConnected _ _ f => f
                              | _ => ∅
                              end).
Definition on_export_json_settings (tx : Tx) : M unit := d ← get; oneshot_send tx (ReExport (export_settings (settings d))).
Definition on_update_relay_locations : M unit := send_out UpdateRelayList.

(** Built without in-app upgrades. *)
Definition on_app_upgrade (tx : Tx) : M unit := oneshot_send tx (ReUnit (Ok tt)).
Definition on_app_upgrade_abort (tx : Tx) : M unit := oneshot_send tx (ReUnit (Ok tt)).
Definition on_get_app_upgrade_cache_dir (tx : Tx) : M unit := oneshot_send tx (RePath EmptyString).

(** ** Accounts and devices *)

Definition into_device (r : result DeviceService.Error PrivateDeviceState) : option PrivateAccountAndDevice :=
  match r with Ok s => state_device s | Err _ => None end.

Definition on_create_new_account (tx : Tx) : M unit := spawn (TaskCreateNewAccount tx).
Definition on_get_account_data (tx : Tx) (number : AccountNumber) : M unit := spawn (TaskGetAccountData tx number).
Definition on_get_www_auth_token (tx : Tx) : M unit :=
  match into_device (account_data env) with
  | Some device => spawn (TaskGetWwwAuthToken tx (account_number device))
  | None => oneshot_send tx (ReText (Err NoAccountNumber))
  end.
Definition on_submit_voucher (tx : Tx) (voucher : string) : M unit := spawn (TaskSubmitVoucher tx voucher).
Definition on_login_account (tx : Tx) (number : AccountNumber) : M unit := spawn (TaskLogin tx number).
Definition on_logout_account (tx : Tx) : M unit := spawn (TaskLogout tx).
Definition on_get_device (tx : Tx) : M unit := spawn (TaskGetDevice tx).
Definition on_update_device (tx : Tx) : M unit := spawn (TaskUpdateDevice tx).
Definition on_list_devices (tx : Tx) (number : AccountNumber) : M unit := spawn (TaskListDevices tx number).
Definition on_remove_device (tx : Tx) (number : AccountNumber) (id : DeviceId) : M unit := spawn (TaskRemoveDevice tx number id).
Definition on_rotate_wireguard_key (tx : Tx) : M unit := spawn (TaskRotateKey tx).
Definition on_get_wireguard_key (tx : Tx) : M unit :=
  oneshot_send tx (ReKey match into_device (account_data env) with
                         | Some config => Ok (Some (get_public_key (wg_data (device config))))
                         | None => Err NoAccountNumber
                         end).
Definition history_result (r : result TargetState.HistoryError unit) : result Error unit := map_err HistoryError r.
Definition on_clear_account_history (tx : Tx) : M unit :=
  d ← get;
  let '(r, h) := history_clear (history_save env) (d_account_history d) in
  _ ← modify_daemon (λ d, d <| d_account_history := h |>);
  oneshot_send tx (ReUnit (history_result r)).
Definition on_get_version_info (tx : Tx) : M unit := spawn (TaskGetVersionInfo tx).

(** ** Settings that need a new tunnel *)

(** The end of [on_set_relay_settings]. *)
Definition clear_update_default_location (k : nat) : M unit :=
  d ← get;
  when (s_update_default_location (settings d))
    (_ ← update k (λ s, s <| s_update_default_location := false |>); mret tt).
Definition on_set_relay_settings (tx : Tx) (new_settings : RelaySettings) : M unit :=
  r ← update 0 (set_relay_settings new_settings);
  _ ← oneshot_send tx (saved r);
  _ ← match r with Ok changed => when changed reconnect_tunnel | Err _ => mret tt end;
  _ ← clear_update_default_location 1;
  update_recents_ env 2.
Definition on_update_default_location (tx : Tx) : M unit :=
  d ← get;
  let relays := parsed_list (parsed_relays (relay_selector d)) in
  match (if s_update_default_location (settings d) then get_location (d_tunnel_state d) else None) with
  | None => oneshot_send tx (ReSaved (Ok tt))
  | Some location =>
      match (match lookup_country_code_by_name relays (geo_country location) with
             | Some code => Some code
             | None => get_nearest_country_with_relay relays (geo_coordinates location)
             end) with
      | Some country_code => on_set_relay_settings tx (in_country country_code)
      | None => oneshot_send tx (ReSaved (Ok tt))
      end
  end.

Definition on_set_openvpn_mssfix (tx : Tx) (mssfix : option Z) : M unit :=
  r ← update 0 (λ s, s <| s_tunnel_options ::= λ o, o <| to_openvpn := {| openvpn.mssfix := mssfix |} |> |>);
  _ ← oneshot_send tx (saved r);
  d ← get;
  match r with
  | Ok changed => when (changed && bool_decide (get_target_tunnel_type d = Some OpenVpn)) reconnect_tunnel
  | Err _ => mret tt
  end.

Definition on_set_bridge_settings (tx : Tx) (new_settings : BridgeSettings) : M unit :=
  if bool_decide (bs_custom new_settings = None) && bool_decide (bridge_type new_settings = BtCustom) then
    oneshot_send tx (ReUnit (Err NoCustomProxySaved))
  else
    r ← update 0 (λ s, s <| s_bridge_settings := new_settings |>);
    match r with
    | Ok changed =>
        _ ← when changed (_ ← spawn TaskRotateAccessMethod; reconnect_tunnel);
        oneshot_send tx (ReUnit (Ok tt))
    | Err e => oneshot_send tx (ReUnit (Err (SettingsError e)))
    end.

Definition on_set_obfuscation_settings (tx : Tx) (new_settings : ObfuscationSettings) : M unit :=
  r ← update 0 (λ s, s <| s_obfuscation_settings := new_settings |>);
  match r with
  | Ok changed => _ ← when changed reconnect_tunnel; oneshot_send tx (ReSaved (Ok tt))
  | Err err => oneshot_send tx (ReSaved (Err err))
  end.

Definition on_set_bridge_state (tx : Tx) (state : BridgeState) : M unit :=
  r ← update 0 (λ s, s <| s_bridge_state := state |>);
  _ ← match r with Ok changed => when changed reconnect_tunnel | Err _ => mret tt end;
  oneshot_send tx (saved r).

Definition on_set_enable_ipv6 (tx : Tx) (enable_ipv6 : bool) : M unit :=
  r ← update 0 (λ s, s <| s_tunnel_options ::= λ o, o <| to_generic := {| NetTypes.enable_ipv6 := enable_ipv6 |} |> |>);
  _ ← oneshot_send tx (saved r);
  match r with Ok changed => when changed reconnect_tunnel | Err _ => mret tt end.

Definition on_set_quantum_resistant_tunnel (tx : Tx) (state : QuantumResistantState) : M unit :=
  r ← update 0 (λ s, s <| s_tunnel_options ::= λ o,
        o <| to_wireguard ::= λ w, w <| wg_options.quantum_resistant := state |> |> |>);
  _ ← oneshot_send tx (saved r);
  d ← get;
  match r with
  | Ok changed => when (changed && bool_decide (get_target_tunnel_type d = Some Wireguard)) reconnect_tunnel
  | Err _ => mret tt
  end.

(** Whether the relay settings are for WireGuard; not for custom tunnels. *)
Definition normal_wireguard (s : Settings) : bool :=
  match s_relay_settings s with
  | RsNormal constraints => bool_decide (rc_tunnel_protocol constraints = Wireguard)
  | RsCustomTunnelEndpoint _ => false
  end.
Definition set_daita (f : DaitaSettings → DaitaSettings) (s : Settings) : Settings :=
  s <| s_tunnel_options ::= λ o, o <| to_wireguard ::= λ w, w <| wg_options.daita ::= f |> |> |>.
Definition on_set_daita_enabled (tx : Tx) (value : bool) : M unit :=
  r ← update 0 (set_daita (λ o, o <| daita_enabled := value |>));
  _ ← oneshot_send tx (saved r);
  d ← get;
  match r with
  | Ok changed => when (changed && normal_wireguard (settings d)) reconnect_tunnel
  | Err _ => mret tt
  end.
Definition on_set_daita_use_multihop_if_necessary (tx : Tx) (value : bool) : M unit :=
  r ← update 0 (set_daita (λ o, o <| use_multihop_if_necessary := value |>));
  _ ← oneshot_send tx (saved r);
  d ← get;
  match r with
  | Ok changed =>
      let enabled := daita_enabled (wg_options.daita (to_wireguard (s_tunnel_options (settings d)))) in
      when (changed && normal_wireguard (settings d) && enabled) reconnect_tunnel
  | Err _ => mret tt
  end.
Definition on_set_daita_settings (tx : Tx) (daita_settings : DaitaSettings) : M unit :=
  r ← update 0 (set_daita (λ _, daita_settings));
  _ ← oneshot_send tx (saved r);
  d ← get;
  match r with
  | Ok changed => when (changed && negb (bool_decide (get_target_tunnel_type d = Some OpenVpn))) reconnect_tunnel
  | Err _ => mret tt
  end.

Definition on_set_relay_override (tx : Tx) (o : RelayOverride) : M unit :=
  r ← update 0 (set_relay_override o);
  _ ← oneshot_send tx (saved r);
  match r with Ok changed => when changed reconnect_tunnel | Err _ => mret tt end.
Definition on_clear_all_relay_overrides (tx : Tx) : M unit :=
  r ← update 0 (λ s, s <| s_relay_overrides := [] |>);
  _ ← oneshot_send tx (saved r);
  match r with Ok changed => when changed reconnect_tunnel | Err _ => mret tt end.

Definition on_set_wireguard_mtu (tx : Tx) (mtu : option Z) : M unit :=
  r ← update 0 (λ s, s <| s_tunnel_options ::= λ o, o <| to_wireguard ::= λ w, w <| wg_options.mtu := mtu |> |> |>);
  _ ← oneshot_send tx (saved r);
  d ← get;
  match r with
  | Ok changed => when (changed && bool_decide (get_connected_tunnel_type d = Some Wireguard)) reconnect_tunnel
  | Err _ => mret tt
  end.
Definition set_allowed_ips (ips : Constraint AllowedIps) (s : Settings) : Settings :=
  match s_relay_settings s with
  | RsNormal c => s <| s_relay_settings := RsNormal (c <| rc_wireguard_constraints ::= λ w, w <| wc_allowed_ips := ips |> |>) |>
  | RsCustomTunnelEndpoint _ => s
  end.
Definition on_set_wireguard_allowed_ips (tx : Tx) (ips : Constraint AllowedIps) : M unit :=
  r ← update 0 (set_allowed_ips ips);
  _ ← oneshot_send tx (saved r);
  d ← get;
  match r with
  | Ok changed => when (changed && bool_decide (get_connected_tunnel_type d = Some Wireguard)) reconnect_tunnel
  | Err _ => mret tt
  end.

(** ** Settings the tunnel state machine or another actor is told *)

Definition on_set_allow_lan (tx : Tx) (allow_lan : bool) : M unit :=
  r ← update 0 (λ s, s <| s_allow_lan := allow_lan |>);
  match r with
  | Ok true => ack ← oneshot_map tx; send_tunnel_command (AllowLan allow_lan ack)
  | _ => oneshot_send tx (saved r)
  end.
Definition on_set_lockdown_mode (tx : Tx) (lockdown_mode : bool) : M unit :=
  r ← update 0 (λ s, s <| s_lockdown_mode := lockdown_mode |>);
  match r with
  | Ok true => ack ← oneshot_map tx; send_tunnel_command (TunnelStates.SetLockdownMode (LockdownMode_from lockdown_mode) ack)
  | _ => oneshot_send tx (saved r)
  end.
Definition on_set_dns_options (tx : Tx) (options : DnsOptions) : M unit :=
  r ← update 0 (λ s, s <| s_tunnel_options ::= λ o, o <| dns_options := options |> |>);
  d ← get;
  match r with
  | Ok true =>
      let resolvers := addresses_from_options (dns_options (s_tunnel_options (settings d))) in
      ack ← oneshot_map tx; send_tunnel_command (Dns resolvers ack)
  | _ => oneshot_send tx (saved r)
  end.

Definition on_set_show_beta_releases (tx : Tx) (enabled : bool) : M unit :=
  r ← update 0 (λ s, s <| s_show_beta_releases := enabled |>);
  _ ← oneshot_send tx (saved r);
  match r with Ok changed => when changed (spawn (TaskSetShowBetaReleases enabled)) | Err _ => mret tt end.
Definition on_set_auto_connect (tx : Tx) (auto_connect : bool) : M unit :=
  r ← update 0 (λ s, s <| s_auto_connect := auto_connect |>); oneshot_send tx (saved r).
Definition enable_recents (enable : bool) (s : Settings) : Settings :=
  match s_recents s with
  | None => if enable then update_recents (s <| s_recents := Some [] |>) else s
  | Some _ => if enable then s else s <| s_recents := None |>
  end.
Definition on_set_enable_recents (tx : Tx) (enable : bool) : M unit :=
  r ← update 0 (enable_recents enable); oneshot_send tx (saved r).

Definition ask_account_manager (c : Tx → AccountManagerCommand) : M unit := tx ← channel; send_out (ToAccountManager (c tx)).
Definition on_set_wireguard_rotation_interval (tx : Tx) (interval : option Z) : M unit :=
  r ← update 0 (λ s, s <| s_tunnel_options ::= λ o,
        o <| to_wireguard ::= λ w, w <| wg_options.rotation_interval := interval |> |> |>);
  _ ← oneshot_send tx (saved r);
  match r with
  | Ok changed => when changed (ask_account_manager (CmdSetRotationInterval (default RotationInterval_default interval)))
  | Err _ => mret tt
  end.

Definition on_reset_settings (tx : Tx) : M unit :=
  r ← settings_reset beta env 0;
  _ ← oneshot_send tx (ReSaved r);
  d ← get;
  let s := settings d in
  tx ← unused;
  _ ← send_tunnel_command (TunnelStates.SetLockdownMode (LockdownMode_from (s_lockdown_mode s)) tx);
  tx ← unused;
  _ ← send_tunnel_command (AllowLan (s_allow_lan s) tx);
  tx ← unused;
  _ ← send_tunnel_command (Dns (addresses_from_options (dns_options (s_tunnel_options s))) tx);
  _ ← spawn (TaskSetShowBetaReleases (s_show_beta_releases s));
  _ ← spawn TaskRotateAccessMethod;
  _ ← spawn (TaskSetRotationInterval (default RotationInterval_default
               (wg_options.rotation_interval (to_wireguard (s_tunnel_options s)))));
  reconnect_tunnel.

Definition on_apply_json_settings (tx : Tx) (blob : string) : M unit :=
  r ← persister (merge_validate_patch (io env 0) blob);
  _ ← when (is_ok r) reconnect_tunnel;
  oneshot_send tx (RePatch r).

(** ** Custom lists (custom_list.rs) *)

Definition set_custom_lists (f : list CustomList → result CustomLists.Error (list CustomList)) (s : Settings) :
    result UpdateError Settings :=
  ls ← map_err OfCustomLists (f (s_custom_lists s)); Ok (s <| s_custom_lists := ls |>).

Definition create_custom_list (name : string) (locations : gset GeographicLocationConstraint) : M (result Error Z) :=
  match CustomList_new chars (new_v4 env) name with
  | Err e => mret (Err (CustomListError e))
  | Ok new_list =>
      let new_list := CustomLists.append new_list locations in
      r ← try_update 0 (set_custom_lists (CustomLists.add new_list));
      mret match r with Ok _ => Ok (CustomLists.id new_list) | Err e => Err (SettingsError e) end
  end.

Definition selects (custom_list_id : option Z) (c : Constraint LocationConstraint) : bool :=
  match c with
  | Only (LcCustomList list_id) => match custom_list_id with Some id => id =? list_id | None => true end
  | _ => false
  end.
Definition change_should_cause_reconnect (custom_list_id : option Z) (d : Daemon) : bool :=
  match s_relay_settings (settings d) with
  | RsCustomTunnelEndpoint _ => false
  | RsNormal relay_settings =>
      selects custom_list_id (rc_location relay_settings) ||
      match ts_endpoint (d_tunnel_state d) with
      | None => false
      | Some endpoint =>
          match tunnel_type endpoint with
          | Wireguard =>
              let w := rc_wireguard_constraints relay_settings in
              wc_use_multihop w && selects custom_list_id (wc_entry_location w)
          | OpenVpn =>
              negb (bool_decide (s_bridge_state (settings d) = BsOff)) &&
              match bridge_settings_resolve (s_bridge_settings (settings d)) with
              | Ok (RbNormal bridge_settings) => selects custom_list_id (bc_location bridge_settings)
              | _ => false
              end
          end
      end
  end.

(** What follows a change of the lists. *)
Definition custom_lists_changed (custom_list_id : option Z) (r : result SettingsPersister.Error bool) : M (result Error unit) :=
  _ ← match r with
      | Ok true =>
          d ← get;
          _ ← set_selector_config (settings d);
          when (change_should_cause_reconnect custom_list_id d) reconnect_tunnel
      | _ => mret tt
      end;
  mret match r with Ok _ => Ok tt | Err e => Err (SettingsError e) end.
Definition delete_custom_list (id : Z) : M (result Error unit) :=
  r ← try_update 0 (set_custom_lists (CustomLists.remove id)); custom_lists_changed (Some id) r.
Definition update_custom_list (new_list : CustomList) : M (result Error unit) :=
  r ← try_update 0 (set_custom_lists (CustomLists.update new_list)); custom_lists_changed (Some (CustomLists.id new_list)) r.
Definition clear_custom_lists : M (result Error unit) :=
  r ← update 0 (λ s, s <| s_custom_lists ::= CustomLists.clear |>); custom_lists_changed None r.

Definition on_create_custom_list (tx : Tx) (name : string) (locations : gset GeographicLocationConstraint) : M unit :=
  r ← create_custom_list name locations; oneshot_send tx (ReId r).
Definition on_delete_custom_list (tx : Tx) (id : Z) : M unit := r ← delete_custom_list id; oneshot_send tx (ReUnit r).
Definition on_update_custom_list (tx : Tx) (new_list : CustomList) : M unit :=
  r ← update_custom_list new_list; oneshot_send tx (ReUnit r).
Definition on_clear_custom_lists (tx : Tx) : M unit := r ← clear_custom_lists; oneshot_send tx (ReUnit r).

(** ** Access methods (access_method.rs) *)

(** The error is boxed as it is, or inside the daemon's own. *)
Definition set_access_methods (box : AccessMethodError → UpdateError)
    (f : access_methods.Settings → result AccessMethodError access_methods.Settings) (s : Settings) : result UpdateError Settings :=
  ms ← map_err box (f (s_api_access_methods s)); Ok (s <| s_api_access_methods := ms |>).
(** [update] without the flag it returns. *)
Definition update_method (id : Z) (f : AccessMethodSetting → AccessMethodSetting) (s : access_methods.Settings) :
    result AccessMethodError access_methods.Settings :=
  '(_, s) ← access_methods.update (λ m, am_id m =? id) f s; Ok s.

Definition add_access_method (name : string) (enabled : bool) (method : AccessMethod) : M (result Error Z) :=
  let setting := {| am_id := new_v4 env; am_name := name; am_enabled := enabled; access_method := method |} in
  r ← try_update 0 (set_access_methods OfAccessMethods (access_methods.append setting));
  mret match r with Ok _ => Ok (am_id setting) | Err e => Err (SettingsError e) end.
Definition remove_access_method (id : Z) : M (result MethodError unit) :=
  r ← try_update 0 (set_access_methods OfDaemonAccessMethods (access_methods.remove id));
  mret match r with Ok _ => Ok tt | Err e => Err (SettingsOf e) end.
Definition use_api_access_method (id : Z) : M (result MethodError unit) :=
  r ← try_update 0 (set_access_methods OfDaemonAccessMethods (update_method id access_methods.enable));
  match r with
  | Err e => mret (Err (SettingsOf e))
  | Ok _ => _ ← send_out (ToAccessMode (Use id)); mret (map_err ApiService (use_method_reply env))
  end.
Definition get_api_access_method (id : Z) (d : Daemon) : result MethodError AccessMethodSetting :=
  match List.find (λ m, am_id m =? id) (access_methods.iter (s_api_access_methods (settings d))) with
  | Some setting => Ok setting
  | None => Err (NoSuchMethod id)
  end.
Definition update_access_method (method : AccessMethodSetting) : M (result Error unit) :=
  r ← try_update 0 (set_access_methods OfAccessMethods (update_method (am_id method) (λ _, method)));
  mret match r with Ok _ => Ok tt | Err e => Err (SettingsError e) end.
Definition clear_custom_api_access_methods : M (result MethodError unit) :=
  r ← update 0 (λ s, s <| s_api_access_methods ::= access_methods.clear_custom |>);
  mret match r with Ok _ => Ok tt | Err e => Err (SettingsOf e) end.

Definition on_add_access_method (tx : Tx) (name : string) (enabled : bool) (method : AccessMethod) : M unit :=
  r ← add_access_method name enabled method; oneshot_send tx (ReId r).
Definition on_remove_api_access_method (tx : Tx) (id : Z) : M unit :=
  r ← remove_access_method id; oneshot_send tx (ReUnit (map_err AccessMethodErr r)).
Definition on_set_api_access_method (tx : Tx) (id : Z) : M unit :=
  r ← use_api_access_method id; oneshot_send tx (ReUnit (map_err AccessMethodErr r)).
Definition on_update_api_access_method (tx : Tx) (method : AccessMethodSetting) : M unit :=
  r ← update_access_method method; oneshot_send tx (ReUnit r).
Definition on_clear_custom_api_access_methods (tx : Tx) : M unit :=
  r ← clear_custom_api_access_methods; oneshot_send tx (ReUnit (map_err AccessMethodErr r)).
Definition on_get_current_api_access_method (tx : Tx) : M unit := spawn (TaskGetCurrentAccessMethod tx).
Definition on_test_proxy_as_access_method (tx : Tx) (proxy : CustomProxy) : M unit :=
  let connection_mode := Proxied (ProxyConfig_from proxy) in
  spawn (TaskTestMethod tx {| endpoint := pe_endpoint (get_remote_endpoint proxy); clients := allowed_clients connection_mode |}).
Definition on_test_api_access_method (tx : Tx) (id : Z) : M unit :=
  d ← get;
  match get_api_access_method id d with
  | Err err => oneshot_send tx (ReTest (Err (AccessMethodErr err)))
  | Ok setting =>
      _ ← send_out (ToAccessMode (AccessMode.Resolve setting));
      match resolve_reply env with
      | Ok (Some test_subject) => spawn (TaskTestMethod tx (rc_endpoint test_subject))
      | Ok None => oneshot_send tx (ReTest (Err (ApiConnectionModeError (ResolveFailed (access_method setting)))))
      | Err err => oneshot_send tx (ReTest (Err (ApiConnectionModeError err)))
      end
  end.

(** ** Processes, relays, restarts *)

Definition on_split_tunnel_is_enabled (tx : Tx) : M unit := d ← get; oneshot_send tx (ReBool (is_enabled (d_exclude_pids d))).
Definition on_get_split_tunnel_processes (tx : Tx) : M unit :=
  d ← get; oneshot_send tx (RePids (pid_list (pid_answers env) (d_exclude_pids d))).
(** An operation of the process manager, and its answer. *)
Definition with_pids (tx : Tx) (f : PidManager → result SplitTunnelError unit * PidManager) : M unit :=
  d ← get;
  let '(r, m) := f (d_exclude_pids d) in
  _ ← modify_daemon (λ d, d <| d_exclude_pids := m |>);
  oneshot_send tx (RePid r).
Definition on_add_split_tunnel_process (tx : Tx) (pid : Z) : M unit := with_pids tx (pid_add (pid_answers env) pid).
Definition on_remove_split_tunnel_process (tx : Tx) (pid : Z) : M unit := with_pids tx (pid_remove (pid_answers env) pid).
Definition on_clear_split_tunnel_processes (tx : Tx) : M unit := with_pids tx (pid_clear (pid_answers env)).

Definition on_toggle_relay (relay : string) (active : bool) (tx : Tx) : M unit :=
  d ← get;
  let relays := toggle_relays relay active (get_relays (relay_selector d)) in
  _ ← modify_daemon (λ d, d <| d_parameters_generator ::= λ p, p <| pg_relay_selector ::= set_relays (now env) relays |> |>);
  _ ← notify (NotifyRelayList relays);
  _ ← reconnect_tunnel;
  oneshot_send tx ReDone.

Definition on_prepare_restart (shutdown : bool) : M unit :=
  d ← get;
  _ ← when (bool_decide (target_state d = Secured))
        (tx ← unused; send_tunnel_command (TunnelStates.SetLockdownMode LockdownMode_yes tx));
  _ ← modify_daemon (λ d, d <| d_target_state ::= lock |>);
  when shutdown (send_self (TriggerShutdown false)).

(** The request is answered by a task that runs when the daemon ends. *)
Definition on_factory_reset (tx : Tx) : M unit :=
  _ ← ask_account_manager CmdLogout;
  d ← get;
  let '(cleared, h) := history_clear (history_save env) (d_account_history d) in
  _ ← modify_daemon (λ d, d <| d_account_history := h |>);
  r ← settings_reset beta env 0;
  let last_error := match r, cleared with
                    | Err _, _ => Some ResetSettingsFailed
                    | Ok _, Err _ => Some ClearHistory
                    | Ok _, Ok _ => None
                    end in
  _ ← send_self (TriggerShutdown false);
  modify_daemon (λ d, d <| d_shutdown_tasks ::= λ l, l ++ [(tx, last_error)] |>).

(** ** All commands *)

Definition handle_command (command : DaemonCommand) : M unit :=
  d ← get;
  _ ← when (is_disconnected (d_tunnel_state d))
        (modify_daemon (λ d, d <| d_availability ::= reset_inactivity_timer (now env) |>));
  match command with
  | SetTargetState tx state => on_set_target_state tx state
  | Reconnect tx => on_reconnect tx
  | GetState tx => on_get_state tx
  | CreateNewAccount tx => on_create_new_account tx
  | GetAccountData tx number => on_get_account_data tx number
  | GetWwwAuthToken tx => on_get_www_auth_token tx
  | SubmitVoucher tx voucher => on_submit_voucher tx voucher
  | GetRelayLocations tx => on_get_relay_locations tx
  | UpdateRelayLocations => on_update_relay_locations
  | UpdateDefaultLocationCountry tx => on_update_default_location tx
  | LoginAccount tx number => on_login_account tx number
  | LogoutAccount tx => on_logout_account tx
  | GetDevice tx => on_get_device tx
  | UpdateDevice tx => on_update_device tx
  | ListDevices tx number => on_list_devices tx number
  | RemoveDevice tx number id => on_remove_device tx number id
  | GetAccountHistory tx => on_get_account_history tx
  | ClearAccountHistory tx => on_clear_account_history tx
  | SetRelaySettings tx s => on_set_relay_settings tx s
  | SetAllowLan tx b => on_set_allow_lan tx b
  | SetShowBetaReleases tx b => on_set_show_beta_releases tx b
  | SetLockdownMode tx b => on_set_lockdown_mode tx b
  | SetAutoConnect tx b => on_set_auto_connect tx b
  | SetOpenVpnMssfix tx mssfix => on_set_openvpn_mssfix tx mssfix
  | SetBridgeSettings tx s => on_set_bridge_settings tx s
  | SetBridgeState tx s => on_set_bridge_state tx s
  | SetEnableIpv6 tx b => on_set_enable_ipv6 tx b
  | SetEnableRecents tx b => on_set_enable_recents tx b
  | SetQuantumResistantTunnel tx s => on_set_quantum_resistant_tunnel tx s
  | SetEnableDaita tx b => on_set_daita_enabled tx b
  | SetDaitaUseMultihopIfNecessary tx b => on_set_daita_use_multihop_if_necessary tx b
  | SetDaitaSettings tx s => on_set_daita_settings tx s
  | SetDnsOptions tx o => on_set_dns_options tx o
  | SetRelayOverride tx o => on_set_relay_override tx o
  | ClearAllRelayOverrides tx => on_clear_all_relay_overrides tx
  | SetWireguardMtu tx mtu => on_set_wireguard_mtu tx mtu
  | SetWireguardAllowedIps tx ips => on_set_wireguard_allowed_ips tx ips
  | SetWireguardRotationInterval tx i => on_set_wireguard_rotation_interval tx i
  | GetSettings tx => on_get_settings tx
  | ResetSettings tx => on_reset_settings tx
  | RotateWireguardKey tx => on_rotate_wireguard_key tx
  | GetWireguardKey tx => on_get_wireguard_key tx
  | CreateCustomList tx name locations => on_create_custom_list tx name locations
  | DeleteCustomList tx id => on_delete_custom_list tx id
  | UpdateCustomList tx l => on_update_custom_list tx l
  | ClearCustomLists tx => on_clear_custom_lists tx
  | GetVersionInfo tx => on_get_version_info tx
  | AddApiAccessMethod tx name enabled m => on_add_access_method tx name enabled m
  | RemoveApiAccessMethod tx id => on_remove_api_access_method tx id
  | UpdateApiAccessMethod tx m => on_update_api_access_method tx m
  | ClearCustomApiAccessMethods tx => on_clear_custom_api_access_methods tx
  | GetCurrentAccessMethod tx => on_get_current_api_access_method tx
  | SetApiAccessMethod tx id => on_set_api_access_method tx id
  | TestApiAccessMethodById tx id => on_test_api_access_method tx id
  | TestCustomApiAccessMethod tx proxy => on_test_proxy_as_access_method tx proxy
  | IsPerformingPostUpgrade tx => on_is_performing_post_upgrade tx
  | GetCurrentVersion tx => on_get_current_version tx
  | FactoryReset tx => on_factory_reset tx
  | SplitTunnelIsEnabled tx => on_split_tunnel_is_enabled tx
  | GetSplitTunnelProcesses tx => on_get_split_tunnel_processes tx
  | AddSplitTunnelProcess tx pid => on_add_split_tunnel_process tx pid
  | RemoveSplitTunnelProcess tx pid => on_remove_split_tunnel_process tx pid
  | ClearSplitTunnelProcesses tx => on_clear_split_tunnel_processes tx
  | SetObfuscationSettings tx s => on_set_obfuscation_settings tx s
  | PrepareRestart shutdown => on_prepare_restart shutdown
  | ApplyJsonSettings tx blob => on_apply_json_settings tx blob
  | ExportJsonSettings tx => on_export_json_settings tx
  | GetFeatureIndicators tx => on_get_feature_indicators tx
  | DisableRelay tx relay => on_toggle_relay relay false tx
  | EnableRelay tx relay => on_toggle_relay relay true tx
  | AppUpgrade tx => on_app_upgrade tx
  | AppUpgradeAbort tx => on_app_upgrade_abort tx
  | GetAppUpgradeCacheDir tx => on_get_app_upgrade_cache_dir tx
  end.
End Commands.
