(* ===== verification/Daemon.v ===== *)
(** * The daemon: events, tasks, start and end (mullvad-daemon/src/lib.rs)

    [handle_event] is one turn of the event loop, [start] the construction of the
    daemon, [run_task] what a spawned task does when its answers have come.  [step] puts
    them together with the others that act on the daemon's state: the tunnel state
    machine that asks for parameters, the task that passes tunnel options to the
    parameters generator, the relay list updater and the reconnect timer.  Any order
    of inputs is possible. *)

From S2P Require Import Prelude NetTypes TunnelTypes TunnelStates Constraints RelayTypes CustomLists RelayMatcher RelaySelector.
From S2P Require Import Versions VersionRouter AccessMethods AccessMode Availability DeviceService AccountManager DaemonSettings.
From S2P Require Import SettingsPersister TargetState TunnelParams SettingsPatch GeoIp SplitTunnel DaemonTypes DaemonCommands.
Import relay.

Definition WG_RECONNECT_DELAY : Z := 4 * 60 * 10 ^ 9.
(** [AuthFailed::ExpiredAccount.as_str()]. *)
Definition ExpiredAccount : string := "[EXPIRED_ACCOUNT]".

Section Daemon.
Context `{SettingsJson} `{TargetStateJson} `{PatchJson} `{Keys} `{IpNetworkCrate} `{Host}.
Context (beta : bool) (VERSION : Version) (chars : string → nat).
Context (key_bytes : string → list Z) (lookup : string → option (list IpAddr)).

Section Events.
Context (env : Env).

(** ** Tunnel state transitions *)

Definition unschedule_reconnect : M unit := modify_daemon (λ d, d <| d_reconnection_job := None |>).
Definition schedule_reconnect (delay : Z) : M unit :=
  _ ← unschedule_reconnect;
  modify_daemon (λ d, d <| d_reconnection_job := Some {| due := now env + delay; triggered := false |} |>).

Definition reset_rpc_sockets_on_tunnel_state_transition (t : TunnelStateTransition) : M unit :=
  d ← get;
  when (is_connected (d_tunnel_state d) || match t with TrConnected _ => true | _ => false end) (send_out ResetApiSockets).

Definition send_geo_location_request (use_ipv6 : bool) : M unit :=
  _ ← modify_daemon (λ d, d <| d_request_id ::= next_request_id |>);
  _ ← send_out ResetLocationSockets;
  d ← get;
  spawn (TaskLocation (d_request_id d) use_ipv6).
(** Whether to ask over IPv6; not at all while there is no connection. *)
Definition location_use_ipv6 (d : Daemon) : option bool :=
  match d_tunnel_state d with
  | TsConnected _ _ _ => Some (enable_ipv6 (to_generic (s_tunnel_options (settings d))))
  | TsDisconnected _ _ =>
      Some match s_relay_settings (settings d) with
           | RsNormal c => bool_decide (wc_ip_version (rc_wireguard_constraints c) = Only NetTypes.V6)
           | RsCustomTunnelEndpoint _ => false
           end
  | _ => None
  end.
Definition fetch_am_i_mullvad : M unit :=
  _ ← send_out ResetLocationSockets;
  d ← get;
  match location_use_ipv6 d with
  | Some use_ipv6 => send_geo_location_request use_ipv6
  | None => mret tt
  end.

Definition tunnel_state_from (t : TunnelStateTransition) (d : Daemon) : TunnelState :=
  let p := d_parameters_generator d in
  match t with
  | TrDisconnected locked_down => TsDisconnected None locked_down
  | TrConnecting endpoint =>
      TsConnecting endpoint (get_last_location p) (compute_feature_indicators (settings d) endpoint (last_relay_was_overridden p))
  | TrConnected endpoint =>
      TsConnected endpoint (get_last_location p) (compute_feature_indicators (settings d) endpoint (last_relay_was_overridden p))
  | TrDisconnecting after_disconnect => TsDisconnecting after_disconnect
  | TrError error_state => TsError error_state
  end.

Definition with_availability (f : ApiAvailabilityState → ApiAvailabilityState) : M unit :=
  modify_daemon (λ d, d <| d_availability ::= f |>).
Definition handle_tunnel_state_transition (t : TunnelStateTransition) : M unit :=
  _ ← reset_rpc_sockets_on_tunnel_state_transition t;
  _ ← modify_daemon (λ d, d <| d_device_checker ::= handle_state_transition t |>);
  d ← get;
  let tunnel_state := tunnel_state_from t d in
  _ ← when (negb (is_connected tunnel_state)) unschedule_reconnect;
  _ ← when (is_disconnected (d_tunnel_state d) && negb (is_disconnected tunnel_state))
        (with_availability (resume_background (now env)));
  _ ← with_availability (if is_disconnected tunnel_state then reset_inactivity_timer (now env) else stop_inactivity_timer);
  _ ← match tunnel_state with
      | TsError error_state =>
          match tunnel.cause error_state with
          | AuthFailed _ => schedule_reconnect (60 * 10 ^ 9)
          | _ => mret tt
          end
      | _ => mret tt
      end;
  _ ← modify_daemon (λ d, d <| d_tunnel_state := tunnel_state |>);
  _ ← notify (NotifyState tunnel_state);
  fetch_am_i_mullvad.

(** ** Locations and feature indicators *)

(** The state with a location that was fetched for it. *)
Definition set_location (fetched : GeoIpLocation) (s : TunnelState) : option TunnelState :=
  match s with
  | TsDisconnected _ locked_down => Some (TsDisconnected (Some fetched) locked_down)
  | TsConnected endpoint location features =>
      let l := default fetched location in
      Some (TsConnected endpoint (Some (l <| geo_ipv4 := geo_ipv4 fetched |> <| geo_ipv6 := geo_ipv6 fetched |>)) features)
  | _ => None
  end.
Definition handle_location_event (data : LocationEventData) : M unit :=
  d ← get;
  if negb (d_request_id d =? event_request_id data) then mret tt
  else match set_location (event_location data) (d_tunnel_state d) with
       | None => mret tt
       | Some state =>
           _ ← modify_daemon (λ d, d <| d_tunnel_state := state |>);
           _ ← when (s_update_default_location (settings d))
                 (tx ← unused; send_self (Command (UpdateDefaultLocationCountry tx)));
           notify (NotifyState state)
       end.

Definition refreshed_features (s : Settings) (endpoint : TunnelEndpoint) (features : FeatureIndicators) : FeatureIndicators :=
  compute_feature_indicators s endpoint (bool_decide (ServerIpOverride ∈ features)).
Definition update_feature_indicators_on_settings_changed : M unit :=
  d ← get;
  match d_tunnel_state d with
  | TsConnecting endpoint location features =>
      let new := refreshed_features (settings d) endpoint features in
      when (negb (bool_decide (features = new)))
        (_ ← modify_daemon (λ d, d <| d_tunnel_state := TsConnecting endpoint location new |>);
         notify (NotifyState (TsConnecting endpoint location new)))
  | TsConnected endpoint location features =>
      let new := refreshed_features (settings d) endpoint features in
      when (negb (bool_decide (features = new)))
        (_ ← modify_daemon (λ d, d <| d_tunnel_state := TsConnected endpoint location new |>);
         notify (NotifyState (TsConnected endpoint location new)))
  | _ => mret tt
  end.

(** ** Events of other actors *)

Definition handle_new_app_version_info (info : AppVersionInfo) : M unit := notify (NotifyAppVersion info).

Definition account_history_set (number : AccountNumber) : M unit :=
  modify_daemon (λ d, d <| d_account_history ::= λ h, (history_set (history_save env) number h).2 |>).
Definition handle_device_event (event : AccountEvent) : M unit :=
  d ← get;
  let secured := bool_decide (target_state d = Secured) in
  _ ← match event with
      | AeDevice (EvLogin device) =>
          _ ← account_history_set (account_number device);
          _ ← clear_update_default_location env 0;
          _ ← when secured reconnect_tunnel;
          update_recents_ env 1
      | AeDevice EvLogout => _ ← set_target_state env Unsecured; mret tt
      | AeDevice EvRevoked => when secured connect_tunnel
      | AeDevice (EvRotatedKey _) =>
          when (bool_decide (get_target_tunnel_type d = Some Wireguard)) (schedule_reconnect WG_RECONNECT_DELAY)
      | AeDevice (EvUpdated _) => mret tt
      | AeExpiry expiry =>
          when secured
            (if now env <=? expiry then
               match d_tunnel_state d with
               | TsError state => match tunnel.cause state with AuthFailed _ => connect_tunnel | _ => mret tt end
               | _ => mret tt
               end
             else when (bool_decide (get_target_tunnel_type d = Some Wireguard))
                    (send_tunnel_command (Block (AuthFailed (Some ExpiredAccount)))))
      end;
  match event with
  | AeDevice event => notify (NotifyDevice (DeviceEvent_from event))
  | AeExpiry _ => mret tt
  end.

Definition save_connection_mode_to_cache (m : ApiConnectionMode) : M unit := spawn (TaskSaveConnectionMode m).
Definition handle_access_method_event (event : AccessMethodEvent) (endpoint_active_tx : Tx) : M unit :=
  match event with
  | Allow endpoint =>
      completion_tx ← channel;
      _ ← send_tunnel_command (AllowEndpoint endpoint completion_tx);
      spawn (TaskEndpointActive completion_tx endpoint_active_tx None)
  | New setting connection_mode endpoint =>
      _ ← save_connection_mode_to_cache connection_mode;
      completion_tx ← channel;
      _ ← send_tunnel_command (AllowEndpoint endpoint completion_tx);
      spawn (TaskEndpointActive completion_tx endpoint_active_tx (Some setting))
  end.
Definition handle_device_migration_event (r : result DeviceService.Error PrivateAccountAndDevice) : M unit :=
  spawn (TaskDeviceMigration r).

Definition on_trigger_shutdown (user_init_shutdown : bool) : M unit :=
  d ← get;
  _ ← when (negb user_init_shutdown && (bool_decide (target_state d = Secured) || s_auto_connect (settings d)))
        (tx ← unused; send_tunnel_command (TunnelStates.SetLockdownMode LockdownMode_yes tx));
  disconnect_tunnel.

(** Whether the loop has to end. *)
Definition handle_event (event : InternalDaemonEvent) : M bool :=
  match event with
  | TunnelStateTransition_ transition => _ ← handle_tunnel_state_transition transition; mret false
  | Command command => _ ← handle_command beta VERSION chars env command; mret false
  | TriggerShutdown user_init_shutdown => _ ← on_trigger_shutdown user_init_shutdown; mret true
  | NewAppVersionInfo info => _ ← handle_new_app_version_info info; mret false
  | DeviceEvent_ event => _ ← handle_device_event event; mret false
  | AccessMethodEvent_ event tx => _ ← handle_access_method_event event tx; mret false
  | DeviceMigrationEvent r => _ ← handle_device_migration_event r; mret false
  | LocationEvent data => _ ← handle_location_event data; mret false
  | SettingsChanged => _ ← update_feature_indicators_on_settings_changed; mret false
  | LeakDetected => mret false
  end.

(** ** The end *)

Fixpoint run_shutdown_tasks (tasks : list (Tx * option FactoryResetFailure)) : M unit :=
  match tasks with
  | [] => mret tt
  | (tx, last_error) :: tasks =>
      let last_error := if directories_cleared env then last_error else Some ClearDirectories in
      _ ← oneshot_send tx (ReUnit match last_error with Some error => Err (FactoryResetError error) | None => Ok tt end);
      run_shutdown_tasks tasks
  end.
Definition finalize : M unit :=
  d ← get;
  _ ← run_shutdown_tasks (d_shutdown_tasks d);
  _ ← modify_daemon (λ d, d <| d_target_state ::= ts_finalize (target_remove_fails env) |>);
  _ ← ask_account_manager CmdShutdown;
  modify_daemon (λ d, d <| d_phase := Stopped |>).
(** The start of [disconnect_tunnel_and_wait]. *)
Definition disconnect_tunnel_and_wait : M unit :=
  d ← get;
  if is_disconnected (d_tunnel_state d) then finalize
  else _ ← disconnect_tunnel; modify_daemon (λ d, d <| d_phase := Stopping |>).

(** What is received in the three phases of [run]. *)
Definition receive (event : InternalDaemonEvent) : M unit :=
  d ← get;
  match d_phase d with
  | Running =>
      should_stop ← handle_event event;
      when should_stop disconnect_tunnel_and_wait
  | Stopping =>
      match event with
      | TunnelStateTransition_ transition =>
          _ ← handle_tunnel_state_transition transition;
          d ← get;
          when (is_disconnected (d_tunnel_state d)) finalize
      | _ => mret tt
      end
  | Stopped => mret tt
  end.
End Events.

(** ** Tasks *)

(** What a task is answered. *)
Record TaskAnswers : Type := {
  ta_now : Z;
  ta_data : result DeviceService.Error PrivateDeviceState;
  ta_created : result rest.Error AccountNumber;
  ta_done : result DeviceService.Error unit;
  ta_account : result rest.Error AccountData;
  ta_token : result rest.Error string;
  ta_voucher : result DeviceService.Error VoucherSubmission;
  ta_devices : result DeviceService.Error (list Device);
  ta_version : result VersionError AppVersionInfo;
  ta_current : result AccessModeError ResolvedConnectionMode;
  ta_event_sent : result AccessModeError unit;
  ta_api_request : result rest.Error bool;
  ta_location : result rest.Error GeoIpLocation;
  ta_acked : bool
}.

Section Tasks.
Context (a : TaskAnswers).

Definition device_event_of_error (e : DeviceService.Error) : DeviceEvent :=
  match e with
  | InvalidDevice => {| de_cause := CauseRevoked; new_state := DsRevoked |}
  | _ => {| de_cause := CauseLoggedOut; new_state := DsLoggedOut |}
  end.
(** The [Allow] event with the channel it is acknowledged on. *)
Definition send_allow (e : AllowedEndpoint) : M unit := tx ← channel; send_self (AccessMethodEvent_ (Allow e) tx).

(** [perform_api_request] and the way back. *)
Definition test_access_method_end (tx : Tx) (reset : AllowedEndpoint) : M unit :=
  _ ← send_allow reset;
  oneshot_send tx (ReTest (map_err AccessMethodErr
    (_ ← map_err ApiService (ta_event_sent a); map_err RestOf (ta_api_request a)))).
Definition test_access_method_start (tx : Tx) (proxy : AllowedEndpoint) : M unit :=
  _ ← send_out (ToAccessMode Get);
  match ta_current a with
  | Err e => oneshot_send tx (ReTest (Err (AccessMethodErr (ApiService e))))
  | Ok mode =>
      _ ← send_allow proxy;
      match ta_event_sent a with
      | Err e => oneshot_send tx (ReTest (Err (AccessMethodErr (ApiService e))))
      | Ok _ => spawn (TaskTestRunning tx (rc_endpoint mode))
      end
  end.

Definition run_task (t : Task) : M unit :=
  match t with
  | TaskCreateNewAccount tx =>
      _ ← ask_account_manager CmdGetData;
      if match ta_data a with Ok data => state_logged_in data | Err _ => false end
      then oneshot_send tx (ReText (Err AlreadyLoggedIn))
      else match ta_created a with
           | Err e => oneshot_send tx (ReText (Err (RestError e)))
           | Ok token =>
               _ ← ask_account_manager (CmdLogin token);
               oneshot_send tx (ReText (_ ← map_err LoginError (ta_done a); Ok token))
           end
  | TaskGetAccountData tx _ => oneshot_send tx (ReAccountData (ta_account a))
  | TaskGetWwwAuthToken tx _ => oneshot_send tx (ReText (map_err RestError (ta_token a)))
  | TaskSubmitVoucher tx voucher =>
      _ ← ask_account_manager (CmdSubmitVoucher voucher);
      oneshot_send tx (ReVoucher (map_err VoucherSubmissionError (ta_voucher a)))
  | TaskLogin tx number =>
      _ ← ask_account_manager (CmdLogin number);
      _ ← when (is_ok (ta_done a)) (with_availability (resume_background (ta_now a)));
      oneshot_send tx (ReUnit (map_err LoginError (ta_done a)))
  | TaskLogout tx => _ ← ask_account_manager CmdLogout; oneshot_send tx (ReUnit (map_err LogoutError (ta_done a)))
  | TaskGetDevice tx =>
      _ ← ask_account_manager CmdGetData;
      oneshot_send tx (ReDevice (DeviceState_from <$> map_err (λ _, NoAccountNumber) (ta_data a)))
  | TaskUpdateDevice tx =>
      _ ← ask_account_manager CmdValidateDevice;
      oneshot_send tx (ReUnit match ta_done a with
                              | Ok _ | Err NoDevice => Ok tt
                              | Err error => Err (UpdateDeviceError error)
                              end)
  | TaskListDevices tx _ => oneshot_send tx (ReDevices (map_err ListDevicesError (ta_devices a)))
  | TaskRemoveDevice tx number _ =>
      _ ← match ta_devices a with Ok new_devices => notify (NotifyRemoveDevice number new_devices) | Err _ => mret tt end;
      oneshot_send tx (ReUnit (_ ← map_err RemoveDeviceError (ta_devices a); Ok tt))
  | TaskGetVersionInfo tx =>
      oneshot_send tx (ReVersionInfo (map_err VersionCheckError (ta_version a)))
  | TaskRotateKey tx =>
      _ ← ask_account_manager CmdRotateKey; oneshot_send tx (ReUnit (map_err KeyRotationError (ta_done a)))
  | TaskGetCurrentAccessMethod tx =>
      _ ← send_out (ToAccessMode Get);
      oneshot_send tx (ReMethod (setting <$> map_err ApiConnectionModeError (ta_current a)))
  | TaskTestMethod tx proxy => test_access_method_start tx proxy
  | TaskTestRunning tx reset => test_access_method_end tx reset
  | TaskSetShowBetaReleases enabled => send_out (SetBetaProgram_ enabled)
  | TaskRotateAccessMethod => send_out (ToAccessMode Rotate)
  | TaskSetRotationInterval interval => ask_account_manager (CmdSetRotationInterval interval)
  | TaskUpdateAccessMethods methods => send_out (ToAccessMode (AccessMode.Update methods))
  | TaskSaveConnectionMode m => send_out (SaveConnectionMode m)
  | TaskForwardAck _ tx => when (ta_acked a) (oneshot_send tx (ReSaved (Ok tt)))
  | TaskEndpointActive _ endpoint_active_tx setting =>
      _ ← oneshot_send endpoint_active_tx ReDone;
      match setting with Some setting => notify (NotifyAccessMethod setting) | None => mret tt end
  | TaskLocation request_id _ =>
      match ta_location a with
      | Ok location => send_self (LocationEvent {| event_request_id := request_id; event_location := location |})
      | Err _ => mret tt
      end
  | TaskDeviceMigration r =>
      _ ← ask_account_manager CmdGetDataAfterLogin;
      match into_device (ta_data a) with
      | Some _ => mret tt
      | None =>
          result ← match r with
                   | Err e => mret (Err e)
                   | Ok d => _ ← ask_account_manager (CmdSetData d); mret (ta_done a)
                   end;
          match result with
          | Err error => notify (NotifyDevice (device_event_of_error error))
          | Ok _ => mret tt
          end
      end
  end.
End Tasks.

(** ** The start *)

Record StartAnswers : Type := {
  sa_now : Z;
  sa_env : Env;
  sa_file : option string;
  sa_relays : result RelaySelector.Error (Z * RelayList) * result RelaySelector.Error (Z * RelayList);
  sa_migrating : bool;
  sa_device : PrivateDeviceState;
  sa_history_opens : bool;
  sa_history_text : option string;
  sa_history_file : string;
  sa_target_read_fault : bool;
  sa_target_file : option string;
  sa_endpoint : AllowedEndpoint;
  sa_pids : SetupAnswers;
  sa_rollout_seed : Z;
  (* what else has to come up, before and after the target state is read *)
  sa_services_before : bool;
  sa_services_after : bool
}.

Definition account_of (s : PrivateDeviceState) : option AccountNumber := account_number <$> state_device s.

(** The state in which the daemon is put together, before the rollout seed is stored. *)
Definition initial_daemon (a : StartAnswers) (p : SettingsPersister) (h : AccountHistory) (t : PersistentTargetState) : Daemon :=
  let s := p_settings p in
  let availability := suspend (ApiAvailability_new State_default (sa_now a)) in
  let service := spawn_account_service (account_of (sa_device a)) availability in
  let initial := {| is_allow_lan := s_allow_lan s; is_lockdown_mode := LockdownMode_from (s_lockdown_mode s);
                    is_dns_config := addresses_from_options (dns_options (s_tunnel_options s));
                    is_allowed_endpoint := sa_endpoint a;
                    reset_firewall := negb (bool_decide (ts_state t = Secured)) |} in
  {| d_tunnel_state := TsDisconnected None (s_lockdown_mode s); d_target_state := t;
     d_exclude_pids := PidManager_default (sa_pids a); d_reconnection_job := None; d_settings := p;
     d_account_history := h; d_device_checker := Handler_new; d_availability := api_availability service;
     d_parameters_generator := ParametersGenerator_new
       (RelaySelector_new (SelectorConfig_from_settings s) (sa_relays a).1 (sa_relays a).2) (s_tunnel_options s);
     d_param_gen := []; d_request_id := 0; d_migration_complete := negb (sa_migrating a); d_shutdown_tasks := [];
     d_phase := Running; d_next_tx := 0; d_queue := []; d_tasks := []; d_out := [SpawnTunnel initial] |}.

(** [Settings::rollout_threshold_seed.get_or_insert_with(generate_rollout_seed)]. *)
Definition insert_rollout_seed (seed : Z) (s : Settings) : Settings :=
  match s_rollout_threshold_seed s with
  | Some _ => s
  | None => s <| s_rollout_threshold_seed := Some seed |>
  end.

(** The end of [start]. *)
Definition finish_start (a : StartAnswers) : M (result SettingsPersister.Error bool) :=
  r ← settings_update (sa_env a) 1 (insert_rollout_seed (sa_rollout_seed a));
  _ ← send_out UpdateRelayList;
  _ ← with_availability unsuspend;
  mret r.

(** A daemon, or what a failed start leaves of the file of the target state. *)
Definition start (a : StartAnswers) : result (option string) Daemon :=
  let env := sa_env a in
  let p := load beta (io env 0) (sa_file a) in
  match (if sa_services_before a
         then AccountHistory_new (sa_history_opens a) (sa_history_text a) (sa_history_file a) (history_save env) (account_of (sa_device a))
         else Err HistoryRead) with
  | Err _ => Err (sa_target_file a)
  | Ok h =>
      let t := target_start (s_auto_connect (p_settings p)) (sa_target_read_fault a) (target_write env) (sa_target_file a) in
      if negb (sa_services_after a) then Err (ts_drop (target_remove_fails env) t)
      else
        let '(r, d) := finish_start a (initial_daemon a p h t) in
        match r with
        | Err _ => Err (ts_drop (target_remove_fails env) t)
        | Ok _ => Ok d
        end
  end.

(** The start of [run]. *)
Definition handle_initial_target_state : M unit :=
  d ← get;
  match target_state d with
  | Secured => send_tunnel_command Connect
  | Unsecured => fetch_am_i_mullvad
  end.

(** ** The daemon among the others *)

Inductive Input : Type :=
  (* an event from a client, the tunnel state machine or another actor *)
| InEvent (env : Env) (e : InternalDaemonEvent)
  (* the next event the daemon sent to itself *)
| InOwn (env : Env)
| InTask (a : TaskAnswers) (i : nat)
  (* the parameters generator gets the next tunnel options *)
| InTunnelOptions
  (* the tunnel state machine asks for parameters *)
| InGenerate (data : result DeviceService.Error PrivateDeviceState) (retry_attempt : Z) (availability : IpAvailability) (g : rng)
| InTimer (time : Z)
| InRelayList (time : Z) (l : RelayList).

Definition step (d : Daemon) (i : Input) : Daemon :=
  match i with
  | InEvent env e => (receive env e d).2
  | InOwn env =>
      match d_queue d with
      | [] => d
      | e :: queue => (receive env e (d <| d_queue := queue |>)).2
      end
  | InTask a i =>
      match d_tasks d !! i with
      | None => d
      | Some t => (run_task a t (d <| d_tasks ::= delete i |>)).2
      end
  | InTunnelOptions =>
      match d_param_gen d with
      | [] => d
      | options :: rest => d <| d_param_gen := rest |> <| d_parameters_generator ::= set_tunnel_options options |>
      end
  | InGenerate data n availability g =>
      d <| d_parameters_generator := (generate key_bytes lookup data n availability (d_parameters_generator d) g).1.2 |>
  | InTimer time =>
      match d_reconnection_job d with
      | Some job =>
          if negb (triggered job) && (due job <=? time) then
            ((tx ← channel; send_self (Command (Reconnect tx)))
              (d <| d_reconnection_job := Some {| due := due job; triggered := true |} |>)).2
          else d
      | None => d
      end
  | InRelayList time l =>
      ((_ ← modify_daemon (λ d, d <| d_parameters_generator ::= λ p, p <| pg_relay_selector ::= set_relays time l |> |>);
        _ ← notify (NotifyRelayList l);
        tx ← unused; send_self (Command (UpdateDefaultLocationCountry tx))) d).2
  end.
Definition run (d : Daemon) (inputs : list Input) : Daemon := foldl step d inputs.
End Daemon.
