(* ===== verification/DaemonTheorems.v ===== *)
(** * What the daemon promises

    Invariants of all runs of the daemon, whatever the order of events: what the other
    parts of the system were told is what the settings say, and the tunnel is asked
    for when, and only when, the user wants it. *)

From S2P Require Import Prelude NetTypes TunnelTypes TunnelStates Constraints RelayTypes CustomLists RelayMatcher.
From S2P Require Import RelaySelector Versions VersionRouter AccessMethods AccessMode Availability DeviceService.
From S2P Require Import AccountManager DaemonSettings SettingsPersister TargetState TunnelParams SettingsPatch GeoIp.
From S2P Require Import SplitTunnel DaemonTypes DaemonCommands Daemon.

(** * Reasoning about the daemon

    Weakest preconditions for the handlers of the daemon: a rule for each primitive,
    and for the settings the three outcomes of an update.  The tactic [wp_run] takes
    a handler apart with them. *)

Definition wp {A} (m : M A) (Q : A → Daemon → Prop) (d : Daemon) : Prop := Q (m d).1 (m d).2.

Lemma wp_mret {A} (a : A) Q d : Q a d → wp (mret a) Q d.
Proof. done. Qed.
Lemma wp_mbind {A B} (m : M A) (f : A → M B) Q d : wp m (λ a, wp (f a) Q) d → wp (m ≫= f) Q d.
Proof. unfold wp, mbind, stateM_bind. by destruct (m d). Qed.
Lemma wp_get Q d : Q d d → wp get Q d.
Proof. done. Qed.
Lemma wp_modify f (Q : unit → Daemon → Prop) d : Q tt (f d) → wp (modify_daemon f) Q d.
Proof. done. Qed.
Lemma wp_channel (Q : Tx → Daemon → Prop) d : Q (d_next_tx d) (d <| d_next_tx ::= S |>) → wp channel Q d.
Proof. done. Qed.
Lemma wp_when b m (Q : unit → Daemon → Prop) d : (b = true → wp m Q d) → (b = false → Q tt d) → wp (when b m) Q d.
Proof. destruct b; intros H1 H2; [by apply H1|by apply H2]. Qed.
Lemma wp_weaken {A} (m : M A) (P Q : A → Daemon → Prop) d : wp m P d → (∀ a d', P a d' → Q a d') → wp m Q d.
Proof. unfold wp. auto. Qed.

Section Settings.
Context `{SettingsJson} (beta : bool) (env : Env).

(** The state after a change of the settings: the file, and the listeners. *)
Definition settings_changed (text : option string) (new : Settings) (d : Daemon) : Daemon :=
  (on_settings_change new
     (d <| d_settings := {| p_settings := new; p_file := text; p_notified := new :: p_notified (d_settings d) |} |>)).2.

Lemma persister_same {E A} (op : SettingsPersister → result E A * SettingsPersister) (Q : result E A → Daemon → Prop) d r :
  op (d_settings d) = (r, d_settings d) → Q r d → wp (persister op) Q d.
Proof. unfold wp, persister. intros ->. rewrite Nat.sub_diag; cbn. by destruct d. Qed.
Lemma persister_changed {E A} (op : SettingsPersister → result E A * SettingsPersister) (Q : result E A → Daemon → Prop) d r
    (new : Settings) file :
  op (d_settings d) = (r, {| p_settings := new; p_file := file; p_notified := new :: p_notified (d_settings d) |}) →
  Q r (settings_changed file new d) → wp (persister op) Q d.
Proof.
  unfold wp, persister. intros ->; cbn.
  assert (∀ n : nat, S n - n = 1)%nat as Hn by (intros; lia). rewrite Hn. cbn. by rewrite take_0.
Qed.

Lemma wp_try_update k f (Q : result SettingsPersister.Error bool → Daemon → Prop) d :
  (∀ e, Q (Err e) d) → Q (Ok false) d →
  (∀ new text, f (settings d) = Ok new → new ≠ settings d → Q (Ok true) (settings_changed (Some text) new d)) →
  wp (settings_try_update env k f) Q d.
Proof.
  intros He Hs Hc. unfold settings_try_update.
  pose proof (try_update_outcome (io env k) f (d_settings d)) as Ho.
  destruct (try_update (io env k) f (d_settings d)) as [r p] eqn:E. cbn in Ho. destruct Ho as [e|Hf|new text Hf Hne Ht].
  - by eapply persister_same.
  - by eapply persister_same.
  - eapply persister_changed; [done|]. by apply Hc.
Qed.
Lemma wp_update k f (Q : result SettingsPersister.Error bool → Daemon → Prop) d :
  (∀ e, Q (Err e) d) → Q (Ok false) d →
  (∀ text, f (settings d) ≠ settings d → Q (Ok true) (settings_changed (Some text) (f (settings d)) d)) →
  wp (settings_update env k f) Q d.
Proof. intros He Hs Hc. apply wp_try_update; [done|done|]. intros new text [= <-]. apply Hc. Qed.

(** A reset that fails replaces the settings and calls no listener. *)
Lemma wp_reset k (Q : result SettingsPersister.Error unit → Daemon → Prop) d :
  let new := default_settings beta (fresh_ids (io env k)) in
  (∀ text, Q (Ok tt) (settings_changed text new d)) →
  (∀ e, Q (Err e) (d <| d_settings ::= λ p, p <| p_settings := new |> |>)) →
  wp (settings_reset beta env k) Q d.
Proof.
  intros new Ho He. unfold settings_reset.
  assert ((∃ text, reset beta (io env k) (d_settings d) =
            (Ok tt, {| p_settings := new; p_file := text; p_notified := new :: p_notified (d_settings d) |})) ∨
          (∃ e, reset beta (io env k) (d_settings d) = (Err e, d_settings d <| p_settings := new |>))) as [[text E]|[e E]].
  { destruct (d_settings d) as [s file told]. unfold reset, save; cbn. fold new.
    destruct (save_inner_cases (io env k) new file) as [[e ->]|(text & _ & ->)]; cbn; [|by left; eexists].
    unfold remove_settings_file; cbn. destruct (remove_fault (io env k)); cbn; [by right; eexists|].
    destruct file; cbn; [by left; eexists|by right; eexists]. }
  - by eapply persister_changed.
  - unfold wp, persister. rewrite E; cbn. rewrite Nat.sub_diag; cbn. apply He.
Qed.

Context `{PatchJson}.
Lemma wp_patch k blob (Q : result patch.Error unit → Daemon → Prop) d :
  (∀ r, Q r d) →
  (∀ new text, merge_validate_patch_inner (settings d) blob = Ok new → new ≠ settings d →
     Q (Ok tt) (settings_changed (Some text) new d)) →
  wp (persister (merge_validate_patch (io env k) blob)) Q d.
Proof.
  intros Hs Hc. destruct (merge_validate_patch_inner (settings d) blob) as [new|e] eqn:Em.
  - pose proof (try_update_outcome (io env k) (λ _, Ok new) (d_settings d)) as Ho.
    unfold SettingsPersister.update in *. destruct (try_update (io env k) (λ _, Ok new) (d_settings d)) as [r p] eqn:E.
    assert (merge_validate_patch (io env k) blob (d_settings d) =
      (match r with Ok _ => Ok tt | Err e => Err (patch.Settings e) end, p)) as Ep.
    { unfold merge_validate_patch. fold (settings d). rewrite Em. unfold SettingsPersister.update. by rewrite E. }
    cbn in Ho. destruct Ho as [e|_|new' text [= <-] Hne _]; [eapply persister_same; [exact Ep|apply Hs]..|].
    eapply persister_changed; [exact Ep|]. by apply Hc.
  - eapply persister_same; [|by apply Hs]. unfold merge_validate_patch. fold (settings d). by rewrite Em.
Qed.
End Settings.

(** The generator of parameters gets new tunnel options through a channel and a task of its own: when
    the daemon asks for a reconnect because of them, it still has the old ones. *)
Lemma options_lag text s d :
  let d' := settings_changed text s d in
  settings d' = s ∧ pg_tunnel_options (d_parameters_generator d') = pg_tunnel_options (d_parameters_generator d) ∧
  d_param_gen d' = d_param_gen d ++ [s_tunnel_options s].
Proof. done. Qed.

(** Each change of the settings spawns a task that passes on the access methods, and nothing keeps
    two of them in order: the old methods may be the last ones that arrive. *)
Lemma methods_reordered `{Keys} a text1 text2 s1 s2 d :
  d_tasks d = [] →
  let d1 := settings_changed text2 s2 (settings_changed text1 s1 d) in
  ∃ t1 t2, d_tasks d1 = [t1; t2] ∧
    head (d_out (run_task a t1 (run_task a t2 d1).2).2) = Some (ToAccessMode (AccessMode.Update (s_api_access_methods s1))).
Proof.
  intros Hd d1. exists (TaskUpdateAccessMethods (s_api_access_methods s1)), (TaskUpdateAccessMethods (s_api_access_methods s2)).
  split; [|done]. change (d_tasks d1) with ((d_tasks d ++ [TaskUpdateAccessMethods (s_api_access_methods s1)]) ++
    [TaskUpdateAccessMethods (s_api_access_methods s2)]). by rewrite Hd.
Qed.

(** A daemon that has started. *)
Lemma start_inv `{SettingsJson} `{TargetStateJson} `{IpNetworkCrate} beta a d :
  start beta a = Ok d →
  let p := load beta (io (sa_env a) 0) (sa_file a) in
  ∃ h b, finish_start a (initial_daemon a p h
    (target_start (s_auto_connect (p_settings p)) (sa_target_read_fault a) (target_write (sa_env a)) (sa_target_file a))) = (Ok b, d).
Proof.
  unfold start. destruct (if sa_services_before a then _ else _) as [h|]; [|done]. destruct (negb _); [done|].
  destruct (finish_start a _) as [[b|e] d'] eqn:E; [|done]. intros [= <-]. eauto.
Qed.

(** One step of a handler; [wp_run] takes all of them. *)
Ltac wp_head m := lazymatch m with ?f _ => wp_head f | _ => m end.
Ltac wp_step :=
  lazymatch goal with
  | |- wp (mret _) _ _ => apply wp_mret
  | |- wp (mbind _ _) _ _ => apply wp_mbind
  | |- wp get _ _ => apply wp_get
  | |- wp (modify_daemon _) _ _ => apply wp_modify
  | |- wp channel _ _ => apply wp_channel
  | |- wp (when _ _) _ _ => apply wp_when; intros ?
  | |- wp (settings_update _ _ _) _ _ => apply wp_update; [intros ?| |intros ? ?]
  | |- wp (settings_try_update _ _ _) _ _ => apply wp_try_update; [intros ?| |intros ? ? ? ?]
  | |- wp (settings_reset _ _ _) _ _ => apply wp_reset; intros ?
  | |- wp (persister (merge_validate_patch _ _)) _ _ => apply wp_patch; [intros ?|intros ? ? ? ?]
  | |- wp (match ?x with _ => _ end) _ _ => destruct x eqn:?
  | |- wp ?m _ _ => let h := wp_head m in unfold h
  end; cbv beta.
Ltac wp_run := repeat wp_step.

(** ** Invariants

    [keeps I m]: running [m] keeps [I].  [keep_run] takes a handler apart, with a
    tactic for the leaves. *)
Definition keeps {S} (I : S → Prop) {A} (m : stateM S A) : Prop := ∀ s, I s → I (m s).2.

Section Keeps.
Context {S : Type} (I : S → Prop).
Lemma keeps_ret {A} (a : A) : keeps I (mret a).
Proof. by intros s. Qed.
Lemma keeps_bind {A B} (m : stateM S A) (f : A → stateM S B) : keeps I m → (∀ a, keeps I (f a)) → keeps I (m ≫= f).
Proof. intros Hm Hf s Hs. unfold mbind, stateM_bind. specialize (Hm s Hs). destruct (m s) as [a s']. by apply Hf. Qed.
End Keeps.
Lemma keeps_get (I : Daemon → Prop) : keeps I get.
Proof. by intros d. Qed.
Lemma keeps_get_bind (I : Daemon → Prop) {A} (f : Daemon → M A) : (∀ d, I d → keeps I (f d)) → keeps I (get ≫= f).
Proof. intros Hf d Hd. by apply (Hf d). Qed.
Lemma keeps_when (I : Daemon → Prop) b m : (b = true → keeps I m) → keeps I (when b m).
Proof. destruct b; [intros Hm; by apply Hm|]. by intros _ d. Qed.
Lemma keeps_wp (I : Daemon → Prop) {A} (m : M A) : (∀ d, I d → wp m (λ _ d', I d') d) → keeps I m.
Proof. done. Qed.

Ltac keep_step leaf :=
  lazymatch goal with
  | |- keeps _ (mret _) => apply keeps_ret
  | |- keeps _ (mbind _ get) => apply keeps_get_bind; intros ? ?
  | |- keeps _ (mbind _ _) => apply keeps_bind; [|intros ?]
  | |- keeps _ get => apply keeps_get
  | |- keeps _ (when _ _) => apply keeps_when; intros ?
  | |- keeps _ (match ?x with _ => _ end) => destruct x eqn:?
  | |- keeps _ ?m => let h := wp_head m in unfold h
  end.
Ltac keep_run leaf := repeat first [leaf | keep_step leaf]; try done.

(** ** What the tunnel state machine was told *)

Definition told_allow_lan (out : list Output) : option bool :=
  head (omap (λ o, match o with
                   | ToTunnel (AllowLan b _) => Some b
                   | SpawnTunnel i => Some (is_allow_lan i)
                   | _ => None
                   end) out).
Definition told_lockdown (out : list Output) : option LockdownMode :=
  head (omap (λ o, match o with
                   | ToTunnel (TunnelStates.SetLockdownMode m _) => Some m
                   | SpawnTunnel i => Some (is_lockdown_mode i)
                   | _ => None
                   end) out).
Definition told_dns (out : list Output) : option DnsConfig :=
  head (omap (λ o, match o with
                   | ToTunnel (Dns c _) => Some c
                   | SpawnTunnel i => Some (is_dns_config i)
                   | _ => None
                   end) out).

(** The settings that concern it. *)
Definition tunnel_settings (s : Settings) : bool * bool * DnsOptions :=
  (s_allow_lan s, s_lockdown_mode s, dns_options (s_tunnel_options s)).

Section Theorems.
Context `{SettingsJson} `{TargetStateJson} `{PatchJson} `{Keys} `{IpNetworkCrate} `{Host}.
Context (beta : bool) (VERSION : Version) (chars : string → nat).
Context (key_bytes : string → list Z) (lookup : string → option (list IpAddr)).

Abbreviation step := (step beta VERSION chars key_bytes lookup).
Abbreviation run := (run beta VERSION chars key_bytes lookup).
Abbreviation receive := (receive beta VERSION chars).

(** ** Settings in force *)

(** Lockdown mode is switched on before a restart or a shutdown, whatever the setting,
    and a factory reset leaves the rest to the shutdown it causes. *)
Record in_force (d : Daemon) : Prop := {
  force_lan : d_shutdown_tasks d = [] → told_allow_lan (d_out d) = Some (s_allow_lan (settings d));
  force_dns : d_shutdown_tasks d = [] →
    told_dns (d_out d) = Some (addresses_from_options (dns_options (s_tunnel_options (settings d))));
  force_lockdown : d_shutdown_tasks d = [] → d_phase d = Running → ts_locked (d_target_state d) = false →
    told_lockdown (d_out d) = Some (LockdownMode_from (s_lockdown_mode (settings d)))
}.

Section InForce.
Context (env : Env).

Lemma set_relay_settings_tunnel r s : tunnel_settings (set_relay_settings r s) = tunnel_settings s.
Proof. unfold set_relay_settings. case_decide; [done|]. by destruct (_ && _). Qed.
Lemma update_recents_tunnel s : tunnel_settings (update_recents s) = tunnel_settings s.
Proof. unfold update_recents. destruct (s_recents s); [|done]. by destruct (Recent_try_from (s_relay_settings s)). Qed.
Lemma enable_recents_tunnel b s : tunnel_settings (enable_recents b s) = tunnel_settings s.
Proof. unfold enable_recents. destruct (s_recents s), b; try done. by rewrite update_recents_tunnel. Qed.
Lemma set_allowed_ips_tunnel ips s : tunnel_settings (set_allowed_ips ips s) = tunnel_settings s.
Proof. unfold set_allowed_ips. by destruct (s_relay_settings s). Qed.
Lemma set_custom_lists_tunnel f s new : set_custom_lists f s = Ok new → tunnel_settings new = tunnel_settings s.
Proof. unfold set_custom_lists. destruct (f _); cbn; [by intros [= <-]|done]. Qed.
Lemma set_access_methods_tunnel box f s new : set_access_methods box f s = Ok new → tunnel_settings new = tunnel_settings s.
Proof. unfold set_access_methods. destruct (f _); cbn; [by intros [= <-]|done]. Qed.

Lemma in_force_changed text new d :
  tunnel_settings new = tunnel_settings (settings d) → in_force d → in_force (settings_changed text new d).
Proof.
  intros [= E1 E2 E3] []. constructor; change (settings (settings_changed text new d)) with new; rewrite ?E1, ?E2, ?E3; assumption.
Qed.

Lemma in_force_try_update k f :
  (∀ s new, f s = Ok new → tunnel_settings new = tunnel_settings s) → keeps in_force (settings_try_update env k f).
Proof. intros Hf. apply keeps_wp. intros d Hd. apply wp_try_update; [done|done|]. intros new text E _. apply in_force_changed; eauto. Qed.
Lemma in_force_update k f : (∀ s, tunnel_settings (f s) = tunnel_settings s) → keeps in_force (settings_update env k f).
Proof. intros Hf. apply keeps_wp. intros d Hd. apply wp_update; [done|done|]. intros text _. by apply in_force_changed. Qed.
Lemma in_force_patch k blob : keeps in_force (persister (merge_validate_patch (io env k) blob)).
Proof.
  apply keeps_wp. intros d Hd. apply wp_patch; [done|]. intros new text E%patch_changes_overrides _.
  apply in_force_changed; [by rewrite E|done].
Qed.

(** The operations that tell the state machine. *)
Lemma in_force_allow_lan tx b : keeps in_force (on_set_allow_lan env tx b).
Proof. apply keeps_wp. intros d []. unfold on_set_allow_lan. wp_run; by constructor. Qed.
Lemma in_force_lockdown tx b : keeps in_force (on_set_lockdown_mode env tx b).
Proof. apply keeps_wp. intros d []. unfold on_set_lockdown_mode. wp_run; by constructor. Qed.
Lemma in_force_dns tx o : keeps in_force (on_set_dns_options env tx o).
Proof. apply keeps_wp. intros d []. unfold on_set_dns_options. wp_run; by constructor. Qed.
Lemma in_force_reset_all tx : keeps in_force (on_reset_settings beta env tx).
Proof. apply keeps_wp. intros d []. unfold on_reset_settings. wp_run; by constructor. Qed.
Lemma in_force_restart b : keeps in_force (on_prepare_restart b).
Proof. apply keeps_wp. intros d []. unfold on_prepare_restart. wp_run; by constructor. Qed.

(** From a factory reset on nothing is promised. *)
Lemma in_force_stopping d x : in_force (d <| d_shutdown_tasks ::= λ l, l ++ [x] |>).
Proof. constructor; cbn; intros Ht; by apply app_nil in Ht as [_ ?]. Qed.
Lemma in_force_factory_reset tx : keeps in_force (on_factory_reset beta env tx).
Proof. apply keeps_wp. intros d _. unfold on_factory_reset. wp_run; apply in_force_stopping. Qed.

Lemma in_force_set o s : keeps in_force (modify_daemon (λ d, d <| d_target_state ::= ts_set o s |>)).
Proof.
  intros d []. assert (ts_locked (ts_set o s (d_target_state d)) = ts_locked (d_target_state d)) as E.
  { unfold ts_set. by case_decide. }
  constructor; cbn; rewrite ?E; assumption.
Qed.

Ltac in_force_leaf :=
  idtac; lazymatch goal with
  | |- keeps _ (on_set_allow_lan _ _ _) => apply in_force_allow_lan
  | |- keeps _ (on_set_lockdown_mode _ _ _) => apply in_force_lockdown
  | |- keeps _ (on_set_dns_options _ _ _) => apply in_force_dns
  | |- keeps _ (on_reset_settings _ _ _) => apply in_force_reset_all
  | |- keeps _ (on_prepare_restart _) => apply in_force_restart
  | |- keeps _ (on_factory_reset _ _ _) => apply in_force_factory_reset
  | |- keeps _ (persister _) => apply in_force_patch
  | |- keeps _ (settings_try_update _ _ _) =>
      apply in_force_try_update; intros;
      first [eapply set_custom_lists_tunnel; eassumption | eapply set_access_methods_tunnel; eassumption]
  | |- keeps _ (settings_update _ _ (set_relay_settings _)) => apply in_force_update, set_relay_settings_tunnel
  | |- keeps _ (settings_update _ _ update_recents) => apply in_force_update, update_recents_tunnel
  | |- keeps _ (settings_update _ _ (enable_recents _)) => apply in_force_update, enable_recents_tunnel
  | |- keeps _ (settings_update _ _ (set_allowed_ips _)) => apply in_force_update, set_allowed_ips_tunnel
  | |- keeps _ (settings_update _ _ _) => apply in_force_update; reflexivity
  | |- keeps _ (modify_daemon (λ _, _ <| d_target_state ::= ts_set _ _ |>)) => apply in_force_set
  | |- keeps _ (modify_daemon _) => intros ? []; constructor; assumption
  | |- keeps _ (send_out _) => intros ? []; constructor; assumption
  | |- keeps _ channel => intros ? []; constructor; assumption
  end.
Lemma in_force_command c : keeps in_force (handle_command beta VERSION chars env c).
Proof. unfold handle_command. keep_run in_force_leaf. Qed.

Lemma in_force_transition t : keeps in_force (handle_tunnel_state_transition env t).
Proof. unfold handle_tunnel_state_transition. keep_run in_force_leaf. Qed.

(** Once the loop has ended, lockdown mode is on whatever the setting. *)
Definition force_stopping (d : Daemon) : Prop := in_force (d <| d_phase := Stopping |>).
Lemma in_force_ended d : in_force d → force_stopping d.
Proof. intros []. by constructor. Qed.
Ltac stopping_leaf :=
  idtac; lazymatch goal with
  | |- keeps _ (modify_daemon _) => intros ? []; constructor; first [assumption | done]
  | |- keeps _ (send_out _) => intros ? []; constructor; first [assumption | done]
  | |- keeps _ channel => intros ? []; constructor; first [assumption | done]
  end.
Lemma stopping_trigger b : keeps force_stopping (on_trigger_shutdown b).
Proof. keep_run stopping_leaf. Qed.
Lemma stopping_tasks ts : keeps force_stopping (run_shutdown_tasks env ts).
Proof.
  induction ts as [|[tx e] ts IH]; cbn [run_shutdown_tasks]; [apply keeps_ret|].
  apply keeps_bind; [unfold oneshot_send; stopping_leaf|done].
Qed.
Lemma stopping_ends p d : p ≠ Running → force_stopping d → in_force (d <| d_phase := p |>).
Proof. intros Hp []. by constructor. Qed.
Lemma finalize_ends d : force_stopping d → in_force (finalize env d).2.
Proof.
  intros Hd. assert (keeps force_stopping (d ← get; _ ← run_shutdown_tasks env (d_shutdown_tasks d);
    _ ← modify_daemon (λ d, d <| d_target_state ::= ts_finalize (target_remove_fails env) |>);
    ask_account_manager CmdShutdown)) as Hk.
  { apply keeps_bind; [apply keeps_get|intros ?]. apply keeps_bind; [apply stopping_tasks|intros _]. keep_run stopping_leaf. }
  apply Hk in Hd. revert Hd. unfold finalize, mbind, stateM_bind; cbn. destruct (run_shutdown_tasks _ _ _); cbn.
  by apply stopping_ends.
Qed.
Lemma in_force_stop d : force_stopping d → in_force (disconnect_tunnel_and_wait env d).2.
Proof.
  intros Hd. unfold disconnect_tunnel_and_wait, mbind, stateM_bind; cbn.
  destruct (is_disconnected _); [by apply finalize_ends|]. apply stopping_ends; [done|]. by destruct Hd; constructor.
Qed.

(** Only a shutdown ends the loop. *)
Definition ends_loop (e : InternalDaemonEvent) : bool := match e with TriggerShutdown _ => true | _ => false end.
Lemma handle_event_result e d : (handle_event beta VERSION chars env e d).1 = ends_loop e.
Proof.
  assert (∀ (m : M unit) (b : bool), ((m ≫= λ _, mret b) d).1 = b) as Hb.
  { intros m b. unfold mbind, stateM_bind. by destruct (m d). }
  destruct e; cbn [handle_event]; first [apply Hb | done].
Qed.

Lemma in_force_event e : ends_loop e = false → keeps in_force (handle_event beta VERSION chars env e).
Proof.
  intros He. destruct e; [| |done|..]; cbn [handle_event].
  - apply keeps_bind; [apply in_force_transition|intros; apply keeps_ret].
  - apply keeps_bind; [apply in_force_command|intros; apply keeps_ret].
  - keep_run in_force_leaf.
  - keep_run in_force_leaf.
  - keep_run in_force_leaf.
  - keep_run in_force_leaf.
  - keep_run in_force_leaf.
  - keep_run in_force_leaf.
  - keep_run in_force_leaf.
Qed.

Lemma in_force_receive e : keeps in_force (receive env e).
Proof.
  intros d Hd. unfold Daemon.receive, mbind, stateM_bind; cbn. destruct (d_phase d); [| |done].
  - pose proof (handle_event_result e d) as Hr. destruct (ends_loop e) eqn:Ee.
    + destruct e; try done. cbn in *. unfold mbind, stateM_bind in *.
      destruct (on_trigger_shutdown user_init d) as [[] d'] eqn:E. cbn. apply in_force_stop.
      change d' with ((tt, d').2). rewrite <- E. by apply stopping_trigger, in_force_ended.
    + pose proof (in_force_event e Ee d Hd) as He. destruct (handle_event _ _ _ _ _ _) as [b d']. cbn in *. by subst b.
  - destruct e; try done. pose proof (in_force_transition transition d Hd) as Ht.
    destruct (handle_tunnel_state_transition _ _ _) as [[] d']. cbn in *.
    destruct (is_disconnected _); [|done]. by apply finalize_ends, in_force_ended.
Qed.

Lemma in_force_task a t : keeps in_force (run_task a t).
Proof. keep_run in_force_leaf. Qed.
Lemma in_force_seed k seed : keeps in_force (settings_update env k (insert_rollout_seed seed)).
Proof. apply in_force_update. intros s. unfold insert_rollout_seed. by destruct (s_rollout_threshold_seed s). Qed.
Lemma in_force_finish_start a : sa_env a = env → keeps in_force (finish_start a).
Proof. intros E. unfold finish_start. rewrite E. apply keeps_bind; [apply in_force_seed|intros]. keep_run in_force_leaf. Qed.
Lemma in_force_initial_target : keeps in_force handle_initial_target_state.
Proof. keep_run in_force_leaf. Qed.
End InForce.

Lemma in_force_step i : ∀ d, in_force d → in_force (step d i).
Proof.
  intros d Hd. destruct i as [env e|env|a i| |data n av g|time|time l]; cbn.
  - by apply in_force_receive.
  - destruct (d_queue d) as [|e q]; [done|]. apply in_force_receive. by destruct Hd; constructor.
  - destruct (d_tasks d !! i) as [t|]; [|done]. apply in_force_task. by destruct Hd; constructor.
  - destruct (d_param_gen d); [done|]. by destruct Hd; constructor.
  - by destruct Hd; constructor.
  - destruct (d_reconnection_job d) as [job|]; [|done]. destruct (_ && _); [|done]. by destruct Hd; constructor.
  - by destruct Hd; constructor.
Qed.

Lemma initial_in_force a p h t : in_force (initial_daemon a p h t).
Proof. by constructor. Qed.
Lemma start_in_force a d : start beta a = Ok d → in_force d.
Proof.
  intros (h & b & E)%start_inv. apply (f_equal snd) in E. cbn in E. subst d.
  by apply in_force_finish_start with (sa_env a), initial_in_force.
Qed.
Lemma run_in_force d inputs : in_force d → in_force (run d inputs).
Proof. revert d. induction inputs as [|i inputs IH]; intros d Hd; [done|]. by apply IH, in_force_step. Qed.
End Theorems.
