(* ===== verification/DaemonTunnel.v ===== *)
(** * The daemon and the tunnel state machine together

    The state machine handles the daemon's commands in the order they were sent, and
    keeps the values of the last ones, in all of its states.  With what the daemon
    tells it (DaemonTheorems.v), the firewall enforces the user's settings. *)

From S2P Require Import Prelude NetTypes TunnelTypes TunnelStates TunnelSafety TunnelHandlers TunnelTheorems.
From S2P Require Import Constraints RelayTypes CustomLists RelayMatcher RelaySelector.
From S2P Require Import Versions VersionRouter AccessMethods AccessMode Availability DeviceService AccountManager DaemonSettings.
From S2P Require Import SettingsPersister TargetState TunnelParams SettingsPatch GeoIp SplitTunnel DaemonTypes DaemonCommands Daemon DaemonTheorems.

(** ** Values the state machine keeps *)

(** Local network, DNS, lockdown. *)
Definition values (sv : SharedTunnelStateValues) : bool * DnsConfig * bool :=
  (allow_lan sv, dns_config sv, LockdownMode_bool (lockdown_mode sv)).
Definition commanded (c : TunnelCommand) (v : bool * DnsConfig * bool) : bool * DnsConfig * bool :=
  let '(lan, dns, lockdown) := v in
  match c with
  | AllowLan b _ => (b, dns, lockdown)
  | Dns c _ => (lan, c, lockdown)
  | TunnelStates.SetLockdownMode m _ => (lan, dns, LockdownMode_bool m)
  | _ => v
  end.
Definition after_input (i : EventResult) (v : bool * DnsConfig * bool) : bool * DnsConfig * bool :=
  match i with EvCommand (Some c) => commanded c v | _ => v end.

Section Machine.
Context {os : Type} `{TunnelOs os}.
Implicit Types (w : World os) (v : bool * DnsConfig * bool).

Definition has v w : Prop := values (w_sv w) = v.
Definition turns {A} v v' (m : stateM (World os) A) : Prop := ∀ w, has v w → has v' (m w).2.

Lemma keeps_call {A} v (f : os → A * os) : keeps (has v) (call f).
Proof. intros w Hw. unfold call. by destruct (f (w_os w)). Qed.
Lemma turns_bind {A B} v v' (m : stateM (World os) A) (f : A → stateM (World os) B) :
  turns v v' m → (∀ a, keeps (has v') (f a)) → turns v v' (m ≫= f).
Proof. intros Hm Hf w Hw. unfold mbind, stateM_bind. specialize (Hm w Hw). destruct (m w) as [a w']. by apply Hf. Qed.
Lemma turns_keeps {A} v v' (m : stateM (World os) A) : v = v' → keeps (has v) m → turns v v' m.
Proof. by intros <-. Qed.

Lemma get_sv_bind {A} (f : SharedTunnelStateValues → stateM (World os) A) w : (get_sv ≫= f) w = f (w_sv w) w.
Proof. done. Qed.

Ltac has_leaf :=
  idtac; lazymatch goal with
  | |- keeps _ (call _) => apply keeps_call
  | |- keeps _ (TunnelStates.emit _) => by intros ? ?
  | |- keeps _ get_sv => by intros ? ?
  | |- keeps _ (modify_sv _) => by intros ? ?
  | |- keeps _ fresh_tunnel => by intros ? ?
  end.

Lemma turns_allow_lan v b : turns v (b, v.1.2, v.2) (set_allow_lan b).
Proof.
  intros w Hw. unfold has, set_allow_lan, mbind, stateM_bind in *; cbn. subst v.
  destruct (Bool.eqb (allow_lan (w_sv w)) b) eqn:E; cbn; [|done]. apply eqb_prop in E. by subst b.
Qed.
Lemma turns_dns v c : turns v (v.1.1, c, v.2) (set_dns_config c).
Proof.
  intros w Hw. unfold has, set_dns_config, mbind, stateM_bind in *; cbn. subst v. case_decide as E; cbn; [|done]. by subst c.
Qed.
Lemma turns_lockdown v m : turns v (v.1.1, v.1.2, LockdownMode_bool m) (modify_sv (with_lockdown_mode m)).
Proof. intros w Hw. unfold has in *. by subst v. Qed.

(** The three commands in a state where the rest of the handler keeps the values. *)
Ltac turns_command :=
  lazymatch goal with
  | |- turns ?v _ (set_allow_lan _ ≫= _) => eapply (turns_bind v (_, v.1.2, v.2)); [apply turns_allow_lan|intros; keep_run has_leaf]
  | |- turns ?v _ (set_dns_config _ ≫= _) => eapply (turns_bind v (v.1.1, _, v.2)); [apply turns_dns|intros; keep_run has_leaf]
  | |- turns ?v _ (modify_sv (with_lockdown_mode _) ≫= _) =>
      eapply (turns_bind v (v.1.1, v.1.2, _)); [apply turns_lockdown|intros; keep_run has_leaf]
  | |- _ => apply turns_keeps; [done|]; keep_run has_leaf
  end.

Lemma disconnected_values lan dns l c :
  turns (lan, dns, l) (after_input (EvCommand c) (lan, dns, l)) (DisconnectedState_handle_event c).
Proof.
  destruct c as [[b tx|e tx|d tx|m tx|n| | |r]|]; cbn [DisconnectedState_handle_event after_input commanded]; try turns_command.
  intros w Hw. rewrite get_sv_bind. destruct (LockdownMode_eq (lockdown_mode (w_sv w)) m) eqn:E; cbn [negb].
  - unfold has in *. cbn. unfold LockdownMode_eq in E. apply eqb_prop in E. by injection Hw as <- <- <-; rewrite <- E.
  - revert w Hw E. intros w Hw _. revert w Hw.
    match goal with |- ∀ w, has _ w → has ?v' (?m w).2 => change (turns (lan, dns, l) v' m) end. turns_command.
Qed.
Lemma connecting_values s lan dns l c :
  turns (lan, dns, l) (after_input (EvCommand c) (lan, dns, l)) (ConnectingState_handle_commands s c).
Proof.
  destruct c as [[b tx|e tx|d tx|m tx|n| | |r]|]; cbn [ConnectingState_handle_commands after_input commanded]; turns_command.
Qed.
Lemma connected_values s lan dns l c :
  turns (lan, dns, l) (after_input (EvCommand c) (lan, dns, l)) (ConnectedState_handle_commands s c).
Proof.
  destruct c as [[b tx|e tx|d tx|m tx|n| | |r]|]; cbn [ConnectedState_handle_commands after_input commanded]; turns_command.
Qed.
Lemma error_values reason lan dns l c :
  turns (lan, dns, l) (after_input (EvCommand c) (lan, dns, l)) (ErrorState_handle_event reason c).
Proof.
  destruct c as [[b tx|e tx|d tx|m tx|n| | |r]|]; cbn [ErrorState_handle_event after_input commanded]; turns_command.
Qed.
Lemma disconnecting_values s lan dns l c :
  turns (lan, dns, l) (after_input (EvCommand c) (lan, dns, l)) (DisconnectingState_handle_commands s c).
Proof.
  unfold DisconnectingState_handle_commands. eapply turns_bind; [|intros; apply keeps_ret].
  destruct c as [[b tx|e tx|d tx|m tx|n| | |r]|]; cbn [after_input commanded]; turns_command.
Qed.

Lemma handler_values st r handler v : TunnelStates.handle_event st r = Some handler → turns v (after_input r v) handler.
Proof.
  destruct v as [[lan dns] l]. destruct st as [|s|s|s|reason]; cbn [TunnelStates.handle_event].
  - destruct r as [c| |]; [|done..]. intros [= <-]. apply disconnected_values.
  - destruct r as [c|e|x]; cbn [ConnectingState_handle_event]; [intros [= <-]; apply connecting_values| |destruct (is_terminated _); [done|]];
      intros [= <-]; (apply turns_keeps; [done|keep_run has_leaf]).
  - destruct r as [c|e|x]; cbn [ConnectedState_handle_event]; [intros [= <-]; apply connected_values| |destruct (is_terminated _); [done|]];
      intros [= <-]; (apply turns_keeps; [done|keep_run has_leaf]).
  - destruct r as [c|e|x]; cbn [DisconnectingState_handle_event]; [intros [= <-]; apply disconnecting_values|done|].
    destruct (is_terminated _); intros [= <-]; (apply turns_keeps; [done|keep_run has_leaf]).
  - destruct r as [c| |]; [|done..]. intros [= <-]. apply error_values.
Qed.

Lemma step_values (m m' : TunnelStateMachine (os := os)) r ok t :
  TunnelStates.step m r ok = Some (t, m') → values (w_sv (world m')) = after_input r (values (w_sv (world m))).
Proof.
  unfold TunnelStates.step. destruct (current_state m) as [st|]; cbn; [|done].
  destruct (TunnelStates.handle_event st r) as [handler|] eqn:E; cbn; [|done].
  pose proof (handler_values _ _ _ (values (w_sv (world m))) E (world m) eq_refl) as Hv. unfold has in Hv.
  destruct (handler (world m)) as [c w']. cbn in Hv. rewrite <- Hv. clear.
  assert (values (w_sv (world (TunnelStates.stop w'))) = values (w_sv w')) as Hs by (unfold TunnelStates.stop, call; by destruct (route_stop _)).
  destruct c; [destruct ok|..]; intros [= <- <-]; done.
Qed.

Definition initial_values (i : InitialTunnelState) : bool * DnsConfig * bool :=
  (is_allow_lan i, is_dns_config i, LockdownMode_bool (is_lockdown_mode i)).
Lemma new_values i c (o : os) : values (w_sv (world (TunnelStateMachine_new i c o))) = initial_values i.
Proof.
  unfold TunnelStateMachine_new. set (w0 := {| w_sv := _ |}).
  assert (keeps (has (initial_values i)) (DisconnectedState_enter (reset_firewall i))) as Hk by keep_run has_leaf.
  specialize (Hk w0 eq_refl). by destruct (DisconnectedState_enter _ w0).
Qed.

(** The commands of the daemon among the inputs: connectivity is told by another actor. *)
Definition daemon_command (r : EventResult) : option TunnelCommand :=
  match r with
  | EvCommand (Some (SetConnectivity _)) => None
  | EvCommand c => c
  | _ => None
  end.
Definition daemon_commands (inputs : list (EventResult * bool)) : list TunnelCommand := omap (λ i, daemon_command i.1) inputs.

Lemma run_values inputs (m m' : TunnelStateMachine (os := os)) ts :
  TunnelStates.run inputs m = Some (ts, m') →
  values (w_sv (world m')) = foldl (λ v c, commanded c v) (values (w_sv (world m))) (daemon_commands inputs).
Proof.
  revert m ts. induction inputs as [|i inputs IH]; intros m ts Hr; [by injection Hr as _ <-|].
  apply run_step_inv in Hr as (t & m1 & ts' & Hs & Hr). rewrite (IH _ _ Hr), (step_values _ _ _ _ _ Hs).
  unfold daemon_commands. by destruct i as [[[[]|]|e|x] ok]; cbn; destruct (values (w_sv (world m))) as [[? ?] ?].
Qed.
End Machine.

(** ** What the daemon sent *)

(** The machine it started, and the commands since, the last one first. *)
Fixpoint spawned (out : list Output) : option InitialTunnelState :=
  match out with
  | [] => None
  | SpawnTunnel i :: _ => Some i
  | _ :: out => spawned out
  end.
Fixpoint sent (out : list Output) : list TunnelCommand :=
  match out with
  | [] => []
  | SpawnTunnel _ :: _ => []
  | ToTunnel c :: out => c :: sent out
  | _ :: out => sent out
  end.
Definition told (out : list Output) : option (bool * DnsConfig * bool) :=
  (λ i, foldr commanded (initial_values i) (sent out)) <$> spawned out.

Lemma told_parts out v : told out = Some v →
  told_allow_lan out = Some v.1.1 ∧ told_dns out = Some v.1.2 ∧ LockdownMode_bool <$> told_lockdown out = Some v.2.
Proof.
  revert v. induction out as [|o out IH]; intros v; [done|]. unfold told in *.
  destruct o as [c|i| | | | | | | | |]; cbn [spawned sent foldr]; [|by intros [= <-]|apply IH..].
  destruct (spawned out) as [i|]; cbn; [|done]. intros [= <-]. destruct (IH _ eq_refl) as (H1 & H2 & H3).
  destruct (foldr _ _ _) as [[lan dns] l]. destruct c; by cbn.
Qed.

Lemma foldl_rev_foldr {A B} (f : A → B → B) l b : foldl (λ b a, f a b) b (rev l) = foldr f b l.
Proof. induction l as [|a l IH]; cbn; [done|]. rewrite foldl_app; cbn. by rewrite IH. Qed.

(** ** The user's settings and the firewall *)

Section Enforced.
Context `{SettingsJson} `{TargetStateJson} `{PatchJson} `{Keys} `{IpNetworkCrate} `{Host}.
Context (beta : bool) (VERSION : Version) (chars : string → nat).
Context (key_bytes : string → list Z) (lookup : string → option (list IpAddr)).
Context {os : Type} `{TunnelOs os}.

(** The policy a state of the machine should have, with the settings [s]. *)
Definition user_policy (st : TunnelStates.TunnelState) (s : Settings) (w : World os) : Prop :=
  let blocked := Blocked (s_allow_lan s) (Some (allowed_endpoint (w_sv w))) in
  match st with
  | StConnected c => enforced (w_os w) (Some (Connected (peer_endpoints_of (cd_tunnel_parameters c)) (cd_metadata c)
      (s_allow_lan s) (TunnelTypes.resolve (addresses_from_options (dns_options (s_tunnel_options s))) (gateways (cd_metadata c)))))
  | StConnecting c => ∃ md traffic, enforced (w_os w) (Some (Connecting (peer_endpoints_of (cg_tunnel_parameters c)) md
      (s_allow_lan s) (allowed_endpoint (w_sv w)) traffic)) ∧
      ((md, traffic) = (cg_tunnel_metadata c, cg_allowed_tunnel_traffic c) ∨
       (cg_tunnel_metadata c, cg_allowed_tunnel_traffic c) = (None, TrafficNone))
  | StDisconnecting _ => ∃ policy, enforced (w_os w) (Some policy)
  | StError _ => last_fw (w_log w) = Some true → enforced (w_os w) (Some blocked)
  | StDisconnected => last_fw (w_log w) = Some true →
      enforced (w_os w) (if s_lockdown_mode s then Some blocked else None)
  end.

Lemma policy_of_values st s w :
  firewall_ok st w →
  values (w_sv w) = (s_allow_lan s, addresses_from_options (dns_options (s_tunnel_options s)), s_lockdown_mode s) →
  user_policy st s w.
Proof.
  intros Hf [= E1 E2 E3]. unfold user_policy. rewrite <- E1, <- E2, <- E3. destruct st; cbn in *; try done.
Qed.

(** C6: What the user has set is what the firewall enforces.  After any sequence of
    events in the daemon, once the tunnel state machine the daemon started has
    handled the commands it was sent, and whatever else happened to it, access to
    the local network, the DNS servers and lockdown mode in the machine are those of
    the settings, and the firewall has the policy of the machine's state with them:
    connected, exactly the connected policy; connecting, the connecting policy with
    the metadata and traffic the state holds (left open when it holds none, since
    they are forgotten without a new policy when the device goes down); in the error
    state and disconnected, exactly the blocking policy or none as lockdown mode says,
    unless the last call to the firewall failed; while disconnecting, only that some
    policy is in force, because settings that change then are applied in the next
    state.  (Lockdown mode may be on against the settings while the daemon ends or
    after it was told to prepare for a restart; a factory reset under way is
    excluded.) *)
Theorem user_settings_enforced a d0 inputs i connectivity (o : os) tunnel_inputs ts m (st : TunnelStates.TunnelState) :
  start beta a = Ok d0 →
  let d := run beta VERSION chars key_bytes lookup (handle_initial_target_state d0).2 inputs in
  d_shutdown_tasks d = [] → d_phase d = Running → ts_locked (d_target_state d) = false →
  spawned (d_out d) = Some i →
  TunnelStates.run tunnel_inputs (TunnelStateMachine_new i connectivity o) = Some (ts, m) →
  daemon_commands tunnel_inputs = rev (sent (d_out d)) → current_state m = Some st →
  values (w_sv (world m)) =
    (s_allow_lan (settings d), addresses_from_options (dns_options (s_tunnel_options (settings d))), s_lockdown_mode (settings d)) ∧
  user_policy st (settings d) (world m).
Proof.
  intros Hs d Ht Hp Hl Hi Hr Hc Hst.
  assert (in_force d) as [Hlan Hdns Hlock].
  { apply run_in_force, in_force_initial_target. by eapply start_in_force. }
  specialize (Hlan Ht). specialize (Hdns Ht). specialize (Hlock Ht Hp Hl).
  assert (values (w_sv (world m)) =
    (s_allow_lan (settings d), addresses_from_options (dns_options (s_tunnel_options (settings d))), s_lockdown_mode (settings d))) as Hv.
  { rewrite (run_values _ _ _ _ Hr), new_values, Hc, foldl_rev_foldr.
    destruct (told_parts (d_out d) (foldr commanded (initial_values i) (sent (d_out d)))) as (E1 & E2 & E3);
      [unfold told; by rewrite Hi|].
    destruct (foldr commanded _ _) as [[lan dns] l]. cbn in *. rewrite Hlan in E1. rewrite Hdns in E2. rewrite Hlock in E3.
    cbn in E3. injection E1 as ->. injection E2 as ->. injection E3 as <-. by destruct (s_lockdown_mode (settings d)). }
  split; [done|]. apply policy_of_values; [|done]. apply reachable_inv; [|done].
  eapply runs_reachable; [|done]. apply reachable_new.
Qed.
End Enforced.
