(* ===== verification/DaemonIntent.v ===== *)
(** * The tunnel follows the user's wish

    The daemon asks for a tunnel when, and only when, the target state is the secured
    one, and a daemon that ends on its own leaves traffic blocked. *)

From S2P Require Import Prelude NetTypes TunnelTypes TunnelStates TunnelSafety TunnelHandlers TunnelTheorems.
From S2P Require Import Constraints RelayTypes CustomLists RelayMatcher RelaySelector.
From S2P Require Import Versions VersionRouter AccessMethods AccessMode Availability DeviceService AccountManager DaemonSettings.
From S2P Require Import SettingsPersister TargetState TunnelParams SettingsPatch GeoIp SplitTunnel DaemonTypes DaemonCommands Daemon DaemonTheorems DaemonTunnel.

(** What a message asks of the tunnel state machine: a tunnel or to block, or to be
    disconnected, as a new machine is. *)
Definition asks (o : Output) : option bool :=
  match o with
  | ToTunnel Connect | ToTunnel (Block _) => Some true
  | ToTunnel Disconnect | SpawnTunnel _ => Some false
  | _ => None
  end.
(** The last command that starts or ends the wish for a tunnel. *)
Definition turns_to (o : Output) : option bool :=
  match o with ToTunnel Connect => Some true | ToTunnel Disconnect | SpawnTunnel _ => Some false | _ => None end.
Definition wanted (out : list Output) : option bool := head (omap turns_to out).

Section Intent.
Context `{SettingsJson} `{TargetStateJson} `{PatchJson} `{Keys} `{IpNetworkCrate} `{Host}.
Context (beta : bool) (VERSION : Version) (chars : string → nat).
Context (key_bytes : string → list Z) (lookup : string → option (list IpAddr)).

(** ** One event *)

(** The messages sent since [base], while the target state is [t], ask only for
    what suits it. *)
Record suits (base : list Output) (t : TargetState) (d : Daemon) : Prop := {
  su_target : target_state d = t;
  su_out : ∃ new, d_out d = new ++ base ∧ Forall (λ o, asks o = None ∨ (asks o = Some true ∧ t = Secured)) new
}.
Section Suits.
Context (base : list Output) (t : TargetState) (env : Env).

Lemma suits_send o : asks o = None ∨ (asks o = Some true ∧ t = Secured) → keeps (suits base t) (send_out o).
Proof. intros Ho d [Ht (new & E & Hn)]. split; [done|]. exists (o :: new). cbn. rewrite E. split; [done|by constructor]. Qed.
Lemma suits_changed text new d : suits base t d → suits base t (settings_changed text new d).
Proof.
  intros [Ht (out & E & Hn)]. split; [done|]. exists (Notify (NotifySettings new) :: out).
  change (d_out (settings_changed text new d)) with (Notify (NotifySettings new) :: d_out d). rewrite E.
  split; [done|]. constructor; [by left|done].
Qed.
Lemma suits_try_update k f : keeps (suits base t) (settings_try_update env k f).
Proof. apply keeps_wp. intros d Hd. apply wp_try_update; eauto using suits_changed. Qed.
Lemma suits_update k f : keeps (suits base t) (settings_update env k f).
Proof. apply suits_try_update. Qed.
Lemma suits_patch k blob : keeps (suits base t) (persister (merge_validate_patch (io env k) blob)).
Proof. apply keeps_wp. intros d Hd. apply wp_patch; eauto using suits_changed. Qed.
Lemma suits_reset k : keeps (suits base t) (settings_reset beta env k).
Proof. apply keeps_wp. intros d Hd. apply wp_reset; [eauto using suits_changed|]. intros e. by destruct Hd. Qed.
Lemma suits_connect : t = Secured → keeps (suits base t) connect_tunnel.
Proof. intros Ht. apply suits_send. by right. Qed.
Lemma suits_reconnect : keeps (suits base t) reconnect_tunnel.
Proof.
  apply keeps_get_bind. intros d [Hd _]. apply keeps_when. intros E. apply bool_decide_eq_true in E. apply suits_connect. congruence.
Qed.

Ltac suits_leaf :=
  idtac; lazymatch goal with
  | |- keeps _ (settings_try_update _ _ _) => apply suits_try_update
  | |- keeps _ (settings_update _ _ _) => apply suits_update
  | |- keeps _ (settings_reset _ _ _) => apply suits_reset
  | |- keeps _ (persister _) => apply suits_patch
  | |- keeps _ reconnect_tunnel => apply suits_reconnect
  | |- keeps _ connect_tunnel =>
      apply suits_connect; match goal with H : suits _ _ ?d, E : bool_decide (target_state ?d = Secured) = true |- _ =>
        apply bool_decide_eq_true in E; destruct H; congruence end
  | |- keeps _ (send_tunnel_command (Block _)) =>
      apply suits_send; right; split; [done|];
      match goal with H : suits _ _ ?d, E : bool_decide (target_state ?d = Secured) = true |- _ =>
        apply bool_decide_eq_true in E; destruct H; congruence end
  | |- keeps _ (send_out _) => apply suits_send; by left
  | |- keeps _ (modify_daemon _) => intros ? []; by constructor
  | |- keeps _ channel => intros ? []; by constructor
  end.

Definition sets_target (e : InternalDaemonEvent) : bool :=
  match e with
  | Command (SetTargetState _ _) | Command (Reconnect _) | DeviceEvent_ (AeDevice EvLogout) | TriggerShutdown _ => true
  | _ => false
  end.
Lemma suits_event e : sets_target e = false → keeps (suits base t) (handle_event beta VERSION chars env e).
Proof.
  intros He. destruct e as [tr|c| | |[[]|]|ae tx| | | |]; cbn [handle_event]; try done; keep_run suits_leaf.
Qed.
End Suits.

(** *** The events that change the target state *)

Lemma target_set env s d : target_state (d <| d_target_state ::= ts_set (target_write env) s |>) = s.
Proof. unfold target_state, ts_set; cbn. by case_decide. Qed.

Lemma set_target_asks env s d :
  wp (set_target_state env s) (λ _ d',
    (target_state d' = s ∧ d_out d' = ToTunnel (if decide (s = Secured) then Connect else Disconnect) :: d_out d) ∨
    (d' = d ∧ target_state d = s)) d.
Proof.
  unfold set_target_state. apply wp_mbind, wp_get. destruct (negb _ || _) eqn:E.
  - apply wp_mbind, wp_modify, wp_mbind, wp_get. rewrite target_set. destruct s; wp_run; left; (split; [apply target_set|done]).
  - right. split; [done|]. apply orb_false_iff in E as [E _]. apply negb_false_iff, bool_decide_eq_true in E. done.
Qed.

(** What the theorem says of an event. *)
Definition follows_target (e : InternalDaemonEvent) (d d' : Daemon) : Prop :=
  ∃ new, d_out d' = new ++ d_out d ∧
    (Some true ∈ map asks new → target_state d' = Secured ∨
       ∃ tx, e = Command (Reconnect tx) ∧ is_in_error_state (d_tunnel_state d) = true) ∧
    (Some false ∈ map asks new → target_state d' = Unsecured ∨ ends_loop e = true) ∧
    (target_state d' ≠ target_state d →
       ((∃ tx, e = Command (SetTargetState tx (target_state d'))) ∨ e = DeviceEvent_ (AeDevice EvLogout)) ∧
       wanted new = Some (bool_decide (target_state d' = Secured))).

Ltac not_asked :=
  let H := fresh in intros H; exfalso; repeat (apply elem_of_cons in H as [H|H]; [done|]); by apply not_elem_of_nil in H.

(** After [set_target_state], with another message that asks for nothing. *)
Lemma follows_set e d d' o s :
  (∃ tx, e = Command (SetTargetState tx s)) ∨ (e = DeviceEvent_ (AeDevice EvLogout) ∧ s = Unsecured) → asks o = None →
  (target_state d' = s ∧ d_out d' = ToTunnel (if decide (s = Secured) then Connect else Disconnect) :: d_out d) ∨
    (d_out d' = d_out d ∧ target_state d' = s ∧ target_state d = s) →
  follows_target e d (d' <| d_out ::= cons o |>).
Proof.
  intros He Ho [[Ht E]|(E & Ht & Ht')].
  - exists [o; ToTunnel (if decide (s = Secured) then Connect else Disconnect)].
    change (target_state (d' <| d_out ::= cons o |>)) with (target_state d'). rewrite Ht. cbn. rewrite E, Ho.
    split; [done|]. assert (wanted [o; ToTunnel (if decide (s = Secured) then Connect else Disconnect)] = Some (bool_decide (s = Secured))) as ->
      by (destruct s, o as [[]| | | | | | | | | |]; done).
    destruct s; split_and!; try not_asked; naive_solver.
  - exists [o]. change (target_state (d' <| d_out ::= cons o |>)) with (target_state d'). cbn. rewrite E, Ho, Ht, Ht'.
    split; [done|]. by split_and!; [not_asked|not_asked|].
Qed.

(** The target state stays. *)
Lemma follows_out e d d' new :
  d_out d' = new ++ d_out d → target_state d' = target_state d →
  (Some true ∈ map asks new → target_state d = Secured ∨
     ∃ tx, e = Command (Reconnect tx) ∧ is_in_error_state (d_tunnel_state d) = true) →
  (Some false ∈ map asks new → target_state d = Unsecured ∨ ends_loop e = true) → follows_target e d d'.
Proof. intros E Ht Hc Hd. exists new. by rewrite Ht. Qed.

Lemma follows_special env e d : sets_target e = true → wp (handle_event beta VERSION chars env e) (λ _ d', follows_target e d d') d.
Proof.
  destruct e as [| [] |b| |[[]|]| | | | |]; try done; intros _; cbn [handle_event]; apply wp_mbind.
  - apply wp_mbind, wp_get, wp_mbind. eapply wp_weaken with (P := λ _ d1, d_out d1 = d_out d ∧ target_state d1 = target_state d ∧
      d_tunnel_state d1 = d_tunnel_state d); [by wp_run|]. intros _ d1 (E1 & E2 & _). cbv beta.
    apply wp_mbind. eapply wp_weaken; [apply set_target_asks|]. intros b d2 Hd2. cbv beta. wp_run.
    apply follows_set with state; [by left; eexists|done|]. destruct Hd2 as [[? ?]|[-> ?]]; [left; by rewrite <- E1|right; by rewrite <- E2].
  - apply wp_mbind, wp_get, wp_mbind. eapply wp_weaken with (P := λ _ d1, d_out d1 = d_out d ∧ target_state d1 = target_state d ∧
      d_tunnel_state d1 = d_tunnel_state d); [by wp_run|]. intros _ d1 (E1 & E2 & E3). cbv beta. unfold on_reconnect. wp_run.
    + apply follows_out with [Respond tx (ReBool true); ToTunnel Connect]; [by rewrite <- E1|done| |not_asked].
      intros _. rewrite E2, E3 in *. apply orb_true_iff in Heqb as [Hb|Hb]; [left; by apply bool_decide_eq_true in Hb|eauto].
    + apply follows_out with [Respond tx (ReBool false)]; [by rewrite <- E1|done|not_asked|not_asked].
  - unfold on_trigger_shutdown. wp_run.
    + eapply follows_out with [ToTunnel Disconnect; _]; [done|done|not_asked|by right].
    + apply follows_out with [ToTunnel Disconnect]; [done|done|not_asked|by right].
  - unfold handle_device_event. apply wp_mbind, wp_get, wp_mbind, wp_mbind. eapply wp_weaken; [apply set_target_asks|].
    intros b d2 Hd2. cbv beta. wp_run. apply follows_set with Unsecured; [by right|done|].
    destruct Hd2 as [[? ?]|[-> ?]]; [by left|by right].
Qed.

Lemma event_follows env e d : follows_target e d (handle_event beta VERSION chars env e d).2.
Proof.
  set (d' := (handle_event beta VERSION chars env e d).2). destruct (sets_target e) eqn:He; [by apply follows_special|].
  assert (suits (d_out d) (target_state d) d) as Hd by (split; [done|by exists []]).
  destruct (suits_event _ _ env e He d Hd) as [Ht (new & E & Hn)]. fold d' in Ht, E. exists new. split; [done|].
  rewrite Ht. rewrite Forall_forall in Hn. split_and!; [| |done].
  - intros (o & Eo & Ho)%list_elem_of_fmap. destruct (Hn o Ho) as [?|[? ?]]; [congruence|by left].
  - intros (o & Eo & Ho)%list_elem_of_fmap. destruct (Hn o Ho) as [?|[? ?]]; congruence.
Qed.

(** The tunnel follows the user's wish.  Handling an event, the daemon asks for a
    tunnel, or for blocking, only if the target state after it is the secured one
    (or a reconnect was asked for while blocked by an error), and it asks to disconnect
    only if the target state is unsecured or the daemon ends.  The target state
    changes only when the user says so or is logged out, and then the tunnel is
    told at once. *)
Theorem tunnel_follows_target env e d :
  let d' := (handle_event beta VERSION chars env e d).2 in
  ∃ new, d_out d' = new ++ d_out d ∧
    (Some true ∈ map asks new → target_state d' = Secured ∨
       ∃ tx, e = Command (Reconnect tx) ∧ is_in_error_state (d_tunnel_state d) = true) ∧
    (Some false ∈ map asks new → target_state d' = Unsecured ∨ ends_loop e = true) ∧
    (target_state d' ≠ target_state d →
       ((∃ tx, e = Command (SetTargetState tx (target_state d'))) ∨ e = DeviceEvent_ (AeDevice EvLogout)) ∧
       wanted new = Some (bool_decide (target_state d' = Secured))).
Proof. apply event_follows. Qed.

(** *** All events *)

Definition wish (d : Daemon) : Prop := d_phase d = Running → target_state d = Secured → wanted (d_out d) = Some true.

Lemma wanted_app new out : wanted (new ++ out) = match wanted new with Some b => Some b | None => wanted out end.
Proof. unfold wanted. rewrite omap_app. by destruct (omap turns_to new). Qed.
Lemma wanted_false new : wanted new = Some false → Some false ∈ map asks new.
Proof.
  unfold wanted. induction new as [|o new IH]; cbn; [done|]. destruct o as [[]|  | | | | | | | | |]; cbn; try (intros; right; by apply IH); by left.
Qed.

Lemma wish_kept d d' e : follows_target e d d' → ends_loop e = false →
  (target_state d = Secured → wanted (d_out d) = Some true) → target_state d' = Secured → wanted (d_out d') = Some true.
Proof.
  intros (new & E & _ & Hf & Hc) He Hd Ht. rewrite E, wanted_app.
  destruct (decide (target_state d' = target_state d)) as [Es|Hne].
  - destruct (wanted new) as [[]|] eqn:Ew; [done| |apply Hd; congruence].
    destruct (Hf (wanted_false _ Ew)) as [?|?]; congruence.
  - destruct (Hc Hne) as [_ ->]. by rewrite Ht.
Qed.

(** ** After the loop *)

(** The loop has ended, and no commands were sent since. *)
Record ended (cs : list TunnelCommand) (i : option InitialTunnelState) (d : Daemon) : Prop := {
  en_phase : d_phase d ≠ Running;
  en_sent : sent (d_out d) = cs;
  en_spawned : spawned (d_out d) = i
}.
Section Ended.
Context (cs : list TunnelCommand) (i : option InitialTunnelState).
Ltac ended_leaf :=
  idtac; lazymatch goal with
  | |- keeps _ (modify_daemon _) => intros ? []; by constructor
  | |- keeps _ (send_out _) => intros ? []; by constructor
  | |- keeps _ channel => intros ? []; by constructor
  end.
Lemma ended_transition env t : keeps (ended cs i) (handle_tunnel_state_transition env t).
Proof. keep_run ended_leaf. Qed.
Lemma ended_shutdown_tasks env ts : keeps (ended cs i) (run_shutdown_tasks env ts).
Proof.
  induction ts as [|[tx e] ts IH]; cbn [run_shutdown_tasks]; [apply keeps_ret|].
  apply keeps_bind; [unfold oneshot_send; ended_leaf|done].
Qed.
Lemma ended_finalize env : keeps (ended cs i) (finalize env).
Proof.
  apply keeps_get_bind. intros d _. apply keeps_bind; [apply ended_shutdown_tasks|intros _]. keep_run ended_leaf.
Qed.
Lemma ended_task a t : keeps (ended cs i) (run_task a t).
Proof. keep_run ended_leaf. Qed.
Lemma ended_receive env e : keeps (ended cs i) (receive beta VERSION chars env e).
Proof.
  apply keeps_get_bind. intros d Hd. destruct (d_phase d) eqn:Ep; [by destruct Hd| |keep_run ended_leaf].
  destruct e; try (keep_run ended_leaf; done). apply keeps_bind; [apply ended_transition|intros _].
  apply keeps_get_bind. intros d' _. apply keeps_when. intros _. apply ended_finalize.
Qed.
Lemma ended_step d input : ended cs i d → ended cs i (step beta VERSION chars key_bytes lookup d input).
Proof.
  intros Hd. destruct input as [env e|env|a j| |data n av g|time|time l]; cbn.
  - by apply ended_receive.
  - destruct (d_queue d) as [|e q]; [done|]. apply ended_receive. by destruct Hd; constructor.
  - destruct (d_tasks d !! j) as [t|]; [|done]. apply ended_task. by destruct Hd; constructor.
  - destruct (d_param_gen d); [done|]. by destruct Hd; constructor.
  - by destruct Hd; constructor.
  - destruct (d_reconnection_job d) as [job|]; [|done]. destruct (_ && _); [|done]. by destruct Hd; constructor.
  - by destruct Hd; constructor.
Qed.
Lemma ended_run d inputs : ended cs i d → ended cs i (run beta VERSION chars key_bytes lookup d inputs).
Proof. revert d. induction inputs as [|x inputs IH]; intros d Hd; [done|]. by apply IH, ended_step. Qed.
End Ended.

Lemma shutdown_tasks_out env ts d :
  sent (d_out (run_shutdown_tasks env ts d).2) = sent (d_out d) ∧ spawned (d_out (run_shutdown_tasks env ts d).2) = spawned (d_out d).
Proof.
  assert (keeps (λ d', sent (d_out d') = sent (d_out d) ∧ spawned (d_out d') = spawned (d_out d)) (run_shutdown_tasks env ts)) as Hk; [|by apply Hk].
  induction ts as [|[tx e] ts IH]; cbn [run_shutdown_tasks]; [apply keeps_ret|]. apply keeps_bind; [|done]. by intros d' [? ?].
Qed.
(** The loop ends with the command to disconnect, the last one or the last two. *)
Lemma stop_ended env d : sent (d_out d) = Disconnect :: tail (sent (d_out d)) →
  let d' := (disconnect_tunnel_and_wait env d).2 in
  ∃ more, ended (more ++ sent (d_out d)) (spawned (d_out d)) d' ∧ Forall (eq Disconnect) more.
Proof.
  intros Hs d'. unfold disconnect_tunnel_and_wait, mbind, stateM_bind in d'; cbn in d'.
  destruct (is_disconnected (d_tunnel_state d)); [|by exists [Disconnect]; split; [constructor|repeat constructor]].
  exists []. split; [|constructor]. unfold finalize, mbind, stateM_bind in d'; cbn in d'.
  pose proof (shutdown_tasks_out env (d_shutdown_tasks d) d) as [E1 E2].
  destruct (run_shutdown_tasks env (d_shutdown_tasks d) d) as [[] d1]. cbn in *. by constructor.
Qed.

(** *** While the loop runs *)

Lemma receive_ends env e d : d_phase d = Running → ends_loop e = true → d_phase (receive beta VERSION chars env e d).2 ≠ Running.
Proof.
  intros Hp He. destruct e as [| |b| | | | | | |]; try done. unfold receive, mbind, stateM_bind; cbn. rewrite Hp.
  unfold handle_event, mbind, stateM_bind; cbn. destruct (on_trigger_shutdown b d) as [[] d1] eqn:E. cbn.
  destruct (stop_ended env d1) as (more & [? _ _] & _); [|done].
  change d1 with ((), d1).2. rewrite <- E. assert (wp (on_trigger_shutdown b) (λ _ d', sent (d_out d') = Disconnect :: tail (sent (d_out d'))) d) as Hw;
    [unfold on_trigger_shutdown; wp_run; done|exact Hw].
Qed.
Lemma wish_receive env e d : wish d → wish (receive beta VERSION chars env e d).2.
Proof.
  intros Hd. destruct (decide (d_phase d = Running)) as [Hp|Hp].
  - destruct (ends_loop e) eqn:He; [by intros ?%(receive_ends env e d Hp He)|]. intros _.
    pose proof (event_follows env e d) as Hf. pose proof (handle_event_result beta VERSION chars env e d) as Hr. revert Hf Hr.
    unfold receive, mbind, stateM_bind; cbn. rewrite Hp. destruct (handle_event _ _ _ env e d) as [b d1]. cbn. intros Hf ->. rewrite He; cbn.
    eapply wish_kept; [done|done|by apply Hd].
  - intros Hr. exfalso. revert Hr. apply (en_phase (sent (d_out d)) (spawned (d_out d))). apply ended_receive. by constructor.
Qed.

Ltac wish_leaf :=
  idtac; lazymatch goal with
  | |- keeps _ (modify_daemon _) => by intros ? ?
  | |- keeps _ (send_out _) => by intros ? ?
  | |- keeps _ channel => by intros ? ?
  end.
Lemma wish_task a t : keeps wish (run_task a t).
Proof. keep_run wish_leaf. Qed.
Lemma wish_step d input : wish d → wish (step beta VERSION chars key_bytes lookup d input).
Proof.
  intros Hd. destruct input as [env e|env|a j| |data n av g|time|time l]; cbn.
  - by apply wish_receive.
  - destruct (d_queue d) as [|e q]; [done|]. by apply wish_receive.
  - destruct (d_tasks d !! j) as [t|]; [|done]. by apply wish_task.
  - by destruct (d_param_gen d).
  - done.
  - destruct (d_reconnection_job d) as [job|]; [|done]. by destruct (_ && _).
  - done.
Qed.
Lemma wish_run d inputs : wish d → wish (run beta VERSION chars key_bytes lookup d inputs).
Proof. revert d. induction inputs as [|x inputs IH]; intros d Hd; [done|]. by apply IH, wish_step. Qed.
Lemma wish_initial d : wish (handle_initial_target_state d).2.
Proof.
  assert (wp handle_initial_target_state (λ _, wish) d) as Hw; [|exact Hw]. unfold handle_initial_target_state. apply wp_mbind, wp_get.
  destruct (target_state d) eqn:Et; [|by wp_run].
  apply (wp_weaken _ (λ _ d', target_state d' = target_state d)); [by wp_run|]. intros _ d' E _ ?. congruence.
Qed.

(** ** With the tunnel state machine *)

Section Machine.
Context {os : Type} `{TunnelOs os}.

(** A command to connect commits the machine in every state. *)
Definition returns {A} (P : A → Prop) (m : stateM (World os) A) : Prop := ∀ w, P (m w).1.
Lemma returns_bind {A B} (P : B → Prop) (m : stateM (World os) A) f : (∀ a, returns P (f a)) → returns P (m ≫= f).
Proof. intros Hf w. unfold mbind, stateM_bind. destruct (m w). apply Hf. Qed.
Definition commits (c : EventConsequence) : Prop :=
  match c with NewState st _ | SameState st => committed st = true | Finished => False end.
Lemma returns_via {A} (Q : A → Prop) (P : EventConsequence → Prop) (m : stateM (World os) A) f :
  returns Q m → (∀ a, Q a → returns P (f a)) → returns P (m ≫= f).
Proof. intros Hm Hf w. unfold mbind, stateM_bind. specialize (Hm w). destruct (m w). by apply Hf. Qed.
Lemma error_enter_commits reason : returns (λ x, committed x.1 = true) (ErrorState_enter (os := os) reason).
Proof. by apply returns_bind; intros ? ?. Qed.
Lemma connecting_enter_commits n : returns (λ x, committed x.1 = true) (ConnectingState_enter (os := os) n).
Proof.
  apply returns_bind. intros sv. destruct (availability _); [|apply error_enter_commits].
  apply returns_bind. intros [p|e]; [|apply error_enter_commits].
  apply returns_bind. intros [u|e]; [|apply error_enter_commits]. by apply returns_bind; intros ? ?.
Qed.
Lemma disconnecting_enter_commits tx event n :
  returns (λ x, committed x.1 = true) (DisconnectingState_enter (os := os) tx event (AfterReconnect n)).
Proof. by apply returns_bind; intros ? ?. Qed.
Lemma entered_commits (m : stateM (World os) (TunnelStates.TunnelState * TunnelStateTransition)) :
  returns (λ x, committed x.1 = true) m → returns commits (x ← m; mret (to_new_state x)).
Proof. intros Hm. eapply returns_via; [exact Hm|]. by intros [st tr] Hs w. Qed.
Lemma connect_commits st handler :
  TunnelStates.handle_event (os := os) st (EvCommand (Some Connect)) = Some handler → returns commits handler.
Proof.
  destruct st as [|s|s|s|reason]; intros [= <-].
  - apply entered_commits, connecting_enter_commits.
  - apply returns_bind; intros _. apply entered_commits, disconnecting_enter_commits.
  - do 2 (apply returns_bind; intros _). apply entered_commits, disconnecting_enter_commits.
  - apply returns_bind; intros _ w. cbn. by destruct (dg_after_disconnect s).
  - apply returns_bind; intros _. apply entered_commits, connecting_enter_commits.
Qed.

(** Whether the commands handled leave the machine committed. *)
Definition wish_after (b : bool) (c : TunnelCommand) : bool :=
  match c with Connect => true | Disconnect => false | _ => b end.
Lemma connect_step (m m' : TunnelStateMachine (os := os)) ok t st :
  TunnelStates.step m (EvCommand (Some Connect)) ok = Some (t, m') → current_state m' = Some st → committed st = true.
Proof.
  unfold TunnelStates.step. destruct (current_state m) as [st0|]; cbn; [|done].
  destruct (TunnelStates.handle_event st0 _) as [handler|] eqn:Eh; cbn; [|done].
  pose proof (connect_commits _ _ Eh (world m)) as Hc. destruct (handler (world m)) as [c w']. cbn in Hc.
  destruct c as [st' tr|st'|]; [destruct ok|..]; intros [= <- <-] E; try done; cbn in E; by injection E as <-.
Qed.
Lemma other_step (m m' : TunnelStateMachine (os := os)) r ok t st st' :
  reachable m → TunnelStates.step m r ok = Some (t, m') → releasing r = false →
  current_state m = Some st → committed st = true → current_state m' = Some st' → committed st' = true.
Proof.
  intros Hm Hs Hr Est Hc Est'.
  destruct (step_inv _ _ _ _ _ _ Hs Est (reachable_inv _ _ Hm Est)) as (c & w' & Hh & Hm1).
  pose proof (h_committed _ _ _ _ _ Hh Hc Hr) as Hco.
  destruct c as [st1 tr|st1|]; [destruct ok|..]; simplify_eq/=; done.
Qed.
Lemma run_committed inputs (m m' : TunnelStateMachine (os := os)) ts b :
  reachable m → (∀ st, current_state m = Some st → b = true → committed st = true) →
  Forall (λ i, i.1 ≠ EvCommand None) inputs → TunnelStates.run inputs m = Some (ts, m') →
  ∀ st, current_state m' = Some st → foldl wish_after b (daemon_commands inputs) = true → committed st = true.
Proof.
  revert m ts b. induction inputs as [|[r ok] inputs IH]; intros m ts b Hm Hb Hi Hr st Hst; [injection Hr as _ <-; by apply Hb|].
  apply Forall_cons in Hi as [Hn Hi]. apply run_step_inv in Hr as (t & m1 & ts' & Hs & Hr). cbn in Hs, Hn.
  assert (daemon_commands ((r, ok) :: inputs) = option_list (daemon_command r) ++ daemon_commands inputs) as ->
    by (unfold daemon_commands; cbn; by destruct (daemon_command r)).
  rewrite foldl_app. eapply IH; [by eapply reachable_step| |done|done|done].
  intros st1 Hst1. destruct (current_state m) as [st0|] eqn:Est0; [|by unfold TunnelStates.step in Hs; rewrite Est0 in Hs].
  destruct r as [[[]|]|e|x]; cbn; try done; intros Hw; (eapply connect_step; [exact Hs|exact Hst1]) ||
    (eapply other_step; [exact Hm|exact Hs|done|exact Est0|by apply Hb|exact Hst1]).
Qed.

Lemma wanted_sent out i : spawned out = Some i → wanted out = Some true → foldr (λ c b, wish_after b c) false (sent out) = true.
Proof.
  unfold wanted. induction out as [|o out IH]; cbn; [done|]. destruct o as [c| | | | | | | | | |]; cbn; try done. destruct c; cbn; done || apply IH.
Qed.

(** C7: While the user wants to be secured, the tunnel state machine connects, is
    connected, or blocks.  After any sequence of events in the daemon that leaves the target
    state secured, once the machine it started has handled the commands it was sent,
    and whatever else happened to it, the machine is not disconnected and not about to be, and some
    firewall policy is enforced (in the error state: if the firewall's last change succeeded). *)
Theorem secured_stays_protected a d0 inputs i connectivity (o : os) tunnel_inputs ts m (st : TunnelStates.TunnelState) :
  start beta a = Ok d0 →
  let d := run beta VERSION chars key_bytes lookup (handle_initial_target_state d0).2 inputs in
  d_phase d = Running → target_state d = Secured → spawned (d_out d) = Some i →
  TunnelStates.run tunnel_inputs (TunnelStateMachine_new i connectivity o) = Some (ts, m) →
  daemon_commands tunnel_inputs = rev (sent (d_out d)) → Forall (λ x, x.1 ≠ EvCommand None) tunnel_inputs →
  current_state m = Some st →
  committed st = true ∧
  (match st with StError _ => last_fw (w_log (world m)) = Some true | _ => True end → ∃ policy, enforced (w_os (world m)) (Some policy)).
Proof.
  intros Hs d Hp Ht Hi Hr Hc Hn Hst. assert (reachable m) as Hm by (eapply runs_reachable; [apply reachable_new|done]).
  assert (committed st = true) as Hco.
  { eapply (run_committed _ _ _ _ false); [apply reachable_new|done|done|done|done|].
    rewrite Hc, (foldl_rev_foldr (λ c b, wish_after b c)). eapply wanted_sent; [done|]. by apply wish_run; [apply wish_initial|..]. }
  split; [done|]. pose proof (reachable_inv _ _ Hm Hst) as [Hf _]. destruct st; cbn in *; try done; intros Hl; eauto.
  destruct Hf as (md & tr & Hf & _); eauto.
Qed.

Lemma disconnects_keep_lockdown more cs v : Forall (eq Disconnect) more →
  (foldr commanded v cs).2 = true → (foldr commanded v (more ++ cs)).2 = true.
Proof. intros Hm Hv. induction Hm as [|c more <- Hm IH]; cbn; [done|]. by destruct (foldr commanded v (more ++ cs)) as [[? ?] ?]. Qed.
Lemma shutdown_ended env d :
  d_phase d = Running → target_state d = Secured ∨ s_auto_connect (settings d) = true →
  ∃ more tx, ended (more ++ Disconnect :: TunnelStates.SetLockdownMode LockdownMode_yes tx :: sent (d_out d)) (spawned (d_out d))
    (receive beta VERSION chars env (TriggerShutdown false) d).2 ∧ Forall (eq Disconnect) more.
Proof.
  intros Hp Hw. assert (wp (on_trigger_shutdown false) (λ _ d1, spawned (d_out d1) = spawned (d_out d) ∧
    ∃ tx, sent (d_out d1) = Disconnect :: TunnelStates.SetLockdownMode LockdownMode_yes tx :: sent (d_out d)) d) as Ht.
  { unfold on_trigger_shutdown. wp_run; [eauto|]. exfalso.
    destruct Hw as [Ht|Ha]; [rewrite (bool_decide_eq_true_2 _ Ht) in *|rewrite Ha, orb_true_r in *]; done. }
  unfold receive, mbind, stateM_bind; cbn. rewrite Hp. unfold handle_event, mbind, stateM_bind; cbn.
  destruct (on_trigger_shutdown false d) as [[] d1] eqn:E. unfold wp in Ht. rewrite E in Ht. destruct Ht as (Hsp & tx & Hse). cbn in *.
  destruct (stop_ended env d1) as (more & He & Hm); [by rewrite Hse|]. exists more, tx. by rewrite <- Hse, <- Hsp.
Qed.

Lemma finished_step (m m' : TunnelStateMachine (os := os)) ok t policy :
  current_state m = Some StDisconnected → enforced (w_os (world m)) policy →
  TunnelStates.step m (EvCommand None) ok = Some (t, m') →
  current_state m' = None ∧ enforced (w_os (world m')) policy.
Proof.
  intros Hst Hsec Hs. unfold TunnelStates.step in Hs. rewrite Hst in Hs. cbn in Hs. unfold mbind, stateM_bind in Hs; cbn in Hs.
  destruct (dns_monitor_reset (world m)) as [[] w1] eqn:E. cbn in Hs. injection Hs as <- <-.
  split; [done|].
  apply dns_monitor_reset_quiet in E. apply (q_fw _ _ E) in Hsec. unfold stop, call. cbn.
  pose proof (route_stop_fw _ _ Hsec) as Hstop. unfold call. by destruct (route_stop (w_os w1)).
Qed.

(** C8: A daemon that is stopped, but not by the user, leaves traffic blocked. If it was
    told to end while the target state was secured, or with auto-connect on, then
    whatever happens until the machine has handled its commands, lockdown mode is on;
    and once the machine is disconnected the firewall has the blocking policy, which
    allows no tunnel and only the local network, if the settings allow that, and the API
    endpoint (provided the firewall's last change succeeded); and it still has exactly
    that policy when the machine stops because the daemon is gone. *)
Theorem shutdown_stays_blocked a d0 inputs env later i connectivity (o : os) tunnel_inputs ts m :
  start beta a = Ok d0 →
  let d := run beta VERSION chars key_bytes lookup (handle_initial_target_state d0).2 inputs in
  d_phase d = Running → target_state d = Secured ∨ s_auto_connect (settings d) = true →
  let d' := run beta VERSION chars key_bytes lookup (receive beta VERSION chars env (TriggerShutdown false) d).2 later in
  spawned (d_out d') = Some i →
  TunnelStates.run tunnel_inputs (TunnelStateMachine_new i connectivity o) = Some (ts, m) →
  daemon_commands tunnel_inputs = rev (sent (d_out d')) →
  d_phase d' ≠ Running ∧ LockdownMode_bool (lockdown_mode (w_sv (world m))) = true ∧
  (current_state m = Some StDisconnected → last_fw (w_log (world m)) = Some true →
   let blocked := Blocked (allow_lan (w_sv (world m))) (Some (allowed_endpoint (w_sv (world m)))) in
   enforced (w_os (world m)) (Some blocked) ∧
   ∀ ok t m', TunnelStates.step m (EvCommand None) ok = Some (t, m') →
     current_state m' = None ∧ enforced (w_os (world m')) (Some blocked)).
Proof.
  intros Hs d Hp Hw d' Hi Hr Hc. destruct (shutdown_ended env d Hp Hw) as (more & tx & He & Hmore).
  apply (ended_run _ _ _ later) in He. destruct He as [Hph Hsent Hsp]. fold d' in Hph, Hsent, Hsp.
  assert (LockdownMode_bool (lockdown_mode (w_sv (world m))) = true) as Hl.
  { change ((values (w_sv (world m))).2 = true). rewrite (run_values _ _ _ _ Hr), new_values, Hc, foldl_rev_foldr, Hsent.
    apply disconnects_keep_lockdown; [done|]. cbn [foldr]. by destruct (foldr commanded _ _) as [[? ?] ?]. }
  split_and!; [done|done|]. intros Hst Hfw. assert (reachable m) as Hm by (eapply runs_reachable; [apply reachable_new|done]).
  pose proof (reachable_inv _ _ Hm Hst) as [Hf _]. cbn in Hf. specialize (Hf Hfw). rewrite Hl in Hf.
  split; [done|]. intros ok t m' Hstep. by eapply finished_step.
Qed.
End Machine.
End Intent.
