(* ===== verification/DaemonState.v ===== *)
(** * The settings stay well-formed

    Whatever clients ask for, the settings the daemon works with keep the
    invariants of their parts: overrides, recent locations, custom lists and access methods. *)

From S2P Require Import Prelude NetTypes TunnelTypes TunnelStates Constraints RelayTypes CustomLists RelayMatcher RelaySelector.
From S2P Require Import Versions VersionRouter AccessMethods AccessMode Availability DeviceService AccountManager DaemonSettings.
From S2P Require Import SettingsPersister TargetState TunnelParams SettingsPatch GeoIp SplitTunnel DaemonTypes DaemonCommands Daemon DaemonTheorems.

(** ** Well-formed settings *)

Record well_formed (s : Settings) : Prop := {
  wf_overrides : overrides_ok s;
  wf_recents : recents_ok s;
  wf_lists : lists_inv (s_custom_lists s);
  wf_methods : access_methods.settings_ok (s_api_access_methods s)
}.

(** The four parts are the same. *)
Definition same_parts (s s' : Settings) : Prop :=
  s_relay_overrides s' = s_relay_overrides s ∧ s_recents s' = s_recents s ∧
  s_custom_lists s' = s_custom_lists s ∧ s_api_access_methods s' = s_api_access_methods s.
Lemma same_parts_wf s s' : same_parts s s' → well_formed s → well_formed s'.
Proof.
  intros (E1 & E2 & E3 & E4) []. split; unfold overrides_ok, recents_ok in *; by rewrite ?E1, ?E2, ?E3, ?E4.
Qed.

(** Updates that keep well-formed settings so. *)
Definition safe (f : Settings → result UpdateError Settings) : Prop := ∀ s s', well_formed s → f s = Ok s' → well_formed s'.
Lemma safe_same f : (∀ s, same_parts s (f s)) → safe (λ s, Ok (f s)).
Proof. intros Hf s s' Hs [= <-]. by eapply same_parts_wf. Qed.

Lemma set_relay_settings_safe r : safe (λ s, Ok (set_relay_settings r s)).
Proof. apply safe_same. intros s. unfold set_relay_settings. case_decide; [done|]. by destruct (negb _ && _). Qed.
Lemma set_allowed_ips_safe ips : safe (λ s, Ok (set_allowed_ips ips s)).
Proof. apply safe_same. intros s. unfold set_allowed_ips. by destruct (s_relay_settings s). Qed.
Lemma insert_rollout_seed_safe seed : safe (λ s, Ok (insert_rollout_seed seed s)).
Proof. apply safe_same. intros s. unfold insert_rollout_seed. by destruct (s_rollout_threshold_seed s). Qed.
Lemma set_relay_override_safe o : safe (λ s, Ok (set_relay_override o s)).
Proof.
  intros s s' [] [= <-]. split; [by apply (relay_override_set o s (ro_hostname o))|done..].
Qed.
Lemma clear_overrides_safe : safe (λ s, Ok (s <| s_relay_overrides := [] |>)).
Proof. intros s s' [] [= <-]. split; [apply NoDup_nil_2|done..]. Qed.
Lemma update_recents_parts s :
  s_relay_overrides (update_recents s) = s_relay_overrides s ∧ s_custom_lists (update_recents s) = s_custom_lists s ∧
  s_api_access_methods (update_recents s) = s_api_access_methods s.
Proof. unfold update_recents. destruct (s_recents s); [|done]. by destruct (Recent_try_from _). Qed.
Lemma update_recents_wf s : well_formed s → well_formed (update_recents s).
Proof.
  intros []. destruct (update_recents_parts s) as (E1 & E3 & E4).
  split; [unfold overrides_ok; by rewrite E1|by apply recents_updated|by rewrite E3|by rewrite E4].
Qed.
Lemma update_recents_safe : safe (λ s, Ok (update_recents s)).
Proof. intros s s' Hs [= <-]. by apply update_recents_wf. Qed.
Lemma set_recents_wf s l : (∀ recents, l = Some recents → NoDup recents ∧ (length recents ≤ RECENTS_MAX_COUNT)%nat) →
  well_formed s → well_formed (s <| s_recents := l |>).
Proof. by intros Hl []. Qed.
Lemma enable_recents_safe b : safe (λ s, Ok (enable_recents b s)).
Proof.
  intros s s' Hs [= <-]. unfold enable_recents. destruct (s_recents s), b; try done.
  - by apply set_recents_wf.
  - apply update_recents_wf, set_recents_wf; [|done]. intros ? [= <-]. split; [constructor|cbn; lia].
Qed.
Lemma set_custom_lists_safe f : (∀ l l', lists_inv l → f l = Ok l' → lists_inv l') → safe (set_custom_lists f).
Proof.
  intros Hf s s' [] Hs. unfold set_custom_lists in Hs. apply result_bind_ok in Hs as (ls & E & [= <-]).
  destruct (f (s_custom_lists s)) as [ls'|] eqn:Ef; [|done]. injection E as ->. split; [done|done|by eapply Hf|done].
Qed.
Lemma clear_lists_safe : safe (λ s, Ok (s <| s_custom_lists ::= CustomLists.clear |>)).
Proof. intros s s' [] [= <-]. split; [done|done|by split; apply NoDup_nil_2|done]. Qed.
Lemma set_methods_safe box f : (∀ l l', access_methods.settings_ok l → f l = Ok l' → access_methods.settings_ok l') →
  safe (set_access_methods box f).
Proof.
  intros Hf s s' [] Hs. unfold set_access_methods in Hs. apply result_bind_ok in Hs as (ms & E & [= <-]).
  destruct (f (s_api_access_methods s)) as [ms'|] eqn:Ef; [|done]. injection E as ->. split; [done|done|done|by eapply Hf].
Qed.
Lemma update_method_ok id f l l' :
  (∀ m, am_id m = id → am_id (f m) = id) → access_methods.settings_ok l → update_method id f l = Ok l' →
  access_methods.settings_ok l'.
Proof.
  intros Hf Hl. unfold update_method. intros ([b l1] & E & [= <-])%result_bind_ok.
  apply access_methods.update_ok in E; [done|done|]. intros m Hm%Z.eqb_eq. rewrite Hm. by apply Hf.
Qed.
Lemma clear_methods_safe : safe (λ s, Ok (s <| s_api_access_methods ::= access_methods.clear_custom |>)).
Proof. intros s s' [] [= <-]. split; [done|done|done|by apply access_methods.clear_ok]. Qed.

(** ** Events *)

Section State.
Context `{SettingsJson} `{TargetStateJson} `{PatchJson} `{Keys} `{IpNetworkCrate} `{Host}.
Context (beta : bool) (VERSION : Version) (chars : string → nat).
Context (key_bytes : string → list Z) (lookup : string → option (list IpAddr)).

Definition good_state (d : Daemon) : Prop := well_formed (settings d).

(** New identifiers are new. *)
Definition env_fresh (d : Daemon) (env : Env) : Prop :=
  new_v4 env ∉ map am_id (access_methods.iter (s_api_access_methods (settings d))) ∧
  ∀ k, let '(i1, i2, i3) := fresh_ids (io env k) in NoDup [i1; i2; i3].

Lemma good_changed text s d : well_formed s → good_state (settings_changed text s d).
Proof. done. Qed.
Lemma good_try_update env k f : safe f → keeps good_state (settings_try_update env k f).
Proof. intros Hf. apply keeps_wp. intros d Hd. apply wp_try_update; [done..|]. intros new text E _. apply good_changed. by eapply Hf. Qed.
Lemma good_update env k f : safe (λ s, Ok (f s)) → keeps good_state (settings_update env k f).
Proof. intros Hf. by apply good_try_update. Qed.
Lemma good_patch env k blob : keeps good_state (persister (merge_validate_patch (io env k) blob)).
Proof.
  apply keeps_wp. intros d Hd. apply wp_patch; [done|]. intros new text E _. apply good_changed.
  destruct Hd as [Ho Hr Hl Hm]. destruct (patch_meaning _ _ _ Ho E) as (-> & Ho' & _).
  split; [done..|]. by apply persisted_methods_ok.
Qed.
Lemma good_reset env k : (let '(i1, i2, i3) := fresh_ids (io env k) in NoDup [i1; i2; i3]) → keeps good_state (settings_reset beta env k).
Proof.
  intros Hi. assert (well_formed (default_settings beta (fresh_ids (io env k)))) as Hw.
  { destruct (fresh_ids (io env k)) as [[i1 i2] i3].
    apply (same_parts_wf (Settings_default (i1, i2, i3))); [by unfold default_settings; destruct beta|].
    split; [apply NoDup_nil_2| |by split; apply NoDup_nil_2|by apply access_methods.default_ok].
    intros ? [= <-]. split; [constructor|cbn; lia]. }
  apply keeps_wp. intros d _. apply wp_reset; done.
Qed.

Ltac safe_leaf :=
  first [ apply set_relay_settings_safe | apply set_allowed_ips_safe | apply insert_rollout_seed_safe | apply set_relay_override_safe
        | apply clear_overrides_safe | apply update_recents_safe | apply enable_recents_safe | apply clear_lists_safe | apply clear_methods_safe
        | apply safe_same; by intros ? ].
Ltac good_leaf :=
  idtac; lazymatch goal with
  | |- keeps _ (settings_try_update _ _ (set_custom_lists (CustomLists.add _))) =>
      apply good_try_update, set_custom_lists_safe; intros ? ?; apply add_inv
  | |- keeps _ (settings_try_update _ _ (set_custom_lists (CustomLists.update _))) =>
      apply good_try_update, set_custom_lists_safe; intros ? ?; apply update_inv
  | |- keeps _ (settings_try_update _ _ (set_custom_lists (CustomLists.remove ?i))) =>
      apply good_try_update, set_custom_lists_safe; intros ? ?; apply (apply_op_inv _ (OpRemove i))
  | |- keeps _ (settings_try_update _ _ (set_access_methods _ (access_methods.remove _))) =>
      apply good_try_update, set_methods_safe; intros ? ?; apply access_methods.remove_ok
  | |- keeps _ (settings_try_update _ _ (set_access_methods _ (update_method _ _))) =>
      apply good_try_update, set_methods_safe; intros ? ?; apply update_method_ok; by intros ? ?
  | |- keeps _ (settings_update _ _ _) => apply good_update; safe_leaf
  | |- keeps _ (settings_reset _ _ _) => apply good_reset; match goal with Hi : ∀ k, let '_ := fresh_ids _ in _ |- _ => exact (Hi _) end
  | |- keeps _ (settings_try_update _ _ (set_access_methods _ (access_methods.append _))) =>
      exfalso; match goal with Hn : ∀ _ _ _ _, Command _ ≠ _ |- _ => by eapply Hn end
  | |- keeps _ (persister _) => apply good_patch
  | |- keeps _ (modify_daemon _) => by intros ? ?
  | |- keeps _ (send_out _) => by intros ? ?
  | |- keeps _ channel => by intros ? ?
  end.

Lemma good_add env name enabled method d : env_fresh d env → good_state d →
  wp (add_access_method env name enabled method) (λ _, good_state) d.
Proof.
  intros [Hf _] Hd. apply wp_mbind, wp_try_update; [done..|]. intros new text E _. cbv beta. apply wp_mret, good_changed.
  unfold set_access_methods in E. apply result_bind_ok in E as (ms & E & [= <-]). destruct Hd as [Ho Hr Hl Hm].
  destruct (access_methods.append _ (s_api_access_methods (settings d))) as [ms'|] eqn:Ea; [|done]. injection E as ->.
  split; [done|done|done|]. by apply access_methods.append_ok in Ea.
Qed.
Lemma good_event env e d : env_fresh d env → good_state d → good_state (handle_event beta VERSION chars env e d).2.
Proof.
  intros Hf Hd. pose proof (proj2 Hf) as Hids.
  assert ((∃ tx name enabled method, e = Command (AddApiAccessMethod tx name enabled method)) ∨
    ∀ tx name enabled method, e ≠ Command (AddApiAccessMethod tx name enabled method)) as [(tx & name & enabled & method & ->)|He].
  { destruct e as [|[]| | | | | | | |]; try (right; intros; discriminate). left. by eexists _, _, _, _. }
  - assert (wp (handle_event beta VERSION chars env (Command (AddApiAccessMethod tx name enabled method))) (λ _, good_state) d) as Hw;
      [|exact Hw].
    cbn [handle_event]. apply wp_mbind. unfold handle_command. apply wp_mbind, wp_get, wp_mbind.
    apply (wp_weaken _ (λ _ d1, settings d1 = settings d)); [by wp_run|]. intros _ d1 E. cbv beta. unfold on_add_access_method.
    apply wp_mbind. eapply wp_weaken; [apply good_add; unfold env_fresh, good_state; by rewrite E|]. intros r d2 Hd2. by wp_run.
  - assert (keeps good_state (handle_event beta VERSION chars env e)) as Hk; [|by apply Hk].
    destruct e as [tr|c| | |[[]|]|ae tx| | | |]; cbn [handle_event]; keep_run good_leaf.
Qed.

(** ** Runs *)

Lemma good_shutdown_tasks env ts : keeps good_state (run_shutdown_tasks env ts).
Proof. induction ts as [|[tx e] ts IH]; cbn [run_shutdown_tasks]; [apply keeps_ret|]. apply keeps_bind; [by intros ? ?|done]. Qed.
Lemma good_finalize env : keeps good_state (finalize env).
Proof. apply keeps_get_bind. intros d _. apply keeps_bind; [apply good_shutdown_tasks|intros _]. keep_run good_leaf. Qed.
Lemma good_receive env e d : env_fresh d env → good_state d → good_state (receive beta VERSION chars env e d).2.
Proof.
  intros Hf Hd. assert (wp (receive beta VERSION chars env e) (λ _, good_state) d) as Hw; [|exact Hw].
  assert (keeps good_state (disconnect_tunnel_and_wait env)) as Hdis.
  { apply keeps_get_bind. intros d2 _. destruct (is_disconnected _); [apply good_finalize|keep_run good_leaf]. }
  unfold receive. apply wp_mbind, wp_get. destruct (d_phase d).
  - apply wp_mbind. apply (wp_weaken _ (λ _, good_state)); [exact (good_event env e d Hf Hd)|]. intros b d1 Hd1. cbv beta.
    apply wp_when; [intros _; by apply Hdis|done].
  - destruct e; try done. apply (keeps_bind good_state); [keep_run good_leaf|intros _|done].
    apply keeps_get_bind. intros d2 _. apply keeps_when. intros _. apply good_finalize.
  - done.
Qed.
Lemma good_task a t : keeps good_state (run_task a t).
Proof. keep_run good_leaf. Qed.

Definition input_fresh (d : Daemon) (i : Input) : Prop :=
  match i with InEvent env _ | InOwn env => env_fresh d env | _ => True end.
Fixpoint inputs_fresh (d : Daemon) (inputs : list Input) : Prop :=
  match inputs with
  | [] => True
  | i :: inputs => input_fresh d i ∧ inputs_fresh (step beta VERSION chars key_bytes lookup d i) inputs
  end.
Lemma good_step d i : input_fresh d i → good_state d → good_state (step beta VERSION chars key_bytes lookup d i).
Proof.
  intros Hf Hd. destruct i as [env e|env|a j| |data n av g|time|time l]; cbn in *.
  - by apply good_receive.
  - destruct (d_queue d) as [|e q]; [done|]. by apply good_receive.
  - destruct (d_tasks d !! j) as [t|]; [|done]. by apply good_task.
  - by destruct (d_param_gen d).
  - done.
  - destruct (d_reconnection_job d) as [job|]; [|done]. by destruct (_ && _).
  - done.
Qed.

(** C15: The settings of the daemon stay well-formed. If those it loads are, then after
    any sequence of events, failing ones and resets included, the relay overrides are
    for different relays, the recent locations are different and at most fifty, custom
    lists have distinct identifiers and distinct names, all access methods have distinct
    identifiers and the custom ones distinct names (one may be named as a built-in one,
    a finding), and one access method is enabled. (Identifiers drawn at random are
    assumed to be new.) *)
Theorem settings_well_formed a d0 inputs :
  well_formed (p_settings (load beta (io (sa_env a) 0) (sa_file a))) → start beta a = Ok d0 →
  inputs_fresh (handle_initial_target_state d0).2 inputs →
  well_formed (settings (run beta VERSION chars key_bytes lookup (handle_initial_target_state d0).2 inputs)).
Proof.
  intros Hw Hs. assert (good_state (handle_initial_target_state d0).2) as Hd.
  { apply start_inv in Hs as (h & b & E).
    assert (good_state d0) as Hd0.
    { change d0 with (Ok (E := SettingsPersister.Error) b, d0).2. rewrite <- E.
      assert (keeps good_state (finish_start a)) as Hk by (keep_run good_leaf). by apply Hk. }
    assert (keeps good_state handle_initial_target_state) as Hk by (keep_run good_leaf). by apply Hk. }
  revert Hd. generalize (handle_initial_target_state d0).2 as d. induction inputs as [|i inputs IH]; intros d Hd; [done|].
  cbn. intros [Hi Hf]. apply IH; [by apply good_step|done].
Qed.
End State.
