(* ===== verification/DaemonAnswers.v ===== *)
(** * Every request is answered once

    A request carries the sending end of a channel.  The daemon answers on it at once, or
    hands it to a task or to the tasks it runs when it ends. *)

From S2P Require Import Prelude NetTypes TunnelTypes TunnelStates Constraints RelayTypes CustomLists RelayMatcher RelaySelector.
From S2P Require Import Versions VersionRouter AccessMethods AccessMode Availability DeviceService AccountManager DaemonSettings.
From S2P Require Import SettingsPersister TargetState TunnelParams SettingsPatch GeoIp SplitTunnel DaemonTypes DaemonCommands Daemon DaemonTheorems.

(** ** Who has the channel of a request *)

Definition answer (o : Output) : list Tx := match o with Respond tx _ => [tx] | _ => [] end.
Definition waiting (t : Task) : list Tx :=
  match t with
  | TaskCreateNewAccount tx | TaskGetAccountData tx _ | TaskGetWwwAuthToken tx _ | TaskSubmitVoucher tx _ | TaskLogin tx _
  | TaskLogout tx | TaskGetDevice tx | TaskUpdateDevice tx | TaskListDevices tx _ | TaskRemoveDevice tx _ _
  | TaskGetVersionInfo tx | TaskRotateKey tx | TaskGetCurrentAccessMethod tx | TaskTestMethod tx _ | TaskTestRunning tx _
  | TaskForwardAck _ tx | TaskEndpointActive _ tx _ => [tx]
  | _ => []
  end.
(** The channels that were answered, and those that will be.  When the daemon has
    stopped, the tasks of the end have run. *)
Definition owed (d : Daemon) : list Tx :=
  (d_out d ≫= answer) ++ (d_tasks d ≫= waiting) ++
  match d_phase d with Stopped => [] | _ => map fst (d_shutdown_tasks d) end.

(** The channel of an event. *)
Definition request (c : DaemonCommand) : list Tx :=
  match c with
  | UpdateRelayLocations | PrepareRestart _ => []
  | SetTargetState tx _ | Reconnect tx | GetState tx | CreateNewAccount tx | GetAccountData tx _ | GetWwwAuthToken tx | SubmitVoucher tx _
  | GetAccountHistory tx | ClearAccountHistory tx | GetRelayLocations tx | LoginAccount tx _ | LogoutAccount tx | GetDevice tx
  | UpdateDevice tx | ListDevices tx _ | RemoveDevice tx _ _ | SetRelaySettings tx _ | SetAllowLan tx _ | SetShowBetaReleases tx _
  | SetLockdownMode tx _ | SetAutoConnect tx _ | SetOpenVpnMssfix tx _ | SetBridgeSettings tx _ | SetBridgeState tx _ | SetEnableIpv6 tx _
  | SetEnableRecents tx _ | SetQuantumResistantTunnel tx _ | SetEnableDaita tx _ | SetDaitaUseMultihopIfNecessary tx _ | SetDaitaSettings tx _
  | SetDnsOptions tx _ | SetRelayOverride tx _ | ClearAllRelayOverrides tx | SetWireguardMtu tx _ | SetWireguardAllowedIps tx _
  | SetWireguardRotationInterval tx _ | GetSettings tx | ResetSettings tx | RotateWireguardKey tx | GetWireguardKey tx
  | CreateCustomList tx _ _ | DeleteCustomList tx _ | UpdateCustomList tx _ | ClearCustomLists tx | AddApiAccessMethod tx _ _ _
  | RemoveApiAccessMethod tx _ | SetApiAccessMethod tx _ | UpdateApiAccessMethod tx _ | ClearCustomApiAccessMethods tx
  | GetCurrentAccessMethod tx | TestApiAccessMethodById tx _ | TestCustomApiAccessMethod tx _ | GetVersionInfo tx
  | IsPerformingPostUpgrade tx | GetCurrentVersion tx | FactoryReset tx | SplitTunnelIsEnabled tx | GetSplitTunnelProcesses tx
  | AddSplitTunnelProcess tx _ | RemoveSplitTunnelProcess tx _ | ClearSplitTunnelProcesses tx | SetObfuscationSettings tx _
  | ApplyJsonSettings tx _ | ExportJsonSettings tx | GetFeatureIndicators tx | UpdateDefaultLocationCountry tx | DisableRelay tx _
  | EnableRelay tx _ | AppUpgrade tx | AppUpgradeAbort tx | GetAppUpgradeCacheDir tx => [tx]
  end.
Definition asked (e : InternalDaemonEvent) : list Tx :=
  match e with Command c => request c | AccessMethodEvent_ _ tx => [tx] | _ => [] end.

(** ** Handlers *)

(** [gives l m]: [m] passes on the channels [l], and no others. *)
Definition gives (l : list Tx) {A} (m : M A) : Prop := ∀ d, owed (m d).2 ≡ₚ l ++ owed d.

Lemma gives_ret {A} (a : A) : gives [] (mret a).
Proof. by intros d. Qed.
Lemma gives_bind {A B} l l' (m : M A) (f : A → M B) : gives l m → (∀ a, gives l' (f a)) → gives (l ++ l') (m ≫= f).
Proof.
  intros Hm Hf d. unfold mbind, stateM_bind. specialize (Hm d). destruct (m d) as [a d1]. rewrite (Hf a d1). cbn in Hm. rewrite Hm.
  solve_Permutation.
Qed.
Lemma gives_first {A B} tx (m : M A) (f : A → M B) : gives [tx] m → (∀ a, gives [] (f a)) → gives [tx] (m ≫= f).
Proof. apply (gives_bind [tx] []). Qed.
Lemma gives_then {A B} l (m : M A) (f : A → M B) : gives [] m → (∀ a, gives l (f a)) → gives l (m ≫= f).
Proof. apply (gives_bind [] l). Qed.
Lemma gives_get {A} l (f : Daemon → M A) : (∀ d, gives l (f d)) → gives l (get ≫= f).
Proof. intros Hf d. apply (Hf d). Qed.
Lemma gives_when b m : gives [] m → gives [] (when b m).
Proof. destruct b; [done|]. by intros _ d. Qed.
Lemma gives_out o : gives (answer o) (send_out o).
Proof. intros d. unfold owed, send_out, modify_daemon; cbn. by rewrite <- (assoc_L (++)). Qed.
Lemma gives_spawn t : gives (waiting t) (spawn t).
Proof.
  intros d. unfold owed, spawn, modify_daemon; cbn. rewrite bind_app; cbn. rewrite app_nil_r. solve_Permutation.
Qed.
Lemma gives_same f : (∀ d, owed (f d) = owed d) → gives [] (modify_daemon f).
Proof. intros Hf d. cbn. by rewrite Hf. Qed.
Lemma gives_at_end tx e d : d_phase d = Running →
  owed (d <| d_shutdown_tasks ::= λ l, l ++ [(tx, e)] |>) ≡ₚ tx :: owed d.
Proof. intros Hp. unfold owed; cbn. rewrite Hp, map_app. cbn. solve_Permutation. Qed.
Lemma owed_queue f d : owed (d <| d_queue ::= f |>) = owed d.
Proof. done. Qed.
Lemma gives_channel : gives [] channel.
Proof. by intros d. Qed.

Lemma gives_settings s : gives [] (on_settings_change s).
Proof.
  repeat (apply gives_then; [first [by apply gives_same|apply (gives_out (Notify _))|apply (gives_spawn (TaskUpdateAccessMethods _))]|intros _]).
  by apply gives_same.
Qed.
Lemma gives_persister {E A} (op : SettingsPersister → result E A * SettingsPersister) : gives [] (persister op).
Proof.
  intros d. unfold persister. destruct (op (d_settings d)) as [r p]. cbn [snd].
  assert (∀ l d1, owed (foldl (λ d s, (on_settings_change s d).2) d1 l) ≡ₚ owed d1) as Hl; [|by rewrite Hl].
  induction l as [|s l IH]; intros d1; [reflexivity|]. cbn [foldl]. rewrite IH. apply gives_settings.
Qed.

Lemma owed_changed text s d : owed (settings_changed text s d) ≡ₚ owed d.
Proof. apply (gives_settings s). Qed.

(** One step of a handler that passes on one channel or none. *)
Ltac gives_leaf :=
  lazymatch goal with
  | |- gives [] (mret _) => apply gives_ret
  | |- gives [] channel => apply gives_channel
  | |- gives [] (persister _) => apply gives_persister
  | |- gives [] (modify_daemon _) => apply gives_same; intros ?; reflexivity
  | |- gives _ (spawn ?t) => exact (gives_spawn t)
  | |- gives _ (send_out ?o) => exact (gives_out o)
  end.
Ltac gives_run :=
  lazymatch goal with
  | |- gives _ (mbind _ get) => apply gives_get; intros ?; gives_run
  | |- gives [] (mbind _ _) => apply gives_then; [gives_run|intros ?; gives_run]
  | |- gives [_] (mbind _ _) => first [ apply gives_then; [solve [gives_run]|intros ?; gives_run] | apply gives_first; [gives_run|intros ?; gives_run] ]
  | |- gives [] (when _ _) => apply gives_when; gives_run
  | |- gives _ (match ?x with _ => _ end) => destruct x; gives_run
  | |- gives _ ?m => first [ gives_leaf | let h := wp_head m in unfold h; gives_run ]
  end.

Section Answers.
Context `{SettingsJson} `{TargetStateJson} `{PatchJson} `{Keys} `{IpNetworkCrate} `{Host}.
Context (beta : bool) (VERSION : Version) (chars : string → nat) (env : Env).

Lemma command_passes c d : d_phase d = Running → owed (handle_command beta VERSION chars env c d).2 ≡ₚ request c ++ owed d.
Proof.
  intros Hp. assert ((∃ tx, c = FactoryReset tx) ∨ ∀ tx, c ≠ FactoryReset tx) as [[tx ->]|Hc].
  { destruct c; try (right; intros; discriminate). left. by eexists. }
  - assert (wp (handle_command beta VERSION chars env (FactoryReset tx)) (λ _ d', owed d' ≡ₚ tx :: owed d) d) as Hw; [|exact Hw].
    unfold handle_command, on_factory_reset. wp_run; (rewrite gives_at_end by exact Hp; f_equiv); rewrite owed_queue, ?owed_changed; reflexivity.
  - assert (gives (request c) (handle_command beta VERSION chars env c)) as Hg; [|apply Hg].
    unfold handle_command. apply gives_get; intros ?. apply gives_then; [gives_run|intros _].
    destruct c; cbn [request]; try (exfalso; by eapply Hc); gives_run.
Qed.

Lemma event_passes e d : d_phase d = Running → owed (handle_event beta VERSION chars env e d).2 ≡ₚ asked e ++ owed d.
Proof.
  intros Hp. destruct e as [tr|c| | |ev|ae tx| | | |]; cbn [handle_event asked].
  2: { pose proof (command_passes c d Hp) as Hc. unfold mbind, stateM_bind. by destruct (handle_command _ _ _ _ c d). }
  all: match goal with |- owed (?m _).2 ≡ₚ ?l ++ _ => assert (gives l m) as Hg; [|apply Hg] end; gives_run.
Qed.

(** ** Tasks *)

(** The command was dropped before it was handled: nobody is told. *)
Definition lost (a : TaskAnswers) (t : Task) : list Tx :=
  match t with TaskForwardAck _ tx => if ta_acked a then [] else [tx] | _ => [] end.
Lemma task_passes a t d : owed (run_task a t d).2 ++ lost a t ≡ₚ waiting t ++ owed d.
Proof.
  assert ((∃ ack tx, t = TaskForwardAck ack tx) ∨ lost a t = [] ∧ gives (waiting t) (run_task a t)) as [(ack & tx & ->)|[El Hg]].
  { destruct t; try (right; split; [done|]; cbn [waiting]; gives_run). left. by eexists _, _. }
  - cbn. destruct (ta_acked a); cbn; [by rewrite app_nil_r|solve_Permutation].
  - by rewrite El, app_nil_r, (Hg d).
Qed.
End Answers.

(** ** Runs *)

Section Runs.
Context `{SettingsJson} `{TargetStateJson} `{PatchJson} `{Keys} `{IpNetworkCrate} `{Host}.
Context (beta : bool) (VERSION : Version) (chars : string → nat).
Context (key_bytes : string → list Z) (lookup : string → option (list IpAddr)).

(** *** The end *)

Lemma shutdown_tasks_give env ts : gives (map fst ts) (run_shutdown_tasks env ts).
Proof.
  induction ts as [|[tx e] ts IH]; cbn [run_shutdown_tasks map fst]; [apply gives_ret|].
  apply (gives_bind [tx]); [gives_run|done].
Qed.
Lemma shutdown_tasks_keep env ts d :
  let d' := (run_shutdown_tasks env ts d).2 in d_phase d' = d_phase d ∧ d_shutdown_tasks d' = d_shutdown_tasks d.
Proof.
  assert (keeps (λ d', d_phase d' = d_phase d ∧ d_shutdown_tasks d' = d_shutdown_tasks d) (run_shutdown_tasks env ts)) as Hk; [|by apply Hk].
  induction ts as [|[tx e] ts IH]; cbn [run_shutdown_tasks]; [apply keeps_ret|]. apply keeps_bind; [by intros ? ?|done].
Qed.
Lemma finalize_answers env d : d_phase d ≠ Stopped → owed (finalize env d).2 ≡ₚ owed d.
Proof.
  intros Hp. unfold finalize, mbind, stateM_bind. cbn.
  pose proof (shutdown_tasks_give env (d_shutdown_tasks d) d) as E.
  pose proof (shutdown_tasks_keep env (d_shutdown_tasks d) d) as [Ep Es].
  destruct (run_shutdown_tasks env (d_shutdown_tasks d) d) as [[] d1]. cbn in *.
  unfold owed in *. rewrite Ep, Es in E. cbn. destruct (d_phase d); [..|done]; rewrite app_nil_r.
  all: apply (Permutation_app_inv_l (map fst (d_shutdown_tasks d))); rewrite <- E; solve_Permutation.
Qed.

Lemma transition_passes env t : gives [] (handle_tunnel_state_transition env t).
Proof. gives_run. Qed.
Lemma transition_phase env t : keeps (λ d, d_phase d = Stopping) (handle_tunnel_state_transition env t).
Proof.
  keep_run ltac:(idtac; lazymatch goal with
    | |- keeps _ (modify_daemon _) => by intros ? ? | |- keeps _ (send_out _) => by intros ? ? | |- keeps _ channel => by intros ? ? end).
Qed.

(** The channels of the event that is received: after the loop, events are dropped. *)
Definition taken (d : Daemon) (e : InternalDaemonEvent) : list Tx :=
  match d_phase d with Running => asked e | _ => [] end.
Lemma shutdown_running env e d : d_phase d = Running → ends_loop e = true → d_phase (handle_event beta VERSION chars env e d).2 = Running.
Proof.
  intros Hp He. destruct e as [| |b| | | | | | |]; try done.
  assert (wp (handle_event beta VERSION chars env (TriggerShutdown b)) (λ _ d', d_phase d' = Running) d) as Hw; [|exact Hw]. by wp_run.
Qed.
Lemma disconnect_passes env d : d_phase d = Running → owed (disconnect_tunnel_and_wait env d).2 ≡ₚ owed d.
Proof.
  intros Hp. unfold disconnect_tunnel_and_wait, mbind, stateM_bind; cbn. destruct (is_disconnected _); [by apply finalize_answers; rewrite Hp|].
  unfold owed; cbn. by rewrite Hp.
Qed.
Lemma receive_passes env e d : owed (receive beta VERSION chars env e d).2 ≡ₚ taken d e ++ owed d.
Proof.
  unfold receive, mbind, stateM_bind, taken; cbn. destruct (d_phase d) eqn:Hp.
  - pose proof (event_passes beta VERSION chars env e d Hp) as He. pose proof (handle_event_result beta VERSION chars env e d) as Hr.
    pose proof (shutdown_running env e d Hp) as Hp'.
    destruct (handle_event beta VERSION chars env e d) as [b d1]. cbn in *. rewrite Hr. unfold when.
    destruct (ends_loop e); [|done]. rewrite disconnect_passes by auto. done.
  - destruct e; try done. pose proof (transition_passes env transition d) as Ht. pose proof (transition_phase env transition d Hp) as Hp'.
    destruct (handle_tunnel_state_transition env transition d) as [[] d1]. cbn in *. unfold when.
    destruct (is_disconnected _); [|done]. rewrite finalize_answers by congruence. done.
  - done.
Qed.

(** A task that runs leaves the list of tasks. *)
Lemma owed_deleted j t d : d_tasks d !! j = Some t → waiting t ++ owed (d <| d_tasks ::= delete j |>) ≡ₚ owed d.
Proof.
  intros Hj. unfold owed; cbn. rewrite (delete_Permutation _ _ _ Hj) at 2. cbn. solve_Permutation.
Qed.

(** One input: the channels of the event, and those that are lost. *)
Definition input_taken (d : Daemon) (i : Input) : list Tx :=
  match i with
  | InEvent _ e => taken d e
  | InOwn _ => match d_queue d with [] => [] | e :: _ => taken d e end
  | _ => []
  end.
Definition input_lost (d : Daemon) (i : Input) : list Tx :=
  match i with InTask a j => match d_tasks d !! j with Some t => lost a t | None => [] end | _ => [] end.
Lemma step_passes d i :
  owed (step beta VERSION chars key_bytes lookup d i) ++ input_lost d i ≡ₚ input_taken d i ++ owed d.
Proof.
  destruct i as [env e|env|a j| |data n av g|time|time l]; cbn [step input_lost input_taken]; rewrite ?app_nil_r.
  - apply receive_passes.
  - destruct (d_queue d) as [|e q]; [done|]. by rewrite receive_passes.
  - destruct (d_tasks d !! j) as [t|] eqn:Ej; [|by rewrite app_nil_r]. rewrite task_passes. by apply owed_deleted.
  - by destruct (d_param_gen d).
  - done.
  - destruct (d_reconnection_job d) as [job|]; [|done]. by destruct (_ && _).
  - done.
Qed.
Fixpoint all_taken (d : Daemon) (inputs : list Input) : list Tx :=
  match inputs with [] => [] | i :: inputs => input_taken d i ++ all_taken (step beta VERSION chars key_bytes lookup d i) inputs end.
Fixpoint all_lost (d : Daemon) (inputs : list Input) : list Tx :=
  match inputs with [] => [] | i :: inputs => input_lost d i ++ all_lost (step beta VERSION chars key_bytes lookup d i) inputs end.

Lemma run_passes inputs d :
  owed (run beta VERSION chars key_bytes lookup d inputs) ++ all_lost d inputs ≡ₚ all_taken d inputs ++ owed d.
Proof.
  revert d. induction inputs as [|i inputs IH]; intros d; [cbn; by rewrite app_nil_r|]. cbn [run foldl all_lost all_taken].
  specialize (IH (step beta VERSION chars key_bytes lookup d i)). unfold run in IH. pose proof (step_passes d i) as Hs.
  rewrite (Permutation_app_comm (input_lost d i)), (assoc_L (++)), IH, <- (assoc_L (++)), Hs. solve_Permutation.
Qed.

(** C14: Every request is answered once. After any sequence of events, the channels of
    the requests the daemon has taken, each as often as it was taken, are exactly those
    that were answered, those a task that is still running has, those of the tasks for
    the end, and those of commands forwarded to the tunnel state machine that it did
    not acknowledge, whether it dropped the command or, as for a change of DNS whose
    firewall policy fails (a finding), handled it without an acknowledgement: no request is
    forgotten by the daemon, and none is answered twice. *)
Theorem daemon_requests_answered a d0 inputs :
  start beta a = Ok d0 →
  let d1 := (handle_initial_target_state d0).2 in
  let d := run beta VERSION chars key_bytes lookup d1 inputs in
  (d_out d ≫= answer) ++ (d_tasks d ≫= waiting) ++ match d_phase d with Stopped => [] | _ => map fst (d_shutdown_tasks d) end ++
    all_lost d1 inputs ≡ₚ all_taken d1 inputs.
Proof.
  intros Hs d1 d. pose proof (run_passes inputs d1) as Hr. fold d in Hr. unfold owed at 1 in Hr. rewrite <- !(assoc_L (++)) in Hr.
  rewrite Hr. assert (owed d1 ≡ₚ []) as ->; [|by rewrite app_nil_r].
  assert (gives [] handle_initial_target_state) as Hg by gives_run. unfold d1. rewrite (Hg d0). cbn.
  apply start_inv in Hs as (h & b & E). assert (gives [] (finish_start a)) as Hf by gives_run.
  pose proof (Hf (initial_daemon a (load beta (io (sa_env a) 0) (sa_file a)) h (target_start
    (s_auto_connect (p_settings (load beta (io (sa_env a) 0) (sa_file a)))) (sa_target_read_fault a) (target_write (sa_env a)) (sa_target_file a)))) as Hd.
  rewrite E in Hd. exact Hd.
Qed.
End Runs.
