(* ===== verification/SettingsExample.v ===== *)
(** * Settings, patches and the target state on concrete inputs

    Formats for a family of settings, a few JSON documents and the target state, which
    satisfy what is assumed of the formats in SettingsPersister.v, SettingsPatch.v and
    TargetState.v; and runs on which the theorems about them are applied. *)

From S2P Require Import Prelude NetTypes TunnelTypes Constraints RelayTypes RelayLists CustomLists RelayQuery RelayMatcher RelaySelector RelayTheorems.
From S2P Require Import Json AccessMethods DeviceService AccountManager DaemonSettings SettingsPersister TargetState TunnelParams SettingsPatch RelayExample.
From Stdlib Require Import Ascii DecimalString DecimalZ DecimalPos.

(** ** Settings *)

Definition base : Settings := Settings_default (1, 2, 3) <| s_rollout_threshold_seed := Some 7 |>.
(** The settings that differ from [base] in three options, as three letters. *)
Definition variant (lan lockdown auto : bool) : Settings :=
  base <| s_allow_lan := lan |> <| s_lockdown_mode := lockdown |> <| s_auto_connect := auto |>.
Definition letter (b : bool) : ascii := if b then "t" else "f".
Definition bool_of_letter (c : ascii) : option bool :=
  if Ascii.eqb c "t" then Some true else if Ascii.eqb c "f" then Some false else None.
Definition variant_text (lan lockdown auto : bool) : string := String (letter lan) (String (letter lockdown) (String (letter auto) EmptyString)).
Definition variant_of_text (text : string) : option Settings :=
  match text with
  | String a (String b (String c EmptyString)) =>
      lan ← bool_of_letter a; lockdown ← bool_of_letter b; auto ← bool_of_letter c; Some (variant lan lockdown auto)
  | _ => None
  end.
#[global] Instance example_settings_json : SettingsJson.
Proof.
  refine {| to_string_pretty s :=
              if decide (s = variant (s_allow_lan s) (s_lockdown_mode s) (s_auto_connect s))
              then Ok (variant_text (s_allow_lan s) (s_lockdown_mode s) (s_auto_connect s)) else Err tt;
            from_slice text := match variant_of_text text with Some s => Ok s | None => Err tt end |}.
  - intros s text. case_decide as E; [|done]. intros [= <-]. rewrite E at 4.
    by destruct (s_allow_lan s), (s_lockdown_mode s), (s_auto_connect s).
  - intros s text. unfold variant_of_text. destruct text as [|a [|b [|c []]]]; try done.
    destruct (bool_of_letter a), (bool_of_letter b), (bool_of_letter c); try done. by intros [= <-].
Defined.

Definition no_fault : Io := {|
  read_fault := None; create_fault := None; write_fault := None; finalize_fault := None; remove_fault := None; fresh_ids := (1, 2, 3) |}.
Definition full_disk : Io := {|
  read_fault := None; create_fault := None; write_fault := Some KindOther; finalize_fault := None; remove_fault := None; fresh_ids := (1, 2, 3) |}.

Definition stored (s : Settings) (text : string) : SettingsPersister := {| p_settings := s; p_file := Some text; p_notified := [] |}.

(** An update that is saved, one for which there is no space, and a reset that has to
    remove the file. *)
Definition operations : list Operation :=
  [OpUpdate no_fault (λ s, Ok (s <| s_allow_lan := true |>)); OpUpdate full_disk (λ s, Ok (s <| s_lockdown_mode := true |>))].
Lemma settings_durable_witness :
  let p' := foldl (operate false) (load false no_fault (Some "fff"%string)) operations in
  p_settings p' = variant true false false ∧ p_notified p' = [variant true false false] ∧
  (p_settings (load false no_fault (p_file p')) = beta_forced false (persisted (p_settings p')) ∨
   ∃ ids, p_settings p' = default_settings false ids ∧ p_settings (load false no_fault (p_file p')) = default_settings false (1, 2, 3)).
Proof.
  intros p'. split; [vm_compute; reflexivity|]. split; [vm_compute; reflexivity|].
  apply (settings_durable false no_fault (Some "fff"%string) operations no_fault).
  - vm_compute. discriminate.
  - split; [intros []|]. split; [intros []|exact I].
  - reflexivity.
Defined.

Lemma damaged_settings_lock_down_witness :
  s_lockdown_mode (p_settings (load false no_fault (Some "garbage"%string))) = true ∧
  ((∃ text s, read_fault no_fault = None ∧ Some "tff"%string = Some text ∧ from_slice text = Ok s ∧ s_lockdown_mode s = false) ∨
   read_fault no_fault = Some KindNotFound ∨ (read_fault no_fault = None ∧ Some "tff"%string = None)).
Proof.
  split; [vm_compute; reflexivity|]. apply (damaged_settings_lock_down false no_fault (Some "tff"%string)). vm_compute. reflexivity.
Defined.

(** ** The target state *)

(** Text with double quotes for single ones. *)
Definition quoted (text : string) : string :=
  String.string_of_list_ascii (map (λ c, if Ascii.eqb c "'" then ascii_of_nat 34 else c) (String.list_ascii_of_string text)).
#[global] Instance example_target_json : TargetStateJson.
Proof.
  refine {| ts_to_string s := quoted (match s with Secured => "'secured'" | Unsecured => "'unsecured'" end);
            ts_from_str text := if decide (text = quoted "'secured'") then Some Secured
                                else if decide (text = quoted "'unsecured'") then Some Unsecured else None |}.
  - by intros [].
  - intros []; cbn; intros n Hn; do 11 (destruct n as [|n]; [reflexivity || lia|]); lia.
Defined.

(** Secured by the user; the write is cut off, and the daemon is killed. *)
Definition killed : PersistentTargetState :=
  foldl target_step (target_start false false Written None) [TiSet Written Secured; TiSet Written Unsecured; TiSet (CutOff 3) Secured].
Lemma target_state_survives_witness :
  ts_file killed = Some (quoted "'se") ∧
  let t' := target_start false false Written (ts_file killed) in
  (ts_state killed = Secured → ts_state t' = Secured) ∧
  (false = true → false = false → ts_state t' = ts_state killed) ∧ (false = true → ts_state t' = Secured).
Proof.
  split; [vm_compute; reflexivity|].
  apply (target_state_survives false false false false Written None
           [TiSet Written Secured; TiSet Written Unsecured; TiSet (CutOff 3) Secured] Written); [exact I|].
  repeat constructor.
Defined.

(** ** Patches *)

Definition z_text (z : Z) : string := NilZero.string_of_int (Z.to_int z).
Definition z_parse (text : string) : option Z := Z.of_int <$> NilZero.int_of_string text.
Lemma z_round_trip z : z_parse (z_text z) = Some z.
Proof.
  unfold z_parse, z_text. rewrite NilZero.isi; [cbn; by rewrite DecimalZ.of_to| |];
    destruct z as [|p|p]; cbn; try done; intros [= E]; by apply (DecimalPos.Unsigned.to_uint_nonnil p).
Qed.
(** Addresses as numbers, those of IPv6 with a letter in front. *)
Definition v6_text (a : Z) : string := String "v" (z_text a).
Definition v6_parse (s : string) : option Z := match s with String "v" s => z_parse s | _ => None end.
Lemma v6_round_trip a : v6_parse (v6_text a) = Some a.
Proof. apply z_round_trip. Qed.
#[global] Instance example_ip_text : IpText := {|
  ipv4_text := z_text; ipv4_parse := z_parse; ipv6_text := v6_text; ipv6_parse := v6_parse;
  ipv4_round_trip := z_round_trip; ipv6_round_trip := v6_round_trip |}.

Definition malmo_override : RelayOverride :=
  {| ro_hostname := "se-mma-wg-001"; ro_ipv4_addr_in := Some 1; ro_ipv6_addr_in := None |}.
Definition entry (fields : list (string * Value)) : Value := Object (("hostname"%string, String_ "se-mma-wg-001") :: fields).
(** Documents and their values. *)
Definition documents : list (string * Value) :=
  [(quoted "{}", Object []);
   (quoted "{'relay_overrides':[{'hostname':'se-mma-wg-001','ipv4_addr_in':'1'}]}",
    Object [("relay_overrides"%string, Array [entry [("ipv4_addr_in"%string, String_ "1")]])]);
   (quoted "{'relay_overrides':[{'hostname':'se-mma-wg-001','ipv4_addr_in':null,'ipv6_addr_in':'v5'}]}",
    Object [("relay_overrides"%string, Array [entry [("ipv4_addr_in"%string, Null); ("ipv6_addr_in"%string, String_ "v5")]])])].

Definition overriding_settings (os : list RelayOverride) : Settings := base <| s_relay_overrides := os |>.
Definition settings_value (os : list RelayOverride) : Map := [("relay_overrides"%string, Array (override_to_value <$> os))].
Lemma overrides_round_trip os : mapM override_from_value (override_to_value <$> os) = Some os.
Proof.
  induction os as [|o os IH]; [done|]. rewrite fmap_cons. cbn [mapM].
  assert (override_from_value (override_to_value o) = Some o) as ->; [|by cbn; rewrite IH].
  apply override_from_value_some. split; [apply override_get_host|].
  rewrite override_get_v4, override_get_v6. split; apply option_value_round_trip; [apply z_round_trip|apply v6_round_trip].
Qed.
#[global] Instance example_patch_json : PatchJson.
Proof.
  refine {| settings_to_value s := if decide (s = overriding_settings (s_relay_overrides s))
                                   then Ok (settings_value (s_relay_overrides s)) else Err tt;
            settings_from_value v :=
              match v with
              | Object m => match map_get "relay_overrides" m with
                            | Some (Array l) => overriding_settings <$> mapM override_from_value l
                            | _ => None
                            end
              | _ => None
              end;
            parse_value text := snd <$> List.find (λ d, bool_decide (d.1 = text)) documents;
            print_value v := match List.find (λ d, bool_decide (d.2 = v)) documents with Some d => Ok d.1 | None => Err tt end |}.
  - intros v text. destruct (List.find _ documents) as [[t v']|] eqn:E; [|done]. intros [= <-] _.
    apply List.find_some in E as [Hin Ev]. cbn in Ev. apply bool_decide_eq_true in Ev as <-. cbn.
    repeat (destruct Hin as [[= <- <-]|Hin]; [vm_compute; reflexivity|]). destruct Hin.
  - intros text v. destruct (List.find _ documents) as [[t v']|] eqn:E; [|done]. intros [= <-].
    apply List.find_some in E as [Hin _].
    repeat (destruct Hin as [[= <- <-]|Hin]; [vm_compute; repeat constructor; try done; set_solver|]). destruct Hin.
  - intros s m. case_decide; [|done]. by intros [= <-].
  - intros s m. case_decide as Es; [|done]. intros [= <-].
    change (overriding_settings <$> mapM override_from_value (override_to_value <$> s_relay_overrides s) = Some (persisted s)).
    rewrite overrides_round_trip. cbn. by rewrite Es.
  - intros s m l. case_decide as Es; [|done]. intros [= <-].
    change (overriding_settings <$> mapM override_from_value l = (λ os, persisted s <| s_relay_overrides := os |>) <$> mapM override_from_value l).
    destruct (mapM override_from_value l); cbn; [|done]. f_equal. by rewrite Es.
Defined.

Definition export_text : string := quoted "{'relay_overrides':[{'hostname':'se-mma-wg-001','ipv4_addr_in':'1'}]}".
Definition second_text : string := quoted "{'relay_overrides':[{'hostname':'se-mma-wg-001','ipv4_addr_in':null,'ipv6_addr_in':'v5'}]}".

Lemma one_override_ok : overrides_ok (overriding_settings [malmo_override]).
Proof. apply NoDup_singleton. Qed.

(** One address is removed and the other one added. *)
Definition moved : RelayOverride := {| ro_hostname := "se-mma-wg-001"; ro_ipv4_addr_in := None; ro_ipv6_addr_in := Some 5 |}.
Lemma patch_applied_witness :
  merge_validate_patch_inner (overriding_settings [malmo_override]) second_text = Ok (overriding_settings [moved]) ∧
  overrides_ok (overriding_settings [moved]).
Proof.
  assert (merge_validate_patch_inner (overriding_settings [malmo_override]) second_text = Ok (overriding_settings [moved])) as E
    by (vm_compute; reflexivity).
  split; [exact E|]. exact (proj1 (proj2 (patch_applied _ _ _ one_override_ok E))).
Defined.

Lemma patch_round_trip_witness :
  merge_validate_patch_inner base export_text = Ok (base <| s_relay_overrides := [malmo_override] |>).
Proof.
  apply (patch_round_trip (overriding_settings [malmo_override]) export_text base one_override_ok); [vm_compute; reflexivity..].
Defined.

(** ** Parameters *)

Definition example_account : PrivateAccountAndDevice := {|
  account_number := "1234";
  device := {| id := "d1"; name := "happy seal"; hijack_dns := false; created := 0;
               DeviceService.wg_data := {| private_key := "k1"; wg_created := 0;
                 DeviceService.addresses := {| ipv4_address := NetV4 (Ipv4Addr_new 10 68 1 2) 32; ipv6_address := NetV6 0 128 |} |} |} |}.
Definition generator : ParametersGenerator := ParametersGenerator_new selector TunnelOptions_default.
Definition repeat_key (_ : string) : list Z := repeat 7 32.
Definition no_hosts (_ : string) : option (list IpAddr) := None.
Definition generated := generate repeat_key no_hosts (Ok (LoggedIn example_account)) 0 Ipv4 generator 0%nat.
Lemma parameters_generated_witness :
  match generated with
  | (Some (Ok t), p', _) =>
      ∃ d, @Ok DeviceService.Error _ (LoggedIn example_account) = Ok (LoggedIn d) ∧
      ((∃ e, relay_settings (config selector) = RsCustomTunnelEndpoint e ∧
         to_tunnel_parameters no_hosts e TunnelOptions_default None = Ok t ∧ get_last_location p' = None) ∨
       ∃ c u r, SpecializedSelectorConfig_from (config selector) = ScNormal c ∧ RelayQuery_try_from c = Some u ∧
         answers u (custom_lists (config selector)) (parsed_list (parsed_relays selector)) r ∧ family_available Ipv4 r ∧
         parameters_of repeat_key d TunnelOptions_default r t ∧ shows r (get_last_location p'))
  | _ => False
  end.
Proof.
  pose proof (parameters_generated repeat_key no_hosts (Ok (LoggedIn example_account)) 0 Ipv4 generator 0%nat) as Ht.
  fold generated in Ht. assert (∃ t p' g', generated = (Some (Ok t), p', g')) as (t & p' & g' & E) by (vm_compute; eauto).
  rewrite E in *. apply Ht. repeat constructor; cbn; lia.
Defined.
