(* ===== verification/DaemonExample.v ===== *)
(** * A run of the daemon

    The user allows the local network, turns lockdown mode on and connects; later the daemon
    is told to end.  The theorems about the daemon and its tunnel are applied to it. *)

From S2P Require Import Prelude NetTypes TunnelTypes TunnelStates TunnelSafety TunnelHandlers TunnelTheorems.
From S2P Require Import Constraints RelayTypes CustomLists RelayMatcher RelaySelector RelayExample LinuxTunnel.
From S2P Require Import Versions VersionRouter AccessMethods AccessMode Availability DeviceService AccountManager DaemonSettings.
From S2P Require Import SettingsPersister TargetState TunnelParams SettingsPatch GeoIp SplitTunnel DaemonTypes DaemonCommands Daemon DaemonTheorems DaemonTunnel DaemonIntent DaemonState DaemonAnswers.
From S2P Require Import SettingsExample.

#[local] Instance daemon_keys : Keys := {| DeviceService.public_key := λ k, ("pub " ++ k)%string |}.

Definition version0 : Version := {| year := 2025; incremental := 1; pre_stable := None; dev := None |}.
Definition quiet_env : Env := {|
  now := 0; io := λ _, no_fault; target_write := Written; history_save := Saved;
  account_data := Ok (LoggedIn example_account); use_method_reply := Ok tt; resolve_reply := Ok None;
  pid_answers := {| opens := true; reads := true; moves := λ _, true |}; new_v4 := 9; directories_cleared := true;
  target_remove_fails := false |}.
Definition answers0 : StartAnswers := {|
  sa_now := 0; sa_env := quiet_env; sa_file := Some "fff"%string; sa_relays := (Ok (0, sweden), Ok (0, sweden));
  sa_migrating := false; sa_device := LoggedIn example_account; sa_history_opens := true; sa_history_text := None;
  sa_history_file := ""; sa_target_read_fault := false; sa_target_file := None; sa_endpoint := api;
  sa_pids := {| find_net_cls_mount := Ok true; dir_exists := true; create_dir_ok := true; mount_ok := true;
                exclusions_exist := true; create_exclusions_ok := true; write_classid_ok := true; present := [] |};
  sa_rollout_seed := 5; sa_services_before := true; sa_services_after := true |}.

Definition started : Daemon := match start false answers0 with Ok d => d | Err _ => initial_daemon answers0 (stored base "") {| history_number := None; history_file := "" |} killed end.
Lemma daemon_started : start false answers0 = Ok started.
Proof. vm_compute. reflexivity. Qed.

Definition wishes : list Input :=
  [InEvent quiet_env (Command (SetAllowLan 1 true)); InEvent quiet_env (Command (SetTargetState 2 Secured));
   InEvent quiet_env (Command (SetLockdownMode 3 true))].
Abbreviation run0 := (Daemon.run false version0 String.length repeat_key no_hosts).
Definition wished : Daemon := run0 (handle_initial_target_state started).2 wishes.

Definition initial_settings : InitialTunnelState := default LinuxTunnel.settings (spawned (d_out started)).
(** The machine gets the commands, the tunnel comes up before the last one. *)
Definition commands (d : Daemon) : list EventResult := map (λ c, EvCommand (Some c)) (rev (sent (d_out d))).
Definition tunnel_inputs : list (EventResult * bool) := good (take 2 (commands wished) ++ up :: drop 2 (commands wished)).
Definition new_machine : machine := TunnelStateMachine_new initial_settings LinuxTunnel.online {| so_policy := None; so_budget := 9 |}.
Definition ran (inputs : list (EventResult * bool)) : list TunnelStateTransition * machine :=
  default ([], new_machine) (TunnelStates.run inputs new_machine).
Definition connected_with : TunnelStates.TunnelState := state_of (ran tunnel_inputs).2.

Lemma user_settings_enforced_witness :
  values (w_sv (world (ran tunnel_inputs).2)) = (true, DnsDefault, true) ∧
  values (w_sv (world (ran tunnel_inputs).2)) =
    (s_allow_lan (settings wished), addresses_from_options (dns_options (s_tunnel_options (settings wished))), s_lockdown_mode (settings wished)) ∧
  user_policy connected_with (settings wished) (world (ran tunnel_inputs).2).
Proof.
  split; [vm_compute; reflexivity|].
  apply (user_settings_enforced false version0 String.length repeat_key no_hosts answers0 started wishes initial_settings
           LinuxTunnel.online {| so_policy := None; so_budget := 9 |} tunnel_inputs (ran tunnel_inputs).1 (ran tunnel_inputs).2 connected_with);
    vm_compute; reflexivity.
Defined.

Lemma channel_open (inputs : list (EventResult * bool)) :
  forallb (λ x, match x.1 with EvCommand None => false | _ => true end) inputs = true → Forall (λ x, x.1 ≠ EvCommand None) inputs.
Proof.
  intros E. apply Forall_forall. intros x Hx Hn. rewrite forallb_forall in E. apply list_elem_of_In in Hx. specialize (E x Hx). by rewrite Hn in E.
Qed.
Lemma not_blocked : match connected_with with StError _ => last_fw (w_log (world (ran tunnel_inputs).2)) = Some true | _ => True end.
Proof. vm_compute. exact I. Qed.
Lemma secured_stays_protected_witness :
  committed connected_with = true ∧ ∃ policy, enforced (w_os (world (ran tunnel_inputs).2)) (Some policy).
Proof.
  destruct (secured_stays_protected false version0 String.length repeat_key no_hosts answers0 started wishes initial_settings
    LinuxTunnel.online {| so_policy := None; so_budget := 9 |} tunnel_inputs (ran tunnel_inputs).1 (ran tunnel_inputs).2 connected_with)
    as [Hc Hp]; [exact daemon_started|vm_compute; reflexivity|vm_compute; reflexivity|vm_compute; reflexivity|vm_compute; reflexivity|vm_compute; reflexivity|apply channel_open; vm_compute; reflexivity|vm_compute; reflexivity|].
  split; [exact Hc|exact (Hp not_blocked)].
Defined.

(** The system stops the daemon. *)
Definition transition_down : Input := InEvent quiet_env (TunnelStateTransition_ (TrDisconnected true)).
Definition ended_daemon : Daemon :=
  run0 (receive false version0 String.length quiet_env (TriggerShutdown false) wished).2 [transition_down].
Definition last_inputs : list (EventResult * bool) :=
  tunnel_inputs ++ good (drop 3 (commands ended_daemon) ++ [EvClose (Ok None)]).
Lemma shutdown_stays_blocked_witness :
  d_phase ended_daemon = Stopped ∧ current_state (ran last_inputs).2 = Some StDisconnected ∧
  LockdownMode_bool (lockdown_mode (w_sv (world (ran last_inputs).2))) = true ∧
  enforced (w_os (world (ran last_inputs).2))
    (Some (Blocked (allow_lan (w_sv (world (ran last_inputs).2))) (Some (allowed_endpoint (w_sv (world (ran last_inputs).2)))))).
Proof.
  destruct (shutdown_stays_blocked false version0 String.length repeat_key no_hosts answers0 started wishes quiet_env [transition_down]
    initial_settings LinuxTunnel.online {| so_policy := None; so_budget := 9 |} last_inputs (ran last_inputs).1 (ran last_inputs).2)
    as (Hp & Hl & Hs); [exact daemon_started|vm_compute; reflexivity|left; vm_compute; reflexivity|vm_compute; reflexivity..|].
  split; [vm_compute; reflexivity|]. split; [vm_compute; reflexivity|]. split; [exact Hl|].
  apply Hs; vm_compute; reflexivity.
Defined.

(** Every identifier that is drawn is a new one. *)
Lemma nine_fresh d : settings d = settings started ∨ settings d = variant true false false →
  env_fresh d quiet_env.
Proof.
  intros Hs. split; [|intros k; cbn; apply (bool_decide_unpack _); vm_compute; exact I].
  destruct Hs as [-> | ->]; apply (bool_decide_unpack _); vm_compute; exact I.
Qed.
Lemma base_well_formed : well_formed base.
Proof.
  split; [apply NoDup_nil_2| |by split; apply NoDup_nil_2|apply access_methods.default_ok; apply (bool_decide_unpack _); vm_compute; exact I].
  intros ? [= <-]. split; [constructor|cbn; lia].
Qed.
Lemma settings_well_formed_witness : settings wished = variant true true false ∧ well_formed (settings wished).
Proof.
  split; [vm_compute; reflexivity|].
  apply (settings_well_formed false version0 String.length repeat_key no_hosts answers0 started wishes).
  - exact base_well_formed.
  - exact daemon_started.
  - split; [apply nine_fresh; left; vm_compute; reflexivity|].
    split; [apply nine_fresh; right; vm_compute; reflexivity|].
    split; [apply nine_fresh; right; vm_compute; reflexivity|exact I].
Defined.

(** Two requests wait for the tunnel state machine, one is answered. *)
Definition taken0 : list Tx := all_taken false version0 String.length repeat_key no_hosts (handle_initial_target_state started).2 wishes.
Definition lost0 : list Tx := all_lost false version0 String.length repeat_key no_hosts (handle_initial_target_state started).2 wishes.
Lemma daemon_requests_answered_witness :
  taken0 = [1; 2; 3]%nat ∧ (d_out wished ≫= answer) = [2]%nat ∧ (d_tasks wished ≫= waiting) = [1; 3]%nat ∧
  (d_out wished ≫= answer) ++ (d_tasks wished ≫= waiting) ++
    match d_phase wished with Stopped => [] | _ => map fst (d_shutdown_tasks wished) end ++ lost0 ≡ₚ taken0.
Proof.
  split; [vm_compute; reflexivity|]. split; [vm_compute; reflexivity|]. split; [vm_compute; reflexivity|].
  exact (daemon_requests_answered false version0 String.length repeat_key no_hosts answers0 started wishes daemon_started).
Defined.
