(* ===== verification/ProtoTypes.v ===== *)
(** * Messages of the management interface

    mullvad-management-interface/proto/management_interface.proto, the messages that
    clients and the daemon exchange, and what every conversion shares
    (mullvad-management-interface/src/types/conversions/mod.rs).

    A message field is an [option], since protobuf lets a sender leave it out; so is the
    content of a `oneof`.  An enumeration travels as a 32-bit number, which need not be one of its
    values: [WireEnum] has the numbers of the .proto file, [enum_try_from] the check
    prost generates.  `uint32` fields are [Z]; doubles are their bits.  Addresses,
    networks and UUIDs travel as text, written and read by std and by the crates
    `ipnetwork` and `uuid`: the class [WireText]. *)

From S2P Require Import Prelude NetTypes RelayTypes SettingsPatch.

(** ** Errors (conversions/mod.rs) *)

Inductive FromProtobufTypeError : Set := InvalidArgument (reason : string).
Abbreviation conv := (result FromProtobufTypeError).
Definition ok_or {A} (o : option A) (reason : string) : conv A :=
  match o with Some a => Ok a | None => Err (InvalidArgument reason) end.
(** [Option<Result>::transpose] after a [map]. *)
Definition transpose {A B} (f : A → conv B) (o : option A) : conv (option B) :=
  match o with Some a => Some <$> f a | None => Ok None end.
(** [into_iter().map(f).collect::<Result<Vec<_>, _>>()]. *)
Fixpoint try_collect {A B} (f : A → conv B) (l : list A) : conv (list B) :=
  match l with
  | [] => Ok []
  | a :: l => b ← f a; bs ← try_collect f l; Ok (b :: bs)
  end.
(** [x as u16] and [u16::try_from(x)]. *)
Definition as_u16 (z : Z) : Z := wrap 16 z.
Definition u16_try_from (z : Z) (reason : string) : conv Z :=
  if (0 <=? z) && (z <? 2 ^ 16) then Ok z else Err (InvalidArgument reason).

Definition bytes_to_wg_key (bytes : list Z) (error_msg : string) : conv (list Z) :=
  if decide (length bytes = 32%nat) then Ok bytes else Err (InvalidArgument error_msg).
Definition bytes_to_pubkey (bytes : list Z) : conv (list Z) := bytes_to_wg_key bytes "invalid public key".
Definition bytes_to_privkey (bytes : list Z) : conv (list Z) := bytes_to_wg_key bytes "invalid private key".

(** ** Enumerations *)

Class WireEnum (E : Type) : Type := {
  wire_values : list E;
  to_i32 : E → Z
}.
Definition enum_find {E} `{WireEnum E} (n : Z) : option E := List.find (λ e, to_i32 e =? n) wire_values.
Definition enum_try_from {E} `{WireEnum E} (n : Z) (reason : string) : conv E := ok_or (enum_find n) reason.
Arguments enum_find : simpl never.
Arguments to_i32 : simpl never.
Arguments enum_try_from : simpl never.
(** Every value is listed and has a number of its own. *)
Class WireEnumOk (E : Type) `{WireEnum E} : Prop :=
  enum_round_trip e reason : enum_try_from (to_i32 e) reason = Ok e.

Lemma enum_find_same {E} `{WireEnumOk E} (e : E) : enum_find (to_i32 e) = Some e.
Proof.
  pose proof (enum_round_trip e "") as Hx. unfold enum_try_from in Hx. destruct (enum_find _); [by injection Hx as ->|done].
Qed.

(** ** Text *)

(** Rust strings are UTF-8; the encodings of the characters with the property
    White_Space. *)
Definition white_space : list (list Z) :=
  [[9]; [10]; [11]; [12]; [13]; [32]; [194; 133]; [194; 160]; [225; 154; 128]; [226; 128; 168]; [226; 128; 169];
   [226; 128; 175]; [226; 129; 159]; [227; 128; 128]] ++ ((λ i, [226; 128; 128 + i]) <$> [0; 1; 2; 3; 4; 5; 6; 7; 8; 9; 10]).
Definition bytes_of (s : string) : list Z := (λ a, Z.of_nat (Ascii.nat_of_ascii a)) <$> String.list_ascii_of_string s.
Definition starts_with (p l : list Z) : bool := bool_decide (take (length p) l = p).
Fixpoint trim_front (patterns : list (list Z)) (fuel : nat) (l : list Z) : list Z :=
  match fuel with
  | O => l
  | S fuel =>
      match List.find (λ p, starts_with p l) patterns with
      | Some p => trim_front patterns fuel (drop (length p) l)
      | None => l
      end
  end.
(** [str::trim]; every step removes a character, so the length is enough fuel. *)
Definition trim_bytes (l : list Z) : list Z :=
  let l := trim_front white_space (length l) l in
  reverse (trim_front (reverse <$> white_space) (length l) (reverse l)).
Definition string_of_bytes (l : list Z) : string :=
  String.string_of_list_ascii ((λ z, Ascii.ascii_of_nat (Z.to_nat z)) <$> l).
Definition trim (s : string) : string := string_of_bytes (trim_bytes (bytes_of s)).

(** What std and the crates document: the text of a value is read back as that value,
    the text of an IPv6 address is not one of an IPv4 address, and the text of a network
    neither is empty nor has white space around it.  The text
    of a [SocketAddrV6] leaves the flow information out and writes the scope. *)
Class WireText `{IpText} : Type := {
  sock_text : SocketAddr → string;
  sock_parse : string → option SocketAddr;
  net_text : IpNetwork → string;
  net_parse : string → option IpNetwork;
  uuid_text : Z → string;
  uuid_parse : string → option Z;
  ipv6_not_ipv4 a : ipv4_parse (ipv6_text a) = None;
  sock_round_trip a : sock_parse (sock_text a) = Some (clear_flowinfo a);
  net_round_trip n : net_parse (net_text n) = Some n;
  net_text_trimmed n : trim (net_text n) = net_text n ∧ net_text n ≠ ""%string;
  uuid_round_trip u : uuid_parse (uuid_text u) = Some u
}.
(** Of an [IpAddr]: the text of the address; an IPv4 address is tried first. *)
Definition ip_text `{IpText} (a : IpAddr) : string :=
  match a with AddrV4 a => ipv4_text a | AddrV6 a => ipv6_text a end.
Definition ip_parse `{IpText} (s : string) : option IpAddr :=
  match ipv4_parse s with Some a => Some (AddrV4 a) | None => AddrV6 <$> ipv6_parse s end.
Lemma ip_round_trip `{WireText} a : ip_parse (ip_text a) = Some a.
Proof. unfold ip_parse. destruct a; cbn; [by rewrite ipv4_round_trip|by rewrite ipv6_not_ipv4, ipv6_round_trip]. Qed.
Arguments ip_text : simpl never.
Arguments ip_parse : simpl never.
Definition arg_from_str {A} (parse : string → option A) (s invalid_arg_msg : string) : conv A :=
  ok_or (parse s) invalid_arg_msg.

(** ** Reading back *)

(** [enc] and [dec] are the two conversions of a type, [seen] what is left of a value
    after both. *)
Definition reads_back {A B} (enc : A → B) (dec : B → conv A) (seen : A → A) (a : A) : Prop := dec (enc a) = Ok (seen a).

Lemma transpose_reads {A B} (enc : A → B) dec seen (o : option A) :
  (∀ a, o = Some a → reads_back enc dec seen a) → transpose dec (enc <$> o) = Ok (seen <$> o).
Proof. destruct o as [a|]; cbn; [|done]. intros H. by rewrite (H a). Qed.

Lemma try_collect_reads {A B} (enc : A → B) dec seen (l : list A) :
  Forall (reads_back enc dec seen) l → try_collect dec (enc <$> l) = Ok (seen <$> l).
Proof. induction 1 as [|a l Ha _ IH]; cbn; [done|]. by rewrite Ha, IH. Qed.

Lemma try_collect_reads_same {A B} (enc : A → B) dec (l : list A) :
  (∀ a, dec (enc a) = Ok a) → try_collect dec (enc <$> l) = Ok l.
Proof.
  intros H. rewrite (try_collect_reads enc dec (λ a, a)); [by rewrite list_fmap_id|].
  apply Forall_true. intros a. apply H.
Qed.

Lemma transpose_reads_same {A B} (enc : A → B) dec (o : option A) :
  (∀ a, dec (enc a) = Ok a) → transpose dec (enc <$> o) = Ok o.
Proof. intros H. destruct o; cbn; [by rewrite H|done]. Qed.

Lemma as_u16_small z : u16_range z → as_u16 z = z.
Proof. unfold as_u16, wrap, u16_range. intros ?. by rewrite Z.mod_small. Qed.
Lemma as_u16_range z : u16_range (as_u16 z).
Proof. apply Z.mod_pos_bound. lia. Qed.
Lemma as_u16_option o : (∀ z, o = Some z → u16_range z) → as_u16 <$> o = o.
Proof. destruct o; cbn; [|done]. intros H. by rewrite as_u16_small by auto. Qed.
Lemma wg_key_ok k msg : length k = 32%nat → bytes_to_wg_key k msg = Ok k.
Proof. intros E. unfold bytes_to_wg_key. by rewrite decide_True. Qed.
Lemma u16_try_small z reason : u16_range z → u16_try_from z reason = Ok z.
Proof.
  unfold u16_range, u16_try_from. intros [??].
  by rewrite (proj2 (Z.leb_le 0 z)), (proj2 (Z.ltb_lt z _)) by done.
Qed.

(** ** Messages *)

Module proto.
(** *** Constraints and relay settings *)
Record GeographicLocationConstraint : Set := { gl_country : string; gl_city : option string; gl_hostname : option string }.
Inductive LocationType : Set := CustomList_ (id : string) | Location_ (l : GeographicLocationConstraint).
Record LocationConstraint : Set := { lc_type : option LocationType }.
Record TransportPort : Set := { tp_protocol : Z; tp_port : option Z }.
Record OpenvpnConstraints : Set := { oc_port : option TransportPort }.
Record WireguardConstraints : Set := {
  wc_port : option Z;
  wc_ip_version : option Z;
  wc_allowed_ips : list string;
  wc_use_multihop : bool;
  wc_entry_location : option LocationConstraint
}.
Record NormalRelaySettings : Set := {
  nr_location : option LocationConstraint;
  nr_providers : list string;
  nr_tunnel_type : Z;
  nr_wireguard_constraints : option WireguardConstraints;
  nr_openvpn_constraints : option OpenvpnConstraints;
  nr_ownership : Z
}.
Record OpenvpnConfig : Set := { oc_address : string; oc_protocol : Z; oc_username : string; oc_password : string }.
Record TunnelConfig : Set := { tc_private_key : list Z; tc_addresses : list string }.
Record PeerConfig : Set := { pc_public_key : list Z; pc_allowed_ips : list string; pc_endpoint : string }.
Record WireguardConfig : Set := {
  wg_tunnel : option TunnelConfig;
  wg_peer : option PeerConfig;
  wg_ipv4_gateway : string;
  wg_ipv6_gateway : option string
}.
Inductive Config : Set := ConfigOpenvpn (c : OpenvpnConfig) | ConfigWireguard (c : WireguardConfig).
Record ConnectionConfig : Set := { cc_config : option Config }.
Record CustomRelaySettings : Set := { cr_host : string; cr_config : option ConnectionConfig }.
Inductive RelayEndpoint : Set := EpCustom (c : CustomRelaySettings) | EpNormal (n : NormalRelaySettings).
Record RelaySettings : Set := { rs_endpoint : option RelayEndpoint }.

(** *** Proxies and bridges *)
Record Socks5Local : Set := {
  sl_remote_ip : string; sl_remote_port : Z; sl_remote_transport_protocol : Z; sl_local_port : Z
}.
Record SocksAuth : Set := { sa_username : string; sa_password : string }.
Record Socks5Remote : Set := { sr_ip : string; sr_port : Z; sr_auth : option SocksAuth }.
Record Shadowsocks : Set := { ss_ip : string; ss_port : Z; ss_password : string; ss_cipher : string }.
Inductive ProxyMethod : Set := PmSocks5local (s : Socks5Local) | PmSocks5remote (s : Socks5Remote) | PmShadowsocks (s : Shadowsocks).
Record CustomProxy : Set := { proxy_method : option ProxyMethod }.
Record BridgeConstraints : Set := {
  bc_location : option LocationConstraint; bc_providers : list string; bc_ownership : Z
}.
Record BridgeSettings : Set := { bs_bridge_type : Z; bs_normal : option BridgeConstraints; bs_custom : option CustomProxy }.
Record BridgeState : Set := { bst_state : Z }.
Record Udp2TcpObfuscationSettings : Set := { u2t_port : option Z }.
Record ShadowsocksSettings : Set := { sss_port : option Z }.
Record ObfuscationSettings : Set := {
  os_selected_obfuscation : Z;
  os_udp2tcp : option Udp2TcpObfuscationSettings;
  os_shadowsocks : option ShadowsocksSettings
}.

(** *** Custom lists, access methods, overrides and recents *)
Record CustomList : Set := { cl_id : string; cl_name : string; cl_locations : list GeographicLocationConstraint }.
Record NewCustomList : Set := { ncl_name : string; ncl_locations : list GeographicLocationConstraint }.
Record CustomListSettings : Set := { cls_custom_lists : list CustomList }.
Record Uuid : Set := { uuid_value : string }.
Inductive AccessMethodKind : Set := AmDirect | AmBridges | AmEncryptedDnsProxy | AmCustom (c : CustomProxy).
Record AccessMethod : Set := { am_access_method : option AccessMethodKind }.
Record AccessMethodSetting : Set := {
  ams_id : option Uuid; ams_name : string; ams_enabled : bool; ams_access_method : option AccessMethod
}.
Record NewAccessMethodSetting : Set := { nam_name : string; nam_enabled : bool; nam_access_method : option AccessMethod }.
Record ApiAccessMethodSettings : Set := {
  aas_direct : option AccessMethodSetting;
  aas_mullvad_bridges : option AccessMethodSetting;
  aas_encrypted_dns_proxy : option AccessMethodSetting;
  aas_custom : list AccessMethodSetting
}.
Record RelayOverride : Set := { ro_hostname : string; ro_ipv4_addr_in : option string; ro_ipv6_addr_in : option string }.
Record MultihopRecent : Set := { mr_entry : option LocationConstraint; mr_exit : option LocationConstraint }.
Inductive RecentType : Set := RtSinglehop (l : LocationConstraint) | RtMultihop (m : MultihopRecent).
Record Recent : Set := { rc_type : option RecentType }.
Record Recents : Set := { recents_ : list Recent }.

(** *** Tunnel options and settings *)
Record Duration : Set := { du_seconds : Z; du_nanos : Z }.
Record Timestamp : Set := { ti_seconds : Z; ti_nanos : Z }.
Record QuantumResistantState : Set := { qr_state : Z }.
Record DaitaSettings : Set := { da_enabled : bool; da_direct_only : bool }.
Record OpenvpnOptions : Set := { oo_mssfix : option Z }.
Record WireguardOptions : Set := {
  wo_mtu : option Z;
  wo_rotation_interval : option Duration;
  wo_quantum_resistant : option QuantumResistantState;
  wo_daita : option DaitaSettings
}.
Record GenericOptions : Set := { go_enable_ipv6 : bool }.
Record DefaultDnsOptions : Set := {
  dd_block_ads : bool; dd_block_trackers : bool; dd_block_malware : bool; dd_block_adult_content : bool;
  dd_block_gambling : bool; dd_block_social_media : bool
}.
Record CustomDnsOptions : Set := { cd_addresses : list string }.
Record DnsOptions : Set := {
  do_state : Z; do_default_options : option DefaultDnsOptions; do_custom_options : option CustomDnsOptions
}.
Record TunnelOptions : Set := {
  to_openvpn : option OpenvpnOptions;
  to_wireguard : option WireguardOptions;
  to_generic : option GenericOptions;
  to_dns_options : option DnsOptions
}.
Record SplitTunnelSettings : Set := { st_enable_exclusions : bool; st_apps : list string }.
Record Settings : Set := {
  s_relay_settings : option RelaySettings;
  s_bridge_settings : option BridgeSettings;
  s_bridge_state : option BridgeState;
  s_allow_lan : bool;
  s_lockdown_mode : bool;
  s_auto_connect : bool;
  s_tunnel_options : option TunnelOptions;
  s_show_beta_releases : bool;
  s_split_tunnel : option SplitTunnelSettings;
  s_obfuscation_settings : option ObfuscationSettings;
  s_custom_lists : option CustomListSettings;
  s_api_access_methods : option ApiAccessMethodSettings;
  s_relay_overrides : list RelayOverride;
  s_recents : option Recents;
  s_update_default_location : bool
}.

(** *** Tunnel states *)
Record Endpoint : Set := { ep_address : string; ep_protocol : Z }.
Record ProxyEndpoint : Set := { pe_address : string; pe_protocol : Z; pe_proxy_type : Z }.
Record ObfuscationEndpoint : Set := { oe_endpoint : option Endpoint; oe_obfuscation_type : Z }.
Record MultiplexObfuscation : Set := { mo_direct : option Endpoint; mo_obfuscators : list ObfuscationEndpoint }.
Inductive ObfuscationInfoType : Set := OiSingle (e : ObfuscationEndpoint) | OiMultiple (m : MultiplexObfuscation).
Record ObfuscationInfo : Set := { oi_type : option ObfuscationInfoType }.
Record TunnelMetadata : Set := { tm_tunnel_interface : string }.
Record TunnelEndpoint : Set := {
  te_address : string;
  te_protocol : Z;
  te_tunnel_type : Z;
  te_quantum_resistant : bool;
  te_proxy : option ProxyEndpoint;
  te_obfuscation : option ObfuscationInfo;
  te_entry_endpoint : option Endpoint;
  te_tunnel_metadata : option TunnelMetadata;
  te_daita : bool
}.
Record GeoIpLocation : Set := {
  gi_ipv4 : option string;
  gi_ipv6 : option string;
  gi_country : string;
  gi_city : option string;
  gi_latitude : Z;
  gi_longitude : Z;
  gi_mullvad_exit_ip : bool;
  gi_hostname : option string;
  gi_bridge_hostname : option string;
  gi_entry_hostname : option string;
  gi_obfuscator_hostname : option string
}.
Record FeatureIndicators : Set := { fi_active_features : list Z }.
Record FirewallPolicyError : Set := { fp_type : Z; fp_lock_pid : Z; fp_lock_name : option string }.
Record ErrorState : Set := {
  es_cause : Z;
  es_blocking_error : option FirewallPolicyError;
  es_auth_failed_error : Z;
  es_parameter_error : Z;
  es_policy_error : option FirewallPolicyError;
  es_create_tunnel_error : option Z
}.
Record TunnelStateRelayInfo : Set := { ri_tunnel_endpoint : option TunnelEndpoint; ri_location : option GeoIpLocation }.
Inductive State : Set :=
| StDisconnected (disconnected_location : option GeoIpLocation) (locked_down : bool)
| StConnecting (relay_info : option TunnelStateRelayInfo) (feature_indicators : option FeatureIndicators)
| StConnected (relay_info : option TunnelStateRelayInfo) (feature_indicators : option FeatureIndicators)
| StDisconnecting (after_disconnect : Z)
| StError (error_state : option ErrorState).
Record TunnelState : Set := { ts_state : option State }.

(** *** Relay lists *)
Record Location : Set := {
  lo_country : string; lo_country_code : string; lo_city : string; lo_city_code : string; lo_latitude : Z; lo_longitude : Z
}.
Record Quic : Set := { qu_domain : string; qu_token : string; qu_addr_in : list string }.
Record Wireguard : Set := {
  rw_public_key : list Z; rw_daita : bool; rw_quic : option Quic; rw_shadowsocks_extra_addr_in : list string; rw_lwo : bool
}.
Inductive Data : Set := DataWireguard (w : Wireguard) | DataOpenvpn | DataBridge.
Record RelayData : Set := { rd_data : option Data }.
Record Relay : Set := {
  re_hostname : string;
  re_ipv4_addr_in : string;
  re_ipv6_addr_in : option string;
  re_include_in_country : bool;
  re_active : bool;
  re_owned : bool;
  re_provider : string;
  re_weight : Z;
  re_endpoint_data : option RelayData;
  re_location : option Location
}.
Record RelayListCity : Set := {
  ci_name : string; ci_code : string; ci_latitude : Z; ci_longitude : Z; ci_relays : list Relay
}.
Record RelayListCountry : Set := { co_name : string; co_code : string; co_cities : list RelayListCity }.
Record OpenVpnEndpoint : Set := { oe_port : Z; oe_protocol : Z }.
Record OpenVpnEndpointData : Set := { od_endpoints : list OpenVpnEndpoint }.
Record ShadowsocksEndpointData : Set := { sd_port : Z; sd_cipher : string; sd_password : string; sd_protocol : Z }.
Record BridgeEndpointData : Set := { bd_shadowsocks : list ShadowsocksEndpointData }.
Record PortRange : Set := { pr_first : Z; pr_last : Z }.
Record WireguardEndpointData : Set := {
  wd_port_ranges : list PortRange;
  wd_ipv4_gateway : string;
  wd_ipv6_gateway : string;
  wd_shadowsocks_port_ranges : list PortRange;
  wd_udp2tcp_ports : list Z
}.
Record RelayList : Set := {
  rl_countries : list RelayListCountry;
  rl_openvpn : option OpenVpnEndpointData;
  rl_bridge : option BridgeEndpointData;
  rl_wireguard : option WireguardEndpointData
}.

(** *** Accounts, devices and versions *)
Record AccountData : Set := { ad_id : string; ad_expiry : option Timestamp }.
Record VoucherSubmission : Set := { vs_seconds_added : Z; vs_new_expiry : option Timestamp }.
Record PublicKey : Set := { pk_key : list Z; pk_created : option Timestamp }.
Record Device : Set := {
  dv_id : string; dv_name : string; dv_pubkey : list Z; dv_hijack_dns : bool; dv_created : option Timestamp
}.
Record AccountAndDevice : Set := { and_account_number : string; and_device : option Device }.
Record DeviceState : Set := { ds_state : Z; ds_device : option AccountAndDevice }.
Record DeviceEvent : Set := { dve_cause : Z; dve_new_state : option DeviceState }.
Record RemoveDeviceEvent : Set := { rde_account_number : string; rde_new_device_list : list Device }.
Record DeviceRemoval : Set := { dr_account_number : string; dr_device_id : string }.
Record SuggestedUpgrade : Set := { su_version : string; su_changelog : string; su_verified_installer_path : option string }.
Record AppVersionInfo : Set := { av_supported : bool; av_suggested_upgrade : option SuggestedUpgrade }.
Record AppUpgradeDownloadProgress : Set := { dp_server : string; dp_progress : Z; dp_time_left : option Duration }.
Inductive UpgradeEvent : Set :=
| UeDownloadStarting | UeDownloadProgress (p : AppUpgradeDownloadProgress) | UeUpgradeAborted | UeVerifyingInstaller
| UeVerifiedInstaller | UeError (error : Z).
Record AppUpgradeEvent : Set := { ue_event : option UpgradeEvent }.
Inductive Event : Set :=
| EvTunnelState (s : TunnelState) | EvSettings (s : Settings) | EvRelayList (l : RelayList)
| EvVersionInfo (i : AppVersionInfo) | EvDevice (e : DeviceEvent) | EvRemoveDevice (e : RemoveDeviceEvent)
| EvNewAccessMethod (s : AccessMethodSetting).
Record DaemonEvent : Set := { dae_event : option Event }.
End proto.
