(* ===== verification/ProtoSettings.v ===== *)
(** * Settings on the wire

    mullvad-management-interface/src/types/conversions: relay_constraints.rs,
    custom_tunnel.rs, custom_list.rs, access_method.rs, settings.rs, the proxies of
    net.rs and the tunnel options of wireguard.rs.  [_to_proto] is an [impl From] that makes a message,
    [_from_proto] the [impl TryFrom] that reads it.  For each type there is what is left
    of a value after both ([_seen], left out where it is the value) and the values that
    can be read at all ([_ok]).  As built for Linux, with DAITA. *)

From S2P Require Import Prelude NetTypes Constraints RelayTypes CustomLists AccessMethods DaemonSettings SettingsPatch.
From S2P Require Import TunnelParams ProtoTypes.

(** ** Enumerations (the numbers are those of management_interface.proto) *)

#[global] Instance TransportProtocol_wire : WireEnum TransportProtocol :=
  {| wire_values := [Udp; Tcp]; to_i32 p := match p with Udp => 0 | Tcp => 1 end |}.
#[global] Instance IpVersion_wire : WireEnum IpVersion :=
  {| wire_values := [NetTypes.V4; NetTypes.V6]; to_i32 v := match v with NetTypes.V4 => 0 | NetTypes.V6 => 1 end |}.
#[global] Instance TunnelType_wire : WireEnum TunnelType :=
  {| wire_values := [OpenVpn; Wireguard]; to_i32 t := match t with OpenVpn => 0 | Wireguard => 1 end |}.
#[global] Instance BridgeState_wire : WireEnum BridgeState :=
  {| wire_values := [BsAuto; BsOn; BsOff]; to_i32 s := match s with BsAuto => 0 | BsOn => 1 | BsOff => 2 end |}.
#[global] Instance BridgeType_wire : WireEnum BridgeType :=
  {| wire_values := [BtNormal; BtCustom]; to_i32 t := match t with BtNormal => 0 | BtCustom => 1 end |}.
#[global] Instance SelectedObfuscation_wire : WireEnum SelectedObfuscation :=
  {| wire_values := [SelAuto; SelOff; SelUdp2Tcp; SelShadowsocks; SelQuic; SelLwo];
     to_i32 o := match o with SelAuto => 0 | SelOff => 1 | SelUdp2Tcp => 2 | SelShadowsocks => 3 | SelQuic => 4 | SelLwo => 5 end |}.
#[global] Instance QuantumResistantState_wire : WireEnum QuantumResistantState :=
  {| wire_values := [QrAuto; QrOn; QrOff]; to_i32 s := match s with QrAuto => 0 | QrOn => 1 | QrOff => 2 end |}.
#[global] Instance DnsState_wire : WireEnum DnsState :=
  {| wire_values := [DnsStateDefault; DnsStateCustom];
     to_i32 s := match s with DnsStateDefault => 0 | DnsStateCustom => 1 end |}.
(** [convert_ownership_constraint] and [ownership_constraint_from_proto]: no constraint
    is a value of the enumeration. *)
#[global] Instance Ownership_wire : WireEnum (Constraint Ownership) :=
  {| wire_values := [Any; Only MullvadOwned; Only Rented];
     to_i32 o := match o with Any => 0 | Only MullvadOwned => 1 | Only Rented => 2 end |}.

Ltac solve_wire := intros [] reason; reflexivity.
#[global] Instance TransportProtocol_wire_ok : WireEnumOk TransportProtocol. Proof. solve_wire. Qed.
#[global] Instance IpVersion_wire_ok : WireEnumOk IpVersion. Proof. solve_wire. Qed.
#[global] Instance TunnelType_wire_ok : WireEnumOk TunnelType. Proof. solve_wire. Qed.
#[global] Instance BridgeState_wire_ok : WireEnumOk BridgeState. Proof. solve_wire. Qed.
#[global] Instance BridgeType_wire_ok : WireEnumOk BridgeType. Proof. solve_wire. Qed.
#[global] Instance SelectedObfuscation_wire_ok : WireEnumOk SelectedObfuscation. Proof. solve_wire. Qed.
#[global] Instance QuantumResistantState_wire_ok : WireEnumOk QuantumResistantState. Proof. solve_wire. Qed.
#[global] Instance DnsState_wire_ok : WireEnumOk DnsState. Proof. solve_wire. Qed.
#[global] Instance Ownership_wire_ok : WireEnumOk (Constraint Ownership). Proof. intros [|[]] reason; reflexivity. Qed.

Definition try_transport_protocol_from_i32 (protocol : Z) : conv TransportProtocol :=
  enum_try_from protocol "invalid transport protocol".
Definition try_tunnel_type_from_i32 (tunnel_type : Z) : conv TunnelType :=
  enum_try_from tunnel_type "invalid tunnel protocol".
Definition try_ownership_constraint_from_i32 (ownership : Z) : conv (Constraint Ownership) :=
  enum_try_from ownership "invalid ownership argument".
Definition try_bridge_mode_from_i32 (mode : Z) : conv BridgeType := enum_try_from mode "invalid bridge mode argument".
Definition try_bridge_state_from_i32 (state : Z) : conv BridgeState := enum_try_from state "invalid bridge state".

Section Conversions.
Context `{IpText} `{!WireText} `{IpNetworkCrate}.

(** ** Locations and lists *)

Definition Geo_to_proto (g : GeographicLocationConstraint) : proto.GeographicLocationConstraint :=
  match g with
  | GCountry country => {| proto.gl_country := country; proto.gl_city := None; proto.gl_hostname := None |}
  | GCity country city => {| proto.gl_country := country; proto.gl_city := Some city; proto.gl_hostname := None |}
  | GHostname country city hostname =>
      {| proto.gl_country := country; proto.gl_city := Some city; proto.gl_hostname := Some hostname |}
  end.
Definition Geo_from_proto (g : proto.GeographicLocationConstraint) : conv GeographicLocationConstraint :=
  match proto.gl_city g, proto.gl_hostname g with
  | None, None => Ok (GCountry (proto.gl_country g))
  | Some city, None => Ok (GCity (proto.gl_country g) city)
  | Some city, Some hostname => Ok (GHostname (proto.gl_country g) city hostname)
  | None, Some _ => Err (InvalidArgument "Relay location contains hostname but no city")
  end.
Definition Location_to_proto (l : LocationConstraint) : proto.LocationConstraint :=
  {| proto.lc_type := Some match l with
                           | LcLocation location => proto.Location_ (Geo_to_proto location)
                           | LcCustomList list_id => proto.CustomList_ (uuid_text list_id)
                           end |}.
Definition Location_from_proto (l : proto.LocationConstraint) : conv (Constraint LocationConstraint) :=
  match proto.lc_type l with
  | Some (proto.Location_ location) => g ← Geo_from_proto location; Ok (Only (LcLocation g))
  | Some (proto.CustomList_ list_id) =>
      id ← ok_or (uuid_parse list_id) "Id could not be parsed to a uuid"; Ok (Only (LcCustomList id))
  | None => Ok Any
  end.

Definition CustomList_to_proto (l : CustomList) : proto.CustomList :=
  {| proto.cl_id := uuid_text (id l); proto.cl_name := name l;
     proto.cl_locations := Geo_to_proto <$> elements (locations l) |}.
Definition CustomList_from_proto (l : proto.CustomList) : conv CustomList :=
  locations ← try_collect Geo_from_proto (proto.cl_locations l);
  id ← ok_or (uuid_parse (proto.cl_id l)) "Invalid list ID";
  let inner := CustomList_with_id id in
  Ok (CustomLists.append {| CustomLists.id := CustomLists.id inner; name := proto.cl_name l;
                            CustomLists.locations := CustomLists.locations inner |} (list_to_set locations)).
Definition CustomLists_to_proto (s : CustomListsSettings) : proto.CustomListSettings :=
  {| proto.cls_custom_lists := CustomList_to_proto <$> s |}.
Definition CustomLists_from_proto (s : proto.CustomListSettings) : conv CustomListsSettings :=
  try_collect CustomList_from_proto (proto.cls_custom_lists s).

(** ** Constraints *)

(** [Vec::from(providers)]: the elements of the set, in some order. *)
Definition convert_providers_constraint (c : Constraint Providers) : list string :=
  match c with Any => [] | Only p => elements (providers_set p) end.
Definition try_providers_constraint_from_proto (providers : list string) : conv (Constraint Providers) :=
  match providers with
  | [] => Ok Any
  | _ => match Providers_new providers with
         | Ok p => Ok (Only p)
         | Err _ => Err (InvalidArgument "must specify at least one provider")
         end
  end.

Definition TransportPort_to_proto (p : TransportPort) : proto.TransportPort :=
  {| proto.tp_protocol := to_i32 (tp_protocol p); proto.tp_port := constraint_option (tp_port p) |}.
Definition TransportPort_from_proto (p : proto.TransportPort) : conv TransportPort :=
  protocol ← try_transport_protocol_from_i32 (proto.tp_protocol p);
  Ok {| tp_protocol := protocol; tp_port := Constraint_from (as_u16 <$> proto.tp_port p) |}.
Definition OpenVpnConstraints_from_proto (c : proto.OpenvpnConstraints) : conv OpenVpnConstraints :=
  port ← transpose TransportPort_from_proto (proto.oc_port c);
  Ok {| oc_port := Constraint_from port |}.

(** [AllowedIps::parse] (mullvad-types/src/relay_constraints.rs): a network that is not
    written as its own network address is refused. *)
Inductive AllowedIpParseError : Set := Parse | NonZeroHostBits (n : IpNetwork).
Definition net_network (n : IpNetwork) : IpAddr :=
  match n with
  | NetV4 a p => AddrV4 (Z.land a (ipv4_mask p))
  | NetV6 a p => AddrV6 (Z.land a (ipv6_mask p))
  end.
Fixpoint AllowedIps_parse (allowed_ips : list string) : result AllowedIpParseError (list IpNetwork) :=
  match allowed_ips with
  | [] => Ok []
  | s :: rest =>
      let s := trim s in
      if decide (s = ""%string) then AllowedIps_parse rest
      else match net_parse s with
           | None => Err Parse
           | Some net =>
               if decide (net_network net = net_ip net)
               then nets ← AllowedIps_parse rest; Ok (net :: nets)
               else Err (NonZeroHostBits net)
           end
  end.

(** A location that cannot be read is no constraint here. *)
Definition location_or_any (l : option proto.LocationConstraint) : Constraint LocationConstraint :=
  match l with
  | Some loc => match Location_from_proto loc with Ok c => c | Err _ => Any end
  | None => Any
  end.

Definition WireguardConstraints_to_proto (c : WireguardConstraints) : proto.WireguardConstraints := {|
  proto.wc_port := constraint_option (wc_port c);
  proto.wc_ip_version := to_i32 <$> constraint_option (wc_ip_version c);
  proto.wc_allowed_ips := net_text <$> resolve_from_constraint (wc_allowed_ips c) None None;
  proto.wc_use_multihop := wc_use_multihop c;
  proto.wc_entry_location := Location_to_proto <$> constraint_option (wc_entry_location c) |}.
Definition WireguardConstraints_from_proto (c : proto.WireguardConstraints) : conv WireguardConstraints :=
  ip_version ← transpose (λ v, enum_try_from v "invalid IP protocol version") (proto.wc_ip_version c);
  allowed_ips ← map_err (λ _, InvalidArgument "invalid allowed IPs") (AllowedIps_parse (proto.wc_allowed_ips c));
  Ok {| wc_port := Constraint_from (as_u16 <$> proto.wc_port c);
        wc_ip_version := Constraint_from ip_version;
        wc_allowed_ips := to_constraint {| allowed_nets := allowed_ips |};
        wc_use_multihop := proto.wc_use_multihop c;
        wc_entry_location := location_or_any (proto.wc_entry_location c) |}.

(** ** Custom tunnels (custom_tunnel.rs) *)

Definition ConnectionConfig_to_proto (c : CustomConnectionConfig) : proto.ConnectionConfig :=
  {| proto.cc_config := Some match c with
       | CcOpenVpn config => proto.ConfigOpenvpn {|
           proto.oc_address := sock_text (address (openvpn.endpoint config));
           proto.oc_protocol := to_i32 (protocol (openvpn.endpoint config));
           proto.oc_username := openvpn.username config;
           proto.oc_password := openvpn.password config |}
       | CcWireguard config => proto.ConfigWireguard {|
           proto.wg_tunnel := Some {|
             proto.tc_private_key := wireguard.private_key (wireguard.tunnel config);
             proto.tc_addresses := ip_text <$> wireguard.addresses (wireguard.tunnel config) |};
           proto.wg_peer := Some {|
             proto.pc_public_key := wireguard.public_key (wireguard.peer config);
             proto.pc_allowed_ips := net_text <$> wireguard.allowed_ips (wireguard.peer config);
             proto.pc_endpoint := sock_text (wireguard.endpoint (wireguard.peer config)) |};
           proto.wg_ipv4_gateway := ipv4_text (wireguard.ipv4_gateway config);
           proto.wg_ipv6_gateway := ipv6_text <$> wireguard.ipv6_gateway config |}
       end |}.
Definition ConnectionConfig_from_proto (c : proto.ConnectionConfig) : conv CustomConnectionConfig :=
  config ← ok_or (proto.cc_config c) "missing connection config";
  match config with
  | proto.ConfigOpenvpn config =>
      address ← arg_from_str sock_parse (proto.oc_address config) "invalid address";
      protocol ← try_transport_protocol_from_i32 (proto.oc_protocol config);
      Ok (CcOpenVpn {| openvpn.endpoint := {| address := address; protocol := protocol |};
                       openvpn.username := proto.oc_username config; openvpn.password := proto.oc_password config |})
  | proto.ConfigWireguard config =>
      tunnel ← ok_or (proto.wg_tunnel config) "missing tunnel config";
      private_key ← bytes_to_privkey (proto.tc_private_key tunnel);
      peer ← ok_or (proto.wg_peer config) "missing peer config";
      public_key ← bytes_to_pubkey (proto.pc_public_key peer);
      ipv4_gateway ← arg_from_str ipv4_parse (proto.wg_ipv4_gateway config) "invalid IPv4 gateway";
      ipv6_gateway ← transpose (λ addr, arg_from_str ipv6_parse addr "invalid IPv6 gateway") (proto.wg_ipv6_gateway config);
      endpoint ← arg_from_str sock_parse (proto.pc_endpoint peer) "invalid peer address";
      tunnel_addresses ← try_collect (λ a, arg_from_str ip_parse a "invalid address") (proto.tc_addresses tunnel);
      allowed_ips ← try_collect (λ a, arg_from_str net_parse a "invalid address") (proto.pc_allowed_ips peer);
      Ok (CcWireguard {|
        wireguard.tunnel := {| wireguard.private_key := private_key; wireguard.addresses := tunnel_addresses |};
        wireguard.peer := {| wireguard.public_key := public_key; wireguard.allowed_ips := allowed_ips;
                             wireguard.endpoint := endpoint; wireguard.psk := None;
                             wireguard.constant_packet_size := false |};
        wireguard.exit_peer := None; wireguard.ipv4_gateway := ipv4_gateway; wireguard.ipv6_gateway := ipv6_gateway;
        wireguard.fwmark := Some TUNNEL_FWMARK |})
  end.

(** ** Relay settings *)

Definition RelaySettings_to_proto (s : RelaySettings) : proto.RelaySettings :=
  {| proto.rs_endpoint := Some match s with
       | RsCustomTunnelEndpoint e => proto.EpCustom {|
           proto.cr_host := ct_host e; proto.cr_config := Some (ConnectionConfig_to_proto (ct_config e)) |}
       | RsNormal c => proto.EpNormal {|
           proto.nr_location := Location_to_proto <$> constraint_option (rc_location c);
           proto.nr_providers := convert_providers_constraint (rc_providers c);
           proto.nr_ownership := to_i32 (rc_ownership c);
           proto.nr_tunnel_type := to_i32 (rc_tunnel_protocol c);
           proto.nr_wireguard_constraints := Some (WireguardConstraints_to_proto (rc_wireguard_constraints c));
           proto.nr_openvpn_constraints := Some {|
             proto.oc_port := TransportPort_to_proto <$> constraint_option (oc_port (rc_openvpn_constraints c)) |} |}
       end |}.
Definition RelaySettings_from_proto (s : proto.RelaySettings) : conv RelaySettings :=
  update_value ← ok_or (proto.rs_endpoint s) "missing relay settings";
  match update_value with
  | proto.EpCustom settings =>
      config ← ok_or (proto.cr_config settings) "missing relay connection config";
      config ← ConnectionConfig_from_proto config;
      Ok (RsCustomTunnelEndpoint {| ct_host := proto.cr_host settings; ct_config := config |})
  | proto.EpNormal settings =>
      let location := location_or_any (proto.nr_location settings) in
      providers ← try_providers_constraint_from_proto (proto.nr_providers settings);
      ownership ← try_ownership_constraint_from_i32 (proto.nr_ownership settings);
      tunnel_protocol ← try_tunnel_type_from_i32 (proto.nr_tunnel_type settings);
      openvpn_constraints ← ok_or (proto.nr_openvpn_constraints settings) "missing openvpn constraints";
      openvpn_constraints ← OpenVpnConstraints_from_proto openvpn_constraints;
      wireguard_constraints ← ok_or (proto.nr_wireguard_constraints settings) "missing wireguard constraints";
      wireguard_constraints ← WireguardConstraints_from_proto wireguard_constraints;
      Ok (RsNormal {| rc_location := location; rc_providers := providers; rc_ownership := ownership;
                      rc_tunnel_protocol := tunnel_protocol; rc_wireguard_constraints := wireguard_constraints;
                      rc_openvpn_constraints := openvpn_constraints |})
  end.

Definition RelayOverride_to_proto (o : RelayOverride) : proto.RelayOverride :=
  {| proto.ro_hostname := ro_hostname o; proto.ro_ipv4_addr_in := ipv4_text <$> ro_ipv4_addr_in o;
     proto.ro_ipv6_addr_in := ipv6_text <$> ro_ipv6_addr_in o |}.
Definition RelayOverride_from_proto (o : proto.RelayOverride) : conv RelayOverride :=
  ipv4_addr_in ← transpose (λ a, ok_or (ipv4_parse a) "invalid IPv4 address") (proto.ro_ipv4_addr_in o);
  ipv6_addr_in ← transpose (λ a, ok_or (ipv6_parse a) "invalid IPv6 address") (proto.ro_ipv6_addr_in o);
  Ok {| ro_hostname := proto.ro_hostname o; ro_ipv4_addr_in := ipv4_addr_in; ro_ipv6_addr_in := ipv6_addr_in |}.

(** ** Proxies and bridges *)

Definition CustomProxy_to_proto (p : CustomProxy) : proto.CustomProxy :=
  {| proto.proxy_method := Some match p with
       | CustomShadowsocks endpoint password cipher => proto.PmShadowsocks {|
           proto.ss_ip := ip_text (sock_ip endpoint); proto.ss_port := sock_port endpoint;
           proto.ss_password := password; proto.ss_cipher := cipher |}
       | Socks5Local remote_endpoint local_port => proto.PmSocks5local {|
           proto.sl_remote_ip := ip_text (sock_ip (address remote_endpoint));
           proto.sl_remote_port := sock_port (address remote_endpoint);
           proto.sl_remote_transport_protocol := to_i32 (protocol remote_endpoint);
           proto.sl_local_port := local_port |}
       | Socks5Remote endpoint auth => proto.PmSocks5remote {|
           proto.sr_ip := ip_text (sock_ip endpoint); proto.sr_port := sock_port endpoint;
           proto.sr_auth := (λ a, {| proto.sa_username := username a; proto.sa_password := password a |}) <$> auth |}
       end |}.
Definition SocksAuth_from_proto (a : proto.SocksAuth) : conv SocksAuth :=
  map_err (λ _, InvalidArgument "Failed to parse Socks5 with authentication. Make sure the credentials are valid.")
    (SocksAuth_new (proto.sa_username a) (proto.sa_password a)).
(** The addresses of proxies are read as IPv4 addresses. *)
Definition CustomProxy_from_proto (p : proto.CustomProxy) : conv CustomProxy :=
  match proto.proxy_method p with
  | Some (proto.PmSocks5local v) =>
      remote_ip ← ok_or (ipv4_parse (proto.sl_remote_ip v)) "Could not parse Socks5 (local) message from protobuf";
      protocol ← try_transport_protocol_from_i32 (proto.sl_remote_transport_protocol v);
      Ok (Socks5Local {| address := SockV4 remote_ip (as_u16 (proto.sl_remote_port v)); protocol := protocol |}
                      (as_u16 (proto.sl_local_port v)))
  | Some (proto.PmSocks5remote v) =>
      ip ← ok_or (ipv4_parse (proto.sr_ip v)) "Could not parse Socks5 (remote) message from protobuf";
      auth ← transpose SocksAuth_from_proto (proto.sr_auth v);
      Ok (Socks5Remote (SockV4 ip (as_u16 (proto.sr_port v))) auth)
  | Some (proto.PmShadowsocks v) =>
      ip ← ok_or (ipv4_parse (proto.ss_ip v)) "Could not parse Socks5 (remote) message from protobuf";
      Ok (CustomShadowsocks (SockV4 ip (as_u16 (proto.ss_port v))) (proto.ss_password v) (proto.ss_cipher v))
  | None => Err (InvalidArgument "CustomProxy missing proxy_method field")
  end.

Definition BridgeSettings_to_proto (s : BridgeSettings) : proto.BridgeSettings := {|
  proto.bs_bridge_type := to_i32 (bridge_type s);
  proto.bs_normal := Some {|
    proto.bc_location := Location_to_proto <$> constraint_option (bc_location (bs_normal s));
    proto.bc_providers := convert_providers_constraint (bc_providers (bs_normal s));
    proto.bc_ownership := to_i32 (bc_ownership (bs_normal s)) |};
  proto.bs_custom := CustomProxy_to_proto <$> bs_custom s |}.
Definition BridgeSettings_from_proto (s : proto.BridgeSettings) : conv BridgeSettings :=
  constraints ← ok_or (proto.bs_normal s) "missing normal bridge constraints";
  location ← match proto.bc_location constraints with None => Ok Any | Some location => Location_from_proto location end;
  providers ← try_providers_constraint_from_proto (proto.bc_providers constraints);
  ownership ← try_ownership_constraint_from_i32 (proto.bc_ownership constraints);
  custom ← transpose CustomProxy_from_proto (proto.bs_custom s);
  bridge_type ← try_bridge_mode_from_i32 (proto.bs_bridge_type s);
  Ok {| bridge_type := bridge_type;
        bs_normal := {| bc_location := location; bc_providers := providers; bc_ownership := ownership |};
        bs_custom := custom |}.
Definition BridgeState_to_proto (s : BridgeState) : proto.BridgeState := {| proto.bst_state := to_i32 s |}.
Definition BridgeState_from_proto (s : proto.BridgeState) : conv BridgeState :=
  enum_try_from (proto.bst_state s) "invalid bridge state".

Definition ObfuscationSettings_to_proto (s : ObfuscationSettings) : proto.ObfuscationSettings := {|
  proto.os_selected_obfuscation := to_i32 (selected_obfuscation s);
  proto.os_udp2tcp := Some {| proto.u2t_port := constraint_option (u2t_port (os_udp2tcp s)) |};
  proto.os_shadowsocks := Some {| proto.sss_port := constraint_option (sss_port (os_shadowsocks s)) |} |}.
Definition ObfuscationSettings_from_proto (s : proto.ObfuscationSettings) : conv ObfuscationSettings :=
  selected_obfuscation ← enum_try_from (proto.os_selected_obfuscation s) "invalid obfuscation settings";
  udp2tcp ← ok_or (proto.os_udp2tcp s) "invalid udp2tcp settings";
  shadowsocks ← ok_or (proto.os_shadowsocks s) "invalid shadowsocks settings";
  Ok {| selected_obfuscation := selected_obfuscation;
        os_udp2tcp := {| u2t_port := Constraint_from (as_u16 <$> proto.u2t_port udp2tcp) |};
        os_shadowsocks := {| sss_port := Constraint_from (as_u16 <$> proto.sss_port shadowsocks) |} |}.

(** ** Access methods (access_method.rs) *)

Definition Uuid_to_proto (id : Z) : proto.Uuid := {| proto.uuid_value := uuid_text id |}.
Definition Uuid_from_proto (u : proto.Uuid) : conv Z :=
  ok_or (uuid_parse (proto.uuid_value u)) "Could not parse UUID message from protobuf".

Definition AccessMethod_to_proto (m : AccessMethod) : proto.AccessMethod :=
  {| proto.am_access_method := Some match m with
       | Custom p => proto.AmCustom (CustomProxy_to_proto p)
       | BuiltIn Direct => proto.AmDirect
       | BuiltIn Bridge => proto.AmBridges
       | BuiltIn EncryptedDnsProxy => proto.AmEncryptedDnsProxy
       end |}.
Definition AccessMethod_from_proto (m : proto.AccessMethod) : conv AccessMethod :=
  access_method ← ok_or (proto.am_access_method m) "Could not deserialize Access Method from protobuf";
  match access_method with
  | proto.AmDirect => Ok (BuiltIn Direct)
  | proto.AmBridges => Ok (BuiltIn Bridge)
  | proto.AmEncryptedDnsProxy => Ok (BuiltIn EncryptedDnsProxy)
  | proto.AmCustom custom => Custom <$> CustomProxy_from_proto custom
  end.

Definition AccessMethodSetting_to_proto (s : AccessMethodSetting) : proto.AccessMethodSetting := {|
  proto.ams_id := Some (Uuid_to_proto (am_id s)); proto.ams_name := am_name s; proto.ams_enabled := am_enabled s;
  proto.ams_access_method := Some (AccessMethod_to_proto (access_method s)) |}.
Definition AccessMethodSetting_from_proto (s : proto.AccessMethodSetting) : conv AccessMethodSetting :=
  id ← ok_or (proto.ams_id s) "Could not deserialize Access Method from protobuf";
  id ← Uuid_from_proto id;
  access_method ← ok_or (proto.ams_access_method s) "Could not deserialize Access Method from protobuf";
  access_method ← AccessMethod_from_proto access_method;
  Ok {| am_id := id; am_name := proto.ams_name s; am_enabled := proto.ams_enabled s; access_method := access_method |}.

Definition AccessMethods_to_proto (s : access_methods.Settings) : proto.ApiAccessMethodSettings := {|
  proto.aas_direct := Some (AccessMethodSetting_to_proto (access_methods.direct s));
  proto.aas_mullvad_bridges := Some (AccessMethodSetting_to_proto (access_methods.mullvad_bridges s));
  proto.aas_encrypted_dns_proxy := Some (AccessMethodSetting_to_proto (access_methods.encrypted_dns_proxy s));
  proto.aas_custom := AccessMethodSetting_to_proto <$> access_methods.custom s |}.
Definition AccessMethods_from_proto (s : proto.ApiAccessMethodSettings) : conv access_methods.Settings :=
  direct ← ok_or (proto.aas_direct s) "Could not deserialize Direct Access Method from protobuf";
  direct ← AccessMethodSetting_from_proto direct;
  mullvad_bridges ← ok_or (proto.aas_mullvad_bridges s) "Could not deserialize Mullvad Bridges Access Method from protobuf";
  mullvad_bridges ← AccessMethodSetting_from_proto mullvad_bridges;
  encrypted_dns_proxy ← ok_or (proto.aas_encrypted_dns_proxy s) "Could not deserialize Encrypted DNS proxy Access Method from protobuf";
  encrypted_dns_proxy ← AccessMethodSetting_from_proto encrypted_dns_proxy;
  custom ← try_collect AccessMethodSetting_from_proto (proto.aas_custom s);
  Ok {| access_methods.direct := direct; access_methods.mullvad_bridges := mullvad_bridges;
        access_methods.encrypted_dns_proxy := encrypted_dns_proxy; access_methods.custom := custom |}.

(** ** Tunnel options (settings.rs, wireguard.rs) *)

Definition DnsOptions_to_proto (o : DnsOptions) : proto.DnsOptions := {|
  proto.do_state := to_i32 (dns_state o);
  proto.do_default_options := Some {|
    proto.dd_block_ads := block_ads (default_options o); proto.dd_block_trackers := block_trackers (default_options o);
    proto.dd_block_malware := block_malware (default_options o);
    proto.dd_block_adult_content := block_adult_content (default_options o);
    proto.dd_block_gambling := block_gambling (default_options o);
    proto.dd_block_social_media := block_social_media (default_options o) |};
  proto.do_custom_options := Some {| proto.cd_addresses := ip_text <$> addresses (custom_options o) |} |}.
Definition DnsOptions_from_proto (o : proto.DnsOptions) : conv DnsOptions :=
  state ← enum_try_from (proto.do_state o) "invalid DNS options state";
  d ← ok_or (proto.do_default_options o) "missing default DNS options";
  custom_options ← ok_or (proto.do_custom_options o) "missing default DNS options";
  addresses ← try_collect (λ a, ok_or (ip_parse a) "invalid IP address") (proto.cd_addresses custom_options);
  Ok {| dns_state := state;
        default_options := {| block_ads := proto.dd_block_ads d; block_trackers := proto.dd_block_trackers d;
                              block_malware := proto.dd_block_malware d;
                              block_adult_content := proto.dd_block_adult_content d;
                              block_gambling := proto.dd_block_gambling d;
                              block_social_media := proto.dd_block_social_media d |};
        custom_options := {| addresses := addresses |} |}.

Definition QuantumResistantState_to_proto (s : QuantumResistantState) : proto.QuantumResistantState :=
  {| proto.qr_state := to_i32 s |}.
Definition QuantumResistantState_from_proto (s : proto.QuantumResistantState) : conv QuantumResistantState :=
  enum_try_from (proto.qr_state s) "invalid quantum resistance state".
Definition DaitaSettings_to_proto (s : DaitaSettings) : proto.DaitaSettings :=
  {| proto.da_enabled := daita_enabled s; proto.da_direct_only := negb (use_multihop_if_necessary s) |}.
Definition DaitaSettings_from_proto (s : proto.DaitaSettings) : DaitaSettings :=
  {| daita_enabled := proto.da_enabled s; use_multihop_if_necessary := negb (proto.da_direct_only s) |}.

(** prost: a duration of the standard library as seconds and nanoseconds; a negative
    one cannot be read. *)
Definition Duration_to_proto (d : Z) : proto.Duration :=
  {| proto.du_seconds := d / 10 ^ 9; proto.du_nanos := d mod 10 ^ 9 |}.
Definition Duration_from_proto (d : proto.Duration) : option Z :=
  let total := proto.du_seconds d * 10 ^ 9 + proto.du_nanos d in
  if 0 <=? total then Some total else None.
Definition rotation_interval_from_proto (d : proto.Duration) : conv Z :=
  duration ← ok_or (Duration_from_proto d) "invalid duration";
  map_err (λ _, InvalidArgument "invalid rotation interval") (RotationInterval_new duration).

Definition TunnelOptions_to_proto (o : TunnelOptions) : proto.TunnelOptions :=
  let w := to_wireguard o in {|
  proto.to_openvpn := Some {| proto.oo_mssfix := openvpn.mssfix (to_openvpn o) |};
  proto.to_wireguard := Some {|
    proto.wo_mtu := wg_options.mtu w;
    proto.wo_rotation_interval := Duration_to_proto <$> wg_options.rotation_interval w;
    proto.wo_quantum_resistant := Some (QuantumResistantState_to_proto (wg_options.quantum_resistant w));
    proto.wo_daita := Some (DaitaSettings_to_proto (wg_options.daita w)) |};
  proto.to_generic := Some {| proto.go_enable_ipv6 := enable_ipv6 (to_generic o) |};
  proto.to_dns_options := Some (DnsOptions_to_proto (dns_options o)) |}.
Definition TunnelOptions_from_proto (o : proto.TunnelOptions) : conv TunnelOptions :=
  openvpn_options ← ok_or (proto.to_openvpn o) "missing openvpn tunnel options";
  wireguard_options ← ok_or (proto.to_wireguard o) "missing wireguard tunnel options";
  generic_options ← ok_or (proto.to_generic o) "missing generic tunnel options";
  dns_options ← ok_or (proto.to_dns_options o) "missing tunnel DNS options";
  rotation_interval ← transpose rotation_interval_from_proto (proto.wo_rotation_interval wireguard_options);
  quantum_resistant ← ok_or (proto.wo_quantum_resistant wireguard_options) "missing quantum resistant state";
  quantum_resistant ← QuantumResistantState_from_proto quantum_resistant;
  daita ← ok_or (proto.wo_daita wireguard_options) "missing daita settings";
  dns_options ← DnsOptions_from_proto dns_options;
  Ok {| to_openvpn := {| openvpn.mssfix := as_u16 <$> proto.oo_mssfix openvpn_options |};
        to_wireguard := {| wg_options.mtu := as_u16 <$> proto.wo_mtu wireguard_options;
                           wg_options.quantum_resistant := quantum_resistant;
                           wg_options.daita := DaitaSettings_from_proto daita;
                           wg_options.rotation_interval := rotation_interval |};
        to_generic := {| enable_ipv6 := proto.go_enable_ipv6 generic_options |};
        dns_options := dns_options |}.

(** ** Settings (settings.rs) *)

Definition Recent_to_proto (r : Recent) : proto.Recent :=
  {| proto.rc_type := Some match r with
       | RecentSinglehop location => proto.RtSinglehop (Location_to_proto location)
       | RecentMultihop entry exit => proto.RtMultihop {|
           proto.mr_entry := Some (Location_to_proto entry); proto.mr_exit := Some (Location_to_proto exit) |}
       end |}.
Definition Recents_to_proto (l : list Recent) : proto.Recents := {| proto.recents_ := Recent_to_proto <$> l |}.

Definition Settings_to_proto (s : Settings) : proto.Settings := {|
  proto.s_relay_settings := Some (RelaySettings_to_proto (s_relay_settings s));
  proto.s_bridge_settings := Some (BridgeSettings_to_proto (s_bridge_settings s));
  proto.s_bridge_state := Some (BridgeState_to_proto (s_bridge_state s));
  proto.s_allow_lan := s_allow_lan s;
  proto.s_lockdown_mode := s_lockdown_mode s;
  proto.s_auto_connect := s_auto_connect s;
  proto.s_tunnel_options := Some (TunnelOptions_to_proto (s_tunnel_options s));
  proto.s_show_beta_releases := s_show_beta_releases s;
  proto.s_split_tunnel := None;
  proto.s_obfuscation_settings := Some (ObfuscationSettings_to_proto (s_obfuscation_settings s));
  proto.s_custom_lists := Some (CustomLists_to_proto (s_custom_lists s));
  proto.s_api_access_methods := Some (AccessMethods_to_proto (s_api_access_methods s));
  proto.s_relay_overrides := RelayOverride_to_proto <$> s_relay_overrides s;
  proto.s_recents := Recents_to_proto <$> s_recents s;
  proto.s_update_default_location := s_update_default_location s |}.
Definition Settings_from_proto (s : proto.Settings) : conv Settings :=
  relay_settings ← ok_or (proto.s_relay_settings s) "missing relay settings";
  bridge_settings ← ok_or (proto.s_bridge_settings s) "missing bridge settings";
  bridge_state ← ok_or (proto.s_bridge_state s) "missing bridge state";
  bridge_state ← try_bridge_state_from_i32 (proto.bst_state bridge_state);
  tunnel_options ← ok_or (proto.s_tunnel_options s) "missing tunnel options";
  obfuscation_settings ← ok_or (proto.s_obfuscation_settings s) "missing obfuscation settings";
  custom_lists_settings ← ok_or (proto.s_custom_lists s) "missing custom lists settings";
  api_access_methods_settings ← ok_or (proto.s_api_access_methods s) "missing api access methods settings";
  relay_settings ← RelaySettings_from_proto relay_settings;
  bridge_settings ← BridgeSettings_from_proto bridge_settings;
  tunnel_options ← TunnelOptions_from_proto tunnel_options;
  relay_overrides ← try_collect RelayOverride_from_proto (proto.s_relay_overrides s);
  obfuscation_settings ← ObfuscationSettings_from_proto obfuscation_settings;
  custom_lists ← CustomLists_from_proto custom_lists_settings;
  api_access_methods ← AccessMethods_from_proto api_access_methods_settings;
  Ok {| s_relay_settings := relay_settings; s_bridge_settings := bridge_settings;
        s_obfuscation_settings := obfuscation_settings; s_bridge_state := bridge_state;
        s_custom_lists := custom_lists; s_api_access_methods := api_access_methods;
        s_update_default_location := proto.s_update_default_location s; s_allow_lan := proto.s_allow_lan s;
        s_lockdown_mode := proto.s_lockdown_mode s; s_auto_connect := proto.s_auto_connect s;
        s_tunnel_options := tunnel_options; s_relay_overrides := relay_overrides;
        s_show_beta_releases := proto.s_show_beta_releases s; s_settings_version := CURRENT_SETTINGS_VERSION;
        s_recents := Some []; s_rollout_threshold_seed := None |}.

(** ** What can be read, and what is read *)

Definition constraint_all {A} (P : A → Prop) (c : Constraint A) : Prop := match c with Any => True | Only a => P a end.
Definition option_all {A} (P : A → Prop) (o : option A) : Prop := match o with None => True | Some a => P a end.

(** No constraint on addresses, and an empty one, are written out as all networks. *)
Definition WireguardConstraints_seen (c : WireguardConstraints) : WireguardConstraints :=
  c <| wc_allowed_ips := Only {| allowed_nets := resolve_from_constraint (wc_allowed_ips c) None None |} |>.
Definition aligned (n : IpNetwork) : Prop := net_network n = net_ip n.
Definition WireguardConstraints_ok (c : WireguardConstraints) : Prop :=
  constraint_all u16_range (wc_port c) ∧ constraint_all (λ a, Forall aligned (allowed_nets a)) (wc_allowed_ips c).
Definition Providers_ok (p : Providers) : Prop := providers_set p ≠ ∅.

(** A custom tunnel loses its pre-shared key and its exit peer. *)
Definition ConnectionConfig_seen (c : CustomConnectionConfig) : CustomConnectionConfig :=
  match c with
  | CcOpenVpn config => CcOpenVpn {|
      openvpn.endpoint := {| address := clear_flowinfo (address (openvpn.endpoint config));
                             protocol := protocol (openvpn.endpoint config) |};
      openvpn.username := openvpn.username config; openvpn.password := openvpn.password config |}
  | CcWireguard config => CcWireguard {|
      wireguard.tunnel := wireguard.tunnel config;
      wireguard.peer := {| wireguard.public_key := wireguard.public_key (wireguard.peer config);
                           wireguard.allowed_ips := wireguard.allowed_ips (wireguard.peer config);
                           wireguard.endpoint := clear_flowinfo (wireguard.endpoint (wireguard.peer config));
                           wireguard.psk := None; wireguard.constant_packet_size := false |};
      wireguard.exit_peer := None; wireguard.ipv4_gateway := wireguard.ipv4_gateway config;
      wireguard.ipv6_gateway := wireguard.ipv6_gateway config; wireguard.fwmark := Some TUNNEL_FWMARK |}
  end.
Definition ConnectionConfig_ok (c : CustomConnectionConfig) : Prop :=
  match c with
  | CcOpenVpn _ => True
  | CcWireguard config => length (wireguard.private_key (wireguard.tunnel config)) = 32%nat ∧
                          length (wireguard.public_key (wireguard.peer config)) = 32%nat
  end.

Definition RelaySettings_seen (s : RelaySettings) : RelaySettings :=
  match s with
  | RsCustomTunnelEndpoint e => RsCustomTunnelEndpoint {| ct_host := ct_host e; ct_config := ConnectionConfig_seen (ct_config e) |}
  | RsNormal c => RsNormal (c <| rc_wireguard_constraints ::= WireguardConstraints_seen |>)
  end.
Definition RelaySettings_ok (s : RelaySettings) : Prop :=
  match s with
  | RsCustomTunnelEndpoint e => ConnectionConfig_ok (ct_config e)
  | RsNormal c => constraint_all Providers_ok (rc_providers c) ∧ WireguardConstraints_ok (rc_wireguard_constraints c) ∧
                  constraint_all (λ p, constraint_all u16_range (tp_port p)) (oc_port (rc_openvpn_constraints c))
  end.

Definition proxy_endpoint_ok (s : SocketAddr) : Prop :=
  match s with SockV4 _ port => u16_range port | SockV6 _ _ _ _ => False end.
Definition SocksAuth_ok (a : SocksAuth) : Prop := socks_len_ok (username a) = true ∧ socks_len_ok (password a) = true.
Definition CustomProxy_ok (p : CustomProxy) : Prop :=
  match p with
  | CustomShadowsocks endpoint _ _ => proxy_endpoint_ok endpoint
  | Socks5Local remote_endpoint local_port => proxy_endpoint_ok (address remote_endpoint) ∧ u16_range local_port
  | Socks5Remote endpoint auth => proxy_endpoint_ok endpoint ∧ option_all SocksAuth_ok auth
  end.
Definition BridgeSettings_ok (s : BridgeSettings) : Prop :=
  constraint_all Providers_ok (bc_providers (bs_normal s)) ∧ option_all CustomProxy_ok (bs_custom s).
Definition ObfuscationSettings_ok (s : ObfuscationSettings) : Prop :=
  constraint_all u16_range (u2t_port (os_udp2tcp s)) ∧ constraint_all u16_range (sss_port (os_shadowsocks s)).
Definition AccessMethodSetting_ok (s : AccessMethodSetting) : Prop :=
  match access_method s with BuiltIn _ => True | Custom p => CustomProxy_ok p end.
Definition interval_ok (i : Z) : Prop := MIN_ROTATION_INTERVAL ≤ i ≤ MAX_ROTATION_INTERVAL.
Definition TunnelOptions_ok (o : TunnelOptions) : Prop :=
  option_all u16_range (openvpn.mssfix (to_openvpn o)) ∧ option_all u16_range (wg_options.mtu (to_wireguard o)) ∧
  option_all interval_ok (wg_options.rotation_interval (to_wireguard o)).
Record Settings_ok (s : Settings) : Prop := {
  ok_relay_settings : RelaySettings_ok (s_relay_settings s);
  ok_bridge_settings : BridgeSettings_ok (s_bridge_settings s);
  ok_obfuscation : ObfuscationSettings_ok (s_obfuscation_settings s);
  ok_tunnel_options : TunnelOptions_ok (s_tunnel_options s);
  ok_methods : Forall AccessMethodSetting_ok (access_methods.iter (s_api_access_methods s))
}.

(** The recents, the version and the rollout seed are not read from a client. *)
Definition Settings_seen (s : Settings) : Settings :=
  s <| s_relay_settings ::= RelaySettings_seen |> <| s_settings_version := CURRENT_SETTINGS_VERSION |>
    <| s_recents := Some [] |> <| s_rollout_threshold_seed := None |>.

(** ** Reading back *)

Arguments Geo_to_proto : simpl never.
Arguments Geo_from_proto : simpl never.
Arguments Location_to_proto : simpl never.
Arguments Location_from_proto : simpl never.
Arguments CustomList_to_proto : simpl never.
Arguments CustomList_from_proto : simpl never.
Arguments CustomLists_to_proto : simpl never.
Arguments CustomLists_from_proto : simpl never.
Arguments try_providers_constraint_from_proto : simpl never.
Arguments TransportPort_to_proto : simpl never.
Arguments TransportPort_from_proto : simpl never.
Arguments OpenVpnConstraints_from_proto : simpl never.
Arguments WireguardConstraints_to_proto : simpl never.
Arguments WireguardConstraints_from_proto : simpl never.
Arguments ConnectionConfig_to_proto : simpl never.
Arguments ConnectionConfig_from_proto : simpl never.
Arguments RelaySettings_to_proto : simpl never.
Arguments RelaySettings_from_proto : simpl never.
Arguments RelayOverride_to_proto : simpl never.
Arguments RelayOverride_from_proto : simpl never.
Arguments CustomProxy_to_proto : simpl never.
Arguments SocksAuth_from_proto : simpl never.
Arguments CustomProxy_from_proto : simpl never.
Arguments BridgeSettings_to_proto : simpl never.
Arguments BridgeSettings_from_proto : simpl never.
Arguments BridgeState_to_proto : simpl never.
Arguments BridgeState_from_proto : simpl never.
Arguments ObfuscationSettings_to_proto : simpl never.
Arguments ObfuscationSettings_from_proto : simpl never.
Arguments Uuid_to_proto : simpl never.
Arguments Uuid_from_proto : simpl never.
Arguments AccessMethod_to_proto : simpl never.
Arguments AccessMethod_from_proto : simpl never.
Arguments AccessMethodSetting_to_proto : simpl never.
Arguments AccessMethodSetting_from_proto : simpl never.
Arguments AccessMethods_to_proto : simpl never.
Arguments AccessMethods_from_proto : simpl never.
Arguments DnsOptions_to_proto : simpl never.
Arguments DnsOptions_from_proto : simpl never.
Arguments QuantumResistantState_to_proto : simpl never.
Arguments QuantumResistantState_from_proto : simpl never.
Arguments DaitaSettings_to_proto : simpl never.
Arguments DaitaSettings_from_proto : simpl never.
Arguments Duration_to_proto : simpl never.
Arguments Duration_from_proto : simpl never.
Arguments rotation_interval_from_proto : simpl never.
Arguments TunnelOptions_to_proto : simpl never.
Arguments TunnelOptions_from_proto : simpl never.
Arguments Recent_to_proto : simpl never.
Arguments Recents_to_proto : simpl never.
Arguments Settings_to_proto : simpl never.
Arguments Settings_from_proto : simpl never.
Arguments location_or_any : simpl never.
Arguments to_constraint : simpl never.
Arguments resolve_from_constraint : simpl never.
Arguments as_u16 : simpl never.

Lemma Geo_reads g : Geo_from_proto (Geo_to_proto g) = Ok g.
Proof. by destruct g. Qed.
Lemma Location_reads l : Location_from_proto (Location_to_proto l) = Ok (Only l).
Proof. unfold Location_from_proto, Location_to_proto. destruct l; cbn; [by rewrite Geo_reads|by rewrite uuid_round_trip]. Qed.
Lemma location_or_any_reads c : location_or_any (Location_to_proto <$> constraint_option c) = c.
Proof. unfold location_or_any. destruct c; cbn; [done|]. by rewrite Location_reads. Qed.

Lemma CustomList_reads l : CustomList_from_proto (CustomList_to_proto l) = Ok l.
Proof.
  unfold CustomList_from_proto, CustomList_to_proto. cbn. rewrite (try_collect_reads_same _ _ _ Geo_reads). cbn.
  rewrite uuid_round_trip. cbn. unfold CustomLists.append. cbn. rewrite list_to_set_elements_L, union_empty_l_L. by destruct l.
Qed.
Lemma CustomLists_reads s : CustomLists_from_proto (CustomLists_to_proto s) = Ok s.
Proof. apply try_collect_reads_same, CustomList_reads. Qed.

Lemma Providers_reads c : constraint_all Providers_ok c →
  try_providers_constraint_from_proto (convert_providers_constraint c) = Ok c.
Proof.
  destruct c as [|[p]]; [done|]. cbn. unfold Providers_ok. cbn. intros Hne.
  destruct (elements p) as [|x l] eqn:E; [destruct Hne; by apply elements_empty_iff in E; apply leibniz_equiv|].
  unfold try_providers_constraint_from_proto, Providers_new. rewrite <- E, list_to_set_elements_L. cbn.
  by rewrite decide_False.
Qed.

Lemma port_reads c : constraint_all u16_range c → Constraint_from (as_u16 <$> constraint_option c) = c.
Proof. destruct c; cbn; [done|]. intros Hp. by rewrite as_u16_small. Qed.
Lemma option_port_reads o : option_all u16_range o → as_u16 <$> o = o.
Proof. destruct o; cbn; [|done]. intros Hp. by rewrite as_u16_small. Qed.

Lemma TransportPort_reads p : constraint_all u16_range (tp_port p) → TransportPort_from_proto (TransportPort_to_proto p) = Ok p.
Proof.
  intros Hp. unfold TransportPort_from_proto, TransportPort_to_proto, try_transport_protocol_from_i32. cbn.
  rewrite enum_round_trip. cbn. rewrite port_reads by done. by destruct p.
Qed.

Lemma AllowedIps_reads nets : Forall aligned nets → AllowedIps_parse (net_text <$> nets) = Ok nets.
Proof.
  induction 1 as [|n nets Hn _ IH]; cbn; [done|]. destruct (net_text_trimmed n) as [-> Hne].
  by rewrite decide_False, net_round_trip, decide_True, IH by done.
Qed.
Lemma resolve_aligned c : constraint_all (λ a, Forall aligned (allowed_nets a)) c →
  Forall aligned (resolve_from_constraint c None None).
Proof.
  assert (Hall : Forall aligned (allowed_nets AllowedIps_allow_all)) by (repeat constructor).
  destruct c as [|[[|n nets]]]; cbn; auto.
Qed.
Lemma to_constraint_resolve c : let nets := {| allowed_nets := resolve_from_constraint c None None |} in
  to_constraint nets = Only nets.
Proof. by destruct c as [|[[|n nets]]]. Qed.

Lemma WireguardConstraints_reads c : WireguardConstraints_ok c →
  WireguardConstraints_from_proto (WireguardConstraints_to_proto c) = Ok (WireguardConstraints_seen c).
Proof.
  intros [Hport Hips]. unfold WireguardConstraints_from_proto, WireguardConstraints_to_proto.
  cbn.
  replace (transpose _ _) with (Ok (E := FromProtobufTypeError) (constraint_option (wc_ip_version c)))
    by (destruct (wc_ip_version c); cbn; by rewrite ?enum_round_trip). cbn.
  rewrite AllowedIps_reads by (by apply resolve_aligned). cbn.
  rewrite port_reads, location_or_any_reads, to_constraint_resolve by done. by destruct c as [? [] ???].
Qed.

Lemma ConnectionConfig_reads c : ConnectionConfig_ok c →
  ConnectionConfig_from_proto (ConnectionConfig_to_proto c) = Ok (ConnectionConfig_seen c).
Proof.
  unfold ConnectionConfig_from_proto, ConnectionConfig_to_proto. destruct c as [config|config]; cbn.
  - intros _. unfold arg_from_str, try_transport_protocol_from_i32. rewrite sock_round_trip. cbn. by rewrite enum_round_trip.
  - intros [Hpriv Hpub]. unfold bytes_to_privkey, bytes_to_pubkey, arg_from_str. rewrite wg_key_ok by done. cbn.
    rewrite wg_key_ok by done. cbn. rewrite ipv4_round_trip. cbn.
    rewrite (transpose_reads_same ipv6_text) by (intros; by rewrite ipv6_round_trip). cbn. rewrite sock_round_trip. cbn.
    rewrite (try_collect_reads_same ip_text) by (intros; by rewrite ip_round_trip). cbn.
    rewrite (try_collect_reads_same net_text) by (intros; by rewrite net_round_trip). cbn.
    by destruct config as [[] ?????].
Qed.

Lemma RelaySettings_reads s : RelaySettings_ok s → RelaySettings_from_proto (RelaySettings_to_proto s) = Ok (RelaySettings_seen s).
Proof.
  unfold RelaySettings_from_proto, RelaySettings_to_proto. destruct s as [e|c]; cbn.
  - intros Hc. by rewrite ConnectionConfig_reads.
  - intros (Hp & Hw & Ho). unfold try_ownership_constraint_from_i32, try_tunnel_type_from_i32, OpenVpnConstraints_from_proto.
    rewrite Providers_reads by done. cbn.
    rewrite enum_round_trip. cbn. rewrite enum_round_trip. cbn.
    rewrite (transpose_reads TransportPort_to_proto TransportPort_from_proto (λ p, p)).
    2: { destruct (oc_port _); cbn in *; [done|]. intros p [= <-]. by apply TransportPort_reads. }
    cbn.
    rewrite WireguardConstraints_reads, location_or_any_reads by done. cbn. by destruct c as [????? [[]]].
Qed.

Lemma RelayOverride_reads o : RelayOverride_from_proto (RelayOverride_to_proto o) = Ok o.
Proof.
  unfold RelayOverride_from_proto, RelayOverride_to_proto. cbn.
  rewrite (transpose_reads_same ipv4_text) by (intros; by rewrite ipv4_round_trip). cbn.
  rewrite (transpose_reads_same ipv6_text) by (intros; by rewrite ipv6_round_trip). by destruct o.
Qed.

Lemma ipv4_of_ip_text a : ipv4_parse (ip_text (AddrV4 a)) = Some a.
Proof. apply ipv4_round_trip. Qed.

Lemma SocksAuth_reads a : SocksAuth_ok a →
  SocksAuth_from_proto {| proto.sa_username := username a; proto.sa_password := password a |} = Ok a.
Proof. intros [Hu Hp]. unfold SocksAuth_from_proto, SocksAuth_new. cbn. rewrite Hu, Hp. by destruct a. Qed.

Lemma CustomProxy_reads p : CustomProxy_ok p → CustomProxy_from_proto (CustomProxy_to_proto p) = Ok p.
Proof.
  unfold CustomProxy_from_proto, CustomProxy_to_proto.
  destruct p as [[ip port|] pw c|[[ip port|] proto] lp|[ip port|] auth]; cbn; try tauto.
  - intros Hp. rewrite ipv4_of_ip_text. cbn. by rewrite as_u16_small.
  - intros [Hp Hl]. unfold try_transport_protocol_from_i32. rewrite ipv4_of_ip_text. cbn.
    rewrite enum_round_trip. cbn. by rewrite !as_u16_small.
  - intros [Hp Ha]. rewrite ipv4_of_ip_text. cbn.
    rewrite (transpose_reads _ SocksAuth_from_proto (λ a, a)).
    2: { intros a ->. by apply SocksAuth_reads. }
    cbn. rewrite as_u16_small, option_fmap_id by done. done.
Qed.
(** A proxy with an IPv6 address cannot be read. *)
Lemma CustomProxy_ipv6 ip port flowinfo scope pw c :
  is_ok (CustomProxy_from_proto (CustomProxy_to_proto (CustomShadowsocks (SockV6 ip port flowinfo scope) pw c))) = false.
Proof. unfold CustomProxy_from_proto, CustomProxy_to_proto. cbn. unfold ip_text. by rewrite ipv6_not_ipv4. Qed.

Lemma proxies_read o : option_all CustomProxy_ok o → transpose CustomProxy_from_proto (CustomProxy_to_proto <$> o) = Ok o.
Proof.
  intros Ho. rewrite (transpose_reads _ CustomProxy_from_proto (λ a, a)); [by rewrite option_fmap_id|].
  intros a ->. by apply CustomProxy_reads.
Qed.

Lemma BridgeSettings_reads s : BridgeSettings_ok s → BridgeSettings_from_proto (BridgeSettings_to_proto s) = Ok s.
Proof.
  intros [Hp Hc]. unfold BridgeSettings_from_proto, BridgeSettings_to_proto. cbn.
  replace (match _ with Some _ => _ | None => _ end)
    with (Ok (E := FromProtobufTypeError) (bc_location (bs_normal s))).
  2: { destruct (bc_location _); cbn; [done|]. by rewrite Location_reads. }
  unfold try_ownership_constraint_from_i32, try_bridge_mode_from_i32.
  cbn. rewrite Providers_reads by done. cbn. rewrite enum_round_trip. cbn. rewrite proxies_read by done. cbn.
  rewrite enum_round_trip. by destruct s as [? [] ?].
Qed.

Lemma ObfuscationSettings_reads s : ObfuscationSettings_ok s →
  ObfuscationSettings_from_proto (ObfuscationSettings_to_proto s) = Ok s.
Proof.
  intros [Hu Hs]. unfold ObfuscationSettings_from_proto, ObfuscationSettings_to_proto. cbn. rewrite enum_round_trip. cbn.
  rewrite !port_reads by done. by destruct s as [? [] []].
Qed.

Definition AccessMethod_ok (m : AccessMethod) : Prop := match m with BuiltIn _ => True | Custom p => CustomProxy_ok p end.
Lemma AccessMethod_reads m : AccessMethod_ok m → AccessMethod_from_proto (AccessMethod_to_proto m) = Ok m.
Proof.
  unfold AccessMethod_from_proto, AccessMethod_to_proto. destruct m as [[]|p]; cbn; try done.
  intros Hp. by rewrite CustomProxy_reads.
Qed.
Lemma Uuid_reads id : Uuid_from_proto (Uuid_to_proto id) = Ok id.
Proof. unfold Uuid_from_proto, Uuid_to_proto. cbn. by rewrite uuid_round_trip. Qed.
Lemma AccessMethodSetting_reads s : AccessMethodSetting_ok s →
  AccessMethodSetting_from_proto (AccessMethodSetting_to_proto s) = Ok s.
Proof.
  intros Hs. unfold AccessMethodSetting_from_proto, AccessMethodSetting_to_proto. cbn.
  rewrite Uuid_reads. cbn. rewrite AccessMethod_reads by exact Hs. by destruct s.
Qed.
Lemma AccessMethods_reads s : Forall AccessMethodSetting_ok (access_methods.iter s) →
  AccessMethods_from_proto (AccessMethods_to_proto s) = Ok s.
Proof.
  unfold access_methods.iter. cbn. rewrite !Forall_cons. intros (Hd & Hb & He & Hc).
  unfold AccessMethods_from_proto, AccessMethods_to_proto. cbn.
  rewrite AccessMethodSetting_reads by done. cbn.
  rewrite AccessMethodSetting_reads by done. cbn.
  rewrite AccessMethodSetting_reads by done. cbn.
  rewrite (try_collect_reads _ _ (λ a, a)).
  2: { eapply Forall_impl; [done|]. intros m. apply AccessMethodSetting_reads. }
  cbn. rewrite list_fmap_id. by destruct s.
Qed.

Lemma DnsOptions_reads o : DnsOptions_from_proto (DnsOptions_to_proto o) = Ok o.
Proof.
  unfold DnsOptions_from_proto, DnsOptions_to_proto. cbn. rewrite enum_round_trip. cbn.
  rewrite (try_collect_reads_same ip_text) by (intros; by rewrite ip_round_trip). by destruct o as [? [] []].
Qed.
Lemma interval_reads i : interval_ok i → rotation_interval_from_proto (Duration_to_proto i) = Ok i.
Proof.
  intros [Hmin Hmax]. unfold rotation_interval_from_proto, Duration_from_proto, Duration_to_proto. cbn -[Z.pow].
  rewrite (Z.mul_comm (i / 10 ^ 9)), <- Z.div_mod by lia.
  assert (0 ≤ i) by (unfold MIN_ROTATION_INTERVAL in Hmin; lia). rewrite (proj2 (Z.leb_le 0 i)) by done. cbn.
  unfold RotationInterval_new. by rewrite (proj2 (Z.ltb_ge _ _) Hmin), (proj2 (Z.ltb_ge _ _) Hmax).
Qed.
Lemma TunnelOptions_reads o : TunnelOptions_ok o → TunnelOptions_from_proto (TunnelOptions_to_proto o) = Ok o.
Proof.
  intros (Hm & Hmtu & Hi). unfold TunnelOptions_from_proto, TunnelOptions_to_proto.
  unfold QuantumResistantState_from_proto, QuantumResistantState_to_proto. cbn.
  rewrite (transpose_reads Duration_to_proto _ (λ i, i)).
  2: { intros i E. rewrite E in Hi. by apply interval_reads. }
  cbn. rewrite enum_round_trip.
  cbn. rewrite DnsOptions_reads. cbn.
  rewrite !option_port_reads, option_fmap_id by done. unfold DaitaSettings_from_proto, DaitaSettings_to_proto. cbn.
  rewrite negb_involutive. by destruct o as [[] [?? [] ?] [] ?].
Qed.

Lemma Settings_reads s : Settings_ok s → Settings_from_proto (Settings_to_proto s) = Ok (Settings_seen s).
Proof.
  intros [Hr Hb Ho Ht Hm]. unfold Settings_from_proto, Settings_to_proto, try_bridge_state_from_i32, BridgeState_to_proto.
  cbn.
  rewrite enum_round_trip. cbn.
  rewrite RelaySettings_reads by done; cbn [mbind result_bind].
  rewrite BridgeSettings_reads by done; cbn [mbind result_bind].
  rewrite TunnelOptions_reads by done; cbn [mbind result_bind].
  rewrite (try_collect_reads_same _ _ _ RelayOverride_reads); cbn [mbind result_bind].
  rewrite ObfuscationSettings_reads by done; cbn [mbind result_bind].
  rewrite CustomLists_reads; cbn [mbind result_bind].
  rewrite AccessMethods_reads by done. by destruct s.
Qed.

(** ** What is read is in range *)

(** Takes a conversion that succeeded apart. *)
Ltac conv_ok H :=
  repeat match type of H with
  | mbind _ _ = Ok _ => let x := fresh "x" in let E := fresh "E" in apply result_bind_ok in H as (x & E & H)
  | Ok _ = Ok _ => injection H as <-
  end.

Lemma port_from_ok o : constraint_all u16_range (Constraint_from (as_u16 <$> o)).
Proof. destruct o; [apply as_u16_range|done]. Qed.
Lemma option_port_ok o : option_all u16_range (as_u16 <$> o).
Proof. destruct o; [apply as_u16_range|done]. Qed.
Lemma Providers_from_ok l c : try_providers_constraint_from_proto l = Ok c → constraint_all Providers_ok c.
Proof.
  unfold try_providers_constraint_from_proto, Providers_new. destruct l; [by intros [= <-]|].
  case_decide as Hd; [done|]. by intros [= <-].
Qed.
Lemma AllowedIps_parse_ok l nets : AllowedIps_parse l = Ok nets → Forall aligned nets.
Proof.
  revert nets. induction l as [|s l IH]; intros nets; cbn; [by intros [= <-]|]. case_decide; [apply IH|].
  destruct (net_parse _) as [n|]; [|done]. case_decide; [|done]. intros (ns & E & [= <-])%result_bind_ok. constructor; auto.
Qed.
Lemma to_constraint_ok nets : Forall aligned nets →
  constraint_all (λ a, Forall aligned (allowed_nets a)) (to_constraint {| allowed_nets := nets |}).
Proof. by destruct nets. Qed.
Lemma wg_key_length bytes msg k : bytes_to_wg_key bytes msg = Ok k → length k = 32%nat.
Proof. unfold bytes_to_wg_key. case_decide; [|done]. by intros [= <-]. Qed.

Lemma WireguardConstraints_from_ok m c : WireguardConstraints_from_proto m = Ok c → WireguardConstraints_ok c.
Proof.
  unfold WireguardConstraints_from_proto. intros Hc. conv_ok Hc. split; cbn; [apply port_from_ok|].
  apply to_constraint_ok. destruct (AllowedIps_parse _) as [nets|] eqn:Ep; [|done]. injection E0 as <-. by apply AllowedIps_parse_ok in Ep.
Qed.
Lemma ConnectionConfig_from_ok m c : ConnectionConfig_from_proto m = Ok c → ConnectionConfig_ok c.
Proof.
  unfold ConnectionConfig_from_proto. intros Hc. apply result_bind_ok in Hc as ([o|w] & _ & Hc); conv_ok Hc; [done|].
  split; cbn; by eapply wg_key_length.
Qed.
Lemma RelaySettings_from_ok m s : RelaySettings_from_proto m = Ok s → RelaySettings_ok s.
Proof.
  unfold RelaySettings_from_proto. intros Hs. apply result_bind_ok in Hs as ([c|n] & _ & Hs); conv_ok Hs.
  - by eapply ConnectionConfig_from_ok.
  - split; [by eapply Providers_from_ok|]. split; [by eapply WireguardConstraints_from_ok|].
    unfold OpenVpnConstraints_from_proto in E3. conv_ok E3. cbn. destruct (proto.oc_port _) as [p|]; cbn in E6; [|by injection E6 as <-].
    destruct (TransportPort_from_proto p) as [tp|] eqn:Et; [|done]. injection E6 as <-.
    unfold TransportPort_from_proto in Et. conv_ok Et. apply port_from_ok.
Qed.
Lemma CustomProxy_from_ok m p : CustomProxy_from_proto m = Ok p → CustomProxy_ok p.
Proof.
  unfold CustomProxy_from_proto. destruct (proto.proxy_method m) as [[v|v|v]|]; [..|done]; intros Hp; conv_ok Hp; cbn.
  - split; apply as_u16_range.
  - split; [apply as_u16_range|]. destruct (proto.sr_auth v) as [a|]; cbn in E0; [|by injection E0 as <-].
    unfold SocksAuth_from_proto, SocksAuth_new in E0. destruct (socks_len_ok (proto.sa_password a)) eqn:Ep; [|done].
    destruct (socks_len_ok (proto.sa_username a)) eqn:Eu; [|done]. by injection E0 as <-.
  - apply as_u16_range.
Qed.
Lemma BridgeSettings_from_ok m s : BridgeSettings_from_proto m = Ok s → BridgeSettings_ok s.
Proof.
  unfold BridgeSettings_from_proto. intros Hs. conv_ok Hs. split; cbn; [by eapply Providers_from_ok|].
  destruct (proto.bs_custom m) as [p|]; cbn in *; [|by injection E3 as <-].
  destruct (CustomProxy_from_proto p) eqn:Ep; [|done]. injection E3 as <-. by eapply CustomProxy_from_ok.
Qed.
Lemma ObfuscationSettings_from_ok m s : ObfuscationSettings_from_proto m = Ok s → ObfuscationSettings_ok s.
Proof. unfold ObfuscationSettings_from_proto. intros Hs. conv_ok Hs. split; apply port_from_ok. Qed.
Lemma AccessMethod_from_ok m x : AccessMethod_from_proto m = Ok x → AccessMethod_ok x.
Proof.
  unfold AccessMethod_from_proto. intros Hx. apply result_bind_ok in Hx as ([| | |c] & _ & Hx); try by injection Hx as <-.
  destruct (CustomProxy_from_proto c) eqn:Ep; [|done]. injection Hx as <-. by eapply CustomProxy_from_ok.
Qed.
Lemma AccessMethodSetting_from_ok m x : AccessMethodSetting_from_proto m = Ok x → AccessMethodSetting_ok x.
Proof. unfold AccessMethodSetting_from_proto. intros Hx. conv_ok Hx. by eapply AccessMethod_from_ok. Qed.
Lemma RotationInterval_new_ok d i : RotationInterval_new d = Ok i → interval_ok i.
Proof.
  unfold RotationInterval_new, interval_ok. destruct (Z.ltb_spec d MIN_ROTATION_INTERVAL); [done|].
  destruct (Z.ltb_spec MAX_ROTATION_INTERVAL d); [done|]. intros [= <-]. lia.
Qed.
End Conversions.
