(* ===== verification/ProtoState.v ===== *)
(** * Tunnel states, relay lists, devices and versions on the wire

    mullvad-management-interface/src/types/conversions: net.rs, location.rs,
    features.rs, states.rs, relay_list.rs, device.rs, account.rs, version.rs and
    the keys of wireguard.rs, and mullvad-types/src/auth_failed.rs.  As in
    ProtoSettings.v there is a conversion in each direction, what is left of a value
    after both and the values that can be read.

    Keys are strings in the daemon's data and bytes on the wire ([key_bytes]); times are
    nanoseconds.  [Chrono] is what is used of the crate `chrono`, [VersionText] the
    printed form of a version and the paths of Versions.v and VersionRouter.v. *)

From S2P Require Import Prelude NetTypes TunnelTypes Constraints RelayTypes DaemonSettings SettingsPatch Versions VersionRouter.
From S2P Require Import DeviceService TunnelParams DaemonTypes ProtoTypes ProtoSettings.

(** ** Enumerations *)

#[global] Instance ObfuscationType_wire : WireEnum ObfuscationType :=
  {| wire_values := [ObfUdp2Tcp; ObfShadowsocks; ObfQuic; ObfLwo];
     to_i32 t := match t with ObfUdp2Tcp => 0 | ObfShadowsocks => 1 | ObfQuic => 2 | ObfLwo => 3 end |}.
#[global] Instance ProxyType_wire : WireEnum ProxyType :=
  {| wire_values := [ProxyShadowsocks; ProxyCustom]; to_i32 t := match t with ProxyShadowsocks => 0 | ProxyCustom => 1 end |}.
#[global] Instance AfterDisconnect_wire : WireEnum ActionAfterDisconnect :=
  {| wire_values := [ActionNothing; ActionBlock; ActionReconnect];
     to_i32 a := match a with ActionNothing => 0 | ActionBlock => 1 | ActionReconnect => 2 end |}.
#[global] Instance FeatureIndicator_wire : WireEnum FeatureIndicator :=
  {| wire_values := all_features;
     to_i32 f := match f with
       | QuantumResistance => 0 | FMultihop => 1 | BridgeMode => 2 | SplitTunneling => 3 | FLockdownMode => 4 | FUdp2Tcp => 5
       | FShadowsocks => 6 | FQuic => 7 | FLwo => 8 | LanSharing => 9 | DnsContentBlockers => 10 | CustomDns => 11
       | ServerIpOverride => 12 | CustomMtu => 13 | CustomMssFix => 14 | Daita => 15 | DaitaMultihop => 16 end |}.
#[global] Instance GenerationError_wire : WireEnum ParameterGenerationError :=
  {| wire_values := [NoMatchingRelay; NoMatchingBridgeRelay; NoWireguardKey; CustomTunnelHostResolutionError;
                     IpVersionUnavailable NetTypes.V4; IpVersionUnavailable NetTypes.V6];
     to_i32 e := match e with
       | NoMatchingRelay => 0 | NoMatchingBridgeRelay => 1 | NoWireguardKey => 2 | CustomTunnelHostResolutionError => 3
       | IpVersionUnavailable NetTypes.V4 => 4 | IpVersionUnavailable NetTypes.V6 => 5 end |}.
#[global] Instance FirewallPolicyError_wire : WireEnum FirewallPolicyError :=
  {| wire_values := [Generic]; to_i32 e := 0 |}.
#[global] Instance DeviceEventCause_wire : WireEnum DeviceEventCause :=
  {| wire_values := [CauseLoggedIn; CauseLoggedOut; CauseRevoked; CauseUpdated; CauseRotatedKey];
     to_i32 c := match c with CauseLoggedIn => 0 | CauseLoggedOut => 1 | CauseRevoked => 2 | CauseUpdated => 3 | CauseRotatedKey => 4 end |}.
#[global] Instance AppUpgradeError_wire : WireEnum AppUpgradeError :=
  {| wire_values := [GeneralError; DownloadFailed; VerificationFailed];
     to_i32 e := match e with GeneralError => 0 | DownloadFailed => 1 | VerificationFailed => 2 end |}.

#[global] Instance ObfuscationType_wire_ok : WireEnumOk ObfuscationType. Proof. solve_wire. Qed.
#[global] Instance ProxyType_wire_ok : WireEnumOk ProxyType. Proof. solve_wire. Qed.
#[global] Instance AfterDisconnect_wire_ok : WireEnumOk ActionAfterDisconnect. Proof. solve_wire. Qed.
#[global] Instance FeatureIndicator_wire_ok : WireEnumOk FeatureIndicator. Proof. solve_wire. Qed.
#[global] Instance GenerationError_wire_ok : WireEnumOk ParameterGenerationError.
Proof. intros [| | | |[]] reason; reflexivity. Qed.
#[global] Instance FirewallPolicyError_wire_ok : WireEnumOk FirewallPolicyError. Proof. solve_wire. Qed.
#[global] Instance DeviceEventCause_wire_ok : WireEnumOk DeviceEventCause. Proof. solve_wire. Qed.
#[global] Instance AppUpgradeError_wire_ok : WireEnumOk AppUpgradeError. Proof. solve_wire. Qed.

(** ** Failed authentication (mullvad-types/src/auth_failed.rs) *)

Inductive AuthFailed_ : Set := AfInvalidAccount | AfExpiredAccount | AfTooManyConnections | AfUnknown.
#[global] Instance AuthFailed_wire : WireEnum AuthFailed_ :=
  {| wire_values := [AfUnknown; AfInvalidAccount; AfExpiredAccount; AfTooManyConnections];
     to_i32 a := match a with AfUnknown => 0 | AfInvalidAccount => 1 | AfExpiredAccount => 2 | AfTooManyConnections => 3 end |}.
#[global] Instance AuthFailed_wire_ok : WireEnumOk AuthFailed_. Proof. solve_wire. Qed.
Definition AuthFailed_as_str (a : AuthFailed_) : string :=
  match a with
  | AfInvalidAccount => "[INVALID_ACCOUNT]"
  | AfExpiredAccount => "[EXPIRED_ACCOUNT]"
  | AfTooManyConnections => "[TOO_MANY_CONNECTIONS]"
  | AfUnknown => "[Unknown]"
  end.
(** The reason in brackets at the beginning; any other, and none, is unknown. *)
Definition AuthFailed_from (reason : string) : AuthFailed_ :=
  if String.prefix "[INVALID_ACCOUNT]" reason then AfInvalidAccount
  else if String.prefix "[EXPIRED_ACCOUNT]" reason then AfExpiredAccount
  else if String.prefix "[TOO_MANY_CONNECTIONS]" reason then AfTooManyConnections
  else AfUnknown.
Definition AuthFailed_try_from (cause : ErrorStateCause) : option AuthFailed_ :=
  match cause with
  | AuthFailed (Some reason) => Some (AuthFailed_from reason)
  | AuthFailed None => Some AfUnknown
  | _ => None
  end.
Lemma AuthFailed_text a : AuthFailed_from (AuthFailed_as_str a) = a.
Proof. by destruct a. Qed.

(** ** The numbers of error causes *)

Definition cause_to_i32 (c : ErrorStateCause) : Z :=
  match c with
  | AuthFailed _ => 0
  | Ipv6Unavailable => 1
  | SetFirewallPolicyError _ => 2
  | SetDnsError => 3
  | StartTunnelError => 4
  | TunnelParameterError _ => 6
  | IsOffline => 7
  end.

Class Chrono : Type := {
  (* [DateTime::from_timestamp] of seconds and nanoseconds *)
  from_timestamp : Z → Z → option Z;
  representable : Z → Prop;
  from_timestamp_ok seconds : representable seconds → from_timestamp seconds 0 = Some (seconds * 10 ^ 9)
}.
Class VersionText : Type := {
  version_text : Version → string;
  version_parse : string → option Version;
  path_text : path → option string;
  path_from : string → path;
  version_round_trip v : version_parse (version_text v) = Some v;
  path_round_trip p s : path_text p = Some s → path_from s = p
}.

Section Conversions.
Context `{IpText} `{!WireText} `{Chrono} `{VersionText}.
Context (key_bytes : string → list Z) (key_of_bytes : list Z → string).

(** ** Endpoints (net.rs) *)

Definition Endpoint_to_proto (e : Endpoint) : proto.Endpoint :=
  {| proto.ep_address := sock_text (address e); proto.ep_protocol := to_i32 (protocol e) |}.
(** The three places where an endpoint is read differ in the error only. *)
Definition endpoint_of (address_text : string) (protocol : Z) (reason : string) : conv Endpoint :=
  address ← arg_from_str sock_parse address_text reason;
  protocol ← try_transport_protocol_from_i32 protocol;
  Ok {| address := address; protocol := protocol |}.
Definition Endpoint_from_proto (e : proto.Endpoint) : conv Endpoint :=
  endpoint_of (proto.ep_address e) (proto.ep_protocol e) "invalid endpoint address".
Definition ObfuscationEndpoint_to_proto (e : ObfuscationEndpoint) : proto.ObfuscationEndpoint :=
  {| proto.oe_endpoint := Some (Endpoint_to_proto (oe_endpoint e)); proto.oe_obfuscation_type := to_i32 (obfuscation_type e) |}.
Definition ObfuscationEndpoint_from_proto (e : proto.ObfuscationEndpoint) : conv ObfuscationEndpoint :=
  endpoint ← ok_or (proto.oe_endpoint e) "missing obfuscation endpoint";
  endpoint ← Endpoint_from_proto endpoint;
  obfuscation_type ← enum_try_from (proto.oe_obfuscation_type e) "unknown obfuscation type";
  Ok {| oe_endpoint := endpoint; obfuscation_type := obfuscation_type |}.
Definition ObfuscationInfo_to_proto (i : ObfuscationInfo) : proto.ObfuscationInfo :=
  {| proto.oi_type := Some match i with
       | InfoSingle e => proto.OiSingle (ObfuscationEndpoint_to_proto e)
       | InfoMultiplexer direct obfuscators => proto.OiMultiple {|
           proto.mo_direct := Endpoint_to_proto <$> direct;
           proto.mo_obfuscators := ObfuscationEndpoint_to_proto <$> obfuscators |}
       end |}.
Definition ObfuscationInfo_from_proto (i : proto.ObfuscationInfo) : conv ObfuscationInfo :=
  match proto.oi_type i with
  | Some (proto.OiSingle e) => InfoSingle <$> ObfuscationEndpoint_from_proto e
  | Some (proto.OiMultiple m) =>
      direct ← transpose Endpoint_from_proto (proto.mo_direct m);
      obfuscators ← try_collect ObfuscationEndpoint_from_proto (proto.mo_obfuscators m);
      Ok (InfoMultiplexer direct obfuscators)
  | None => Err (InvalidArgument "unknown obfuscation info type")
  end.
Definition ProxyEndpoint_to_proto (p : ProxyEndpoint) : proto.ProxyEndpoint :=
  {| proto.pe_address := sock_text (address (pe_endpoint p)); proto.pe_protocol := to_i32 (protocol (pe_endpoint p));
     proto.pe_proxy_type := to_i32 (proxy_type p) |}.
Definition ProxyEndpoint_from_proto (p : proto.ProxyEndpoint) : conv ProxyEndpoint :=
  endpoint ← endpoint_of (proto.pe_address p) (proto.pe_protocol p) "invalid proxy endpoint address";
  proxy_type ← enum_try_from (proto.pe_proxy_type p) "unknown proxy type";
  Ok {| pe_endpoint := endpoint; proxy_type := proxy_type |}.
Definition TunnelEndpoint_to_proto (e : TunnelEndpoint) : proto.TunnelEndpoint := {|
  proto.te_address := sock_text (address (te_endpoint e));
  proto.te_protocol := to_i32 (protocol (te_endpoint e));
  proto.te_tunnel_type := to_i32 (tunnel_type e);
  proto.te_quantum_resistant := quantum_resistant e;
  proto.te_proxy := ProxyEndpoint_to_proto <$> te_proxy e;
  proto.te_obfuscation := ObfuscationInfo_to_proto <$> te_obfuscation e;
  proto.te_entry_endpoint := Endpoint_to_proto <$> entry_endpoint e;
  proto.te_tunnel_metadata := (λ i, {| proto.tm_tunnel_interface := i |}) <$> tunnel_interface e;
  proto.te_daita := daita e |}.
Definition TunnelEndpoint_from_proto (e : proto.TunnelEndpoint) : conv TunnelEndpoint :=
  endpoint ← endpoint_of (proto.te_address e) (proto.te_protocol e) "invalid endpoint address";
  tunnel_type ← try_tunnel_type_from_i32 (proto.te_tunnel_type e);
  proxy ← transpose ProxyEndpoint_from_proto (proto.te_proxy e);
  obfuscation ← transpose ObfuscationInfo_from_proto (proto.te_obfuscation e);
  entry ← transpose (λ e, endpoint_of (proto.ep_address e) (proto.ep_protocol e) "invalid entry endpoint address")
                    (proto.te_entry_endpoint e);
  Ok {| te_endpoint := endpoint; tunnel_type := tunnel_type; quantum_resistant := proto.te_quantum_resistant e;
        te_proxy := proxy; te_obfuscation := obfuscation; entry_endpoint := entry;
        tunnel_interface := proto.tm_tunnel_interface <$> proto.te_tunnel_metadata e; daita := proto.te_daita e |}.

(** ** Locations and features (location.rs, features.rs) *)

Definition GeoIpLocation_to_proto (g : GeoIpLocation) : proto.GeoIpLocation := {|
  proto.gi_ipv4 := ipv4_text <$> geo_ipv4 g; proto.gi_ipv6 := ipv6_text <$> geo_ipv6 g;
  proto.gi_country := geo_country g; proto.gi_city := geo_city g; proto.gi_latitude := geo_latitude g;
  proto.gi_longitude := geo_longitude g; proto.gi_mullvad_exit_ip := mullvad_exit_ip g;
  proto.gi_hostname := geo_hostname g; proto.gi_bridge_hostname := bridge_hostname g;
  proto.gi_entry_hostname := entry_hostname g; proto.gi_obfuscator_hostname := obfuscator_hostname g |}.
Definition GeoIpLocation_from_proto (g : proto.GeoIpLocation) : conv GeoIpLocation :=
  ipv4 ← transpose (λ a, arg_from_str ipv4_parse a "invalid IPv4 address") (proto.gi_ipv4 g);
  ipv6 ← transpose (λ a, arg_from_str ipv6_parse a "invalid IPv6 address") (proto.gi_ipv6 g);
  Ok {| geo_ipv4 := ipv4; geo_ipv6 := ipv6; geo_country := proto.gi_country g; geo_city := proto.gi_city g;
        geo_latitude := proto.gi_latitude g; geo_longitude := proto.gi_longitude g;
        mullvad_exit_ip := proto.gi_mullvad_exit_ip g; geo_hostname := proto.gi_hostname g;
        bridge_hostname := proto.gi_bridge_hostname g; entry_hostname := proto.gi_entry_hostname g;
        obfuscator_hostname := proto.gi_obfuscator_hostname g |}.

Definition FeatureIndicators_to_proto (f : FeatureIndicators) : proto.FeatureIndicators :=
  {| proto.fi_active_features := to_i32 <$> elements f |}.
(** prost's iterator over the enumeration leaves unknown numbers out. *)
Definition FeatureIndicators_from_proto (f : proto.FeatureIndicators) : FeatureIndicators :=
  list_to_set (omap enum_find (proto.fi_active_features f)).

(** ** Tunnel states (states.rs) *)

Definition map_firewall_error (e : FirewallPolicyError) : proto.FirewallPolicyError :=
  {| proto.fp_type := to_i32 e; proto.fp_lock_pid := 0; proto.fp_lock_name := None |}.
Definition try_firewall_policy_error_from_i32 (policy_error : Z) : conv FirewallPolicyError :=
  enum_try_from policy_error "invalid firewall policy error".
Definition ErrorState_to_proto (e : tunnel.ErrorState) : proto.ErrorState := {|
  proto.es_cause := cause_to_i32 (tunnel.cause e);
  proto.es_blocking_error := map_firewall_error <$> tunnel.block_failure e;
  proto.es_auth_failed_error := default 0 (to_i32 <$> AuthFailed_try_from (tunnel.cause e));
  proto.es_parameter_error := match tunnel.cause e with TunnelParameterError reason => to_i32 reason | _ => 0 end;
  proto.es_policy_error := match tunnel.cause e with
                           | SetFirewallPolicyError reason => Some (map_firewall_error reason)
                           | _ => None
                           end;
  proto.es_create_tunnel_error := None |}.
Definition try_auth_failed_from_i32 (auth_failed_error : Z) : conv AuthFailed_ :=
  enum_try_from auth_failed_error "invalid auth failed error".
(** The numbers of causes that other systems have are refused. *)
Definition cause_from_proto (e : proto.ErrorState) : conv ErrorStateCause :=
  match proto.es_cause e with
  | 0 => auth_failed ← try_auth_failed_from_i32 (proto.es_auth_failed_error e); Ok (AuthFailed (Some (AuthFailed_as_str auth_failed)))
  | 1 => Ok Ipv6Unavailable
  | 7 => Ok IsOffline
  | 3 => Ok SetDnsError
  | 2 => policy_error ← ok_or (proto.es_policy_error e) "missing firewall policy error";
         policy_error ← try_firewall_policy_error_from_i32 (proto.fp_type policy_error);
         Ok (SetFirewallPolicyError policy_error)
  | 4 => Ok StartTunnelError
  | 6 => TunnelParameterError <$> enum_try_from (proto.es_parameter_error e) "invalid parameter error"
  | _ => Err (InvalidArgument "invalid error cause")
  end.
Definition ErrorState_from_proto (e : proto.ErrorState) : conv tunnel.ErrorState :=
  cause ← cause_from_proto e;
  block_failure ← transpose (λ b, try_firewall_policy_error_from_i32 (proto.fp_type b)) (proto.es_blocking_error e);
  Ok (tunnel.new cause block_failure).

Definition relay_info (endpoint : TunnelEndpoint) (location : option GeoIpLocation) : proto.TunnelStateRelayInfo :=
  {| proto.ri_tunnel_endpoint := Some (TunnelEndpoint_to_proto endpoint); proto.ri_location := GeoIpLocation_to_proto <$> location |}.
Definition TunnelState_to_proto (s : TunnelState) : proto.TunnelState :=
  {| proto.ts_state := Some match s with
       | TsDisconnected location locked_down => proto.StDisconnected (GeoIpLocation_to_proto <$> location) locked_down
       | TsConnecting endpoint location features =>
           proto.StConnecting (Some (relay_info endpoint location)) (Some (FeatureIndicators_to_proto features))
       | TsConnected endpoint location features =>
           proto.StConnected (Some (relay_info endpoint location)) (Some (FeatureIndicators_to_proto features))
       | TsDisconnecting after => proto.StDisconnecting (to_i32 after)
       | TsError error => proto.StError (Some (ErrorState_to_proto error))
       end |}.
(** What [TsConnecting] and [TsConnected] have in common. *)
Definition relay_info_from_proto {A} (mk : TunnelEndpoint → option GeoIpLocation → FeatureIndicators → A)
    (info : option proto.TunnelStateRelayInfo) (features : option proto.FeatureIndicators) : conv A :=
  match info with
  | Some {| proto.ri_tunnel_endpoint := Some endpoint; proto.ri_location := location |} =>
      endpoint ← TunnelEndpoint_from_proto endpoint;
      location ← transpose GeoIpLocation_from_proto location;
      features ← ok_or (FeatureIndicators_from_proto <$> features) "Missing feature indicators";
      Ok (mk endpoint location features)
  | _ => Err (InvalidArgument "invalid tunnel state")
  end.
Definition TunnelState_from_proto (s : proto.TunnelState) : conv TunnelState :=
  match proto.ts_state s with
  | Some (proto.StDisconnected location locked_down) =>
      location ← transpose GeoIpLocation_from_proto location; Ok (TsDisconnected location locked_down)
  | Some (proto.StConnecting info features) => relay_info_from_proto TsConnecting info features
  | Some (proto.StConnected info features) => relay_info_from_proto TsConnected info features
  | Some (proto.StDisconnecting after) => TsDisconnecting <$> enum_try_from after "invalid 'after_disconnect' action"
  | Some (proto.StError (Some error)) => TsError <$> ErrorState_from_proto error
  | Some (proto.StError None) | None => Err (InvalidArgument "invalid tunnel state")
  end.

(** ** Relay lists (relay_list.rs) *)

Definition PortRange_to_proto (r : PortRange) : proto.PortRange := {| proto.pr_first := range_start r; proto.pr_last := range_end r |}.
Definition PortRange_from_proto (r : proto.PortRange) : conv PortRange :=
  first ← u16_try_from (proto.pr_first r) "invalid port";
  last ← u16_try_from (proto.pr_last r) "invalid port";
  Ok {| range_start := first; range_end := last |}.
Definition OpenVpnEndpoint_to_proto (e : OpenVpnEndpoint) : proto.OpenVpnEndpoint :=
  {| proto.oe_port := ovpn_port e; proto.oe_protocol := to_i32 (ovpn_protocol e) |}.
Definition OpenVpnEndpoint_from_proto (e : proto.OpenVpnEndpoint) : conv OpenVpnEndpoint :=
  port ← u16_try_from (proto.oe_port e) "invalid port";
  protocol ← try_transport_protocol_from_i32 (proto.oe_protocol e);
  Ok {| ovpn_port := port; ovpn_protocol := protocol |}.
Definition OpenVpnEndpointData_to_proto (l : list OpenVpnEndpoint) : proto.OpenVpnEndpointData :=
  {| proto.od_endpoints := OpenVpnEndpoint_to_proto <$> l |}.
Definition OpenVpnEndpointData_from_proto (d : proto.OpenVpnEndpointData) : conv (list OpenVpnEndpoint) :=
  try_collect OpenVpnEndpoint_from_proto (proto.od_endpoints d).
Definition ShadowsocksEndpointData_to_proto (d : ShadowsocksEndpointData) : proto.ShadowsocksEndpointData :=
  {| proto.sd_port := ss_port d; proto.sd_cipher := ss_cipher d; proto.sd_password := ss_password d;
     proto.sd_protocol := to_i32 (ss_protocol d) |}.
Definition ShadowsocksEndpointData_from_proto (d : proto.ShadowsocksEndpointData) : conv ShadowsocksEndpointData :=
  port ← u16_try_from (proto.sd_port d) "invalid port";
  protocol ← try_transport_protocol_from_i32 (proto.sd_protocol d);
  Ok {| ss_port := port; ss_cipher := proto.sd_cipher d; ss_password := proto.sd_password d; ss_protocol := protocol |}.
Definition BridgeEndpointData_to_proto (l : list ShadowsocksEndpointData) : proto.BridgeEndpointData :=
  {| proto.bd_shadowsocks := ShadowsocksEndpointData_to_proto <$> l |}.
Definition BridgeEndpointData_from_proto (d : proto.BridgeEndpointData) : conv (list ShadowsocksEndpointData) :=
  try_collect ShadowsocksEndpointData_from_proto (proto.bd_shadowsocks d).
Definition WireguardEndpointData_to_proto (d : WireguardEndpointData) : proto.WireguardEndpointData := {|
  proto.wd_port_ranges := PortRange_to_proto <$> port_ranges d;
  proto.wd_ipv4_gateway := ipv4_text (wg_ipv4_gateway d);
  proto.wd_ipv6_gateway := ipv6_text (wg_ipv6_gateway d);
  proto.wd_shadowsocks_port_ranges := PortRange_to_proto <$> shadowsocks_port_ranges d;
  proto.wd_udp2tcp_ports := udp2tcp_ports d |}.
Definition WireguardEndpointData_from_proto (d : proto.WireguardEndpointData) : conv WireguardEndpointData :=
  port_ranges ← try_collect PortRange_from_proto (proto.wd_port_ranges d);
  ipv4_gateway ← ok_or (ipv4_parse (proto.wd_ipv4_gateway d)) "Invalid IPv4 gateway";
  ipv6_gateway ← ok_or (ipv6_parse (proto.wd_ipv6_gateway d)) "Invalid IPv6 gateway";
  shadowsocks_port_ranges ← try_collect PortRange_from_proto (proto.wd_shadowsocks_port_ranges d);
  udp2tcp_ports ← try_collect (λ port, u16_try_from port "invalid udp2tcp port") (proto.wd_udp2tcp_ports d);
  Ok {| port_ranges := port_ranges; wg_ipv4_gateway := ipv4_gateway; wg_ipv6_gateway := ipv6_gateway;
        shadowsocks_port_ranges := shadowsocks_port_ranges; udp2tcp_ports := udp2tcp_ports |}.

Definition parse_addr (addr : string) : conv IpAddr := ok_or (ip_parse addr) "Invalid IP address".
Definition Quic_to_proto (q : relay.Quic) : proto.Quic :=
  {| proto.qu_domain := relay.domain q; proto.qu_token := relay.token q; proto.qu_addr_in := ip_text <$> relay.addr_in q |}.
(** [Vec1]: at least one address. *)
Definition Quic_from_proto (q : proto.Quic) : conv relay.Quic :=
  addr_in ← try_collect parse_addr (proto.qu_addr_in q);
  match addr_in with
  | [] => Err (InvalidArgument "Invalid QUIC object")
  | _ => Ok {| relay.addr_in := addr_in; relay.token := proto.qu_token q; relay.domain := proto.qu_domain q |}
  end.
Definition RelayData_to_proto (d : relay.RelayEndpointData) : proto.Data :=
  match d with
  | relay.EdWireguard data => proto.DataWireguard {|
      proto.rw_public_key := relay.public_key data; proto.rw_daita := relay.daita data;
      proto.rw_quic := Quic_to_proto <$> relay.quic data;
      proto.rw_shadowsocks_extra_addr_in := ip_text <$> relay.shadowsocks_extra_addr_in data;
      proto.rw_lwo := relay.lwo data |}
  | relay.EdBridge => proto.DataBridge
  | relay.EdOpenvpn => proto.DataOpenvpn
  end.
(** The extra addresses are collected into a set: each once. *)
Definition RelayData_from_proto (d : proto.Data) : conv relay.RelayEndpointData :=
  match d with
  | proto.DataOpenvpn => Ok relay.EdOpenvpn
  | proto.DataBridge => Ok relay.EdBridge
  | proto.DataWireguard w =>
      public_key ← bytes_to_pubkey (proto.rw_public_key w);
      quic ← transpose Quic_from_proto (proto.rw_quic w);
      shadowsocks_extra_addr_in ← try_collect parse_addr (proto.rw_shadowsocks_extra_addr_in w);
      Ok (relay.EdWireguard {| relay.public_key := public_key; relay.daita := proto.rw_daita w; relay.quic := quic;
                               relay.lwo := proto.rw_lwo w;
                               relay.shadowsocks_extra_addr_in := remove_dups shadowsocks_extra_addr_in |})
  end.
Definition Location_message (l : Location) : proto.Location := {|
  proto.lo_country := country l; proto.lo_country_code := country_code l; proto.lo_city := city l;
  proto.lo_city_code := city_code l; proto.lo_latitude := latitude l; proto.lo_longitude := longitude l |}.
Definition Location_read (l : proto.Location) : Location := {|
  country := proto.lo_country l; country_code := proto.lo_country_code l; city := proto.lo_city l;
  city_code := proto.lo_city_code l; latitude := proto.lo_latitude l; longitude := proto.lo_longitude l |}.
Definition Relay_to_proto (r : relay.Relay) : proto.Relay := {|
  proto.re_hostname := relay.hostname r; proto.re_ipv4_addr_in := ipv4_text (relay.ipv4_addr_in r);
  proto.re_ipv6_addr_in := ipv6_text <$> relay.ipv6_addr_in r; proto.re_include_in_country := relay.include_in_country r;
  proto.re_active := relay.active r; proto.re_owned := relay.owned r; proto.re_provider := relay.provider r;
  proto.re_weight := relay.weight r;
  proto.re_endpoint_data := Some {| proto.rd_data := Some (RelayData_to_proto (relay.endpoint_data r)) |};
  proto.re_location := Some (Location_message (relay.location r)) |}.
Definition Relay_from_proto (r : proto.Relay) : conv relay.Relay :=
  data ← ok_or (proto.re_endpoint_data r ≫= proto.rd_data) "invalid relay endpoint type";
  endpoint_data ← RelayData_from_proto data;
  ipv6_addr_in ← transpose (λ a, ok_or (ipv6_parse a) "invalid relay IPv6 address") (proto.re_ipv6_addr_in r);
  ipv4_addr_in ← ok_or (ipv4_parse (proto.re_ipv4_addr_in r)) "invalid relay IPv4 address";
  location ← ok_or (Location_read <$> proto.re_location r) "missing relay location";
  Ok {| relay.hostname := proto.re_hostname r; relay.ipv4_addr_in := ipv4_addr_in; relay.ipv6_addr_in := ipv6_addr_in;
        relay.overridden_ipv4 := false; relay.overridden_ipv6 := false;
        relay.include_in_country := proto.re_include_in_country r; relay.active := proto.re_active r;
        relay.owned := proto.re_owned r; relay.provider := proto.re_provider r; relay.weight := proto.re_weight r;
        relay.endpoint_data := endpoint_data; relay.location := location |}.
Definition RelayListCity_to_proto (c : RelayListCity) : proto.RelayListCity := {|
  proto.ci_name := city_name c; proto.ci_code := city_code_ c; proto.ci_latitude := city_latitude c;
  proto.ci_longitude := city_longitude c; proto.ci_relays := Relay_to_proto <$> city_relays c |}.
Definition RelayListCity_from_proto (c : proto.RelayListCity) : conv RelayListCity :=
  relays ← try_collect Relay_from_proto (proto.ci_relays c);
  Ok {| city_name := proto.ci_name c; city_code_ := proto.ci_code c; city_latitude := proto.ci_latitude c;
        city_longitude := proto.ci_longitude c; city_relays := relays |}.
Definition RelayListCountry_to_proto (c : RelayListCountry) : proto.RelayListCountry := {|
  proto.co_name := country_name c; proto.co_code := country_code_ c; proto.co_cities := RelayListCity_to_proto <$> cities c |}.
Definition RelayListCountry_from_proto (c : proto.RelayListCountry) : conv RelayListCountry :=
  cities ← try_collect RelayListCity_from_proto (proto.co_cities c);
  Ok {| country_name := proto.co_name c; country_code_ := proto.co_code c; cities := cities |}.
Definition RelayList_to_proto (l : RelayList) : proto.RelayList := {|
  proto.rl_countries := RelayListCountry_to_proto <$> countries l;
  proto.rl_openvpn := Some (OpenVpnEndpointData_to_proto (openvpn_ports l));
  proto.rl_bridge := Some (BridgeEndpointData_to_proto (bridge_shadowsocks l));
  proto.rl_wireguard := Some (WireguardEndpointData_to_proto (wireguard_endpoints l)) |}.
Definition RelayList_from_proto (l : proto.RelayList) : conv RelayList :=
  wireguard ← ok_or (proto.rl_wireguard l) "missing wireguard data";
  bridge ← ok_or (proto.rl_bridge l) "missing bridge data";
  openvpn ← ok_or (proto.rl_openvpn l) "missing openvpn data";
  countries ← try_collect RelayListCountry_from_proto (proto.rl_countries l);
  openvpn_ports ← OpenVpnEndpointData_from_proto openvpn;
  bridge_shadowsocks ← BridgeEndpointData_from_proto bridge;
  wireguard_endpoints ← WireguardEndpointData_from_proto wireguard;
  Ok {| etag := None; countries := countries; openvpn_ports := openvpn_ports; bridge_shadowsocks := bridge_shadowsocks;
        wireguard_endpoints := wireguard_endpoints |}.

(** ** Devices and accounts (device.rs, account.rs, wireguard.rs) *)

(** [timestamp()]: whole seconds. *)
Definition Timestamp_to_proto (t : Z) : proto.Timestamp := {| proto.ti_seconds := t / 10 ^ 9; proto.ti_nanos := 0 |}.
(** [nanos as u32]. *)
Definition Timestamp_from_proto (t : proto.Timestamp) : conv Z :=
  ok_or (from_timestamp (proto.ti_seconds t) (wrap 32 (proto.ti_nanos t))) "invalid timestamp".

Definition Device_to_proto (d : Device) : proto.Device := {|
  proto.dv_id := dev_id d; proto.dv_name := dev_name d; proto.dv_pubkey := key_bytes (dev_pubkey d);
  proto.dv_hijack_dns := dev_hijack_dns d; proto.dv_created := Some (Timestamp_to_proto (dev_created d)) |}.
Definition Device_from_proto (d : proto.Device) : conv Device :=
  created ← ok_or (proto.dv_created d) "missing 'created' field";
  created ← ok_or (from_timestamp (proto.ti_seconds created) 0) "invalid timestamp";
  pubkey ← bytes_to_pubkey (proto.dv_pubkey d);
  Ok {| dev_id := proto.dv_id d; dev_name := proto.dv_name d; dev_pubkey := key_of_bytes pubkey;
        dev_hijack_dns := proto.dv_hijack_dns d; dev_created := created |}.
Definition AccountAndDevice_to_proto (a : AccountAndDevice) : proto.AccountAndDevice :=
  {| proto.and_account_number := ad_account_number a; proto.and_device := Some (Device_to_proto (ad_device a)) |}.
Definition DeviceState_to_i32 (s : DeviceState) : Z := match s with DsLoggedIn _ => 0 | DsLoggedOut => 1 | DsRevoked => 2 end.
Definition DeviceState_to_proto (s : DeviceState) : proto.DeviceState :=
  {| proto.ds_state := DeviceState_to_i32 s;
     proto.ds_device := match s with DsLoggedIn a => Some (AccountAndDevice_to_proto a) | _ => None end |}.
Definition DeviceState_from_proto (s : proto.DeviceState) : conv DeviceState :=
  match proto.ds_state s with
  | 0 =>
      account ← ok_or (proto.ds_device s) "missing account data";
      device ← ok_or (proto.and_device account) "missing device data";
      device ← Device_from_proto device;
      Ok (DsLoggedIn {| ad_account_number := proto.and_account_number account; ad_device := device |})
  | 2 => Ok DsRevoked
  | 1 => Ok DsLoggedOut
  | _ => Err (InvalidArgument "invalid device state")
  end.
Definition DeviceEvent_to_proto (e : DeviceEvent) : proto.DeviceEvent :=
  {| proto.dve_cause := to_i32 (de_cause e); proto.dve_new_state := Some (DeviceState_to_proto (new_state e)) |}.
Definition DeviceEvent_from_proto (e : proto.DeviceEvent) : conv DeviceEvent :=
  cause ← enum_try_from (proto.dve_cause e) "invalid event";
  new_state ← ok_or (proto.dve_new_state e) "missing device state";
  new_state ← DeviceState_from_proto new_state;
  Ok {| de_cause := cause; new_state := new_state |}.
(** [RemoveDeviceEvent]: an account number and the devices left. *)
Definition RemoveDeviceEvent_to_proto (e : AccountNumber * list Device) : proto.RemoveDeviceEvent :=
  {| proto.rde_account_number := e.1; proto.rde_new_device_list := Device_to_proto <$> e.2 |}.
Definition RemoveDeviceEvent_from_proto (e : proto.RemoveDeviceEvent) : conv (AccountNumber * list Device) :=
  new_devices ← try_collect Device_from_proto (proto.rde_new_device_list e);
  Ok (proto.rde_account_number e, new_devices).
Definition DeviceList_to_proto (l : list Device) : list proto.Device := Device_to_proto <$> l.

Definition PublicKey_to_proto (k : PublicKey) : proto.PublicKey :=
  {| proto.pk_key := key_bytes (pk_key k); proto.pk_created := Some (Timestamp_to_proto (pk_created k)) |}.
Definition PublicKey_from_proto (k : proto.PublicKey) : conv PublicKey :=
  created ← ok_or (proto.pk_created k) "missing 'created' timestamp";
  created ← Timestamp_from_proto created;
  key ← bytes_to_wg_key (proto.pk_key k) "invalid wireguard key";
  Ok {| pk_key := key_of_bytes key; pk_created := created |}.
Definition AccountData_to_proto (d : AccountData) : proto.AccountData :=
  {| proto.ad_id := account_id d; proto.ad_expiry := Some (Timestamp_to_proto (expiry d)) |}.
Definition AccountData_from_proto (d : proto.AccountData) : conv AccountData :=
  expiry ← ok_or (proto.ad_expiry d) "missing expiry";
  expiry ← Timestamp_from_proto expiry;
  Ok {| account_id := proto.ad_id d; expiry := expiry |}.
Definition VoucherSubmission_to_proto (v : VoucherSubmission) : proto.VoucherSubmission :=
  {| proto.vs_seconds_added := time_added v; proto.vs_new_expiry := Some (Timestamp_to_proto (new_expiry v)) |}.
Definition VoucherSubmission_from_proto (v : proto.VoucherSubmission) : conv VoucherSubmission :=
  new_expiry ← ok_or (proto.vs_new_expiry v) "missing expiry";
  new_expiry ← Timestamp_from_proto new_expiry;
  Ok {| time_added := proto.vs_seconds_added v; new_expiry := new_expiry |}.

(** ** Versions (version.rs) *)

Definition SuggestedUpgrade_to_proto (u : SuggestedUpgrade) : proto.SuggestedUpgrade := {|
  proto.su_version := version_text (su_version u); proto.su_changelog := su_changelog u;
  proto.su_verified_installer_path := verified_installer_path u ≫= path_text |}.
Definition SuggestedUpgrade_from_proto (u : proto.SuggestedUpgrade) : conv SuggestedUpgrade :=
  version ← ok_or (version_parse (proto.su_version u)) "invalid Mullvad app version";
  Ok {| su_version := version; su_changelog := proto.su_changelog u;
        verified_installer_path := path_from <$> proto.su_verified_installer_path u |}.
Definition AppVersionInfo_to_proto (i : AppVersionInfo) : proto.AppVersionInfo :=
  {| proto.av_supported := info_current_version_supported i;
     proto.av_suggested_upgrade := SuggestedUpgrade_to_proto <$> suggested_upgrade i |}.
Definition AppVersionInfo_from_proto (i : proto.AppVersionInfo) : conv AppVersionInfo :=
  suggested_upgrade ← transpose SuggestedUpgrade_from_proto (proto.av_suggested_upgrade i);
  Ok {| info_current_version_supported := proto.av_supported i; suggested_upgrade := suggested_upgrade |}.

(** Progress of a download, which the router does not send itself, with the time left. *)
Record AppUpgradeDownloadProgress : Set := { server : string; progress : Z; time_left : option Z }.
Inductive UpgradeEvent : Set := DownloadProgress (p : AppUpgradeDownloadProgress) | Routed (e : AppUpgradeEvent).
Definition AppUpgradeEvent_to_proto (e : UpgradeEvent) : proto.AppUpgradeEvent :=
  {| proto.ue_event := Some match e with
       | Routed DownloadStarting => proto.UeDownloadStarting
       | DownloadProgress p => proto.UeDownloadProgress {|
           proto.dp_server := server p; proto.dp_progress := progress p; proto.dp_time_left := Duration_to_proto <$> time_left p |}
       | Routed VerifyingInstaller => proto.UeVerifyingInstaller
       | Routed VerifiedInstaller => proto.UeVerifiedInstaller
       | Routed Aborted => proto.UeUpgradeAborted
       | Routed (UpgradeError e) => proto.UeError (to_i32 e)
       end |}.
(** [None] is the panic of [expect]: the time left is negative. *)
Definition AppUpgradeEvent_from_proto (e : proto.AppUpgradeEvent) : option (conv UpgradeEvent) :=
  match proto.ue_event e with
  | None => Some (Err (InvalidArgument "Non-existent AppUpgradeEvent"))
  | Some proto.UeDownloadStarting => Some (Ok (Routed DownloadStarting))
  | Some (proto.UeDownloadProgress p) =>
      let done t := Some (Ok (DownloadProgress {| server := proto.dp_server p; progress := proto.dp_progress p; time_left := t |})) in
      match proto.dp_time_left p with
      | None => done None
      | Some d => match Duration_from_proto d with Some t => done (Some t) | None => None end
      end
  | Some proto.UeVerifyingInstaller => Some (Ok (Routed VerifyingInstaller))
  | Some proto.UeVerifiedInstaller => Some (Ok (Routed VerifiedInstaller))
  | Some proto.UeUpgradeAborted => Some (Ok (Routed Aborted))
  | Some (proto.UeError error) =>
      Some (e ← enum_try_from error "invalid AppUpgradeError"; Ok (Routed (UpgradeError e)))
  end.

(** ** What is read *)

Definition Endpoint_seen (e : Endpoint) : Endpoint := {| address := clear_flowinfo (address e); protocol := protocol e |}.
Definition ObfuscationEndpoint_seen (e : ObfuscationEndpoint) : ObfuscationEndpoint :=
  {| oe_endpoint := Endpoint_seen (oe_endpoint e); obfuscation_type := obfuscation_type e |}.
Definition ObfuscationInfo_seen (i : ObfuscationInfo) : ObfuscationInfo :=
  match i with
  | InfoSingle e => InfoSingle (ObfuscationEndpoint_seen e)
  | InfoMultiplexer direct obfuscators => InfoMultiplexer (Endpoint_seen <$> direct) (ObfuscationEndpoint_seen <$> obfuscators)
  end.
Definition ProxyEndpoint_seen (p : ProxyEndpoint) : ProxyEndpoint :=
  {| pe_endpoint := Endpoint_seen (pe_endpoint p); proxy_type := proxy_type p |}.
Definition TunnelEndpoint_seen (e : TunnelEndpoint) : TunnelEndpoint :=
  {| te_endpoint := Endpoint_seen (te_endpoint e); tunnel_type := tunnel_type e; quantum_resistant := quantum_resistant e;
     te_proxy := ProxyEndpoint_seen <$> te_proxy e; te_obfuscation := ObfuscationInfo_seen <$> te_obfuscation e;
     entry_endpoint := Endpoint_seen <$> entry_endpoint e; tunnel_interface := tunnel_interface e; daita := daita e |}.
(** Of the reason why authentication failed the part that is known is kept. *)
Definition cause_seen (c : ErrorStateCause) : ErrorStateCause :=
  match AuthFailed_try_from c with Some a => AuthFailed (Some (AuthFailed_as_str a)) | None => c end.
Definition TunnelState_seen (s : TunnelState) : TunnelState :=
  match s with
  | TsConnecting endpoint location features => TsConnecting (TunnelEndpoint_seen endpoint) location features
  | TsConnected endpoint location features => TsConnected (TunnelEndpoint_seen endpoint) location features
  | TsError e => TsError (tunnel.new (cause_seen (tunnel.cause e)) (tunnel.block_failure e))
  | s => s
  end.

Definition range_ok (r : PortRange) : Prop := u16_range (range_start r) ∧ u16_range (range_end r).
Definition data_ok (d : relay.RelayEndpointData) : Prop :=
  match d with
  | relay.EdWireguard data => length (relay.public_key data) = 32%nat ∧ NoDup (relay.shadowsocks_extra_addr_in data) ∧
                              option_all (λ q, relay.addr_in q ≠ []) (relay.quic data)
  | _ => True
  end.
Definition Relay_seen (r : relay.Relay) : relay.Relay := {|
  relay.hostname := relay.hostname r; relay.ipv4_addr_in := relay.ipv4_addr_in r; relay.ipv6_addr_in := relay.ipv6_addr_in r;
  relay.overridden_ipv4 := false; relay.overridden_ipv6 := false;
  relay.include_in_country := relay.include_in_country r; relay.active := relay.active r; relay.owned := relay.owned r;
  relay.provider := relay.provider r; relay.weight := relay.weight r; relay.endpoint_data := relay.endpoint_data r;
  relay.location := relay.location r |}.
Definition city_seen (c : RelayListCity) : RelayListCity := {|
  city_name := city_name c; city_code_ := city_code_ c; city_latitude := city_latitude c; city_longitude := city_longitude c;
  city_relays := Relay_seen <$> city_relays c |}.
Definition country_seen (c : RelayListCountry) : RelayListCountry :=
  {| country_name := country_name c; country_code_ := country_code_ c; cities := city_seen <$> cities c |}.
(** A client does not see the ETag, nor which addresses are overridden. *)
Definition RelayList_seen (l : RelayList) : RelayList := {|
  etag := None; countries := country_seen <$> countries l; openvpn_ports := openvpn_ports l;
  bridge_shadowsocks := bridge_shadowsocks l; wireguard_endpoints := wireguard_endpoints l |}.
Definition city_ok (c : RelayListCity) : Prop := Forall (λ r, data_ok (relay.endpoint_data r)) (city_relays c).
Record RelayList_ok (l : RelayList) : Prop := {
  rl_relays : Forall (λ c, Forall city_ok (cities c)) (countries l);
  rl_openvpn : Forall (λ e, u16_range (ovpn_port e)) (openvpn_ports l);
  rl_bridges : Forall (λ d, u16_range (ss_port d)) (bridge_shadowsocks l);
  rl_ranges : Forall range_ok (port_ranges (wireguard_endpoints l));
  rl_ss_ranges : Forall range_ok (shadowsocks_port_ranges (wireguard_endpoints l));
  rl_ports : Forall u16_range (udp2tcp_ports (wireguard_endpoints l))
}.

(** Times are read as whole seconds. *)
Definition seconds (t : Z) : Z := t / 10 ^ 9 * 10 ^ 9.
Definition Device_seen (d : Device) : Device := {|
  dev_id := dev_id d; dev_name := dev_name d; dev_pubkey := dev_pubkey d; dev_hijack_dns := dev_hijack_dns d;
  dev_created := seconds (dev_created d) |}.
Definition key_ok (k : string) : Prop := length (key_bytes k) = 32%nat ∧ key_of_bytes (key_bytes k) = k.
Definition time_ok (t : Z) : Prop := representable (t / 10 ^ 9).
Definition Device_ok (d : Device) : Prop := key_ok (dev_pubkey d) ∧ time_ok (dev_created d).
Definition DeviceState_seen (s : DeviceState) : DeviceState :=
  match s with
  | DsLoggedIn a => DsLoggedIn {| ad_account_number := ad_account_number a; ad_device := Device_seen (ad_device a) |}
  | s => s
  end.
Definition DeviceState_ok (s : DeviceState) : Prop := match s with DsLoggedIn a => Device_ok (ad_device a) | _ => True end.
Definition DeviceEvent_seen (e : DeviceEvent) : DeviceEvent :=
  {| de_cause := de_cause e; new_state := DeviceState_seen (new_state e) |}.
Definition installer_ok (u : SuggestedUpgrade) : Prop := option_all (λ p, is_Some (path_text p)) (verified_installer_path u).

(** ** Reading back *)

Arguments Endpoint_to_proto : simpl never.
Arguments Endpoint_from_proto : simpl never.
Arguments ObfuscationEndpoint_to_proto : simpl never.
Arguments ObfuscationEndpoint_from_proto : simpl never.
Arguments ObfuscationInfo_to_proto : simpl never.
Arguments ObfuscationInfo_from_proto : simpl never.
Arguments ProxyEndpoint_to_proto : simpl never.
Arguments ProxyEndpoint_from_proto : simpl never.
Arguments TunnelEndpoint_to_proto : simpl never.
Arguments TunnelEndpoint_from_proto : simpl never.
Arguments GeoIpLocation_to_proto : simpl never.
Arguments GeoIpLocation_from_proto : simpl never.
Arguments FeatureIndicators_to_proto : simpl never.
Arguments FeatureIndicators_from_proto : simpl never.
Arguments ErrorState_to_proto : simpl never.
Arguments cause_from_proto : simpl never.
Arguments ErrorState_from_proto : simpl never.
Arguments TunnelState_to_proto : simpl never.
Arguments relay_info_from_proto : simpl never.
Arguments TunnelState_from_proto : simpl never.
Arguments PortRange_to_proto : simpl never.
Arguments PortRange_from_proto : simpl never.
Arguments OpenVpnEndpoint_to_proto : simpl never.
Arguments OpenVpnEndpoint_from_proto : simpl never.
Arguments OpenVpnEndpointData_to_proto : simpl never.
Arguments OpenVpnEndpointData_from_proto : simpl never.
Arguments ShadowsocksEndpointData_to_proto : simpl never.
Arguments ShadowsocksEndpointData_from_proto : simpl never.
Arguments BridgeEndpointData_to_proto : simpl never.
Arguments BridgeEndpointData_from_proto : simpl never.
Arguments WireguardEndpointData_to_proto : simpl never.
Arguments WireguardEndpointData_from_proto : simpl never.
Arguments Quic_to_proto : simpl never.
Arguments Quic_from_proto : simpl never.
Arguments RelayData_to_proto : simpl never.
Arguments RelayData_from_proto : simpl never.
Arguments Relay_to_proto : simpl never.
Arguments Relay_from_proto : simpl never.
Arguments RelayListCity_to_proto : simpl never.
Arguments RelayListCity_from_proto : simpl never.
Arguments RelayListCountry_to_proto : simpl never.
Arguments RelayListCountry_from_proto : simpl never.
Arguments RelayList_to_proto : simpl never.
Arguments RelayList_from_proto : simpl never.
Arguments Timestamp_to_proto : simpl never.
Arguments Timestamp_from_proto : simpl never.
Arguments Device_to_proto : simpl never.
Arguments Device_from_proto : simpl never.
Arguments AccountAndDevice_to_proto : simpl never.
Arguments DeviceState_to_proto : simpl never.
Arguments DeviceState_from_proto : simpl never.
Arguments DeviceEvent_to_proto : simpl never.
Arguments DeviceEvent_from_proto : simpl never.
Arguments RemoveDeviceEvent_to_proto : simpl never.
Arguments RemoveDeviceEvent_from_proto : simpl never.
Arguments DeviceList_to_proto : simpl never.
Arguments PublicKey_to_proto : simpl never.
Arguments PublicKey_from_proto : simpl never.
Arguments AccountData_to_proto : simpl never.
Arguments AccountData_from_proto : simpl never.
Arguments VoucherSubmission_to_proto : simpl never.
Arguments VoucherSubmission_from_proto : simpl never.
Arguments SuggestedUpgrade_to_proto : simpl never.
Arguments SuggestedUpgrade_from_proto : simpl never.
Arguments AppVersionInfo_to_proto : simpl never.
Arguments AppVersionInfo_from_proto : simpl never.
Arguments AppUpgradeEvent_to_proto : simpl never.
Arguments AppUpgradeEvent_from_proto : simpl never.
Arguments map_firewall_error : simpl never.
Arguments relay_info : simpl never.
Arguments endpoint_of : simpl never.

Lemma endpoint_of_reads e reason : endpoint_of (sock_text (address e)) (to_i32 (protocol e)) reason = Ok (Endpoint_seen e).
Proof. unfold endpoint_of, arg_from_str, try_transport_protocol_from_i32. rewrite sock_round_trip. cbn. by rewrite enum_round_trip. Qed.
Lemma Endpoint_reads e : Endpoint_from_proto (Endpoint_to_proto e) = Ok (Endpoint_seen e).
Proof. apply endpoint_of_reads. Qed.
Lemma ObfuscationEndpoint_reads e : ObfuscationEndpoint_from_proto (ObfuscationEndpoint_to_proto e) = Ok (ObfuscationEndpoint_seen e).
Proof.
  unfold ObfuscationEndpoint_from_proto, ObfuscationEndpoint_to_proto. cbn. rewrite Endpoint_reads. cbn. by rewrite enum_round_trip.
Qed.
Lemma ObfuscationInfo_reads i : ObfuscationInfo_from_proto (ObfuscationInfo_to_proto i) = Ok (ObfuscationInfo_seen i).
Proof.
  unfold ObfuscationInfo_from_proto, ObfuscationInfo_to_proto. destruct i as [e|direct obfuscators]; cbn.
  - by rewrite ObfuscationEndpoint_reads.
  - rewrite (transpose_reads Endpoint_to_proto _ Endpoint_seen) by (intros e _; apply Endpoint_reads). cbn.
    rewrite (try_collect_reads ObfuscationEndpoint_to_proto _ ObfuscationEndpoint_seen); [done|].
    apply Forall_true. intros e. apply ObfuscationEndpoint_reads.
Qed.
Lemma ProxyEndpoint_reads p : ProxyEndpoint_from_proto (ProxyEndpoint_to_proto p) = Ok (ProxyEndpoint_seen p).
Proof.
  unfold ProxyEndpoint_from_proto, ProxyEndpoint_to_proto. cbn. rewrite endpoint_of_reads. cbn. by rewrite enum_round_trip.
Qed.
Lemma TunnelEndpoint_reads e : TunnelEndpoint_from_proto (TunnelEndpoint_to_proto e) = Ok (TunnelEndpoint_seen e).
Proof.
  unfold TunnelEndpoint_from_proto, TunnelEndpoint_to_proto, try_tunnel_type_from_i32. cbn. rewrite endpoint_of_reads. cbn.
  rewrite enum_round_trip. cbn.
  rewrite (transpose_reads _ _ ProxyEndpoint_seen) by (intros p _; apply ProxyEndpoint_reads). cbn.
  rewrite (transpose_reads _ _ ObfuscationInfo_seen) by (intros p _; apply ObfuscationInfo_reads). cbn.
  rewrite (transpose_reads _ _ Endpoint_seen) by (intros p _; apply endpoint_of_reads). cbn.
  unfold TunnelEndpoint_seen. by destruct (tunnel_interface e).
Qed.
Lemma GeoIpLocation_reads g : GeoIpLocation_from_proto (GeoIpLocation_to_proto g) = Ok g.
Proof.
  unfold GeoIpLocation_from_proto, GeoIpLocation_to_proto, arg_from_str. cbn.
  rewrite (transpose_reads_same ipv4_text) by (intros; by rewrite ipv4_round_trip). cbn.
  rewrite (transpose_reads_same ipv6_text) by (intros; by rewrite ipv6_round_trip). by destruct g.
Qed.
Lemma FeatureIndicators_reads f : FeatureIndicators_from_proto (FeatureIndicators_to_proto f) = f.
Proof.
  unfold FeatureIndicators_from_proto, FeatureIndicators_to_proto. cbn. rewrite <- (list_to_set_elements_L f) at 2.
  f_equal. induction (elements f) as [|x l IH]; [done|]. cbn. by rewrite enum_find_same, IH.
Qed.
Lemma ErrorState_reads e : ErrorState_from_proto (ErrorState_to_proto e) =
  Ok (tunnel.new (cause_seen (tunnel.cause e)) (tunnel.block_failure e)).
Proof.
  unfold ErrorState_from_proto, cause_from_proto, ErrorState_to_proto, try_auth_failed_from_i32, cause_seen.
  unfold try_firewall_policy_error_from_i32. cbn.
  rewrite (transpose_reads_same map_firewall_error) by (intros b; apply (enum_round_trip b)).
  destruct (tunnel.cause e) as [[reason|]| |p| | |g|]; cbn; rewrite ?enum_round_trip; try done.
  unfold map_firewall_error. cbn. by rewrite enum_round_trip.
Qed.
Lemma relay_info_reads {A} (mk : TunnelEndpoint → option GeoIpLocation → FeatureIndicators → A) endpoint location features :
  relay_info_from_proto mk (Some (relay_info endpoint location)) (Some (FeatureIndicators_to_proto features)) =
  Ok (mk (TunnelEndpoint_seen endpoint) location features).
Proof.
  unfold relay_info_from_proto, relay_info. cbn. rewrite TunnelEndpoint_reads. cbn.
  rewrite (transpose_reads_same _ _ _ GeoIpLocation_reads). cbn. by rewrite FeatureIndicators_reads.
Qed.
Lemma TunnelState_reads s : TunnelState_from_proto (TunnelState_to_proto s) = Ok (TunnelState_seen s).
Proof.
  unfold TunnelState_from_proto, TunnelState_to_proto. destruct s as [location b|e l f|e l f|a|e]; cbn.
  - by rewrite (transpose_reads_same _ _ _ GeoIpLocation_reads).
  - apply relay_info_reads.
  - apply relay_info_reads.
  - by rewrite enum_round_trip.
  - by rewrite ErrorState_reads.
Qed.

Lemma PortRange_reads r : range_ok r → PortRange_from_proto (PortRange_to_proto r) = Ok r.
Proof. intros [Hs He]. unfold PortRange_from_proto, PortRange_to_proto. cbn. rewrite !u16_try_small by done. cbn. by destruct r. Qed.
Lemma OpenVpnEndpoint_reads e : u16_range (ovpn_port e) → OpenVpnEndpoint_from_proto (OpenVpnEndpoint_to_proto e) = Ok e.
Proof.
  intros Hp. unfold OpenVpnEndpoint_from_proto, OpenVpnEndpoint_to_proto, try_transport_protocol_from_i32. cbn.
  rewrite u16_try_small by done. cbn. rewrite enum_round_trip. by destruct e.
Qed.
Lemma ShadowsocksEndpointData_reads d : u16_range (ss_port d) →
  ShadowsocksEndpointData_from_proto (ShadowsocksEndpointData_to_proto d) = Ok d.
Proof.
  intros Hp. unfold ShadowsocksEndpointData_from_proto, ShadowsocksEndpointData_to_proto, try_transport_protocol_from_i32. cbn.
  rewrite u16_try_small by done. cbn. rewrite enum_round_trip. by destruct d.
Qed.
(** A list of values each of which reads back. *)
Lemma list_reads {A B} (enc : A → B) dec (P : A → Prop) l :
  (∀ a, P a → dec (enc a) = Ok a) → Forall P l → try_collect dec (enc <$> l) = Ok l.
Proof.
  intros Hr Hl. rewrite (try_collect_reads enc dec (λ a, a)); [by rewrite list_fmap_id|]. by eapply Forall_impl.
Qed.
Lemma u16_list_reads l reason : Forall u16_range l → try_collect (λ p, u16_try_from p reason) l = Ok l.
Proof.
  intros Hl. rewrite <- (list_fmap_id l) at 1. apply (list_reads (λ p, p) _ u16_range); [|done].
  intros p. apply u16_try_small.
Qed.
Lemma WireguardEndpointData_reads d :
  Forall range_ok (port_ranges d) → Forall range_ok (shadowsocks_port_ranges d) → Forall u16_range (udp2tcp_ports d) →
  WireguardEndpointData_from_proto (WireguardEndpointData_to_proto d) = Ok d.
Proof.
  intros Hr Hs Hp. unfold WireguardEndpointData_from_proto, WireguardEndpointData_to_proto. cbn.
  rewrite (list_reads _ _ _ _ PortRange_reads) by done. cbn. rewrite ipv4_round_trip, ipv6_round_trip. cbn.
  rewrite (list_reads _ _ _ _ PortRange_reads) by done. cbn. rewrite u16_list_reads by done. by destruct d.
Qed.

Lemma addrs_read l : try_collect parse_addr (ip_text <$> l) = Ok l.
Proof. apply try_collect_reads_same. intros a. unfold parse_addr. by rewrite ip_round_trip. Qed.
Lemma Quic_reads q : relay.addr_in q ≠ [] → Quic_from_proto (Quic_to_proto q) = Ok q.
Proof.
  intros Hq. unfold Quic_from_proto, Quic_to_proto. cbn. rewrite addrs_read. cbn. by destruct q as [[|a l] t d].
Qed.
Lemma remove_dups_same {A} `{EqDecision A} (l : list A) : NoDup l → remove_dups l = l.
Proof. induction 1 as [|x l Hx _ IH]; [done|]. cbn. destruct (decide_rel _ x l); [done|]. by rewrite IH. Qed.
Lemma RelayData_reads d : data_ok d → RelayData_from_proto (RelayData_to_proto d) = Ok d.
Proof.
  unfold RelayData_from_proto, RelayData_to_proto, bytes_to_pubkey. destruct d as [| |data]; cbn; [done..|].
  intros (Hk & Ha & Hq). rewrite wg_key_ok by done. cbn. rewrite (transpose_reads Quic_to_proto _ (λ q, q)).
  2: { intros q E. rewrite E in Hq. by apply Quic_reads. }
  cbn. rewrite addrs_read. cbn. rewrite option_fmap_id, remove_dups_same by done. by destruct data.
Qed.
Lemma Relay_reads r : data_ok (relay.endpoint_data r) → Relay_from_proto (Relay_to_proto r) = Ok (Relay_seen r).
Proof.
  intros Hd. unfold Relay_from_proto, Relay_to_proto. cbn. rewrite RelayData_reads by done. cbn.
  rewrite (transpose_reads_same ipv6_text) by (intros; by rewrite ipv6_round_trip). cbn. rewrite ipv4_round_trip. cbn.
  by destruct r as [??????????? []].
Qed.
Lemma city_reads c : city_ok c → RelayListCity_from_proto (RelayListCity_to_proto c) = Ok (city_seen c).
Proof.
  intros Hc. unfold RelayListCity_from_proto, RelayListCity_to_proto. cbn.
  rewrite (try_collect_reads _ _ Relay_seen); [done|]. eapply Forall_impl; [done|]. intros r. apply Relay_reads.
Qed.
Lemma country_reads c : Forall city_ok (cities c) → RelayListCountry_from_proto (RelayListCountry_to_proto c) = Ok (country_seen c).
Proof.
  intros Hc. unfold RelayListCountry_from_proto, RelayListCountry_to_proto. cbn.
  rewrite (try_collect_reads _ _ city_seen); [done|]. eapply Forall_impl; [done|]. intros r. apply city_reads.
Qed.
Lemma RelayList_reads l : RelayList_ok l → RelayList_from_proto (RelayList_to_proto l) = Ok (RelayList_seen l).
Proof.
  intros [Hc Ho Hb Hr Hs Hp]. unfold RelayList_from_proto, RelayList_to_proto. cbn.
  rewrite (try_collect_reads _ _ country_seen).
  2: { eapply Forall_impl; [done|]. intros c. apply country_reads. }
  cbn. unfold OpenVpnEndpointData_from_proto, BridgeEndpointData_from_proto, OpenVpnEndpointData_to_proto, BridgeEndpointData_to_proto.
  cbn. rewrite (list_reads _ _ _ _ OpenVpnEndpoint_reads) by done. cbn.
  rewrite (list_reads _ _ _ _ ShadowsocksEndpointData_reads) by done. cbn.
  by rewrite WireguardEndpointData_reads.
Qed.

Lemma Timestamp_reads t : time_ok t → Timestamp_from_proto (Timestamp_to_proto t) = Ok (seconds t).
Proof. intros Ht. unfold Timestamp_from_proto, Timestamp_to_proto. cbn. by rewrite from_timestamp_ok. Qed.
Lemma Device_reads d : Device_ok d → Device_from_proto (Device_to_proto d) = Ok (Device_seen d).
Proof.
  intros [[Hl Hk] Ht]. unfold Device_from_proto, Device_to_proto, bytes_to_pubkey. cbn. rewrite from_timestamp_ok by done. cbn.
  rewrite wg_key_ok by done. cbn. by rewrite Hk.
Qed.
Lemma DeviceState_reads s : DeviceState_ok s → DeviceState_from_proto (DeviceState_to_proto s) = Ok (DeviceState_seen s).
Proof.
  unfold DeviceState_from_proto, DeviceState_to_proto, AccountAndDevice_to_proto. destruct s as [a| |]; cbn; [|done..].
  intros Hd. by rewrite Device_reads.
Qed.
Lemma DeviceEvent_reads e : DeviceState_ok (new_state e) → DeviceEvent_from_proto (DeviceEvent_to_proto e) = Ok (DeviceEvent_seen e).
Proof.
  intros Hs. unfold DeviceEvent_from_proto, DeviceEvent_to_proto. cbn. rewrite enum_round_trip. cbn. by rewrite DeviceState_reads.
Qed.
Lemma RemoveDeviceEvent_reads e : Forall Device_ok e.2 →
  RemoveDeviceEvent_from_proto (RemoveDeviceEvent_to_proto e) = Ok (e.1, Device_seen <$> e.2).
Proof.
  intros Hd. unfold RemoveDeviceEvent_from_proto, RemoveDeviceEvent_to_proto. cbn.
  rewrite (try_collect_reads _ _ Device_seen); [done|]. eapply Forall_impl; [done|]. intros d. apply Device_reads.
Qed.
Lemma PublicKey_reads k : key_ok (pk_key k) → time_ok (pk_created k) →
  PublicKey_from_proto (PublicKey_to_proto k) = Ok {| pk_key := pk_key k; pk_created := seconds (pk_created k) |}.
Proof.
  intros [Hl Hk] Ht. unfold PublicKey_from_proto, PublicKey_to_proto. cbn. rewrite Timestamp_reads by done. cbn.
  rewrite wg_key_ok by done. cbn. by rewrite Hk.
Qed.
Lemma AccountData_reads d : time_ok (expiry d) →
  AccountData_from_proto (AccountData_to_proto d) = Ok {| account_id := account_id d; expiry := seconds (expiry d) |}.
Proof. intros Ht. unfold AccountData_from_proto, AccountData_to_proto. cbn. by rewrite Timestamp_reads. Qed.
Lemma VoucherSubmission_reads v : time_ok (new_expiry v) →
  VoucherSubmission_from_proto (VoucherSubmission_to_proto v) =
  Ok {| time_added := time_added v; new_expiry := seconds (new_expiry v) |}.
Proof. intros Ht. unfold VoucherSubmission_from_proto, VoucherSubmission_to_proto. cbn. by rewrite Timestamp_reads. Qed.

Lemma SuggestedUpgrade_reads u : installer_ok u → SuggestedUpgrade_from_proto (SuggestedUpgrade_to_proto u) = Ok u.
Proof.
  unfold installer_ok, SuggestedUpgrade_from_proto, SuggestedUpgrade_to_proto. cbn. rewrite version_round_trip.
  destruct u as [v c [p|]]; cbn; [|done]. intros [t Ht]. rewrite Ht. cbn. by rewrite (path_round_trip p).
Qed.
Lemma AppVersionInfo_reads i : option_all installer_ok (suggested_upgrade i) →
  AppVersionInfo_from_proto (AppVersionInfo_to_proto i) = Ok i.
Proof.
  intros Hu. unfold AppVersionInfo_from_proto, AppVersionInfo_to_proto. cbn. rewrite (transpose_reads _ _ (λ u, u)).
  2: { intros u E. rewrite E in Hu. by apply SuggestedUpgrade_reads. }
  cbn. rewrite option_fmap_id. by destruct i.
Qed.
(** Events of an upgrade are read back, with any time left. *)
Lemma AppUpgradeEvent_reads e : (∀ p t, e = DownloadProgress p → time_left p = Some t → 0 ≤ t) →
  AppUpgradeEvent_from_proto (AppUpgradeEvent_to_proto e) = Some (Ok e).
Proof.
  intros Ht. unfold AppUpgradeEvent_from_proto, AppUpgradeEvent_to_proto. destruct e as [[sv pr [t|]]|[]]; cbn; try done.
  - unfold Duration_from_proto, Duration_to_proto. cbn -[Z.pow]. rewrite (Z.mul_comm (t / 10 ^ 9)), <- Z.div_mod by lia.
    rewrite (proj2 (Z.leb_le 0 t)); [done|]. by eapply Ht.
  - by rewrite enum_round_trip.
Qed.
End Conversions.
