(* ===== verification/ManagementInterface.v ===== *)
(** * The management interface (mullvad-daemon/src/management_interface.rs)

    The gRPC service through which clients talk to the daemon.  [rpc] has one definition
    for each method of [ManagementServiceImpl], as built for Linux: a method converts
    its argument, sends the daemon a command with a reply channel, waits, and converts
    the answer; or it is refused before anything is sent.  [serve] is the dispatch of a
    request.  Error texts are left out of a [Status].  [notify] and the events of
    [ManagementInterfaceEventBroadcaster] are below, with the streams of the subscribers. *)

From S2P Require Import Prelude NetTypes TunnelTypes Constraints RelayTypes CustomLists AccessMethods DaemonSettings SettingsPersister.
From S2P Require Import SettingsPatch Versions VersionRouter DeviceService AccountManager TargetState TunnelParams SplitTunnel DaemonTypes ProtoTypes ProtoSettings ProtoState.

Definition status (c : Code) : Status := {| code := c; details := None |}.
Definition invalid_argument : Status := status SettingsPersister.InvalidArgument.
(** [map_protobuf_type_err], and [From<FromProtobufTypeError> for Status]. *)
Definition map_protobuf_type_err (e : FromProtobufTypeError) : Status := match e with InvalidArgument _ => invalid_argument end.

(** ** Errors as statuses *)

Definition UNAUTHORIZED : Z := 401.
Definition FORBIDDEN : Z := 403.
Definition BAD_REQUEST : Z := 400.
Definition TOO_MANY_REQUESTS : Z := 429.
Definition map_rest_error (e : rest.Error) : Status :=
  match e with
  | rest.ApiError st _ =>
      if (st =? UNAUTHORIZED) || (st =? FORBIDDEN) then status Unauthenticated
      else if st =? BAD_REQUEST then invalid_argument
      else if st =? TOO_MANY_REQUESTS then status ResourceExhausted
      else status Unknown
  | rest.TimeoutError => status DeadlineExceeded
  | rest.HyperError | rest.LegacyHyperError => status CodeUnavailable
  | _ => status Unknown
  end.
Definition map_device_error (e : DeviceService.Error) : Status :=
  match e with
  | MaxDevicesReached => status ResourceExhausted
  | InvalidAccount => status Unauthenticated
  | InvalidDevice | NoDevice => status CodeNotFound
  | InvalidVoucher => status CodeNotFound
  | UsedVoucher => status ResourceExhausted
  | DeviceIoError => status CodeUnavailable
  | OtherRestError e => map_rest_error e
  | _ => status Unknown
  end.
Definition map_account_history_error (e : TargetState.HistoryError) : Status :=
  match e with HistoryRead | HistoryWrite => status FailedPrecondition end.
Definition map_version_check_error (e : VersionError) : Status :=
  match e with DownloadVersion | ReadVersionCache | ApiCheck => status CodeUnavailable | _ => status Unknown end.
Definition map_daemon_error (e : Error) : Status :=
  match e with
  | RestError e => map_rest_error e
  | SettingsError e => SettingsPersister.Status_from e
  | AlreadyLoggedIn => status AlreadyExists
  | LoginError e | LogoutError e | KeyRotationError e | ListDevicesError e | RemoveDeviceError e | UpdateDeviceError e
  | VoucherSubmissionError e => map_device_error e
  | HistoryError e => map_account_history_error e
  | NoAccountNumber => status Unauthenticated
  | VersionCheckError e => map_version_check_error e
  | _ => status Unknown
  end.

(** ** Requests and responses *)

Inductive Request : Set :=
| ConnectTunnel | DisconnectTunnel | ReconnectTunnel | GetTunnelState
| ReqPrepareRestart | ReqPrepareRestartV2 (shutdown : bool) | ReqFactoryReset
| ReqGetCurrentVersion | ReqGetVersionInfo | ReqIsPerformingPostUpgrade
| ReqUpdateRelayLocations | ReqGetRelayLocations
| ReqSetRelaySettings (s : proto.RelaySettings) | ReqSetBridgeSettings (s : proto.BridgeSettings)
| ReqSetBridgeState (s : proto.BridgeState) | ReqSetObfuscationSettings (s : proto.ObfuscationSettings)
| ReqGetSettings | ReqResetSettings
| ReqSetAllowLan (b : bool) | ReqSetShowBetaReleases (b : bool) | ReqSetLockdownMode (b : bool) | ReqSetAutoConnect (b : bool)
| ReqSetOpenvpnMssfix (mssfix : Z) | ReqSetWireguardMtu (mtu : Z) | ReqSetWireguardAllowedIps (values : list string)
| ReqSetEnableIpv6 (b : bool) | ReqSetQuantumResistantTunnel (s : proto.QuantumResistantState)
| ReqSetEnableDaita (b : bool) | ReqSetDaitaDirectOnly (b : bool) | ReqSetDaitaSettings (s : proto.DaitaSettings)
| ReqSetDnsOptions (o : proto.DnsOptions) | ReqSetRelayOverride (o : proto.RelayOverride) | ReqClearAllRelayOverrides
| ReqSetEnableRecents (b : bool)
| ReqCreateNewAccount | ReqLoginAccount (number : string) | ReqLogoutAccount | ReqGetAccountData (number : string)
| ReqGetAccountHistory | ReqClearAccountHistory | ReqGetWwwAuthToken | ReqSubmitVoucher (voucher : string)
| ReqGetDevice | ReqUpdateDevice | ReqListDevices (number : string) | ReqRemoveDevice (removal : proto.DeviceRemoval)
| ReqSetWireguardRotationInterval (d : proto.Duration) | ReqResetWireguardRotationInterval
| ReqRotateWireguardKey | ReqGetWireguardKey
| ReqCreateCustomList (l : proto.NewCustomList) | ReqDeleteCustomList (id : string) | ReqUpdateCustomList (l : proto.CustomList)
| ReqClearCustomLists
| ReqAddApiAccessMethod (m : proto.NewAccessMethodSetting) | ReqRemoveApiAccessMethod (id : proto.Uuid)
| ReqSetApiAccessMethod (id : proto.Uuid) | ReqUpdateApiAccessMethod (m : proto.AccessMethodSetting)
| ReqClearCustomApiAccessMethods | ReqGetCurrentApiAccessMethod | ReqTestCustomApiAccessMethod (p : proto.CustomProxy)
| ReqTestApiAccessMethodById (id : proto.Uuid)
| ReqSplitTunnelIsEnabled | ReqGetSplitTunnelProcesses | ReqAddSplitTunnelProcess (pid : Z) | ReqRemoveSplitTunnelProcess (pid : Z)
| ReqClearSplitTunnelProcesses
| ReqAddSplitTunnelApp (app : string) | ReqRemoveSplitTunnelApp (app : string) | ReqClearSplitTunnelApps
| ReqSetSplitTunnelState (b : bool) | ReqGetExcludedProcesses | ReqNeedFullDiskPermissions | ReqCheckVolumes
| ReqApplyJsonSettings (blob : string) | ReqExportJsonSettings | ReqInitPlayPurchase | ReqVerifyPlayPurchase
| ReqGetFeatureIndicators | ReqDisableRelay (relay : string) | ReqEnableRelay (relay : string)
| ReqAppUpgrade | ReqAppUpgradeAbort | ReqGetAppUpgradeCacheDir.

Inductive Response : Type :=
| RUnit | RBool (b : bool) | RText (s : string) | RState (s : proto.TunnelState) | RSettings (s : proto.Settings)
| RRelays (l : proto.RelayList) | RAccountData (d : proto.AccountData) | RHistory (number : option string)
| RVoucher (v : proto.VoucherSubmission) | RDevice (s : proto.DeviceState) | RDevices (l : list proto.Device)
| RKey (k : proto.PublicKey) | RUuid (u : proto.Uuid) | RMethod (s : proto.AccessMethodSetting)
| RVersionInfo (i : proto.AppVersionInfo) | RPids (pids : list Z) | RFeatures (f : proto.FeatureIndicators)
| RExcluded.

Abbreviation answered := (option (result Status Response)).
(** What a method does with a request whose reply channel is [tx]: ask the daemon and
    convert its reply, which is of the type of the channel; tell it and answer at once; answer
    without it; or refuse. *)
Inductive Handler : Type :=
| Ask (c : DaemonCommand) (convert : Reply → answered)
| Tell (c : DaemonCommand)
| Answer (r : Response)
| Refuse (s : Status).
Definition require {A} (m : conv A) (k : A → Handler) : Handler :=
  match m with Ok a => k a | Err e => Refuse (map_protobuf_type_err e) end.
(** The command that reaches the daemon. *)
Definition sent (h : Handler) : option DaemonCommand := match h with Ask c _ | Tell c => Some c | _ => None end.

Module rpc.
Section Methods.
Context `{IpText} `{!WireText} `{IpNetworkCrate} `{Chrono} `{VersionText}.
Context (key_bytes : string → list Z).
Context (tx : Tx).

(** ** Converting answers *)

Definition bool_reply (r : Reply) : answered := match r with ReBool b => Some (Ok (RBool b)) | _ => None end.
(** [wait_for_result(rx).await??]: an error of the settings. *)
Definition saved_reply (r : Reply) : answered :=
  match r with ReSaved r => Some (map_err SettingsPersister.Status_from ((λ _, RUnit) <$> r)) | _ => None end.
Definition unit_reply (r : Reply) : answered :=
  match r with ReUnit r => Some (map_err map_daemon_error ((λ _, RUnit) <$> r)) | _ => None end.
Definition text_reply (r : Reply) : answered :=
  match r with ReText r => Some (map_err map_daemon_error (RText <$> r)) | _ => None end.
Definition test_reply (r : Reply) : answered :=
  match r with ReTest r => Some (map_err map_daemon_error (RBool <$> r)) | _ => None end.
Definition pid_reply (r : Reply) : answered :=
  match r with RePid r => Some (map_err (λ _, status FailedPrecondition) ((λ _, RUnit) <$> r)) | _ => None end.
Definition done_reply (r : Reply) : answered := match r with ReDone => Some (Ok RUnit) | _ => None end.
(** The error is one of a version check. *)
Definition version_reply (r : Reply) : answered :=
  match r with ReUnit r => Some (map_err map_daemon_error ((λ _, RUnit) <$> r)) | _ => None end.

(** ** The tunnel and the daemon *)

Definition connect_tunnel : Handler := Ask (SetTargetState tx Secured) bool_reply.
Definition disconnect_tunnel : Handler := Ask (SetTargetState tx Unsecured) bool_reply.
Definition reconnect_tunnel : Handler := Ask (Reconnect tx) bool_reply.
Definition get_tunnel_state : Handler :=
  Ask (GetState tx) (λ r, match r with ReState s => Some (Ok (RState (TunnelState_to_proto s))) | _ => None end).
Definition prepare_restart : Handler := Tell (PrepareRestart false).
Definition prepare_restart_v2 (shutdown : bool) : Handler := Tell (PrepareRestart shutdown).
Definition factory_reset : Handler := Ask (FactoryReset tx) unit_reply.
Definition get_current_version : Handler :=
  Ask (GetCurrentVersion tx) (λ r, match r with ReVersion v => Some (Ok (RText (version_text v))) | _ => None end).
Definition get_version_info : Handler :=
  Ask (GetVersionInfo tx) (λ r, match r with
    | ReVersionInfo r => Some (map_err map_daemon_error ((λ i, RVersionInfo (AppVersionInfo_to_proto i)) <$> r))
    | _ => None end).
Definition is_performing_post_upgrade : Handler := Ask (IsPerformingPostUpgrade tx) bool_reply.

(** ** Relays and constraints *)

Definition update_relay_locations : Handler := Tell UpdateRelayLocations.
Definition set_relay_settings (request : proto.RelaySettings) : Handler :=
  require (RelaySettings_from_proto request) (λ constraints_update, Ask (SetRelaySettings tx constraints_update) saved_reply).
Definition get_relay_locations : Handler :=
  Ask (GetRelayLocations tx) (λ r, match r with ReRelays l => Some (Ok (RRelays (RelayList_to_proto l))) | _ => None end).
Definition set_bridge_settings (request : proto.BridgeSettings) : Handler :=
  require (BridgeSettings_from_proto request) (λ settings, Ask (SetBridgeSettings tx settings) unit_reply).
Definition set_obfuscation_settings (request : proto.ObfuscationSettings) : Handler :=
  require (ObfuscationSettings_from_proto request) (λ settings, Ask (SetObfuscationSettings tx settings) saved_reply).
Definition set_bridge_state (request : proto.BridgeState) : Handler :=
  require (BridgeState_from_proto request) (λ bridge_state, Ask (SetBridgeState tx bridge_state) saved_reply).

(** ** Settings *)

Definition get_settings : Handler :=
  Ask (GetSettings tx) (λ r, match r with ReSettings s => Some (Ok (RSettings (Settings_to_proto s))) | _ => None end).
Definition reset_settings : Handler := Ask (ResetSettings tx) saved_reply.
Definition set_allow_lan (allow_lan : bool) : Handler := Ask (SetAllowLan tx allow_lan) saved_reply.
Definition set_show_beta_releases (enabled : bool) : Handler := Ask (SetShowBetaReleases tx enabled) saved_reply.
Definition set_lockdown_mode (lockdown_mode : bool) : Handler := Ask (SetLockdownMode tx lockdown_mode) saved_reply.
Definition set_auto_connect (auto_connect : bool) : Handler := Ask (SetAutoConnect tx auto_connect) saved_reply.
(** 0 stands for none; a number is cut to 16 bits. *)
Definition set_openvpn_mssfix (mssfix : Z) : Handler :=
  let mssfix := if negb (mssfix =? 0) then Some (as_u16 mssfix) else None in
  Ask (SetOpenVpnMssfix tx mssfix) saved_reply.
Definition set_wireguard_mtu (mtu : Z) : Handler :=
  let mtu := if negb (mtu =? 0) then Some (as_u16 mtu) else None in
  Ask (SetWireguardMtu tx mtu) saved_reply.
Definition set_enable_ipv6 (enable_ipv6 : bool) : Handler := Ask (SetEnableIpv6 tx enable_ipv6) saved_reply.
Definition set_quantum_resistant_tunnel (request : proto.QuantumResistantState) : Handler :=
  require (QuantumResistantState_from_proto request) (λ state, Ask (SetQuantumResistantTunnel tx state) saved_reply).
Definition set_enable_daita (daita_enabled : bool) : Handler := Ask (SetEnableDaita tx daita_enabled) saved_reply.
Definition set_daita_direct_only (direct_only_enabled : bool) : Handler :=
  Ask (SetDaitaUseMultihopIfNecessary tx (negb direct_only_enabled)) saved_reply.
Definition set_daita_settings (request : proto.DaitaSettings) : Handler :=
  Ask (SetDaitaSettings tx (DaitaSettings_from_proto request)) saved_reply.
Definition set_dns_options (request : proto.DnsOptions) : Handler :=
  require (DnsOptions_from_proto request) (λ options, Ask (SetDnsOptions tx options) saved_reply).
Definition set_relay_override (request : proto.RelayOverride) : Handler :=
  require (RelayOverride_from_proto request) (λ relay_override, Ask (SetRelayOverride tx relay_override) saved_reply).
Definition clear_all_relay_overrides : Handler := Ask (ClearAllRelayOverrides tx) saved_reply.
Definition set_enable_recents (enable_recents : bool) : Handler := Ask (SetEnableRecents tx enable_recents) saved_reply.

(** ** Accounts and devices *)

Definition create_new_account : Handler := Ask (CreateNewAccount tx) text_reply.
Definition login_account (account_number : string) : Handler := Ask (LoginAccount tx account_number) unit_reply.
Definition logout_account : Handler := Ask (LogoutAccount tx) unit_reply.
Definition get_account_data (account_number : string) : Handler :=
  Ask (GetAccountData tx account_number) (λ r, match r with
    | ReAccountData r => Some (map_err map_rest_error ((λ d, RAccountData (AccountData_to_proto d)) <$> r))
    | _ => None end).
Definition get_account_history : Handler :=
  Ask (GetAccountHistory tx) (λ r, match r with ReHistory number => Some (Ok (RHistory number)) | _ => None end).
Definition clear_account_history : Handler := Ask (ClearAccountHistory tx) unit_reply.
Definition get_www_auth_token : Handler := Ask (GetWwwAuthToken tx) text_reply.
Definition submit_voucher (voucher : string) : Handler :=
  Ask (SubmitVoucher tx voucher) (λ r, match r with
    | ReVoucher r => Some (map_err map_daemon_error ((λ v, RVoucher (VoucherSubmission_to_proto v)) <$> r))
    | _ => None end).
Definition get_device : Handler :=
  Ask (GetDevice tx) (λ r, match r with
    | ReDevice r => Some (map_err map_daemon_error ((λ s, RDevice (DeviceState_to_proto key_bytes s)) <$> r))
    | _ => None end).
Definition update_device : Handler := Ask (UpdateDevice tx) unit_reply.
Definition list_devices (token : string) : Handler :=
  Ask (ListDevices tx token) (λ r, match r with
    | ReDevices r => Some (map_err map_daemon_error ((λ l, RDevices (DeviceList_to_proto key_bytes l)) <$> r))
    | _ => None end).
Definition remove_device (removal : proto.DeviceRemoval) : Handler :=
  Ask (RemoveDevice tx (proto.dr_account_number removal) (proto.dr_device_id removal)) unit_reply.

(** ** WireGuard keys *)

Definition set_wireguard_rotation_interval (request : proto.Duration) : Handler :=
  match Duration_from_proto request with
  | None => Refuse invalid_argument
  | Some duration =>
      match RotationInterval_new duration with
      | Err _ => Refuse invalid_argument
      | Ok interval => Ask (SetWireguardRotationInterval tx (Some interval)) saved_reply
      end
  end.
Definition reset_wireguard_rotation_interval : Handler := Ask (SetWireguardRotationInterval tx None) saved_reply.
Definition rotate_wireguard_key : Handler := Ask (RotateWireguardKey tx) unit_reply.
Definition get_wireguard_key : Handler :=
  Ask (GetWireguardKey tx) (λ r, match r with
    | ReKey (Ok (Some key)) => Some (Ok (RKey (PublicKey_to_proto key_bytes key)))
    | ReKey (Ok None) => Some (Err (status CodeNotFound))
    | ReKey (Err e) => Some (Err (map_daemon_error e))
    | _ => None end).
Definition set_wireguard_allowed_ips (allowed_ips_str : list string) : Handler :=
  match AllowedIps_parse allowed_ips_str with
  | Err _ => Refuse invalid_argument
  | Ok nets => Ask (SetWireguardAllowedIps tx (to_constraint {| allowed_nets := nets |})) saved_reply
  end.

(** ** Custom lists *)

Definition create_custom_list (request : proto.NewCustomList) : Handler :=
  require (try_collect Geo_from_proto (proto.ncl_locations request)) (λ locations,
    Ask (CreateCustomList tx (proto.ncl_name request) (list_to_set locations)) (λ r, match r with
      | ReId r => Some (map_err map_daemon_error ((λ id, RText (uuid_text id)) <$> r))
      | _ => None end)).
Definition delete_custom_list (request : string) : Handler :=
  match uuid_parse request with
  | None => Refuse invalid_argument
  | Some id => Ask (DeleteCustomList tx id) unit_reply
  end.
Definition update_custom_list (request : proto.CustomList) : Handler :=
  require (CustomList_from_proto request) (λ custom_list, Ask (UpdateCustomList tx custom_list) unit_reply).
Definition clear_custom_lists : Handler := Ask (ClearCustomLists tx) unit_reply.

(** ** Access methods *)

Definition add_api_access_method (request : proto.NewAccessMethodSetting) : Handler :=
  match proto.nam_access_method request with
  | None => Refuse invalid_argument
  | Some m =>
      require (AccessMethod_from_proto m) (λ access_method,
        Ask (AddApiAccessMethod tx (proto.nam_name request) (proto.nam_enabled request) access_method) (λ r, match r with
          | ReId r => Some (map_err map_daemon_error ((λ id, RUuid (Uuid_to_proto id)) <$> r))
          | _ => None end))
  end.
Definition remove_api_access_method (request : proto.Uuid) : Handler :=
  require (Uuid_from_proto request) (λ api_access_method, Ask (RemoveApiAccessMethod tx api_access_method) unit_reply).
Definition set_api_access_method (request : proto.Uuid) : Handler :=
  require (Uuid_from_proto request) (λ api_access_method, Ask (SetApiAccessMethod tx api_access_method) unit_reply).
Definition update_api_access_method (request : proto.AccessMethodSetting) : Handler :=
  require (AccessMethodSetting_from_proto request) (λ update, Ask (UpdateApiAccessMethod tx update) unit_reply).
Definition clear_custom_api_access_methods : Handler := Ask (ClearCustomApiAccessMethods tx) unit_reply.
Definition get_current_api_access_method : Handler :=
  Ask (GetCurrentAccessMethod tx) (λ r, match r with
    | ReMethod r => Some (map_err map_daemon_error ((λ s, RMethod (AccessMethodSetting_to_proto s)) <$> r))
    | _ => None end).
Definition test_custom_api_access_method (config : proto.CustomProxy) : Handler :=
  require (CustomProxy_from_proto config) (λ proxy, Ask (TestCustomApiAccessMethod tx proxy) test_reply).
Definition test_api_access_method_by_id (request : proto.Uuid) : Handler :=
  require (Uuid_from_proto request) (λ api_access_method, Ask (TestApiAccessMethodById tx api_access_method) test_reply).

(** ** Split tunnelling *)

Definition split_tunnel_is_enabled : Handler := Ask (SplitTunnelIsEnabled tx) bool_reply.
Definition get_split_tunnel_processes : Handler :=
  Ask (GetSplitTunnelProcesses tx) (λ r, match r with
    | RePids r => Some (map_err (λ _, status FailedPrecondition) (RPids <$> r))
    | _ => None end).
Definition add_split_tunnel_process (pid : Z) : Handler := Ask (AddSplitTunnelProcess tx pid) pid_reply.
Definition remove_split_tunnel_process (pid : Z) : Handler := Ask (RemoveSplitTunnelProcess tx pid) pid_reply.
Definition clear_split_tunnel_processes : Handler := Ask (ClearSplitTunnelProcesses tx) pid_reply.
Definition add_split_tunnel_app (_ : string) : Handler := Answer RUnit.
Definition remove_split_tunnel_app (_ : string) : Handler := Answer RUnit.
Definition clear_split_tunnel_apps : Handler := Answer RUnit.
Definition set_split_tunnel_state (_ : bool) : Handler := Answer RUnit.
Definition get_excluded_processes : Handler := Answer RExcluded.
Definition need_full_disk_permissions : Handler := Answer (RBool false).
Definition check_volumes : Handler := Answer RUnit.

(** ** Patches, payments, relays, upgrades *)

Definition apply_json_settings (blob : string) : Handler :=
  Ask (ApplyJsonSettings tx blob) (λ r, match r with
    | RePatch r => Some (map_err patch.Status_from ((λ _, RUnit) <$> r))
    | _ => None end).
Definition export_json_settings : Handler :=
  Ask (ExportJsonSettings tx) (λ r, match r with
    | ReExport r => Some (map_err patch.Status_from (RText <$> r))
    | _ => None end).
Definition init_play_purchase : Handler := Answer (RText EmptyString).
Definition verify_play_purchase : Handler := Answer RUnit.
Definition get_feature_indicators : Handler :=
  Ask (GetFeatureIndicators tx) (λ r, match r with
    | ReFeatures f => Some (Ok (RFeatures (FeatureIndicators_to_proto f)))
    | _ => None end).
Definition disable_relay (relay : string) : Handler := Ask (DisableRelay tx relay) done_reply.
Definition enable_relay (relay : string) : Handler := Ask (EnableRelay tx relay) done_reply.
Definition app_upgrade : Handler := Ask (AppUpgrade tx) version_reply.
Definition app_upgrade_abort : Handler := Ask (AppUpgradeAbort tx) version_reply.
Definition get_app_upgrade_cache_dir : Handler :=
  Ask (GetAppUpgradeCacheDir tx) (λ r, match r with RePath p => Some (Ok (RText p)) | _ => None end).

Definition serve (rq : Request) : Handler :=
  match rq with
  | ConnectTunnel => connect_tunnel
  | DisconnectTunnel => disconnect_tunnel
  | ReconnectTunnel => reconnect_tunnel
  | GetTunnelState => get_tunnel_state
  | ReqPrepareRestart => prepare_restart
  | ReqPrepareRestartV2 shutdown => prepare_restart_v2 shutdown
  | ReqFactoryReset => factory_reset
  | ReqGetCurrentVersion => get_current_version
  | ReqGetVersionInfo => get_version_info
  | ReqIsPerformingPostUpgrade => is_performing_post_upgrade
  | ReqUpdateRelayLocations => update_relay_locations
  | ReqGetRelayLocations => get_relay_locations
  | ReqSetRelaySettings s => set_relay_settings s
  | ReqSetBridgeSettings s => set_bridge_settings s
  | ReqSetBridgeState s => set_bridge_state s
  | ReqSetObfuscationSettings s => set_obfuscation_settings s
  | ReqGetSettings => get_settings
  | ReqResetSettings => reset_settings
  | ReqSetAllowLan b => set_allow_lan b
  | ReqSetShowBetaReleases b => set_show_beta_releases b
  | ReqSetLockdownMode b => set_lockdown_mode b
  | ReqSetAutoConnect b => set_auto_connect b
  | ReqSetOpenvpnMssfix mssfix => set_openvpn_mssfix mssfix
  | ReqSetWireguardMtu mtu => set_wireguard_mtu mtu
  | ReqSetWireguardAllowedIps values => set_wireguard_allowed_ips values
  | ReqSetEnableIpv6 b => set_enable_ipv6 b
  | ReqSetQuantumResistantTunnel s => set_quantum_resistant_tunnel s
  | ReqSetEnableDaita b => set_enable_daita b
  | ReqSetDaitaDirectOnly b => set_daita_direct_only b
  | ReqSetDaitaSettings s => set_daita_settings s
  | ReqSetDnsOptions o => set_dns_options o
  | ReqSetRelayOverride o => set_relay_override o
  | ReqClearAllRelayOverrides => clear_all_relay_overrides
  | ReqSetEnableRecents b => set_enable_recents b
  | ReqCreateNewAccount => create_new_account
  | ReqLoginAccount number => login_account number
  | ReqLogoutAccount => logout_account
  | ReqGetAccountData number => get_account_data number
  | ReqGetAccountHistory => get_account_history
  | ReqClearAccountHistory => clear_account_history
  | ReqGetWwwAuthToken => get_www_auth_token
  | ReqSubmitVoucher voucher => submit_voucher voucher
  | ReqGetDevice => get_device
  | ReqUpdateDevice => update_device
  | ReqListDevices number => list_devices number
  | ReqRemoveDevice removal => remove_device removal
  | ReqSetWireguardRotationInterval d => set_wireguard_rotation_interval d
  | ReqResetWireguardRotationInterval => reset_wireguard_rotation_interval
  | ReqRotateWireguardKey => rotate_wireguard_key
  | ReqGetWireguardKey => get_wireguard_key
  | ReqCreateCustomList l => create_custom_list l
  | ReqDeleteCustomList id => delete_custom_list id
  | ReqUpdateCustomList l => update_custom_list l
  | ReqClearCustomLists => clear_custom_lists
  | ReqAddApiAccessMethod m => add_api_access_method m
  | ReqRemoveApiAccessMethod id => remove_api_access_method id
  | ReqSetApiAccessMethod id => set_api_access_method id
  | ReqUpdateApiAccessMethod m => update_api_access_method m
  | ReqClearCustomApiAccessMethods => clear_custom_api_access_methods
  | ReqGetCurrentApiAccessMethod => get_current_api_access_method
  | ReqTestCustomApiAccessMethod p => test_custom_api_access_method p
  | ReqTestApiAccessMethodById id => test_api_access_method_by_id id
  | ReqSplitTunnelIsEnabled => split_tunnel_is_enabled
  | ReqGetSplitTunnelProcesses => get_split_tunnel_processes
  | ReqAddSplitTunnelProcess pid => add_split_tunnel_process pid
  | ReqRemoveSplitTunnelProcess pid => remove_split_tunnel_process pid
  | ReqClearSplitTunnelProcesses => clear_split_tunnel_processes
  | ReqAddSplitTunnelApp app => add_split_tunnel_app app
  | ReqRemoveSplitTunnelApp app => remove_split_tunnel_app app
  | ReqClearSplitTunnelApps => clear_split_tunnel_apps
  | ReqSetSplitTunnelState b => set_split_tunnel_state b
  | ReqGetExcludedProcesses => get_excluded_processes
  | ReqNeedFullDiskPermissions => need_full_disk_permissions
  | ReqCheckVolumes => check_volumes
  | ReqApplyJsonSettings blob => apply_json_settings blob
  | ReqExportJsonSettings => export_json_settings
  | ReqInitPlayPurchase => init_play_purchase
  | ReqVerifyPlayPurchase => verify_play_purchase
  | ReqGetFeatureIndicators => get_feature_indicators
  | ReqDisableRelay relay => disable_relay relay
  | ReqEnableRelay relay => enable_relay relay
  | ReqAppUpgrade => app_upgrade
  | ReqAppUpgradeAbort => app_upgrade_abort
  | ReqGetAppUpgradeCacheDir => get_app_upgrade_cache_dir
  end.
End Methods.
End rpc.

(** ** Events for the subscribers *)

Section Events.
Context `{IpText} `{!WireText} `{Chrono} `{VersionText}.
Context (key_bytes : string → list Z).

(** [notify_new_state], [notify_settings] and the others: the event of a notification. *)
Definition to_event (n : Notification) : proto.DaemonEvent :=
  {| proto.dae_event := Some match n with
       | NotifyState s => proto.EvTunnelState (TunnelState_to_proto s)
       | NotifySettings s => proto.EvSettings (Settings_to_proto s)
       | NotifyRelayList l => proto.EvRelayList (RelayList_to_proto l)
       | NotifyAppVersion info => proto.EvVersionInfo (AppVersionInfo_to_proto info)
       | NotifyDevice e => proto.EvDevice (DeviceEvent_to_proto key_bytes e)
       | NotifyRemoveDevice number devices => proto.EvRemoveDevice (RemoveDeviceEvent_to_proto key_bytes (number, devices))
       | NotifyAccessMethod s => proto.EvNewAccessMethod (AccessMethodSetting_to_proto s)
       end |}.
End Events.

Module broadcast.
Section Broadcast.
Context {Event : Type}.

(** The vector of senders, by the number of the stream each sends to, and the streams:
    whether the client still listens, and what has been put on it. *)
Record Stream : Type := { open : bool; received : list Event }.
Record Hub : Type := { subscriptions : list nat; streams : list Stream }.
Definition start : Hub := {| subscriptions := []; streams := [] |}.

Definition events_listen (h : Hub) : Hub :=
  {| subscriptions := subscriptions h ++ [length (streams h)]; streams := streams h ++ [{| open := true; received := [] |}] |}.
(** [tx.send]: fails if the receiver is gone. *)
Definition send (e : Event) (i : nat) (ss : list Stream) : bool * list Stream :=
  match ss !! i with
  | Some s => if open s then (true, <[i := {| open := true; received := received s ++ [e] |}]> ss) else (false, ss)
  | None => (false, ss)
  end.
(** [subscriptions.retain(|tx| tx.send(value).is_ok())]. *)
Fixpoint retain (e : Event) (subs : list nat) (ss : list Stream) : list nat * list Stream :=
  match subs with
  | [] => ([], ss)
  | i :: subs =>
      let '(ok, ss) := send e i ss in
      let '(subs, ss) := retain e subs ss in
      (if ok then i :: subs else subs, ss)
  end.
Definition notify (e : Event) (h : Hub) : Hub :=
  let '(subs, ss) := retain e (subscriptions h) (streams h) in {| subscriptions := subs; streams := ss |}.
(** A client goes away. *)
Definition close (i : nat) (h : Hub) : Hub :=
  {| subscriptions := subscriptions h;
     streams := alter (λ s, {| open := false; received := received s |}) i (streams h) |}.

Inductive Op : Type := Listen | Notify (e : Event) | Close (i : nat).
Definition step (h : Hub) (o : Op) : Hub :=
  match o with Listen => events_listen h | Notify e => notify e h | Close i => close i h end.
Definition run (ops : list Op) : Hub := foldl step start ops.

(** ** What a subscriber is promised *)

(** The stream of subscriber [i], on its own: it starts with the [i]-th subscription, gets every
    event from then on, in order, and ends when the client goes. *)
Definition own_step (i : nat) (st : nat * option Stream) (o : Op) : nat * option Stream :=
  match o with
  | Listen => (S st.1, if decide (st.1 = i) then Some {| open := true; received := [] |} else st.2)
  | Notify e => (st.1, (λ s, if open s then {| open := true; received := received s ++ [e] |} else s) <$> st.2)
  | Close j => (st.1, if decide (j = i) then (λ s, {| open := false; received := received s |}) <$> st.2 else st.2)
  end.
Definition own_stream (i : nat) (ops : list Op) : option Stream := (foldl (own_step i) (0%nat, None) ops).2.

(** Exactly the open streams are subscribed, once. *)
Record hub_ok (h : Hub) : Prop := {
  hub_nodup : NoDup (subscriptions h);
  hub_range : Forall (λ i, (i < length (streams h))%nat) (subscriptions h);
  hub_open i s : streams h !! i = Some s → open s = true → i ∈ subscriptions h
}.

Lemma send_length e i ss : length (send e i ss).2 = length ss.
Proof. unfold send. destruct (ss !! i) as [s|]; [|done]. destruct (open s); cbn; [by rewrite length_insert|done]. Qed.
Lemma retain_length e subs ss : length (retain e subs ss).2 = length ss.
Proof.
  revert ss. induction subs as [|i subs IH]; intros ss; cbn; [done|].
  pose proof (send_length e i ss) as El. destruct (send e i ss) as [ok ss1]. specialize (IH ss1).
  destruct (retain e subs ss1). cbn in *. congruence.
Qed.
Definition put (e : Event) (s : Stream) : Stream :=
  if open s then {| open := true; received := received s ++ [e] |} else s.
Lemma send_lookup e i ss j : (send e i ss).2 !! j = (if decide (j = i) then put e else λ s, s) <$> ss !! j.
Proof.
  unfold send, put. destruct (ss !! i) as [s|] eqn:E.
  - destruct (open s) eqn:Eo; cbn; case_decide; subst; rewrite ?E; cbn; rewrite ?Eo, ?option_fmap_id; try done.
    + rewrite list_lookup_insert_eq; [done|]. by eapply lookup_lt_Some.
    + by rewrite list_lookup_insert_ne.
  - case_decide; subst; [by rewrite E|]. cbn. by rewrite option_fmap_id.
Qed.
Lemma retain_lookup e subs ss j : NoDup subs →
  (retain e subs ss).2 !! j = (if decide (j ∈ subs) then put e else λ s, s) <$> ss !! j.
Proof.
  revert ss. induction subs as [|i subs IH]; intros ss Hn; cbn.
  - rewrite decide_False by apply not_elem_of_nil. by rewrite option_fmap_id.
  - apply NoDup_cons in Hn as [Hi Hn]. pose proof (send_lookup e i ss j) as El. destruct (send e i ss) as [ok ss1]. cbn in El.
    specialize (IH ss1 Hn). destruct (retain e subs ss1) as [subs' ss2]. cbn in *. rewrite IH, El.
    destruct (ss !! j) as [s|]; [|done]. cbn. f_equal.
    destruct (decide (j = i)) as [->|Hne]; [by rewrite decide_False, decide_True by set_solver|].
    destruct (decide (j ∈ subs)); [by rewrite decide_True by set_solver|by rewrite decide_False by set_solver].
Qed.
(** The senders that are kept: those of open streams. *)
Lemma retain_kept e subs ss : NoDup subs →
  (retain e subs ss).1 = List.filter (λ i, match ss !! i with Some s => open s | None => false end) subs.
Proof.
  revert ss. induction subs as [|i subs IH]; intros ss Hn; cbn; [done|]. apply NoDup_cons in Hn as [Hi Hn].
  assert ((send e i ss).1 = match ss !! i with Some s => open s | None => false end) as E1.
  { unfold send. destruct (ss !! i) as [s|]; [|done]. by destruct (open s). }
  pose proof (send_lookup e i ss) as El. destruct (send e i ss) as [ok ss1]. cbn in *. subst ok.
  pose proof (IH ss1 Hn) as E2. destruct (retain e subs ss1) as [subs' ss2]. cbn in *. subst subs'.
  assert (List.filter (λ i, match ss1 !! i with Some s => open s | None => false end) subs =
          List.filter (λ i, match ss !! i with Some s => open s | None => false end) subs) as ->.
  { apply filter_ext_in. intros j Hj%list_elem_of_In. rewrite El, decide_False by (by intros ->).
    by rewrite option_fmap_id. }
  by destruct (match ss !! i with Some s => open s | None => false end).
Qed.

Lemma hub_step_ok h o : hub_ok h → hub_ok (step h o).
Proof.
  intros [Hn Hr Ho]. destruct o as [|e|j]; cbn.
  - split; cbn.
    + apply NoDup_app. split; [done|]. split; [|apply NoDup_singleton]. intros x Hx ->%list_elem_of_singleton.
      rewrite Forall_forall in Hr. specialize (Hr _ Hx). lia.
    + rewrite length_app. apply Forall_app. split; [eapply Forall_impl; [done|]; cbn; lia|]. repeat constructor. cbn. lia.
    + intros i s Hi Hs. apply elem_of_app. apply lookup_app_Some in Hi as [Hi|[Hl Hi]]; [left; eauto|right].
      apply list_lookup_singleton_Some in Hi as [Hi _]. apply list_elem_of_singleton. lia.
  - unfold notify. pose proof (retain_kept e (subscriptions h) (streams h) Hn) as Ek.
    pose proof (retain_lookup e (subscriptions h) (streams h)) as El. pose proof (retain_length e (subscriptions h) (streams h)) as Elen.
    destruct (retain e _ _) as [subs ss]. cbn in *. subst subs. split; cbn.
    + rewrite NoDup_ListNoDup in *. by apply List.NoDup_filter.
    + rewrite Elen. rewrite Forall_forall in *. intros i Hi. apply Hr. rewrite list_elem_of_In in *. by apply filter_In in Hi as [? _].
    + intros i s Hi Hs. rewrite El in Hi by done. destruct (streams h !! i) as [s0|] eqn:E; [|done]. cbn in Hi.
      assert (open s0 = true) as Hs0.
      { destruct (decide _); injection Hi as <-; [|done]. unfold put in Hs. destruct (open s0) eqn:E0; [done|by rewrite E0 in Hs]. }
      rewrite list_elem_of_In. apply filter_In. rewrite E. split; [|done]. rewrite <- list_elem_of_In. by eapply Ho.
  - split; cbn; [done|by rewrite length_alter|]. intros i s Hi Hs. destruct (decide (j = i)) as [->|Hne].
    + rewrite list_lookup_alter_eq in Hi. destruct (streams h !! i); [|done]. by injection Hi as <-.
    + rewrite list_lookup_alter_ne in Hi by done. by eapply Ho.
Qed.

(** One step of the hub is one step of each stream. *)
Lemma hub_step_own h o i : hub_ok h →
  (length (streams (step h o)), streams (step h o) !! i) = own_step i (length (streams h), streams h !! i) o.
Proof.
  intros [Hn Hr Ho]. destruct o as [|e|j]; cbn.
  - rewrite length_app. cbn. f_equal; [lia|]. case_decide as Hd.
    + subst i. by rewrite list_lookup_middle.
    + destruct (decide (i < length (streams h))%nat); [by rewrite lookup_app_l|].
      rewrite (lookup_ge_None_2 (streams h)), lookup_ge_None_2 by (rewrite ?length_app; cbn; lia). done.
  - unfold notify. pose proof (retain_lookup e (subscriptions h) (streams h) i Hn) as El.
    pose proof (retain_length e (subscriptions h) (streams h)) as Elen. destruct (retain e _ _) as [subs ss]. cbn in *.
    rewrite Elen, El. f_equal. destruct (streams h !! i) as [s|] eqn:E; [|done]. cbn. f_equal. case_decide as Hd; [done|].
    destruct (open s) eqn:Eo; [|done]. exfalso. by eapply Hd, Ho.
  - rewrite length_alter. f_equal. case_decide as Hd.
    + subst j. by rewrite list_lookup_alter_eq.
    + by rewrite list_lookup_alter_ne.
Qed.

Lemma run_own ops i : hub_ok (run ops) ∧
  (length (streams (run ops)), streams (run ops) !! i) = foldl (own_step i) (0%nat, None) ops.
Proof.
  unfold run. induction ops as [|o ops IH] using rev_ind; cbn.
  - split; [|done]. split; cbn; [apply NoDup_nil_2|constructor|done].
  - rewrite !foldl_app. cbn. destruct IH as [Hok IH]. split; [by apply hub_step_ok|]. rewrite <- IH. by apply hub_step_own.
Qed.
End Broadcast.
End broadcast.
