(* ===== verification/ManagementClient.v ===== *)
(** * Clients of the management interface (mullvad-management-interface/src/client.rs)

    [MullvadProxyClient] as the command-line client uses it: a method makes a request and
    reads the response, in the daemon's own types.  Here a method is a [Call]; its
    request goes to [rpc.serve] of ManagementInterface.v.  [client_event] reads an event
    of a subscription. *)

From S2P Require Import Prelude NetTypes TunnelTypes Constraints RelayTypes CustomLists AccessMethods DaemonSettings SettingsPersister.
From S2P Require Import SettingsPatch Versions VersionRouter DeviceService AccountManager TargetState TunnelParams SplitTunnel DaemonTypes ProtoTypes ProtoSettings.
From S2P Require Import ProtoState ManagementInterface.

(** mullvad-management-interface/src/lib.rs. *)
Inductive ClientError : Set :=
| Rpc (s : Status)
| InvalidResponse (e : FromProtobufTypeError)
| MissingDaemonEvent | CeInvalidVoucher | CeUsedVoucher | TooManyDevices | CeAlreadyLoggedIn | CeInvalidAccount | DeviceNotFound
| CustomListExists | CustomListListNotFound | ApiAccessMethodSettingsNotFound | ApiAccessMethodNotFound | ApiAccessMethodExists.

Definition map_device_error (s : Status) : ClientError :=
  match code s with
  | ResourceExhausted => TooManyDevices
  | Unauthenticated => CeInvalidAccount
  | AlreadyExists => CeAlreadyLoggedIn
  | CodeNotFound => DeviceNotFound
  | _ => Rpc s
  end.
Definition map_voucher_error (s : Status) : ClientError :=
  match code s with
  | CodeNotFound => CeInvalidVoucher
  | ResourceExhausted => CeUsedVoucher
  | _ => Rpc s
  end.
Definition map_custom_list_error (s : Status) : ClientError :=
  match code s, details s with
  | CodeNotFound, Some d => if decide (d = "custom_list_list_not_found"%string) then CustomListListNotFound else Rpc s
  | AlreadyExists, Some d => if decide (d = "custom_list_list_exists"%string) then CustomListExists else Rpc s
  | _, _ => Rpc s
  end.
Definition map_api_access_method_error (s : Status) : ClientError :=
  match code s, details s with
  | AlreadyExists, Some d => if decide (d = "api_access_method_exists"%string) then ApiAccessMethodExists else Rpc s
  | _, _ => Rpc s
  end.

(** A request, and what is made of the response to it, which is of the type of the
    method. *)
Record Call (A : Type) : Type := { request : Request; read : result Status Response → option (result ClientError A) }.
Arguments request {A}.
Arguments read {A}.
(** Of a response of type [A]. *)
Definition reading {A B} (f : Response → option A) (error : Status → ClientError) (k : A → result ClientError B)
    (r : result Status Response) : option (result ClientError B) :=
  match r with
  | Ok r => k <$> f r
  | Err s => Some (Err (error s))
  end.
Definition unit_call (rq : Request) : Call unit :=
  {| request := rq; read := reading (λ r, match r with RUnit => Some tt | _ => None end) Rpc Ok |}.
Definition unit_call_with (error : Status → ClientError) (rq : Request) : Call unit :=
  {| request := rq; read := reading (λ r, match r with RUnit => Some tt | _ => None end) error Ok |}.
Definition bool_call (rq : Request) : Call bool :=
  {| request := rq; read := reading (λ r, match r with RBool b => Some b | _ => None end) Rpc Ok |}.
Definition text_call (error : Status → ClientError) (rq : Request) : Call string :=
  {| request := rq; read := reading (λ r, match r with RText s => Some s | _ => None end) error Ok |}.
Definition checked {A} (r : conv A) : result ClientError A := map_err InvalidResponse r.

Module client.
Section Client.
Context `{IpText} `{!WireText} `{IpNetworkCrate} `{Chrono} `{VersionText}.
Context (key_of_bytes : list Z → string).

(** ** The tunnel and the daemon *)

Definition connect_tunnel : Call bool := bool_call ConnectTunnel.
Definition disconnect_tunnel : Call bool := bool_call DisconnectTunnel.
Definition reconnect_tunnel : Call bool := bool_call ReconnectTunnel.
Definition get_tunnel_state : Call TunnelState :=
  {| request := GetTunnelState;
     read := reading (λ r, match r with RState s => Some s | _ => None end) Rpc (λ s, checked (TunnelState_from_proto s)) |}.
Definition prepare_restart : Call unit := unit_call ReqPrepareRestart.
Definition prepare_restart_v2 (shutdown : bool) : Call unit := unit_call (ReqPrepareRestartV2 shutdown).
Definition factory_reset : Call unit := unit_call ReqFactoryReset.
Definition get_current_version : Call string := text_call Rpc ReqGetCurrentVersion.
Definition get_version_info : Call AppVersionInfo :=
  {| request := ReqGetVersionInfo;
     read := reading (λ r, match r with RVersionInfo i => Some i | _ => None end) Rpc (λ i, checked (AppVersionInfo_from_proto i)) |}.
Definition get_relay_locations : Call RelayList :=
  {| request := ReqGetRelayLocations;
     read := reading (λ r, match r with RRelays l => Some l | _ => None end) Rpc (λ l, checked (RelayList_from_proto l)) |}.
Definition update_relay_locations : Call unit := unit_call ReqUpdateRelayLocations.

(** ** Settings *)

Definition read_settings (r : Response) : option proto.Settings := match r with RSettings s => Some s | _ => None end.
Definition get_settings : Call Settings :=
  {| request := ReqGetSettings; read := reading read_settings Rpc (λ s, checked (Settings_from_proto s)) |}.
Definition get_api_access_methods : Call (list AccessMethodSetting) :=
  {| request := ReqGetSettings;
     read := reading read_settings Rpc (λ s,
       match proto.s_api_access_methods s with
       | None => Err ApiAccessMethodSettingsNotFound
       | Some m => access_methods.iter <$> checked (AccessMethods_from_proto m)
       end) |}.
Definition get_api_access_method (id : Z) : Call AccessMethodSetting :=
  {| request := request get_api_access_methods;
     read := λ r, (λ ms, l ← ms;
                         match List.find (λ m, am_id m =? id) l with
                         | Some m => Ok m
                         | None => Err ApiAccessMethodNotFound
                         end) <$> read get_api_access_methods r |}.
Definition reset_settings : Call unit := unit_call ReqResetSettings.
Definition set_relay_settings (update : RelaySettings) : Call unit := unit_call (ReqSetRelaySettings (RelaySettings_to_proto update)).
Definition set_bridge_settings (settings : BridgeSettings) : Call unit :=
  unit_call (ReqSetBridgeSettings (BridgeSettings_to_proto settings)).
Definition set_bridge_state (state : BridgeState) : Call unit := unit_call (ReqSetBridgeState (BridgeState_to_proto state)).
Definition set_obfuscation_settings (settings : ObfuscationSettings) : Call unit :=
  unit_call (ReqSetObfuscationSettings (ObfuscationSettings_to_proto settings)).
Definition set_allow_lan (state : bool) : Call unit := unit_call (ReqSetAllowLan state).
Definition set_show_beta_releases (state : bool) : Call unit := unit_call (ReqSetShowBetaReleases state).
Definition set_lockdown_mode (state : bool) : Call unit := unit_call (ReqSetLockdownMode state).
Definition set_auto_connect (state : bool) : Call unit := unit_call (ReqSetAutoConnect state).
Definition set_openvpn_mssfix (mssfix : option Z) : Call unit := unit_call (ReqSetOpenvpnMssfix (default 0 mssfix)).
Definition set_wireguard_mtu (mtu : option Z) : Call unit := unit_call (ReqSetWireguardMtu (default 0 mtu)).
Definition set_enable_ipv6 (state : bool) : Call unit := unit_call (ReqSetEnableIpv6 state).
Definition set_quantum_resistant_tunnel (state : QuantumResistantState) : Call unit :=
  unit_call (ReqSetQuantumResistantTunnel (QuantumResistantState_to_proto state)).
Definition set_enable_daita (value : bool) : Call unit := unit_call (ReqSetEnableDaita value).
Definition set_daita_direct_only (value : bool) : Call unit := unit_call (ReqSetDaitaDirectOnly value).
Definition set_daita_settings (settings : DaitaSettings) : Call unit := unit_call (ReqSetDaitaSettings (DaitaSettings_to_proto settings)).
Definition set_dns_options (options : DnsOptions) : Call unit := unit_call (ReqSetDnsOptions (DnsOptions_to_proto options)).
Definition set_relay_override (o : RelayOverride) : Call unit := unit_call (ReqSetRelayOverride (RelayOverride_to_proto o)).
Definition clear_all_relay_overrides : Call unit := unit_call ReqClearAllRelayOverrides.
Definition set_wireguard_allowed_ips (allowed_ips : AllowedIps) : Call unit :=
  unit_call (ReqSetWireguardAllowedIps (net_text <$> allowed_nets allowed_ips)).
Definition apply_json_settings (blob : string) : Call unit := unit_call (ReqApplyJsonSettings blob).
Definition export_json_settings : Call string := text_call Rpc ReqExportJsonSettings.
Definition get_feature_indicators : Call FeatureIndicators :=
  {| request := ReqGetFeatureIndicators;
     read := reading (λ r, match r with RFeatures f => Some f | _ => None end) Rpc (λ f, Ok (FeatureIndicators_from_proto f)) |}.
Definition disable_relay (relay : string) : Call unit := unit_call (ReqDisableRelay relay).
Definition enable_relay (relay : string) : Call unit := unit_call (ReqEnableRelay relay).

(** ** Accounts, devices and keys *)

Definition create_new_account : Call string := text_call map_device_error ReqCreateNewAccount.
Definition login_account (account : string) : Call unit := unit_call_with map_device_error (ReqLoginAccount account).
Definition logout_account : Call unit := unit_call ReqLogoutAccount.
Definition get_account_data (account : string) : Call AccountData :=
  {| request := ReqGetAccountData account;
     read := reading (λ r, match r with RAccountData d => Some d | _ => None end) Rpc (λ d, checked (AccountData_from_proto d)) |}.
Definition get_account_history : Call (option string) :=
  {| request := ReqGetAccountHistory; read := reading (λ r, match r with RHistory n => Some n | _ => None end) Rpc Ok |}.
Definition clear_account_history : Call unit := unit_call ReqClearAccountHistory.
Definition submit_voucher (voucher : string) : Call VoucherSubmission :=
  {| request := ReqSubmitVoucher voucher;
     read := reading (λ r, match r with RVoucher v => Some v | _ => None end) map_voucher_error (λ v, checked (VoucherSubmission_from_proto v)) |}.
Definition get_device : Call DeviceState :=
  {| request := ReqGetDevice;
     read := reading (λ r, match r with RDevice s => Some s | _ => None end) map_device_error
               (λ s, checked (DeviceState_from_proto key_of_bytes s)) |}.
Definition update_device : Call unit := unit_call_with map_device_error ReqUpdateDevice.
Definition list_devices (account : string) : Call (list Device) :=
  {| request := ReqListDevices account;
     read := reading (λ r, match r with RDevices l => Some l | _ => None end) map_device_error
               (λ l, checked (try_collect (Device_from_proto key_of_bytes) l)) |}.
Definition remove_device (account device_id : string) : Call unit :=
  unit_call_with map_device_error (ReqRemoveDevice {| proto.dr_account_number := account; proto.dr_device_id := device_id |}).
(** An interval is never too long for the message. *)
Definition set_wireguard_rotation_interval (interval : Z) : Call unit :=
  unit_call (ReqSetWireguardRotationInterval (Duration_to_proto interval)).
Definition reset_wireguard_rotation_interval : Call unit := unit_call ReqResetWireguardRotationInterval.
Definition rotate_wireguard_key : Call unit := unit_call ReqRotateWireguardKey.
Definition get_wireguard_key : Call PublicKey :=
  {| request := ReqGetWireguardKey;
     read := reading (λ r, match r with RKey k => Some k | _ => None end) Rpc (λ k, checked (PublicKey_from_proto key_of_bytes k)) |}.

(** ** Custom lists and access methods *)

Definition create_custom_list (name : string) : Call Z :=
  {| request := ReqCreateCustomList {| proto.ncl_name := name; proto.ncl_locations := [] |};
     read := reading (λ r, match r with RText s => Some s | _ => None end) map_custom_list_error
               (λ id, match uuid_parse id with Some id => Ok id | None => Err CustomListListNotFound end) |}.
Definition delete_custom_list (id : Z) : Call unit := unit_call_with map_custom_list_error (ReqDeleteCustomList (uuid_text id)).
Definition update_custom_list (custom_list : CustomList) : Call unit :=
  unit_call_with map_custom_list_error (ReqUpdateCustomList (CustomList_to_proto custom_list)).
Definition clear_custom_lists : Call unit := unit_call_with map_custom_list_error ReqClearCustomLists.
Definition add_access_method (name : string) (enabled : bool) (access_method : AccessMethod) : Call unit :=
  {| request := ReqAddApiAccessMethod {| proto.nam_name := name; proto.nam_enabled := enabled;
                                         proto.nam_access_method := Some (AccessMethod_to_proto access_method) |};
     read := reading (λ r, match r with RUuid _ => Some tt | _ => None end) map_api_access_method_error Ok |}.
Definition remove_access_method (id : Z) : Call unit := unit_call (ReqRemoveApiAccessMethod (Uuid_to_proto id)).
Definition update_access_method (update : AccessMethodSetting) : Call unit :=
  unit_call_with map_api_access_method_error (ReqUpdateApiAccessMethod (AccessMethodSetting_to_proto update)).
Definition clear_custom_access_methods : Call unit := unit_call ReqClearCustomApiAccessMethods.
Definition set_access_method (id : Z) : Call unit := unit_call (ReqSetApiAccessMethod (Uuid_to_proto id)).
Definition get_current_api_access_method : Call AccessMethodSetting :=
  {| request := ReqGetCurrentApiAccessMethod;
     read := reading (λ r, match r with RMethod s => Some s | _ => None end) Rpc (λ s, checked (AccessMethodSetting_from_proto s)) |}.
Definition test_api_access_method (id : Z) : Call bool := bool_call (ReqTestApiAccessMethodById (Uuid_to_proto id)).
Definition test_custom_api_access_method (config : CustomProxy) : Call bool :=
  bool_call (ReqTestCustomApiAccessMethod (CustomProxy_to_proto config)).

(** ** Split tunnelling *)

Definition get_split_tunnel_processes : Call (list Z) :=
  {| request := ReqGetSplitTunnelProcesses; read := reading (λ r, match r with RPids l => Some l | _ => None end) Rpc Ok |}.
Definition add_split_tunnel_process (pid : Z) : Call unit := unit_call (ReqAddSplitTunnelProcess pid).
Definition remove_split_tunnel_process (pid : Z) : Call unit := unit_call (ReqRemoveSplitTunnelProcess pid).
Definition clear_split_tunnel_processes : Call unit := unit_call ReqClearSplitTunnelProcesses.
Definition add_split_tunnel_app (path : string) : Call unit := unit_call (ReqAddSplitTunnelApp path).
Definition remove_split_tunnel_app (path : string) : Call unit := unit_call (ReqRemoveSplitTunnelApp path).
Definition clear_split_tunnel_apps : Call unit := unit_call ReqClearSplitTunnelApps.
Definition set_split_tunnel_state (state : bool) : Call unit := unit_call (ReqSetSplitTunnelState state).

(** ** Events *)

(** [DaemonEvent] of the client is a [Notification]. *)
Definition event_from (e : proto.Event) : result ClientError Notification :=
  match e with
  | proto.EvTunnelState s => NotifyState <$> checked (TunnelState_from_proto s)
  | proto.EvSettings s => NotifySettings <$> checked (Settings_from_proto s)
  | proto.EvRelayList l => NotifyRelayList <$> checked (RelayList_from_proto l)
  | proto.EvVersionInfo i => NotifyAppVersion <$> checked (AppVersionInfo_from_proto i)
  | proto.EvDevice e => NotifyDevice <$> checked (DeviceEvent_from_proto key_of_bytes e)
  | proto.EvRemoveDevice e => (λ x, NotifyRemoveDevice x.1 x.2) <$> checked (RemoveDeviceEvent_from_proto key_of_bytes e)
  | proto.EvNewAccessMethod s => NotifyAccessMethod <$> checked (AccessMethodSetting_from_proto s)
  end.
(** An item of the stream of [events_listen]. *)
Definition read_event (e : proto.DaemonEvent) : result ClientError Notification :=
  match proto.dae_event e with Some e => event_from e | None => Err MissingDaemonEvent end.
End Client.
End client.
