(* ===== verification/ManagementTheorems.v ===== *)
(** * What a client asks for, and what it is told

    A request is refused or carries a command whose arguments are in range
    ([requests_checked]); a method of the client reaches the daemon as the command it
    stands for ([calls_arrive]); the daemon's answer reaches the client in the client's
    types ([answers_read]), and so does every event ([events_read]). *)

From S2P Require Import Prelude NetTypes TunnelTypes TunnelStates Constraints RelayTypes CustomLists RelayMatcher.
From S2P Require Import RelaySelector Versions VersionRouter AccessMethods AccessMode Availability DeviceService.
From S2P Require Import AccountManager DaemonSettings SettingsPersister TargetState TunnelParams SettingsPatch GeoIp.
From S2P Require Import SplitTunnel DaemonTypes DaemonCommands Daemon DaemonTheorems DaemonAnswers ProtoTypes.
From S2P Require Import ProtoSettings ProtoState ManagementInterface ManagementClient.

Section Management.
Context `{IpText} `{!WireText} `{IpNetworkCrate} `{Chrono} `{VersionText}.
Context (key_bytes : string → list Z) (key_of_bytes : list Z → string).

(** ** Requests *)

(** The arguments of a command that settings are made of can be read back. *)
Definition command_ok (c : DaemonCommand) : Prop :=
  match c with
  | SetRelaySettings _ s => RelaySettings_ok s
  | SetBridgeSettings _ s => BridgeSettings_ok s
  | SetObfuscationSettings _ s => ObfuscationSettings_ok s
  | SetOpenVpnMssfix _ v | SetWireguardMtu _ v => option_all u16_range v
  | SetWireguardAllowedIps _ ips => constraint_all (λ a, Forall aligned (allowed_nets a)) ips
  | SetWireguardRotationInterval _ i => option_all interval_ok i
  | AddApiAccessMethod _ _ _ m => AccessMethod_ok m
  | UpdateApiAccessMethod _ m => AccessMethodSetting_ok m
  | TestCustomApiAccessMethod _ p => CustomProxy_ok p
  | _ => True
  end.

Definition handler_ok (tx : Tx) (h : Handler) : Prop :=
  match h with
  | Ask c _ => command_ok c ∧ DaemonAnswers.request c = [tx]
  | Tell c => command_ok c ∧ DaemonAnswers.request c = []
  | Answer _ => True
  | Refuse s => s = invalid_argument
  end.
Lemma require_ok {A} tx (m : conv A) k : (∀ a, m = Ok a → handler_ok tx (k a)) → handler_ok tx (require m k).
Proof. destruct m as [a|[what]]; [intros Hk; by apply Hk|done]. Qed.
Lemma cut_ok v : option_all u16_range (if negb (v =? 0) then Some (as_u16 v) else None).
Proof. destruct (negb _); [apply as_u16_range|done]. Qed.

Lemma serve_ok tx rq : handler_ok tx (rpc.serve key_bytes tx rq).
Proof.
  destruct rq; try exact (conj I eq_refl); try exact I; cbn.
  - apply require_ok. intros s' Hs. split; [by eapply RelaySettings_from_ok|done].
  - apply require_ok. intros s' Hs. split; [by eapply BridgeSettings_from_ok|done].
  - by apply require_ok.
  - apply require_ok. intros s' Hs. split; [by eapply ObfuscationSettings_from_ok|done].
  - split; [apply cut_ok|done].
  - split; [apply cut_ok|done].
  - unfold rpc.set_wireguard_allowed_ips. destruct (AllowedIps_parse values) as [nets|] eqn:E; [|done].
    split; [|done]. by apply to_constraint_ok, (AllowedIps_parse_ok values).
  - by apply require_ok.
  - by apply require_ok.
  - by apply require_ok.
  - unfold rpc.set_wireguard_rotation_interval. destruct (Duration_from_proto d) as [x|]; [|done].
    destruct (RotationInterval_new x) as [i|] eqn:E; [|done]. split; [by eapply RotationInterval_new_ok|done].
  - by apply require_ok.
  - unfold rpc.delete_custom_list. by destruct (uuid_parse id).
  - by apply require_ok.
  - unfold rpc.add_api_access_method. destruct (proto.nam_access_method m) as [p|]; [|done].
    apply require_ok. intros x Hx. split; [by eapply AccessMethod_from_ok|done].
  - by apply require_ok.
  - by apply require_ok.
  - apply require_ok. intros x Hx. split; [by eapply AccessMethodSetting_from_ok|done].
  - apply require_ok. intros x Hx. split; [by eapply CustomProxy_from_ok|done].
  - by apply require_ok.
Qed.

(** Requests are checked before the daemon sees them.  Whatever a client sends, the service
    refuses it as an invalid argument, answers on the spot, or sends the daemon a command
    whose numbers, networks, keys, proxies and intervals are in range, and which carries the
    channel of the request if and only if the service waits for an answer on it. *)
Theorem requests_checked tx rq : handler_ok tx (rpc.serve key_bytes tx rq).
Proof. apply serve_ok. Qed.

(** ** Calls *)

(** What each method of the client asks of the daemon: settings as they are read back, a number
    that is not 0, which stands for none. *)
Inductive means (tx : Tx) : ∀ {A : Type}, Call A → DaemonCommand → Prop :=
| means_connect : means tx client.connect_tunnel (SetTargetState tx Secured)
| means_disconnect : means tx client.disconnect_tunnel (SetTargetState tx Unsecured)
| means_reconnect : means tx client.reconnect_tunnel (Reconnect tx)
| means_state : means tx client.get_tunnel_state (GetState tx)
| means_restart : means tx client.prepare_restart (PrepareRestart false)
| means_restart_v2 shutdown : means tx (client.prepare_restart_v2 shutdown) (PrepareRestart shutdown)
| means_factory_reset : means tx client.factory_reset (FactoryReset tx)
| means_version : means tx client.get_current_version (GetCurrentVersion tx)
| means_version_info : means tx client.get_version_info (GetVersionInfo tx)
| means_relays : means tx client.get_relay_locations (GetRelayLocations tx)
| means_update_relays : means tx client.update_relay_locations UpdateRelayLocations
| means_settings : means tx client.get_settings (GetSettings tx)
| means_access_methods : means tx client.get_api_access_methods (GetSettings tx)
| means_access_method id : means tx (client.get_api_access_method id) (GetSettings tx)
| means_reset : means tx client.reset_settings (ResetSettings tx)
| means_relay_settings s : RelaySettings_ok s → means tx (client.set_relay_settings s) (SetRelaySettings tx (RelaySettings_seen s))
| means_bridge_settings s : BridgeSettings_ok s → means tx (client.set_bridge_settings s) (SetBridgeSettings tx s)
| means_bridge_state s : means tx (client.set_bridge_state s) (SetBridgeState tx s)
| means_obfuscation s : ObfuscationSettings_ok s → means tx (client.set_obfuscation_settings s) (SetObfuscationSettings tx s)
| means_allow_lan b : means tx (client.set_allow_lan b) (SetAllowLan tx b)
| means_beta b : means tx (client.set_show_beta_releases b) (SetShowBetaReleases tx b)
| means_lockdown b : means tx (client.set_lockdown_mode b) (SetLockdownMode tx b)
| means_auto_connect b : means tx (client.set_auto_connect b) (SetAutoConnect tx b)
| means_mssfix v : option_all (λ n, u16_range n ∧ n ≠ 0) v → means tx (client.set_openvpn_mssfix v) (SetOpenVpnMssfix tx v)
| means_mtu v : option_all (λ n, u16_range n ∧ n ≠ 0) v → means tx (client.set_wireguard_mtu v) (SetWireguardMtu tx v)
| means_ipv6 b : means tx (client.set_enable_ipv6 b) (SetEnableIpv6 tx b)
| means_quantum s : means tx (client.set_quantum_resistant_tunnel s) (SetQuantumResistantTunnel tx s)
| means_daita b : means tx (client.set_enable_daita b) (SetEnableDaita tx b)
| means_direct_only b : means tx (client.set_daita_direct_only b) (SetDaitaUseMultihopIfNecessary tx (negb b))
| means_daita_settings s : means tx (client.set_daita_settings s) (SetDaitaSettings tx s)
| means_dns o : means tx (client.set_dns_options o) (SetDnsOptions tx o)
| means_override o : means tx (client.set_relay_override o) (SetRelayOverride tx o)
| means_clear_overrides : means tx client.clear_all_relay_overrides (ClearAllRelayOverrides tx)
| means_allowed_ips a : Forall aligned (allowed_nets a) →
    means tx (client.set_wireguard_allowed_ips a) (SetWireguardAllowedIps tx (to_constraint a))
| means_patch blob : means tx (client.apply_json_settings blob) (ApplyJsonSettings tx blob)
| means_export : means tx client.export_json_settings (ExportJsonSettings tx)
| means_features : means tx client.get_feature_indicators (GetFeatureIndicators tx)
| means_disable_relay name : means tx (client.disable_relay name) (DisableRelay tx name)
| means_enable_relay name : means tx (client.enable_relay name) (EnableRelay tx name)
| means_create_account : means tx client.create_new_account (CreateNewAccount tx)
| means_login number : means tx (client.login_account number) (LoginAccount tx number)
| means_logout : means tx client.logout_account (LogoutAccount tx)
| means_account_data number : means tx (client.get_account_data number) (GetAccountData tx number)
| means_history : means tx client.get_account_history (GetAccountHistory tx)
| means_clear_history : means tx client.clear_account_history (ClearAccountHistory tx)
| means_voucher voucher : means tx (client.submit_voucher voucher) (SubmitVoucher tx voucher)
| means_device : means tx (client.get_device key_of_bytes) (GetDevice tx)
| means_update_device : means tx client.update_device (UpdateDevice tx)
| means_list_devices number : means tx (client.list_devices key_of_bytes number) (ListDevices tx number)
| means_remove_device number id : means tx (client.remove_device number id) (RemoveDevice tx number id)
| means_rotation_interval i : interval_ok i →
    means tx (client.set_wireguard_rotation_interval i) (SetWireguardRotationInterval tx (Some i))
| means_reset_interval : means tx client.reset_wireguard_rotation_interval (SetWireguardRotationInterval tx None)
| means_rotate_key : means tx client.rotate_wireguard_key (RotateWireguardKey tx)
| means_key : means tx (client.get_wireguard_key key_of_bytes) (GetWireguardKey tx)
| means_create_list name : means tx (client.create_custom_list name) (CreateCustomList tx name ∅)
| means_delete_list id : means tx (client.delete_custom_list id) (DeleteCustomList tx id)
| means_update_list l : means tx (client.update_custom_list l) (UpdateCustomList tx l)
| means_clear_lists : means tx client.clear_custom_lists (ClearCustomLists tx)
| means_add_method name enabled m : AccessMethod_ok m →
    means tx (client.add_access_method name enabled m) (AddApiAccessMethod tx name enabled m)
| means_remove_method id : means tx (client.remove_access_method id) (RemoveApiAccessMethod tx id)
| means_update_method m : AccessMethodSetting_ok m → means tx (client.update_access_method m) (UpdateApiAccessMethod tx m)
| means_clear_methods : means tx client.clear_custom_access_methods (ClearCustomApiAccessMethods tx)
| means_set_method id : means tx (client.set_access_method id) (SetApiAccessMethod tx id)
| means_current_method : means tx client.get_current_api_access_method (GetCurrentAccessMethod tx)
| means_test_method id : means tx (client.test_api_access_method id) (TestApiAccessMethodById tx id)
| means_test_custom p : CustomProxy_ok p → means tx (client.test_custom_api_access_method p) (TestCustomApiAccessMethod tx p)
| means_pids : means tx client.get_split_tunnel_processes (GetSplitTunnelProcesses tx)
| means_add_pid pid : means tx (client.add_split_tunnel_process pid) (AddSplitTunnelProcess tx pid)
| means_remove_pid pid : means tx (client.remove_split_tunnel_process pid) (RemoveSplitTunnelProcess tx pid)
| means_clear_pids : means tx client.clear_split_tunnel_processes (ClearSplitTunnelProcesses tx).

Lemma require_sent {A} (m : conv A) a k : m = Ok a → sent (require m k) = sent (k a).
Proof. by intros ->. Qed.
Lemma number_sent v : option_all (λ n, u16_range n ∧ n ≠ 0) v →
  (if negb (default 0 v =? 0) then Some (as_u16 (default 0 v)) else None) = v.
Proof.
  destruct v as [n|]; cbn; [|done]. intros [Hr Hn]. destruct (Z.eqb_spec n 0); [done|]. cbn. by rewrite as_u16_small.
Qed.
(** C21: The methods of the client mean what they say.  For each method the service sends the daemon
    the command the method stands for, with the same arguments: relay settings, bridges,
    proxies, networks, intervals, custom lists and access methods survive the way through
    the messages of the protocol.  Relay settings arrive as [RelaySettings_seen] says: a
    constraint on addresses is written out, and a custom tunnel loses its pre-shared key,
    its constant packet size, its exit peer and the flow label of its address and gets the
    daemon's mark.  Assumed of the arguments: sets of providers are not empty, networks have no
    bits outside their mask, keys of a custom tunnel have 32 bytes, ports are 16-bit
    numbers, an MTU or mssfix is not 0 (which stands for none), the rotation interval is
    within its limits, SOCKS user names and passwords have a valid length, and endpoints of
    proxies are IPv4 (IPv6 proxies are refused, a finding). *)
Theorem calls_arrive tx {A} (call : Call A) c : means tx call c → sent (rpc.serve key_bytes tx (request call)) = Some c.
Proof.
  destruct 1; try reflexivity.
  - by refine (require_sent _ _ _ (RelaySettings_reads s _)).
  - by refine (require_sent _ _ _ (BridgeSettings_reads s _)).
  - exact (require_sent _ _ _ (enum_round_trip s _)).
  - by refine (require_sent _ _ _ (ObfuscationSettings_reads s _)).
  - change (Some (SetOpenVpnMssfix tx (if negb (default 0 v =? 0) then Some (as_u16 (default 0 v)) else None)) = Some (SetOpenVpnMssfix tx v)).
    by rewrite number_sent.
  - change (Some (SetWireguardMtu tx (if negb (default 0 v =? 0) then Some (as_u16 (default 0 v)) else None)) = Some (SetWireguardMtu tx v)).
    by rewrite number_sent.
  - exact (require_sent _ _ _ (enum_round_trip s _)).
  - by destruct s as [? []].
  - exact (require_sent _ _ _ (DnsOptions_reads o)).
  - exact (require_sent _ _ _ (RelayOverride_reads o)).
  - unfold rpc.serve, rpc.set_wireguard_allowed_ips, request, client.set_wireguard_allowed_ips, unit_call.
    rewrite AllowedIps_reads by done. by destruct a.
  - unfold rpc.serve, rpc.set_wireguard_rotation_interval, request, client.set_wireguard_rotation_interval, unit_call.
    pose proof (interval_reads i ltac:(done)) as Hi. unfold rotation_interval_from_proto in Hi.
    destruct (Duration_from_proto _) as [x|]; [|done]. cbn in Hi. destruct (RotationInterval_new x); [|done]. by injection Hi as ->.
  - unfold rpc.serve, rpc.delete_custom_list, request, client.delete_custom_list, unit_call_with. by rewrite uuid_round_trip.
  - exact (require_sent _ _ _ (CustomList_reads l)).
  - by refine (require_sent _ _ _ (AccessMethod_reads m _)).
  - exact (require_sent _ _ _ (Uuid_reads id)).
  - by refine (require_sent _ _ _ (AccessMethodSetting_reads m _)).
  - exact (require_sent _ _ _ (Uuid_reads id)).
  - exact (require_sent _ _ _ (Uuid_reads id)).
  - by refine (require_sent _ _ _ (CustomProxy_reads p _)).
Qed.

(** ** Answers *)

(** What a call returns when the daemon answers the command with [r]. *)
Definition finish {A} (call : Call A) (r : Reply) (h : Handler) : option (result ClientError A) :=
  match h with
  | Ask _ convert => convert r ≫= read call
  | Tell _ => read call (Ok RUnit)
  | Answer resp => read call (Ok resp)
  | Refuse s => read call (Err s)
  end.
Definition exchange {A} (tx : Tx) (call : Call A) (r : Reply) : option (result ClientError A) :=
  finish call r (rpc.serve key_bytes tx (request call)).

(** What a client is promised: the value the daemon answered with, times in whole seconds; and
    the errors it tells apart. *)
Inductive answers : ∀ {A : Type}, Call A → Reply → result ClientError A → Prop :=
| answers_connect b : answers client.connect_tunnel (ReBool b) (Ok b)
| answers_disconnect b : answers client.disconnect_tunnel (ReBool b) (Ok b)
| answers_reconnect b : answers client.reconnect_tunnel (ReBool b) (Ok b)
| answers_state s : answers client.get_tunnel_state (ReState s) (Ok (TunnelState_seen s))
| answers_settings s : Settings_ok s → answers client.get_settings (ReSettings s) (Ok (Settings_seen s))
| answers_access_methods s : Settings_ok s →
    answers client.get_api_access_methods (ReSettings s) (Ok (access_methods.iter (s_api_access_methods s)))
| answers_access_method s m : Settings_ok s → access_methods.settings_ok (s_api_access_methods s) →
    m ∈ access_methods.iter (s_api_access_methods s) →
    answers (client.get_api_access_method (am_id m)) (ReSettings s) (Ok m)
| answers_no_access_method s id : Settings_ok s →
    (∀ m, m ∈ access_methods.iter (s_api_access_methods s) → am_id m ≠ id) →
    answers (client.get_api_access_method id) (ReSettings s) (Err ApiAccessMethodNotFound)
| answers_relays l : RelayList_ok l → answers client.get_relay_locations (ReRelays l) (Ok (RelayList_seen l))
| answers_version_info i : option_all installer_ok (suggested_upgrade i) →
    answers client.get_version_info (ReVersionInfo (Ok i)) (Ok i)
| answers_features f : answers client.get_feature_indicators (ReFeatures f) (Ok f)
| answers_account_data number d : time_ok (expiry d) →
    answers (client.get_account_data number) (ReAccountData (Ok d)) (Ok {| account_id := account_id d; expiry := seconds (expiry d) |})
| answers_history number : answers client.get_account_history (ReHistory number) (Ok number)
| answers_new_account number : answers client.create_new_account (ReText (Ok number)) (Ok number)
| answers_voucher voucher v : time_ok (new_expiry v) →
    answers (client.submit_voucher voucher) (ReVoucher (Ok v)) (Ok {| time_added := time_added v; new_expiry := seconds (new_expiry v) |})
| answers_device s : DeviceState_ok key_bytes key_of_bytes s →
    answers (client.get_device key_of_bytes) (ReDevice (Ok s)) (Ok (DeviceState_seen s))
| answers_devices number l : Forall (Device_ok key_bytes key_of_bytes) l →
    answers (client.list_devices key_of_bytes number) (ReDevices (Ok l)) (Ok (Device_seen <$> l))
| answers_key k : key_ok key_bytes key_of_bytes (pk_key k) → time_ok (pk_created k) →
    answers (client.get_wireguard_key key_of_bytes) (ReKey (Ok (Some k))) (Ok {| pk_key := pk_key k; pk_created := seconds (pk_created k) |})
| answers_created_list name id : answers (client.create_custom_list name) (ReId (Ok id)) (Ok id)
| answers_current_method s : AccessMethodSetting_ok s → answers client.get_current_api_access_method (ReMethod (Ok s)) (Ok s)
| answers_tested id b : answers (client.test_api_access_method id) (ReTest (Ok b)) (Ok b)
| answers_pids l : answers client.get_split_tunnel_processes (RePids (Ok l)) (Ok l)
| answers_export s : answers client.export_json_settings (ReExport (Ok s)) (Ok s)
| answers_too_many number : answers (client.login_account number) (ReUnit (Err (LoginError MaxDevicesReached))) (Err TooManyDevices)
| answers_bad_account number : answers (client.login_account number) (ReUnit (Err (LoginError InvalidAccount))) (Err CeInvalidAccount)
| answers_logged_in number : answers (client.login_account number) (ReUnit (Err AlreadyLoggedIn)) (Err CeAlreadyLoggedIn)
| answers_created_logged_in : answers client.create_new_account (ReText (Err AlreadyLoggedIn)) (Err CeAlreadyLoggedIn)
| answers_no_device : answers (client.get_device key_of_bytes) (ReDevice (Err NoAccountNumber)) (Err CeInvalidAccount)
| answers_unknown_device number id :
    answers (client.remove_device number id) (ReUnit (Err (RemoveDeviceError InvalidDevice))) (Err DeviceNotFound)
| answers_bad_voucher voucher :
    answers (client.submit_voucher voucher) (ReVoucher (Err (VoucherSubmissionError InvalidVoucher))) (Err CeInvalidVoucher)
| answers_used_voucher voucher :
    answers (client.submit_voucher voucher) (ReVoucher (Err (VoucherSubmissionError UsedVoucher))) (Err CeUsedVoucher)
| answers_list_exists l :
    answers (client.update_custom_list l) (ReUnit (Err (SettingsError (UpdateFailed (OfCustomLists CustomLists.DuplicateName))))) (Err CustomListExists)
| answers_no_list id :
    answers (client.delete_custom_list id) (ReUnit (Err (SettingsError (UpdateFailed (OfCustomLists CustomLists.ListNotFound)))))
      (Err CustomListListNotFound).

Lemma find_method (m : AccessMethodSetting) l : NoDup (map am_id l) → m ∈ l → List.find (λ x, am_id x =? am_id m) l = Some m.
Proof.
  induction l as [|x l IH]; cbn; [by intros _ ?%elem_of_nil|]. intros [Hx Hl]%NoDup_cons [->|Hm]%elem_of_cons; [by rewrite Z.eqb_refl|].
  destruct (Z.eqb_spec (am_id x) (am_id m)) as [E|_]; [|by apply IH]. destruct Hx. rewrite E. apply list_elem_of_In, in_map. by apply list_elem_of_In.
Qed.
Lemma find_none (id : Z) l : (∀ m, m ∈ l → am_id m ≠ id) → List.find (λ x, am_id x =? id) l = None.
Proof.
  intros Hl. destruct (List.find _ l) as [m|] eqn:E; [|done]. apply List.find_some in E as [Hm Hi%Z.eqb_eq].
  exfalso. by eapply (Hl m); [apply list_elem_of_In|].
Qed.
Lemma read_methods s : Settings_ok s →
  read client.get_api_access_methods (Ok (RSettings (Settings_to_proto s))) = Some (Ok (access_methods.iter (s_api_access_methods s))).
Proof.
  intros [_ _ _ _ Hm]. change (Some (access_methods.iter <$> checked (AccessMethods_from_proto (AccessMethods_to_proto (s_api_access_methods s)))) =
    Some (Ok (access_methods.iter (s_api_access_methods s)))). by rewrite AccessMethods_reads.
Qed.
Lemma read_method tx id s : Settings_ok s →
  exchange tx (client.get_api_access_method id) (ReSettings s) =
  Some match List.find (λ m, am_id m =? id) (access_methods.iter (s_api_access_methods s)) with
       | Some m => Ok m | None => Err ApiAccessMethodNotFound end.
Proof.
  intros Hs. change (exchange tx _ _) with (read (client.get_api_access_method id) (Ok (RSettings (Settings_to_proto s)))).
  unfold read at 1, client.get_api_access_method. by rewrite read_methods.
Qed.
Lemma devices_read l : Forall (Device_ok key_bytes key_of_bytes) l →
  try_collect (Device_from_proto key_of_bytes) (DeviceList_to_proto key_bytes l) = Ok (Device_seen <$> l).
Proof.
  intros Hl. unfold DeviceList_to_proto. induction Hl as [|d l Hd Hl IH]; [done|]. cbn [fmap list_fmap try_collect].
  rewrite Device_reads by done. cbn. by rewrite IH.
Qed.

Lemma checked_reads {A} (c : conv A) a : c = Ok a → Some (checked c) = Some (Ok a).
Proof. by intros ->. Qed.
Lemma finish_require {A B} (call : Call A) r (m : conv B) b k : m = Ok b → finish call r (require m k) = finish call r (k b).
Proof. by intros ->. Qed.

(** What the daemon answers is what the client is told. The tunnel state, the
    settings, the relay list, devices, keys, accounts, vouchers, versions and
    identifiers come back equal, up to the parts the messages leave out and with times
    in whole seconds; and the errors a client tells apart are the ones the daemon met. *)
Theorem answers_read tx {A} (call : Call A) r a : answers call r a → exchange tx call r = Some a.
Proof.
  destruct 1; try reflexivity.
  - exact (checked_reads _ _ (TunnelState_reads s)).
  - by refine (checked_reads _ _ (Settings_reads s _)).
  - by apply read_methods.
  - rewrite read_method by done. by rewrite find_method by (try done; match goal with Hk : access_methods.settings_ok _ |- _ => apply Hk end).
  - rewrite read_method by done. by rewrite find_none.
  - by refine (checked_reads _ _ (RelayList_reads l _)).
  - by refine (checked_reads _ _ (AppVersionInfo_reads i _)).
  - change (Some (Ok (FeatureIndicators_from_proto (FeatureIndicators_to_proto f))) = Some (Ok (E := ClientError) f)).
    by rewrite FeatureIndicators_reads.
  - by refine (checked_reads _ _ (AccountData_reads d _)).
  - by refine (checked_reads _ _ (VoucherSubmission_reads v _)).
  - by refine (checked_reads _ _ (DeviceState_reads _ _ s _)).
  - by refine (checked_reads _ _ (devices_read l _)).
  - by refine (checked_reads _ _ (PublicKey_reads _ _ k _ _)).
  - change (Some (match uuid_parse (uuid_text id) with Some id => Ok id | None => Err CustomListListNotFound end) = Some (Ok id)).
    by rewrite uuid_round_trip.
  - by refine (checked_reads _ _ (AccessMethodSetting_reads s _)).
  - exact (finish_require _ _ _ _ _ (Uuid_reads id)).
  - exact (finish_require _ _ _ _ _ (CustomList_reads l)).
  - unfold exchange, rpc.serve, rpc.delete_custom_list, client.delete_custom_list, unit_call_with, request. by rewrite uuid_round_trip.
Qed.

(** ** Events *)

(** What a subscriber can read, and reads. *)
Definition notification_ok (n : Notification) : Prop :=
  match n with
  | NotifyState _ => True
  | NotifySettings s => Settings_ok s
  | NotifyRelayList l => RelayList_ok l
  | NotifyAppVersion i => option_all installer_ok (suggested_upgrade i)
  | NotifyDevice e => DeviceState_ok key_bytes key_of_bytes (new_state e)
  | NotifyRemoveDevice _ l => Forall (Device_ok key_bytes key_of_bytes) l
  | NotifyAccessMethod s => AccessMethodSetting_ok s
  end.
Definition notification_seen (n : Notification) : Notification :=
  match n with
  | NotifyState s => NotifyState (TunnelState_seen s)
  | NotifySettings s => NotifySettings (Settings_seen s)
  | NotifyRelayList l => NotifyRelayList (RelayList_seen l)
  | NotifyDevice e => NotifyDevice (DeviceEvent_seen e)
  | NotifyRemoveDevice number l => NotifyRemoveDevice number (Device_seen <$> l)
  | n => n
  end.
Lemma fmap_checked {A B} (f : A → B) (c : conv A) a : c = Ok a → f <$> checked c = Ok (f a).
Proof. by intros ->. Qed.
Lemma event_reads n : notification_ok n → client.read_event key_of_bytes (to_event key_bytes n) = Ok (notification_seen n).
Proof.
  destruct n; intros Hn.
  - exact (fmap_checked _ _ _ (TunnelState_reads s)).
  - exact (fmap_checked _ _ _ (Settings_reads s Hn)).
  - exact (fmap_checked _ _ _ (RelayList_reads l Hn)).
  - exact (fmap_checked _ _ _ (AppVersionInfo_reads info Hn)).
  - exact (fmap_checked _ _ _ (DeviceEvent_reads _ _ e Hn)).
  - exact (fmap_checked _ _ _ (RemoveDeviceEvent_reads _ _ (number, new_devices) Hn)).
  - exact (fmap_checked _ _ _ (AccessMethodSetting_reads s Hn)).
Qed.

(** The hub as the daemon uses it: notifications go out as messages. *)
Definition on_wire (o : broadcast.Op) : broadcast.Op :=
  match o with
  | broadcast.Listen => broadcast.Listen
  | broadcast.Notify n => broadcast.Notify (to_event key_bytes n)
  | broadcast.Close i => broadcast.Close i
  end.
Definition op_ok (o : broadcast.Op) : Prop := match o with broadcast.Notify n => notification_ok n | _ => True end.
(** A stream of messages that reads as a stream of notifications. *)
Definition stream_reads (s : broadcast.Stream) (t : broadcast.Stream) : Prop :=
  broadcast.open s = broadcast.open t ∧
  client.read_event key_of_bytes <$> broadcast.received s = (Ok ∘ notification_seen) <$> broadcast.received t.

Lemma own_reads i ops : Forall op_ok ops →
  let s := foldl (broadcast.own_step i) (0%nat, None) (on_wire <$> ops) in
  let t := foldl (broadcast.own_step i) (0%nat, None) ops in
  s.1 = t.1 ∧ option_Forall2 stream_reads s.2 t.2.
Proof.
  induction ops as [|o ops IH] using rev_ind; [split; [done|constructor]|]. rewrite Forall_app, Forall_singleton. intros [Hops Ho].
  specialize (IH Hops). rewrite fmap_app, !foldl_app. cbn [foldl fmap list_fmap].
  destruct (foldl _ _ (on_wire <$> ops)) as [n s], (foldl _ _ ops) as [n' t]. destruct IH as [En IH]. cbn in En, IH. subst n'.
  destruct o as [|e|j]; cbn; (split; [done|]).
  - case_decide; [|done]. by repeat constructor.
  - destruct IH as [s t [Eo Er]|]; [|constructor]. constructor. cbn. rewrite Eo. destruct (broadcast.open t) eqn:Et; [|by split; [rewrite Et|]].
    split; cbn; [done|]. rewrite !fmap_app, Er. cbn [fmap list_fmap]. by rewrite event_reads.
  - case_decide; [|done]. destruct IH as [s t [Eo Er]|]; by repeat constructor.
Qed.

(** C22: Every subscriber gets its own copy of everything.  However subscriptions, notifications and
    departures are interleaved, the stream of the [i]-th subscriber holds exactly the
    notifications sent from its subscription until it left, in order, and each of them is read
    as [notification_seen] says: as it was sent, except that settings come without the recents
    (a finding), the seed and the version they had and with relay settings as for a client's call,
    a relay list without its ETag and without the marks of overridden addresses, times in whole
    seconds, addresses without flow labels, and a reason of a failed authentication reduced to
    the part that is known.  Assumed: the notifications can be read ([notification_ok]: the
    ranges and lengths of the settings, relay lists, keys, times and paths they carry).  A
    subscriber that has gone neither gets anything more nor keeps an event from the others. *)
Theorem events_read ops i : Forall op_ok ops →
  option_Forall2 stream_reads (broadcast.streams (broadcast.run (on_wire <$> ops)) !! i) (broadcast.own_stream i ops).
Proof.
  intros Hops. pose proof (own_reads i ops Hops) as [_ Hs]. destruct (broadcast.run_own (on_wire <$> ops) i) as [_ E].
  rewrite <- E in Hs. exact Hs.
Qed.
End Management.

(** * Clients can always read the settings

    The checks of the management interface and the handlers of the daemon together: from
    settings that can be read back, whatever clients ask for, every copy of the settings the
    daemon gives out can be read by a client. *)

(** ** Access methods *)

Section Methods.
(** A property of what a method is, whatever its name and whether it is enabled. *)
Context (P : AccessMethod → Prop).
Definition methods_all (s : access_methods.Settings) : Prop := Forall (λ m, P (access_method m)) (access_methods.iter s).

Lemma ensure_all s : methods_all s → methods_all (access_methods.ensure_consistent_state s).
Proof.
  unfold access_methods.ensure_consistent_state. destruct (forallb _ _); [|done]. unfold methods_all, access_methods.iter. cbn.
  rewrite !Forall_cons. done.
Qed.
Lemma with_custom_all c s : methods_all s → Forall (λ m, P (access_method m)) c → methods_all (access_methods.with_custom c s).
Proof. unfold methods_all, access_methods.iter. rewrite !Forall_app. by intros [H3 _]. Qed.
Lemma custom_all s : methods_all s → Forall (λ m, P (access_method m)) (access_methods.custom s).
Proof. unfold methods_all, access_methods.iter. rewrite Forall_app. by intros [_ ?]. Qed.
Lemma append_all m s s' : P (access_method m) → methods_all s → access_methods.append m s = Ok s' → methods_all s'.
Proof.
  intros Hm Hs ([] & _ & [= <-])%result_bind_ok. apply with_custom_all; [done|]. apply Forall_app. split; [by apply custom_all|by constructor].
Qed.
Lemma remove_all id s s' : methods_all s → access_methods.remove id s = Ok s' → methods_all s'.
Proof.
  intros Hs. unfold access_methods.remove. destruct (List.find _ _) as [x|]; [|by intros [= <-]].
  destruct (access_method x); [done|]. intros [= <-]. apply ensure_all, with_custom_all; [done|].
  apply custom_all in Hs. rewrite Forall_forall in *. intros m Hm%list_elem_of_In. apply filter_In in Hm as [Hm _].
  by apply Hs, list_elem_of_In.
Qed.
Lemma update_all p f s r : (∀ m, P (access_method m) → P (access_method (f m))) → methods_all s →
  access_methods.update p f s = Ok r → methods_all r.2.
Proof.
  intros Hf Hs. unfold access_methods.update. destruct (access_methods.find_indexed p s) as [[i m]|] eqn:E.
  - apply access_methods.find_indexed_spec in E as (Hl & _ & Hi). intros ([] & _ & [= <-])%result_bind_ok. apply ensure_all.
    unfold methods_all. rewrite access_methods.iter_assign by done. apply Forall_insert; [done|]. apply Hf.
    unfold methods_all in Hs. by eapply Forall_lookup_1 in Hs.
  - intros [= <-]. by apply ensure_all.
Qed.
Lemma clear_custom_all s : methods_all s → methods_all (access_methods.clear_custom s).
Proof. intros Hs. apply ensure_all, with_custom_all; [done|constructor]. Qed.
End Methods.

(** ** Updates *)

Section Updates.
Context `{IpText} `{!WireText} `{IpNetworkCrate}.

(** The parts that must be readable are the same. *)
Definition same_wire (s s' : Settings) : Prop :=
  s_relay_settings s' = s_relay_settings s ∧ s_bridge_settings s' = s_bridge_settings s ∧
  s_obfuscation_settings s' = s_obfuscation_settings s ∧
  openvpn.mssfix (to_openvpn (s_tunnel_options s')) = openvpn.mssfix (to_openvpn (s_tunnel_options s)) ∧
  wg_options.mtu (to_wireguard (s_tunnel_options s')) = wg_options.mtu (to_wireguard (s_tunnel_options s)) ∧
  wg_options.rotation_interval (to_wireguard (s_tunnel_options s')) = wg_options.rotation_interval (to_wireguard (s_tunnel_options s)) ∧
  s_api_access_methods s' = s_api_access_methods s.
Lemma same_wire_ok s s' : same_wire s s' → Settings_ok s → Settings_ok s'.
Proof.
  intros (E1 & E2 & E3 & E4 & E5 & E6 & E7) []. split; unfold TunnelOptions_ok in *; by rewrite ?E1, ?E2, ?E3, ?E4, ?E5, ?E6, ?E7.
Qed.

Lemma persisted_proxy_ok p : CustomProxy_ok p → CustomProxy_ok (persisted_proxy p).
Proof. by destruct p as [[]|[[]]|[]]. Qed.
(** What is written of readable settings is readable. *)
Lemma persisted_ok s : Settings_ok s → Settings_ok (persisted s).
Proof.
  intros [Hr Hb Ho Ht Hm]. split; cbn; [..|done|done|].
  - by destruct (s_relay_settings s) as [[host []]|].
  - destruct Hb as [Hb Hc]. split; [done|]. cbn. destruct (bs_custom _); [|done]. by apply persisted_proxy_ok.
  - change (Forall AccessMethodSetting_ok (access_methods.iter (persisted_methods (s_api_access_methods s)))).
    rewrite persisted_iter. apply Forall_fmap. eapply Forall_impl; [exact Hm|]. intros m. unfold AccessMethodSetting_ok; cbn.
    destruct (access_method m); [done|]. apply persisted_proxy_ok.
Qed.

Definition readable_update (f : Settings → result UpdateError Settings) : Prop := ∀ s s', Settings_ok s → f s = Ok s' → Settings_ok s'.
Lemma readable_same f : (∀ s, same_wire s (f s)) → readable_update (λ s, Ok (f s)).
Proof. intros Hf s s' Hs [= <-]. by eapply same_wire_ok. Qed.
Lemma readable_relay_settings r : RelaySettings_ok r → readable_update (λ s, Ok (set_relay_settings r s)).
Proof.
  intros Hr s s' Hs [= <-]. unfold set_relay_settings. case_decide; [done|]. destruct Hs. by destruct (negb _ && _); split.
Qed.
Lemma readable_allowed_ips ips : constraint_all (λ a, Forall aligned (allowed_nets a)) ips → readable_update (λ s, Ok (set_allowed_ips ips s)).
Proof.
  intros Hi s s' Hs [= <-]. unfold set_allowed_ips. destruct (s_relay_settings s) as [|c] eqn:E; [done|]. destruct Hs as [Hr ? ? ? ?]. split; try done.
  rewrite E in Hr. destruct Hr as (Hp & [Hport _] & Ho). by repeat split.
Qed.
Lemma readable_bridge r : BridgeSettings_ok r → readable_update (λ s, Ok (s <| s_bridge_settings := r |>)).
Proof. by intros Hr s s' [] [= <-]. Qed.
Lemma readable_obfuscation r : ObfuscationSettings_ok r → readable_update (λ s, Ok (s <| s_obfuscation_settings := r |>)).
Proof. by intros Hr s s' [] [= <-]. Qed.
Lemma readable_options f : (∀ o, TunnelOptions_ok o → TunnelOptions_ok (f o)) → readable_update (λ s, Ok (s <| s_tunnel_options ::= f |>)).
Proof. intros Hf s s' [] [= <-]. split; try done. by apply Hf. Qed.
Lemma readable_recents s : same_wire s (update_recents s).
Proof. unfold update_recents. destruct (s_recents s); [|done]. by destruct (Recent_try_from _). Qed.
Lemma readable_enable_recents b : readable_update (λ s, Ok (enable_recents b s)).
Proof.
  apply readable_same. intros s. unfold enable_recents. destruct (s_recents s), b; try done.
  pose proof (readable_recents (s <| s_recents := Some [] |>)) as E. exact E.
Qed.
Lemma readable_seed seed : readable_update (λ s, Ok (insert_rollout_seed seed s)).
Proof. apply readable_same. intros s. unfold insert_rollout_seed. by destruct (s_rollout_threshold_seed s). Qed.
Lemma readable_lists f : readable_update (set_custom_lists f).
Proof.
  intros s s' Hs E. unfold set_custom_lists in E. apply result_bind_ok in E as (ls & _ & [= <-]). by apply (same_wire_ok s).
Qed.
Lemma readable_methods box f : (∀ l l', methods_all AccessMethod_ok l → f l = Ok l' → methods_all AccessMethod_ok l') →
  readable_update (set_access_methods box f).
Proof.
  intros Hf s s' [] E. unfold set_access_methods in E. apply result_bind_ok in E as (ms & E & [= <-]).
  destruct (f (s_api_access_methods s)) as [ms'|] eqn:Ef; [|done]. injection E as ->. split; try done. by eapply Hf.
Qed.
Lemma readable_update_method id f l l' : (∀ m, AccessMethod_ok (access_method m) → AccessMethod_ok (access_method (f m))) →
  methods_all AccessMethod_ok l → update_method id f l = Ok l' → methods_all AccessMethod_ok l'.
Proof. intros Hf Hl. unfold update_method. intros ([b l1] & E & [= <-])%result_bind_ok. by apply (update_all AccessMethod_ok) in E. Qed.
Lemma readable_clear_methods : readable_update (λ s, Ok (s <| s_api_access_methods ::= access_methods.clear_custom |>)).
Proof. intros s s' [] [= <-]. split; try done. by apply (clear_custom_all AccessMethod_ok). Qed.
Lemma in_country_ok code : RelaySettings_ok (in_country code).
Proof. by repeat split. Qed.
Lemma default_readable beta ids : Settings_ok (default_settings beta ids).
Proof.
  apply (same_wire_ok (Settings_default ids)); [by unfold default_settings; destruct beta|].
  split; cbn; [apply in_country_ok|done..|]. by repeat constructor.
Qed.
End Updates.

(** ** Runs *)

Section Runs.
Context `{SettingsJson} `{TargetStateJson} `{PatchJson} `{Keys} `{IpNetworkCrate} `{Host}.
Context `{!WireText} `{Chrono} `{VersionText}.
Context (beta : bool) (VERSION : Version) (chars : string → nat).
Context (key_bytes : string → list Z) (lookup : string → option (list IpAddr)).

(** The copies of the settings that leave the daemon. *)
Definition copy (o : Output) : option Settings :=
  match o with Notify (NotifySettings s) | Respond _ (ReSettings s) => Some s | _ => None end.
Definition told (o : Output) : Prop := option_all Settings_ok (copy o).
Definition event_ok (e : InternalDaemonEvent) : Prop := match e with Command c => command_ok c | _ => True end.
Record ready (d : Daemon) : Prop := {
  ready_settings : Settings_ok (settings d);
  ready_told : Forall told (d_out d);
  ready_queue : Forall event_ok (d_queue d)
}.

Lemma ready_changed text s d : Settings_ok s → ready d → ready (settings_changed text s d).
Proof. intros Hs [_ Ht Hq]. split; [done|by constructor|]. apply Forall_app. split; [done|by repeat constructor]. Qed.
Lemma ready_try_update env k f : readable_update f → keeps ready (settings_try_update env k f).
Proof.
  intros Hf. apply keeps_wp. intros d Hd. apply wp_try_update; [done..|]. intros new text E _. apply ready_changed; [|done].
  eapply Hf; [apply Hd|done].
Qed.
Lemma ready_update env k f : readable_update (λ s, Ok (f s)) → keeps ready (settings_update env k f).
Proof. intros Hf. by apply ready_try_update. Qed.
Lemma ready_patch env k blob : keeps ready (persister (merge_validate_patch (io env k) blob)).
Proof.
  apply keeps_wp. intros d Hd. apply wp_patch; [done|]. intros new text E _. apply ready_changed; [|done].
  rewrite (patch_changes_overrides _ _ _ E). by apply (same_wire_ok (persisted (settings d))), persisted_ok, Hd.
Qed.
Lemma ready_reset env k : keeps ready (settings_reset beta env k).
Proof.
  apply keeps_wp. intros d Hd. pose proof (default_readable beta (fresh_ids (io env k))) as Hs.
  apply wp_reset; [intros text; by apply ready_changed|]. intros e. by destruct Hd.
Qed.
Lemma ready_out o : told o → keeps ready (send_out o).
Proof. intros Ho d []. split; [done|by constructor|done]. Qed.
Lemma ready_self e : event_ok e → keeps ready (send_self e).
Proof. intros He d []. split; [done|done|]. apply Forall_app. split; [done|by repeat constructor]. Qed.
Lemma ready_modify f : (∀ d, settings (f d) = settings d ∧ d_out (f d) = d_out d ∧ d_queue (f d) = d_queue d) → keeps ready (modify_daemon f).
Proof. intros Hf d []. destruct (Hf d) as (E1 & E2 & E3). split; cbn; by rewrite ?E1, ?E2, ?E3. Qed.

Ltac readable_leaf :=
  first [ apply readable_relay_settings; first [done | apply in_country_ok] | by apply readable_allowed_ips
        | by apply readable_bridge | by apply readable_obfuscation | apply readable_seed
        | apply readable_enable_recents | apply readable_clear_methods | apply readable_same; apply readable_recents
        | apply readable_same; by intros ? | apply readable_options; by intros ? (? & ? & ?) ].
Ltac ready_leaf :=
  idtac; lazymatch goal with
  | |- keeps _ (settings_try_update _ _ (set_custom_lists _)) => apply ready_try_update, readable_lists
  | |- keeps _ (settings_try_update _ _ (set_access_methods _ (access_methods.remove _))) =>
      apply ready_try_update, readable_methods; intros ? ?; apply remove_all
  | |- keeps _ (settings_try_update _ _ (set_access_methods _ (update_method _ _))) =>
      apply ready_try_update, readable_methods; intros ? ?; by apply readable_update_method
  | |- keeps _ (settings_try_update _ _ (set_access_methods _ (access_methods.append _))) =>
      apply ready_try_update, readable_methods; intros ? ?; by apply append_all
  | |- keeps _ (settings_update _ _ _) => apply ready_update; readable_leaf
  | |- keeps _ (settings_reset _ _ _) => apply ready_reset
  | |- keeps _ (persister _) => apply ready_patch
  | |- keeps _ (send_self _) => apply ready_self; done
  | |- keeps _ (modify_daemon _) => apply ready_modify; by intros ?
  | |- keeps _ (send_out _) => apply ready_out; first [done | match goal with Hd : ready _ |- _ => exact (ready_settings _ Hd) end]
  | |- keeps _ channel => by intros ? []
  end.

Lemma ready_event env e : event_ok e → keeps ready (handle_event beta VERSION chars env e).
Proof.
  intros He. destruct e as [tr|c| | |[[]|]|ae tx| | | |]; cbn [handle_event]; keep_run ready_leaf.
Qed.
Lemma ready_shutdown_tasks env ts : keeps ready (run_shutdown_tasks env ts).
Proof. induction ts as [|[tx e] ts IH]; cbn [run_shutdown_tasks]; [apply keeps_ret|]. apply keeps_bind; [by apply ready_out|done]. Qed.
Lemma ready_finalize env : keeps ready (finalize env).
Proof. apply keeps_get_bind. intros d _. apply keeps_bind; [apply ready_shutdown_tasks|intros _]. keep_run ready_leaf. Qed.
Lemma ready_receive env e : event_ok e → keeps ready (receive beta VERSION chars env e).
Proof.
  intros He. assert (keeps ready (disconnect_tunnel_and_wait env)) as Hdis.
  { apply keeps_get_bind. intros d2 _. destruct (is_disconnected _); [apply ready_finalize|keep_run ready_leaf]. }
  unfold receive. apply keeps_get_bind. intros d _. destruct (d_phase d).
  - apply keeps_bind; [by apply ready_event|intros b]. by apply keeps_when.
  - destruct e; try apply keeps_ret. apply keeps_bind; [keep_run ready_leaf|intros _].
    apply keeps_get_bind. intros d2 _. apply keeps_when. intros _. apply ready_finalize.
  - apply keeps_ret.
Qed.
Lemma ready_task a t : keeps ready (run_task a t).
Proof. keep_run ready_leaf. Qed.

(** Commands come from the management interface. *)
Definition input_served (i : Input) : Prop :=
  match i with
  | InEvent _ (Command c) => ∃ tx rq, sent (rpc.serve key_bytes tx rq) = Some c
  | _ => True
  end.
Lemma served_ok tx rq c : sent (rpc.serve key_bytes tx rq) = Some c → command_ok c.
Proof. pose proof (serve_ok key_bytes tx rq) as Hs. destruct (rpc.serve key_bytes tx rq); cbn in *; try done; intros [= <-]; apply Hs. Qed.
Lemma ready_step d i : input_served i → ready d → ready (step beta VERSION chars key_bytes lookup d i).
Proof.
  intros Hi Hd. destruct i as [env e|env|a j| |data n av g|time|time l]; cbn in *.
  - apply ready_receive; [|done]. destruct e; try done. destruct Hi as (tx & rq & E). by eapply served_ok.
  - destruct Hd as [Hs Ht Hq]. destruct (d_queue d) as [|e q] eqn:E; [by split; rewrite ?E|].
    apply Forall_cons in Hq as [He Hq]. by apply ready_receive; [|split].
  - destruct (d_tasks d !! j) as [t|]; [|done]. apply ready_task. by destruct Hd.
  - destruct (d_param_gen d); [done|]. by destruct Hd.
  - by destruct Hd.
  - destruct (d_reconnection_job d) as [job|]; [|done]. destruct (_ && _); [|done].
    assert (keeps ready (tx ← channel; send_self (Command (Reconnect tx)))) as Hk by (keep_run ready_leaf).
    destruct Hd. by apply Hk.
  - assert (keeps ready (_ ← modify_daemon (λ d, d <| d_parameters_generator ::= λ p, p <| pg_relay_selector ::= set_relays time l |> |>);
      _ ← notify (NotifyRelayList l); tx ← unused; send_self (Command (UpdateDefaultLocationCountry tx)))) as Hk by (keep_run ready_leaf).
    by apply Hk.
Qed.
Lemma ready_start a d0 :
  Settings_ok (p_settings (load beta (io (sa_env a) 0) (sa_file a))) → start beta a = Ok d0 → ready (handle_initial_target_state d0).2.
Proof.
  intros Hw Hs. apply start_inv in Hs as (h & b & E).
  assert (keeps ready (finish_start a)) as Hk by (keep_run ready_leaf).
  assert (keeps ready handle_initial_target_state) as Hi by (keep_run ready_leaf).
  apply Hi. change d0 with (Ok (E := SettingsPersister.Error) b, d0).2. rewrite <- E. apply Hk. split; [done|by repeat constructor|done].
Qed.

(** C20: A client can always read the settings.  If the settings the daemon loads can be read back,
    then whatever requests clients make, in whatever order, with failing writes and resets, every
    copy of the settings the daemon answers with or notifies of is read by the client
    without an error, as [Settings_seen] says: so no request a client makes, whatever its
    content, leaves settings behind that break the clients. *)
Theorem settings_readable a d0 inputs :
  Settings_ok (p_settings (load beta (io (sa_env a) 0) (sa_file a))) → start beta a = Ok d0 → Forall input_served inputs →
  let d := run beta VERSION chars key_bytes lookup (handle_initial_target_state d0).2 inputs in
  Settings_from_proto (Settings_to_proto (settings d)) = Ok (Settings_seen (settings d)) ∧
  ∀ o s, o ∈ d_out d → copy o = Some s → Settings_from_proto (Settings_to_proto s) = Ok (Settings_seen s).
Proof.
  intros Hw Hs Hi. pose proof (ready_start a d0 Hw Hs) as Hd. revert Hd. generalize (handle_initial_target_state d0).2 as d.
  induction Hi as [|i inputs Hi _ IH]; intros d Hd; cbn; [|by apply IH, ready_step]. split; [apply Settings_reads, Hd|].
  intros o s Ho Hc. apply Settings_reads. pose proof (ready_told _ Hd) as Ht. rewrite Forall_forall in Ht.
  specialize (Ht o Ho). unfold told in Ht. by rewrite Hc in Ht.
Qed.
End Runs.
