(* ===== verification/ManagementExample.v ===== *)
(** * Examples for the management interface

    Texts for addresses, networks and versions with the laws that are assumed of them, and the
    theorems at concrete requests, answers and events. *)

From S2P Require Import Prelude NetTypes TunnelTypes TunnelStates Constraints RelayTypes CustomLists RelayMatcher RelaySelector RelayExample.
From S2P Require Import Versions VersionRouter AccessMethods AccessMode Availability DeviceService AccountManager DaemonSettings.
From S2P Require Import SettingsPersister TargetState TunnelParams SettingsPatch GeoIp SplitTunnel DaemonTypes DaemonCommands Daemon.
From S2P Require Import ProtoTypes ProtoSettings ProtoState ManagementInterface ManagementClient ManagementTheorems.
From S2P Require Import SettingsExample DaemonExample.
From Stdlib Require Import Ascii DecimalString.

(** ** Texts *)

(** A value as the number of its encoding. *)
Definition code_text {A} `{Countable A} (a : A) : string := z_text (Zpos (encode a)).
Definition code_parse {A} `{Countable A} (s : string) : option A := z ← z_parse s; match z with Zpos p => decode p | _ => None end.
Lemma code_round_trip {A} `{Countable A} (a : A) : code_parse (code_text a) = Some a.
Proof. unfold code_parse, code_text. rewrite z_round_trip. cbn. apply decode_encode. Qed.

#[local] Existing Instance daemon_keys.
Definition sock_parts (s : SocketAddr) : Z * Z + Z * Z * Z * Z :=
  match s with SockV4 ip port => inl (ip, port) | SockV6 ip port flow scope => inr (ip, port, flow, scope) end.
Definition sock_of (x : Z * Z + Z * Z * Z * Z) : SocketAddr :=
  match x with inl (ip, port) => SockV4 ip port | inr (ip, port, flow, scope) => SockV6 ip port flow scope end.
Definition net_parts (n : IpNetwork) : Z * Z + Z * Z := match n with NetV4 ip p => inl (ip, p) | NetV6 ip p => inr (ip, p) end.
Definition net_of (x : Z * Z + Z * Z) : IpNetwork := match x with inl (ip, p) => NetV4 ip p | inr (ip, p) => NetV6 ip p end.
Definition enclosed (s : string) : string := String.string_of_list_ascii ("n"%char :: String.list_ascii_of_string s ++ ["n"%char]).
Definition disclosed (s : string) : string :=
  let l := tail (String.list_ascii_of_string s) in String.string_of_list_ascii (take (length l - 1) l).
Lemma disclosed_enclosed s : disclosed (enclosed s) = s.
Proof.
  unfold disclosed, enclosed. rewrite String.list_ascii_of_string_of_list_ascii. cbn. rewrite length_app. cbn.
  rewrite Nat.add_sub. rewrite take_app_length. apply String.string_of_list_ascii_of_string.
Qed.

Lemma bytes_string s : string_of_bytes (bytes_of s) = s.
Proof.
  unfold string_of_bytes, bytes_of. rewrite <- (String.string_of_list_ascii_of_string s) at 2. f_equal.
  induction (String.list_ascii_of_string s) as [|a l IH]; [done|]. cbn. rewrite Nat2Z.id, Ascii.ascii_nat_embedding. by f_equal.
Qed.
Lemma nothing_in_front patterns fuel l : Forall (λ p, match p with [] => False | b :: _ => b ≠ 110 end) patterns →
  trim_front patterns fuel (110 :: l) = 110 :: l.
Proof.
  intros Hp. destruct fuel; [done|]. cbn. destruct (List.find _ patterns) as [p|] eqn:E; [|done]. exfalso.
  apply List.find_some in E as [Hin Hs].
  rewrite Forall_forall in Hp. rewrite <- list_elem_of_In in Hin. specialize (Hp p Hin). destruct p as [|b p]; [done|].
  unfold starts_with in Hs. apply bool_decide_eq_true_1 in Hs. cbn in Hs. congruence.
Qed.
Lemma enclosed_trimmed s : trim (enclosed s) = enclosed s.
Proof.
  unfold trim. rewrite <- (bytes_string (enclosed s)) at 2. f_equal.
  assert (bytes_of (enclosed s) = 110 :: bytes_of s ++ [110]) as ->.
  { unfold bytes_of, enclosed. rewrite String.list_ascii_of_string_of_list_ascii. cbn. by rewrite fmap_app. }
  unfold trim_bytes. rewrite nothing_in_front by (by repeat constructor). cbn zeta.
  rewrite app_comm_cons, reverse_app. change (reverse [110]) with [110]. cbn [app].
  rewrite nothing_in_front by (by repeat constructor). by rewrite reverse_cons, reverse_involutive.
Qed.
#[local] Instance wire_text : WireText.
Proof.
  refine {| sock_text s := code_text (sock_parts (clear_flowinfo s)); sock_parse s := sock_of <$> code_parse s;
            net_text n := enclosed (code_text (net_parts n)); net_parse s := net_of <$> code_parse (disclosed s);
            uuid_text := z_text; uuid_parse := z_parse |}.
  - intros a. unfold ipv4_parse, ipv6_text, example_ip_text, z_parse, v6_text. cbn. by destruct (NilEmpty.uint_of_string (z_text a)).
  - intros a. rewrite code_round_trip. by destruct a.
  - intros n. rewrite disclosed_enclosed, code_round_trip. by destruct n.
  - intros n. split; [apply enclosed_trimmed|done].
  - apply z_round_trip.
Defined.
#[local] Instance wire_chrono : Chrono.
Proof. refine {| from_timestamp s n := Some (s * 10 ^ 9 + n); representable _ := True |}. intros s _. by rewrite Z.add_0_r. Defined.
Definition version_parts (v : Version) : Z * Z * option (Z + Z) * option string :=
  (year v, incremental v, (λ p, match p with Alpha n => inl n | Beta n => inr n end) <$> pre_stable v,
   String.string_of_list_ascii <$> dev v).
Definition version_of (x : Z * Z * option (Z + Z) * option string) : Version :=
  {| year := x.1.1.1; incremental := x.1.1.2; pre_stable := (λ p, match p with inl n => Alpha n | inr n => Beta n end) <$> x.1.2;
     dev := String.list_ascii_of_string <$> x.2 |}.
#[local] Instance wire_versions : VersionText.
Proof.
  refine {| version_text v := code_text (version_parts v); version_parse s := version_of <$> code_parse s;
            path_text p := Some (code_text (p.1, String.string_of_list_ascii p.2));
            path_from s := match code_parse s with Some (dir, name) => (dir, String.list_ascii_of_string name) | None => (EmptyString, []) end |}.
  - intros [y i p d]. rewrite code_round_trip. unfold version_parts, version_of. cbn. repeat f_equal.
    + by destruct p as [[]|].
    + destruct d; cbn; [|done]. by rewrite String.list_ascii_of_string_of_list_ascii.
  - intros [dir name] s [= <-]. rewrite code_round_trip. cbn. by rewrite String.list_ascii_of_string_of_list_ascii.
Defined.

(** ** Calls, answers and events *)

(** Traffic of one network only, through a relay of a provider. *)
Definition wished_relays : RelaySettings :=
  RsNormal (RelayExample.settings true (Only (LcLocation (GCountry "se")))
    <| rc_wireguard_constraints ::= λ w, w <| wc_allowed_ips := Only {| allowed_nets := [NetV4 167772160 8] |} |> |>).
Lemma wished_relays_ok : RelaySettings_ok wished_relays.
Proof. split; [exact I|]. split; [split; [exact I|by repeat constructor]|exact I]. Qed.
Lemma calls_arrive_witness :
  RelaySettings_seen wished_relays = wished_relays ∧
  sent (rpc.serve repeat_key 7 (request (client.set_relay_settings wished_relays))) = Some (SetRelaySettings 7 wished_relays).
Proof.
  assert (RelaySettings_seen wished_relays = wished_relays) as E by reflexivity. split; [exact E|]. rewrite <- E at 2.
  apply (calls_arrive repeat_key (λ _, EmptyString)), means_relay_settings, wished_relays_ok.
Defined.

Lemma base_ok : Settings_ok base.
Proof. apply (same_wire_ok (default_settings false (1, 2, 3))); [done|apply default_readable]. Qed.
(** The method with the identifier 2 is that of the bridges. *)
Lemma answers_read_witness :
  exchange repeat_key 7 (client.get_api_access_method 2) (ReSettings base) =
  Some (Ok (access_methods.create_builtin 2 Bridge)).
Proof.
  apply (answers_read repeat_key (λ _, EmptyString)).
  apply (answers_access_method repeat_key (λ _, EmptyString) base (access_methods.create_builtin 2 Bridge)).
  - exact base_ok.
  - apply access_methods.default_ok. apply (bool_decide_unpack _). vm_compute. exact I.
  - right. left.
Defined.

(** The first client goes before the last event, the second came after the first one. *)
Definition subscriptions0 : list broadcast.Op :=
  [broadcast.Listen; broadcast.Notify (NotifySettings base); broadcast.Listen; broadcast.Notify (NotifyRelayList sweden);
   broadcast.Close 0; broadcast.Notify (NotifyState (TsDisconnected None true))].
Lemma sweden_ok : RelayList_ok sweden.
Proof. split; cbn; repeat first [done | apply Forall_cons; split | apply Forall_nil | constructor]. Qed.
Lemma events_read_witness :
  broadcast.own_stream 0 subscriptions0 =
    Some {| broadcast.open := false; broadcast.received := [NotifySettings base; NotifyRelayList sweden] |} ∧
  option_Forall2 (stream_reads (λ _, EmptyString))
    (broadcast.streams (broadcast.run (on_wire repeat_key <$> subscriptions0)) !! 0%nat) (broadcast.own_stream 0 subscriptions0).
Proof.
  split; [reflexivity|]. apply (events_read repeat_key (λ _, EmptyString)).
  repeat first [exact I | exact base_ok | exact sweden_ok | apply Forall_cons; split | apply Forall_nil].
Defined.

(** ** A run *)

(** The wishes of the daemon's example, made by a client. *)
Lemma settings_readable_witness :
  settings wished = variant true true false ∧
  Settings_from_proto (Settings_to_proto (settings wished)) = Ok (Settings_seen (settings wished)) ∧
  ∀ o s, o ∈ d_out wished → copy o = Some s → Settings_from_proto (Settings_to_proto s) = Ok (Settings_seen s).
Proof.
  split; [vm_compute; reflexivity|].
  apply (settings_readable false version0 String.length repeat_key no_hosts answers0 started wishes).
  - exact base_ok.
  - exact daemon_started.
  - apply Forall_cons. split; [by exists 1%nat, (ReqSetAllowLan true)|].
    apply Forall_cons. split; [by exists 2%nat, ConnectTunnel|].
    apply Forall_cons. split; [by exists 3%nat, (ReqSetLockdownMode true)|apply Forall_nil; exact I].
Defined.
