(* ===== verification/Routing.v ===== *)
(** * The route manager on Linux

    talpid-routing/src/lib.rs (nodes, routes and required routes),
    talpid-routing/src/unix/linux.rs ([RouteManagerImpl]: policy routing rules,
    routes, the link map, MTU of the route to a relay) and
    talpid-routing/src/unix/mod.rs ([RouteManagerHandle]).

    The kernel is reached through the crates `rtnetlink` and
    `netlink-packet-route`, which are not part of the repository: it is the class
    [Rtnetlink] over a state [K], whose operations answer the requests that the
    manager sends.  A message that the code builds with the crates' builders is
    the record of what the builder is told.  [RPanic] is a panic. *)

From S2P Require Import Prelude NetTypes TunnelThread.

(** ** Nodes and routes (lib.rs) *)

Record Node : Set := Node_mk {
  n_ip : option IpAddr;
  n_device : option string
}.
Definition Node_new (address : IpAddr) (iface_name : string) : Node := Node_mk (Some address) (Some iface_name).
Definition Node_address (address : IpAddr) : Node := Node_mk (Some address) None.
Definition Node_device (iface_name : string) : Node := Node_mk None (Some iface_name).

(** `libc::RT_TABLE_MAIN` and `libc::RT_TABLE_COMPAT`. *)
Definition RT_TABLE_MAIN : Z := 254.
Definition RT_TABLE_COMPAT : Z := 252.

Record Route : Set := {
  r_node : Node;
  r_prefix : IpNetwork;
  r_metric : option Z;
  r_table_id : Z;
  r_mtu : option Z
}.
Definition Route_new (node : Node) (prefix : IpNetwork) : Route :=
  {| r_node := node; r_prefix := prefix; r_metric := None; r_table_id := RT_TABLE_MAIN; r_mtu := None |}.
Definition Route_table (new_id : Z) (r : Route) : Route :=
  {| r_node := r_node r; r_prefix := r_prefix r; r_metric := r_metric r; r_table_id := new_id; r_mtu := r_mtu r |}.
Definition Route_with_mtu (mtu : option Z) (r : Route) : Route :=
  {| r_node := r_node r; r_prefix := r_prefix r; r_metric := r_metric r; r_table_id := r_table_id r; r_mtu := mtu |}.

(** On Linux every node is a real one. *)
Inductive NetNode : Set := RealNode (node : Node).

Record RequiredRoute : Set := {
  rr_prefix : IpNetwork;
  rr_node : NetNode;
  rr_main_table : bool;
  rr_mtu : option Z
}.
Definition RequiredRoute_new (prefix : IpNetwork) (node : Node) : RequiredRoute :=
  {| rr_prefix := prefix; rr_node := RealNode node; rr_main_table := true; rr_mtu := None |}.
Definition use_main_table (main_table : bool) (r : RequiredRoute) : RequiredRoute :=
  {| rr_prefix := rr_prefix r; rr_node := rr_node r; rr_main_table := main_table; rr_mtu := rr_mtu r |}.
Definition set_route_mtu (mtu : Z) (r : RequiredRoute) : RequiredRoute :=
  {| rr_prefix := rr_prefix r; rr_node := rr_node r; rr_main_table := rr_main_table r; rr_mtu := Some mtu |}.

#[global] Instance Node_eq_dec : EqDecision Node.
Proof. solve_decision. Defined.
#[global] Instance NetNode_eq_dec : EqDecision NetNode.
Proof. solve_decision. Defined.
#[global] Instance Route_eq_dec : EqDecision Route.
Proof. solve_decision. Defined.
#[global] Instance RequiredRoute_eq_dec : EqDecision RequiredRoute.
Proof. solve_decision. Defined.

(** ** Netlink messages *)

Inductive AddressFamily : Set := Inet | Inet6 | OtherFamily (af : Z).
Inductive RuleAction : Set := ToTable | OtherAction (action : Z).

(** `RuleFlags::Invert`; the flags are a bit field. *)
Definition RULE_INVERT : Z := 2.

Inductive RuleAttribute : Set :=
| SuppressPrefixLen (len : Z)
| RuleTable (table : Z)
| FwMark (mark : Z)
| OtherRuleAttribute (kind : Z) (payload : list Z).

(** The header fields that the manager compares; in the rules that it builds
    the other ones keep their default, zero. *)
Record RuleMessage : Set := {
  ru_family : AddressFamily;
  ru_action : RuleAction;
  ru_flags : Z;
  ru_attributes : list RuleAttribute
}.

#[global] Instance AddressFamily_eq_dec : EqDecision AddressFamily.
Proof. solve_decision. Defined.
#[global] Instance RuleAction_eq_dec : EqDecision RuleAction.
Proof. solve_decision. Defined.
#[global] Instance RuleAttribute_eq_dec : EqDecision RuleAttribute.
Proof. solve_decision. Defined.
#[global] Instance RuleMessage_eq_dec : EqDecision RuleMessage.
Proof. solve_decision. Defined.

Inductive RouteAddress : Set := RaInet (a : Z) | RaInet6 (a : Z) | RaOther (bytes : list Z).
Inductive RouteVia : Set := ViaInet (a : Z) | ViaInet6 (a : Z) | ViaOther (bytes : list Z).
Inductive RouteMetric : Set := MetricMtu (mtu : Z) | OtherMetric (kind value : Z).
Inductive RouteScope : Set := ScopeLink | ScopeUniverse.

Inductive RouteAttribute : Set :=
| Oif (index : Z)
| Via (addr : RouteVia)
| Destination (addr : RouteAddress)
| Gateway (addr : RouteAddress)
| Priority (priority : Z)
| RouteTable (id : Z)
| Metrics (metrics : list RouteMetric)
| OtherRouteAttribute (kind : Z).

Record RouteMessage : Set := {
  rm_family : AddressFamily;
  rm_destination_prefix_length : Z;
  rm_table : Z;
  rm_attributes : list RouteAttribute
}.

(** What the builder of a new route is told; the destination gives the family.
    The request carries NLM_F_REPLACE. *)
Record RouteAdd : Set := {
  ra_destination : IpNetwork;
  ra_scope : option RouteScope;
  ra_gateway : option IpAddr;
  ra_output_interface : option Z;
  ra_table_id : option Z;
  ra_priority : option Z;
  ra_mtu : option Z
}.

(** A deletion: protocol and type are unspecified. *)
Record RouteDel : Set := {
  rd_destination : IpNetwork;
  rd_scope : RouteScope;
  rd_table_id : Z;
  rd_attributes : list RouteAttribute
}.

Inductive LinkLayerType : Set := Loopback | OtherLink (kind : Z).
Inductive LinkAttribute : Set := IfName (name : string) | LinkMtu (mtu : Z) | OtherLinkAttribute (kind : Z).
Record LinkMessage : Set := {
  lm_index : Z;
  lm_link_layer_type : LinkLayerType;
  lm_attributes : list LinkAttribute
}.

#[global] Instance LinkAttribute_eq_dec : EqDecision LinkAttribute.
Proof. solve_decision. Defined.
#[global] Instance RouteScope_eq_dec : EqDecision RouteScope.
Proof. solve_decision. Defined.
#[global] Instance RouteAdd_eq_dec : EqDecision RouteAdd.
Proof. solve_decision. Defined.

(** Messages of the kernel, as requests are answered and as they come in. *)
Inductive Payload : Set :=
| NewRuleMsg (rule : RuleMessage)
| ErrorMsg (code : Z)
| OtherMsg.
Inductive NetlinkMessage : Set :=
| NewLink (link : LinkMessage)
| DelLink (link : LinkMessage)
| NewRouteMsg (route : RouteMessage)
| DelRouteMsg (route : RouteMessage)
| OtherNetlinkMessage.

(** `rtnetlink::Error`. *)
Inductive RtError : Set := NetlinkError (code : Z) | OtherRtError.

Inductive RuleRequest : Set := GetRule | NewRule (rule : RuleMessage) | DelRule (rule : RuleMessage).

(** ** The kernel and the netlink crates *)

Class Rtnetlink (K : Type) : Type := {
  nl_connect : K → result unit unit * K;
  nl_bind : K → result unit unit * K;
  nl_request : RuleRequest → K → result RtError (list Payload) * K;
  nl_route_add : RouteAdd → K → result RtError unit * K;
  nl_route_del : RouteDel → K → result RtError unit * K;
  nl_route_get : IpAddr → option Z → K → result RtError (option RouteMessage) * K;
  nl_links : K → list (result RtError LinkMessage) * K
}.

(** The bytes that an address attribute is emitted as. *)
Class NetlinkPacket : Set := {
  address_bytes : RouteAddress → list Z;
  via_bytes : RouteVia → list Z
}.

(** A [HashSet] is a duplicate-free list; the order in which one is iterated is
    not specified. *)
Class HashOrder : Type := {
  iter_order : list Route → list Route;
  iter_order_perm l : iter_order l ≡ₚ l
}.

Definition set_insert {A} `{EqDecision A} (x : A) (l : list A) : list A :=
  if bool_decide (x ∈ l) then l else l ++ [x].
Definition set_remove {A} `{EqDecision A} (x : A) (l : list A) : list A :=
  filter (λ y, y ≠ x) l.

(** ** Routing rules *)

Definition SUPPRESS_RULE_V4 : RuleMessage :=
  {| ru_family := Inet; ru_action := ToTable; ru_flags := 0;
     ru_attributes := [SuppressPrefixLen 0; RuleTable RT_TABLE_MAIN] |}.
Definition with_family (f : AddressFamily) (r : RuleMessage) : RuleMessage :=
  {| ru_family := f; ru_action := ru_action r; ru_flags := ru_flags r; ru_attributes := ru_attributes r |}.
Definition SUPPRESS_RULE_V6 : RuleMessage := with_family Inet6 SUPPRESS_RULE_V4.

Definition no_fwmark_rule_v4 (fwmark table : Z) : RuleMessage :=
  {| ru_family := Inet; ru_action := ToTable; ru_flags := RULE_INVERT;
     ru_attributes := [FwMark fwmark; RuleTable table] |}.
Definition no_fwmark_rule_v6 (fwmark table : Z) : RuleMessage :=
  with_family Inet6 (no_fwmark_rule_v4 fwmark table).

Definition all_rules (fwmark table : Z) : list RuleMessage :=
  [no_fwmark_rule_v4 fwmark table; no_fwmark_rule_v6 fwmark table; SUPPRESS_RULE_V4; SUPPRESS_RULE_V6].

(** ** The state of the manager *)

Module imp.
Inductive Error : Set :=
| Connect
| Bind
| Netlink (e : RtError)
| InvalidRoute
| InvalidIpBytes
| InvalidNetworkPrefix
| UnknownDeviceIndex (index : Z)
| GetRoute (e : RtError)
| NoRoute
| InvalidRouteNode
| LinkNotFound
| NoFreeRoutingTableId
| Shutdown.
End imp.

Record NetworkInterface : Set := {
  if_name : string;
  if_link_layer_type : LinkLayerType
}.
Definition is_loopback (i : NetworkInterface) : bool :=
  match if_link_layer_type i with Loopback => true | _ => false end.

Inductive CallbackMessage : Set := CbNewRoute (r : Route) | CbDelRoute (r : Route).

(** The sending half of a listener's channel: whether the receiver still
    exists, and what was sent. *)
Record Listener : Set := { ls_open : bool; ls_sent : list CallbackMessage }.

(** The [BTreeMap] of interfaces is the list of its entries in key order. *)
Record RouteManagerImpl : Set := {
  iface_map : list (Z * NetworkInterface);
  listeners : list Listener;
  added_routes : list Route;
  table_id : Z;
  fwmark : Z
}.

Definition with_ifaces (l : list (Z * NetworkInterface)) (m : RouteManagerImpl) : RouteManagerImpl :=
  {| iface_map := l; listeners := listeners m; added_routes := added_routes m; table_id := table_id m; fwmark := fwmark m |}.
Definition with_listeners (l : list Listener) (m : RouteManagerImpl) : RouteManagerImpl :=
  {| iface_map := iface_map m; listeners := l; added_routes := added_routes m; table_id := table_id m; fwmark := fwmark m |}.
Definition with_added (l : list Route) (m : RouteManagerImpl) : RouteManagerImpl :=
  {| iface_map := iface_map m; listeners := listeners m; added_routes := l; table_id := table_id m; fwmark := fwmark m |}.

Fixpoint btree_insert {V} (k : Z) (v : V) (l : list (Z * V)) : list (Z * V) :=
  match l with
  | [] => [(k, v)]
  | (k', v') :: l' =>
      if k <? k' then (k, v) :: l
      else if k =? k' then (k, v) :: l'
      else (k', v') :: btree_insert k v l'
  end.
Definition btree_remove {V} (k : Z) (l : list (Z * V)) : list (Z * V) :=
  List.filter (λ e, negb (e.1 =? k)) l.
Definition btree_get {V} (k : Z) (l : list (Z * V)) : option V :=
  snd <$> List.find (λ e, e.1 =? k) l.

(** ** Computations of the manager *)

(** A result of the manager, or a panic. *)
Inductive Outcome (A : Type) : Type := ROk (a : A) | RErr (e : imp.Error) | RPanic.
Arguments ROk {A} a.
Arguments RErr {A} e.
Arguments RPanic {A}.

Definition RM (K A : Type) : Type := RouteManagerImpl * K → Outcome A * (RouteManagerImpl * K).
#[global] Instance RM_ret K : MRet (RM K) := λ A a s, (ROk a, s).
#[global] Instance RM_bind K : MBind (RM K) := λ A B f c s,
  match c s with
  | (ROk a, s') => f a s'
  | (RErr e, s') => (RErr e, s')
  | (RPanic, s') => (RPanic, s')
  end.

Definition throw {K A} (e : imp.Error) : RM K A := λ s, (RErr e, s).
Definition lift_result {K A} (r : result imp.Error A) : RM K A := λ s,
  (match r with Ok a => ROk a | Err e => RErr e end, s).
Definition get_manager {K} : RM K RouteManagerImpl := λ s, (ROk s.1, s).
Definition modify_manager {K} (f : RouteManagerImpl → RouteManagerImpl) : RM K unit := λ s, (ROk tt, (f s.1, s.2)).

(** A call of the kernel whose error is wrapped in [e]. *)
Definition kernel {K A} (e : RtError → imp.Error) (op : K → result RtError A * K) : RM K A := λ s,
  let '(r, k) := op s.2 in
  (match r with Ok a => ROk a | Err x => RErr (e x) end, (s.1, k)).

(** [for x in l { f(x)?; }] *)
Fixpoint for_each {K A} (f : A → RM K unit) (l : list A) : RM K unit :=
  match l with
  | [] => mret tt
  | x :: l => _ ← f x; for_each f l
  end.

(** [if let Err(e) = f() { log }] *)
Definition log_error {K} (f : RM K unit) : RM K unit := λ s,
  match f s with
  | (RErr _, s') => (ROk tt, s')
  | o => o
  end.
(** The result itself, as it is sent to the caller. *)
Definition result_of {K A} (f : RM K A) : RM K (result imp.Error A) := λ s,
  match f s with
  | (ROk a, s') => (ROk (Ok a), s')
  | (RErr e, s') => (ROk (Err e), s')
  | (RPanic, s') => (RPanic, s')
  end.

(** ** Addresses and links *)

Definition ESRCH : Z := 3.
Definition ENOENT : Z := 2.
Definition ENETUNREACH : Z := 101.

Definition compat_table_id (id : Z) : Z := if 255 <? id then RT_TABLE_COMPAT else wrap 8 id.

Definition ip_to_route_address (addr : IpAddr) : RouteAddress :=
  match addr with AddrV4 a => RaInet a | AddrV6 a => RaInet6 a end.
Definition ip_to_route_via (addr : IpAddr) : RouteVia :=
  match addr with AddrV4 a => ViaInet a | AddrV6 a => ViaInet6 a end.

Definition parse_ip (bytes : list Z) : result imp.Error IpAddr :=
  if (length bytes =? 4)%nat then Ok (AddrV4 (le_val (rev bytes)))
  else if (length bytes =? 16)%nat then Ok (AddrV6 (le_val (rev bytes)))
  else Err imp.InvalidIpBytes.

Fixpoint if_name_attribute (l : list LinkAttribute) : option string :=
  match l with
  | [] => None
  | IfName name :: _ => Some name
  | _ :: l => if_name_attribute l
  end.
Definition map_interface (msg : LinkMessage) : option (Z * NetworkInterface) :=
  match if_name_attribute (lm_attributes msg) with
  | Some name => Some (lm_index msg, {| if_name := name; if_link_layer_type := lm_link_layer_type msg |})
  | None => None
  end.

(** [IpNetwork::new]. *)
Definition prefix_ok (n : IpNetwork) : bool :=
  match n with
  | NetV4 _ p => (0 <=? p) && (p <=? 32)
  | NetV6 _ p => (0 <=? p) && (p <=? 128)
  end.
Definition IpNetwork_new (ip : IpAddr) (prefix : Z) : result unit IpNetwork :=
  let n := match ip with AddrV4 a => NetV4 a prefix | AddrV6 a => NetV6 a prefix end in
  if prefix_ok n then Ok n else Err tt.

(** Whether a prefix is neither the default one nor that of one host. *)
Definition inner_prefix (n : IpNetwork) : bool :=
  match n with
  | NetV4 _ p => (0 <? p) && (p <? 32)
  | NetV6 _ p => (0 <? p) && (p <? 128)
  end.

(** [Ipv4Addr::LOCALHOST] and [Ipv6Addr::LOCALHOST]. *)
Definition LOCALHOST (is_ipv4 : bool) : IpAddr :=
  if is_ipv4 then AddrV4 (Ipv4Addr_new 127 0 0 1) else AddrV6 1.

Definition find_iface_idx (m : RouteManagerImpl) (iface_name : string) : option Z :=
  fst <$> List.find (λ e, bool_decide (if_name e.2 = iface_name)) (iface_map m).

(** The interface index of a node's device, if it has a device that is known. *)
Definition node_iface (m : RouteManagerImpl) (node : Node) : option Z :=
  match n_device node with
  | Some interface_name => find_iface_idx m interface_name
  | None => None
  end.

(** ** The operations of the manager *)

Section Manager.
Context {K : Type} `{Rtnetlink K} `{NetlinkPacket} `{HashOrder}.

(** *** Rules *)

Definition handle_request (req : RuleRequest) : RM K (list Payload) := kernel imp.Netlink (nl_request req).

(** The first error among the answers to a request. *)
Fixpoint first_error (l : list Payload) : option Z :=
  match l with
  | [] => None
  | ErrorMsg code :: _ => Some code
  | _ :: l => first_error l
  end.

(** Rules up to the first error. *)
Fixpoint collect_rules (l : list Payload) (rules : list RuleMessage) : result imp.Error (list RuleMessage) :=
  match l with
  | [] => Ok rules
  | NewRuleMsg rule :: l => collect_rules l (rules ++ [rule])
  | ErrorMsg error :: _ => Err (imp.Netlink (NetlinkError error))
  | OtherMsg :: l => collect_rules l rules
  end.

Definition get_rules : RM K (list RuleMessage) :=
  response ← handle_request GetRule;
  lift_result (collect_rules response []).

(** The first error that does not say that there is no such rule. *)
Fixpoint deletion_error (l : list Payload) : option Z :=
  match l with
  | [] => None
  | ErrorMsg code :: l => if Z.abs code =? ENOENT then deletion_error l else Some code
  | _ :: l => deletion_error l
  end.

Definition delete_rule_if_exists (rule : RuleMessage) : RM K unit :=
  response ← handle_request (DelRule rule);
  match deletion_error response with
  | Some error => throw (imp.Netlink (NetlinkError error))
  | None => mret tt
  end.

(** Whether a rule of the kernel counts as one of ours: irrelevant attributes
    and flags are ignored. *)
Definition rule_matches (rule found_rule : RuleMessage) : bool :=
  bool_decide (ru_family found_rule = ru_family rule) &&
  bool_decide (ru_action found_rule = ru_action rule) &&
  (Z.land (ru_flags found_rule) (ru_flags rule) =? ru_flags rule) &&
  forallb (λ nla, bool_decide (nla ∈ ru_attributes found_rule)) (ru_attributes rule).

Definition clear_routing_rules : RM K unit :=
  rules ← get_rules;
  m ← get_manager;
  for_each (λ rule,
      match List.find (rule_matches rule) rules with
      | Some rule => delete_rule_if_exists rule
      | None => mret tt
      end) (all_rules (fwmark m) (table_id m)).

Definition new_rule (rule : RuleMessage) : RM K unit :=
  response ← handle_request (NewRule rule);
  match first_error response with
  | Some error => throw (imp.Netlink (NetlinkError error))
  | None => mret tt
  end.

(** The rules for the families in use. *)
Definition wanted_rules (fwmark table : Z) (enable_ipv6 : bool) : list RuleMessage :=
  List.filter (λ rule, bool_decide (ru_family rule = Inet) || enable_ipv6) (all_rules fwmark table).

Definition create_routing_rules (enable_ipv6 : bool) : RM K unit :=
  _ ← clear_routing_rules;
  m ← get_manager;
  for_each new_rule (wanted_rules (fwmark m) (table_id m) enable_ipv6).

(** *** Routes *)

(** The message of [add_route_direct]. *)
Definition add_message (m : RouteManagerImpl) (route : Route) : RouteAdd :=
  {| ra_destination := r_prefix route;
     ra_scope := if inner_prefix (r_prefix route) then Some ScopeLink else None;
     ra_gateway :=
       match r_prefix route, n_ip (r_node route) with
       | NetV4 _ _, Some (AddrV4 node_address) => Some (AddrV4 node_address)
       | NetV6 _ _, Some (AddrV6 node_address) => Some (AddrV6 node_address)
       | _, _ => None
       end;
     ra_output_interface := node_iface m (r_node route);
     ra_table_id :=
       if compat_table_id (r_table_id route) =? RT_TABLE_COMPAT then Some (r_table_id route) else None;
     ra_priority := r_metric route;
     ra_mtu := r_mtu route |}.

Definition add_route_direct (route : Route) : RM K unit :=
  m ← get_manager;
  kernel imp.Netlink (nl_route_add (add_message m route)).

Definition add_route (route : Route) : RM K unit :=
  _ ← add_route_direct route;
  modify_manager (λ m, with_added (set_insert route (added_routes m)) m).

(** The message of [delete_route]: its attributes besides the table. *)
Definition delete_attributes (m : RouteManagerImpl) (route : Route) : list RouteAttribute :=
  match node_iface m (r_node route) with Some iface_idx => [Oif iface_idx] | None => [] end ++
  match n_ip (r_node route) with
  | Some gateway =>
      match n_device (r_node route) with
      | Some _ => [Gateway (ip_to_route_address gateway)]
      | None => [Via (ip_to_route_via gateway)]
      end
  | None => []
  end ++
  match r_metric route with Some metric => [Priority metric] | None => [] end.
Definition delete_message (m : RouteManagerImpl) (route : Route) : RouteDel :=
  let compat_table := compat_table_id (r_table_id route) in
  {| rd_destination := r_prefix route;
     rd_scope := if inner_prefix (r_prefix route) then ScopeLink else ScopeUniverse;
     rd_table_id := compat_table;
     rd_attributes :=
       (if compat_table =? RT_TABLE_COMPAT then [RouteTable (r_table_id route)] else []) ++ delete_attributes m route |}.

Definition delete_route (route : Route) : RM K unit :=
  m ← get_manager;
  if prefix_ok (r_prefix route)
  then kernel imp.Netlink (nl_route_del (delete_message m route))
  else λ s, (RPanic, s).

Definition delete_route_if_exists (route : Route) : RM K unit := λ s,
  match delete_route route s with
  | (RErr (imp.Netlink (NetlinkError msg)) as e, s') => if msg =? - ESRCH then (ROk tt, s') else (e, s')
  | o => o
  end.

(** The routes of the manager's own tables. *)
Definition normal_route (table_id : Z) (route : RequiredRoute) : Route :=
  match rr_node route with
  | RealNode node =>
      let table := if rr_main_table route then RT_TABLE_MAIN else table_id in
      Route_with_mtu (rr_mtu route) (Route_table table (Route_new node (rr_prefix route)))
  end.

Definition add_required_routes (required_routes : list RequiredRoute) : RM K unit :=
  m ← get_manager;
  let required_normal_routes :=
    fold_left (λ set route, set_insert (normal_route (table_id m) route) set) required_routes [] in
  for_each add_route (iter_order required_normal_routes).

Definition cleanup_routes : RM K unit :=
  m ← get_manager;
  _ ← modify_manager (with_added []);
  for_each (λ route, log_error (delete_route_if_exists route)) (iter_order (added_routes m)).

Definition process_deleted_route (route : Route) : RM K unit :=
  modify_manager (λ m, with_added (set_remove route (added_routes m)) m).

(** *** Messages of the kernel *)

(** What the loop over the attributes of a route has found. *)
Record Parsed : Set := {
  pa_prefix : IpNetwork;
  pa_node_addr : option IpAddr;
  pa_device : option NetworkInterface;
  pa_metric : option Z;
  pa_gateway : option IpAddr;
  pa_table_id : Z;
  pa_route_mtu : option Z
}.

Fixpoint find_mtu (metrics : list RouteMetric) : option Z :=
  match metrics with
  | [] => None
  | MetricMtu mtu :: _ => Some mtu
  | _ :: metrics => find_mtu metrics
  end.

Definition parse_attribute (m : RouteManagerImpl) (is_ipv4 : bool) (destination_length : Z) (p : Parsed)
    (nla : RouteAttribute) : result imp.Error Parsed :=
  let '{| pa_prefix := prefix; pa_node_addr := node_addr; pa_device := device; pa_metric := metric;
          pa_gateway := gateway; pa_table_id := table; pa_route_mtu := route_mtu |} := p in
  match nla with
  | Oif device_idx =>
      match btree_get device_idx (iface_map m) with
      | Some route_device =>
          if negb (is_loopback route_device)
          then Ok {| pa_prefix := prefix; pa_node_addr := node_addr; pa_device := Some route_device; pa_metric := metric;
                     pa_gateway := gateway; pa_table_id := table; pa_route_mtu := route_mtu |}
          else Ok {| pa_prefix := prefix; pa_node_addr := node_addr; pa_device := device; pa_metric := metric;
                     pa_gateway := Some (LOCALHOST is_ipv4); pa_table_id := table; pa_route_mtu := route_mtu |}
      | None => Err (imp.UnknownDeviceIndex device_idx)
      end
  | Via addr =>
      ip ← parse_ip (via_bytes addr);
      Ok {| pa_prefix := prefix; pa_node_addr := Some ip; pa_device := device; pa_metric := metric;
            pa_gateway := gateway; pa_table_id := table; pa_route_mtu := route_mtu |}
  | Destination addr =>
      ip ← parse_ip (address_bytes addr);
      network ← map_err (λ _, imp.InvalidNetworkPrefix) (IpNetwork_new ip destination_length);
      Ok {| pa_prefix := network; pa_node_addr := node_addr; pa_device := device; pa_metric := metric;
            pa_gateway := gateway; pa_table_id := table; pa_route_mtu := route_mtu |}
  | Gateway gateway_ip =>
      ip ← parse_ip (address_bytes gateway_ip);
      Ok {| pa_prefix := prefix; pa_node_addr := node_addr; pa_device := device; pa_metric := metric;
            pa_gateway := Some ip; pa_table_id := table; pa_route_mtu := route_mtu |}
  | Priority priority =>
      Ok {| pa_prefix := prefix; pa_node_addr := node_addr; pa_device := device; pa_metric := Some priority;
            pa_gateway := gateway; pa_table_id := table; pa_route_mtu := route_mtu |}
  | RouteTable id =>
      Ok {| pa_prefix := prefix; pa_node_addr := node_addr; pa_device := device; pa_metric := metric;
            pa_gateway := gateway; pa_table_id := id; pa_route_mtu := route_mtu |}
  | Metrics metrics =>
      Ok {| pa_prefix := prefix; pa_node_addr := node_addr; pa_device := device; pa_metric := metric;
            pa_gateway := gateway; pa_table_id := table; pa_route_mtu := find_mtu metrics |}
  | OtherRouteAttribute _ => Ok p
  end.

Definition parse_route_message (m : RouteManagerImpl) (msg : RouteMessage) : result imp.Error (option Route) :=
  let destination_length := rm_destination_prefix_length msg in
  let parse (is_ipv4 : bool) : result imp.Error (option Route) :=
    prefix ← map_err (λ _, imp.InvalidNetworkPrefix)
      (IpNetwork_new (if is_ipv4 then AddrV4 0 else AddrV6 0) destination_length);
    p ← try_fold (parse_attribute m is_ipv4 destination_length) (rm_attributes msg)
      {| pa_prefix := prefix; pa_node_addr := None; pa_device := None; pa_metric := None;
         pa_gateway := None; pa_table_id := rm_table msg; pa_route_mtu := None |};
    if negb (bool_decide (is_Some (pa_device p))) && negb (bool_decide (is_Some (pa_node_addr p))) &&
       negb (bool_decide (is_Some (pa_gateway p)))
    then Err imp.InvalidRoute
    else
      let node := {| n_ip := match pa_node_addr p with Some a => Some a | None => pa_gateway p end;
                     n_device := if_name <$> pa_device p |} in
      Ok (Some {| r_node := node; r_prefix := pa_prefix p; r_metric := pa_metric p;
                  r_table_id := pa_table_id p; r_mtu := pa_route_mtu p |}) in
  match rm_family msg with
  | Inet => parse true
  | Inet6 => parse false
  | OtherFamily _ => Ok None
  end.

Definition notify_change_listeners (message : CallbackMessage) : RM K unit :=
  modify_manager (λ m, with_listeners
    (map (λ l, {| ls_open := true; ls_sent := ls_sent l ++ [message] |}) (List.filter ls_open (listeners m))) m).

Definition process_netlink_message (msg : NetlinkMessage) : RM K unit :=
  m ← get_manager;
  match msg with
  | NewLink new_link =>
      match map_interface new_link with
      | Some (idx, name) => modify_manager (with_ifaces (btree_insert idx name (iface_map m)))
      | None => mret tt
      end
  | DelLink old_link =>
      match map_interface old_link with
      | Some (idx, _) => modify_manager (with_ifaces (btree_remove idx (iface_map m)))
      | None => mret tt
      end
  | NewRouteMsg new_route =>
      addition ← lift_result (parse_route_message m new_route);
      match addition with
      | Some addition => notify_change_listeners (CbNewRoute addition)
      | None => mret tt
      end
  | DelRouteMsg old_route =>
      deletion ← lift_result (parse_route_message m old_route);
      match deletion with
      | Some deletion =>
          _ ← process_deleted_route deletion;
          notify_change_listeners (CbDelRoute deletion)
      | None => mret tt
      end
  | OtherNetlinkMessage => mret tt
  end.

(** *** Lookups *)

Definition get_destination_route (destination : IpAddr) (mark : option Z) : RM K (option Route) := λ s,
  let '(answer, k) := nl_route_get destination mark s.2 in
  let s := (s.1, k) in
  match answer with
  | Ok (Some route_msg) => lift_result (parse_route_message s.1 route_msg) s
  | Ok None => (RErr imp.NoRoute, s)
  | Err (NetlinkError nl_err) => if nl_err =? - ENETUNREACH then (ROk None, s) else (RErr (imp.GetRoute (NetlinkError nl_err)), s)
  | Err err => (RErr (imp.GetRoute err), s)
  end.

Fixpoint mtu_attribute (l : list LinkAttribute) : option Z :=
  match l with
  | [] => None
  | LinkMtu mtu :: _ => Some mtu
  | _ :: l => mtu_attribute l
  end.

(** The loop over the stream of links; [expect] panics when the MTU of the
    device does not fit. *)
Fixpoint device_mtu (device : string) (links : list (result RtError LinkMessage)) : Outcome Z :=
  match links with
  | [] => RErr imp.LinkNotFound
  | Err _ :: _ => RErr imp.LinkNotFound
  | Ok msg :: links =>
      if bool_decide (IfName device ∈ lm_attributes msg) then
        match mtu_attribute (lm_attributes msg) with
        | Some mtu => if mtu <? 2 ^ 16 then ROk mtu else RPanic
        | None => device_mtu device links
        end
      else device_mtu device links
  end.

Definition get_device_mtu (device : string) : RM K Z := λ s,
  let '(links, k) := nl_links s.2 in (device_mtu device links, (s.1, k)).

Definition RECURSION_LIMIT : nat := 10.

Fixpoint mtu_for_route (attempts : nat) (attempted_ip : IpAddr) : RM K Z :=
  match attempts with
  | O => throw imp.NoRoute
  | S attempts =>
      m ← get_manager;
      route ← get_destination_route attempted_ip (Some (fwmark m));
      match route with
      | Some route =>
          match n_device (r_node route), n_ip (r_node route) with
          | Some device, _ => get_device_mtu device
          | None, Some address => mtu_for_route attempts address
          | None, None => throw imp.InvalidRouteNode
          end
      | None => throw imp.NoRoute
      end
  end.
Definition get_mtu_for_route (ip : IpAddr) : RM K Z := mtu_for_route RECURSION_LIMIT ip.

(** *** Commands *)

Definition listen : RM K unit :=
  modify_manager (λ m, with_listeners (listeners m ++ [{| ls_open := true; ls_sent := [] |}]) m).

Definition destructor : RM K unit :=
  _ ← cleanup_routes;
  log_error clear_routing_rules.

Inductive RouteManagerCommand : Set :=
| AddRoutes (routes : list RequiredRoute)
| ClearRoutes
| ShutdownCommand
| CreateRoutingRules (enable_ipv6 : bool)
| ClearRoutingRules
| NewChangeListener
| GetMtuForRoute (ip : IpAddr)
| GetDestinationRoute (destination : IpAddr) (mark : option Z).

(** What the command's response channel receives. *)
Inductive Response : Set :=
| Done (r : result imp.Error unit)
| Listening
| Mtu (r : result imp.Error Z)
| Found (r : result imp.Error (option Route))
| NoResponse.

Definition process_command (command : RouteManagerCommand) : RM K Response :=
  match command with
  | ShutdownCommand => _ ← destructor; throw imp.Shutdown
  | AddRoutes routes => r ← result_of (add_required_routes routes); mret (Done r)
  | CreateRoutingRules enable_ipv6 => r ← result_of (create_routing_rules enable_ipv6); mret (Done r)
  | ClearRoutingRules => r ← result_of clear_routing_rules; mret (Done r)
  | NewChangeListener => _ ← listen; mret Listening
  | GetDestinationRoute destination mark => r ← result_of (get_destination_route destination mark); mret (Found r)
  | GetMtuForRoute ip => r ← result_of (get_mtu_for_route ip); mret (Mtu r)
  | ClearRoutes => _ ← cleanup_routes; mret NoResponse
  end.

(** The manager's task: commands and messages in the order in which [select!]
    takes them.  It ends with an error of a command, which only a shutdown
    gives. *)
Inductive Input : Set := Command (c : RouteManagerCommand) | Message (m : NetlinkMessage).

Definition step (input : Input) : RM K unit :=
  match input with
  | Command command => _ ← process_command command; mret tt
  | Message route_change => log_error (process_netlink_message route_change)
  end.
Definition run (inputs : list Input) : RM K unit := for_each step inputs.

(** *** Start *)

Fixpoint link_map (links : list (result RtError LinkMessage)) (acc : list (Z * NetworkInterface)) :
    result imp.Error (list (Z * NetworkInterface)) :=
  match links with
  | [] => Ok acc
  | Err e :: _ => Err (imp.Netlink e)
  | Ok link :: links =>
      match map_interface link with
      | Some (idx, device) => link_map links (btree_insert idx device acc)
      | None => link_map links acc
      end
  end.
Definition initialize_link_map (k : K) : result imp.Error (list (Z * NetworkInterface)) * K :=
  let '(links, k) := nl_links k in (link_map links [], k).

(** The manager as [RouteManagerImpl::new] gives it, with what became of the
    kernel. *)
Definition RouteManagerImpl_new (table_id fwmark : Z) (k : K) : Outcome RouteManagerImpl * K :=
  let '(connected, k) := nl_connect k in
  match connected with
  | Err _ => (RErr imp.Connect, k)
  | Ok _ =>
      let '(bound, k) := nl_bind k in
      match bound with
      | Err _ => (RErr imp.Bind, k)
      | Ok _ =>
          let '(ifaces, k) := initialize_link_map k in
          match ifaces with
          | Err e => (RErr e, k)
          | Ok ifaces =>
              let monitor := {| iface_map := ifaces; listeners := []; added_routes := [];
                                table_id := table_id; fwmark := fwmark |} in
              let '(cleared, (monitor, k)) := clear_routing_rules (monitor, k) in
              match cleared with
              | ROk _ => (ROk monitor, k)
              | RErr e => (RErr e, k)
              | RPanic => (RPanic, k)
              end
          end
      end
  end.

(** ** The handle (unix/mod.rs) *)

(** The manager's task with its kernel; the task is gone after a shutdown or a
    panic. *)
Definition Manager : Type := option RouteManagerImpl * K.

(** [spawn] passes its arguments to [RouteManagerImpl::new] in this order. *)
Definition RouteManagerHandle_spawn (fwmark table_id : Z) (k : K) : result routing.Error unit * Manager :=
  let '(o, k) := RouteManagerImpl_new fwmark table_id k in
  match o with
  | ROk manager => (Ok tt, (Some manager, k))
  | RErr _ | RPanic => (Err routing.PlatformError, (None, k))
  end.

(** A command sent over the channel, and its response: an error when the
    channel is closed, or when the task ends before it answers. *)
Definition send_command (command : RouteManagerCommand) (s : Manager) : result routing.Error Response * Manager :=
  match s with
  | (None, k) => (Err routing.RouteManagerDown, (None, k))
  | (Some m, k) =>
      match process_command command (m, k) with
      | (ROk r, (m', k')) => (Ok r, (Some m', k'))
      | (_, (_, k')) => (Err routing.ManagerChannelDown, (None, k'))
      end
  end.

Definition platform {A} (r : result imp.Error A) : result routing.Error A :=
  map_err (λ _, routing.PlatformError) r.

Definition handle_stop (s : Manager) : unit * Manager := (tt, (send_command ShutdownCommand s).2).
Definition handle_add_routes (routes : list RequiredRoute) (s : Manager) : result routing.Error unit * Manager :=
  match send_command (AddRoutes routes) s with
  | (Ok (Done r), s') => (platform r, s')
  | (Ok _, s') => (Err routing.ManagerChannelDown, s')
  | (Err e, s') => (Err e, s')
  end.
Definition handle_clear_routes (s : Manager) : result routing.Error unit * Manager :=
  match s with
  | (None, _) => (Err routing.RouteManagerDown, s)
  | (Some _, _) => (Ok tt, (send_command ClearRoutes s).2)
  end.
Definition handle_create_routing_rules (enable_ipv6 : bool) (s : Manager) : result routing.Error unit * Manager :=
  match send_command (CreateRoutingRules enable_ipv6) s with
  | (Ok (Done r), s') => (platform r, s')
  | (Ok _, s') => (Err routing.ManagerChannelDown, s')
  | (Err e, s') => (Err e, s')
  end.
Definition handle_clear_routing_rules (s : Manager) : result routing.Error unit * Manager :=
  match send_command ClearRoutingRules s with
  | (Ok (Done r), s') => (platform r, s')
  | (Ok _, s') => (Err routing.ManagerChannelDown, s')
  | (Err e, s') => (Err e, s')
  end.
Definition handle_change_listener (s : Manager) : result routing.Error unit * Manager :=
  match send_command NewChangeListener s with
  | (Ok _, s') => (Ok tt, s')
  | (Err e, s') => (Err e, s')
  end.
Definition handle_get_destination_route (destination : IpAddr) (mark : option Z) (s : Manager) :
    result routing.Error (option Route) * Manager :=
  match send_command (GetDestinationRoute destination mark) s with
  | (Ok (Found r), s') => (platform r, s')
  | (Ok _, s') => (Err routing.ManagerChannelDown, s')
  | (Err e, s') => (Err e, s')
  end.
Definition handle_get_mtu_for_route (ip : IpAddr) (s : Manager) : result routing.Error Z * Manager :=
  match send_command (GetMtuForRoute ip) s with
  | (Ok (Mtu r), s') => (platform r, s')
  | (Ok _, s') => (Err routing.ManagerChannelDown, s')
  | (Err e, s') => (Err e, s')
  end.
End Manager.
