(* ===== verification/RoutingTheorems.v ===== *)
(** * Theorems about the route manager

    Routing rules: what [create_routing_rules] and [clear_routing_rules] do to
    the policy of the kernel, and where packets with and without the mark go
    afterwards.  Routes: whatever the manager adds, it takes away again. *)

From S2P Require Import Prelude NetTypes Routing.

(** * Policy routing of the Linux kernel

    What the route manager relies on: how the kernel evaluates routing rules and
    tables (ip-rule(8), ip-route(8), rtnetlink(7)), and what its requests do to
    them.  The class [LinuxRouting] states the documented behaviour of a kernel
    behind the interface [Rtnetlink]; nothing of it is code of the repository. *)

(** ** Tables *)

(** A route stays in the table that the request names, the main table by
    default; the manager's messages serve as the entries. *)
Definition entry_table (e : RouteAdd) : Z := default RT_TABLE_MAIN (ra_table_id e).
Definition net_prefix (n : IpNetwork) : Z := match n with NetV4 _ p => p | NetV6 _ p => p end.

(** Entries of a table are told apart by destination and metric. *)
Definition route_key (e : RouteAdd) : Z * IpNetwork * option Z := (entry_table e, ra_destination e, ra_priority e).

(** The entry with the longest prefix that contains the destination; the
    first one among equals. *)
Fixpoint longest `{IpNetworkCrate} (l : list RouteAdd) (t : Z) (dst : IpAddr) : option RouteAdd :=
  match l with
  | [] => None
  | e :: l =>
      if (entry_table e =? t) && net_contains (ra_destination e) dst then
        match longest l t dst with
        | Some e' => if net_prefix (ra_destination e) <? net_prefix (ra_destination e') then Some e' else Some e
        | None => Some e
        end
      else longest l t dst
  end.

(** ** Rules *)

(** What a rule says of a packet: the route to use, that it is refused, or
    nothing. *)
Inductive Verdict : Set := Use (e : RouteAdd) | Refuse | Next.

Fixpoint suppress_of (l : list RuleAttribute) : option Z :=
  match l with [] => None | SuppressPrefixLen n :: _ => Some n | _ :: l => suppress_of l end.
Fixpoint table_of (l : list RuleAttribute) : option Z :=
  match l with [] => None | RuleTable t :: _ => Some t | _ :: l => table_of l end.

(** A lookup in a table, as a rule asks for it: routes whose prefix is not
    longer than the suppressed length are not used. *)
Definition lookup_verdict (suppress : option Z) (r : option RouteAdd) : Verdict :=
  match r with
  | Some e =>
      match suppress with
      | Some n => if net_prefix (ra_destination e) <=? n then Next else Use e
      | None => Use e
      end
  | None => Next
  end.

(** Rules are tried in the order of their preference. *)
Fixpoint walk (verdict : RuleMessage → Verdict) (l : list (Z * RuleMessage)) : option RouteAdd :=
  match l with
  | [] => None
  | (_, r) :: l =>
      match verdict r with
      | Use e => Some e
      | Refuse => None
      | Next => walk verdict l
      end
  end.

(** A rule that is added without a preference goes before the second one. *)
Definition default_pref (l : list (Z * RuleMessage)) : Z :=
  match l with
  | _ :: (p, _) :: _ => if p =? 0 then 0 else p - 1
  | _ => 0
  end.
Fixpoint insert_pref (p : Z) (r : RuleMessage) (l : list (Z * RuleMessage)) : list (Z * RuleMessage) :=
  match l with
  | [] => [(p, r)]
  | (q, x) :: l => if p <? q then (p, r) :: (q, x) :: l else (q, x) :: insert_pref p r l
  end.
(** The first entry of a rule leaves. *)
Fixpoint remove_rule (r : RuleMessage) (l : list (Z * RuleMessage)) : list (Z * RuleMessage) :=
  match l with
  | [] => []
  | (p, x) :: l => if bool_decide (x = r) then l else (p, x) :: remove_rule r l
  end.

(** The suppressed length that the kernel reports for a rule without one. *)
Definition NO_SUPPRESS : Z := 2 ^ 32 - 1.

(** A rule as the kernel reports it after it was added: with the mark, table
    and suppressed length of the request, and any other attributes. *)
Record dumped (r r' : RuleMessage) : Prop := {
  du_family : ru_family r' = ru_family r;
  du_action : ru_action r' = ru_action r;
  du_flags : ru_flags r' = ru_flags r;
  du_mark m : FwMark m ∈ ru_attributes r' ↔ FwMark m ∈ ru_attributes r;
  du_table t : RuleTable t ∈ ru_attributes r' ↔ RuleTable t ∈ ru_attributes r;
  du_suppress n : n ≠ NO_SUPPRESS → SuppressPrefixLen n ∈ ru_attributes r' ↔ SuppressPrefixLen n ∈ ru_attributes r
}.

(** Whether a deletion names an entry. *)
Definition attribute_agrees (e : RouteAdd) (a : RouteAttribute) : bool :=
  match a with
  | Oif i => bool_decide (ra_output_interface e = Some i)
  | Gateway (RaInet g) => bool_decide (ra_gateway e = Some (AddrV4 g))
  | Gateway (RaInet6 g) => bool_decide (ra_gateway e = Some (AddrV6 g))
  | Via (ViaInet g) => bool_decide (ra_gateway e = Some (AddrV4 g))
  | Via (ViaInet6 g) => bool_decide (ra_gateway e = Some (AddrV6 g))
  | Priority p => bool_decide (ra_priority e = Some p)
  | RouteTable t => entry_table e =? t
  | _ => true
  end.
Definition names_table (a : RouteAttribute) : bool := match a with RouteTable _ => true | _ => false end.
Definition del_matches (d : RouteDel) (e : RouteAdd) : bool :=
  bool_decide (ra_destination e = rd_destination d) &&
  bool_decide (default ScopeUniverse (ra_scope e) = rd_scope d) &&
  (existsb names_table (rd_attributes d) || (entry_table e =? rd_table_id d)) &&
  forallb (attribute_agrees e) (rd_attributes d).

(** ** The kernel *)

(** A request that was answered without an error. *)
Definition accepted (l : result RtError (list Payload)) : bool :=
  match l with Ok ps => bool_decide (first_error ps = None) | Err _ => false end.
(** A rule was removed, or there was none. *)
Definition gone (l : result RtError (list Payload)) : bool :=
  match l with Ok ps => bool_decide (deletion_error ps = None) | Err _ => false end.

Class LinuxRouting (K : Type) `{Rtnetlink K, IpNetworkCrate} : Type := {
  (** The rules of a family in the order of their preference, and the routes. *)
  rules_of : AddressFamily → K → list (Z * RuleMessage);
  fib : K → list RouteAdd;
  fib_keys k : NoDup (route_key <$> fib k);
  rules_family f k p r : (p, r) ∈ rules_of f k → ru_family r = f;

  (** What a rule says of a packet with a mark. *)
  verdict : list RouteAdd → Z → IpAddr → RuleMessage → Verdict;
  verdict_mark l m dst r' f mark t :
    dumped (with_family f (no_fwmark_rule_v4 mark t)) r' →
    verdict l m dst r' = if m =? mark then Next else lookup_verdict None (longest l t dst);
  verdict_suppress l m dst r' f :
    dumped (with_family f SUPPRESS_RULE_V4) r' →
    verdict l m dst r' = lookup_verdict (Some 0) (longest l RT_TABLE_MAIN dst);

  (** Requests: rules are listed, added and removed; routes are replaced and
      removed; a request that fails, and a lookup, changes nothing. *)
  get_rules_spec k l k' :
    nl_request GetRule k = (l, k') → (∀ f, rules_of f k' = rules_of f k) ∧ fib k' = fib k ∧
    ∀ ps rs, l = Ok ps → collect_rules ps [] = Ok rs →
      ∀ f, List.filter (λ r, bool_decide (ru_family r = f)) rs = snd <$> rules_of f k;
  new_rule_spec r k l k' :
    nl_request (NewRule r) k = (l, k') → fib k' = fib k ∧
    (∀ f, f ≠ ru_family r → rules_of f k' = rules_of f k) ∧
    if accepted l
    then ∃ r', dumped r r' ∧
      rules_of (ru_family r) k' = insert_pref (default_pref (rules_of (ru_family r) k)) r' (rules_of (ru_family r) k)
    else rules_of (ru_family r) k' = rules_of (ru_family r) k;
  del_rule_spec r k l k' :
    nl_request (DelRule r) k = (l, k') → fib k' = fib k ∧
    (∀ f, f ≠ ru_family r → rules_of f k' = rules_of f k) ∧
    if gone l
    then rules_of (ru_family r) k' = remove_rule r (rules_of (ru_family r) k)
    else rules_of (ru_family r) k' = rules_of (ru_family r) k;
  route_add_spec a k r k' :
    nl_route_add a k = (r, k') → (∀ f, rules_of f k' = rules_of f k) ∧
    match r with
    | Ok _ => ∀ e, e ∈ fib k' ↔ e = a ∨ (e ∈ fib k ∧ route_key e ≠ route_key a)
    | Err _ => fib k' = fib k
    end;
  route_del_spec d k r k' :
    nl_route_del d k = (r, k') → (∀ f, rules_of f k' = rules_of f k) ∧
    match r with
    | Ok _ => ∃ e, e ∈ fib k ∧ del_matches d e = true ∧ ∀ e', e' ∈ fib k' ↔ e' ∈ fib k ∧ e' ≠ e
    | Err (NetlinkError code) =>
        fib k' = fib k ∧ (code = - ESRCH → ∀ e, e ∈ fib k → del_matches d e = false)
    | Err OtherRtError => fib k' = fib k
    end;
  route_get_spec dst m k r k' :
    nl_route_get dst m k = (r, k') → (∀ f, rules_of f k' = rules_of f k) ∧ fib k' = fib k;
  links_spec k r k' :
    nl_links k = (r, k') → (∀ f, rules_of f k' = rules_of f k) ∧ fib k' = fib k
}.

Definition family_of (dst : IpAddr) : AddressFamily := match dst with AddrV4 _ => Inet | AddrV6 _ => Inet6 end.

(** The route of a packet with a mark. *)
Definition route_of {K} `{LinuxRouting K} (k : K) (mark : Z) (dst : IpAddr) : option RouteAdd :=
  walk (verdict (fib k) mark dst) (rules_of (family_of dst) k).

(** ** Lists *)

Lemma find_filter {A} (P Q : A → bool) l : (∀ x, P x = true → Q x = true) → List.find P (List.filter Q l) = List.find P l.
Proof.
  intros HPQ. induction l as [|x l IH]; cbn; [done|]. destruct (Q x) eqn:E; cbn; rewrite IH; [done|].
  destruct (P x) eqn:E'; [|done]. apply HPQ in E'. congruence.
Qed.

Lemma find_some_in {A} (P : A → bool) l x : List.find P l = Some x → x ∈ l ∧ P x = true.
Proof. intros E. apply find_some in E as [Hi Hp]. by rewrite list_elem_of_In. Qed.

(** ** The rules of the manager *)

Definition mark_rule (mark t : Z) (f : AddressFamily) : RuleMessage := with_family f (no_fwmark_rule_v4 mark t).
Definition main_rule (f : AddressFamily) : RuleMessage := with_family f SUPPRESS_RULE_V4.

(** A rule that the manager takes for one of its own. *)
Definition ours (mark t : Z) (f : AddressFamily) (r : RuleMessage) : bool :=
  rule_matches (mark_rule mark t f) r || rule_matches (main_rule f) r.

Lemma rule_matches_family rule r : rule_matches rule r = true → ru_family r = ru_family rule.
Proof. unfold rule_matches. intros. by bool_to_prop. Qed.

Lemma dumped_mark_matches mark t f r' :
  dumped (mark_rule mark t f) r' → rule_matches (mark_rule mark t f) r' = true ∧ rule_matches (main_rule f) r' = false.
Proof.
  intros [Hf Ha Hg Hm Ht Hs]. unfold rule_matches. rewrite Hf, Ha, Hg. cbn in *. split.
  - rewrite !bool_decide_true; [done|apply Ht; set_solver|apply Hm; set_solver|done..].
  - rewrite (bool_decide_false (SuppressPrefixLen 0 ∈ _)); [by rewrite !andb_false_r|].
    rewrite Hs by done. set_solver.
Qed.

Lemma dumped_main_matches mark t f r' :
  dumped (main_rule f) r' → rule_matches (main_rule f) r' = true ∧ rule_matches (mark_rule mark t f) r' = false.
Proof.
  intros [Hf Ha Hg Hm Ht Hs]. unfold rule_matches. rewrite Hf, Ha, Hg. cbn in *. split.
  - rewrite !bool_decide_true; [done|apply Ht; set_solver|apply Hs; [done|set_solver]|done..].
  - by rewrite andb_false_r.
Qed.

(** One of the manager's rules taken out of a list, as it was found in the list
    [l0] of the dump. *)
Definition clear1 (rule : RuleMessage) (l0 l : list (Z * RuleMessage)) : list (Z * RuleMessage) :=
  match List.find (rule_matches rule) (snd <$> l0) with
  | Some r => remove_rule r l
  | None => l
  end.
Definition clear_list (mark t : Z) (f : AddressFamily) (l : list (Z * RuleMessage)) : list (Z * RuleMessage) :=
  clear1 (main_rule f) l (clear1 (mark_rule mark t f) l l).
Definition insert_rule (r : RuleMessage) (l : list (Z * RuleMessage)) : list (Z * RuleMessage) :=
  insert_pref (default_pref l) r l.

Lemma remove_rule_keep r p x l : x ≠ r → remove_rule r ((p, x) :: l) = (p, x) :: remove_rule r l.
Proof. intros Hx. cbn. by rewrite bool_decide_false. Qed.

(** Only rules that count as the manager's are taken out. *)
Lemma clear1_cons rule p x l0 l :
  rule_matches rule x = false → clear1 rule ((p, x) :: l0) ((p, x) :: l) = (p, x) :: clear1 rule l0 l.
Proof.
  intros Hx. unfold clear1. cbn [fmap list_fmap snd List.find]. rewrite Hx.
  destruct (List.find _ _) as [r|] eqn:E; [|done]. apply find_some_in in E as [_ Hr].
  apply remove_rule_keep. congruence.
Qed.

Lemma clear_list_cons mark t f p x l :
  ours mark t f x = false → clear_list mark t f ((p, x) :: l) = (p, x) :: clear_list mark t f l.
Proof. unfold ours. intros [H1 H2]%orb_false_iff. unfold clear_list. by rewrite !clear1_cons. Qed.

Lemma clear_list_none mark t f l : (∀ e, e ∈ l → ours mark t f e.2 = false) → clear_list mark t f l = l.
Proof.
  induction l as [|[p x] l IH]; intros Hl; [done|].
  rewrite clear_list_cons; [|apply (Hl (p, x)); set_solver]. rewrite IH; [done|]. set_solver.
Qed.

Lemma remove_rule_sub r l : remove_rule r l `sublist_of` l.
Proof. induction l as [|[p x] l IH]; cbn; [done|]. case_bool_decide; [by apply sublist_cons|by apply sublist_skip]. Qed.

Lemma clear1_sub rule l0 l : clear1 rule l0 l `sublist_of` l.
Proof. unfold clear1. destruct (List.find _ _); [apply remove_rule_sub|done]. Qed.

Lemma clear_list_sub mark t f l : clear_list mark t f l `sublist_of` l.
Proof. unfold clear_list. etrans; apply clear1_sub. Qed.

Lemma clear1_keeps rule l0 l e : rule_matches rule e.2 = false → e ∈ l → e ∈ clear1 rule l0 l.
Proof.
  intros He Hl. unfold clear1. destruct (List.find _ _) as [r|] eqn:E; [|done]. apply find_some_in in E as [_ Hr].
  induction l as [|[p x] l IH]; cbn; [done|].
  apply elem_of_cons in Hl as [->|Hl]; case_bool_decide as Hx; subst; cbn in *; [congruence|apply elem_of_cons..|done|]; auto.
  apply elem_of_cons. auto.
Qed.

Lemma clear_list_keeps mark t f l e : ours mark t f e.2 = false → e ∈ l → e ∈ clear_list mark t f l.
Proof. unfold ours. intros [H1 H2]%orb_false_iff Hl. by apply clear1_keeps, clear1_keeps. Qed.

(** A list of rules as every system has it: the first rule (for the local
    table) and another one are not the manager's, and there is room for two
    preferences between the first rule and the others. *)
Definition rules_ok (mark t : Z) (f : AddressFamily) (l : list (Z * RuleMessage)) : Prop :=
  match l with
  | [] => False
  | (p0, first) :: rest =>
      0 ≤ p0 ∧ Forall (λ e, p0 + 2 < e.1) rest ∧ ours mark t f first = false ∧
      Exists (λ e, ours mark t f e.2 = false) rest
  end.

Lemma insert_two p0 first p1 x rest n s :
  0 ≤ p0 → p0 + 2 < p1 →
  insert_rule s (insert_rule n ((p0, first) :: (p1, x) :: rest)) =
  (p0, first) :: (p1 - 1 - 1, s) :: (p1 - 1, n) :: (p1, x) :: rest.
Proof.
  intros H0 H1. unfold insert_rule at 2. cbn [default_pref]. rewrite (proj2 (Z.eqb_neq p1 0)) by lia.
  cbn [insert_pref]. rewrite (proj2 (Z.ltb_ge (p1 - 1) p0)), (proj2 (Z.ltb_lt (p1 - 1) p1)) by lia.
  unfold insert_rule. cbn [default_pref]. rewrite (proj2 (Z.eqb_neq (p1 - 1) 0)) by lia.
  cbn [insert_pref]. by rewrite (proj2 (Z.ltb_ge (p1 - 1 - 1) p0)), (proj2 (Z.ltb_lt (p1 - 1 - 1) (p1 - 1))) by lia.
Qed.

(** The rules right after they were created: the first one, the manager's, and
    what was left of the others. *)
Lemma created_list mark t f p0 first rest n s :
  rules_ok mark t f ((p0, first) :: rest) →
  ∃ p q, insert_rule s (insert_rule n (clear_list mark t f ((p0, first) :: rest))) =
    (p0, first) :: (p, s) :: (q, n) :: clear_list mark t f rest.
Proof.
  intros (H0 & Hp & Hf & Hx). rewrite clear_list_cons by done. destruct (clear_list mark t f rest) as [|[p1 x] l] eqn:E.
  - apply list.Exists_exists in Hx as (e & Hin & He). apply (clear_list_keeps mark t f) in Hin; [|done].
    rewrite E in Hin. set_solver.
  - eexists _, _. apply insert_two; [done|]. rewrite Forall_forall in Hp. apply (Hp (p1, x)).
    eapply elem_of_submseteq; [|apply sublist_submseteq, (clear_list_sub mark t f)]. rewrite E. set_solver.
Qed.

(** Taking the manager's rules out again. *)
Lemma cleared_list mark t f p0 first p s q n rest :
  ours mark t f first = false → (∀ e, e ∈ rest → ours mark t f e.2 = false) →
  dumped (mark_rule mark t f) n → dumped (main_rule f) s →
  clear_list mark t f ((p0, first) :: (p, s) :: (q, n) :: rest) = (p0, first) :: rest.
Proof.
  intros Hf Hr Hn Hs. rewrite clear_list_cons by done. f_equal.
  destruct (dumped_mark_matches _ _ _ _ Hn) as [Hn1 Hn2].
  destruct (dumped_main_matches mark t _ _ Hs) as [Hs1 Hs2].
  assert (s ≠ n) as Hsn by congruence.
  unfold clear_list. unfold clear1 at 2. cbn [fmap list_fmap snd List.find]. rewrite Hs2, Hn1.
  rewrite remove_rule_keep by done. cbn [remove_rule]. rewrite (bool_decide_true (n = n)) by done.
  unfold clear1. cbn [fmap list_fmap snd List.find]. rewrite Hs1. cbn [remove_rule].
  by rewrite (bool_decide_true (s = s)) by done.
Qed.

(** ** Computations *)

Lemma RM_bind_ok {K A B} (c : RM K A) (f : A → RM K B) s b s' :
  (c ≫= f) s = (ROk b, s') ↔ ∃ a s1, c s = (ROk a, s1) ∧ f a s1 = (ROk b, s').
Proof.
  unfold mbind, RM_bind. destruct (c s) as [[a|e|] s1];
    (split; [intros E; first [by exists a, s1|done]|intros (?&?&?&?); by simplify_eq]).
Qed.

(** A computation keeps an invariant of manager and kernel, and does not panic. *)
Definition preserves {K A} (P : RouteManagerImpl * K → Prop) (c : RM K A) : Prop :=
  ∀ s, P s → (c s).1 ≠ RPanic ∧ P (c s).2.

Section Computations.
Context {K : Type} (P : RouteManagerImpl * K → Prop).

Lemma preserves_ret {A} (a : A) : preserves P (mret a : RM K A).
Proof. by intros s. Qed.
Lemma preserves_bind {A B} (c : RM K A) (f : A → RM K B) :
  preserves P c → (∀ a, preserves P (f a)) → preserves P (c ≫= f).
Proof.
  intros Hc Hf s Hs. unfold mbind, RM_bind. destruct (Hc s Hs) as [Ho Hp].
  destruct (c s) as [[a|e|] s1]; cbn in *; [by apply Hf|done..].
Qed.
Lemma preserves_for_each {A} (f : A → RM K unit) l : (∀ a, a ∈ l → preserves P (f a)) → preserves P (for_each f l).
Proof.
  induction l as [|x l IH]; intros Hf; cbn; [apply preserves_ret|].
  apply preserves_bind; [apply Hf; set_solver|]. intros _. apply IH. set_solver.
Qed.
Lemma preserves_throw {A} e : preserves P (throw e : RM K A).
Proof. by intros s. Qed.
Lemma preserves_lift {A} (r : result imp.Error A) : preserves P (lift_result r).
Proof. intros s. by destruct r. Qed.
Lemma preserves_get : preserves P (get_manager (K := K)).
Proof. by intros s. Qed.
Lemma preserves_result_of {A} (c : RM K A) : preserves P c → preserves P (result_of c).
Proof. intros Hc s Hs. destruct (Hc s Hs). unfold result_of. by destruct (c s) as [[] ?]. Qed.
Lemma preserves_log (c : RM K unit) : preserves P c → preserves P (log_error c).
Proof. intros Hc s Hs. destruct (Hc s Hs). unfold log_error. by destruct (c s) as [[] ?]. Qed.
Lemma preserves_kernel {A} e (op : K → result RtError A * K) :
  (∀ m k, P (m, k) → P (m, (op k).2)) → preserves P (kernel e op).
Proof. intros Ho [m k] Hs. specialize (Ho m k Hs). unfold kernel. cbn. by destruct (op k) as [[] ?]. Qed.
End Computations.

Create HintDb rm discriminated.
#[export] Hint Resolve preserves_ret preserves_bind preserves_for_each preserves_throw preserves_lift preserves_get
  preserves_result_of preserves_log preserves_kernel : rm.

Section Kernel.
Context {K : Type} `{Rtnetlink K} `{NetlinkPacket} `{HashOrder} `{IpNetworkCrate} `{!LinuxRouting K}.

(** ** What requests for rules do *)

Lemma get_rules_ok m k rs m' k' :
  get_rules (m, k) = (ROk rs, (m', k')) →
  m' = m ∧ (∀ f, rules_of f k' = rules_of f k) ∧
  ∀ f, List.filter (λ r, bool_decide (ru_family r = f)) rs = snd <$> rules_of f k.
Proof.
  unfold get_rules. intros (ps & [m1 k1] & E1 & E2)%RM_bind_ok.
  unfold handle_request, kernel in E1. cbn in E1. destruct (nl_request GetRule k) as [l k2] eqn:E.
  apply get_rules_spec in E as (Hr & _ & Hl). destruct l as [ps'|]; [|done]. injection E1 as -> -> ->.
  unfold lift_result in E2. destruct (collect_rules ps []) as [rs'|] eqn:Ec; [|done]. injection E2 as -> -> ->. eauto.
Qed.

Lemma delete_rule_ok r m k m' k' :
  delete_rule_if_exists r (m, k) = (ROk tt, (m', k')) →
  m' = m ∧ (∀ f, f ≠ ru_family r → rules_of f k' = rules_of f k) ∧
  rules_of (ru_family r) k' = remove_rule r (rules_of (ru_family r) k).
Proof.
  unfold delete_rule_if_exists. intros (ps & [m1 k1] & E1 & E2)%RM_bind_ok.
  unfold handle_request, kernel in E1. cbn in E1. destruct (nl_request (DelRule r) k) as [l k2] eqn:E.
  apply del_rule_spec in E as (_ & Hf & Hr). destruct l as [ps'|]; [|done]. injection E1 as -> -> ->. cbn in Hr.
  destruct (deletion_error ps) eqn:Ed; [done|]. injection E2 as -> ->. cbn in Hr. eauto.
Qed.

Lemma new_rule_ok r m k m' k' :
  new_rule r (m, k) = (ROk tt, (m', k')) →
  m' = m ∧ (∀ f, f ≠ ru_family r → rules_of f k' = rules_of f k) ∧
  ∃ r', dumped r r' ∧ rules_of (ru_family r) k' = insert_rule r' (rules_of (ru_family r) k).
Proof.
  unfold new_rule. intros (ps & [m1 k1] & E1 & E2)%RM_bind_ok.
  unfold handle_request, kernel in E1. cbn in E1. destruct (nl_request (NewRule r) k) as [l k2] eqn:E.
  apply new_rule_spec in E as (_ & Hf & Hr). destruct l as [ps'|]; [|done]. injection E1 as -> -> ->. cbn in Hr.
  destruct (first_error ps) eqn:Ed; [done|]. injection E2 as -> ->. cbn in Hr. eauto.
Qed.

(** The loop body of [clear_routing_rules]. *)
Lemma clear_step_ok rule l0 rs m k m' k' :
  List.filter (λ r, bool_decide (ru_family r = ru_family rule)) rs = snd <$> l0 →
  (match List.find (rule_matches rule) rs with Some r => delete_rule_if_exists r | None => mret tt end) (m, k) =
    (ROk tt, (m', k')) →
  m' = m ∧ (∀ f, f ≠ ru_family rule → rules_of f k' = rules_of f k) ∧
  rules_of (ru_family rule) k' = clear1 rule l0 (rules_of (ru_family rule) k).
Proof.
  intros Hl. unfold clear1. rewrite <- Hl, find_filter.
  2: { intros r Hr. apply rule_matches_family in Hr. by apply bool_decide_eq_true. }
  destruct (List.find _ rs) as [r|] eqn:E.
  - apply find_some_in in E as [_ Hr%rule_matches_family]. intros Hd%delete_rule_ok. by rewrite Hr in Hd.
  - by intros [= <- <-].
Qed.

(** Both families lose the manager's rules. *)
Lemma clear_rules_ok m k m' k' :
  clear_routing_rules (m, k) = (ROk tt, (m', k')) →
  m' = m ∧ ∀ f, f = Inet ∨ f = Inet6 → rules_of f k' = clear_list (fwmark m) (table_id m) f (rules_of f k).
Proof.
  unfold clear_routing_rules. intros (rs & [m1 k1] & (-> & Hr & Hl)%get_rules_ok & E)%RM_bind_ok.
  apply RM_bind_ok in E as (m2 & s2 & [= <- <-] & E). unfold all_rules in E. cbn [for_each] in E.
  apply RM_bind_ok in E as ([] & [m3 k3] & E3%(clear_step_ok _ (rules_of Inet k)) & E); [|apply Hl].
  apply RM_bind_ok in E as ([] & [m4 k4] & E4%(clear_step_ok _ (rules_of Inet6 k)) & E); [|apply Hl].
  apply RM_bind_ok in E as ([] & [m5 k5] & E5%(clear_step_ok _ (rules_of Inet k)) & E); [|apply Hl].
  apply RM_bind_ok in E as ([] & [m6 k6] & E6%(clear_step_ok _ (rules_of Inet6 k)) & [= <- <-]); [|apply Hl].
  cbn in *. destruct E3 as (-> & E3 & E3'), E4 as (-> & E4 & E4'), E5 as (-> & E5 & E5'), E6 as (-> & E6 & E6').
  split; [done|]. unfold clear_list. intros f [->| ->].
  - by rewrite E6, E5', E4, E3', Hr.
  - by rewrite E6', E5, E4', E3, Hr.
Qed.

(** Both families, as far as they are in use, get the manager's rules. *)
Lemma create_rules_ok b m k m' k' :
  create_routing_rules b (m, k) = (ROk tt, (m', k')) →
  m' = m ∧ ∀ f, f = Inet ∨ f = Inet6 →
    let l := clear_list (fwmark m) (table_id m) f (rules_of f k) in
    if bool_decide (f = Inet) || b
    then ∃ n s, dumped (mark_rule (fwmark m) (table_id m) f) n ∧ dumped (main_rule f) s ∧
           rules_of f k' = insert_rule s (insert_rule n l)
    else rules_of f k' = l.
Proof.
  unfold create_routing_rules. intros ([] & [m1 k1] & (-> & Hc)%clear_rules_ok & E)%RM_bind_ok.
  apply RM_bind_ok in E as (m2 & s2 & [= <- <-] & E). unfold wanted_rules, all_rules in E. cbn [List.filter] in E.
  pose proof (Hc Inet ltac:(auto)) as H4. pose proof (Hc Inet6 ltac:(auto)) as H6. clear Hc.
  change (ru_family (no_fwmark_rule_v4 _ _)) with Inet in E. change (ru_family (no_fwmark_rule_v6 _ _)) with Inet6 in E.
  change (ru_family SUPPRESS_RULE_V4) with Inet in E. change (ru_family SUPPRESS_RULE_V6) with Inet6 in E.
  rewrite (bool_decide_true (Inet = Inet)), (bool_decide_false (Inet6 = Inet)) in E by done. cbn [orb for_each] in E.
  destruct b; cbn [for_each] in E.
  - apply RM_bind_ok in E as ([] & [m3 k3] & E3%new_rule_ok & E).
    apply RM_bind_ok in E as ([] & [m4 k4] & E4%new_rule_ok & E).
    apply RM_bind_ok in E as ([] & [m5 k5] & E5%new_rule_ok & E).
    apply RM_bind_ok in E as ([] & [m6 k6] & E6%new_rule_ok & [= <- <-]).
    cbn in E3, E4, E5, E6.
    destruct E3 as (-> & E3 & r3 & D3 & E3'), E4 as (-> & E4 & r4 & D4 & E4').
    destruct E5 as (-> & E5 & r5 & D5 & E5'), E6 as (-> & E6 & r6 & D6 & E6').
    split; [done|]. intros f [->| ->]; rewrite orb_true_r.
    + exists r3, r5. split_and!; [done..|]. by rewrite E6, E5', E4, E3', H4.
    + exists r4, r6. split_and!; [done..|]. by rewrite E6', E5, E4', E3, H6.
  - apply RM_bind_ok in E as ([] & [m3 k3] & E3%new_rule_ok & E).
    apply RM_bind_ok in E as ([] & [m5 k5] & E5%new_rule_ok & [= <- <-]). cbn in E3, E5.
    destruct E3 as (-> & E3 & r3 & D3 & E3'), E5 as (-> & E5 & r5 & D5 & E5').
    split; [done|]. intros f [->| ->]; cbn.
    + exists r3, r5. split_and!; [done..|]. by rewrite E5', E3', H4.
    + by rewrite E5, E3, H6.
Qed.

(** ** Rules leave manager and routes alone *)

Section Frame.
Context (P : RouteManagerImpl * K → Prop) (Pfib : ∀ m k k', fib k' = fib k → P (m, k) → P (m, k')).

Lemma rules_frame_request req : preserves P (handle_request (K := K) req).
Proof.
  apply preserves_kernel. intros m k Hk. destruct (nl_request req k) as [l k'] eqn:E. cbn. apply (Pfib m k); [|done].
  destruct req; [apply get_rules_spec in E|apply new_rule_spec in E|apply del_rule_spec in E]; by destruct E as (?&?&?).
Qed.

Ltac frame := repeat first [apply rules_frame_request | progress auto with rm | apply preserves_for_each; intros
    | apply preserves_bind; [|intros ?] | split_match].

Lemma rules_frame_clear : preserves P (clear_routing_rules (K := K)).
Proof. unfold clear_routing_rules, get_rules, delete_rule_if_exists. frame. Qed.
Lemma rules_frame_create b : preserves P (create_routing_rules (K := K) b).
Proof.
  unfold create_routing_rules, new_rule. apply preserves_bind; [apply rules_frame_clear|intros _]. frame.
Qed.
End Frame.

(** ** The routing policy *)

(** Where a packet goes: what the first rule says; else a route of the main
    table that is no default route; else, for a packet without the mark, the
    tunnel's table; else what the remaining rules say. *)
Definition policy (l : list RouteAdd) (mark t : Z) (first : RuleMessage) (rest : list (Z * RuleMessage)) (m : Z) (dst : IpAddr) :
    option RouteAdd :=
  match verdict l m dst first with
  | Use e => Some e
  | Refuse => None
  | Next =>
      match lookup_verdict (Some 0) (longest l RT_TABLE_MAIN dst) with
      | Use e => Some e
      | _ =>
          if m =? mark then walk (verdict l m dst) rest
          else match longest l t dst with
               | Some e => Some e
               | None => walk (verdict l m dst) rest
               end
      end
  end.

Lemma walk_created l mark t f first rest n s m dst p0 p q :
  dumped (mark_rule mark t f) n → dumped (main_rule f) s →
  walk (verdict l m dst) ((p0, first) :: (p, s) :: (q, n) :: rest) = policy l mark t first rest m dst.
Proof.
  intros Hn Hs. cbn. rewrite (verdict_suppress _ _ _ _ _ Hs), (verdict_mark _ _ _ _ _ _ _ Hn). unfold policy.
  destruct (verdict l m dst first); [done..|].
  destruct (longest l RT_TABLE_MAIN dst) as [e|]; cbn; [destruct (_ <=? 0); [|done]|];
    destruct (m =? mark); try done; by destruct (longest l t dst).
Qed.

(** C18: after the routing rules were created, the kernel routes by the policy
    of the tunnel, in each family for which rules are asked for: the local
    table first, then routes of the main table other than a default route, then
    the tunnel's table for every packet that does not carry the firewall mark,
    and only then the rules that were there before, which are all that a
    marked packet sees; rules that an earlier run left behind are gone.  (The
    rules before are as every system has them: a first rule for the local table,
    another one that is not the manager's, and room for two in between.) *)
Theorem policy_routing b m k m' k' dst mk p0 first rest :
  rules_of (family_of dst) k = (p0, first) :: rest →
  rules_ok (fwmark m) (table_id m) (family_of dst) ((p0, first) :: rest) →
  bool_decide (family_of dst = Inet) || b = true →
  create_routing_rules b (m, k) = (ROk tt, (m', k')) →
  route_of k' mk dst =
    policy (fib k') (fwmark m) (table_id m) first (clear_list (fwmark m) (table_id m) (family_of dst) rest) mk dst.
Proof.
  intros Hl Hok Hb (-> & Hc)%create_rules_ok. unfold route_of.
  specialize (Hc (family_of dst) ltac:(destruct dst; auto)). cbn in Hc. rewrite Hb, Hl in Hc.
  destruct Hc as (n & s & Hn & Hs & ->). destruct (created_list _ _ _ _ _ _ n s Hok) as (p & q & ->).
  by apply (walk_created _ _ _ (family_of dst)).
Qed.

(** creating the routing rules and clearing them again leaves the rules of
    both families as they were, on a system that had no rule the manager would
    take for its own. *)
Theorem rules_restored b m k m1 k1 m2 k2 :
  (∀ f, f = Inet ∨ f = Inet6 → rules_ok (fwmark m) (table_id m) f (rules_of f k) ∧
    ∀ e, e ∈ rules_of f k → ours (fwmark m) (table_id m) f e.2 = false) →
  create_routing_rules b (m, k) = (ROk tt, (m1, k1)) →
  clear_routing_rules (m1, k1) = (ROk tt, (m2, k2)) →
  m2 = m ∧ ∀ f, f = Inet ∨ f = Inet6 → rules_of f k2 = rules_of f k.
Proof.
  intros Hr (-> & Hc1)%create_rules_ok (-> & Hc2)%clear_rules_ok. split; [done|]. intros f Hf.
  specialize (Hc1 f Hf). specialize (Hc2 f Hf). destruct (Hr f Hf) as [Hok Hn]. cbn in Hc1. rewrite Hc2. clear Hc2.
  destruct (rules_of f k) as [|[p0 first] rest] eqn:E; [done|]. destruct (_ || _).
  - destruct Hc1 as (n & s & Hdn & Hds & ->). destruct (created_list _ _ _ _ _ _ n s Hok) as (p & q & ->).
    rewrite (clear_list_none _ _ _ rest) by set_solver. apply cleared_list; [apply Hok|set_solver|done..].
  - rewrite Hc1, (clear_list_none _ _ _ ((p0, first) :: rest)) by done. by apply clear_list_none.
Qed.
End Kernel.

(** ** Routes *)

(** Routes that the manager can take back: no metric, a table that both
    messages name, and a gateway of the route's family, if any. *)
Definition node_family_ok (r : Route) : bool :=
  match n_ip (r_node r), r_prefix r with
  | None, _ => true
  | Some (AddrV4 _), NetV4 _ _ => true
  | Some (AddrV6 _), NetV6 _ _ => true
  | _, _ => false
  end.
Definition deletable (r : Route) : bool :=
  bool_decide (r_metric r = None) && prefix_ok (r_prefix r) && node_family_ok r &&
  ((r_table_id r =? RT_TABLE_MAIN) || (255 <? r_table_id r)).

Lemma deletable_table m r :
  deletable r = true →
  entry_table (add_message m r) = r_table_id r ∧
  (existsb names_table (rd_attributes (delete_message m r)) || (r_table_id r =? rd_table_id (delete_message m r)) = true) ∧
  ∀ e, existsb names_table (rd_attributes (delete_message m r)) || (entry_table e =? rd_table_id (delete_message m r)) = true →
    forallb (attribute_agrees e) (rd_attributes (delete_message m r)) = true → entry_table e = r_table_id r.
Proof.
  unfold deletable. intros Hd. apply andb_true_iff in Hd as [_ Ht]. unfold entry_table at 1, add_message, delete_message.
  cbn [ra_table_id rd_attributes rd_table_id]. unfold compat_table_id. apply orb_true_iff in Ht as [Ht|Ht].
  - apply Z.eqb_eq in Ht. rewrite Ht. change (255 <? RT_TABLE_MAIN) with false. change (wrap 8 RT_TABLE_MAIN) with RT_TABLE_MAIN.
    change (RT_TABLE_MAIN =? RT_TABLE_COMPAT) with false. cbn -[delete_attributes]. split; [done|]. split; [apply orb_true_r|].
    assert (existsb names_table (delete_attributes m r) = false) as ->.
    { unfold delete_attributes. by destruct (node_iface m (r_node r)), (n_ip (r_node r)), (n_device (r_node r)), (r_metric r). }
    intros e He _. by apply Z.eqb_eq in He.
  - rewrite Ht. cbn -[delete_attributes]. split_and!; [done..|]. intros e _ [He _]%andb_true_iff. by apply Z.eqb_eq in He.
Qed.

Lemma deletes_own m r : deletable r = true → del_matches (delete_message m r) (add_message m r) = true.
Proof.
  intros Hd. pose proof (deletable_table m r Hd) as (Ht & He & _). unfold del_matches. rewrite Ht, He, andb_true_r.
  rewrite !bool_decide_true; [|cbn; by destruct (inner_prefix (r_prefix r))|done]. cbn [andb].
  revert Ht. unfold deletable in Hd. bool_to_prop. cbn [rd_attributes delete_message]. intros Ht. unfold delete_attributes. rewrite !forallb_app.
  repeat (apply andb_true_iff; split).
  - destruct (compat_table_id _ =? RT_TABLE_COMPAT); [|done]. cbn [forallb attribute_agrees].
    by rewrite Ht, Z.eqb_refl.
  - destruct (node_iface m (r_node r)) eqn:E; [|done]. cbn. by rewrite E, bool_decide_true.
  - match goal with Hn : node_family_ok r = true |- _ => revert Hn end. unfold node_family_ok.
    destruct (n_ip (r_node r)) as [[a|a]|] eqn:E; [..|done]; destruct (r_prefix r) eqn:Ep; try done; intros _;
      destruct (n_device (r_node r)); cbn; rewrite Ep, E; by rewrite bool_decide_true.
  - by replace (r_metric r) with (@None Z).
Qed.

Lemma deletes_key m r r2 :
  deletable r = true → deletable r2 = true → del_matches (delete_message m r) (add_message m r2) = true →
  route_key (add_message m r2) = route_key (add_message m r).
Proof.
  intros Hd Hd2 Hm. unfold del_matches in Hm.
  apply andb_true_iff in Hm as [Hm Ha]. apply andb_true_iff in Hm as [Hm Ht]. apply andb_true_iff in Hm as [Hm _].
  apply bool_decide_eq_true in Hm. destruct (deletable_table m r Hd) as (E & _ & He).
  unfold route_key. rewrite E, (He _ Ht Ha), Hm. unfold deletable in *. bool_to_prop. cbn. congruence.
Qed.

Section Routes.
Context {K : Type} `{Rtnetlink K} `{NetlinkPacket} `{HashOrder} `{IpNetworkCrate} `{!LinuxRouting K}.
Context (m0 : RouteManagerImpl) (base : list RouteAdd).

(** A deletion fails only when there is no such route. *)
Definition reliable : Prop := ∀ d (k : K) e, (nl_route_del d k).1 = Err e → e = NetlinkError (- ESRCH).

(** A route that gets in the way of none of the routes [base]. *)
Definition good_route (r : Route) : Prop :=
  deletable r = true ∧
  ∀ e, e ∈ base → route_key e ≠ route_key (add_message m0 r) ∧ del_matches (delete_message m0 r) e = false.

(** The routes of the kernel are those of [base] and routes of [rem]. *)
Definition fib_is (rem : list Route) (k : K) : Prop :=
  (∀ e, e ∈ base → e ∈ fib k) ∧
  ∀ e, e ∈ fib k → e ∈ base ∨ ∃ r, r ∈ rem ∧ e = add_message m0 r.

(** The manager knows every route that it has added. *)
Definition routes_known (s : RouteManagerImpl * K) : Prop :=
  iface_map s.1 = iface_map m0 ∧ table_id s.1 = table_id m0 ∧
  Forall good_route (added_routes s.1) ∧ fib_is (added_routes s.1) s.2.

Lemma node_iface_ext m n : iface_map m = iface_map m0 → node_iface m n = node_iface m0 n.
Proof. intros E. unfold node_iface, find_iface_idx. destruct (n_device n); [|done]. by rewrite E. Qed.
Lemma add_message_ext m r : iface_map m = iface_map m0 → add_message m r = add_message m0 r.
Proof. intros E. unfold add_message. by rewrite (node_iface_ext m). Qed.
Lemma delete_message_ext m r : iface_map m = iface_map m0 → delete_message m r = delete_message m0 r.
Proof. intros E. unfold delete_message, delete_attributes. by rewrite (node_iface_ext m). Qed.

Lemma elem_of_set_insert (x y : Route) l : y ∈ set_insert x l ↔ y = x ∨ y ∈ l.
Proof. unfold set_insert. case_bool_decide; set_solver. Qed.

Lemma fib_unique (k : K) e1 e2 : e1 ∈ fib k → e2 ∈ fib k → route_key e1 = route_key e2 → e1 = e2.
Proof.
  pose proof (fib_keys k) as Hn. induction (fib k) as [|e l IH]; [set_solver|]. cbn in Hn.
  apply NoDup_cons in Hn as [Hx Hn]. rewrite !elem_of_cons. intros [->|He1] [->|He2] E; [done|..|by apply IH].
  - destruct Hx. rewrite E. by apply list_elem_of_fmap_2.
  - destruct Hx. rewrite <- E. by apply list_elem_of_fmap_2.
Qed.

Lemma routes_known_fib m (k k' : K) : fib k' = fib k → routes_known (m, k) → routes_known (m, k').
Proof. intros E. unfold routes_known, fib_is. cbn. by rewrite E. Qed.
Lemma preserves_clear_rules : preserves routes_known (clear_routing_rules (K := K)).
Proof. apply rules_frame_clear, routes_known_fib. Qed.
Lemma preserves_create_rules b : preserves routes_known (create_routing_rules (K := K) b).
Proof. apply rules_frame_create, routes_known_fib. Qed.

(** *** Adding *)

Lemma add_route_run r m (k : K) :
  add_route r (m, k) =
  match nl_route_add (add_message m r) k with
  | (Ok _, k') => (ROk tt, (with_added (set_insert r (added_routes m)) m, k'))
  | (Err e, k') => (RErr (imp.Netlink e), (m, k'))
  end.
Proof.
  unfold add_route, add_route_direct, kernel, modify_manager, get_manager, mbind, RM_bind. cbn [fst snd].
  by destruct (nl_route_add _ k) as [[] ?].
Qed.

Lemma preserves_add_route r : good_route r → preserves routes_known (add_route (K := K) r).
Proof.
  intros Hr [m k] (Hi & Ht & Hg & Hb & Hf). cbn in *. rewrite add_route_run, add_message_ext by done. destruct (nl_route_add _ k) as [[]k'] eqn:E; cbn.
  - apply route_add_spec in E as [_ E]. split; [done|]. split_and!; [done..| |].
    + apply Forall_forall. intros x [->|Hx]%elem_of_set_insert; [done|]. by eapply (proj1 (Forall_forall _ _) Hg).
    + split; cbn.
      * intros e He. apply E. right. split; [auto|]. by apply Hr.
      * intros e [->|[He _]]%E; [right; exists r; rewrite elem_of_set_insert; auto|].
        apply Hf in He as [He|(r' & Hr' & ->)]; [auto|right; exists r'; rewrite elem_of_set_insert; auto].
  - apply route_add_spec in E as [_ E]. split; [done|]. unfold routes_known, fib_is. cbn. by rewrite E.
Qed.

Lemma elem_of_required t rs l x :
  x ∈ fold_left (λ set route, set_insert (normal_route t route) set) rs l → x ∈ l ∨ x ∈ (normal_route t <$> rs).
Proof.
  revert l; induction rs as [|r rs IH]; intros l; cbn; [auto|].
  intros [Hx|Hx]%IH; [|set_solver]. apply elem_of_set_insert in Hx. set_solver.
Qed.

Lemma preserves_add_required rs :
  Forall (λ r, good_route (normal_route (table_id m0) r)) rs → preserves routes_known (add_required_routes (K := K) rs).
Proof.
  intros Hrs [m k] Hk. unfold add_required_routes, get_manager, mbind, RM_bind. cbn.
  apply preserves_for_each; [|done]. intros r Hr. apply preserves_add_route.
  rewrite iter_order_perm in Hr. destruct Hk as (_ & Ht & _). cbn in Ht. rewrite Ht in Hr.
  apply elem_of_required in Hr as [Hr|(rr & -> & Hrr)%list_elem_of_fmap]; [set_solver|].
  by apply (proj1 (Forall_forall _ _) Hrs).
Qed.

(** *** Taking away *)

Lemma delete_route_run r m (k : K) :
  prefix_ok (r_prefix r) = true →
  delete_route_if_exists r (m, k) =
  match nl_route_del (delete_message m r) k with
  | (Ok _, k') => (ROk tt, (m, k'))
  | (Err (NetlinkError msg), k') =>
      if msg =? - ESRCH then (ROk tt, (m, k')) else (RErr (imp.Netlink (NetlinkError msg)), (m, k'))
  | (Err e, k') => (RErr (imp.Netlink e), (m, k'))
  end.
Proof.
  intros Hp. unfold delete_route_if_exists, delete_route, kernel, get_manager, mbind, RM_bind. cbn [fst snd].
  rewrite Hp. cbn [fst snd]. by destruct (nl_route_del (delete_message m r) k) as [[[]|[]] ?].
Qed.

Lemma delete_good r rem m (k : K) :
  reliable → iface_map m = iface_map m0 → good_route r → Forall good_route rem → fib_is (r :: rem) k →
  ∃ k', log_error (delete_route_if_exists r) (m, k) = (ROk tt, (m, k')) ∧ fib_is rem k'.
Proof.
  intros Hrel Hi [Hd Ha] Hrem [Hb Hf].
  assert (∀ k', (∀ e, e ∈ base → e ∈ fib k') → (∀ e, e ∈ fib k' → e ∈ fib k ∧ e ≠ add_message m0 r) → fib_is rem k') as Hdone.
  { intros k' Hb' Hf'. split; [done|]. intros e [He Hne]%Hf'. apply Hf in He as [He|(r' & Hr' & ->)]; [auto|].
    apply elem_of_cons in Hr' as [->|Hr']; [done|]. right. by exists r'. }
  unfold log_error. rewrite delete_route_run, delete_message_ext by (done || (unfold deletable in Hd; by bool_to_prop)).
  pose proof (Hrel (delete_message m0 r) k) as He.
  destruct (nl_route_del (delete_message m0 r) k) as [[[]|e] k'] eqn:E; cbn [fst] in He; apply route_del_spec in E as [_ E].
  - exists k'. split; [done|]. clear He. destruct E as (e & He & Hm & Hk'). assert (e ∉ base) as Hne by (intros [_ He']%Ha; congruence).
    apply Hdone; [intros x Hx; apply Hk'; split; [auto|congruence]|]. intros x [Hx Hxe]%Hk'. split; [done|]. intros ->. destruct Hxe.
    apply Hf in He as He'. destruct He' as [He'|(r' & Hr' & ->)]; [done|]. apply (fib_unique k); [done..|].
    symmetry. apply deletes_key; [done| |done]. apply elem_of_cons in Hr' as [->|Hr']; [done|].
    by apply (proj1 (Forall_forall _ _) Hrem).
  - rewrite (He e eq_refl) in E |- *. clear He. cbn in *. exists k'. split; [done|]. destruct E as [E E']. specialize (E' eq_refl).
    apply Hdone; rewrite E; [done|]. intros x Hx. split; [done|]. intros ->. apply E' in Hx.
    rewrite deletes_own in Hx by done. done.
Qed.

Lemma delete_all rem m (k : K) :
  reliable → iface_map m = iface_map m0 → Forall good_route rem → fib_is rem k →
  ∃ k', for_each (λ route, log_error (delete_route_if_exists route)) rem (m, k) = (ROk tt, (m, k')) ∧ fib_is [] k'.
Proof.
  intros Hrel Hi. revert k; induction rem as [|r rem IH]; intros k Hg Hf; [by exists k|].
  apply Forall_cons in Hg as [Hr Hg]. destruct (delete_good r rem m k Hrel Hi Hr Hg Hf) as (k1 & E & Hf1).
  destruct (IH k1 Hg Hf1) as (k2 & E2 & Hf2). exists k2. split; [|done].
  cbn [for_each]. unfold mbind, RM_bind. by rewrite E.
Qed.

Lemma cleanup_all m (k : K) :
  reliable → routes_known (m, k) →
  ∃ k', cleanup_routes (m, k) = (ROk tt, (with_added [] m, k')) ∧ fib_is [] k'.
Proof.
  intros Hrel (Hi & Ht & Hg & Hf). unfold cleanup_routes, get_manager, modify_manager, mbind, RM_bind. cbn in *.
  apply (delete_all (iter_order (added_routes m)) (with_added [] m) k); [done..| |].
  - by rewrite iter_order_perm.
  - destruct Hf as [Hb Hf]. split; [done|]. intros e [He|(r & Hr & ->)]%Hf; [auto|]. right. exists r.
    by rewrite iter_order_perm.
Qed.

Lemma preserves_cleanup : reliable → preserves routes_known (cleanup_routes (K := K)).
Proof.
  intros Hrel [m k] Hk. destruct (cleanup_all m k Hrel Hk) as (k' & -> & Hf). destruct Hk as (Hi & Ht & _).
  split; [done|]. by split_and!.
Qed.

(** The commands of a tunnel that is set up and torn down. *)
Definition tunnel_command (c : RouteManagerCommand) : Prop :=
  match c with
  | AddRoutes routes => Forall (λ r, good_route (normal_route (table_id m0) r)) routes
  | ClearRoutes | CreateRoutingRules _ | ClearRoutingRules => True
  | _ => False
  end.

Lemma command_ok c s :
  reliable → tunnel_command c → routes_known s →
  ∃ s', step (K := K) (Command c) s = (ROk tt, s') ∧ routes_known s'.
Proof.
  intros Hrel Hc Hs. unfold step, process_command.
  assert (∀ o : RM K unit, preserves routes_known o →
    ∃ s', (_ ← (r ← result_of o; mret (Done r)); mret tt) s = (ROk tt, s') ∧ routes_known s') as Ho.
  { intros o Ho. destruct (Ho s Hs) as [Hp Hk]. unfold mbind, RM_bind, result_of.
    destruct (o s) as [[[]|e|] s'] eqn:E; cbn in *; [by exists s'..|done]. }
  destruct c; try done; cbn in Hc.
  - by apply Ho, preserves_add_required.
  - destruct s as [m k]. destruct (cleanup_all m k Hrel Hs) as (k' & E & Hf). exists (with_added [] m, k').
    unfold mbind, RM_bind. rewrite E. split; [done|]. destruct Hs as (Hi & Ht & _). by split_and!.
  - apply Ho, preserves_create_rules.
  - apply Ho, preserves_clear_rules.
Qed.

Lemma commands_ok cs s :
  reliable → Forall tunnel_command cs → routes_known s →
  ∃ s', run (K := K) (Command <$> cs) s = (ROk tt, s') ∧ routes_known s'.
Proof.
  intros Hrel. revert s; induction cs as [|c cs IH]; intros s Hcs Hs; [by exists s|].
  apply Forall_cons in Hcs as [Hc Hcs]. destruct (command_ok c s Hrel Hc Hs) as (s1 & E1 & Hs1).
  destruct (IH s1 Hcs Hs1) as (s2 & E2 & Hs2). exists s2. split; [|done].
  cbn [fmap list_fmap run for_each]. unfold run in E2. cbn [for_each]. unfold mbind at 1, RM_bind at 1. by rewrite E1.
Qed.
End Routes.

Section Restored.
Context {K : Type} `{Rtnetlink K} `{NetlinkPacket} `{HashOrder} `{IpNetworkCrate} `{!LinuxRouting K}.

Lemma run_snoc cs c (s s1 : RouteManagerImpl * K) :
  run (Command <$> cs) s = (ROk tt, s1) → run (Command <$> (cs ++ [c])) s = run [Command c] s1.
Proof.
  unfold run. revert s; induction cs as [|x cs IH]; intros s; [by intros [= ->]|].
  cbn [app fmap list_fmap for_each]. intros ([] & s2 & E & E')%RM_bind_ok.
  unfold mbind at 1, RM_bind at 1. rewrite E. by apply IH.
Qed.

(** The last command takes away what the manager knows of. *)
Lemma last_command m0 base c (m : RouteManagerImpl) (k : K) :
  reliable (K := K) → c ∈ [ClearRoutes; ShutdownCommand] → routes_known m0 base (m, k) →
  let s := (run [Command c] (m, k)).2 in added_routes s.1 = [] ∧ ∀ e, e ∈ fib s.2 ↔ e ∈ base.
Proof.
  intros Hrel Hc Hk. destruct (cleanup_all m0 base m k Hrel Hk) as (k' & E & [Hb Hf]).
  assert (∀ e, e ∈ fib k' ↔ e ∈ base) as He by (intros e; split; [intros [He|(?&?&_)]%Hf; set_solver|apply Hb]).
  cbn. unfold run, for_each, step, process_command, destructor. destruct c; try (exfalso; set_solver).
  - unfold mbind, RM_bind. rewrite E. cbn. done.
  - unfold mbind, RM_bind. rewrite E. cbn.
    assert (preserves (λ s, added_routes s.1 = [] ∧ ∀ e, e ∈ fib s.2 ↔ e ∈ base) (log_error (clear_routing_rules (K := K)))) as Hp.
    { apply preserves_log, rules_frame_clear. intros m1 k1 k2 Ek. cbn. by rewrite Ek. }
    destruct (Hp (with_added [] m, k')) as [_ Hp']; [done|].
    by destruct (log_error clear_routing_rules (with_added [] m, k')) as [[] ?].
Qed.

(** C19: the manager takes away every route that it added: from a state in
    which it knows of none, after any sequence of commands that add routes
    (whether or not each of them succeeds), create and clear rules, and clear
    routes, a last command to clear the routes or to shut down leaves the
    kernel with exactly the routes it had before.  Assumed: the kernel refuses to
    delete a route only when there is none, every added route is of a kind whose
    deletion message names it, and none has the key of a route that was there
    before or is matched with one by its deletion (routes are added with
    NLM_F_REPLACE, so a user's route with the same key is replaced and later
    deleted). *)
Theorem routes_restored (m : RouteManagerImpl) (k : K) cs last :
  reliable (K := K) → added_routes m = [] → Forall (tunnel_command m (fib k)) cs →
  last ∈ [ClearRoutes; ShutdownCommand] →
  let s := (run (Command <$> (cs ++ [last])) (m, k)).2 in
  added_routes s.1 = [] ∧ ∀ e, e ∈ fib s.2 ↔ e ∈ fib k.
Proof.
  intros Hrel Ha Hcs Hl. destruct (commands_ok m (fib k) cs (m, k) Hrel Hcs) as ([m1 k1] & E & Hk1).
  { unfold routes_known, fib_is. cbn. rewrite Ha. split_and!; auto. }
  rewrite (run_snoc _ _ _ _ E). by apply (last_command m).
Qed.
End Restored.
