(* ===== verification/Obfuscation.v ===== *)
(** * Tunnel obfuscation

    tunnel-obfuscation/src: the settings of the obfuscators and their overhead
    (lib.rs, udp2tcp.rs, shadowsocks.rs, quic.rs), the packet transformation of
    LWO (lwo.rs) and the multiplexer that tries several transports
    (multiplexer.rs).  Packets and keys are lists of bytes. *)

From S2P Require Import Prelude NetTypes.

(** ** LWO (lwo.rs) *)

Module lwo.
Record Settings : Set := {
  server_addr : SocketAddr;
  client_public_key : list Z;
  server_public_key : list Z;
  fwmark : option Z
}.

(** WireGuard message types and the sizes of their headers. *)
Definition HANDSHAKE_INIT : Z := 1.
Definition HANDSHAKE_RESP : Z := 2.
Definition COOKIE_REPLY : Z := 3.
Definition DATA : Z := 4.
Definition HANDSHAKE_INIT_SZ : nat := 148.
Definition HANDSHAKE_RESP_SZ : nat := 92.
Definition COOKIE_REPLY_SZ : nat := 64.
Definition DATA_OVERHEAD_SZ : nat := 32.
Definition OBFUSCATION_BIT : Z := 128.

(** [packet.get_mut(..n)], as the number of bytes of the slice. *)
Definition get_mut (packet : list Z) (n : nat) : option nat :=
  if (n <=? length packet)%nat then Some n else None.

Definition header_mut (packet : list Z) (key_byte : Z) : option nat :=
  match packet with
  | [] => None
  | header_type :: _ =>
      let t := Z.lxor header_type key_byte in
      if t =? HANDSHAKE_INIT then get_mut packet HANDSHAKE_INIT_SZ
      else if t =? HANDSHAKE_RESP then get_mut packet HANDSHAKE_RESP_SZ
      else if t =? COOKIE_REPLY then get_mut packet COOKIE_REPLY_SZ
      else if t =? DATA then get_mut packet DATA_OVERHEAD_SZ
      else None
  end.

Definition xor_bytes (data key : list Z) : list Z :=
  imap (λ i byte, Z.lxor byte (key !!! (i `mod` length key)%nat)) data.

(** [random] is what the generator gives. *)
Definition obfuscate (random : Z) (packet key : list Z) : list Z :=
  match header_mut packet 0 with
  | None => packet
  | Some n =>
      let header_bytes := xor_bytes (take n packet) key in
      let rand_byte := wrap 8 (random mod 255) in
      <[1%nat := Z.lor rand_byte OBFUSCATION_BIT]> header_bytes ++ drop n packet
  end.

Definition deobfuscate (packet key : list Z) : list Z :=
  match header_mut packet (key !!! 0%nat) with
  | None => packet
  | Some n =>
      let header_bytes := xor_bytes (take n packet) key in
      <[1%nat := 0]> header_bytes ++ drop n packet
  end.

(** The loops of the two tasks, over the packets that are received. *)
Definition run_obfuscation (sending : bool) (key : list Z) (received : list (Z * list Z)) : list (list Z) :=
  map (λ '(random, packet), if sending then obfuscate random packet key else deobfuscate packet key) received.

(** *** Lemmas *)

Lemma length_xor_bytes data key : length (xor_bytes data key) = length data.
Proof. apply length_imap. Qed.

Lemma lookup_xor_bytes data key i :
  xor_bytes data key !! i = (λ b, Z.lxor b (key !!! (i `mod` length key)%nat)) <$> data !! i.
Proof. unfold xor_bytes. by rewrite list_lookup_imap. Qed.

Lemma xor_bytes_twice data key : xor_bytes (xor_bytes data key) key = data.
Proof.
  apply list_eq. intros i. rewrite !lookup_xor_bytes. destruct (data !! i); cbn; [|done].
  by rewrite Z.lxor_assoc, Z.lxor_nilpotent, Z.lxor_0_r.
Qed.

(** Only the type of the message and the length of the packet matter. *)
Lemma header_mut_ext p q a b x y :
  Z.lxor x a = Z.lxor y b → length p = length q → header_mut (x :: p) a = header_mut (y :: q) b.
Proof. intros E El. unfold header_mut, get_mut. cbn [length]. by rewrite E, El. Qed.

Lemma header_mut_bounds packet k n : header_mut packet k = Some n → (32 ≤ n ≤ length packet)%nat.
Proof.
  unfold header_mut, get_mut. destruct packet as [|x p]; [done|]. cbv zeta. intros E.
  repeat match type of E with
  | (if (_ =? _) then _ else _) = _ => destruct (_ =? _)
  | (if (?a <=? ?b)%nat then _ else _) = _ => destruct (Nat.leb_spec a b); [injection E as <-|done]
  | None = Some _ => done
  end; unfold HANDSHAKE_INIT_SZ, HANDSHAKE_RESP_SZ, COOKIE_REPLY_SZ, DATA_OVERHEAD_SZ in *; lia.
Qed.

(** a WireGuard packet survives LWO: what one side obfuscates with a key,
    the other side turns back into the same bytes with the same key, whatever
    random byte was drawn; the packet's payload is never touched, and the bit
    by which a relay tells an obfuscated packet is set on the way. *)
Theorem lwo_roundtrip random packet key n :
  header_mut packet 0 = Some n → packet !! 1%nat = Some 0 → length key = 32%nat →
  let sent := obfuscate random packet key in
  deobfuscate sent key = packet ∧ length sent = length packet ∧ drop n sent = drop n packet ∧
  ∃ b, sent !! 1%nat = Some b ∧ Z.testbit b 7 = true.
Proof.
  intros Hn H1 Hk. cbv zeta. destruct (header_mut_bounds _ _ _ Hn) as [Hn1 Hn2].
  unfold obfuscate. rewrite Hn. set (r := Z.lor _ _). set (h := <[1%nat := r]> (xor_bytes (take n packet) key)).
  assert (length h = n) as Hh by (unfold h; rewrite length_insert, length_xor_bytes, length_take; lia).
  assert (take n (h ++ drop n packet) = h ∧ drop n (h ++ drop n packet) = drop n packet) as [Ht Hd].
  { rewrite <- Hh at 1 3. by rewrite take_app_length, drop_app_length. }
  split_and!; [|rewrite length_app, length_drop; lia|done|].
  2: { exists r. split; [|unfold r; rewrite Z.lor_spec; apply orb_true_r].
       rewrite lookup_app_l by lia. unfold h. apply list_lookup_insert_eq. rewrite length_xor_bytes, length_take. lia. }
  destruct packet as [|x p]; [done|]. unfold deobfuscate.
  assert (header_mut (h ++ drop n (x :: p)) (key !!! 0%nat) = Some n) as ->.
  { rewrite <- Hn. assert (h !! 0%nat = Some (Z.lxor x (key !!! 0%nat))) as E0.
    { unfold h. rewrite list_lookup_insert_ne by done. rewrite lookup_xor_bytes, lookup_take_lt by lia. cbn.
      by rewrite Nat.mod_0_l by lia. }
    destruct h as [|y h']; [done|]. injection E0 as ->. apply header_mut_ext.
    - by rewrite Z.lxor_assoc, Z.lxor_nilpotent.
    - rewrite length_app, length_drop. cbn in *. lia. }
  rewrite Ht, Hd. transitivity (take n (x :: p) ++ drop n (x :: p)); [|apply take_drop]. f_equal. unfold h.
  apply list_eq. intros i. destruct (decide (i = 1%nat)) as [->|Hi].
  - rewrite list_lookup_insert_eq by (rewrite length_xor_bytes, length_insert, length_xor_bytes, length_take; lia).
    by rewrite lookup_take_lt by lia.
  - rewrite list_lookup_insert_ne by done. rewrite lookup_xor_bytes, list_lookup_insert_ne by done.
    rewrite <- lookup_xor_bytes. by rewrite xor_bytes_twice.
Qed.
End lwo.

(** ** Settings and obfuscators (lib.rs and the modules of the obfuscators) *)

Module udp2tcp.
Record Settings : Set := { peer : SocketAddr; fwmark : option Z }.
End udp2tcp.

Module shadowsocks.
Record Settings : Set := {
  shadowsocks_endpoint : SocketAddr;
  wireguard_endpoint : SocketAddr;
  fwmark : option Z
}.
End shadowsocks.

Module quic.
Record Settings : Set := {
  quic_endpoint : SocketAddr;
  wireguard_endpoint : SocketAddr;
  hostname : string;
  token : string;
  fwmark : option Z;
  mtu : option Z
}.
Definition Settings_new (quic_server_endpoint : SocketAddr) (hostname token : string) (target_endpoint : SocketAddr) : Settings :=
  {| quic_endpoint := quic_server_endpoint; wireguard_endpoint := target_endpoint; hostname := hostname;
     token := token; fwmark := None; mtu := None |}.
Definition with_mtu (mtu : Z) (s : Settings) : Settings :=
  {| quic_endpoint := quic_endpoint s; wireguard_endpoint := wireguard_endpoint s; hostname := hostname s;
     token := token s; fwmark := fwmark s; mtu := Some mtu |}.
Definition with_fwmark (mark : Z) (s : Settings) : Settings :=
  {| quic_endpoint := quic_endpoint s; wireguard_endpoint := wireguard_endpoint s; hostname := hostname s;
     token := token s; fwmark := Some mark; mtu := mtu s |}.
(** [AuthToken::new] and [from_str]. *)
Definition AuthToken_new (token : string) : option string :=
  if String.prefix "Bearer" token then None else Some token.
Definition auth_header (s : Settings) : string := ("Bearer " +:+ token s)%string.
End quic.

Inductive Settings : Set :=
| SUdp2Tcp (s : udp2tcp.Settings)
| SShadowsocks (s : shadowsocks.Settings)
| SQuic (s : quic.Settings)
| SLwo (s : lwo.Settings)
| SMultiplexer (transports : list Transport) (fwmark : option Z)
with Transport : Set :=
| Direct (addr : SocketAddr)
| Obfuscated (settings : Settings).

(** Errors; their sources are kept for the log only. *)
Inductive ObfuscationError : Set :=
| CreateUdp2TcpObfuscator
| CreateShadowsocksObfuscator
| CreateQuicObfuscator
| CreateLwoObfuscator
| BindRemoteUdp
| SetFwmark
| CreateMultiplexerObfuscator.

(** Sockets of the operating system, and the udp-over-tcp library, which opens
    its own sockets with the options it is given. *)
Class SocketIo (O : Type) : Type := {
  sk_bind : SocketAddr → O → result unit Z * O;
  sk_local_addr : Z → O → result unit SocketAddr * O;
  sk_set_mark : Z → Z → O → result unit unit * O;
  sk_udp2tcp : SocketAddr → SocketAddr → option Z → O → result unit SocketAddr * O;
  (** Bytes that Shadowsocks adds to a packet for an address. *)
  ss_overhead : SocketAddr → Z
}.

(** A socket towards the relay, with the mark that was set on it. *)
Record RemoteSocket : Set := { rs_mark : option Z; rs_ipv4 : bool }.

(** What the rest of the tunnel sees of an obfuscator. *)
Record Obfuscator : Set := {
  ob_endpoint : SocketAddr;
  ob_packet_overhead : Z;
  ob_remote : list RemoteSocket
}.

Definition is_ipv4 (s : SocketAddr) : bool := match s with SockV4 _ _ => true | _ => false end.
Definition localhost (ipv4 : bool) (port : Z) : SocketAddr :=
  if ipv4 then SockV4 (Ipv4Addr_new 127 0 0 1) port else SockV6 1 port 0 0.
Definition unspecified (ipv4 : bool) : SocketAddr := if ipv4 then SockV4 0 0 else SockV6 0 0 0 0.

Section Create.
Context {O : Type} `{SocketIo O}.

Definition OM (A : Type) : Type := O → result ObfuscationError A * O.
#[local] Instance OM_ret : MRet OM := λ A a o, (Ok a, o).
#[local] Instance OM_bind : MBind OM := λ A B f c o,
  match c o with (Ok a, o') => f a o' | (Err e, o') => (Err e, o') end.
(** A call of the system, with the error it is mapped to. *)
Definition call {A} (e : ObfuscationError) (f : O → result unit A * O) : OM A := λ o,
  let '(r, o) := f o in (map_err (λ _, e) r, o).

(** socket.rs *)
Definition create_remote_socket (ipv4 : bool) (fwmark : option Z) : OM RemoteSocket :=
  socket ← call BindRemoteUdp (sk_bind (unspecified ipv4));
  match fwmark with
  | Some fwmark =>
      _ ← call SetFwmark (sk_set_mark socket fwmark);
      mret {| rs_mark := Some fwmark; rs_ipv4 := ipv4 |}
  | None => mret {| rs_mark := None; rs_ipv4 := ipv4 |}
  end.

(** A local socket and its address. *)
Definition create_local_udp_socket (e : ObfuscationError) (ipv4 : bool) : OM SocketAddr :=
  socket ← call e (sk_bind (localhost ipv4 0));
  call e (sk_local_addr socket).

Definition udp2tcp_overhead : Z := 60 - 8 + 2.

Definition Udp2Tcp_new (s : udp2tcp.Settings) : OM Obfuscator :=
  let listen_addr := localhost (is_ipv4 (udp2tcp.peer s)) 0 in
  local_addr ← call CreateUdp2TcpObfuscator (sk_udp2tcp listen_addr (udp2tcp.peer s) (udp2tcp.fwmark s));
  mret {| ob_endpoint := local_addr; ob_packet_overhead := udp2tcp_overhead;
          ob_remote := [{| rs_mark := udp2tcp.fwmark s; rs_ipv4 := is_ipv4 (udp2tcp.peer s) |}] |}.

Definition Shadowsocks_new (s : shadowsocks.Settings) : OM Obfuscator :=
  let ipv4 := is_ipv4 (shadowsocks.shadowsocks_endpoint s) in
  udp_client_addr ← create_local_udp_socket CreateShadowsocksObfuscator ipv4;
  remote_socket ← create_remote_socket ipv4 (shadowsocks.fwmark s);
  mret {| ob_endpoint := udp_client_addr; ob_packet_overhead := ss_overhead (shadowsocks.wireguard_endpoint s);
          ob_remote := [remote_socket] |}.

Definition Quic_new (s : quic.Settings) : OM Obfuscator :=
  let ipv4 := is_ipv4 (quic.quic_endpoint s) in
  local_udp_client_addr ← create_local_udp_socket CreateQuicObfuscator ipv4;
  quic_socket ← create_remote_socket ipv4 (quic.fwmark s);
  mret {| ob_endpoint := local_udp_client_addr; ob_packet_overhead := 0; ob_remote := [quic_socket] |}.

Definition Lwo_new (s : lwo.Settings) : OM Obfuscator :=
  remote_socket ← create_remote_socket (is_ipv4 (lwo.server_addr s)) (lwo.fwmark s);
  local_endpoint ← create_local_udp_socket CreateLwoObfuscator true;
  mret {| ob_endpoint := local_endpoint; ob_packet_overhead := 0; ob_remote := [remote_socket] |}.

Definition Multiplexer_create (fwmark : option Z) : OM Obfuscator :=
  client_socket_addr ← create_local_udp_socket CreateMultiplexerObfuscator true;
  proxy_socket_v4 ← create_remote_socket true fwmark;
  proxy_socket_v6 ← create_remote_socket false fwmark;
  mret {| ob_endpoint := client_socket_addr; ob_packet_overhead := 60; ob_remote := [proxy_socket_v4; proxy_socket_v6] |}.

Definition create_obfuscator (settings : Settings) : OM Obfuscator :=
  match settings with
  | SUdp2Tcp s => Udp2Tcp_new s
  | SShadowsocks s => Shadowsocks_new s
  | SQuic s => Quic_new s
  | SLwo s => Lwo_new s
  | SMultiplexer _ fwmark => Multiplexer_create fwmark
  end.
End Create.

(** ** The multiplexer (multiplexer.rs) *)

Module multiplexer.
Definition MAX_INITIAL_PACKETS : nat := 100.

(** How the loop is left. *)
Inductive Mode : Set :=
| Discovery
| Connected (local_address proxy_address : SocketAddr)
| Ended (r : result unit unit).

Record Multiplexer : Set := {
  running_endpoints : list (SocketAddr * Transport);
  transports : list Transport;
  initial_packets_to_send : list (list Z);
  wg_addr : option SocketAddr;
  mode : Mode
}.

Definition Multiplexer_new (transports : list Transport) : Multiplexer :=
  {| running_endpoints := []; transports := transports; initial_packets_to_send := []; wg_addr := None; mode := Discovery |}.

(** What happens to the multiplexer: a datagram or an error on the socket for
    WireGuard or on one of the sockets for the proxies, or the next tick.
    [connected] says whether the client socket could be connected; [created] is
    the endpoint of a new obfuscator. *)
Inductive Event : Set :=
| FromWg (packet : list Z) (from_addr : SocketAddr)
| WgError
| FromProxy (packet : list Z) (from_addr : SocketAddr) (connected : bool)
| ProxyError
| Tick (created : result unit SocketAddr).

Inductive Send : Set :=
| ToProxy (addr : SocketAddr) (packet : list Z)
| ToWg (addr : SocketAddr) (packet : list Z).

Definition with_mode (md : Mode) (m : Multiplexer) : Multiplexer :=
  {| running_endpoints := running_endpoints m; transports := transports m;
     initial_packets_to_send := initial_packets_to_send m; wg_addr := wg_addr m; mode := md |}.

(** The map of running endpoints; an endpoint has one entry. *)
Definition insert_endpoint (addr : SocketAddr) (t : Transport) (l : list (SocketAddr * Transport)) : list (SocketAddr * Transport) :=
  (addr, t) :: filter (λ e, e.1 ≠ addr) l.
Definition has_endpoint (addr : SocketAddr) (l : list (SocketAddr * Transport)) : bool :=
  existsb (λ e, bool_decide (e.1 = addr)) l.

Definition send_to_all (endpoints : list (SocketAddr * Transport)) (packet : list Z) : list Send :=
  map (λ e, ToProxy e.1 packet) endpoints.
Definition send_initial_packets_to (m : Multiplexer) (endpoint : SocketAddr) : list Send :=
  map (ToProxy endpoint) (initial_packets_to_send m).

Definition spawn_new_transport (transport : Transport) (created : result unit SocketAddr) (m : Multiplexer) : Multiplexer * list Send :=
  let add endpoint :=
    ({| running_endpoints := insert_endpoint endpoint transport (running_endpoints m); transports := transports m;
        initial_packets_to_send := initial_packets_to_send m; wg_addr := wg_addr m; mode := mode m |},
     send_initial_packets_to m endpoint) in
  match transport with
  | Direct addr => add addr
  | Obfuscated _ => match created with Ok endpoint => add endpoint | Err _ => (m, []) end
  end.

Definition process_obfuscator_recv (received : list Z) (obfuscator_addr : SocketAddr) (connected : bool) (m : Multiplexer) :
    Multiplexer * list Send :=
  if negb (has_endpoint obfuscator_addr (running_endpoints m)) then (m, [])
  else match wg_addr m with
       | None => (m, [])
       | Some wg => (with_mode (if connected then Connected wg obfuscator_addr else Ended (Err tt)) m, [ToWg wg received])
       end.

(** One turn of the loop of [start], or of the tasks of [run_connected]: the
    client socket is then connected to WireGuard, and packets are read from the
    proxy socket of the proxy's family, whoever sent them. *)
Definition step (event : Event) (m : Multiplexer) : Multiplexer * list Send :=
  match mode m with
  | Discovery =>
      match event with
      | FromWg pkt from_addr =>
          let m := {| running_endpoints := running_endpoints m; transports := transports m;
                      initial_packets_to_send := initial_packets_to_send m; wg_addr := Some from_addr; mode := mode m |} in
          if (MAX_INITIAL_PACKETS <=? length (initial_packets_to_send m))%nat then (with_mode (Ended (Err tt)) m, [])
          else
            ({| running_endpoints := running_endpoints m; transports := transports m;
                initial_packets_to_send := initial_packets_to_send m ++ [pkt]; wg_addr := wg_addr m; mode := mode m |},
             send_to_all (running_endpoints m) pkt)
      | WgError => (with_mode (Ended (Ok tt)) m, [])
      | FromProxy received addr connected => process_obfuscator_recv received addr connected m
      | ProxyError => (with_mode (Ended (Err tt)) m, [])
      | Tick created =>
          match transports m with
          | [] => (m, [])
          | transport :: rest =>
              spawn_new_transport transport created
                {| running_endpoints := running_endpoints m; transports := rest;
                   initial_packets_to_send := initial_packets_to_send m; wg_addr := wg_addr m; mode := mode m |}
          end
      end
  | Connected local_address proxy_address =>
      match event with
      | FromWg pkt from_addr =>
          if bool_decide (from_addr = local_address) then (m, [ToProxy proxy_address pkt]) else (m, [])
      | FromProxy received addr _ =>
          if Bool.eqb (is_ipv4 addr) (is_ipv4 proxy_address) then (m, [ToWg local_address received]) else (m, [])
      | WgError | ProxyError => (with_mode (Ended (Err tt)) m, [])
      | Tick _ => (m, [])
      end
  | Ended _ => (m, [])
  end.

(** The address of a transport: that of a relay, or of the new obfuscator. *)
Definition transport_addr (t : Transport) (created : result unit SocketAddr) : result unit SocketAddr :=
  match t with Direct addr => Ok addr | Obfuscated _ => created end.

(** The states that the multiplexer goes through, with what has happened to it
    and what it has sent.  The system gives every socket an address of its own,
    and the direct transport has the address of a relay. *)
Inductive reaches (settings : list Transport) : Multiplexer → list Event → list Send → Prop :=
| Start : reaches settings (Multiplexer_new settings) [] []
| Step m events out event m' sent :
    reaches settings m events out →
    (∀ t rest created, event = Tick created → transports m = t :: rest →
       ∀ a, transport_addr t created = Ok a → has_endpoint a (running_endpoints m) = false) →
    step event m = (m', sent) →
    reaches settings m' (events ++ [event]) (out ++ sent).

(** *** What is expected of it *)

(** The packets of WireGuard, the address that the last one came from, and the
    addresses of the transports that were started: one per tick, in the order of
    the settings. *)
Definition from_wireguard (events : list Event) : list (list Z) :=
  omap (λ e, match e with FromWg p _ => Some p | _ => None end) events.
Definition wireguard_addr (events : list Event) : option SocketAddr :=
  last (omap (λ e, match e with FromWg _ a => Some a | _ => None end) events).
Fixpoint started (ts : list Transport) (events : list Event) : list SocketAddr :=
  match events with
  | [] => []
  | Tick created :: events =>
      match ts with
      | [] => []
      | t :: ts => match transport_addr t created with Ok a => [a] | Err _ => [] end ++ started ts events
      end
  | _ :: events => started ts events
  end.

(** What is forwarded between WireGuard and the transport that was chosen. *)
Definition forwarded (wg proxy : SocketAddr) (event : Event) : list Send :=
  match event with
  | FromWg p from => if bool_decide (from = wg) then [ToProxy proxy p] else []
  | FromProxy p from _ => if Bool.eqb (is_ipv4 from) (is_ipv4 proxy) then [ToWg wg p] else []
  | _ => []
  end.

(** The packets sent to an endpoint. *)
Definition sent_to (addr : SocketAddr) (out : list Send) : list (list Z) :=
  omap (λ s, match s with ToProxy a p => if bool_decide (a = addr) then Some p else None | ToWg _ _ => None end) out.

(** *** The invariant *)

Lemma sent_to_app addr out1 out2 : sent_to addr (out1 ++ out2) = sent_to addr out1 ++ sent_to addr out2.
Proof. apply omap_app. Qed.

Lemma sent_to_cons addr a p out :
  sent_to addr (ToProxy a p :: out) = (if bool_decide (a = addr) then [p] else []) ++ sent_to addr out.
Proof. unfold sent_to. cbn. by case_bool_decide. Qed.

Lemma has_endpoint_elem addr l : has_endpoint addr l = true ↔ addr ∈ l.*1.
Proof.
  unfold has_endpoint. rewrite existsb_exists, list_elem_of_fmap. split.
  - intros (e & He & Hb). apply bool_decide_eq_true in Hb. exists e. by rewrite list_elem_of_In.
  - intros (e & -> & He). exists e. rewrite <- list_elem_of_In, bool_decide_true; done.
Qed.

Lemma sent_to_all addr l p :
  NoDup l.*1 → sent_to addr (send_to_all l p) = if has_endpoint addr l then [p] else [].
Proof.
  induction l as [|[a t] l IH]; [done|]. intros [Ha Hn]%NoDup_cons. specialize (IH Hn).
  change (send_to_all ((a, t) :: l) p) with (ToProxy a p :: send_to_all l p). rewrite sent_to_cons, IH.
  change (has_endpoint addr ((a, t) :: l)) with (bool_decide (a = addr) || has_endpoint addr l).
  case_bool_decide as E; cbn; [|done]. subst a.
  destruct (has_endpoint addr l) eqn:Ex; [|done]. by apply has_endpoint_elem in Ex.
Qed.

Lemma sent_to_replay addr endpoint ps :
  sent_to addr (map (ToProxy endpoint) ps) = if bool_decide (endpoint = addr) then ps else [].
Proof.
  induction ps as [|p ps IH]; [by case_bool_decide|].
  change (map (ToProxy endpoint) (p :: ps)) with (ToProxy endpoint p :: map (ToProxy endpoint) ps).
  rewrite sent_to_cons, IH. by case_bool_decide.
Qed.

Lemma insert_fresh addr t l : has_endpoint addr l = false → insert_endpoint addr t l = (addr, t) :: l.
Proof.
  unfold insert_endpoint. intros Hf. f_equal. induction l as [|[a t'] l IH]; [done|].
  change (has_endpoint addr ((a, t') :: l)) with (bool_decide (a = addr) || has_endpoint addr l) in Hf.
  apply orb_false_iff in Hf as [Ha Hf]. apply bool_decide_eq_false in Ha. by rewrite filter_cons_True, IH.
Qed.

Definition ticks (events : list Event) : nat := length (List.filter (λ e, match e with Tick _ => true | _ => false end) events).

Lemma ticks_app es es' : ticks (es ++ es') = (ticks es + ticks es')%nat.
Proof. unfold ticks. by rewrite List.filter_app, length_app. Qed.

Lemma started_nil es : started [] es = [].
Proof. by induction es as [|[] es IH]. Qed.

Lemma started_app ts es es' : started ts (es ++ es') = started ts es ++ started (drop (ticks es) ts) es'.
Proof.
  revert ts. induction es as [|e es IH]; intros ts; [done|]. destruct e; cbn; try apply IH.
  destruct ts as [|t ts]; [by rewrite started_nil|]. cbn. by rewrite <- app_assoc, IH.
Qed.

(** While it looks for a transport: no endpoint twice, the endpoints are those
    of the transports started so far, each has been sent exactly the packets of
    WireGuard, which are kept, and no transport has answered yet. *)
Record discovery_ok (settings : list Transport) (m : Multiplexer) (events : list Event) (out : list Send) : Prop := {
  ok_nodup : NoDup (running_endpoints m).*1;
  ok_started a : has_endpoint a (running_endpoints m) = true ↔ a ∈ started settings events;
  ok_transports : transports m = drop (ticks events) settings;
  ok_packets : initial_packets_to_send m = from_wireguard events;
  ok_sent a : sent_to a out = if has_endpoint a (running_endpoints m) then from_wireguard events else [];
  ok_addr : wg_addr m = wireguard_addr events;
  ok_first es1 p a c es2 : events = es1 ++ FromProxy p a c :: es2 → a ∈ started settings es1 → wireguard_addr es1 = None
}.

(** Once a transport is chosen: what happened before, the answer that chose it,
    and what has been forwarded since. *)
Definition chosen_ok (settings : list Transport) (wg proxy : SocketAddr) (events : list Event) (out : list Send) : Prop :=
  ∃ m1 es1 p es2 out1, events = es1 ++ FromProxy p proxy true :: es2 ∧ reaches settings m1 es1 out1 ∧ mode m1 = Discovery ∧
    proxy ∈ started settings es1 ∧ wireguard_addr es1 = Some wg ∧ out = out1 ++ ToWg wg p :: concat (map (forwarded wg proxy) es2).

Definition state_ok (settings : list Transport) (m : Multiplexer) (events : list Event) (out : list Send) : Prop :=
  (length (initial_packets_to_send m) ≤ MAX_INITIAL_PACKETS)%nat ∧
  match mode m with
  | Discovery => discovery_ok settings m events out
  | Connected wg proxy => chosen_ok settings wg proxy events out
  | Ended _ => True
  end.

(** An event that the search takes no notice of. *)
Lemma first_snoc settings events e :
  (∀ es1 p a c es2, events = es1 ++ FromProxy p a c :: es2 → a ∈ started settings es1 → wireguard_addr es1 = None) →
  (∀ p a c, e = FromProxy p a c → a ∈ started settings events → wireguard_addr events = None) →
  ∀ es1 p a c es2, events ++ [e] = es1 ++ FromProxy p a c :: es2 → a ∈ started settings es1 → wireguard_addr es1 = None.
Proof.
  intros Hf He es1 p a c es2 E. destruct es2 as [|e2 es2 _] using rev_ind.
  - apply app_inj_tail in E as [<- ->]. by eapply He.
  - rewrite app_comm_cons, app_assoc in E. apply app_inj_tail in E as [E _]. by eapply Hf.
Qed.

Lemma ignored_ok settings m events out e :
  discovery_ok settings m events out → started settings (events ++ [e]) = started settings events →
  ticks [e] = 0%nat ∨ drop (ticks events) settings = [] → from_wireguard [e] = [] → wireguard_addr (events ++ [e]) = wireguard_addr events →
  (∀ p a c, e = FromProxy p a c → a ∈ started settings events → wireguard_addr events = None) →
  discovery_ok settings m (events ++ [e]) out.
Proof.
  intros [Hn Hst Ht Hp Hs Hw Hf] Est Eti Efw Ewa He. unfold from_wireguard in *.
  constructor; unfold from_wireguard; rewrite ?omap_app, ?Efw, ?app_nil_r; try done.
  - intros a. by rewrite Est.
  - rewrite Ht, ticks_app. destruct Eti as [->| Eti]; [by rewrite Nat.add_0_r|]. by rewrite <- drop_drop, Eti, drop_nil.
  - by rewrite Ewa.
  - by apply first_snoc.
Qed.

Lemma spawn_ok settings t created rest m events out m' sent :
  mode m = Discovery → discovery_ok settings m events out → transports m = t :: rest →
  (∀ a, transport_addr t created = Ok a → has_endpoint a (running_endpoints m) = false) →
  spawn_new_transport t created
    {| running_endpoints := running_endpoints m; transports := rest;
       initial_packets_to_send := initial_packets_to_send m; wg_addr := wg_addr m; mode := mode m |} = (m', sent) →
  mode m' = Discovery ∧ initial_packets_to_send m' = initial_packets_to_send m ∧
  discovery_ok settings m' (events ++ [Tick created]) (out ++ sent).
Proof.
  intros Hm [Hn Hst Ht Hp Hs Hw Hf] Htr Hfresh E. rewrite Htr in Ht. symmetry in Ht.
  assert (started settings (events ++ [Tick created]) =
    started settings events ++ match transport_addr t created with Ok a => [a] | Err _ => [] end) as Est.
  { rewrite started_app, Ht. cbn. by rewrite app_nil_r. }
  assert (rest = drop (ticks (events ++ [Tick created])) settings) as Hrest.
  { rewrite ticks_app, <- drop_drop, Ht. done. }
  assert (from_wireguard (events ++ [Tick created]) = from_wireguard events) as Efw.
  { unfold from_wireguard. rewrite omap_app. cbn. by rewrite app_nil_r. }
  assert (wireguard_addr (events ++ [Tick created]) = wireguard_addr events) as Ewa.
  { unfold wireguard_addr. rewrite omap_app. cbn. by rewrite app_nil_r. }
  assert (∀ addr, transport_addr t created = Ok addr →
    discovery_ok settings {| running_endpoints := insert_endpoint addr t (running_endpoints m); transports := rest;
                    initial_packets_to_send := initial_packets_to_send m; wg_addr := wg_addr m; mode := mode m |}
      (events ++ [Tick created]) (out ++ map (ToProxy addr) (initial_packets_to_send m))) as Hadd.
  { intros addr Ead. pose proof (Hfresh addr Ead) as Ha. rewrite Ead in Est.
    assert (∀ a, has_endpoint a ((addr, t) :: running_endpoints m) = bool_decide (addr = a) || has_endpoint a (running_endpoints m)) as Hh by done.
    rewrite insert_fresh by done.
    constructor; cbn [running_endpoints mode initial_packets_to_send transports wg_addr]; rewrite ?Efw, ?Ewa; try done.
    - apply NoDup_cons. split; [|done]. intros Hin. change (addr ∈ (running_endpoints m).*1) in Hin.
      apply has_endpoint_elem in Hin. congruence.
    - intros a. rewrite Hh, Est, elem_of_app, list_elem_of_singleton, <- Hst, orb_true_iff, bool_decide_eq_true. naive_solver.
    - intros a. rewrite sent_to_app, sent_to_replay, Hs, Hh, Hp.
      case_bool_decide; subst; cbn; [by rewrite Ha|]. by destruct (has_endpoint a _); rewrite ?app_nil_r.
    - by apply first_snoc. }
  unfold spawn_new_transport in E. destruct t as [addr|s]; [injection E as <- <-; by split_and!; [..|apply Hadd]|].
  destruct created as [addr|[]]; injection E as <- <-; [by split_and!; [..|apply Hadd]|]. rewrite app_nil_r.
  split_and!; [done..|]. cbn in Est. rewrite app_nil_r in Est.
  constructor; cbn [running_endpoints mode initial_packets_to_send transports wg_addr]; rewrite ?Efw, ?Ewa; try done.
  - intros a. by rewrite Est.
  - by apply first_snoc.
Qed.

Lemma packet_ok settings m events out pkt from :
  discovery_ok settings m events out →
  discovery_ok settings
    {| running_endpoints := running_endpoints m; transports := transports m;
       initial_packets_to_send := initial_packets_to_send m ++ [pkt]; wg_addr := Some from; mode := mode m |}
    (events ++ [FromWg pkt from]) (out ++ send_to_all (running_endpoints m) pkt).
Proof.
  intros [Hn Hst Ht Hp Hs Hw Hf].
  assert (from_wireguard (events ++ [FromWg pkt from]) = from_wireguard events ++ [pkt]) as Efw.
  { unfold from_wireguard. by rewrite omap_app. }
  constructor; cbn [running_endpoints mode initial_packets_to_send transports wg_addr]; rewrite ?Efw, ?Hp; try done.
  - intros a. by rewrite Hst, started_app, app_nil_r.
  - by rewrite ticks_app, Nat.add_0_r.
  - intros a. rewrite sent_to_app, Hs, sent_to_all by done. by destruct (has_endpoint a _).
  - unfold wireguard_addr. rewrite omap_app. cbn. by rewrite last_snoc.
  - by apply first_snoc.
Qed.

Lemma answer_ok settings m events out p addr connected :
  reaches settings m events out → mode m = Discovery → discovery_ok settings m events out →
  let r := process_obfuscator_recv p addr connected m in
  initial_packets_to_send r.1 = initial_packets_to_send m ∧
  match mode r.1 with
  | Discovery => discovery_ok settings r.1 (events ++ [FromProxy p addr connected]) (out ++ r.2)
  | Connected wg proxy => chosen_ok settings wg proxy (events ++ [FromProxy p addr connected]) (out ++ r.2)
  | Ended _ => True
  end.
Proof.
  intros Hr Hm Hok.
  assert ((addr ∈ started settings events → wireguard_addr events = None) →
    discovery_ok settings m (events ++ [FromProxy p addr connected]) (out ++ [])) as Hign.
  { intros Hnone. rewrite app_nil_r. apply ignored_ok; [done|rewrite started_app; by rewrite app_nil_r|by left|done| |naive_solver].
    unfold wireguard_addr. rewrite omap_app. cbn. by rewrite app_nil_r. }
  cbv zeta. unfold process_obfuscator_recv. destruct (has_endpoint addr (running_endpoints m)) eqn:Ha; cbn [negb fst snd].
  2: { split; [done|]. rewrite Hm. apply Hign. intros Hin%Hok. congruence. }
  destruct (wg_addr m) as [wg|] eqn:Hw; cbn [fst snd].
  2: { split; [done|]. rewrite Hm. apply Hign. intros _. rewrite <- (ok_addr _ _ _ _ Hok). done. }
  split; [done|]. cbn. destruct connected; [|done].
  exists m, events, p, [], out. split_and!; try done; [by apply Hok|]. by rewrite <- (ok_addr _ _ _ _ Hok).
Qed.

Lemma connected_ok settings wg proxy m e events out m' sent :
  mode m = Connected wg proxy → chosen_ok settings wg proxy events out → step e m = (m', sent) →
  initial_packets_to_send m' = initial_packets_to_send m ∧
  match mode m' with
  | Connected wg' proxy' => chosen_ok settings wg' proxy' (events ++ [e]) (out ++ sent)
  | Discovery => False
  | Ended _ => True
  end.
Proof.
  intros Hm (m1 & es1 & p & es2 & out1 & -> & Hr & Hm1 & Hp & Hw & ->) E.
  assert (mode m' = Connected wg proxy → sent = forwarded wg proxy e → chosen_ok settings wg proxy ((es1 ++ FromProxy p proxy true :: es2) ++ [e])
    ((out1 ++ ToWg wg p :: concat (map (forwarded wg proxy) es2)) ++ sent)) as Hc.
  { intros _ ->. exists m1, es1, p, (es2 ++ [e]), out1. rewrite map_app, concat_app. cbn. rewrite app_nil_r, <- !app_assoc. by split_and!. }
  unfold step in E. rewrite Hm in E. destruct e; cbn in E, Hc; repeat case_bool_decide; try destruct (Bool.eqb _ _);
    injection E as <- <-; (split; [done|]); rewrite ?Hm; cbn; auto.
Qed.

Lemma reaches_ok settings m events out : reaches settings m events out → state_ok settings m events out.
Proof.
  induction 1 as [|m events out event m' sent Hr [Hl IH] Hfresh E]; unfold state_ok in *.
  { cbn. split; [unfold MAX_INITIAL_PACKETS; lia|]. constructor; cbn; try done; [constructor|set_solver|by intros []]. }
  destruct (mode m) as [|wg proxy|r] eqn:Hm.
  2: { destruct (connected_ok _ _ _ _ _ _ _ _ _ Hm IH E) as [-> ?]. by destruct (mode m'). }
  2: { unfold step in E. rewrite Hm in E. injection E as <- <-. by rewrite Hm. }
  unfold step in E. rewrite Hm in E. destruct event as [pkt from| |received addr connected| |created].
  - cbv zeta in E. cbn [initial_packets_to_send running_endpoints transports wg_addr mode] in E.
    destruct (Nat.leb_spec MAX_INITIAL_PACKETS (length (initial_packets_to_send m))); injection E as <- <-; cbn; [done|].
    rewrite length_app. cbn. split; [lia|]. rewrite <- Hm. by apply packet_ok.
  - by injection E as <- <-.
  - pose proof (answer_ok _ _ _ _ received addr connected Hr Hm IH) as Ha. rewrite E in Ha. cbn in Ha. by destruct Ha as [-> ?].
  - by injection E as <- <-.
  - destruct (transports m) as [|t rest] eqn:Ht.
    + injection E as <- <-. rewrite app_nil_r, Hm. split; [done|]. pose proof (ok_transports _ _ _ _ IH) as Hd.
      rewrite Ht in Hd. apply ignored_ok; [done| |by right|done| |done].
      * by rewrite started_app, <- Hd, app_nil_r.
      * unfold wireguard_addr. rewrite omap_app. cbn. by rewrite app_nil_r.
    + rewrite <- Hm in E. destruct (spawn_ok settings t created rest m events out m' sent) as (-> & -> & ?); try done.
      by apply (Hfresh t rest created).
Qed.

(** C31: while the multiplexer looks for a transport that works, every
    transport it has started (one per tick, in the order of the settings, if its
    obfuscator could be made) has been sent exactly the packets that WireGuard
    has sent since the beginning, whenever the transport was started, in order
    and once each, nothing was sent to any other address, and no transport that
    runs has answered after a packet of WireGuard; at most 100 packets are kept.
    A transport that is chosen is the first one that answers so: its answer goes
    to the address that WireGuard's last packet came from, and from then on
    exactly what WireGuard sends from there goes to that transport, and what
    arrives on its socket to WireGuard.  (Every socket has an address of its
    own; the system sends what it is given.) *)
Theorem transports_caught_up settings m events out :
  reaches settings m events out →
  (mode m = Discovery →
     (∀ a, sent_to a out = if bool_decide (a ∈ started settings events) then from_wireguard events else []) ∧
     (length (from_wireguard events) ≤ 100)%nat ∧
     ∀ es1 p a c es2, events = es1 ++ FromProxy p a c :: es2 → a ∈ started settings es1 → wireguard_addr es1 = None) ∧
  (length (initial_packets_to_send m) ≤ 100)%nat ∧
  ∀ wg proxy, mode m = Connected wg proxy → chosen_ok settings wg proxy events out.
Proof.
  intros [Hl Hok]%reaches_ok. split_and!; [|done|intros wg proxy Hm; by rewrite Hm in Hok].
  intros Hm. rewrite Hm in Hok. destruct Hok as [Hn Hst Ht Hp Hs Hw Hf]. rewrite Hp in Hl. split_and!; [|done|done].
  intros a. rewrite Hs. case_bool_decide as Ha; [by rewrite (proj2 (Hst a) Ha)|].
  destruct (has_endpoint a _) eqn:Eh; [|done]. by apply Hst in Eh.
Qed.
End multiplexer.
