(* ===== verification/WireguardConfig.v ===== *)
(** * Configuration of a WireGuard tunnel

    talpid-wireguard/src/config.rs (the configuration and its text for
    wireguard-go), obfuscation.rs (settings of the obfuscators), the MTU
    calculations of lib.rs, and mtu_detection.rs, on Linux.  Arithmetic on [u16]
    wraps around, as in a release build; the saturating operations are written
    as such.  [None] is a panic. *)

From Stdlib Require Import Ascii.
From stdpp Require Import pretty.
From S2P Require Import Prelude NetTypes TunnelThread Routing.

(** ** Sizes (talpid-tunnel/src/lib.rs) *)

Definition IPV4_HEADER_SIZE : Z := 20.
Definition IPV6_HEADER_SIZE : Z := 40.
Definition WIREGUARD_HEADER_SIZE : Z := 40.
Definition ICMP_HEADER_SIZE : Z := 8.
Definition MIN_IPV4_MTU : Z := 576.
Definition MIN_IPV6_MTU : Z := 1280.

Definition u16_saturating_sub (a b : Z) : Z := Z.max 0 (a - b).
Definition u16_sub (a b : Z) : Z := wrap 16 (a - b).

(** ** The configuration (config.rs) *)

Definition MULLVAD_INTERFACE_NAME : string := "wg0-mullvad".

Record Config : Set := {
  c_tunnel : wireguard.TunnelConfig;
  c_entry_peer : wireguard.PeerConfig;
  c_exit_peer : option wireguard.PeerConfig;
  c_ipv4_gateway : Z;
  c_ipv6_gateway : option Z;
  c_mtu : Z;
  c_fwmark : option Z;
  c_enable_ipv6 : bool;
  c_obfuscator_config : option Obfuscators;
  c_quantum_resistant : bool;
  c_daita : bool
}.

(** Assignments to fields of a configuration. *)
Definition set_tunnel (t : wireguard.TunnelConfig) (c : Config) : Config :=
  {| c_tunnel := t; c_entry_peer := c_entry_peer c; c_exit_peer := c_exit_peer c;
     c_ipv4_gateway := c_ipv4_gateway c; c_ipv6_gateway := c_ipv6_gateway c; c_mtu := c_mtu c; c_fwmark := c_fwmark c;
     c_enable_ipv6 := c_enable_ipv6 c; c_obfuscator_config := c_obfuscator_config c;
     c_quantum_resistant := c_quantum_resistant c; c_daita := c_daita c |}.
Definition set_entry_peer (p : wireguard.PeerConfig) (c : Config) : Config :=
  {| c_tunnel := c_tunnel c; c_entry_peer := p; c_exit_peer := c_exit_peer c;
     c_ipv4_gateway := c_ipv4_gateway c; c_ipv6_gateway := c_ipv6_gateway c; c_mtu := c_mtu c; c_fwmark := c_fwmark c;
     c_enable_ipv6 := c_enable_ipv6 c; c_obfuscator_config := c_obfuscator_config c;
     c_quantum_resistant := c_quantum_resistant c; c_daita := c_daita c |}.
Definition set_exit_peer (p : option wireguard.PeerConfig) (c : Config) : Config :=
  {| c_tunnel := c_tunnel c; c_entry_peer := c_entry_peer c; c_exit_peer := p;
     c_ipv4_gateway := c_ipv4_gateway c; c_ipv6_gateway := c_ipv6_gateway c; c_mtu := c_mtu c; c_fwmark := c_fwmark c;
     c_enable_ipv6 := c_enable_ipv6 c; c_obfuscator_config := c_obfuscator_config c;
     c_quantum_resistant := c_quantum_resistant c; c_daita := c_daita c |}.
Definition set_mtu (mtu : Z) (c : Config) : Config :=
  {| c_tunnel := c_tunnel c; c_entry_peer := c_entry_peer c; c_exit_peer := c_exit_peer c;
     c_ipv4_gateway := c_ipv4_gateway c; c_ipv6_gateway := c_ipv6_gateway c; c_mtu := mtu; c_fwmark := c_fwmark c;
     c_enable_ipv6 := c_enable_ipv6 c; c_obfuscator_config := c_obfuscator_config c;
     c_quantum_resistant := c_quantum_resistant c; c_daita := c_daita c |}.

Definition set_allowed_ips (ips : list IpNetwork) (p : wireguard.PeerConfig) : wireguard.PeerConfig :=
  {| wireguard.public_key := wireguard.public_key p; wireguard.allowed_ips := ips; wireguard.endpoint := wireguard.endpoint p;
     wireguard.psk := wireguard.psk p; wireguard.constant_packet_size := wireguard.constant_packet_size p |}.
Definition set_endpoint (e : SocketAddr) (p : wireguard.PeerConfig) : wireguard.PeerConfig :=
  {| wireguard.public_key := wireguard.public_key p; wireguard.allowed_ips := wireguard.allowed_ips p; wireguard.endpoint := e;
     wireguard.psk := wireguard.psk p; wireguard.constant_packet_size := wireguard.constant_packet_size p |}.
Definition set_psk (k : option (list Z)) (p : wireguard.PeerConfig) : wireguard.PeerConfig :=
  {| wireguard.public_key := wireguard.public_key p; wireguard.allowed_ips := wireguard.allowed_ips p;
     wireguard.endpoint := wireguard.endpoint p; wireguard.psk := k;
     wireguard.constant_packet_size := wireguard.constant_packet_size p |}.
Definition set_constant_packet_size (b : bool) (p : wireguard.PeerConfig) : wireguard.PeerConfig :=
  {| wireguard.public_key := wireguard.public_key p; wireguard.allowed_ips := wireguard.allowed_ips p;
     wireguard.endpoint := wireguard.endpoint p; wireguard.psk := wireguard.psk p;
     wireguard.constant_packet_size := b |}.

Definition is_multihop (c : Config) : bool := bool_decide (is_Some (c_exit_peer c)).
Definition exit_peer (c : Config) : wireguard.PeerConfig := default (c_entry_peer c) (c_exit_peer c).
(** A change through [exit_peer_mut]. *)
Definition exit_peer_mut (f : wireguard.PeerConfig → wireguard.PeerConfig) (c : Config) : Config :=
  match c_exit_peer c with
  | Some peer => set_exit_peer (Some (f peer)) c
  | None => set_entry_peer (f (c_entry_peer c)) c
  end.
Definition peers (c : Config) : list wireguard.PeerConfig :=
  match c_exit_peer c with Some peer => [peer] | None => [] end ++ [c_entry_peer c].
Definition get_tunnel_destinations (c : Config) : list IpNetwork :=
  concat (map wireguard.allowed_ips (peers c)).

Definition ip_is_ipv4 (ip : IpAddr) : bool := match ip with AddrV4 _ => true | AddrV6 _ => false end.
Definition net_is_ipv4 (n : IpNetwork) : bool := match n with NetV4 _ _ => true | NetV6 _ _ => false end.
Definition sock_is_ipv4 (s : SocketAddr) : bool := match s with SockV4 _ _ => true | _ => false end.
Definition prefix_len (n : IpNetwork) : Z := match n with NetV4 _ p => p | NetV6 _ p => p end.

(** The loop over [peers_mut]: addresses of a family that is not in use are
    dropped, and a peer must keep one. *)
Definition retain_allowed_ips (enable_ipv6 : bool) (p : wireguard.PeerConfig) : result wg.ConfigError wireguard.PeerConfig :=
  let p := set_allowed_ips (List.filter (λ ip, net_is_ipv4 ip || enable_ipv6) (wireguard.allowed_ips p)) p in
  match wireguard.allowed_ips p with
  | [] => Err wg.InvalidPeerIpError
  | _ => Ok p
  end.

Definition Config_new (connection : wireguard.ConnectionConfig) (wg_options : wireguard.TunnelOptions)
    (generic_options : GenericTunnelOptions) (obfuscator_config : option Obfuscators) (default_mtu : Z) :
    result wg.ConfigError Config :=
  let tunnel := wireguard.tunnel connection in
  let mtu := default default_mtu (wireguard.mtu wg_options) in
  match wireguard.addresses tunnel with
  | [] => Err wg.InvalidTunnelIpError
  | addresses =>
      let tunnel := {| wireguard.private_key := wireguard.private_key tunnel;
                       wireguard.addresses := List.filter (λ ip, ip_is_ipv4 ip || enable_ipv6 generic_options) addresses |} in
      let ipv6_gateway := if enable_ipv6 generic_options then wireguard.ipv6_gateway connection else None in
      let config :=
        {| c_tunnel := tunnel; c_entry_peer := wireguard.peer connection; c_exit_peer := wireguard.exit_peer connection;
           c_ipv4_gateway := wireguard.ipv4_gateway connection; c_ipv6_gateway := ipv6_gateway; c_mtu := mtu;
           c_fwmark := wireguard.fwmark connection; c_enable_ipv6 := enable_ipv6 generic_options;
           c_obfuscator_config := obfuscator_config; c_quantum_resistant := wireguard.quantum_resistant wg_options;
           c_daita := wireguard.daita wg_options |} in
      config ← match c_exit_peer config with
               | Some peer => peer ← retain_allowed_ips (enable_ipv6 generic_options) peer; Ok (set_exit_peer (Some peer) config)
               | None => Ok config
               end;
      entry ← retain_allowed_ips (enable_ipv6 generic_options) (c_entry_peer config);
      Ok (set_entry_peer entry config)
  end.
Definition from_parameters (params : wireguard.TunnelParameters) (default_mtu : Z) : result wg.ConfigError Config :=
  Config_new (wireguard.connection params) (wireguard.options params) (wireguard.generic_options params)
    (wireguard.obfuscation params) default_mtu.

(** ** Text for wireguard-go *)

(** Texts that crates and the standard library produce. *)
Class ConfigText : Type := {
  hex_encode : list Z → string;
  sock_to_string : SocketAddr → string;
  net_to_string : IpNetwork → string
}.

Section Text.
Context `{ConfigText}.
#[local] Open Scope string_scope.

Inductive ConfValue : Set := CString (s : string) | CBytes (bytes : list Z).
Definition to_bytes (v : ConfValue) : string :=
  match v with CString s => s | CBytes bytes => hex_encode bytes end.

(** [WgConfigBuffer]: the text so far. *)
Definition add (key : string) (value : ConfValue) (buf : string) : string :=
  buf +:+ key +:+ "=" +:+ to_bytes value +:+ String "010"%char "".
Definition into_config (buf : string) : string := buf +:+ String "010"%char "".

Definition write_peer_to_config (peer : wireguard.PeerConfig) (wg_conf : string) : string :=
  let wg_conf := add "public_key" (CBytes (wireguard.public_key peer)) wg_conf in
  let wg_conf := add "endpoint" (CString (sock_to_string (wireguard.endpoint peer))) wg_conf in
  let wg_conf := add "replace_allowed_ips" (CString "true") wg_conf in
  let wg_conf := match wireguard.psk peer with
                 | Some psk => add "preshared_key" (CBytes psk) wg_conf
                 | None => wg_conf
                 end in
  let wg_conf := fold_left (λ wg_conf addr, add "allowed_ip" (CString (net_to_string addr)) wg_conf)
                   (wireguard.allowed_ips peer) wg_conf in
  if wireguard.constant_packet_size peer then add "constant_packet_size" (CString "true") wg_conf else wg_conf.

(** [CString::new] refuses a text with a null byte. *)
Fixpoint has_null (s : string) : bool :=
  match s with
  | "" => false
  | String c s => Ascii.eqb c "000"%char || has_null s
  end.

Definition userspace_format (private_key : list Z) (peers : list wireguard.PeerConfig) (fwmark : option Z) : option string :=
  let wg_conf := add "private_key" (CBytes private_key) "" in
  let wg_conf := add "listen_port" (CString "0") wg_conf in
  let wg_conf := match fwmark with
                 | Some fwmark => add "fwmark" (CString (pretty fwmark)) wg_conf
                 | None => wg_conf
                 end in
  let wg_conf := add "replace_peers" (CString "true") wg_conf in
  let wg_conf := fold_left (λ wg_conf peer, write_peer_to_config peer wg_conf) peers wg_conf in
  let bytes := into_config wg_conf in
  if has_null bytes then None else Some bytes.
Definition to_userspace_format (c : Config) : option string :=
  userspace_format (wireguard.private_key (c_tunnel c)) (peers c) (c_fwmark c).
End Text.

(** ** MTUs (lib.rs) *)

Definition DEFAULT_MTU : Z := 1380.
Definition MTU_SAFETY_MARGIN : Z := 60.

Definition wireguard_overhead (params : wireguard.TunnelParameters) : Z :=
  WIREGUARD_HEADER_SIZE +
  if sock_is_ipv4 (wireguard.endpoint (wireguard.peer (wireguard.connection params)))
  then IPV4_HEADER_SIZE else IPV6_HEADER_SIZE.

(** [Ord::clamp] panics when the bounds are out of order. *)
Definition clamp_tunnel_mtu (params : wireguard.TunnelParameters) (mtu : Z) : option Z :=
  let min_mtu := if enable_ipv6 (wireguard.generic_options params) then MIN_IPV6_MTU else MIN_IPV4_MTU in
  let max_peer_mtu := u16_sub (u16_sub 1500 MTU_SAFETY_MARGIN) (wireguard_overhead params) in
  if max_peer_mtu <? min_mtu then None
  else Some (if mtu <? min_mtu then min_mtu else if max_peer_mtu <? mtu then max_peer_mtu else mtu).

(** The tunnel's MTU before obfuscation, given the MTU of the route. *)
Definition initial_tunnel_mtu (params : wireguard.TunnelParameters) (route_mtu : Z) : option Z :=
  match wireguard.mtu (wireguard.options params) with
  | Some mtu => Some mtu
  | None => clamp_tunnel_mtu params (u16_saturating_sub route_mtu (wireguard_overhead params))
  end.

Definition PADDING_BYTES_MARGIN : Z := 15.
Definition apply_route_mtu_for_multihop (route : RequiredRoute) (config : Config) : RequiredRoute :=
  if negb (is_multihop config) then route
  else
    let ip_overhead := if net_is_ipv4 (rr_prefix route) then IPV4_HEADER_SIZE else IPV6_HEADER_SIZE in
    let mtu := u16_sub (u16_sub (u16_sub (c_mtu config) ip_overhead) WIREGUARD_HEADER_SIZE) PADDING_BYTES_MARGIN in
    set_route_mtu mtu route.

(** ** Detection of the MTU (mtu_detection.rs) *)

Module mtu_detection.
(** Milliseconds. *)
Definition PING_TIMEOUT : Z := 10000.
Definition PING_OFFSET_TIMEOUT : Z := 2000.
Definition MTU_STEP_SIZE : Z := 20.

Definition next_multiple_of (a b : Z) : Z :=
  let r := a mod b in if r =? 0 then a else a + (b - r).

(** [(from..below).step_by(step)], with fuel for at most [fuel] elements. *)
Fixpoint step_by (fuel : nat) (from below step : Z) : list Z :=
  match fuel with
  | O => []
  | S fuel => if from <? below then from :: step_by fuel (from + step) below step else []
  end.

Definition mtu_spacing (mtu_min mtu_max step_size : Z) : option (list Z) :=
  if (mtu_min <? mtu_max) && (step_size <? mtu_max) && negb (step_size =? 0) then
    let second_mtu := wrap 16 (next_multiple_of (mtu_min + 1) step_size) in
    let in_between := step_by (Z.to_nat mtu_max) second_mtu mtu_max step_size in
    Some ([mtu_min] ++ in_between ++ [mtu_max])
  else None.

Inductive SurgeError : Set := Timeout | OtherSurge (code : Z).
Inductive Error : Set :=
| SetMtu
| MtuDetectionAllDropped
| MtuDetectionUnexpected (e : SurgeError)
| MtuDetectionSetupSocket.

(** Pings as they come back: the time and the result of each.  After each one
    the next must come within the timeout. *)
Fixpoint fold_pings (now acc : Z) (pings : list (Z * result SurgeError Z)) : result SurgeError Z :=
  match pings with
  | [] => Ok acc
  | (t, r) :: pings =>
      if t - now <=? PING_OFFSET_TIMEOUT then
        match r with
        | Ok mtu => fold_pings t (Z.max acc mtu) pings
        | Err e => Err e
        end
      else Ok acc
  end.

Definition max_ping_size (ping_stream : list (Z * result SurgeError Z)) : option (result Error Z) :=
  match ping_stream with
  | [] => None
  | (_, Err Timeout) :: _ => Some (Err MtuDetectionAllDropped)
  | (_, Err e) :: _ => Some (Err (MtuDetectionUnexpected e))
  | (t, Ok first_ping_size) :: ping_stream =>
      Some (map_err MtuDetectionUnexpected (fold_pings t first_ping_size ping_stream))
  end.

(** The pings that a list of sizes gives, if a socket can be opened. *)
Definition detect_mtu (socket : result unit unit) (send : list Z → list (Z * result SurgeError Z)) (current_mtu : Z) :
    option (result Error Z) :=
  match mtu_spacing MIN_IPV4_MTU current_mtu MTU_STEP_SIZE with
  | None => None
  | Some linspace =>
      match socket with
      | Err _ => Some (Err MtuDetectionSetupSocket)
      | Ok _ => max_ping_size (send linspace)
      end
  end.

(** The MTU that the interface is set to, if it is changed. *)
Definition automatic_mtu_correction (socket : result unit unit) (send : list Z → list (Z * result SurgeError Z))
    (set_mtu : Z → result unit unit) (current_tunnel_mtu : Z) : option (result Error (option Z)) :=
  match detect_mtu socket send current_tunnel_mtu with
  | None => None
  | Some (Err e) => Some (Err e)
  | Some (Ok verified_mtu) =>
      if negb (verified_mtu =? current_tunnel_mtu)
      then Some (match set_mtu verified_mtu with Ok _ => Ok (Some verified_mtu) | Err _ => Err SetMtu end)
      else Some (Ok None)
  end.
End mtu_detection.
