(* ===== verification/EphemeralPeers.v ===== *)
(** * The client of a relay's configuration service

    talpid-tunnel-config-client/src/lib.rs, ml_kem.rs and hqc.rs: the request for
    an ephemeral peer, with a quantum-resistant pre-shared key and DAITA
    settings.  The key encapsulation algorithms are crates: they are the class
    [Kem].  Keys, ciphertexts and secrets are lists of bytes; the fractions of a
    DAITA response are passed on as they are. *)

From S2P Require Import Prelude NetTypes.

(** ** Messages (proto/ephemeralpeer.proto) *)

Module proto.
Record KemPubkeyV1 : Set := { algorithm_name : string; key_data : list Z }.
Record PostQuantumRequestV1 : Set := { kem_pubkeys : list KemPubkeyV1 }.
Inductive DaitaPlatform : Set :=
| undefined | windows_native | linux_wg_go | macos_wg_go | ios_wg_go | android_wg_go | windows_wg_go.
Record DaitaRequestV2 : Set := { level : Z; platform : DaitaPlatform; version : Z }.
Record EphemeralPeerRequestV1 : Set := {
  wg_parent_pubkey : list Z;
  wg_ephemeral_peer_pubkey : list Z;
  post_quantum : option PostQuantumRequestV1;
  daita_v2 : option DaitaRequestV2
}.
Record DaitaResponseV2 : Set := {
  client_machines : list string;
  max_padding_frac : Z;
  max_blocking_frac : Z
}.
Record PostQuantumResponseV1 : Set := { ciphertexts : list (list Z) }.
Record EphemeralPeerResponseV1 : Set := {
  r_post_quantum : option PostQuantumResponseV1;
  r_daita : option DaitaResponseV2
}.
End proto.

(** ** Key encapsulation *)

Class Kem : Type := {
  ml_kem_secret : Type;
  hqc_secret : Type;
  ml_kem_public : ml_kem_secret → list Z;
  hqc_public : hqc_secret → list Z;
  ml_kem_ciphertext_len : nat;
  hqc_ciphertext_len : nat;
  (** Decapsulation of a ciphertext of the right length. *)
  ml_kem_decap : ml_kem_secret → list Z → list Z;
  hqc_decap : hqc_secret → list Z → list Z;
  sha256 : list Z → list Z
}.

Module config_client.
Inductive Error : Set :=
| GrpcConnectError
| GrpcError
| MissingCiphertexts
| InvalidCiphertextLength (algorithm : string) (actual expected : nat)
| InvalidCiphertextCount (actual : nat)
| MissingDaitaResponse.

Definition CONFIG_SERVICE_PORT : Z := 1337.
Definition DAITA_VERSION : Z := 2.

Record DaitaSettings : Set := {
  client_machines : list string;
  max_padding_frac : Z;
  max_blocking_frac : Z
}.
Record EphemeralPeer : Set := {
  psk : option (list Z);
  daita : option DaitaSettings
}.

Section Client.
Context `{Kem}.

Definition ML_KEM_NAME : string := "ML-KEM-1024".
Definition HQC_NAME : string := "HQC-256".

Definition ml_kem_decapsulate (k : ml_kem_secret) (ciphertext : list Z) : result Error (list Z) :=
  if (length ciphertext =? ml_kem_ciphertext_len)%nat then Ok (ml_kem_decap k ciphertext)
  else Err (InvalidCiphertextLength ML_KEM_NAME (length ciphertext) ml_kem_ciphertext_len).
Definition hqc_decapsulate (k : hqc_secret) (ciphertext : list Z) : result Error (list Z) :=
  if (length ciphertext =? hqc_ciphertext_len)%nat then Ok (sha256 (hqc_decap k ciphertext))
  else Err (InvalidCiphertextLength HQC_NAME (length ciphertext) hqc_ciphertext_len).

Definition Keypairs : Type := ml_kem_secret * hqc_secret.

(** The request for a new pair of key pairs. *)
Definition post_quantum_secrets (keys : Keypairs) : proto.PostQuantumRequestV1 :=
  {| proto.kem_pubkeys :=
       [{| proto.algorithm_name := ML_KEM_NAME; proto.key_data := ml_kem_public keys.1 |};
        {| proto.algorithm_name := HQC_NAME; proto.key_data := hqc_public keys.2 |}] |}.

(** [zip] stops at the shorter list; both have 32 bytes. *)
Definition xor_assign (dst src : list Z) : list Z := zip_with Z.lxor dst src.

Definition get_platform : proto.DaitaPlatform := proto.linux_wg_go.

(** The request, and what becomes of the response. *)
Definition peer_request (keys : option Keypairs) (parent_pubkey ephemeral_pubkey : list Z) (enable_daita : bool) :
    proto.EphemeralPeerRequestV1 :=
  {| proto.wg_parent_pubkey := parent_pubkey;
     proto.wg_ephemeral_peer_pubkey := ephemeral_pubkey;
     proto.post_quantum := post_quantum_secrets <$> keys;
     proto.daita_v2 :=
       if enable_daita
       then Some {| proto.level := 0; proto.platform := get_platform; proto.version := DAITA_VERSION |}
       else None |}.

Definition mix_psk (keys : Keypairs) (r : proto.EphemeralPeerResponseV1) : result Error (list Z) :=
  match proto.r_post_quantum r with
  | None => Err MissingCiphertexts
  | Some pq =>
      match proto.ciphertexts pq with
      | [ml_kem_ciphertext; hqc_ciphertext] =>
          let psk_data := repeat 0 32 in
          shared_secret ← ml_kem_decapsulate keys.1 ml_kem_ciphertext;
          let psk_data := xor_assign psk_data shared_secret in
          shared_secret ← hqc_decapsulate keys.2 hqc_ciphertext;
          Ok (xor_assign psk_data shared_secret)
      | ciphertexts => Err (InvalidCiphertextCount (length ciphertexts))
      end
  end.

Definition peer_response (keys : option Keypairs) (enable_daita : bool) (response : proto.EphemeralPeerResponseV1) :
    result Error EphemeralPeer :=
  psk ← match keys with
        | Some keys => psk ← mix_psk keys response; Ok (Some psk)
        | None => Ok None
        end;
  let daita := (λ d, {| client_machines := proto.client_machines d; max_padding_frac := proto.max_padding_frac d;
                        max_blocking_frac := proto.max_blocking_frac d |}) <$> proto.r_daita response in
  if negb (bool_decide (is_Some daita)) && enable_daita then Err MissingDaitaResponse
  else Ok {| psk := psk; daita := daita |}.

(** The pre-shared key of an exchange: the response has one ciphertext for each
    of the two algorithms, of its length, and the key is the exclusive or of the
    two shared secrets. *)
Definition mixed (keys : Keypairs) (response : proto.EphemeralPeerResponseV1) (psk : list Z) : Prop :=
  ∃ ml_kem hqc, proto.ciphertexts <$> proto.r_post_quantum response = Some [ml_kem; hqc] ∧
    length ml_kem = ml_kem_ciphertext_len ∧ length hqc = hqc_ciphertext_len ∧
    psk = zip_with Z.lxor (zip_with Z.lxor (repeat 0 32) (ml_kem_decap keys.1 ml_kem)) (sha256 (hqc_decap keys.2 hqc)).

(** The DAITA settings of a response. *)
Definition daita_settings (response : proto.EphemeralPeerResponseV1) : option DaitaSettings :=
  match proto.r_daita response with
  | Some d => Some {| client_machines := proto.client_machines d; max_padding_frac := proto.max_padding_frac d;
                      max_blocking_frac := proto.max_blocking_frac d |}
  | None => None
  end.

Lemma mix_psk_ok keys response k : mix_psk keys response = Ok k → mixed keys response k.
Proof.
  unfold mix_psk. destruct (proto.r_post_quantum response) as [pq|] eqn:Ep; [|done].
  destruct (proto.ciphertexts pq) as [|c1 [|c2 [|]]] eqn:Ec; try done. unfold ml_kem_decapsulate, hqc_decapsulate.
  destruct (Nat.eqb_spec (length c1) ml_kem_ciphertext_len); [|done].
  destruct (Nat.eqb_spec (length c2) hqc_ciphertext_len); [|done]. intros [= <-]. exists c1, c2.
  split_and!; [|done..]. rewrite Ep. cbn. by rewrite Ec.
Qed.

(** A response that is accepted has what was asked for: the key of the
    exchange exactly when there was one, and DAITA settings when they were asked
    for. *)
Lemma peer_response_ok keys enable_daita response peer :
  peer_response keys enable_daita response = Ok peer →
  match keys with Some keys => ∃ k, psk peer = Some k ∧ mixed keys response k | None => psk peer = None end ∧
  daita peer = daita_settings response ∧ (enable_daita = true → is_Some (daita peer)).
Proof.
  unfold peer_response. intros (k & Hk & E)%result_bind_ok.
  destruct (negb _ && enable_daita) eqn:Ed; [done|]. injection E as <-. cbn. split_and!.
  - destruct keys as [keys|]; [|by injection Hk as <-]. apply result_bind_ok in Hk as (? & ?%mix_psk_ok & [= <-]). eauto.
  - unfold daita_settings. by destruct (proto.r_daita response).
  - intros ->. rewrite andb_true_r in Ed. by apply negb_false_iff, bool_decide_eq_true in Ed.
Qed.
End Client.
End config_client.
