(* ===== verification/WireguardMonitor.v ===== *)
(** * The WireGuard tunnel

    talpid-wireguard/src/lib.rs ([WireguardMonitor]: start, the task that brings
    a tunnel up, routes and events), ephemeral.rs (ephemeral peers) and the
    effects of obfuscation.rs, on Linux.

    The task runs against a world: the route manager with its kernel, the
    obfuscator in use, and an environment that answers for sockets, the tunnel
    implementations, the relay's configuration service and timers (the class
    [TunnelEnv]).  What the task does for others to see is recorded in order. *)

From S2P Require Import Prelude NetTypes TunnelTypes TunnelThread Routing WireguardConfig Obfuscation EphemeralPeers.

(** ** The environment *)

Class TunnelEnv (E : Type) `{Kem, SocketIo E} : Type := {
  (** Key generation, and the public key of a private key. *)
  env_new_private_key : E → list Z * E;
  env_public_key : list Z → list Z;
  env_kem_keypairs : E → config_client.Keypairs * E;
  (** The relay's configuration service: connecting, a request, and whether
      the time for both runs out first. *)
  env_connect : Z → E → result unit unit * E;
  env_register_peer : Z → proto.EphemeralPeerRequestV1 → E → result unit proto.EphemeralPeerResponseV1 * E;
  env_timeout : Z → E → bool * E;
  (** The tunnel: opening it, whether it still exists, its operations. *)
  env_force_userspace : bool;
  env_nm_manages_dns : E → bool * E;
  env_open_userspace : Config → E → result wg.TunnelError string * E;
  env_open_kernel_nm : Config → E → result unit string * E;
  env_open_kernel_netlink : Config → E → result unit string * E;
  env_lock_tunnel : E → bool * E;
  env_set_config : Config → E → result wg.TunnelError unit * E;
  env_start_daita : config_client.DaitaSettings → E → result wg.TunnelError unit * E;
  env_stop_tunnel : E → result wg.TunnelError unit * E;
  (** The connectivity check: setting it up, establishing, watching. *)
  env_check_new : E → result unit unit * E;
  env_establish_connectivity : E → result unit bool * E;
  env_monitor : E → result unit unit * E
}.

(** What the task does, in order.  A tunnel that was dropped in the meantime is
    not configured; [exists_tunnel] tells. *)
Inductive Action : Set :=
| AEvent (e : TunnelEvent)
| ASetConfig (exists_tunnel : bool) (c : Config)
| AStartDaita (exists_tunnel : bool) (d : config_client.DaitaSettings)
| ARegisterPeer (service_address : Z) (request : proto.EphemeralPeerRequestV1) (response : proto.EphemeralPeerResponseV1)
| ACreateRules (enable_ipv6 : bool)
| AAddRoutes (routes : list RequiredRoute)
| AObfuscate (s : Settings)
| ADetectMtu (mtu : Z)
| AStopTunnel.

(** [obfuscator] is the overhead of the one that runs. *)
Record World (K E : Type) : Type := {
  w_routes : option RouteManagerImpl * K;
  w_obfuscator : option Z;
  w_env : E;
  w_trace : list Action
}.
Arguments w_routes {K E} w.
Arguments w_obfuscator {K E} w.
Arguments w_env {K E} w.
Arguments w_trace {K E} w.
Arguments Build_World {K E}.

Inductive Res (A : Type) : Type := WOk (a : A) | WErr (e : wg.CloseMsg) | WPanic.
Arguments WOk {A} a.
Arguments WErr {A} e.
Arguments WPanic {A}.

Definition WM (K E A : Type) : Type := World K E → Res A * World K E.
#[global] Instance WM_ret K E : MRet (WM K E) := λ A a w, (WOk a, w).
#[global] Instance WM_bind K E : MBind (WM K E) := λ A B f c w,
  match c w with
  | (WOk a, w') => f a w'
  | (WErr e, w') => (WErr e, w')
  | (WPanic, w') => (WPanic, w')
  end.

Definition wthrow {K E A} (e : wg.CloseMsg) : WM K E A := λ w, (WErr e, w).
Definition wpanic {K E A} : WM K E A := λ w, (WPanic, w).
Definition act {K E} (a : Action) : WM K E unit := λ w,
  (WOk tt, Build_World (w_routes w) (w_obfuscator w) (w_env w) (w_trace w ++ [a])).
Definition get_obfuscator {K E} : WM K E (option Z) := λ w, (WOk (w_obfuscator w), w).
Definition put_obfuscator {K E} (o : option Z) : WM K E unit := λ w,
  (WOk tt, Build_World (w_routes w) o (w_env w) (w_trace w)).

(** A question to the environment, and a call of it that can fail. *)
Definition query {K E A} (f : E → A * E) : WM K E A := λ w,
  let '(a, e) := f (w_env w) in (WOk a, Build_World (w_routes w) (w_obfuscator w) e (w_trace w)).
Definition unwrap {K E A X} (f : X → wg.CloseMsg) (r : result X A) : WM K E A :=
  match r with Ok a => mret a | Err x => wthrow (f x) end.
(** A call of the route manager. *)
Definition with_routes {K E A} (f : option RouteManagerImpl * K → result routing.Error A * (option RouteManagerImpl * K)) :
    WM K E (result routing.Error A) := λ w,
  let '(r, m) := f (w_routes w) in (WOk r, Build_World m (w_obfuscator w) (w_env w) (w_trace w)).

Section Tunnel.
Context {K E : Type} `{Rtnetlink K} `{NetlinkPacket} `{HashOrder} `{TunnelEnv E}.
#[local] Notation W := (WM K E).

Definition setup_error (e : wg.Error) : wg.CloseMsg := wg.SetupError e.
Definition on_event (e : TunnelEvent) : W unit := act (AEvent e).

(** ** Obfuscation (obfuscation.rs) *)

Definition settings_from_single_config (config : Config) (obfuscation_config : ObfuscatorConfig) (mtu : Z) (fwmark : option Z) :
    option Settings :=
  match obfuscation_config with
  | Udp2Tcp endpoint => Some (SUdp2Tcp {| udp2tcp.peer := endpoint; udp2tcp.fwmark := fwmark |})
  | Shadowsocks endpoint =>
      Some (SShadowsocks {| shadowsocks.shadowsocks_endpoint := endpoint;
                            shadowsocks.wireguard_endpoint := localhost (is_ipv4 endpoint) 51820;
                            shadowsocks.fwmark := fwmark |})
  | Quic hostname endpoint auth_token =>
      let wireguard_endpoint := localhost true 51820 in
      match quic.AuthToken_new auth_token with
      | None => None
      | Some token =>
          let settings := quic.with_mtu mtu (quic.Settings_new endpoint hostname token wireguard_endpoint) in
          match fwmark with
          | Some fwmark => Some (SQuic (quic.with_fwmark fwmark settings))
          | None => Some (SQuic settings)
          end
      end
  | Lwo endpoint =>
      Some (SLwo {| lwo.server_addr := endpoint;
                    lwo.client_public_key := env_public_key (wireguard.private_key (c_tunnel config));
                    lwo.server_public_key := wireguard.public_key (c_entry_peer config);
                    lwo.fwmark := fwmark |})
  end.

Fixpoint obfuscated_transports (config : Config) (configs : list ObfuscatorConfig) (mtu : Z) (fwmark : option Z) :
    option (list Transport) :=
  match configs with
  | [] => Some []
  | c :: configs =>
      settings ← settings_from_single_config config c mtu fwmark;
      rest ← obfuscated_transports config configs mtu fwmark;
      Some (Obfuscated settings :: rest)
  end.

Definition settings_from_config (config : Config) (obfuscation_config : Obfuscators) (mtu : Z) (fwmark : option Z) :
    option Settings :=
  match obfuscation_config with
  | Single obfuscation_config => settings_from_single_config config obfuscation_config mtu fwmark
  | Multiplexer direct first_obfs remaining_obfs =>
      let transports := match direct with Some direct => [Direct direct] | None => [] end in
      obfuscated ← obfuscated_transports config (first_obfs :: remaining_obfs) mtu fwmark;
      Some (SMultiplexer (transports ++ obfuscated) fwmark)
  end.

Definition patch_endpoint (config : Config) (endpoint : SocketAddr) : Config :=
  set_entry_peer (set_endpoint endpoint (c_entry_peer config)) config.

(** The configuration, and the overhead of the obfuscator if one runs; the
    failure of an obfuscator that runs is a message that comes later. *)
Definition apply_obfuscation_config (config : Config) (obfuscation_mtu : Z) :
    W (result wg.Error (Config * option Z)) :=
  match c_obfuscator_config config with
  | None => mret (Ok (config, None))
  | Some obfuscator_config =>
      match settings_from_config config obfuscator_config obfuscation_mtu (c_fwmark config) with
      | None => wpanic
      | Some settings =>
          obfuscator ← query (create_obfuscator settings);
          match obfuscator with
          | Err _ => mret (Err wg.ObfuscationError)
          | Ok obfuscator =>
              _ ← act (AObfuscate settings);
              mret (Ok (patch_endpoint config (ob_endpoint obfuscator), Some (ob_packet_overhead obfuscator)))
          end
      end
  end.

(** ** Ephemeral peers (ephemeral.rs) *)

(** Milliseconds; [Duration::saturating_mul] and [u32::saturating_pow]. *)
Definition INITIAL_PSK_EXCHANGE_TIMEOUT : Z := 8000.
Definition MAX_PSK_EXCHANGE_TIMEOUT : Z := 48000.
Definition PSK_EXCHANGE_TIMEOUT_MULTIPLIER : Z := 2.
Definition U32_MAX : Z := 2 ^ 32 - 1.
Definition DURATION_MAX_MS : Z := (2 ^ 64) * 1000 - 1.

Definition exchange_timeout (retry_attempt : Z) : Z :=
  Z.min MAX_PSK_EXCHANGE_TIMEOUT
    (Z.min DURATION_MAX_MS
       (INITIAL_PSK_EXCHANGE_TIMEOUT * Z.min U32_MAX (PSK_EXCHANGE_TIMEOUT_MULTIPLIER ^ retry_attempt))).

(** [talpid_tunnel_config_client::request_ephemeral_peer] *)
Definition client_request (service_address : Z) (parent_pubkey ephemeral_pubkey : list Z)
    (enable_post_quantum enable_daita : bool) : W (result config_client.Error config_client.EphemeralPeer) :=
  connected ← query (env_connect service_address);
  match connected with
  | Err _ => mret (Err config_client.GrpcConnectError)
  | Ok _ =>
      keys ← (if enable_post_quantum then keys ← query env_kem_keypairs; mret (Some keys) else mret None);
      response ← query (env_register_peer service_address
                          (config_client.peer_request keys parent_pubkey ephemeral_pubkey enable_daita));
      match response with
      | Err _ => mret (Err config_client.GrpcError)
      | Ok response =>
          _ ← act (ARegisterPeer service_address (config_client.peer_request keys parent_pubkey ephemeral_pubkey enable_daita) response);
          mret (config_client.peer_response keys enable_daita response)
      end
  end.

Definition request_ephemeral_peer (retry_attempt : Z) (config : Config) (wg_psk_pubkey : list Z) (enable_pq enable_daita : bool) :
    W config_client.EphemeralPeer :=
  elapsed ← query (env_timeout (exchange_timeout retry_attempt));
  if elapsed : bool then wthrow wg.EphemeralPeerNegotiationTimeout
  else
    ephemeral ← client_request (c_ipv4_gateway config) (env_public_key (wireguard.private_key (c_tunnel config)))
                  wg_psk_pubkey enable_pq enable_daita;
    unwrap (λ _, setup_error wg.EphemeralPeerNegotiationError) ephemeral.

Definition reconfigure_tunnel (config : Config) (obfuscation_mtu : Z) : W Config :=
  obfs_guard ← get_obfuscator;
  config ← match obfs_guard with
           | Some _ =>
               _ ← put_obfuscator None;
               applied ← apply_obfuscation_config config obfuscation_mtu;
               new ← unwrap wg.ObfuscatorFailed applied;
               _ ← put_obfuscator new.2;
               mret new.1
           | None => mret config
           end;
  tunnel ← query env_lock_tunnel;
  _ ← (if tunnel : bool then
         r ← query (env_set_config config);
         unwrap (λ e, setup_error (wg.TunnelFailed e)) r
       else mret tt);
  _ ← act (ASetConfig tunnel config);
  mret config.

Definition set_private_key (k : list Z) (c : Config) : Config :=
  set_tunnel {| wireguard.private_key := k; wireguard.addresses := wireguard.addresses (c_tunnel c) |} c.
(** [allowed_ips.push(IpNetwork::new(gateway, 32))] on the entry peer, and no
    exit peer. *)
Definition entry_tunnel_config (config : Config) : Config :=
  let c := set_exit_peer None config in
  set_entry_peer
    (set_allowed_ips (wireguard.allowed_ips (c_entry_peer c) ++ [NetV4 (c_ipv4_gateway config) 32]) (c_entry_peer c)) c.

Definition config_ephemeral_peers (config : Config) (retry_attempt obfuscation_mtu : Z) : W Config :=
  ephemeral_private_key ← query env_new_private_key;
  let exit_should_have_daita := c_daita config && negb (is_multihop config) in
  exit_ephemeral_peer ← request_ephemeral_peer retry_attempt config (env_public_key ephemeral_private_key)
                          (c_quantum_resistant config) exit_should_have_daita;
  '(config, daita) ←
    (if is_multihop config then
       entry_config ← reconfigure_tunnel (entry_tunnel_config config) obfuscation_mtu;
       entry_ephemeral_peer ← request_ephemeral_peer retry_attempt entry_config (env_public_key ephemeral_private_key)
                                (c_quantum_resistant config) (c_daita config);
       mret (set_entry_peer (set_psk (config_client.psk entry_ephemeral_peer) (c_entry_peer config)) config,
             config_client.daita entry_ephemeral_peer)
     else mret (config, config_client.daita exit_ephemeral_peer));
  let config := exit_peer_mut (set_psk (config_client.psk exit_ephemeral_peer)) config in
  let config := if c_daita config
                then set_entry_peer (set_constant_packet_size true (c_entry_peer config)) config
                else config in
  let config := set_private_key ephemeral_private_key config in
  config ← reconfigure_tunnel config obfuscation_mtu;
  if c_daita config then
    match daita with
    | None => wpanic
    | Some daita =>
        tunnel ← query env_lock_tunnel;
        _ ← (if tunnel : bool then
               r ← query (env_start_daita daita);
               unwrap (λ e, setup_error (wg.TunnelFailed e)) r
             else mret tt);
        _ ← act (AStartDaita tunnel daita);
        mret config
    end
  else mret config.

(** ** Routes and events (lib.rs) *)

Definition tunnel_metadata (interface_name : string) (config : Config) : TunnelMetadata :=
  {| interface := interface_name; ips := wireguard.addresses (c_tunnel config);
     ipv4_gateway := c_ipv4_gateway config; ipv6_gateway := c_ipv6_gateway config |}.

Definition allowed_traffic_during_tunnel_config (config : Config) : AllowedTunnelTraffic :=
  if c_quantum_resistant config || c_daita config then
    let config_endpoint := Endpoint_new (AddrV4 (c_ipv4_gateway config)) config_client.CONFIG_SERVICE_PORT Tcp in
    if is_multihop config
    then TrafficTwo config_endpoint (Endpoint_from_socket_address (wireguard.endpoint (exit_peer config)) Udp)
    else TrafficOne config_endpoint
  else TrafficAll.
Definition allowed_traffic_after_tunnel_config : AllowedTunnelTraffic := TrafficAll.

(** The nodes of both families are the device. *)
Definition route_to (iface_name : string) (allowed_ip : IpNetwork) : RequiredRoute :=
  RequiredRoute_new allowed_ip (Node_device iface_name).

Definition get_pre_tunnel_routes (iface_name : string) (config : Config) : list RequiredRoute :=
  let gateway_node := Node_device iface_name in
  let gateway_routes :=
    [RequiredRoute_new (NetV4 (c_ipv4_gateway config) 32) gateway_node] ++
    match c_ipv6_gateway config with
    | Some gateway => [RequiredRoute_new (NetV6 gateway 128) gateway_node]
    | None => []
    end in
  map (λ route, apply_route_mtu_for_multihop route config) gateway_routes ++
  map (route_to iface_name) (List.filter (λ allowed_ip, negb (prefix_len allowed_ip =? 0)) (get_tunnel_destinations config)).

(** Policy routing makes routes to the endpoints unnecessary. *)
Definition get_endpoint_routes (endpoints : list IpAddr) : list RequiredRoute := [].

Definition get_post_tunnel_routes (iface_name : string) (config : Config) : list RequiredRoute :=
  map (λ route, apply_route_mtu_for_multihop (use_main_table false route) config)
    (map (route_to iface_name) (List.filter (λ allowed_ip, prefix_len allowed_ip =? 0) (get_tunnel_destinations config))).

(** ** Starting a tunnel (lib.rs) *)

Definition get_route_mtu (params : wireguard.TunnelParameters) : W Z :=
  r ← with_routes (handle_get_mtu_for_route (sock_ip (wireguard.endpoint (wireguard.peer (wireguard.connection params)))));
  mret (match r with Ok mtu => mtu | Err _ => DEFAULT_MTU end).

Definition open_tunnel (config : Config) (userspace_wireguard : bool) : W (result wg.Error string) :=
  if userspace_wireguard then
    r ← query (env_open_userspace config);
    mret (map_err wg.TunnelFailed r)
  else
    nm ← query env_nm_manages_dns;
    res ← (if nm : bool then query (env_open_kernel_nm config) else query (env_open_kernel_netlink config));
    match res with
    | Ok name => mret (Ok name)
    | Err _ =>
        r ← query (env_open_userspace config);
        mret (map_err wg.TunnelFailed r)
    end.

(** What [start] hands to the task. *)
Record Started : Set := {
  st_config : Config;
  st_iface_name : string;
  st_endpoint_addrs : list IpAddr;
  st_obfuscation_mtu : Z;
  st_detect_mtu : bool
}.

Definition start (params : wireguard.TunnelParameters) : W (result wg.Error Started) :=
  route_mtu ← get_route_mtu params;
  match initial_tunnel_mtu params route_mtu with
  | None => wpanic
  | Some tunnel_mtu =>
      match from_parameters params tunnel_mtu with
      | Err e => mret (Err (wg.WireguardConfigError e))
      | Ok config =>
          let endpoint_addrs := map (λ ep, sock_ip (address ep)) (wireguard.get_next_hop_endpoints params) in
          applied ← apply_obfuscation_config config route_mtu;
          match applied with
          | Err e => mret (Err e)
          | Ok (config, obfuscator) =>
              _ ← put_obfuscator obfuscator;
              config ←
                match wireguard.mtu (wireguard.options params), obfuscator with
                | None, Some packet_overhead =>
                    match clamp_tunnel_mtu params (u16_saturating_sub (c_mtu config) packet_overhead) with
                    | Some mtu => mret (set_mtu mtu config)
                    | None => wpanic
                    end
                | _, _ => mret config
                end;
              let userspace_wireguard := env_force_userspace || c_daita config in
              tunnel ← open_tunnel config userspace_wireguard;
              match tunnel with
              | Err e => mret (Err e)
              | Ok iface_name =>
                  check ← query env_check_new;
                  match check with
                  | Err _ => mret (Err wg.ConnectivityMonitorError)
                  | Ok _ =>
                      mret (Ok {| st_config := config; st_iface_name := iface_name; st_endpoint_addrs := endpoint_addrs;
                                  st_obfuscation_mtu := route_mtu;
                                  st_detect_mtu := negb (bool_decide (is_Some (wireguard.mtu (wireguard.options params)))) |})
                  end
              end
          end
      end
  end.

(** The task; it ends with a message that closes the tunnel. *)
Definition setup_routing (r : result routing.Error unit) : W unit :=
  unwrap (λ e, setup_error (wg.SetupRoutingError e)) r.

(** The part after the tunnel is configured. *)
Definition establish_tunnel (st : Started) (config : Config) : W Empty_set :=
  _ ← (if st_detect_mtu st && negb (c_daita config) then act (ADetectMtu (c_mtu config)) else mret tt);
  tunnel ← query env_lock_tunnel;
  if negb tunnel then wpanic
  else
    established ← query env_establish_connectivity;
    match established with
    | Ok true =>
        let routes := get_post_tunnel_routes (st_iface_name st) config in
        r ← with_routes (handle_add_routes routes);
        _ ← setup_routing r;
        _ ← act (AAddRoutes routes);
        _ ← on_event (EvUp (tunnel_metadata (st_iface_name st) config));
        _ ← query env_monitor;
        wthrow wg.PingErr
    | Ok false | Err _ => wthrow wg.PingErr
    end.

Definition tunnel_fut (retry_attempt : Z) (st : Started) : W Empty_set :=
  let iface_name := st_iface_name st in
  let config := st_config st in
  _ ← on_event (EvInterfaceUp (tunnel_metadata iface_name config) (allowed_traffic_during_tunnel_config config));
  r ← with_routes (handle_create_routing_rules (c_enable_ipv6 config));
  _ ← setup_routing r;
  _ ← act (ACreateRules (c_enable_ipv6 config));
  let routes := get_pre_tunnel_routes iface_name config ++ get_endpoint_routes (st_endpoint_addrs st) in
  r ← with_routes (handle_add_routes routes);
  _ ← setup_routing r;
  _ ← act (AAddRoutes routes);
  config ←
    (if c_quantum_resistant config || c_daita config then
       config ← config_ephemeral_peers config retry_attempt (st_obfuscation_mtu st);
       _ ← on_event (EvInterfaceUp (tunnel_metadata iface_name config) allowed_traffic_after_tunnel_config);
       mret config
     else mret config);
  establish_tunnel st config.

(** [WireguardMonitor::wait], given what is received on the close channel. *)
Definition monitor_wait (msg : result unit wg.CloseMsg) : W (result wg.Error unit) :=
  _ ← on_event EvDown;
  tunnel ← query env_lock_tunnel;
  _ ← (if tunnel : bool then _ ← query env_stop_tunnel; act AStopTunnel else mret tt);
  mret (wg.wait_result msg).
End Tunnel.
