(* ===== verification/WireguardTheorems.v ===== *)
(** * Theorems about the WireGuard tunnel

    When traffic is let through, what the tunnel was configured with by then,
    where packets are routed once it is up, the bounds of its MTU, and the marks
    of the sockets that lead out of it. *)

From S2P Require Import Prelude NetTypes TunnelTypes TunnelThread Routing RoutingTheorems Obfuscation WireguardConfig.
From S2P Require Import EphemeralPeers WireguardMonitor.

(** ** Reasoning about the task *)

Section Specs.
Context {K E : Type}.
#[local] Notation W := (WM K E).

(** What a computation adds to the record of actions, with its result. *)
Definition spec {A} (c : W A) (Q : Res A → list Action → Prop) : Prop :=
  ∀ w, ∃ tr, w_trace (c w).2 = w_trace w ++ tr ∧ Q (c w).1 tr.

Lemma spec_ret {A} (a : A) (Q : Res A → list Action → Prop) : Q (WOk a) [] → spec (mret a) Q.
Proof. intros HQ w. exists []. by rewrite app_nil_r. Qed.
Lemma spec_throw {A} e (Q : Res A → list Action → Prop) : Q (WErr e) [] → spec (wthrow e) Q.
Proof. intros HQ w. exists []. by rewrite app_nil_r. Qed.
Lemma spec_panic {A} (Q : Res A → list Action → Prop) : Q WPanic [] → spec wpanic Q.
Proof. intros HQ w. exists []. by rewrite app_nil_r. Qed.
Lemma spec_act a (Q : Res unit → list Action → Prop) : Q (WOk tt) [a] → spec (act a) Q.
Proof. intros HQ w. by exists [a]. Qed.
Lemma spec_get (Q : Res (option Z) → list Action → Prop) : (∀ o, Q (WOk o) []) → spec get_obfuscator Q.
Proof. intros HQ w. exists []. rewrite app_nil_r. split; [done|apply HQ]. Qed.
Lemma spec_put o (Q : Res unit → list Action → Prop) : Q (WOk tt) [] → spec (put_obfuscator o) Q.
Proof. intros HQ w. exists []. by rewrite app_nil_r. Qed.
Lemma spec_query {A} (f : E → A * E) (Q : Res A → list Action → Prop) : (∀ e, Q (WOk (f e).1) []) → spec (query f) Q.
Proof.
  intros HQ w. exists []. rewrite app_nil_r. unfold query. specialize (HQ (w_env w)). by destruct (f (w_env w)).
Qed.
Lemma spec_routes {A} f (Q : Res (result routing.Error A) → list Action → Prop) :
  (∀ r, Q (WOk r) []) → spec (with_routes f) Q.
Proof. intros HQ w. exists []. rewrite app_nil_r. unfold with_routes. destruct (f (w_routes w)). split; [done|apply HQ]. Qed.
Lemma spec_bind {A B} (c : W A) (f : A → W B) Q1 (Q : Res B → list Action → Prop) :
  spec c Q1 →
  (∀ a tr1, Q1 (WOk a) tr1 → spec (f a) (λ r tr2, Q r (tr1 ++ tr2))) →
  (∀ e tr, Q1 (WErr e) tr → Q (WErr e) tr) → (∀ tr, Q1 WPanic tr → Q WPanic tr) →
  spec (c ≫= f) Q.
Proof.
  intros Hc Hf He Hp w. destruct (Hc w) as (tr1 & E1 & H1). unfold mbind, WM_bind.
  destruct (c w) as [[a|e|] w1]; cbn in *; [|by exists tr1; auto..].
  destruct (Hf a tr1 H1 w1) as (tr2 & E2 & H2). exists (tr1 ++ tr2). by rewrite E2, E1, app_assoc.
Qed.
Lemma spec_mono {A} (c : W A) (Q1 Q : Res A → list Action → Prop) : spec c Q1 → (∀ r tr, Q1 r tr → Q r tr) → spec c Q.
Proof. intros Hc HQ w. destruct (Hc w) as (tr & ? & ?). exists tr. auto. Qed.

(** A question, with the state of the environment that answers it. *)
Lemma spec_known {A B} (f : E → A * E) (k : A → W B) Q : (∀ e, spec (k (f e).1) Q) → spec (query f ≫= k) Q.
Proof.
  intros Hk w. specialize (Hk (w_env w)). unfold mbind, WM_bind, query. destruct (f (w_env w)) as [a e'].
  apply (Hk {| w_routes := w_routes w; w_obfuscator := w_obfuscator w; w_env := e'; w_trace := w_trace w |}).
Qed.

(** A result that is known. *)
Lemma spec_ret_bind {A B} (a : A) (f : A → W B) Q : spec (f a) Q → spec (mret a ≫= f) Q.
Proof. done. Qed.
Lemma spec_throw_bind {A B} e (f : A → W B) (Q : Res B → list Action → Prop) : Q (WErr e) [] → spec (wthrow e ≫= f) Q.
Proof. intros HQ w. exists []. by rewrite app_nil_r. Qed.

(** A step that records nothing, with any answer. *)
Definition silent {A} (r : Res A) (tr : list Action) : Prop := tr = [] ∧ ∃ a, r = WOk a.
Lemma spec_silent {A B} (c : W A) (f : A → W B) Q :
  spec c silent → (∀ a, spec (f a) Q) → spec (c ≫= f) Q.
Proof.
  intros Hc Hf. eapply spec_bind; [exact Hc| |by intros ? ? [_ [? ?]]|by intros ? [_ [? ?]]].
  intros a tr [-> _]. exact (Hf a).
Qed.
Lemma query_silent {A} (f : E → A * E) : spec (query f) silent.
Proof. apply spec_query. intros e. split; [done|]. eauto. Qed.
Lemma routes_silent {A} f : spec (with_routes (A := A) f) silent.
Proof. apply spec_routes. intros r. split; [done|]. eauto. Qed.
Lemma get_silent : spec get_obfuscator silent.
Proof. apply spec_get. intros o. split; [done|]. eauto. Qed.
Lemma put_silent o : spec (put_obfuscator o) silent.
Proof. apply spec_put. split; [done|]. eauto. Qed.
End Specs.

(** Errors and panics, which are passed on. *)
Ltac passed_on := idtac; intros; cbn beta iota in *; destruct_and?; subst; rewrite ?app_nil_r in *; split_and?; try done; try constructor.

(** ** Negotiation of ephemeral peers *)

(** Tokens that the QUIC obfuscator takes. *)
Definition token_ok (o : ObfuscatorConfig) : bool :=
  match o with Quic _ _ token => bool_decide (is_Some (quic.AuthToken_new token)) | _ => true end.
Definition tokens_ok (o : option Obfuscators) : bool :=
  match o with
  | None => true
  | Some (Single c) => token_ok c
  | Some (Multiplexer _ first remaining) => forallb token_ok (first :: remaining)
  end.

Definition no_event (tr : list Action) : Prop := Forall (λ a, match a with AEvent _ => False | _ => True end) tr.
Definition no_config (tr : list Action) : Prop := Forall (λ a, match a with ASetConfig _ _ => False | _ => True end) tr.

(** Two configurations with the same destinations, gateways and options. *)
Record same_shape (c c' : Config) : Prop := {
  sh_destinations : get_tunnel_destinations c' = get_tunnel_destinations c;
  sh_multihop : is_multihop c' = is_multihop c;
  sh_mtu : c_mtu c' = c_mtu c;
  sh_gateways : c_ipv4_gateway c' = c_ipv4_gateway c ∧ c_ipv6_gateway c' = c_ipv6_gateway c;
  sh_addresses : wireguard.addresses (c_tunnel c') = wireguard.addresses (c_tunnel c);
  sh_options : c_daita c' = c_daita c ∧ c_quantum_resistant c' = c_quantum_resistant c ∧ c_enable_ipv6 c' = c_enable_ipv6 c;
  sh_obfuscators : c_obfuscator_config c' = c_obfuscator_config c
}.
#[global] Instance same_shape_preorder : PreOrder same_shape.
Proof.
  split; [by intros c; constructor|].
  intros c1 c2 c3 [] []. constructor; try congruence; intuition congruence.
Qed.

Lemma get_tunnel_destinations_alt c :
  get_tunnel_destinations c = match c_exit_peer c with Some p => wireguard.allowed_ips p | None => [] end ++
    wireguard.allowed_ips (c_entry_peer c).
Proof. unfold get_tunnel_destinations, peers. destruct (c_exit_peer c); cbn; by rewrite ?app_nil_r. Qed.

(** Changes that keep the shape: of the entry peer, but not its addresses, of
    the exit peer, and of the private key. *)
Lemma shape_entry c p : wireguard.allowed_ips p = wireguard.allowed_ips (c_entry_peer c) → same_shape c (set_entry_peer p c).
Proof. intros Ep. constructor; try done. rewrite !get_tunnel_destinations_alt. cbn. by rewrite Ep. Qed.
Lemma shape_exit c f :
  (∀ p, wireguard.allowed_ips (f p) = wireguard.allowed_ips p) → same_shape c (exit_peer_mut f c).
Proof.
  intros Hf. unfold exit_peer_mut. destruct (c_exit_peer c) as [p|] eqn:E; [|by apply shape_entry].
  constructor; try done.
  - rewrite !get_tunnel_destinations_alt. cbn. by rewrite E, Hf.
  - unfold is_multihop. cbn. by rewrite E.
Qed.
Lemma shape_key c k : same_shape c (set_private_key k c).
Proof. constructor; try done. Qed.

Section Negotiation.
Context {K E : Type} `{Rtnetlink K} `{NetlinkPacket} `{HashOrder} `{TunnelEnv E}.
#[local] Notation W := (WM K E).

Lemma single_config_some c o mtu mark : token_ok o = true → is_Some (settings_from_single_config c o mtu mark).
Proof.
  destruct o; cbn; eauto. intros Ht%bool_decide_eq_true. destruct Ht as [token ->]. destruct mark; eauto.
Qed.
Lemma transports_some c os mtu mark : forallb token_ok os = true → is_Some (obfuscated_transports c os mtu mark).
Proof.
  induction os as [|o os IH]; cbn; [eauto|]. intros [Ho Hos]%andb_true_iff.
  destruct (single_config_some c o mtu mark Ho) as [s ->]. destruct (IH Hos) as [l ->]. cbn. eauto.
Qed.
Lemma settings_some c o mtu mark : tokens_ok (Some o) = true → is_Some (settings_from_config c o mtu mark).
Proof.
  destruct o as [o|direct first remaining]; [apply single_config_some|]. cbn [tokens_ok settings_from_config].
  intros [l ->]%(transports_some c _ mtu mark). cbn. eauto.
Qed.

(** Obfuscation changes the endpoint of the entry peer at most. *)
Lemma obfuscation_spec c mtu :
  spec (K := K) (apply_obfuscation_config c mtu) (λ r tr,
    no_event tr ∧ no_config tr ∧
    match r with
    | WOk (Ok (c', _)) => c' = c ∨ ∃ ep, c' = patch_endpoint c ep
    | WOk (Err _) => True
    | WErr _ => False
    | WPanic => tokens_ok (c_obfuscator_config c) = false
    end).
Proof.
  unfold apply_obfuscation_config. destruct (c_obfuscator_config c) as [o|] eqn:Eo.
  2: { apply spec_ret. split_and!; [constructor..|by left]. }
  destruct (settings_from_config c o mtu (c_fwmark c)) as [s|] eqn:Es.
  2: { apply spec_panic. split_and!; [constructor..|]. destruct (tokens_ok (Some o)) eqn:Et; [|done].
       apply (settings_some c o mtu (c_fwmark c)) in Et as [? Et]. congruence. }
  apply spec_silent; [apply query_silent|]. intros [ob|e]; [|apply spec_ret; split_and!; constructor].
  eapply spec_bind; [apply spec_act; instantiate (1 := λ r tr, r = WOk tt ∧ tr = [AObfuscate s]); done|..]; [|naive_solver..].
  intros a tr [_ ->]. apply spec_ret. split_and!; [by repeat constructor..|]. right. eauto.
Qed.

(** A configuration that was recorded: WireGuard took it, or the tunnel had been
    closed in the meantime. *)
Definition configured (exists_tunnel : bool) (c : Config) : Prop :=
  ∃ e, if exists_tunnel then (env_set_config c e).1 = Ok tt else (env_lock_tunnel e).1 = false.

Lemma reconfigure_spec c mtu :
  spec (K := K) (reconfigure_tunnel c mtu) (λ r tr,
    no_event tr ∧
    match r with
    | WOk c' => (c' = c ∨ ∃ ep, c' = patch_endpoint c ep) ∧
        ∃ tr0 ex, tr = tr0 ++ [ASetConfig ex c'] ∧ no_config tr0 ∧ configured ex c'
    | WErr _ => True
    | WPanic => tokens_ok (c_obfuscator_config c) = false
    end).
Proof.
  unfold reconfigure_tunnel. apply spec_silent; [apply get_silent|]. intros guard.
  eapply spec_bind with (Q1 := λ r tr, no_event tr ∧ no_config tr ∧
    match r with
    | WOk c' => c' = c ∨ ∃ ep, c' = patch_endpoint c ep
    | WErr _ => True
    | WPanic => tokens_ok (c_obfuscator_config c) = false
    end).
  - destruct guard as [h|]; [|apply spec_ret; split_and!; [constructor..|by left]].
    apply spec_silent; [apply put_silent|]. intros _.
    eapply spec_bind; [apply obfuscation_spec|..]; cbn; [|by intros ? ? (?&?&?)|by intros ? (?&?&?)].
    intros [[c' o]|e] tr (Hn & Hc & Hr); cbn [unwrap].
    + apply spec_ret_bind. apply spec_silent; [apply put_silent|]. intros _. apply spec_ret.
      rewrite app_nil_r. by split_and!.
    + apply spec_throw_bind. rewrite app_nil_r. by split_and!.
  - intros c' tr (Hn & Hc & Hr). apply spec_known. intros e0.
    eapply spec_bind with (Q1 := λ r tr, tr = [] ∧ r ≠ WPanic ∧ (r = WOk tt → configured (env_lock_tunnel e0).1 c')).
    + destruct (env_lock_tunnel e0).1 eqn:El; [|apply spec_ret; split_and!; [done..|by exists e0]].
      apply spec_known. intros e1. destruct (env_set_config c' e1).1 as [[]|] eqn:Es; [|by apply spec_throw].
      apply spec_ret. split_and!; [done..|]. intros _. by exists e1.
    + intros [] tr2 (-> & _ & Hcf). specialize (Hcf eq_refl).
      eapply spec_bind; [apply spec_act; instantiate (1 := λ r tr, r = WOk tt ∧ tr = [ASetConfig (env_lock_tunnel e0).1 c']); done|..]; [|naive_solver..].
      intros [] tr3 [_ ->]. apply spec_ret. rewrite app_nil_r. cbn. split; [apply Forall_app; by repeat constructor|].
      split; [done|]. by exists tr, (env_lock_tunnel e0).1.
    + intros e tr2 [-> _]. rewrite app_nil_r. by split.
    + naive_solver.
  - intros e tr (Hn & _ & _). by split.
  - intros tr (Hn & _ & Hr). by split.
Qed.

(** A relay's configuration service at an address was asked to register an
    ephemeral key next to the device's, with post-quantum keys and DAITA as the
    arguments tell, and the pre-shared key and DAITA settings are those of its
    response. *)
Definition exchanged (address : Z) (parent ephemeral : list Z) (pq daita : bool)
    (psk : option (list Z)) (d : option config_client.DaitaSettings) (tr : list Action) : Prop :=
  ∃ request response, ARegisterPeer address request response ∈ tr ∧
    proto.wg_parent_pubkey request = parent ∧ proto.wg_ephemeral_peer_pubkey request = ephemeral ∧
    bool_decide (is_Some (proto.daita_v2 request)) = daita ∧
    match pq, psk with
    | true, Some psk => ∃ keys, config_client.mixed keys response psk ∧
        (map proto.key_data ∘ proto.kem_pubkeys) <$> proto.post_quantum request = Some [ml_kem_public keys.1; hqc_public keys.2]
    | false, None => proto.post_quantum request = None
    | _, _ => False
    end ∧
    d = config_client.daita_settings response ∧ (daita = true → is_Some d).

Lemma exchanged_mono address parent ephemeral pq daita psk d tr tr' :
  (∀ a, a ∈ tr → a ∈ tr') →
  exchanged address parent ephemeral pq daita psk d tr → exchanged address parent ephemeral pq daita psk d tr'.
Proof. intros Ht (request & response & Hin & ?). exists request, response. auto. Qed.

Lemma client_request_spec ip parent ephemeral pq daita :
  spec (K := K) (client_request ip parent ephemeral pq daita) (λ r tr,
    no_event tr ∧ no_config tr ∧ ∃ x, r = WOk x ∧ ∀ peer, x = Ok peer →
      exchanged ip parent ephemeral pq daita (config_client.psk peer) (config_client.daita peer) tr).
Proof.
  unfold client_request. apply spec_silent; [apply query_silent|].
  intros [[]|e]; [|apply spec_ret; split_and!; [constructor..|naive_solver]].
  eapply spec_bind with (Q1 := λ r tr, tr = [] ∧ ∃ keys, r = WOk keys ∧ bool_decide (is_Some keys) = pq).
  - destruct pq; [|apply spec_ret; eauto]. apply spec_silent; [apply query_silent|]. intros keys. apply spec_ret. eauto.
  - intros keys tr [-> (? & [= <-] & Hk)]. apply spec_silent; [apply query_silent|].
    intros [response|e]; [|apply spec_ret; split_and!; [constructor..|naive_solver]].
    eapply spec_bind; [apply spec_act; by instantiate (1 := λ r tr, r = WOk tt ∧ tr = [_])|..]; [|naive_solver..].
    intros [] tr [_ ->]. apply spec_ret. split_and!; [by repeat constructor..|]. eexists. split; [done|].
    intros peer (Hp & -> & Hd)%config_client.peer_response_ok. eexists _, response. split; [by left|].
    split_and!; [done|done|by destruct daita| |done|done].
    destruct keys as [keys|]; cbn in Hk; subst pq; [destruct Hp as (k & -> & Hm); by exists keys|by rewrite Hp].
  - naive_solver.
  - naive_solver.
Qed.

(** The exchanges that a configuration leads to, from the tunnel's gateway. *)
Definition exchange_of (c0 : Config) (key : list Z) (daita : bool) :=
  exchanged (c_ipv4_gateway c0) (env_public_key (wireguard.private_key (c_tunnel c0))) (env_public_key key) (c_quantum_resistant c0) daita.

Lemma request_spec n c key pq daita :
  spec (K := K) (request_ephemeral_peer n c key pq daita) (λ r tr,
    no_event tr ∧ no_config tr ∧
    match r with
    | WOk peer => exchanged (c_ipv4_gateway c) (env_public_key (wireguard.private_key (c_tunnel c))) key pq daita
                    (config_client.psk peer) (config_client.daita peer) tr
    | WErr _ => True
    | WPanic => False
    end).
Proof.
  unfold request_ephemeral_peer. apply spec_silent; [apply query_silent|].
  intros [|]; [apply spec_throw; by split_and!; try constructor|].
  eapply spec_bind; [apply client_request_spec|..]; [|naive_solver..].
  intros x tr (Hn & Hc & ? & [= <-] & Hx). destruct x as [peer|]; [apply spec_ret|apply spec_throw]; rewrite app_nil_r; split_and!; auto.
Qed.

(** The keys of the configuration [c] that the negotiation ends with, and the
    DAITA settings: without an exit peer they come from one exchange, through
    the tunnel as it was started; with one, the exit's key comes from such an
    exchange, and the entry's from another, for which the tunnel led to the
    entry alone. *)
Definition keys_exchanged (c0 c : Config) (key : list Z) (d : option config_client.DaitaSettings) (tr : list Action) : Prop :=
  match c_exit_peer c0 with
  | None => c_exit_peer c = None ∧ no_config tr ∧ exchange_of c0 key (c_daita c0) (wireguard.psk (c_entry_peer c)) d tr
  | Some x =>
      ∃ psk d' to_exit ex entry to_entry,
        c_exit_peer c = Some (set_psk psk x) ∧ tr = to_exit ++ ASetConfig ex entry :: to_entry ∧
        no_config to_exit ∧ exchange_of c0 key false psk d' to_exit ∧
        c_exit_peer entry = None ∧ wireguard.public_key (c_entry_peer entry) = wireguard.public_key (c_entry_peer c0) ∧
        configured ex entry ∧
        no_config to_entry ∧ exchange_of c0 key (c_daita c0) (wireguard.psk (c_entry_peer c)) d to_entry
  end.

(** A configuration after the negotiation: a fresh private key, the keys that
    were exchanged, and packets of constant size to the entry peer with DAITA. *)
Definition secured (c0 c : Config) (d : option config_client.DaitaSettings) (tr : list Action) : Prop :=
  (∃ e, wireguard.private_key (c_tunnel c) = (env_new_private_key e).1) ∧
  keys_exchanged c0 c (wireguard.private_key (c_tunnel c)) d tr ∧
  wireguard.public_key (c_entry_peer c) = wireguard.public_key (c_entry_peer c0) ∧
  (c_daita c0 = true → wireguard.constant_packet_size (c_entry_peer c) = true).

(** The configuration that is set up last, from the keys that were exchanged. *)
Definition final_config (c : Config) (key : list Z) (exit_psk : option (list Z)) : Config :=
  let c := exit_peer_mut (set_psk exit_psk) c in
  let c := if c_daita c then set_entry_peer (set_constant_packet_size true (c_entry_peer c)) c else c in
  set_private_key key c.

Lemma final_shape c key psk : same_shape c (final_config c key psk).
Proof.
  unfold final_config. etrans; [by apply (shape_exit c (set_psk psk))|]. etrans; [|apply shape_key].
  destruct (c_daita _); [by apply shape_entry|done].
Qed.

(** The second exchange of a multihop tunnel, from the configuration [c] to
    [c2], which has the entry's key. *)
Definition entry_exchanged (c : Config) (key : list Z) (exit_daita : option config_client.DaitaSettings)
    (c2 : Config) (d : option config_client.DaitaSettings) (tr : list Action) : Prop :=
  if is_multihop c then
    ∃ psk tr0 ex entry to_entry, c2 = set_entry_peer (set_psk psk (c_entry_peer c)) c ∧
      tr = tr0 ++ ASetConfig ex entry :: to_entry ∧ no_config tr0 ∧ configured ex entry ∧
      c_exit_peer entry = None ∧ wireguard.public_key (c_entry_peer entry) = wireguard.public_key (c_entry_peer c) ∧
      no_config to_entry ∧ exchange_of c key (c_daita c) psk d to_entry
  else c2 = c ∧ d = exit_daita ∧ tr = [].

Lemma final_secured c e psk d' c2 d tr1 tr2 tr3 :
  exchange_of c (env_new_private_key e).1 (c_daita c && negb (is_multihop c)) psk d' tr1 → no_config tr1 →
  entry_exchanged c (env_new_private_key e).1 d' c2 d tr2 → no_config tr3 →
  secured c (final_config c2 (env_new_private_key e).1 psk) d (tr1 ++ tr2 ++ tr3).
Proof.
  intros Hx Hc1 Hent Hc3. unfold secured, entry_exchanged, keys_exchanged, is_multihop in *.
  destruct (c_exit_peer c) as [x|] eqn:Ex; cbn in *.
  - rewrite andb_false_r in Hx. destruct Hent as (p & t0 & ex & entry & te & -> & -> & Ht0 & Hcf & Hne & Hpk & Hte & Hent).
    split_and!; [by exists e| |unfold final_config, exit_peer_mut; cbn; rewrite Ex; cbn; by destruct (c_daita c)|
      intros Hd; unfold final_config, exit_peer_mut; cbn; rewrite Ex; cbn; by rewrite Hd].
    exists psk, d', (tr1 ++ t0), ex, entry, (te ++ tr3). rewrite <- !app_assoc. cbn.
    split_and!; try done; try (by apply Forall_app).
    + unfold final_config, exit_peer_mut. cbn. rewrite Ex. cbn. by destruct (c_daita c).
    + eapply exchanged_mono; [|exact Hx]. set_solver.
    + replace (wireguard.psk _) with p; [eapply exchanged_mono; [|exact Hent]; set_solver|].
      unfold final_config, exit_peer_mut. cbn. rewrite Ex. cbn. by destruct (c_daita c).
  - rewrite andb_true_r in Hx. destruct Hent as (-> & -> & ->). unfold final_config, exit_peer_mut. rewrite Ex.
    cbn. split_and!; [by exists e|destruct (c_daita c); cbn; by rewrite Ex|by apply Forall_app| |by destruct (c_daita c)|intros Hd; by rewrite Hd].
    replace (wireguard.psk _) with psk by by destruct (c_daita c). eapply exchanged_mono; [|exact Hx]. set_solver.
Qed.

Lemma secured_patch c0 c ep d tr : secured c0 c d tr → secured c0 (patch_endpoint c ep) d tr.
Proof. done. Qed.

Lemma shape_patch c ep : same_shape c (patch_endpoint c ep).
Proof. by apply shape_entry. Qed.

(** The negotiation has succeeded, and its result is the configuration of the
    tunnel; with DAITA, its machines run. *)
Definition negotiated (c0 c : Config) (tr : list Action) : Prop :=
  ∃ before ex mid d, tr = before ++ ASetConfig ex c :: mid ∧ no_config mid ∧ configured ex c ∧ secured c0 c d before ∧
    (c_daita c0 = true → ∃ ex d', d = Some d' ∧ AStartDaita ex d' ∈ mid ∧
       ∃ e, if ex then (env_start_daita d' e).1 = Ok tt else (env_lock_tunnel e).1 = false).

Lemma entry_spec c n mtu key exit_peer :
  spec (K := K)
    (if is_multihop c then
       entry_config ← reconfigure_tunnel (entry_tunnel_config c) mtu;
       entry_ephemeral_peer ← request_ephemeral_peer n entry_config (env_public_key key) (c_quantum_resistant c) (c_daita c);
       mret (set_entry_peer (set_psk (config_client.psk entry_ephemeral_peer) (c_entry_peer c)) c,
             config_client.daita entry_ephemeral_peer)
     else mret (c, config_client.daita exit_peer))
    (λ r tr, no_event tr ∧
     match r with
     | WOk (c2, d) => same_shape c c2 ∧ entry_exchanged c key (config_client.daita exit_peer) c2 d tr
     | WErr _ => True
     | WPanic => tokens_ok (c_obfuscator_config c) = false
     end).
Proof.
  unfold entry_exchanged. destruct (is_multihop c) eqn:Em; [|apply spec_ret; by repeat constructor].
  eapply spec_bind; [apply reconfigure_spec|..]; [|passed_on..].
  intros entry tr (Hn & Hc & tr0 & ex & -> & Ht0 & Hcf).
  eapply spec_bind; [apply request_spec|..]; cbn beta iota.
  2: { intros x tr (Hn2 & _). split; [|done]. by apply Forall_app. }
  2: { by intros tr (_ & _ & []). }
  intros peer tr2 (Hn2 & Hc2 & Hx). apply spec_ret. rewrite app_nil_r. split; [by apply Forall_app|].
  split; [by apply shape_entry|]. exists (config_client.psk peer), tr0, ex, entry, tr2. rewrite <- app_assoc.
  destruct Hc as [->|[ep ->]]; split_and!; done.
Qed.

(** The end of the negotiation, once the tunnel is configured. *)
Lemma start_daita_spec (c : Config) d :
  (c_daita c = true → is_Some d) →
  spec (K := K)
    (if c_daita c then
       match d with
       | None => wpanic
       | Some daita =>
           tunnel ← query env_lock_tunnel;
           _ ← (if tunnel : bool then r ← query (env_start_daita daita); unwrap (λ e, setup_error (wg.TunnelFailed e)) r else mret tt);
           _ ← act (AStartDaita tunnel daita);
           mret c
       end
     else mret c)
    (λ r tr, no_event tr ∧ no_config tr ∧
     match r with
     | WOk c' => c' = c ∧ (c_daita c = true → ∃ ex d', d = Some d' ∧ AStartDaita ex d' ∈ tr ∧
         ∃ e, if ex then (env_start_daita d' e).1 = Ok tt else (env_lock_tunnel e).1 = false)
     | WErr _ => True
     | WPanic => False
     end).
Proof.
  intros Hd. destruct (c_daita c) eqn:Ec; [|apply spec_ret; split_and!; by try constructor].
  destruct (Hd eq_refl) as [d' ->]. apply spec_known. intros e0.
  eapply spec_bind with (Q1 := λ r tr, tr = [] ∧ r ≠ WPanic ∧ (r = WOk tt → ∃ e,
    if (env_lock_tunnel e0).1 then (env_start_daita d' e).1 = Ok tt else (env_lock_tunnel e).1 = false)).
  - destruct (env_lock_tunnel e0).1 eqn:El; [|apply spec_ret; split_and!; [done..|by exists e0]].
    apply spec_known. intros e1. destruct (env_start_daita d' e1).1 as [[]|] eqn:Es; [|by apply spec_throw].
    apply spec_ret. split_and!; [done..|]. intros _. by exists e1.
  - intros [] tr (-> & _ & Hs). specialize (Hs eq_refl).
    eapply spec_bind; [apply spec_act; instantiate (1 := λ r tr, r = WOk tt ∧ tr = [AStartDaita (env_lock_tunnel e0).1 d']); done|..]; [|naive_solver..].
    intros [] tr4 [_ ->]. apply spec_ret. split_and!; [by repeat constructor..|done|]. intros _.
    exists (env_lock_tunnel e0).1, d'. split_and!; [done|by left|done].
  - intros x tr (-> & _). split_and!; by try constructor.
  - naive_solver.
Qed.

Lemma entry_exchanged_daita c key psk d' c2 d tr tr' :
  exchange_of c key (c_daita c && negb (is_multihop c)) psk d' tr → entry_exchanged c key d' c2 d tr' →
  c_daita c = true → is_Some d.
Proof.
  unfold entry_exchanged. intros (? & ? & _ & _ & _ & _ & _ & _ & Hd') Hent Hc. destruct (is_multihop c); cbn in *.
  - destruct Hent as (? & ? & ? & ? & ? & _ & _ & _ & _ & _ & _ & _ & (? & ? & _ & _ & _ & _ & _ & _ & Hd)). by apply Hd.
  - destruct Hent as (_ & -> & _). apply Hd'. by rewrite Hc.
Qed.

Lemma ephemeral_spec c n mtu :
  spec (K := K) (config_ephemeral_peers c n mtu) (λ r tr,
    no_event tr ∧
    match r with
    | WOk c' => same_shape c c' ∧ negotiated c c' tr
    | WErr _ => True
    | WPanic => tokens_ok (c_obfuscator_config c) = false
    end).
Proof.
  unfold config_ephemeral_peers. apply spec_known. intros e. cbv zeta.
  eapply spec_bind; [apply request_spec|..]; cbn beta iota; [|by intros ? ? (?&_)|by intros ? (_&_&[])].
  intros exit tr1 (Hn1 & Hc1 & Hx).
  eapply spec_bind; [apply entry_spec|..]; cbn beta iota;
    [|intros x tr [Hn _]; split; [by apply Forall_app|done]|intros tr [Hn Ht]; split; [by apply Forall_app|done]].
  intros [c2 d] tr2 (Hn2 & Hsh & Hent). set (key := (env_new_private_key e).1) in *.
  change (set_private_key _ _) with (final_config c2 key (config_client.psk exit)).
  assert (same_shape c (final_config c2 key (config_client.psk exit))) as Hsh2 by (etrans; [exact Hsh|apply final_shape]).
  eapply spec_bind; [apply reconfigure_spec|..]; cbn beta iota.
  2: { intros x tr3 [Hn3 _]. split; [|done]. unfold no_event. by rewrite !Forall_app. }
  2: { intros tr3 [Hn3 Ht]. split; [unfold no_event; by rewrite !Forall_app|]. destruct Hsh2. congruence. }
  intros c' tr (Hn3 & Hc' & tr3 & ex & -> & Hc3 & Hcf).
  pose proof (final_secured c e _ _ c2 d tr1 tr2 tr3 Hx Hc1 Hent Hc3) as Hsec.
  assert (same_shape c c' ∧ secured c c' d (tr1 ++ tr2 ++ tr3)) as [Hsh' Hsec'].
  { destruct Hc' as [->|[ep ->]]; [done|]. split; [etrans; [exact Hsh2|apply shape_patch]|by apply secured_patch]. }
  assert (c_daita c' = c_daita c) as Hcd by apply Hsh'.
  eapply spec_mono; [apply start_daita_spec|].
  { rewrite Hcd. by eapply entry_exchanged_daita. }
  intros r tr4 (Hn4 & Hc4 & Hr). split; [unfold no_event in *; rewrite !Forall_app in *; destruct_and!; by split_and!|].
  destruct r as [c3|x|]; [|done..]. destruct Hr as [-> Hd]. split; [done|].
  exists (tr1 ++ tr2 ++ tr3), ex, tr4, d. rewrite <- !app_assoc. cbn. rewrite <- Hcd. by split_and!.
Qed.

(** ** Traffic *)

(** Events after which the firewall lets any traffic into the tunnel. *)
Definition open_event (e : TunnelEvent) : bool :=
  match e with
  | EvUp _ => true
  | EvInterfaceUp _ TrafficAll => true
  | _ => false
  end.
Definition closed (tr : list Action) : Prop :=
  Forall (λ a, match a with AEvent e => open_event e = false | _ => True end) tr.

Lemma no_event_closed tr : no_event tr → closed tr.
Proof. intros Ht. eapply Forall_impl; [exact Ht|]. by intros []. Qed.

Lemma secured_after c0 c d tr0 tr : no_config tr0 → secured c0 c d tr → secured c0 c d (tr0 ++ tr).
Proof.
  intros Hn (Hk & Hx & Hs). split_and!; [done| |apply Hs..]. unfold keys_exchanged in *. destruct (c_exit_peer c0) as [x|].
  - destruct Hx as (psk & d' & t1 & ex & entry & t2 & Hp & -> & Ht1 & Hx1 & Hrest).
    exists psk, d', (tr0 ++ t1), ex, entry, t2. rewrite <- app_assoc. split_and!; try done; [by apply Forall_app|..]; [|apply Hrest..].
    eapply exchanged_mono; [|exact Hx1]. set_solver.
  - destruct Hx as (Hp & Ht & Hx). split_and!; [done|by apply Forall_app|]. eapply exchanged_mono; [|exact Hx]. set_solver.
Qed.

Lemma negotiated_later c0 c tr0 tr tr2 :
  no_config tr0 → negotiated c0 c tr → no_config tr2 → negotiated c0 c (tr0 ++ tr ++ tr2).
Proof.
  intros Hn0 (before & ex & mid & d & -> & Hm & Hcf & Hs & Hd) Hq2. exists (tr0 ++ before), ex, (mid ++ tr2), d.
  rewrite <- !app_assoc. cbn. split_and!; [done|by apply Forall_app|done|by apply secured_after|].
  intros (ex' & d' & -> & Hin & He)%Hd. exists ex', d'. split_and!; [done|set_solver|done].
Qed.

(** The last part of the task, after the tunnel is configured. *)
Lemma finish_spec st c :
  spec (K := K) (establish_tunnel st c) (λ r tr, no_config tr).
Proof.
  unfold establish_tunnel.
  eapply spec_bind with (Q1 := λ r tr, no_config tr ∧ r = WOk tt); [|intros [] tr1 [Hq1 _]|passed_on..].
  { destruct (_ && _); [apply spec_act|apply spec_ret]; by repeat constructor. }
  apply spec_silent; [apply query_silent|]. intros [|]; [|apply spec_panic; by rewrite app_nil_r].
  apply spec_silent; [apply query_silent|]. intros [[|]|e]; [|apply spec_throw; by rewrite app_nil_r..].
  apply spec_silent; [apply routes_silent|]. intros [[]|e]; [|apply spec_throw_bind; by rewrite app_nil_r].
  apply spec_ret_bind.
  eapply spec_bind with (Q1 := λ r tr, no_config tr ∧ r = WOk tt); [apply spec_act; by repeat constructor|intros [] tr2 [Hq2 _]|passed_on..].
  eapply spec_bind with (Q1 := λ r tr, no_config tr ∧ r = WOk tt); [apply spec_act; by repeat constructor|intros [] tr3 [Hq3 _]|passed_on..].
  apply spec_silent; [apply query_silent|]. intros _. apply spec_throw. rewrite app_nil_r.
  unfold no_config in *. rewrite !Forall_app. by split_and!.
Qed.

Lemma tunnel_fut_spec n st :
  c_quantum_resistant (st_config st) || c_daita (st_config st) = true →
  spec (K := K) (tunnel_fut n st) (λ r tr,
    ∃ t1 t2, tr = t1 ++ t2 ∧ closed t1 ∧ no_config t2 ∧ (t2 = [] ∨ ∃ c, negotiated (st_config st) c t1)).
Proof.
  intros Hn. unfold tunnel_fut. cbv zeta. rewrite Hn.
  assert (∀ t1, closed t1 → ∃ t1' t2', t1 = t1' ++ t2' ∧ closed t1' ∧ no_config t2' ∧ (t2' = [] ∨ ∃ c, negotiated (st_config st) c t1')) as Hclosed.
  { intros t1 Hc. exists t1, []. rewrite app_nil_r. split_and!; [done|done|constructor|by left]. }
  eapply spec_bind with (Q1 := λ r tr, (closed tr ∧ no_config tr) ∧ r = WOk tt); [apply spec_act|intros [] tr1 [[Hc1 Hf1] _]|passed_on..].
  { split; [|done]. split; [|by repeat constructor]. constructor; [|constructor]. cbn. unfold allowed_traffic_during_tunnel_config. rewrite Hn. by destruct (is_multihop _). }
  apply spec_silent; [apply routes_silent|]. intros [[]|e]; [|apply spec_throw_bind; rewrite app_nil_r; auto].
  apply spec_ret_bind.
  eapply spec_bind with (Q1 := λ r tr, (closed tr ∧ no_config tr) ∧ r = WOk tt); [apply spec_act; by repeat constructor|intros [] tr2 [[Hc2 Hf2] _]|passed_on..].
  apply spec_silent; [apply routes_silent|]. intros [[]|e]; [|apply spec_throw_bind; rewrite app_nil_r; apply Hclosed; by apply Forall_app].
  apply spec_ret_bind.
  eapply spec_bind with (Q1 := λ r tr, (closed tr ∧ no_config tr) ∧ r = WOk tt); [apply spec_act; by repeat constructor|intros [] tr3 [[Hc3 Hf3] _]|passed_on..].
  assert (closed (tr1 ++ tr2 ++ tr3)) as Hc by (unfold closed in *; rewrite !Forall_app; by split_and!).
  eapply spec_bind with (Q1 := λ r tr,
    match r with
    | WOk c' => ∃ t e, tr = t ++ [AEvent e] ∧ no_event t ∧ negotiated (st_config st) c' t
    | _ => no_event tr
    end).
  - eapply spec_bind; [apply ephemeral_spec|..]; cbn beta iota; [|by intros ? ? [? _]..|by intros ? [? _]].
    intros c' tr (Hne & Hsh & Hneg).
    eapply spec_bind with (Q1 := λ r tr, r = WOk tt ∧ ∃ e, tr = [AEvent e]); [apply spec_act; eauto|..]; [|by intros ? ? [? _]|by intros ? [? _]].
    intros [] tr' [_ [e ->]]. apply spec_ret. exists tr, e. by rewrite app_nil_r.
  - intros c' tr (t & e & -> & Hne & Hneg). eapply spec_mono; [apply finish_spec|]. intros r t2 Ht2.
    exists (tr1 ++ tr2 ++ tr3 ++ t), (AEvent e :: t2). split_and!.
    + rewrite <- !app_assoc. done.
    + unfold closed in *. rewrite !Forall_app in *. destruct_and!. split_and!; try done. by apply no_event_closed.
    + by constructor.
    + right. exists c'. rewrite (app_assoc tr2), (app_assoc tr1). rewrite <- (app_nil_r t).
      apply negotiated_later; [unfold no_config in *; rewrite !Forall_app; by split_and!|done|constructor].
  - intros e tr Hne. rewrite !app_assoc, <- app_assoc. apply Hclosed. unfold closed in *. rewrite !Forall_app in *.
    destruct_and!. split_and!; try done. by apply no_event_closed.
  - intros tr Hne. rewrite !app_assoc, <- app_assoc. apply Hclosed. unfold closed in *. rewrite !Forall_app in *.
    destruct_and!. split_and!; try done. by apply no_event_closed.
Qed.

(** C17: when quantum resistance or DAITA is asked for, the firewall is told to
    let arbitrary traffic into the tunnel, and the tunnel is reported as up,
    only after the negotiation with the relays has succeeded and its result is
    the configuration of the tunnel.  The private key is a fresh one; its public
    key was registered with every relay of the tunnel (with the exit first, then
    with the entry, through a tunnel that leads there alone), each answered, and
    with quantum resistance the pre-shared key of each peer is the exclusive or
    of the two shared secrets that the ciphertexts of that relay's answer
    decapsulate to.  With DAITA packets to the entry have constant size and the
    machines that run are those of the entry's answer.  Nothing reconfigures the
    tunnel in between.  (WireGuard accepted the configuration and the machines,
    unless the tunnel was closed in the meantime, when there is none to
    configure: the code goes on with its events then.) *)
Theorem traffic_after_negotiation n st (w : World K E) :
  c_quantum_resistant (st_config st) || c_daita (st_config st) = true →
  ∀ tr, w_trace (tunnel_fut n st w).2 = w_trace w ++ tr →
  ∀ pre e post, tr = pre ++ AEvent e :: post → open_event e = true →
  ∃ c, negotiated (st_config st) c pre.
Proof.
  intros Hn tr Htr pre e post Htr' He. destruct (tunnel_fut_spec n st Hn w) as (tr' & Hw & t1 & t2 & -> & Hc & Ht2 & Hneg).
  rewrite Hw in Htr. apply app_inv_head in Htr. rewrite Htr' in Htr. symmetry in Htr.
  apply app_eq_inv in Htr as [(k & -> & Hk)|(k & -> & Hk)].
  - destruct k as [|a k]; cbn in Hk; subst.
    + rewrite app_nil_r. destruct Hneg as [Ht|[c Hneg]]; [done|by exists c].
    + destruct Hneg as [Ht|[c Hneg]]; [done|]. exists c. apply (negotiated_later _ _ []); [constructor|done|].
      by apply (Forall_app _ (a :: k)) in Ht2 as [? _].
  - destruct k as [|a k]; cbn in Hk.
    + subst t2. rewrite app_nil_r in Hneg. destruct Hneg as [Ht|[c Hneg]]; [done|by exists c].
    + injection Hk as <- ->. unfold closed in Hc. rewrite Forall_app, Forall_cons in Hc. destruct Hc as (_ & Hc & _). congruence.
Qed.
End Negotiation.

(** * Bounds and marks of the WireGuard tunnel

    The MTU of the tunnel and of its routes stays within bounds, the sizes that
    MTU detection tries are evenly spread, starting a tunnel and negotiating
    ephemeral peers do not panic, and every socket of an obfuscator carries the
    firewall mark. *)

(** ** The MTU of the tunnel *)

Definition min_mtu (params : wireguard.TunnelParameters) : Z :=
  if enable_ipv6 (wireguard.generic_options params) then MIN_IPV6_MTU else MIN_IPV4_MTU.
Definition max_mtu (params : wireguard.TunnelParameters) : Z := 1500 - MTU_SAFETY_MARGIN - wireguard_overhead params.

Lemma clamp_ok params x : ∃ y, clamp_tunnel_mtu params x = Some y ∧ min_mtu params ≤ y ≤ max_mtu params.
Proof.
  assert (u16_sub (u16_sub 1500 MTU_SAFETY_MARGIN) (wireguard_overhead params) = max_mtu params) as Hmax.
  { unfold max_mtu, wireguard_overhead. by destruct (sock_is_ipv4 _). }
  assert (min_mtu params ≤ max_mtu params) as Hle.
  { unfold min_mtu, max_mtu, wireguard_overhead. by destruct (sock_is_ipv4 _), (enable_ipv6 _). }
  unfold clamp_tunnel_mtu. fold (min_mtu params). rewrite Hmax, (proj2 (Z.ltb_ge _ _)) by done. eexists. split; [done|].
  destruct (Z.ltb_spec x (min_mtu params)); [lia|]. destruct (Z.ltb_spec (max_mtu params) x); lia.
Qed.

(** The fields of a new configuration. *)
Lemma from_parameters_fields params mtu c :
  from_parameters params mtu = Ok c →
  c_mtu c = default mtu (wireguard.mtu (wireguard.options params)) ∧ c_obfuscator_config c = wireguard.obfuscation params.
Proof.
  unfold from_parameters, Config_new. cbv zeta. destruct (wireguard.addresses _); [done|].
  intros (c1 & E1 & (p & _ & [= <-])%result_bind_ok)%result_bind_ok. cbn in *.
  destruct (wireguard.exit_peer _) as [x|]; [apply result_bind_ok in E1 as (? & _ & [= <-])|injection E1 as <-]; done.
Qed.









Section Start.
Context {K E : Type} `{Rtnetlink K} `{NetlinkPacket} `{HashOrder} `{TunnelEnv E}.

Lemma open_tunnel_silent c b : spec (K := K) (E := E) (open_tunnel c b) silent.
Proof.
  unfold open_tunnel. destruct b.
  - apply spec_silent; [apply query_silent|]. intros r. apply spec_ret. split; eauto.
  - apply spec_silent; [apply query_silent|]. intros nm. apply spec_silent; [destruct nm; apply query_silent|].
    intros [name|e]; [apply spec_ret; split; eauto|].
    apply spec_silent; [apply query_silent|]. intros r. apply spec_ret. split; eauto.
Qed.

Lemma start_spec params :
  spec (K := K) (E := E) (start params) (λ r tr,
    match r with
    | WOk (Ok st) => wireguard.mtu (wireguard.options params) = None →
        min_mtu params ≤ c_mtu (st_config st) ≤ max_mtu params
    | WOk (Err _) => True
    | WErr _ => False
    | WPanic => tokens_ok (wireguard.obfuscation params) = false
    end).
Proof.
  unfold start, get_route_mtu. apply spec_silent; [apply spec_silent; [apply routes_silent|intros r; apply spec_ret; split; eauto]|].
  intros route_mtu. unfold initial_tunnel_mtu.
  destruct (clamp_ok params (u16_saturating_sub route_mtu (wireguard_overhead params))) as (y & Ey & Hy).
  assert (∃ z, (match wireguard.mtu (wireguard.options params) with Some mtu => Some mtu
    | None => clamp_tunnel_mtu params (u16_saturating_sub route_mtu (wireguard_overhead params)) end) = Some z ∧
    (wireguard.mtu (wireguard.options params) = None → min_mtu params ≤ z ≤ max_mtu params)) as (z & -> & Hz).
  { destruct (wireguard.mtu _); [eexists; split; [done|]; congruence|eauto]. }
  destruct (from_parameters params z) as [c|e] eqn:Ec; [|by apply spec_ret].
  apply from_parameters_fields in Ec as [Hmtu Hobf].
  eapply spec_bind; [apply obfuscation_spec|..]; cbn beta iota.
  2: by intros ? ? (_ & _ & ?). 2: { intros tr (_ & _ & Ht). by rewrite <- Hobf. }
  intros [[c' o]|e] tr (_ & _ & Hc'); [|by apply spec_ret].
  assert (c_mtu c' = c_mtu c) as Hmtu' by (by destruct Hc' as [->|[ep ->]]).
  apply spec_silent; [apply put_silent|]. intros _.
  eapply spec_bind with (Q1 := λ r tr, ∃ c2, r = WOk c2 ∧ (wireguard.mtu (wireguard.options params) = None → min_mtu params ≤ c_mtu c2 ≤ max_mtu params)).
  - destruct (wireguard.mtu (wireguard.options params)) eqn:Em; [apply spec_ret; eexists; split; [done|congruence]|].
    destruct o as [overhead|]; [|apply spec_ret; eexists; split; [done|rewrite Hmtu', Hmtu; by cbn]].
    destruct (clamp_ok params (u16_saturating_sub (c_mtu c') overhead)) as (y2 & -> & Hy2). apply spec_ret. eexists. by split.
  - intros c2 tr2 (? & [= <-] & Hc2). cbv zeta. apply spec_silent; [apply open_tunnel_silent|].
    intros [name|e]; [|by apply spec_ret]. apply spec_silent; [apply query_silent|]. intros [[]|e]; by apply spec_ret.
  - intros e tr2 (? & ? & _). done.
  - intros tr2 (? & ? & _). done.
Qed.


(** as long as no QUIC obfuscator has a token that begins with "Bearer",
    neither starting a tunnel nor negotiating ephemeral peers panics: in
    particular DAITA settings are never missing when DAITA is started, because
    the exchange with the relay that is responsible for it (the entry of a
    multihop tunnel) has failed otherwise. *)
Theorem no_missing_daita params c n mtu (w : World K E) :
  (tokens_ok (wireguard.obfuscation params) = true → (start params w).1 ≠ WPanic) ∧
  (tokens_ok (c_obfuscator_config c) = true → (config_ephemeral_peers c n mtu w).1 ≠ WPanic).
Proof.
  destruct (start_spec params w) as (tr & _ & Hs). destruct (ephemeral_spec (K := K) c n mtu w) as (tr2 & _ & _ & He).
  split; intros Ht Hp; rewrite Hp in *; congruence.
Qed.
End Start.

(** ** The marks of sockets *)

(** Settings, and those of the transports of a multiplexer. *)
Fixpoint transport_settings (l : list Transport) : list Settings :=
  match l with
  | [] => []
  | Direct _ :: l => transport_settings l
  | Obfuscated s :: l => s :: transport_settings l
  end.
Definition all_settings (s : Settings) : list Settings :=
  s :: match s with SMultiplexer l _ => transport_settings l | _ => [] end.
Definition settings_mark (s : Settings) : option Z :=
  match s with
  | SUdp2Tcp s => udp2tcp.fwmark s
  | SShadowsocks s => shadowsocks.fwmark s
  | SQuic s => quic.fwmark s
  | SLwo s => lwo.fwmark s
  | SMultiplexer _ m => m
  end.

Section Marks.
Context {E : Type} `{TunnelEnv E}.

Lemma single_mark c o mtu mark s : settings_from_single_config (E := E) c o mtu mark = Some s → settings_mark s = mark.
Proof.
  destruct o; cbn; [by intros [= <-]..| |by intros [= <-]].
  destruct (quic.AuthToken_new _); [|done]. destruct mark; by intros [= <-].
Qed.

Lemma single_settings c o mtu mark s : settings_from_single_config (E := E) c o mtu mark = Some s → all_settings s = [s].
Proof.
  destruct o; cbn; [by intros [= <-]..| |by intros [= <-]].
  destruct (quic.AuthToken_new _); [|done]. destruct mark; by intros [= <-].
Qed.

Lemma transports_mark c os mtu mark l :
  obfuscated_transports (E := E) c os mtu mark = Some l → ∀ s, s ∈ transport_settings l → settings_mark s = mark.
Proof.
  revert l; induction os as [|o os IH]; intros l; cbn; [intros [= <-]; set_solver|].
  destruct (settings_from_single_config _ _ _ _) as [s|] eqn:Es; cbn; [|done].
  destruct (obfuscated_transports _ _ _ _) as [l'|] eqn:El; cbn; [|done]. intros [= <-] x. cbn.
  intros [->|Hx]%elem_of_cons; [by eapply single_mark|by eapply IH].
Qed.

Lemma config_mark c o mtu mark s :
  settings_from_config (E := E) c o mtu mark = Some s → ∀ s', s' ∈ all_settings s → settings_mark s' = mark.
Proof.
  destruct o as [o|direct first remaining]; cbn [settings_from_config].
  - intros Es s'. rewrite (single_settings _ _ _ _ _ Es). intros ->%list_elem_of_singleton. by eapply single_mark.
  - destruct (obfuscated_transports _ _ _ _) as [l|] eqn:El; cbn; [|done]. intros [= <-] s'.
    intros [->|Hs]%elem_of_cons; [done|]. destruct direct; cbn in Hs; by eapply transports_mark.
Qed.

Lemma remote_socket_mark b mark (o o' : E) r : create_remote_socket b mark o = (Ok r, o') → rs_mark r = mark.
Proof.
  unfold create_remote_socket, mbind, OM_bind, call. destruct (sk_bind _ o) as [[s|] o1]; cbn; [|done].
  destruct mark; [|by intros [= <- _]]. destruct (sk_set_mark _ _ o1) as [[]?]; cbn; [|done]. by intros [= <- _].
Qed.

Lemma create_marked s (o o' : E) ob :
  create_obfuscator s o = (Ok ob, o') → ∀ r, r ∈ ob_remote ob → rs_mark r = settings_mark s.
Proof.
  assert (∀ A B (c : OM (O := E) A) (f : A → OM B) x b x', OM_bind A B f c x = (Ok b, x') →
    ∃ a x1, c x = (Ok a, x1) ∧ f a x1 = (Ok b, x')) as Hbind.
  { intros A B c f x b x'. unfold OM_bind. destruct (c x) as [[a|] x1]; [by eauto|done]. }
  destruct s as [s|s|s|s|l mark]; cbn [create_obfuscator settings_mark].
  - intros (a & x1 & _ & [= <- _])%Hbind r ->%list_elem_of_singleton. done.
  - intros (a & x1 & _ & E1)%Hbind. apply Hbind in E1 as (b & x2 & E2 & [= <- _]). intros r ->%list_elem_of_singleton.
    by eapply remote_socket_mark.
  - intros (a & x1 & _ & E1)%Hbind. apply Hbind in E1 as (b & x2 & E2 & [= <- _]). intros r ->%list_elem_of_singleton.
    by eapply remote_socket_mark.
  - intros (a & x1 & E2 & E1)%Hbind. apply Hbind in E1 as (b & x2 & _ & [= <- _]). intros r ->%list_elem_of_singleton.
    by eapply remote_socket_mark.
  - intros (a & x1 & _ & E1)%Hbind. apply Hbind in E1 as (b & x2 & E2 & E1). apply Hbind in E1 as (d & x3 & E3 & [= <- _]).
    intros r [->|[->|[]%elem_of_nil]%elem_of_cons]%elem_of_cons; by eapply remote_socket_mark.
Qed.

(** traffic of an obfuscator never goes back into the tunnel: every socket
    towards a relay that the obfuscators of a configuration open, including
    those of the transports that a multiplexer starts later, carries the
    firewall mark of the configuration. *)
Theorem obfuscators_marked c o mtu s s' (e e' : E) ob :
  settings_from_config c o mtu (c_fwmark c) = Some s → s' ∈ all_settings s →
  create_obfuscator s' e = (Ok ob, e') → Forall (λ r, rs_mark r = c_fwmark c) (ob_remote ob).
Proof.
  intros Hs Hin Hc. apply Forall_forall. intros r Hr. rewrite (create_marked _ _ _ _ Hc r Hr).
  by eapply config_mark.
Qed.
End Marks.

(** ** The sizes that MTU detection tries *)

(** Every element is above the one before, by at most [step]. *)
Fixpoint spread (step x : Z) (l : list Z) : Prop :=
  match l with
  | [] => True
  | y :: l => x < y ≤ x + step ∧ spread step y l
  end.

Lemma step_by_spread fuel from below step prev :
  0 < step → prev < from ≤ prev + step → prev < below → below - from ≤ step * Z.of_nat fuel →
  spread step prev (mtu_detection.step_by fuel from below step ++ [below]).
Proof.
  intros Hs. revert from prev; induction fuel as [|fuel IH]; intros from prev Hf Hp Hb; cbn [mtu_detection.step_by].
  - cbn. lia.
  - destruct (Z.ltb_spec from below); cbn [app spread].
    + split; [lia|]. apply IH; lia.
    + lia.
Qed.

Lemma spread_lookup step x l i a b :
  spread step x l → (x :: l) !! i = Some a → (x :: l) !! S i = Some b → a < b ≤ a + step.
Proof.
  revert x i; induction l as [|y l IH]; intros x i Hl; [by destruct i|]. destruct Hl as [Hxy Hl].
  destruct i as [|i]; cbn; [intros [= <-] [= <-]; lia|]. apply (IH y i Hl).
Qed.

Lemma next_multiple_bounds a b : 0 < b → a ≤ mtu_detection.next_multiple_of a b < a + b.
Proof.
  intros Hb. unfold mtu_detection.next_multiple_of. pose proof (Z.mod_pos_bound a b Hb).
  destruct (Z.eqb_spec (a mod b) 0); lia.
Qed.

(** the sizes that MTU detection pings with begin with the minimum and end
    with the current MTU, and rise strictly by at most the step in between: so
    the size that is found is within one step of the largest that passes. *)
Theorem mtu_spacing_spread mtu_min mtu_max step :
  0 ≤ mtu_min < mtu_max → mtu_max < 2 ^ 16 → 0 < step < mtu_max → mtu_min + step < 2 ^ 16 →
  ∃ l, mtu_detection.mtu_spacing mtu_min mtu_max step = Some l ∧ head l = Some mtu_min ∧ last l = Some mtu_max ∧
    ∀ i a b, l !! i = Some a → l !! S i = Some b → a < b ≤ a + step.
Proof.
  intros Hm Hx Hs Ho. unfold mtu_detection.mtu_spacing.
  rewrite (proj2 (Z.ltb_lt mtu_min mtu_max)), (proj2 (Z.ltb_lt step mtu_max)), (proj2 (Z.eqb_neq step 0)) by lia. cbn [andb negb].
  pose proof (next_multiple_bounds (mtu_min + 1) step ltac:(lia)) as Hn. unfold wrap. rewrite Z.mod_small by lia.
  eexists. split; [done|]. split; [done|]. split; [by rewrite app_assoc, last_snoc|].
  intros i a b. apply spread_lookup. apply step_by_spread; [lia..|]. rewrite Z2Nat.id by lia. nia.
Qed.
