(* ===== verification/WireguardRouting.v ===== *)
(** * Where packets go once a tunnel is up

    The WireGuard task, the route manager and the kernel's routing policy
    together: from the moment the tunnel is reported as up, packets without the
    firewall mark leave through the tunnel's interface. *)

From S2P Require Import Prelude NetTypes TunnelTypes TunnelThread Routing RoutingTheorems.
From S2P Require Import WireguardConfig Obfuscation EphemeralPeers WireguardMonitor WireguardTheorems.

(** ** Lookups *)

Section Lookup.
Context `{IpNetworkCrate}.

Lemma longest_in l t dst e : longest l t dst = Some e → e ∈ l ∧ entry_table e = t.
Proof.
  induction l as [|x l IH]; cbn; [done|]. destruct (_ && _) eqn:E.
  - apply andb_true_iff in E as [E%Z.eqb_eq _]. destruct (longest l t dst) as [y|] eqn:El.
    + destruct (_ <? _); intros [= <-]; [destruct (IH eq_refl)|]; set_solver.
    + intros [= <-]. set_solver.
  - intros He%IH. set_solver.
Qed.

Lemma longest_some l t dst e :
  e ∈ l → entry_table e = t → net_contains (ra_destination e) dst = true → is_Some (longest l t dst).
Proof.
  intros Hin Ht Hc. induction l as [|x l IH]; [set_solver|]. cbn.
  apply elem_of_cons in Hin as [->|Hin].
  - rewrite Ht, Z.eqb_refl, Hc. cbn. destruct (longest l t dst); [destruct (_ <? _)|]; eauto.
  - destruct (IH Hin) as [y ->]. destruct (_ && _); [destruct (_ <? _)|]; eauto.
Qed.

(** A default network contains every address of its family. *)
Definition default_net (n : IpNetwork) (dst : IpAddr) : bool :=
  match n, dst with
  | NetV4 _ p, AddrV4 _ => p =? 0
  | NetV6 _ p, AddrV6 _ => p =? 0
  | _, _ => false
  end.
Lemma default_net_contains n dst : default_net n dst = true → net_contains n dst = true.
Proof.
  rewrite net_contains_spec. destruct n, dst; cbn; try done; intros ->%Z.eqb_eq.
  - rewrite ipv4_mask_spec by lia. change (2 ^ 32 - 2 ^ (32 - 0)) with 0. by rewrite !Z.land_0_r.
  - rewrite ipv6_mask_spec by lia. change (2 ^ 128 - 2 ^ (128 - 0)) with 0. by rewrite !Z.land_0_r.
Qed.
End Lookup.

(** ** The route manager adds what it is asked to *)

Section Adding.
Context {K : Type} `{Rtnetlink K} `{NetlinkPacket} `{HashOrder} `{IpNetworkCrate} `{!LinuxRouting K}.

(** The fields of a manager that adding routes does not change. *)
Definition same_manager (m m' : RouteManagerImpl) : Prop :=
  iface_map m' = iface_map m ∧ table_id m' = table_id m ∧ fwmark m' = fwmark m.

Lemma same_add_message m m' r : same_manager m m' → add_message m' r = add_message m r.
Proof. intros (E & _). by apply add_message_ext. Qed.

Lemma add_routes_loop l m k m' k' :
  for_each (K := K) add_route l (m, k) = (ROk tt, (m', k')) →
  same_manager m m' ∧ (∀ f, rules_of f k' = rules_of f k) ∧
  (∀ e, e ∈ fib k' → e ∈ fib k ∨ ∃ r, r ∈ l ∧ e = add_message m r) ∧
  (∀ e, e ∈ fib k → ∃ e', e' ∈ fib k' ∧ route_key e' = route_key e) ∧
  ∀ r, r ∈ l → ∃ e, e ∈ fib k' ∧ route_key e = route_key (add_message m r).
Proof.
  revert m k; induction l as [|r l IH]; intros m k; cbn [for_each].
  { intros [= <- <-]. split_and!; [done..|eauto|eauto|set_solver]. }
  intros ([] & [m1 k1] & E1 & E2)%RM_bind_ok. rewrite add_route_run in E1.
  destruct (nl_route_add _ k) as [[] k2] eqn:Ea; [|done]. injection E1 as <- <-.
  apply route_add_spec in Ea as [Hr Hf]. apply IH in E2 as (Hm & Hr2 & Hf2 & Hk2 & Hin2). clear IH.
  assert (∀ x, add_message (with_added (set_insert r (added_routes m)) m) x = add_message m x) as Hx by done.
  split_and!; [exact Hm|intros f; by rewrite Hr2, Hr|..].
  - intros e [He|(x & Hxl & ->)]%Hf2; [apply Hf in He as [->|[He _]]|]; [right; exists r; set_solver|by left|].
    right. exists x. rewrite Hx. set_solver.
  - intros e He. destruct (decide (route_key e = route_key (add_message m r))) as [Ek|Ek].
    + rewrite Ek. apply Hk2, Hf. by left.
    + apply Hk2, Hf. by right.
  - intros x [->|Hxl]%elem_of_cons; [apply Hk2, Hf; by left|]. apply Hin2 in Hxl. by rewrite Hx in Hxl.
Qed.

Lemma elem_of_required_in t rs l x :
  x ∈ l ∨ x ∈ (normal_route t <$> rs) → x ∈ fold_left (λ set route, set_insert (normal_route t route) set) rs l.
Proof.
  revert l; induction rs as [|r rs IH]; intros l; cbn; [set_solver|].
  rewrite elem_of_cons. intros Hx. apply IH. rewrite elem_of_set_insert. intuition.
Qed.

Lemma add_required_ok rs m k m' k' :
  add_required_routes (K := K) rs (m, k) = (ROk tt, (m', k')) →
  same_manager m m' ∧ (∀ f, rules_of f k' = rules_of f k) ∧
  (∀ e, e ∈ fib k' → e ∈ fib k ∨ ∃ r, r ∈ rs ∧ e = add_message m (normal_route (table_id m) r)) ∧
  ∀ r, r ∈ rs → ∃ e, e ∈ fib k' ∧ route_key e = route_key (add_message m (normal_route (table_id m) r)).
Proof.
  unfold add_required_routes, get_manager, mbind, RM_bind. cbn [fst].
  intros (Hm & Hr & Hf & _ & Hin)%add_routes_loop. split_and!; [done..| |].
  - intros e [He|(x & Hx & ->)]%Hf; [by left|right]. rewrite iter_order_perm in Hx.
    apply elem_of_required in Hx as [Hx|(r & -> & Hr')%list_elem_of_fmap]; [set_solver|]. eauto.
  - intros r Hr'. apply Hin. rewrite iter_order_perm. apply elem_of_required_in. right. by apply list_elem_of_fmap_2.
Qed.

(** The handle. *)
Lemma handle_done c (m : RM K unit) (s s' : Manager (K := K)) :
  (∀ m0, process_command c m0 = (r ← result_of m; mret (Done r)) m0) →
  match send_command c s with
  | (Ok (Done r), s') => (platform r, s')
  | (Ok _, s') => (Err routing.ManagerChannelDown, s')
  | (Err e, s') => (Err e, s')
  end = (Ok tt, s') →
  ∃ m0 k m1 k1, s = (Some m0, k) ∧ s' = (Some m1, k1) ∧ m (m0, k) = (ROk tt, (m1, k1)).
Proof.
  intros Hc. unfold send_command. destruct s as [[m0|] k]; [|done]. rewrite Hc. unfold mbind, RM_bind, result_of.
  destruct (m (m0, k)) as [[[]|e|] [m1 k1]] eqn:E; cbn; intros [= <-]. eexists _, _, _, _. by split_and!.
Qed.

Lemma handle_add_routes_ok rs (s s' : Manager (K := K)) :
  handle_add_routes rs s = (Ok tt, s') →
  ∃ m k m' k', s = (Some m, k) ∧ s' = (Some m', k') ∧ add_required_routes rs (m, k) = (ROk tt, (m', k')).
Proof. by apply handle_done. Qed.
Lemma handle_create_rules_ok b (s s' : Manager (K := K)) :
  handle_create_routing_rules b s = (Ok tt, s') →
  ∃ m k m' k', s = (Some m, k) ∧ s' = (Some m', k') ∧ create_routing_rules b (m, k) = (ROk tt, (m', k')).
Proof. by apply handle_done. Qed.
(** Rules created over those that every system has. *)
Definition rules_created (m : RouteManagerImpl) (f : AddressFamily) (p0 : Z) (first : RuleMessage)
    (rest : list (Z * RuleMessage)) (k : K) : Prop :=
  ∃ p q s n, dumped (mark_rule (fwmark m) (table_id m) f) n ∧ dumped (main_rule f) s ∧
    rules_of f k = (p0, first) :: (p, s) :: (q, n) :: clear_list (fwmark m) (table_id m) f rest.
Lemma create_rules_run b m k s' dst p0 first rest :
  rules_of (family_of dst) k = (p0, first) :: rest →
  rules_ok (fwmark m) (table_id m) (family_of dst) ((p0, first) :: rest) →
  bool_decide (family_of dst = Inet) || b = true →
  handle_create_routing_rules b (Some m, k) = (Ok tt, s') →
  ∃ k', s' = (Some m, k') ∧ fib k' = fib k ∧ rules_created m (family_of dst) p0 first rest k'.
Proof.
  intros Hru Hok Hfam (m0 & k0 & m1 & k1 & [= <- <-] & -> & Ec)%handle_create_rules_ok. exists k1.
  assert (fib k1 = fib k) as Hf.
  { assert (preserves (λ s, fib s.2 = fib k) (create_routing_rules b)) as Hp.
    { apply rules_frame_create. cbn. intros _ k2 k3 -> ->. done. }
    destruct (Hp (m, k) eq_refl) as [_ Hf]. by rewrite Ec in Hf. }
  apply create_rules_ok in Ec as (-> & Hc). specialize (Hc (family_of dst) ltac:(destruct dst; auto)). cbn in Hc.
  rewrite Hfam, Hru in Hc. destruct Hc as (n & s & Hn & Hs & Hrules).
  destruct (created_list _ _ _ _ _ _ n s Hok) as (p & q & Ecl). rewrite Ecl in Hrules.
  split_and!; [done|done|by exists p, q, s, n].
Qed.

(** With these rules, a table that leads to one interface, and a default route
    in it, where a packet goes. *)
Lemma routed_to_tunnel m k' dst idx p0 first rest e :
  rules_created m (family_of dst) p0 first rest k' →
  (∀ e, e ∈ fib k' → entry_table e = table_id m → ra_output_interface e = Some idx) →
  e ∈ fib k' → entry_table e = table_id m → default_net (ra_destination e) dst = true →
  ∀ mk, verdict (fib k') mk dst first = Next →
    lookup_verdict (Some 0) (longest (fib k') RT_TABLE_MAIN dst) = Next →
    if mk =? fwmark m
    then route_of k' mk dst = walk (verdict (fib k') mk dst) (clear_list (fwmark m) (table_id m) (family_of dst) rest)
    else ∃ e, route_of k' mk dst = Some e ∧ ra_output_interface e = Some idx.
Proof.
  intros (p & q & s & r & Hd & Hs & Hrules) Hif He Ht Hdst mk Hfirst Hmain. unfold route_of. rewrite Hrules.
  rewrite (walk_created _ (fwmark m) (table_id m) (family_of dst)) by done. unfold policy. rewrite Hfirst, Hmain.
  destruct (mk =? fwmark m); [done|].
  destruct (longest_some (fib k') (table_id m) dst e He Ht) as [x Hx]; [by apply default_net_contains|].
  rewrite Hx. exists x. split; [done|]. apply longest_in in Hx as [Hin Htx]. by apply Hif.
Qed.
End Adding.

(** ** The task and the route manager *)

Definition is_up (a : Action) : bool := match a with AEvent (EvUp _) => true | _ => false end.

Section Triples.
Context {K E : Type}.
#[local] Notation W := (WM K E).

(** The tunnel has not been reported as up, and the state of the route manager
    satisfies [P]; or whatever the state is, in [R], once it has been. *)
Definition pending (P : option RouteManagerImpl * K → Prop) (w : World K E) : Prop :=
  existsb is_up (w_trace w) = false ∧ P (w_routes w).
Definition after {A} (P R : option RouteManagerImpl * K → Prop) (c : W A) : Prop :=
  ∀ w, pending P w → existsb is_up (w_trace (c w).2) = true → R (w_routes (c w).2).
Definition pass {A} (P : option RouteManagerImpl * K → Prop) (c : W A) (Q : option RouteManagerImpl * K → Prop) : Prop :=
  ∀ w, pending P w → existsb is_up (w_trace (c w).2) = false ∧ ∀ a, (c w).1 = WOk a → Q (w_routes (c w).2).

Lemma after_bind {A B} (c : W A) (f : A → W B) P Q R :
  pass P c Q → (∀ a, after Q R (f a)) → after P R (c ≫= f).
Proof.
  intros Hc Hf w Hw. destruct (Hc w Hw) as [Hn Hq]. unfold mbind, WM_bind.
  destruct (c w) as [[a|e|] w1]; cbn in *; [|congruence..]. apply Hf. split; [done|]. by apply (Hq a).
Qed.
(** The same with something known of the result. *)
Lemma after_bind_val {A B} (c : W A) (f : A → W B) (V : A → Prop) P Q R :
  pass P c Q → (∀ w a, (c w).1 = WOk a → V a) → (∀ a, V a → after Q R (f a)) → after P R (c ≫= f).
Proof.
  intros Hc Hv Hf w Hw. destruct (Hc w Hw) as [Hn Hq]. specialize (Hv w). unfold mbind, WM_bind.
  destruct (c w) as [[a|e|] w1]; cbn in *; [|congruence..]. apply Hf; [by apply Hv|]. split; [done|]. by apply (Hq a).
Qed.
Lemma pass_bind {A B} (c : W A) (f : A → W B) P Q R :
  pass P c Q → (∀ a, pass Q (f a) R) → pass P (c ≫= f) R.
Proof.
  intros Hc Hf w Hw. destruct (Hc w Hw) as [Hn Hq]. unfold mbind, WM_bind.
  destruct (c w) as [[a|e|] w1]; cbn in *; [|done..]. apply Hf. split; [done|]. by apply (Hq a).
Qed.
Lemma after_pass {A} (c : W A) P Q R : pass P c Q → after P R c.
Proof. intros Hc w Hw Hu. destruct (Hc w Hw) as [Hn _]. congruence. Qed.

Lemma pass_ret {A} (a : A) P : pass P (mret a) P.
Proof. by intros w [Hn Hp]. Qed.
Lemma pass_throw {A} e P Q : pass P (wthrow e : W A) Q.
Proof. by intros w [Hn Hp]. Qed.
Lemma pass_panic {A} P Q : pass P (wpanic : W A) Q.
Proof. by intros w [Hn Hp]. Qed.
Lemma pass_query {A} (f : E → A * E) P : pass P (query f) P.
Proof. intros w [Hn Hp]. unfold query. by destruct (f (w_env w)). Qed.
Lemma pass_get P : pass P get_obfuscator P.
Proof. by intros w [Hn Hp]. Qed.
Lemma pass_put o P : pass P (put_obfuscator o) P.
Proof. by intros w [Hn Hp]. Qed.
Lemma pass_act a P : is_up a = false → pass P (act a) P.
Proof. intros Ha w [Hn Hp]. cbn. rewrite existsb_app, Hn. cbn. by rewrite Ha. Qed.
Lemma pass_unwrap {A X} (f : X → wg.CloseMsg) (r : result X A) P : pass P (unwrap f r : W A) P.
Proof. destruct r; [apply pass_ret|apply pass_throw]. Qed.
End Triples.

Create HintDb pass discriminated.
#[export] Hint Resolve pass_ret pass_throw pass_panic pass_query pass_get pass_put pass_unwrap : pass.
#[export] Hint Extern 1 (pass _ (act _) _) => apply pass_act; reflexivity : pass.
#[export] Hint Extern 1 (pass _ (on_event _) _) => apply pass_act; reflexivity : pass.

(** Steps of the task that leave the route manager alone. *)
Ltac passing :=
  repeat first
    [ progress (auto with pass nocore)
    | eapply pass_bind; [|intros ?]
    | match goal with |- context [match ?x with _ => _ end] => destruct x end ].

Section Up.
Context {K E : Type} `{Rtnetlink K} `{NetlinkPacket} `{HashOrder} `{IpNetworkCrate} `{!LinuxRouting K} `{TunnelEnv E}.
#[local] Notation W := (WM K E).

Lemma pass_obfuscation c mtu P : pass (K := K) P (apply_obfuscation_config c mtu) P.
Proof. unfold apply_obfuscation_config. passing. Qed.

Lemma pass_request n c key pq d P : pass (K := K) P (request_ephemeral_peer n c key pq d) P.
Proof. unfold request_ephemeral_peer, client_request. passing. Qed.

Lemma pass_reconfigure c mtu P : pass (K := K) P (reconfigure_tunnel c mtu) P.
Proof.
  unfold reconfigure_tunnel. eapply pass_bind; [apply pass_get|intros [h|]].
  - eapply pass_bind; [|intros ?; passing].
    eapply pass_bind; [apply pass_put|intros _]. eapply pass_bind; [apply pass_obfuscation|intros ?]. passing.
  - passing.
Qed.

Lemma pass_ephemeral c n mtu P : pass (K := K) P (config_ephemeral_peers c n mtu) P.
Proof.
  unfold config_ephemeral_peers. eapply pass_bind; [apply pass_query|intros key].
  eapply pass_bind; [apply pass_request|intros exit]. eapply pass_bind; [|intros [c2 d]].
  - destruct (is_multihop c); [|apply pass_ret]. eapply pass_bind; [apply pass_reconfigure|intros entry].
    eapply pass_bind; [apply pass_request|intros peer]. apply pass_ret.
  - eapply pass_bind; [apply pass_reconfigure|intros c3]. passing.
Qed.

(** *** The states of the route manager *)

Context (m : RouteManagerImpl) (k : K) (st : Started) (dst : IpAddr) (idx : Z).
Context (p0 : Z) (first : RuleMessage) (rest : list (Z * RuleMessage)) (n0 : IpNetwork).

(** What a system looks like before: rules of the family as every system has
    them, a table for the tunnel alone, the tunnel's interface known to the
    manager, and the family in use, with a default destination. *)
Record ready : Prop := {
  rd_rules : rules_of (family_of dst) k = (p0, first) :: rest;
  rd_rules_ok : rules_ok (fwmark m) (table_id m) (family_of dst) ((p0, first) :: rest);
  rd_table : 255 < table_id m;
  rd_empty e : e ∈ fib k → entry_table e ≠ table_id m;
  rd_iface : node_iface m (Node_device (st_iface_name st)) = Some idx;
  rd_family : bool_decide (family_of dst = Inet) || c_enable_ipv6 (st_config st) = true;
  rd_default : n0 ∈ get_tunnel_destinations (st_config st) ∧ default_net n0 dst = true
}.

Definition rest_rules : list (Z * RuleMessage) := clear_list (fwmark m) (table_id m) (family_of dst) rest.
Definition rules_set (k' : K) : Prop := rules_created m (family_of dst) p0 first rest k'.

Definition at_start (s : option RouteManagerImpl * K) : Prop := s = (Some m, k).
(** Rules are set, and nothing is in the tunnel's table. *)
Definition with_rules (s : option RouteManagerImpl * K) : Prop :=
  ∃ m' k', s = (Some m', k') ∧ same_manager m m' ∧ rules_set k' ∧ ∀ e, e ∈ fib k' → entry_table e ≠ table_id m.
(** What is in the tunnel's table leads to the interface, and there is a
    default route. *)
Definition with_default (s : option RouteManagerImpl * K) : Prop :=
  ∃ m' k', s = (Some m', k') ∧ same_manager m m' ∧ rules_set k' ∧
    (∀ e, e ∈ fib k' → entry_table e = table_id m → ra_output_interface e = Some idx) ∧
    ∃ e, e ∈ fib k' ∧ entry_table e = table_id m ∧ ra_destination e = n0.

Lemma create_step b s s' :
  ready → b = c_enable_ipv6 (st_config st) → at_start s → handle_create_routing_rules b s = (Ok tt, s') → with_rules s'.
Proof.
  intros Hr -> -> Hc. destruct (create_rules_run _ _ _ _ dst p0 first rest (rd_rules Hr) (rd_rules_ok Hr) (rd_family Hr) Hc)
    as (k1 & -> & Hf & Hrs). exists m, k1. split_and!; [done|done|done|]. rewrite Hf. apply Hr.
Qed.

Lemma main_route_table m' r : same_manager m m' → 255 < table_id m → rr_main_table r = true →
  entry_table (add_message m' (normal_route (table_id m') r)) ≠ table_id m.
Proof.
  intros (_ & Ht & _) Hm Hr. unfold normal_route. rewrite Hr. destruct (rr_node r).
  change (entry_table _) with RT_TABLE_MAIN. unfold RT_TABLE_MAIN. lia.
Qed.

Lemma multihop_mtu_fields r c : rr_main_table (apply_route_mtu_for_multihop r c) = rr_main_table r ∧
  rr_node (apply_route_mtu_for_multihop r c) = rr_node r ∧ rr_prefix (apply_route_mtu_for_multihop r c) = rr_prefix r.
Proof. unfold apply_route_mtu_for_multihop. by destruct (negb _). Qed.

Lemma pre_routes_main c l r : r ∈ get_pre_tunnel_routes (st_iface_name st) c ++ get_endpoint_routes l → rr_main_table r = true.
Proof.
  unfold get_endpoint_routes. rewrite app_nil_r. unfold get_pre_tunnel_routes.
  intros [Hr|Hr]%elem_of_app; apply list_elem_of_fmap in Hr as (x & -> & Hx); [|done].
  rewrite (proj1 (multihop_mtu_fields x c)). destruct (c_ipv6_gateway c); set_solver.
Qed.

Lemma pre_step c l s s' :
  ready → with_rules s → handle_add_routes (get_pre_tunnel_routes (st_iface_name st) c ++ get_endpoint_routes l) s = (Ok tt, s') →
  with_rules s'.
Proof.
  intros Hr (m1 & k1 & -> & Hm & (p & q & r & n & Hn & Hs & Hrules) & He).
  intros (m2 & k2 & m3 & k3 & [= <- <-] & -> & Ea)%handle_add_routes_ok.
  apply add_required_ok in Ea as (Hm3 & Hr3 & Hf3 & _). exists m3, k3. split_and!; [done| |by exists p, q, r, n; rewrite Hr3|].
  - destruct Hm as (?&?&?), Hm3 as (?&?&?). split_and!; congruence.
  - intros e [Hin|(x & Hx & ->)]%Hf3; [auto|]. apply main_route_table; [done|apply Hr|]. by eapply pre_routes_main.
Qed.

Lemma post_step c s s' :
  ready → same_shape (st_config st) c → with_rules s →
  handle_add_routes (get_post_tunnel_routes (st_iface_name st) c) s = (Ok tt, s') → with_default s'.
Proof.
  intros Hr Hsh (m1 & k1 & -> & Hm & (p & q & r & n & Hn & Hs & Hrules) & He).
  intros (m2 & k2 & m3 & k3 & [= <- <-] & -> & Ea)%handle_add_routes_ok.
  apply add_required_ok in Ea as (Hm3 & Hr3 & Hf3 & Hin3). exists m3, k3.
  pose proof Hm as (Hmi & Hmt & _).
  split_and!; [done| |by exists p, q, r, n; rewrite Hr3|..].
  - destruct Hm as (?&?&?), Hm3 as (?&?&?). split_and!; congruence.
  - intros e [Hin|(x & Hx & ->)]%Hf3 Ht; [by apply He in Hin|].
    apply list_elem_of_fmap in Hx as (y & -> & (z & -> & _)%list_elem_of_fmap).
    destruct (multihop_mtu_fields (use_main_table false (route_to (st_iface_name st) z)) c) as (_ & Hnode & _).
    unfold normal_route. rewrite Hnode. cbn [route_to use_main_table RequiredRoute_new rr_node].
    rewrite <- (rd_iface Hr). cbn. unfold find_iface_idx. by rewrite Hmi.
  - destruct (rd_default Hr) as [Hd Hdn]. rewrite <- (sh_destinations _ _ Hsh) in Hd.
    destruct (Hin3 (apply_route_mtu_for_multihop (use_main_table false (route_to (st_iface_name st) n0)) c)) as (e & He3 & Hk).
    { apply list_elem_of_fmap. exists (route_to (st_iface_name st) n0). split; [done|]. apply list_elem_of_fmap_2.
      apply list_elem_of_In, filter_In. rewrite <- list_elem_of_In. split; [done|].
      revert Hdn. unfold default_net, prefix_len. by destruct n0, dst. }
    exists e. split; [done|]. unfold route_key in Hk. injection Hk as Hk1 Hk2 _. rewrite Hk1, Hk2.
    destruct (multihop_mtu_fields (use_main_table false (route_to (st_iface_name st) n0)) c) as (Ht & Hnode & Hp).
    unfold normal_route. rewrite Ht, Hnode. cbn. rewrite Hp, Hmt. split; [|done].
    unfold entry_table, compat_table_id. cbn. pose proof (rd_table Hr). by rewrite (proj2 (Z.ltb_lt 255 (table_id m))) by lia.
Qed.

(** A call of the route manager that must succeed. *)
Lemma after_routes f P Q R (h : W Empty_set) :
  (∀ s s', P s → f s = (Ok tt, s') → Q s') → after Q R h →
  after P R (r ← with_routes f; _ ← setup_routing r; h).
Proof.
  intros Hf Hh w [Hn Hp]. unfold mbind, WM_bind, with_routes. specialize (Hf (w_routes w)).
  destruct (f (w_routes w)) as [[[]|e] s']; cbn; [|congruence]. apply Hh. split; [done|]. by apply Hf.
Qed.

Lemma fut_after n : ready → after at_start with_default (tunnel_fut (K := K) n st).
Proof.
  intros Hr. unfold tunnel_fut. cbv zeta.
  eapply after_bind; [by apply pass_act|intros _].
  apply (after_routes _ _ with_rules); [intros s s' Hs; by apply create_step|].
  eapply after_bind; [by apply pass_act|intros _].
  apply (after_routes _ _ with_rules); [intros s s' Hs; by apply pre_step|].
  eapply after_bind; [by apply pass_act|intros _].
  eapply after_bind_val with (V := same_shape (st_config st)).
  - destruct (_ || _); [|apply pass_ret]. eapply pass_bind; [apply pass_ephemeral|intros c]. passing.
  - intros w c. destruct (_ || _); [|by intros [= ->]].
    destruct (ephemeral_spec (st_config st) n (st_obfuscation_mtu st) w) as (tr & _ & Hc).
    unfold mbind, WM_bind. destruct (config_ephemeral_peers _ _ _ w) as [[c'|e|] w']; cbn in *; [|done..].
    intros [= <-]. apply Hc.
  - intros c Hsh. unfold establish_tunnel. eapply after_bind; [passing|intros _].
    eapply after_bind; [apply pass_query|intros [|]]; [|apply (after_pass _ _ with_rules), pass_panic].
    eapply after_bind; [apply pass_query|intros [[|]|e]]; [|apply (after_pass _ _ with_rules), pass_throw..].
    apply (after_routes _ _ with_default); [intros s s' Hs; by apply post_step|].
    eapply after_bind; [by apply pass_act|intros _].
    intros w [_ Hw]. unfold on_event, mbind, WM_bind, act, query. cbn.
    by destruct (env_monitor _).
Qed.

(** C16: from the moment a tunnel is reported as up, packets without the
    firewall mark go into it: unless the local table or a route of the main
    table other than a default route takes them, they are routed to the tunnel's
    interface, for every family that the tunnel's peers accept in full; and
    packets with the mark (those of the tunnel itself) see only the rules that
    were there before. *)
Theorem up_traffic_in_tunnel n (w : World K E) :
  ready → w_routes w = (Some m, k) → existsb is_up (w_trace w) = false →
  existsb is_up (w_trace (tunnel_fut n st w).2) = true →
  ∃ m' k', w_routes (tunnel_fut n st w).2 = (Some m', k') ∧
    ∀ mk, verdict (fib k') mk dst first = Next →
      lookup_verdict (Some 0) (longest (fib k') RT_TABLE_MAIN dst) = Next →
      if mk =? fwmark m
      then route_of k' mk dst = walk (verdict (fib k') mk dst) rest_rules
      else ∃ e, route_of k' mk dst = Some e ∧ ra_output_interface e = Some idx.
Proof.
  intros Hr Hw Hn Hu. destruct (fut_after n Hr w) as (m' & k' & -> & _ & Hrs & Hif & e & He & Ht & Hdst); [done..|].
  exists m', k'. split; [done|]. eapply routed_to_tunnel; [done..|]. rewrite Hdst. apply Hr.
Qed.
End Up.
