(* ===== verification/WireguardExample.v ===== *)
(** * A system under a WireGuard tunnel

    A kernel with rules, routes and links that satisfies what is assumed of
    Linux, and an environment for the tunnel: the interfaces of the route
    manager and of the tunnel hold of them, and the theorems apply. *)

From S2P Require Import Prelude NetTypes TunnelTypes TunnelThread Routing RoutingTheorems.
From S2P Require Import WireguardConfig Obfuscation EphemeralPeers WireguardMonitor WireguardTheorems.
From S2P Require Import WireguardRouting.

(** ** A kernel *)

Record Kernel : Set := {
  k_rules : list (Z * RuleMessage);
  k_routes : list RouteAdd;
  k_links : list LinkMessage
}.

Definition of_family (f : AddressFamily) (l : list (Z * RuleMessage)) : list (Z * RuleMessage) :=
  List.filter (λ e, bool_decide (ru_family e.2 = f)) l.
Definition not_family (f : AddressFamily) (l : list (Z * RuleMessage)) : list (Z * RuleMessage) :=
  List.filter (λ e, negb (bool_decide (ru_family e.2 = f))) l.

(** One route for each key. *)
Fixpoint keyed (l : list RouteAdd) : list RouteAdd :=
  match l with
  | [] => []
  | e :: l => e :: filter (λ x, route_key x ≠ route_key e) (keyed l)
  end.

(** A rule as it is reported: with the protocol that installed it. *)
Definition report (r : RuleMessage) : RuleMessage :=
  {| ru_family := ru_family r; ru_action := ru_action r; ru_flags := ru_flags r;
     ru_attributes := ru_attributes r ++ [OtherRuleAttribute 21 [0]] |}.

Definition k_request (req : RuleRequest) (k : Kernel) : result RtError (list Payload) * Kernel :=
  match req with
  | GetRule => (Ok (map (λ e, NewRuleMsg e.2) (k_rules k)), k)
  | NewRule r =>
      let l := of_family (ru_family r) (k_rules k) in
      (Ok [], {| k_rules := insert_pref (default_pref l) (report r) l ++ not_family (ru_family r) (k_rules k);
                 k_routes := k_routes k; k_links := k_links k |})
  | DelRule r =>
      let l := of_family (ru_family r) (k_rules k) in
      (Ok (if bool_decide (r ∈ l.*2) then [] else [ErrorMsg (-2)]),
       {| k_rules := remove_rule r l ++ not_family (ru_family r) (k_rules k);
          k_routes := k_routes k; k_links := k_links k |})
  end.
Definition with_fib (l : list RouteAdd) (k : Kernel) : Kernel :=
  {| k_rules := k_rules k; k_routes := l; k_links := k_links k |}.
Definition k_fib (k : Kernel) : list RouteAdd := keyed (k_routes k).
Definition k_route_add (a : RouteAdd) (k : Kernel) : result RtError unit * Kernel := (Ok tt, with_fib (a :: k_fib k) k).
Definition k_route_del (d : RouteDel) (k : Kernel) : result RtError unit * Kernel :=
  match List.find (del_matches d) (k_fib k) with
  | Some e => (Ok tt, with_fib (filter (λ x, x ≠ e) (k_fib k)) k)
  | None => (Err (NetlinkError (- ESRCH)), k)
  end.

#[export] Instance kernel_netlink : Rtnetlink Kernel := {|
  nl_connect k := (Ok tt, k);
  nl_bind k := (Ok tt, k);
  nl_request := k_request;
  nl_route_add := k_route_add;
  nl_route_del := k_route_del;
  nl_route_get dst m k := (Err (NetlinkError (- ENETUNREACH)), k);
  nl_links k := (map Ok (k_links k), k)
|}.

Fixpoint first_mark (l : list RuleAttribute) : option Z :=
  match l with [] => None | FwMark m :: _ => Some m | _ :: l => first_mark l end.
Fixpoint first_suppress (l : list RuleAttribute) : option Z :=
  match l with
  | [] => None
  | SuppressPrefixLen n :: l => if n =? NO_SUPPRESS then first_suppress l else Some n
  | _ :: l => first_suppress l
  end.
Definition k_verdict (l : list RouteAdd) (m : Z) (dst : IpAddr) (r : RuleMessage) : Verdict :=
  match ru_action r, table_of (ru_attributes r) with
  | ToTable, Some t =>
      let marked := match first_mark (ru_attributes r) with Some x => m =? x | None => true end in
      if xorb marked (Z.testbit (ru_flags r) 1) then lookup_verdict (first_suppress (ru_attributes r)) (longest l t dst)
      else Next
  | ToTable, None => Next
  | OtherAction _, _ => Refuse
  end.

(** *** It behaves as Linux does *)

Lemma filter_all {A} (P : A → bool) l : (∀ x, x ∈ l → P x = true) → List.filter P l = l.
Proof. induction l as [|x l IH]; cbn; intros Hl; [done|]. rewrite (Hl x) by set_solver. f_equal. apply IH. set_solver. Qed.
Lemma filter_nothing {A} (P : A → bool) l : (∀ x, x ∈ l → P x = false) → List.filter P l = [].
Proof. induction l as [|x l IH]; cbn; intros Hl; [done|]. rewrite (Hl x) by set_solver. apply IH. set_solver. Qed.

Lemma of_family_elem f l e : e ∈ of_family f l → ru_family e.2 = f.
Proof. unfold of_family. rewrite list_elem_of_In, filter_In. intros [_ Hf]. by apply bool_decide_eq_true in Hf. Qed.
Lemma not_family_other f g l : f ≠ g → of_family f (not_family g l) = of_family f l.
Proof.
  intros Hfg. unfold of_family, not_family. induction l as [|e l IH]; cbn; [done|].
  destruct (bool_decide (ru_family e.2 = g)) eqn:Eg; cbn; rewrite IH; [|done].
  apply bool_decide_eq_true in Eg. rewrite bool_decide_false; [done|]. congruence.
Qed.
Lemma not_family_same f l : of_family f (not_family f l) = [].
Proof.
  apply filter_nothing. intros e. unfold not_family. rewrite list_elem_of_In, filter_In. intros [_ Hf].
  by apply negb_true_iff in Hf.
Qed.

(** Replacing the rules of one family. *)
Lemma replace_family f l l' :
  (∀ e, e ∈ l' → ru_family e.2 = f) →
  of_family f (l' ++ not_family f l) = l' ∧ ∀ g, g ≠ f → of_family g (l' ++ not_family f l) = of_family g l.
Proof.
  intros Hl. unfold of_family at 1 2. rewrite List.filter_app. split.
  - fold (of_family f (not_family f l)). rewrite not_family_same, app_nil_r. apply filter_all.
    intros e He. apply bool_decide_eq_true. by apply Hl.
  - intros g Hg. rewrite List.filter_app. fold (of_family g (not_family f l)). rewrite not_family_other by done.
    rewrite filter_nothing; [done|]. intros e He. apply bool_decide_eq_false. rewrite (Hl e He). done.
Qed.

Lemma insert_pref_elem p r l e : e ∈ insert_pref p r l → e = (p, r) ∨ e ∈ l.
Proof.
  induction l as [|[q x] l IH]; cbn; [set_solver|]. destruct (p <? q); [set_solver|].
  intros [->|He]%elem_of_cons; [set_solver|]. apply IH in He. set_solver.
Qed.
Lemma remove_rule_elem r l e : e ∈ remove_rule r l → e ∈ l.
Proof. intros He. eapply elem_of_submseteq; [exact He|]. apply sublist_submseteq, remove_rule_sub. Qed.
Lemma remove_rule_absent r l : r ∉ l.*2 → remove_rule r l = l.
Proof.
  induction l as [|[p x] l IH]; cbn; [done|]. intros Hn. rewrite bool_decide_false by set_solver. f_equal. apply IH. set_solver.
Qed.

Lemma collect_dump (l : list (Z * RuleMessage)) acc :
  collect_rules (map (λ e, NewRuleMsg e.2) l) acc = Ok (acc ++ l.*2).
Proof. revert acc; induction l as [|e l IH]; intros acc; cbn; [by rewrite app_nil_r|]. rewrite IH, <- app_assoc. done. Qed.
Lemma dump_family f (l : list (Z * RuleMessage)) :
  List.filter (λ r, bool_decide (ru_family r = f)) l.*2 = (of_family f l).*2.
Proof. unfold of_family. induction l as [|e l IH]; cbn; [done|]. destruct (bool_decide _); cbn; by rewrite IH. Qed.

Lemma report_dumped r : dumped r (report r).
Proof. constructor; try done; intros; cbn; rewrite elem_of_app, list_elem_of_singleton; naive_solver. Qed.

Lemma first_mark_spec l x : (∀ y, FwMark y ∈ l ↔ FwMark y = FwMark x) → first_mark l = Some x.
Proof.
  intros Hl. assert (FwMark x ∈ l) as Hx by by apply Hl. assert (∀ y, FwMark y ∈ l → y = x) as Hy by (intros y ?%Hl; congruence).
  clear Hl. induction l as [|a l IH]; [set_solver|]. destruct a; cbn; try (apply IH; set_solver).
  f_equal. apply Hy. set_solver.
Qed.
Lemma first_mark_none l : (∀ y, FwMark y ∉ l) → first_mark l = None.
Proof. induction l as [|[] l IH]; cbn; intros Hl; try (apply IH; set_solver); [done|]. destruct (Hl mark). set_solver. Qed.
Lemma table_of_spec l x : (∀ y, RuleTable y ∈ l ↔ RuleTable y = RuleTable x) → table_of l = Some x.
Proof.
  intros Hl. assert (RuleTable x ∈ l) as Hx by by apply Hl. assert (∀ y, RuleTable y ∈ l → y = x) as Hy by (intros y ?%Hl; congruence).
  clear Hl. induction l as [|a l IH]; [set_solver|]. destruct a; cbn; try (apply IH; set_solver).
  f_equal. apply Hy. set_solver.
Qed.
Lemma first_suppress_none l : (∀ y, y ≠ NO_SUPPRESS → SuppressPrefixLen y ∉ l) → first_suppress l = None.
Proof.
  induction l as [|[] l IH]; cbn; intros Hl; try (apply IH; set_solver); [done|].
  destruct (Z.eqb_spec len NO_SUPPRESS); [apply IH; set_solver|]. destruct (Hl len); set_solver.
Qed.
Lemma first_suppress_spec l x :
  x ≠ NO_SUPPRESS → (∀ y, y ≠ NO_SUPPRESS → SuppressPrefixLen y ∈ l ↔ y = x) → first_suppress l = Some x.
Proof.
  intros Hne Hl. assert (SuppressPrefixLen x ∈ l) as Hx by by apply Hl.
  assert (∀ y, y ≠ NO_SUPPRESS → SuppressPrefixLen y ∈ l → y = x) as Hy by (intros y Hy ?; by apply Hl).
  clear Hl. induction l as [|a l IH]; [set_solver|]. destruct a; cbn; try (apply IH; set_solver).
  destruct (Z.eqb_spec len NO_SUPPRESS) as [->|Hn].
  - apply IH; [|set_solver]. apply elem_of_cons in Hx as [[= Hx]|]; congruence.
  - f_equal. apply Hy; set_solver.
Qed.

Lemma k_verdict_mark l m dst r' f mark t :
  dumped (with_family f (no_fwmark_rule_v4 mark t)) r' →
  k_verdict l m dst r' = if m =? mark then Next else lookup_verdict None (longest l t dst).
Proof.
  intros [_ Ha Hg Hm Ht Hs]. unfold k_verdict. rewrite Ha, Hg. cbn in *.
  rewrite (table_of_spec _ t), (first_mark_spec _ mark), first_suppress_none.
  - by destruct (m =? mark).
  - intros y Hy. rewrite Hs by done. set_solver.
  - intros y. rewrite Hm. set_solver.
  - intros y. rewrite Ht. set_solver.
Qed.
Lemma k_verdict_suppress l m dst r' f :
  dumped (with_family f SUPPRESS_RULE_V4) r' →
  k_verdict l m dst r' = lookup_verdict (Some 0) (longest l RT_TABLE_MAIN dst).
Proof.
  intros [_ Ha Hg Hm Ht Hs]. unfold k_verdict. rewrite Ha, Hg. cbn in *.
  rewrite (table_of_spec _ RT_TABLE_MAIN), first_mark_none, (first_suppress_spec _ 0); [done|done|..].
  - intros y Hy. rewrite Hs by done. set_solver.
  - intros y. rewrite Hm. set_solver.
  - intros y. rewrite Ht. set_solver.
Qed.

Lemma filter_nodup (P : RouteAdd → Prop) `{∀ x, Decision (P x)} l : NoDup (route_key <$> l) → NoDup (route_key <$> filter P l).
Proof.
  induction l as [|x l IH]; [done|]. rewrite fmap_cons. intros [Hx Hn]%NoDup_cons. rewrite filter_cons. destruct (decide _); [|auto].
  rewrite fmap_cons. apply NoDup_cons. split; [|auto]. contradict Hx. apply list_elem_of_fmap in Hx as (y & -> & Hy).
  apply list_elem_of_filter in Hy as [_ Hy]. by apply list_elem_of_fmap_2.
Qed.
Lemma keyed_nodup l : NoDup (route_key <$> keyed l).
Proof.
  induction l as [|e l IH]; cbn [keyed]; [constructor|]. rewrite fmap_cons. apply NoDup_cons. split; [|by apply filter_nodup].
  intros (x & Ex & Hx)%list_elem_of_fmap. apply list_elem_of_filter in Hx as [Hx _]. congruence.
Qed.
Lemma keyed_id l : NoDup (route_key <$> l) → keyed l = l.
Proof.
  induction l as [|e l IH]; cbn [keyed]; [done|]. rewrite fmap_cons. intros [He Hn]%NoDup_cons. rewrite IH by done. f_equal. clear IH Hn.
  induction l as [|x l IH]; [done|]. rewrite fmap_cons, not_elem_of_cons in He. destruct He as [Hx He].
  rewrite filter_cons_True by congruence. f_equal. by apply IH.
Qed.

#[export] Instance kernel_linux : LinuxRouting Kernel.
Proof.
  refine {| rules_of f k := of_family f (k_rules k); fib := k_fib; verdict := k_verdict |}.
  - intros k. apply keyed_nodup.
  - intros f k p r Hr. by apply of_family_elem in Hr.
  - intros. by eapply k_verdict_mark.
  - intros. by eapply k_verdict_suppress.
  - intros k l k' [= <- <-]. split_and!; [done..|]. intros ps rs [= <-]. rewrite collect_dump. intros [= <-] f. apply dump_family.
  - intros r k l k'. cbn. intros [= <- <-]. cbn. split; [done|].
    destruct (replace_family (ru_family r) (k_rules k)
      (insert_pref (default_pref (of_family (ru_family r) (k_rules k))) (report r) (of_family (ru_family r) (k_rules k)))) as [Hs Ho].
    { intros e [->|He]%insert_pref_elem; [done|]. by apply of_family_elem in He. }
    split; [done|]. exists (report r). split; [apply report_dumped|done].
  - intros r k l k'. cbn. intros [= <- <-]. cbn. split; [done|].
    destruct (replace_family (ru_family r) (k_rules k) (remove_rule r (of_family (ru_family r) (k_rules k)))) as [Hs Ho].
    { intros e He%remove_rule_elem. by apply of_family_elem in He. }
    split; [done|]. destruct (bool_decide (r ∈ _)); cbn; exact Hs.
  - intros a k r k' [= <- <-]. split; [done|]. intros e. unfold k_fib. cbn. rewrite elem_of_cons, list_elem_of_filter.
    rewrite (keyed_id (keyed _)) by apply keyed_nodup. naive_solver.
  - intros d k r k'. unfold nl_route_del. cbn. unfold k_route_del. destruct (List.find _ _) as [e|] eqn:Ef; intros [= <- <-]; (split; [done|]).
    + apply find_some_in in Ef as [He Hd]. exists e. split_and!; [done..|]. intros e'. unfold k_fib at 1. cbn.
      rewrite keyed_id by apply filter_nodup, keyed_nodup. rewrite list_elem_of_filter. naive_solver.
    + split; [done|]. intros _ e He. destruct (del_matches d e) eqn:Em; [|done].
      apply list_elem_of_In in He. by rewrite (List.find_none _ _ Ef e He) in Em.
  - intros dst m k r k' [= _ <-]. done.
  - intros k r k' [= _ <-]. done.
Defined.

#[export] Instance example_packets : NetlinkPacket := {|
  address_bytes a := match a with RaInet x => be_bytes 4 x | RaInet6 x => be_bytes 16 x | RaOther l => l end;
  via_bytes a := match a with ViaInet x => be_bytes 4 x | ViaInet6 x => be_bytes 16 x | ViaOther l => l end
|}.
#[export] Instance example_order : HashOrder.
Proof. by refine {| iter_order l := l |}. Defined.

(** ** An environment *)

#[export] Instance example_kem : Kem := {|
  ml_kem_secret := unit; hqc_secret := unit;
  ml_kem_public _ := [1]; hqc_public _ := [2];
  ml_kem_ciphertext_len := 2; hqc_ciphertext_len := 3;
  ml_kem_decap _ c := repeat (nth 0 c 0) 32; hqc_decap _ c := repeat (nth 0 c 0) 64;
  sha256 l := take 32 l
|}.
#[export] Instance example_sockets : SocketIo unit := {|
  sk_bind _ o := (Ok 3, o);
  sk_local_addr _ o := (Ok (SockV4 (Ipv4Addr_new 127 0 0 1) 40000), o);
  sk_set_mark _ _ o := (Ok tt, o);
  sk_udp2tcp _ _ _ o := (Ok (SockV4 (Ipv4Addr_new 127 0 0 1) 40001), o);
  ss_overhead _ := 55
|}.

(** The relay answers with ciphertexts and DAITA settings. *)
Definition ex_response : proto.EphemeralPeerResponseV1 :=
  {| proto.r_post_quantum := Some {| proto.ciphertexts := [[5; 6]; [7; 8; 9]] |};
     proto.r_daita := Some {| proto.client_machines := ["machine"]; proto.max_padding_frac := 1; proto.max_blocking_frac := 2 |} |}.

#[export] Instance example_env : TunnelEnv unit := {|
  env_new_private_key e := (repeat 9 32, e);
  env_public_key k := map (λ b, b + 1) k;
  env_kem_keypairs e := ((tt, tt), e);
  env_connect _ e := (Ok tt, e);
  env_register_peer _ _ e := (Ok ex_response, e);
  env_timeout _ e := (false, e);
  env_force_userspace := false;
  env_nm_manages_dns e := (false, e);
  env_open_userspace _ e := (Ok MULLVAD_INTERFACE_NAME, e);
  env_open_kernel_nm _ e := (Err tt, e);
  env_open_kernel_netlink _ e := (Ok MULLVAD_INTERFACE_NAME, e);
  env_lock_tunnel e := (true, e);
  env_set_config _ e := (Ok tt, e);
  env_start_daita _ e := (Ok tt, e);
  env_stop_tunnel e := (Ok tt, e);
  env_check_new e := (Ok tt, e);
  env_establish_connectivity e := (Ok true, e);
  env_monitor e := (Ok tt, e)
|}.

(** ** A multihop tunnel with quantum resistance, DAITA and LWO *)

Definition default_v4 : IpNetwork := NetV4 0 0.
Definition default_v6 : IpNetwork := NetV6 0 0.
Definition ex_peer (ip : Z) (ips : list IpNetwork) : wireguard.PeerConfig :=
  {| wireguard.public_key := repeat ip 32; wireguard.allowed_ips := ips;
     wireguard.endpoint := SockV4 (Ipv4Addr_new 185 65 135 ip) 51820; wireguard.psk := None;
     wireguard.constant_packet_size := false |}.
Definition ex_params : wireguard.TunnelParameters :=
  {| wireguard.connection :=
       {| wireguard.tunnel := {| wireguard.private_key := repeat 4 32;
                                 wireguard.addresses := [AddrV4 (Ipv4Addr_new 10 64 0 5); AddrV6 5] |};
          wireguard.peer := ex_peer 1 [NetV4 (Ipv4Addr_new 185 65 135 2) 32];
          wireguard.exit_peer := Some (ex_peer 2 [default_v4; default_v6]);
          wireguard.ipv4_gateway := Ipv4Addr_new 10 64 0 1; wireguard.ipv6_gateway := Some 1;
          wireguard.fwmark := Some 1836018789 |};
     wireguard.options := {| wireguard.mtu := None; wireguard.quantum_resistant := true; wireguard.daita := true |};
     wireguard.generic_options := {| enable_ipv6 := true |};
     wireguard.obfuscation := Some (Single (Lwo (SockV4 (Ipv4Addr_new 185 65 135 1) 443))) |}.

Definition table_rule (f : AddressFamily) (t : Z) : RuleMessage :=
  {| ru_family := f; ru_action := ToTable; ru_flags := 0; ru_attributes := [RuleTable t; SuppressPrefixLen NO_SUPPRESS] |}.
Definition ex_lan : RouteAdd :=
  {| ra_destination := NetV4 (Ipv4Addr_new 192 168 1 0) 24; ra_scope := Some ScopeLink; ra_gateway := None;
     ra_output_interface := Some 2; ra_table_id := None; ra_priority := Some 100; ra_mtu := None |}.
Definition ex_default : RouteAdd :=
  {| ra_destination := default_v4; ra_scope := None; ra_gateway := Some (AddrV4 (Ipv4Addr_new 192 168 1 1));
     ra_output_interface := Some 2; ra_table_id := None; ra_priority := Some 100; ra_mtu := None |}.
Definition ex_kernel : Kernel :=
  {| k_rules := [(0, table_rule Inet 255); (32766, table_rule Inet 254); (32767, table_rule Inet 253);
                 (0, table_rule Inet6 255); (32766, table_rule Inet6 254)];
     k_routes := [ex_lan; ex_default]; k_links := [] |}.
Definition ex_mark : Z := 1836018789.
Definition ex_manager : RouteManagerImpl :=
  {| iface_map := [(1, {| if_name := "lo"; if_link_layer_type := Loopback |});
                   (2, {| if_name := "eth0"; if_link_layer_type := OtherLink 1 |});
                   (3, {| if_name := MULLVAD_INTERFACE_NAME; if_link_layer_type := OtherLink 65534 |})];
     listeners := []; added_routes := []; table_id := ex_mark; fwmark := ex_mark |}.
Definition ex_world : World Kernel unit := Build_World (Some ex_manager, ex_kernel) None tt [].

Definition ex_start : Res (result wg.Error Started) * World Kernel unit := start ex_params ex_world.
Definition ex_started : Started :=
  match ex_start.1 with
  | WOk (Ok st) => st
  | _ => {| st_config := {| c_tunnel := wireguard.tunnel (wireguard.connection ex_params); c_entry_peer := ex_peer 1 [];
              c_exit_peer := None; c_ipv4_gateway := 0; c_ipv6_gateway := None; c_mtu := 0; c_fwmark := None;
              c_enable_ipv6 := false; c_obfuscator_config := None; c_quantum_resistant := false; c_daita := false |};
            st_iface_name := ""; st_endpoint_addrs := []; st_obfuscation_mtu := 0; st_detect_mtu := false |}
  end.
Definition ex_run : Res Empty_set * World Kernel unit := tunnel_fut 0 ex_started ex_start.2.
(** What the task does after the start. *)
Definition ex_trace : list Action := drop 1 (w_trace ex_run.2).

(** ** The theorems at work *)

Definition ex_host : IpAddr := AddrV4 (Ipv4Addr_new 1 1 1 1).
Definition ex_created : Outcome unit * (RouteManagerImpl * Kernel) := create_routing_rules true (ex_manager, ex_kernel).
Definition ex_cleared : Outcome unit * (RouteManagerImpl * Kernel) := clear_routing_rules ex_created.2.
Definition rules4 : list (Z * RuleMessage) := of_family Inet (k_rules ex_kernel).
Definition rules6 : list (Z * RuleMessage) := of_family Inet6 (k_rules ex_kernel).

Lemma ex_rules_ok f : f = Inet ∨ f = Inet6 → rules_ok ex_mark ex_mark f (of_family f (k_rules ex_kernel)).
Proof.
  intros [->| ->]; vm_compute of_family; repeat split; repeat constructor; cbn; try lia; left; reflexivity.
Qed.

Lemma policy_routing_witness :
  route_of ex_created.2.2 0 ex_host =
  policy (fib ex_created.2.2) (fwmark ex_manager) (table_id ex_manager) (table_rule Inet 255)
    (clear_list (fwmark ex_manager) (table_id ex_manager) (family_of ex_host) (drop 1 rules4)) 0 ex_host.
Proof.
  apply (policy_routing true ex_manager ex_kernel ex_created.2.1 ex_created.2.2 ex_host 0 0 (table_rule Inet 255) (drop 1 rules4)).
  - vm_compute. reflexivity.
  - apply (ex_rules_ok Inet). by left.
  - reflexivity.
  - vm_compute. reflexivity.
Defined.

Lemma rules_restored_witness :
  ex_cleared.2.1 = ex_manager ∧ ∀ f, f = Inet ∨ f = Inet6 → rules_of f ex_cleared.2.2 = rules_of f ex_kernel.
Proof.
  apply (rules_restored true ex_manager ex_kernel ex_created.2.1 ex_created.2.2 ex_cleared.2.1 ex_cleared.2.2).
  - intros f Hf. split; [by apply ex_rules_ok|]. intros e He.
    destruct Hf as [->| ->]; vm_compute in He; repeat (apply elem_of_cons in He as [->|He]; [vm_compute; reflexivity|]); set_solver.
  - vm_compute. reflexivity.
  - vm_compute. reflexivity.
Defined.

(** Routes as the tunnel asks for them, with one that is asked for twice. *)
Definition ex_routes : list RequiredRoute := get_pre_tunnel_routes MULLVAD_INTERFACE_NAME (st_config ex_started).
Definition ex_commands : list RouteManagerCommand :=
  [CreateRoutingRules true; AddRoutes ex_routes; AddRoutes (get_post_tunnel_routes MULLVAD_INTERFACE_NAME (st_config ex_started));
   AddRoutes ex_routes; ClearRoutingRules].

Lemma kernel_reliable : reliable (K := Kernel).
Proof. intros d k e. cbn. unfold k_route_del. destruct (List.find _ _); cbn; [done|]. by intros [= <-]. Qed.

Definition routes_checked (l : list RequiredRoute) : bool :=
  forallb (λ r, let r := normal_route (table_id ex_manager) r in
    deletable r && forallb (λ e, bool_decide (route_key e ≠ route_key (add_message ex_manager r)) &&
      negb (del_matches (delete_message ex_manager r) e)) (k_fib ex_kernel)) l.
Lemma routes_checked_ok l :
  routes_checked l = true → Forall (λ r, good_route ex_manager (k_fib ex_kernel) (normal_route (table_id ex_manager) r)) l.
Proof.
  unfold routes_checked. rewrite forallb_forall. intros Hl. apply Forall_forall. intros r Hr%list_elem_of_In.
  apply Hl, andb_true_iff in Hr as [Hd He]. split; [done|]. intros e Hin%list_elem_of_In.
  rewrite forallb_forall in He. by apply He, andb_true_iff in Hin as [Hk%bool_decide_eq_true ?%negb_true_iff].
Qed.

Lemma ex_tunnel_commands : Forall (tunnel_command ex_manager (k_fib ex_kernel)) ex_commands.
Proof.
  unfold ex_commands. rewrite !Forall_cons. split_and!; cbn [tunnel_command]; try done;
    apply routes_checked_ok; vm_compute; reflexivity.
Qed.

Lemma routes_restored_witness :
  let s := (run (Command <$> (ex_commands ++ [ShutdownCommand])) (ex_manager, ex_kernel)).2 in
  added_routes s.1 = [] ∧ ∀ e, e ∈ fib s.2 ↔ e ∈ fib ex_kernel.
Proof.
  apply (routes_restored ex_manager ex_kernel ex_commands ShutdownCommand).
  - apply kernel_reliable.
  - reflexivity.
  - apply ex_tunnel_commands.
  - set_solver.
Defined.

Definition ex_packet : list Z := [4; 0; 0; 0] ++ repeat 17 60.
Lemma lwo_roundtrip_witness :
  let sent := lwo.obfuscate 12345 ex_packet (repeat 239 32) in
  lwo.deobfuscate sent (repeat 239 32) = ex_packet ∧ length sent = length ex_packet ∧ drop 32 sent = drop 32 ex_packet ∧
  ∃ b, sent !! 1%nat = Some b ∧ Z.testbit b 7 = true.
Proof. apply (lwo.lwo_roundtrip 12345 ex_packet (repeat 239 32) 32); reflexivity. Defined.

(** WireGuard sends a packet before the second transport starts. *)
Definition ex_transports : list Transport := [Direct (SockV4 1 51820); Obfuscated (SUdp2Tcp {| udp2tcp.peer := SockV4 1 443; udp2tcp.fwmark := None |})].
Definition ex_events : list multiplexer.Event :=
  [multiplexer.Tick (Err tt); multiplexer.FromWg [1; 2; 3] (SockV4 9 9); multiplexer.Tick (Ok (SockV4 7 7))].
Definition ex_step1 := multiplexer.step (multiplexer.Tick (Err tt)) (multiplexer.Multiplexer_new ex_transports).
Definition ex_step2 := multiplexer.step (multiplexer.FromWg [1; 2; 3] (SockV4 9 9)) ex_step1.1.
Definition ex_step3 := multiplexer.step (multiplexer.Tick (Ok (SockV4 7 7))) ex_step2.1.
Definition ex_sent : list multiplexer.Send := (([] ++ ex_step1.2) ++ ex_step2.2) ++ ex_step3.2.
Lemma transports_caught_up_witness :
  multiplexer.sent_to (SockV4 7 7) ex_sent = [[1; 2; 3]] ∧
  ((multiplexer.mode ex_step3.1 = multiplexer.Discovery →
     (∀ a, multiplexer.sent_to a ex_sent =
        if bool_decide (a ∈ multiplexer.started ex_transports ex_events) then multiplexer.from_wireguard ex_events else []) ∧
     (length (multiplexer.from_wireguard ex_events) ≤ 100)%nat ∧
     ∀ es1 p a c es2, ex_events = es1 ++ multiplexer.FromProxy p a c :: es2 →
       a ∈ multiplexer.started ex_transports es1 → multiplexer.wireguard_addr es1 = None) ∧
  (length (multiplexer.initial_packets_to_send ex_step3.1) ≤ 100)%nat ∧
  ∀ wg proxy, multiplexer.mode ex_step3.1 = multiplexer.Connected wg proxy →
    multiplexer.chosen_ok ex_transports wg proxy ex_events ex_sent).
Proof.
  split; [reflexivity|]. apply (multiplexer.transports_caught_up ex_transports).
  apply (multiplexer.Step _ ex_step2.1 [_; _] _ (multiplexer.Tick (Ok (SockV4 7 7)))); [|intros t rest created [= <-] [= <- <-] a [= <-]; reflexivity|reflexivity].
  apply (multiplexer.Step _ ex_step1.1 [_] _ (multiplexer.FromWg [1; 2; 3] (SockV4 9 9))); [|done|reflexivity].
  apply (multiplexer.Step _ (multiplexer.Multiplexer_new ex_transports) [] _ (multiplexer.Tick (Err tt)));
    [apply multiplexer.Start|intros t rest created [= <-] [= <- <-] a [= <-]; reflexivity|reflexivity].
Defined.

Lemma traffic_after_negotiation_witness :
  ∃ c, negotiated (st_config ex_started) c (take 12 ex_trace).
Proof.
  apply (traffic_after_negotiation 0 ex_started ex_start.2) with (tr := ex_trace)
    (e := EvUp (tunnel_metadata (st_iface_name ex_started) (st_config ex_started))) (post := []).
  - vm_compute. reflexivity.
  - vm_compute. reflexivity.
  - vm_compute. reflexivity.
  - reflexivity.
Defined.

Lemma ex_ready :
  ready ex_manager ex_kernel ex_started ex_host 3 0 (table_rule Inet 255) (drop 1 rules4) default_v4.
Proof.
  constructor.
  - vm_compute. reflexivity.
  - apply (ex_rules_ok Inet). by left.
  - vm_compute. reflexivity.
  - intros e He. vm_compute in He. repeat (apply elem_of_cons in He as [->|He]; [vm_compute; done|]). set_solver.
  - vm_compute. reflexivity.
  - vm_compute. reflexivity.
  - split; [|reflexivity]. vm_compute. left.
Qed.

Lemma up_traffic_in_tunnel_witness :
  ∃ m' k', w_routes ex_run.2 = (Some m', k') ∧
    ∀ mk, verdict (fib k') mk ex_host (table_rule Inet 255) = Next →
      lookup_verdict (Some 0) (longest (fib k') RT_TABLE_MAIN ex_host) = Next →
      if mk =? fwmark ex_manager
      then route_of k' mk ex_host = walk (verdict (fib k') mk ex_host) (rest_rules ex_manager ex_host (drop 1 rules4))
      else ∃ e, route_of k' mk ex_host = Some e ∧ ra_output_interface e = Some 3.
Proof.
  apply (up_traffic_in_tunnel ex_manager ex_kernel ex_started ex_host 3 0 (table_rule Inet 255) (drop 1 rules4) default_v4 0 ex_start.2).
  - apply ex_ready.
  - vm_compute. reflexivity.
  - vm_compute. reflexivity.
  - vm_compute. reflexivity.
Defined.


Definition ex_settings : Settings :=
  SMultiplexer [Direct (SockV4 1 51820); Obfuscated (SShadowsocks {| shadowsocks.shadowsocks_endpoint := SockV4 1 443;
    shadowsocks.wireguard_endpoint := localhost true 51820; shadowsocks.fwmark := Some ex_mark |})] (Some ex_mark).
Lemma obfuscators_marked_witness :
  Forall (λ r, rs_mark r = Some ex_mark)
    (ob_remote {| ob_endpoint := SockV4 (Ipv4Addr_new 127 0 0 1) 40000; ob_packet_overhead := 55;
                  ob_remote := [{| rs_mark := Some ex_mark; rs_ipv4 := true |}] |}).
Proof.
  apply (obfuscators_marked (E := unit) (st_config ex_started) (Multiplexer (Some (SockV4 1 51820)) (Shadowsocks (SockV4 1 443)) [])
    1420 ex_settings
    (SShadowsocks {| shadowsocks.shadowsocks_endpoint := SockV4 1 443;
       shadowsocks.wireguard_endpoint := localhost true 51820; shadowsocks.fwmark := Some ex_mark |}) tt tt).
  - vm_compute. reflexivity.
  - right. left.
  - reflexivity.
Defined.

Lemma mtu_spacing_spread_witness :
  ∃ l, mtu_detection.mtu_spacing 576 1320 20 = Some l ∧ head l = Some 576 ∧ last l = Some 1320 ∧
    ∀ i a b, l !! i = Some a → l !! S i = Some b → a < b ≤ a + 20.
Proof. apply (mtu_spacing_spread 576 1320 20); lia. Defined.

(** A multihop tunnel with an MTU of 50 bytes, which the settings accept, gets
    routes with an MTU of 65511 and 65491 bytes. *)
Example tiny_mtu_wraps :
  map rr_mtu (get_post_tunnel_routes MULLVAD_INTERFACE_NAME (set_mtu 50 (st_config ex_started))) = [Some 65511; Some 65491].
Proof. vm_compute. reflexivity. Qed.
