(* ===== verification/LinuxNetwork.v ===== *)
(** * DNS and connectivity of a Linux host (talpid-core/src/dns/linux, offline/linux.rs)

    The four ways in which the program sets the DNS servers of the host, the
    monitor that picks one of them, and the monitor that tells whether the host
    is online.  For /etc/resolv.conf, which the program edits itself and watches
    for changes, the file and its backup are part of the state, and the theorem
    is that what the user had is restored, also after a crash. *)

From Stdlib Require Import Ascii.
From S2P Require Import Prelude NetTypes TunnelTypes LinuxFirewall TunnelThread Routing.

(** ** /etc/resolv.conf (static_resolv_conf.rs) *)

(** The crate resolv-conf: what it reads back is what it printed. *)
Class ResolvConf : Type := {
  Config : Type;
  Config_eq_dec :: EqDecision Config;
  Config_new : Config;
  parse : string → option Config;
  to_string : Config → string;
  nameservers : Config → list IpAddr;
  with_nameservers : list IpAddr → Config → Config;
  parse_to_string c : parse (to_string c) = Some c;
  nameservers_with l c : nameservers (with_nameservers l c) = l;
  with_with l l' c : with_nameservers l (with_nameservers l' c) = with_nameservers l c;
  with_own c : with_nameservers (nameservers c) c = c
}.

Module static_resolv_conf.
Inductive Error : Set :=
| WatchResolvConf
| WriteResolvConf (backup : bool)
| ReadResolvConf (backup : bool)
| Parse (backup : bool)
| RemoveBackup.

(** What becomes of an operation on a file: it works, or it fails and leaves
    the file with the contents given, if any. *)
Inductive Fault : Set := Fine | Fails (rest : option string).

(** /etc/resolv.conf, its backup, the events that the watcher has not seen yet,
    when there is a watcher, and the outcomes of the operations to come. *)
Record Files : Set := {
  conf : option string;
  backup_file : option string;
  events : option nat;
  faults : list Fault
}.

Definition FM (A : Type) : Type := Files → result Error A * Files.
#[global] Instance FM_ret : MRet FM := λ A a f, (Ok a, f).
#[global] Instance FM_bind : MBind FM := λ A B k m f,
  match m f with (Ok a, f) => k a f | (Err e, f) => (Err e, f) end.

Definition next_fault (f : Files) : Fault * Files :=
  match faults f with
  | [] => (Fine, f)
  | x :: l => (x, {| conf := conf f; backup_file := backup_file f; events := events f; faults := l |})
  end.
Definition with_conf (c : option string) (f : Files) : Files :=
  {| conf := c; backup_file := backup_file f; events := events f; faults := faults f |}.
Definition with_backup (b : option string) (f : Files) : Files :=
  {| conf := conf f; backup_file := b; events := events f; faults := faults f |}.
Definition with_events (n : option nat) (f : Files) : Files :=
  {| conf := conf f; backup_file := backup_file f; events := n; faults := faults f |}.
(** A file that was open for writing is closed. *)
Definition close_write (f : Files) : Files := with_events (S <$> events f) f.

Section Static.
Context `{ResolvConf}.

Record State : Type := { backup : Config; desired_dns : list IpAddr }.

Definition desired_config (st : State) : Config := with_nameservers (desired_dns st) (backup st).

Definition read_config : FM Config := λ f,
  match conf f with
  | None => (Ok Config_new, f)
  | Some _ =>
      let '(fault, f) := next_fault f in
      match fault, conf f with
      | Fine, Some contents =>
          match parse contents with Some config => (Ok config, f) | None => (Err (Parse false), f) end
      | _, _ => (Err (ReadResolvConf false), f)
      end
  end.

Definition write_config (config : Config) : FM unit := λ f,
  let '(fault, f) := next_fault f in
  match fault with
  | Fine => (Ok tt, close_write (with_conf (Some (to_string config)) f))
  | Fails None => (Err (WriteResolvConf false), f)
  | Fails (Some rest) => (Err (WriteResolvConf false), close_write (with_conf (Some rest) f))
  end.

Definition write_backup (config : Config) : FM unit := λ f,
  let '(fault, f) := next_fault f in
  match fault with
  | Fine => (Ok tt, with_backup (Some (to_string config)) f)
  | Fails None => (Err (WriteResolvConf true), f)
  | Fails (Some rest) => (Err (WriteResolvConf true), with_backup (Some rest) f)
  end.

Definition remove_backup : FM unit := λ f,
  let '(fault, f) := next_fault f in
  match fault with Fine => (Ok tt, with_backup None f) | Fails _ => (Err RemoveBackup, f) end.

Definition restore_from_backup : FM unit := λ f,
  match backup_file f with
  | None => (Ok tt, f)
  | Some _ =>
      let '(fault, f) := next_fault f in
      match fault, backup_file f with
      | Fine, Some text =>
          match parse text with
          | None => (Err (Parse true), f)
          | Some config => (_ ← write_config config; remove_backup) f
          end
      | _, _ => (Err (ReadResolvConf true), f)
      end
  end.

(** [DnsWatcher::start]: the file must exist to be watched. *)
Definition DnsWatcher_start : FM unit := λ f,
  let '(fault, f) := next_fault f in
  match fault, conf f with
  | Fine, Some _ => (Ok tt, with_events (Some 0%nat) f)
  | _, _ => (Err WatchResolvConf, f)
  end.

(** The monitor is the state that it shares with its watcher. *)
Definition StaticResolvConf_new : FM (option State) :=
  _ ← restore_from_backup;
  _ ← DnsWatcher_start;
  mret None.

(** The state after an error is the one that [take] left. *)
Definition set_dns (servers : list IpAddr) (state : option State) : Files → result Error unit * option State * Files := λ f,
  match state with
  | None =>
      match (backup ← read_config; _ ← write_backup backup; mret backup) f with
      | (Err e, f) => (Err e, None, f)
      | (Ok backup, f) =>
          let new_state := {| backup := backup; desired_dns := servers |} in
          let '(r, f) := write_config (desired_config new_state) f in (r, Some new_state, f)
      end
  | Some previous_state =>
      let new_state := {| backup := backup previous_state; desired_dns := servers |} in
      let '(r, f) := write_config (desired_config new_state) f in (r, Some new_state, f)
  end.

Definition reset (state : option State) : Files → result Error unit * Files := λ f,
  match state with
  | None => (Ok tt, f)
  | Some state =>
      match write_config (backup state) f with
      | (Err e, f) => (Err e, f)
      | (Ok _, f) => (Ok tt, (remove_backup f).2)
      end
  end.

(** [DnsWatcher::update] *)
Definition update (state : option State) : Files → result Error unit * option State * Files := λ f,
  match state with
  | None => (Ok tt, None, f)
  | Some st =>
      match read_config f with
      | (Err e, f) => (Err e, Some st, f)
      | (Ok new_config, f) =>
          if bool_decide (nameservers new_config ≠ desired_dns st) then
            let '(r, f) := write_config (with_nameservers (desired_dns st) new_config) f in
            (r, Some {| backup := new_config; desired_dns := desired_dns st |}, f)
          else
            let backup := with_nameservers (nameservers (backup st)) new_config in
            let '(r, f) := write_backup backup f in
            (r, Some {| backup := backup; desired_dns := desired_dns st |}, f)
      end
  end.

(** One turn of [event_loop] for an event. *)
Definition event_loop (s : option State * Files) : option State * Files :=
  match events s.2 with
  | Some (S n) => let '(_, st, f) := update s.1 (with_events (Some n) s.2) in (st, f)
  | _ => s
  end.

(** *** The user's configuration

    What the user has is followed through everything that can happen while no
    operation fails: calls to the monitor, edits of the file by others, events
    that are handled, and the end of the program at any moment, after which it
    is started again.  [users] are the configurations that the user can be said
    to have had since the last time nothing was set: an edit is taken over as
    it is, except that servers that are the program's own do not replace the
    user's. *)
Definition edited (st : option State) (c : Config) (users : list Config) : list Config :=
  match st with
  | None => [c]
  | Some st =>
      if bool_decide (nameservers c = desired_dns st)
      then users ++ map (λ u, with_nameservers (nameservers u) c) users
      else users ++ [c]
  end.

Definition edit (c : Config) (f : Files) : Files := close_write (with_conf (Some (to_string c)) f).

Inductive reaches : list Config → option State → Files → Prop :=
| Begin u text :
    parse text = Some u →
    reaches [u] None {| conf := Some text; backup_file := None; events := Some 0%nat; faults := [] |}
| Set_dns users st f servers st' f' :
    reaches users st f → set_dns servers st f = (Ok tt, st', f') → reaches users st' f'
| Reset users st f f' :
    reaches users st f → reset st f = (Ok tt, f') → reaches users None f'
| Event users st f st' f' :
    reaches users st f → event_loop (st, f) = (st', f') → reaches users st' f'
| Edit users st f c :
    reaches users st f → reaches (edited st c users) st (edit c f)
| Restart users st f f' :
    reaches users st f → StaticResolvConf_new f = (Ok None, f') → reaches users None f'.

(** Nothing is set and there is no backup; or the state has one of the user's
    configurations, so does the backup file, and the file is the one that was
    written, up to edits whose events are still to come. *)
Record inv (users : list Config) (st : option State) (f : Files) : Prop := {
  i_fine : faults f = [];
  i_watched : is_Some (events f);
  i_idle : st = None → backup_file f = None ∧ ∃ u text, u ∈ users ∧ conf f = Some text ∧ parse text = Some u;
  i_set s : st = Some s →
    backup s ∈ users ∧
    (∃ b, b ∈ users ∧ backup_file f = Some (to_string b)) ∧
    (∃ c text, conf f = Some text ∧ parse text = Some c ∧
       (c = desired_config s ∨
        (events f ≠ Some 0%nat ∧ if bool_decide (nameservers c = desired_dns s)
                                 then with_nameservers (nameservers (backup s)) c ∈ users else c ∈ users))) ∧
    (events f = Some 0%nat → backup_file f = Some (to_string (backup s)))
}.

Lemma desired_back s : with_nameservers (nameservers (backup s)) (desired_config s) = backup s.
Proof. unfold desired_config. by rewrite with_with, with_own. Qed.

Lemma inv_set_dns users st f servers st' f' :
  inv users st f → set_dns servers st f = (Ok tt, st', f') → inv users st' f'.
Proof.
  intros [Hf [n Hn] Hi Hs]. destruct f as [cf bf ev fs]. cbn in *. subst fs ev. destruct st as [s|]; cbn.
  - intros [= <- <-]. destruct (Hs s eq_refl) as (Hb & Hbf & _ & _). constructor; cbn; [done|eauto|done|].
    intros s' [= <-]. split_and!; [done..| |done]. eexists _, _. split_and!; [done|apply parse_to_string|by left].
  - destruct (Hi eq_refl) as (-> & u & text & Hu & -> & Hp). unfold mbind, FM_bind, read_config, next_fault. cbn. rewrite Hp. cbn.
    intros [= <- <-]. constructor; cbn; [done|eauto|done|].
    intros s' [= <-]. split_and!; [done|eauto| |done]. eexists _, _. split_and!; [done|apply parse_to_string|by left].
Qed.

Lemma inv_reset users st f : inv users st f → ∃ f', reset st f = (Ok tt, f') ∧ inv users None f' ∧
  ∀ s, st = Some s → conf f' = Some (to_string (backup s)).
Proof.
  intros Hinv. pose proof Hinv as [Hf [n Hn] Hi Hs]. destruct st as [s|]; cbn; [|by exists f].
  destruct f as [cf bf ev fs]. cbn in *. subst fs ev. eexists. split; [done|]. split; [|by intros ? [= <-]].
  constructor; cbn; [done|eauto| |done]. intros _. split; [done|].
  eexists _, _. split_and!; [apply (Hs s eq_refl)|done|apply parse_to_string].
Qed.

Lemma inv_restart users st f : inv users st f → ∃ f', StaticResolvConf_new f = (Ok None, f') ∧ inv users None f' ∧
  (backup_file f = None → conf f' = conf f) ∧ ∀ b, backup_file f = Some (to_string b) → conf f' = Some (to_string b).
Proof.
  intros [Hf [n Hn] Hi Hs]. destruct f as [cf bf ev fs]. cbn in *. subst fs ev.
  unfold StaticResolvConf_new, mbind, FM_bind, restore_from_backup. cbn. destruct st as [s|].
  - destruct (Hs s eq_refl) as (_ & (b & Hb & ->) & _). cbn. rewrite parse_to_string. cbn. eexists. split; [done|]. split_and!.
    + constructor; cbn; [done|eauto| |done]. intros _. split; [done|]. eexists _, _. split_and!; [done..|apply parse_to_string].
    + done.
    + intros b'. cbn. congruence.
  - destruct (Hi eq_refl) as (-> & u & text & Hu & -> & Hp). cbn. eexists. split; [done|]. split_and!; [|done..].
    constructor; cbn; [done|eauto| |done]. eauto 10.
Qed.

(** The state that an event leaves has one event less, unless the file had to be
    written again. *)
Definition in_step (st : option State) (f : Files) : Prop :=
  ∀ s, st = Some s → ∃ text, conf f = Some text ∧ parse text = Some (desired_config s).

Lemma inv_event users st f st' f' :
  inv users st f → event_loop (st, f) = (st', f') →
  inv users st' f' ∧ in_step st' f' ∧
  ∀ n, events f = Some (S n) → events f' = Some n ∨ ¬ in_step st f ∧ events f' = Some (S n).
Proof.
  intros Hinv. pose proof Hinv as [Hf [n Hn] Hi Hs]. destruct f as [cf bf ev fs]. cbn in *. subst fs ev.
  unfold event_loop. cbn. destruct n as [|n]; [intros [= <- <-]; split_and!; [done| |done]|].
  { intros s ->. destruct (Hs s eq_refl) as (_ & _ & (c & text & ? & ? & [->|[? _]]) & _); [eauto|done]. }
  destruct st as [s|]; cbn.
  2:{ intros [= <- <-]. split_and!; [|done|by intros ? [= <-]; left]. constructor; cbn; [done|eauto| |done]. auto. }
  destruct (Hs s eq_refl) as (Hb & (b & Hbu & ->) & (c & text & -> & Hp & Hc) & _).
  unfold read_config, next_fault. cbn. rewrite Hp.
  destruct (bool_decide (nameservers c ≠ desired_dns s)) eqn:Hd; [apply bool_decide_eq_true in Hd|apply bool_decide_eq_false in Hd]; cbn.
  - destruct Hc as [->|[_ Hc]]; [by destruct Hd; apply nameservers_with|]. rewrite bool_decide_eq_false_2 in Hc by done.
    intros [= <- <-]. split_and!.
    + constructor; cbn; [done|eauto|done|]. intros s' [= <-]. split_and!; [done|eauto| |done].
      eexists _, _. split_and!; [done|apply parse_to_string|by left].
    + intros s' [= <-]. eexists. split; [done|apply parse_to_string].
    + intros m [= <-]. right. split; [|done]. intros Hin. destruct (Hin s eq_refl) as (? & [= <-] & Hp').
      rewrite Hp in Hp'. injection Hp' as ->. apply Hd, nameservers_with.
  - apply dec_stable in Hd. intros [= <- <-].
    assert (with_nameservers (nameservers (backup s)) c ∈ users) as Hu.
    { destruct Hc as [->|[_ Hc]]; [by rewrite desired_back|]. by rewrite bool_decide_eq_true_2 in Hc. }
    assert (c = desired_config {| backup := with_nameservers (nameservers (backup s)) c; desired_dns := desired_dns s |}) as Hde.
    { unfold desired_config. cbn. by rewrite with_with, <- Hd, with_own. }
    split_and!.
    + constructor; cbn; [done|eauto|done|]. intros s' [= <-]. split_and!; [done|eauto| |done]. eauto 10.
    + intros s' [= <-]. cbn. rewrite <- Hde. eauto.
    + intros m [= <-]. by left.
Qed.

Lemma inv_edit users st f c : inv users st f → inv (edited st c users) st (edit c f).
Proof.
  intros [Hf [n Hn] Hi Hs]. destruct f as [cf bf ev fs]. cbn in *. subst fs ev. constructor; cbn; [done|eauto| |].
  - intros ->. destruct (Hi eq_refl) as [-> _]. split; [done|]. exists c, (to_string c). cbn. split_and!; [set_solver|done|apply parse_to_string].
  - intros s ->. destruct (Hs s eq_refl) as (Hb & (b & Hbu & ->) & _ & _).
    assert (∀ u, u ∈ users → u ∈ edited (Some s) c users) as Hin by (intros u Hu; cbn; case_bool_decide; set_solver).
    split_and!; [auto|eauto| |done]. exists c, (to_string c). split_and!; [done|apply parse_to_string|]. right. split; [done|].
    cbn. case_bool_decide; [|set_solver]. apply elem_of_app. right. apply list_elem_of_fmap. eauto.
Qed.

Lemma reaches_inv users st f : reaches users st f → inv users st f.
Proof.
  induction 1 as [u text Hp|users st f servers st' f' _ IH E|users st f f' _ IH E|users st f st' f' _ IH E|users st f c _ IH|users st f f' _ IH E].
  - constructor; cbn; [done|eauto| |done]. intros _. split; [done|]. exists u, text. set_solver.
  - by eapply inv_set_dns.
  - apply inv_reset in IH as (? & E' & ? & _). rewrite E in E'. by injection E' as ->.
  - by eapply inv_event in E as [? _].
  - by apply inv_edit.
  - apply inv_restart in IH as (? & E' & ? & _). rewrite E in E'. by injection E' as ->.
Qed.

(** Events are handled after as many turns as there are events, and one more. *)
Lemma events_end users st f n :
  inv users st f → events f = Some n → events (Nat.iter (S n) event_loop (st, f)).2 = Some 0%nat.
Proof.
  assert (∀ m k st f, inv users st f → in_step st f → events f = Some m → (m ≤ k)%nat →
            events (Nat.iter k event_loop (st, f)).2 = Some 0%nat) as Hstep.
  { induction m as [m IH] using lt_wf_ind. intros k. revert m IH. induction k as [|k IHk]; intros m IH st' f' Hi Hin He Hle.
    { cbn. rewrite He. f_equal. lia. }
    rewrite Nat.iter_succ_r. destruct (event_loop (st', f')) as [st1 f1] eqn:E.
    destruct (inv_event _ _ _ _ _ Hi E) as (Hi1 & Hin1 & Hev). destruct m as [|m].
    - unfold event_loop in E. cbn in E. rewrite He in E. injection E as <- <-. apply (IHk 0%nat); [intros; lia|done..|lia].
    - destruct (Hev m He) as [He1|[Hn _]]; [|done]. apply (IH m); [lia|done..|lia]. }
  intros Hi He. rewrite Nat.iter_succ_r. destruct (event_loop (st, f)) as [st1 f1] eqn:E.
  destruct (inv_event _ _ _ _ _ Hi E) as (Hi1 & Hin1 & Hev). destruct n as [|n].
  - unfold event_loop in E. cbn in E. rewrite He in E. injection E as <- <-. done.
  - destruct (Hev n He) as [He1|[_ He1]]; eapply Hstep; eauto with lia.
Qed.

(** C35: from a readable file, as long as no file operation fails and others edit the
    file only by writing a readable configuration in place (a file that is replaced by
    renaming is noticed only once, and one that cannot be read is not taken over; both
    are findings): whatever is set, edited and handled, and in whatever order, and if
    the program ends at any moment between two operations, resetting, as well as
    starting again, succeeds and leaves a configuration of the user in /etc/resolv.conf,
    and no backup. The events of the file come to an end, one turn after the number
    there is; then, while servers are set, they are the servers of the file, and
    resetting and starting again restore the same configuration, which is the user's
    file with the edits taken over. *)
Theorem resolv_conf_restored users st f :
  reaches users st f →
  (∃ f' text u, reset st f = (Ok tt, f') ∧ conf f' = Some text ∧ parse text = Some u ∧ u ∈ users ∧ backup_file f' = None) ∧
  (∃ f' text u, StaticResolvConf_new f = (Ok None, f') ∧ conf f' = Some text ∧ parse text = Some u ∧ u ∈ users ∧
     backup_file f' = None) ∧
  (∃ n, events f = Some n ∧ events (Nat.iter (S n) event_loop (st, f)).2 = Some 0%nat) ∧
  ∀ s, st = Some s → events f = Some 0%nat →
    (∃ text c, conf f = Some text ∧ parse text = Some c ∧ nameservers c = desired_dns s) ∧
    conf (reset st f).2 = Some (to_string (backup s)) ∧ conf (StaticResolvConf_new f).2 = Some (to_string (backup s)).
Proof.
  intros Hi%reaches_inv. destruct (inv_reset _ _ _ Hi) as (f1 & E1 & [_ _ Hi1 _] & Hc1).
  destruct (inv_restart _ _ _ Hi) as (f2 & E2 & [_ _ Hi2 _] & _ & Hc2). split_and!.
  - destruct (Hi1 eq_refl) as (? & u & text & ? & ? & ?). eauto 10.
  - destruct (Hi2 eq_refl) as (? & u & text & ? & ? & ?). eauto 10.
  - destruct (i_watched _ _ _ Hi) as [n Hn]. exists n. split; [done|]. by eapply events_end.
  - intros s Hs He. destruct (i_set _ _ _ Hi s Hs) as (_ & _ & (c & text & ? & ? & [->|[? _]]) & Hb); [|done].
    split_and!; [exists text, (desired_config s); split_and!; [done..|apply nameservers_with]| |].
    + rewrite E1. by apply Hc1.
    + rewrite E2. by apply Hc2, Hb.
Qed.
End Static.
Arguments State {_}.
End static_resolv_conf.

(** ** resolvconf (resolvconf.rs) *)

(** The other programs that manage DNS, the interface table and the environment
    variables; nothing is assumed of what they answer. *)
Class DnsServices (O : Type) : Type := {
  sv_module : O → option string * O;
  sv_which_resolvconf : O → option string * O;
  sv_link_target_name : string → O → option string * O;
  sv_read : string → O → option string * O;
  sv_exists : string → O → bool * O;
  sv_read_dir : string → O → list string * O;
  sv_canonical : string → O → option string * O;
  (** Running a program: it cannot be run, or ends with or without success. *)
  sv_run : string → list string → string → O → result unit bool * O;
  sv_iface_index : string → O → result unit Z * O;
  sd_new : O → result unit unit * O;
  sd_disable_dot : Z → O → result unit unit * O;
  sd_set_domains : Z → list (string * bool) → O → result unit unit * O;
  sd_set_dns : Z → list IpAddr → O → result unit unit * O;
  DeviceConfig : Type;
  nm_new : O → result unit unit * O;
  nm_ensure_can_be_used_to_manage_dns : O → result unit unit * O;
  nm_set_dns : string → list IpAddr → O → result unit DeviceConfig * O;
  (** A device may not be found, which is told apart. *)
  nm_fetch_device : string → O → result bool string * O;
  nm_get_device_state : string → O → result unit Z * O;
  nm_reapply_settings : string → DeviceConfig → O → result unit unit * O;
  ip_text : IpAddr → string
}.


Fixpoint string_contains (p s : string) : bool :=
  String.prefix p s || match s with "" => false | String _ s => string_contains p s end.
(** The lines of a text; a carriage return at the end is left to [trim]. *)
Fixpoint text_lines (s : string) : list string :=
  match s with
  | "" => [""%string]
  | String c rest =>
      if Ascii.eqb c "010"%char then ""%string :: text_lines rest
      else match text_lines rest with
           | l :: ls => String c l :: ls
           | [] => [String c ""]
           end
  end.

Module resolvconf.
Inductive Error : Set :=
| NoResolvconf
| ResolvconfUsesResolved
| RunResolvconf
| AddRecord
| DeleteRecord
| DnsmasqMisconfiguration
| ResolvconfNotInUse.

Record Resolvconf : Set := { record_names : list string; program : string }.
End resolvconf.

Module systemd_resolved.
Inductive Error : Set := SystemdResolvedError | InterfaceNameError.
Record SystemdResolved : Set := { tunnel_index : Z }.
End systemd_resolved.

Section Services.
Context {O : Type} `{DnsServices O}.
#[local] Notation M := (stateM O).


Definition resolvconf_is_resolved_symlink (path : string) : M bool :=
  target ← sv_link_target_name path;
  mret (bool_decide (target = Some "resolvectl"%string)).

Definition is_dnsmasq_running : M bool :=
  pid ← sv_read "/var/run/dnsmasq/dnsmasq.pid";
  match pid with
  | None => mret false
  | Some pid => sv_exists ("/proc/" +:+ pid +:+ "/")
  end.

Fixpoint any_no_resolv (paths : list string) : M bool :=
  match paths with
  | [] => mret false
  | path :: paths =>
      contents ← sv_read path;
      if match contents with
         | Some contents => existsb (λ line, String.prefix "no-resolv" (trim line)) (text_lines contents)
         | None => false
         end
      then mret true else any_no_resolv paths
  end.
Definition is_dnsmasq_configured_wrong : M bool :=
  config_paths ← sv_read_dir "/etc/dnsmasq.d/";
  any_no_resolv (config_paths ++ ["/etc/dnsmasq.conf"%string]).

Definition check_if_resolvconf_was_generated : M bool :=
  contents ← sv_read "/etc/resolv.conf";
  mret (match contents with Some contents => string_contains "Generated by resolvconf" contents | None => false end).

(** [Path::starts_with] compares whole components. *)
Definition check_if_resolvconf_is_symlinked_correctly : M bool :=
  path ← sv_canonical "/etc/resolv.conf";
  mret (match path with
        | Some path => bool_decide (path = "/var/run/resolvconf"%string) || String.prefix "/var/run/resolvconf/" path
        | None => false
        end).

Definition Resolvconf_new : M (result resolvconf.Error resolvconf.Resolvconf) :=
  path ← sv_which_resolvconf;
  match path with
  | None => mret (Err resolvconf.NoResolvconf)
  | Some path =>
      resolved ← resolvconf_is_resolved_symlink path;
      if resolved : bool then mret (Err resolvconf.ResolvconfUsesResolved)
      else
        running ← is_dnsmasq_running;
        in_use ← (if running : bool then mret true
                  else
                    symlinked ← check_if_resolvconf_is_symlinked_correctly;
                    if symlinked : bool then mret true else check_if_resolvconf_was_generated);
        if negb in_use then mret (Err resolvconf.ResolvconfNotInUse)
        else
          wrong ← (if running : bool then is_dnsmasq_configured_wrong else mret false);
          if wrong : bool then mret (Err resolvconf.DnsmasqMisconfiguration)
          else mret (Ok {| resolvconf.record_names := []; resolvconf.program := path |})
  end.

Definition record_contents (servers : list IpAddr) : string :=
  foldr (λ address rest, "nameserver " +:+ ip_text address +:+ String "010"%char rest) ""%string servers.

Definition resolvconf_set_dns (interface : string) (servers : list IpAddr) (r : resolvconf.Resolvconf) :
    M (result resolvconf.Error unit * resolvconf.Resolvconf) :=
  let record_name := interface +:+ ".mullvad" in
  output ← sv_run (resolvconf.program r) ["-a"%string; record_name] (record_contents servers);
  mret (match output with
        | Err _ => (Err resolvconf.RunResolvconf, r)
        | Ok false => (Err resolvconf.AddRecord, r)
        | Ok true =>
            (Ok tt, {| resolvconf.record_names := set_insert record_name (resolvconf.record_names r);
                       resolvconf.program := resolvconf.program r |})
        end).

(** [drain] forgets the records, also those that are not reached. *)
Fixpoint delete_records (program : string) (names : list string) (result_ : result resolvconf.Error unit) :
    M (result resolvconf.Error unit) :=
  match names with
  | [] => mret result_
  | record_name :: names =>
      output ← sv_run program ["-d"%string; record_name; "-f"%string] "";
      match output with
      | Err _ => mret (Err resolvconf.RunResolvconf)
      | Ok success =>
          delete_records program names (if success : bool then result_ else Err resolvconf.DeleteRecord)
      end
  end.
Definition resolvconf_reset (r : resolvconf.Resolvconf) : M (result resolvconf.Error unit * resolvconf.Resolvconf) :=
  r' ← delete_records (resolvconf.program r) (resolvconf.record_names r) (Ok tt);
  mret (r', {| resolvconf.record_names := []; resolvconf.program := resolvconf.program r |}).

(** ** systemd-resolved (systemd_resolved.rs) *)


Definition SystemdResolved_new : M (result systemd_resolved.Error systemd_resolved.SystemdResolved) :=
  r ← sd_new;
  mret (match r with
        | Ok _ => Ok {| systemd_resolved.tunnel_index := 0 |}
        | Err _ => Err systemd_resolved.SystemdResolvedError
        end).

Definition systemd_set_dns (interface_name : string) (servers : list IpAddr) (s : systemd_resolved.SystemdResolved) :
    M (result systemd_resolved.Error unit * systemd_resolved.SystemdResolved) :=
  index ← sv_iface_index interface_name;
  match index with
  | Err _ => mret (Err systemd_resolved.InterfaceNameError, s)
  | Ok tunnel_index =>
      _ ← sd_disable_dot tunnel_index;
      _ ← sd_set_domains tunnel_index [("."%string, true)];
      r ← sd_set_dns tunnel_index servers;
      mret (map_err (λ _, systemd_resolved.SystemdResolvedError) r, {| systemd_resolved.tunnel_index := tunnel_index |})
  end.

Definition systemd_reset (s : systemd_resolved.SystemdResolved) : M (result systemd_resolved.Error unit) :=
  _ ← sd_set_domains (systemd_resolved.tunnel_index s) [];
  r ← sd_set_dns (systemd_resolved.tunnel_index s) [];
  mret (map_err (λ _, systemd_resolved.SystemdResolvedError) r).

(** ** NetworkManager (network_manager.rs) *)

(** [device_is_ready] of talpid-dbus *)
Definition NM_DEVICE_STATE_IP_CHECK : Z := 80.
Definition NM_DEVICE_STATE_SECONDARY : Z := 90.
Definition NM_DEVICE_STATE_ACTIVATED : Z := 100.
Definition device_is_ready (device_state : Z) : bool :=
  existsb (Z.eqb device_state) [NM_DEVICE_STATE_IP_CHECK; NM_DEVICE_STATE_SECONDARY; NM_DEVICE_STATE_ACTIVATED].

Record NetworkManager : Type := { device : option string; settings_backup : option DeviceConfig }.

Definition NetworkManager_new : M (result unit NetworkManager) :=
  connection ← nm_new;
  match connection with
  | Err e => mret (Err e)
  | Ok _ =>
      r ← nm_ensure_can_be_used_to_manage_dns;
      mret (match r with Ok _ => Ok {| device := None; settings_backup := None |} | Err e => Err e end)
  end.

Definition nm_monitor_set_dns (interface_name : string) (servers : list IpAddr) (n : NetworkManager) :
    M (result unit unit * NetworkManager) :=
  old_settings ← nm_set_dns interface_name servers;
  mret (match old_settings with
        | Err e => (Err e, n)
        | Ok old_settings => (Ok tt, {| device := Some interface_name; settings_backup := Some old_settings |})
        end).

Definition nm_reset (n : NetworkManager) : M (result unit unit * NetworkManager) :=
  match settings_backup n with
  | None => mret (Ok tt, n)
  | Some settings =>
      match device n with
      | None => mret (Ok tt, {| device := None; settings_backup := None |})
      | Some name =>
          let n := {| device := None; settings_backup := None |} in
          device_path ← nm_fetch_device name;
          match device_path with
          | Err true => mret (Ok tt, n)
          | Err false => mret (Err tt, n)
          | Ok device_path =>
              state ← nm_get_device_state device_path;
              match state with
              | Err e => mret (Err e, n)
              | Ok state =>
                  if device_is_ready state then
                    r ← nm_reapply_settings device_path settings;
                    mret (match r with Ok _ => Ok tt | Err e => Err e end, n)
                  else mret (Ok tt, n)
              end
          end
      end
  end.
End Services.

(** ** The DNS monitor (dns/linux/mod.rs) *)

Module dns.
Inductive Error : Set :=
| SystemdResolvedErr (e : systemd_resolved.Error)
| NetworkManagerErr
| ResolvconfErr (e : resolvconf.Error)
| StaticResolvConfErr (e : static_resolv_conf.Error)
| NoDnsMonitor.

Inductive DnsMonitorHolder {O} `{ResolvConf} `{DnsServices O} : Type :=
| SystemdResolved (s : systemd_resolved.SystemdResolved)
| NetworkManager_ (n : NetworkManager)
| Resolvconf (r : resolvconf.Resolvconf)
| StaticResolvConf (state : option static_resolv_conf.State).

Section Monitor.
Context {O : Type} `{ResolvConf} `{DnsServices O}.
#[local] Notation Files := static_resolv_conf.Files.

Definition DM (A : Type) : Type := stateM (Files * O) A.
Definition on_files {A} (m : Files → A * Files) : DM A := λ w, let '(a, f) := m w.1 in (a, (f, w.2)).
Definition on_services {A} (m : stateM O A) : DM A := λ w, let '(a, o) := m w.2 in (a, (w.1, o)).
(** A monitor that is dropped takes its watcher with it. *)
Definition drop_holder (h : DnsMonitorHolder) : DM unit :=
  match h with StaticResolvConf _ => on_files (λ f, (tt, static_resolv_conf.with_events None f)) | _ => mret tt end.

Definition new_systemd : DM (result Error DnsMonitorHolder) :=
  r ← on_services SystemdResolved_new;
  mret (match r with Ok s => Ok (SystemdResolved s) | Err e => Err (SystemdResolvedErr e) end).
Definition new_network_manager : DM (result Error DnsMonitorHolder) :=
  r ← on_services NetworkManager_new;
  mret (match r with Ok n => Ok (NetworkManager_ n) | Err _ => Err NetworkManagerErr end).
Definition new_resolvconf : DM (result Error DnsMonitorHolder) :=
  r ← on_services Resolvconf_new;
  mret (match r with Ok r => Ok (Resolvconf r) | Err e => Err (ResolvconfErr e) end).
Definition new_static : DM (result Error DnsMonitorHolder) :=
  r ← on_files static_resolv_conf.StaticResolvConf_new;
  mret (match r with Ok state => Ok (StaticResolvConf state) | Err e => Err (StaticResolvConfErr e) end).

Definition or_else (a b : DM (result Error DnsMonitorHolder)) : DM (result Error DnsMonitorHolder) :=
  r ← a; match r with Ok h => mret (Ok h) | Err _ => b end.
Definition with_detected_dns_manager : DM (result Error DnsMonitorHolder) :=
  r ← or_else (or_else (or_else new_systemd new_network_manager) new_resolvconf) new_static;
  mret (match r with Ok h => Ok h | Err _ => Err NoDnsMonitor end).

Definition Holder_new : DM (result Error DnsMonitorHolder) :=
  dns_module ← on_services sv_module;
  if bool_decide (dns_module = Some "static-file"%string) then new_static
  else if bool_decide (dns_module = Some "resolvconf"%string) then new_resolvconf
  else if bool_decide (dns_module = Some "systemd"%string) then new_systemd
  else if bool_decide (dns_module = Some "network-manager"%string) then new_network_manager
  else with_detected_dns_manager.

Definition Holder_set (interface : string) (servers : list IpAddr) (h : DnsMonitorHolder) :
    DM (result Error unit * DnsMonitorHolder) :=
  match h with
  | Resolvconf r =>
      '(x, r) ← on_services (resolvconf_set_dns interface servers r);
      mret (map_err ResolvconfErr x, Resolvconf r)
  | StaticResolvConf state =>
      '(x, state) ← on_files (static_resolv_conf.set_dns servers state);
      mret (map_err StaticResolvConfErr x, StaticResolvConf state)
  | SystemdResolved s =>
      '(x, s) ← on_services (systemd_set_dns interface servers s);
      mret (map_err SystemdResolvedErr x, SystemdResolved s)
  | NetworkManager_ n =>
      '(x, n) ← on_services (nm_monitor_set_dns interface servers n);
      mret (map_err (λ _, NetworkManagerErr) x, NetworkManager_ n)
  end.

Definition Holder_reset (h : DnsMonitorHolder) : DM (result Error unit) :=
  match h with
  | Resolvconf r => x ← on_services (resolvconf_reset r); mret (map_err ResolvconfErr x.1)
  | StaticResolvConf state => x ← on_files (static_resolv_conf.reset state); mret (map_err StaticResolvConfErr x)
  | SystemdResolved s => x ← on_services (systemd_reset s); mret (map_err SystemdResolvedErr x)
  | NetworkManager_ n => x ← on_services (nm_reset n); mret (map_err (λ _, NetworkManagerErr) x.1)
  end.

(** The monitor of the tunnel state machine. *)
Definition DnsMonitor : Type := option DnsMonitorHolder.

Definition monitor_reset (inner : DnsMonitor) : DM (result Error unit * DnsMonitor) :=
  match inner with
  | None => mret (Ok tt, None)
  | Some h => r ← Holder_reset h; _ ← drop_holder h; mret (r, None)
  end.

Definition monitor_set (interface : string) (config : ResolvedDnsConfig) (inner : DnsMonitor) :
    DM (result Error unit * DnsMonitor) :=
  let servers := tunnel_config config in
  '(r, inner) ← monitor_reset inner;
  match r with
  | Err e => mret (Err e, inner)
  | Ok _ =>
      new ← Holder_new;
      match new with
      | Err e => mret (Err e, inner)
      | Ok h =>
          if bool_decide (servers = []) then _ ← drop_holder h; mret (Ok tt, inner)
          else
            '(r, h) ← Holder_set interface servers h;
            match r with
            | Err e => _ ← drop_holder h; mret (Err e, inner)
            | Ok _ => mret (Ok tt, Some h)
            end
      end
  end.

Definition will_use_nm : DM bool :=
  s ← on_services SystemdResolved_new;
  if negb (is_ok s) then n ← on_services NetworkManager_new; mret (is_ok n) else mret false.
End Monitor.
End dns.

(** ** The offline monitor (offline/linux.rs, offline/mod.rs) *)

Module offline.
Definition PUBLIC_INTERNET_ADDRESS_V4 : IpAddr := AddrV4 (Ipv4Addr_new 193 138 218 78).
Definition PUBLIC_INTERNET_ADDRESS_V6 : IpAddr :=
  AddrV6 (le_val (rev (concat (map (be_bytes 2) [8193; 3512; 1; 2; 3; 4; 5; 6])))).

Section Offline.
Context {K : Type} `{Rtnetlink K} `{NetlinkPacket} `{HashOrder}.
#[local] Notation Manager := (option RouteManagerImpl * K)%type.

Definition route_exists (fwmark : option Z) (destination : IpAddr) (s : Manager) : result routing.Error bool * Manager :=
  let '(r, s) := handle_get_destination_route destination fwmark s in
  (match r with Ok route => Ok (bool_decide (is_Some route)) | Err e => Err e end, s).

Definition check_connectivity (fwmark : option Z) (s : Manager) : Connectivity * Manager :=
  let '(v4, s) := route_exists fwmark PUBLIC_INTERNET_ADDRESS_V4 s in
  let '(v6, s) := route_exists fwmark PUBLIC_INTERNET_ADDRESS_V6 s in
  (match v4, v6 with
   | Ok ipv4, Ok ipv6 => Connectivity_new ipv4 ipv6
   | Err _, _ => PresumeOnline
   | Ok ipv4, Err _ => Connectivity_new ipv4 false
   end, s).

(** The task: the connectivity it has told last, for as long as the receiver
    is there; a change of the routes comes with the state of the manager. *)
Inductive Task : Set := Listening (connectivity : Connectivity) | Stopped.

Definition spawn_task (fwmark : option Z) (s : Manager) : result unit Task * Manager :=
  let '(connectivity, s) := check_connectivity fwmark s in
  let '(listener, s) := handle_change_listener s in
  (match listener with Ok _ => Ok (Listening connectivity) | Err _ => Err tt end, s).

Definition on_route_event (fwmark : option Z) (receiver : bool) (t : Task) (s : Manager) :
    Task * option Connectivity * Manager :=
  match t with
  | Stopped => (Stopped, None, s)
  | Listening connectivity =>
      if receiver then
        let '(new_connectivity, s) := check_connectivity fwmark s in
        if bool_decide (new_connectivity ≠ connectivity)
        then (Listening new_connectivity, Some new_connectivity, s)
        else (Listening connectivity, None, s)
      else (Stopped, None, s)
  end.

(** offline/mod.rs: the monitor may be disabled, or fail to start. *)
Definition spawn_monitor (disabled : bool) (fwmark : option Z) (s : Manager) : option Task * Manager :=
  if disabled then (None, s)
  else let '(r, s) := spawn_task fwmark s in (match r with Ok t => Some t | Err _ => None end, s).
Definition connectivity (monitor : option Task) (fwmark : option Z) (s : Manager) : Connectivity * Manager :=
  match monitor with Some _ => check_connectivity fwmark s | None => (PresumeOnline, s) end.
End Offline.
End offline.

(** A receiver that takes every message knows the connectivity found by the last
    check, and a message is only sent when it changes. *)
Lemma told_is_checked {K} `{Rtnetlink K} `{NetlinkPacket} `{HashOrder} fwmark c s t msg s' :
  offline.on_route_event fwmark true (offline.Listening c) s = (t, msg, s') →
  t = offline.Listening (default c msg) ∧ default c msg = (offline.check_connectivity fwmark s).1 ∧ msg ≠ Some c.
Proof.
  unfold offline.on_route_event. destruct (offline.check_connectivity fwmark s) as [c' s1] eqn:E. cbn.
  case_bool_decide as Hc; intros [= <- <- <-]; cbn; naive_solver.
Qed.

(** ** An example *)

Module Example.
Fixpoint bits_text (p : positive) : string :=
  match p with xH => "" | xO p => String "0"%char (bits_text p) | xI p => String "1"%char (bits_text p) end.
Fixpoint text_bits (s : string) : positive :=
  match s with "" => xH | String c s => if Ascii.eqb c "0"%char then xO (text_bits s) else xI (text_bits s) end.
Lemma text_bits_text p : text_bits (bits_text p) = p.
Proof. induction p; cbn; congruence. Qed.

Definition to_sum (a : IpAddr) : Z + Z := match a with AddrV4 x => inl x | AddrV6 x => inr x end.
Definition of_sum (a : Z + Z) : IpAddr := match a with inl x => AddrV4 x | inr x => AddrV6 x end.
Lemma of_to_sum l : map of_sum (map to_sum l) = l.
Proof. induction l as [|[]]; cbn; congruence. Qed.

(** Servers and a number that stands for the options of the file. *)
#[local] Program Instance toy_conf : ResolvConf := {|
  Config := list IpAddr * Z;
  Config_new := ([], 0);
  parse s := match decode (A := list (Z + Z) * Z) (text_bits s) with Some (l, z) => Some (map of_sum l, z) | None => None end;
  to_string c := bits_text (encode (map to_sum c.1, c.2));
  nameservers := fst;
  with_nameservers l c := (l, c.2)
|}.
Next Obligation. intros [l z]. cbn. by rewrite text_bits_text, decode_encode, of_to_sum. Qed.
Next Obligation. done. Qed.
Next Obligation. done. Qed.
Next Obligation. by intros []. Qed.

Import static_resolv_conf.
Definition router : IpAddr := AddrV4 (Ipv4Addr_new 192 168 1 1).
Definition tunnel_dns : IpAddr := AddrV4 (Ipv4Addr_new 10 64 0 1).
Definition user_conf : Config := ([router], 1).
(** Another program changes the options and keeps the servers that it found. *)
Definition edited_conf : Config := ([tunnel_dns], 2).
Definition restored_conf : Config := ([router], 2).
Definition files0 : Files := {| conf := Some (to_string user_conf); backup_file := None; events := Some 0%nat; faults := [] |}.
Definition after_set : option State * Files := let '(_, st, f) := set_dns [tunnel_dns] None files0 in (st, f).
Definition after_edit : Files := edit edited_conf after_set.2.
Definition after_events : option State * Files := event_loop (event_loop (after_set.1, after_edit)).

Lemma resolv_conf_restored_witness :
  conf (reset after_events.1 after_events.2).2 = Some (to_string restored_conf) ∧
  conf (StaticResolvConf_new after_events.2).2 = Some (to_string restored_conf).
Proof.
  destruct (resolv_conf_restored (edited after_set.1 edited_conf [user_conf]) after_events.1 after_events.2) as (_ & _ & _ & Hs).
  - apply (Event _ (event_loop (after_set.1, after_edit)).1 (event_loop (after_set.1, after_edit)).2).
    + apply (Event _ after_set.1 after_edit); [|vm_compute; reflexivity].
      apply Edit, (Set_dns _ None files0 [tunnel_dns]); [|vm_compute; reflexivity].
      apply Begin, parse_to_string.
    + vm_compute. reflexivity.
  - apply (Hs {| backup := restored_conf; desired_dns := [tunnel_dns] |}); vm_compute; reflexivity.
Defined.
End Example.
