(* ===== verification/ApiClient.v ===== *)
(** * The client of Mullvad's API (mullvad-api)

    Requests and how their answers are read (rest.rs, lib.rs, device.rs), the
    service that runs them and rotates access methods (rest.rs), the store of
    access tokens (access.rs), the list of relays as the server sends it
    (relay_list.rs) with the updater of the daemon (mullvad-daemon/src/relay_list),
    and the cached address of the API (address_cache.rs) with its updater
    (mullvad-daemon/src/api_address_updater.rs).

    HTTP, JSON and TLS are in other packages: what they answer is an input. *)

From stdpp Require Import pretty.
From Stdlib Require Import Ascii.
From Stdlib Require Import Sorting.Sorted.
From S2P Require Import Prelude NetTypes LinuxFirewall Constraints RelayTypes RelaySelector Retry Availability DeviceService.

(** ** Requests and responses (rest.rs) *)

Module http.
Inductive Method : Set := GET | POST | PUT | DELETE | HEAD.
(** What the service returns: the status, the headers that are read, and the
    body, which may break off. *)
Record Response : Set := {
  status : Z;
  content_length : option string;
  content_type : option string;
  etag : option (option string);
  body : result rest.Error string
}.
Definition OK : Z := 200.
Definition CREATED : Z := 201.
Definition NO_CONTENT : Z := 204.
Definition NOT_MODIFIED : Z := 304.
Definition METHOD_NOT_ALLOWED : Z := 405.
Definition is_success (status : Z) : bool := (200 <=? status) && (status <? 300).
End http.

(** The crates http and serde_json, and the texts of the standard library. *)
Class ApiCrates : Type := {
  uri_ok : string → bool;
  header_value_ok : string → bool;
  canonical_reason : Z → option string;
  parse_usize : string → option Z;
  Json : Type;
  from_slice : string → option Json;
  to_vec : Json → string;
  (** Objects by their fields, and the ways in which answers are read. *)
  json_object : list (string * string) → Json;
  json_bool : bool → string;
  field : string → Json → option string;
  field_opt : string → Json → option (option string);
  to_lowercase : string → string
}.

Module api.
Section Requests.
Context `{ApiCrates}.

Definition USER_AGENT : string := "mullvad-app".
(** Milliseconds. *)
Definition DEFAULT_TIMEOUT : Z := 10000.
Definition DEFAULT_ERROR_TYPE : string := "about:blank".
Definition INVALID_ACCESS_TOKEN : string := "INVALID_ACCESS_TOKEN".

Record Request : Type := {
  method : http.Method;
  uri : string;
  headers : list (string * string);
  request_body : string;
  timeout : Z;
  has_token_store : bool;
  account_ : option AccountNumber;
  expected_status_ : list Z
}.
Record RequestFactory : Set := { hostname : string; token_store : bool; default_timeout_ : Z }.

Definition RequestFactory_new (hostname : string) (token_store : bool) : RequestFactory :=
  {| hostname := hostname; token_store := token_store; default_timeout_ := DEFAULT_TIMEOUT |}.
Definition default_timeout (timeout : Z) (f : RequestFactory) : RequestFactory :=
  {| hostname := hostname f; token_store := token_store f; default_timeout_ := timeout |}.

Definition get_uri (f : RequestFactory) (path : string) : result rest.Error string :=
  let uri := "https://" +:+ hostname f +:+ "/" +:+ path in
  if uri_ok uri then Ok uri else Err rest.InvalidUri.

Definition hyper_request (f : RequestFactory) (path : string) (m : http.Method) (body : string)
    (more : list (string * string)) : result rest.Error Request :=
  uri ← get_uri f path;
  if header_value_ok (hostname f) then
    Ok {| method := m; uri := uri;
          headers := [("user-agent"%string, USER_AGENT); ("accept"%string, "application/json"%string);
                      ("host"%string, hostname f)] ++ more;
          request_body := body; timeout := default_timeout_ f; has_token_store := token_store f;
          account_ := None; expected_status_ := [] |}
  else Err rest.InvalidHeaderError.

Definition request (f : RequestFactory) (path : string) (m : http.Method) : result rest.Error Request :=
  hyper_request f path m "" [].
Definition get (f : RequestFactory) (path : string) : result rest.Error Request := request f path http.GET.
Definition post (f : RequestFactory) (path : string) : result rest.Error Request := request f path http.POST.
Definition put (f : RequestFactory) (path : string) : result rest.Error Request := request f path http.PUT.
Definition delete (f : RequestFactory) (path : string) : result rest.Error Request := request f path http.DELETE.
Definition head (f : RequestFactory) (path : string) : result rest.Error Request := request f path http.HEAD.

Definition json_request_with_bytes (f : RequestFactory) (m : http.Method) (path body : string) : result rest.Error Request :=
  hyper_request f path m body
    [("content-length"%string, pretty (Z.of_nat (String.length body))); ("content-type"%string, "application/json"%string)].
Definition json_request (f : RequestFactory) (m : http.Method) (path : string) (body : Json) : result rest.Error Request :=
  json_request_with_bytes f m path (to_vec body).
Definition post_json (f : RequestFactory) (path : string) (body : Json) : result rest.Error Request :=
  json_request f http.POST path body.
Definition put_json (f : RequestFactory) (path : string) (body : Json) : result rest.Error Request :=
  json_request f http.PUT path body.

Definition account (a : AccountNumber) (r : Request) : result rest.Error Request :=
  if has_token_store r then
    Ok {| method := method r; uri := uri r; headers := headers r; request_body := request_body r; timeout := timeout r;
          has_token_store := true; account_ := Some a; expected_status_ := expected_status_ r |}
  else Err rest.NoAccessTokenStore.
Definition with_timeout (t : Z) (r : Request) : Request :=
  {| method := method r; uri := uri r; headers := headers r; request_body := request_body r; timeout := t;
     has_token_store := has_token_store r; account_ := account_ r; expected_status_ := expected_status_ r |}.
Definition expected_status (l : list Z) (r : Request) : Request :=
  {| method := method r; uri := uri r; headers := headers r; request_body := request_body r; timeout := timeout r;
     has_token_store := has_token_store r; account_ := account_ r; expected_status_ := l |}.
(** [HeaderMap::insert] replaces. *)
Definition header (key value : string) (r : Request) : result rest.Error Request :=
  if header_value_ok value then
    Ok {| method := method r; uri := uri r;
          headers := List.filter (λ h, negb (bool_decide (h.1 = key))) (headers r) ++ [(key, value)];
          request_body := request_body r; timeout := timeout r;
          has_token_store := has_token_store r; account_ := account_ r; expected_status_ := expected_status_ r |}
  else Err rest.InvalidHeaderError.

Definition get_body_length (r : http.Response) : Z :=
  default 0 (length ← http.content_length r; parse_usize length).

Definition deserialize_body {A} (read : Json → option A) (r : http.Response) : result rest.Error A :=
  text ← http.body r;
  match from_slice text with
  | None => Err rest.DeserializeError
  | Some j => match read j with Some a => Ok a | None => Err rest.DeserializeError end
  end.

Definition handle_error_response {A} (r : http.Response) : result rest.Error A :=
  let status := http.status r in
  if status =? http.METHOD_NOT_ALLOWED then Err (rest.ApiError status "Method not allowed")
  else if get_body_length r =? 0
  then Err (rest.ApiError status (default "Unexpected error"%string (canonical_reason status)))
  else if bool_decide (http.content_type r = Some "application/problem+json"%string) then
    type ← deserialize_body (field_opt "type") r;
    Err (rest.ApiError status (default DEFAULT_ERROR_TYPE type))
  else
    code ← deserialize_body (field "code") r;
    Err (rest.ApiError status code).

(** [AccessTokenStore::check_response]: whether the store is told to forget the
    token of the account. *)
Definition check_response {A} (response : result rest.Error A) : bool :=
  match response with
  | Err (rest.ApiError _ code) => bool_decide (code = INVALID_ACCESS_TOKEN)
  | _ => false
  end.

(** A transport failure, as the HTTP client returns it: one of hyper's errors. *)
Inductive Transport : Set := LegacyHyper.
Definition from_transport (e : Transport) : rest.Error := rest.LegacyHyperError.

(** [into_future_without_timeout], given the token that the store answers with
    and what the HTTP client returns for the request that is sent: the outcome,
    the request if one was sent, and the account whose token is forgotten. *)
Definition into_future (token : AccountNumber → result rest.Error string)
    (client : Request → result Transport http.Response) (r : Request) :
    result rest.Error http.Response * option Request * option AccountNumber :=
  let with_account := match account_ r with Some a => if has_token_store r then Some a else None | None => None end in
  match match with_account with
        | Some a =>
            access_token ← token a;
            header "authorization" ("Bearer " +:+ access_token) r
        | None => Ok r
        end with
  | Err e => (Err e, None, None)
  | Ok r =>
      let response := map_err from_transport (client r) in
      let forgotten := match with_account with Some a => if check_response response then Some a else None | None => None end in
      (response ← response;
       if negb (existsb (Z.eqb (http.status response)) (expected_status_ r)) && negb (http.is_success (http.status response))
       then handle_error_response response
       else Ok response, Some r, forgotten)
  end.

(** ** The calls (lib.rs, device.rs) *)

Definition ACCOUNTS_URL_PREFIX : string := "accounts/v1".
Definition APP_URL_PREFIX : string := "app/v1".
Definition AUTH_URL_PREFIX : string := "auth/v1".

(** [service.request(request).await], on the state of whatever is behind it. *)
Context {S : Type} (send : Request → S → result rest.Error http.Response * S) (f : RequestFactory).

Definition AM (A : Type) : Type := S → result rest.Error A * S.
#[local] Instance AM_ret : MRet AM := λ A a s, (Ok a, s).
#[local] Instance AM_bind : MBind AM := λ A B k m s,
  match m s with (Ok a, s) => k a s | (Err e, s) => (Err e, s) end.
Definition lift {A} (r : result rest.Error A) : AM A := λ s, (r, s).
Definition perform (r : result rest.Error Request) : AM http.Response := r ← lift r; send r.

Context {AccountData VoucherSubmission DeviceT Addresses AddressList : Type}
  (read_account : Json → option AccountData) (read_voucher : Json → option VoucherSubmission)
  (read_device : Json → option DeviceT) (read_devices : Json → option (list DeviceT))
  (read_addresses : Json → option Addresses) (read_api_addrs : Json → option AddressList).

Definition accounts (path : string) : string := ACCOUNTS_URL_PREFIX +:+ path.
Definition app (path : string) : string := APP_URL_PREFIX +:+ path.

Definition get_data_request (a : AccountNumber) : result rest.Error Request :=
  r ← get f (accounts "/accounts/me"); account a (expected_status [http.OK] r).
Definition get_data (a : AccountNumber) : AM AccountData :=
  response ← perform (get_data_request a); lift (deserialize_body read_account response).
Definition create_account_request : result rest.Error Request :=
  r ← post f (accounts "/accounts"); Ok (expected_status [http.CREATED] r).
Definition create_account : AM string :=
  response ← perform create_account_request; lift (deserialize_body (field "number") response).
Definition submit_voucher_request (a : AccountNumber) (voucher_code : string) : result rest.Error Request :=
  r ← post_json f (app "/submit-voucher") (json_object [("voucher_code"%string, voucher_code)]);
  r ← account a r; Ok (expected_status [http.OK] r).
Definition submit_voucher (a : AccountNumber) (voucher_code : string) : AM VoucherSubmission :=
  response ← perform (submit_voucher_request a voucher_code); lift (deserialize_body read_voucher response).
Definition delete_account_request (a : AccountNumber) : result rest.Error Request :=
  r ← delete f (accounts "/accounts/me"); r ← account a r; r ← header "Mullvad-Account-Number" a r;
  Ok (expected_status [http.NO_CONTENT] r).
Definition delete_account (a : AccountNumber) : AM unit := _ ← perform (delete_account_request a); mret tt.
Definition get_www_auth_token_request (a : AccountNumber) : result rest.Error Request :=
  r ← post f (app "/www-auth-token"); r ← account a r; Ok (expected_status [http.OK] r).
Definition get_www_auth_token (a : AccountNumber) : AM string :=
  response ← perform (get_www_auth_token_request a); lift (deserialize_body (field "auth_token") response).
Definition problem_report_request (report : Json) : result rest.Error Request :=
  r ← post_json f (app "/problem-report") report; Ok (expected_status [http.NO_CONTENT] r).
Definition problem_report (report : Json) : AM unit := _ ← perform (problem_report_request report); mret tt.
Definition get_api_addrs_request : result rest.Error Request :=
  r ← get f (app "/api-addrs"); Ok (expected_status [http.OK] r).
Definition get_api_addrs : AM AddressList :=
  response ← perform get_api_addrs_request; lift (deserialize_body read_api_addrs response).
Definition api_addrs_available : AM bool :=
  response ← perform (r ← head f (app "/api-addrs"); Ok (expected_status [http.OK] r));
  mret (http.is_success (http.status response)).

Definition create_device_request (a : AccountNumber) (pubkey : string) : result rest.Error Request :=
  r ← post_json f (accounts "/devices") (json_object [("pubkey"%string, pubkey); ("hijack_dns"%string, json_bool false)]);
  r ← account a r; Ok (expected_status [http.CREATED] r).
Definition create_device (a : AccountNumber) (pubkey : string) : AM (DeviceT * Addresses) :=
  response ← perform (create_device_request a pubkey);
  lift (deserialize_body (λ j, d ← read_device j; x ← read_addresses j; Some (d, x)) response).
Definition device_path (id : string) : string := accounts "/devices/" +:+ id.
Definition get_device_request (a : AccountNumber) (id : string) : result rest.Error Request :=
  r ← get f (device_path id); account a (expected_status [http.OK] r).
Definition get_device (a : AccountNumber) (id : string) : AM DeviceT :=
  response ← perform (get_device_request a id); lift (deserialize_body read_device response).
Definition list_devices_request (a : AccountNumber) : result rest.Error Request :=
  r ← get f (accounts "/devices"); account a (expected_status [http.OK] r).
Definition list_devices (a : AccountNumber) : AM (list DeviceT) :=
  response ← perform (list_devices_request a); lift (deserialize_body read_devices response).
Definition remove_device_request (a : AccountNumber) (id : string) : result rest.Error Request :=
  r ← delete f (device_path id); account a (expected_status [http.NO_CONTENT] r).
Definition remove_device (a : AccountNumber) (id : string) : AM unit := _ ← perform (remove_device_request a id); mret tt.
Definition replace_wg_key_request (a : AccountNumber) (id pubkey : string) : result rest.Error Request :=
  r ← put_json f (device_path id +:+ "/pubkey") (json_object [("pubkey"%string, pubkey)]);
  account a (expected_status [http.OK] r).
Definition replace_wg_key (a : AccountNumber) (id pubkey : string) : AM Addresses :=
  response ← perform (replace_wg_key_request a id pubkey); lift (deserialize_body read_addresses response).
Definition fetch_access_token_request (a : AccountNumber) : result rest.Error Request :=
  r ← post_json f (AUTH_URL_PREFIX +:+ "/token") (json_object [("account_number"%string, a)]);
  Ok (expected_status [http.OK] r).
End Requests.
End api.

(** ** The service that runs requests (rest.rs) *)

Module service.
Section Service.
Context {Mode : Type}.

(** [usize] *)
Definition GENERATIONS : Z := 2 ^ 64.
Record RequestService : Type := { connection_mode : Mode; connection_mode_generation : Z }.

Inductive RequestCommand : Set := NewRequest (id : nat) | Reset | NextApiConfig (generation : Z).
(** What the service does: connections are dropped when the mode changes and on
    a reset; a request runs on its own, with the generation it was started in. *)
Inductive Effect : Type :=
| SetConnectionMode (mode : Mode)
| ResetConnections
| StartRequest (id : nat) (generation : Z)
| Rotate.

Definition new (initial : Mode) : RequestService * list Effect :=
  ({| connection_mode := initial; connection_mode_generation := 0 |}, [SetConnectionMode initial]).

Definition process_command (c : RequestCommand) (s : RequestService) : RequestService * list Effect :=
  match c with
  | NewRequest id => (s, [StartRequest id (connection_mode_generation s)])
  | Reset => (s, [ResetConnections])
  | NextApiConfig generation =>
      if generation =? connection_mode_generation s then
        ({| connection_mode := connection_mode s;
            connection_mode_generation := (connection_mode_generation s + 1) mod GENERATIONS |}, [Rotate])
      else (s, [])
  end.

Inductive Input : Type := ModeReceived (mode : option Mode) | CommandReceived (command : option RequestCommand).
(** A turn of [into_future]; the end resets the connections. *)
Definition turn (i : Input) (s : RequestService) : option RequestService * list Effect :=
  match i with
  | ModeReceived (Some new_mode) =>
      (Some {| connection_mode := new_mode; connection_mode_generation := connection_mode_generation s |},
       [SetConnectionMode new_mode])
  | CommandReceived (Some command) => let '(s, e) := process_command command s in (Some s, e)
  | ModeReceived None | CommandReceived None => (None, [ResetConnections])
  end.

(** [map_aborted], given whether the cause is an aborted stream. *)
Definition map_aborted (aborted : bool) (e : rest.Error) : rest.Error :=
  match e with rest.HyperError => if aborted then rest.Aborted else e | _ => e end.

(** The end of a request: its answer, and the command that it sends. *)
Definition finish_request {A} (generation : Z) (aborted offline : bool) (response : result rest.Error A) :
    result rest.Error A * option RequestCommand :=
  let response := map_err (map_aborted aborted) response in
  (response,
   match response with
   | Err err => if rest.is_network_error err && negb offline then Some (NextApiConfig generation) else None
   | Ok _ => None
   end).

(** *** One rotation for all the requests that fail together *)

(** The service with the requests that run, by generation, and the commands
    that it has not read yet. *)
Record System : Type := {
  sys : RequestService;
  running : list Z;
  queue : list RequestCommand;
  rotated : list Z
}.
Inductive step : System → System → Prop :=
| Ask id s r q rs : step {| sys := s; running := r; queue := q; rotated := rs |}
    {| sys := s; running := r; queue := q ++ [NewRequest id]; rotated := rs |}
| Finish {A} s r1 g r2 q rs aborted offline (response : result rest.Error A) :
    step {| sys := s; running := r1 ++ g :: r2; queue := q; rotated := rs |}
      {| sys := s; running := r1 ++ r2; queue := q ++ option_list (finish_request g aborted offline response).2; rotated := rs |}
| Mode_ m s r q rs : step {| sys := s; running := r; queue := q; rotated := rs |}
    {| sys := {| connection_mode := m; connection_mode_generation := connection_mode_generation s |};
       running := r; queue := q; rotated := rs |}
| Process c s r q rs s' e :
    process_command c s = (s', e) →
    step {| sys := s; running := r; queue := c :: q; rotated := rs |}
      {| sys := s'; running := match e with [StartRequest _ g] => g :: r | _ => r end; queue := q;
         rotated := match e with [Rotate] => rs ++ [connection_mode_generation s] | _ => rs end |}.

Record system_ok (s : System) : Prop := {
  so_running g : g ∈ running s → 0 ≤ g ≤ connection_mode_generation (sys s);
  so_queue g : NextApiConfig g ∈ queue s → 0 ≤ g ≤ connection_mode_generation (sys s);
  so_rotated : rotated s = map Z.of_nat (seq 0 (Z.to_nat (connection_mode_generation (sys s))));
  so_range : 0 ≤ connection_mode_generation (sys s)
}.

Lemma step_ok s s' :
  step s s' → system_ok s → connection_mode_generation (sys s) < GENERATIONS - 1 → system_ok s'.
Proof.
  intros Hst [Hr Hq Ho Hz] Hlt. destruct Hst as [id s r q rs|A s r1 g r2 q rs ab off resp|m s r q rs|c s r q rs s' e E]; cbn in *.
  - constructor; cbn; try done. intros g [Hg|Hg]%elem_of_app; [by apply Hq|set_solver].
  - constructor; cbn; try done; [set_solver|]. intros g' [Hg|Hg]%elem_of_app; [by apply Hq|].
    assert (g' = g) as ->; [|apply Hr; set_solver]. unfold finish_request in Hg. destruct resp as [a|err]; cbn in Hg; [set_solver|].
    destruct (_ && _); cbn in Hg; set_solver.
  - by constructor.
  - destruct c as [id| |g]; cbn in E.
    + injection E as <- <-. constructor; cbn; [|set_solver|done..]. intros g [->|Hg]%elem_of_cons; [lia|by apply Hr].
    + injection E as <- <-. constructor; cbn; [done|set_solver|done..].
    + destruct (g =? _) eqn:Eg; injection E as <- <-; [|constructor; cbn; [done|set_solver|done..]].
      assert ((connection_mode_generation s + 1) mod GENERATIONS = connection_mode_generation s + 1) as Hm by (apply Z.mod_small; lia).
      constructor; cbn; rewrite ?Hm; [intros x Hx%Hr; lia| |rewrite Ho|lia].
      * intros x Hx. enough (0 ≤ x ≤ connection_mode_generation s) by lia. apply Hq. set_solver.
      * rewrite Z2Nat.inj_add by lia. rewrite Nat.add_1_r, seq_S, map_app. cbn. by rewrite Z2Nat.id by lia.
Qed.

(** However many requests fail, those of one generation cause one rotation: the
    rotations are those of the generations 0, 1, 2 and so on, each once. *)
Lemma rotations_counted initial s :
  rtc (λ s s', step s s' ∧ connection_mode_generation (sys s) < GENERATIONS - 1)
    {| sys := (new initial).1; running := []; queue := []; rotated := [] |} s →
  rotated s = map Z.of_nat (seq 0 (Z.to_nat (connection_mode_generation (sys s)))) ∧ NoDup (rotated s).
Proof.
  intros Hs. assert (system_ok s) as [_ _ Ho _].
  { assert (system_ok {| sys := (new initial).1; running := []; queue := []; rotated := [] |}) as Hi by (constructor; cbn; [set_solver..|done|lia]).
    induction Hs as [|x y z [Hxy Hlt] _ IH]; [done|]. eauto using step_ok. }
  rewrite Ho. split; [done|]. apply NoDup_fmap_2; [intros ?? ?; lia|apply NoDup_seq].
Qed.
End Service.
End service.

(** ** Access tokens (access.rs) *)

Module access.
Record AccessTokenData : Set := { access_token : string; expiry : Z }.
Definition is_expired (now : Z) (d : AccessTokenData) : bool := expiry d <=? now.

(** An account, with the task that fetches a token and those who wait for it;
    channels and tasks have numbers. *)
Record AccountState : Set := {
  current_access_token : option AccessTokenData;
  inflight_request : option nat;
  response_channels : list nat
}.
Definition AccountState_default : AccountState :=
  {| current_access_token := None; inflight_request := None; response_channels := [] |}.

(** The store with its tasks: those that run, the messages they have sent, and
    the answers on the channels. *)
Record Store : Set := {
  account_states : AccountNumber → AccountState;
  tasks : list (nat * AccountNumber);
  completed : list (nat * AccountNumber * result rest.Error AccessTokenData);
  answers : list (nat * result rest.Error string);
  next_task : nat
}.
Definition Store_new : Store :=
  {| account_states := λ _, AccountState_default; tasks := []; completed := []; answers := []; next_task := 0 |}.

Definition set_account (a : AccountNumber) (st : AccountState) (s : Store) : Store :=
  {| account_states := λ b, if bool_decide (b = a) then st else account_states s b;
     tasks := tasks s; completed := completed s; answers := answers s; next_task := next_task s |}.
Definition answer (tx : nat) (r : result rest.Error string) (s : Store) : Store :=
  {| account_states := account_states s; tasks := tasks s; completed := completed s;
     answers := answers s ++ [(tx, r)]; next_task := next_task s |}.
Definition spawn_fetch (a : AccountNumber) (s : Store) : Store :=
  {| account_states := account_states s; tasks := tasks s ++ [(next_task s, a)]; completed := completed s;
     answers := answers s; next_task := S (next_task s) |}.

Definition get_access_token (now : Z) (a : AccountNumber) (tx : nat) (s : Store) : Store :=
  let st := account_states s a in
  match match current_access_token st with
        | Some d => if negb (is_expired now d) then Some d else None
        | None => None
        end with
  | Some d => answer tx (Ok (access_token d)) s
  | None =>
      match inflight_request st with
      | Some task =>
          set_account a {| current_access_token := None; inflight_request := Some task;
                           response_channels := response_channels st ++ [tx] |} s
      | None =>
          set_account a {| current_access_token := None; inflight_request := Some (next_task s);
                           response_channels := response_channels st ++ [tx] |} (spawn_fetch a s)
      end
  end.

(** A task that is aborted before it has sent its message does not send it. *)
Definition invalidate_token (a : AccountNumber) (s : Store) : Store :=
  let st := account_states s a in
  let s := match inflight_request st with
           | Some task =>
               {| account_states := account_states s; tasks := List.filter (λ t, negb (t.1 =? task)%nat) (tasks s);
                  completed := completed s; answers := answers s; next_task := next_task s |}
           | None => s
           end in
  set_account a AccountState_default s.

Definition token_of (r : result rest.Error AccessTokenData) : result rest.Error string :=
  match r with Ok d => Ok (access_token d) | Err e => Err e end.

Definition request_completed (a : AccountNumber) (r : result rest.Error AccessTokenData) (s : Store) : Store :=
  let st := account_states s a in
  let s := foldl (λ s tx, answer tx (token_of r) s) s (response_channels st) in
  set_account a {| current_access_token := match r with Ok d => Some d | Err _ => current_access_token st end;
                   inflight_request := None; response_channels := [] |} s.

(** A turn of [service_requests], and what the tasks do. *)
Inductive step : Store → Store → Prop :=
| Get now a tx s : step s (get_access_token now a tx s)
| Invalidate a s : step s (invalidate_token a s)
| Fetched task a r s t1 t2 :
    tasks s = t1 ++ (task, a) :: t2 →
    step s {| account_states := account_states s; tasks := t1 ++ t2; completed := completed s ++ [(task, a, r)];
              answers := answers s; next_task := next_task s |}
| Completed task a r rest s :
    completed s = (task, a, r) :: rest →
    step s (request_completed a r
              {| account_states := account_states s; tasks := tasks s; completed := rest;
                 answers := answers s; next_task := next_task s |}).

(** *** Every request for a token is answered

    Runs in which no token is invalidated, which is what happens (below): [asked]
    are the requests so far and [got] what the API has answered. *)
Inductive run : list (nat * AccountNumber) → list (AccountNumber * result rest.Error AccessTokenData) → Store → Prop :=
| RunStart : run [] [] Store_new
| RunGet asked got now a tx s :
    run asked got s → tx ∉ asked.*1 → run (asked ++ [(tx, a)]) got (get_access_token now a tx s)
| RunFetched asked got task a r s t1 t2 :
    run asked got s → tasks s = t1 ++ (task, a) :: t2 →
    run asked (got ++ [(a, r)])
      {| account_states := account_states s; tasks := t1 ++ t2; completed := completed s ++ [(task, a, r)];
         answers := answers s; next_task := next_task s |}
| RunCompleted asked got task a r rest s :
    run asked got s → completed s = (task, a, r) :: rest →
    run asked got (request_completed a r
      {| account_states := account_states s; tasks := tasks s; completed := rest; answers := answers s; next_task := next_task s |}).

(** The fetches for an account that are under way. *)
Definition underway (a : AccountNumber) (s : Store) : list nat :=
  (List.filter (λ t, bool_decide (t.2 = a)) (tasks s)).*1 ++ (List.filter (λ t, bool_decide (t.1.2 = a)) (completed s)).*1.*1.

Record store_ok (asked : list (nat * AccountNumber)) (got : list (AccountNumber * result rest.Error AccessTokenData)) (s : Store) : Prop := {
  k_flight a : underway a s = match inflight_request (account_states s a) with Some t => [t] | None => [] end;
  k_waiting a : response_channels (account_states s a) ≠ [] → inflight_request (account_states s a) ≠ None;
  k_asked : NoDup (asked.*1);
  k_once : NoDup (answers s).*1;
  k_channels tx a : (tx, a) ∈ asked → (tx ∈ response_channels (account_states s a) ↔ tx ∉ (answers s).*1);
  k_own tx a : tx ∈ response_channels (account_states s a) → (tx, a) ∈ asked;
  k_distinct a : NoDup (response_channels (account_states s a));
  k_completed t a r : (t, a, r) ∈ completed s → (a, r) ∈ got;
  k_token a d : current_access_token (account_states s a) = Some d → (a, Ok d) ∈ got;
  k_answers tx r : (tx, r) ∈ answers s → ∃ a r', (tx, a) ∈ asked ∧ (a, r') ∈ got ∧ r = token_of r'
}.

Lemma foldl_answer r l s :
  foldl (λ s tx, answer tx r s) s l =
  {| account_states := account_states s; tasks := tasks s; completed := completed s;
     answers := answers s ++ map (λ tx, (tx, r)) l; next_task := next_task s |}.
Proof.
  revert s. induction l as [|tx l IH]; intros s; cbn; [rewrite app_nil_r; by destruct s|].
  rewrite IH. cbn. by rewrite <- app_assoc.
Qed.

Lemma fst_pairs (r : result rest.Error string) l : (map (λ tx : nat, (tx, r)) l).*1 = l.
Proof. induction l; cbn; congruence. Qed.

Lemma underway_mid (t : nat) (a b : AccountNumber) (t1 t2 : list (nat * AccountNumber)) :
  (List.filter (λ t, bool_decide (t.2 = b)) (t1 ++ (t, a) :: t2)).*1 =
  (List.filter (λ t, bool_decide (t.2 = b)) t1).*1 ++ (if bool_decide (a = b) then [t] else []) ++
  (List.filter (λ t, bool_decide (t.2 = b)) t2).*1.
Proof. rewrite List.filter_app. cbn. rewrite fmap_app. by case_bool_decide. Qed.

(** Answering a request with what is known. *)
Lemma ok_answer asked got s tx a r :
  store_ok asked got s → tx ∉ asked.*1 → (a, r) ∈ got → store_ok (asked ++ [(tx, a)]) got (answer tx (token_of r) s).
Proof.
  intros [Hf Hw Ha Ho Hc Hown Hd Hco Ht Han] Htx Hin.
  assert (tx ∉ (answers s).*1) as Hna.
  { intros ([tx' r'] & -> & Hx)%list_elem_of_fmap. apply Han in Hx as (b & ? & Hb & _). apply Htx, list_elem_of_fmap. by exists (tx', b). }
  constructor; cbn; try done.
  - rewrite fmap_app. apply NoDup_app. split_and!; [done| |apply NoDup_singleton]. set_solver.
  - rewrite fmap_app. apply NoDup_app. split_and!; [done| |apply NoDup_singleton]. set_solver.
  - intros tx' b Hb. rewrite fmap_app, not_elem_of_app. apply elem_of_app in Hb as [Hb|Hb].
    + rewrite (Hc _ _ Hb). split; [|naive_solver]. intros Hn. split; [done|]. cbn. intros ->%list_elem_of_singleton.
      apply Htx, list_elem_of_fmap. by exists (tx, b).
    + apply list_elem_of_singleton in Hb as [= -> ->]. cbn. split; [|set_solver].
      intros Hx%Hown. exfalso. apply Htx, list_elem_of_fmap. by exists (tx, a).
  - intros tx' b Hb%Hown. set_solver.
  - intros tx' r' [Hx|Hx]%elem_of_app.
    + apply Han in Hx as (b & r2 & ? & ? & ?). exists b, r2. set_solver.
    + apply list_elem_of_singleton in Hx as [= -> ->]. exists a, r. set_solver.
Qed.

(** Making a request wait for the fetch that is under way. *)
Lemma ok_wait asked got s tx a task :
  store_ok asked got s → tx ∉ asked.*1 → inflight_request (account_states s a) = Some task →
  store_ok (asked ++ [(tx, a)]) got
    (set_account a {| current_access_token := None; inflight_request := Some task;
                      response_channels := response_channels (account_states s a) ++ [tx] |} s).
Proof.
  intros [Hf Hw Ha Ho Hc Hown Hd Hco Ht Han] Htx Hfl.
  assert (∀ r, (tx, r) ∉ answers s) as Hna.
  { intros r Hx. apply Han in Hx as (b & ? & Hb & _). apply Htx, list_elem_of_fmap. by exists (tx, b). }
  constructor; cbn; try done.
  - intros b. pose proof (Hf b) as Hfb. unfold underway in Hfb. rewrite Hfb. destruct (decide (b = a)) as [->|Hb].
    + rewrite bool_decide_eq_true_2 by done. by rewrite Hfl.
    + by rewrite bool_decide_eq_false_2.
  - intros b. case_bool_decide; cbn; [done|apply Hw].
  - rewrite fmap_app. apply NoDup_app. split_and!; [done| |apply NoDup_singleton]. set_solver.
  - intros tx' b Hb. apply elem_of_app in Hb as [Hb|Hb].
    + case_bool_decide as E; cbn; [subst b|by apply Hc]. rewrite elem_of_app, (Hc _ _ Hb). split; [|tauto]. intros [?|Hx]; [done|].
      apply list_elem_of_singleton in Hx as ->. exfalso. apply Htx, list_elem_of_fmap. by exists (tx, a).
    + apply list_elem_of_singleton in Hb as [= -> ->]. rewrite bool_decide_eq_true_2 by done. cbn. split; [|set_solver].
      intros _ ([? r] & -> & Hx)%list_elem_of_fmap. by apply (Hna r).
  - intros tx' b. case_bool_decide as E; cbn; [subst b; intros [Hx|Hx]%elem_of_app|intros Hx]; [|set_solver|]; apply Hown in Hx; set_solver.
  - intros b. case_bool_decide as E; cbn; [subst b|apply Hd]. apply NoDup_app. split_and!; [apply Hd| |apply NoDup_singleton].
    intros x Hx ->%list_elem_of_singleton. apply Hown in Hx. apply Htx, list_elem_of_fmap. by exists (tx, a).
  - intros b d. case_bool_decide; cbn; [done|apply Ht].
  - intros tx' r Hx. apply Han in Hx as (b & r2 & ? & ? & ?). exists b, r2. set_solver.
Qed.

(** Starting a fetch for an account that has none. *)
Lemma ok_spawn asked got s a :
  store_ok asked got s → inflight_request (account_states s a) = None →
  store_ok asked got
    (set_account a {| current_access_token := None; inflight_request := Some (next_task s);
                      response_channels := response_channels (account_states s a) |} (spawn_fetch a s)).
Proof.
  intros [Hf Hw Ha Ho Hc Hown Hd Hco Ht Han] Hfl. constructor; cbn; try done.
  - intros b. specialize (Hf b). unfold underway in *. cbn. rewrite underway_mid. cbn. rewrite app_nil_r.
    destruct (decide (b = a)) as [->|Hb].
    + rewrite !bool_decide_eq_true_2 by done. cbn. rewrite Hfl in Hf. apply app_nil in Hf as [-> ->]. done.
    + rewrite !bool_decide_eq_false_2 by done. by rewrite app_nil_r.
  - intros b. case_bool_decide; cbn; [done|apply Hw].
  - intros tx b Hb. case_bool_decide; cbn; [subst b|]; by apply Hc.
  - intros tx b. case_bool_decide; cbn; [subst b|]; apply Hown.
  - intros b. case_bool_decide; cbn; [subst b|]; apply Hd.
  - intros b d. case_bool_decide; cbn; [done|apply Ht].
Qed.

(** Only the values of the map matter. *)
Lemma ok_ext asked got f g t c an n :
  (∀ a, f a = g a) →
  store_ok asked got {| account_states := f; tasks := t; completed := c; answers := an; next_task := n |} →
  store_ok asked got {| account_states := g; tasks := t; completed := c; answers := an; next_task := n |}.
Proof.
  intros E [Hf Hw Ha Ho Hc Hown Hd Hco Ht Han]. cbn in *. constructor; cbn; try done.
  - intros a. rewrite <- E. apply Hf.
  - intros a. rewrite <- E. apply Hw.
  - intros tx a. rewrite <- E. apply Hc.
  - intros tx a. rewrite <- E. apply Hown.
  - intros a. rewrite <- E. apply Hd.
  - intros a d. rewrite <- E. apply Ht.
Qed.

Lemma ok_get asked got s now a tx :
  store_ok asked got s → tx ∉ asked.*1 → store_ok (asked ++ [(tx, a)]) got (get_access_token now a tx s).
Proof.
  intros Hs Htx. unfold get_access_token.
  destruct (match current_access_token _ with Some d => _ | None => _ end) as [d|] eqn:Ec.
  { destruct (current_access_token (account_states s a)) as [d'|] eqn:Et; [|done].
    destruct (negb _); [|done]. injection Ec as ->. apply (ok_answer _ _ _ _ _ (Ok d)); [done..|]. by apply Hs. }
  destruct (inflight_request (account_states s a)) as [task|] eqn:Ef; [by apply ok_wait|].
  pose proof (ok_wait asked got _ tx a (next_task s) (ok_spawn _ _ _ _ Hs Ef) Htx) as Hk. cbn in Hk.
  rewrite bool_decide_eq_true_2 in Hk by done. specialize (Hk eq_refl). cbn in Hk.
  revert Hk. apply ok_ext. intros b. cbn. by case_bool_decide.
Qed.

Lemma single_mid {A} (l1 l2 : list A) x o :
  l1 ++ [x] ++ l2 = match o with Some y => [y] | None => [] end → l1 = [] ∧ l2 = [] ∧ o = Some x.
Proof. destruct o as [y|], l1 as [|z [|]], l2; cbn; intros [=]; simplify_eq; done. Qed.

Lemma ok_fetched asked got s task a r t1 t2 :
  store_ok asked got s → tasks s = t1 ++ (task, a) :: t2 →
  store_ok asked (got ++ [(a, r)])
    {| account_states := account_states s; tasks := t1 ++ t2; completed := completed s ++ [(task, a, r)];
       answers := answers s; next_task := next_task s |}.
Proof.
  intros [Hf Hw Ha Ho Hc Hown Hd Hco Ht Han] Et. constructor; cbn; try done.
  - intros b. specialize (Hf b). unfold underway in Hf. rewrite Et, underway_mid in Hf. unfold underway. cbn. rewrite !List.filter_app. cbn.
    rewrite !fmap_app. destruct (decide (a = b)) as [->|Hb].
    + rewrite !bool_decide_eq_true_2 in * by done. rewrite <- !app_assoc in Hf. apply single_mid in Hf as (-> & E & ->).
      cbn in E. apply app_nil in E as [-> ->]. done.
    + rewrite !bool_decide_eq_false_2 in * by done. cbn in *. by rewrite <- Hf, !app_nil_r.
  - set_solver.
  - intros b d Hd'%Ht. set_solver.
  - intros tx r' Hx. apply Han in Hx as (b & r2 & ? & ? & ?). exists b, r2. set_solver.
Qed.

Lemma ok_completed asked got s task a r rest :
  store_ok asked got s → completed s = (task, a, r) :: rest →
  store_ok asked got (request_completed a r
    {| account_states := account_states s; tasks := tasks s; completed := rest; answers := answers s; next_task := next_task s |}).
Proof.
  intros [Hf Hw Ha Ho Hc Hown Hd Hco Ht Han] Ec. unfold request_completed. rewrite foldl_answer. cbn.
  constructor; cbn; try done.
  - intros b. specialize (Hf b). unfold underway in *. cbn. rewrite Ec in Hf. cbn in Hf. destruct (decide (b = a)) as [->|Hb].
    + rewrite !bool_decide_eq_true_2 in * by done. cbn in *. apply single_mid in Hf as (-> & -> & _). done.
    + rewrite !bool_decide_eq_false_2 in * by done. done.
  - intros b. case_bool_decide; cbn; [done|apply Hw].
  - rewrite fmap_app, fst_pairs. apply NoDup_app. split_and!; [done| |apply Hd].
    intros tx Hx Hch. pose proof (Hown _ _ Hch) as Hb. by apply (Hc _ _ Hb) in Hch.
  - intros tx b Hb. rewrite fmap_app, fst_pairs, not_elem_of_app. case_bool_decide as E; cbn.
    + subst b. split; [set_solver|]. intros [Hn Hch]. by rewrite (Hc _ _ Hb) in Hch.
    + rewrite (Hc _ _ Hb). split; [|tauto]. intros Hn. split; [done|]. intros Hch.
      apply Hown in Hch. apply list_elem_of_lookup in Hb as [x Hx], Hch as [y Hy].
      assert (x = y) as <-.
      { apply (NoDup_lookup _ _ _ tx Ha); by rewrite list_lookup_fmap, ?Hx, ?Hy. }
      congruence.
  - intros tx b. case_bool_decide; cbn; [set_solver|apply Hown].
  - intros b. case_bool_decide; cbn; [constructor|apply Hd].
  - intros t b r' Hx. apply (Hco t). rewrite Ec. by right.
  - assert ((a, r) ∈ got) as Hg by (apply (Hco task); rewrite Ec; by left).
    intros b d. case_bool_decide as E; cbn; [subst b|apply Ht]. destruct r as [d'|e]; [by intros [= ->]|apply Ht].
  - assert ((a, r) ∈ got) as Hg by (apply (Hco task); rewrite Ec; by left).
    intros tx r' [Hx|Hx]%elem_of_app; [by apply Han|].
    apply list_elem_of_fmap in Hx as (tx' & [= -> ->] & Hch). exists a, r. split_and!; [by apply Hown|done..].
Qed.

Lemma run_ok asked got s : run asked got s → store_ok asked got s.
Proof.
  induction 1 as [|asked got now a tx s _ IH Hn|asked got task a r s t1 t2 _ IH Et|asked got task a r rest s _ IH Ec].
  - constructor; cbn; try done; set_solver || constructor.
  - by apply ok_get.
  - by eapply ok_fetched.
  - by eapply ok_completed.
Qed.

(** C36: while no token is invalidated, at most one fetch is under way for an
    account, whatever the number of requests; every request for a token is
    answered at most once, and waits only while a fetch for its account is
    under way, so that when all fetches have ended all are answered; and an
    answer is what the API answered for the account that was asked for. *)
Theorem tokens_answered asked got s :
  run asked got s →
  (∀ a, (length (underway a s) ≤ 1)%nat) ∧
  NoDup (answers s).*1 ∧
  (∀ tx a, (tx, a) ∈ asked → tx ∈ (answers s).*1 ∨ tx ∈ response_channels (account_states s a) ∧ underway a s ≠ []) ∧
  (tasks s = [] → completed s = [] → ∀ tx, tx ∈ asked.*1 ↔ tx ∈ (answers s).*1) ∧
  ∀ tx r, (tx, r) ∈ answers s → ∃ a r', (tx, a) ∈ asked ∧ (a, r') ∈ got ∧ r = token_of r'.
Proof.
  intros [Hf Hw Ha Ho Hc Hown Hd Hco Ht Han]%run_ok.
  assert (∀ tx a, (tx, a) ∈ asked → tx ∈ (answers s).*1 ∨ tx ∈ response_channels (account_states s a) ∧ underway a s ≠ []) as Hall.
  { intros tx a Hx. destruct (decide (tx ∈ (answers s).*1)) as [|Hn]; [by left|right].
    apply (Hc _ _ Hx) in Hn. split; [done|]. rewrite Hf. specialize (Hw a).
    destruct (inflight_request _); [done|]. exfalso. apply Hw; [by intros En; rewrite En in Hn; apply not_elem_of_nil in Hn|done]. }
  split_and!; [|done|done| |done].
  - intros a. rewrite Hf. destruct (inflight_request _); cbn; lia.
  - intros Et Ec tx. split; intros ([? x] & -> & Hx)%list_elem_of_fmap.
    + destruct (Hall _ _ Hx) as [|[_ Hu]]; [done|]. destruct Hu. unfold underway. by rewrite Et, Ec.
    + apply Han in Hx as (a & _ & Hx & _). apply list_elem_of_fmap. by exists (n, a).
Qed.

(** Two requests for one account, while the token is fetched, and a third later. *)
Definition ex_token : AccessTokenData := {| access_token := "token"; expiry := 100 |}.
Definition ex_asked : Store := get_access_token 0 "1234" 8 (get_access_token 0 "1234" 7 Store_new).
Definition ex_fetched : Store :=
  {| account_states := account_states ex_asked; tasks := []; completed := [(0%nat, "1234"%string, Ok ex_token)];
     answers := answers ex_asked; next_task := next_task ex_asked |}.
Definition ex_answered : Store :=
  request_completed "1234" (Ok ex_token)
    {| account_states := account_states ex_fetched; tasks := tasks ex_fetched; completed := [];
       answers := answers ex_fetched; next_task := next_task ex_fetched |}.
Definition ex_store : Store := get_access_token 50 "1234" 9 ex_answered.
Lemma tokens_answered_witness :
  answers ex_store = [(7, Ok "token"%string); (8, Ok "token"%string); (9, Ok "token"%string)]%nat ∧
  ∀ tx : nat, tx ∈ ([(7, "1234"); (8, "1234"); (9, "1234")]%nat%string : list (nat * AccountNumber)).*1 ↔ tx ∈ (answers ex_store).*1.
Proof.
  split; [reflexivity|].
  apply (tokens_answered [(7, "1234"); (8, "1234"); (9, "1234")]%nat%string [("1234"%string, Ok ex_token)] ex_store); [|reflexivity..].
  apply (RunGet [(7, "1234"); (8, "1234")]%nat%string [("1234"%string, Ok ex_token)] 50 "1234" 9 ex_answered); [|apply (bool_decide_eq_false_1 (_ ∈ _)); reflexivity].
  apply (RunCompleted _ _ 0 "1234" (Ok ex_token) [] ex_fetched); [|reflexivity].
  apply (RunFetched [(7, "1234"); (8, "1234")]%nat%string [] 0 "1234" (Ok ex_token) ex_asked [] []); [|reflexivity].
  apply (RunGet [(7, "1234")]%nat%string [] 0 "1234" 8 (get_access_token 0 "1234" 7 Store_new)); [|apply (bool_decide_eq_false_1 (_ ∈ _)); reflexivity].
  apply (RunGet [] [] 0 "1234" 7 Store_new); [constructor|set_solver].
Defined.
End access.

(** No request makes the store forget a token: the store looks at the errors of
    the transport, before the answer of the API is read. *)
Lemma token_never_forgotten `{ApiCrates} token client r : (api.into_future token client r).2 = None.
Proof.
  unfold api.into_future. destruct (match api.account_ r with Some a => _ | None => _ end) as [a|].
  - destruct (_ ≫= _) as [r'|e]; [|done]. cbn. by destruct (client r').
  - cbn. done.
Qed.

(** ** The list of relays as the server sends it (relay_list.rs) *)

Module server.
Import relay.
Record Location : Set := { l_city : string; l_country : string; l_latitude : Z; l_longitude : Z }.
Record Relay : Set := {
  r_hostname : string;
  r_active : bool;
  r_owned : bool;
  r_location : string;
  r_provider : string;
  r_ipv4_addr_in : Z;
  r_ipv6_addr_in : option Z;
  r_weight : Z;
  r_include_in_country : bool
}.
Record Features : Set := { f_daita : bool; f_quic : option relay.Quic; f_lwo : bool }.
Record WireGuardRelay : Set := {
  w_relay : Relay;
  w_public_key : list Z;
  w_daita : bool;
  w_shadowsocks_extra_addr_in : list IpAddr;
  w_features : Features
}.
Record Wireguard : Set := {
  s_port_ranges : list (Z * Z);
  s_ipv4_gateway : Z;
  s_ipv6_gateway : Z;
  s_shadowsocks_port_ranges : list (Z * Z);
  s_relays : list WireGuardRelay
}.
Record OpenVpn : Set := { o_ports : list OpenVpnEndpoint; o_relays : list Relay }.
Record Bridges : Set := { b_shadowsocks : list ShadowsocksEndpointData; b_relays : list Relay }.
(** The locations in the order of their codes. *)
Record ServerRelayList : Set := {
  locations : list (string * Location);
  openvpn : OpenVpn;
  wireguard : Wireguard;
  bridge : Bridges
}.

(** The parts of a text between hyphens. *)
Fixpoint split_hyphen (s : string) : string * option string :=
  match s with
  | "" => (""%string, None)
  | String c s =>
      if Ascii.eqb c "-"%char then (""%string, Some s)
      else let '(part, rest) := split_hyphen s in (String c part, rest)
  end.
Definition split_location_code (location : string) : option (string * string) :=
  let '(country, rest) := split_hyphen location in
  match rest with Some rest => Some (country, (split_hyphen rest).1) | None => None end.

Definition location_to_country (l : Location) (code : string) : RelayListCountry :=
  {| country_name := l_country l; country_code_ := code; cities := [] |}.
Definition location_to_city (l : Location) (code : string) : RelayListCity :=
  {| city_name := l_city l; city_code_ := code; city_latitude := l_latitude l; city_longitude := l_longitude l; city_relays := [] |}.

Definition into_mullvad_relay (r : Relay) (location : RelayTypes.Location) (data : RelayEndpointData) : relay.Relay :=
  {| hostname := r_hostname r; ipv4_addr_in := r_ipv4_addr_in r; ipv6_addr_in := r_ipv6_addr_in r;
     overridden_ipv4 := false; overridden_ipv6 := false; include_in_country := r_include_in_country r;
     active := r_active r; owned := r_owned r; provider := r_provider r; weight := r_weight r;
     endpoint_data := data; relay.location := location |}.
Definition into_openvpn_mullvad_relay (r : Relay) (location : RelayTypes.Location) : relay.Relay := into_mullvad_relay r location EdOpenvpn.
Definition into_bridge_mullvad_relay (r : Relay) (location : RelayTypes.Location) : relay.Relay := into_mullvad_relay r location EdBridge.
(** [HashSet::from_iter] on a vector.  In debug builds an assertion fails
    when the new field tells of DAITA and the old one does not; release builds
    are modelled. *)
Definition into_wireguard_mullvad_relay (r : WireGuardRelay) (location : RelayTypes.Location) : relay.Relay :=
  into_mullvad_relay (w_relay r) location (EdWireguard {|
    public_key := w_public_key r;
    daita := if f_daita (w_features r) then true else w_daita r;
    shadowsocks_extra_addr_in := remove_dups (w_shadowsocks_extra_addr_in r);
    quic := f_quic (w_features r);
    lwo := f_lwo (w_features r) |}).

Definition inclusive_range_from_pair (p : Z * Z) : PortRange := {| range_start := p.1; range_end := p.2 |}.
Definition WireguardEndpointData_from (w : Wireguard) : WireguardEndpointData :=
  {| port_ranges := map inclusive_range_from_pair (s_port_ranges w);
     wg_ipv4_gateway := s_ipv4_gateway w; wg_ipv6_gateway := s_ipv6_gateway w;
     shadowsocks_port_ranges := map inclusive_range_from_pair (s_shadowsocks_port_ranges w); udp2tcp_ports := [] |}.

(** [BTreeMap] from country codes to countries, in the order of the codes. *)
Definition Countries : Set := list (string * RelayListCountry).
Fixpoint or_insert_with (code : string) (country : RelayListCountry) (m : Countries) : Countries :=
  match m with
  | [] => [(code, country)]
  | (c, x) :: m' =>
      match String.compare code c with
      | Eq => m
      | Lt => (code, country) :: m
      | Gt => (c, x) :: or_insert_with code country m'
      end
  end.
Fixpoint get_mut (code : string) (f : RelayListCountry → RelayListCountry) (m : Countries) : Countries :=
  match m with
  | [] => []
  | (c, x) :: m => if bool_decide (c = code) then (c, f x) :: m else (c, x) :: get_mut code f m
  end.
Fixpoint get_country (code : string) (m : Countries) : option RelayListCountry :=
  match m with [] => None | (c, x) :: m => if bool_decide (c = code) then Some x else get_country code m end.

Definition push_city (city : RelayListCity) (x : RelayListCountry) : RelayListCountry :=
  {| country_name := country_name x; country_code_ := country_code_ x; cities := cities x ++ [city] |}.
(** [cities.iter_mut().find(..)], and a relay pushed to the city that is found. *)
Fixpoint push_relay (code : string) (r : relay.Relay) (l : list RelayListCity) : list RelayListCity :=
  match l with
  | [] => []
  | c :: l =>
      if bool_decide (city_code_ c = code)
      then {| city_name := city_name c; city_code_ := city_code_ c; city_latitude := city_latitude c;
              city_longitude := city_longitude c; city_relays := city_relays c ++ [r] |} :: l
      else c :: push_relay code r l
  end.
Definition with_cities (l : list RelayListCity) (x : RelayListCountry) : RelayListCountry :=
  {| country_name := country_name x; country_code_ := country_code_ x; cities := l |}.
Definition location_of (x : RelayListCountry) (c : RelayListCity) : RelayTypes.Location :=
  {| country := country_name x; country_code := country_code_ x; city := city_name c; city_code := city_code_ c;
     latitude := city_latitude c; longitude := city_longitude c |}.

(** The body of the loops of [extract_relays]. *)
Definition extract_relay (m : Countries) (e : string * (RelayTypes.Location → relay.Relay)) : Countries :=
  match split_location_code e.1 with
  | None => m
  | Some (country_code, city_code) =>
      match get_country country_code m with
      | None => m
      | Some x =>
          match List.find (λ c, bool_decide (city_code_ c = city_code)) (cities x) with
          | None => m
          | Some c => get_mut country_code (λ x, with_cities (push_relay city_code (e.2 (location_of x c)) (cities x)) x) m
          end
      end
  end.

Section Text.
Context `{ApiCrates}.

Definition convert_to_lowercase (r : Relay) : Relay :=
  {| r_hostname := to_lowercase (r_hostname r); r_active := r_active r; r_owned := r_owned r;
     r_location := to_lowercase (r_location r); r_provider := r_provider r; r_ipv4_addr_in := r_ipv4_addr_in r;
     r_ipv6_addr_in := r_ipv6_addr_in r; r_weight := r_weight r; r_include_in_country := r_include_in_country r |}.
Definition convert_wireguard (r : WireGuardRelay) : WireGuardRelay :=
  {| w_relay := convert_to_lowercase (w_relay r); w_public_key := w_public_key r; w_daita := w_daita r;
     w_shadowsocks_extra_addr_in := w_shadowsocks_extra_addr_in r; w_features := w_features r |}.

Definition openvpn_relays (o : OpenVpn) : list (string * (RelayTypes.Location → relay.Relay)) :=
  map (λ r, let r := convert_to_lowercase r in (r_location r, into_openvpn_mullvad_relay r)) (o_relays o).
Definition wireguard_relays (w : Wireguard) : list (string * (RelayTypes.Location → relay.Relay)) :=
  map (λ r, let r := convert_wireguard r in (r_location (w_relay r), into_wireguard_mullvad_relay r)) (s_relays w).
Definition bridge_relays (b : Bridges) : list (string * (RelayTypes.Location → relay.Relay)) :=
  map (λ r, let r := convert_to_lowercase r in (r_location r, into_bridge_mullvad_relay r)) (b_relays b).

Definition add_location (m : Countries) (l : string * Location) : Countries :=
  match split_location_code l.1 with
  | None => m
  | Some (country_code, city_code) =>
      let country_code := to_lowercase country_code in
      let city_code := to_lowercase city_code in
      get_mut country_code (push_city (location_to_city l.2 city_code))
        (or_insert_with country_code (location_to_country l.2 country_code) m)
  end.
Definition base_countries (s : ServerRelayList) : Countries := foldl add_location [] (locations s).

Definition weak_etag (tag : string) : string :=
  match tag with
  | String c _ => if Ascii.eqb c (ascii_of_nat 34) then "W/" +:+ tag else tag
  | "" => tag
  end.

Definition into_relay_list (s : ServerRelayList) (tag : option string) : RelayList :=
  let m := foldl extract_relay (base_countries s) (openvpn_relays (openvpn s)) in
  let m := foldl extract_relay m (wireguard_relays (wireguard s)) in
  let m := foldl extract_relay m (bridge_relays (bridge s)) in
  {| etag := weak_etag <$> tag; countries := m.*2; openvpn_ports := o_ports (openvpn s);
     bridge_shadowsocks := b_shadowsocks (bridge s);
     wireguard_endpoints := WireguardEndpointData_from (wireguard s) |}.

(** [RelayListProxy] *)
Definition RELAY_LIST_TIMEOUT : Z := 15000.
Definition relay_list_request (f : api.RequestFactory) (tag : option string) : result rest.Error api.Request :=
  r ← api.get f "app/v1/relays";
  let r := api.expected_status [http.NOT_MODIFIED; http.OK] (api.with_timeout RELAY_LIST_TIMEOUT r) in
  match tag with
  | Some tag => api.header "if-none-match" tag r
  | None => Ok r
  end.
(** A tag that is not text is ignored. *)
Definition extract_etag (r : http.Response) : option string := mjoin (http.etag r).
Definition read_relay_list (read : Json → option ServerRelayList) (tag : option string) (response : http.Response) :
    result rest.Error (option RelayList) :=
  if bool_decide (is_Some tag) && (http.status response =? http.NOT_MODIFIED) then Ok None
  else
    l ← api.deserialize_body read response;
    Ok (Some (into_relay_list l (extract_etag response))).

(** *** No relay is lost, and none is in the wrong place *)

Definition locate (m : Countries) (code : string) : option RelayTypes.Location :=
  '(country_code, city_code) ← split_location_code code;
  x ← get_country country_code m;
  c ← List.find (λ c, bool_decide (city_code_ c = city_code)) (cities x);
  Some (location_of x c).
Definition city_list (l : list RelayListCity) : list relay.Relay := concat (map city_relays l).
Definition all_relays (m : Countries) : list relay.Relay := concat (map (λ e, city_list (cities e.2)) m).

#[local] Arguments city_list : simpl never.
#[local] Arguments all_relays : simpl never.

(** Every relay is in the country and city that its location names. *)
Definition city_placed (x : RelayListCountry) (c : RelayListCity) : Prop :=
  ∀ r, r ∈ city_relays c → relay.location r = location_of x c.
Definition placed (m : Countries) : Prop := Forall (λ e, Forall (city_placed e.2) (cities e.2)) m.

Lemma find_push code city r l :
  option_map (λ c, (city_name c, city_code_ c, city_latitude c, city_longitude c))
    (List.find (λ c, bool_decide (city_code_ c = code)) (push_relay city r l)) =
  option_map (λ c, (city_name c, city_code_ c, city_latitude c, city_longitude c))
    (List.find (λ c, bool_decide (city_code_ c = code)) l).
Proof.
  induction l as [|c l IH]; cbn; [done|]. destruct (bool_decide (city_code_ c = city)); cbn; by destruct (bool_decide (city_code_ c = code)).
Qed.

Lemma get_country_get_mut code code' f m :
  get_country code (get_mut code' f m) =
  (if bool_decide (code = code') then f <$> get_country code m else get_country code m).
Proof.
  induction m as [|[c x] m IH]; cbn; [by case_bool_decide|].
  destruct (decide (c = code')) as [->|Hc].
  - rewrite (bool_decide_eq_true_2 (code' = code')) by done. cbn. destruct (decide (code' = code)) as [->|Hn].
    + by rewrite !bool_decide_eq_true_2.
    + rewrite !bool_decide_eq_false_2; auto.
  - rewrite (bool_decide_eq_false_2 (c = code')) by done. cbn. rewrite IH. destruct (decide (c = code)) as [->|Hn].
    + by rewrite bool_decide_eq_true_2, bool_decide_eq_false_2.
    + by rewrite (bool_decide_eq_false_2 (c = code)).
Qed.

(** Where a code leads to does not depend on the relays that are there. *)
Lemma locate_extract m e code : locate (extract_relay m e) code = locate m code.
Proof.
  unfold extract_relay. destruct (split_location_code e.1) as [[cc ct]|]; [|done].
  destruct (get_country cc m) as [x|] eqn:Ex; [|done]. destruct (List.find _ _) as [c|]; [|done].
  unfold locate. destruct (split_location_code code) as [[cc' ct']|]; [|done]. cbn. rewrite get_country_get_mut.
  case_bool_decide as E; [subst cc'|done]. rewrite Ex. cbn. pose proof (find_push ct' ct (e.2 (location_of x c)) (cities x)) as Hf.
  destruct (List.find _ (push_relay _ _ _)) as [c1|], (List.find _ (cities x)) as [c2|]; cbn in *; try done.
  injection Hf as ? ? ? ?. unfold location_of. cbn. congruence.
Qed.

Lemma push_relay_perm city r c l :
  List.find (λ c, bool_decide (city_code_ c = city)) l = Some c → city_list (push_relay city r l) ≡ₚ city_list l ++ [r].
Proof.
  induction l as [|d l IH]; cbn; [done|]. destruct (bool_decide (city_code_ d = city)).
  - intros [= ->]. unfold city_list. cbn. by rewrite <- !app_assoc, (Permutation_app_comm (concat _) [r]).
  - intros Hf. unfold city_list in *. cbn. rewrite IH by done. by rewrite app_assoc.
Qed.

Lemma all_relays_cons c x m : all_relays ((c, x) :: m) = city_list (cities x) ++ all_relays m.
Proof. done. Qed.

Lemma extract_perm m e :
  all_relays (extract_relay m e) ≡ₚ all_relays m ++ option_list (e.2 <$> locate m e.1).
Proof.
  unfold extract_relay, locate. destruct (split_location_code e.1) as [[cc ct]|]; cbn; [|by rewrite app_nil_r].
  destruct (get_country cc m) as [x|] eqn:Ex; cbn; [|by rewrite app_nil_r].
  destruct (List.find _ (cities x)) as [c|] eqn:Ec; cbn; [|by rewrite app_nil_r].
  induction m as [|[d y] m IH]; cbn in *; [done|]. destruct (bool_decide (d = cc)).
  - injection Ex as ->. rewrite !all_relays_cons. unfold with_cities. cbn [cities]. rewrite (push_relay_perm _ _ _ _ Ec).
    by rewrite <- !app_assoc, (Permutation_app_comm (all_relays m) [_]).
  - rewrite !all_relays_cons, IH by done. by rewrite app_assoc.
Qed.

Lemma placed_extract m e :
  (∀ l, relay.location (e.2 l) = l) → placed m → placed (extract_relay m e).
Proof.
  intros He. unfold extract_relay. destruct (split_location_code e.1) as [[cc ct]|]; [|done].
  destruct (get_country cc m) as [x|] eqn:Ex; [|done]. destruct (List.find _ (cities x)) as [c|] eqn:Ec; [|done].
  unfold placed. revert Ex. induction m as [|[d y] m IH]; cbn; [done|]. intros Ex [Hy Hm]%Forall_cons.
  destruct (bool_decide (d = cc)); constructor; auto. cbn in *. injection Ex as ->. clear IH Hm.
  assert (Forall (city_placed x) (push_relay ct (e.2 (location_of x c)) (cities x))) as Hp.
  { revert Ec. induction Hy as [|c' l Hc' Hl IHl]; cbn; [done|]. destruct (bool_decide (city_code_ c' = ct)); [|by constructor; auto].
    intros [= ->]. constructor; [|done]. intros r [Hr|Hr]%elem_of_app; cbn in *; [by apply Hc'|].
    apply list_elem_of_singleton in Hr as ->. by rewrite He. }
  eapply Forall_impl; [exact Hp|]. intros c' Hc' r Hr. by rewrite (Hc' r Hr).
Qed.

Lemma extract_all es m :
  Forall (λ e, ∀ l, relay.location (e.2 l) = l) es → placed m →
  all_relays (foldl extract_relay m es) ≡ₚ all_relays m ++ omap (λ e, e.2 <$> locate m e.1) es ∧
  placed (foldl extract_relay m es) ∧ ∀ code, locate (foldl extract_relay m es) code = locate m code.
Proof.
  intros He. revert m. induction He as [|e es He _ IH]; intros m Hm; cbn; [by rewrite app_nil_r|].
  destruct (IH (extract_relay m e)) as (Hp & Hpl & Hl); [by apply placed_extract|]. split_and!; [|done|].
  - rewrite Hp, extract_perm, <- app_assoc. f_equiv.
    rewrite (list_omap_ext _ (λ e0, e0.2 <$> locate m e0.1) es es); [by destruct (e.2 <$> locate m e.1)|].
    apply Forall_Forall2_diag, Forall_forall. intros x _. by rewrite locate_extract.
  - intros code. by rewrite Hl, locate_extract.
Qed.

Lemma or_insert_empty code x m :
  cities x = [] → all_relays m = [] → all_relays (or_insert_with code x m) = [].
Proof.
  intros Hx. induction m as [|[c y] m IH]; cbn; intros Hm; [by unfold all_relays; cbn; rewrite Hx|].
  destruct (String.compare code c); [done|by unfold all_relays in *; cbn in *; rewrite Hx|].
  unfold all_relays in *. cbn in *. apply app_nil in Hm as [-> ?]. by apply IH.
Qed.
Lemma get_mut_empty code city m :
  city_relays city = [] → all_relays m = [] → all_relays (get_mut code (push_city city) m) = [].
Proof.
  intros Hc. induction m as [|[c y] m IH]; cbn; [done|]. unfold all_relays in *. cbn. intros [Hy Hm]%app_nil.
  destruct (bool_decide (c = code)); cbn; [|by rewrite Hy, IH]. rewrite Hm, app_nil_r. unfold city_list in *. cbn.
  by rewrite map_app, concat_app, Hy; cbn; rewrite Hc.
Qed.
Lemma base_empty s : all_relays (base_countries s) = [].
Proof.
  unfold base_countries. assert (∀ m, all_relays m = [] → all_relays (foldl add_location m (locations s)) = []) as Hb; [|by apply Hb].
  induction (locations s) as [|l ls IH]; intros m Hm; cbn; [done|]. apply IH. unfold add_location.
  destruct (split_location_code l.1) as [[cc ct]|]; [|done]. by apply get_mut_empty, or_insert_empty.
Qed.
Lemma empty_placed m : all_relays m = [] → placed m.
Proof.
  unfold placed, all_relays. induction m as [|[c x] m IH]; cbn; intros Hm; [done|]. apply app_nil in Hm as [Hx Hm].
  constructor; [|by apply IH]. cbn. clear -Hx. unfold city_list in Hx. induction (cities x) as [|d l IH]; cbn in *; [done|].
  apply app_nil in Hx as [Hd Hl]. constructor; [|by apply IH]. intros r Hr. rewrite Hd in Hr. set_solver.
Qed.

(** The relays of the server's list, with the codes of their locations. *)
Definition server_relays (s : ServerRelayList) : list (string * (RelayTypes.Location → relay.Relay)) :=
  openvpn_relays (openvpn s) ++ wireguard_relays (wireguard s) ++ bridge_relays (bridge s).

Lemma server_relays_located s : Forall (λ e, ∀ l, relay.location (e.2 l) = l) (server_relays s).
Proof.
  unfold server_relays, openvpn_relays, wireguard_relays, bridge_relays. rewrite !Forall_app. split_and!; apply Forall_map, Forall_true; done.
Qed.

(** *** What is expected of the list *)

(** A text, split at every hyphen; the codes of a country and a city are the
    first two parts. *)
Fixpoint hyphen_parts (s : string) : list string :=
  match s with
  | "" => [""%string]
  | String c s =>
      if bool_decide (c = "-"%char) then ""%string :: hyphen_parts s
      else match hyphen_parts s with part :: parts => String c part :: parts | [] => [] end
  end.
Definition codes (s : string) : option (string * string) :=
  match hyphen_parts s with country :: city :: _ => Some (country, city) | _ => None end.

(** The cities of a country, with their codes, in the order of the server. *)
Definition cities_at (ls : list (string * Location)) (country : string) : list (string * Location) :=
  omap (λ l, '(cc, ct) ← codes l.1; if bool_decide (to_lowercase cc = country) then Some (to_lowercase ct, l.2) else None) ls.
(** The location that a relay's code names: the country has the name that its
    first city gives it. *)
Definition expected_location (s : ServerRelayList) (code : string) : option RelayTypes.Location :=
  '(cc, ct) ← codes code;
  first ← head (cities_at (locations s) cc);
  found ← List.find (λ e, bool_decide (e.1 = ct)) (cities_at (locations s) cc);
  Some {| country := l_country first.2; country_code := cc; city := l_city found.2; city_code := ct;
          latitude := l_latitude found.2; longitude := l_longitude found.2 |}.
Definition expected_relay (s : ServerRelayList) (r : Relay) (data : RelayEndpointData) : option relay.Relay :=
  l ← expected_location s (to_lowercase (r_location r));
  Some {| hostname := to_lowercase (r_hostname r); ipv4_addr_in := r_ipv4_addr_in r; ipv6_addr_in := r_ipv6_addr_in r;
          overridden_ipv4 := false; overridden_ipv6 := false; include_in_country := r_include_in_country r;
          active := r_active r; owned := r_owned r; provider := r_provider r; weight := r_weight r;
          endpoint_data := data; relay.location := l |}.
Definition expected_relays (s : ServerRelayList) : list relay.Relay :=
  omap (λ r, expected_relay s r EdOpenvpn) (o_relays (openvpn s)) ++
  omap (λ w, expected_relay s (w_relay w) (EdWireguard {|
      public_key := w_public_key w; daita := f_daita (w_features w) || w_daita w;
      shadowsocks_extra_addr_in := remove_dups (w_shadowsocks_extra_addr_in w);
      quic := f_quic (w_features w); lwo := f_lwo (w_features w) |})) (s_relays (wireguard s)) ++
  omap (λ r, expected_relay s r EdBridge) (b_relays (bridge s)).

(** A country and its cities, without their relays. *)
Definition city_facts (c : RelayListCity) : string * string * Z * Z := (city_code_ c, city_name c, city_latitude c, city_longitude c).
Definition expected_city (e : string * Location) : string * string * Z * Z := (e.1, l_city e.2, l_latitude e.2, l_longitude e.2).
Definition country_facts (x : RelayListCountry) : string * string * list (string * string * Z * Z) :=
  (country_code_ x, country_name x, map city_facts (cities x)).

(** *** The countries and cities *)

Lemma hyphen_parts_split s :
  hyphen_parts s = (split_hyphen s).1 :: match (split_hyphen s).2 with Some rest => hyphen_parts rest | None => [] end.
Proof.
  induction s as [|c s IH]; [done|]. cbn [hyphen_parts split_hyphen]. destruct (Ascii.eqb_spec c "-"%char) as [->|Hn].
  - by rewrite bool_decide_eq_true_2.
  - rewrite bool_decide_eq_false_2, IH by done. by destruct (split_hyphen s).
Qed.
Lemma split_location_codes s : split_location_code s = codes s.
Proof.
  unfold split_location_code, codes. rewrite hyphen_parts_split. destruct (split_hyphen s) as [a [rest|]]; cbn; [|done].
  by rewrite hyphen_parts_split.
Qed.

Definition code_lt (a b : string) : Prop := String.compare a b = Lt.
Lemma compare_refl s : String.compare s s = Eq.
Proof. induction s as [|c s IH]; cbn; [done|]. unfold Ascii.compare. by rewrite N.compare_refl. Qed.
Lemma code_lt_trans a b c : code_lt a b → code_lt b c → code_lt a c.
Proof.
  unfold code_lt. revert b c. induction a as [|x a IH]; intros [|y b] [|z c]; cbn; try done.
  unfold Ascii.compare. destruct (N.compare_spec (N_of_ascii x) (N_of_ascii y)) as [Hxy|Hxy|Hxy]; try done;
    destruct (N.compare_spec (N_of_ascii y) (N_of_ascii z)) as [Hyz|Hyz|Hyz]; try done; intros H1 H2.
  - rewrite Hxy, Hyz, N.compare_refl. by eapply IH.
  - by rewrite (proj2 (N.compare_lt_iff _ _)) by lia.
  - by rewrite (proj2 (N.compare_lt_iff _ _)) by lia.
  - by rewrite (proj2 (N.compare_lt_iff _ _)) by lia.
Qed.
Definition codes_sorted (m : Countries) : Prop := StronglySorted code_lt m.*1.

Lemma get_country_none code m : Forall (code_lt code) m.*1 → get_country code m = None.
Proof.
  induction m as [|[c x] m IH]; cbn; [done|]. intros [Hc Hm]%Forall_cons. rewrite bool_decide_eq_false_2; [by apply IH|].
  intros ->. unfold code_lt in Hc. by rewrite compare_refl in Hc.
Qed.

Lemma or_insert_keys code x m k : k ∈ (or_insert_with code x m).*1 → k = code ∨ k ∈ m.*1.
Proof.
  induction m as [|[c y] m IH]; cbn; [set_solver|]. destruct (String.compare code c); cbn; [set_solver..|].
  rewrite elem_of_cons. intros [->|[->|?]%IH]; set_solver.
Qed.
Lemma or_insert_sorted code x m : codes_sorted m → codes_sorted (or_insert_with code x m).
Proof.
  unfold codes_sorted. induction m as [|[c y] m IH]; cbn; intros Hs; [by repeat constructor|]. inversion Hs as [|? ? Hm Hc]; subst.
  destruct (String.compare code c) eqn:E; [done| |].
  - cbn. constructor; [done|]. constructor; [done|]. eapply Forall_impl; [exact Hc|]. intros k. by apply code_lt_trans.
  - cbn. constructor; [by apply IH|]. apply Forall_forall. intros k [->|Hk]%or_insert_keys.
    + unfold code_lt. rewrite String.compare_antisym, E. done.
    + by eapply Forall_forall in Hc.
Qed.
Lemma or_insert_get code x m c : codes_sorted m →
  get_country c (or_insert_with code x m) = if bool_decide (c = code) then Some (default x (get_country code m)) else get_country c m.
Proof.
  unfold codes_sorted. induction m as [|[d y] m IH]; cbn; intros Hs.
  { case_bool_decide as E1; case_bool_decide as E2; congruence. }
  inversion Hs as [|? ? Hm Hd]; subst. destruct (String.compare code d) eqn:E.
  - apply String.compare_eq_iff in E as <-. cbn. rewrite (bool_decide_eq_true_2 (code = code)) by done. cbn.
    repeat case_bool_decide; done || congruence.
  - cbn. assert (code ≠ d) by (intros ->; rewrite compare_refl in E; done).
    rewrite (bool_decide_eq_false_2 (d = code)) by done.
    rewrite (get_country_none code m) by (eapply Forall_impl; [exact Hd|]; intros k; by apply code_lt_trans).
    repeat case_bool_decide; done || congruence.
  - cbn. assert (code ≠ d) by (intros ->; rewrite compare_refl in E; done). rewrite (IH Hm).
    repeat case_bool_decide; done || congruence.
Qed.
Lemma get_mut_keys code f m : (get_mut code f m).*1 = m.*1.
Proof. induction m as [|[c x] m IH]; cbn; [done|]. case_bool_decide; cbn; congruence. Qed.

(** The countries, from the cities of each. *)
Definition country_of (code : string) (l : list (string * Location)) : option RelayListCountry :=
  match l with
  | [] => None
  | e :: _ => Some {| country_name := l_country e.2; country_code_ := code; cities := map (λ e, location_to_city e.2 e.1) l |}
  end.
Lemma base_countries_spec ls :
  codes_sorted (foldl add_location [] ls) ∧ ∀ c, get_country c (foldl add_location [] ls) = country_of c (cities_at ls c).
Proof.
  induction ls as [|l ls [Hs Hg]] using rev_ind; [split; [constructor|done]|].
  rewrite foldl_app. cbn [foldl]. set (m := foldl _ _ _) in *. unfold add_location. rewrite split_location_codes.
  assert (∀ c, cities_at (ls ++ [l]) c = cities_at ls c ++ option_list
    ('(cc, ct) ← codes l.1; if bool_decide (to_lowercase cc = c) then Some (to_lowercase ct, l.2) else None)) as Hat.
  { intros c. unfold cities_at. rewrite omap_app. cbn. by destruct (codes l.1 ≫= _). }
  destruct (codes l.1) as [[cc ct]|].
  2: { split; [done|]. intros c. by rewrite Hat, app_nil_r. }
  cbn in Hat. split; [unfold codes_sorted; rewrite get_mut_keys; by apply or_insert_sorted|].
  intros c. rewrite Hat, get_country_get_mut, or_insert_get, Hg by done. case_bool_decide as E.
  - subst c. rewrite (bool_decide_eq_true_2 (_ = _)) by done. cbn.
    destruct (cities_at ls (to_lowercase cc)) as [|e es]; cbn; [done|]. unfold push_city. cbn. by rewrite map_app.
  - rewrite (bool_decide_eq_false_2 (_ = c)) by done. by rewrite Hg, app_nil_r.
Qed.

Lemma find_map {A B} (f : A → B) (P : B → bool) l : List.find P (map f l) = f <$> List.find (λ x, P (f x)) l.
Proof. induction l as [|x l IH]; cbn; [done|]. by destruct (P (f x)). Qed.

Lemma locate_expected s code : locate (base_countries s) code = expected_location s code.
Proof.
  unfold locate, expected_location, base_countries. rewrite split_location_codes. destruct (codes code) as [[cc ct]|]; [|done]. cbn.
  destruct (base_countries_spec (locations s)) as [_ ->]. destruct (cities_at (locations s) cc) as [|e es] eqn:E; [done|].
  unfold country_of. cbn [mbind option_bind cities head]. rewrite find_map. cbn [city_code_ location_to_city].
  destruct (List.find _ (e :: es)) as [x|] eqn:Ef; cbn; [|done]. apply find_some in Ef as [_ Ef%bool_decide_eq_true]. by subst ct.
Qed.

Lemma server_relays_expected s : omap (λ e, e.2 <$> expected_location s e.1) (server_relays s) = expected_relays s.
Proof.
  unfold server_relays, expected_relays, openvpn_relays, wireguard_relays, bridge_relays. rewrite !omap_app.
  f_equal; [|f_equal]; apply list_omap_ext, Forall2_fmap_l, Forall_Forall2_diag, Forall_true; intros r;
    unfold expected_relay; cbn; by destruct (expected_location s _).
Qed.

(** Relays do not change the countries. *)
Definition coded_facts (e : string * RelayListCountry) : string * (string * string * list (string * string * Z * Z)) := (e.1, country_facts e.2).
Lemma facts_push code r l : map city_facts (push_relay code r l) = map city_facts l.
Proof. induction l as [|c l IH]; cbn; [done|]. case_bool_decide; cbn; [done|by rewrite IH]. Qed.
Lemma facts_extract m e : map coded_facts (extract_relay m e) = map coded_facts m.
Proof.
  unfold extract_relay. destruct (split_location_code e.1) as [[cc ct]|]; [|done].
  destruct (get_country cc m) as [x|]; [|done]. destruct (List.find _ _) as [c|]; [|done].
  induction m as [|[d y] m IH]; cbn; [done|]. case_bool_decide; cbn; [|by rewrite IH].
  unfold coded_facts, country_facts, with_cities. cbn. by rewrite facts_push.
Qed.
Lemma facts_extract_all es m : map coded_facts (foldl extract_relay m es) = map coded_facts m.
Proof. revert m. induction es as [|e es IH]; intros m; cbn; [done|]. by rewrite IH, facts_extract. Qed.

Lemma get_country_elem c x m : codes_sorted m → (c, x) ∈ m ↔ get_country c m = Some x.
Proof.
  unfold codes_sorted. induction m as [|[d y] m IH]; cbn; intros Hs; [by rewrite elem_of_nil|].
  inversion Hs as [|? ? Hm Hd]; subst. rewrite elem_of_cons. case_bool_decide as E.
  - subst d. split; [|intros [= ->]; by left]. intros [[= ->]|Hin]; [done|].
    apply (Forall_forall (code_lt c) m.*1) with (x := c) in Hd; [unfold code_lt in Hd; by rewrite compare_refl in Hd|].
    apply list_elem_of_fmap. by exists (c, x).
  - rewrite <- IH by done. naive_solver.
Qed.

(** The countries of a list, as they are expected. *)
Definition countries_expected (s : ServerRelayList) (l : list RelayListCountry) : Prop :=
  NoDup (map country_code_ l) ∧
  (∀ code, code ∈ map country_code_ l ↔ cities_at (locations s) code ≠ []) ∧
  ∀ x, x ∈ l → Some (country_name x) = (λ e, l_country e.2) <$> head (cities_at (locations s) (country_code_ x)) ∧
    map city_facts (cities x) = map expected_city (cities_at (locations s) (country_code_ x)).

Lemma base_elem s c x : (c, x) ∈ base_countries s ↔ country_of c (cities_at (locations s) c) = Some x.
Proof. destruct (base_countries_spec (locations s)) as [Hs Hg]. unfold base_countries. by rewrite get_country_elem, Hg. Qed.

Lemma final_elem s es c f :
  (c, f) ∈ map coded_facts (foldl extract_relay (base_countries s) es) ↔
  country_facts <$> country_of c (cities_at (locations s) c) = Some f.
Proof.
  rewrite facts_extract_all, fmap_Some, list_elem_of_fmap. split.
  - intros ([d y] & [= -> ->] & ?%base_elem). eauto.
  - intros (y & ?%base_elem & ->). by exists (c, y).
Qed.

Lemma sorted_nodup l : StronglySorted code_lt l → NoDup l.
Proof.
  induction 1 as [|a l _ IH Ha]; constructor; [|done]. intros Hin. eapply Forall_forall in Ha; [|exact Hin].
  unfold code_lt in Ha. by rewrite compare_refl in Ha.
Qed.

Lemma countries_ok s es : countries_expected s (foldl extract_relay (base_countries s) es).*2.
Proof.
  set (m := foldl _ _ _). pose proof (final_elem s es) as Hf. fold m in Hf.
  assert (∀ c x, (c, x) ∈ m → country_code_ x = c ∧ country_facts <$> country_of c (cities_at (locations s) c) = Some (country_facts x)) as Hm.
  { intros c x Hin. assert ((c, country_facts x) ∈ map coded_facts m) as Hin'.
    { apply list_elem_of_fmap. by exists (c, x). }
    apply Hf in Hin'. split; [|done]. unfold country_of in Hin'. destruct (cities_at _ _); [done|]. by injection Hin' as ->. }
  assert (map country_code_ m.*2 = m.*1) as Hk.
  { clear Hf. induction m as [|[c x] m' IH]; cbn; [done|]. rewrite IH; [|intros; apply Hm; by right]. by destruct (Hm c x ltac:(by left)) as [-> _]. }
  unfold countries_expected. rewrite Hk. split_and!.
  - apply sorted_nodup. destruct (base_countries_spec (locations s)) as [Hs _]. fold (base_countries s) in Hs. unfold codes_sorted in Hs.
    assert (m.*1 = (base_countries s).*1) as ->; [|done]. pose proof (facts_extract_all es (base_countries s)) as Hfa.
    apply (f_equal (map fst)) in Hfa. by rewrite !map_map in Hfa.
  - intros code. rewrite list_elem_of_fmap. split.
    + intros ([c x] & -> & [_ Hx]%Hm). cbn. intros Hn. by rewrite Hn in Hx.
    + intros Hn. destruct (country_facts <$> country_of code (cities_at (locations s) code)) as [f|] eqn:E.
      * apply Hf, list_elem_of_fmap in E as ([c x] & [= -> ->] & ?). by exists (c, x).
      * unfold country_of in E. by destruct (cities_at _ _).
  - intros x ([c y] & -> & [Hc Hy]%Hm)%list_elem_of_fmap. cbn. rewrite Hc. unfold country_of in Hy.
    destruct (cities_at (locations s) c) as [|e l] eqn:Ec; [done|]. injection Hy as _ Hn Hci. cbn. split; [by rewrite <- Hn|].
    cbn in Hci. rewrite <- Hci. by rewrite map_map.
Qed.

(** C37: the list made of the server's has each relay whose location code names
    a city of the server's list, once, and no other relay: with the hostname and
    the location in lower case, its addresses and all its other attributes as
    the server sent them (with DAITA if one of the two fields for it says so, and
    extra addresses without repetitions), and with the names and coordinates of
    the city (and of the country, as its first city has it).  Its countries are those of the
    server's locations, each once, with its cities in the order of the server;
    every relay is listed under the country and the city of its location.  What
    is left out are the locations and relays whose code has no two parts, or
    names no such country and city. *)
Theorem relay_list_complete s tag :
  (concat (map (λ x, city_list (cities x)) (countries (into_relay_list s tag))) ≡ₚ expected_relays s) ∧
  countries_expected s (countries (into_relay_list s tag)) ∧
  ∀ x c r, x ∈ countries (into_relay_list s tag) → c ∈ cities x → r ∈ city_relays c → relay.location r = location_of x c.
Proof.
  unfold into_relay_list. cbn [countries]. rewrite <- !foldl_app. fold (server_relays s).
  destruct (extract_all (server_relays s) (base_countries s) (server_relays_located s)) as (Hp & Hpl & _);
    [apply empty_placed, base_empty|].
  split_and!; [|apply countries_ok|]; set (m := foldl _ _ _) in *.
  - rewrite base_empty in Hp. rewrite <- server_relays_expected.
    rewrite (list_omap_ext _ (λ e, e.2 <$> locate (base_countries s) e.1) _ (server_relays s)), <- Hp.
    + unfold all_relays. rewrite <- list_fmap_compose. done.
    + apply Forall_Forall2_diag, Forall_true. intros e. by rewrite locate_expected.
  - intros x c r ([code y] & -> & Hy)%list_elem_of_fmap Hc Hr. unfold placed in Hpl. rewrite Forall_forall in Hpl.
    specialize (Hpl _ Hy). cbn in *. rewrite Forall_forall in Hpl. by apply (Hpl c).
Qed.
End Text.
End server.

(** ** The updater of the relay list (mullvad-daemon/src/relay_list/mod.rs) *)

Module relay_list_updater.
Definition SECOND : Z := 10 ^ 9.
Definition UPDATE_CHECK_INTERVAL : Z := 60 * 15 * SECOND.
Definition UPDATE_INTERVAL : Z := 60 * 60 * SECOND.
(** Without the jitter. *)
Definition DOWNLOAD_RETRY_STRATEGY : ExponentialBackoff :=
  set_max_delay (Some (2 * 60 * 60 * SECOND)) (ExponentialBackoff_new (16 * SECOND) 8).

(** The updater, the tag of the download that is under way, the relay selector
    it feeds, the lists that were passed on, and the cache file. *)
Record RelayListUpdater : Type := {
  relay_selector : RelaySelector;
  last_check : Z;
  download : option (option string);
  on_update : list RelayList;
  cache : option RelayList
}.

Definition spawn (selector : RelaySelector) (cache : option RelayList) : RelayListUpdater :=
  {| relay_selector := selector; last_check := 0; download := None; on_update := []; cache := cache |}.

(** A clock that went back counts as long ago. *)
Definition should_update (now : Z) (u : RelayListUpdater) : bool :=
  let last_check := Z.max (selector_last_updated (relay_selector u)) (last_check u) in
  if last_check <=? now then UPDATE_INTERVAL <=? now - last_check else true.

Definition start_download (now : Z) (u : RelayListUpdater) : RelayListUpdater :=
  {| relay_selector := relay_selector u; last_check := now; download := Some (selector_etag (relay_selector u));
     on_update := on_update u; cache := cache u |}.

(** Writing the file fails before it is emptied, half way, or not at all. *)
Inductive CacheWrite : Set := NotOpened | Broken | Written.
Definition update_cache (now : Z) (w : CacheWrite) (l : RelayList) (u : RelayListUpdater) : RelayListUpdater :=
  {| relay_selector := set_relays now l (relay_selector u); last_check := last_check u; download := download u;
     on_update := on_update u ++ [l];
     cache := match w with NotOpened => cache u | Broken => None | Written => Some l end |}.

Definition consume_new_relay_list (now : Z) (w : CacheWrite) (r : result rest.Error (option RelayList)) (u : RelayListUpdater) :
    RelayListUpdater :=
  match r with
  | Ok (Some l) => update_cache now w l u
  | Ok None | Err _ => u
  end.

Inductive Input : Type :=
| CheckUpdate (now : Z)
| Downloaded (now : Z) (w : CacheWrite) (r : result rest.Error (option RelayList))
| Update (now : Z).

(** A turn of [run]. *)
Definition run_turn (i : Input) (u : RelayListUpdater) : RelayListUpdater :=
  match i with
  | CheckUpdate now => if negb (bool_decide (is_Some (download u))) && should_update now u then start_download now u else u
  | Downloaded now w r =>
      match download u with
      | None => u
      | Some _ =>
          consume_new_relay_list now w r
            {| relay_selector := relay_selector u; last_check := last_check u; download := None;
               on_update := on_update u; cache := cache u |}
      end
  | Update now => start_download now u
  end.

(** [download_relay_list]: attempts until one succeeds; each waits until the
    API may be used in the background, which may fail. *)
Definition download_relay_list (jitter : nat → Z → Z) (fuel : nat) (replies : nat → result rest.Error (option RelayList)) :
    option (result rest.Error (option RelayList)) :=
  (λ x, x.1.1) <$> retry_future (Jittered_next jitter ExponentialBackoff_next) replies (λ _ r, negb (is_ok r)) fuel 0
    (0%nat, DOWNLOAD_RETRY_STRATEGY).

(** The selector has the list that was passed on last, and so do clients. *)
Lemma updater_in_step ins u :
  get_relays (relay_selector (foldl (λ u i, run_turn i u) u ins)) =
  List.last (on_update (foldl (λ u i, run_turn i u) u ins)) (get_relays (relay_selector u)) ∨
  on_update (foldl (λ u i, run_turn i u) u ins) = on_update u.
Proof.
  revert u. induction ins as [|i ins IH] using rev_ind; intros u; [by right|]. rewrite foldl_app. cbn.
  set (v := foldl _ u ins) in *. specialize (IH u). fold v in IH.
  destruct i as [now|now w r|now]; cbn.
  - destruct (_ && _); [|done]. done.
  - destruct (download v); [|done]. destruct r as [[l|]|e]; cbn; [|done..]. left. by rewrite last_last.
  - done.
Qed.
End relay_list_updater.

(** ** The address of the API (address_cache.rs, api_address_updater.rs) *)

(** The texts of socket addresses: what is written is read back, also with the
    line end that is trimmed. *)
Class SocketText : Type := {
  sock_text : SocketAddr → string;
  sock_parse : string → option SocketAddr;
  sock_trim_parse a : sock_parse (trim (sock_text a +:+ String "010"%char "")) = Some a
}.

Module address_cache.
Inductive Error : Set := Open | Read | Parse | Write.

(** The file is replaced as a whole (mullvad-fs). *)
Record AddressCache : Set := {
  cache_hostname : string;
  address : SocketAddr;
  write_path : bool;
  file : option string
}.

Section Cache.
Context `{SocketText}.

Definition new_inner (a : SocketAddr) (host : string) (write : bool) (file : option string) : AddressCache :=
  {| cache_hostname := host; address := a; write_path := write; file := file |}.

Definition read_address_file (file : option (result unit string)) : result Error SocketAddr :=
  match file with
  | None => Err Open
  | Some (Err _) => Err Read
  | Some (Ok text) => match sock_parse (trim text) with Some a => Ok a | None => Err Parse end
  end.
Definition from_file (file : option string) (write : bool) (host : string) : result Error AddressCache :=
  a ← read_address_file (Ok <$> file); Ok (new_inner a host write file).
(** [Runtime::with_cache]: the cached address, or the one that is built in. *)
Definition with_cache (builtin : SocketAddr) (host : string) (write : bool) (file : option string) : AddressCache :=
  match from_file file write host with
  | Ok c => c
  | Err _ => new_inner builtin host write file
  end.

(** Host names are compared without regard to the case of ASCII letters. *)
Definition resolve_hostname (eq_ignore_ascii_case : string → string → bool) (host : string) (c : AddressCache) : option SocketAddr :=
  if eq_ignore_ascii_case host (cache_hostname c) then Some (address c) else None.
Definition get_address (c : AddressCache) : SocketAddr := address c.

Definition save_to_disk (fault : option Error) (a : SocketAddr) (c : AddressCache) : result Error unit * AddressCache :=
  if write_path c then
    match fault with
    | Some e => (Err e, c)
    | None => (Ok tt, {| cache_hostname := cache_hostname c; address := address c; write_path := true;
                         file := Some (sock_text a +:+ String "010"%char "") |})
    end
  else (Ok tt, c).
Definition set_address (fault : option Error) (a : SocketAddr) (c : AddressCache) : result Error unit * AddressCache :=
  if bool_decide (a ≠ address c) then
    match save_to_disk fault a c with
    | (Err e, c) => (Err e, c)
    | (Ok _, c) => (Ok tt, {| cache_hostname := cache_hostname c; address := a; write_path := write_path c; file := file c |})
    end
  else (Ok tt, c).

(** The task that keeps the address up to date: what it does when it wakes up,
    and how long it sleeps then. *)
Definition API_IP_CHECK_INITIAL : Z := 15 * 60.
Definition API_IP_CHECK_INTERVAL : Z := 24 * 60 * 60.
Definition API_IP_CHECK_ERROR_INTERVAL : Z := 15 * 60.
Definition fetcher_turn (available : bool) (addrs : result rest.Error (list SocketAddr)) (fault : option Error)
    (next_delay : Z) (c : AddressCache) : Z * AddressCache :=
  if negb available then (next_delay, c)
  else
    match addrs with
    | Ok new_addrs =>
        (API_IP_CHECK_INTERVAL,
         match new_addrs with addr :: _ => (set_address fault addr c).2 | [] => c end)
    | Err _ => (API_IP_CHECK_ERROR_INTERVAL, c)
    end.

(** The file holds the address in use, or none was ever saved; it survives a
    restart, and a change that cannot be saved is not made. *)
Definition cache_ok (builtin : SocketAddr) (c : AddressCache) : Prop :=
  write_path c = true ∧ address c = address (with_cache builtin (cache_hostname c) true (file c)).
Lemma set_address_ok builtin fault a c :
  cache_ok builtin c → cache_ok builtin (set_address fault a c).2 ∧
  (fault ≠ None → (set_address fault a c).2 = c) ∧ (fault = None → address (set_address fault a c).2 = a).
Proof.
  intros [Hw Ha]. unfold set_address. destruct (decide (a = address c)) as [->|Hn].
  { rewrite bool_decide_eq_false_2 by naive_solver. by split_and!. }
  rewrite bool_decide_eq_true_2 by done. unfold save_to_disk. rewrite Hw. destruct fault as [e|]; cbn; [by split_and!|].
  split_and!; [|done..]. split; [done|]. cbn. unfold with_cache, from_file, read_address_file. cbn. by rewrite sock_trim_parse.
Qed.
End Cache.
End address_cache.
