(* ===== verification/OpenVpn.v ===== *)
(** * OpenVPN tunnels (talpid-openvpn, talpid-openvpn-plugin)

    The process that carries an OpenVPN tunnel: the files with credentials and
    the arguments it is started with, the proxies, the server that hears from
    the plugin inside the process, the plugin, and the task that waits for all
    of them.  The theorems: the start leaves no credentials behind when it
    fails, but for files that the log names, and never runs into the panic of the
    argument builder; a tunnel that is reported as up takes the traffic; the wait ends after the process, the
    server and the proxy, and does end once the tunnel is closed. *)

From stdpp Require Import pretty.
From S2P Require Import Prelude NetTypes TunnelTypes TunnelThread Routing RoutingTheorems WireguardRouting WireguardExample.

(** The texts of addresses ([Display] and [FromStr] of std::net). *)
Class AddressText : Type := {
  show_ip : IpAddr → string;
  read_ip : string → option IpAddr;
  read_ipv4 : string → option Z;
  read_ipv6 : string → option Z
}.

(** ** Temporary files (mktemp.rs) *)

(** A file: its permissions and contents.  [Host] has the files, the names that
    will be drawn, the mask for new files, the outcomes of the operations to
    come ([false] is an error), and the files that the log says could not be
    removed. *)
Record Host : Type := {
  files : gmap string (Z * string);
  names : list string;
  umask : Z;
  outcomes : list bool;
  logged : list string
}.
Definition HM (A : Type) : Type := Host → result unit A * Host.
#[global] Instance HM_ret : MRet HM := λ A a h, (Ok a, h).
#[global] Instance HM_bind : MBind HM := λ A B k m h,
  match m h with (Ok a, h) => k a h | (Err e, h) => (Err e, h) end.

Definition with_files (f : gmap string (Z * string)) (h : Host) : Host :=
  {| files := f; names := names h; umask := umask h; outcomes := outcomes h; logged := logged h |}.
Definition with_log (path : string) (h : Host) : Host :=
  {| files := files h; names := names h; umask := umask h; outcomes := outcomes h; logged := logged h ++ [path] |}.
(** An operation that may fail, with what it does to the files. *)
Definition io (op : gmap string (Z * string) → gmap string (Z * string)) : HM unit := λ h,
  match outcomes h with
  | false :: l => (Err tt, {| files := files h; names := names h; umask := umask h; outcomes := l; logged := logged h |})
  | true :: l => (Ok tt, {| files := op (files h); names := names h; umask := umask h; outcomes := l; logged := logged h |})
  | [] => (Ok tt, with_files (op (files h)) h)
  end.

Definition generate_path (h : Host) : string * Host :=
  match names h with
  | n :: l => ("/tmp/" +:+ n, {| files := files h; names := l; umask := umask h; outcomes := outcomes h; logged := logged h |})
  | [] => ("/tmp/", h)
  end.
(** [fs::remove_file]; that there is no such file is no error here, as its
    callers do not mind. *)
Definition remove_file (path : string) : HM unit := io (delete path).
(** [TempFile] is the path; when it is dropped the file is removed, or the error
    is logged and the file stays. *)
Definition TempFile_drop (path : string) (h : Host) : Host :=
  match remove_file path h with (Ok _, h) => h | (Err _, h) => with_log path h end.

(** [fs::File::create] makes a file with the permissions (octal 666) that the mask leaves,
    and truncates one that exists. *)
Definition File_create (path : string) : HM unit := λ h,
  io (λ f, <[path := (match f !! path with Some (m, _) => m | None => Z.ldiff 438 (umask h) end, "")]> f) h.
(** Octal 400. *)
Definition set_user_pass_file_permissions (path : string) : HM unit :=
  io (alter (λ x, (256, x.2)) path).
Definition write_file (path contents : string) : HM unit := io (alter (λ x, (x.1, contents)) path).

Definition newline : string := String (Ascii.ascii_of_nat 10) "".
(** The guard is dropped when an operation fails. *)
Definition create_credentials_file (username password : string) : HM string := λ h,
  let '(path, h) := generate_path h in
  match (_ ← File_create path;
         _ ← set_user_pass_file_permissions path;
         write_file path (username +:+ newline +:+ password +:+ newline)) h with
  | (Ok _, h) => (Ok path, h)
  | (Err e, h) => (Err e, TempFile_drop path h)
  end.
Definition create_proxy_auth_file (proxy_settings : option CustomProxy) : HM (option string) :=
  match proxy_settings with
  | Some (Socks5Remote _ (Some auth)) =>
      f ← create_credentials_file (username auth) (password auth); mret (Some f)
  | _ => mret None
  end.

(** ** Proxies (proxy) *)

Module proxy.
Inductive Error : Set := UnexpectedExit | Io.

(** What the local server of the shadowsocks crate is started with. *)
Record SsConfig : Set := {
  ss_fast_open : bool;
  ss_tcp_only : bool;
  ss_local : SocketAddr;
  ss_endpoint : SocketAddr;
  ss_password : string;
  ss_cipher : string;
  ss_fwmark : Z
}.
(** The crate: whether it knows a cipher, and the addresses of the servers it
    starts: one without TCP has none, and one with TCP may fail to tell. *)
Class Shadowsocks : Type := {
  known_cipher : string → bool;
  local_server : SsConfig → result unit (list (option (result unit SocketAddr)))
}.

Inductive ProxyMonitor : Set := NoopProxyMonitor (port : Z) | ShadowsocksProxyMonitor (port : Z).
Definition monitor_port (p : ProxyMonitor) : Z :=
  match p with NoopProxyMonitor port => port | ShadowsocksProxyMonitor port => port end.

Definition get_listener_addr (srv : list (option (result unit SocketAddr))) : result unit SocketAddr :=
  match srv with
  | Some addr :: _ => addr
  | None :: _ | [] => Err tt
  end.
Definition shadowsocks_start `{Shadowsocks} (endpoint : SocketAddr) (password cipher : string) (fwmark : Z) :
    result Error ProxyMonitor :=
  map_err (λ _, Io) (
    if known_cipher cipher then
      srv ← local_server {| ss_fast_open := true; ss_tcp_only := true; ss_local := SockV4 (Ipv4Addr_new 127 0 0 1) 0;
                            ss_endpoint := endpoint; ss_password := password; ss_cipher := cipher; ss_fwmark := fwmark |};
      addr ← get_listener_addr srv;
      Ok (ShadowsocksProxyMonitor (sock_port addr))
    else Err tt).

Definition start_proxy `{Shadowsocks} (settings : CustomProxy) (fwmark : Z) : result Error ProxyMonitor :=
  match settings with
  | Socks5Local _ local_port => Ok (NoopProxyMonitor local_port)
  | Socks5Remote endpoint _ => Ok (NoopProxyMonitor (sock_port endpoint))
  | CustomShadowsocks endpoint password cipher => shadowsocks_start endpoint password cipher fwmark
  end.

(** How the task of a Shadowsocks server ends, and what [wait] makes of it. *)
Inductive TaskEnd : Set := Aborted | Cancelled | Panicked | Finished (r : result unit unit).
Definition shadowsocks_wait (e : TaskEnd) : result Error unit :=
  match e with
  | Aborted | Cancelled => Ok tt
  | Panicked => Err UnexpectedExit
  | Finished (Ok _) | Finished (Err _) => Err UnexpectedExit
  end.
End proxy.

(** ** The command (process/openvpn.rs) *)

Definition BASE_ARGUMENTS : list (list string) := [
  ["--client"]; ["--tls-client"]; ["--nobind"]; ["--mute-replay-warnings"]; ["--dev"; "tun"]; ["--ping"; "4"];
  ["--ping-exit"; "25"]; ["--connect-timeout"; "30"]; ["--connect-retry"; "0"; "0"]; ["--connect-retry-max"; "1"];
  ["--remote-cert-tls"; "server"]; ["--rcvbuf"; "1048576"]; ["--sndbuf"; "1048576"]; ["--fast-io"];
  ["--data-ciphers-fallback"; "AES-256-GCM"]; ["--tls-version-min"; "1.3"]; ["--verb"; "3"]; ["--route-noexec"]].
Definition ALLOWED_TLS1_3_CIPHERS : list string := ["TLS_AES_256_GCM_SHA384"; "TLS_CHACHA20_POLY1305_SHA256"].

Record OpenVpnCommand : Set := {
  openvpn_bin : string;
  cmd_config : option string;
  cmd_remote : option Endpoint;
  user_pass_path : option string;
  proxy_auth_path : option string;
  cmd_ca : option string;
  cmd_crl : option string;
  cmd_plugin : option (string * list string);
  cmd_log : option string;
  cmd_tunnel_options : openvpn.TunnelOptions;
  cmd_proxy_settings : option CustomProxy;
  tunnel_alias : option string;
  cmd_enable_ipv6 : bool;
  cmd_proxy_port : option Z;
  cmd_fwmark : option Z
}.
Definition OpenVpnCommand_new (bin : string) : OpenVpnCommand :=
  {| openvpn_bin := bin; cmd_config := None; cmd_remote := None; user_pass_path := None; proxy_auth_path := None;
     cmd_ca := None; cmd_crl := None; cmd_plugin := None; cmd_log := None;
     cmd_tunnel_options := {| openvpn.mssfix := None |}; cmd_proxy_settings := None; tunnel_alias := None;
     cmd_enable_ipv6 := true; cmd_proxy_port := None; cmd_fwmark := None |}.

Section Arguments.
Context `{AddressText}.

Definition base_arguments : list string := concat BASE_ARGUMENTS.
Definition tls_cipher_arguments : list string :=
  ["--tls-ciphersuites"; String.concat ":" ALLOWED_TLS1_3_CIPHERS].
Definition remote_arguments (c : OpenVpnCommand) : list string :=
  match cmd_remote c with
  | Some endpoint =>
      ["--proto"; match protocol endpoint with Udp => "udp" | Tcp => "tcp-client" end;
       "--remote"; show_ip (sock_ip (address endpoint)); pretty (sock_port (address endpoint))]
  | None => []
  end.
Definition authentication_arguments (c : OpenVpnCommand) : list string :=
  match user_pass_path c with Some path => ["--auth-user-pass"; path] | None => [] end.

(** The route to a proxy, past the tunnel. *)
Definition proxy_route (ip : IpAddr) : list string := ["--route"; show_ip ip; "255.255.255.255"; "net_gateway"].
(** [None] is the panic on a Shadowsocks proxy without a port. *)
Definition proxy_arguments (c : OpenVpnCommand) : option (list string) :=
  match cmd_proxy_settings c with
  | Some (Socks5Local remote_endpoint local_port) =>
      Some (["--socks-proxy"; "127.0.0.1"; pretty local_port] ++ proxy_route (sock_ip (address remote_endpoint)))
  | Some (Socks5Remote endpoint auth) =>
      Some (["--socks-proxy"; show_ip (sock_ip endpoint); pretty (sock_port endpoint)] ++
            match auth, proxy_auth_path c with Some _, Some auth_file => [auth_file] | _, _ => [] end ++
            proxy_route (sock_ip endpoint))
  | Some (CustomShadowsocks endpoint _ _) =>
      match cmd_proxy_port c with
      | Some proxy_port =>
          Some (["--socks-proxy"; "127.0.0.1"; pretty proxy_port] ++ proxy_route (sock_ip endpoint))
      | None => None
      end
  | None => Some []
  end.

Definition option_argument (name : string) (value : option string) : list string :=
  match value with Some x => [name; x] | None => [] end.
Definition get_arguments (c : OpenVpnCommand) : option (list string) :=
  proxy_args ← proxy_arguments c;
  Some (base_arguments ++ option_argument "--config" (cmd_config c) ++ remote_arguments c ++ authentication_arguments c ++
    option_argument "--ca" (cmd_ca c) ++ option_argument "--crl-verify" (cmd_crl c) ++
    match cmd_plugin c with Some (path, plugin_args) => "--plugin" :: path :: plugin_args | None => [] end ++
    option_argument "--log" (cmd_log c) ++
    option_argument "--mssfix" (pretty <$> openvpn.mssfix (cmd_tunnel_options c)) ++
    (if cmd_enable_ipv6 c then [] else ["--pull-filter"; "ignore"; "route-ipv6"; "--pull-filter"; "ignore"; "ifconfig-ipv6"]) ++
    option_argument "--dev-node" (tunnel_alias c) ++ tls_cipher_arguments ++ proxy_args ++
    option_argument "--mark" (pretty <$> cmd_fwmark c)).
End Arguments.

(** ** The start of a tunnel (lib.rs) *)

Definition OPENVPN_PLUGIN_FILENAME : string := "libtalpid_openvpn_plugin.so".
Definition OPENVPN_BIN_FILENAME : string := "openvpn".
(** In milliseconds. *)
Definition OPENVPN_DIE_TIMEOUT : Z := 4000.

Section Start.
Context `{AddressText} `{proxy.Shadowsocks}.
(** Whether a path exists, and whether the server for the plugin can listen at
    a path. *)
Context (exists_ : string → bool) (listen : string → bool).

Definition in_dir (resource_dir file : string) : string := resource_dir +:+ "/" +:+ file.
Definition get_plugin_path (resource_dir : string) : result ovpn.Error string :=
  let path := in_dir resource_dir OPENVPN_PLUGIN_FILENAME in
  if exists_ path then Ok path else Err (ovpn.PluginNotFound path).
Definition get_openvpn_bin (resource_dir : string) : result ovpn.Error string :=
  let path := in_dir resource_dir OPENVPN_BIN_FILENAME in
  if exists_ path then Ok path else Err (ovpn.OpenVpnNotFound path).
Definition get_config_path (resource_dir : string) : option string :=
  let path := in_dir resource_dir "openvpn.conf" in
  if exists_ path then Some path else None.

Definition create_openvpn_cmd (params : openvpn.TunnelParameters) (user_pass_file : string)
    (proxy_auth_file : option string) (resource_dir : string) (proxy_monitor : option proxy.ProxyMonitor) :
    result ovpn.Error OpenVpnCommand :=
  bin ← get_openvpn_bin resource_dir;
  Ok {| openvpn_bin := bin;
        cmd_config := get_config_path resource_dir;
        cmd_remote := Some (openvpn.endpoint (openvpn.config params));
        user_pass_path := Some user_pass_file;
        proxy_auth_path := proxy_auth_file;
        cmd_ca := Some (in_dir resource_dir "ca.crt");
        cmd_crl := None;
        cmd_plugin := None;
        cmd_log := None;
        cmd_tunnel_options := openvpn.options params;
        cmd_proxy_settings := openvpn.proxy params;
        tunnel_alias := None;
        cmd_enable_ipv6 := enable_ipv6 (openvpn.generic_options params);
        cmd_proxy_port := proxy.monitor_port <$> proxy_monitor;
        cmd_fwmark := None |}.

Definition start_proxy (proxy_settings : option CustomProxy) (fwmark : Z) : result ovpn.Error (option proxy.ProxyMonitor) :=
  match proxy_settings with
  | Some settings => p ← map_err (λ _, ovpn.ProxyError) (proxy.start_proxy settings fwmark); Ok (Some p)
  | None => Ok None
  end.

(** [event_server::start], at a path with a random part. *)
Definition event_server_start (uuid : string) : result ovpn.Error string :=
  let ipc_path := "/tmp/talpid-openvpn-" +:+ uuid in
  if listen ipc_path then Ok ipc_path else Err ovpn.EventDispatcherError.

(** The command as [new_internal] completes it. *)
Definition new_internal (cmd : OpenVpnCommand) (uuid plugin_path : string) (log_path : option string) (fwmark : Z) :
    result ovpn.Error OpenVpnCommand :=
  ipc_path ← event_server_start uuid;
  Ok {| openvpn_bin := openvpn_bin cmd; cmd_config := cmd_config cmd; cmd_remote := cmd_remote cmd;
        user_pass_path := user_pass_path cmd; proxy_auth_path := proxy_auth_path cmd; cmd_ca := cmd_ca cmd;
        cmd_crl := cmd_crl cmd; cmd_plugin := Some (plugin_path, [ipc_path]);
        cmd_log := match log_path with Some path => Some path | None => cmd_log cmd end;
        cmd_tunnel_options := cmd_tunnel_options cmd; cmd_proxy_settings := cmd_proxy_settings cmd;
        tunnel_alias := tunnel_alias cmd; cmd_enable_ipv6 := cmd_enable_ipv6 cmd;
        cmd_proxy_port := cmd_proxy_port cmd; cmd_fwmark := Some fwmark |}.

(** What a monitor keeps: the command that its task will run, the files that
    are removed with it, and its proxy. *)
Record Started : Set := {
  st_command : OpenVpnCommand;
  st_user_pass_file : string;
  st_proxy_auth_file : option string;
  st_proxy_monitor : option proxy.ProxyMonitor
}.
Definition drop_files (user_pass_file : string) (proxy_auth_file : option string) (h : Host) : Host :=
  let h := match proxy_auth_file with Some f => TempFile_drop f h | None => h end in
  TempFile_drop user_pass_file h.

(** [OpenVpnMonitor::start]; the guards of the files are dropped on the way out
    of an error. *)
Definition start (params : openvpn.TunnelParameters) (log_path : option string) (resource_dir uuid : string) :
    Host → result ovpn.Error Started * Host := λ h,
  match create_credentials_file (openvpn.username (openvpn.config params)) (openvpn.password (openvpn.config params)) h with
  | (Err _, h) => (Err ovpn.CredentialsWriteError, h)
  | (Ok user_pass_file, h) =>
      match create_proxy_auth_file (openvpn.proxy params) h with
      | (Err _, h) => (Err ovpn.CredentialsWriteError, TempFile_drop user_pass_file h)
      | (Ok proxy_auth_file, h) =>
          match (proxy_monitor ← start_proxy (openvpn.proxy params) (openvpn.fwmark params);
                 cmd ← create_openvpn_cmd params user_pass_file proxy_auth_file resource_dir proxy_monitor;
                 plugin_path ← get_plugin_path resource_dir;
                 cmd ← new_internal cmd uuid plugin_path log_path (openvpn.fwmark params);
                 Ok {| st_command := cmd; st_user_pass_file := user_pass_file; st_proxy_auth_file := proxy_auth_file;
                       st_proxy_monitor := proxy_monitor |}) with
          | Ok monitor => (Ok monitor, h)
          | Err e => (Err e, drop_files user_pass_file proxy_auth_file h)
          end
      end
  end.
End Start.

(** ** The server that the plugin talks to (lib.rs, mod event_server) *)

Module event_server.
(** The codes of [tonic::Status] in use; quotes are left out of the messages. *)
Inductive Status : Set := FailedPrecondition (msg : string) | InvalidArgument (msg : string).

Record EventDetails : Type := { env : gmap string string }.

Record OpenvpnEventProxyImpl : Set := {
  user_pass_file_path : string;
  proxy_auth_file_path : option string;
  ipv6_enabled : bool
}.

(** The default routes of both families, through the device of the tunnel and
    in the table of the tunnel. *)
Definition extract_routes (env : gmap string string) : result ovpn.Error (list RequiredRoute) :=
  match env !! "dev"%string with
  | None => Err ovpn.MissingTunnelInterface
  | Some tun_interface =>
      Ok (foldl (λ routes network,
        set_insert (use_main_table false (RequiredRoute_new network (Node_device tun_interface))) routes)
        [] [NetV4 0 0; NetV6 0 0])
  end.
Definition is_ipv4 (n : IpNetwork) : bool := match n with NetV4 _ _ => true | NetV6 _ _ => false end.

Section Server.
Context {K : Type} `{Rtnetlink K} `{NetlinkPacket} `{HashOrder} `{AddressText}.

Definition required (env : gmap string string) (key msg : string) : result Status string :=
  match env !! key with Some x => Ok x | None => Err (InvalidArgument msg) end.
Definition parsed {A} (r : option A) (msg : string) : result Status A :=
  match r with Some x => Ok x | None => Err (InvalidArgument msg) end.
Definition get_tunnel_metadata (env : gmap string string) : result Status TunnelMetadata :=
  tunnel_alias ← required env "dev" "missing tunnel alias";
  local ← required env "ifconfig_local" "missing ifconfig_local in up event";
  ip ← parsed (read_ip local) "Invalid tunnel IPv4 address";
  ips ← match env !! "ifconfig_ipv6_local"%string with
        | Some ipv6_address => ip6 ← parsed (read_ip ipv6_address) "Invalid tunnel IPv6 address"; Ok [ip; ip6]
        | None => Ok [ip]
        end;
  gateway ← required env "route_vpn_gateway" "No route_vpn_gateway in tunnel up event";
  ipv4_gateway ← parsed (read_ipv4 gateway) "Invalid tunnel gateway IPv4 address";
  ipv6_gateway ← match env !! "route_ipv6_gateway_1"%string with
                 | Some ipv6_address => g ← parsed (read_ipv6 ipv6_address) "Invalid tunnel gateway IPv6 address"; Ok (Some g)
                 | None => Ok None
                 end;
  Ok {| interface := tunnel_alias; ips := ips; TunnelTypes.ipv4_gateway := ipv4_gateway; TunnelTypes.ipv6_gateway := ipv6_gateway |}.

(** What a handler works on: the files, the route manager, the events that were
    reported, and whether the server was told to stop. *)
Record World : Type := {
  w_host : Host;
  w_manager : option RouteManagerImpl * K;
  w_events : list TunnelEvent;
  w_abort : bool
}.
Definition on_event (e : TunnelEvent) (w : World) : World :=
  {| w_host := w_host w; w_manager := w_manager w; w_events := w_events w ++ [e]; w_abort := w_abort w |}.
Definition with_manager (m : option RouteManagerImpl * K) (w : World) : World :=
  {| w_host := w_host w; w_manager := m; w_events := w_events w; w_abort := w_abort w |}.
Definition with_host (h : Host) (w : World) : World :=
  {| w_host := h; w_manager := w_manager w; w_events := w_events w; w_abort := w_abort w |}.
Definition abort_server (w : World) : World :=
  {| w_host := w_host w; w_manager := w_manager w; w_events := w_events w; w_abort := true |}.
#[local] Notation SM := (World → result Status unit * World).

Definition up_inner (r : EventDetails) : SM := λ w,
  match get_tunnel_metadata (env r) with
  | Ok metadata => (Ok tt, on_event (EvInterfaceUp metadata TrafficAll) w)
  | Err e => (Err e, w)
  end.

(** The errors of [tokio::fs::remove_file] are ignored. *)
Definition remove_credentials (p : OpenvpnEventProxyImpl) (h : Host) : Host :=
  let h := (remove_file (user_pass_file_path p) h).2 in
  match proxy_auth_file_path p with Some path => (remove_file path h).2 | None => h end.

Definition route_up_inner (p : OpenvpnEventProxyImpl) (r : EventDetails) : SM := λ w,
  let w := with_host (remove_credentials p (w_host w)) w in
  match handle_create_routing_rules (ipv6_enabled p) (w_manager w) with
  | (Err _, m) => (Err (FailedPrecondition "Failed to add routes"), with_manager m w)
  | (Ok _, m) =>
      let w := with_manager m w in
      match extract_routes (env r) with
      | Err _ => (Err (FailedPrecondition "Failed to obtain routes"), w)
      | Ok extracted =>
          let routes := List.filter (λ route, is_ipv4 (rr_prefix route) || ipv6_enabled p) extracted in
          match get_tunnel_metadata (env r) with
          | Err e => (Err e, w)
          | Ok metadata =>
              match handle_add_routes routes (w_manager w) with
              | (Err _, m) => (Err (FailedPrecondition "Failed to add routes"), with_manager m w)
              | (Ok _, m) => (Ok tt, on_event (EvUp metadata) (with_manager m w))
              end
          end
      end
  end.

Definition auth_failed (r : EventDetails) : SM := λ w,
  (Ok tt, on_event (EvAuthFailed (env r !! "auth_failed_reason"%string)) w).
(** The server stops after an error. *)
Definition inspect_err (m : SM) : SM := λ w,
  match m w with (Err e, w) => (Err e, abort_server w) | (Ok x, w) => (Ok x, w) end.
Definition up (r : EventDetails) : SM := inspect_err (up_inner r).
Definition route_up (p : OpenvpnEventProxyImpl) (r : EventDetails) : SM := inspect_err (route_up_inner p r).
Definition route_predown (r : EventDetails) : SM := λ w, (Ok tt, on_event EvDown w).
End Server.
Arguments World : clear implicits.
End event_server.

(** ** The plugin (talpid-openvpn-plugin) *)

Module plugin.
Import event_server.

(** [openvpn_plugin::EventType]; other events carry their number. *)
Inductive EventType : Set := AuthFailed | Up | RouteUp | RoutePredown | OtherEvent (n : Z).
#[global] Instance EventType_eq_dec : EqDecision EventType.
Proof. solve_decision. Defined.

Inductive Error : Set :=
| MissingCoreServerId
| SendEvent (e : Status)
| ParseEnvFailed
| ParseArgsFailed
| UnhandledEvent (e : EventType).
Inductive EventResult : Set := Success | Failure.

Definition INTERESTING_EVENTS : list EventType := [AuthFailed; Up; RouteUp; RoutePredown].

(** The strings that OpenVPN passes; [None] is one that is not UTF-8. *)
Fixpoint string_array_utf8 (l : list (option string)) : option (list string) :=
  match l with
  | [] => Some []
  | x :: l => x ← x; l ← string_array_utf8 l; Some (x :: l)
  end.
Definition parse_args (args : list (option string)) : result Error string :=
  match string_array_utf8 args with
  | None => Err ParseArgsFailed
  | Some (_ :: ipc_socket_path :: _) => Ok ipc_socket_path
  | Some _ => Err MissingCoreServerId
  end.

Section Plugin.
Context {K : Type} `{Rtnetlink K} `{NetlinkPacket} `{HashOrder} `{AddressText}.

(** A call arrives at the server, with its answer, or fails on the way when the
    server is gone. *)
Definition process_event (p : OpenvpnEventProxyImpl) (reachable : bool) (event : EventType) (details : gmap string string)
    (w : World K) : result Error unit * World K :=
  let details := {| env := details |} in
  let send (m : World K → result Status unit * World K) :=
    if reachable then match m w with (r, w) => (map_err SendEvent r, w) end
    else (Err (SendEvent (FailedPrecondition "transport error")), w) in
  match event with
  | AuthFailed => send (auth_failed details)
  | Up => send (up details)
  | RouteUp => send (route_up p details)
  | RoutePredown => send (route_predown details)
  | other => (Err (UnhandledEvent other), w)
  end.

(** The processor is given up after the first error.  The environment is [None]
    when it is not UTF-8. *)
Definition openvpn_event (p : OpenvpnEventProxyImpl) (reachable : bool) (event : EventType)
    (env : option (gmap string string)) (s : bool * World K) : result Error EventResult * (bool * World K) :=
  match env with
  | None => (Err ParseEnvFailed, s)
  | Some parsed_env =>
      if s.1 then
        match process_event p reachable event parsed_env s.2 with
        | (Ok _, w) => (Ok Success, (true, w))
        | (Err _, w) => (Ok Failure, (false, w))
        end
      else (Ok Failure, s)
  end.
End Plugin.
End plugin.

(** ** The monitor of a running tunnel (lib.rs, process/openvpn.rs) *)

Module running.
Inductive Prepare : Set := Preparing | Prepared (ok : bool) | Cancelled.
Inductive Process : Set := PNone | PRunning | PExited (success : bool).
(** The task of [OpenVpnProcHandle]: waiting for the process or for a request to
    stop; waiting for the process to end by itself, until a time; killing it;
    collecting its status. *)
Inductive ProcTask : Set := TNone | TSelect | TGrace (deadline : Z) | TKilling | TReap | TDone (r : result unit bool).
(** [kill_child] of [inner_wait_tunnel]. *)
Inductive ChildFut : Set := CIdle | CWatching | CKilled | CDone (r : result unit bool).
Inductive WaitResult : Set := Preparation (r : result unit unit) | Child (r : result unit bool) | EventDispatcher.
Inductive Proxy : Set :=
| NoProxy
| PxRunning (kind : proxy.ProxyMonitor) (closing : bool)
| PxDone (r : result ovpn.Error unit).

(** [triggered] triggers are idempotent.  [os_failed] records that the host
    failed to wait for the process or to kill it. *)
Record Mon : Set := {
  time : Z;
  prepare : Prepare;
  monitor_abort : bool;
  process : Process;
  task : ProcTask;
  stop : option Z;
  child : ChildFut;
  serving : bool;
  server_abort : bool;
  dispatcher : bool;
  first : option WaitResult;
  tunnel : option (result ovpn.Error unit);
  credentials : bool;
  proxy_state : Proxy;
  outer_first : option (result ovpn.Error unit);
  returned : option (result ovpn.Error unit);
  os_failed : bool
}.
#[global] Instance Mon_eta : Eta Mon := λ m,
  {| time := time m; prepare := prepare m; monitor_abort := monitor_abort m; process := process m; task := task m;
     stop := stop m; child := child m; serving := serving m; server_abort := server_abort m; dispatcher := dispatcher m;
     first := first m; tunnel := tunnel m; credentials := credentials m; proxy_state := proxy_state m;
     outer_first := outer_first m; returned := returned m; os_failed := os_failed m |}.

(** After [start]: the server listens and the task of the preparation is
    spawned. *)
Definition started (now : Z) (p : option proxy.ProxyMonitor) : Mon :=
  {| time := now; prepare := Preparing; monitor_abort := false; process := PNone; task := TNone; stop := None;
     child := CIdle; serving := true; server_abort := false; dispatcher := false; first := None; tunnel := None;
     credentials := true; proxy_state := match p with Some kind => PxRunning kind false | None => NoProxy end;
     outer_first := None; returned := None; os_failed := false |}.

Inductive Event : Set :=
| Tick (dt : Z)
| Close
| Exit (success : bool)
| HandlerFails
| ServerFails
| ProxyFails (e : proxy.TaskEnd)
| OsFails
| Spawn (ok : bool)
| Cancel
| TaskStop | TaskExit | TaskGraceful | TaskTimeout | TaskKill | TaskReap
| ChildStart | ChildExits | ChildAbort
| ServerStops
| Dispatcher
| TunnelEnds
| ProxyStops
| Return.

Definition keep_first {A} (o : option A) (a : A) : option A := match o with Some x => Some x | None => Some a end.

(** [OpenVpnCloseHandle::close] *)
Definition close (m : Mon) : Mon := m <| monitor_abort := true |>.

(** [wait_tunnel] *)
Definition wait_tunnel (r : WaitResult) : result ovpn.Error unit :=
  match r with
  | Preparation (Err _) => Err ovpn.StartProcessError
  | Preparation (Ok _) => Ok tt
  | Child (Ok true) => Ok tt
  | Child (Ok false) => Err ovpn.ChildProcessDied
  | Child (Err _) => Err (ovpn.ChildProcessError "Error when waiting")
  | EventDispatcher => Err ovpn.EventDispatcherExited
  end.

(** The result of [inner_wait_tunnel], when it has one. *)
Definition inner_wait_tunnel (m : Mon) : option WaitResult :=
  match prepare m with
  | Preparing => None
  | Prepared false => Some (Preparation (Err tt))
  | Cancelled => Some (Preparation (Ok tt))
  | Prepared true =>
      match child m, dispatcher m with
      | CDone _, true => first m
      | _, _ => None
      end
  end.
(** The end of [tunnel_task]: the monitor is dropped and the proxy closed. *)
Definition tunnel_ends (r : result ovpn.Error unit) (m : Mon) : Mon :=
  let m := m <| tunnel := Some r |> <| credentials := false |> <| outer_first ::= λ o, keep_first o r |> in
  match proxy_state m with
  | PxRunning kind _ => m <| proxy_state := PxRunning kind true |>
  | _ => m
  end.
(** The end of [proxy_task]. *)
Definition proxy_ends (r : result ovpn.Error unit) (m : Mon) : Mon :=
  close (m <| proxy_state := PxDone r |> <| outer_first ::= λ o, keep_first o r |>).
(** The end of [kill_child]. *)
Definition child_ends (r : result unit bool) (m : Mon) : Mon :=
  m <| child := CDone r |> <| server_abort := true |> <| first ::= λ o, keep_first o (Child r) |>.
Definition task_ends (r : result unit bool) (m : Mon) : Mon := m <| task := TDone r |>.

Definition step (e : Event) (m : Mon) : option Mon :=
  match e with
  | Tick dt => if 0 <? dt then Some (m <| time ::= λ t, t + dt |>) else None
  | Close => if monitor_abort m then None else Some (close m)
  | Exit success => match process m with PRunning => Some (m <| process := PExited success |>) | _ => None end
  | HandlerFails => if serving m && negb (server_abort m) then Some (m <| server_abort := true |>) else None
  | ServerFails => if serving m then Some (m <| serving := false |>) else None
  | ProxyFails e =>
      match proxy_state m, e with
      | PxRunning (proxy.ShadowsocksProxyMonitor _) _, proxy.Panicked
      | PxRunning (proxy.ShadowsocksProxyMonitor _) _, proxy.Finished _ =>
          Some (proxy_ends (map_err (λ _, ovpn.ProxyError) (proxy.shadowsocks_wait e)) m)
      | _, _ => None
      end
  | OsFails =>
      match task m with
      | TSelect | TKilling | TReap => Some (task_ends (Err tt) m <| os_failed := true |>)
      | TGrace _ => Some (m <| task := TReap |> <| os_failed := true |>)
      | TNone | TDone _ => None
      end
  | Spawn ok =>
      match prepare m with
      | Preparing =>
          let m := m <| prepare := Prepared ok |> in
          Some (if ok then m <| process := PRunning |> <| task := TSelect |> else m)
      | _ => None
      end
  | Cancel => match prepare m with Preparing => if monitor_abort m then Some (m <| prepare := Cancelled |>) else None | _ => None end
  | TaskStop =>
      match task m, stop m with
      | TSelect, Some timeout => Some (m <| task := TGrace (time m + timeout) |>)
      | _, _ => None
      end
  | TaskExit => match task m, process m with TSelect, PExited s => Some (task_ends (Ok s) m) | _, _ => None end
  | TaskGraceful => match task m, process m with TGrace _, PExited _ => Some (m <| task := TReap |>) | _, _ => None end
  | TaskTimeout => match task m with TGrace d => if d <=? time m then Some (m <| task := TKilling |>) else None | _ => None end
  | TaskKill =>
      match task m with
      | TKilling => Some (m <| process ::= λ p, match p with PExited s => PExited s | _ => PExited false end |> <| task := TReap |>)
      | _ => None
      end
  | TaskReap => match task m, process m with TReap, PExited s => Some (task_ends (Ok s) m) | _, _ => None end
  | ChildStart => match child m, prepare m with CIdle, Prepared true => Some (m <| child := CWatching |>) | _, _ => None end
  | ChildExits =>
      match child m, task m with
      | CWatching, TDone r | CKilled, TDone r => Some (child_ends r m)
      | _, _ => None
      end
  | ChildAbort =>
      match child m with
      | CWatching =>
          if monitor_abort m
          then Some (m <| child := CKilled |> <| stop ::= λ s, keep_first s OPENVPN_DIE_TIMEOUT |>)
          else None
      | _ => None
      end
  | ServerStops => if serving m && server_abort m then Some (m <| serving := false |>) else None
  | Dispatcher =>
      match child m with
      | CIdle => None
      | _ =>
          if negb (serving m) && negb (dispatcher m)
          then Some (m <| dispatcher := true |> <| first ::= λ o, keep_first o EventDispatcher |>)
          else None
      end
  | TunnelEnds =>
      match tunnel m, inner_wait_tunnel m with
      | None, Some r => Some (tunnel_ends (wait_tunnel r) m)
      | _, _ => None
      end
  | ProxyStops =>
      match proxy_state m with
      | PxRunning (proxy.NoopProxyMonitor _) true => Some (proxy_ends (Ok tt) m)
      | PxRunning (proxy.ShadowsocksProxyMonitor _) true =>
          Some (proxy_ends (map_err (λ _, ovpn.ProxyError) (proxy.shadowsocks_wait proxy.Aborted)) m)
      | _ => None
      end
  | Return =>
      match returned m, tunnel m, proxy_state m with
      | None, Some _, NoProxy | None, Some _, PxDone _ => Some (m <| returned := outer_first m |>)
      | _, _, _ => None
      end
  end.

Fixpoint run (es : list Event) (m : Mon) : option Mon :=
  match es with [] => Some m | e :: es => m ← step e m; run es m end.
Definition reached (p : option proxy.ProxyMonitor) (m : Mon) : Prop := ∃ now es, run es (started now p) = Some m.

(** *** What holds in every state *)

Definition ended (r : result unit bool) (p : Process) (failed : bool) : Prop :=
  match r with Ok s => p = PExited s | Err _ => failed = true end.
Definition came_first (w : WaitResult) (c : ChildFut) (dispatcher : bool) : Prop :=
  match w with
  | Child r => c = CDone r
  | EventDispatcher => dispatcher = true
  | Preparation _ => False
  end.
Definition is_closing (p : Proxy) : Prop := match p with PxRunning _ closing => closing = true | _ => True end.
Definition has_ended (p : Proxy) : Prop := match p with PxRunning _ _ => False | _ => True end.
Definition waited (c : ChildFut) : option (result unit bool) := match c with CDone r => Some r | _ => None end.
(** The process and its task. *)
Record process_inv (m : Mon) : Prop := {
  i_process : prepare m ≠ Prepared true → process m = PNone ∧ task m = TNone ∧ child m = CIdle;
  i_task r : task m = TDone r → ended r (process m) (os_failed m);
  i_reap : task m = TReap → process m = PRunning → os_failed m = true;
  i_none : prepare m = Prepared true → process m ≠ PNone ∧ task m ≠ TNone;
  i_child r : child m = CDone r → task m = TDone r ∧ server_abort m = true;
  i_killed : child m = CKilled → stop m = Some OPENVPN_DIE_TIMEOUT;
  i_stop t : stop m = Some t → t = OPENVPN_DIE_TIMEOUT;
  i_deadline d : task m = TGrace d → d ≤ time m + OPENVPN_DIE_TIMEOUT
}.
(** The process and the server. *)
Record join_inv (m : Mon) : Prop := {
  i_dispatcher : dispatcher m = true → serving m = false ∧ prepare m = Prepared true;
  i_first w : first m = Some w → came_first w (child m) (dispatcher m);
  i_first_none : first m = None → waited (child m) = None ∧ dispatcher m = false
}.
(** The tunnel and the proxy. *)
Record outer_inv (p : option proxy.ProxyMonitor) (m : Mon) : Prop := {
  i_credentials : credentials m = match tunnel m with Some _ => false | None => true end;
  i_proxy : proxy_state m = NoProxy ↔ p = None;
  i_proxy_result r : proxy_state m = PxDone r → r = Ok tt ∨ r = Err ovpn.ProxyError;
  i_proxy_closing : tunnel m ≠ None → is_closing (proxy_state m);
  i_outer r : outer_first m = Some r → tunnel m = Some r ∨ proxy_state m = PxDone r;
  i_outer_none : outer_first m = None → tunnel m = None;
  i_returned r : returned m = Some r → outer_first m = Some r ∧ tunnel m ≠ None ∧ has_ended (proxy_state m)
}.

Ltac step_cases H :=
  repeat match type of H with
  | context [match ?x with _ => _ end] => destruct x eqn:?; try done
  end.
Ltac use_step Hs := cbn in Hs; unfold tunnel_ends in Hs; cbn in Hs; step_cases Hs; simplify_eq; constructor; cbn; intros; simplify_eq.

Ltac split_first :=
  try match goal with
  | H : context [keep_first ?f] |- _ => revert H; destruct f eqn:?; cbn; intros; simplify_eq
  end.
(** What the invariants say of the case at hand. *)
Ltac saturate :=
  repeat match goal with
  | H : ?P → _, E : ?P |- _ => specialize (H E)
  | H : ∀ x, ?f = Some x → _, E : ?f = Some _ |- _ => specialize (H _ E)
  | H : ∀ x, ?f = TDone x → _, E : ?f = TDone _ |- _ => specialize (H _ E)
  | H : ∀ x, ?f = TGrace x → _, E : ?f = TGrace _ |- _ => specialize (H _ E)
  | H : ∀ x, ?f = CDone x → _, E : ?f = CDone _ |- _ => specialize (H _ E)
  | H : ?P → _ |- _ => assert P as Hn by congruence; specialize (H Hn); clear Hn
  | H : _ ∧ _ |- _ => destruct H
  | H : ∃ _, _ |- _ => destruct H
  end.

Lemma process_step e m m' : process_inv m → step e m = Some m' → process_inv m'.
Proof.
  intros [] Hs. destruct e; use_step Hs; try solve [done | eauto | congruence | saturate; split_and?; congruence || lia].
  - saturate. destruct r; cbn in *; congruence.
  - by destruct (process m).
  - by destruct (process m).
  - destruct (stop m); cbn in *; saturate; congruence.
  - destruct (stop m); cbn in *; saturate; congruence.
Qed.

Lemma child_prepared m : process_inv m → child m ≠ CIdle → prepare m = Prepared true.
Proof. intros [Hp _ _ _ _ _ _ _] Hc. destruct (prepare m) as [|[]|]; try done; destruct Hc, Hp; naive_solver. Qed.

Lemma join_step e m m' : process_inv m → join_inv m → step e m = Some m' → join_inv m'.
Proof.
  intros Hp [] Hs. pose proof (child_prepared m Hp). destruct Hp.
  destruct e; use_step Hs; try solve [done | eauto | congruence | saturate; split_and?; congruence || lia].
  all: split_first.
  all: bool_to_prop; saturate; try match goal with w : WaitResult |- _ => destruct w end; cbn in *; split_and?; congruence || done.
Qed.

Lemma inner_stable e m m' w : process_inv m → join_inv m → step e m = Some m' → inner_wait_tunnel m = Some w →
  inner_wait_tunnel m' = Some w.
Proof.
  intros Hp [] Hs. pose proof (child_prepared m Hp). destruct Hp. unfold inner_wait_tunnel.
  destruct e; cbn in Hs; unfold tunnel_ends in Hs; cbn in Hs; step_cases Hs; simplify_eq; cbn; try done.
  all: destruct (prepare m) as [|[]|]; try done; bool_to_prop; destruct (dispatcher m) eqn:?, (child m) eqn:?, (first m) eqn:?; cbn; try done; saturate; congruence.
Qed.

Lemma outer_step p e m m' : outer_inv p m → step e m = Some m' → outer_inv p m'.
Proof.
  intros [] Hs. destruct e; use_step Hs; try solve [done | eauto | congruence | saturate; split_and?; congruence || lia].
  all: split_first.
  all: repeat match goal with E : proxy_state _ = _, H : context [proxy_state _] |- _ => rewrite E in H end.
  all: repeat match goal with E : proxy_state _ = _ |- context [proxy_state _] => rewrite E end.
  all: try solve [rewrite <- i_proxy0; split; congruence].
  all: saturate; try done; split_and?; try done; try solve [intuition congruence].
  all: try by rewrite Heqo0.
  by right; destruct r.
Qed.

(** The result of the tunnel is the result of [inner_wait_tunnel]. *)
Definition tunnel_inv (m : Mon) : Prop :=
  ∀ r, tunnel m = Some r → ∃ w, inner_wait_tunnel m = Some w ∧ r = wait_tunnel w.
Lemma tunnel_step e m m' : process_inv m → join_inv m → tunnel_inv m → step e m = Some m' → tunnel_inv m'.
Proof.
  intros Hp Hj Ht Hs r Hr. destruct (tunnel m) as [r0|] eqn:E.
  - destruct (Ht _ E) as (w & Hw & ->). exists w. split; [by eapply inner_stable|].
    enough (tunnel m' = tunnel m) by congruence.
    destruct e; cbn in Hs; unfold tunnel_ends in Hs; cbn in Hs; step_cases Hs; simplify_eq; cbn; congruence.
  - destruct (inner_wait_tunnel m) as [w|] eqn:Ew.
    + exists w. split; [by eapply inner_stable|].
      destruct e; cbn in Hs; unfold tunnel_ends in Hs; cbn in Hs; step_cases Hs; simplify_eq; cbn in *; congruence.
    + exfalso. destruct e; cbn in Hs; step_cases Hs; simplify_eq; cbn in *; congruence.
Qed.

Record inv (p : option proxy.ProxyMonitor) (m : Mon) : Prop := {
  inv_process :> process_inv m;
  inv_join :> join_inv m;
  inv_outer :> outer_inv p m;
  inv_tunnel : tunnel_inv m
}.
Lemma monitor_run_inv p es m m' : inv p m → run es m = Some m' → inv p m'.
Proof.
  revert m. induction es as [|e es IH]; intros m Hi; cbn; [by intros [= <-]|].
  destruct (step e m) as [m1|] eqn:E; cbn; [|done]. apply IH. destruct Hi.
  constructor; eauto using process_step, join_step, outer_step, tunnel_step.
Qed.
Lemma reached_inv p m : reached p m → inv p m.
Proof.
  intros (now & es & Hr). eapply monitor_run_inv, Hr. constructor; [constructor..|]; cbn; try done; by destruct p.
Qed.

(** A process that was started is gone, unless the host failed to wait for it or
    to kill it. *)
Definition process_gone (m : Mon) : Prop :=
  match process m with PRunning => os_failed m = true | _ => True end.

(** *** The reason that came first *)

(** The first event of a kind. *)
Definition first_of (kind : Event → bool) (es : list Event) : option Event := head (List.filter kind es).
(** The end of the preparation, the end of the process or of the server (as
    [inner_wait_tunnel] learns of them), and the end of the tunnel or of the
    proxy. *)
Definition prepare_end (e : Event) : bool := match e with Spawn _ | Cancel => true | _ => false end.
Definition inner_end (e : Event) : bool := match e with ChildExits | Dispatcher => true | _ => false end.
Definition outer_end (e : Event) : bool := match e with TunnelEnds | ProxyFails _ | ProxyStops => true | _ => false end.

(** What the tunnel ended with. *)
Definition tunnel_reason (es : list Event) (m : Mon) (r : result ovpn.Error unit) : Prop :=
  match first_of prepare_end es with
  | Some (Spawn false) => r = Err ovpn.StartProcessError
  | Some Cancel => r = Ok tt
  | _ =>
      match first_of inner_end es with
      | Some ChildExits =>
          (process m = PExited true ∧ r = Ok tt) ∨ (process m = PExited false ∧ r = Err ovpn.ChildProcessDied) ∨
          (os_failed m = true ∧ ∃ msg, r = Err (ovpn.ChildProcessError msg))
      | Some Dispatcher => r = Err ovpn.EventDispatcherExited
      | _ => False
      end
  end.
Definition reason (es : list Event) (m : Mon) (r : result ovpn.Error unit) : Prop :=
  match first_of outer_end es with
  | Some TunnelEnds => tunnel_reason es m r
  | Some (ProxyFails _) => r = Err ovpn.ProxyError
  | _ => False
  end.

Lemma first_of_snoc kind es e :
  first_of kind (es ++ [e]) = match first_of kind es with Some x => Some x | None => if kind e then Some e else None end.
Proof. unfold first_of. rewrite List.filter_app. cbn. destruct (List.filter kind es); cbn; by destruct (kind e). Qed.

(** The monitor and its history. *)
Record history_inv (es : list Event) (m : Mon) : Prop := {
  h_prepare : first_of prepare_end es =
    match prepare m with Preparing => None | Prepared ok => Some (Spawn ok) | Cancelled => Some Cancel end;
  h_inner : first_of inner_end es = (λ w, match w with Child _ => ChildExits | _ => Dispatcher end) <$> first m;
  h_outer : match first_of outer_end es with
            | None => outer_first m = None
            | Some TunnelEnds => tunnel m ≠ None ∧ outer_first m = tunnel m
            | Some (ProxyFails _) => outer_first m = Some (Err ovpn.ProxyError)
            | _ => False
            end;
  h_tunnel : tunnel m ≠ None → outer_first m ≠ None;
  h_closing k : proxy_state m = PxRunning k true → tunnel m ≠ None
}.

Ltac history_cases Hs := cbn in Hs; unfold tunnel_ends in Hs; cbn in Hs; step_cases Hs; simplify_eq; cbn.

Lemma history_step es e m m' : history_inv es m → step e m = Some m' → history_inv (es ++ [e]) m'.
Proof.
  intros [Hp Hi Ho Ht Hc] Hs. constructor.
  - rewrite first_of_snoc, Hp. destruct e; history_cases Hs;
      repeat match goal with E : prepare _ = _ |- _ => rewrite E end; try done; by destruct (prepare m) as [|[]|].
  - rewrite first_of_snoc, Hi. destruct e; history_cases Hs; by destruct (first m).
  - rewrite first_of_snoc. destruct (first_of outer_end es) as [e0|].
    + destruct e0; try done; [|destruct Ho as [Ho1 Ho2]; destruct (tunnel m) as [r|] eqn:Er; [|done]];
        destruct e; history_cases Hs; rewrite ?Ho, ?Ho2, ?Er; try done; split; congruence.
    + destruct e; history_cases Hs; try done; rewrite ?Ho; cbn; try done.
      * by destruct r.
      * by eapply Ht; [eapply Hc|].
      * by eapply Ht; [eapply Hc|].
  - destruct e; history_cases Hs; try done; destruct (outer_first m); cbn; try done; auto.
  - intros k. destruct e; history_cases Hs; try done; naive_solver.
Qed.

Lemma monitor_run_snoc es e m m' : run (es ++ [e]) m = Some m' ↔ ∃ m1, run es m = Some m1 ∧ step e m1 = Some m'.
Proof.
  revert m. induction es as [|e' es IH]; intros m; cbn.
  - split; [|by intros (m1 & [= <-] & ->)]. destruct (step e m) as [m1|] eqn:E; cbn; [|done]. intros [= <-]. eauto.
  - destruct (step e' m) as [m1|]; cbn; [apply IH|]. split; [done|]. by intros (m1 & ? & _).
Qed.

Lemma run_history now p es m : run es (started now p) = Some m → history_inv es m.
Proof.
  revert m. induction es as [|e es IH] using rev_ind; intros m.
  - intros [= <-]. constructor; cbn; try done. by destruct p.
  - intros (m1 & Hm & Hs)%monitor_run_snoc. by eapply history_step; [apply IH|].
Qed.

Lemma inner_clean es m w : process_inv m → join_inv m → history_inv es m → inner_wait_tunnel m = Some w →
  process_gone m ∧ (serving m = false ∨ process m = PNone) ∧ tunnel_reason es m (wait_tunnel w).
Proof.
  intros [Hp Ht _ _ Hc _ _ _] [Hd Hf _] [Hpr Hin _ _ _]. unfold inner_wait_tunnel, process_gone, tunnel_reason. rewrite Hpr, Hin.
  destruct (prepare m) as [|[]|] eqn:E; [done| | |].
  - destruct (child m) as [| | |r] eqn:Ec; try done. destruct (dispatcher m) eqn:Ed; [|done]. intros Ew. rewrite Ew. cbn.
    destruct (Hc _ eq_refl) as [Er _]. specialize (Ht _ Er). destruct (Hd eq_refl) as [Hs _]. specialize (Hf _ Ew).
    destruct w as [|r'|]; [done| |]; cbn in Hf; simplify_eq.
    + destruct r' as [[]|]; cbn in *; rewrite ?Ht; [auto|by split_and!; [|left|right; left]|].
      split_and!; [by destruct (process m)|by left|right; right; eauto].
    + destruct r as [[]|]; cbn in *; rewrite ?Ht; auto. by destruct (process m); auto.
  - intros [= <-]. destruct Hp as (Hn & _); [done|]. rewrite Hn. cbn. auto.
  - intros [= <-]. destruct Hp as (Hn & _); [done|]. rewrite Hn. cbn. auto.
Qed.

(** C32: the wait for a tunnel returns only when everything it started is at an
    end: the process of OpenVPN is gone, unless the host failed to wait for it
    or to kill it, the guards of the files with credentials are dropped, the
    proxy has ended, and the server for the plugin has, unless the process was
    never started.  The result is the reason that came first: the end of the
    proxy, if it failed before the tunnel ended; otherwise, of a process that
    could not be started, an error, and of one that was not started because the
    tunnel was closed, none; otherwise, of the process and the server, whose end
    the wait noticed first: for the process its exit status, or the failure to
    wait for it, for the server an error.  (A server that ends first is reported
    so even when the process exits well afterwards.) *)
Theorem wait_returns_clean now p es m r :
  run es (started now p) = Some m → returned m = Some r →
  process_gone m ∧ credentials m = false ∧ has_ended (proxy_state m) ∧
  (serving m = false ∨ process m = PNone) ∧ reason es m r.
Proof.
  intros Hrun Hret. pose proof (run_history _ _ _ _ Hrun) as Hh.
  destruct (reached_inv p m ltac:(by exists now, es)) as [Hp Hj [Hcr _ _ _ _ _ Hr] Ht].
  destruct (Hr _ Hret) as (Hf & Hn & He). rewrite Hcr. destruct (tunnel m) as [rt|] eqn:E; [|done].
  destruct (Ht _ E) as (w & Hw & ->). destruct (inner_clean es m w Hp Hj Hh Hw) as (Hg & Hs & Hx). split_and!; try done.
  unfold reason. pose proof (h_outer _ _ Hh) as Ho. rewrite Hf in Ho. destruct (first_of outer_end es) as [[]|]; try done.
  - by injection Ho.
  - destruct Ho as [_ Ho]. rewrite E in Ho. by injection Ho as ->.
Qed.

(** *** A closed tunnel ends *)

Definition is_tick (e : Event) : bool := match e with Tick _ => true | _ => false end.
(** The steps that the program takes by itself. *)
Definition is_own (e : Event) : bool :=
  match e with
  | Tick _ | Close | Exit _ | HandlerFails | ServerFails | ProxyFails _ | OsFails | Spawn _ => false
  | _ => true
  end.
(** What is left to do. *)
Definition left_to_do (m : Mon) : nat :=
  (match prepare m with Preparing => 8 | _ => 0 end +
   match process m with PRunning => 1 | _ => 0 end +
   match task m with TSelect => 4 | TGrace _ => 3 | TKilling => 2 | TReap => 1 | _ => 0 end +
   match child m with CIdle => 3 | CWatching => 2 | CKilled => 1 | CDone _ => 0 end +
   (if serving m then 1 else 0) + (if server_abort m then 0 else 1) + (if dispatcher m then 0 else 1) +
   match tunnel m with None => 1 | _ => 0 end + match proxy_state m with PxRunning _ _ => 1 | _ => 0 end +
   match returned m with None => 1 | _ => 0 end)%nat.

Lemma step_less p e m m' : inv p m → monitor_abort m = true → step e m = Some m' →
  monitor_abort m' = true ∧ if is_tick e then left_to_do m' = left_to_do m else (left_to_do m' < left_to_do m)%nat.
Proof.
  intros Hi Ha Hs. pose proof (i_outer_none _ _ (inv_outer _ _ Hi)) as Ho. unfold left_to_do.
  destruct e; cbn in Hs; unfold tunnel_ends in Hs; cbn in Hs; step_cases Hs; simplify_eq; cbn; bool_to_prop.
  all: try destruct (outer_first m); try specialize (Ho eq_refl).
  all: repeat match goal with E : ?f _ = _ |- context [?f _] => rewrite E end; try congruence; try (split; [done|lia]).
  all: destruct (process m); split; (done || lia).
Qed.

Lemma steps_bounded p es m m' : inv p m → monitor_abort m = true → run es m = Some m' →
  (length (List.filter (λ e, negb (is_tick e)) es) + left_to_do m' ≤ left_to_do m)%nat.
Proof.
  revert m. induction es as [|e es IH]; intros m Hi Ha; cbn; [intros [= <-]; lia|].
  destruct (step e m) as [m1|] eqn:E; cbn; [|done]. intros Hr. destruct (step_less _ _ _ _ Hi Ha E) as [Ha1 Hl].
  specialize (IH m1 (monitor_run_inv p [e] m m1 Hi ltac:(cbn; by rewrite E)) Ha1 Hr). destruct (is_tick e); cbn; lia.
Qed.

(** The program can go on, at the latest at the end of the time that the process
    has to end by itself. *)
Definition can_go_on (m : Mon) : Prop := ∃ e m', is_own e = true ∧ step e m = Some m'.
Definition at_time (t : Z) (m : Mon) : Mon := m <| time := t |>.

Ltac goes e := left; exists e; cbn; repeat match goal with E : ?f _ = _ |- context [?f _] => rewrite E end; cbn; eauto.
Ltac go e := exists e; cbn; repeat match goal with E : ?f _ = _ |- context [?f _] => rewrite E end; cbn; eauto.

(** After [inner_wait_tunnel]. *)
Lemma ended_goes_on m w : inner_wait_tunnel m = Some w → (tunnel m ≠ None → is_closing (proxy_state m)) → returned m = None →
  can_go_on m.
Proof.
  intros Hw Hcl Hr. destruct (tunnel m) as [r|] eqn:E.
  - specialize (Hcl ltac:(done)). destruct (proxy_state m) as [|[] closing|] eqn:Ep; cbn in Hcl; subst.
    + go Return.
    + go ProxyStops.
    + go ProxyStops.
    + go Return.
  - go TunnelEnds.
Qed.
(** The task of the process, asked to stop. *)
Lemma task_goes_on m : process_inv m → prepare m = Prepared true → child m = CKilled → os_failed m = false →
  can_go_on m ∨ ∃ d, task m = TGrace d ∧ time m < d ∧ d ≤ time m + OPENVPN_DIE_TIMEOUT ∧ can_go_on (at_time d m).
Proof.
  intros [Hp Ht Hre Hn Hc Hk _ Hdl] Epr Ec Hos. destruct (Hn Epr) as [Hn1 Hn2]. specialize (Hk Ec).
  destruct (task m) as [| |d| | |r] eqn:E; [done| | | | |].
  - goes TaskStop.
  - destruct (decide (d ≤ time m)) as [Hd|Hd].
    + left. exists TaskTimeout. cbn. rewrite E, (proj2 (Z.leb_le _ _) Hd). eauto.
    + right. exists d. split_and!; [done|lia|auto|]. exists TaskTimeout. cbn. rewrite E, Z.leb_refl. eauto.
  - goes TaskKill.
  - destruct (process m) eqn:Epm; [done|rewrite Hre in Hos by done; done|]. goes TaskReap.
  - goes ChildExits.
Qed.

Lemma closed_goes_on p m : inv p m → monitor_abort m = true → returned m = None → os_failed m = false →
  can_go_on m ∨ ∃ d, task m = TGrace d ∧ time m < d ∧ d ≤ time m + OPENVPN_DIE_TIMEOUT ∧ can_go_on (at_time d m).
Proof.
  intros [Hpi [Hd Hf Hfn] [_ _ _ Hcl _ _ _] _] Ha Hr Hos.
  destruct (prepare m) as [|[]|] eqn:Epr.
  - goes Cancel.
  - destruct (child m) as [| | |r] eqn:Ec; [goes ChildStart|goes ChildAbort|by apply task_goes_on|].
    destruct (i_child _ Hpi _ Ec) as [_ Hab]. destruct (serving m) eqn:Es; [goes ServerStops|].
    destruct (dispatcher m) eqn:Ed; [|goes Dispatcher]. left.
    destruct (first m) as [w|] eqn:Ew; [|by destruct (Hfn eq_refl)].
    apply (ended_goes_on m w); [|done..]. unfold inner_wait_tunnel. by rewrite Epr, Ec, Ed.
  - left. eapply ended_goes_on; [unfold inner_wait_tunnel; by rewrite Epr|done..].
  - left. eapply ended_goes_on; [unfold inner_wait_tunnel; by rewrite Epr|done..].
Qed.

(** C33: a tunnel that is closed comes to an end: from then on there are at most
    22 steps other than the passing of time, and as long as the wait has not
    returned, the program can take one by itself, or can take one once the time
    is over that OpenVPN has to end, of at most four seconds; unless the host
    fails to wait for the process or to kill it. *)
Theorem closed_tunnel_ends p m es m' :
  reached p m → monitor_abort m = true → run es m = Some m' →
  (length (List.filter (λ e, negb (is_tick e)) es) ≤ 22)%nat ∧
  (os_failed m' = false → returned m' = None →
   can_go_on m' ∨ ∃ d, task m' = TGrace d ∧ time m' < d ∧ d ≤ time m' + 4000 ∧ can_go_on (at_time d m')).
Proof.
  intros Hi%reached_inv Ha Hr. split.
  - pose proof (steps_bounded _ _ _ _ Hi Ha Hr) as Hb. enough (left_to_do m ≤ 8 + 1 + 4 + 3 + 1 + 1 + 1 + 1 + 1 + 1)%nat by lia. clear.
    unfold left_to_do. repeat apply Nat.add_le_mono; case_match; lia.
  - intros Hos Hn. eapply closed_goes_on; [by eapply monitor_run_inv|..|done|done].
    clear Hn Hos. revert m Hi Ha Hr. induction es as [|e es IH]; intros m Hi Ha; cbn; [by intros [= <-]|].
    destruct (step e m) as [m1|] eqn:E; cbn; [|done]. intros Hr. destruct (step_less _ _ _ _ Hi Ha E) as [Ha1 _].
    apply (IH m1); [|done..]. by apply (monitor_run_inv p [e] m m1 Hi); cbn; rewrite E.
Qed.

(** The server that stops after an error does not stop the process: when it goes
    on by itself, the wait goes on too, until the tunnel is closed. *)
Lemma failed_handler_waits :
  ∃ m, run [Spawn true; ChildStart; HandlerFails; ServerStops; Dispatcher] (started 0 None) = Some m ∧
    process m = PRunning ∧ serving m = false ∧ ∀ e, is_own e = true → step e m = None.
Proof. eexists. split; [reflexivity|]. split_and!; [done..|]. by intros []. Qed.
(** The server is not stopped when the process was never started. *)
Lemma server_left_running :
  ∃ m, run [Spawn false; TunnelEnds; Return] (started 0 None) = Some m ∧
    returned m = Some (Err ovpn.StartProcessError) ∧ serving m = true ∧ server_abort m = false.
Proof. eexists. by split; [reflexivity|]. Qed.

(** A tunnel through a Shadowsocks proxy that is closed, while OpenVPN does not
    end by itself. *)
Definition ex_kind : proxy.ProxyMonitor := proxy.ShadowsocksProxyMonitor 4000.
Definition ex_closed : list Event := [Spawn true; ChildStart; Close].
Definition ex_end : list Event :=
  [ChildAbort; TaskStop; Tick 4000; TaskTimeout; TaskKill; TaskReap; ChildExits; ServerStops; Dispatcher; TunnelEnds; ProxyStops; Return].
Definition after (es : list Event) : Mon := default (started 0 None) (run es (started 0 (Some ex_kind))).
Lemma wait_returns_clean_witness :
  process_gone (after (ex_closed ++ ex_end)) ∧ credentials (after (ex_closed ++ ex_end)) = false ∧
  has_ended (proxy_state (after (ex_closed ++ ex_end))) ∧
  (serving (after (ex_closed ++ ex_end)) = false ∨ process (after (ex_closed ++ ex_end)) = PNone) ∧
  reason (ex_closed ++ ex_end) (after (ex_closed ++ ex_end)) (Err ovpn.ChildProcessDied).
Proof.
  apply (wait_returns_clean 0 (Some ex_kind) (ex_closed ++ ex_end)).
  - vm_compute; reflexivity.
  - vm_compute; reflexivity.
Defined.
Lemma closed_tunnel_ends_witness :
  (length (List.filter (λ e, negb (is_tick e)) ex_end) ≤ 22)%nat ∧
  (os_failed (after (ex_closed ++ ex_end)) = false → returned (after (ex_closed ++ ex_end)) = None →
   can_go_on (after (ex_closed ++ ex_end)) ∨ ∃ d, task (after (ex_closed ++ ex_end)) = TGrace d ∧
     time (after (ex_closed ++ ex_end)) < d ∧ d ≤ time (after (ex_closed ++ ex_end)) + 4000 ∧
     can_go_on (at_time d (after (ex_closed ++ ex_end)))).
Proof.
  apply (closed_tunnel_ends (Some ex_kind) (after ex_closed) ex_end (after (ex_closed ++ ex_end))).
  - exists 0, ex_closed. vm_compute; reflexivity.
  - vm_compute; reflexivity.
  - vm_compute; reflexivity.
Defined.
End running.

(** ** The start leaves no credentials behind *)

Section Credentials.
Context `{AddressText} `{proxy.Shadowsocks}.
Context (exists_ : string → bool) (listen : string → bool).

(** The names to be drawn are of no file, and different. *)
Definition fresh_names (h : Host) : Prop :=
  ∃ a b l, names h = a :: b :: l ∧ a ≠ b ∧ files h !! ("/tmp/" +:+ a) = None ∧ files h !! ("/tmp/" +:+ b) = None.

Lemma io_files op h r h' : io op h = (r, h') →
  names h' = names h ∧ logged h' = logged h ∧ files h' = (if is_ok r then op (files h) else files h).
Proof. unfold io. destruct (outcomes h) as [|[] l]; intros [= <- <-]; cbn; auto. Qed.

(** A file that may stay: only its owner may read it, or it is empty. *)
Definition harmless (f : option (Z * string)) : Prop := ∀ mode text, f = Some (mode, text) → mode = 256 ∨ text = ""%string.
(** From [h] to [h']: the files are the same but for new ones, which are held by
    a guard or which the log says could not be removed. *)
Definition guarded (h : Host) (held : list string) (h' : Host) : Prop :=
  (∀ path, path ∈ held → files h !! path = None) ∧
  ∃ l, logged h' = logged h ++ l ∧ ∀ path, files h' !! path = files h !! path ∨
    ((path ∈ held ∨ path ∈ l) ∧ files h !! path = None ∧ harmless (files h' !! path)).
(** All guards are dropped. *)
Definition cleaned (h h' : Host) : Prop := (logged h' = logged h → files h' = files h) ∧ guarded h [] h'.

Lemma guarded_cleaned h h' : guarded h [] h' → cleaned h h'.
Proof.
  intros Hg. split; [|done]. destruct Hg as (_ & l & -> & Hg). intros Hl. rewrite <- app_nil_r in Hl. apply app_inv_head in Hl as ->.
  apply map_eq. intros path. destruct (Hg path) as [?|([[]%elem_of_nil|[]%elem_of_nil] & _)]; done.
Qed.

Lemma guarded_drop h path held h' : guarded h (path :: held) h' → guarded h held (TempFile_drop path h').
Proof.
  intros (Hheld & l & Hl & Hg). split; [set_solver|]. unfold TempFile_drop, remove_file. destruct (io _ h') as [r h2] eqn:E.
  apply io_files in E as (_ & L & F). specialize (Hheld path ltac:(by left)). destruct r as [[]|[]]; cbn in F.
  - exists l. rewrite L, Hl, F. split; [done|]. intros q. destruct (decide (q = path)) as [->|Hne].
    + left. by rewrite lookup_delete_eq.
    + rewrite lookup_delete_ne by done. destruct (Hg q) as [?|([[->|?]%elem_of_cons|?] & ?)]; [by left|done|right; auto..].
  - exists (l ++ [path]). cbn. rewrite L, Hl, F, app_assoc. split; [done|]. intros q.
    destruct (Hg q) as [?|([[->|?]%elem_of_cons|?] & ?)]; [by left|right..]; (split; [|done]); set_solver.
Qed.

(** A step that has cleaned up after itself. *)
Lemma guarded_after h held h1 h2 : guarded h held h1 → guarded h1 [] h2 → guarded h held h2.
Proof.
  intros (Hh & l1 & L1 & H1) (_ & l2 & L2 & H2). split; [done|]. exists (l1 ++ l2). rewrite L2, L1, app_assoc. split; [done|].
  intros q. destruct (H2 q) as [->|([[]%elem_of_nil|?] & Hn & ?)].
  - destruct (H1 q) as [?|([?|?] & ?)]; [by left|right; set_solver..].
  - right. split; [set_solver|]. split; [|done]. destruct (H1 q) as [<-|(_ & ? & _)]; done.
Qed.
(** New files, which guards hold. *)
Lemma guarded_held h held h' :
  (∀ path, path ∈ held → files h !! path = None) → logged h' = logged h →
  (∀ path, files h' !! path = files h !! path ∨ path ∈ held ∧ harmless (files h' !! path)) → guarded h held h'.
Proof. intros Hn Hl Hf. split; [done|]. exists []. rewrite app_nil_r. split; [done|]. intros q. destruct (Hf q) as [?|[? ?]]; [by left|auto]. Qed.

Lemma guarded_file h h' path f :
  files h !! path = None → logged h' = logged h → files h' = <[path := f]> (files h) → harmless (Some f) → guarded h [path] h'.
Proof.
  intros Hn Hl Hf Hh. apply guarded_held; [by intros q ->%list_elem_of_singleton|done|]. intros q. rewrite Hf.
  destruct (decide (q = path)) as [->|]; [right; rewrite lookup_insert_eq; set_solver|left; by rewrite lookup_insert_ne].
Qed.

(** A credentials file, or nothing. *)
Lemma create_credentials_ok u p h a l :
  names h = a :: l → files h !! ("/tmp/" +:+ a) = None →
  let path := "/tmp/" +:+ a in
  let '(r, h') := create_credentials_file u p h in
  match r with
  | Ok f => f = path ∧ names h' = l ∧ logged h' = logged h ∧
      files h' = <[path := (256, u +:+ newline +:+ p +:+ newline)]> (files h)
  | Err _ => guarded h [] h'
  end.
Proof.
  intros Hn Hf. cbv zeta. unfold create_credentials_file, generate_path. rewrite Hn.
  set (path := "/tmp/" +:+ a) in *. set (h0 := {| files := files h |}).
  unfold mbind, HM_bind. destruct (File_create path h0) as [[[]|] h1] eqn:E1; apply io_files in E1 as (N1 & L1 & F1); cbn in F1.
  2: { apply guarded_drop, guarded_held; [by intros q ->%list_elem_of_singleton|done|]. rewrite F1. auto. }
  rewrite Hf in F1. destruct (set_user_pass_file_permissions path h1) as [[[]|] h2] eqn:E2; apply io_files in E2 as (N2 & L2 & F2); cbn in F2.
  2: { eapply guarded_drop, guarded_file; [done|by rewrite L2, L1|by rewrite F2, F1|]. intros ? ? [= _ <-]. by right. }
  rewrite F1, alter_insert_eq in F2. cbn in F2.
  destruct (write_file path _ h2) as [[[]|] h3] eqn:E3; apply io_files in E3 as (N3 & L3 & F3); cbn in F3.
  - rewrite N3, N2, N1, L3, L2, L1, F3, F2, alter_insert_eq. done.
  - eapply guarded_drop, guarded_file; [done|by rewrite L3, L2, L1|by rewrite F3, F2|]. intros ? ? [= <- _]. by left.
Qed.

Definition has_auth (p : option CustomProxy) : option SocksAuth :=
  match p with Some (Socks5Remote _ auth) => auth | _ => None end.
Definition credentials_text (u p : string) : string := u +:+ newline +:+ p +:+ newline.
Definition proxy_file (h : gmap string (Z * string)) (path : string) (auth : option SocksAuth) : gmap string (Z * string) :=
  match auth with Some x => <[path := (256, credentials_text (username x) (password x))]> h | None => h end.

Lemma create_proxy_auth_ok p h b l :
  names h = b :: l → files h !! ("/tmp/" +:+ b) = None →
  let '(r, h') := create_proxy_auth_file p h in
  match r with
  | Ok f => f = (λ _, "/tmp/" +:+ b) <$> has_auth p ∧ logged h' = logged h ∧
      files h' = proxy_file (files h) ("/tmp/" +:+ b) (has_auth p)
  | Err _ => guarded h [] h'
  end.
Proof.
  intros Hn Hf. unfold create_proxy_auth_file. destruct p as [[| |e [auth|]]|]; try done.
  pose proof (create_credentials_ok (username auth) (password auth) h b l Hn Hf) as Hc. cbv zeta in Hc.
  unfold mbind, HM_bind. destruct (create_credentials_file _ _ h) as [[f|] h']; cbn; [|apply Hc].
  by destruct Hc as (-> & _ & -> & ->).
Qed.

Lemma dropped_files pa pb auth text h h' : pa ≠ pb → files h !! pa = None → files h !! pb = None → logged h' = logged h →
  files h' = proxy_file (<[pa := (256, text)]> (files h)) pb auth → cleaned h (drop_files pa ((λ _, pb) <$> auth) h').
Proof.
  intros Hne Ha Hb Hl Hf. apply guarded_cleaned. unfold drop_files, proxy_file in *. destruct auth; cbn.
  - do 2 apply guarded_drop. apply guarded_held; [set_solver|done|]. intros q. rewrite Hf.
    destruct (decide (q = pb)) as [->|]; [|rewrite lookup_insert_ne by done; destruct (decide (q = pa)) as [->|]].
    + right. rewrite lookup_insert_eq. split; [set_solver|]. intros ? ? [= <- _]. by left.
    + right. rewrite lookup_insert_eq. split; [set_solver|]. intros ? ? [= <- _]. by left.
    + left. by rewrite lookup_insert_ne.
  - eapply guarded_drop, guarded_file; [done..|]. intros ? ? [= <- _]. by left.
Qed.

(** The command of a tunnel that was started. *)
Definition command (params : openvpn.TunnelParameters) (user_file : string) (proxy_file : option string)
    (port : option Z) (resource_dir uuid : string) (log_path : option string) : OpenVpnCommand :=
  {| openvpn_bin := in_dir resource_dir OPENVPN_BIN_FILENAME; cmd_config := get_config_path exists_ resource_dir;
     cmd_remote := Some (openvpn.endpoint (openvpn.config params)); user_pass_path := Some user_file;
     proxy_auth_path := proxy_file; cmd_ca := Some (in_dir resource_dir "ca.crt"); cmd_crl := None;
     cmd_plugin := Some (in_dir resource_dir OPENVPN_PLUGIN_FILENAME, ["/tmp/talpid-openvpn-" +:+ uuid]); cmd_log := log_path;
     cmd_tunnel_options := openvpn.options params; cmd_proxy_settings := openvpn.proxy params; tunnel_alias := None;
     cmd_enable_ipv6 := enable_ipv6 (openvpn.generic_options params); cmd_proxy_port := port;
     cmd_fwmark := Some (openvpn.fwmark params) |}.

Lemma ovpn_start_ok params log dir uuid h a b l :
  names h = a :: b :: l → a ≠ b → files h !! ("/tmp/" +:+ a) = None → files h !! ("/tmp/" +:+ b) = None →
  let '(r, h') := start exists_ listen params log dir uuid h in
  match r with
  | Err _ => cleaned h h'
  | Ok s =>
      logged h' = logged h ∧ st_user_pass_file s = "/tmp/" +:+ a ∧ st_proxy_auth_file s = (λ _, "/tmp/" +:+ b) <$> has_auth (openvpn.proxy params) ∧
      st_command s = command params ("/tmp/" +:+ a) (st_proxy_auth_file s) (proxy.monitor_port <$> st_proxy_monitor s) dir uuid log ∧
      (is_Some (openvpn.proxy params) ↔ is_Some (st_proxy_monitor s)) ∧
      files h' = proxy_file (<["/tmp/" +:+ a := (256, credentials_text (openvpn.username (openvpn.config params))
                                                        (openvpn.password (openvpn.config params)))]> (files h))
                   ("/tmp/" +:+ b) (has_auth (openvpn.proxy params))
  end.
Proof.
  intros Hn Hab Ha Hb. unfold start.
  pose proof (create_credentials_ok (openvpn.username (openvpn.config params)) (openvpn.password (openvpn.config params)) h a (b :: l) Hn Ha) as Hc.
  cbv zeta in Hc. destruct (create_credentials_file _ _ h) as [[f|] h1]; [|by apply guarded_cleaned].
  destruct Hc as (-> & Hn1 & Hl1 & Hf1).
  assert (("/tmp/" +:+ a) ≠ ("/tmp/" +:+ b)) as Hne by (intros [= ?]; done).
  pose proof (create_proxy_auth_ok (openvpn.proxy params) h1 b l Hn1) as Hp.
  rewrite Hf1, lookup_insert_ne in Hp by done. specialize (Hp Hb).
  destruct (create_proxy_auth_file _ h1) as [[f|] h2].
  2: { apply guarded_cleaned, guarded_drop. eapply guarded_after; [|exact Hp].
       eapply guarded_file; [done..|]. intros ? ? [= <- _]. by left. }
  destruct Hp as (-> & Hl2 & Hf2). rewrite Hl1 in Hl2.
  pose proof (dropped_files _ _ _ _ _ _ Hne Ha Hb Hl2 Hf2) as Hdrop.
  destruct (start_proxy (openvpn.proxy params) (openvpn.fwmark params)) as [o|e] eqn:Eo; [|exact Hdrop].
  assert (is_Some (openvpn.proxy params) ↔ is_Some o) as Ho.
  { unfold start_proxy in Eo. destruct (openvpn.proxy params) as [c|]; [|by injection Eo as <-].
    destruct (proxy.start_proxy c _); [|done]. injection Eo as <-. split; eauto. }
  unfold create_openvpn_cmd, get_openvpn_bin, get_plugin_path, new_internal, event_server_start. cbn.
  destruct (exists_ (in_dir dir OPENVPN_BIN_FILENAME)); [|exact Hdrop].
  destruct (exists_ (in_dir dir OPENVPN_PLUGIN_FILENAME)); [|exact Hdrop]. destruct (listen _); [|exact Hdrop].
  cbn. split_and!; try done. by destruct log.
Qed.

Lemma arguments_some params f pf port dir uuid log :
  (is_Some (openvpn.proxy params) ↔ is_Some port) → is_Some (get_arguments (command params f pf port dir uuid log)).
Proof.
  intros Hp. unfold get_arguments. destruct (proxy_arguments _) as [l|] eqn:E; [by eexists|exfalso].
  revert E. unfold proxy_arguments. cbn. destruct (openvpn.proxy params) as [[e pw c|e q|e q]|]; try done.
  destruct port; [done|]. by destruct (proj1 Hp ltac:(done)).
Qed.

(** The parameters without the secrets in them. *)
Definition redact_proxy (p : CustomProxy) : CustomProxy :=
  match p with
  | CustomShadowsocks e _ _ => CustomShadowsocks e "" ""
  | Socks5Remote e (Some _) => Socks5Remote e (Some {| username := ""; password := "" |})
  | p => p
  end.
Definition redact (params : openvpn.TunnelParameters) : openvpn.TunnelParameters :=
  {| openvpn.config := {| openvpn.endpoint := openvpn.endpoint (openvpn.config params); openvpn.username := ""; openvpn.password := "" |};
     openvpn.options := openvpn.options params; openvpn.generic_options := openvpn.generic_options params;
     openvpn.proxy := redact_proxy <$> openvpn.proxy params; openvpn.fwmark := openvpn.fwmark params |}.
Lemma arguments_redacted params f pf port dir uuid log :
  get_arguments (command params f pf port dir uuid log) = get_arguments (command (redact params) f pf port dir uuid log).
Proof.
  unfold get_arguments. assert (proxy_arguments (command params f pf port dir uuid log) =
    proxy_arguments (command (redact params) f pf port dir uuid log)) as ->; [|done].
  unfold proxy_arguments. cbn. by destruct (openvpn.proxy params) as [[| |e [|]]|].
Qed.

(** C34: when the start of a tunnel fails, the files are as they were, and when
    it succeeds, they are so once the monitor is dropped, unless the log says
    that a file could not be removed: such a file is a new one, and empty or for
    its owner alone; until then the
    credentials are in files that only their owner may read; the arguments of
    OpenVPN can always be built (the panic on a Shadowsocks proxy without a port
    is not reached), and depend neither on the user name and password nor on the
    credentials of the proxy. *)
Theorem start_guards_credentials params log dir uuid h :
  fresh_names h →
  let '(r, h') := start exists_ listen params log dir uuid h in
  match r with
  | Err _ => cleaned h h'
  | Ok s =>
      cleaned h (drop_files (st_user_pass_file s) (st_proxy_auth_file s) h') ∧
      files h' !! st_user_pass_file s = Some (256, credentials_text (openvpn.username (openvpn.config params))
                                                     (openvpn.password (openvpn.config params))) ∧
      (∀ path, files h' !! path = files h !! path ∨ fst <$> files h' !! path = Some 256) ∧
      ∃ args, get_arguments (st_command s) = Some args ∧
        get_arguments (command (redact params) (st_user_pass_file s) (st_proxy_auth_file s)
          (proxy.monitor_port <$> st_proxy_monitor s) dir uuid log) = Some args
  end.
Proof.
  intros (a & b & l & Hn & Hab & Ha & Hb). pose proof (ovpn_start_ok params log dir uuid h a b l Hn Hab Ha Hb) as Hs.
  destruct (start _ _ _ _ _ _ h) as [[s|e] h']; [|done]. destruct Hs as (Hl & Hu & Hp & Hc & Hi & Hf).
  assert (("/tmp/" +:+ a) ≠ ("/tmp/" +:+ b)) as Hne by (intros [= ?]; done).
  rewrite Hc, <- arguments_redacted, Hu. split_and!.
  - rewrite Hp. by eapply dropped_files.
  - rewrite Hf. unfold proxy_file. destruct (has_auth _); [rewrite lookup_insert_ne by done|]; by rewrite lookup_insert_eq.
  - intros path. rewrite Hf. unfold proxy_file. destruct (has_auth _);
      [destruct (decide (path = "/tmp/" +:+ b)) as [->|]; [right; by rewrite lookup_insert_eq|rewrite lookup_insert_ne by done]|];
      (destruct (decide (path = "/tmp/" +:+ a)) as [->|]; [right; by rewrite lookup_insert_eq|left; by rewrite lookup_insert_ne]).
  - destruct (arguments_some params ("/tmp/" +:+ a) (st_proxy_auth_file s) (proxy.monitor_port <$> st_proxy_monitor s) dir uuid log)
      as [args E]; [|by exists args]. rewrite Hi. by rewrite fmap_is_Some.
Qed.
End Credentials.

(** ** Where packets go once the tunnel is up *)

Section Traffic.
Import event_server.
Context {K : Type} `{Rtnetlink K} `{NetlinkPacket} `{HashOrder} `{IpNetworkCrate} `{!LinuxRouting K} `{AddressText}.
Context (p : OpenvpnEventProxyImpl) (m : RouteManagerImpl) (k : K) (dev : string) (dst : IpAddr) (idx : Z).
Context (p0 : Z) (first : RuleMessage) (rest : list (Z * RuleMessage)).

(** The system before: rules of the family as every system has them, a table for
    the tunnel alone, the device of the tunnel known to the route manager, and
    the family in use. *)
Record route_ready : Prop := {
  rr_rules : rules_of (family_of dst) k = (p0, first) :: rest;
  rr_rules_ok : rules_ok (fwmark m) (table_id m) (family_of dst) ((p0, first) :: rest);
  rr_table : 255 < table_id m;
  rr_empty e : e ∈ fib k → entry_table e ≠ table_id m;
  rr_iface : node_iface m (Node_device dev) = Some idx;
  rr_family : bool_decide (family_of dst = Inet) || ipv6_enabled p = true
}.

Definition default_route (n : IpNetwork) : RequiredRoute := use_main_table false (RequiredRoute_new n (Node_device dev)).
Lemma extract_routes_ok env l : env !! "dev"%string = Some dev → extract_routes env = Ok l →
  l = [default_route (NetV4 0 0); default_route (NetV6 0 0)].
Proof. intros Hd. unfold extract_routes. rewrite Hd. cbn. unfold set_insert. cbn. by intros [= <-]. Qed.

Lemma default_route_entry n : 255 < table_id m →
  let e := add_message m (normal_route (table_id m) (default_route n)) in
  entry_table e = table_id m ∧ ra_output_interface e = node_iface m (Node_device dev) ∧ ra_destination e = n.
Proof.
  intros Ht. cbn. split_and!; [|done..]. unfold entry_table, compat_table_id. cbn.
  by rewrite (proj2 (Z.ltb_lt 255 (table_id m))) by lia.
Qed.

(** When OpenVPN's routes are up, the handler either fails, reports nothing
    and stops the server, or it reports the tunnel as up, with the credentials
    files removed or their removal attempted, and from then on packets without
    the firewall mark go into the tunnel: unless the local table or a route of
    the main table other than a default route takes them, they are routed to the
    device of the tunnel, for every family in use; packets with the mark (those
    of OpenVPN itself) see only the rules that were there before. *)
Theorem route_up_traffic_in_tunnel r w :
  route_ready → w_manager w = (Some m, k) → env r !! "dev"%string = Some dev →
  let '(res, w') := route_up p r w in
  match res with
  | Err _ => w_events w' = w_events w ∧ w_abort w' = true
  | Ok _ =>
      w_host w' = remove_credentials p (w_host w) ∧ w_abort w' = w_abort w ∧
      (∃ metadata, w_events w' = w_events w ++ [EvUp metadata] ∧ interface metadata = dev) ∧
      ∃ m' k', w_manager w' = (Some m', k') ∧
        ∀ mk, verdict (fib k') mk dst first = Next →
          lookup_verdict (Some 0) (longest (fib k') RT_TABLE_MAIN dst) = Next →
          if mk =? fwmark m
          then route_of k' mk dst =
               walk (verdict (fib k') mk dst) (clear_list (fwmark m) (table_id m) (family_of dst) rest)
          else ∃ e, route_of k' mk dst = Some e ∧ ra_output_interface e = Some idx
  end.
Proof.
  intros Hr Hw Hd. unfold route_up, inspect_err, route_up_inner. cbn [w_manager with_host]. rewrite Hw.
  destruct (handle_create_routing_rules (ipv6_enabled p) (Some m, k)) as [[[]|] s1] eqn:E1; [|done].
  destruct (create_rules_run _ _ _ _ dst p0 first rest (rr_rules Hr) (rr_rules_ok Hr) (rr_family Hr) E1) as (k1 & -> & Hf1 & Hrs).
  destruct (extract_routes (env r)) as [l|] eqn:El; [|done]. apply (extract_routes_ok _ _ Hd) in El as ->.
  destruct (get_tunnel_metadata (env r)) as [md|] eqn:Em; [|done].
  set (routes := List.filter _ _). cbn [w_manager with_manager].
  destruct (handle_add_routes routes (Some m, k1)) as [[[]|] s2] eqn:E2; [|done].
  apply handle_add_routes_ok in E2 as (m0 & k0 & m2 & k2 & [= <- <-] & -> & Ea).
  apply add_required_ok in Ea as (Hm & Hru & Hfib & Hin). cbn. split_and!; [done..| |].
  { exists md. split; [done|]. revert Em. unfold get_tunnel_metadata, required. rewrite Hd. cbn.
    intros Em. repeat (apply result_bind_ok in Em as (? & _ & Em)). by injection Em as <-. }
  exists m2, k2. split; [done|].
  set (n0 := match dst with AddrV4 _ => NetV4 0 0 | AddrV6 _ => NetV6 0 0 end).
  assert (default_route n0 ∈ routes) as Hn0.
  { apply list_elem_of_In, filter_In. rewrite <- list_elem_of_In. pose proof (rr_family Hr) as Hfam. unfold n0.
    destruct dst; cbn in *; (split; [set_solver|]); [done|].
    by rewrite bool_decide_false in Hfam. }
  destruct (Hin _ Hn0) as (e & He & Hk). destruct (default_route_entry n0 (rr_table Hr)) as (Ht & _ & _). cbv zeta in *.
  unfold route_key in Hk. injection Hk as Hk1 Hk2 _.
  eapply (routed_to_tunnel m k2 dst idx p0 first rest e).
  - destruct Hrs as (a & b & c & d & ? & ? & ?). exists a, b, c, d. split_and!; [done..|]. by rewrite Hru.
  - intros x [Hx|(y & Hy & ->)]%Hfib Htx; [rewrite Hf1 in Hx; by apply (rr_empty Hr) in Hx|].
    apply list_elem_of_In, filter_In in Hy as [Hy _]. rewrite <- list_elem_of_In in Hy.
    rewrite <- (rr_iface Hr). repeat (apply elem_of_cons in Hy as [->|Hy]; [by apply default_route_entry, Hr|]). set_solver.
  - done.
  - congruence.
  - rewrite Hk2. by destruct dst.
Qed.
End Traffic.

(** ** A tunnel *)

Module OpenVpnExample.
Import event_server.
(** The addresses of the example are enough here. *)
#[local] Instance ex_text : AddressText := {|
  show_ip a := match a with AddrV4 x => pretty x | AddrV6 x => pretty x end;
  read_ip s := if bool_decide (s = "10.8.0.2"%string) then Some (AddrV4 (Ipv4Addr_new 10 8 0 2)) else None;
  read_ipv4 s := if bool_decide (s = "10.8.0.1"%string) then Some (Ipv4Addr_new 10 8 0 1) else None;
  read_ipv6 s := None
|}.
#[local] Instance ex_shadowsocks : proxy.Shadowsocks := {|
  proxy.known_cipher c := bool_decide (c = "aes-256-gcm"%string);
  proxy.local_server c := Ok [Some (Ok (SockV4 (Ipv4Addr_new 127 0 0 1) 40000))]
|}.

Definition ex_params : openvpn.TunnelParameters :=
  {| openvpn.config := {| openvpn.endpoint := Endpoint_new (AddrV4 (Ipv4Addr_new 1 2 3 4)) 443 Tcp;
                          openvpn.username := "1234123412341234"; openvpn.password := "m" |};
     openvpn.options := {| openvpn.mssfix := Some 1300 |};
     openvpn.generic_options := {| enable_ipv6 := false |};
     openvpn.proxy := Some (Socks5Remote (SockV4 (Ipv4Addr_new 5 6 7 8) 1080) (Some {| username := "u"; password := "p" |}));
     openvpn.fwmark := 1836018789 |}.
Definition ex_host : Host := {| files := {["/etc/hosts" := (420, "127.0.0.1 localhost")]}; names := ["a"; "b"; "c"]; umask := 18; outcomes := []; logged := [] |}.
Definition ex_begin : result ovpn.Error Started * Host :=
  start (λ _, true) (λ _, true) ex_params None "/opt/mullvad" "0" ex_host.

Lemma start_guards_credentials_witness :
  match ex_begin with
  | (Err _, h') => cleaned ex_host h'
  | (Ok s, h') =>
      cleaned ex_host (drop_files (st_user_pass_file s) (st_proxy_auth_file s) h') ∧
      files h' !! st_user_pass_file s = Some (256, credentials_text "1234123412341234" "m") ∧
      (∀ path, files h' !! path = files ex_host !! path ∨ fst <$> files h' !! path = Some 256) ∧
      ∃ args, get_arguments (st_command s) = Some args ∧
        get_arguments (command (λ _, true) (redact ex_params) (st_user_pass_file s) (st_proxy_auth_file s)
          (proxy.monitor_port <$> st_proxy_monitor s) "/opt/mullvad" "0" None) = Some args
  end.
Proof.
  apply (start_guards_credentials (λ _, true) (λ _, true) ex_params None "/opt/mullvad" "0" ex_host).
  exists "a"%string, "b"%string, ["c"%string]. split_and!; [reflexivity|done|reflexivity|reflexivity].
Defined.

Definition ex_env : gmap string string :=
  {["dev" := "wg0-mullvad"; "ifconfig_local" := "10.8.0.2"; "route_vpn_gateway" := "10.8.0.1"]}%string.
Definition ex_proxy : OpenvpnEventProxyImpl :=
  {| user_pass_file_path := "/tmp/a"; proxy_auth_file_path := Some "/tmp/b"; ipv6_enabled := false |}.
Definition ex_world0 : World Kernel :=
  {| w_host := ex_begin.2; w_manager := (Some ex_manager, ex_kernel); w_events := []; w_abort := false |}.

Lemma ex_route_ready :
  route_ready ex_proxy ex_manager ex_kernel "wg0-mullvad" WireguardExample.ex_host 3 0 (table_rule Inet 255) (drop 1 rules4).
Proof.
  constructor.
  - vm_compute. reflexivity.
  - apply (ex_rules_ok Inet). by left.
  - vm_compute. reflexivity.
  - intros e He. vm_compute in He. repeat (apply elem_of_cons in He as [->|He]; [vm_compute; done|]). set_solver.
  - vm_compute. reflexivity.
  - vm_compute. reflexivity.
Qed.
(** The handler succeeds. *)
Lemma ex_route_up : is_ok (route_up ex_proxy {| env := ex_env |} ex_world0).1 = true.
Proof. vm_compute. reflexivity. Qed.

Lemma route_up_traffic_in_tunnel_witness :
  let '(res, w') := route_up ex_proxy {| env := ex_env |} ex_world0 in
  match res with
  | Err _ => w_events w' = [] ∧ w_abort w' = true
  | Ok _ =>
      w_host w' = remove_credentials ex_proxy ex_begin.2 ∧ w_abort w' = false ∧
      (∃ metadata, w_events w' = [] ++ [EvUp metadata] ∧ interface metadata = "wg0-mullvad"%string) ∧
      ∃ m' k', w_manager w' = (Some m', k') ∧
        ∀ mk, verdict (fib k') mk WireguardExample.ex_host (table_rule Inet 255) = Next →
          lookup_verdict (Some 0) (longest (fib k') RT_TABLE_MAIN WireguardExample.ex_host) = Next →
          if mk =? fwmark ex_manager
          then route_of k' mk WireguardExample.ex_host =
               walk (verdict (fib k') mk WireguardExample.ex_host)
                 (clear_list (fwmark ex_manager) (table_id ex_manager) (family_of WireguardExample.ex_host) (drop 1 rules4))
          else ∃ e, route_of k' mk WireguardExample.ex_host = Some e ∧ ra_output_interface e = Some 3
  end.
Proof.
  apply (route_up_traffic_in_tunnel ex_proxy ex_manager ex_kernel "wg0-mullvad" WireguardExample.ex_host 3 0
           (table_rule Inet 255) (drop 1 rules4) {| env := ex_env |} ex_world0).
  - apply ex_route_ready.
  - reflexivity.
  - reflexivity.
Defined.
End OpenVpnExample.
